(* ===== verification/_CoqProject ===== *)
-Q . S2P
Prelude.v
Kservice.v
Cmem.v
Kmemory.v
Kstring.v
Printf.v
PrintfNumber.v
PrintfSpec.v
PrintfCorrect.v
Ringbuffer.v
Kernel.v
RtList.v
Sched.v
Object.v
Timer.v
Thread.v
KernelInv.v
Boot.v
SchedSpec.v
TimerSpec.v
SoftTimer.v
Tick.v
Ipc.v
IpcSem.v
SemSystem.v
IpcMutex.v
IpcEvent.v
ObjectSpec.v
ThreadEnd.v
Device.v
DeviceSpec.v
Suspend.v
WaitQueue.v
IpcQueue.v
IpcMailbox.v
IpcInit.v
WorkQueue.v
WorkQueueSpec.v
WorkQueueTimer.v
WorkQueueCorrect.v
IpcMq.v
Mempool.v
MempoolSystem.v
Sys.v
Console.v
Mem.v
MemSpec.v
MemOps.v
MemRealloc.v
SystemHeap.v
Memheap.v
MemheapSpec.v
MemheapOps.v
MemheapAlloc.v
MemheapFree.v
MemheapRealloc.v
MemheapMove.v
MemheapInit.v
MemheapCalls.v
MemheapCorrect.v
MemheapCheck.v
MemheapUse.v
SList.v
RingBlk.v
RingBlkSpec.v
Completion.v
DataQueue.v
Pipe.v
Line.v
Msh.v
MshSpec.v
MshCorrect.v
Finsh.v
FinshSpec.v
FinshCorrect.v
FinshScreen.v
