(* ===== verification/Prelude.v ===== *)
(** * RT-Thread on the RK3576 board: a verification library

    The repository is the RT-Thread 4.1.1 real-time kernel ported to the
    RK3576 (AArch64), with RT-Thread's components. This library models the
    kernel's own logic, [src/rt-thread/src] and the data of
    [src/rt-thread/include/rtdef.h], in the configuration of [src/rtconfig.h]:
    one CPU, 32 priorities, 100 ticks a second, names of 8 bytes, soft timers,
    all communication objects, assertions on, hooks null, no modules, no
    signals. It also models the queues of the device drivers that are built on
    the kernel, [components/drivers/ipc], and the shell, [components/finsh].

    ** The program

    A thread is on at most one list: the ready list of its priority, the wait
    list of an object, or the list of ended threads. The scheduler gives the
    processor to a thread of the best non-empty ready list, which it finds by
    a bitmap. The tick interrupt advances the clock, takes from the running
    thread a unit of its time slice, and calls back every timer that is due.
    Each thread has a timer of its own, whose callback takes the thread off the
    list it waits on and makes it ready. Semaphores, mutexes, events, mailboxes
    and message queues are objects of the object container with wait lists:
    a call that cannot be served puts the caller on the list, arms its timer
    and calls the scheduler; the opposite call takes a thread off the list,
    makes it ready and calls the scheduler.

    ** Files

    - Prelude.v: machine integers, alignment, and generic lemmas.
    - Kservice.v: [__rt_ffs], [rt_strncpy], [rt_strncmp], the error number
      ([kservice.c]).
    - Cmem.v: bytes in memory, and loops; Kmemory.v and Kstring.v: the memory
      and string functions of [kservice.c], with their theorems; Printf.v: its
      formatted output, with PrintfNumber.v (the text of numbers),
      PrintfSpec.v (what a format string means) and PrintfCorrect.v (the
      theorems).
    - Ringbuffer.v: [components/drivers/ipc/ringbuffer.c] and its header.
    - Kernel.v: the structures and constants of [rtdef.h], the global
      variables as the record [kstate], the monad [St] of a partial state and
      its instance [M], lists.
    - RtList.v: the pointer operations of [rtservice.h] on a store of nodes,
      and their refinement of the lists of Kernel.v.
    - Sched.v: [scheduler.c] and [irq.c], the scheduler's invariant.
    - Object.v: [object.c].
    - Timer.v: [timer.c], with [rt_thread_suspend], [rt_thread_resume] and
      [_thread_timeout] of [thread.c].
    - Thread.v: the rest of [thread.c], [clock.c], [idle.c].
    - KernelInv.v: the kernel invariant and what the primitives above do to a
      state in which it holds.
    - Boot.v: [rtthread_startup] of [components.c], and a decision procedure
      for the invariant.
    - SchedSpec.v, TimerSpec.v, ObjectSpec.v: the theorems on the scheduler,
      the timers and the object container; Tick.v: [rt_tick_increase];
      SoftTimer.v: the timer thread; ThreadEnd.v: the end of threads.
    - Ipc.v: the wait lists of [ipc.c]; IpcSem.v, IpcMutex.v, IpcEvent.v,
      IpcMailbox.v, IpcMq.v: its five objects, functions and theorems;
      IpcQueue.v: what the last two have in common; SemSystem.v: a semaphore
      in a system of threads.
    - IpcInit.v: the initialisation of the five objects.
    - Suspend.v: what it does to the kernel that a thread is suspended with a
      timeout, or made ready and the scheduler called.
    - Device.v, DeviceSpec.v: [device.c]; WaitQueue.v:
      [drivers/ipc/waitqueue.c]; WorkQueue.v: [drivers/ipc/workqueue.c], with
      WorkQueueSpec.v (its invariant and the primitive changes),
      WorkQueueTimer.v (delayed work) and WorkQueueCorrect.v (the theorems).
    - Mempool.v: [mempool.c], functions and theorems; MempoolSystem.v: a pool
      in a system of threads.
    - Sys.v: the kernel beside a memory of its own kind, and the monad [Y].
    - Console.v: the console of [kservice.c].
    - Mem.v: [mem.c], the small memory allocator; MemSpec.v: its heap seen as a
      row of blocks, and the primitive changes of the row; MemOps.v: allocation
      and release; MemRealloc.v: [rt_smem_realloc], [rt_smem_init], [memcheck]
      and the theorems.
    - SystemHeap.v: [rt_malloc] and its relatives of [kservice.c], where the
      heap of Mem.v is protected by a mutex of IpcMutex.v. They touch the
      heap through [on_heap] only, which is undefined for any thread but the
      owner of the mutex.
    - Memheap.v: [memheap.c]; MemheapSpec.v and MemheapOps.v: its heap as two
      rings of headers, and the primitive changes of the rings;
      MemheapAlloc.v, MemheapFree.v, MemheapRealloc.v, MemheapMove.v,
      MemheapInit.v: the functions under the lock; MemheapCalls.v: the lock;
      MemheapCorrect.v, MemheapCheck.v, MemheapUse.v: the theorems.
    - SList.v: the singly linked lists of [rtservice.h].
    - RingBlk.v: [drivers/ipc/ringblk_buf.c]; RingBlkSpec.v: its theorems.
    - Completion.v, DataQueue.v: [drivers/ipc/completion.c] and
      [drivers/ipc/dataqueue.c], functions and theorems.
    - Pipe.v: [drivers/ipc/pipe.c], a ring buffer of Ringbuffer.v behind a mutex
      of IpcMutex.v, called through [device.c].
    - Msh.v: [components/finsh/msh.c]; Line.v: texts in buffers; MshSpec.v: the
      words of a line, and [msh_split]; MshCorrect.v: the theorems.
    - Finsh.v: [components/finsh/shell.c]; FinshSpec.v: a line editor without
      buffers; FinshCorrect.v: that the shell refines it; FinshScreen.v: a
      terminal, and what it shows.

    ** State and effects

    [kstate] has one field per global variable: the tick, the current thread,
    the nest counters, the ready bitmap, the tables of the control blocks, and
    the lists. A control block is named by a number that stands for its
    address. A kernel function is an [M]: it takes a state to a result and a
    state, or to [None] where the C code fails an [RT_ASSERT], follows a
    pointer to something that is not there, or exhausts the fuel of a loop.
    Every theorem of the form "the call gives this result" therefore also says
    that no assertion fails and that all loops end.

    An intrusive list is modelled by the sequence of its elements: [k_tq] maps
    a list of threads ([waitq] names them) and [k_tmq] a list of timers to it.
    The operations on them are those of [rtservice.h] by name; [rt_list_refines]
    shows that the pointer manipulations do just this, also where one node is
    removed without naming its list. The lists of the block ring buffer have
    tail pointers and are kept as the [next] pointers they are.

    The small memory allocator works on a memory of its own, [rt_small_mem]:
    the bytes of the heap and the headers of its blocks, both by their offset
    from [heap_ptr], and the fields of its control block; its functions are in
    the monad [H]. [rt_malloc] works on both states at once, a [sys], in the
    monad [Y]. Where it has to wait for the mutex it returns [Waits], which
    holds the rest of the call. The heap of [memheap.c] is modelled in the same
    way: its headers by address, its bytes, and the lock, a semaphore of the
    kernel. The block ring buffer has a state and a monad [R] of its own, too.

    The memory and string functions work on [cmem], a byte for each address
    that belongs to an object: an access to any other address is undefined, so
    that a theorem which gives a result also says that nothing else is read or
    written. The contents of the memory are described by [bytes_at] and
    [cstring], and a change of it by [write_bytes]. Variable arguments are the
    list of their 64-bit slots, and signed overflow is undefined.

    Where the code calls through a pointer that the application or a driver
    sets, the model has an argument: the operations of a device ([Driver] is
    the contract DeviceSpec.v asks of them), the wake functions of wait-queue
    nodes ([WakeFunctions]), the work functions, and the callbacks of timers
    ([TimerCallbacks]), and the cleanup functions of threads ([ThreadCleanup]).
    What such callbacks do is watched through an observer of the kernel's
    objects that each call steps and nothing else of the timers' code changes
    ([Observed]): its value afterwards says which callbacks were called, how
    often and in which order.
    A work item [w] has the timer [TmUser w].

    The shell works on the bytes of its buffers, on the text it has printed and on
    a world of the application, the [shell_state] of Msh.v; a round of its loop is
    [finsh_key], for one character. What [rt_kprintf] prints is the
    [console_text] that [kprintf_correct] says the console's driver is given.

    The kernel functions run with interrupts disabled, or with the scheduler
    locked; the model runs each one to its end or to the point where the
    calling thread is suspended. A function that may suspend its caller returns
    an [outcome]: [Ret] with its result, or [Wait] with what its local
    variables hold. The function of the same name that ends in [_return] or [_resume] is the rest of its body, run when
    the thread is scheduled again, in whatever state the other threads have
    left. Interleavings of threads are thus sequences of calls, and the
    theorems on one call hold at any place in the sequence, as their only
    assumptions are the invariants that all of them keep.

    Integers have their C width, with the wrap-around written out. Ticks are
    32 bits wide and are compared in a window of half the range from a base
    tick, which is what the code relies on.

    ** The invariants

    [sched_inv] (Sched.v): a thread is on at most one list, once; its status
    says which kind of list; a ready thread is on the list of its priority; the
    bitmap has the bits of the non-empty lists; priority and mask
    agree from the start of a thread to its end; only the current thread runs. [timer_inv] (KernelInv.v): a timer is on a list at
    most once, is then active and of the list's kind, and if it is the timer of
    a thread, that thread is suspended. [kernel_ok] is both and that the current
    thread is there and not on a ready list. Each object has an invariant of its own ([sem_ok],
    [mutex_ok], [event_ok], [mb_ok], [mq_ok], [mp_ok], [completion_ok],
    [dq_ok]), which says that nobody waits for what is there where the code
    guarantees it; [mq_ok] and [mp_ok] also that the pool is divided between
    what is in use and the free list. [heap_ok] (MemSpec.v, MemOps.v): the
    blocks lie one behind the other from the start of the heap to its end,
    each with the links to its neighbours and a consistent mark, no two free
    ones are neighbours, [lfree] is the first free one, and the counters agree.
    [memheap_ok] (MemheapSpec.v): the headers form a ring in the order of their
    addresses, the free ones a second ring, and the sizes add up.
    [rbb_ok] (RingBlkSpec.v): the blocks in use lie in the order of their list
    around the buffer, and both lists are well formed. [wkq_inv]
    (WorkQueueSpec.v): a work item is on at most one list of one queue and its
    flags say which; [system_ok] adds [kernel_ok] and the queue's thread.

    ** Theorems

    - The scheduler: [schedule_correct] (the thread that runs is one of the
      best, and the invariant is kept), [ffs_correct] and [yield_starves]; and,
      for one start of the system, that the start sequence establishes the
      invariant from cleared memory ([boot_correct]).
    - Timers: the timer list is sorted, insertion keeps it so across the
      wrap-around ([timer_start_correct]); the expiry loop of the tick ends and
      serves exactly the due timers, for any callbacks of the application that
      keep the contract [TimerCallbacks] ([timer_check_correct]); that a thread
      sleeps, by [rt_thread_sleep], [rt_thread_delay] or [rt_thread_mdelay], until
      its timer expires ([sleep_correct]). The tick interrupt as a whole
      ([tick_correct]): the callbacks it calls, which timers are back on the
      list, and which are left as they were. The same
      loop on the list of the timer thread, how long that thread waits and what
      wakes it: [timer_thread_correct].
    - Communication: for each object what each call does on each branch, in
      terms of the users' view of the object. Semaphores and events:
      [sem_take_correct], [sem_release_correct], [sem_wait_outcome] (a wait
      ends with what it was told, whichever call has ended it),
      [event_send_correct] (a waiter is answered just if the bits it asks for,
      all or any of them, are there, a condition stated bit by bit),
      [event_recv_correct]; over all interleavings of
      calls, timeouts and other events no unit of a semaphore is lost or made,
      a thread that has waited being credited with a unit just if it has left the
      list and finds [RT_EOK] ([sem_conserved]). A new object's wait lists are
      empty and it has its initial value ([ipc_init_correct]). Mutexes: ownership, nesting
      and inheritance ([mutex_take_correct], [mutex_release_correct]), and two
      executions that show where inheritance is not undone. Mailboxes and
      message queues are shown call by call, then as instances of the interface
      [BoundedQueue], from which the refinement of a first-in first-out queue
      by any sequence of calls follows ([mailbox_refines_fifo],
      [mq_refines_fifo]).
    - Objects: [object_init_found], [object_find_correct].
    - The end of a thread: [thread_close_correct] for [rt_thread_control] with
      the command to close, hence for [rt_thread_detach] and [rt_thread_delete];
      [defunct_execute_correct] for the cleaning-up of the idle thread, with
      any cleanup functions that keep the contract [ThreadCleanup].
    - Memory: the allocator gives out blocks that are large enough, aligned and
      apart from all others, leaves the contents of the others alone, and joins
      free neighbours ([smem_alloc_correct], [smem_free_correct],
      [smem_realloc_correct], [smem_init_correct]); its checker accepts every
      heap in order ([memcheck_correct]); [smem_alloc_wraps] for the largest
      sizes. The system heap behind its mutex: [malloc_correct],
      [malloc_resume_correct], [calloc_correct], and aligned blocks, which can
      be freed again ([malloc_align_correct]). The heaps of [memheap.c]:
      [memheap_alloc_correct], [memheap_free_correct],
      [memheap_realloc_correct]; over any sequence of calls no block overlaps
      another ([memheap_users_safe]); [memheap_grow_overruns] for a request that
      wraps; [memheapcheck_correct] and [memheapcheck_misses] for the checker. Memory pools:
      [mp_alloc_correct], [mp_init_correct], and that over all interleavings of
      requests, with and without waiting, timeouts and releases no block is given
      out twice ([mempool_exclusive]).
    - Memory and strings: [memcpy_memset_correct] (the loops over words do what
      loops over bytes would do), [memmove_correct], [strings_correct],
      [strstr_correct].
    - Formatted output: for every format string [rt_vsnprintf] prints what its
      pieces mean ([vsnprintf_correct]), where the pieces have a text
      ([format_text]) and a meaning ([render]); what it prints of a number can be
      read back ([print_atoi_roundtrip]); [kprintf_correct] for the console.
    - Lists and ring buffers: [rt_list_refines], [ringbuffer_refines_queue],
      [ringbuffer_peek_prefix].
    - Block ring buffer: in all reachable states the blocks in use are inside
      the buffer and apart ([rbb_reachable_safe]); what each call does
      ([rbb_alloc_correct], [rbb_get_correct], [rbb_free_correct]).
    - Devices: any sequence of calls on a device refines a counter of its
      opens and closes with the driver called at its edges
      ([device_refines]).
    - Wait queues and work queues: [wqueue_wait_correct],
      [wqueue_wakeup_correct], and an execution in which a wake-up is lost
      ([wqueue_wakeup_lost]); a work queue refines an abstract queue
      and its timers abstract alarms ([workqueue_refines]), its thread runs the items in order and completes
      them ([workqueue_thread_correct], [workqueue_cancel_all_correct]).
    - Pipes: with all calls through the device, a pipe refines a bounded queue of
      bytes with a count of users ([pipe_refines_queue]); a call that has to wait
      for the mutex does its work when it has it ([pipe_write_waits]);
      [pipe_open_asserts] for the sizes that are not checked.
    - Shell: the shell refines a line editor with cursor, history, completion and
      commands ([finsh_refines_editor]); the user's terminal shows what is in the
      line ([finsh_shows_line]); a line's words are the arguments of the command it
      names ([msh_exec_correct]); a name is completed as far as all candidates
      agree ([auto_complete_correct]). The first two hold while no line reaches 80
      characters; [full_line_overruns] is what happens then, and
      [long_prompt_overruns] shows a prompt that is too long.
    - Completions and data queues: [completion_wait_correct],
      [completion_done_correct], [dq_push_correct], [dq_pop_correct].

    ** Fuel

    Loops whose number of rounds is not the length of a list known at the
    start take fuel and are undefined without it. [timer_check_loop] needs a
    round for each timer that is due and one more (a periodic timer that is
    started again is not due, its period being neither zero nor half the tick
    range);
    [resume_all_loop] a round for each waiting thread and one more, and is
    called with that; [mq_reset_loop] a round for each queued message and one
    more; [rt_list_len] a round for each element and one more. The loops of
    [mem.c] have [smem_fuel], a round for each place a header can be at
    ([smem_fuel_enough]), those of [memheap.c] have [memheap_fuel], a round for
    each place a header can be at and three more ([memheap_fuel_enough]);
    [completion_loop] has a round for each waiting thread and two more,
    [cancel_loop] one for each item and one more; a walk over a list of the block ring buffer has
    [rbb_fuel], a round for each block and one more. [mp_alloc_loop] returns
    where the code waits, so that it needs no fuel. A loop over a string has
    [cmem_fuel], a round for each byte of the memory and two more, a loop that
    counts has the count and one more ([loop_rule] gives their termination).
    The loops of a pipe need two rounds, whatever is transferred. The loops of
    the shell over a line have its length and one more. [rt_defunct_execute]
    needs a round for each ended thread and one more, [soft_timer_check_loop]
    one for each timer that is due and one more.

    ** What is not modelled

    - The machine: interrupt masking, context switch, stacks and the entry
      functions of threads. A context switch is the change of the current
      thread.
    - Memory: the result of [rt_malloc] is an argument of the kernel functions
      that allocate, and freeing a block removes it from its table. A control
      block that is not yet there reads as zero. The registration of the heap
      and of its mutex as objects is not part of the heap's state. The blocks
      of a memory pool and of the block ring buffer are known by number and
      place only, not by their contents.
    - [evt_notify] of a data queue is an application's function: the result of
      a push or a pop says with which event it is called at the end of the call.
    - [signal.c], [slab.c], [cpu.c] are not compiled in this configuration.
    - The POSIX half of [pipe.c], which is not compiled.
    - Of the shell: where its characters come from, the start of its thread, and
      the commands of [cmd.c]. A percent sign in the prompt, which is a format
      string without arguments, is undefined even where the format would be valid.
    - File systems, the network, drivers and board code. *)
From Stdlib Require Export ZArith Lia.
From stdpp Require Export base list numbers gmap.
#[global] Open Scope Z_scope.

(** ** Machine integers

    The C types of [rtdef.h] are represented by [Z]; an assignment to a
    variable of width [w] truncates with one of these functions. *)
Definition u1 (x : Z) : Z := Z.land x 1.
Definition u8 (x : Z) : Z := x mod 2 ^ 8.
Definition u15 (x : Z) : Z := Z.land x 32767.
Definition u16 (x : Z) : Z := x mod 2 ^ 16.
Definition u32 (x : Z) : Z := x mod 2 ^ 32.
Definition u64 (x : Z) : Z := x mod 2 ^ 64.
(** Conversion to a signed type of width 8, 16, 32 (two's complement). *)
Definition s8 (x : Z) : Z := (x + 2 ^ 7) mod 2 ^ 8 - 2 ^ 7.
Definition s16 (x : Z) : Z := (x + 2 ^ 15) mod 2 ^ 16 - 2 ^ 15.
Definition s32 (x : Z) : Z := (x + 2 ^ 31) mod 2 ^ 32 - 2 ^ 31.

(** [RT_ALIGN] and [RT_ALIGN_DOWN] at the width of [rt_size_t], and the
    configured [RT_ALIGN_SIZE]. *)
Definition RT_ALIGN_SIZE : Z := 4.
Definition RT_ALIGN (size align : Z) : Z :=
  Z.land (u64 (size + align - 1)) (Z.lnot (align - 1)).
Definition RT_ALIGN_DOWN (size align : Z) : Z :=
  Z.land size (Z.lnot (align - 1)).

Create HintDb rt.

Lemma u16_small x : 0 <= x < 65536 -> u16 x = x.
Proof. intros. apply Z.mod_small. lia. Qed.
Lemma u32_small x : 0 <= x < 2 ^ 32 -> u32 x = x.
Proof. intros. apply Z.mod_small. lia. Qed.
Lemma u64_small x : 0 <= x < 2 ^ 64 -> u64 x = x.
Proof. intros. apply Z.mod_small. lia. Qed.
Lemma s32_small x : - 2 ^ 31 <= x < 2 ^ 31 -> s32 x = x.
Proof. intros. unfold s32. rewrite Z.mod_small by lia. lia. Qed.
Lemma u8_small x : 0 <= x < 256 -> u8 x = x.
Proof. intros. apply Z.mod_small. lia. Qed.
Lemma u15_small x : 0 <= x < 32768 -> u15 x = x.
Proof.
  intros. unfold u15. change 32767 with (Z.ones 15).
  rewrite Z.land_ones by lia. apply Z.mod_small. lia.
Qed.
Lemma u1_flip x : x = 0 \/ x = 1 -> u1 (Z.lnot x) = 1 - x.
Proof. intros [-> | ->]; reflexivity. Qed.

(** Masks of powers of two. *)
Lemma land_pow2 x j : 0 <= j -> Z.land x (2 ^ j - 1) = x mod 2 ^ j.
Proof. intros. rewrite <- Z.land_ones by lia. f_equal. rewrite Z.ones_equiv. lia. Qed.

Lemma land_lnot_pow2 x j : 0 <= j -> Z.land x (Z.lnot (2 ^ j - 1)) = 2 ^ j * (x / 2 ^ j).
Proof.
  intros. replace (2 ^ j - 1) with (Z.ones j) by (rewrite Z.ones_equiv; lia).
  rewrite <- Z.ldiff_land, Z.ldiff_ones_r, Z.shiftl_mul_pow2, Z.shiftr_div_pow2 by lia. lia.
Qed.

Lemma RT_ALIGN_DOWN_4 x : RT_ALIGN_DOWN x 4 = 4 * (x / 4).
Proof. apply (land_lnot_pow2 x 2). lia. Qed.

Lemma RT_ALIGN_4 x : 0 <= x < 2 ^ 64 - 3 -> RT_ALIGN x 4 = 4 * ((x + 3) / 4).
Proof.
  intros. unfold RT_ALIGN. rewrite u64_small by lia.
  replace (x + 4 - 1) with (x + 3) by lia. apply RT_ALIGN_DOWN_4.
Qed.

(** ** Arrays: lists read and written at [Z] indices *)
Definition zlen {A} (l : list A) : Z := Z.of_nat (length l).
Definition zget (l : list Z) (i : Z) : Z := nth (Z.to_nat i) l 0.
Definition ztake {A} (n : Z) (l : list A) : list A := take (Z.to_nat n) l.
Definition zdrop {A} (n : Z) (l : list A) : list A := drop (Z.to_nat n) l.
(** [memcpy(&buf[off], src, n)]. *)
Definition memcpy_at (buf : list Z) (off : Z) (src : list Z) (n : Z) : list Z :=
  ztake off buf ++ ztake n src ++ zdrop (off + n) buf.
(** [buf[off] = c]. *)
Definition zset (buf : list Z) (off c : Z) : list Z := <[Z.to_nat off := c]> buf.
(** The array [f 0 .. f (n-1)]. *)
Definition ztab (n : Z) (f : Z -> Z) : list Z := map f (seqZ 0 n).

Lemma zlen_nonneg {A} (l : list A) : 0 <= zlen l.
Proof. unfold zlen. lia. Qed.
Lemma zlen_app {A} (l k : list A) : zlen (l ++ k) = zlen l + zlen k.
Proof. unfold zlen. rewrite length_app. lia. Qed.
Lemma zlen_ztake {A} n (l : list A) : 0 <= n <= zlen l -> zlen (ztake n l) = n.
Proof. unfold zlen, ztake. intros. rewrite length_take. lia. Qed.
Lemma ztake_ztake {A} n m (l : list A) : ztake n (ztake m l) = ztake (Z.min n m) l.
Proof. unfold ztake. rewrite take_take. f_equal. lia. Qed.
Lemma zlen_zdrop {A} n (l : list A) : 0 <= n <= zlen l -> zlen (zdrop n l) = zlen l - n.
Proof. unfold zlen, zdrop. intros. rewrite length_drop. lia. Qed.
Lemma zlen_zset l i c : zlen (zset l i c) = zlen l.
Proof. unfold zlen, zset. by rewrite length_insert. Qed.
Lemma zlen_ztab n f : 0 <= n -> zlen (ztab n f) = n.
Proof. intros. unfold zlen, ztab. rewrite length_map, length_seqZ. lia. Qed.
Lemma zlen_memcpy_at buf off src n :
  0 <= off -> 0 <= n -> off + n <= zlen buf -> n <= zlen src ->
  zlen (memcpy_at buf off src n) = zlen buf.
Proof.
  intros. unfold memcpy_at.
  rewrite !zlen_app, !zlen_ztake, zlen_zdrop by lia. lia.
Qed.

Lemma zget_app l k i :
  0 <= i -> zget (l ++ k) i = if i <? zlen l then zget l i else zget k (i - zlen l).
Proof.
  intros. unfold zget, zlen. destruct (Z.ltb_spec i (Z.of_nat (length l))).
  - apply app_nth1. lia.
  - rewrite app_nth2 by lia. f_equal. lia.
Qed.
Lemma zget_ztake n l i : 0 <= i < n -> zget (ztake n l) i = zget l i.
Proof.
  intros. unfold zget, ztake. rewrite !nth_lookup, lookup_take_lt by lia. done.
Qed.
Lemma zget_zdrop n l i : 0 <= i -> 0 <= n -> zget (zdrop n l) i = zget l (n + i).
Proof.
  intros. unfold zget, zdrop. rewrite !nth_lookup, lookup_drop. do 2 f_equal. lia.
Qed.
Lemma zget_zset l i c j :
  0 <= i < zlen l -> 0 <= j -> zget (zset l i c) j = if i =? j then c else zget l j.
Proof.
  intros. unfold zget, zset, zlen in *. rewrite !nth_lookup.
  destruct (Z.eqb_spec i j) as [-> | Hne].
  - rewrite list_lookup_insert_eq by lia. done.
  - rewrite list_lookup_insert_ne by lia. done.
Qed.
Lemma zget_ztab n f i : 0 <= i < n -> zget (ztab n f) i = f i.
Proof.
  intros. unfold zget, ztab. rewrite nth_lookup, list_lookup_fmap, lookup_seqZ_lt by lia.
  simpl. f_equal. lia.
Qed.
Lemma zget_memcpy_at buf off src n j :
  0 <= off -> 0 <= n -> off + n <= zlen buf -> n <= zlen src -> 0 <= j ->
  zget (memcpy_at buf off src n) j =
  if (off <=? j) && (j <? off + n) then zget src (j - off) else zget buf j.
Proof.
  intros. unfold memcpy_at.
  rewrite !zget_app by lia. rewrite zlen_ztake by lia.
  destruct (Z.leb_spec off j), (Z.ltb_spec j (off + n)), (Z.ltb_spec j off);
    try lia; simpl.
  all: rewrite ?zget_app by lia; rewrite ?zlen_ztake by lia;
    try (destruct (Z.ltb_spec (j - off) n); try lia);
    rewrite ?zget_ztake, ?zget_zdrop by lia; f_equal; lia.
Qed.

Lemma zlist_eq (l k : list Z) :
  zlen l = zlen k -> (forall i, 0 <= i < zlen l -> zget l i = zget k i) -> l = k.
Proof.
  intros Hlen Hget. apply nth_ext with (d := 0) (d' := 0).
  - unfold zlen in Hlen. lia.
  - intros n Hn. specialize (Hget (Z.of_nat n)). unfold zget, zlen in Hget.
    rewrite !Nat2Z.id in Hget. apply Hget. lia.
Qed.

(** Case analysis on the boolean comparisons of the code. *)
Ltac zcases :=
  repeat match goal with
  | |- context [?a <? ?b] => destruct (Z.ltb_spec a b)
  | |- context [?a <=? ?b] => destruct (Z.leb_spec a b)
  | |- context [?a =? ?b] => destruct (Z.eqb_spec a b)
  | |- context [?a >? ?b] => rewrite (Z.gtb_ltb a b)
  | |- context [?a >=? ?b] => rewrite (Z.geb_leb a b)
  | H : context [?a <? ?b] |- _ => destruct (Z.ltb_spec a b)
  | H : context [?a <=? ?b] |- _ => destruct (Z.leb_spec a b)
  | H : context [?a =? ?b] |- _ => destruct (Z.eqb_spec a b)
  | H : context [?a >? ?b] |- _ => rewrite (Z.gtb_ltb a b) in H
  | H : context [?a >=? ?b] |- _ => rewrite (Z.geb_leb a b) in H
  end.

(** [lia] on goals with division and remainder by constants. *)
Ltac dlia := Z.to_euclidean_division_equations; lia.

(** ** State and failure

    A function of the C code changes a state of type [S] and returns a value, or
    is undefined: an assertion fails, or it follows a pointer to nothing. *)
Definition St (S A : Type) : Type := S -> option (A * S).

#[export] Instance St_ret {S} : MRet (St S) := fun A a s => Some (a, s).
#[export] Instance St_bind {S} : MBind (St S) := fun A B f x s =>
  match x s with Some (a, s') => f a s' | None => None end.

Definition gets {S A} (f : S -> A) : St S A := fun s => Some (f s, s).
Definition modify {S} (f : S -> S) : St S unit := fun s => Some (tt, f s).
(** [RT_ASSERT(b)]. *)
Definition rt_assert {S} (b : bool) : St S unit := fun s => if b then Some (tt, s) else None.
(** An access through a pointer: undefined when nothing is there. *)
Definition deref {S A} (o : option A) : St S A := fun s =>
  match o with Some a => Some (a, s) | None => None end.
Definition when {S} (b : bool) (x : St S unit) : St S unit := if b then x else mret tt.

Section state.
Context {S : Type}.
Implicit Types (s : S).

(** Running a sequence, one step at a time. *)
Lemma bind_unfold {A B} (x : St S A) (f : A -> St S B) s :
  (x ≫= f) s = match x s with Some (a, s') => f a s' | None => None end.
Proof. reflexivity. Qed.

Lemma bind_Some {A B} (x : St S A) (f : A -> St S B) s b s2 :
  (x ≫= f) s = Some (b, s2) <-> exists a s1, x s = Some (a, s1) /\ f a s1 = Some (b, s2).
Proof.
  rewrite bind_unfold. destruct (x s) as [[a s1]|] eqn:E; split.
  - intros. by exists a, s1.
  - by intros (? & ? & [= <- <-] & ?).
  - done.
  - by intros (? & ? & ? & ?).
Qed.

Lemma bind_ok {A B} (x : St S A) (f : A -> St S B) s a s' : x s = Some (a, s') -> (x ≫= f) s = f a s'.
Proof. intros E. by rewrite bind_unfold, E. Qed.

Lemma bind_inv {A B} (x : St S A) (f : A -> St S B) s z :
  (x ≫= f) s = Some z -> exists a s1, x s = Some (a, s1) /\ f a s1 = Some z.
Proof. rewrite bind_unfold. destruct (x s) as [[a s1]|]; [eauto|done]. Qed.

Lemma assert_inv b s u s1 : rt_assert b s = Some (u, s1) -> b = true /\ s1 = s.
Proof. unfold rt_assert. destruct b; [by intros [= _ <-]|done]. Qed.

Lemma bind_gets {A B} (g : S -> A) (f : A -> St S B) s : (gets g ≫= f) s = f (g s) s.
Proof. done. Qed.

Lemma bind_modify {B} g (f : unit -> St S B) s : (modify g ≫= f) s = f tt (g s).
Proof. done. Qed.

Lemma bind_assert {B} b (f : unit -> St S B) s : b = true -> (rt_assert b ≫= f) s = f tt s.
Proof. by intros ->. Qed.

Lemma bind_deref {A B} (o : option A) (f : A -> St S B) s a : o = Some a -> (deref o ≫= f) s = f a s.
Proof. by intros ->. Qed.
End state.
