(* ===== verification/Kservice.v ===== *)
(** * Kernel services

    The parts of [src/kservice.c] the kernel's own logic rests on: the find
    first set bit of the scheduler, the bounded string operations of the
    object names, and the error number. *)
From S2P Require Import Prelude.

(** ** [__lowest_bit_bitmap] and [__rt_ffs] *)

Definition __lowest_bit_bitmap : list Z :=
  [0; 0; 1; 0; 2; 0; 1; 0; 3; 0; 1; 0; 2; 0; 1; 0;
   4; 0; 1; 0; 2; 0; 1; 0; 3; 0; 1; 0; 2; 0; 1; 0;
   5; 0; 1; 0; 2; 0; 1; 0; 3; 0; 1; 0; 2; 0; 1; 0;
   4; 0; 1; 0; 2; 0; 1; 0; 3; 0; 1; 0; 2; 0; 1; 0;
   6; 0; 1; 0; 2; 0; 1; 0; 3; 0; 1; 0; 2; 0; 1; 0;
   4; 0; 1; 0; 2; 0; 1; 0; 3; 0; 1; 0; 2; 0; 1; 0;
   5; 0; 1; 0; 2; 0; 1; 0; 3; 0; 1; 0; 2; 0; 1; 0;
   4; 0; 1; 0; 2; 0; 1; 0; 3; 0; 1; 0; 2; 0; 1; 0;
   7; 0; 1; 0; 2; 0; 1; 0; 3; 0; 1; 0; 2; 0; 1; 0;
   4; 0; 1; 0; 2; 0; 1; 0; 3; 0; 1; 0; 2; 0; 1; 0;
   5; 0; 1; 0; 2; 0; 1; 0; 3; 0; 1; 0; 2; 0; 1; 0;
   4; 0; 1; 0; 2; 0; 1; 0; 3; 0; 1; 0; 2; 0; 1; 0;
   6; 0; 1; 0; 2; 0; 1; 0; 3; 0; 1; 0; 2; 0; 1; 0;
   4; 0; 1; 0; 2; 0; 1; 0; 3; 0; 1; 0; 2; 0; 1; 0;
   5; 0; 1; 0; 2; 0; 1; 0; 3; 0; 1; 0; 2; 0; 1; 0;
   4; 0; 1; 0; 2; 0; 1; 0; 3; 0; 1; 0; 2; 0; 1; 0].

(** [value] is the 32-bit pattern of the [int] argument. *)
Definition __rt_ffs (value : Z) : Z :=
  if value =? 0 then 0
  else if negb (Z.land value 0xff =? 0) then
    zget __lowest_bit_bitmap (Z.land value 0xff) + 1
  else if negb (Z.land value 0xff00 =? 0) then
    zget __lowest_bit_bitmap (Z.shiftr (Z.land value 0xff00) 8) + 9
  else if negb (Z.land value 0xff0000 =? 0) then
    zget __lowest_bit_bitmap (Z.shiftr (Z.land value 0xff0000) 16) + 17
  else zget __lowest_bit_bitmap (Z.shiftr (Z.land value 0xff000000) 24) + 25.

(** [i] is the index of the least significant bit of [v]. *)
Definition lowest_bit (v i : Z) : Prop :=
  0 <= i /\ Z.testbit v i = true /\ forall j, 0 <= j < i -> Z.testbit v j = false.

Definition table_ok (b : Z) : bool :=
  let i := zget __lowest_bit_bitmap b in
  (0 <=? i) && (i <? 8) && Z.testbit b i &&
  forallb (fun j => (i <=? j) || negb (Z.testbit b j)) (seqZ 0 8).

Lemma table_correct b :
  0 < b < 256 ->
  zget __lowest_bit_bitmap b < 8 /\ lowest_bit b (zget __lowest_bit_bitmap b).
Proof.
  intros Hb.
  assert (forallb table_ok (seqZ 1 255) = true) as Hall by (vm_compute; reflexivity).
  rewrite forallb_forall in Hall. specialize (Hall b).
  assert (table_ok b = true) as Hok.
  { apply Hall. apply list_elem_of_In, elem_of_seqZ. lia. }
  unfold table_ok in Hok. rewrite !andb_true_iff, forallb_forall in Hok.
  destruct Hok as [[[H0 H8] Hbit] Hlow]. split; [lia|]. split; [lia|]. split; [done|].
  intros j Hj. specialize (Hlow j).
  assert (In j (seqZ 0 8)) as Hin by (apply list_elem_of_In, elem_of_seqZ; lia).
  specialize (Hlow Hin). destruct (Z.testbit b j); [|done]. simpl in Hlow. lia.
Qed.

(** A byte of a word: bits [s .. s+7]. *)
Lemma byte_bits v s j :
  0 <= s -> 0 <= j < 8 ->
  Z.testbit (Z.shiftr (Z.land v (Z.shiftl 255 s)) s) j = Z.testbit v (j + s).
Proof.
  intros. rewrite Z.shiftr_spec, Z.land_spec, Z.shiftl_spec by lia.
  replace (j + s - s) with j by lia.
  assert (Z.testbit 255 j = true) as ->; [|by rewrite andb_true_r].
  change 255 with (Z.ones 8). apply Z.ones_spec_low. lia.
Qed.

Lemma byte_range v s :
  0 <= s -> 0 <= Z.shiftr (Z.land v (Z.shiftl 255 s)) s < 256.
Proof.
  intros. rewrite Z.shiftr_land, Z.shiftr_shiftl_l, Z.sub_diag, Z.shiftl_0_r by lia.
  change 255 with (Z.ones 8). rewrite Z.land_ones by lia. apply Z.mod_pos_bound. lia.
Qed.

Lemma byte_zero v s :
  0 <= s -> Z.land v (Z.shiftl 255 s) = 0 ->
  forall j, s <= j < s + 8 -> Z.testbit v j = false.
Proof.
  intros Hs H0 j Hj. replace j with (j - s + s) by lia.
  rewrite <- byte_bits by lia. by rewrite H0, Z.shiftr_0_l, Z.bits_0.
Qed.

Lemma byte_nonzero v s :
  0 <= s -> Z.land v (Z.shiftl 255 s) <> 0 ->
  Z.shiftr (Z.land v (Z.shiftl 255 s)) s <> 0.
Proof.
  intros Hs Hnz H0. apply Hnz. apply Z.bits_inj'. intros n Hn. rewrite Z.bits_0.
  destruct (decide (s <= n < s + 8)).
  - assert (Z.testbit (Z.shiftr (Z.land v (Z.shiftl 255 s)) s) (n - s) = false) as Hb
      by (rewrite H0; apply Z.bits_0).
    rewrite Z.shiftr_spec in Hb by lia. by replace (n - s + s) with n in Hb by lia.
  - rewrite Z.land_spec. apply andb_false_intro2.
    destruct (decide (n < s)); [by apply Z.shiftl_spec_low|].
    rewrite Z.shiftl_spec by lia. change 255 with (Z.ones 8).
    apply Z.ones_spec_high. lia.
Qed.

(** The first non-zero byte decides. *)
Lemma ffs_byte v s :
  0 <= s -> (forall j, 0 <= j < s -> Z.testbit v j = false) ->
  Z.land v (Z.shiftl 255 s) <> 0 ->
  let i := zget __lowest_bit_bitmap (Z.shiftr (Z.land v (Z.shiftl 255 s)) s) + s in
  i < s + 8 /\ lowest_bit v i.
Proof.
  intros Hs Hlow Hnz. pose proof (byte_range v s Hs). pose proof (byte_nonzero v s Hs Hnz).
  destruct (table_correct (Z.shiftr (Z.land v (Z.shiftl 255 s)) s)) as (H8 & Hi0 & Hb & Hl); [lia|].
  rewrite byte_bits in Hb by lia.
  split; [lia|]. split; [lia|]. split; [done|]. intros j Hj.
  destruct (decide (j < s)); [apply Hlow; lia|].
  replace j with (j - s + s) by lia. rewrite <- byte_bits by lia. apply Hl. lia.
Qed.

Lemma ffs_spec v :
  0 < v < 2 ^ 32 -> __rt_ffs v - 1 < 32 /\ lowest_bit v (__rt_ffs v - 1).
Proof.
  intros Hv. unfold __rt_ffs.
  change 0xff with (Z.shiftl 255 0). change (Z.land v (Z.shiftl 255 0)) with (Z.land v 255).
  change 0xff00 with (Z.shiftl 255 8). change 0xff0000 with (Z.shiftl 255 16).
  change 0xff000000 with (Z.shiftl 255 24).
  destruct (Z.eqb_spec v 0); [lia|].
  pose proof (ffs_byte v 0) as H0. pose proof (ffs_byte v 8) as H1.
  pose proof (ffs_byte v 16) as H2. pose proof (ffs_byte v 24) as H3.
  pose proof (byte_zero v 0) as Z0. pose proof (byte_zero v 8) as Z1.
  pose proof (byte_zero v 16) as Z2. pose proof (byte_zero v 24) as Z3.
  cbv zeta in *. change (Z.shiftl 255 0) with 255 in *. rewrite Z.shiftr_0_r in H0.
  destruct (Z.eqb_spec (Z.land v 255) 0) as [E0|E0]; simpl.
  2: { replace (_ + 1 - 1) with (zget __lowest_bit_bitmap (Z.land v 255) + 0) by lia.
       destruct H0 as [? ?]; try done; [intros; lia|]. split; [lia|done]. }
  destruct (Z.eqb_spec (Z.land v (Z.shiftl 255 8)) 0) as [E1|E1]; simpl.
  2: { replace (_ + 9 - 1) with
         (zget __lowest_bit_bitmap (Z.shiftr (Z.land v (Z.shiftl 255 8)) 8) + 8) by lia.
       destruct H1 as [? ?]; [lia|intros; apply Z0; [lia|exact E0|lia]|exact E1|]. split; [lia|done]. }
  assert (forall j, 0 <= j < 16 -> Z.testbit v j = false) as L1.
  { intros j Hj. destruct (decide (j < 8)); [apply Z0; [lia|exact E0|lia]|apply Z1; [lia|exact E1|lia]]. }
  destruct (Z.eqb_spec (Z.land v (Z.shiftl 255 16)) 0) as [E2|E2]; simpl.
  2: { replace (_ + 17 - 1) with
         (zget __lowest_bit_bitmap (Z.shiftr (Z.land v (Z.shiftl 255 16)) 16) + 16) by lia.
       destruct H2 as [? ?]; [lia|exact L1|exact E2|]. split; [lia|done]. }
  assert (forall j, 0 <= j < 24 -> Z.testbit v j = false) as L2.
  { intros j Hj. destruct (decide (j < 16)); [apply L1; lia|apply Z2; [lia|exact E2|lia]]. }
  replace (_ + 25 - 1) with
    (zget __lowest_bit_bitmap (Z.shiftr (Z.land v (Z.shiftl 255 24)) 24) + 24) by lia.
  destruct H3 as [? ?]; [lia|exact L2| |split; [lia|done]].
  intros E3. assert (v = 0); [|lia]. apply Z.bits_inj'. intros j Hj. rewrite Z.bits_0.
  destruct (decide (j < 24)); [apply L2; lia|]. destruct (decide (j < 32)); [apply Z3; [lia|exact E3|lia]|].
  apply Z.bits_above_log2; [lia|]. apply Z.log2_lt_pow2; [lia|].
  apply Z.lt_le_trans with (2 ^ 32); [lia|]. apply Z.pow_le_mono_r; lia.
Qed.

(** ** Bounded strings

    A C string is the list of its bytes; past the end of the list the
    terminating zero is read. [char] is unsigned on this architecture. *)

Definition chr (s : list Z) : Z := match s with [] => 0 | c :: _ => c end.
Definition next (s : list Z) : list Z := match s with [] => [] | _ :: s => s end.

(** The [n] bytes written at [dst]. *)
Fixpoint rt_strncpy (src : list Z) (n : nat) : list Z :=
  match n with
  | O => []
  | S n' =>
      if chr src =? 0 then 0 :: replicate n' 0
      else chr src :: rt_strncpy (next src) n'
  end.

(** [__res] is a [signed char]. *)
Fixpoint rt_strncmp (cs ct : list Z) (count : nat) : Z :=
  match count with
  | O => 0
  | S count' =>
      let res := s8 (chr cs - chr ct) in
      if negb (res =? 0) || (chr cs =? 0) then res
      else rt_strncmp (next cs) (next ct) count'
  end.

Definition is_string (s : list Z) : Prop := Forall (fun c => 0 < c < 256) s.

Lemma chr_range s : is_string s -> 0 <= chr s < 256.
Proof. intros [|c l Hc _]; simpl; lia. Qed.
Lemma is_string_next s : is_string s -> is_string (next s).
Proof. intros Hs. destruct Hs; [constructor|assumption]. Qed.

Lemma s8_zero x : - 256 < x < 256 -> s8 x = 0 <-> x = 0.
Proof. intros. unfold s8. split; intros; [|subst; done]. dlia. Qed.

(** [rt_strncmp] answers 0 exactly on strings with the same first [n] bytes. *)
Lemma strncmp_eq cs ct n :
  is_string cs -> is_string ct ->
  rt_strncmp cs ct n = 0 <-> take n cs = take n ct.
Proof.
  revert cs ct. induction n as [|n IH]; intros cs ct Hcs Hct; [done|]. simpl.
  pose proof (chr_range cs Hcs). pose proof (chr_range ct Hct).
  pose proof (s8_zero (chr cs - chr ct)) as Hz.
  specialize (IH (next cs) (next ct) (is_string_next _ Hcs) (is_string_next _ Hct)).
  destruct (Z.eqb_spec (s8 (chr cs - chr ct)) 0) as [E|E]; simpl.
  - apply Hz in E; [|lia].
    destruct Hcs as [|c s Hc], Hct as [|d t Hd]; simpl in *; try lia; try done.
    assert (c = d) as <- by lia. destruct (Z.eqb_spec c 0); [lia|]. rewrite IH.
    split; [by intros ->|by intros [=]].
  - split; [done|]. intros Heq. exfalso. apply E, Hz; [lia|].
    destruct Hcs as [|c s Hc], Hct as [|d t Hd]; simpl in *; try done.
    injection Heq as -> _. lia.
Qed.

Lemma strncpy_length s n : length (rt_strncpy s n) = n.
Proof.
  revert s. induction n as [|n IH]; intros s; simpl; [done|].
  destruct (chr s =? 0); simpl; [by rewrite length_replicate|by rewrite IH].
Qed.

(** Comparing with a copy is comparing with the original. *)
Lemma strncmp_strncpy s ct n : rt_strncmp (rt_strncpy s n) ct n = rt_strncmp s ct n.
Proof.
  revert s ct. induction n as [|n IH]; intros s ct; [done|]. simpl.
  destruct (Z.eqb_spec (chr s) 0) as [E|E]; simpl.
  - by rewrite E, orb_true_r.
  - rewrite (proj2 (Z.eqb_neq _ _) E), orb_false_r, IH. done.
Qed.
