(* ===== verification/Cmem.v ===== *)
(** * Bytes in memory

    The memory that the string and memory functions of [src/kservice.c] work
    on: a byte for each address that belongs to an object. An access to any
    other address is undefined. Loops are written with [loop], whose rule
    [loop_rule] gives their termination and their result from an invariant and
    a measure. *)
From S2P Require Import Prelude.

(** ** Loops

    A round of a loop ends the loop with a result, or gives the local
    variables of the next round. *)
Section loops.
Context {S X R : Type}.

Definition again (x : X) : St S (X + R) := mret (inl x).
Definition stop (r : R) : St S (X + R) := mret (inr r).

Fixpoint loop (fuel : nat) (round : X -> St S (X + R)) (x : X) : St S R :=
  match fuel with
  | O => fun _ => None
  | Datatypes.S fuel =>
      y ← round x;
      match y with inl x => loop fuel round x | inr r => mret r end
  end.

Lemma loop_rule (round : X -> St S (X + R)) (I : X -> S -> Prop) (measure : X -> nat) (Q : R -> S -> Prop) :
  (forall x s, I x s -> exists y s', round x s = Some (y, s') /\
     match y with inl x' => I x' s' /\ (measure x' < measure x)%nat | inr r => Q r s' end) ->
  forall fuel x s, I x s -> (measure x < fuel)%nat ->
  exists r s', loop fuel round x s = Some (r, s') /\ Q r s'.
Proof.
  intros Hround fuel. induction fuel as [|fuel IH]; intros x s HI Hm; [lia|].
  destruct (Hround x s HI) as (y & s' & E & Hy). cbn [loop]. rewrite (bind_ok _ _ _ _ _ E).
  destruct y as [x'|r]; [|by exists r, s']. destruct Hy as [HI' Hlt]. apply IH; [done|lia].
Qed.
End loops.

Lemma mret_ok {S A} (x y : A) (s : S) : x = y -> (mret x : St S A) s = Some (y, s).
Proof. by intros ->. Qed.

(** ** Memory *)

Abbreviation cmem := (gmap Z Z).

Definition load (a : Z) : St cmem Z := v ← gets (.!! a); deref v.
Definition store (a v : Z) : St cmem unit :=
  old ← gets (fun m : cmem => m !! a);
  deref old;;
  modify <[a := u8 v]>.

(** A word of eight bytes, the least significant byte first. *)
Fixpoint load_bytes (n : nat) (a : Z) : St cmem (list Z) :=
  match n with
  | O => mret []
  | S n => v ← load a; rest ← load_bytes n (a + 1); mret (v :: rest)
  end.
Fixpoint store_bytes (a : Z) (l : list Z) : St cmem unit :=
  match l with
  | [] => mret tt
  | v :: l => store a v;; store_bytes (a + 1) l
  end.
Definition load64 (a : Z) : St cmem Z := l ← load_bytes 8 a; mret (little_endian_to_Z 8 l).
Definition store64 (a w : Z) : St cmem unit := store_bytes a (Z_to_little_endian 8 8 w).

(** A walk over an object ends within a round for each byte of the memory. *)
Definition cmem_fuel : St cmem nat := gets (fun m => S (S (size m))).

(** ** What is in the memory *)

(** The bytes [l] lie at [a]. *)
Definition bytes_at (m : cmem) (a : Z) (l : list Z) : Prop :=
  forall i v, l !! i = Some v -> m !! (a + Z.of_nat i) = Some v.
(** The [n] bytes at [a] belong to an object. *)
Definition mapped (m : cmem) (a n : Z) : Prop := forall b, a <= b < a + n -> is_Some (m !! b).
(** The memory holds bytes. *)
Definition cmem_ok (m : cmem) : Prop := map_Forall (fun _ v => 0 <= v < 256) m.
(** The memory after [l] is written to [a]. *)
Fixpoint write_bytes (a : Z) (l : list Z) (m : cmem) : cmem :=
  match l with
  | [] => m
  | v :: l => write_bytes (a + 1) l (<[a := v]> m)
  end.
(** The C string [s] lies at [a]. *)
Definition cstring (m : cmem) (a : Z) (s : list Z) : Prop :=
  Forall (fun v => v <> 0) s /\ bytes_at m a (s ++ [0]).
(** Two stretches of memory have no byte in common. *)
Definition apart (a n b k : Z) : Prop := a + n <= b \/ b + k <= a.

Lemma write_bytes_lookup a l m b :
  write_bytes a l m !! b =
  if (a <=? b) && (b <? a + zlen l) then l !! Z.to_nat (b - a) else m !! b.
Proof.
  revert a m. induction l as [|v l IH]; intros a m; cbn [write_bytes].
  - replace (zlen []) with 0 by done. zcases; simpl; try lia; done.
  - rewrite IH. unfold zlen. cbn [length].
    destruct (decide (b = a)) as [->|Hne].
    + rewrite lookup_insert_eq, Z.sub_diag. zcases; simpl; try lia; done.
    + rewrite lookup_insert_ne by lia. zcases; simpl; try lia; try done.
      by replace (Z.to_nat (b - a)) with (S (Z.to_nat (b - (a + 1)))) by lia.
Qed.

Lemma write_bytes_out a l m b : ~ (a <= b < a + zlen l) -> write_bytes a l m !! b = m !! b.
Proof. intros. rewrite write_bytes_lookup. zcases; simpl; try done. lia. Qed.

Lemma write_bytes_in a l m b : a <= b < a + zlen l -> write_bytes a l m !! b = l !! Z.to_nat (b - a).
Proof. intros. rewrite write_bytes_lookup. zcases; simpl; try done; lia. Qed.

Lemma write_bytes_app a l k m :
  write_bytes a (l ++ k) m = write_bytes (a + zlen l) k (write_bytes a l m).
Proof.
  revert a m. induction l as [|v l IH]; intros a m; cbn [write_bytes app].
  - by replace (a + zlen []) with a by (unfold zlen; simpl; lia).
  - rewrite IH. f_equal. unfold zlen. cbn [length]. lia.
Qed.

Lemma write_bytes_snoc a l v m :
  write_bytes a (l ++ [v]) m = <[a + zlen l := v]> (write_bytes a l m).
Proof. by rewrite write_bytes_app. Qed.

Lemma write_bytes_at a l m : bytes_at (write_bytes a l m) a l.
Proof.
  intros i v E. pose proof (lookup_lt_Some _ _ _ E). rewrite write_bytes_in by (unfold zlen; lia).
  by replace (Z.to_nat _) with i by lia.
Qed.

Lemma write_bytes_mapped a l m b n : mapped m b n -> mapped (write_bytes a l m) b n.
Proof.
  intros Hm c Hc. rewrite write_bytes_lookup. zcases; simpl; try (by apply Hm).
  apply lookup_lt_is_Some. unfold zlen in *. lia.
Qed.

Lemma write_bytes_apart a l m b k :
  apart a (zlen l) b (zlen k) -> bytes_at m b k -> bytes_at (write_bytes a l m) b k.
Proof.
  intros Ha Hk i v E. pose proof (lookup_lt_Some _ _ _ E).
  rewrite write_bytes_out; [by apply Hk|]. unfold apart, zlen in *. lia.
Qed.

Lemma cmem_ok_write a l m : cmem_ok m -> Forall (fun v => 0 <= v < 256) l -> cmem_ok (write_bytes a l m).
Proof.
  intros Hm Hl b v. rewrite write_bytes_lookup. zcases; simpl; try (by apply Hm).
  intros E. by apply (Forall_lookup_1 _ _ _ _ Hl E).
Qed.

Lemma bytes_at_app m a l k : bytes_at m a (l ++ k) <-> bytes_at m a l /\ bytes_at m (a + zlen l) k.
Proof.
  unfold zlen. split; [intros H; split|intros [H1 H2]]; intros i v E.
  - apply H. by apply lookup_app_l_Some.
  - replace (a + Z.of_nat (length l) + Z.of_nat i) with (a + Z.of_nat (length l + i)) by lia.
    apply H. rewrite lookup_app_r by lia. by replace (length l + i - length l)%nat with i by lia.
  - apply lookup_app_Some in E as [E|[Hi E]]; [by apply H1|].
    apply H2 in E. by replace (a + Z.of_nat i) with (a + Z.of_nat (length l) + Z.of_nat (i - length l)) by lia.
Qed.

Lemma bytes_at_cons m a v l : bytes_at m a (v :: l) <-> m !! a = Some v /\ bytes_at m (a + 1) l.
Proof.
  change (v :: l) with ([v] ++ l). rewrite bytes_at_app. unfold zlen. cbn [length].
  apply and_iff_compat_r. split.
  - intros H. rewrite <- (Z.add_0_r a). by apply (H 0%nat).
  - intros H [|i] x [=<-]. by rewrite Z.add_0_r.
Qed.

Lemma bytes_at_nil m a : bytes_at m a [].
Proof. intros i v E. done. Qed.

Lemma bytes_at_lookup m a l i : bytes_at m a l -> 0 <= i < zlen l -> m !! (a + i) = Some (zget l i).
Proof.
  intros H Hi. unfold zlen in Hi. destruct (lookup_lt_is_Some_2 l (Z.to_nat i)) as [v E]; [lia|].
  apply H in E as E'. replace (a + Z.of_nat (Z.to_nat i)) with (a + i) in E' by lia.
  rewrite E'. f_equal. unfold zget. by rewrite nth_lookup, E.
Qed.

Lemma bytes_at_mapped m a l : bytes_at m a l -> mapped m a (zlen l).
Proof. intros H b Hb. replace b with (a + (b - a)) by lia. rewrite (bytes_at_lookup _ _ _ _ H) by lia. by eexists. Qed.

(** The bytes at [a], and that they are unique. *)
Lemma mapped_bytes m a n : 0 <= n -> mapped m a n -> exists l, zlen l = n /\ bytes_at m a l.
Proof.
  intros Hn H. rewrite <- (Z2Nat.id n Hn) in *. generalize dependent a.
  induction (Z.to_nat n) as [|k IH]; intros a H; [by exists []; split; [|apply bytes_at_nil]|].
  destruct (H a) as [v E]; [lia|]. destruct (IH (a + 1)) as (l & Hl & Hb).
  { intros b Hb. apply H. lia. }
  exists (v :: l). split; [unfold zlen in *; cbn [length]; lia|]. by apply bytes_at_cons.
Qed.

Lemma bytes_at_bytes m a l : cmem_ok m -> bytes_at m a l -> Forall (fun v => 0 <= v < 256) l.
Proof. intros Hm H. apply Forall_lookup_2. intros i v E. by apply (Hm (a + Z.of_nat i)), H. Qed.

(** As many bytes are mapped as there are addresses of an object. *)
Lemma mapped_size m a n : mapped m a n -> (Z.to_nat n <= size m)%nat.
Proof.
  intros H. rewrite <- size_dom. replace (Z.to_nat n) with (size (list_to_set (seqZ a n) : gset Z)).
  - apply subseteq_size. intros b Hb. apply elem_of_list_to_set, elem_of_seqZ in Hb.
    apply elem_of_dom. by apply H.
  - rewrite size_list_to_set by apply NoDup_seqZ. apply length_seqZ.
Qed.

(** ** Accesses *)

Lemma load_ok m a v : m !! a = Some v -> load a m = Some (v, m).
Proof. intros E. unfold load. rewrite bind_gets, E. done. Qed.

Lemma store_ok m a v : is_Some (m !! a) -> store a v m = Some (tt, <[a := u8 v]> m).
Proof. intros [x E]. unfold store. rewrite bind_gets, E. done. Qed.

Lemma load_bytes_ok m a l : bytes_at m a l -> load_bytes (length l) a m = Some (l, m).
Proof.
  revert a. induction l as [|v l IH]; intros a H; [done|]. apply bytes_at_cons in H as [E H].
  cbn [load_bytes length]. rewrite (bind_ok _ _ _ _ _ (load_ok _ _ _ E)), (bind_ok _ _ _ _ _ (IH _ H)). done.
Qed.

Lemma store_bytes_ok m a l :
  mapped m a (zlen l) -> Forall (fun v => 0 <= v < 256) l ->
  store_bytes a l m = Some (tt, write_bytes a l m).
Proof.
  intros H Hl. revert a m H. induction Hl as [|v l Hv Hl IH]; intros a m H; [done|].
  unfold zlen in H. cbn [length] in H. cbn [store_bytes write_bytes].
  rewrite (bind_ok _ _ _ _ _ (store_ok _ _ v (H a ltac:(lia)))), u8_small by lia.
  apply IH. intros b Hb. unfold zlen in Hb. apply (write_bytes_mapped a [v] m (a + 1) (zlen l)); [|done].
  intros c Hc. unfold zlen in Hc. apply H. lia.
Qed.

Lemma load64_ok m a l : length l = 8%nat -> bytes_at m a l -> load64 a m = Some (little_endian_to_Z 8 l, m).
Proof. intros Hl H. unfold load64. rewrite <- Hl, (bind_ok _ _ _ _ _ (load_bytes_ok _ _ _ H)). done. Qed.

(** A word that was loaded is stored as the bytes it was loaded from. *)
Lemma store64_ok m a l :
  length l = 8%nat -> Forall (fun v => 0 <= v < 256) l -> mapped m a 8 ->
  store64 a (little_endian_to_Z 8 l) m = Some (tt, write_bytes a l m).
Proof.
  intros Hl Hb Hm. unfold store64. rewrite Z_to_little_endian_to_Z; [|lia|lia|done].
  apply store_bytes_ok; [|done]. unfold zlen. by rewrite Hl.
Qed.
