(* ===== verification/Kmemory.v ===== *)
(** * Memory functions

    [rt_memset], [rt_memcpy], [rt_memmove] and [rt_memcmp] of
    [src/kservice.c], with their loops over words of eight bytes, and that they
    do what the loops over bytes would do. *)
From S2P Require Import Prelude Cmem.

(** [sizeof(long)] *)
Definition LBLOCKSIZE : Z := 8.
Definition BIGBLOCKSIZE : Z := Z.shiftl LBLOCKSIZE 2.
(** [X & (sizeof(long) - 1)] *)
Definition UNALIGNED (X : Z) : Z := Z.land X (LBLOCKSIZE - 1).

(** ** [rt_memset] *)

(** [for (i = 0; i < LBLOCKSIZE; i ++) buffer = (buffer << 8) | d;] *)
Fixpoint memset_buffer (n : nat) (buffer d : Z) : Z :=
  match n with
  | O => buffer
  | S n => memset_buffer n (Z.lor (u64 (Z.shiftl buffer 8)) d) d
  end.

(** Blocks of four words, words, bytes: [(where, how many bytes are left)]. *)
Definition memset_blocks (buffer : Z) (x : Z * Z) : St cmem (Z * Z + Z * Z) :=
  let '(aligned_addr, count) := x in
  if LBLOCKSIZE * 4 <=? count then
    store64 aligned_addr buffer;;
    store64 (aligned_addr + 8) buffer;;
    store64 (aligned_addr + 16) buffer;;
    store64 (aligned_addr + 24) buffer;;
    again (aligned_addr + 32, count - 4 * LBLOCKSIZE)
  else stop x.
Definition memset_words (buffer : Z) (x : Z * Z) : St cmem (Z * Z + Z * Z) :=
  let '(aligned_addr, count) := x in
  if LBLOCKSIZE <=? count then
    store64 aligned_addr buffer;;
    again (aligned_addr + 8, count - LBLOCKSIZE)
  else stop x.
Definition memset_bytes (d : Z) (x : Z * Z) : St cmem (Z * Z + Z * Z) :=
  let '(m, count) := x in
  if count =? 0 then stop x else store m d;; again (m + 1, count - 1).

Definition rt_memset (s c count : Z) : St cmem Z :=
  let d := Z.land c 0xff in
  let fuel := S (Z.to_nat count) in
  x ← (if negb (count <? LBLOCKSIZE) && (UNALIGNED s =? 0) then
         let buffer := memset_buffer 8 0 d in
         x ← loop fuel (memset_blocks buffer) (s, count);
         loop fuel (memset_words buffer) x
       else mret (s, count));
  loop fuel (memset_bytes d) x;;
  mret s.

(** ** [rt_memcpy] *)

(** [*dst++ = *src++] for a word and for a byte. *)
Definition copy64 (dst src : Z) : St cmem unit := w ← load64 src; store64 dst w.
Definition copy8 (dst src : Z) : St cmem unit := c ← load src; store dst c.

(** [(dst, src, how many bytes are left)]. *)
Definition memcpy_blocks (x : Z * Z * Z) : St cmem (Z * Z * Z + Z * Z * Z) :=
  let '(dst, src, len) := x in
  if BIGBLOCKSIZE <=? len then
    copy64 dst src;;
    copy64 (dst + 8) (src + 8);;
    copy64 (dst + 16) (src + 16);;
    copy64 (dst + 24) (src + 24);;
    again (dst + 32, src + 32, len - BIGBLOCKSIZE)
  else stop x.
Definition memcpy_words (x : Z * Z * Z) : St cmem (Z * Z * Z + Z * Z * Z) :=
  let '(dst, src, len) := x in
  if LBLOCKSIZE <=? len then
    copy64 dst src;;
    again (dst + 8, src + 8, len - LBLOCKSIZE)
  else stop x.
Definition memcpy_bytes (x : Z * Z * Z) : St cmem (Z * Z * Z + Z * Z * Z) :=
  let '(dst, src, len) := x in
  if len =? 0 then stop x else copy8 dst src;; again (dst + 1, src + 1, len - 1).

Definition rt_memcpy (dst src count : Z) : St cmem Z :=
  let fuel := S (Z.to_nat count) in
  x ← (if negb (count <? BIGBLOCKSIZE) && (Z.lor (UNALIGNED src) (UNALIGNED dst) =? 0) then
         x ← loop fuel memcpy_blocks (dst, src, count);
         loop fuel memcpy_words x
       else mret (dst, src, count));
  loop fuel memcpy_bytes x;;
  mret dst.

(** ** [rt_memmove] *)

Definition memmove_down (x : Z * Z * Z) : St cmem (Z * Z * Z + Z * Z * Z) :=
  let '(tmp, s, n) := x in
  if n =? 0 then stop x else copy8 (tmp - 1) (s - 1);; again (tmp - 1, s - 1, n - 1).

Definition rt_memmove (dest src n : Z) : St cmem Z :=
  let fuel := S (Z.to_nat n) in
  (if (src <? dest) && (dest <? src + n)
   then loop fuel memmove_down (dest + n, src + n, n)
   else loop fuel memcpy_bytes (dest, src, n));;
  mret dest.

(** ** [rt_memcmp] *)

Definition memcmp_round (x : Z * Z * Z) : St cmem (Z * Z * Z + Z) :=
  let '(su1, su2, count) := x in
  if 0 <? count then
    c1 ← load su1; c2 ← load su2;
    if negb (c1 - c2 =? 0) then stop (c1 - c2)
    else again (su1 + 1, su2 + 1, count - 1)
  else stop 0.

Definition rt_memcmp (cs ct count : Z) : St cmem Z :=
  loop (S (Z.to_nat count)) memcmp_round (cs, ct, count).

(** Equal tuples of numbers. *)
Ltac pairs := repeat match goal with |- (_, _) = (_, _) => apply f_equal2 end; (reflexivity || lia).

(** ** Filling *)

Lemma zlen_cons {A} (x : A) l : zlen (x :: l) = zlen l + 1.
Proof. unfold zlen. cbn [length]. lia. Qed.
Lemma zlen_replicate {A} n (x : A) : 0 <= n -> zlen (replicate (Z.to_nat n) x) = n.
Proof. intros. unfold zlen. rewrite length_replicate. lia. Qed.

(** [n] bytes [d] at [s]. *)
Definition filled (s d n : Z) (m : cmem) : cmem := write_bytes s (replicate (Z.to_nat n) d) m.

Lemma filled_app s d k n m :
  0 <= k -> 0 <= n -> filled s d (k + n) m = write_bytes (s + k) (replicate (Z.to_nat n) d) (filled s d k m).
Proof.
  intros. unfold filled. rewrite Z2Nat.inj_add, replicate_add, write_bytes_app by lia.
  by rewrite zlen_replicate by lia.
Qed.

(** The word holds the byte eight times. *)
Lemma memset_buffer_spec d : 0 <= d < 256 -> memset_buffer 8 0 d = little_endian_to_Z 8 (replicate 8 d).
Proof.
  intros Hd.
  assert (forallb (fun d => memset_buffer 8 0 d =? little_endian_to_Z 8 (replicate 8 d)) (seqZ 0 256) = true)
    as H by (vm_compute; reflexivity).
  rewrite forallb_forall in H. apply Z.eqb_eq, H, list_elem_of_In, elem_of_seqZ. lia.
Qed.

Section memset.
Context (s d count : Z) (m0 : cmem).
Context (Hd : 0 <= d < 256) (Hcount : 0 <= count) (Hm : mapped m0 s count).

Lemma fill_word k :
  0 <= k -> k + 8 <= count ->
  store64 (s + k) (memset_buffer 8 0 d) (filled s d k m0) = Some (tt, filled s d (k + 8) m0).
Proof.
  intros. rewrite memset_buffer_spec by done. rewrite filled_app by lia. apply store64_ok; [done| |].
  - apply Forall_replicate. lia.
  - apply write_bytes_mapped. intros b Hb. apply Hm. lia.
Qed.

Lemma fill_byte k :
  0 <= k -> k + 1 <= count -> store (s + k) d (filled s d k m0) = Some (tt, filled s d (k + 1) m0).
Proof.
  intros. rewrite filled_app by lia. rewrite store_ok; [by rewrite u8_small by lia|].
  apply (write_bytes_mapped _ _ _ (s + k) 1); [|lia]. intros b Hb. apply Hm. lia.
Qed.

(** [k] bytes are filled. *)
Definition filling (x : Z * Z) (m : cmem) : Prop :=
  exists k, 0 <= k <= count /\ x = (s + k, count - k) /\ m = filled s d k m0.
Definition bytes_left (x : Z * Z) : nat := Z.to_nat x.2.

Lemma filling_loop round :
  (forall k, 0 <= k <= count ->
     exists y m, round (s + k, count - k) (filled s d k m0) = Some (y, m) /\
     match y with
     | inl x => filling x m /\ (bytes_left x < Z.to_nat (count - k))%nat
     | inr x => filling x m
     end) ->
  forall x m, filling x m ->
  exists x' m', loop (S (Z.to_nat count)) round x m = Some (x', m') /\ filling x' m'.
Proof.
  intros Hr x m Hx. apply (loop_rule round filling bytes_left filling); [|done|].
  - intros x1 m1 (k & Hk & -> & ->). unfold bytes_left at 2. apply (Hr k Hk).
  - destruct Hx as (k & Hk & -> & _). unfold bytes_left. cbn [snd]. lia.
Qed.

Lemma memset_blocks_spec x m : filling x m ->
  exists x' m', loop (S (Z.to_nat count)) (memset_blocks (memset_buffer 8 0 d)) x m = Some (x', m') /\ filling x' m'.
Proof.
  apply filling_loop. intros k Hk. unfold memset_blocks, LBLOCKSIZE. zcases.
  - rewrite (bind_ok _ _ _ _ _ (fill_word k ltac:(lia) ltac:(lia))).
    rewrite <- !Z.add_assoc.
    rewrite (bind_ok _ _ _ _ _ (fill_word (k + 8) ltac:(lia) ltac:(lia))).
    replace (k + 16) with (k + 8 + 8) by lia.
    rewrite (bind_ok _ _ _ _ _ (fill_word (k + 8 + 8) ltac:(lia) ltac:(lia))).
    replace (k + 24) with (k + 8 + 8 + 8) by lia.
    rewrite (bind_ok _ _ _ _ _ (fill_word (k + 8 + 8 + 8) ltac:(lia) ltac:(lia))).
    do 2 eexists. split; [done|]. unfold bytes_left; cbn. split; [|lia].
    exists (k + 8 + 8 + 8 + 8). split; [lia|]. split; [pairs|done].
  - do 2 eexists. split; [done|]. by exists k.
Qed.

Lemma memset_words_spec x m : filling x m ->
  exists x' m', loop (S (Z.to_nat count)) (memset_words (memset_buffer 8 0 d)) x m = Some (x', m') /\ filling x' m'.
Proof.
  apply filling_loop. intros k Hk. unfold memset_words, LBLOCKSIZE. zcases.
  - rewrite (bind_ok _ _ _ _ _ (fill_word k ltac:(lia) ltac:(lia))).
    do 2 eexists. split; [done|]. unfold bytes_left; cbn. split; [|lia].
    exists (k + 8). split; [lia|]. split; [pairs|done].
  - do 2 eexists. split; [done|]. by exists k.
Qed.

(** Afterwards all bytes are filled. *)
Lemma memset_bytes_spec x m : filling x m ->
  exists x', loop (S (Z.to_nat count)) (memset_bytes d) x m = Some (x', filled s d count m0).
Proof.
  intros Hx.
  destruct (loop_rule (memset_bytes d) filling bytes_left (fun _ m => m = filled s d count m0))
    with (fuel := S (Z.to_nat count)) (x := x) (s := m) as (x' & m' & E & ->); [|done| |by exists x'].
  - intros x1 m1 (k & Hk & -> & ->). unfold memset_bytes, bytes_left. zcases.
    + do 2 eexists. split; [done|]. cbn. f_equal. lia.
    + rewrite (bind_ok _ _ _ _ _ (fill_byte k ltac:(lia) ltac:(lia))).
      do 2 eexists. split; [done|]. unfold bytes_left; cbn. split; [|lia].
      exists (k + 1). split; [lia|]. split; [pairs|done].
  - destruct Hx as (k & Hk & -> & _). unfold bytes_left. cbn [snd]. lia.
Qed.
End memset.

Lemma memset_spec s c count m :
  0 <= count -> mapped m s count ->
  rt_memset s c count m = Some (s, filled s (u8 c) count m).
Proof.
  intros Hcount Hm. unfold rt_memset.
  assert (Z.land c 255 = u8 c) as -> by (apply (Z.land_ones c 8); lia).
  assert (0 <= u8 c < 256) as Hd by (apply Z.mod_pos_bound; lia).
  generalize (u8 c) Hd. clear c Hd. intros d Hd.
  assert (filling s d count m (s, count) m) as H0.
  { exists 0. split; [lia|]. split; [pairs|done]. }
  assert (forall x m1, filling s d count m x m1 ->
    (loop (S (Z.to_nat count)) (memset_bytes d) x;; mret s) m1 = Some (s, filled s d count m)) as Hend.
  { intros x m1 Hx. destruct (memset_bytes_spec s d count m Hd Hm x m1 Hx) as [x' E].
    by rewrite (bind_ok _ _ _ _ _ E). }
  destruct (_ && _); [|by apply Hend].
  destruct (memset_blocks_spec s d count m Hd Hm _ _ H0) as (x1 & m1 & E1 & H1).
  destruct (memset_words_spec s d count m Hd Hm _ _ H1) as (x2 & m2 & E2 & H2).
  rewrite bind_unfold, bind_unfold, E1, E2. by apply Hend.
Qed.

(** ** Copying *)

(** The first [k] bytes of [l] are at [dst]. *)
Definition copied (dst : Z) (l : list Z) (k : Z) (m : cmem) : cmem := write_bytes dst (ztake k l) m.

Lemma ztake_add {A} k n (l : list A) : 0 <= k -> 0 <= n -> ztake (k + n) l = ztake k l ++ ztake n (zdrop k l).
Proof. intros. unfold ztake, zdrop. rewrite Z2Nat.inj_add by lia. symmetry. apply take_take_drop. Qed.

Lemma copied_app dst l k n m :
  0 <= k -> 0 <= n -> k + n <= zlen l ->
  copied dst l (k + n) m = write_bytes (dst + k) (ztake n (zdrop k l)) (copied dst l k m).
Proof. intros. unfold copied. rewrite ztake_add, write_bytes_app, zlen_ztake by lia. done. Qed.

Lemma bytes_at_zdrop m a l k n : 0 <= k -> bytes_at m a l -> bytes_at m (a + k) (ztake n (zdrop k l)).
Proof.
  intros Hk H i v E. unfold ztake, zdrop in E.
  apply lookup_take_Some in E as [E _]. rewrite lookup_drop in E. apply H in E.
  by replace (a + k + Z.of_nat i) with (a + Z.of_nat (Z.to_nat k + i)) by lia.
Qed.

Lemma zdrop_cons l k : 0 <= k < zlen l -> zdrop k l = zget l k :: zdrop (k + 1) l.
Proof.
  intros Hk. unfold zlen in Hk. destruct (lookup_lt_is_Some_2 l (Z.to_nat k)) as [v E]; [lia|].
  unfold zdrop, zget. rewrite (drop_S _ _ _ E), nth_lookup, E. cbn. do 2 f_equal. lia.
Qed.

Section copying.
Context (dst src : Z) (l : list Z) (m0 : cmem).
Context (Hok : cmem_ok m0) (Hsrc : bytes_at m0 src l) (Hdst : mapped m0 dst (zlen l)).

Section upwards.
(** What is written does not hit what is still to be read. *)
Context (Hover : dst <= src \/ src + zlen l <= dst).

Lemma copied_source k n :
  0 <= k -> 0 <= n -> k + n <= zlen l -> bytes_at (copied dst l k m0) (src + k) (ztake n (zdrop k l)).
Proof.
  intros. pose proof (zlen_zdrop k l). pose proof (zlen_ztake n (zdrop k l)).
  apply write_bytes_apart; [|by apply bytes_at_zdrop].
  unfold apart. rewrite zlen_ztake by lia. lia.
Qed.

Lemma copy_word k :
  0 <= k -> k + 8 <= zlen l ->
  copy64 (dst + k) (src + k) (copied dst l k m0) = Some (tt, copied dst l (k + 8) m0).
Proof.
  intros. pose proof (zlen_zdrop k l) as Hlen. pose proof (copied_source k 8 ltac:(lia) ltac:(lia) ltac:(lia)) as Hs.
  assert (length (ztake 8 (zdrop k l)) = 8%nat) as H8.
  { unfold ztake. rewrite length_take. unfold zlen in *. lia. }
  unfold copy64. rewrite (bind_ok _ _ _ _ _ (load64_ok _ _ _ H8 Hs)), copied_app by lia.
  apply store64_ok; [done| |].
  - apply (bytes_at_bytes m0 (src + k)); [done|]. by apply bytes_at_zdrop.
  - apply write_bytes_mapped. intros b Hb. apply Hdst. lia.
Qed.

Lemma copy_byte k :
  0 <= k < zlen l ->
  copy8 (dst + k) (src + k) (copied dst l k m0) = Some (tt, copied dst l (k + 1) m0).
Proof.
  intros. pose proof (copied_source k 1 ltac:(lia) ltac:(lia) ltac:(lia)) as Hs.
  rewrite copied_app by lia. rewrite (zdrop_cons l k) in * by lia. cbn in *.
  apply bytes_at_cons in Hs as [Hs _]. unfold copy8. rewrite (bind_ok _ _ _ _ _ (load_ok _ _ _ Hs)).
  assert (0 <= zget l k < 256).
  { apply (Hok (src + k)). by apply bytes_at_lookup. }
  rewrite store_ok, u8_small by (done || (apply (write_bytes_mapped _ _ _ (dst + k) 1); [|lia]; intros b Hb; apply Hdst; lia)).
  done.
Qed.

Definition copying (x : Z * Z * Z) (m : cmem) : Prop :=
  exists k, 0 <= k <= zlen l /\ x = (dst + k, src + k, zlen l - k) /\ m = copied dst l k m0.
Definition len_left (x : Z * Z * Z) : nat := Z.to_nat x.2.

Lemma copying_loop round :
  (forall k, 0 <= k <= zlen l ->
     exists y m, round (dst + k, src + k, zlen l - k) (copied dst l k m0) = Some (y, m) /\
     match y with
     | inl x => copying x m /\ (len_left x < Z.to_nat (zlen l - k))%nat
     | inr x => copying x m
     end) ->
  forall x m, copying x m ->
  exists x' m', loop (S (Z.to_nat (zlen l))) round x m = Some (x', m') /\ copying x' m'.
Proof.
  intros Hr x m Hx. apply (loop_rule round copying len_left copying); [|done|].
  - intros x1 m1 (k & Hk & -> & ->). unfold len_left at 2. apply (Hr k Hk).
  - destruct Hx as (k & Hk & -> & _). unfold len_left. cbn [snd]. lia.
Qed.

Lemma memcpy_blocks_spec x m : copying x m ->
  exists x' m', loop (S (Z.to_nat (zlen l))) memcpy_blocks x m = Some (x', m') /\ copying x' m'.
Proof.
  apply copying_loop. intros k Hk. unfold memcpy_blocks. change BIGBLOCKSIZE with 32. zcases.
  - rewrite (bind_ok _ _ _ _ _ (copy_word k ltac:(lia) ltac:(lia))).
    rewrite <- !Z.add_assoc.
    rewrite (bind_ok _ _ _ _ _ (copy_word (k + 8) ltac:(lia) ltac:(lia))).
    replace (k + 16) with (k + 8 + 8) by lia.
    rewrite (bind_ok _ _ _ _ _ (copy_word (k + 8 + 8) ltac:(lia) ltac:(lia))).
    replace (k + 24) with (k + 8 + 8 + 8) by lia.
    rewrite (bind_ok _ _ _ _ _ (copy_word (k + 8 + 8 + 8) ltac:(lia) ltac:(lia))).
    do 2 eexists. split; [done|]. unfold len_left; cbn. split; [|lia].
    exists (k + 8 + 8 + 8 + 8). split; [lia|]. split; [pairs|done].
  - do 2 eexists. split; [done|]. by exists k.
Qed.

Lemma memcpy_words_spec x m : copying x m ->
  exists x' m', loop (S (Z.to_nat (zlen l))) memcpy_words x m = Some (x', m') /\ copying x' m'.
Proof.
  apply copying_loop. intros k Hk. unfold memcpy_words, LBLOCKSIZE. zcases.
  - rewrite (bind_ok _ _ _ _ _ (copy_word k ltac:(lia) ltac:(lia))).
    do 2 eexists. split; [done|]. unfold len_left; cbn. split; [|lia].
    exists (k + 8). split; [lia|]. split; [pairs|done].
  - do 2 eexists. split; [done|]. by exists k.
Qed.

(** Afterwards all bytes are copied. *)
Lemma memcpy_bytes_spec x m : copying x m ->
  exists x', loop (S (Z.to_nat (zlen l))) memcpy_bytes x m = Some (x', write_bytes dst l m0).
Proof.
  intros Hx.
  destruct (loop_rule memcpy_bytes copying len_left (fun _ m => m = write_bytes dst l m0))
    with (fuel := S (Z.to_nat (zlen l))) (x := x) (s := m) as (x' & m' & E & ->); [|done| |by exists x'].
  - intros x1 m1 (k & Hk & -> & ->). unfold memcpy_bytes, len_left. zcases.
    + do 2 eexists. split; [done|]. cbn. unfold copied. f_equal. unfold ztake. apply take_ge. unfold zlen in *. lia.
    + rewrite (bind_ok _ _ _ _ _ (copy_byte k ltac:(lia))).
      do 2 eexists. split; [done|]. unfold len_left; cbn. split; [|lia].
      exists (k + 1). split; [lia|]. split; [pairs|done].
  - destruct Hx as (k & Hk & -> & _). unfold len_left. cbn [snd]. lia.
Qed.

Lemma copying_start : copying (dst, src, zlen l) m0.
Proof. exists 0. pose proof (zlen_nonneg l). split; [lia|]. split; [pairs|done]. Qed.

Lemma memcpy_spec : rt_memcpy dst src (zlen l) m0 = Some (dst, write_bytes dst l m0).
Proof.
  unfold rt_memcpy. pose proof copying_start as H0.
  assert (forall x m1, copying x m1 ->
    (loop (S (Z.to_nat (zlen l))) memcpy_bytes x;; mret dst) m1 = Some (dst, write_bytes dst l m0)) as Hend.
  { intros x m1 Hx. destruct (memcpy_bytes_spec x m1 Hx) as [x' E]. by rewrite (bind_ok _ _ _ _ _ E). }
  destruct (_ && _); [|by apply Hend].
  destruct (memcpy_blocks_spec _ _ H0) as (x1 & m1 & E1 & H1).
  destruct (memcpy_words_spec _ _ H1) as (x2 & m2 & E2 & H2).
  rewrite bind_unfold, bind_unfold, E1, E2. by apply Hend.
Qed.
End upwards.

Section downwards.
Context (Hover : src < dst).

(** The bytes from [j] on are copied. *)
Definition copied_down (j : Z) : cmem := write_bytes (dst + j) (zdrop j l) m0.

Lemma copy_byte_down j :
  0 < j <= zlen l ->
  copy8 (dst + j - 1) (src + j - 1) (copied_down j) = Some (tt, copied_down (j - 1)).
Proof.
  intros Hj. unfold copied_down, copy8.
  assert (m0 !! (src + (j - 1)) = Some (zget l (j - 1))) as E by (apply bytes_at_lookup; [done|lia]).
  replace (src + j - 1) with (src + (j - 1)) by lia.
  assert (write_bytes (dst + j) (zdrop j l) m0 !! (src + (j - 1)) = Some (zget l (j - 1))) as E'
    by (rewrite write_bytes_out by lia; exact E).
  rewrite (bind_ok _ _ _ _ _ (load_ok _ _ _ E')).
  pose proof (Hok _ _ E). cbn in H.
  rewrite store_ok, u8_small by (done || (apply (write_bytes_mapped _ _ _ (dst + (j - 1)) 1); [|lia]; intros b Hb; apply Hdst; lia)).
  f_equal. f_equal. rewrite (zdrop_cons l (j - 1)) by lia. cbn [write_bytes].
  replace (j - 1 + 1) with j by lia. replace (dst + (j - 1) + 1) with (dst + j) by lia.
  replace (dst + j - 1) with (dst + (j - 1)) by lia.
  apply map_eq. intros b. rewrite (write_bytes_lookup (dst + j) (zdrop j l) (<[_:=_]> m0)).
  destruct (decide (b = dst + (j - 1))) as [->|Hne].
  - rewrite !lookup_insert_eq. zcases; simpl; try lia; done.
  - rewrite !lookup_insert_ne by lia. by rewrite write_bytes_lookup.
Qed.

Definition moving (x : Z * Z * Z) (m : cmem) : Prop :=
  exists j, 0 <= j <= zlen l /\ x = (dst + j, src + j, j) /\ m = copied_down j.

Lemma memmove_down_spec :
  exists x, loop (S (Z.to_nat (zlen l))) memmove_down (dst + zlen l, src + zlen l, zlen l) m0 =
    Some (x, write_bytes dst l m0).
Proof.
  pose proof (zlen_nonneg l).
  destruct (loop_rule memmove_down moving len_left (fun _ m => m = write_bytes dst l m0))
    with (fuel := S (Z.to_nat (zlen l))) (x := (dst + zlen l, src + zlen l, zlen l)) (s := m0)
    as (x' & m' & E & ->); [| | |by exists x'].
  - intros x1 m1 (j & Hj & -> & ->). unfold memmove_down, len_left. zcases.
    + do 2 eexists. split; [done|]. cbn. unfold copied_down. subst j. by rewrite Z.add_0_r.
    + rewrite (bind_ok _ _ _ _ _ (copy_byte_down j ltac:(lia))).
      do 2 eexists. split; [done|]. unfold len_left; cbn. split; [|lia].
      exists (j - 1). split; [lia|]. split; [pairs|done].
  - exists (zlen l). split; [lia|]. split; [done|]. unfold copied_down.
    replace (zdrop (zlen l) l) with (@nil Z); [done|]. symmetry. apply drop_ge. unfold zlen. lia.
  - unfold len_left. cbn [snd]. lia.
Qed.
End downwards.

Lemma memmove_spec : rt_memmove dst src (zlen l) m0 = Some (dst, write_bytes dst l m0).
Proof.
  unfold rt_memmove. zcases; cbn [andb].
  - destruct memmove_down_spec as [x E]; [done|]. by rewrite (bind_ok _ _ _ _ _ E).
  - destruct (memcpy_bytes_spec ltac:(lia) _ _ copying_start) as [x E]. by rewrite (bind_ok _ _ _ _ _ E).
  - destruct (memcpy_bytes_spec ltac:(lia) _ _ copying_start) as [x E]. by rewrite (bind_ok _ _ _ _ _ E).
  - destruct (memcpy_bytes_spec ltac:(lia) _ _ copying_start) as [x E]. by rewrite (bind_ok _ _ _ _ _ E).
Qed.
End copying.

(** ** Comparing *)

(** The difference of the first two bytes that differ. *)
Fixpoint first_difference (l k : list Z) : Z :=
  match l, k with
  | x :: l, y :: k => if x - y =? 0 then first_difference l k else x - y
  | _, _ => 0
  end.

Lemma first_difference_zero l k : length l = length k -> first_difference l k = 0 <-> l = k.
Proof.
  revert k. induction l as [|x l IH]; intros [|y k] H; try done. cbn. injection H as H. zcases.
  - rewrite (IH k H). split; [intros ->; f_equal; lia|by intros [= _ ->]].
  - split; [lia|]. intros [= -> _]. lia.
Qed.

(** Its sign is that of the lexicographic order. *)
Lemma first_difference_sign l k :
  first_difference l k < 0 <->
  exists p x l' y k', l = p ++ x :: l' /\ k = p ++ y :: k' /\ x < y.
Proof.
  revert k. induction l as [|x l IH]; intros [|y k]; cbn.
  1-3: split; [lia|]; intros ([|? ?] & ? & ? & ? & ? & ? & ? & ?); done.
  zcases.
  - rewrite IH. split.
    + intros (p & x1 & l' & y1 & k' & -> & -> & Hlt). exists (x :: p), x1, l', y1, k'.
      replace y with x by lia. done.
    + intros ([|z p] & x1 & l' & y1 & k' & [= -> ->] & [= -> ->] & Hlt); [lia|]. by exists p, x1, l', y1, k'.
  - split.
    + intros. exists [], x, l, y, k. repeat split; lia.
    + intros ([|z p] & x1 & l' & y1 & k' & [= -> ->] & [= -> ->] & Hlt); lia.
Qed.

(** A common beginning does not matter. *)
Lemma first_difference_app p l k : first_difference (p ++ l) (p ++ k) = first_difference l k.
Proof. induction p as [|x p IH]; cbn; [done|]. by rewrite Z.sub_diag. Qed.

Lemma memcmp_spec m a b l k :
  bytes_at m a l -> bytes_at m b k -> length l = length k ->
  rt_memcmp a b (zlen l) m = Some (first_difference l k, m).
Proof.
  intros Hl Hk Hlen. unfold rt_memcmp.
  destruct (loop_rule memcmp_round
    (fun '(x, y, n) m' => m' = m /\ exists l1 k1, bytes_at m x l1 /\ bytes_at m y k1 /\ length l1 = length k1 /\
       n = zlen l1 /\ first_difference l1 k1 = first_difference l k)
    (fun x => Z.to_nat x.2) (fun r m' => m' = m /\ r = first_difference l k))
    with (fuel := S (Z.to_nat (zlen l))) (x := (a, b, zlen l)) (s := m)
    as (r & m' & E & -> & ->); [| | |exact E].
  - intros [[x y] n] m' (-> & l1 & k1 & H1 & H2 & Hlen1 & -> & <-). unfold memcmp_round.
    destruct l1 as [|c1 l1], k1 as [|c2 k1]; try done; [by do 2 eexists|]. rewrite zlen_cons.
    pose proof (zlen_nonneg l1). zcases; [|lia].
    apply bytes_at_cons in H1 as [E1 H1], H2 as [E2 H2].
    rewrite (bind_ok _ _ _ _ _ (load_ok _ _ _ E1)), (bind_ok _ _ _ _ _ (load_ok _ _ _ E2)). cbn [first_difference].
    zcases; cbn [negb]; do 2 eexists; (split; [done|]); [|done]. split; [|cbn; lia].
    split; [done|]. exists l1, k1. injection Hlen1 as Hlen1. repeat split; try done. lia.
  - split; [done|]. by exists l, k.
  - cbn. lia.
Qed.

(** ** Theorems *)

(** C24: Copying and filling by blocks of four words, words and bytes do what
    copying and filling byte by byte would do, for any address and any number
    of bytes, aligned or not: [rt_memcpy] leaves the bytes of the source at the
    destination, [rt_memset] the byte [c mod 256] in every place, and no other
    byte of the memory changes. For [rt_memcpy] the two stretches may overlap
    if the destination comes first. *)
Theorem memcpy_memset_correct m dst src l s c count :
  cmem_ok m -> bytes_at m src l -> mapped m dst (zlen l) -> dst <= src \/ src + zlen l <= dst ->
  0 <= count -> mapped m s count ->
  rt_memcpy dst src (zlen l) m = Some (dst, write_bytes dst l m) /\
  rt_memset s c count m = Some (s, write_bytes s (replicate (Z.to_nat count) (u8 c)) m).
Proof.
  intros Hok Hsrc Hdst Hover Hcount Hs. split; [by apply memcpy_spec|by apply memset_spec].
Qed.

(** A memory of 128 bytes that hold their own place. *)
Definition sample_bytes (a n : Z) : cmem := write_bytes a (seqZ 0 n) ∅.

Definition bytes_atb (m : cmem) (a : Z) (l : list Z) : bool :=
  forallb (fun i => bool_decide (m !! (a + i) = Some (zget l i))) (seqZ 0 (zlen l)).
Lemma bytes_atb_sound m a l : bytes_atb m a l = true -> bytes_at m a l.
Proof.
  unfold bytes_atb. rewrite forallb_forall. intros H i v E. pose proof (lookup_lt_Some _ _ _ E).
  specialize (H (Z.of_nat i)). rewrite bool_decide_eq_true in H. rewrite H.
  - unfold zget. by rewrite nth_lookup, Nat2Z.id, E.
  - apply list_elem_of_In, elem_of_seqZ. unfold zlen. lia.
Qed.
Definition cmem_okb (m : cmem) : bool := forallb (fun '(_, v) => (0 <=? v) && (v <? 256)) (map_to_list m).
Lemma cmem_okb_sound m : cmem_okb m = true -> cmem_ok m.
Proof.
  unfold cmem_okb. rewrite forallb_forall. intros H a v E.
  apply elem_of_map_to_list, list_elem_of_In, H in E. lia.
Qed.

(** Aligned by words for 43 bytes, and not aligned. *)
Lemma memcpy_memset_correct_witness :
  let m := sample_bytes 1024 128 in
  (rt_memcpy 1024 1072 43 m = Some (1024, write_bytes 1024 (seqZ 48 43) m) /\
   rt_memset 1032 (-1) 61 m = Some (1032, write_bytes 1032 (replicate 61 255) m)) /\
  (rt_memcpy 1030 1033 35 m = Some (1030, write_bytes 1030 (seqZ 9 35) m) /\
   rt_memset 1027 7 20 m = Some (1027, write_bytes 1027 (replicate 20 7) m)).
Proof.
  intros m.
  assert (cmem_ok m) by (apply cmem_okb_sound; vm_compute; reflexivity).
  assert (bytes_at m 1024 (seqZ 0 128)) as Hall by (apply bytes_atb_sound; vm_compute; reflexivity).
  assert (bytes_at m 1072 (seqZ 48 43)) by (apply bytes_atb_sound; vm_compute; reflexivity).
  assert (bytes_at m 1033 (seqZ 9 35)) by (apply bytes_atb_sound; vm_compute; reflexivity).
  assert (mapped m 1024 128) as Hm by exact (bytes_at_mapped _ _ _ Hall).
  generalize dependent m. intros m Hok _ H1 H2 Hm.
  split.
  - apply (memcpy_memset_correct m 1024 1072 (seqZ 48 43) 1032 (-1) 61); try done; [| |intros b Hb; apply Hm; lia].
    + intros b Hb. apply Hm. revert Hb. change (zlen (seqZ 48 43)) with 43. lia.
    + left. lia.
  - apply (memcpy_memset_correct m 1030 1033 (seqZ 9 35) 1027 7 20); try done; [| |intros b Hb; apply Hm; lia].
    + intros b Hb. apply Hm. revert Hb. change (zlen (seqZ 9 35)) with 35. lia.
    + left. lia.
Defined.

(** [rt_memmove] leaves the bytes that the source held before the call at
    the destination, and changes no other byte, however the two stretches
    overlap. *)
Theorem memmove_correct m dst src l :
  cmem_ok m -> bytes_at m src l -> mapped m dst (zlen l) ->
  rt_memmove dst src (zlen l) m = Some (dst, write_bytes dst l m).
Proof. intros. by apply memmove_spec. Qed.

(** Upwards by three bytes, where the stretches overlap. *)
Lemma memmove_correct_witness :
  let m := sample_bytes 1024 128 in
  rt_memmove 1036 1033 35 m = Some (1036, write_bytes 1036 (seqZ 9 35) m).
Proof.
  intros m.
  assert (cmem_ok m) by (apply cmem_okb_sound; vm_compute; reflexivity).
  assert (bytes_at m 1024 (seqZ 0 128)) as Hall by (apply bytes_atb_sound; vm_compute; reflexivity).
  assert (bytes_at m 1033 (seqZ 9 35)) by (apply bytes_atb_sound; vm_compute; reflexivity).
  assert (mapped m 1024 128) as Hm by exact (bytes_at_mapped _ _ _ Hall).
  generalize dependent m. intros m Hok _ H1 Hm.
  apply (memmove_correct m 1036 1033 (seqZ 9 35)); try done.
  intros b Hb. apply Hm. revert Hb. change (zlen (seqZ 9 35)) with 35. lia.
Defined.
