(* ===== verification/Kstring.v ===== *)
(** * Strings

    The string functions of [src/kservice.c] on the memory of Cmem.v, their
    results in terms of the strings that lie there, and that the functions of
    Kservice.v that the kernel's object names use are [rt_strncpy] and
    [rt_strncmp]. [char] is unsigned on this architecture. *)
From Stdlib Require Import String Ascii.
From S2P Require Import Prelude Kservice Cmem Kmemory.
Open Scope Z_scope.

(** ** [rt_strlen] and its relatives *)

Definition rt_strlen (s : Z) : St cmem Z :=
  fuel ← cmem_fuel;
  sc ← loop fuel (fun sc => c ← load sc; if c =? 0 then stop sc else again (sc + 1)) s;
  mret (sc - s).

(** [*sc != '\0'] comes first, also where [maxlen] bytes have been read. *)
Definition rt_strnlen (s maxlen : Z) : St cmem Z :=
  fuel ← cmem_fuel;
  sc ← loop fuel (fun sc =>
    c ← load sc;
    if negb (c =? 0) && (sc - s <? maxlen) then again (sc + 1) else stop sc) s;
  mret (sc - s).

Definition strcpy_round (x : Z * Z) : St cmem (Z * Z + Z) :=
  let '(dst, src) := x in
  c ← load src; if c =? 0 then stop dst else copy8 dst src;; again (dst + 1, src + 1).
Definition rt_strcpy (dst src : Z) : St cmem Z :=
  fuel ← cmem_fuel;
  d ← loop fuel strcpy_round (dst, src);
  store d 0;;
  mret dst.

(** [while (--n != 0) *d++ = 0;] *)
Definition strncpy_pad (x : Z * Z) : St cmem (Z * Z + unit) :=
  let '(d, n) := x in
  if n - 1 =? 0 then stop tt else store d 0;; again (d + 1, n - 1).
Definition strncpy_round (x : Z * Z * Z) : St cmem (Z * Z * Z + unit) :=
  let '(d, s, n) := x in
  c ← load s;
  store d c;;
  if c =? 0 then loop (S (Z.to_nat n)) strncpy_pad (d + 1, n);; stop tt
  else if n - 1 =? 0 then stop tt else again (d + 1, s + 1, n - 1).
Definition rt_strncpy (dst src n : Z) : St cmem Z :=
  when (negb (n =? 0)) (loop (S (Z.to_nat n)) strncpy_round (dst, src, n));;
  mret dst.

(** The result of [rt_malloc] is that of [malloc]. *)
Definition rt_strdup (malloc : Z -> St cmem Z) (s : Z) : St cmem Z :=
  n ← rt_strlen s;
  let len := u64 (n + 1) in
  tmp ← malloc len;
  if tmp =? 0 then mret 0
  else rt_memcpy tmp s len;; mret tmp.

(** ** Comparison and search *)

Definition rt_strcmp (cs ct : Z) : St cmem Z :=
  fuel ← cmem_fuel;
  loop fuel (fun '(cs, ct) =>
    c1 ← load cs; c2 ← load ct;
    if negb (c1 =? 0) && (c1 =? c2) then again (cs + 1, ct + 1) else stop (c1 - c2)) (cs, ct).

(** [__res] is a [signed char]. *)
Definition strncmp_round (x : Z * Z * Z * Z) : St cmem (Z * Z * Z * Z + Z) :=
  let '(cs, ct, count, __res) := x in
  if count =? 0 then stop __res
  else
    c1 ← load cs; c2 ← load ct;
    let __res := s8 (c1 - c2) in
    if negb (__res =? 0) || (c1 =? 0) then stop __res
    else again (cs + 1, ct + 1, count - 1, __res).
Definition rt_strncmp (cs ct count : Z) : St cmem Z :=
  loop (S (Z.to_nat count)) strncmp_round (cs, ct, count, 0).

(** [if (c >= 'A' && c <= 'Z') c += 'a' - 'A';] *)
Definition lower (c : Z) : Z := if (65 <=? c) && (c <=? 90) then c + 32 else c.

Definition rt_strcasecmp (a b : Z) : St cmem Z :=
  fuel ← cmem_fuel;
  loop fuel (fun '(a, b) =>
    ca ← load a; cb ← load b;
    let ca := lower (Z.land ca 0xff) in
    let cb := lower (Z.land cb 0xff) in
    if (ca =? cb) && negb (ca =? 0) then again (a + 1, b + 1) else stop (ca - cb)) (a, b).

(** The lengths are [int]s. *)
Definition strstr_round (s2 l2 : Z) (x : Z * Z) : St cmem (Z * Z + Z) :=
  let '(s1, l1) := x in
  if l2 <=? l1 then
    d ← rt_memcmp s1 s2 (u64 l2);
    if d =? 0 then stop s1 else again (s1 + 1, l1 - 1)
  else stop 0.
Definition rt_strstr (s1 s2 : Z) : St cmem Z :=
  n2 ← rt_strlen s2;
  let l2 := s32 n2 in
  if l2 =? 0 then mret s1
  else
    n1 ← rt_strlen s1;
    let l1 := s32 n1 in
    loop (S (Z.to_nat l1)) (strstr_round s2 l2) (s1, l1).

(** ** [rt_strerror] *)

Definition rt_errno_strs : list string :=
  ["OK"; "ERROR"; "ETIMOUT"; "ERSFULL"; "ERSEPTY"; "ENOMEM"; "ENOSYS"; "EBUSY"; "EIO"; "EINTRPT"; "EINVAL";
   "EUNKNOW"]%string.
(** [RT_EINVAL + 1]; [None] is an access outside the array. *)
Definition rt_strerror (error : Z) : option string :=
  let error := if error <? 0 then - error else error in
  if 11 <? error then rt_errno_strs !! 11%nat else rt_errno_strs !! Z.to_nat error.

(** ** Strings in memory *)

Lemma zget_end l : zget l (zlen l) = 0.
Proof. unfold zget, zlen. by rewrite Nat2Z.id, nth_lookup, lookup_ge_None_2. Qed.

Section cstring.
Context (m : cmem) (a : Z) (s : list Z) (Hs : cstring m a s).

Lemma cstring_load j : 0 <= j <= zlen s -> load (a + j) m = Some (zget s j, m).
Proof.
  destruct Hs as [_ Hb]. intros Hj. apply load_ok. rewrite (bytes_at_lookup m a (s ++ [0])); [|done|].
  - rewrite zget_app by lia. zcases; [done|]. replace j with (zlen s) by lia. rewrite Z.sub_diag.
    by rewrite zget_end.
  - rewrite zlen_app. change (zlen [0]) with 1. lia.
Qed.

Lemma cstring_nonzero j : 0 <= j < zlen s -> zget s j <> 0.
Proof.
  destruct Hs as [Hn _]. intros Hj. unfold zlen in Hj.
  destruct (lookup_lt_is_Some_2 s (Z.to_nat j)) as [v E]; [lia|].
  unfold zget. rewrite nth_lookup, E. by apply (Forall_lookup_1 _ _ _ _ Hn E).
Qed.

Lemma cstring_fuel : (Z.to_nat (zlen s) < S (size m))%nat.
Proof.
  destruct Hs as [_ Hb]. apply bytes_at_mapped, mapped_size in Hb. rewrite zlen_app in Hb.
  change (zlen [0]) with 1 in Hb. pose proof (zlen_nonneg s). lia.
Qed.

Lemma cstring_is_string : cmem_ok m -> is_string s.
Proof.
  intros Hm. destruct Hs as [Hn Hb]. apply bytes_at_app in Hb as [Hb _].
  apply bytes_at_bytes in Hb; [|done]. apply Forall_lookup_2. intros i v E.
  pose proof (Forall_lookup_1 _ _ _ _ Hn E). pose proof (Forall_lookup_1 _ _ _ _ Hb E). cbn in *. lia.
Qed.

(** A walk along the string. *)
Lemma strlen_spec : rt_strlen a m = Some (zlen s, m).
Proof.
  unfold rt_strlen, cmem_fuel. rewrite bind_gets. pose proof cstring_fuel. pose proof (zlen_nonneg s).
  destruct (loop_rule (fun sc => c ← load sc; if c =? 0 then stop sc else again (sc + 1))
    (fun sc m' => m' = m /\ a <= sc <= a + zlen s) (fun sc => Z.to_nat (a + zlen s - sc))
    (fun sc m' => m' = m /\ sc = a + zlen s)) with (fuel := S (S (size m))) (x := a) (s := m)
    as (sc & m' & E & -> & ->); [|by split; [|lia]|lia|].
  - intros sc m' [-> Hsc]. replace sc with (a + (sc - a)) by lia.
    rewrite (bind_ok _ _ _ _ _ (cstring_load (sc - a) ltac:(lia))).
    destruct (decide (sc - a = zlen s)) as [Heq|Hne].
    + rewrite Heq, zget_end. by do 2 eexists.
    + pose proof (cstring_nonzero (sc - a) ltac:(lia)). zcases; [lia|]. do 2 eexists. split; [done|]. cbn. split_and!; done || lia.
  - rewrite (bind_ok _ _ _ _ _ E). apply mret_ok. lia.
Qed.

Lemma strnlen_spec n : 0 <= n -> rt_strnlen a n m = Some (Z.min (zlen s) n, m).
Proof.
  intros Hn. unfold rt_strnlen, cmem_fuel. rewrite bind_gets. pose proof cstring_fuel. pose proof (zlen_nonneg s).
  match goal with |- (loop _ ?round a ≫= _) m = _ => destruct (loop_rule round
    (fun sc m' => m' = m /\ a <= sc <= a + Z.min (zlen s) n) (fun sc => Z.to_nat (a + zlen s - sc))
    (fun sc m' => m' = m /\ sc = a + Z.min (zlen s) n)) with (fuel := S (S (size m))) (x := a) (s := m)
    as (sc & m' & E & -> & ->); [|by split; [|lia]|lia|] end.
  - intros sc m' [-> Hsc]. replace sc with (a + (sc - a)) by lia.
    rewrite (bind_ok _ _ _ _ _ (cstring_load (sc - a) ltac:(lia))).
    destruct (decide (sc - a = zlen s)) as [Heq|Hne].
    + rewrite Heq, zget_end. do 2 eexists. split; [done|]. cbn. split_and!; done || lia.
    + pose proof (cstring_nonzero (sc - a) ltac:(lia)). zcases; cbn [negb andb]; try lia; (do 2 eexists); (split; [done|]); cbn; split_and!; done || lia.
  - rewrite (bind_ok _ _ _ _ _ E). apply mret_ok. lia.
Qed.
End cstring.

(** One character after the other. *)
Lemma cstring_nil m a : cstring m a [] <-> m !! a = Some 0.
Proof.
  unfold cstring. cbn [app]. rewrite bytes_at_cons. split; [tauto|].
  intros E. split; [constructor|]. by split; [|apply bytes_at_nil].
Qed.

Lemma cstring_cons m a c s : cstring m a (c :: s) <-> c <> 0 /\ m !! a = Some c /\ cstring m (a + 1) s.
Proof. unfold cstring. cbn [app]. rewrite bytes_at_cons, Forall_cons. tauto. Qed.

Lemma loop_step {S X R} fuel (round : X -> St S (X + R)) x s y s' :
  round x s = Some (y, s') ->
  loop (Datatypes.S fuel) round x s = match y with inl x' => loop fuel round x' s' | inr r => Some (r, s') end.
Proof. intros E. cbn [loop]. rewrite (bind_ok _ _ _ _ _ E). by destruct y. Qed.

(** Reading the characters at two places. *)
Lemma load_bind {B} m a v (f : Z -> St cmem B) : m !! a = Some v -> (load a ≫= f) m = f v m.
Proof. intros E. apply bind_ok, load_ok, E. Qed.

(** ** [rt_strcmp] and [rt_strcasecmp] *)

(** The difference of the first two characters that differ, the end of a string
    being a character that is less than all others. *)
Definition string_order (s t : list Z) : Z := first_difference (s ++ [0]) (t ++ [0]).

Lemma string_order_zero s t :
  Forall (fun v => v <> 0) s -> Forall (fun v => v <> 0) t -> string_order s t = 0 <-> s = t.
Proof.
  intros Hs Ht. revert t Ht. unfold string_order.
  induction Hs as [|x s Hx Hs IH]; intros t Ht; destruct Ht as [|y t Hy Ht]; cbn; try done.
  - zcases; split; try done; lia.
  - zcases; split; try done; lia.
  - zcases; [|split; [lia|intros [= -> _]; lia]]. rewrite (IH t Ht).
    split; [intros ->; f_equal; lia|by intros [= _ ->]].
Qed.

(** A loop over two strings that looks at characters by way of [f]. *)
Section compare.
Context (m : cmem) (f : Z -> Z) (round : Z * Z -> St cmem (Z * Z + Z)).
Context (Hround : forall a b c d, m !! a = Some c -> m !! b = Some d ->
  round (a, b) m =
  Some (if negb (f c =? 0) && (f c =? f d) then inl (a + 1, b + 1) else inr (f c - f d), m)).
Context (Hf0 : f 0 = 0) (Hf : forall a c, m !! a = Some c -> f c = 0 -> c = 0).

Lemma compare_loop fuel s : forall t a b,
  cstring m a s -> cstring m b t -> (length s < fuel)%nat ->
  loop fuel round (a, b) m = Some (first_difference (map f (s ++ [0])) (map f (t ++ [0])), m).
Proof.
  revert fuel. induction s as [|x s IH]; intros [|fuel] t a b Ha Hb Hl; cbn [length] in Hl; try lia.
  - apply cstring_nil in Ha. destruct t as [|y t].
    + apply cstring_nil in Hb. rewrite (loop_step _ _ _ _ _ _ (Hround _ _ _ _ Ha Hb)), Hf0. cbn. by rewrite Hf0.
    + apply cstring_cons in Hb as (Hy & Hb & _). rewrite (loop_step _ _ _ _ _ _ (Hround _ _ _ _ Ha Hb)), Hf0.
      pose proof (Hf b y Hb). cbn. rewrite Hf0. zcases; [lia|done].
  - apply cstring_cons in Ha as (Hx & Ha & Ha'). pose proof (Hf a x Ha). destruct t as [|y t].
    + apply cstring_nil in Hb. rewrite (loop_step _ _ _ _ _ _ (Hround _ _ _ _ Ha Hb)), Hf0.
      cbn. rewrite Hf0. zcases; cbn; try lia; done.
    + apply cstring_cons in Hb as (Hy & Hb & Hb'). rewrite (loop_step _ _ _ _ _ _ (Hround _ _ _ _ Ha Hb)).
      cbn [app map first_difference]. zcases; cbn [negb andb]; try lia; try done. apply IH; [done|done|lia].
Qed.

Lemma compare_spec s t a b :
  cstring m a s -> cstring m b t ->
  loop (S (S (size m))) round (a, b) m = Some (first_difference (map f (s ++ [0])) (map f (t ++ [0])), m).
Proof. intros Ha Hb. apply compare_loop; [done|done|]. pose proof (cstring_fuel _ _ _ Ha). unfold zlen in *. lia. Qed.
End compare.

Lemma strcmp_spec m a b s t :
  cstring m a s -> cstring m b t -> rt_strcmp a b m = Some (string_order s t, m).
Proof.
  intros Ha Hb. unfold rt_strcmp, cmem_fuel. rewrite bind_gets.
  rewrite (compare_spec m (fun c => c)) with (s := s) (t := t); try done.
  - by rewrite !map_id.
  - intros x y c d Ec Ed. rewrite (load_bind _ _ _ _ Ec), (load_bind _ _ _ _ Ed). by destruct (_ && _).
Qed.

Definition fold_case (c : Z) : Z := lower (Z.land c 0xff).

Lemma fold_case_byte c : 0 <= c < 256 -> fold_case c = lower c.
Proof.
  intros. unfold fold_case. change 255 with (Z.ones 8). rewrite Z.land_ones, Z.mod_small by lia. done.
Qed.

Lemma strcasecmp_spec m a b s t :
  cmem_ok m -> cstring m a s -> cstring m b t ->
  rt_strcasecmp a b m = Some (string_order (map lower s) (map lower t), m).
Proof.
  intros Hok Ha Hb. unfold rt_strcasecmp, cmem_fuel. rewrite bind_gets.
  rewrite (compare_spec m lower) with (s := s) (t := t); try done.
  - unfold string_order. by rewrite !map_app.
  - intros x y c d Ec Ed. rewrite (load_bind _ _ _ _ Ec), (load_bind _ _ _ _ Ed).
    fold (fold_case c) (fold_case d).
    rewrite !fold_case_byte by (by apply (Hok _ _ Ec) || by apply (Hok _ _ Ed)).
    rewrite andb_comm. by destruct (_ && _).
  - intros x c Ec. pose proof (Hok _ _ Ec). cbn in *. unfold lower. zcases; cbn; lia.
Qed.

(** ** [rt_strncmp], [rt_strncpy] and [rt_strcpy] *)

Lemma cstring_chr m a s : cstring m a s -> m !! a = Some (chr s).
Proof. destruct s; [by intros ?%cstring_nil|by intros (_ & ? & _)%cstring_cons]. Qed.

Lemma cstring_next m a s : cstring m a s -> chr s <> 0 -> cstring m (a + 1) (next s).
Proof. destruct s; [done|by intros (_ & _ & ?)%cstring_cons _]. Qed.

Lemma strncmp_step m a b c d n res :
  m !! a = Some c -> m !! b = Some d -> n <> 0 ->
  strncmp_round (a, b, n, res) m =
  Some (if negb (s8 (c - d) =? 0) || (c =? 0) then inr (s8 (c - d))
        else inl (a + 1, b + 1, n - 1, s8 (c - d)), m).
Proof.
  intros Ea Eb Hn. unfold strncmp_round. rewrite (proj2 (Z.eqb_neq n 0) Hn).
  rewrite (load_bind _ _ _ _ Ea), (load_bind _ _ _ _ Eb). cbv zeta. by destruct (_ || _).
Qed.

Lemma strncmp_loop m n : cmem_ok m -> forall fuel s t a b res,
  cstring m a s -> cstring m b t -> (n < fuel)%nat ->
  loop fuel strncmp_round (a, b, Z.of_nat n, res) m =
  Some (if decide (n = O) then res else Kservice.rt_strncmp s t n, m).
Proof.
  intros Hok. induction n as [|n IH]; intros [|fuel] s t a b res Ha Hb Hf; try lia; [done|].
  pose proof (cstring_chr _ _ _ Ha) as Ea. pose proof (cstring_chr _ _ _ Hb) as Eb.
  pose proof (Hok _ _ Ea) as Ra. pose proof (Hok _ _ Eb) as Rb. cbn in Ra, Rb.
  rewrite (loop_step _ _ _ _ _ _ (strncmp_step _ _ _ _ _ (Z.of_nat (S n)) res Ea Eb ltac:(lia))).
  cbn [Kservice.rt_strncmp]. cbv zeta.
  destruct (negb _ || _) eqn:E; [done|]. rewrite orb_false_iff, negb_false_iff, Z.eqb_eq, Z.eqb_neq in E.
  destruct E as [E0 E1]. rewrite E0. rewrite s8_zero in E0 by lia.
  replace (Z.of_nat (S n) - 1) with (Z.of_nat n) by lia.
  rewrite (IH fuel (next s) (next t)); [|by apply cstring_next|apply cstring_next; [done|lia]|lia].
  destruct n; [done|]. by destruct (decide _).
Qed.

Lemma strncmp_spec m a b s t n :
  cmem_ok m -> cstring m a s -> cstring m b t -> 0 <= n ->
  rt_strncmp a b n m = Some (Kservice.rt_strncmp s t (Z.to_nat n), m).
Proof.
  intros Hok Ha Hb Hn. unfold rt_strncmp. rewrite <- (Z2Nat.id n Hn) at 2.
  rewrite (strncmp_loop m _ Hok _ s t) by (done || lia). by destruct (decide _) as [->|].
Qed.

(** [n] places at [d] that hold nothing of the string [s] at [a]. *)
Definition room (m : cmem) (d n a : Z) (s : list Z) : Prop :=
  mapped m d n /\ apart d n a (zlen s + 1).

Lemma cstring_store m d a s v : apart d 1 a (zlen s + 1) -> cstring m a s -> cstring (<[d := v]> m) a s.
Proof.
  intros Hd [Hn Hb]. split; [done|]. apply (write_bytes_apart d [v]); [|done].
  unfold apart in *. rewrite zlen_app. change (zlen [v]) with 1. change (zlen [0]) with 1. lia.
Qed.

Lemma room_store m d n a s v k : 0 <= k < n -> room m d n a s -> room (<[d + k := v]> m) d n a s.
Proof. intros Hk [Hm Ha]. split; [|done]. intros b Hb. apply (write_bytes_mapped (d + k) [v] m d n); done. Qed.

Lemma mapped_rest m d v n : 0 < n -> mapped m d n -> mapped (<[d := v]> m) (d + 1) (n - 1).
Proof.
  intros Hn Hm. apply (write_bytes_mapped d [v] m (d + 1) (n - 1)). intros b Hb. apply Hm. lia.
Qed.

Lemma strncpy_pad_spec n : forall m d fuel,
  mapped m d (Z.of_nat n) -> (n < fuel)%nat ->
  loop fuel strncpy_pad (d, Z.of_nat n + 1) m = Some (tt, write_bytes d (replicate n 0) m).
Proof.
  induction n as [|n IH]; intros m d [|fuel] Hm Hf; try lia; [done|].
  assert (strncpy_pad (d, Z.of_nat (S n) + 1) m = Some (inl (d + 1, Z.of_nat n + 1), <[d := 0]> m)) as E.
  { unfold strncpy_pad. rewrite (proj2 (Z.eqb_neq (Z.of_nat (S n) + 1 - 1) 0)) by lia.
    rewrite (bind_ok _ _ _ _ _ (store_ok _ _ 0 (Hm d ltac:(lia)))). apply mret_ok. do 2 f_equal. lia. }
  rewrite (loop_step _ _ _ _ _ _ E). cbn [replicate write_bytes]. apply IH; [|lia].
  replace (Z.of_nat n) with (Z.of_nat (S n) - 1) by lia. apply mapped_rest; [lia|done].
Qed.

Lemma strncpy_step m d a s n :
  cmem_ok m -> cstring m a s -> mapped m d (Z.of_nat (S n)) ->
  strncpy_round (d, a, Z.of_nat (S n)) m =
  Some (if chr s =? 0 then (inr tt, write_bytes d (replicate (S n) 0) m)
        else (if decide (n = O) then inr tt else inl (d + 1, a + 1, Z.of_nat n), <[d := chr s]> m)).
Proof.
  intros Hok Ha Hm. pose proof (cstring_chr _ _ _ Ha) as Ea. pose proof (Hok _ _ Ea) as Rc. cbn in Rc.
  unfold strncpy_round. rewrite (load_bind _ _ _ _ Ea).
  rewrite (bind_ok _ _ _ _ _ (store_ok _ _ _ (Hm d ltac:(lia)))), u8_small by lia.
  destruct (Z.eqb_spec (chr s) 0) as [E|E].
  - pose proof (strncpy_pad_spec n (<[d := chr s]> m) (d + 1) (S (Z.to_nat (Z.of_nat (S n))))) as Hp.
    replace (Z.of_nat n + 1) with (Z.of_nat (S n)) in Hp by lia. rewrite E in *.
    rewrite (bind_ok _ _ _ _ _ (Hp ltac:(replace (Z.of_nat n) with (Z.of_nat (S n) - 1) by lia;
      apply mapped_rest; [lia|done]) ltac:(lia))). done.
  - destruct (decide (n = O)) as [->|Hn]; [done|]. rewrite (proj2 (Z.eqb_neq (Z.of_nat (S n) - 1) 0)) by lia.
    apply mret_ok. do 2 f_equal. lia.
Qed.

Lemma strncpy_loop n : forall fuel m d a s,
  cmem_ok m -> cstring m a s -> room m d (Z.of_nat (S n)) a s -> (n < fuel)%nat ->
  loop fuel strncpy_round (d, a, Z.of_nat (S n)) m = Some (tt, write_bytes d (Kservice.rt_strncpy s (S n)) m).
Proof.
  induction n as [|n IH]; intros [|fuel] m d a s Hok Ha [Hm Hr] Hf; try lia.
  all: pose proof (strncpy_step m d a s _ Hok Ha Hm) as E.
  all: pose proof (Hok _ _ (cstring_chr _ _ _ Ha)) as Rc; cbn in Rc.
  all: destruct s as [|c s]; [by rewrite (loop_step _ _ _ _ _ _ E)|].
  all: destruct (proj1 (cstring_cons _ _ _ _) Ha) as (Hc & _ & Ha').
  all: cbn [chr] in E, Rc; rewrite (proj2 (Z.eqb_neq c 0) Hc) in E; rewrite (loop_step _ _ _ _ _ _ E).
  all: cbn [Kservice.rt_strncpy chr next]; rewrite (proj2 (Z.eqb_neq c 0) Hc).
  1: done.
  destruct (decide _) as [?|_]; [done|]. cbn [write_bytes]. unfold apart in Hr. rewrite zlen_cons in Hr.
  change (c :: (if chr s =? 0 then 0 :: replicate n 0 else chr s :: Kservice.rt_strncpy (next s) n))
    with (c :: Kservice.rt_strncpy s (S n)). cbn [write_bytes]. apply IH; [| | |lia].
  - apply (cmem_ok_write d [c]); [done|]. constructor; [lia|constructor].
  - apply cstring_store; [unfold apart; lia|done].
  - split; [|unfold apart; lia]. replace (Z.of_nat (S n)) with (Z.of_nat (S (S n)) - 1) by lia.
    apply mapped_rest; [lia|done].
Qed.

Lemma strncpy_spec m d a s n :
  cmem_ok m -> cstring m a s -> 0 <= n -> room m d n a s ->
  rt_strncpy d a n m = Some (d, write_bytes d (Kservice.rt_strncpy s (Z.to_nat n)) m).
Proof.
  intros Hok Ha Hn Hr. unfold rt_strncpy. destruct (Z.to_nat n) as [|k] eqn:Ek.
  { assert (n = 0) as -> by lia. done. }
  assert (n = Z.of_nat (S k)) as -> by lia. rewrite (proj2 (Z.eqb_neq (Z.of_nat (S k)) 0)) by lia. cbn [negb when].
  by rewrite (bind_ok _ _ _ _ _ (strncpy_loop k (S (S k)) m d a s Hok Ha Hr ltac:(lia))).
Qed.


Lemma strcpy_loop s : forall fuel m d a,
  cmem_ok m -> cstring m a s -> room m d (zlen s + 1) a s -> (length s < fuel)%nat ->
  loop fuel strcpy_round (d, a) m = Some (d + zlen s, write_bytes d s m).
Proof.
  induction s as [|c s IH]; intros [|fuel] m d a Hok Ha [Hm Hr] Hf; cbn [length] in Hf; try lia.
  - apply cstring_nil in Ha. erewrite loop_step by (unfold strcpy_round; by rewrite (load_bind _ _ _ _ Ha)).
    cbn. by rewrite Z.add_0_r.
  - apply cstring_cons in Ha as (Hc & Ea & Ha). pose proof (Hok _ _ Ea) as Rc. cbn in Rc.
    unfold apart in Hr. rewrite zlen_cons in *. pose proof (zlen_nonneg s).
    assert (strcpy_round (d, a) m = Some (inl (d + 1, a + 1), <[d := c]> m)) as E.
    { unfold strcpy_round, copy8. rewrite (load_bind _ _ _ _ Ea), (proj2 (Z.eqb_neq c 0) Hc).
      rewrite bind_unfold, (load_bind _ _ _ _ Ea), store_ok, u8_small by (lia || (apply Hm; lia)). done. }
    rewrite (loop_step _ _ _ _ _ _ E). cbn [write_bytes]. rewrite IH; [|..].
    + do 2 f_equal. lia.
    + apply (cmem_ok_write d [c]); [done|]. constructor; [lia|constructor].
    + apply cstring_store; [unfold apart; lia|done].
    + split; [|unfold apart; lia]. replace (zlen s + 1) with (zlen s + 1 + 1 - 1) by lia.
      apply mapped_rest; [lia|done].
    + lia.
Qed.

Lemma strcpy_spec m d a s :
  cmem_ok m -> cstring m a s -> room m d (zlen s + 1) a s ->
  rt_strcpy d a m = Some (d, write_bytes d (s ++ [0]) m).
Proof.
  intros Hok Ha Hr. unfold rt_strcpy, cmem_fuel. rewrite bind_gets. pose proof (cstring_fuel _ _ _ Ha).
  rewrite (bind_ok _ _ _ _ _ (strcpy_loop s (S (S (size m))) _ _ _ Hok Ha Hr ltac:(unfold zlen in *; lia))).
  destruct Hr as [Hm _]. pose proof (zlen_nonneg s).
  rewrite (bind_ok _ _ _ _ _ (store_ok _ _ 0 (write_bytes_mapped d s m d (zlen s + 1) Hm (d + zlen s) ltac:(lia)))).
  by rewrite write_bytes_app.
Qed.

(** A copy in memory that [malloc] provides. *)
Lemma strdup_spec malloc m m1 a s tmp :
  cstring m a s -> zlen s + 1 < 2 ^ 64 ->
  malloc (zlen s + 1) m = Some (tmp, m1) ->
  cmem_ok m1 -> cstring m1 a s -> (tmp <> 0 -> room m1 tmp (zlen s + 1) a s) ->
  rt_strdup malloc a m =
  if tmp =? 0 then Some (0, m1) else Some (tmp, write_bytes tmp (s ++ [0]) m1).
Proof.
  intros Ha Hlen Em Hok Ha1 Hr. unfold rt_strdup. rewrite (bind_ok _ _ _ _ _ (strlen_spec _ _ _ Ha)).
  pose proof (zlen_nonneg s). cbv zeta. rewrite u64_small, (bind_ok _ _ _ _ _ Em) by lia.
  destruct (Z.eqb_spec tmp 0) as [|Hne]; [done|]. destruct (Hr Hne) as [Hm Hap].
  assert (zlen (s ++ [0]) = zlen s + 1) as El by by rewrite zlen_app.
  rewrite <- El in *. destruct Ha1 as [_ Hb].
  rewrite (bind_ok _ _ _ _ _ (memcpy_spec tmp a (s ++ [0]) m1 Hok Hb Hm ltac:(unfold apart in Hap; lia))). done.
Qed.

(** ** [rt_strstr] *)

(** [t] occurs in [s] at place [i]. *)
Definition occurs_at (s t : list Z) (i : Z) : Prop := 0 <= i /\ i + zlen t <= zlen s /\ ztake (zlen t) (zdrop i s) = t.


(** The result of a search that begins at [a]. *)
Definition found (s t : list Z) (a r : Z) : Prop :=
  (exists i, r = a + i /\ occurs_at s t i /\ forall j, j < i -> ~ occurs_at s t j) \/
  (r = 0 /\ forall j, ~ occurs_at s t j).

Section strstr.
Context (m : cmem) (a b : Z) (s t : list Z) (Ha : cstring m a s) (Hb : cstring m b t).
Context (Ht : 0 < zlen t < 2 ^ 31).

Definition searching (x : Z * Z) (m' : cmem) : Prop :=
  m' = m /\ exists i, 0 <= i <= zlen s /\ x = (a + i, zlen s - i) /\ forall j, j < i -> ~ occurs_at s t j.

Lemma strstr_round_spec x m' : searching x m' ->
  exists y, strstr_round b (zlen t) x m' = Some (y, m) /\
  match y with
  | inl x' => searching x' m /\ (Z.to_nat x'.2 < Z.to_nat x.2)%nat
  | inr r => found s t a r
  end.
Proof.
  intros (-> & i & Hi & -> & Hno). unfold strstr_round. zcases.
  - set (w := ztake (zlen t) (zdrop i s)).
    assert (zlen w = zlen t) as Hw by (unfold w; rewrite zlen_ztake; [done|rewrite zlen_zdrop; lia]).
    destruct Ha as [_ Hs], Hb as [_ Hb']. apply bytes_at_app in Hs as [Hs _], Hb' as [Hb' _].
    apply (bytes_at_zdrop m a s i (zlen t)) in Hs; [|lia]. fold w in Hs.
    assert (length w = length t) as Hl by (unfold zlen in Hw; lia).
    pose proof (memcmp_spec m (a + i) b w t Hs Hb' Hl) as E.
    rewrite u64_small, <- Hw, (bind_ok _ _ _ _ _ E) by lia. pose proof (first_difference_zero w t Hl) as Hz.
    zcases; eexists; (split; [reflexivity|]).
    + left. exists i. split; [done|]. split; [|done]. split; [lia|]. split; [lia|]. by apply Hz.
    + cbn [snd]. split; [|lia]. split; [done|]. exists (i + 1). split; [lia|]. split; [pairs|].
      intros j Hj. destruct (decide (j = i)) as [->|]; [|apply Hno; lia].
      intros (_ & _ & Ho). by apply Hz in Ho.
  - eexists. split; [reflexivity|]. right. split; [done|]. intros j Hj.
    destruct (decide (j < i)); [by apply (Hno j)|]. destruct Hj as (? & ? & _). lia.
Qed.
End strstr.

Lemma strstr_spec m a b s t :
  cstring m a s -> cstring m b t -> zlen s < 2 ^ 31 -> zlen t < 2 ^ 31 ->
  exists r, rt_strstr a b m = Some (r, m) /\ found s t a r.
Proof.
  intros Ha Hb Hs Ht. pose proof (zlen_nonneg s). pose proof (zlen_nonneg t).
  unfold rt_strstr. rewrite (bind_ok _ _ _ _ _ (strlen_spec _ _ _ Hb)). cbv zeta. rewrite s32_small by lia.
  destruct (Z.eqb_spec (zlen t) 0) as [E0|E0].
  { exists a. split; [done|]. left. exists 0. split; [lia|]. split; [|intros j Hj (? & _); lia].
    split; [lia|]. split; [lia|]. rewrite E0. destruct t; [done|]. rewrite zlen_cons in E0.
    pose proof (zlen_nonneg t). lia. }
  rewrite (bind_ok _ _ _ _ _ (strlen_spec _ _ _ Ha)), s32_small by lia.
  destruct (loop_rule (strstr_round b (zlen t)) (searching m a s t) (fun x => Z.to_nat x.2)
    (fun r m' => m' = m /\ found s t a r)) with (fuel := S (Z.to_nat (zlen s))) (x := (a, zlen s)) (s := m)
    as (r & m' & E & -> & Hr); [| | |by exists r].
  - intros x m' Hx. destruct (strstr_round_spec m a b s t Ha Hb ltac:(lia) x m' Hx) as (y & E & Hy).
    exists y, m. split; [done|]. by destruct y.
  - split; [done|]. exists 0. split; [lia|]. split; [pairs|]. intros j Hj (? & _). lia.
  - cbn [snd]. lia.
Qed.

(** ** Theorems *)

(** [rt_strstr] returns the address of the first occurrence of the second
    string in the first one, the first string itself where the second is empty,
    and null where there is no occurrence; it ends, reads nothing outside the
    two strings and changes nothing. The strings are shorter than 2^31, as
    their lengths are held in [int]s. *)
Theorem strstr_correct m a b s t :
  cstring m a s -> cstring m b t -> zlen s < 2 ^ 31 -> zlen t < 2 ^ 31 ->
  exists r, rt_strstr a b m = Some (r, m) /\
    ((exists i, r = a + i /\ occurs_at s t i /\ forall j, j < i -> ~ occurs_at s t j) \/
     (r = 0 /\ forall j, ~ occurs_at s t j)).
Proof. intros. by apply strstr_spec. Qed.

Definition cstringb (m : cmem) (a : Z) (s : list Z) : bool :=
  forallb (fun v => negb (v =? 0)) s && bytes_atb m a (s ++ [0]).
Lemma cstringb_sound m a s : cstringb m a s = true -> cstring m a s.
Proof.
  unfold cstringb. rewrite andb_true_iff, forallb_forall. intros [Hn Hb]. split; [|by apply bytes_atb_sound].
  apply Forall_forall. intros v Hv. apply list_elem_of_In, Hn in Hv. lia.
Qed.

(** "banana" at 100 and "nan" at 200; "nab" at 300. *)
Definition sample_strings : cmem :=
  write_bytes 100 [98; 97; 110; 97; 110; 97; 0]
    (write_bytes 200 [110; 97; 110; 0] (write_bytes 300 [110; 97; 98; 0] ∅)).

Lemma strstr_correct_witness :
  (exists r, rt_strstr 100 200 sample_strings = Some (r, sample_strings) /\ r = 102) /\
  (exists r, rt_strstr 100 300 sample_strings = Some (r, sample_strings) /\ r = 0).
Proof.
  assert (cstring sample_strings 100 [98; 97; 110; 97; 110; 97]) as Ha
    by (apply cstringb_sound; vm_compute; reflexivity).
  assert (cstring sample_strings 200 [110; 97; 110]) as Hb by (apply cstringb_sound; vm_compute; reflexivity).
  assert (cstring sample_strings 300 [110; 97; 98]) as Hc by (apply cstringb_sound; vm_compute; reflexivity).
  revert Ha Hb Hc. generalize sample_strings. intros m Ha Hb Hc. split.
  - destruct (strstr_correct m 100 200 _ _ Ha Hb) as (r & E & [(i & -> & Hi & Hmin)|[-> Hno]]); [done|done| |].
    + exists (100 + i). split; [done|].
      assert (occurs_at [98; 97; 110; 97; 110; 97] [110; 97; 110] 2) as H2 by (by repeat split).
      assert (~ 2 < i) by (intros Hlt; exact (Hmin 2 Hlt H2)). destruct Hi as (H0 & _ & Hi).
      assert (i = 0 \/ i = 1 \/ i = 2) as [->|[->| ->]] by lia; [done|done|done].
    + exfalso. apply (Hno 2). by repeat split.
  - destruct (strstr_correct m 100 300 _ _ Ha Hc) as (r & E & [(i & -> & (H0 & H1 & Hi) & Hmin)|[-> Hno]]);
      [done|done| |by exists 0].
    exfalso. change (i + 3 <= 6) in H1.
    assert (i = 0 \/ i = 1 \/ i = 2 \/ i = 3) as [->|[->|[->| ->]]] by lia; done.
Defined.

(** The string functions give what the strings in memory say, for all
    strings and however many bytes they have: the length ([rt_strlen], and
    [rt_strnlen] no more than [maxlen]); the difference of the first two
    characters that differ, the end of a string counting as less than any
    character ([rt_strcmp], and [rt_strcasecmp] after the letters A to Z are
    made small); and [rt_strncmp] and [rt_strncpy] compute on the memory what
    [Kservice.rt_strncmp] and [Kservice.rt_strncpy] compute on lists, which the
    object names are compared and copied with. None of them reads outside the
    strings. *)
Theorem strings_correct m a b s t n :
  cmem_ok m -> cstring m a s -> cstring m b t -> 0 <= n ->
  rt_strlen a m = Some (zlen s, m) /\
  rt_strnlen a n m = Some (Z.min (zlen s) n, m) /\
  rt_strcmp a b m = Some (string_order s t, m) /\
  rt_strcasecmp a b m = Some (string_order (map lower s) (map lower t), m) /\
  rt_strncmp a b n m = Some (Kservice.rt_strncmp s t (Z.to_nat n), m) /\
  (forall d, room m d n a s ->
     rt_strncpy d a n m = Some (d, write_bytes d (Kservice.rt_strncpy s (Z.to_nat n)) m)) /\
  (forall d, room m d (zlen s + 1) a s -> rt_strcpy d a m = Some (d, write_bytes d (s ++ [0]) m)).
Proof.
  intros Hok Ha Hb Hn. split; [by apply strlen_spec|]. split; [by apply strnlen_spec|].
  split; [by apply strcmp_spec|]. split; [by apply strcasecmp_spec|]. split; [by apply strncmp_spec|].
  split; intros d Hd; [by apply strncpy_spec|by apply strcpy_spec].
Qed.

Lemma strings_correct_witness :
  rt_strlen 100 sample_strings = Some (6, sample_strings) /\
  rt_strcmp 200 300 sample_strings = Some (12, sample_strings).
Proof.
  assert (cstring sample_strings 100 [98; 97; 110; 97; 110; 97]) as Ha
    by (apply cstringb_sound; vm_compute; reflexivity).
  assert (cstring sample_strings 200 [110; 97; 110]) as Hb by (apply cstringb_sound; vm_compute; reflexivity).
  assert (cstring sample_strings 300 [110; 97; 98]) as Hc by (apply cstringb_sound; vm_compute; reflexivity).
  assert (cmem_ok sample_strings) as Hok by (apply cmem_okb_sound; vm_compute; reflexivity).
  revert Ha Hb Hc Hok. generalize sample_strings. intros m Ha Hb Hc Hok. split.
  - exact (proj1 (strings_correct m 100 200 _ _ 3 Hok Ha Hb ltac:(lia))).
  - exact (proj1 (proj2 (proj2 (strings_correct m 200 300 _ _ 3 Hok Hb Hc ltac:(lia))))).
Defined.

(** [rt_strnlen] looks at one byte more than it is allowed to: an array of
    [maxlen] characters without an end makes it read behind the array. *)
Lemma strnlen_overreads m a s :
  Forall (fun v => v <> 0) s -> bytes_at m a s -> m !! (a + zlen s) = None ->
  rt_strnlen a (zlen s) m = None.
Proof.
  intros Hn Hb Hend. unfold rt_strnlen, cmem_fuel. rewrite bind_gets.
  match goal with |- (loop ?fuel ?round a ≫= ?k) m = None =>
    assert (forall n j, 0 <= j <= zlen s -> loop n round (a + j) m = None) as H end.
  { induction n as [|n IH]; intros j Hj; [done|]. cbn [loop]. destruct (decide (j = zlen s)) as [->|Hne].
    - assert (load (a + zlen s) m = None) as E by (unfold load; by rewrite bind_gets, Hend).
      by rewrite bind_unfold, bind_unfold, E.
    - assert (zget s j <> 0) as Hz.
      { unfold zlen in *. destruct (lookup_lt_is_Some_2 s (Z.to_nat j)) as [v E]; [lia|].
        unfold zget. rewrite nth_lookup, E. by apply (Forall_lookup_1 _ _ _ _ Hn E). }
      rewrite bind_unfold, (load_bind _ _ _ _ (bytes_at_lookup _ _ _ j Hb ltac:(lia))).
      rewrite (proj2 (Z.eqb_neq _ 0) Hz), (proj2 (Z.ltb_lt _ _)) by lia. cbn [negb andb].
      replace (a + j + 1) with (a + (j + 1)) by lia. apply IH. lia. }
  pose proof (zlen_nonneg s). pose proof (H (S (S (size m))) 0 ltac:(lia)) as E. rewrite Z.add_0_r in E.
  by rewrite bind_unfold, E.
Qed.
