(* ===== verification/Printf.v ===== *)
(** * Formatted output

    [rt_vsnprintf] of [src/kservice.c] and its relatives, on the memory of
    Cmem.v, in the configuration [RT_KPRINTF_USING_LONGLONG] with
    [RT_PRINTF_PRECISION]. The variable arguments are the list of the 64-bit
    slots that are left. Signed arithmetic that overflows is undefined, as in C,
    and so is the use of an argument that was not passed. *)
From Stdlib Require Import String Ascii.
From S2P Require Import Prelude Kservice Cmem Kmemory Kstring.
Open Scope Z_scope.

(** The characters of a literal. *)
Definition chars (s : string) : list Z := map (fun c => Z.of_N (N_of_ascii c)) (list_ascii_of_string s).
(** A character constant, given as a string of one character. *)
Definition char (s : string) : Z := zget (chars s) 0.

Definition s64 (x : Z) : Z := (x + 2 ^ 63) mod 2 ^ 64 - 2 ^ 63.

(** The result of signed arithmetic of type [int] and [long long]. *)
Definition as_int {S} (x : Z) : St S Z := rt_assert ((- 2 ^ 31 <=? x) && (x <? 2 ^ 31));; mret x.
Definition as_llong {S} (x : Z) : St S Z := rt_assert ((- 2 ^ 63 <=? x) && (x <? 2 ^ 63));; mret x.

(** [va_arg]: the slot is read at the type that the caller of it asks for. *)
Definition va_arg (read : Z -> Z) (args : list Z) : St cmem (Z * list Z) :=
  match args with
  | [] => fun _ => None
  | x :: args => mret (read x, args)
  end.

Definition _ISDIGIT (c : Z) : bool := u32 (c - char "0") <? 10.

(** [if (buf < end) *buf = c; ++ buf;] *)
Definition emit (end_ buf c : Z) : St cmem Z := when (buf <? end_) (store buf c);; mret (buf + 1).

(** ** [divide] and [skip_atoi] *)

(** The remainder, and the new value of [*n]. *)
Definition divide (n base : Z) : Z * Z :=
  if base =? 10 then (u64 n mod 10, s64 (u64 n / 10))
  else (u64 n mod 16, s64 (u64 n / 16)).

(** The number, and where it ends. *)
Definition skip_atoi_round (x : Z * Z) : St cmem (Z * Z + Z * Z) :=
  let '(i, s) := x in
  c ← load s;
  if _ISDIGIT c then sum ← as_int (i * 10 + c); i ← as_int (sum - char "0"); again (i, s + 1)
  else stop (i, s).
Definition skip_atoi (s : Z) : St cmem (Z * Z) :=
  fuel ← cmem_fuel; loop fuel skip_atoi_round (0, s).

(** ** [print_number] *)

Definition ZEROPAD : Z := Z.shiftl 1 0.
Definition SIGN : Z := Z.shiftl 1 1.
Definition PLUS : Z := Z.shiftl 1 2.
Definition SPACE : Z := Z.shiftl 1 3.
Definition LEFT : Z := Z.shiftl 1 4.
Definition SPECIAL : Z := Z.shiftl 1 5.
Definition LARGE : Z := Z.shiftl 1 6.
Definition has (flags flag : Z) : bool := negb (Z.land flags flag =? 0).

Definition small_digits : list Z := chars "0123456789abcdef".
Definition large_digits : list Z := chars "0123456789ABCDEF".

(** [while (num != 0) tmp[i++] = digits[divide(&num, base)];] on the 32 places
    of [tmp], of which the first [i] are the list. *)
Definition digits_round (digits : list Z) (base : Z) (x : Z * list Z) : St cmem (Z * list Z + list Z) :=
  let '(num, tmp) := x in
  if num =? 0 then stop tmp
  else
    rt_assert (zlen tmp <? 32);;
    let '(res, num) := divide num base in
    again (num, tmp ++ [zget digits res]).

(** [while (size-- > 0) { if (buf < end) *buf = c; ++ buf; }] *)
Definition pad_round (end_ c : Z) (x : Z * Z) : St cmem (Z * Z + Z * Z) :=
  let '(buf, size) := x in
  size1 ← as_int (size - 1);
  if 0 <? size then buf ← emit end_ buf c; again (buf, size1)
  else stop (buf, size1).
Definition pad (end_ c buf size : Z) : St cmem (Z * Z) :=
  loop (S (Z.to_nat size)) (pad_round end_ c) (buf, size).

(** [while (i < precision--) { if (buf < end) *buf = '0'; ++ buf; }] *)
Definition zeros_round (end_ i : Z) (x : Z * Z) : St cmem (Z * Z + Z) :=
  let '(buf, precision) := x in
  if i <? precision then buf ← emit end_ buf (char "0"); again (buf, precision - 1)
  else stop buf.

(** [while (i-- > 0 && (precision_bak != 0)) { if (buf < end) *buf = tmp[i]; ++ buf; }] *)
Definition tmp_round (end_ precision_bak : Z) (tmp : list Z) (x : Z * Z) : St cmem (Z * Z + Z) :=
  let '(buf, i) := x in
  if (0 <? i) && negb (precision_bak =? 0) then buf ← emit end_ buf (zget tmp (i - 1)); again (buf, i - 1)
  else stop buf.

(** The sign, 0 for none, and the number without it. *)
Definition split_sign (type num : Z) : St cmem (Z * Z) :=
  if has type SIGN then
    if num <? 0 then n ← as_llong (- num); mret (char "-", n)
    else if has type PLUS then mret (char "+", num)
    else if has type SPACE then mret (char " ", num)
    else mret (0, num)
  else mret (0, num).

(** The last three loops: zeros up to the precision, the digits, and spaces. *)
Definition print_body (end_ i precision precision_bak : Z) (tmp : list Z) (buf size : Z) : St cmem Z :=
  buf ← loop (S (Z.to_nat precision)) (zeros_round end_ i) (buf, precision);
  buf ← loop (S (Z.to_nat i)) (tmp_round end_ precision_bak tmp) (buf, i);
  x ← pad end_ (char " ") buf size;
  mret (x.1).

Definition print_number (buf end_ num base s precision type : Z) : St cmem Z :=
  let precision_bak := precision in
  let digits := if has type LARGE then large_digits else small_digits in
  let type := if has type LEFT then Z.land type (Z.lnot ZEROPAD) else type in
  let c := if has type ZEROPAD then char "0" else char " " in
  x ← split_sign type num;
  let '(sign, num) := x in
  tmp ← (if num =? 0 then mret [char "0"] else loop 33 (digits_round digits base) (num, []));
  let i := zlen tmp in
  let precision := if precision <? i then i else precision in
  size ← as_int (s - precision);
  x ← (if negb (has type (Z.lor ZEROPAD LEFT)) then
         let size := if negb (sign =? 0) && (0 <? size) then size - 1 else size in
         pad end_ (char " ") buf size
       else mret (buf, size));
  let '(buf, size) := x in
  x ← (if negb (sign =? 0) then buf ← emit end_ buf sign; size ← as_int (size - 1); mret (buf, size)
       else mret (buf, size));
  let '(buf, size) := x in
  x ← (if negb (has type LEFT) then pad end_ c buf size else mret (buf, size));
  let '(buf, size) := x in
  print_body end_ i precision precision_bak tmp buf size.

(** ** The parts of a conversion *)

(** [fmt] is at the last character read; the result is at the first one that
    is no flag. *)
Definition flags_round (x : Z * Z) : St cmem (Z * Z + Z * Z) :=
  let '(fmt, flags) := x in
  let fmt := fmt + 1 in
  c ← load fmt;
  if c =? char "-" then again (fmt, Z.lor flags LEFT)
  else if c =? char "+" then again (fmt, Z.lor flags PLUS)
  else if c =? char " " then again (fmt, Z.lor flags SPACE)
  else if c =? char "#" then again (fmt, Z.lor flags SPECIAL)
  else if c =? char "0" then again (fmt, Z.lor flags ZEROPAD)
  else stop (fmt, flags).

(** The field width, where it ends, and the flags and arguments after it. *)
Definition read_width (fmt flags : Z) (args : list Z) : St cmem (Z * Z * Z * list Z) :=
  c ← load fmt;
  if _ISDIGIT c then
    x ← skip_atoi fmt;
    let '(field_width, fmt) := x in mret (field_width, fmt, flags, args)
  else if c =? char "*" then
    x ← va_arg s32 args;
    let '(field_width, args) := x in
    if field_width <? 0 then
      field_width ← as_int (- field_width); mret (field_width, fmt + 1, Z.lor flags LEFT, args)
    else mret (field_width, fmt + 1, flags, args)
  else mret (-1, fmt, flags, args).

Definition read_precision (fmt : Z) (args : list Z) : St cmem (Z * Z * list Z) :=
  c ← load fmt;
  if c =? char "." then
    let fmt := fmt + 1 in
    c ← load fmt;
    x ← (if _ISDIGIT c then x ← skip_atoi fmt; let '(precision, fmt) := x in mret (precision, fmt, args)
         else if c =? char "*" then
           x ← va_arg s32 args; let '(precision, args) := x in mret (precision, fmt + 1, args)
         else mret (-1, fmt, args));
    let '(precision, fmt, args) := x in
    mret (if precision <? 0 then 0 else precision, fmt, args)
  else mret (-1, fmt, args).

Definition read_qualifier (fmt : Z) : St cmem (Z * Z) :=
  c ← load fmt;
  if (c =? char "h") || (c =? char "l") || (c =? char "L") then
    let fmt := fmt + 1 in
    c1 ← load fmt;
    if (c =? char "l") && (c1 =? char "l") then mret (char "L", fmt + 1) else mret (c, fmt)
  else mret (0, fmt).

(** ** The conversions *)

(** [while (--field_width > 0) { if (str < end) *str = ' '; ++ str; }]. The
    field width is at least -1 when it is read, so that counting it down does
    not overflow. *)
Definition field_round (end_ : Z) (x : Z * Z) : St cmem (Z * Z + Z * Z) :=
  let '(str, field_width) := x in
  let field_width := field_width - 1 in
  if 0 <? field_width then str ← emit end_ str (char " "); again (str, field_width)
  else stop (str, field_width).

Definition print_char (end_ str field_width flags c : Z) : St cmem Z :=
  let fuel := S (Z.to_nat field_width) in
  x ← (if negb (has flags LEFT) then loop fuel (field_round end_) (str, field_width) else mret (str, field_width));
  let '(str, field_width) := x in
  str ← emit end_ str (u8 c);
  x ← loop fuel (field_round end_) (str, field_width);
  mret (x.1).

(** [s[i]], where a null pointer stands for the literal. *)
Definition string_char (s i : Z) : St cmem Z :=
  if s =? 0 then mret (zget (chars "(NULL)") i) else load (s + i).

(** [for (len = 0; (len != field_width) && (s[len] != '\0'); len++);] *)
Definition len_round (s field_width len : Z) : St cmem (Z + Z) :=
  if len =? field_width then stop len
  else
    c ← string_char s len;
    if c =? 0 then stop len else len ← as_int (len + 1); again len.

(** [while (len < field_width--) { if (str < end) *str = ' '; ++ str; }] *)
Definition string_pad_round (end_ len : Z) (x : Z * Z) : St cmem (Z * Z + Z * Z) :=
  let '(str, field_width) := x in
  if len <? field_width then str ← emit end_ str (char " "); again (str, field_width - 1)
  else stop (str, field_width - 1).

(** [for (i = 0; i < len; ++i) { if (str < end) *str = *s; ++ str; ++ s; }] *)
Definition string_round (end_ s len : Z) (x : Z * Z) : St cmem (Z * Z + Z) :=
  let '(str, i) := x in
  if i <? len then
    str ← (if str <? end_ then c ← string_char s i; store str c;; mret (str + 1) else mret (str + 1));
    again (str, i + 1)
  else stop str.

Definition print_string (end_ str field_width precision flags s : Z) : St cmem Z :=
  fuel ← cmem_fuel;
  len ← loop (fuel + 8) (len_round s field_width) 0;
  let len := if (0 <? precision) && (precision <? len) then precision else len in
  let fuel := S (Z.to_nat field_width) in
  x ← (if negb (has flags LEFT) then loop fuel (string_pad_round end_ len) (str, field_width)
       else mret (str, field_width));
  let '(str, field_width) := x in
  str ← loop (S (Z.to_nat len)) (string_round end_ s len) (str, 0);
  x ← loop fuel (string_pad_round end_ len) (str, field_width);
  mret (x.1).

(** The value of an integer conversion, an [unsigned long long]. *)
Definition read_number (qualifier flags : Z) (args : list Z) : St cmem (Z * list Z) :=
  if qualifier =? char "L" then va_arg u64 args
  else if qualifier =? char "l" then
    x ← va_arg u32 args;
    let '(num, args) := x in mret (if has flags SIGN then u64 (s32 num) else num, args)
  else if qualifier =? char "h" then
    x ← va_arg s32 args;
    let '(num, args) := x in
    let num := u16 num in mret (if has flags SIGN then u64 (s16 num) else num, args)
  else
    x ← va_arg u32 args;
    let '(num, args) := x in mret (if has flags SIGN then u64 (s32 num) else num, args).

Definition print_integer (end_ str field_width precision flags base qualifier : Z) (args : list Z) :
  St cmem (Z * list Z) :=
  x ← read_number qualifier flags args;
  let '(num, args) := x in
  str ← print_number str end_ (s64 num) base field_width precision flags;
  mret (str, args).

(** The [switch] on [*fmt]: the new [str] and arguments, and the new [fmt],
    before the [++fmt] of the loop. *)
Definition convert (end_ fmt str field_width precision flags qualifier : Z) (args : list Z) :
  St cmem (Z * Z * list Z) :=
  c ← load fmt;
  let integer flags base :=
    x ← print_integer end_ str field_width precision flags base qualifier args;
    let '(str, args) := x in mret (fmt, str, args) in
  if c =? char "c" then
    x ← va_arg s32 args;
    let '(v, args) := x in
    str ← print_char end_ str field_width flags v;
    mret (fmt, str, args)
  else if c =? char "s" then
    x ← va_arg u64 args;
    let '(s, args) := x in
    str ← print_string end_ str field_width precision flags s;
    mret (fmt, str, args)
  else if c =? char "p" then
    x ← va_arg s64 args;
    let '(num, args) := x in
    str ← (if field_width =? -1
           then print_number str end_ num 16 16 precision (Z.lor flags ZEROPAD)
           else print_number str end_ num 16 field_width precision flags);
    mret (fmt, str, args)
  else if c =? char "%" then str ← emit end_ str (char "%"); mret (fmt, str, args)
  else if c =? char "o" then integer flags 8
  else if c =? char "X" then integer (Z.lor flags LARGE) 16
  else if c =? char "x" then integer flags 16
  else if (c =? char "d") || (c =? char "i") then integer (Z.lor flags SIGN) 10
  else if c =? char "u" then integer flags 10
  else
    str ← emit end_ str (char "%");
    if negb (c =? 0) then str ← emit end_ str c; mret (fmt, str, args)
    else mret (fmt - 1, str, args).

(** ** [rt_vsnprintf] *)

Definition conversion (end_ fmt str : Z) (args : list Z) : St cmem (Z * Z * list Z) :=
  fuel ← cmem_fuel;
  x ← loop fuel flags_round (fmt, 0);
  let '(fmt, flags) := x in
  x ← read_width fmt flags args;
  let '(field_width, fmt, flags, args) := x in
  x ← read_precision fmt args;
  let '(precision, fmt, args) := x in
  x ← read_qualifier fmt;
  let '(qualifier, fmt) := x in
  convert end_ fmt str field_width precision flags qualifier args.

Definition format_round (end_ : Z) (x : Z * Z * list Z) : St cmem (Z * Z * list Z + Z) :=
  let '(fmt, str, args) := x in
  c ← load fmt;
  if c =? 0 then stop str
  else if negb (c =? char "%") then str ← emit end_ str c; again (fmt + 1, str, args)
  else
    x ← conversion end_ fmt str args;
    let '(fmt, str, args) := x in again (fmt + 1, str, args).

Definition rt_vsnprintf (buf size fmt : Z) (args : list Z) : St cmem Z :=
  let end_ := u64 (buf + size) in
  let '(end_, size) := if end_ <? buf then (2 ^ 64 - 1, 2 ^ 64 - 1 - buf) else (end_, size) in
  fuel ← cmem_fuel;
  str ← loop fuel (format_round end_) (fmt, buf, args);
  when (0 <? size) (if str <? end_ then store str 0 else store (end_ - 1) 0);;
  mret (s32 (str - buf)).

Definition rt_snprintf (buf size fmt : Z) (args : list Z) : St cmem Z := rt_vsnprintf buf size fmt args.
Definition rt_vsprintf (buf fmt : Z) (args : list Z) : St cmem Z := rt_vsnprintf buf (2 ^ 64 - 1) fmt args.
Definition rt_sprintf (buf fmt : Z) (args : list Z) : St cmem Z := rt_vsprintf buf fmt args.

(** ** A run *)

(** The text that a call leaves in a buffer of [size] bytes at 1000. *)
Definition sample_print (fmt : string) (size : Z) (args : list Z) : option (Z * list Z) :=
  let m := write_bytes 100 (chars fmt ++ [0])
    (write_bytes 200 (chars "string" ++ [0]) (write_bytes 1000 (replicate 60 7) ∅)) in
  match rt_snprintf 1000 size 100 args m with
  | Some (n, m) => Some (n, map (fun a => default (-1) (m !! a)) (seqZ 1000 60))
  | None => None
  end.
