(* ===== verification/PrintfNumber.v ===== *)
(** * Printing numbers

    What [print_number] of Printf.v writes: the text of a number, its sign and
    its padding, in the manner of a specification, and that the text holds the
    number. *)
From Stdlib Require Import String Ascii.
From S2P Require Import Prelude Kservice Cmem Kmemory Kstring Printf.
Open Scope Z_scope.

Lemma as_int_ok {S} x (s : S) : - 2 ^ 31 <= x < 2 ^ 31 -> as_int x s = Some (x, s).
Proof.
  intros. unfold as_int. rewrite bind_assert; [done|].
  by rewrite (proj2 (Z.leb_le _ _)), (proj2 (Z.ltb_lt _ _)) by lia.
Qed.
Lemma as_llong_ok {S} x (s : S) : - 2 ^ 63 <= x < 2 ^ 63 -> as_llong x s = Some (x, s).
Proof.
  intros. unfold as_llong. rewrite bind_assert; [done|].
  by rewrite (proj2 (Z.leb_le _ _)), (proj2 (Z.ltb_lt _ _)) by lia.
Qed.

(** Equal results of a call. *)
Ltac results := apply f_equal, f_equal2; [pairs|done].

(** ** Digits *)

(** The digits of a number, the least significant one first. *)
Fixpoint low_digits (fuel : nat) (base n : Z) : list Z :=
  match fuel with
  | O => []
  | S fuel => if n =? 0 then [] else n mod base :: low_digits fuel base (n / base)
  end.
(** 20 digits are enough for 64 bits, in base 10 and more so in base 16. *)
Definition digits (base n : Z) : list Z := if n =? 0 then [0] else rev (low_digits 20 base n).
(** The number that digits stand for. *)
Definition number (base : Z) (l : list Z) : Z := fold_left (fun i d => i * base + d) l 0.

Lemma number_snoc base l d : number base (l ++ [d]) = number base l * base + d.
Proof. unfold number. by rewrite fold_left_app. Qed.

Lemma low_digits_number base n fuel :
  1 < base -> 0 <= n < base ^ Z.of_nat fuel -> number base (rev (low_digits fuel base n)) = n.
Proof.
  intros Hb. revert n. induction fuel as [|fuel IH]; intros n Hn.
  - change (base ^ Z.of_nat 0) with 1 in Hn. cbn. lia.
  - cbn [low_digits]. destruct (Z.eqb_spec n 0) as [->|Hne]; [done|]. cbn [rev].
    rewrite number_snoc, IH; [pose proof (Z_div_mod_eq_full n base); lia|].
    rewrite Nat2Z.inj_succ, Z.pow_succ_r in Hn by lia. split; [apply Z.div_pos; lia|].
    apply Z.div_lt_upper_bound; lia.
Qed.

Lemma low_digits_range base n fuel : 1 < base -> Forall (fun d => 0 <= d < base) (low_digits fuel base n).
Proof.
  intros Hb. revert n. induction fuel as [|fuel IH]; intros n; cbn [low_digits]; [constructor|].
  destruct (n =? 0); constructor; [apply Z.mod_pos_bound; lia|apply IH].
Qed.

Lemma low_digits_length base n fuel : (length (low_digits fuel base n) <= fuel)%nat.
Proof.
  revert n. induction fuel as [|fuel IH]; intros n; cbn [low_digits]; [done|].
  destruct (n =? 0); cbn [length]; [lia|]. specialize (IH (n / base)). lia.
Qed.

Lemma pow20 base : 10 <= base -> 2 ^ 64 <= base ^ 20.
Proof. intros. apply Z.le_trans with (10 ^ 20); [lia|]. apply Z.pow_le_mono_l. lia. Qed.

Lemma digits_number base n : 10 <= base -> 0 <= n < 2 ^ 64 -> number base (digits base n) = n.
Proof.
  intros Hb Hn. unfold digits. destruct (Z.eqb_spec n 0) as [->|]; [done|].
  apply low_digits_number; [lia|]. pose proof (pow20 base Hb). change (Z.of_nat 20) with 20. lia.
Qed.

Lemma digits_range base n : 1 < base -> Forall (fun d => 0 <= d < base) (digits base n).
Proof.
  intros. unfold digits. destruct (n =? 0); [repeat constructor; lia|].
  apply Forall_rev. by apply low_digits_range.
Qed.

Lemma digits_length base n : 1 <= zlen (digits base n) <= 20.
Proof.
  unfold digits, zlen. destruct (Z.eqb_spec n 0); [done|]. rewrite length_rev.
  pose proof (low_digits_length base n 20). split; [|lia].
  cbn [low_digits]. rewrite (proj2 (Z.eqb_neq n 0)) by done. cbn [length]. lia.
Qed.

(** ** The text of a number *)

Definition table (large : bool) : list Z := if large then large_digits else small_digits.
(** The digits of a base are those of base 10 or of base 16. *)
Definition radix (base : Z) : Z := if base =? 10 then 10 else 16.
Definition spaces (n : Z) : list Z := replicate (Z.to_nat n) (char " ").
Definition zeros (n : Z) : list Z := replicate (Z.to_nat n) (char "0").

Section number_text.
(** The flags of a conversion. *)
Context (left plus space zero signed large : bool).

Definition sign_text (num : Z) : list Z :=
  if negb signed then []
  else if num <? 0 then [char "-"]
  else if plus then [char "+"]
  else if space then [char " "]
  else [].
(** The number that is printed, without its sign. *)
Definition magnitude (num : Z) : Z := if signed then Z.abs num else u64 num.
Definition digits_text (base num : Z) : list Z := map (zget (table large)) (digits (radix base) (magnitude num)).

(** [num] is a [long long], [width] and [precision] are -1 where there is none. *)
Definition number_text (base num width precision : Z) : list Z :=
  let sign := sign_text num in
  let ds := digits_text base num in
  let body := zeros (precision - zlen ds) ++ (if precision =? 0 then [] else ds) in
  let fill := width - Z.max precision (zlen ds) - zlen sign in
  if left then sign ++ body ++ spaces fill
  else if zero then sign ++ zeros fill ++ body
  else spaces fill ++ sign ++ body.
End number_text.

(** ** Writing *)

(** The text [t] has been written to [buf], as far as there is room for [lim]
    bytes. *)
Definition out (buf lim : Z) (m0 : cmem) (t : list Z) : cmem := write_bytes buf (ztake lim t) m0.

Section writing.
(** The text will have at most [N] characters, and with its end it lies in
    memory as far as there is room. *)
Context (buf lim N : Z) (m0 : cmem).
Context (Hmap : mapped m0 buf (Z.min lim (N + 1))).

Abbreviation end_ := (buf + lim).
Abbreviation OUT := (out buf lim m0).

Lemma out_snoc t c :
  OUT (t ++ [c]) = if zlen t <? lim then <[buf + zlen t := c]> (OUT t) else OUT t.
Proof.
  unfold out, ztake. destruct (Z.ltb_spec (zlen t) lim) as [Hlt|Hge].
  - rewrite !take_ge by (rewrite ?length_app; unfold zlen in *; cbn [length]; lia). apply write_bytes_snoc.
  - rewrite take_app_le; [done|]. unfold zlen in *. lia.
Qed.

Lemma emit_spec t c :
  0 <= c < 256 -> zlen t + 1 <= N ->
  emit end_ (buf + zlen t) c (OUT t) = Some (buf + zlen t + 1, OUT (t ++ [c])).
Proof.
  intros Hc Hn. unfold emit, when. rewrite out_snoc. pose proof (zlen_nonneg t).
  destruct (Z.ltb_spec (buf + zlen t) end_), (Z.ltb_spec (zlen t) lim); try lia; [|done].
  rewrite (bind_ok _ _ _ _ _ (store_ok (OUT t) (buf + zlen t) c
    ltac:(apply (write_bytes_mapped _ _ _ buf (Z.min lim (N + 1))); [done|lia]))).
  by rewrite u8_small by lia.
Qed.

(** Emitting one character of a list of them: a new beginning. *)
Lemma out_cons t c u : OUT (t ++ c :: u) = OUT ((t ++ [c]) ++ u).
Proof. by rewrite <- app_assoc. Qed.

Lemma zlen_snoc (t : list Z) c : zlen (t ++ [c]) = zlen t + 1.
Proof. by rewrite zlen_app. Qed.

Lemma pad_spec c size t :
  0 <= c < 256 -> - 2 ^ 31 < size < 2 ^ 31 -> zlen t + Z.max 0 size <= N ->
  pad end_ c (buf + zlen t) size (OUT t) =
  Some ((buf + zlen t + Z.max 0 size, Z.min 0 size - 1), OUT (t ++ replicate (Z.to_nat size) c)).
Proof.
  intros Hc Hs Hn. unfold pad. assert (Z.to_nat size < S (Z.to_nat size))%nat as Hf by lia. revert Hf.
  generalize (S (Z.to_nat size)) as fuel. remember (Z.to_nat size) as n eqn:En.
  revert size t Hs Hn En. induction n as [|n IH]; intros size t Hs Hn En [|fuel] Hf; try lia.
  - assert (pad_round end_ c (buf + zlen t, size) (OUT t) = Some (inr (buf + zlen t, size - 1), OUT t)) as E.
    { unfold pad_round. rewrite (bind_ok _ _ _ _ _ (as_int_ok (size - 1) _ ltac:(lia))).
      by rewrite (proj2 (Z.ltb_ge 0 size)) by lia. }
    rewrite (loop_step _ _ _ _ _ _ E). cbn [replicate]. rewrite app_nil_r. results.
  - assert (pad_round end_ c (buf + zlen t, size) (OUT t) =
      Some (inl (buf + zlen (t ++ [c]), size - 1), OUT (t ++ [c]))) as E.
    { unfold pad_round. rewrite (bind_ok _ _ _ _ _ (as_int_ok (size - 1) _ ltac:(lia))).
      rewrite (proj2 (Z.ltb_lt 0 size)) by lia. rewrite (bind_ok _ _ _ _ _ (emit_spec t c Hc ltac:(lia))).
      apply mret_ok. rewrite zlen_snoc. by rewrite Z.add_assoc. }
    rewrite (loop_step _ _ _ _ _ _ E). cbn [replicate]. rewrite (out_cons t c (replicate n c)), IH; rewrite ?zlen_snoc; try lia.
    results.
Qed.

Lemma zeros_spec i p t :
  0 <= i -> zlen t + Z.max 0 (p - i) <= N ->
  loop (S (Z.to_nat p)) (zeros_round end_ i) (buf + zlen t, p) (OUT t) =
  Some (buf + zlen t + Z.max 0 (p - i), OUT (t ++ zeros (p - i))).
Proof.
  intros Hi Hn. assert (Z.to_nat (p - i) < S (Z.to_nat p))%nat as Hf by lia. revert Hf.
  generalize (S (Z.to_nat p)) as fuel. unfold zeros. remember (Z.to_nat (p - i)) as n eqn:En.
  revert p t Hn En. induction n as [|n IH]; intros p t Hn En [|fuel] Hf; try lia.
  - assert (zeros_round end_ i (buf + zlen t, p) (OUT t) = Some (inr (buf + zlen t), OUT t)) as E.
    { unfold zeros_round. by rewrite (proj2 (Z.ltb_ge i p)) by lia. }
    rewrite (loop_step _ _ _ _ _ _ E). cbn [replicate]. rewrite app_nil_r. results.
  - assert (zeros_round end_ i (buf + zlen t, p) (OUT t) =
      Some (inl (buf + zlen (t ++ [char "0"]), p - 1), OUT (t ++ [char "0"]))) as E.
    { unfold zeros_round. rewrite (proj2 (Z.ltb_lt i p)) by lia.
      rewrite (bind_ok _ _ _ _ _ (emit_spec t (char "0") ltac:(done) ltac:(lia))).
      apply mret_ok. by rewrite zlen_snoc, Z.add_assoc. }
    rewrite (loop_step _ _ _ _ _ _ E). cbn [replicate].
    rewrite (out_cons t _ (replicate n _)), IH; rewrite ?zlen_snoc; try lia. results.
Qed.

Lemma tmp_spec pb tmp t :
  Forall (fun c => 0 <= c < 256) tmp -> zlen t + zlen (if pb =? 0 then [] else tmp) <= N ->
  loop (S (Z.to_nat (zlen tmp))) (tmp_round end_ pb tmp) (buf + zlen t, zlen tmp) (OUT t) =
  Some (buf + zlen (t ++ if pb =? 0 then [] else rev tmp), OUT (t ++ if pb =? 0 then [] else rev tmp)).
Proof.
  intros Htmp. destruct (Z.eqb_spec pb 0) as [->|Hpb].
  { intros _. rewrite (loop_step _ _ _ _ (inr (buf + zlen t)) (OUT t)); [by rewrite app_nil_r|].
    unfold tmp_round. by rewrite andb_false_r. }
  assert (forall k fuel t, Z.of_nat k <= zlen tmp -> zlen t + Z.of_nat k <= N -> (k < fuel)%nat ->
    loop fuel (tmp_round end_ pb tmp) (buf + zlen t, Z.of_nat k) (OUT t) =
    Some (buf + zlen (t ++ rev (take k tmp)), OUT (t ++ rev (take k tmp)))) as H.
  { clear t. induction k as [|k IH]; intros [|fuel] t Hk Hn Hf; try lia; [by rewrite app_nil_r|].
    destruct (lookup_lt_is_Some_2 tmp k) as [c Ec]; [unfold zlen in Hk; lia|].
    assert (tmp_round end_ pb tmp (buf + zlen t, Z.of_nat (S k)) (OUT t) =
      Some (inl (buf + zlen (t ++ [c]), Z.of_nat k), OUT (t ++ [c]))) as E.
    { unfold tmp_round. rewrite (proj2 (Z.ltb_lt 0 _)), (proj2 (Z.eqb_neq pb 0)) by lia. cbn [andb negb].
      replace (Z.of_nat (S k) - 1) with (Z.of_nat k) by lia.
      assert (zget tmp (Z.of_nat k) = c) as -> by (unfold zget; by rewrite Nat2Z.id, nth_lookup, Ec).
      rewrite (bind_ok _ _ _ _ _ (emit_spec t c (Forall_lookup_1 _ _ _ _ Htmp Ec) ltac:(lia))).
      apply mret_ok. by rewrite zlen_snoc, Z.add_assoc. }
    rewrite (loop_step _ _ _ _ _ _ E), (take_S_r _ _ _ Ec), rev_app_distr. cbn [rev app].
    rewrite IH by (rewrite ?zlen_snoc; lia). by rewrite <- !app_assoc. }
  intros Hn. unfold zlen at 1 3. rewrite Nat2Z.id, H by (unfold zlen in *; lia).
  by rewrite take_ge.
Qed.
End writing.

(** *** The digits *)

Lemma s64_small x : - 2 ^ 63 <= x < 2 ^ 63 -> s64 x = x.
Proof. intros. unfold s64. rewrite Z.mod_small by lia. lia. Qed.
Lemma u64_zero x : - 2 ^ 63 <= x < 2 ^ 63 -> u64 x = 0 <-> x = 0.
Proof. intros. unfold u64. split; [intros; dlia|by intros ->]. Qed.
Lemma u64_range x : 0 <= u64 x < 2 ^ 64.
Proof. apply Z.mod_pos_bound. lia. Qed.

Lemma divide_spec num base :
  divide num base = (u64 num mod radix base, u64 num / radix base).
Proof.
  pose proof (u64_range num). unfold divide, radix.
  destruct (base =? 10); (rewrite s64_small; [done|]; split; [apply Z.le_trans with 0; [lia|apply Z.div_pos; lia]|];
    apply Z.div_lt_upper_bound; lia).
Qed.

Lemma radix_cases base : radix base = 10 \/ radix base = 16.
Proof. unfold radix. destruct (base =? 10); auto. Qed.

Lemma digits_loop tb base m k : forall fuel num tmp,
  - 2 ^ 63 <= num < 2 ^ 63 -> u64 num < radix base ^ Z.of_nat k ->
  zlen tmp + Z.of_nat k <= 32 -> (k < fuel)%nat ->
  loop fuel (digits_round tb base) (num, tmp) m =
  Some (tmp ++ map (zget tb) (low_digits k (radix base) (u64 num)), m).
Proof.
  induction k as [|k IH]; intros [|fuel] num tmp Hnum Hlt Hlen Hf; try lia.
  - pose proof (u64_range num). change (radix base ^ Z.of_nat 0) with 1 in Hlt.
    assert (num = 0) as -> by (apply u64_zero; lia).
    rewrite (loop_step _ _ _ m (inr tmp) m) by done. cbn [low_digits map]. by rewrite app_nil_r.
  - pose proof (u64_range num). pose proof (u64_zero num Hnum) as Hz.
    destruct (Z.eqb_spec num 0) as [->|Hne].
    { rewrite (loop_step _ _ _ m (inr tmp) m) by done. cbn. by rewrite app_nil_r. }
    assert (digits_round tb base (num, tmp) m =
      Some (inl (u64 num / radix base, tmp ++ [zget tb (u64 num mod radix base)]), m)) as E.
    { unfold digits_round. rewrite (proj2 (Z.eqb_neq num 0)), bind_assert, divide_spec by lia || (zcases; lia). done. }
    rewrite (loop_step _ _ _ _ _ _ E). cbn [low_digits].
    rewrite (proj2 (Z.eqb_neq (u64 num) 0)) by tauto.
    assert (0 <= u64 num / radix base < 2 ^ 63).
    { destruct (radix_cases base) as [-> | ->]; (split; [apply Z.div_pos; lia|apply Z.div_lt_upper_bound; lia]). }
    rewrite IH; rewrite ?zlen_snoc; [|lia| |lia|lia].
    + cbn [map]. rewrite <- app_assoc. cbn [app]. rewrite (u64_small (_ / _)) by lia. done.
    + rewrite (u64_small (_ / _)) by lia. rewrite Nat2Z.inj_succ, Z.pow_succ_r in Hlt by lia.
      apply Z.div_lt_upper_bound; [|done]. destruct (radix_cases base) as [-> | ->]; lia.
Qed.

(** *** Flags *)

Lemma has_lor a b f : has (Z.lor a b) f = has a f || has b f.
Proof.
  unfold has. rewrite Z.land_lor_distr_l.
  destruct (Z.eqb_spec (Z.land a f) 0) as [->|Ha]; [by rewrite Z.lor_0_l|].
  destruct (Z.eqb_spec (Z.lor (Z.land a f) (Z.land b f)) 0) as [E|_]; [|done].
  by apply Z.lor_eq_0_iff in E as [? _].
Qed.

Lemma has_either a f g : has a (Z.lor f g) = has a f || has a g.
Proof. unfold has. rewrite !(Z.land_comm a). apply (has_lor f g a). Qed.

(** [type &= ~ZEROPAD] *)
Definition clear_zero (type : Z) : Z := if has type LEFT then Z.land type (Z.lnot ZEROPAD) else type.

Lemma has_clear type f : Z.land (Z.lnot ZEROPAD) f = f -> has (clear_zero type) f = has type f.
Proof. intros E. unfold clear_zero. destruct (has type LEFT); [|done]. unfold has. by rewrite <- Z.land_assoc, E. Qed.

Lemma has_clear_zero type : has (clear_zero type) ZEROPAD = negb (has type LEFT) && has type ZEROPAD.
Proof.
  unfold clear_zero. destruct (has type LEFT); [|done]. cbn [negb andb]. unfold has.
  by rewrite <- Z.land_assoc, Z.land_0_r.
Qed.

(** *** [print_number] *)

Lemma split_sign_spec type num m :
  - 2 ^ 63 <= num < 2 ^ 63 -> (has type SIGN = true -> - 2 ^ 63 < num) ->
  exists sign n, split_sign type num m = Some ((sign, n), m) /\
    0 <= sign < 256 /\
    sign_text (has type PLUS) (has type SPACE) (has type SIGN) num = (if sign =? 0 then [] else [sign]) /\
    - 2 ^ 63 <= n < 2 ^ 63 /\ u64 n = magnitude (has type SIGN) num.
Proof.
  intros Hnum Hmin. unfold split_sign, sign_text, magnitude. destruct (has type SIGN); cbn [negb].
  - specialize (Hmin eq_refl). destruct (Z.ltb_spec num 0).
    + exists (char "-"), (- num). rewrite (bind_ok _ _ _ _ _ (as_llong_ok (- num) m ltac:(lia))).
      split; [done|]. split; [done|]. split; [done|]. split; [lia|]. rewrite u64_small; lia.
    + assert (u64 num = Z.abs num) by (rewrite u64_small; lia).
      destruct (has type PLUS); [by exists (char "+"), num|].
      destruct (has type SPACE); [by exists (char " "), num|by exists 0, num].
  - by exists 0, num.
Qed.

Lemma zget_byte l i : Forall (fun c => 0 <= c < 256) l -> 0 <= zget l i < 256.
Proof.
  intros H. unfold zget. rewrite nth_lookup. destruct (l !! Z.to_nat i) eqn:E; cbn; [|lia].
  by apply (Forall_lookup_1 _ _ _ _ H E).
Qed.

Lemma table_bytes large : Forall (fun c => 0 <= c < 256) (table large).
Proof. destruct large; repeat (constructor; [done|]); constructor. Qed.

Lemma digits_text_bytes signed large base num :
  Forall (fun c => 0 <= c < 256) (digits_text signed large base num).
Proof.
  unfold digits_text. apply Forall_forall. intros c Hc. apply list_elem_of_fmap in Hc as (d & -> & _).
  apply zget_byte, table_bytes.
Qed.

Lemma digits_text_length signed large base num : 1 <= zlen (digits_text signed large base num) <= 20.
Proof. unfold digits_text, zlen. rewrite length_map. apply digits_length. Qed.

(** The digits in the order in which the code finds them. *)
Lemma digits_found signed large base num n m :
  - 2 ^ 63 <= n < 2 ^ 63 -> u64 n = magnitude signed num ->
  (if n =? 0 then mret [char "0"] else loop 33 (digits_round (table large) base) (n, [])) m =
  Some (rev (digits_text signed large base num), m).
Proof.
  intros Hn Hmag. unfold digits_text, digits. rewrite <- Hmag. pose proof (u64_zero n Hn).
  destruct (Z.eqb_spec n 0) as [->|Hne]; [by destruct large|].
  rewrite (proj2 (Z.eqb_neq (u64 n) 0)) by tauto. rewrite map_rev, rev_involutive.
  rewrite (digits_loop _ _ _ 20); [done|done| |done|lia].
  pose proof (u64_range n). pose proof (pow20 (radix base)) as Hp. change (Z.of_nat 20) with 20.
  destruct (radix_cases base) as [E|E]; rewrite E in *; lia.
Qed.

Lemma zlen_zeros n : zlen (zeros n) = Z.max 0 n.
Proof. unfold zlen, zeros. rewrite length_replicate. lia. Qed.
Lemma zlen_spaces n : zlen (spaces n) = Z.max 0 n.
Proof. unfold zlen, spaces. rewrite length_replicate. lia. Qed.
Lemma spaces_neg n : n <= 0 -> spaces n = [].
Proof. intros. unfold spaces. by replace (Z.to_nat n) with O by lia. Qed.
Lemma zeros_neg n : n <= 0 -> zeros n = [].
Proof. intros. unfold zeros. by replace (Z.to_nat n) with O by lia. Qed.

Lemma zlen_rev {A} (l : list A) : zlen (rev l) = zlen l.
Proof. unfold zlen. by rewrite length_rev. Qed.

Section print_number.
Context (buf lim N : Z) (m0 : cmem).
Context (Hmap : mapped m0 buf (Z.min lim (N + 1))).

Abbreviation end_ := (buf + lim).
Abbreviation OUT := (out buf lim m0).

Lemma print_body_spec t ds p pb size :
  Forall (fun c => 0 <= c < 256) ds -> - 2 ^ 31 < size < 2 ^ 31 ->
  let text := zeros (p - zlen ds) ++ (if pb =? 0 then [] else ds) ++ spaces size in
  zlen t + zlen text <= N ->
  print_body end_ (zlen ds) p pb (rev ds) (buf + zlen t) size (OUT t) =
  Some (buf + zlen (t ++ text), OUT (t ++ text)).
Proof.
  intros Hds Hsize text HN. unfold text in HN. rewrite !zlen_app, zlen_zeros, zlen_spaces in HN.
  unfold print_body. pose proof (zlen_nonneg ds). pose proof (zlen_nonneg (if pb =? 0 then [] else ds)).
  rewrite (bind_ok _ _ _ _ _ (zeros_spec buf lim N m0 Hmap (zlen ds) p t ltac:(lia) ltac:(lia))).
  pose proof (tmp_spec buf lim N m0 Hmap pb (rev ds) (t ++ zeros (p - zlen ds))) as E.
  replace (zlen (if pb =? 0 then [] else rev ds)) with (zlen (if pb =? 0 then [] else ds)) in E
    by (destruct (pb =? 0); by rewrite ?zlen_rev).
  rewrite zlen_rev, rev_involutive, zlen_app, zlen_zeros in E.
  rewrite <- Z.add_assoc, (bind_ok _ _ _ _ _ (E (Forall_rev Hds) ltac:(lia))).
  rewrite (bind_ok _ _ _ _ _ (pad_spec buf lim N m0 Hmap (char " ") size
    ((t ++ zeros (p - zlen ds)) ++ (if pb =? 0 then [] else ds)) ltac:(done) Hsize
    ltac:(rewrite !zlen_app, zlen_zeros; lia))).
  unfold text. rewrite !(app_assoc t), !(app_assoc (t ++ _)). apply mret_ok.
  rewrite !zlen_app, zlen_zeros, zlen_spaces. cbn [fst]. lia.
Qed.

Definition sign_chars (sign : Z) : list Z := if sign =? 0 then [] else [sign].

Lemma sign_step t sign size :
  0 <= sign < 256 -> - 2 ^ 31 < size < 2 ^ 31 -> zlen t + zlen (sign_chars sign) <= N ->
  (if negb (sign =? 0)
   then b ← emit end_ (buf + zlen t) sign; n ← as_int (size - 1); mret (b, n)
   else mret (buf + zlen t, size)) (OUT t) =
  Some ((buf + zlen (t ++ sign_chars sign), size - zlen (sign_chars sign)), OUT (t ++ sign_chars sign)).
Proof.
  unfold sign_chars. intros Hsign Hsize HN. destruct (Z.eqb_spec sign 0) as [->|Hne]; cbn [negb].
  - rewrite app_nil_r. unfold zlen at 3. cbn. by rewrite Z.sub_0_r.
  - change (zlen [sign]) with 1 in *. rewrite (bind_ok _ _ _ _ _ (emit_spec buf lim N m0 Hmap t sign Hsign HN)).
    rewrite (bind_ok _ _ _ _ _ (as_int_ok (size - 1) _ ltac:(lia))). apply mret_ok. rewrite zlen_snoc. by rewrite Z.add_assoc.
Qed.

(** The end of [print_number], with the digits [ds]: what is left of the field, [size], goes
    before the sign, between the sign and the digits, or behind them. *)
Definition layout (left zero : bool) (ds : list Z) (p precision sign size : Z) (t : list Z) : St cmem Z :=
  x ← (if negb (negb left && zero || left) then
         pad end_ (char " ") (buf + zlen t) (if negb (sign =? 0) && (0 <? size) then size - 1 else size)
       else mret (buf + zlen t, size));
  let '(buf, size) := x in
  x ← (if negb (sign =? 0) then b ← emit end_ buf sign; n ← as_int (size - 1); mret (b, n) else mret (buf, size));
  let '(buf, size) := x in
  x ← (if negb left then pad end_ (if negb left && zero then char "0" else char " ") buf size else mret (buf, size));
  let '(buf, size) := x in
  print_body end_ (zlen ds) p precision (rev ds) buf size.

Lemma layout_spaces t ds p precision sign size :
  Forall (fun c => 0 <= c < 256) ds -> 0 <= sign < 256 -> - 2 ^ 31 + 32 < size < 2 ^ 31 ->
  let text := spaces (size - zlen (sign_chars sign)) ++ sign_chars sign ++ zeros (p - zlen ds) ++ (if precision =? 0 then [] else ds) in
  zlen t + zlen text <= N ->
  layout false false ds p precision sign size t (OUT t) = Some (buf + zlen (t ++ text), OUT (t ++ text)).
Proof.
  intros Hds Hsign Hs text HN. set (sl := sign_chars sign) in *. unfold text in HN.
  rewrite !zlen_app, zlen_spaces in HN. pose proof (zlen_nonneg (zeros (p - zlen ds))).
  pose proof (zlen_nonneg (if precision =? 0 then [] else ds)).
  assert (0 <= zlen sl <= 1) as Hsl by (unfold sl, sign_chars; by destruct (sign =? 0)).
  unfold layout. cbn [negb andb orb]. set (size1 := if negb (sign =? 0) && (0 <? size) then size - 1 else size).
  assert (Z.max 0 size1 = Z.max 0 (size - zlen sl) /\ - 2 ^ 31 + 32 < size1 < 2 ^ 31) as [Hsz Hsr].
  { unfold size1, sl, sign_chars. destruct (sign =? 0); cbn [negb andb]; [change (zlen []) with 0; lia|].
    change (zlen [sign]) with 1. destruct (Z.ltb_spec 0 size); lia. }
  rewrite (bind_ok _ _ _ _ _ (pad_spec buf lim N m0 Hmap (char " ") size1 t ltac:(done) ltac:(lia) ltac:(lia))).
  assert (replicate (Z.to_nat size1) (char " ") = spaces (size - zlen sl)) as -> by (unfold spaces; f_equal; lia).
  rewrite Hsz, <- zlen_spaces, <- Z.add_assoc, <- zlen_app.
  rewrite (bind_ok _ _ _ _ _ (sign_step (t ++ spaces (size - zlen sl)) sign (Z.min 0 size1 - 1) Hsign
    ltac:(lia) ltac:(fold sl; rewrite zlen_app, zlen_spaces; lia))).
  fold sl. set (t1 := (t ++ spaces (size - zlen sl)) ++ sl).
  assert (zlen t1 = zlen t + Z.max 0 (size - zlen sl) + zlen sl) as Ht1
    by (unfold t1; rewrite !zlen_app, zlen_spaces; lia).
  rewrite (bind_ok _ _ _ _ _ (pad_spec buf lim N m0 Hmap (char " ") (Z.min 0 size1 - 1 - zlen sl) t1 ltac:(done)
    ltac:(lia) ltac:(lia))).
  assert (Z.to_nat (Z.min 0 size1 - 1 - zlen sl) = O) as -> by lia. cbn [replicate]. rewrite app_nil_r.
  rewrite Z.max_l, Z.add_0_r by lia.
  rewrite print_body_spec by (done || lia || (rewrite !zlen_app, Ht1, zlen_spaces; lia)).
  rewrite (spaces_neg (Z.min 0 _ - 1)) by lia. unfold t1, text. by rewrite app_nil_r, <- !app_assoc.
Qed.

Lemma layout_spec (left zero : bool) t ds p precision sign size :
  Forall (fun c => 0 <= c < 256) ds -> 0 <= sign < 256 -> - 2 ^ 31 + 32 < size < 2 ^ 31 ->
  let body := zeros (p - zlen ds) ++ (if precision =? 0 then [] else ds) in
  let fill := size - zlen (sign_chars sign) in
  let text := if left then sign_chars sign ++ body ++ spaces fill
              else if zero then sign_chars sign ++ zeros fill ++ body
              else spaces fill ++ sign_chars sign ++ body in
  zlen t + zlen text <= N ->
  layout left zero ds p precision sign size t (OUT t) = Some (buf + zlen (t ++ text), OUT (t ++ text)).
Proof.
  intros Hds Hsign Hs body fill text HN. set (sl := sign_chars sign) in *.
  assert (0 <= zlen sl <= 1) as Hsl by (unfold sl, sign_chars; by destruct (sign =? 0)).
  pose proof (zlen_nonneg (zeros (p - zlen ds))). pose proof (zlen_nonneg (if precision =? 0 then [] else ds)).
  unfold text, body, fill in *.
  destruct left; [|destruct zero; [|by apply layout_spaces]].
  all: rewrite ?zlen_app, ?zlen_spaces, ?(zlen_zeros (size - zlen sl)) in HN; unfold layout; cbn [negb andb orb].
  - rewrite bind_unfold. cbn beta iota delta [mret St_ret].
    rewrite (bind_ok _ _ _ _ _ (sign_step t sign size Hsign ltac:(lia) ltac:(fold sl; lia))). fold sl.
    rewrite bind_unfold. cbn beta iota delta [mret St_ret].
    rewrite (print_body_spec (t ++ sl) ds p precision (size - zlen sl) Hds ltac:(lia))
      by (rewrite !zlen_app, zlen_spaces; lia).
    by rewrite <- !app_assoc.
  - rewrite bind_unfold. cbn beta iota delta [mret St_ret].
    rewrite (bind_ok _ _ _ _ _ (sign_step t sign size Hsign ltac:(lia) ltac:(fold sl; lia))). fold sl.
    rewrite (bind_ok _ _ _ _ _ (pad_spec buf lim N m0 Hmap (char "0") (size - zlen sl) (t ++ sl) ltac:(done)
      ltac:(lia) ltac:(rewrite zlen_app; lia))).
    fold (zeros (size - zlen sl)). rewrite <- zlen_zeros, <- Z.add_assoc, <- zlen_app.
    rewrite print_body_spec by (done || lia || (rewrite !zlen_app, (zlen_zeros (size - zlen sl)), zlen_spaces; lia)).
    rewrite (spaces_neg (Z.min 0 _ - 1)) by lia. by rewrite app_nil_r, <- !app_assoc.
Qed.

Lemma has_type_clear type :
  has (clear_zero type) SIGN = has type SIGN /\ has (clear_zero type) PLUS = has type PLUS /\
  has (clear_zero type) SPACE = has type SPACE /\ has (clear_zero type) LEFT = has type LEFT.
Proof. by rewrite !has_clear. Qed.

Lemma print_number_spec t type num base s precision :
  - 2 ^ 63 <= num < 2 ^ 63 -> (has type SIGN = true -> - 2 ^ 63 < num) ->
  -1 <= s < 2 ^ 31 -> -1 <= precision <= 2 ^ 31 - 64 ->
  let text := number_text (has type LEFT) (has type PLUS) (has type SPACE) (has type ZEROPAD) (has type SIGN)
                (has type LARGE) base num s precision in
  zlen t + zlen text <= N ->
  print_number (buf + zlen t) end_ num base s precision type (OUT t) =
  Some (buf + zlen (t ++ text), OUT (t ++ text)).
Proof.
  intros Hnum Hmin Hs Hp. cbv zeta. unfold print_number. cbv zeta. fold (clear_zero type).
  destruct (has_type_clear type) as (H1 & H2 & H3 & H4).
  destruct (split_sign_spec (clear_zero type) num (OUT t) Hnum) as (sign & n & E & Hsign & Hst & Hn & Hmag);
    [by rewrite H1|].
  rewrite (bind_ok _ _ _ _ _ E). clear E. rewrite H1, H2, H3 in *.
  unfold number_text. rewrite Hst. fold (sign_chars sign).
  pose proof (digits_found (has type SIGN) (has type LARGE) base num n (OUT t) Hn Hmag) as E.
  fold (table (has type LARGE)). cbn beta iota. rewrite (bind_ok _ _ _ _ _ E). clear E Hst Hmag.
  pose proof (digits_text_bytes (has type SIGN) (has type LARGE) base num) as Hds.
  pose proof (digits_text_length (has type SIGN) (has type LARGE) base num) as Hi.
  generalize dependent (digits_text (has type SIGN) (has type LARGE) base num). intros ds Hds Hi HN.
  rewrite zlen_rev. replace (if precision <? zlen ds then zlen ds else precision)
    with (Z.max precision (zlen ds)) by (destruct (Z.ltb_spec precision (zlen ds)); lia).
  set (p := Z.max precision (zlen ds)) in *. set (sl := sign_chars sign) in *.
  assert (0 <= zlen sl <= 1) as Hsl by (unfold sl, sign_chars; by destruct (sign =? 0)).
  rewrite (bind_ok _ _ _ _ _ (as_int_ok (s - p) _ ltac:(lia))).
  rewrite has_either, has_clear_zero, H4.
  replace (zeros (precision - zlen ds)) with (zeros (p - zlen ds)) in *
    by (unfold p; destruct (Z.max_spec precision (zlen ds)) as [[? ->]|[? ->]]; [by rewrite !zeros_neg by lia|done]).
  match goal with |- _ = ?r => change (layout (has type LEFT) (has type ZEROPAD) ds p precision sign (s - p) t (OUT t) = r) end.
  apply layout_spec; [done|done|lia|exact HN].
Qed.
End print_number.
