(* ===== verification/PrintfSpec.v ===== *)
(** * Formatted output: the specification

    What a format string means: its pieces, the text of each, and what each
    piece prints; and that [rt_vsnprintf] of Printf.v reads the text of the
    pieces and writes what they print. *)
From Stdlib Require Import String Ascii.
From S2P Require Import Prelude Kservice Cmem Kmemory Kstring Printf PrintfNumber.
Open Scope Z_scope.

(** ** Format strings *)

Inductive flag := FLeft | FPlus | FSpace | FSpecial | FZero.
(** A number in the format string, or an argument. *)
Inductive amount := Lit (n : Z) | Star.
Inductive qualifier := QNone | Qh | Ql | QL | Qll.
Inductive conv := Cc | Cs | Cp | Cpercent | Co | CX | Cx | Cd | Ci | Cu | Cother (c : Z).

Record directive := Directive {
  d_flags : list flag;
  d_width : option amount;
  d_precision : option (option amount);  (* a point, and what follows it *)
  d_qualifier : qualifier;
  d_conv : conv
}.
Inductive piece := PChar (c : Z) | PDirective (d : directive).

#[export] Instance flag_eq_dec : EqDecision flag.
Proof. solve_decision. Defined.

(** ** Their text *)

Definition flag_char (f : flag) : Z :=
  match f with
  | FLeft => char "-" | FPlus => char "+" | FSpace => char " " | FSpecial => char "#" | FZero => char "0"
  end.
Definition decimal (n : Z) : list Z := map (fun d => char "0" + d) (digits 10 n).
Definition amount_text (a : amount) : list Z := match a with Lit n => decimal n | Star => [char "*"] end.
Definition width_text (w : option amount) : list Z := match w with None => [] | Some a => amount_text a end.
Definition precision_text (p : option (option amount)) : list Z :=
  match p with None => [] | Some w => char "." :: width_text w end.
Definition qualifier_text (q : qualifier) : list Z :=
  match q with QNone => [] | Qh => chars "h" | Ql => chars "l" | QL => chars "L" | Qll => chars "ll" end.
Definition conv_char (c : conv) : Z :=
  match c with
  | Cc => char "c" | Cs => char "s" | Cp => char "p" | Cpercent => char "%" | Co => char "o" | CX => char "X"
  | Cx => char "x" | Cd => char "d" | Ci => char "i" | Cu => char "u" | Cother c => c
  end.

Definition directive_text (d : directive) : list Z :=
  map flag_char (d_flags d) ++ width_text (d_width d) ++ precision_text (d_precision d) ++
  qualifier_text (d_qualifier d) ++ [conv_char (d_conv d)].
Definition piece_text (p : piece) : list Z :=
  match p with PChar c => [c] | PDirective d => char "%" :: directive_text d end.
Definition format_text (ps : list piece) : list Z := flat_map piece_text ps.

(** The numbers in a format string are so small that [int] arithmetic on them
    does not overflow, and a field width does not begin with the flag 0. *)
Definition AMOUNT_MAX : Z := 2 ^ 31 - 64.
(** The largest number that can be read: ten times what has been read plus the code of the next digit is an [int]. *)
Definition READ_MAX : Z := 2 ^ 31 - 49.
Lemma amount_read n : 0 <= n <= AMOUNT_MAX -> 0 <= n <= READ_MAX.
Proof. unfold AMOUNT_MAX, READ_MAX. lia. Qed.

(** The characters that have a meaning after a percent sign. *)
Definition specials : list Z := chars "-+ #0123456789.*hlLcsp%oXxdiu".

Definition valid_conv (c : conv) : bool :=
  match c with Cother c => (0 <? c) && (c <? 256) && forallb (fun s => negb (c =? s)) specials | _ => true end.
Definition valid_directive (d : directive) : bool :=
  match d_width d with Some (Lit n) => (0 <? n) && (n <=? AMOUNT_MAX) | _ => true end &&
  match d_precision d with Some (Some (Lit n)) => (0 <=? n) && (n <=? AMOUNT_MAX) | _ => true end &&
  valid_conv (d_conv d).
Definition valid_piece (p : piece) : bool :=
  match p with
  | PChar c => (0 <? c) && (c <? 256) && negb (c =? char "%")
  | PDirective d => valid_directive d
  end.

(** ** What is printed *)

Definition arg (args : list Z) : option (Z * list Z) :=
  match args with [] => None | x :: args => Some (x, args) end.

Section render.
(** The strings that pointers point to. *)
Context (strs : Z -> option (list Z)).

(** A field width of -1 is none; a negative argument sets the flag [FLeft]. *)
Definition render_width (w : option amount) (args : list Z) : option (Z * bool * list Z) :=
  match w with
  | None => Some (-1, false, args)
  | Some (Lit n) => Some (n, false, args)
  | Some Star =>
      '(x, args) ← arg args;
      if Z.abs (s32 x) <=? AMOUNT_MAX then Some (Z.abs (s32 x), s32 x <? 0, args) else None
  end.
Definition render_precision (p : option (option amount)) (args : list Z) : option (Z * list Z) :=
  match p with
  | None => Some (-1, args)
  | Some None => Some (0, args)
  | Some (Some (Lit n)) => Some (n, args)
  | Some (Some Star) =>
      '(x, args) ← arg args;
      if s32 x <=? AMOUNT_MAX then Some (Z.max 0 (s32 x), args) else None
  end.

(** The value of an integer conversion: 16 bits with h, 64 with ll or L, else
    32 bits, and this also with l. *)
Definition integer_value (q : qualifier) (signed : bool) (x : Z) : Z :=
  match q with
  | Qll | QL => s64 x
  | Qh => if signed then s16 x else u16 x
  | _ => if signed then s32 x else u32 x
  end.

(** [text] in a field. *)
Definition in_field (left : bool) (width : Z) (text : list Z) : list Z :=
  if left then text ++ spaces (width - zlen text) else spaces (width - zlen text) ++ text.

(** A string is cut to the field width, if there is one, and to the precision,
    if there is one that is not 0. *)
Definition string_text (width precision : Z) (s : list Z) : list Z :=
  let s := if 0 <=? width then ztake width s else s in
  if 0 <? precision then ztake precision s else s.

(** What a conversion prints with its flags, width and precision. *)
Definition render_conv (left plus space zero : bool) (c : conv) (q : qualifier) (width precision : Z)
  (args : list Z) : option (list Z * list Z) :=
  let integer signed large base :=
    '(x, args) ← arg args;
    let num := integer_value q signed x in
    if signed && (num =? - 2 ^ 63) then None
    else Some (number_text left plus space zero signed large base num width precision, args) in
  match c with
  | Cc => '(x, args) ← arg args; Some (in_field left width [u8 x], args)
  | Cs =>
      '(x, args) ← arg args;
      s ← (if u64 x =? 0 then Some (chars "(NULL)") else strs (u64 x));
      Some (in_field left width (string_text width precision s), args)
  | Cp =>
      '(x, args) ← arg args;
      let none := width =? -1 in
      Some (number_text left plus space (zero || none) false false 16 (s64 x)
              (if none then 16 else width) precision, args)
  | Cpercent => Some ([char "%"], args)
  | Co => integer false false 8
  | CX => integer false true 16
  | Cx => integer false false 16
  | Cd | Ci => integer true false 10
  | Cu => integer false false 10
  | Cother c => Some ([char "%"; c], args)
  end.

Definition render_directive (d : directive) (args : list Z) : option (list Z * list Z) :=
  let flag f := bool_decide (f ∈ d_flags d) in
  '(width, minus, args) ← render_width (d_width d) args;
  '(precision, args) ← render_precision (d_precision d) args;
  render_conv (flag FLeft || minus) (flag FPlus) (flag FSpace) (flag FZero) (d_conv d) (d_qualifier d)
    width precision args.

Definition render_piece (p : piece) (args : list Z) : option (list Z * list Z) :=
  match p with PChar c => Some ([c], args) | PDirective d => render_directive d args end.
Fixpoint render (ps : list piece) (args : list Z) : option (list Z) :=
  match ps with
  | [] => Some []
  | p :: ps => '(text, args) ← render_piece p args; rest ← render ps args; Some (text ++ rest)
  end.
End render.

(** ** Reading a format string *)

(** What a text begins with. *)
Definition begins (P : Z -> Prop) (l : list Z) : Prop := match l with [] => False | c :: _ => P c end.
Definition no_flag (c : Z) : Prop :=
  c <> char "-" /\ c <> char "+" /\ c <> char " " /\ c <> char "#" /\ c <> char "0".
Definition no_amount (c : Z) : Prop := _ISDIGIT c = false /\ c <> char "*".
Definition no_point (c : Z) : Prop := c <> char ".".
Definition no_qualifier (c : Z) : Prop := c <> char "h" /\ c <> char "l" /\ c <> char "L".

Lemma isdigit_spec c : 0 <= c < 256 -> _ISDIGIT c = (48 <=? c) && (c <=? 57).
Proof.
  intros Hc. unfold _ISDIGIT, u32. change (char "0") with 48. zcases; cbn [andb]; try lia; dlia.
Qed.

Lemma conv_plain c : valid_conv c = true ->
  let x := conv_char c in no_flag x /\ no_amount x /\ no_point x /\ no_qualifier x /\ 0 < x < 256.
Proof.
  intros H. cbv zeta. destruct c; try (by repeat split).
  cbn in H. rewrite !andb_true_iff, !negb_true_iff, !Z.eqb_neq in H. cbn [conv_char].
  unfold no_flag, no_amount, no_point, no_qualifier. rewrite isdigit_spec by lia. repeat split; try tauto; try lia.
Qed.

Lemma begins_weaken (P Q : Z -> Prop) l : (forall x, P x -> Q x) -> begins P l -> begins Q l.
Proof. intros H. destruct l; [done|apply H]. Qed.

Lemma begins_qualifier q c : valid_conv c = true ->
  begins (fun x => no_flag x /\ no_amount x /\ no_point x) (qualifier_text q ++ [conv_char c]).
Proof. intros H. destruct (conv_plain c H) as (? & ? & ? & _). destruct q; [done|by repeat split..]. Qed.

Lemma begins_precision p q c : valid_conv c = true ->
  begins (fun x => no_flag x /\ no_amount x) (precision_text p ++ qualifier_text q ++ [conv_char c]).
Proof.
  intros H. pose proof (begins_qualifier q c H) as Hq. destruct p; [by repeat split|].
  revert Hq. apply begins_weaken. tauto.
Qed.

Lemma digits_head n : 0 < n -> n < 2 ^ 64 -> exists d l, digits 10 n = d :: l /\ 0 < d < 10.
Proof.
  intros H0 H64.
  assert (forall k n, 0 < n < 10 ^ Z.of_nat k -> exists d l, rev (low_digits k 10 n) = d :: l /\ 0 < d < 10) as H.
  { clear. induction k as [|k IH]; intros n Hn; [change (10 ^ Z.of_nat 0) with 1 in Hn; lia|].
    cbn [low_digits]. rewrite (proj2 (Z.eqb_neq n 0)) by lia. cbn [rev].
    rewrite Nat2Z.inj_succ, Z.pow_succ_r in Hn by lia. destruct (decide (n < 10)) as [Hlt|Hge].
    - exists n, []. rewrite Z.div_small, Z.mod_small by lia. split; [by destruct k|lia].
    - destruct (IH (n / 10)) as (d & l & -> & Hd); [|by exists d, (l ++ [n mod 10])].
      split; [apply Z.div_str_pos; lia|apply Z.div_lt_upper_bound; lia]. }
  unfold digits. rewrite (proj2 (Z.eqb_neq n 0)) by lia. apply H. split; [done|].
  apply Z.lt_le_trans with (2 ^ 64); [done|]. apply (pow20 10). lia.
Qed.

Lemma begins_width w p q c : valid_conv c = true ->
  match w with Some (Lit n) => 0 < n <= AMOUNT_MAX | _ => True end ->
  begins no_flag (width_text w ++ precision_text p ++ qualifier_text q ++ [conv_char c]).
Proof.
  intros H Hn. pose proof (begins_precision p q c H) as Hp. destruct w as [[n|]|]; [|by repeat split|].
  - unfold AMOUNT_MAX in Hn. destruct (digits_head n) as (d & l & E & Hd); [lia|lia|].
    cbn [width_text amount_text]. unfold decimal. rewrite E. cbn [map app begins]. unfold no_flag.
    change (char "0") with 48. change (char "-") with 45. change (char "+") with 43. change (char " ") with 32.
    change (char "#") with 35. lia.
  - revert Hp. apply begins_weaken. tauto.
Qed.

(** *** The parts *)

Lemma bytes_at_fuel m a l : bytes_at m a l -> (length l <= size m)%nat.
Proof. intros H. apply bytes_at_mapped, mapped_size in H. unfold zlen in H. lia. Qed.

Lemma fold_number_mono l : forall i, Forall (fun d => 0 <= d < 10) l -> 0 <= i ->
  i <= fold_left (fun i d => i * 10 + d) l i.
Proof.
  induction l as [|d l IH]; intros i Hl Hi; cbn [fold_left]; [lia|].
  apply Forall_cons in Hl as [Hd Hl]. specialize (IH (i * 10 + d) Hl ltac:(lia)). lia.
Qed.

Lemma va_arg_ok m read x args : va_arg read (x :: args) m = Some ((read x, args), m).
Proof. done. Qed.

Section reading.
Context (m : cmem).

Lemma skip_atoi_loop l : forall i s fuel c rest,
  Forall (fun d => 0 <= d < 10) l -> 0 <= i -> _ISDIGIT c = false ->
  bytes_at m s (map (fun d => char "0" + d) l ++ c :: rest) ->
  fold_left (fun i d => i * 10 + d) l i <= READ_MAX -> (length l < fuel)%nat ->
  loop fuel skip_atoi_round (i, s) m = Some ((fold_left (fun i d => i * 10 + d) l i, s + zlen l), m).
Proof.
  unfold READ_MAX. change (char "0") with 48.
  induction l as [|d l IH]; intros i s [|fuel] c rest Hl Hi Hc Hb Hmax Hf; cbn [length] in Hf; try lia.
  - cbn [map app] in Hb. apply bytes_at_cons in Hb as [E _].
    rewrite (loop_step _ _ _ m (inr (i, s)) m); [cbn [fold_left]; change (zlen []) with 0; by rewrite Z.add_0_r|].
    unfold skip_atoi_round. by rewrite (load_bind _ _ _ _ E), Hc.
  - apply Forall_cons in Hl as [Hd Hl]. cbn beta in Hd. cbn [map app] in Hb. apply bytes_at_cons in Hb as [E Hb].
    cbn [fold_left] in *. pose proof (fold_number_mono l (i * 10 + d) Hl ltac:(lia)).
    rewrite (loop_step _ _ _ m (inl (i * 10 + d, s + 1)) m).
    + rewrite (IH (i * 10 + d) (s + 1) fuel c rest Hl ltac:(lia) Hc Hb Hmax ltac:(lia)), zlen_cons. results.
    + unfold skip_atoi_round. rewrite (load_bind _ _ _ _ E), isdigit_spec by lia.
      rewrite (proj2 (Z.leb_le _ _)), (proj2 (Z.leb_le _ _)) by lia. cbn [andb].
      rewrite (bind_ok _ _ _ _ _ (as_int_ok (i * 10 + (48 + d)) m ltac:(lia))). change (char "0") with 48.
      rewrite (bind_ok _ _ _ _ _ (as_int_ok (i * 10 + (48 + d) - 48) m ltac:(lia))).
      apply mret_ok. f_equal. pairs.
Qed.

(** A larger one overflows. *)
Lemma skip_atoi_loop_overflow l : forall i s fuel rest,
  Forall (fun d => 0 <= d < 10) l -> 0 <= i <= READ_MAX -> bytes_at m s (map (fun d => char "0" + d) l ++ rest) ->
  READ_MAX < fold_left (fun i d => i * 10 + d) l i -> loop fuel skip_atoi_round (i, s) m = None.
Proof.
  unfold READ_MAX. change (char "0") with 48.
  induction l as [|d l IH]; intros i s [|fuel] rest Hl Hi Hb Hmax; try done; [cbn in Hmax; lia|].
  apply Forall_cons in Hl as [Hd Hl]. cbn beta in Hd. cbn [map app] in Hb. apply bytes_at_cons in Hb as [E Hb].
  cbn [fold_left] in Hmax. destruct (Z.leb_spec (i * 10 + (48 + d)) (2 ^ 31 - 1)) as [Hle|Hgt].
  - rewrite (loop_step _ _ _ m (inl (i * 10 + d, s + 1)) m).
    + apply (IH (i * 10 + d) (s + 1) fuel rest Hl ltac:(lia) Hb Hmax).
    + unfold skip_atoi_round. rewrite (load_bind _ _ _ _ E), isdigit_spec by lia.
      rewrite (proj2 (Z.leb_le _ _)), (proj2 (Z.leb_le _ _)) by lia. cbn [andb].
      rewrite (bind_ok _ _ _ _ _ (as_int_ok (i * 10 + (48 + d)) m ltac:(lia))). change (char "0") with 48.
      rewrite (bind_ok _ _ _ _ _ (as_int_ok (i * 10 + (48 + d) - 48) m ltac:(lia))).
      apply mret_ok. f_equal. pairs.
  - assert (skip_atoi_round (i, s) m = None) as En; [|cbn [loop]; by rewrite bind_unfold, En].
    unfold skip_atoi_round. rewrite (load_bind _ _ _ _ E), isdigit_spec by lia.
    rewrite (proj2 (Z.leb_le _ _)), (proj2 (Z.leb_le _ _)) by lia. cbn [andb].
    assert (as_int (i * 10 + (48 + d)) m = None) as Ei; [|by rewrite bind_unfold, Ei].
    unfold as_int. by rewrite (proj2 (Z.ltb_ge _ _)), andb_false_r by lia.
Qed.

Lemma skip_atoi_overflow s n rest :
  READ_MAX < n < 2 ^ 64 -> bytes_at m s (decimal n ++ rest) -> skip_atoi s m = None.
Proof.
  intros Hn Hb. unfold skip_atoi, cmem_fuel. rewrite bind_gets. unfold READ_MAX in Hn.
  apply (skip_atoi_loop_overflow (digits 10 n) 0 s _ rest); [|unfold READ_MAX; lia|exact Hb|].
  - apply digits_range. lia.
  - fold (number 10 (digits 10 n)). rewrite (digits_number 10 n) by lia. unfold READ_MAX. lia.
Qed.

Lemma skip_atoi_spec s n c rest :
  0 <= n <= READ_MAX -> _ISDIGIT c = false -> bytes_at m s (decimal n ++ c :: rest) ->
  skip_atoi s m = Some ((n, s + zlen (decimal n)), m).
Proof.
  intros Hn Hc Hb. unfold READ_MAX in Hn. unfold skip_atoi, cmem_fuel. rewrite bind_gets.
  pose proof (bytes_at_fuel _ _ _ Hb) as Hf. unfold decimal in Hf. rewrite length_app, length_map in Hf.
  pose proof (digits_number 10 n ltac:(lia) ltac:(lia)) as En.
  rewrite (skip_atoi_loop (digits 10 n) 0 s _ c rest); try done; try lia.
  - fold (number 10 (digits 10 n)). rewrite En. unfold decimal, zlen. by rewrite length_map.
  - apply digits_range. lia.
  - fold (number 10 (digits 10 n)). rewrite En. unfold READ_MAX. lia.
Qed.

Definition flag_bit (f : flag) : Z :=
  match f with FLeft => LEFT | FPlus => PLUS | FSpace => SPACE | FSpecial => SPECIAL | FZero => ZEROPAD end.
Definition flag_bits (fs : list flag) (flags : Z) : Z := fold_left (fun x f => Z.lor x (flag_bit f)) fs flags.

Lemma flags_spec fs : forall fmt flags fuel rest,
  bytes_at m (fmt + 1) (map flag_char fs ++ rest) -> begins no_flag rest -> (length fs < fuel)%nat ->
  loop fuel flags_round (fmt, flags) m = Some ((fmt + 1 + zlen fs, flag_bits fs flags), m).
Proof.
  induction fs as [|f fs IH]; intros fmt flags [|fuel] rest Hb Hr Hf; cbn [length] in Hf; try lia.
  - cbn [map app] in Hb. destruct rest as [|c rest]; [done|]. apply bytes_at_cons in Hb as [E _].
    destruct Hr as (H1 & H2 & H3 & H4 & H5).
    rewrite (loop_step _ _ _ m (inr (fmt + 1, flags)) m).
    + change (zlen []) with 0. by rewrite Z.add_0_r.
    + unfold flags_round. rewrite (load_bind _ _ _ _ E). by rewrite !(proj2 (Z.eqb_neq _ _)) by done.
  - cbn [map app] in Hb. apply bytes_at_cons in Hb as [E Hb].
    rewrite (loop_step _ _ _ m (inl (fmt + 1, Z.lor flags (flag_bit f))) m).
    + rewrite (IH (fmt + 1) (Z.lor flags (flag_bit f)) fuel rest Hb Hr ltac:(lia)), zlen_cons. results.
    + unfold flags_round. rewrite (load_bind _ _ _ _ E). by destruct f.
Qed.

Lemma read_width_spec w fmt flags args rest width minus args' :
  match w with Some (Lit n) => 0 < n <= AMOUNT_MAX | _ => True end ->
  bytes_at m fmt (width_text w ++ rest) -> begins no_amount rest ->
  render_width w args = Some (width, minus, args') ->
  read_width fmt flags args m =
  Some ((width, fmt + zlen (width_text w), if minus then Z.lor flags LEFT else flags, args'), m).
Proof.
  intros Hw Hb Hr Hren. unfold read_width. destruct rest as [|c rest]; [done|]. destruct Hr as [Hd Hs].
  destruct w as [[n|]|]; cbn [width_text amount_text] in *.
  - injection Hren as <- <- <-. pose proof Hb as Hb1.
    destruct (digits_head n) as (d & l & E & Hd1); [lia|unfold AMOUNT_MAX in Hw; lia|].
    unfold decimal in Hb1. rewrite E in Hb1. cbn [map app] in Hb1. apply bytes_at_cons in Hb1 as [Ec _].
    change (char "0") with 48 in Ec. rewrite (load_bind _ _ _ _ Ec), isdigit_spec by lia.
    rewrite (proj2 (Z.leb_le _ _)), (proj2 (Z.leb_le _ _)) by lia. cbn [andb].
    by rewrite (bind_ok _ _ _ _ _ (skip_atoi_spec fmt n c rest (amount_read n ltac:(lia)) Hd Hb)).
  - cbn [app] in Hb. apply bytes_at_cons in Hb as [Ec _]. rewrite (load_bind _ _ _ _ Ec).
    destruct args as [|x args]; [done|]. cbn in Hren.
    destruct (Z.leb_spec (Z.abs (s32 x)) AMOUNT_MAX) as [Hx|]; [|done]. injection Hren as <- <- <-.
    unfold AMOUNT_MAX in Hx. change (zlen [char "*"]) with 1.
    change (_ISDIGIT (char "*")) with false. rewrite Z.eqb_refl, (bind_ok _ _ _ _ _ (va_arg_ok m s32 x args)).
    destruct (Z.ltb_spec (s32 x) 0).
    + rewrite (bind_ok _ _ _ _ _ (as_int_ok (- s32 x) m ltac:(lia))). apply mret_ok. by rewrite Z.abs_neq by lia.
    + apply mret_ok. by rewrite Z.abs_eq by lia.
  - cbn [app] in Hb. apply bytes_at_cons in Hb as [Ec _]. rewrite (load_bind _ _ _ _ Ec), Hd.
    rewrite (proj2 (Z.eqb_neq _ _)) by done. injection Hren as <- <- <-. change (zlen []) with 0. by rewrite Z.add_0_r.
Qed.

Lemma read_precision_spec p fmt args rest precision args' :
  match p with Some (Some (Lit n)) => 0 <= n <= AMOUNT_MAX | _ => True end ->
  bytes_at m fmt (precision_text p ++ rest) -> begins (fun x => no_amount x /\ no_point x) rest ->
  render_precision p args = Some (precision, args') ->
  read_precision fmt args m = Some ((precision, fmt + zlen (precision_text p), args'), m).
Proof.
  intros Hp Hb Hr Hren. destruct rest as [|c rest]; [done|]. destruct Hr as [[Hd Hs] Hpt].
  unfold read_precision. destruct p as [p|]; cbn [precision_text] in *.
  2: { cbn [app] in Hb. apply bytes_at_cons in Hb as [Ec _]. rewrite (load_bind _ _ _ _ Ec).
       rewrite (proj2 (Z.eqb_neq _ _)) by done. injection Hren as <- <-. change (zlen []) with 0. by rewrite Z.add_0_r. }
  cbn [app] in Hb. apply bytes_at_cons in Hb as [Ec Hb]. rewrite (load_bind _ _ _ _ Ec), Z.eqb_refl, zlen_cons.
  destruct p as [[n|]|]; cbn [width_text amount_text] in *.
  - injection Hren as <- <-. pose proof Hb as Hb1. pose proof (digits_length 10 n) as Hlen.
    pose proof (digits_range 10 n ltac:(lia)) as Hrange.
    destruct (digits 10 n) as [|d l] eqn:E; [unfold zlen in Hlen; cbn in Hlen; lia|].
    unfold decimal in Hb1. rewrite E in Hb1. cbn [map app] in Hb1. apply bytes_at_cons in Hb1 as [Ed _].
    apply Forall_cons in Hrange as [Hd1 _]. change (char "0") with 48 in Ed.
    rewrite (load_bind _ _ _ _ Ed), isdigit_spec by (cbn in Hd1; lia). cbn beta in Hd1.
    rewrite (proj2 (Z.leb_le _ _)), (proj2 (Z.leb_le _ _)) by lia. cbn [andb].
    rewrite (bind_ok _ _ m (n, fmt + 1 + zlen (decimal n), args) m)
      by (by rewrite (bind_ok _ _ _ _ _ (skip_atoi_spec (fmt + 1) n c rest (amount_read n Hp) Hd Hb))).
    apply mret_ok. rewrite (proj2 (Z.ltb_ge n 0)) by lia. pairs.
  - cbn [app] in Hb. apply bytes_at_cons in Hb as [Ed _]. rewrite (load_bind _ _ _ _ Ed).
    destruct args as [|x args]; [done|]. cbn in Hren.
    destruct (Z.leb_spec (s32 x) AMOUNT_MAX) as [Hx|]; [|done]. injection Hren as <- <-.
    change (_ISDIGIT (char "*")) with false. rewrite Z.eqb_refl.
    rewrite (bind_ok _ _ m (s32 x, fmt + 1 + 1, args) m) by (by rewrite (bind_ok _ _ _ _ _ (va_arg_ok m s32 x args))).
    apply mret_ok. change (zlen [char "*"]) with 1.
    destruct (Z.ltb_spec (s32 x) 0); [rewrite Z.max_l by lia|rewrite Z.max_r by lia]; pairs.
  - cbn [app] in Hb. apply bytes_at_cons in Hb as [Ed _]. rewrite (load_bind _ _ _ _ Ed), Hd.
    rewrite (proj2 (Z.eqb_neq _ _)) by done. injection Hren as <- <-. change (zlen []) with 0.
    rewrite (bind_ok _ _ m (-1, fmt + 1, args) m) by done. apply mret_ok. pairs.
Qed.

Definition qualifier_code (q : qualifier) : Z :=
  match q with QNone => 0 | Qh => char "h" | Ql => char "l" | QL | Qll => char "L" end.

Lemma read_qualifier_spec q fmt rest :
  bytes_at m fmt (qualifier_text q ++ rest) -> begins no_qualifier rest ->
  read_qualifier fmt m = Some ((qualifier_code q, fmt + zlen (qualifier_text q)), m).
Proof.
  intros Hb Hr. unfold read_qualifier. destruct rest as [|c rest]; [done|]. destruct Hr as (Hh & Hl & HL).
  destruct q; cbn in Hb.
  - apply bytes_at_cons in Hb as [E _]. rewrite (load_bind _ _ _ _ E).
    rewrite !(proj2 (Z.eqb_neq _ _)) by done. cbn. by rewrite Z.add_0_r.
  - apply bytes_at_cons in Hb as [E Hb]. apply bytes_at_cons in Hb as [E1 _].
    rewrite (load_bind _ _ _ _ E). cbn [orb]. change (_ || _) with true. cbn iota.
    by rewrite (load_bind _ _ _ _ E1).
  - apply bytes_at_cons in Hb as [E Hb]. apply bytes_at_cons in Hb as [E1 _].
    rewrite (load_bind _ _ _ _ E). change (_ || _) with true. cbn iota. rewrite (load_bind _ _ _ _ E1).
    rewrite (proj2 (Z.eqb_neq c _)), andb_false_r by done. done.
  - apply bytes_at_cons in Hb as [E Hb]. apply bytes_at_cons in Hb as [E1 _].
    rewrite (load_bind _ _ _ _ E). change (_ || _) with true. cbn iota. by rewrite (load_bind _ _ _ _ E1).
  - apply bytes_at_cons in Hb as [E Hb]. apply bytes_at_cons in Hb as [E1 _].
    rewrite (load_bind _ _ _ _ E). change (_ || _) with true. cbn iota. rewrite (load_bind _ _ _ _ E1).
    change (_ && _) with true. cbn iota. apply mret_ok. change (zlen (qualifier_text Qll)) with 2. pairs.
Qed.
End reading.

(** ** Printing characters and strings *)

Section printing.
Context (buf lim N : Z) (m0 : cmem).
Context (Hmap : mapped m0 buf (Z.min lim (N + 1))).

Abbreviation end_ := (buf + lim).
Abbreviation OUT := (out buf lim m0).

Lemma spaces_cons n : 0 < n -> spaces n = char " " :: spaces (n - 1).
Proof.
  intros. unfold spaces. by replace (Z.to_nat n) with (S (Z.to_nat (n - 1))) by lia.
Qed.

Lemma emit_text t c :
  0 <= c < 256 -> zlen t + 1 <= N ->
  emit end_ (buf + zlen t) c (OUT t) = Some (buf + zlen (t ++ [c]), OUT (t ++ [c])).
Proof. intros. rewrite (emit_spec buf lim N m0 Hmap) by done. by rewrite zlen_snoc, Z.add_assoc. Qed.

(** A loop that writes [n] spaces and counts the field width down. *)
Section blanks.
Context (round : Z * Z -> St cmem (Z * Z + Z * Z)) (last : Z -> Z).

Lemma blanks_loop (count : Z -> Z) :
  (forall str w m, count w <= 0 -> round (str, w) m = Some (inr (str, last w), m)) ->
  (forall t w, 0 < count w -> zlen t + 1 <= N ->
     round (buf + zlen t, w) (OUT t) =
     Some (inl (buf + zlen (t ++ [char " "]), w - 1), OUT (t ++ [char " "])) /\
     count (w - 1) = count w - 1 /\ last (w - 1) = last w) ->
  forall n fuel t w, Z.to_nat (count w) = n -> (n < fuel)%nat -> zlen t + Z.max 0 (count w) <= N ->
  loop fuel round (buf + zlen t, w) (OUT t) =
  Some ((buf + zlen (t ++ spaces (count w)), last w), OUT (t ++ spaces (count w))).
Proof.
  intros Hend Hnext n. induction n as [|n IH]; intros [|fuel] t w En Hf HN; try lia.
  - rewrite (loop_step _ _ _ _ _ _ (Hend _ w _ ltac:(lia))), spaces_neg by lia. by rewrite app_nil_r.
  - destruct (Hnext t w) as (E & Hc & Hl); [lia|lia|]. rewrite (loop_step _ _ _ _ _ _ E).
    rewrite IH by (rewrite ?zlen_snoc; lia). rewrite Hc, Hl, (spaces_cons (count w)) by lia.
    by rewrite <- app_assoc.
Qed.
End blanks.

Lemma field_loop t w :
  zlen t + Z.max 0 (w - 1) <= N ->
  loop (S (Z.to_nat w)) (field_round end_) (buf + zlen t, w) (OUT t) =
  Some ((buf + zlen (t ++ spaces (w - 1)), Z.min 0 (w - 1)), OUT (t ++ spaces (w - 1))).
Proof.
  intros HN. refine (blanks_loop _ (fun w => Z.min 0 (w - 1)) (fun w => w - 1) _ _ (Z.to_nat (w - 1)) _ t w eq_refl _ HN); [| |lia].
  - intros str v m Hv. unfold field_round. rewrite (proj2 (Z.ltb_ge 0 (v - 1))) by lia. apply mret_ok. do 2 f_equal. lia.
  - intros u v Hv Hu. unfold field_round. rewrite (proj2 (Z.ltb_lt 0 (v - 1))) by lia.
    rewrite (bind_ok _ _ _ _ _ (emit_text u (char " ") ltac:(done) Hu)). split; [done|]. lia.
Qed.

Lemma string_pad_loop len t w :
  0 <= len -> zlen t + Z.max 0 (w - len) <= N ->
  forall fuel, (Z.to_nat w < fuel)%nat ->
  loop fuel (string_pad_round end_ len) (buf + zlen t, w) (OUT t) =
  Some ((buf + zlen (t ++ spaces (w - len)), Z.min w len - 1), OUT (t ++ spaces (w - len))).
Proof.
  intros Hlen HN fuel Hf.
  refine (blanks_loop _ (fun w => Z.min w len - 1) (fun w => w - len) _ _ (Z.to_nat (w - len)) _ t w eq_refl _ HN); [| |lia].
  - intros str v m Hv. unfold string_pad_round. rewrite (proj2 (Z.ltb_ge len v)) by lia. apply mret_ok. do 2 f_equal. lia.
  - intros u v Hv Hu. unfold string_pad_round. rewrite (proj2 (Z.ltb_lt len v)) by lia.
    rewrite (bind_ok _ _ _ _ _ (emit_text u (char " ") ltac:(done) Hu)). split; [done|]. lia.
Qed.

Lemma print_char_spec t w flags c :
  let text := in_field (has flags LEFT) w [u8 c] in
  -1 <= w -> zlen t + zlen text <= N ->
  print_char end_ (buf + zlen t) w flags c (OUT t) = Some (buf + zlen (t ++ text), OUT (t ++ text)).
Proof.
  cbv zeta. intros Hw HN. unfold print_char, in_field in *. change (zlen [u8 c]) with 1 in *.
  assert (0 <= u8 c < 256) as Hc by (apply Z.mod_pos_bound; lia).
  destruct (has flags LEFT); cbn [negb]; rewrite zlen_app, zlen_spaces in HN; change (zlen [u8 c]) with 1 in HN.
  - rewrite bind_unfold. cbn beta iota delta [mret St_ret].
    rewrite (bind_ok _ _ _ _ _ (emit_text t (u8 c) Hc ltac:(lia))).
    rewrite (bind_ok _ _ _ _ _ (field_loop (t ++ [u8 c]) w ltac:(rewrite zlen_snoc; lia))).
    by rewrite <- app_assoc.
  - rewrite (bind_ok _ _ _ _ _ (field_loop t w ltac:(lia))).
    rewrite (bind_ok _ _ _ _ _ (emit_text (t ++ spaces (w - 1)) (u8 c) Hc ltac:(rewrite zlen_app, zlen_spaces; lia))).
    rewrite bind_unfold, (loop_step _ _ _ _ (inr (buf + zlen ((t ++ spaces (w - 1)) ++ [u8 c]), Z.min 0 (w - 1) - 1))
      (OUT ((t ++ spaces (w - 1)) ++ [u8 c]))); [by rewrite <- app_assoc|].
    unfold field_round. by rewrite (proj2 (Z.ltb_ge 0 _)) by lia.
Qed.

(** The characters of [str] are read at [s] while the text is written. *)
Definition source (s : Z) (str : list Z) : Prop :=
  is_string str /\
  if s =? 0 then str = chars "(NULL)" else forall t, zlen t <= N -> cstring (OUT t) s str.

Lemma source_char s str i t :
  source s str -> 0 <= i <= zlen str -> zlen t <= N -> string_char s i (OUT t) = Some (zget str i, OUT t).
Proof.
  unfold source, string_char. intros [_ Hs] Hi Ht. destruct (s =? 0); [by subst|].
  by apply (cstring_load _ _ str); [apply Hs|].
Qed.

Lemma source_byte s str i : source s str -> 0 <= i < zlen str -> 0 < zget str i < 256.
Proof.
  intros [Hs _] Hi. unfold zlen in Hi. destruct (lookup_lt_is_Some_2 str (Z.to_nat i)) as [v E]; [lia|].
  unfold zget. rewrite nth_lookup, E. apply (Forall_lookup_1 _ _ _ _ Hs E).
Qed.

(** How many characters the search for the end finds. *)
Definition scanned (w : Z) (str : list Z) : Z := if 0 <=? w then Z.min w (zlen str) else zlen str.

Lemma scanned_range w str : 0 <= scanned w str <= zlen str.
Proof. unfold scanned. pose proof (zlen_nonneg str). destruct (Z.leb_spec 0 w); lia. Qed.

Lemma len_loop s str t w n : forall fuel len,
  source s str -> zlen str < 2 ^ 31 -> zlen t <= N -> -1 <= w ->
  0 <= len <= scanned w str -> Z.to_nat (scanned w str - len) = n -> (n < fuel)%nat ->
  loop fuel (len_round s w) len (OUT t) = Some (scanned w str, OUT t).
Proof.
  induction n as [|n IH]; intros [|fuel] len Hs H31 Ht Hw Hl En Hf; try lia.
  - assert (len = scanned w str) as -> by lia. pose proof (scanned_range w str).
    rewrite (loop_step _ _ _ _ (inr (scanned w str)) (OUT t)); [done|]. unfold len_round.
    destruct (Z.eqb_spec (scanned w str) w) as [|Hne]; [done|].
    assert (scanned w str = zlen str) as -> by (unfold scanned in *; destruct (Z.leb_spec 0 w); lia).
    rewrite (bind_ok _ _ _ _ _ (source_char s str (zlen str) t Hs ltac:(lia) Ht)). by rewrite zget_end.
  - pose proof (scanned_range w str).
    rewrite (loop_step _ _ _ _ (inl (len + 1)) (OUT t)); [apply IH; try done; lia|]. unfold len_round.
    rewrite (proj2 (Z.eqb_neq len w)) by (unfold scanned in *; destruct (Z.leb_spec 0 w); lia).
    rewrite (bind_ok _ _ _ _ _ (source_char s str len t Hs ltac:(lia) Ht)).
    rewrite (proj2 (Z.eqb_neq _ 0)) by (pose proof (source_byte s str len Hs); lia).
    by rewrite (bind_ok _ _ _ _ _ (as_int_ok (len + 1) _ ltac:(lia))).
Qed.

Lemma copy_loop s str len : source s str -> len <= zlen str -> forall n fuel t i,
  Z.to_nat (len - i) = n -> (n < fuel)%nat -> 0 <= i <= len -> zlen t + (len - i) <= N ->
  loop fuel (string_round end_ s len) (buf + zlen t, i) (OUT t) =
  Some (buf + zlen (t ++ ztake (len - i) (zdrop i str)), OUT (t ++ ztake (len - i) (zdrop i str))).
Proof.
  intros Hs Hlen n. induction n as [|n IH]; intros [|fuel] t i En Hf Hi HN; try lia.
  - assert (i = len) as -> by lia. rewrite Z.sub_diag. change (ztake 0 (zdrop len str)) with (@nil Z).
    rewrite app_nil_r. rewrite (loop_step _ _ _ _ (inr (buf + zlen t)) (OUT t)); [done|].
    unfold string_round. by rewrite Z.ltb_irrefl.
  - pose proof (source_byte s str i Hs ltac:(lia)) as Hc.
    rewrite (loop_step _ _ _ _ (inl (buf + zlen (t ++ [zget str i]), i + 1)) (OUT (t ++ [zget str i]))).
    + rewrite IH by (rewrite ?zlen_snoc; lia). rewrite (zdrop_cons str i) by lia.
      replace (len - i) with (1 + (len - (i + 1))) by lia. rewrite (ztake_add 1) by lia.
      change (ztake 1 (zget str i :: zdrop (i + 1) str)) with [zget str i].
      change (zdrop 1 (zget str i :: zdrop (i + 1) str)) with (zdrop (i + 1) str).
      by rewrite <- app_assoc.
    + unfold string_round. rewrite (proj2 (Z.ltb_lt i len)) by lia.
      pose proof (emit_text t (zget str i) ltac:(lia) ltac:(lia)) as E. unfold emit in E.
      destruct (buf + zlen t <? end_).
      * cbn [when] in E.
        assert ((c ← string_char s i; store (buf + zlen t) c;; mret (buf + zlen t + 1)) (OUT t) =
          Some (buf + zlen (t ++ [zget str i]), OUT (t ++ [zget str i]))) as E'
          by (by rewrite (bind_ok _ _ _ _ _ (source_char s str i t Hs ltac:(lia) ltac:(lia)))).
        by rewrite (bind_ok _ _ _ _ _ E').
      * by rewrite (bind_ok _ _ _ _ _ E).
Qed.

Lemma source_fuel s str t : source s str -> zlen t <= N -> (length str < S (S (size (OUT t))) + 8)%nat.
Proof.
  intros [_ Hs] Ht. destruct (s =? 0); [subst; cbn; lia|].
  pose proof (cstring_fuel _ _ _ (Hs t Ht)). unfold zlen in *. lia.
Qed.

Lemma print_string_spec t w precision flags s str :
  let text := in_field (has flags LEFT) w (string_text w precision str) in
  source s str -> zlen str < 2 ^ 31 -> -1 <= w -> zlen t + zlen text <= N ->
  print_string end_ (buf + zlen t) w precision flags s (OUT t) = Some (buf + zlen (t ++ text), OUT (t ++ text)).
Proof.
  cbv zeta. intros Hs H31 Hw HN. pose proof (scanned_range w str) as Hsc. pose proof (zlen_nonneg t).
  set (len := if (0 <? precision) && (precision <? scanned w str) then precision else scanned w str).
  assert (0 <= len <= zlen str) as Hlen
    by (unfold len; destruct (Z.ltb_spec 0 precision), (Z.ltb_spec precision (scanned w str)); cbn [andb]; lia).
  assert (string_text w precision str = ztake len str) as Htext.
  { unfold string_text, len, scanned. destruct (Z.leb_spec 0 w), (Z.ltb_spec 0 precision); cbn [andb].
    all: rewrite ?ztake_ztake.
    all: repeat match goal with |- context [?a <? ?b] => destruct (Z.ltb_spec a b) end.
    all: unfold ztake, zlen in *; try (f_equal; lia); try (rewrite !take_ge by lia; done).
    all: destruct (decide (w <= Z.of_nat (length str))); try (f_equal; lia); rewrite !take_ge by lia; done. }
  rewrite Htext in *. pose proof (zlen_ztake len str Hlen) as Hzl.
  assert (zlen t <= N /\ zlen t + len <= N /\ zlen t + len + Z.max 0 (w - len) <= N) as (HN0 & HN1 & HN2).
  { unfold in_field in HN. destruct (has flags LEFT); rewrite zlen_app, zlen_spaces in HN; lia. }
  unfold print_string, cmem_fuel. rewrite bind_gets.
  pose proof (source_fuel s str t Hs HN0) as Hfuel.
  rewrite (bind_ok _ _ _ _ _ (len_loop s str t w (Z.to_nat (scanned w str - 0)) (S (S (size (OUT t))) + 8)%nat 0 Hs H31 HN0 Hw ltac:(lia) eq_refl
    ltac:(unfold zlen in *; lia))).
  cbv zeta. fold len. unfold in_field in *. rewrite Hzl in *.
  destruct (has flags LEFT); cbn [negb].
  - rewrite bind_unfold. cbn beta iota delta [mret St_ret].
    pose proof (copy_loop s str len Hs ltac:(lia) (Z.to_nat (len - 0)) (S (Z.to_nat len)) t 0 eq_refl ltac:(lia) ltac:(lia) ltac:(lia)) as E.
    change (zdrop 0 str) with str in E. rewrite Z.sub_0_r in E. rewrite (bind_ok _ _ _ _ _ E).
    rewrite (bind_ok _ _ _ _ _ (string_pad_loop len (t ++ ztake len str) w ltac:(lia) ltac:(rewrite zlen_app; lia)
      (S (Z.to_nat w)) ltac:(lia))). by rewrite <- app_assoc.
  - rewrite (bind_ok _ _ _ _ _ (string_pad_loop len t w ltac:(lia) ltac:(lia) (S (Z.to_nat w)) ltac:(lia))).
    pose proof (copy_loop s str len Hs ltac:(lia) (Z.to_nat (len - 0)) (S (Z.to_nat len)) (t ++ spaces (w - len)) 0 eq_refl
      ltac:(lia) ltac:(lia) ltac:(rewrite zlen_app, zlen_spaces; lia)) as E.
    change (zdrop 0 str) with str in E. rewrite Z.sub_0_r in E. rewrite (bind_ok _ _ _ _ _ E).
    rewrite (bind_ok _ _ _ _ _ (string_pad_loop len ((t ++ spaces (w - len)) ++ ztake len str) (Z.min w len - 1) ltac:(lia)
      ltac:(rewrite !zlen_app, zlen_spaces; lia) (S (Z.to_nat w)) ltac:(lia))).
    rewrite (spaces_neg (Z.min w len - 1 - len)) by lia. by rewrite app_nil_r, <- app_assoc.
Qed.

(** ** Conversions *)

(** Comparisons of characters that are known. *)
Ltac decide_chars :=
  repeat match goal with
  | |- context [?a =? ?b] =>
      let r := eval vm_compute in (a =? b) in
      match r with true => idtac | false => idtac end; change (a =? b) with r
  end; cbn iota; cbn [orb andb negb].

Lemma read_number_spec q flags x args m : exists num,
  read_number (qualifier_code q) flags (x :: args) m = Some ((num, args), m) /\
  s64 num = integer_value q (has flags SIGN) x.
Proof.
  destruct q; cbn [qualifier_code integer_value]; unfold read_number.
  all: decide_chars; (eexists; split; [rewrite ?(bind_ok _ _ _ _ _ (va_arg_ok m _ x args)); reflexivity|]).
  all: destruct (has flags SIGN); unfold s64, u64, s32, u32, s16, u16; dlia.
Qed.

Lemma integer_value_range q signed x : - 2 ^ 63 <= integer_value q signed x < 2 ^ 63.
Proof. destruct q, signed; cbn [integer_value]; unfold s64, u32, s32, s16, u16; dlia. Qed.

Lemma print_integer_spec t W P flags base q x args :
  let num := integer_value q (has flags SIGN) x in
  let text := number_text (has flags LEFT) (has flags PLUS) (has flags SPACE) (has flags ZEROPAD) (has flags SIGN)
                (has flags LARGE) base num W P in
  (has flags SIGN && (num =? - 2 ^ 63)) = false -> -1 <= W <= AMOUNT_MAX -> -1 <= P <= AMOUNT_MAX ->
  zlen t + zlen text <= N ->
  print_integer end_ (buf + zlen t) W P flags base (qualifier_code q) (x :: args) (OUT t) =
  Some ((buf + zlen (t ++ text), args), OUT (t ++ text)).
Proof.
  cbv zeta. intros Hmin HW HP HN. unfold AMOUNT_MAX in *. unfold print_integer.
  destruct (read_number_spec q flags x args (OUT t)) as (num & E & En).
  rewrite (bind_ok _ _ _ _ _ E), En. pose proof (integer_value_range q (has flags SIGN) x).
  generalize dependent (integer_value q (has flags SIGN) x). intros v Hmin HN _ Hv.
  assert (has flags SIGN = true -> - 2 ^ 63 < v) as Hlow by (intros Hs; rewrite Hs in Hmin; cbn [andb] in Hmin; lia).
  by rewrite (bind_ok _ _ _ _ _ (print_number_spec buf lim N m0 Hmap t flags v base W P Hv Hlow
    ltac:(lia) ltac:(lia) HN)).
Qed.

Section convert.
Context (strs : Z -> option (list Z)).
Context (Hstrs : forall a s, strs a = Some s -> a <> 0 /\ zlen s < 2 ^ 31 /\ source a s).

Lemma null_source : source 0 (chars "(NULL)").
Proof. split; [|done]. repeat (constructor; [done|]). constructor. Qed.

(** The conversions of integers; [fl] is [flags] with what the conversion adds. *)
Lemma convert_integer (fmt : Z) t W P flags fl base q args text (args' : list Z) :
  has fl LEFT = has flags LEFT -> has fl PLUS = has flags PLUS -> has fl SPACE = has flags SPACE ->
  has fl ZEROPAD = has flags ZEROPAD -> -1 <= W <= AMOUNT_MAX -> -1 <= P <= AMOUNT_MAX ->
  (x ← arg args;
   let '(x, args) := x in
   let num := integer_value q (has fl SIGN) x in
   if has fl SIGN && (num =? - 2 ^ 63) then None
   else Some (number_text (has flags LEFT) (has flags PLUS) (has flags SPACE) (has flags ZEROPAD) (has fl SIGN) (has fl LARGE)
                base num W P, args)) = Some (text, args') ->
  zlen t + zlen text <= N ->
  (x ← print_integer end_ (buf + zlen t) W P fl base (qualifier_code q) args;
   let '(str, args) := x in mret (fmt, str, args)) (OUT t) =
  Some ((fmt, buf + zlen (t ++ text), args'), OUT (t ++ text)).
Proof.
  intros E1 E2 E3 E4 HW HP Hi HN. destruct args as [|x args]; [done|]. cbn in Hi.
  destruct (has fl SIGN && _) eqn:Emin in Hi; [done|]. injection Hi as <- <-.
  rewrite <- E1, <- E2, <- E3, <- E4 in *.
  by rewrite (bind_ok _ _ _ _ _ (print_integer_spec t W P fl base q x args Emin HW HP HN)).
Qed.

Lemma convert_spec c fmt t W P flags q args text args' :
  OUT t !! fmt = Some (conv_char c) -> valid_conv c = true ->
  has flags SIGN = false -> has flags LARGE = false -> -1 <= W <= AMOUNT_MAX -> -1 <= P <= AMOUNT_MAX ->
  render_conv strs (has flags LEFT) (has flags PLUS) (has flags SPACE) (has flags ZEROPAD) c q W P args =
    Some (text, args') ->
  zlen t + zlen text <= N ->
  convert end_ fmt (buf + zlen t) W P flags (qualifier_code q) args (OUT t) =
  Some ((fmt, buf + zlen (t ++ text), args'), OUT (t ++ text)).
Proof.
  intros Ec Hc HS HL HW HP Hr HN. unfold convert. rewrite (load_bind _ _ _ _ Ec). cbv zeta.
  destruct c as [| | | | | | | | | |c]; cbn [conv_char render_conv] in *; decide_chars.
  - destruct args as [|x args]; [done|]. cbn in Hr. injection Hr as <- <-.
    rewrite (bind_ok _ _ _ _ _ (va_arg_ok (OUT t) s32 x args)).
    assert (u8 x = u8 (s32 x)) as Ex by (unfold u8, s32; dlia). rewrite Ex in *.
    by rewrite (bind_ok _ _ _ _ _ (print_char_spec t W flags (s32 x) ltac:(lia) HN)).
  - destruct args as [|x args]; [done|]. cbn in Hr. rewrite (bind_ok _ _ _ _ _ (va_arg_ok (OUT t) u64 x args)).
    assert (exists s, source (u64 x) s /\ zlen s < 2 ^ 31 /\ text = in_field (has flags LEFT) W (string_text W P s) /\
      args' = args) as (s & Hs & H31 & -> & ->).
    { destruct (Z.eqb_spec (u64 x) 0) as [->|].
      - injection Hr as <- <-. exists (chars "(NULL)"). split; [apply null_source|]. done.
      - destruct (strs (u64 x)) as [s|] eqn:Es; [|done]. cbn in Hr. injection Hr as <- <-.
        destruct (Hstrs _ _ Es) as (_ & H31 & Hs). by exists s. }
    by rewrite (bind_ok _ _ _ _ _ (print_string_spec t W P flags (u64 x) s Hs H31 ltac:(lia) HN)).
  - destruct args as [|x args]; [done|]. cbn in Hr. injection Hr as <- <-. unfold AMOUNT_MAX in *.
    rewrite (bind_ok _ _ _ _ _ (va_arg_ok (OUT t) s64 x args)).
    assert (- 2 ^ 63 <= s64 x < 2 ^ 63) as Hx by (unfold s64; dlia).
    destruct (Z.eqb_spec W (-1)).
    + rewrite (bind_ok _ _ _ (buf + zlen (t ++ _)) _ (print_number_spec buf lim N m0 Hmap t (Z.lor flags ZEROPAD) (s64 x) 16 16 P Hx
        ltac:(rewrite has_lor, HS; done) ltac:(lia) ltac:(lia)
        ltac:(rewrite !has_lor, HS, HL, !orb_false_r; exact HN))).
      rewrite !has_lor, HS, HL, !orb_false_r. done.
    + rewrite (bind_ok _ _ _ (buf + zlen (t ++ _)) _ (print_number_spec buf lim N m0 Hmap t flags (s64 x) 16 W P Hx
        ltac:(rewrite HS; done) ltac:(lia) ltac:(lia) ltac:(rewrite HS, HL, orb_false_r in *; exact HN))).
      by rewrite HS, HL, orb_false_r.
  - injection Hr as <- <-. by rewrite (bind_ok _ _ _ _ _ (emit_text t (char "%") ltac:(done) HN)).
  - apply (convert_integer _ _ _ _ flags); try done. by rewrite HS, HL.
  - apply (convert_integer _ _ _ _ flags); rewrite ?has_lor, ?orb_false_r; try done. by rewrite HS, HL.
  - apply (convert_integer _ _ _ _ flags); try done. by rewrite HS, HL.
  - apply (convert_integer _ _ _ _ flags); rewrite ?has_lor, ?orb_false_r; try done. by rewrite HL, orb_true_r.
  - apply (convert_integer _ _ _ _ flags); rewrite ?has_lor, ?orb_false_r; try done. by rewrite HL, orb_true_r.
  - apply (convert_integer _ _ _ _ flags); try done. by rewrite HS, HL.
  - injection Hr as <- <-. cbn in Hc. rewrite !andb_true_iff, !negb_true_iff, !Z.eqb_neq in Hc.
    repeat match goal with |- context [c =? ?b] =>
      rewrite (proj2 (Z.eqb_neq c b)) by (let b' := eval vm_compute in b in change b with b'; lia) end.
    cbn [orb negb].
    change (zlen [char "%"; c]) with 2 in HN.
    rewrite (bind_ok _ _ _ _ _ (emit_text t (char "%") ltac:(done) ltac:(lia))).
    rewrite (bind_ok _ _ _ _ _ (emit_text (t ++ [char "%"]) c ltac:(lia) ltac:(rewrite zlen_snoc; lia))).
    by rewrite <- app_assoc.
Qed.

(** *** Flags, width, precision *)

Lemma has_flag_bits fs fl b : has (flag_bits fs fl) b = has fl b || existsb (fun f => has (flag_bit f) b) fs.
Proof.
  revert fl. induction fs as [|f fs IH]; intros fl; cbn [flag_bits fold_left existsb]; [by rewrite orb_false_r|].
  fold (flag_bits fs (Z.lor fl (flag_bit f))). by rewrite IH, has_lor, orb_assoc.
Qed.

Lemma existsb_flag (fs : list flag) (g : flag) : existsb (fun f => bool_decide (f = g)) fs = bool_decide (g ∈ fs).
Proof.
  apply eq_true_iff_eq. rewrite existsb_exists, bool_decide_eq_true. setoid_rewrite bool_decide_eq_true.
  split; [intros (f & Hf & ->)|intros H; exists g; split; [|done]]; by apply list_elem_of_In.
Qed.

Lemma has_flag fs g : g <> FSpecial -> has (flag_bits fs 0) (flag_bit g) = bool_decide (g ∈ fs).
Proof.
  intros Hg. rewrite has_flag_bits, <- existsb_flag. cbn [orb]. change (has 0 (flag_bit g)) with false.
  cbn [orb]. induction fs as [|f fs IH]; cbn [existsb]; [done|]. rewrite IH. f_equal. by destruct f, g.
Qed.

Lemma has_no_flag fs b : b = SIGN \/ b = LARGE -> has (flag_bits fs 0) b = false.
Proof.
  intros Hb. rewrite has_flag_bits. apply orb_false_intro; [by destruct Hb as [-> | ->]|].
  induction fs as [|f fs IH]; cbn [existsb]; [done|]. rewrite IH, orb_false_r. by destruct f, Hb as [-> | ->].
Qed.

Lemma render_width_range w args W minus args' :
  match w with Some (Lit n) => (0 <? n) && (n <=? AMOUNT_MAX) | _ => true end = true ->
  render_width w args = Some (W, minus, args') -> -1 <= W <= AMOUNT_MAX.
Proof.
  intros Hv. destruct w as [[n|]|]; cbn.
  - intros [= <- _ _]. lia.
  - destruct args as [|x args]; [done|]. cbn. destruct (Z.leb_spec (Z.abs (s32 x)) AMOUNT_MAX); [|done].
    intros [= <- _ _]. lia.
  - by intros [= <- _ _].
Qed.

Lemma render_precision_range p args P args' :
  match p with Some (Some (Lit n)) => (0 <=? n) && (n <=? AMOUNT_MAX) | _ => true end = true ->
  render_precision p args = Some (P, args') -> -1 <= P <= AMOUNT_MAX.
Proof.
  intros Hv. destruct p as [[[n|]|]|]; cbn.
  - intros [= <- _]. lia.
  - destruct args as [|x args]; [done|]. cbn. destruct (Z.leb_spec (s32 x) AMOUNT_MAX); [|done].
    intros [= <- _]. unfold AMOUNT_MAX in *. lia.
  - by intros [= <- _].
  - by intros [= <- _].
Qed.

Lemma conversion_spec d fmt t args text args' :
  bytes_at (OUT t) (fmt + 1) (directive_text d) -> valid_directive d = true ->
  render_directive strs d args = Some (text, args') -> zlen t + zlen text <= N ->
  conversion end_ fmt (buf + zlen t) args (OUT t) =
  Some ((fmt + zlen (directive_text d), buf + zlen (t ++ text), args'), OUT (t ++ text)).
Proof.
  intros Hb Hv Hr HN. unfold valid_directive in Hv. rewrite !andb_true_iff in Hv. destruct Hv as [[Hw Hp] Hc].
  unfold render_directive in Hr.
  destruct (render_width (d_width d) args) as [[[W minus] args1]|] eqn:EW; [|done]. cbn in Hr.
  destruct (render_precision (d_precision d) args1) as [[P args2]|] eqn:EP; [|done]. cbn in Hr.
  pose proof (render_width_range _ _ _ _ _ Hw EW) as HW. pose proof (render_precision_range _ _ _ _ Hp EP) as HP.
  pose proof (bytes_at_fuel _ _ _ Hb) as Hfuel. unfold directive_text in *.
  rewrite length_app, length_map in Hfuel.
  destruct (conv_plain (d_conv d) Hc) as (_ & _ & _ & Hnq & _).
  assert (match d_width d with Some (Lit n) => 0 < n <= AMOUNT_MAX | _ => True end) as Hw1
    by (clear - Hw; destruct (d_width d) as [[n|]|]; [lia|done|done]).
  assert (match d_precision d with Some (Some (Lit n)) => 0 <= n <= AMOUNT_MAX | _ => True end) as Hp1
    by (clear - Hp; destruct (d_precision d) as [[[n|]|]|]; [lia|done..]).
  set (fs := d_flags d) in *. set (rq := qualifier_text (d_qualifier d) ++ [conv_char (d_conv d)]) in *.
  unfold conversion, cmem_fuel. rewrite bind_gets.
  rewrite (bind_ok _ _ _ _ _ (flags_spec (OUT t) fs fmt 0 (S (S (size (OUT t)))) _ Hb
    (begins_width _ _ _ _ Hc Hw1) ltac:(lia))).
  rewrite bytes_at_app in Hb. destruct Hb as [_ Hb]. unfold zlen in Hb at 1. rewrite length_map in Hb.
  fold (zlen fs) in Hb.
  rewrite (bind_ok _ _ _ _ _ (read_width_spec (OUT t) (d_width d) _ (flag_bits fs 0) args _ W minus args1
    Hw1 Hb
    (begins_weaken _ _ _ (fun x H => proj2 H) (begins_precision _ _ _ Hc)) EW)).
  rewrite bytes_at_app in Hb. destruct Hb as [_ Hb].
  rewrite (bind_ok _ _ _ _ _ (read_precision_spec (OUT t) (d_precision d) _ args1 _ P args2
    Hp1 Hb
    (begins_weaken _ _ _ (fun x H => conj (proj1 (proj2 H)) (proj2 (proj2 H))) (begins_qualifier _ _ Hc)) EP)).
  rewrite bytes_at_app in Hb. destruct Hb as [_ Hb].
  rewrite (bind_ok _ _ _ _ _ (read_qualifier_spec (OUT t) (d_qualifier d) _ [conv_char (d_conv d)] Hb Hnq)).
  unfold rq in Hb. rewrite bytes_at_app in Hb. destruct Hb as [_ Hb]. apply bytes_at_cons in Hb as [Ec _].
  set (flags := if minus then Z.lor (flag_bits fs 0) LEFT else flag_bits fs 0).
  assert (forall b, has flags b = has (flag_bits fs 0) b || (minus && has LEFT b)) as Hfl
    by (intros b; unfold flags; destruct minus; cbn [andb]; by rewrite ?has_lor, ?orb_false_r).
  rewrite (convert_spec (d_conv d) _ t W P flags (d_qualifier d) args2 text args' Ec Hc); try done.
  - apply f_equal, f_equal2; [|done]. apply f_equal2; [|done]. apply f_equal2; [|done].
    unfold rq. rewrite !zlen_app. unfold zlen at 5. rewrite length_map. fold (zlen fs).
    change (zlen [conv_char (d_conv d)]) with 1. lia.
  - rewrite Hfl, (has_no_flag fs SIGN), andb_false_r by auto. done.
  - rewrite Hfl, (has_no_flag fs LARGE), andb_false_r by auto. done.
  - rewrite !Hfl. change (has LEFT LEFT) with true. change (has LEFT PLUS) with false.
    change (has LEFT SPACE) with false. change (has LEFT ZEROPAD) with false.
    rewrite !andb_false_r, andb_true_r, !orb_false_r.
    change LEFT with (flag_bit FLeft). change PLUS with (flag_bit FPlus). change SPACE with (flag_bit FSpace).
    change ZEROPAD with (flag_bit FZero). by rewrite !has_flag.
Qed.

(** ** The whole format string *)

Lemma render_piece_spec p fmt t args text args' :
  bytes_at (OUT t) fmt (piece_text p) -> valid_piece p = true ->
  render_piece strs p args = Some (text, args') -> zlen t + zlen text <= N ->
  format_round end_ (fmt, buf + zlen t, args) (OUT t) =
  Some (inl (fmt + zlen (piece_text p), buf + zlen (t ++ text), args'), OUT (t ++ text)).
Proof.
  intros Hb Hv Hr HN. unfold format_round. destruct p as [c|d]; cbn [piece_text render_piece valid_piece] in *.
  - apply bytes_at_cons in Hb as [E _]. rewrite (load_bind _ _ _ _ E). injection Hr as <- <-.
    rewrite !andb_true_iff, negb_true_iff in Hv. destruct Hv as [Hc ->].
    rewrite (proj2 (Z.eqb_neq c 0)) by lia. cbn [negb].
    change (zlen [c]) with 1 in *. by rewrite (bind_ok _ _ _ _ _ (emit_text t c ltac:(lia) HN)).
  - apply bytes_at_cons in Hb as [E Hb]. rewrite (load_bind _ _ _ _ E).
    decide_chars. rewrite (bind_ok _ _ _ _ _ (conversion_spec d fmt t args text args' Hb Hv Hr HN)).
    apply mret_ok. rewrite zlen_cons. f_equal. pairs.
Qed.

(** The format string can be read while the text is written. *)
Context (ps : list piece) (start : Z).
Context (Hfmt : forall t, zlen t <= N -> cstring (OUT t) start (format_text ps)).

Lemma piece_text_length p : 1 <= zlen (piece_text p).
Proof. destruct p; cbn [piece_text]; [done|]. rewrite zlen_cons. pose proof (zlen_nonneg (directive_text d)). lia. Qed.

Lemma format_loop : forall qs fuel pre t args text,
  ps = pre ++ qs -> forallb valid_piece qs = true -> render strs qs args = Some text -> zlen t + zlen text <= N ->
  (length (format_text qs) < fuel)%nat ->
  loop fuel (format_round end_) (start + zlen (format_text pre), buf + zlen t, args) (OUT t) =
  Some (buf + zlen (t ++ text), OUT (t ++ text)).
Proof.
  induction qs as [|p qs IH]; intros [|fuel] pre t args text Hps Hv Hr HN Hf; try lia.
  - injection Hr as <-. change (zlen []) with 0 in HN. rewrite !app_nil_r in *. subst pre.
    rewrite (loop_step _ _ _ _ (inr (buf + zlen t)) (OUT t)); [done|]. unfold format_round.
    pose proof (zlen_nonneg (format_text ps)).
    rewrite (bind_ok _ _ _ _ _ (cstring_load _ _ _ (Hfmt t ltac:(lia)) (zlen (format_text ps)) ltac:(lia))).
    by rewrite zget_end.
  - cbn [render] in Hr. destruct (render_piece strs p args) as [[u args1]|] eqn:Ep; [|done]. cbn in Hr.
    destruct (render strs qs args1) as [rest|] eqn:Er; [|done]. cbn in Hr. injection Hr as <-.
    cbn [forallb] in Hv. rewrite andb_true_iff in Hv. destruct Hv as [Hvp Hv].
    rewrite zlen_app in HN. pose proof (zlen_nonneg rest). pose proof (zlen_nonneg u).
    destruct (Hfmt t ltac:(lia)) as [_ Hb]. rewrite Hps in Hb. unfold format_text in Hb at 1.
    rewrite flat_map_app in Hb. cbn [flat_map] in Hb. rewrite <- !app_assoc, !bytes_at_app in Hb.
    destruct Hb as (_ & Hb & _). fold (format_text pre) in Hb.
    rewrite (loop_step _ _ _ _ _ _ (render_piece_spec p _ t args u args1 Hb Hvp Ep ltac:(lia))).
    pose proof (piece_text_length p) as Hlen.
    assert (start + zlen (format_text pre) + zlen (piece_text p) = start + zlen (format_text (pre ++ [p]))) as ->.
    { unfold format_text. rewrite flat_map_app. cbn [flat_map]. rewrite app_nil_r, zlen_app. lia. }
    rewrite (IH fuel (pre ++ [p]) (t ++ u) args1 rest); try done.
    + by rewrite <- app_assoc.
    + by rewrite <- app_assoc.
    + rewrite zlen_app. lia.
    + unfold format_text in *. cbn [flat_map] in Hf. rewrite length_app in Hf. unfold zlen in Hlen. lia.
Qed.
End convert.
End printing.

(** ** [rt_vsnprintf] *)

(** How many bytes the buffer has: the address space may end before. *)
Definition capacity (buf size : Z) : Z := Z.min size (2 ^ 64 - 1 - buf).

(** The memory after a call that prints [text]. *)
Definition printed (buf cap : Z) (text : list Z) (m : cmem) : cmem :=
  if 0 <? cap then write_bytes buf (ztake (cap - 1) text ++ [0]) m else m.

Lemma finish_spec buf cap m text :
  0 <= cap -> mapped m buf (Z.min cap (zlen text + 1)) ->
  (when (0 <? cap) (if buf + zlen text <? buf + cap then store (buf + zlen text) 0 else store (buf + cap - 1) 0))
    (out buf cap m text) = Some (tt, printed buf cap text m).
Proof.
  intros Hcap Hm. unfold printed, when, out. pose proof (zlen_nonneg text).
  destruct (Z.ltb_spec 0 cap) as [H0|H0].
  2: { assert (cap = 0) as -> by lia. done. }
  pose proof (write_bytes_mapped buf (ztake cap text) m buf _ Hm) as Hm'.
  destruct (Z.ltb_spec (buf + zlen text) (buf + cap)) as [Hlt|Hge].
  - rewrite store_ok by (apply Hm'; lia). rewrite write_bytes_app.
    assert (forall n, zlen text <= n -> ztake n text = text) as Htake
      by (intros n Hn; unfold ztake, zlen in *; apply take_ge; lia).
    by rewrite !Htake by lia.
  - rewrite store_ok by (apply Hm'; lia).
    replace (ztake cap text) with (ztake (cap - 1) text ++ [zget text (cap - 1)]).
    + rewrite !write_bytes_snoc, zlen_ztake by lia. replace (buf + cap - 1) with (buf + (cap - 1)) by lia.
      by rewrite insert_insert_eq.
    + replace cap with (cap - 1 + 1) at 3 by lia. rewrite ztake_add, zdrop_cons by lia. done.
Qed.

Lemma out_cstring buf cap N m a s t :
  0 <= cap -> cstring m a s -> apart buf (Z.min cap (N + 1)) a (zlen s + 1) -> zlen t <= N -> cstring (out buf cap m t) a s.
Proof.
  intros Hcap [Hs Hb] Ha Ht. split; [done|]. apply write_bytes_apart; [|done].
  rewrite zlen_app. change (zlen [0]) with 1. unfold apart, ztake, zlen in *. rewrite length_take.
  unfold apart in Ha. lia.
Qed.

(** A call prints [text]: what must be in memory for it. *)
Record printable (m : cmem) (strs : Z -> option (list Z)) (buf size fmt : Z) (ps : list piece) (text : list Z) :
  Prop := {
  pr_bytes : cmem_ok m;
  pr_buf : 0 < buf < 2 ^ 64;
  pr_size : 0 <= size < 2 ^ 64;
  pr_room : mapped m buf (Z.min (capacity buf size) (zlen text + 1));
  pr_length : zlen text < 2 ^ 31;
  pr_valid : forallb valid_piece ps = true;
  pr_format : cstring m fmt (format_text ps) /\
    apart buf (Z.min (capacity buf size) (zlen text + 1)) fmt (zlen (format_text ps) + 1);
  pr_strings : forall a s, strs a = Some s ->
    a <> 0 /\ zlen s < 2 ^ 31 /\ cstring m a s /\
    apart buf (Z.min (capacity buf size) (zlen text + 1)) a (zlen s + 1)
}.

Lemma vsnprintf_spec m strs buf size fmt ps args text :
  printable m strs buf size fmt ps text ->
  render strs ps args = Some text ->
  rt_vsnprintf buf size fmt args m = Some (zlen text, printed buf (capacity buf size) text m).
Proof.
  intros [Hok Hbuf Hsize Hroom Hlen Hv [Hf Hfa] Hs] Hr. set (cap := capacity buf size) in *.
  unfold rt_vsnprintf.
  assert ((if u64 (buf + size) <? buf then (2 ^ 64 - 1, 2 ^ 64 - 1 - buf) else (u64 (buf + size), size)) =
    (buf + cap, cap)) as ->.
  { unfold cap, capacity. destruct (Z.ltb_spec (buf + size) (2 ^ 64)).
    - rewrite u64_small by lia. rewrite (proj2 (Z.ltb_ge (buf + size) buf)) by lia. pairs.
    - assert (u64 (buf + size) = buf + size - 2 ^ 64) as -> by (unfold u64; dlia).
      rewrite (proj2 (Z.ltb_lt (buf + size - 2 ^ 64) buf)) by lia. pairs. }
  assert (0 <= cap) as Hcap by (unfold cap, capacity; lia).
  unfold cmem_fuel. rewrite bind_gets. pose proof (zlen_nonneg text).
  assert (out buf cap m [] = m) as Hout by (unfold out, ztake; by rewrite take_nil).
  assert (forall a s, strs a = Some s -> a <> 0 /\ zlen s < 2 ^ 31 /\ source buf cap (zlen text) m a s) as Hsrc.
  { intros a s Ea. destruct (Hs a s Ea) as (Ha & H31 & Hc & Hap). split; [done|]. split; [done|].
    split; [by apply (cstring_is_string m a)|]. rewrite (proj2 (Z.eqb_neq a 0) Ha). intros t Ht.
    by apply (out_cstring buf cap (zlen text)). }
  pose proof (format_loop buf cap (zlen text) m Hroom strs Hsrc ps fmt
    (fun t Ht => out_cstring buf cap (zlen text) m fmt _ t Hcap Hf Hfa Ht) ps (S (S (base.size m))) [] [] args text eq_refl Hv Hr
    ltac:(change (zlen []) with 0; lia) ltac:(pose proof (cstring_fuel _ _ _ Hf); unfold zlen in *; lia)) as E.
  rewrite Hout in E. change (zlen (format_text [])) with 0 in E. change (zlen []) with 0 in E. rewrite !Z.add_0_r in E.
  rewrite (bind_ok _ _ _ _ _ E). cbn [app]. rewrite (bind_ok _ _ _ _ _ (finish_spec buf cap m text ltac:(lia) Hroom)).
  apply mret_ok. rewrite s32_small; lia.
Qed.
