(* ===== verification/PrintfCorrect.v ===== *)
(** * Formatted output: the theorems *)
From Stdlib Require Import String Ascii.
From S2P Require Import Prelude Kservice Cmem Kmemory Kstring Printf PrintfNumber PrintfSpec.
Open Scope Z_scope.

(** C21: For every format string of characters and conversions, with any flags,
    field widths, precisions and length modifiers, [rt_vsnprintf] prints what
    the pieces of the format string mean one after the other ([render]), each
    with the arguments it takes: the result is the length of that text, the
    buffer holds as much of the text as fits with the terminating zero after
    it, and no other byte of the memory changes. This holds for any size of the
    buffer, 0 and sizes that reach beyond the address space included, as
    [rt_vsprintf] uses them. The call ends, and reads nothing outside the
    format string and the strings that are printed. *)
Theorem vsnprintf_correct m strs buf size fmt ps args text :
  printable m strs buf size fmt ps text ->
  render strs ps args = Some text ->
  rt_vsnprintf buf size fmt args m =
  Some (zlen text,
        if 0 <? capacity buf size
        then write_bytes buf (ztake (capacity buf size - 1) text ++ [0]) m else m).
Proof. apply vsnprintf_spec. Qed.

(** "[%-5d|%08X|%s]" at 100, "name" at 200, and a buffer of 16 bytes at 1000,
    in which the text of 21 characters does not fit. *)
Definition sample_pieces : list piece :=
  [PChar (char "["); PDirective (Directive [FLeft] (Some (Lit 5)) None QNone Cd); PChar (char "|");
   PDirective (Directive [FZero] (Some (Lit 8)) None QNone CX); PChar (char "|");
   PDirective (Directive [] None None QNone Cs); PChar (char "]")].
Definition sample_memory : cmem :=
  write_bytes 100 (chars "[%-5d|%08X|%s]" ++ [0])
    (write_bytes 200 (chars "name" ++ [0]) (write_bytes 1000 (replicate 16 7) ∅)).
Definition sample_name (a : Z) : option (list Z) := if a =? 200 then Some (chars "name") else None.
Definition sample_text : list Z := chars "[-42  |0000BEEF|name]".

Lemma mapped_write a n l m : zlen l = n -> mapped (write_bytes a l m) a n.
Proof. intros <-. apply bytes_at_mapped, write_bytes_at. Qed.

Lemma sample_printable : printable sample_memory sample_name 1000 16 100 sample_pieces sample_text.
Proof.
  constructor.
  - apply cmem_okb_sound. vm_compute. reflexivity.
  - lia.
  - lia.
  - change (Z.min (capacity 1000 16) (zlen sample_text + 1)) with 16.
    do 2 apply write_bytes_mapped. by apply mapped_write.
  - done.
  - vm_compute. reflexivity.
  - split; [apply cstringb_sound; vm_compute; reflexivity|]. right. done.
  - unfold sample_name. intros a s. destruct (Z.eqb_spec a 200) as [->|]; [|done]. intros [= <-].
    split; [done|]. split; [done|]. split; [apply cstringb_sound; vm_compute; reflexivity|]. right. done.
Qed.

Lemma vsnprintf_correct_witness :
  rt_vsnprintf 1000 16 100 [-42; 48879; 200] sample_memory =
  Some (21, write_bytes 1000 (ztake 15 sample_text ++ [0]) sample_memory).
Proof.
  assert (render sample_name sample_pieces [-42; 48879; 200] = Some sample_text) as Hr by (vm_compute; reflexivity).
  pose proof sample_printable as Hp.
  assert (zlen sample_text = 21) as Hl by done. assert (capacity 1000 16 = 16) as Hc by done.
  revert Hr Hp Hl. generalize sample_memory sample_text. intros m text Hr Hp Hl.
  pose proof (vsnprintf_correct m sample_name 1000 16 100 sample_pieces [-42; 48879; 200] text Hp Hr) as E.
  rewrite Hl, Hc in E. exact E.
Defined.

(** ** Reading a number back *)

Lemma small_digit d : 0 <= d < 10 -> zget small_digits d = char "0" + d.
Proof.
  intros Hd. assert (forallb (fun d => zget small_digits d =? char "0" + d) (seqZ 0 10) = true) as H by done.
  rewrite forallb_forall in H. apply Z.eqb_eq, H, list_elem_of_In, elem_of_seqZ. lia.
Qed.

Lemma decimal_text n : 0 <= n < 2 ^ 64 -> digits_text false false 10 n = decimal n.
Proof.
  intros Hn. unfold digits_text, decimal, magnitude. rewrite u64_small by lia. change (radix 10) with 10.
  pose proof (digits_range 10 n ltac:(lia)) as H. induction H as [|d l Hd _ IH]; [done|]. cbn [map].
  f_equal; [by apply small_digit|exact IH].
Qed.

(** C22: A number that [rt_snprintf] prints with "%u" is read back by the
    function with which [rt_vsnprintf] itself reads the numbers in its format
    strings: printing and reading are inverse to each other, and reading stops
    at the end of the text, for every number up to 2^31 - 49; on every larger one the
    [int] arithmetic of the reading overflows. *)
Theorem print_atoi_roundtrip m buf size fmt n :
  cmem_ok m -> 0 < buf -> zlen (decimal n) < size -> buf + size < 2 ^ 64 -> mapped m buf size ->
  cstring m fmt (chars "%u") -> apart buf size fmt 3 -> 0 <= n < 2 ^ 32 ->
  exists m', rt_snprintf buf size fmt [n] m = Some (zlen (decimal n), m') /\
    skip_atoi buf m' = if n <=? 2 ^ 31 - 49 then Some ((n, buf + zlen (decimal n)), m') else None.
Proof.
  intros Hok Hbuf Hsize Hend Hm Hf Ha Hn. set (ps := [PDirective (Directive [] None None QNone Cu)]).
  pose proof (digits_length 10 n) as Hl.
  assert (zlen (decimal n) = zlen (digits 10 n)) as El by (unfold decimal, zlen; by rewrite length_map).
  assert (capacity buf size = size) as Ecap by (unfold capacity; lia).
  assert (printable m (fun _ => None) buf size fmt ps (decimal n)) as Hp.
  { assert (Z.min size (zlen (decimal n) + 1) = zlen (decimal n) + 1) as Emin by lia.
    constructor; rewrite ?Ecap, ?Emin; try done; try lia.
    - intros b Hb. apply Hm. lia.
    - split; [done|]. unfold apart in *. change (zlen (format_text ps) + 1) with 3. lia. }
  assert (render (fun _ => None) ps [n] = Some (decimal n)) as Hr.
  { cbn. unfold number_text. cbn [negb sign_text zlen]. rewrite (u32_small n), decimal_text by lia.
    change (zlen []) with 0. rewrite spaces_neg, zeros_neg by lia. cbn. by rewrite app_nil_r. }
  pose proof (vsnprintf_spec _ _ _ _ _ _ _ _ Hp Hr) as E. unfold printed in E.
  rewrite Ecap, (proj2 (Z.ltb_lt 0 size)) in E by lia.
  assert (ztake (size - 1) (decimal n) = decimal n) as Et
    by (unfold ztake; apply take_ge; unfold zlen in *; lia).
  rewrite Et in E. eexists. split; [exact E|]. destruct (Z.leb_spec n (2 ^ 31 - 49)).
  - apply (skip_atoi_spec _ buf n 0 []); [unfold READ_MAX; lia|done|]. apply write_bytes_at.
  - apply (skip_atoi_overflow _ buf n [0]); [unfold READ_MAX; lia|]. apply write_bytes_at.
Qed.

Lemma print_atoi_roundtrip_witness :
  exists m', rt_snprintf 1000 16 200 [40509] (write_bytes 200 (chars "%u" ++ [0]) (write_bytes 1000 (replicate 16 7) ∅)) =
    Some (5, m') /\ skip_atoi 1000 m' = Some ((40509, 1005), m').
Proof.
  set (m := write_bytes 200 _ _).
  assert (cmem_ok m) as Hok by (apply cmem_okb_sound; vm_compute; reflexivity).
  assert (cstring m 200 (chars "%u")) as Hc by (apply cstringb_sound; vm_compute; reflexivity).
  assert (mapped m 1000 16) as Hm by (apply write_bytes_mapped; by apply mapped_write).
  generalize dependent m. intros m Hok Hc Hm.
  apply (print_atoi_roundtrip m 1000 16 200 40509 Hok); try done; try lia. right. lia.
Defined.

(** A conversion to base 8 prints the digits of base 16. *)
Lemma octal_prints_hex left plus space zero signed large num width precision :
  number_text left plus space zero signed large 8 num width precision =
  number_text left plus space zero signed large 16 num width precision.
Proof. done. Qed.

(** With an explicit precision of 0 a number has no digits. *)
Lemma precision_0_prints_nothing left plus space zero large base num :
  number_text left plus space zero false large base num (-1) 0 = [].
Proof.
  unfold number_text. cbn [sign_text negb]. pose proof (digits_text_length false large base num).
  change (zlen []) with 0. rewrite zeros_neg, spaces_neg by lia. destruct left, zero; try done.
  cbn. rewrite zeros_neg by lia. done.
Qed.
