(* ===== verification/Ringbuffer.v ===== *)
(** * The mirrored ring buffer of the device drivers

    [components/drivers/ipc/ringbuffer.c] and its header.  The C structure
    packs a 1-bit mirror and a 15-bit index into each of two 16-bit words; the
    model keeps those widths.  [contents] is the byte queue a ring buffer
    stands for; every operation is shown to implement its queue operation. *)
From S2P Require Import Prelude.

Record ringbuffer := Ringbuffer {
  buffer_ptr : list Z;      (* the pool the pointer designates *)
  read_mirror : Z;          (* : 1 *)
  read_index : Z;           (* : 15 *)
  write_mirror : Z;         (* : 1 *)
  write_index : Z;          (* : 15 *)
  buffer_size : Z           (* rt_int16_t *)
}.

Inductive rt_ringbuffer_state :=
| RT_RINGBUFFER_EMPTY
| RT_RINGBUFFER_FULL
| RT_RINGBUFFER_HALFFULL.

#[export] Instance rt_ringbuffer_state_eq_dec : EqDecision rt_ringbuffer_state.
Proof. solve_decision. Defined.

Definition set_buffer (b : list Z) (rb : ringbuffer) : ringbuffer :=
  Ringbuffer b (read_mirror rb) (read_index rb) (write_mirror rb) (write_index rb) (buffer_size rb).
(** Bit-field stores: the value is truncated to 1 and 15 bits. *)
Definition set_read (m i : Z) (rb : ringbuffer) : ringbuffer :=
  Ringbuffer (buffer_ptr rb) (u1 m) (u15 i) (write_mirror rb) (write_index rb) (buffer_size rb).
Definition set_write (m i : Z) (rb : ringbuffer) : ringbuffer :=
  Ringbuffer (buffer_ptr rb) (read_mirror rb) (read_index rb) (u1 m) (u15 i) (buffer_size rb).

Definition rt_ringbuffer_status (rb : ringbuffer) : rt_ringbuffer_state :=
  if read_index rb =? write_index rb then
    if read_mirror rb =? write_mirror rb then RT_RINGBUFFER_EMPTY
    else RT_RINGBUFFER_FULL
  else RT_RINGBUFFER_HALFFULL.

Definition rt_ringbuffer_data_len (rb : ringbuffer) : Z :=
  match rt_ringbuffer_status rb with
  | RT_RINGBUFFER_EMPTY => 0
  | RT_RINGBUFFER_FULL => u64 (buffer_size rb)
  | RT_RINGBUFFER_HALFFULL =>
      let wi := write_index rb in
      let ri := read_index rb in
      if wi >? ri then u64 (wi - ri)
      else u64 (buffer_size rb - (ri - wi))
  end.

(** The macro [rt_ringbuffer_space_len]: an [rt_size_t] subtraction. *)
Definition rt_ringbuffer_space_len (rb : ringbuffer) : Z :=
  u64 (buffer_size rb - rt_ringbuffer_data_len rb).

Definition rt_ringbuffer_get_size (rb : ringbuffer) : Z := u16 (buffer_size rb).

(** [None]: an [RT_ASSERT] of the function fails. *)
Definition rt_ringbuffer_init (pool : list Z) (size : Z) : option ringbuffer :=
  if size >? 0 then
    Some (Ringbuffer pool 0 0 0 0 (s16 (RT_ALIGN_DOWN size RT_ALIGN_SIZE)))
  else None.

Definition rt_ringbuffer_reset (rb : ringbuffer) : ringbuffer :=
  set_write 0 0 (set_read 0 0 rb).

(** [length] is an [rt_uint16_t]; [ptr] the source bytes. The result is the
    new ring buffer and the returned count. *)
Definition rt_ringbuffer_put (rb : ringbuffer) (ptr : list Z) (length : Z) : ringbuffer * Z :=
  let size := u16 (rt_ringbuffer_space_len rb) in
  if size =? 0 then (rb, 0) else
  let length := if size <? length then size else length in
  if buffer_size rb - write_index rb >? length then
    let rb' := set_buffer (memcpy_at (buffer_ptr rb) (write_index rb) ptr length) rb in
    (set_write (write_mirror rb) (write_index rb + length) rb', length)
  else
    let first := buffer_size rb - write_index rb in
    let b1 := memcpy_at (buffer_ptr rb) (write_index rb) ptr first in
    let b2 := memcpy_at b1 0 (zdrop first ptr) (length - first) in
    (set_write (Z.lnot (write_mirror rb)) (length - first) (set_buffer b2 rb), length).

Definition rt_ringbuffer_put_force (rb : ringbuffer) (ptr : list Z) (length : Z) : ringbuffer * Z :=
  let space_length := u16 (rt_ringbuffer_space_len rb) in
  let '(ptr, length) :=
    if length >? buffer_size rb
    then (zdrop (length - buffer_size rb) ptr, u16 (buffer_size rb))
    else (ptr, length) in
  if buffer_size rb - write_index rb >? length then
    let rb1 := set_buffer (memcpy_at (buffer_ptr rb) (write_index rb) ptr length) rb in
    let rb2 := set_write (write_mirror rb1) (write_index rb1 + length) rb1 in
    let rb3 := if length >? space_length
               then set_read (read_mirror rb2) (write_index rb2) rb2 else rb2 in
    (rb3, length)
  else
    let first := buffer_size rb - write_index rb in
    let b1 := memcpy_at (buffer_ptr rb) (write_index rb) ptr first in
    let b2 := memcpy_at b1 0 (zdrop first ptr) (length - first) in
    let rb2 := set_write (Z.lnot (write_mirror rb)) (length - first) (set_buffer b2 rb) in
    let rb3 :=
      if length >? space_length then
        let m := if write_index rb2 <=? read_index rb2
                 then Z.lnot (read_mirror rb2) else read_mirror rb2 in
        set_read m (write_index rb2) rb2
      else rb2 in
    (rb3, length).

(** The destination bytes, the count and the new ring buffer. *)
Definition rt_ringbuffer_get (rb : ringbuffer) (length : Z) : ringbuffer * list Z * Z :=
  let size := rt_ringbuffer_data_len rb in
  if size =? 0 then (rb, [], 0) else
  let length := if size <? length then u16 size else length in
  if buffer_size rb - read_index rb >? length then
    (set_read (read_mirror rb) (read_index rb + length) rb,
     ztake length (zdrop (read_index rb) (buffer_ptr rb)), length)
  else
    let first := buffer_size rb - read_index rb in
    (set_read (Z.lnot (read_mirror rb)) (length - first) rb,
     ztake first (zdrop (read_index rb) (buffer_ptr rb)) ++
     ztake (length - first) (buffer_ptr rb), length).

(** [*ptr] is [None] for [RT_NULL], else the offset of the byte designated. *)
Definition rt_ringbuffer_peek (rb : ringbuffer) : ringbuffer * option Z * Z :=
  let size := rt_ringbuffer_data_len rb in
  if size =? 0 then (rb, None, 0) else
  let ptr := read_index rb in
  if u64 (buffer_size rb - read_index rb) >? size then
    (set_read (read_mirror rb) (read_index rb + size) rb, Some ptr, size)
  else
    let size := u64 (buffer_size rb - read_index rb) in
    (set_read (Z.lnot (read_mirror rb)) 0 rb, Some ptr, size).

Definition rt_ringbuffer_putchar (rb : ringbuffer) (ch : Z) : ringbuffer * Z :=
  if rt_ringbuffer_space_len rb =? 0 then (rb, 0) else
  let rb1 := set_buffer (zset (buffer_ptr rb) (write_index rb) ch) rb in
  if write_index rb1 =? buffer_size rb1 - 1 then
    (set_write (Z.lnot (write_mirror rb1)) 0 rb1, 1)
  else (set_write (write_mirror rb1) (write_index rb1 + 1) rb1, 1).

Definition rt_ringbuffer_putchar_force (rb : ringbuffer) (ch : Z) : ringbuffer * Z :=
  let old_state := rt_ringbuffer_status rb in
  let rb1 := set_buffer (zset (buffer_ptr rb) (write_index rb) ch) rb in
  if write_index rb1 =? buffer_size rb1 - 1 then
    let rb2 := set_write (Z.lnot (write_mirror rb1)) 0 rb1 in
    if decide (old_state = RT_RINGBUFFER_FULL)
    then (set_read (Z.lnot (read_mirror rb2)) (write_index rb2) rb2, 1)
    else (rb2, 1)
  else
    let rb2 := set_write (write_mirror rb1) (write_index rb1 + 1) rb1 in
    if decide (old_state = RT_RINGBUFFER_FULL)
    then (set_read (read_mirror rb2) (write_index rb2) rb2, 1)
    else (rb2, 1).

(** [*ch], when it is written. *)
Definition rt_ringbuffer_getchar (rb : ringbuffer) : ringbuffer * option Z * Z :=
  if rt_ringbuffer_data_len rb =? 0 then (rb, None, 0) else
  let ch := zget (buffer_ptr rb) (read_index rb) in
  if read_index rb =? buffer_size rb - 1 then
    (set_read (Z.lnot (read_mirror rb)) 0 rb, Some ch, 1)
  else (set_read (read_mirror rb) (read_index rb + 1) rb, Some ch, 1).

(** [rt_ringbuffer_create]: [mem] says whether the first [rt_malloc] (the
    control block) succeeds, [pool size] is the result of the second (the
    bytes it designates).  Outer [None]: assertion failure; inner [None]:
    [RT_NULL]. The control block is freed again when the pool is refused. *)
Definition rt_ringbuffer_create (size : Z) (mem : bool) (pool : Z -> option (list Z))
    : option (option ringbuffer) :=
  if size >? 0 then
    let size := u16 (RT_ALIGN_DOWN size RT_ALIGN_SIZE) in
    if negb mem then Some None else
    match pool size with
    | None => Some None
    | Some p =>
        match rt_ringbuffer_init p (s16 size) with
        | None => None
        | Some rb => Some (Some rb)
        end
    end
  else None.

(** ** Well-formed ring buffers and the queue they stand for *)

Definition wrap (rb : ringbuffer) (k : Z) : Z :=
  if k <? buffer_size rb then k else k - buffer_size rb.

Record rb_wf (rb : ringbuffer) : Prop := RbWf {
  wf_size : 0 < buffer_size rb <= 32767;
  wf_pool : buffer_size rb <= zlen (buffer_ptr rb);
  wf_rm : read_mirror rb = 0 \/ read_mirror rb = 1;
  wf_wm : write_mirror rb = 0 \/ write_mirror rb = 1;
  wf_ri : 0 <= read_index rb < buffer_size rb;
  wf_wi : 0 <= write_index rb < buffer_size rb;
  wf_same : read_mirror rb = write_mirror rb -> read_index rb <= write_index rb;
  wf_diff : read_mirror rb <> write_mirror rb -> write_index rb <= read_index rb
}.

(** The number of bytes held, as plain arithmetic. *)
Definition occupied (rb : ringbuffer) : Z :=
  if read_mirror rb =? write_mirror rb then write_index rb - read_index rb
  else buffer_size rb - (read_index rb - write_index rb).

Definition contents (rb : ringbuffer) : list Z :=
  ztab (occupied rb) (fun i => zget (buffer_ptr rb) (wrap rb (read_index rb + i))).

Lemma occupied_bounds rb : rb_wf rb -> 0 <= occupied rb <= buffer_size rb.
Proof. intros []. unfold occupied. zcases; lia. Qed.

Lemma data_len_occupied rb : rb_wf rb -> rt_ringbuffer_data_len rb = occupied rb.
Proof.
  intros []. unfold rt_ringbuffer_data_len, rt_ringbuffer_status, occupied.
  destruct (Z.eqb_spec (read_index rb) (write_index rb)),
    (Z.eqb_spec (read_mirror rb) (write_mirror rb)); simpl;
    zcases; rewrite ?u64_small by lia; lia.
Qed.

Lemma space_len_occupied rb :
  rb_wf rb -> rt_ringbuffer_space_len rb = buffer_size rb - occupied rb.
Proof.
  intros H. unfold rt_ringbuffer_space_len. rewrite data_len_occupied by done.
  pose proof (occupied_bounds rb H). destruct H. apply u64_small. lia.
Qed.

Lemma zlen_contents rb : rb_wf rb -> zlen (contents rb) = occupied rb.
Proof. intros H. apply zlen_ztab. apply occupied_bounds in H. lia. Qed.

Lemma zget_contents rb i :
  0 <= i < occupied rb ->
  zget (contents rb) i = zget (buffer_ptr rb) (wrap rb (read_index rb + i)).
Proof. intros. unfold contents. by rewrite zget_ztab. Qed.

(** Field accesses of an updated structure, with the truncations of the
    stores discharged; the bounds come from the invariant. *)
Ltac rb_fields :=
  cbn [set_buffer set_read set_write buffer_ptr read_mirror read_index
       write_mirror write_index buffer_size fst snd] in *.
Ltac rb_stores :=
  rb_fields;
  repeat match goal with
  | |- context [u15 ?x] => rewrite (u15_small x) by lia
  | |- context [u1 (Z.lnot ?x)] => rewrite (u1_flip x) by lia
  | |- context [u1 ?x] => replace (u1 x) with x by
      (match goal with H : x = 0 \/ x = 1 |- _ => destruct H as [-> | ->]; reflexivity end)
  end.

(** The same queue is read from two buffers that agree where it lies. *)
Lemma contents_eq rb l :
  rb_wf rb -> zlen l = occupied rb ->
  (forall i, 0 <= i < occupied rb ->
     zget (buffer_ptr rb) (wrap rb (read_index rb + i)) = zget l i) ->
  contents rb = l.
Proof.
  intros Hwf Hl Hg. apply zlist_eq; [by rewrite zlen_contents|].
  intros i Hi. rewrite zlen_contents in Hi by done.
  rewrite zget_contents by done. by apply Hg.
Qed.

(** ** Functional behaviour of each operation *)

Lemma init_spec pool size :
  4 <= size <= 32767 -> size <= zlen pool ->
  exists rb, rt_ringbuffer_init pool size = Some rb /\ rb_wf rb /\
    contents rb = [] /\ buffer_size rb = 4 * (size / 4).
Proof.
  intros Hs Hp. unfold rt_ringbuffer_init.
  assert ((size >? 0) = true) as -> by lia.
  assert (s16 (RT_ALIGN_DOWN size RT_ALIGN_SIZE) = 4 * (size / 4)) as Hsz.
  { unfold RT_ALIGN_SIZE. rewrite RT_ALIGN_DOWN_4. unfold s16.
    rewrite Z.mod_small by dlia. lia. }
  eexists. split; [done|]. rewrite Hsz. rb_fields. split_and!; [|done|done].
  constructor; rb_fields; dlia.
Qed.

Lemma reset_wf rb : rb_wf rb -> rb_wf (rt_ringbuffer_reset rb).
Proof.
  intros []. unfold rt_ringbuffer_reset. constructor; rb_fields;
    change (u1 0) with 0; change (u15 0) with 0; lia.
Qed.

Lemma reset_contents rb : contents (rt_ringbuffer_reset rb) = [].
Proof. reflexivity. Qed.

(** What the two [rt_memcpy] calls of a put leave in the pool: [n] source bytes
    from the write index on, wrapping at the end of the buffer. *)
Definition wdist (size wi k : Z) : Z := if wi <=? k then k - wi else k - wi + size.
Definition written (size wi : Z) (buf buf' ptr : list Z) (n : Z) : Prop :=
  zlen buf' = zlen buf /\
  forall k, 0 <= k < size ->
    zget buf' k = if wdist size wi k <? n then zget ptr (wdist size wi k) else zget buf k.

Lemma written_straight size wi buf ptr n :
  0 <= wi < size -> size <= zlen buf -> 0 <= n <= zlen ptr -> wi + n <= size ->
  written size wi buf (memcpy_at buf wi ptr n) ptr n.
Proof.
  intros. split; [rewrite zlen_memcpy_at by lia; done|]. intros k Hk.
  rewrite zget_memcpy_at by lia. unfold wdist. zcases; simpl; try lia; done.
Qed.

Lemma written_split size wi buf ptr n :
  0 <= wi < size -> size <= zlen buf -> size - wi <= n <= size -> n <= zlen ptr ->
  written size wi buf
    (memcpy_at (memcpy_at buf wi ptr (size - wi)) 0 (zdrop (size - wi) ptr) (n - (size - wi)))
    ptr n.
Proof.
  intros. assert (zlen (memcpy_at buf wi ptr (size - wi)) = zlen buf)
    by (rewrite zlen_memcpy_at by lia; done).
  assert (zlen (zdrop (size - wi) ptr) = zlen ptr - (size - wi))
    by (apply zlen_zdrop; lia).
  split; [rewrite !zlen_memcpy_at by lia; lia|]. intros k Hk.
  rewrite zget_memcpy_at by lia. unfold wdist.
  zcases; simpl; try lia; rewrite ?zget_zdrop by lia; rewrite ?zget_memcpy_at by lia;
    zcases; simpl; try lia; try done; f_equal; lia.
Qed.

(** Writing [n] bytes and dropping the [d] oldest ones. *)
Lemma contents_advance rb rb' ptr n d :
  rb_wf rb -> rb_wf rb' -> buffer_size rb' = buffer_size rb ->
  written (buffer_size rb) (write_index rb) (buffer_ptr rb) (buffer_ptr rb') ptr n ->
  0 <= n <= zlen ptr -> n <= buffer_size rb -> 0 <= d <= buffer_size rb ->
  read_index rb' = wrap rb (read_index rb + d) ->
  occupied rb' = occupied rb + n - d ->
  contents rb' = zdrop d (contents rb ++ ztake n ptr).
Proof.
  intros Hwf Hwf' Hsz [_ Hw] Hn Hns Hd Hri Hocc.
  pose proof (occupied_bounds rb Hwf). pose proof (occupied_bounds rb' Hwf').
  assert (write_index rb = wrap rb (read_index rb + occupied rb)) as Hwi.
  { destruct Hwf. unfold wrap, occupied. zcases; lia. }
  pose proof (wf_ri rb Hwf). pose proof (wf_wi rb Hwf).
  apply contents_eq; [done| |].
  - rewrite zlen_zdrop; rewrite zlen_app, zlen_contents, zlen_ztake by (try done; lia); lia.
  - intros i Hi. rewrite zget_zdrop, zget_app, zlen_contents by (try done; lia).
    rewrite Hri. unfold wrap at 1. rewrite Hsz. rewrite Hw by (unfold wrap; zcases; lia).
    assert (wrap rb (read_index rb + d) + i - buffer_size rb < buffer_size rb)
      by (unfold wrap; zcases; lia).
    clear Hw. destruct (Z.ltb_spec (d + i) (occupied rb)).
    + rewrite zget_contents by lia. unfold wdist, wrap in *.
      zcases; try lia; f_equal; lia.
    + rewrite zget_ztake by lia. unfold wdist, wrap in *.
      zcases; try lia; f_equal; lia.
Qed.

Lemma zdrop_0 {A} (l : list A) : zdrop 0 l = l.
Proof. done. Qed.

Lemma put_spec rb ptr n :
  rb_wf rb -> 0 <= n < 65536 -> n <= zlen ptr ->
  let m := Z.min n (buffer_size rb - occupied rb) in
  let r := rt_ringbuffer_put rb ptr n in
  rb_wf (r.1) /\ r.2 = m /\ contents (r.1) = contents rb ++ ztake m ptr /\
  buffer_size (r.1) = buffer_size rb.
Proof.
  intros Hwf Hn Hp. unfold rt_ringbuffer_put. cbv zeta.
  pose proof (occupied_bounds rb Hwf) as Hocc.
  pose proof Hwf as [].
  rewrite space_len_occupied, u16_small by (try done; lia).
  destruct (Z.eqb_spec (buffer_size rb - occupied rb) 0) as [Hfull|Hspace].
  { rewrite Hfull, Z.min_r by lia. rb_fields. split_and!; try done.
    by rewrite app_nil_r. }
  set (m := Z.min n (buffer_size rb - occupied rb)).
  replace (if buffer_size rb - occupied rb <? n then _ else n) with m
    by (subst m; zcases; lia).
  assert (0 <= m <= buffer_size rb - occupied rb /\ m <= zlen ptr) as [Hm Hmp] by lia.
  clearbody m. rewrite <- (zdrop_0 (contents rb ++ _)).
  destruct (Z.gtb_spec (buffer_size rb - write_index rb) m).
  - match goal with |- rb_wf (fst (?r, _)) /\ _ => assert (rb_wf r) as Hwf' end.
    { unfold occupied in *. constructor; rb_stores; rewrite ?zlen_memcpy_at by lia; zcases; lia. }
    split_and!; try done. apply contents_advance; try done; rb_stores; try lia.
    + apply written_straight; lia.
    + unfold wrap. zcases; lia.
    + unfold occupied. rb_stores. zcases; lia.
  - match goal with |- rb_wf (fst (?r, _)) /\ _ => assert (rb_wf r) as Hwf' end.
    { pose proof (written_split (buffer_size rb) (write_index rb) (buffer_ptr rb) ptr m) as [Hz _];
        try lia; try (unfold occupied in *; zcases; lia).
      unfold occupied in *. constructor; rb_stores; rewrite ?Hz; zcases; lia. }
    split_and!; try done. apply contents_advance; try done; rb_stores; try lia.
    + apply written_split; unfold occupied in *; zcases; lia.
    + unfold wrap. zcases; lia.
    + unfold occupied in *. rb_stores. zcases; lia.
Qed.

(** One branch of a put: the new structure is well formed, and the queue is
    the old one advanced by what [Hw] says was written. *)
Ltac force_case Hw :=
  rb_fields;
  match goal with |- rb_wf ?r /\ _ =>
    let W := fresh "Hwf'" in
    assert (rb_wf r) as W;
    [ constructor; rb_stores;
      rewrite ?zlen_memcpy_at by (rewrite ?zlen_memcpy_at, ?zlen_zdrop by lia; lia);
      unfold occupied in *; zcases; lia
    | split; [exact W|]; split; [done|]; split; [|done];
      apply contents_advance; try assumption; rb_stores; try done; try lia; try Hw;
      unfold wrap, occupied in *; rb_stores; zcases; lia ]
  end.

Lemma put_force_spec rb ptr n :
  rb_wf rb -> 0 <= n < 65536 -> n <= zlen ptr ->
  let r := rt_ringbuffer_put_force rb ptr n in
  let all := contents rb ++ ztake n ptr in
  rb_wf (r.1) /\ r.2 = Z.min n (buffer_size rb) /\
  contents (r.1) = zdrop (Z.max 0 (zlen all - buffer_size rb)) all /\
  buffer_size (r.1) = buffer_size rb.
Proof.
  intros Hwf Hn Hp. cbv zeta.
  pose proof (occupied_bounds rb Hwf) as Hocc. pose proof Hwf as [].
  set (p := if n >? buffer_size rb then zdrop (n - buffer_size rb) ptr else ptr).
  set (m := Z.min n (buffer_size rb)).
  assert (0 <= m <= buffer_size rb /\ m <= zlen p) as [Hm Hmp].
  { subst m p. zcases; rewrite ?zlen_zdrop by lia; lia. }
  set (d := Z.max 0 (occupied rb + m - buffer_size rb)).
  assert (zdrop (Z.max 0 (zlen (contents rb ++ ztake n ptr) - buffer_size rb))
            (contents rb ++ ztake n ptr) = zdrop d (contents rb ++ ztake m p)) as Heq.
  { assert (zlen (contents rb ++ ztake n ptr) = occupied rb + n) as Hl1
      by (rewrite zlen_app, zlen_contents, zlen_ztake by (try done; lia); lia).
    assert (zlen (contents rb ++ ztake m p) = occupied rb + m) as Hl2
      by (rewrite zlen_app, zlen_contents, zlen_ztake by (try done; lia); lia).
    apply zlist_eq; [rewrite !zlen_zdrop, ?Hl1, ?Hl2 by lia; lia|].
    intros i Hi. rewrite zlen_zdrop in Hi by lia.
    rewrite !zget_zdrop, !zget_app, !zlen_contents by (try done; lia).
    rewrite Hl1 in *. subst d p m.
    zcases; try lia; rewrite ?Z.min_l, ?Z.min_r, ?Z.max_r, ?Z.max_l in * by lia;
      rewrite ?zget_ztake, ?zget_zdrop by lia; try (f_equal; lia); lia. }
  rewrite Heq. unfold rt_ringbuffer_put_force. cbv zeta.
  rewrite space_len_occupied, (u16_small (buffer_size rb - occupied rb)) by (try done; lia).
  replace (if n >? buffer_size rb then _ else _) with (p, m)
    by (subst p m; zcases; rewrite ?u16_small by lia; f_equal; lia).
  clearbody m p. clear Heq.
  destruct (Z.gtb_spec (buffer_size rb - write_index rb) m),
    (Z.gtb_spec m (buffer_size rb - occupied rb)).
  - force_case ltac:(apply written_straight; lia).
  - force_case ltac:(apply written_straight; lia).
  - rb_fields. rewrite (u15_small (m - _)) by lia.
    destruct (Z.leb_spec (m - (buffer_size rb - write_index rb)) (read_index rb));
      force_case ltac:(apply written_split; lia).
  - force_case ltac:(apply written_split; lia).
Qed.

(** Bytes of the pool that do not wrap are a slice of the queue. *)
Lemma slice_contents rb n :
  rb_wf rb -> 0 <= n <= occupied rb ->
  let first := Z.min n (buffer_size rb - read_index rb) in
  ztake first (zdrop (read_index rb) (buffer_ptr rb)) ++
  ztake (n - first) (buffer_ptr rb) = ztake n (contents rb).
Proof.
  intros Hwf Hn first. pose proof (occupied_bounds rb Hwf). pose proof Hwf as [].
  assert (zlen (zdrop (read_index rb) (buffer_ptr rb)) =
          zlen (buffer_ptr rb) - read_index rb) by (apply zlen_zdrop; lia).
  apply zlist_eq; rewrite zlen_app, !zlen_ztake by (rewrite ?zlen_contents by done; lia);
    [lia|].
  intros i Hi. rewrite zget_app, zlen_ztake by lia.
  rewrite (zget_ztake n), zget_contents by lia. unfold wrap. subst first.
  zcases; rewrite ?zget_ztake, ?zget_zdrop by lia; try lia; f_equal; lia.
Qed.

(** Consuming the [d] oldest bytes. *)
Lemma contents_consume rb rb' d :
  rb_wf rb -> rb_wf rb' -> buffer_size rb' = buffer_size rb ->
  buffer_ptr rb' = buffer_ptr rb -> 0 <= d <= occupied rb ->
  read_index rb' = wrap rb (read_index rb + d) ->
  occupied rb' = occupied rb - d ->
  contents rb' = zdrop d (contents rb).
Proof.
  intros Hwf Hwf' Hsz Hb Hd Hri Hocc.
  rewrite (contents_advance rb rb' [] 0 d); try done.
  - by rewrite app_nil_r.
  - rewrite Hb. split; [done|]. intros k Hk. unfold wdist. pose proof (wf_wi rb Hwf).
    zcases; lia || done.
  - destruct Hwf. lia.
  - pose proof (occupied_bounds rb Hwf). lia.
  - lia.
Qed.

Lemma get_spec rb n :
  rb_wf rb -> 0 <= n < 65536 ->
  let m := Z.min n (occupied rb) in
  let r := rt_ringbuffer_get rb n in
  rb_wf (r.1.1) /\ r.1.2 = ztake m (contents rb) /\ r.2 = m /\
  contents (r.1.1) = zdrop m (contents rb) /\ buffer_size (r.1.1) = buffer_size rb.
Proof.
  intros Hwf Hn. unfold rt_ringbuffer_get. cbv zeta.
  pose proof (occupied_bounds rb Hwf) as Hocc. pose proof Hwf as [].
  rewrite data_len_occupied by done.
  destruct (Z.eqb_spec (occupied rb) 0) as [H0|H0].
  { rewrite H0, Z.min_r by lia. rb_fields. split_and!; try done. }
  replace (if occupied rb <? n then _ else _) with (Z.min n (occupied rb))
    by (zcases; rewrite ?u16_small by lia; lia).
  set (m := Z.min n (occupied rb)). assert (0 <= m <= occupied rb) as Hm by lia.
  clearbody m. pose proof (slice_contents rb m Hwf Hm) as Hs. cbv zeta in Hs.
  destruct (Z.gtb_spec (buffer_size rb - read_index rb) m); rb_fields.
  - rewrite Z.min_l, Z.sub_diag in Hs by lia. unfold ztake at 2 in Hs.
    rewrite app_nil_r in Hs. rewrite Hs.
    match goal with |- rb_wf ?r /\ _ => assert (rb_wf r) as Hwf' end.
    { unfold occupied in *. constructor; rb_stores; zcases; lia. }
    split_and!; try done. apply contents_consume; try done; rb_stores;
      unfold wrap, occupied in *; rb_stores; zcases; lia.
  - rewrite Z.min_r in Hs by lia. rewrite Hs.
    match goal with |- rb_wf ?r /\ _ => assert (rb_wf r) as Hwf' end.
    { unfold occupied in *. constructor; rb_stores; zcases; lia. }
    split_and!; try done. apply contents_consume; try done; rb_stores;
      unfold wrap, occupied in *; rb_stores; zcases; lia.
Qed.

(** [peek] hands out the longest run that does not wrap, and consumes it. *)
Lemma peek_spec rb :
  rb_wf rb ->
  let r := rt_ringbuffer_peek rb in
  let m := Z.min (occupied rb) (buffer_size rb - read_index rb) in
  rb_wf (r.1.1) /\ r.2 = m /\ (r.1.2 = None <-> occupied rb = 0) /\
  (forall off, r.1.2 = Some off ->
     off + m <= buffer_size rb /\
     ztake m (zdrop off (buffer_ptr rb)) = ztake m (contents rb)) /\
  contents (r.1.1) = zdrop m (contents rb).
Proof.
  intros Hwf. unfold rt_ringbuffer_peek. cbv zeta.
  pose proof (occupied_bounds rb Hwf) as Hocc. pose proof Hwf as [].
  rewrite data_len_occupied by done.
  destruct (Z.eqb_spec (occupied rb) 0) as [H0|H0].
  { rewrite H0, Z.min_l by lia. rb_fields. split_and!; try done. }
  rewrite u64_small by lia.
  set (m := Z.min (occupied rb) (buffer_size rb - read_index rb)).
  assert (ztake m (zdrop (read_index rb) (buffer_ptr rb)) = ztake m (contents rb)) as Hs.
  { rewrite <- (slice_contents rb m Hwf) by lia. cbv zeta.
    rewrite (Z.min_l m), Z.sub_diag by lia. by rewrite app_nil_r. }
  destruct (Z.gtb_spec (buffer_size rb - read_index rb) (occupied rb)); rb_fields;
    match goal with |- rb_wf ?r /\ _ => assert (rb_wf r) as Hwf' end.
  1, 3: unfold occupied in *; constructor; rb_stores; zcases; lia.
  all: split_and!; try done; try (subst m; lia).
  1, 3: intros off [= <-]; split; [subst m; lia|done].
  all: apply contents_consume; try done; rb_stores; subst m;
      unfold wrap, occupied in *; rb_stores; zcases; lia.
Qed.

Lemma written_zset size wi buf c :
  0 <= wi < size -> size <= zlen buf -> written size wi buf (zset buf wi c) [c] 1.
Proof.
  intros. split; [apply zlen_zset|]. intros k Hk. rewrite zget_zset by lia.
  unfold wdist. zcases; try lia; subst; rewrite ?Z.sub_diag; done.
Qed.

Lemma putchar_spec rb ch :
  rb_wf rb ->
  let r := rt_ringbuffer_putchar rb ch in
  rb_wf (r.1) /\ buffer_size (r.1) = buffer_size rb /\
  if occupied rb =? buffer_size rb then r.1 = rb /\ r.2 = 0
  else contents (r.1) = contents rb ++ [ch] /\ r.2 = 1.
Proof.
  intros Hwf. unfold rt_ringbuffer_putchar. cbv zeta.
  pose proof (occupied_bounds rb Hwf) as Hocc. pose proof Hwf as [].
  rewrite space_len_occupied by done. rb_fields.
  destruct (Z.eqb_spec (occupied rb) (buffer_size rb)),
    (Z.eqb_spec (buffer_size rb - occupied rb) 0); try lia; [done|].
  change [ch] with (ztake 1 [ch]). rewrite <- (zdrop_0 (contents rb ++ _)).
  destruct (Z.eqb_spec (write_index rb) (buffer_size rb - 1)); rb_fields;
    match goal with |- rb_wf ?r /\ _ => assert (rb_wf r) as Hwf' end.
  1, 3: unfold occupied in *; constructor; rb_stores; rewrite ?zlen_zset; 
    change (u15 0) with 0; zcases; lia.
  all: split_and!; try done; apply contents_advance; try assumption; rb_stores; try done;
    try (by apply written_zset); try (unfold zlen; simpl; lia);
    unfold wrap, occupied in *; rb_stores; zcases; lia.
Qed.

Lemma putchar_force_spec rb ch :
  rb_wf rb ->
  let r := rt_ringbuffer_putchar_force rb ch in
  let d := if occupied rb =? buffer_size rb then 1 else 0 in
  rb_wf (r.1) /\ buffer_size (r.1) = buffer_size rb /\ r.2 = 1 /\
  contents (r.1) = zdrop d (contents rb ++ [ch]).
Proof.
  intros Hwf. unfold rt_ringbuffer_putchar_force. cbv zeta.
  pose proof (occupied_bounds rb Hwf) as Hocc. pose proof Hwf as [].
  change [ch] with (ztake 1 [ch]).
  assert (rt_ringbuffer_status rb = RT_RINGBUFFER_FULL <-> occupied rb = buffer_size rb) as Hst.
  { unfold rt_ringbuffer_status, occupied. zcases; split; intros; try done; lia. }
  rb_fields. destruct (Z.eqb_spec (write_index rb) (buffer_size rb - 1)),
    (Z.eqb_spec (occupied rb) (buffer_size rb)); case_decide; try (exfalso; tauto); rb_fields;
    match goal with |- rb_wf ?r /\ _ => assert (rb_wf r) as Hwf' end.
  1, 3, 5, 7: unfold occupied in *; constructor; rb_stores; rewrite ?zlen_zset; 
    change (u15 (u15 0)) with 0; change (u15 0) with 0; rewrite ?u15_small by lia; zcases; lia.
  all: split_and!; try done; apply contents_advance; try assumption; rb_stores; try done;
    try (by apply written_zset); try (unfold zlen; simpl; lia);
    unfold wrap, occupied in *; rb_stores; zcases; lia.
Qed.

Lemma getchar_spec rb :
  rb_wf rb ->
  let r := rt_ringbuffer_getchar rb in
  rb_wf (r.1.1) /\ buffer_size (r.1.1) = buffer_size rb /\
  match contents rb with
  | [] => r.1.1 = rb /\ r.1.2 = None /\ r.2 = 0
  | c :: l => contents (r.1.1) = l /\ r.1.2 = Some c /\ r.2 = 1
  end.
Proof.
  intros Hwf. unfold rt_ringbuffer_getchar. cbv zeta.
  pose proof (occupied_bounds rb Hwf) as Hocc. pose proof Hwf as [].
  rewrite data_len_occupied by done.
  pose proof (zlen_contents rb Hwf) as Hl.
  destruct (Z.eqb_spec (occupied rb) 0) as [H0|H0].
  { destruct (contents rb); [done|]. unfold zlen in Hl. simpl in Hl. lia. }
  destruct (contents rb) as [|c l] eqn:Hc; [unfold zlen in Hl; simpl in Hl; lia|].
  assert (c = zget (buffer_ptr rb) (read_index rb)) as ->.
  { change c with (zget (c :: l) 0). rewrite <- Hc, zget_contents by lia.
    unfold wrap. zcases; f_equal; lia. }
  assert (l = zdrop 1 (contents rb)) as -> by (by rewrite Hc). clear Hc Hl.
  destruct (Z.eqb_spec (read_index rb) (buffer_size rb - 1)); rb_fields;
    match goal with |- rb_wf ?r /\ _ => assert (rb_wf r) as Hwf' end.
  1, 3: unfold occupied in *; constructor; rb_stores; 
    change (u15 0) with 0; zcases; lia.
  all: split_and!; try done; apply contents_consume; try done; rb_stores;
     unfold wrap, occupied in *; rb_stores; zcases; lia.
Qed.

(** ** Refinement: the ring buffer implements a bounded byte queue *)

Inductive rb_op :=
| OpPut (bytes : list Z)
| OpPutForce (bytes : list Z)
| OpPutchar (ch : Z)
| OpPutcharForce (ch : Z)
| OpGet (n : Z)
| OpGetchar
| OpReset.

(** A call the C prototypes allow: a count fits [rt_uint16_t]. *)
Definition op_ok (o : rb_op) : Prop :=
  match o with
  | OpPut l | OpPutForce l => zlen l < 65536
  | OpGet n => 0 <= n < 65536
  | _ => True
  end.

(** One call: the new state, the bytes handed out and the returned count. *)
Definition rb_step (rb : ringbuffer) (o : rb_op) : ringbuffer * (list Z * Z) :=
  match o with
  | OpPut l => let '(rb', n) := rt_ringbuffer_put rb l (zlen l) in (rb', ([], n))
  | OpPutForce l => let '(rb', n) := rt_ringbuffer_put_force rb l (zlen l) in (rb', ([], n))
  | OpPutchar c => let '(rb', n) := rt_ringbuffer_putchar rb c in (rb', ([], n))
  | OpPutcharForce c => let '(rb', n) := rt_ringbuffer_putchar_force rb c in (rb', ([], n))
  | OpGet n => let '(rb', l, n) := rt_ringbuffer_get rb n in (rb', (l, n))
  | OpGetchar =>
      let '(rb', c, n) := rt_ringbuffer_getchar rb in
      (rb', (match c with Some c => [c] | None => [] end, n))
  | OpReset => (rt_ringbuffer_reset rb, ([], 0))
  end.

(** The specification: a list of at most [cap] bytes. *)
Definition queue_step (cap : Z) (q : list Z) (o : rb_op) : list Z * (list Z * Z) :=
  match o with
  | OpPut l => let n := Z.min (zlen l) (cap - zlen q) in (q ++ ztake n l, ([], n))
  | OpPutForce l =>
      (zdrop (Z.max 0 (zlen (q ++ l) - cap)) (q ++ l), ([], Z.min (zlen l) cap))
  | OpPutchar c => if zlen q =? cap then (q, ([], 0)) else (q ++ [c], ([], 1))
  | OpPutcharForce c => (zdrop (if zlen q =? cap then 1 else 0) (q ++ [c]), ([], 1))
  | OpGet n => let m := Z.min n (zlen q) in (zdrop m q, (ztake m q, m))
  | OpGetchar => match q with [] => ([], ([], 0)) | c :: q' => (q', ([c], 1)) end
  | OpReset => ([], ([], 0))
  end.

Fixpoint run {S : Type} (step : S -> rb_op -> S * (list Z * Z)) (s : S) (ops : list rb_op)
    : S * list (list Z * Z) :=
  match ops with
  | [] => (s, [])
  | o :: ops => let '(s', out) := step s o in
                let '(s'', outs) := run step s' ops in (s'', out :: outs)
  end.

Lemma ztake_all {A} (l : list A) : ztake (zlen l) l = l.
Proof. unfold ztake, zlen. rewrite Nat2Z.id. by apply take_ge. Qed.

Lemma step_refines rb o :
  rb_wf rb -> op_ok o ->
  let r := rb_step rb o in
  rb_wf (r.1) /\ buffer_size (r.1) = buffer_size rb /\
  queue_step (buffer_size rb) (contents rb) o = (contents (r.1), r.2).
Proof.
  intros Hwf Hok. pose proof (zlen_contents rb Hwf) as Hl.
  destruct o as [l|l|c|c|n| |]; simpl in Hok; unfold rb_step, queue_step; rewrite ?Hl.
  - pose proof (put_spec rb l (zlen l) Hwf) as (? & Hr & Hc & ?); [pose proof (zlen_nonneg l); lia|lia|].
    destruct (rt_ringbuffer_put rb l (zlen l)) as [rb' k]. simpl in *. by rewrite Hc, Hr.
  - pose proof (put_force_spec rb l (zlen l) Hwf) as (? & Hr & Hc & ?); [pose proof (zlen_nonneg l); lia|lia|].
    destruct (rt_ringbuffer_put_force rb l (zlen l)) as [rb' k]. simpl in *.
    rewrite ztake_all in Hc. by rewrite Hc, Hr.
  - pose proof (putchar_spec rb c Hwf) as (? & ? & Hr).
    destruct (rt_ringbuffer_putchar rb c) as [rb' k]. simpl in *.
    destruct (occupied rb =? buffer_size rb); destruct Hr as [Hr ->]; by rewrite Hr.
  - pose proof (putchar_force_spec rb c Hwf) as (? & ? & Hr & Hc).
    destruct (rt_ringbuffer_putchar_force rb c) as [rb' k]. simpl in *. by rewrite Hc, Hr.
  - pose proof (get_spec rb n Hwf Hok) as (? & Ho & Hr & Hc & ?).
    destruct (rt_ringbuffer_get rb n) as [[rb' out] k]. simpl in *. by rewrite Ho, Hc, Hr.
  - pose proof (getchar_spec rb Hwf) as (? & ? & Hr).
    destruct (rt_ringbuffer_getchar rb) as [[rb' out] k]. simpl in *.
    destruct (contents rb) as [|c q] eqn:Hq; destruct Hr as (Hr & -> & ->);
      [by rewrite Hr, Hq | by rewrite Hr].
  - split_and!; [by apply reset_wf|done|done].
Qed.

(** C15: for every sequence of [put], [put_force], [putchar], [putchar_force],
    [get], [getchar] and [reset] calls, a well-formed ring buffer hands out
    exactly the bytes and counts of a FIFO byte queue bounded by its size (the
    forced variants dropping the oldest bytes), ends with the queue's
    contents, and stays well formed. *)
Theorem ringbuffer_refines_queue rb ops :
  rb_wf rb -> Forall op_ok ops ->
  let r := run rb_step rb ops in
  run (queue_step (buffer_size rb)) (contents rb) ops = (contents (r.1), r.2) /\ rb_wf (r.1).
Proof.
  intros Hwf Hops. revert rb Hwf. induction Hops as [|o ops Ho Hops IH]; intros rb Hwf; [done|].
  pose proof (step_refines rb o Hwf Ho) as (Hwf' & Hsz & Hq). cbn [run].
  destruct (rb_step rb o) as [rb' out]. simpl in Hwf', Hsz, Hq. rewrite Hq.
  specialize (IH rb' Hwf'). rewrite Hsz in IH.
  destruct (run rb_step rb' ops) as [rb'' outs]. simpl in *. by destruct IH as [-> ?].
Qed.

Definition sample : ringbuffer := Ringbuffer [10; 11; 12; 13; 14; 15; 16; 17] 0 6 1 2 8.

Lemma sample_wf : rb_wf sample.
Proof. constructor; simpl; unfold zlen; simpl; lia. Qed.

Lemma ringbuffer_refines_queue_witness :
  run (queue_step 8) [16; 17; 10; 11] [OpPut [1; 2; 3; 4; 5]; OpPutcharForce 6; OpGet 3]
  = ([1; 2; 3; 4; 6], [([], 4); ([], 1); ([17; 10; 11], 3)]) /\
  rb_wf (fst (run rb_step sample [OpPut [1; 2; 3; 4; 5]; OpPutcharForce 6; OpGet 3])).
Proof.
  apply (ringbuffer_refines_queue sample [OpPut [1; 2; 3; 4; 5]; OpPutcharForce 6; OpGet 3]).
  - exact sample_wf.
  - repeat constructor; simpl; unfold zlen; simpl; lia.
Defined.

(** the consuming operations: [rt_ringbuffer_peek] returns a null pointer
    exactly when the buffer is empty; otherwise it designates, inside the
    pool, the longest prefix of the queue that does not wrap, returns its
    length and removes it. *)
Theorem ringbuffer_peek_prefix rb :
  rb_wf rb ->
  let r := rt_ringbuffer_peek rb in
  rb_wf (r.1.1) /\
  (r.1.2 = None <-> contents rb = []) /\
  (forall off, r.1.2 = Some off ->
     0 < r.2 /\ off + r.2 <= buffer_size rb /\
     contents rb = ztake (r.2) (zdrop off (buffer_ptr rb)) ++ contents (r.1.1)).
Proof.
  intros Hwf r. destruct (peek_spec rb Hwf) as (Hwf' & Hr & Hn & Hs & Hc).
  fold r in Hwf', Hr, Hn, Hs, Hc. pose proof (zlen_contents rb Hwf) as Hl.
  split; [done|]. split.
  - rewrite Hn. split; intros H; [|by rewrite H in Hl].
    destruct (contents rb); [done|]. unfold zlen in Hl. simpl in Hl. lia.
  - intros off Hoff. destruct (Hs off Hoff) as [Hb Heq].
    pose proof (wf_ri rb Hwf). pose proof (occupied_bounds rb Hwf).
    assert (occupied rb <> 0) by (rewrite <- Hn, Hoff; done).
    rewrite Hr, Hc, Heq. split_and!; [lia|done|].
    unfold ztake, zdrop. by rewrite take_drop.
Qed.

Lemma ringbuffer_peek_prefix_witness :
  0 < snd (rt_ringbuffer_peek sample) /\ 6 + snd (rt_ringbuffer_peek sample) <= 8 /\
  contents sample = [16; 17] ++ contents (fst (fst (rt_ringbuffer_peek sample))).
Proof.
  exact (proj2 (proj2 (ringbuffer_peek_prefix sample sample_wf)) 6 eq_refl).
Defined.
