(* ===== verification/Kernel.v ===== *)
(** * Kernel data

    The structures of [rtdef.h] as records, the kernel's global variables as
    the record [kstate], and the monad in which the kernel functions are
    written: a state transformer that is undefined ([None]) where the C code
    fails an [RT_ASSERT] or follows a pointer to an object that is not there.

    The intrusive lists: every [tlist] node is the node of a thread and every
    timer [row] the node of a timer, so a list is the list of the threads
    (timers) on it, and [k_tq] ([k_tmq]) maps each list head to it.
    RtList.v shows that the pointer operations of [rtservice.h] implement
    these list operations. *)
From S2P Require Import Prelude.

(** ** Constants of rtdef.h and rtconfig.h *)

Definition RT_NAME_MAX : nat := 8%nat.
Definition RT_THREAD_PRIORITY_MAX : Z := 32.
Definition RT_TICK_MAX : Z := 0xffffffff.

Definition RT_EOK : Z := 0.
Definition RT_ERROR : Z := 1.
Definition RT_ETIMEOUT : Z := 2.
Definition RT_EFULL : Z := 3.
Definition RT_ENOMEM : Z := 5.
Definition RT_EINVAL : Z := 10.

Definition RT_THREAD_INIT : Z := 0.
Definition RT_THREAD_READY : Z := 1.
Definition RT_THREAD_SUSPEND : Z := 2.
Definition RT_THREAD_RUNNING : Z := 3.
Definition RT_THREAD_CLOSE : Z := 4.
Definition RT_THREAD_STAT_MASK : Z := 7.
Definition RT_THREAD_STAT_YIELD : Z := 8.
Definition RT_THREAD_STAT_YIELD_MASK : Z := RT_THREAD_STAT_YIELD.

Definition RT_TIMER_FLAG_ACTIVATED : Z := 1.
Definition RT_TIMER_FLAG_PERIODIC : Z := 2.
Definition RT_TIMER_FLAG_SOFT_TIMER : Z := 4.
Definition RT_SOFT_TIMER_IDLE : Z := 1.
Definition RT_SOFT_TIMER_BUSY : Z := 0.

Definition RT_IPC_FLAG_FIFO : Z := 0.
Definition RT_IPC_FLAG_PRIO : Z := 1.
Definition RT_IPC_CMD_RESET : Z := 1.

Definition RT_Object_Class_Null : Z := 0.
Definition RT_Object_Class_Thread : Z := 1.
Definition RT_Object_Class_Semaphore : Z := 2.
Definition RT_Object_Class_Mutex : Z := 3.
Definition RT_Object_Class_Event : Z := 4.
Definition RT_Object_Class_MailBox : Z := 5.
Definition RT_Object_Class_MessageQueue : Z := 6.
Definition RT_Object_Class_MemPool : Z := 8.
Definition RT_Object_Class_Timer : Z := 10.
Definition RT_Object_Class_Memory : Z := 12.
Definition RT_Object_Class_Static : Z := 0x80.

(** ** Control blocks *)

(** A timer is the built-in timer of a thread, or a timer of the
    application; its identity stands for its address. *)
Inductive tmid := TmThread (t : nat) | TmUser (n : nat).

(** The address of a kernel object. *)
Inductive oid :=
| OThread (t : nat) | OSem (s : nat) | OMutex (m : nat) | OEvent (e : nat)
| OMailBox (b : nat) | OMessageQueue (q : nat) | OMemPool (p : nat) | OTimer (m : tmid)
| ODevice (d : nat).

(** The list heads a thread's [tlist] can be linked to. *)
Inductive waitq :=
| QReady (p : Z)         (* rt_thread_priority_table[p] *)
| QDefunct               (* _rt_thread_defunct *)
| QSem (s : nat)         (* sem->parent.suspend_thread *)
| QMutex (m : nat)
| QEvent (e : nat)
| QMbRecv (b : nat)      (* mb->parent.suspend_thread *)
| QMbSend (b : nat)      (* mb->suspend_sender_thread *)
| QMqRecv (q : nat)
| QMqSend (q : nat)
| QMp (p : nat)
| QCompletion (c : nat)  (* completion->suspended_list *)
| QDqPush (q : nat)      (* queue->suspended_push_list *)
| QDqPop (q : nat).

(** A node of a wait queue: the local variable of [rt_wqueue_wait] in a thread,
    or one of the application. *)
Inductive wqnode := WaitNode (t : nat) | UserNode (n : nat).

(** The list heads a work item's [list] can be linked to: [work_list] and
    [delayed_list] of a work queue. *)
Inductive wklist := WLWork (q : nat) | WLDelayed (q : nat).

(** The list heads a timer's [row] can be linked to; the last two are the
    local lists of [rt_timer_check] and [rt_soft_timer_check]. *)
Inductive tmlist := TLHard | TLSoft | TLHardLocal | TLSoftLocal.

#[export] Instance tmid_eq_dec : EqDecision tmid.
Proof. solve_decision. Defined.
#[export] Instance oid_eq_dec : EqDecision oid.
Proof. solve_decision. Defined.
#[export] Instance waitq_eq_dec : EqDecision waitq.
Proof. solve_decision. Defined.
#[export] Instance tmlist_eq_dec : EqDecision tmlist.
Proof. solve_decision. Defined.

#[export] Instance wqnode_eq_dec : EqDecision wqnode.
Proof. solve_decision. Defined.
#[export] Instance wklist_eq_dec : EqDecision wklist.
Proof. solve_decision. Defined.

#[export] Instance wqnode_countable : Countable wqnode.
Proof.
  refine (inj_countable' (fun m => match m with WaitNode t => inl t | UserNode n => inr n end)
    (fun x => match x with inl t => WaitNode t | inr n => UserNode n end) _).
  by intros [].
Defined.
#[export] Instance wklist_countable : Countable wklist.
Proof.
  refine (inj_countable' (fun m => match m with WLWork q => inl q | WLDelayed q => inr q end)
    (fun x => match x with inl q => WLWork q | inr q => WLDelayed q end) _).
  by intros [].
Defined.

#[export] Instance tmid_countable : Countable tmid.
Proof.
  refine (inj_countable' (fun m => match m with TmThread t => inl t | TmUser n => inr n end)
    (fun x => match x with inl t => TmThread t | inr n => TmUser n end) _).
  by intros [].
Defined.

#[export] Instance waitq_countable : Countable waitq.
Proof.
  refine (inj_countable'
    (fun q => match q with
      | QReady p => (0%nat, p) | QDefunct => (1%nat, 0)
      | QSem s => (2%nat, Z.of_nat s) | QMutex m => (3%nat, Z.of_nat m)
      | QEvent e => (4%nat, Z.of_nat e) | QMbRecv b => (5%nat, Z.of_nat b)
      | QMbSend b => (6%nat, Z.of_nat b) | QMqRecv b => (7%nat, Z.of_nat b)
      | QMqSend b => (8%nat, Z.of_nat b) | QMp b => (9%nat, Z.of_nat b)
      | QCompletion b => (10%nat, Z.of_nat b) | QDqPush b => (11%nat, Z.of_nat b)
      | QDqPop b => (12%nat, Z.of_nat b) end)
    (fun x => match x with
      | (0%nat, p) => QReady p | (1%nat, _) => QDefunct
      | (2%nat, s) => QSem (Z.to_nat s) | (3%nat, m) => QMutex (Z.to_nat m)
      | (4%nat, e) => QEvent (Z.to_nat e) | (5%nat, b) => QMbRecv (Z.to_nat b)
      | (6%nat, b) => QMbSend (Z.to_nat b) | (7%nat, b) => QMqRecv (Z.to_nat b)
      | (8%nat, b) => QMqSend (Z.to_nat b) | (9%nat, b) => QMp (Z.to_nat b)
      | (10%nat, b) => QCompletion (Z.to_nat b) | (11%nat, b) => QDqPush (Z.to_nat b)
      | (_, b) => QDqPop (Z.to_nat b) end) _).
  intros []; rewrite ?Nat2Z.id; done.
Defined.

#[export] Instance tmlist_countable : Countable tmlist.
Proof.
  refine (inj_countable'
    (fun l => match l with TLHard => 0 | TLSoft => 1 | TLHardLocal => 2 | TLSoftLocal => 3 end%nat)
    (fun n => match n with 0 => TLHard | 1 => TLSoft | 2 => TLHardLocal | _ => TLSoftLocal end%nat) _).
  by intros [].
Defined.

(** [struct rt_object], without its list node (see [k_objlist]). *)
Record rt_object := RtObject {
  o_name : list Z;
  o_type : Z;       (* class, with RT_Object_Class_Static *)
  o_flag : Z
}.

(** [struct rt_timer]: the callback and its parameter are determined by the
    timer's identity. *)
Record rt_timer := RtTimer {
  tm_parent : rt_object;
  tm_init_tick : Z;
  tm_timeout_tick : Z
}.

(** [struct rt_thread]: the fields the kernel's logic reads. The stack, the
    entry point and its parameter belong to the context switch. *)
Record rt_thread := RtThread {
  th_object : rt_object;
  th_error : Z;
  th_stat : Z;
  th_current_priority : Z;
  th_number_mask : Z;
  th_event_set : Z;
  th_event_info : Z;
  th_init_tick : Z;
  th_remaining_tick : Z
}.

Record rt_semaphore := RtSemaphore { sem_parent : rt_object; sem_value : Z }.

Record rt_mutex := RtMutex {
  mx_parent : rt_object;
  mx_value : Z;
  mx_original_priority : Z;
  mx_hold : Z;
  mx_owner : option nat
}.

Record rt_event := RtEvent { ev_parent : rt_object; ev_set : Z }.

Record rt_mailbox := RtMailbox {
  mb_parent : rt_object;
  mb_msg_pool : list Z;
  mb_size : Z;
  mb_entry : Z;
  mb_in_offset : Z;
  mb_out_offset : Z
}.

(** A message node is the index of its slot in the pool; [mq_next] holds the
    [next] pointers and [mq_data] the bytes after each header. *)
Record rt_messagequeue := RtMessageQueue {
  mq_parent : rt_object;
  mq_msg_size : Z;
  mq_max_msgs : Z;
  mq_entry : Z;
  mq_next : gmap nat (option nat);
  mq_data : gmap nat (list Z);
  mq_head : option nat;
  mq_tail : option nat;
  mq_free : option nat
}.

(** The header word of a pool block: a link of the free list, or the pool. *)
Inductive mp_header := MpNext (b : option nat) | MpPool.

Record rt_mempool := RtMempool {
  mp_parent : rt_object;
  mp_size : Z;
  mp_block_size : Z;
  mp_block_total_count : Z;
  mp_block_free_count : Z;
  mp_header_of : gmap nat mp_header;
  mp_block_list : option nat
}.

(** [struct rt_completion] without its list. *)
Record rt_completion := RtCompletion { cp_flag : Z }.

(** [struct rt_data_item], and [struct rt_data_queue] without its lists. The
    indices are bit fields of 15 bits; [dq_notify] says whether [evt_notify]
    is a function. *)
Record rt_data_item := RtDataItem { data_ptr : Z; data_size : Z }.
Record rt_data_queue := RtDataQueue {
  dq_magic : Z;
  dq_size : Z;
  dq_lwm : Z;
  dq_get_index : Z;
  dq_is_empty : bool;
  dq_put_index : Z;
  dq_is_full : bool;
  dq_queue : option (list rt_data_item);
  dq_notify : bool
}.

(** [struct rt_device]: the driver's operations and the two call-backs, which are
    identified by a number, are parameters of the functions that call them. *)
Record rt_device := RtDevice {
  dev_parent : rt_object;
  dev_type : Z;
  dev_flag : Z;
  dev_open_flag : Z;
  dev_ref_count : Z;
  dev_rx_indicate : option nat;
  dev_tx_complete : option nat
}.

(** [struct rt_wqueue] and [struct rt_wqueue_node] without their lists. *)
Record rt_wqueue := RtWqueue { wq_flag : Z }.
Record rt_wqueue_node := RtWqueueNode { wn_polling_thread : nat; wn_key : Z }.

(** [struct rt_work] and [struct rt_workqueue] without their lists; the timer of
    work item [w] is [TmUser w]. *)
Record rt_work := RtWork { wk_flags : Z; wk_type : Z; wk_workqueue : option nat }.
Record rt_workqueue := RtWorkqueue {
  wkq_work_current : option nat;
  wkq_sem : nat;
  wkq_work_thread : nat
}.

(** ** The kernel's global state *)

Record kstate := KState {
  k_threads : gmap nat rt_thread;         (* the thread control blocks *)
  k_timers : gmap tmid rt_timer;          (* the timer control blocks *)
  k_sems : gmap nat rt_semaphore;         (* semaphores *)
  k_mutexes : gmap nat rt_mutex;          (* mutexes *)
  k_events : gmap nat rt_event;           (* event sets *)
  k_mbs : gmap nat rt_mailbox;            (* mailboxes *)
  k_mqs : gmap nat rt_messagequeue;       (* message queues *)
  k_mps : gmap nat rt_mempool;            (* memory pools *)
  k_completions : gmap nat rt_completion; (* completions *)
  k_dqs : gmap nat rt_data_queue;         (* data queues *)
  k_devices : gmap nat rt_device;         (* devices *)
  k_wqueues : gmap nat rt_wqueue;         (* wait queues *)
  k_wqlists : gmap nat (list wqnode);     (* their waiting_list *)
  k_wqnodes : gmap wqnode rt_wqueue_node; (* the nodes of wait queues *)
  k_works : gmap nat rt_work;             (* work items *)
  k_workqueues : gmap nat rt_workqueue;   (* work queues *)
  k_wklists : gmap wklist (list nat);     (* the lists the work items are on *)
  k_objlist : gmap Z (list oid);          (* _object_container[].object_list *)
  k_tq : gmap waitq (list nat);           (* the lists the tlist nodes are on *)
  k_tmq : gmap tmlist (list tmid);        (* _timer_list, _soft_timer_list *)
  k_current : option nat;                 (* rt_current_thread *)
  k_current_priority : Z;                 (* rt_current_priority *)
  k_ready_group : Z;                      (* rt_thread_ready_priority_group *)
  k_lock_nest : Z;                        (* rt_scheduler_lock_nest *)
  k_interrupt_nest : Z;                   (* rt_interrupt_nest *)
  k_tick : Z;                             (* rt_tick *)
  k_soft_status : Z;                      (* _soft_timer_status *)
  k_timer_thread : nat;                   (* _timer_thread *)
  k_errno : Z                             (* __rt_errno *)
}.

Definition set_k_threads (x : gmap nat rt_thread) (k : kstate) : kstate :=
  KState x (k_timers k) (k_sems k) (k_mutexes k) (k_events k) (k_mbs k) (k_mqs k) (k_mps
    k) (k_completions k) (k_dqs k) (k_devices k) (k_wqueues k) (k_wqlists k) (k_wqnodes
    k) (k_works k) (k_workqueues k) (k_wklists k) (k_objlist k) (k_tq k) (k_tmq k)
    (k_current k) (k_current_priority k) (k_ready_group k) (k_lock_nest k)
    (k_interrupt_nest k) (k_tick k) (k_soft_status k) (k_timer_thread k) (k_errno k).
Definition set_k_timers (x : gmap tmid rt_timer) (k : kstate) : kstate :=
  KState (k_threads k) x (k_sems k) (k_mutexes k) (k_events k) (k_mbs k) (k_mqs k)
    (k_mps k) (k_completions k) (k_dqs k) (k_devices k) (k_wqueues k) (k_wqlists k)
    (k_wqnodes k) (k_works k) (k_workqueues k) (k_wklists k) (k_objlist k) (k_tq k)
    (k_tmq k) (k_current k) (k_current_priority k) (k_ready_group k) (k_lock_nest k)
    (k_interrupt_nest k) (k_tick k) (k_soft_status k) (k_timer_thread k) (k_errno k).
Definition set_k_sems (x : gmap nat rt_semaphore) (k : kstate) : kstate :=
  KState (k_threads k) (k_timers k) x (k_mutexes k) (k_events k) (k_mbs k) (k_mqs k)
    (k_mps k) (k_completions k) (k_dqs k) (k_devices k) (k_wqueues k) (k_wqlists k)
    (k_wqnodes k) (k_works k) (k_workqueues k) (k_wklists k) (k_objlist k) (k_tq k)
    (k_tmq k) (k_current k) (k_current_priority k) (k_ready_group k) (k_lock_nest k)
    (k_interrupt_nest k) (k_tick k) (k_soft_status k) (k_timer_thread k) (k_errno k).
Definition set_k_mutexes (x : gmap nat rt_mutex) (k : kstate) : kstate :=
  KState (k_threads k) (k_timers k) (k_sems k) x (k_events k) (k_mbs k) (k_mqs k) (k_mps
    k) (k_completions k) (k_dqs k) (k_devices k) (k_wqueues k) (k_wqlists k) (k_wqnodes
    k) (k_works k) (k_workqueues k) (k_wklists k) (k_objlist k) (k_tq k) (k_tmq k)
    (k_current k) (k_current_priority k) (k_ready_group k) (k_lock_nest k)
    (k_interrupt_nest k) (k_tick k) (k_soft_status k) (k_timer_thread k) (k_errno k).
Definition set_k_events (x : gmap nat rt_event) (k : kstate) : kstate :=
  KState (k_threads k) (k_timers k) (k_sems k) (k_mutexes k) x (k_mbs k) (k_mqs k)
    (k_mps k) (k_completions k) (k_dqs k) (k_devices k) (k_wqueues k) (k_wqlists k)
    (k_wqnodes k) (k_works k) (k_workqueues k) (k_wklists k) (k_objlist k) (k_tq k)
    (k_tmq k) (k_current k) (k_current_priority k) (k_ready_group k) (k_lock_nest k)
    (k_interrupt_nest k) (k_tick k) (k_soft_status k) (k_timer_thread k) (k_errno k).
Definition set_k_mbs (x : gmap nat rt_mailbox) (k : kstate) : kstate :=
  KState (k_threads k) (k_timers k) (k_sems k) (k_mutexes k) (k_events k) x (k_mqs k)
    (k_mps k) (k_completions k) (k_dqs k) (k_devices k) (k_wqueues k) (k_wqlists k)
    (k_wqnodes k) (k_works k) (k_workqueues k) (k_wklists k) (k_objlist k) (k_tq k)
    (k_tmq k) (k_current k) (k_current_priority k) (k_ready_group k) (k_lock_nest k)
    (k_interrupt_nest k) (k_tick k) (k_soft_status k) (k_timer_thread k) (k_errno k).
Definition set_k_mqs (x : gmap nat rt_messagequeue) (k : kstate) : kstate :=
  KState (k_threads k) (k_timers k) (k_sems k) (k_mutexes k) (k_events k) (k_mbs k) x
    (k_mps k) (k_completions k) (k_dqs k) (k_devices k) (k_wqueues k) (k_wqlists k)
    (k_wqnodes k) (k_works k) (k_workqueues k) (k_wklists k) (k_objlist k) (k_tq k)
    (k_tmq k) (k_current k) (k_current_priority k) (k_ready_group k) (k_lock_nest k)
    (k_interrupt_nest k) (k_tick k) (k_soft_status k) (k_timer_thread k) (k_errno k).
Definition set_k_mps (x : gmap nat rt_mempool) (k : kstate) : kstate :=
  KState (k_threads k) (k_timers k) (k_sems k) (k_mutexes k) (k_events k) (k_mbs k)
    (k_mqs k) x (k_completions k) (k_dqs k) (k_devices k) (k_wqueues k) (k_wqlists k)
    (k_wqnodes k) (k_works k) (k_workqueues k) (k_wklists k) (k_objlist k) (k_tq k)
    (k_tmq k) (k_current k) (k_current_priority k) (k_ready_group k) (k_lock_nest k)
    (k_interrupt_nest k) (k_tick k) (k_soft_status k) (k_timer_thread k) (k_errno k).
Definition set_k_completions (x : gmap nat rt_completion) (k : kstate) : kstate :=
  KState (k_threads k) (k_timers k) (k_sems k) (k_mutexes k) (k_events k) (k_mbs k)
    (k_mqs k) (k_mps k) x (k_dqs k) (k_devices k) (k_wqueues k) (k_wqlists k) (k_wqnodes
    k) (k_works k) (k_workqueues k) (k_wklists k) (k_objlist k) (k_tq k) (k_tmq k)
    (k_current k) (k_current_priority k) (k_ready_group k) (k_lock_nest k)
    (k_interrupt_nest k) (k_tick k) (k_soft_status k) (k_timer_thread k) (k_errno k).
Definition set_k_dqs (x : gmap nat rt_data_queue) (k : kstate) : kstate :=
  KState (k_threads k) (k_timers k) (k_sems k) (k_mutexes k) (k_events k) (k_mbs k)
    (k_mqs k) (k_mps k) (k_completions k) x (k_devices k) (k_wqueues k) (k_wqlists k)
    (k_wqnodes k) (k_works k) (k_workqueues k) (k_wklists k) (k_objlist k) (k_tq k)
    (k_tmq k) (k_current k) (k_current_priority k) (k_ready_group k) (k_lock_nest k)
    (k_interrupt_nest k) (k_tick k) (k_soft_status k) (k_timer_thread k) (k_errno k).
Definition set_k_devices (x : gmap nat rt_device) (k : kstate) : kstate :=
  KState (k_threads k) (k_timers k) (k_sems k) (k_mutexes k) (k_events k) (k_mbs k)
    (k_mqs k) (k_mps k) (k_completions k) (k_dqs k) x (k_wqueues k) (k_wqlists k)
    (k_wqnodes k) (k_works k) (k_workqueues k) (k_wklists k) (k_objlist k) (k_tq k)
    (k_tmq k) (k_current k) (k_current_priority k) (k_ready_group k) (k_lock_nest k)
    (k_interrupt_nest k) (k_tick k) (k_soft_status k) (k_timer_thread k) (k_errno k).
Definition set_k_wqueues (x : gmap nat rt_wqueue) (k : kstate) : kstate :=
  KState (k_threads k) (k_timers k) (k_sems k) (k_mutexes k) (k_events k) (k_mbs k)
    (k_mqs k) (k_mps k) (k_completions k) (k_dqs k) (k_devices k) x (k_wqlists k)
    (k_wqnodes k) (k_works k) (k_workqueues k) (k_wklists k) (k_objlist k) (k_tq k)
    (k_tmq k) (k_current k) (k_current_priority k) (k_ready_group k) (k_lock_nest k)
    (k_interrupt_nest k) (k_tick k) (k_soft_status k) (k_timer_thread k) (k_errno k).
Definition set_k_wqlists (x : gmap nat (list wqnode)) (k : kstate) : kstate :=
  KState (k_threads k) (k_timers k) (k_sems k) (k_mutexes k) (k_events k) (k_mbs k)
    (k_mqs k) (k_mps k) (k_completions k) (k_dqs k) (k_devices k) (k_wqueues k) x
    (k_wqnodes k) (k_works k) (k_workqueues k) (k_wklists k) (k_objlist k) (k_tq k)
    (k_tmq k) (k_current k) (k_current_priority k) (k_ready_group k) (k_lock_nest k)
    (k_interrupt_nest k) (k_tick k) (k_soft_status k) (k_timer_thread k) (k_errno k).
Definition set_k_wqnodes (x : gmap wqnode rt_wqueue_node) (k : kstate) : kstate :=
  KState (k_threads k) (k_timers k) (k_sems k) (k_mutexes k) (k_events k) (k_mbs k)
    (k_mqs k) (k_mps k) (k_completions k) (k_dqs k) (k_devices k) (k_wqueues k)
    (k_wqlists k) x (k_works k) (k_workqueues k) (k_wklists k) (k_objlist k) (k_tq k)
    (k_tmq k) (k_current k) (k_current_priority k) (k_ready_group k) (k_lock_nest k)
    (k_interrupt_nest k) (k_tick k) (k_soft_status k) (k_timer_thread k) (k_errno k).
Definition set_k_works (x : gmap nat rt_work) (k : kstate) : kstate :=
  KState (k_threads k) (k_timers k) (k_sems k) (k_mutexes k) (k_events k) (k_mbs k)
    (k_mqs k) (k_mps k) (k_completions k) (k_dqs k) (k_devices k) (k_wqueues k)
    (k_wqlists k) (k_wqnodes k) x (k_workqueues k) (k_wklists k) (k_objlist k) (k_tq k)
    (k_tmq k) (k_current k) (k_current_priority k) (k_ready_group k) (k_lock_nest k)
    (k_interrupt_nest k) (k_tick k) (k_soft_status k) (k_timer_thread k) (k_errno k).
Definition set_k_workqueues (x : gmap nat rt_workqueue) (k : kstate) : kstate :=
  KState (k_threads k) (k_timers k) (k_sems k) (k_mutexes k) (k_events k) (k_mbs k)
    (k_mqs k) (k_mps k) (k_completions k) (k_dqs k) (k_devices k) (k_wqueues k)
    (k_wqlists k) (k_wqnodes k) (k_works k) x (k_wklists k) (k_objlist k) (k_tq k)
    (k_tmq k) (k_current k) (k_current_priority k) (k_ready_group k) (k_lock_nest k)
    (k_interrupt_nest k) (k_tick k) (k_soft_status k) (k_timer_thread k) (k_errno k).
Definition set_k_wklists (x : gmap wklist (list nat)) (k : kstate) : kstate :=
  KState (k_threads k) (k_timers k) (k_sems k) (k_mutexes k) (k_events k) (k_mbs k)
    (k_mqs k) (k_mps k) (k_completions k) (k_dqs k) (k_devices k) (k_wqueues k)
    (k_wqlists k) (k_wqnodes k) (k_works k) (k_workqueues k) x (k_objlist k) (k_tq k)
    (k_tmq k) (k_current k) (k_current_priority k) (k_ready_group k) (k_lock_nest k)
    (k_interrupt_nest k) (k_tick k) (k_soft_status k) (k_timer_thread k) (k_errno k).
Definition set_k_objlist (x : gmap Z (list oid)) (k : kstate) : kstate :=
  KState (k_threads k) (k_timers k) (k_sems k) (k_mutexes k) (k_events k) (k_mbs k)
    (k_mqs k) (k_mps k) (k_completions k) (k_dqs k) (k_devices k) (k_wqueues k)
    (k_wqlists k) (k_wqnodes k) (k_works k) (k_workqueues k) (k_wklists k) x (k_tq k)
    (k_tmq k) (k_current k) (k_current_priority k) (k_ready_group k) (k_lock_nest k)
    (k_interrupt_nest k) (k_tick k) (k_soft_status k) (k_timer_thread k) (k_errno k).
Definition set_k_tq (x : gmap waitq (list nat)) (k : kstate) : kstate :=
  KState (k_threads k) (k_timers k) (k_sems k) (k_mutexes k) (k_events k) (k_mbs k)
    (k_mqs k) (k_mps k) (k_completions k) (k_dqs k) (k_devices k) (k_wqueues k)
    (k_wqlists k) (k_wqnodes k) (k_works k) (k_workqueues k) (k_wklists k) (k_objlist k)
    x (k_tmq k) (k_current k) (k_current_priority k) (k_ready_group k) (k_lock_nest k)
    (k_interrupt_nest k) (k_tick k) (k_soft_status k) (k_timer_thread k) (k_errno k).
Definition set_k_tmq (x : gmap tmlist (list tmid)) (k : kstate) : kstate :=
  KState (k_threads k) (k_timers k) (k_sems k) (k_mutexes k) (k_events k) (k_mbs k)
    (k_mqs k) (k_mps k) (k_completions k) (k_dqs k) (k_devices k) (k_wqueues k)
    (k_wqlists k) (k_wqnodes k) (k_works k) (k_workqueues k) (k_wklists k) (k_objlist k)
    (k_tq k) x (k_current k) (k_current_priority k) (k_ready_group k) (k_lock_nest k)
    (k_interrupt_nest k) (k_tick k) (k_soft_status k) (k_timer_thread k) (k_errno k).
Definition set_k_current (x : option nat) (k : kstate) : kstate :=
  KState (k_threads k) (k_timers k) (k_sems k) (k_mutexes k) (k_events k) (k_mbs k)
    (k_mqs k) (k_mps k) (k_completions k) (k_dqs k) (k_devices k) (k_wqueues k)
    (k_wqlists k) (k_wqnodes k) (k_works k) (k_workqueues k) (k_wklists k) (k_objlist k)
    (k_tq k) (k_tmq k) x (k_current_priority k) (k_ready_group k) (k_lock_nest k)
    (k_interrupt_nest k) (k_tick k) (k_soft_status k) (k_timer_thread k) (k_errno k).
Definition set_k_current_priority (x : Z) (k : kstate) : kstate :=
  KState (k_threads k) (k_timers k) (k_sems k) (k_mutexes k) (k_events k) (k_mbs k)
    (k_mqs k) (k_mps k) (k_completions k) (k_dqs k) (k_devices k) (k_wqueues k)
    (k_wqlists k) (k_wqnodes k) (k_works k) (k_workqueues k) (k_wklists k) (k_objlist k)
    (k_tq k) (k_tmq k) (k_current k) x (k_ready_group k) (k_lock_nest k)
    (k_interrupt_nest k) (k_tick k) (k_soft_status k) (k_timer_thread k) (k_errno k).
Definition set_k_ready_group (x : Z) (k : kstate) : kstate :=
  KState (k_threads k) (k_timers k) (k_sems k) (k_mutexes k) (k_events k) (k_mbs k)
    (k_mqs k) (k_mps k) (k_completions k) (k_dqs k) (k_devices k) (k_wqueues k)
    (k_wqlists k) (k_wqnodes k) (k_works k) (k_workqueues k) (k_wklists k) (k_objlist k)
    (k_tq k) (k_tmq k) (k_current k) (k_current_priority k) x (k_lock_nest k)
    (k_interrupt_nest k) (k_tick k) (k_soft_status k) (k_timer_thread k) (k_errno k).
Definition set_k_lock_nest (x : Z) (k : kstate) : kstate :=
  KState (k_threads k) (k_timers k) (k_sems k) (k_mutexes k) (k_events k) (k_mbs k)
    (k_mqs k) (k_mps k) (k_completions k) (k_dqs k) (k_devices k) (k_wqueues k)
    (k_wqlists k) (k_wqnodes k) (k_works k) (k_workqueues k) (k_wklists k) (k_objlist k)
    (k_tq k) (k_tmq k) (k_current k) (k_current_priority k) (k_ready_group k) x
    (k_interrupt_nest k) (k_tick k) (k_soft_status k) (k_timer_thread k) (k_errno k).
Definition set_k_interrupt_nest (x : Z) (k : kstate) : kstate :=
  KState (k_threads k) (k_timers k) (k_sems k) (k_mutexes k) (k_events k) (k_mbs k)
    (k_mqs k) (k_mps k) (k_completions k) (k_dqs k) (k_devices k) (k_wqueues k)
    (k_wqlists k) (k_wqnodes k) (k_works k) (k_workqueues k) (k_wklists k) (k_objlist k)
    (k_tq k) (k_tmq k) (k_current k) (k_current_priority k) (k_ready_group k)
    (k_lock_nest k) x (k_tick k) (k_soft_status k) (k_timer_thread k) (k_errno k).
Definition set_k_tick (x : Z) (k : kstate) : kstate :=
  KState (k_threads k) (k_timers k) (k_sems k) (k_mutexes k) (k_events k) (k_mbs k)
    (k_mqs k) (k_mps k) (k_completions k) (k_dqs k) (k_devices k) (k_wqueues k)
    (k_wqlists k) (k_wqnodes k) (k_works k) (k_workqueues k) (k_wklists k) (k_objlist k)
    (k_tq k) (k_tmq k) (k_current k) (k_current_priority k) (k_ready_group k)
    (k_lock_nest k) (k_interrupt_nest k) x (k_soft_status k) (k_timer_thread k) (k_errno
    k).
Definition set_k_soft_status (x : Z) (k : kstate) : kstate :=
  KState (k_threads k) (k_timers k) (k_sems k) (k_mutexes k) (k_events k) (k_mbs k)
    (k_mqs k) (k_mps k) (k_completions k) (k_dqs k) (k_devices k) (k_wqueues k)
    (k_wqlists k) (k_wqnodes k) (k_works k) (k_workqueues k) (k_wklists k) (k_objlist k)
    (k_tq k) (k_tmq k) (k_current k) (k_current_priority k) (k_ready_group k)
    (k_lock_nest k) (k_interrupt_nest k) (k_tick k) x (k_timer_thread k) (k_errno k).
Definition set_k_timer_thread (x : nat) (k : kstate) : kstate :=
  KState (k_threads k) (k_timers k) (k_sems k) (k_mutexes k) (k_events k) (k_mbs k)
    (k_mqs k) (k_mps k) (k_completions k) (k_dqs k) (k_devices k) (k_wqueues k)
    (k_wqlists k) (k_wqnodes k) (k_works k) (k_workqueues k) (k_wklists k) (k_objlist k)
    (k_tq k) (k_tmq k) (k_current k) (k_current_priority k) (k_ready_group k)
    (k_lock_nest k) (k_interrupt_nest k) (k_tick k) (k_soft_status k) x (k_errno k).
Definition set_k_errno (x : Z) (k : kstate) : kstate :=
  KState (k_threads k) (k_timers k) (k_sems k) (k_mutexes k) (k_events k) (k_mbs k)
    (k_mqs k) (k_mps k) (k_completions k) (k_dqs k) (k_devices k) (k_wqueues k)
    (k_wqlists k) (k_wqnodes k) (k_works k) (k_workqueues k) (k_wklists k) (k_objlist k)
    (k_tq k) (k_tmq k) (k_current k) (k_current_priority k) (k_ready_group k)
    (k_lock_nest k) (k_interrupt_nest k) (k_tick k) (k_soft_status k) (k_timer_thread k)
    x.

(** ** The monad of kernel functions *)

Abbreviation M := (St kstate).

Definition get_thread (t : nat) : M rt_thread := fun k =>
  match k_threads k !! t with Some th => Some (th, k) | None => None end.
Definition put_thread (t : nat) (th : rt_thread) : M unit :=
  modify (fun k => set_k_threads (<[t := th]> (k_threads k)) k).
(** [thread->field = ...]. *)
Definition upd_thread (t : nat) (f : rt_thread -> rt_thread) : M unit :=
  th ← get_thread t; put_thread t (f th).
Definition get_timer (m : tmid) : M rt_timer := fun k =>
  match k_timers k !! m with Some tm => Some (tm, k) | None => None end.
Definition put_timer (m : tmid) (tm : rt_timer) : M unit :=
  modify (fun k => set_k_timers (<[m := tm]> (k_timers k)) k).
Definition upd_timer (m : tmid) (f : rt_timer -> rt_timer) : M unit :=
  tm ← get_timer m; put_timer m (f tm).

(** The result of a call that may block: [Ret code], or [Wait w] when the
    calling thread has been suspended and [rt_schedule] called; [w] holds the
    local variables the rest of the call needs, and the rest of the call runs
    when the thread has the processor again. *)
Inductive outcome (W : Type) := Ret (r : Z) | Wait (w : W).
Arguments Ret {W} r.
Arguments Wait {W} w.

(** Field updates of the control blocks. *)
Definition set_th_object (x : rt_object) (th : rt_thread) : rt_thread :=
  RtThread x (th_error th) (th_stat th) (th_current_priority th) (th_number_mask th)
    (th_event_set th) (th_event_info th) (th_init_tick th) (th_remaining_tick th).
Definition set_th_error (x : Z) (th : rt_thread) : rt_thread :=
  RtThread (th_object th) x (th_stat th) (th_current_priority th) (th_number_mask th)
    (th_event_set th) (th_event_info th) (th_init_tick th) (th_remaining_tick th).
Definition set_th_stat (x : Z) (th : rt_thread) : rt_thread :=
  RtThread (th_object th) (th_error th) x (th_current_priority th) (th_number_mask th)
    (th_event_set th) (th_event_info th) (th_init_tick th) (th_remaining_tick th).
(** The priority and its mask bit are always written together. *)
Definition set_th_priority (p mask : Z) (th : rt_thread) : rt_thread :=
  RtThread (th_object th) (th_error th) (th_stat th) p mask
    (th_event_set th) (th_event_info th) (th_init_tick th) (th_remaining_tick th).
Definition set_th_event (set info : Z) (th : rt_thread) : rt_thread :=
  RtThread (th_object th) (th_error th) (th_stat th) (th_current_priority th)
    (th_number_mask th) set info (th_init_tick th) (th_remaining_tick th).
Definition set_th_remaining_tick (x : Z) (th : rt_thread) : rt_thread :=
  RtThread (th_object th) (th_error th) (th_stat th) (th_current_priority th)
    (th_number_mask th) (th_event_set th) (th_event_info th) (th_init_tick th) x.

Definition set_o_flag (x : Z) (o : rt_object) : rt_object :=
  RtObject (o_name o) (o_type o) x.
Definition set_tm_parent (x : rt_object) (tm : rt_timer) : rt_timer :=
  RtTimer x (tm_init_tick tm) (tm_timeout_tick tm).
Definition tm_flag (tm : rt_timer) : Z := o_flag (tm_parent tm).
Definition set_tm_flag (x : Z) (tm : rt_timer) : rt_timer :=
  set_tm_parent (set_o_flag x (tm_parent tm)) tm.
Definition set_tm_init_tick (x : Z) (tm : rt_timer) : rt_timer :=
  RtTimer (tm_parent tm) x (tm_timeout_tick tm).
Definition set_tm_timeout_tick (x : Z) (tm : rt_timer) : rt_timer :=
  RtTimer (tm_parent tm) (tm_init_tick tm) x.

(** [thread->stat & RT_THREAD_STAT_MASK], and the store
    [thread->stat = s | (thread->stat & ~RT_THREAD_STAT_MASK)]. *)
Definition stat_of (th : rt_thread) : Z := Z.land (th_stat th) RT_THREAD_STAT_MASK.
Definition with_stat (s : Z) (th : rt_thread) : rt_thread :=
  set_th_stat (Z.lor s (Z.land (th_stat th) (Z.lnot RT_THREAD_STAT_MASK))) th.
Definition yields (th : rt_thread) : bool :=
  negb (Z.land (th_stat th) RT_THREAD_STAT_YIELD_MASK =? 0).
Definition clear_yield (th : rt_thread) : rt_thread :=
  set_th_stat (Z.land (th_stat th) (Z.lnot RT_THREAD_STAT_YIELD_MASK)) th.
Definition set_yield (th : rt_thread) : rt_thread :=
  set_th_stat (Z.lor (th_stat th) RT_THREAD_STAT_YIELD) th.

(** ** List heads *)

Section lists.
Context {K A : Type} `{Countable K} `{EqDecision A}.
Implicit Types (m : gmap K (list A)) (q : K) (x : A).

Definition qget m q : list A := default [] (m !! q).
(** [rt_list_insert_after(head, node)]: first on the list. *)
Definition rt_list_insert_after q x m : gmap K (list A) := <[q := x :: qget m q]> m.
(** [rt_list_insert_before(head, node)]: last on the list. *)
Definition rt_list_insert_before q x m : gmap K (list A) := <[q := qget m q ++ [x]]> m.
(** [rt_list_remove(node)]: off whatever list it is on. *)
Definition rt_list_remove x m : gmap K (list A) := filter (fun y => y <> x) <$> m.
Definition rt_list_isempty q m : bool :=
  match qget m q with [] => true | _ => false end.

Lemma qget_insert m q q' l :
  qget (<[q := l]> m) q' = if decide (q = q') then l else qget m q'.
Proof. unfold qget. rewrite lookup_insert. by case_decide. Qed.

Lemma qget_remove m q x : qget (rt_list_remove x m) q = filter (fun y => y <> x) (qget m q).
Proof. unfold qget, rt_list_remove. rewrite lookup_fmap. by destruct (m !! q). Qed.

Lemma qget_insert_after m q q' x :
  qget (rt_list_insert_after q x m) q' = if decide (q = q') then x :: qget m q else qget m q'.
Proof. apply qget_insert. Qed.

Lemma qget_insert_before m q q' x :
  qget (rt_list_insert_before q x m) q' = if decide (q = q') then qget m q ++ [x] else qget m q'.
Proof. apply qget_insert. Qed.

Lemma elem_insert_after m q q' x y :
  y ∈ qget (rt_list_insert_after q x m) q' <-> y ∈ qget m q' \/ (y = x /\ q' = q).
Proof.
  rewrite qget_insert_after. case_decide as Hq; [subst q'; rewrite elem_of_cons|].
  - split; [intros [->|?]; auto|intros [?|[-> _]]; auto].
  - split; [auto|by intros [?|[_ ->]]].
Qed.

Lemma elem_insert_before m q q' x y :
  y ∈ qget (rt_list_insert_before q x m) q' <-> y ∈ qget m q' \/ (y = x /\ q' = q).
Proof.
  rewrite qget_insert_before.
  case_decide as Hq; [subst q'; rewrite elem_of_app, list_elem_of_singleton|].
  - split; [intros [?| ->]; auto|intros [?|[-> _]]; auto].
  - split; [auto|by intros [?|[_ ->]]].
Qed.

Lemma elem_remove m q x y :
  y ∈ qget (rt_list_remove x m) q <-> y <> x /\ y ∈ qget m q.
Proof. by rewrite qget_remove, list_elem_of_filter. Qed.

Lemma nodup_insert_after m q q' x :
  x ∉ qget m q -> NoDup (qget m q') -> NoDup (qget m q) ->
  NoDup (qget (rt_list_insert_after q x m) q').
Proof. intros. rewrite qget_insert_after. case_decide; [by apply NoDup_cons|done]. Qed.

Lemma nodup_insert_before m q q' x :
  x ∉ qget m q -> NoDup (qget m q') -> NoDup (qget m q) ->
  NoDup (qget (rt_list_insert_before q x m) q').
Proof.
  intros Hx ??. rewrite qget_insert_before. case_decide; [|done].
  apply NoDup_app. split; [done|]. split; [|apply NoDup_singleton].
  by intros y Hy ->%list_elem_of_singleton.
Qed.

Lemma isempty_spec m q : rt_list_isempty q m = true <-> qget m q = [].
Proof. unfold rt_list_isempty. by destruct (qget m q). Qed.

Lemma filter_ne_notin x (l : list A) : x ∉ l -> filter (fun y => y <> x) l = l.
Proof.
  induction l as [|y l IH]; intros Hx; [done|].
  rewrite filter_cons_True by set_solver. f_equal. apply IH. set_solver.
Qed.
End lists.

Definition modify_tq (f : gmap waitq (list nat) -> gmap waitq (list nat)) : M unit :=
  modify (fun k => set_k_tq (f (k_tq k)) k).
Definition modify_tmq (f : gmap tmlist (list tmid) -> gmap tmlist (list tmid)) : M unit :=
  modify (fun k => set_k_tmq (f (k_tmq k)) k).

(** ** Total-correctness triples *)

Definition triple {A} (P : kstate -> Prop) (m : M A) (Q : A -> kstate -> Prop) : Prop :=
  forall k, P k -> exists a k', m k = Some (a, k') /\ Q a k'.

Lemma triple_bind {A B} P (m : M A) (f : A -> M B) R Q :
  triple P m R -> (forall a, triple (R a) (f a) Q) -> triple P (m ≫= f) Q.
Proof.
  intros Hm Hf k Hk. destruct (Hm k Hk) as (a & k1 & E & HR).
  destruct (Hf a k1 HR) as (b & k2 & E2 & HQ). exists b, k2.
  by rewrite bind_unfold, E.
Qed.

Lemma triple_weaken {A} (P P' : kstate -> Prop) (m : M A) (Q Q' : A -> kstate -> Prop) :
  triple P m Q -> (forall k, P' k -> P k) -> (forall a k, Q a k -> Q' a k) -> triple P' m Q'.
Proof. intros Hm HP HQ k Hk. destruct (Hm k (HP k Hk)) as (a & k' & ? & ?). eauto. Qed.

(** ** The status byte *)

Lemma stat_with_stat s th : stat_of (with_stat s th) = Z.land s RT_THREAD_STAT_MASK.
Proof.
  unfold stat_of, with_stat, set_th_stat, RT_THREAD_STAT_MASK; simpl th_stat.
  rewrite Z.land_lor_distr_l, <- Z.land_assoc, (Z.land_comm (Z.lnot 7)), Z.land_lnot_diag.
  by rewrite Z.land_0_r, Z.lor_0_r.
Qed.

Lemma stat_clear_yield th : stat_of (clear_yield th) = stat_of th.
Proof.
  unfold stat_of, clear_yield, set_th_stat; simpl th_stat. rewrite <- Z.land_assoc. reflexivity.
Qed.

Lemma stat_set_yield th : stat_of (set_yield th) = stat_of th.
Proof.
  unfold stat_of, set_yield, set_th_stat; simpl th_stat.
  rewrite Z.land_lor_distr_l. change (Z.land RT_THREAD_STAT_YIELD RT_THREAD_STAT_MASK) with 0.
  by rewrite Z.lor_0_r.
Qed.

Lemma yields_clear_yield th : yields (clear_yield th) = false.
Proof.
  unfold yields, clear_yield, set_th_stat, RT_THREAD_STAT_YIELD_MASK; simpl th_stat.
  by rewrite <- Z.land_assoc, (Z.land_comm (Z.lnot _)), Z.land_lnot_diag, Z.land_0_r.
Qed.

Lemma yields_with_stat s th :
  Z.land s RT_THREAD_STAT_YIELD = 0 -> yields (with_stat s th) = yields th.
Proof.
  intros Hs. unfold yields, with_stat, set_th_stat, RT_THREAD_STAT_YIELD_MASK; simpl th_stat.
  by rewrite Z.land_lor_distr_l, Hs, Z.lor_0_l, <- Z.land_assoc.
Qed.

Create Rewrite HintDb stat.
#[export] Hint Rewrite stat_with_stat stat_clear_yield stat_set_yield yields_clear_yield : stat.

(** Projections of updated states and control blocks. *)
Ltac kfields :=
  cbn [
    k_threads k_timers k_sems k_mutexes k_events k_mbs k_mqs k_mps k_completions k_dqs
    k_devices k_wqueues k_wqlists k_wqnodes k_works k_workqueues k_wklists k_objlist k_tq
    k_tmq k_current k_current_priority k_ready_group k_lock_nest k_interrupt_nest
    k_tick k_soft_status k_timer_thread k_errno set_k_threads set_k_timers
    set_k_sems set_k_mutexes set_k_events set_k_mbs set_k_mqs set_k_mps set_k_completions set_k_dqs
    set_k_devices set_k_wqueues set_k_wqlists set_k_wqnodes set_k_works set_k_workqueues set_k_wklists
    set_k_objlist set_k_tq set_k_tmq set_k_current set_k_current_priority
    set_k_ready_group set_k_lock_nest set_k_interrupt_nest set_k_tick
    set_k_soft_status set_k_timer_thread set_k_errno
    th_object th_error th_stat th_current_priority th_number_mask th_event_set
    th_event_info th_init_tick th_remaining_tick set_th_object set_th_error
    set_th_stat set_th_priority set_th_event set_th_remaining_tick
    with_stat clear_yield set_yield
    tm_parent tm_init_tick tm_timeout_tick set_tm_parent set_tm_init_tick
    set_tm_timeout_tick set_tm_flag tm_flag o_name o_type o_flag set_o_flag] in *.

(** Running a monadic program one step: the binds and the plain accesses are
    reduced, calls of named functions stay and are rewritten with their
    equations. *)
Ltac mrun :=
  cbv beta iota delta [mbind St_bind mret St_ret gets modify modify_tq modify_tmq when deref
    negb andb orb].
