(* ===== verification/RtList.v ===== *)
(** * Doubly linked lists in memory

    The circular lists of [include/rtservice.h] as the C code has them: a
    store of nodes with [next] and [prev] pointers, on which each function
    reads and writes fields in the order of the source. The theorem of this
    file is that they implement the operations on lists of Kernel.v, which the
    rest of the development uses. *)
From S2P Require Import Prelude Kernel.

Section store.
Context {L : Type} `{!EqDecision L, !Countable L}.
Implicit Types (p n h x y : L) (l : list L).

(** [struct rt_list_node]. *)
Record rt_list_node := RtListNode { ln_next : L; ln_prev : L }.

Local Abbreviation store := (gmap L rt_list_node).
Implicit Types s : store.

(** [p->next], [p->prev], [p->next = v] and [p->prev = v]; undefined if there
    is no node at [p]. *)
Definition nxt s p : option L := ln_next <$> s !! p.
Definition prv s p : option L := ln_prev <$> s !! p.
Definition set_next p v s : option store :=
  n ← s !! p; Some (<[p := RtListNode v (ln_prev n)]> s).
Definition set_prev p v s : option store :=
  n ← s !! p; Some (<[p := RtListNode (ln_next n) v]> s).

(** The list operations of rtservice.h; [l] and [n] are the names of their
    parameters. *)
Definition list_init (l : L) s : store := <[l := RtListNode l l]> s.

Definition list_insert_after (l n : L) s : option store :=
  ln ← nxt s l; s ← set_prev ln n s;
  ln ← nxt s l; s ← set_next n ln s;
  s ← set_next l n s;
  set_prev n l s.

Definition list_insert_before (l n : L) s : option store :=
  lp ← prv s l; s ← set_next lp n s;
  lp ← prv s l; s ← set_prev n lp s;
  s ← set_prev l n s;
  set_next n l s.

Definition list_remove n s : option store :=
  nn ← nxt s n; np ← prv s n; s ← set_prev nn np s;
  np ← prv s n; nn ← nxt s n; s ← set_next np nn s;
  s ← set_prev n n s;
  set_next n n s.

Definition list_isempty (l : L) s : option bool :=
  ln ← nxt s l; Some (bool_decide (ln = l)).

Fixpoint list_len_loop (fuel : nat) (l p : L) (len : Z) s : option Z :=
  match fuel with
  | O => None
  | S fuel =>
      pn ← nxt s p;
      if decide (pn = l) then Some len else list_len_loop fuel l pn (u32 (len + 1)) s
  end.
Definition list_len (fuel : nat) (l : L) s : option Z := list_len_loop fuel l l 0 s.

(** ** Circular lists *)

(** [y] follows [x]. *)
Definition links s x y : Prop := nxt s x = Some y /\ prv s y = Some x.

(** From [a] one comes over the nodes of [l] to [b], and back. *)
Fixpoint linked s (a : L) l (b : L) : Prop :=
  match l with [] => links s a b | x :: l => links s a x /\ linked s x l b end.

Lemma linked_app s a l1 x l2 b : linked s a (l1 ++ x :: l2) b <-> linked s a l1 x /\ linked s x l2 b.
Proof.
  revert a. induction l1 as [|y l1 IH]; intros a; simpl; [tauto|]. rewrite IH. tauto.
Qed.

Lemma linked_ext s s' a l b :
  (forall x, x ∈ a :: l -> nxt s' x = nxt s x) -> (forall x, x ∈ l ++ [b] -> prv s' x = prv s x) ->
  linked s a l b -> linked s' a l b.
Proof.
  revert a. induction l as [|x l IH]; intros a Hn Hp; simpl.
  - intros [H1 H2]. split; [rewrite Hn; [done|by left]|rewrite Hp; [done|by left]].
  - intros [[H1 H2] Hl]. split.
    + split; [rewrite Hn; [done|by left]|rewrite Hp; [done|by left]].
    + apply IH; [|intros y Hy; apply Hp; by right|done]. intros y Hy. apply Hn. by right.
Qed.

(** The store after an insertion of [n] between [p] and [y], and after its
    removal from there. *)
Definition inserted (p n y : L) s s' : Prop :=
  (forall x, nxt s' x = if decide (x = p) then Some n else if decide (x = n) then Some y else nxt s x) /\
  (forall x, prv s' x = if decide (x = n) then Some p else if decide (x = y) then Some n else prv s x).

(** [n] is left out; its own pointers may be anything. *)
Definition bypassed (p n y : L) s s' : Prop :=
  (forall x, x <> n -> nxt s' x = if decide (x = p) then Some y else nxt s x) /\
  (forall x, x <> n -> prv s' x = if decide (x = y) then Some p else prv s x).

Definition removed (p n y : L) s s' : Prop := bypassed p n y s s' /\ links s' n n.

Lemma set_next_spec p v s :
  is_Some (s !! p) ->
  exists s', set_next p v s = Some s' /\
    (forall x, nxt s' x = if decide (x = p) then Some v else nxt s x) /\
    (forall x, prv s' x = prv s x) /\ (forall x, is_Some (s' !! x) <-> is_Some (s !! x)).
Proof.
  intros [n Hn]. unfold set_next. rewrite Hn. eexists. split; [done|]. unfold nxt, prv.
  split; [|split]; intros x; destruct (decide (x = p)) as [->|Hne];
    rewrite ?lookup_insert_eq, ?lookup_insert_ne, ?Hn by done; (done || by split; eauto).
Qed.

Lemma set_prev_spec p v s :
  is_Some (s !! p) ->
  exists s', set_prev p v s = Some s' /\
    (forall x, prv s' x = if decide (x = p) then Some v else prv s x) /\
    (forall x, nxt s' x = nxt s x) /\ (forall x, is_Some (s' !! x) <-> is_Some (s !! x)).
Proof.
  intros [n Hn]. unfold set_prev. rewrite Hn. eexists. split; [done|]. unfold nxt, prv.
  split; [|split]; intros x; destruct (decide (x = p)) as [->|Hne];
    rewrite ?lookup_insert_eq, ?lookup_insert_ne, ?Hn by done; (done || by split; eauto).
Qed.

Lemma nxt_some s x y : nxt s x = Some y -> is_Some (s !! x).
Proof. unfold nxt. destruct (s !! x); [eauto|done]. Qed.
Lemma prv_some s x y : prv s x = Some y -> is_Some (s !! x).
Proof. unfold prv. destruct (s !! x); [eauto|done]. Qed.

Lemma insert_after_spec p n y s :
  links s p y -> is_Some (s !! n) -> n <> p -> n <> y ->
  exists s', list_insert_after p n s = Some s' /\ inserted p n y s s' /\
    (forall x, is_Some (s' !! x) <-> is_Some (s !! x)).
Proof.
  intros [Hn Hp] Hs Hnp Hny. unfold list_insert_after. rewrite Hn. simpl.
  destruct (set_prev_spec y n s (prv_some _ _ _ Hp)) as (s1 & -> & P1 & N1 & D1). simpl.
  rewrite N1, Hn. simpl.
  destruct (set_next_spec n y s1) as (s2 & -> & N2 & P2 & D2); [by apply D1|]. simpl.
  destruct (set_next_spec p n s2) as (s3 & -> & N3 & P3 & D3).
  { apply D2, D1. by apply (nxt_some _ _ y). }
  simpl. destruct (set_prev_spec n p s3) as (s4 & -> & P4 & N4 & D4); [by apply D3, D2, D1|].
  exists s4. split; [done|]. split; [split|].
  - intros x. rewrite N4, N3, N2, N1. repeat case_decide; congruence.
  - intros x. by rewrite P4, P3, P2, P1.
  - intros x. by rewrite D4, D3, D2, D1.
Qed.

Lemma insert_before_spec p n y s :
  links s p y -> is_Some (s !! n) -> n <> p -> n <> y ->
  exists s', list_insert_before y n s = Some s' /\ inserted p n y s s' /\
    (forall x, is_Some (s' !! x) <-> is_Some (s !! x)).
Proof.
  intros [Hn Hp] Hs Hnp Hny. unfold list_insert_before. rewrite Hp. simpl.
  destruct (set_next_spec p n s (nxt_some _ _ _ Hn)) as (s1 & -> & N1 & P1 & D1). simpl.
  rewrite P1, Hp. simpl.
  destruct (set_prev_spec n p s1) as (s2 & -> & P2 & N2 & D2); [by apply D1|]. simpl.
  destruct (set_prev_spec y n s2) as (s3 & -> & P3 & N3 & D3).
  { apply D2, D1. by apply (prv_some _ _ p). }
  simpl. destruct (set_next_spec n y s3) as (s4 & -> & N4 & P4 & D4); [by apply D3, D2, D1|].
  exists s4. split; [done|]. split; [split|].
  - intros x. rewrite N4, N3, N2, N1. repeat case_decide; congruence.
  - intros x. rewrite P4, P3, P2, P1. repeat case_decide; congruence.
  - intros x. by rewrite D4, D3, D2, D1.
Qed.

Lemma remove_spec p n y s :
  links s p n -> links s n y ->
  exists s', list_remove n s = Some s' /\ removed p n y s s' /\
    (forall x, is_Some (s' !! x) <-> is_Some (s !! x)).
Proof.
  intros [Hpn Hnp] [Hny Hyn]. unfold list_remove. rewrite Hny, Hnp. simpl.
  destruct (set_prev_spec y p s (prv_some _ _ _ Hyn)) as (s1 & -> & P1 & N1 & D1). simpl.
  assert (prv s1 n = Some p) as Hp1 by (rewrite P1; by case_decide). rewrite Hp1, N1, Hny. simpl.
  destruct (set_next_spec p y s1) as (s2 & -> & N2 & P2 & D2); [by apply D1, (nxt_some _ _ n)|]. simpl.
  destruct (set_prev_spec n n s2) as (s3 & -> & P3 & N3 & D3).
  { apply D2, D1. by apply (nxt_some _ _ y). }
  simpl. destruct (set_next_spec n n s3) as (s4 & -> & N4 & P4 & D4).
  { apply D3, D2, D1. by apply (nxt_some _ _ y). }
  exists s4. split; [done|]. split; [split; split|].
  - intros x Hx. rewrite N4, N3, N2, N1. repeat case_decide; congruence.
  - intros x Hx. rewrite P4, P3, P2, P1. repeat case_decide; congruence.
  - by rewrite N4, decide_True.
  - rewrite P4, P3. by rewrite decide_True.
  - intros x. by rewrite D4, D3, D2, D1.
Qed.

(** ** Lists after an insertion and a removal *)

Lemma linked_inserted p n y l b s s' :
  inserted p n y s s' -> NoDup l -> p ∉ l -> b ∉ l -> n ∉ p :: b :: l -> head (l ++ [b]) = Some y ->
  linked s p l b -> linked s' p (n :: l) b.
Proof.
  intros [In Ip] Hnd Hp Hb Hn Hy Hl. apply not_elem_of_cons in Hn as [Hnp Hn].
  apply not_elem_of_cons in Hn as [Hnb Hn].
  assert (links s' p n) as L1.
  { split; [by rewrite In, decide_True|by rewrite Ip, decide_True]. }
  assert (y <> n) as Hyn.
  { intros ->. destruct l as [|x l]; injection Hy as ->; [done|]. apply Hn. by left. }
  assert (links s' n y) as L2.
  { split; [by rewrite In, decide_False, decide_True|by rewrite Ip, decide_False, decide_True]. }
  split; [done|]. destruct l as [|x l]; injection Hy as ->; [done|]. split; [done|].
  apply NoDup_cons in Hnd as [Hx _]. destruct Hl as [_ Hl].
  apply (linked_ext s); [| |done].
  - intros z Hz. rewrite In, !decide_False; [done| |]; intros ->; [by apply Hn|by apply Hp].
  - intros z Hz. rewrite Ip, !decide_False; [done| |].
    + intros ->. apply elem_of_app in Hz as [Hz|Hz%list_elem_of_singleton]; [by apply Hx|].
      subst. apply Hb. by left.
    + intros ->. apply elem_of_app in Hz as [Hz|Hz%list_elem_of_singleton]; [|done].
      apply Hn. by right.
Qed.

Lemma linked_bypassed p n y l b s s' :
  bypassed p n y s s' -> NoDup l -> p ∉ l -> b ∉ l -> n ∉ p :: b :: l -> head (l ++ [b]) = Some y ->
  linked s p (n :: l) b -> linked s' p l b.
Proof.
  intros [In Ip] Hnd Hp Hb Hn Hy [_ Hl]. apply not_elem_of_cons in Hn as [Hnp Hn].
  apply not_elem_of_cons in Hn as [Hnb Hn].
  assert (y <> n) as Hyn.
  { intros ->. destruct l as [|x l]; injection Hy as ->; [done|]. apply Hn. by left. }
  assert (links s' p y) as L1.
  { split; [by rewrite In, decide_True|by rewrite Ip, decide_True]. }
  destruct l as [|x l]; injection Hy as ->; [done|]. split; [done|].
  apply NoDup_cons in Hnd as [Hx _]. destruct Hl as [_ Hl].
  apply (linked_ext s); [| |done].
  - intros z Hz. rewrite In, decide_False; [done| |]; intros ->; [by apply Hp|by apply Hn].
  - intros z Hz. rewrite Ip, decide_False; [done| |].
    + intros ->. apply elem_of_app in Hz as [Hz|Hz%list_elem_of_singleton]; [by apply Hx|].
      subst. apply Hb. by left.
    + intros ->. apply elem_of_app in Hz as [Hz|Hz%list_elem_of_singleton]; [|done].
      apply Hn. by right.
Qed.

(** Nodes away from the change keep their pointers. *)
Lemma linked_away p n y a l b s s' :
  (inserted p n y s s' \/ bypassed p n y s s') ->
  p ∉ a :: l -> n ∉ a :: l -> n ∉ l ++ [b] -> y ∉ l ++ [b] ->
  linked s a l b -> linked s' a l b.
Proof.
  intros HI Hp Hn Hn' Hy. apply linked_ext.
  - intros z Hz. destruct HI as [[In _]|[In _]]; rewrite In, ?decide_False; try done; by intros ->.
  - intros z Hz. destruct HI as [[_ Ip]|[_ Ip]]; rewrite Ip, ?decide_False; try done; by intros ->.
Qed.

(** A circular list: the head [h] and the nodes [l] after it. *)
Definition circle s (h : L) l : Prop := NoDup (h :: l) /\ linked s h l h.

(** The nodes around a place in the list. *)
Definition before (h : L) (l1 : list L) : L := default h (last l1).
Definition behind (h : L) (l2 : list L) : L := default h (head l2).

Lemma before_in h l1 : before h l1 ∈ h :: l1.
Proof.
  unfold before. destruct (last l1) as [x|] eqn:E; [|by left]. right. by apply last_Some_elem_of.
Qed.
Lemma behind_in h l2 : behind h l2 ∈ h :: l2.
Proof. destruct l2 as [|x l2]; [by left|right; by left]. Qed.

Lemma linked_links s a l1 l2 b :
  linked s a (l1 ++ l2) b -> links s (default a (last l1)) (default b (head l2)).
Proof.
  revert a. induction l1 as [|x l1 IH]; intros a.
  - destruct l2 as [|y l2]; [done|]. by intros [? _].
  - intros [_ Hl]. specialize (IH x Hl). destruct l1 as [|z l1]; [done|].
    replace (last (x :: z :: l1)) with (last (z :: l1)) by done.
    destruct (last (z :: l1)) as [w|] eqn:E; [done|]. by apply last_None in E.
Qed.

Lemma head_behind h l2 : head (l2 ++ [h]) = Some (behind h l2).
Proof. by destruct l2. Qed.

Lemma circle_inserted s s' h l1 l2 n :
  circle s h (l1 ++ l2) -> n ∉ h :: l1 ++ l2 ->
  inserted (before h l1) n (behind h l2) s s' -> circle s' h (l1 ++ n :: l2).
Proof.
  intros [Hnd Hl] Hn HI. split.
  { apply NoDup_cons in Hnd as [Hh Hnd]. apply NoDup_cons. split; [set_solver|].
    rewrite Permutation_app_comm. simpl. apply NoDup_cons. split; [set_solver|].
    by rewrite Permutation_app_comm. }
  unfold before in HI. destruct l1 as [|p l1] using rev_ind.
  - apply NoDup_cons in Hnd as [Hh Hnd].
    apply (linked_inserted h n (behind h l2) l2 h s); try done; try apply head_behind; set_solver.
  - clear IHl1. rewrite last_snoc in HI. simpl default in HI.
    rewrite <- !app_assoc in *. simpl app in *.
    apply NoDup_cons in Hnd as [Hh Hnd]. apply NoDup_app in Hnd as (Hnd1 & Hdis & Hnd2).
    apply NoDup_cons in Hnd2 as [Hp Hnd2].
    apply linked_app in Hl as [Hl1 Hl2]. apply linked_app. split.
    + apply (linked_away p n (behind h l2) h l1 p s); [by left|set_solver|set_solver|set_solver| |done].
      destruct l2 as [|y l2]; simpl; set_solver.
    + apply (linked_inserted p n (behind h l2) l2 h s); try done; try apply head_behind; set_solver.
Qed.

Lemma circle_bypassed s s' h l1 l2 n :
  circle s h (l1 ++ n :: l2) ->
  bypassed (before h l1) n (behind h l2) s s' -> circle s' h (l1 ++ l2).
Proof.
  intros [Hnd Hl] HI.
  apply NoDup_cons in Hnd as [Hh Hnd]. pose proof Hnd as Hnd0.
  apply NoDup_app in Hnd as (Hnd1 & Hdis & Hnd2). apply NoDup_cons in Hnd2 as [Hn Hnd2].
  split.
  { apply NoDup_cons. split; [set_solver|]. apply NoDup_app. split; [done|]. split; [set_solver|done]. }
  unfold before in HI. destruct l1 as [|p l1] using rev_ind.
  - apply (linked_bypassed h n (behind h l2) l2 h s); try done; try apply head_behind; set_solver.
  - clear IHl1. rewrite last_snoc in HI. simpl default in HI.
    rewrite <- !app_assoc in *. simpl app in *.
    apply NoDup_app in Hnd1 as (Hnd1 & Hdis1 & _).
    apply linked_app in Hl as [Hl1 Hl2]. apply linked_app. split.
    + apply (linked_away p n (behind h l2) h l1 p s); [by right|set_solver|set_solver|set_solver| |done].
      destruct l2 as [|y l2]; simpl; set_solver.
    + apply (linked_bypassed p n (behind h l2) l2 h s); try done; try apply head_behind; set_solver.
Qed.

Lemma circle_removed s s' h l1 l2 n :
  circle s h (l1 ++ n :: l2) ->
  removed (before h l1) n (behind h l2) s s' -> circle s' h (l1 ++ l2) /\ links s' n n.
Proof. intros Hc [HI Hs]. split; [by eapply circle_bypassed|done]. Qed.

(** The nodes of a circle are linked to those around them. *)
Lemma circle_links s h l1 l2 : circle s h (l1 ++ l2) -> links s (before h l1) (behind h l2).
Proof. intros [_ Hl]. by apply linked_links. Qed.

Lemma circle_ext s s' h l : circle s h l -> (forall x, x ∈ h :: l -> s' !! x = s !! x) -> circle s' h l.
Proof.
  intros [Hnd Hl] He. split; [done|]. apply (linked_ext s); [| |done]; intros x Hx; unfold nxt, prv;
    rewrite He; [done|done|done|]. rewrite elem_of_app, list_elem_of_singleton in Hx. rewrite elem_of_cons. tauto.
Qed.

(** [rt_list_len] and [rt_list_isempty]. *)
Lemma list_len_loop_spec s h p l len fuel :
  linked s p l h -> h ∉ l -> 0 <= len -> len + zlen l < 2 ^ 32 -> (length l < fuel)%nat ->
  list_len_loop fuel h p len s = Some (len + zlen l).
Proof.
  revert p len fuel. induction l as [|x l IH]; intros p len fuel Hl Hh H0 Hlen Hf;
    (destruct fuel as [|fuel]; [simpl in Hf; lia|]); simpl.
  - destruct Hl as [-> _]. simpl. rewrite decide_True by done. f_equal. unfold zlen. simpl. lia.
  - destruct Hl as [[-> _] Hl]. simpl. rewrite decide_False by set_solver.
    assert (zlen (x :: l) = zlen l + 1) as E by (unfold zlen; simpl length; lia).
    pose proof (zlen_nonneg l). rewrite u32_small by lia.
    rewrite IH; [f_equal; lia|done|set_solver|lia|lia|simpl in Hf; lia].
Qed.

Lemma list_isempty_spec s h l : circle s h l -> list_isempty h s = Some (bool_decide (l = [])).
Proof.
  intros [Hnd Hl]. unfold list_isempty. apply NoDup_cons in Hnd as [Hh _].
  destruct l as [|x l].
  - destruct Hl as [-> _]. simpl. by rewrite !bool_decide_true.
  - destruct Hl as [[-> _] _]. simpl. rewrite (bool_decide_false (x = h)); [done|].
    intros ->. apply Hh. by left.
Qed.
End store.
Arguments rt_list_node L : clear implicits.

(** ** The kernel's lists *)

Section kernel_lists.
Context {K A : Type} `{!EqDecision K, !Countable K, !EqDecision A, !Countable A}.
Implicit Types (s : gmap (K + A) (rt_list_node (K + A))) (m : gmap K (list A)) (q : K) (x : A).

(** The store [s] holds the lists [m]: from the head of each one comes over
    the nodes of its elements and back, an element is on one list at most, and
    the node of an element on no list points to itself. *)
Record represents s m : Prop := Represents {
  rp_list q l : m !! q = Some l -> circle s (inl q) (inr <$> l);
  rp_disjoint q q' l l' x : m !! q = Some l -> m !! q' = Some l' -> x ∈ l -> x ∈ l' -> q = q';
  rp_free x : is_Some (s !! inr x) -> (forall q, x ∉ qget m q) -> links s (inr x) (inr x)
}.

Lemma circle_away s s' p n y h (l : list (K + A)) :
  (inserted p n y s s' \/ bypassed p n y s s') ->
  p ∉ h :: l -> n ∉ h :: l -> y ∉ h :: l -> circle s h l -> circle s' h l.
Proof.
  intros HI Hp Hn Hy [Hnd Hl]. split; [done|].
  apply (linked_away p n y h l h s); [done|done|done| | |done];
    rewrite elem_of_app, list_elem_of_singleton; rewrite elem_of_cons in *; tauto.
Qed.

(** The nodes next to a place of a list are of that list. *)
Lemma around_elem q (l : list (K + A)) (z : K + A) q' (l' : list A) s m l0 :
  represents s m -> m !! q = Some l0 -> l = inr <$> l0 -> m !! q' = Some l' -> q' <> q ->
  z ∈ inl q :: l -> z ∉ inl q' :: (inr <$> l').
Proof.
  intros R Hq -> Hq' Hne Hz Hz'.
  apply elem_of_cons in Hz as [->|(x & -> & Hx)%list_elem_of_fmap];
    apply elem_of_cons in Hz' as [Hz'|(x' & Hz' & Hx')%list_elem_of_fmap]; try done; simplify_eq.
  by apply Hne, (rp_disjoint _ _ R q' q l' l0 x').
Qed.

(** A node that was on no list is on one. *)
Lemma insert_disjoint s (m : gmap K (list A)) q l1 l2 x q1 q2 la lb z :
  represents s m -> m !! q = Some (l1 ++ l2) -> (forall q' l', m !! q' = Some l' -> x ∉ l') ->
  <[q := l1 ++ x :: l2]> m !! q1 = Some la -> <[q := l1 ++ x :: l2]> m !! q2 = Some lb ->
  z ∈ la -> z ∈ lb -> q1 = q2.
Proof.
  intros R Hq Hx.
  assert (forall q' l', <[q := l1 ++ x :: l2]> m !! q' = Some l' ->
    forall z, z ∈ l' -> (z = x /\ q' = q) \/ exists l0, m !! q' = Some l0 /\ z ∈ l0) as Hin.
  { intros q' l'. destruct (decide (q' = q)) as [->|Hne].
    - rewrite lookup_insert_eq. intros [= <-] y Hy.
      rewrite elem_of_app, elem_of_cons in Hy.
      destruct (decide (y = x)) as [->|]; [by left|]. right. exists (l1 ++ l2).
      split; [done|]. rewrite elem_of_app. tauto.
    - rewrite lookup_insert_ne by done. intros Hl' y Hy. right. eauto. }
  intros H1 H2 Hz1 Hz2.
  destruct (Hin q1 la H1 z Hz1) as [[Ez1 Eq1]|(l1' & E1 & Z1)];
    destruct (Hin q2 lb H2 z Hz2) as [[Ez2 Eq2]|(l2' & E2 & Z2)].
  - congruence.
  - subst. exfalso. by apply (Hx q2 l2').
  - subst. exfalso. by apply (Hx q1 l1').
  - by apply (rp_disjoint _ _ R q1 q2 l1' l2' z).
Qed.

Lemma insert_represents s s' m q l1 l2 x :
  represents s m -> m !! q = Some (l1 ++ l2) -> (forall q', x ∉ qget m q') ->
  inserted (before (inl q) (inr <$> l1)) (inr x) (behind (inl q) (inr <$> l2)) s s' ->
  (forall z, is_Some (s' !! z) <-> is_Some (s !! z)) ->
  represents s' (<[q := l1 ++ x :: l2]> m).
Proof.
  intros R Hq Hx HI Hdom.
  set (p := before (inl q) (inr <$> l1)) in *. set (y := behind (inl q) (inr <$> l2)) in *.
  assert (p ∈ inl q :: (inr <$> l1 ++ l2)) as Hp.
  { pose proof (before_in (inl q) ((inr : A -> K + A) <$> l1)) as H. fold p in H.
    rewrite fmap_app. rewrite elem_of_cons in *. rewrite elem_of_app. tauto. }
  assert (y ∈ inl q :: (inr <$> l1 ++ l2)) as Hy.
  { pose proof (behind_in (inl q) ((inr : A -> K + A) <$> l2)) as H. fold y in H.
    rewrite fmap_app. rewrite elem_of_cons in *. rewrite elem_of_app. tauto. }
  assert (forall q' l', m !! q' = Some l' -> x ∉ l') as Hx'.
  { intros q' l' Hl'. specialize (Hx q'). unfold qget in Hx. by rewrite Hl' in Hx. }
  assert (forall q' l', m !! q' = Some l' -> (inr x : K + A) ∉ inl q' :: (inr <$> l')) as Hxn.
  { intros q' l' Hl' [?|(z & Hz & Hin)%list_elem_of_fmap]%elem_of_cons; [done|]. simplify_eq.
    by apply (Hx' q' l'). }
  constructor.
  - intros q' l'. destruct (decide (q' = q)) as [->|Hne].
    + rewrite lookup_insert_eq. intros [= <-]. rewrite fmap_app. simpl fmap.
      apply (circle_inserted s s' (inl q) (inr <$> l1) (inr <$> l2) (inr x)); [| |done].
      * rewrite <- fmap_app. by apply (rp_list _ _ R).
      * rewrite <- fmap_app. by apply Hxn.
    + rewrite lookup_insert_ne by done. intros Hl'.
      apply (circle_away s s' p (inr x) y); [by left| | | |by apply (rp_list _ _ R)].
      * by apply (around_elem q (inr <$> l1 ++ l2) p q' l' s m (l1 ++ l2)).
      * by apply Hxn.
      * by apply (around_elem q (inr <$> l1 ++ l2) y q' l' s m (l1 ++ l2)).
  - intros q1 q2 la lb z. by apply (insert_disjoint s m q l1 l2 x).
  - intros z Hz Hzq. apply Hdom in Hz.
    assert (z <> x /\ z ∉ l1 ++ l2) as [Hzx Hzl].
    { pose proof (Hzq q) as H. rewrite qget_insert, decide_True in H by done.
      rewrite elem_of_app, elem_of_cons in H. rewrite elem_of_app. tauto. }
    assert (links s (inr z) (inr z)) as [L1 L2].
    { apply (rp_free _ _ R z Hz). intros q'. destruct (decide (q' = q)) as [->|Hne].
      - unfold qget. by rewrite Hq.
      - specialize (Hzq q'). by rewrite qget_insert, decide_False in Hzq. }
    assert ((inr z : K + A) ∉ inl q :: (inr <$> l1 ++ l2)) as Hzn.
    { intros [?|(w & Hw & Hin)%list_elem_of_fmap]%elem_of_cons; [done|]. by simplify_eq. }
    destruct HI as [In Ip]. split.
    + rewrite In, !decide_False; [done|congruence|]. intros <-. by apply Hzn.
    + rewrite Ip, !decide_False; [done| |congruence]. intros <-. by apply Hzn.
Qed.

Lemma remove_represents s s' m q l1 l2 x :
  represents s m -> m !! q = Some (l1 ++ x :: l2) ->
  removed (before (inl q) (inr <$> l1)) (inr x) (behind (inl q) (inr <$> l2)) s s' ->
  (forall z, is_Some (s' !! z) <-> is_Some (s !! z)) ->
  represents s' (rt_list_remove x m).
Proof.
  intros R Hq HI Hdom. pose proof (rp_list _ _ R q _ Hq) as Hc. rewrite fmap_app in Hc.
  simpl fmap in Hc.
  set (p := before (inl q) (inr <$> l1)) in *. set (y := behind (inl q) (inr <$> l2)) in *.
  assert (p ∈ inl q :: (inr <$> l1 ++ x :: l2)) as Hp.
  { pose proof (before_in (inl q) ((inr : A -> K + A) <$> l1)) as H. fold p in H.
    rewrite fmap_app. rewrite elem_of_cons in *. rewrite elem_of_app. tauto. }
  assert (y ∈ inl q :: (inr <$> l1 ++ x :: l2)) as Hy.
  { pose proof (behind_in (inl q) ((inr : A -> K + A) <$> l2)) as H. fold y in H.
    rewrite fmap_app. simpl fmap. rewrite elem_of_cons in *. rewrite elem_of_app, elem_of_cons. tauto. }
  assert ((inr x : K + A) ∈ inl q :: (inr <$> l1 ++ x :: l2)) as Hxq.
  { right. apply list_elem_of_fmap. exists x. split; [done|]. apply elem_of_app. right. by left. }
  assert (forall q' l', m !! q' = Some l' -> q' <> q -> filter (fun z => z <> x) l' = l') as Hf.
  { intros q' l' Hl' Hne. apply filter_ne_notin. intros Hin. apply Hne.
    apply (rp_disjoint _ _ R q' q l' (l1 ++ x :: l2) x); try done. apply elem_of_app. right. by left. }
  assert (filter (fun z => z <> x) (l1 ++ x :: l2) = l1 ++ l2) as Hfq.
  { destruct Hc as [Hnd _]. apply NoDup_cons in Hnd as [_ Hnd].
    assert (NoDup ((inr : A -> K + A) <$> l1 ++ x :: l2)) as Hnd' by (by rewrite fmap_app).
    clear Hnd. rename Hnd' into Hnd. apply NoDup_fmap_1, NoDup_app in Hnd as (_ & Hdis & Hnd2).
    apply NoDup_cons in Hnd2 as [Hx2 _]. rewrite filter_app, filter_cons_False by auto.
    f_equal; apply filter_ne_notin; [|done]. intros Hin. apply (Hdis x Hin). by left. }
  destruct (circle_removed s s' (inl q) (inr <$> l1) (inr <$> l2) (inr x) Hc HI) as [Hc' Hself].
  constructor.
  - intros q' l'. unfold rt_list_remove. rewrite lookup_fmap. intros (l0 & Hl0 & ->)%fmap_Some.
    destruct (decide (q' = q)) as [->|Hne].
    + assert (l0 = l1 ++ x :: l2) as -> by congruence. rewrite Hfq, fmap_app. done.
    + rewrite (Hf q' l0) by done.
      apply (circle_away s s' p (inr x) y); [by right; apply HI| | | |by apply (rp_list _ _ R)];
        apply (around_elem q (inr <$> l1 ++ x :: l2) _ q' l0 s m (l1 ++ x :: l2)); done.
  - intros q1 q2 la lb z. unfold rt_list_remove. rewrite !lookup_fmap.
    intros (l1' & H1 & ->)%fmap_Some (l2' & H2 & ->)%fmap_Some.
    intros [_ Hz1]%list_elem_of_filter [_ Hz2]%list_elem_of_filter.
    by apply (rp_disjoint _ _ R q1 q2 l1' l2' z).
  - intros z Hz Hzq. apply Hdom in Hz. destruct (decide (z = x)) as [->|Hne]; [done|].
    assert (forall q', z ∉ qget m q') as Hzm.
    { intros q' Hin. apply (Hzq q'). by apply elem_remove. }
    destruct (rp_free _ _ R z Hz Hzm) as [L1 L2].
    assert ((inr z : K + A) ∉ inl q :: (inr <$> l1 ++ x :: l2)) as Hzn.
    { intros [?|(w & Hw & Hin)%list_elem_of_fmap]%elem_of_cons; [done|]. simplify_eq.
      apply (Hzm q). unfold qget. by rewrite Hq. }
    destruct HI as [[In Ip] _]. split.
    + rewrite In, decide_False; [done| |congruence]. intros <-. by apply Hzn.
    + rewrite Ip, decide_False; [done| |congruence]. intros <-. by apply Hzn.
Qed.

Lemma insert_at s m q l1 l2 x :
  represents s m -> m !! q = Some (l1 ++ l2) -> is_Some (s !! inr x) -> (forall q', x ∉ qget m q') ->
  (exists s', list_insert_after (before (inl q) (inr <$> l1)) (inr x) s = Some s' /\
     represents s' (<[q := l1 ++ x :: l2]> m)) /\
  (exists s', list_insert_before (behind (inl q) (inr <$> l2)) (inr x) s = Some s' /\
     represents s' (<[q := l1 ++ x :: l2]> m)).
Proof.
  intros R Hq Hs Hx. pose proof (rp_list _ _ R q _ Hq) as [_ Hl]. rewrite fmap_app in Hl.
  pose proof (linked_links _ _ _ _ _ Hl) as L.
  assert (forall l0 : list A, (forall z, z ∈ l0 -> z ∈ l1 ++ l2) ->
    (inr x : K + A) ∉ inl q :: (inr <$> l0)) as Hn.
  { intros l0 Hl0 [?|(z & Hz & Hin)%list_elem_of_fmap]%elem_of_cons; [done|]. simplify_eq.
    apply (Hx q). unfold qget. rewrite Hq. by apply Hl0. }
  assert ((inr x : K + A) <> before (inl q) (inr <$> l1)) as H1.
  { intros E. apply (Hn l1); [intros z; rewrite elem_of_app; tauto|]. rewrite E. apply before_in. }
  assert ((inr x : K + A) <> behind (inl q) (inr <$> l2)) as H2.
  { intros E. apply (Hn l2); [intros z; rewrite elem_of_app; tauto|]. rewrite E. apply behind_in. }
  split.
  - destruct (insert_after_spec _ (inr x) _ s L Hs H1 H2) as (s' & E & HI & Hd).
    exists s'. split; [done|]. by apply (insert_represents s).
  - destruct (insert_before_spec _ (inr x) _ s L Hs H1 H2) as (s' & E & HI & Hd).
    exists s'. split; [done|]. by apply (insert_represents s).
Qed.

(** A node on no list may be removed: nothing happens. *)
Lemma represents_same s s' m :
  represents s m -> (forall z, nxt s' z = nxt s z) -> (forall z, prv s' z = prv s z) ->
  (forall z, is_Some (s' !! z) <-> is_Some (s !! z)) -> represents s' m.
Proof.
  intros R Hn Hp Hd. constructor.
  - intros q l Hq. destruct (rp_list _ _ R q l Hq) as [Hnd Hl]. split; [done|].
    by apply (linked_ext s).
  - apply R.
  - intros x Hx Hq. apply Hd in Hx. destruct (rp_free _ _ R x Hx Hq). split; by rewrite ?Hn, ?Hp.
Qed.

Lemma remove_at s m x :
  represents s m -> is_Some (s !! inr x) ->
  exists s', list_remove (inr x) s = Some s' /\ represents s' (rt_list_remove x m).
Proof.
  intros R Hs. destruct (decide (map_Forall (fun _ l => x ∉ l) m)) as [Hno|Hin].
  - assert (forall q, x ∉ qget m q) as Hq.
    { intros q. unfold qget. destruct (m !! q) as [l|] eqn:E; [by apply (Hno q)|].
      apply not_elem_of_nil. }
    pose proof (rp_free _ _ R x Hs Hq) as L.
    destruct (remove_spec (inr x) (inr x) (inr x) s L L) as (s' & E & [[In Ip] [Sn Sp]] & Hd).
    exists s'. split; [done|].
    assert (rt_list_remove x m = m) as ->.
    { apply map_eq. intros q. unfold rt_list_remove. rewrite lookup_fmap.
      destruct (m !! q) as [l|] eqn:El; [|done]. simpl. f_equal. apply filter_ne_notin.
      by apply (Hno q). }
    destruct L as [L1 L2]. apply (represents_same s); [done| | |done].
    + intros z. destruct (decide (z = inr x)) as [->|Hz]; [congruence|]. by rewrite In, decide_False.
    + intros z. destruct (decide (z = inr x)) as [->|Hz]; [congruence|]. by rewrite Ip, decide_False.
  - apply map_not_Forall in Hin as (q & l & Hq & Hx); [|apply _].
    apply dec_stable in Hx. apply list_elem_of_split in Hx as (l1 & l2 & ->).
    pose proof (rp_list _ _ R q _ Hq) as [_ Hl]. rewrite fmap_app in Hl. simpl fmap in Hl.
    pose proof Hl as Hl'. apply linked_links in Hl'. simpl in Hl'.
    apply linked_app in Hl as [_ Hl]. pose proof (linked_links s (inr x) [] (inr <$> l2) (inl q) Hl) as L2.
    destruct (remove_spec _ _ _ s Hl' L2) as (s' & E & HI & Hd). exists s'. split; [done|].
    by apply (remove_represents s s' m q l1 l2).
Qed.

(** C9: the pointer manipulations of rtservice.h implement the lists of the
    model. Inserting a node that is on no list after or before a list head or
    a node of a list puts the element at that place of that list; removing a
    node takes its element off whatever list it is on, and does nothing to a
    node that is on none; [rt_list_isempty] and [rt_list_len] answer for the
    list. All other lists are left as they are. *)
Theorem rt_list_refines s m :
  represents s m ->
  (forall q x, is_Some (m !! q) -> is_Some (s !! inr x) -> (forall q', x ∉ qget m q') ->
     (exists s', list_insert_after (inl q) (inr x) s = Some s' /\
        represents s' (rt_list_insert_after q x m)) /\
     (exists s', list_insert_before (inl q) (inr x) s = Some s' /\
        represents s' (rt_list_insert_before q x m))) /\
  (forall q l1 y l2 x, m !! q = Some (l1 ++ y :: l2) -> is_Some (s !! inr x) ->
     (forall q', x ∉ qget m q') ->
     (exists s', list_insert_after (inr y) (inr x) s = Some s' /\
        represents s' (<[q := l1 ++ y :: x :: l2]> m)) /\
     (exists s', list_insert_before (inr y) (inr x) s = Some s' /\
        represents s' (<[q := l1 ++ x :: y :: l2]> m))) /\
  (forall x, is_Some (s !! inr x) ->
     exists s', list_remove (inr x) s = Some s' /\ represents s' (rt_list_remove x m)) /\
  (forall q, is_Some (m !! q) -> list_isempty (inl q) s = Some (rt_list_isempty q m)) /\
  (forall q l, m !! q = Some l -> zlen l < 2 ^ 32 ->
     list_len (S (length l)) (inl q) s = Some (zlen l)).
Proof.
  intros R. split; [|split; [|split; [|split]]].
  - intros q x [l Hq] Hs Hx. unfold rt_list_insert_after, rt_list_insert_before.
    assert (qget m q = l) as -> by (unfold qget; by rewrite Hq). split.
    + by apply (insert_at s m q [] l x).
    + apply (insert_at s m q l [] x); [done|by rewrite app_nil_r|done|done].
  - intros q l1 y l2 x Hq Hs Hx. split.
    + destruct (insert_at s m q (l1 ++ [y]) l2 x) as [(s' & E & R') _];
        [done|by rewrite <- app_assoc|done|done|].
      rewrite <- app_assoc in R'. exists s'. split; [|done].
      unfold before in E. rewrite fmap_app in E. simpl fmap in E. by rewrite last_snoc in E.
    + by apply (insert_at s m q l1 (y :: l2) x).
  - intros x Hs. by apply remove_at.
  - intros q [l Hq]. rewrite (list_isempty_spec s (inl q) (inr <$> l)) by by apply (rp_list _ _ R).
    f_equal. unfold rt_list_isempty, qget. rewrite Hq. simpl. by destruct l.
  - intros q l Hq Hlen. destruct (rp_list _ _ R q l Hq) as [Hnd Hl].
    apply NoDup_cons in Hnd as [Hh _]. unfold list_len.
    assert (zlen ((inr : A -> K + A) <$> l) = zlen l) as Ez by (unfold zlen; by rewrite length_fmap).
    rewrite (list_len_loop_spec s (inl q) (inl q) (inr <$> l) 0); rewrite ?Ez; try done.
    rewrite length_fmap. lia.
Qed.
End kernel_lists.

(** ** A concrete store *)

(** Two heads, 0 with the nodes 1 and 2 and 1 without nodes, and a node 3 on no
    list. *)
Definition demo_store : gmap (nat + nat) (rt_list_node (nat + nat)) :=
  <[inl 0%nat := RtListNode (inr 1%nat) (inr 2%nat)]>
  (<[inr 1%nat := RtListNode (inr 2%nat) (inl 0%nat)]>
  (<[inr 2%nat := RtListNode (inl 0%nat) (inr 1%nat)]>
  (list_init (inl 1%nat) (list_init (inr 3%nat) ∅)))).
Definition demo_lists : gmap nat (list nat) := <[0%nat := [1%nat; 2%nat]]> (<[1%nat := []]> ∅).

Lemma demo_lists_inv q l :
  demo_lists !! q = Some l -> (q = 0%nat /\ l = [1%nat; 2%nat]) \/ (q = 1%nat /\ l = []).
Proof.
  unfold demo_lists. rewrite !lookup_insert. repeat case_decide; subst; intros [= <-]; auto.
Qed.

Lemma demo_represents : represents demo_store demo_lists.
Proof.
  constructor.
  - intros q l [[-> ->]|[-> ->]]%demo_lists_inv; (split; [|by vm_compute]).
    + repeat constructor; set_solver.
    + repeat constructor; set_solver.
  - intros q q' l l' x [[-> ->]|[-> ->]]%demo_lists_inv [[-> ->]|[-> ->]]%demo_lists_inv; set_solver.
  - intros x Hx Hq. destruct (decide (x = 3%nat)) as [->|Hne]; [by vm_compute|].
    exfalso. assert (x = 1%nat \/ x = 2%nat) as [-> | ->].
    { destruct Hx as [n Hn]. revert Hn. unfold demo_store, list_init. rewrite !lookup_insert.
      repeat case_decide; simplify_eq; auto. done. }
    + apply (Hq 0%nat). vm_compute. left.
    + apply (Hq 0%nat). vm_compute. right. left.
Qed.

(** Node 3 is inserted between the nodes 1 and 2. *)
Lemma rt_list_refines_witness :
  exists s', list_insert_before (inr 2%nat) (inr 3%nat) demo_store = Some s' /\
    represents s' (<[0%nat := [1%nat; 3%nat; 2%nat]]> demo_lists).
Proof.
  destruct (rt_list_refines demo_store demo_lists demo_represents) as (_ & H & _).
  apply (H 0%nat [1%nat] 2%nat [] 3%nat).
  - vm_compute. reflexivity.
  - vm_compute. eauto.
  - intros q. unfold qget. destruct (demo_lists !! q) as [l|] eqn:E; [|apply not_elem_of_nil].
    apply demo_lists_inv in E as [[-> ->]|[-> ->]]; simpl;
      rewrite ?not_elem_of_cons; repeat split; try discriminate; apply not_elem_of_nil.
Defined.
