(* ===== verification/Sched.v ===== *)
(** * The scheduler

    [src/scheduler.c] in the configured build (one CPU, 32 priorities): the
    ready table with its priority bitmap, the choice of the next thread and
    the critical sections. The hooks are null and the stack check is not
    modelled. *)
From S2P Require Import Prelude Kservice Kernel.

Definition rt_thread_self : M (option nat) := gets k_current.
(** [rt_current_thread->...]: the running thread, which must be there. *)
Definition current_thread : M nat := c ← rt_thread_self; deref c.

Definition rt_critical_level : M Z := gets (fun k => u16 (k_lock_nest k)).
Definition rt_interrupt_get_nest : M Z := gets k_interrupt_nest.

(** [RT_DEBUG_NOT_IN_INTERRUPT], [RT_DEBUG_IN_THREAD_CONTEXT] and
    [RT_DEBUG_SCHEDULER_AVAILABLE(need_check)] of rtdebug.h. *)
Definition RT_DEBUG_NOT_IN_INTERRUPT : M unit :=
  n ← rt_interrupt_get_nest; rt_assert (n =? 0).
Definition RT_DEBUG_IN_THREAD_CONTEXT : M unit :=
  c ← rt_thread_self; rt_assert (bool_decide (is_Some c));; RT_DEBUG_NOT_IN_INTERRUPT.
Definition RT_DEBUG_SCHEDULER_AVAILABLE (need_check : bool) : M unit :=
  when need_check
    (l ← rt_critical_level; rt_assert (l =? 0);; RT_DEBUG_IN_THREAD_CONTEXT).

(** The head of the highest non-empty ready list, and its priority. *)
Definition _scheduler_get_highest_priority_thread : M (nat * Z) :=
  group ← gets k_ready_group;
  let highest_ready_priority := u64 (__rt_ffs group - 1) in
  l ← gets (fun k => qget (k_tq k) (QReady highest_ready_priority));
  t ← deref (head l);
  mret (t, highest_ready_priority).

Definition rt_schedule_insert_thread (thread : nat) : M unit :=
  current ← gets k_current;
  if decide (current = Some thread) then
    upd_thread thread (with_stat RT_THREAD_RUNNING)
  else
    upd_thread thread (with_stat RT_THREAD_READY);;
    th ← get_thread thread;
    (if yields th then
       modify_tq (rt_list_insert_before (QReady (th_current_priority th)) thread)
     else
       modify_tq (rt_list_insert_after (QReady (th_current_priority th)) thread));;
    modify (fun k => set_k_ready_group (Z.lor (k_ready_group k) (th_number_mask th)) k).

Definition rt_schedule_remove_thread (thread : nat) : M unit :=
  th ← get_thread thread;
  modify_tq (rt_list_remove thread);;
  empty ← gets (fun k => rt_list_isempty (QReady (th_current_priority th)) (k_tq k));
  when empty
    (modify (fun k =>
       set_k_ready_group (Z.land (k_ready_group k) (Z.lnot (th_number_mask th))) k)).

Definition rt_schedule : M unit :=
  nest ← gets k_lock_nest;
  when (nest =? 0)
    (group ← gets k_ready_group;
     when (negb (group =? 0))
       ('(highest, highest_ready_priority) ← _scheduler_get_highest_priority_thread;
        current ← current_thread;
        th ← get_thread current;
        '(to_thread, need_insert_from_thread) ←
          (if stat_of th =? RT_THREAD_RUNNING then
             upd_thread current clear_yield;;
             (if th_current_priority th <? highest_ready_priority then mret (current, false)
              else if (th_current_priority th =? highest_ready_priority) && negb (yields th)
              then mret (current, false)
              else mret (highest, true))
           else mret (highest, false));
        if decide (to_thread = current) then
          rt_schedule_remove_thread current;;
          upd_thread current (with_stat RT_THREAD_RUNNING)
        else
          modify (set_k_current_priority (u8 highest_ready_priority));;
          modify (set_k_current (Some to_thread));;
          when need_insert_from_thread (rt_schedule_insert_thread current);;
          rt_schedule_remove_thread to_thread;;
          upd_thread to_thread (with_stat RT_THREAD_RUNNING))).

Definition rt_enter_critical : M unit :=
  modify (fun k => set_k_lock_nest (s16 (k_lock_nest k + 1)) k).

Definition rt_exit_critical : M unit :=
  modify (fun k => set_k_lock_nest (s16 (k_lock_nest k - 1)) k);;
  nest ← gets k_lock_nest;
  if nest <=? 0 then
    modify (set_k_lock_nest 0);;
    current ← rt_thread_self;
    when (bool_decide (is_Some current)) rt_schedule
  else mret tt.

Definition rt_system_scheduler_init : M unit :=
  modify (set_k_lock_nest 0);;
  modify_tq (fun tq => foldr (fun p m => <[QReady p := []]> m) tq (seqZ 0 RT_THREAD_PRIORITY_MAX));;
  modify (set_k_ready_group 0).

(** [rt_hw_context_switch_to] starts [to_thread] and does not return. *)
Definition rt_system_scheduler_start : M unit :=
  '(to_thread, _) ← _scheduler_get_highest_priority_thread;
  modify (set_k_current (Some to_thread));;
  rt_schedule_remove_thread to_thread;;
  upd_thread to_thread (set_th_stat RT_THREAD_RUNNING).

(** ** The scheduler invariant

    [float] names the one thread, if any, that is between two lists: it is on
    no list and its status is not yet meaningful. *)

Definition is_wait (q : waitq) : Prop :=
  match q with QReady _ | QDefunct => False | _ => True end.

Record sched_inv (float : option nat) (k : kstate) : Prop := SchedInv {
  so_excl q q' t : t ∈ qget (k_tq k) q -> t ∈ qget (k_tq k) q' -> q = q';
  so_nodup q : NoDup (qget (k_tq k) q);
  so_float q t : float = Some t -> t ∉ qget (k_tq k) q;
  so_ready p t : t ∈ qget (k_tq k) (QReady p) ->
    exists th, k_threads k !! t = Some th /\ stat_of th = RT_THREAD_READY /\
      th_current_priority th = p;
  so_wait q t : is_wait q -> t ∈ qget (k_tq k) q ->
    exists th, k_threads k !! t = Some th /\ stat_of th = RT_THREAD_SUSPEND;
  so_defunct t : t ∈ qget (k_tq k) QDefunct ->
    exists th, k_threads k !! t = Some th /\ stat_of th = RT_THREAD_CLOSE;
  so_queued t th : k_threads k !! t = Some th -> float <> Some t ->
    stat_of th = RT_THREAD_READY -> t ∈ qget (k_tq k) (QReady (th_current_priority th));
  so_running t th : k_threads k !! t = Some th -> float <> Some t ->
    stat_of th = RT_THREAD_RUNNING -> k_current k = Some t;
  so_prio t th : k_threads k !! t = Some th ->
    0 <= th_current_priority th < 32 /\
    (stat_of th <> RT_THREAD_INIT -> stat_of th <> RT_THREAD_CLOSE ->
     th_number_mask th = 2 ^ th_current_priority th);
  so_group : 0 <= k_ready_group k;
  so_bits p : 0 <= p ->
    Z.testbit (k_ready_group k) p = true <-> qget (k_tq k) (QReady p) <> []
}.

(** Between two operations: nothing floats, and the current thread is there
    and not on a ready list. *)
Record sched_ok (k : kstate) : Prop := SchedOk {
  ok_inv : sched_inv None k;
  ok_current t : k_current k = Some t ->
    exists th, k_threads k !! t = Some th /\ stat_of th <> RT_THREAD_READY
}.

(** ** The ready-table primitives as state transformations *)

Definition insert_st (t : nat) (th : rt_thread) (k : kstate) : kstate :=
  let th' := with_stat RT_THREAD_READY th in
  let q := QReady (th_current_priority th) in
  set_k_ready_group (Z.lor (k_ready_group k) (th_number_mask th))
    (set_k_tq (if yields th then rt_list_insert_before q t (k_tq k)
               else rt_list_insert_after q t (k_tq k))
       (set_k_threads (<[t := th']> (k_threads k)) k)).

Definition remove_st (t : nat) (th : rt_thread) (k : kstate) : kstate :=
  let tq := rt_list_remove t (k_tq k) in
  set_k_ready_group
    (if rt_list_isempty (QReady (th_current_priority th)) tq
     then Z.land (k_ready_group k) (Z.lnot (th_number_mask th)) else k_ready_group k)
    (set_k_tq tq k).

Definition thread_st (t : nat) (th : rt_thread) (k : kstate) : kstate :=
  set_k_threads (<[t := th]> (k_threads k)) k.

Lemma upd_thread_eq t f k th :
  k_threads k !! t = Some th -> upd_thread t f k = Some (tt, thread_st t (f th) k).
Proof. intros H. unfold upd_thread. rewrite bind_unfold. unfold get_thread. by rewrite H. Qed.

Lemma get_thread_eq t k th :
  k_threads k !! t = Some th -> get_thread t k = Some (th, k).
Proof. intros H. unfold get_thread. by rewrite H. Qed.

Lemma current_thread_eq k c : k_current k = Some c -> current_thread k = Some (c, k).
Proof. intros Hc. unfold current_thread, rt_thread_self. mrun. by rewrite Hc. Qed.

Lemma thread_st_lookup t th k : k_threads (thread_st t th k) !! t = Some th.
Proof. apply lookup_insert_eq. Qed.

Lemma insert_current t k th :
  k_threads k !! t = Some th -> k_current k = Some t ->
  rt_schedule_insert_thread t k = Some (tt, thread_st t (with_stat RT_THREAD_RUNNING th) k).
Proof.
  intros H Hc. unfold rt_schedule_insert_thread. mrun.
  rewrite decide_True by done. by apply upd_thread_eq.
Qed.

Lemma insert_eq t k th :
  k_threads k !! t = Some th -> k_current k <> Some t ->
  rt_schedule_insert_thread t k = Some (tt, insert_st t th k).
Proof.
  intros H Hc. unfold rt_schedule_insert_thread. mrun.
  rewrite decide_False by done. rewrite (upd_thread_eq t _ k th) by done.
  erewrite get_thread_eq by apply thread_st_lookup.
  rewrite yields_with_stat by done. unfold insert_st. by destruct (yields th).
Qed.

Lemma remove_eq t k th :
  k_threads k !! t = Some th ->
  rt_schedule_remove_thread t k = Some (tt, remove_st t th k).
Proof.
  intros H. unfold rt_schedule_remove_thread. mrun.
  rewrite (get_thread_eq t k th) by done. unfold remove_st. kfields.
  by destruct (rt_list_isempty _ _), k.
Qed.

(** ** Preservation of the invariant by the primitives *)

Lemma lor_pow2_bit g p q :
  0 <= p -> 0 <= q ->
  Z.testbit (Z.lor g (2 ^ p)) q = (if decide (q = p) then true else Z.testbit g q).
Proof.
  intros. rewrite Z.lor_spec, Z.pow2_bits_eqb by lia.
  case_decide; destruct (Z.eqb_spec p q); try lia; by rewrite ?orb_true_r, ?orb_false_r.
Qed.

Lemma clear_pow2_bit g p q :
  0 <= p -> 0 <= q ->
  Z.testbit (Z.land g (Z.lnot (2 ^ p))) q = (if decide (q = p) then false else Z.testbit g q).
Proof.
  intros. rewrite Z.land_spec, Z.lnot_spec, Z.pow2_bits_eqb by lia.
  case_decide; destruct (Z.eqb_spec p q); try lia; simpl;
    by rewrite ?andb_true_r, ?andb_false_r.
Qed.

Lemma remove_inv t th k :
  sched_inv None k -> k_threads k !! t = Some th -> stat_of th <> RT_THREAD_INIT ->
  stat_of th <> RT_THREAD_CLOSE ->
  sched_inv (Some t) (remove_st t th k).
Proof.
  intros [Hex Hnd Hfl Hrd Hwt Hdf Hqd Hrun Hpr Hg Hb] Ht Hs Hs'. destruct (Hpr t th Ht) as [Hp Hm].
  specialize (Hm Hs Hs').
  assert (forall q x, x ∈ qget (rt_list_remove t (k_tq k)) q <->
            x <> t /\ x ∈ qget (k_tq k) q) as Hin.
  { intros q x. apply elem_remove. }
  constructor; unfold remove_st; kfields.
  - intros q q' x [_ H1]%Hin [_ H2]%Hin. eauto.
  - intros q. rewrite qget_remove. by apply NoDup_filter.
  - intros q x [= ->] [? _]%Hin. done.
  - intros p x [_ H1]%Hin. eauto.
  - intros q x Hq [_ H1]%Hin. eauto.
  - intros x [_ H1]%Hin. eauto.
  - intros x thx Hx Hne Hsx. apply Hin. split; [congruence|]. by apply Hqd.
  - intros x thx Hx Hne. by apply Hrun.
  - done.
  - destruct (rt_list_isempty _ _); [|done]. apply Z.land_nonneg. by left.
  - intros p Hp0.
    assert (p <> th_current_priority th ->
      qget (rt_list_remove t (k_tq k)) (QReady p) = qget (k_tq k) (QReady p)) as Hother.
    { intros Hne. rewrite qget_remove. apply filter_ne_notin. intros Hx.
      destruct (Hrd p t Hx) as (? & ? & ? & ?). congruence. }
    destruct (rt_list_isempty (QReady (th_current_priority th)) _) eqn:He.
    + apply isempty_spec in He. rewrite Hm, clear_pow2_bit by lia. case_decide as Hd.
      * subst p. by rewrite He.
      * rewrite Hother by done. by apply Hb.
    + destruct (decide (p = th_current_priority th)) as [->|Hne].
      * rewrite Hb by lia. rewrite qget_remove. split; intros Hq; intros H0.
        -- assert (rt_list_isempty (QReady (th_current_priority th))
             (rt_list_remove t (k_tq k)) = true); [|congruence].
           apply isempty_spec. by rewrite qget_remove.
        -- rewrite H0 in Hq. by rewrite filter_nil in Hq.
      * rewrite Hother by done. by apply Hb.
Qed.

Lemma insert_inv t th k :
  sched_inv (Some t) k -> k_threads k !! t = Some th ->
  th_number_mask th = 2 ^ th_current_priority th ->
  sched_inv None (insert_st t th k).
Proof.
  intros [Hex Hnd Hfl Hrd Hwt Hdf Hqd Hrun Hpr Hg Hb] Ht Hm.
  destruct (Hpr t th Ht) as [Hp _].
  set (q0 := QReady (th_current_priority th)).
  set (tq' := if yields th then rt_list_insert_before q0 t (k_tq k)
              else rt_list_insert_after q0 t (k_tq k)).
  assert (forall q x, x ∈ qget tq' q <-> x ∈ qget (k_tq k) q \/ (x = t /\ q = q0)) as Hin.
  { intros q x. subst tq'.
    destruct (yields th); [apply elem_insert_before|apply elem_insert_after]. }
  assert (forall q, t ∉ qget (k_tq k) q) as Hnt by (intros; by apply Hfl).
  constructor; unfold insert_st; kfields; fold q0 tq'.
  - intros q q' x [H1|[-> ->]]%Hin [H2|[Hx ->]]%Hin; subst; eauto; exfalso; by eapply Hnt.
  - intros q. subst tq'.
    destruct (yields th); [apply nodup_insert_before|apply nodup_insert_after]; auto.
  - done.
  - intros p x [H1|[-> Hq]]%Hin.
    + assert (x <> t) by (intros ->; by eapply Hnt). rewrite lookup_insert_ne by done. eauto.
    + injection Hq as ->. rewrite lookup_insert_eq. eexists. split; [done|].
      rewrite stat_with_stat. done.
  - intros q x Hq [H1|[-> ->]]%Hin; [|done].
    assert (x <> t) by (intros ->; by eapply Hnt). rewrite lookup_insert_ne by done. eauto.
  - intros x [H1|[_ Hq]]%Hin; [|done].
    assert (x <> t) by (intros ->; by eapply Hnt). rewrite lookup_insert_ne by done. eauto.
  - intros x thx Hx _ Hs. apply Hin. destruct (decide (x = t)) as [->|Hne].
    + rewrite lookup_insert_eq in Hx. injection Hx as <-. by right.
    + rewrite lookup_insert_ne in Hx by done. left. apply Hqd; congruence.
  - intros x thx Hx _ Hs. destruct (decide (x = t)) as [->|Hne].
    + rewrite lookup_insert_eq in Hx. injection Hx as <-. by rewrite stat_with_stat in Hs.
    + rewrite lookup_insert_ne in Hx by done. apply (Hrun x thx); congruence.
  - intros x thx Hx. destruct (decide (x = t)) as [->|Hne].
    + rewrite lookup_insert_eq in Hx. injection Hx as <-. done.
    + rewrite lookup_insert_ne in Hx by done. eauto.
  - apply Z.lor_nonneg. split; [done|]. rewrite Hm. apply Z.pow_nonneg. lia.
  - intros p Hp0. rewrite Hm, lor_pow2_bit by lia. case_decide as Hd.
    + subst p. split; [intros _|done]. intros H0.
      assert (t ∈ qget tq' q0) as Hx by (apply Hin; by right). fold q0 in H0.
      rewrite H0 in Hx. by apply elem_of_nil in Hx.
    + rewrite Hb by done. subst tq'. unfold q0. destruct (yields th);
        rewrite ?qget_insert_before, ?qget_insert_after; by rewrite decide_False by congruence.
Qed.

(** A floating thread may be given any status that keeps it off the lists. *)
Lemma thread_float_inv t th th' k :
  sched_inv (Some t) k -> k_threads k !! t = Some th ->
  0 <= th_current_priority th' < 32 ->
  (stat_of th' <> RT_THREAD_INIT -> stat_of th' <> RT_THREAD_CLOSE ->
   th_number_mask th' = 2 ^ th_current_priority th') ->
  sched_inv (Some t) (thread_st t th' k).
Proof.
  intros [Hex Hnd Hfl Hrd Hwt Hdf Hqd Hrun Hpr Hg Hb] Ht Hp Hm.
  assert (forall q, t ∉ qget (k_tq k) q) as Hnt by (intros; by apply Hfl).
  constructor; unfold thread_st; kfields; try done.
  - intros p x Hx. rewrite lookup_insert_ne by (intros ->; by eapply Hnt). eauto.
  - intros q x Hq Hx. rewrite lookup_insert_ne by (intros ->; by eapply Hnt). eauto.
  - intros x Hx. rewrite lookup_insert_ne by (intros ->; by eapply Hnt). eauto.
  - intros x thx Hx Hne. rewrite lookup_insert_ne in Hx by congruence. eauto.
  - intros x thx Hx Hne. rewrite lookup_insert_ne in Hx by congruence. eauto.
  - intros x thx Hx. destruct (decide (x = t)) as [->|Hne].
    + rewrite lookup_insert_eq in Hx. injection Hx as <-. done.
    + rewrite lookup_insert_ne in Hx by done. eauto.
Qed.

Lemma unfloat_inv t th k :
  sched_inv (Some t) k -> k_threads k !! t = Some th ->
  stat_of th <> RT_THREAD_READY ->
  (stat_of th = RT_THREAD_RUNNING -> k_current k = Some t) ->
  sched_inv None k.
Proof.
  intros [Hex Hnd Hfl Hrd Hwt Hdf Hqd Hrun Hpr Hg Hb] Ht Hs Hc.
  constructor; try done.
  - intros x thx Hx _ Hsx. destruct (decide (x = t)) as [->|Hne]; [congruence|].
    apply Hqd; congruence.
  - intros x thx Hx _ Hsx. destruct (decide (x = t)) as [->|Hne]; [apply Hc; congruence|].
    apply (Hrun x thx); congruence.
Qed.

Lemma current_inv float c k :
  sched_inv float k ->
  (forall t th, k_threads k !! t = Some th -> float <> Some t ->
     stat_of th = RT_THREAD_RUNNING -> c = Some t) ->
  sched_inv float (set_k_current c k).
Proof. intros [] Hc. by constructor. Qed.

Lemma priority_inv float p k :
  sched_inv float k -> sched_inv float (set_k_current_priority p k).
Proof. intros []. by constructor. Qed.

(** A running thread is on no list, so it may be taken to float. *)
Lemma float_running t th k :
  sched_inv None k -> k_threads k !! t = Some th -> stat_of th = RT_THREAD_RUNNING ->
  sched_inv (Some t) k.
Proof.
  intros [Hex Hnd Hfl Hrd Hwt Hdf Hqd Hrun Hpr Hg Hb] Ht Hs. constructor; try done.
  - intros q x [= ->] Hx.
    assert (exists th', k_threads k !! x = Some th' /\ stat_of th' <> RT_THREAD_RUNNING)
      as (th' & ? & ?); [|congruence].
    destruct q.
    1: destruct (Hrd _ _ Hx) as (th' & E & Es & _).
    2: destruct (Hdf _ Hx) as (th' & E & Es).
    3-13: edestruct Hwt as (th' & E & Es); [| exact Hx |]; [done|].
    all: exists th'; split; [exact E|by rewrite Es].
  - intros x thx Hx _. by apply Hqd.
  - intros x thx Hx _. by apply (Hrun x thx).
Qed.

(** ** What the scheduler may change *)

Definition blocked (th : rt_thread) : Prop :=
  stat_of th <> RT_THREAD_READY /\ stat_of th <> RT_THREAD_RUNNING.

Record sched_frame (k k' : kstate) : Prop := SchedFrame {
  sf_state : exists th tq cur cp g,
    k' = set_k_threads th (set_k_tq tq (set_k_current cur
           (set_k_current_priority cp (set_k_ready_group g k))));
  sf_wait q : (forall p, q <> QReady p) -> qget (k_tq k') q = qget (k_tq k) q;
  sf_thread t th : k_threads k !! t = Some th ->
    exists s, k_threads k' !! t = Some (set_th_stat s th) /\
      (blocked th -> set_th_stat s th = th) /\
      (~ blocked th -> ~ blocked (set_th_stat s th));
  sf_none t : k_threads k !! t = None -> k_threads k' !! t = None
}.

Lemma kstate_eta k :
  k = set_k_threads (k_threads k) (set_k_tq (k_tq k) (set_k_current (k_current k)
        (set_k_current_priority (k_current_priority k) (set_k_ready_group (k_ready_group k) k)))).
Proof. by destruct k. Qed.

Lemma set_th_stat_id th : set_th_stat (th_stat th) th = th.
Proof. by destruct th. Qed.

#[export] Instance sched_frame_refl : Reflexive sched_frame.
Proof.
  intros k. constructor; try done.
  - do 5 eexists. apply kstate_eta.
  - intros t th Ht. exists (th_stat th). by rewrite set_th_stat_id.
Qed.

#[export] Instance sched_frame_trans : Transitive sched_frame.
Proof.
  intros k1 k2 k3 [(a & b & c & d & e & ->) W1 T1 N1] [(a' & b' & c' & d' & e' & ->) W2 T2 N2].
  constructor.
  - by exists a', b', c', d', e'.
  - intros q Hq. by rewrite W2, W1.
  - intros t th Ht. destruct (T1 t th Ht) as (s & Hs & Hb & Hnb).
    destruct (T2 t _ Hs) as (s' & Hs' & Hb' & Hnb'). exists s'.
    split; [done|]. split.
    + intros Hbl. specialize (Hb Hbl). rewrite Hb in Hb'. by apply Hb' in Hbl.
    + intros Hnbl. by apply Hnb', Hnb.
  - intros t Ht. by apply N2, N1.
Qed.

(** The fields [sched_frame] fixes, one by one. *)
Lemma sched_frame_fields k k' :
  sched_frame k k' ->
  k_timers k' = k_timers k /\ k_tmq k' = k_tmq k /\ k_sems k' = k_sems k /\
  k_mutexes k' = k_mutexes k /\ k_events k' = k_events k /\ k_mbs k' = k_mbs k /\
  k_mqs k' = k_mqs k /\ k_mps k' = k_mps k /\ k_completions k' = k_completions k /\
  k_dqs k' = k_dqs k /\ k_objlist k' = k_objlist k /\
  k_lock_nest k' = k_lock_nest k /\ k_interrupt_nest k' = k_interrupt_nest k /\
  k_tick k' = k_tick k /\ k_soft_status k' = k_soft_status k /\
  k_timer_thread k' = k_timer_thread k /\ k_errno k' = k_errno k /\
  k_devices k' = k_devices k /\ k_wqueues k' = k_wqueues k /\ k_wqlists k' = k_wqlists k /\
  k_wqnodes k' = k_wqnodes k /\ k_works k' = k_works k /\ k_workqueues k' = k_workqueues k /\
  k_wklists k' = k_wklists k.
Proof. by intros [(a & b & c & d & e & ->) _ _ _]. Qed.

(** Setting the scheduled status of a thread that is not blocked. *)
Lemma frame_stat t th s k :
  k_threads k !! t = Some th -> ~ blocked th -> ~ blocked (set_th_stat s th) ->
  sched_frame k (thread_st t (set_th_stat s th) k).
Proof.
  intros Ht Hb Hb'. constructor; try done.
  - exists (<[t := set_th_stat s th]> (k_threads k)), (k_tq k), (k_current k),
      (k_current_priority k), (k_ready_group k). by destruct k.
  - intros x thx Hx. unfold thread_st; kfields. destruct (decide (x = t)) as [->|Hne].
    + rewrite lookup_insert_eq. assert (thx = th) as -> by congruence. by exists s.
    + rewrite lookup_insert_ne by done. exists (th_stat thx). by rewrite set_th_stat_id.
  - intros x Hx. unfold thread_st; kfields. rewrite lookup_insert_ne; congruence.
Qed.

Lemma frame_current c k : sched_frame k (set_k_current c k).
Proof.
  constructor; try done; [by exists (k_threads k), (k_tq k), c, (k_current_priority k),
    (k_ready_group k); destruct k|].
  intros t th Ht. exists (th_stat th). by rewrite set_th_stat_id.
Qed.

Lemma frame_priority c k : sched_frame k (set_k_current_priority c k).
Proof.
  constructor; try done; [by exists (k_threads k), (k_tq k), (k_current k), c,
    (k_ready_group k); destruct k|].
  intros t th Ht. exists (th_stat th). by rewrite set_th_stat_id.
Qed.

Lemma frame_remove t th k :
  (forall q, (forall p, q <> QReady p) -> t ∉ qget (k_tq k) q) ->
  sched_frame k (remove_st t th k).
Proof.
  intros Hq. constructor; try done.
  - exists (k_threads k), (rt_list_remove t (k_tq k)), (k_current k), (k_current_priority k),
      (k_ready_group (remove_st t th k)). by destruct k.
  - intros q Hr. unfold remove_st; kfields. rewrite qget_remove. by apply filter_ne_notin, Hq.
  - intros x thx Hx. exists (th_stat thx). by rewrite set_th_stat_id.
Qed.

Lemma frame_insert t th k :
  k_threads k !! t = Some th -> ~ blocked th -> sched_frame k (insert_st t th k).
Proof.
  intros Ht Hb. unfold insert_st.
  set (tq' := if yields th then _ else _).
  assert (forall q, (forall p, q <> QReady p) -> qget tq' q = qget (k_tq k) q) as Htq.
  { intros q Hq. subst tq'. destruct (yields th);
      rewrite ?qget_insert_before, ?qget_insert_after;
      rewrite decide_False by (by intros <-; apply (Hq (th_current_priority th))); done. }
  assert (~ blocked (with_stat RT_THREAD_READY th)) as Hb'.
  { intros [H _]. apply H. by rewrite stat_with_stat. }
  destruct (frame_stat t th _ k Ht Hb Hb') as [_ _ Hth Hnone].
  constructor; try done.
  exists (<[t := with_stat RT_THREAD_READY th]> (k_threads k)), tq', (k_current k),
    (k_current_priority k), (Z.lor (k_ready_group k) (th_number_mask th)). by destruct k.
Qed.

(** ** [rt_schedule] *)

Lemma group_lt k : sched_inv None k -> k_ready_group k < 2 ^ 32.
Proof.
  intros H. destruct (Z.ltb_spec (k_ready_group k) (2 ^ 32)) as [?|Hge]; [done|exfalso].
  pose proof (so_group _ _ H).
  assert (32 <= Z.log2 (k_ready_group k)) as Hl by (apply Z.log2_le_pow2; lia).
  assert (Z.testbit (k_ready_group k) (Z.log2 (k_ready_group k)) = true) as Hb
    by (apply Z.bit_log2; lia).
  apply (so_bits _ _ H) in Hb; [|lia].
  destruct (qget (k_tq k) (QReady (Z.log2 (k_ready_group k)))) as [|x l] eqn:E; [done|].
  destruct (so_ready _ _ H (Z.log2 (k_ready_group k)) x) as (th & Ht & _ & Hp);
    [rewrite E; by left|].
  destruct (so_prio _ _ H x th Ht). lia.
Qed.

Lemma group_zero k : sched_inv None k -> k_ready_group k = 0 ->
  forall p x, x ∉ qget (k_tq k) (QReady p).
Proof.
  intros H H0 p x Hx. destruct (so_ready _ _ H p x Hx) as (th & Ht & _ & Hp).
  destruct (so_prio _ _ H x th Ht) as [? _].
  assert (Z.testbit (k_ready_group k) p = true) as Hb.
  { apply (so_bits _ _ H); [lia|]. intros E. rewrite E in Hx. by apply elem_of_nil in Hx. }
  rewrite H0, Z.bits_0 in Hb. done.
Qed.

(** The thread chosen is the head of the ready list of the smallest priority
    number that has a ready thread. *)
Lemma highest_spec k :
  sched_inv None k -> k_ready_group k <> 0 ->
  exists t p th,
    _scheduler_get_highest_priority_thread k = Some ((t, p), k) /\
    head (qget (k_tq k) (QReady p)) = Some t /\
    k_threads k !! t = Some th /\ stat_of th = RT_THREAD_READY /\
    th_current_priority th = p /\ 0 <= p < 32 /\
    (forall p' x, x ∈ qget (k_tq k) (QReady p') -> p <= p').
Proof.
  intros H H0. pose proof (so_group _ _ H). pose proof (group_lt k H).
  destruct (ffs_spec (k_ready_group k)) as (H32 & Hge & Hbit & Hlow); [lia|].
  set (p := __rt_ffs (k_ready_group k) - 1) in *.
  apply (so_bits _ _ H) in Hbit as Hne; [|done].
  destruct (qget (k_tq k) (QReady p)) as [|t l] eqn:E; [done|].
  destruct (so_ready _ _ H p t) as (th & Ht & Hs & Hp); [rewrite E; by left|].
  exists t, p, th. split; [|split_and!; try done; try lia].
  - unfold _scheduler_get_highest_priority_thread. mrun. fold p.
    rewrite u64_small by lia. by rewrite E.
  - by rewrite E.
  - intros p' x Hx. destruct (Z.leb_spec p p'); [done|exfalso].
    destruct (so_ready _ _ H p' x Hx) as (th' & Ht' & _ & Hp').
    destruct (so_prio _ _ H x th' Ht') as [? _].
    assert (Z.testbit (k_ready_group k) p' = true) as Hb.
    { apply (so_bits _ _ H); [lia|]. intros E'. rewrite E' in Hx. by apply elem_of_nil in Hx. }
    rewrite Hlow in Hb by lia. done.
Qed.

(** Taking the chosen thread [to] off its list and marking it running. *)
Lemma dispatch_spec to th k :
  sched_inv None k -> k_threads k !! to = Some th ->
  stat_of th = RT_THREAD_READY \/ stat_of th = RT_THREAD_RUNNING ->
  k_current k = Some to ->
  exists k',
    (rt_schedule_remove_thread to;; upd_thread to (with_stat RT_THREAD_RUNNING)) k
      = Some (tt, k') /\
    sched_ok k' /\ sched_frame k k' /\ k_current k' = Some to /\
    k_threads k' !! to = Some (with_stat RT_THREAD_RUNNING th) /\
    (forall p, qget (k_tq k') (QReady p) = filter (fun y => y <> to) (qget (k_tq k) (QReady p))).
Proof.
  intros H Ht Hs Hc. destruct (so_prio _ _ H to th Ht) as [Hp Hm].
  assert (stat_of th <> RT_THREAD_INIT /\ stat_of th <> RT_THREAD_CLOSE) as [Hni Hnc]
    by (by destruct Hs as [-> | ->]).
  specialize (Hm Hni Hnc).
  exists (thread_st to (with_stat RT_THREAD_RUNNING th) (remove_st to th k)).
  assert (k_threads (remove_st to th k) !! to = Some th) as Ht' by done.
  split; [mrun; rewrite (remove_eq to k th) by done; by apply upd_thread_eq|].
  assert (sched_inv None (thread_st to (with_stat RT_THREAD_RUNNING th) (remove_st to th k))) as H'.
  { apply (unfloat_inv to (with_stat RT_THREAD_RUNNING th)).
    - apply (thread_float_inv to th); [by apply remove_inv|done|done|done].
    - apply thread_st_lookup.
    - by rewrite stat_with_stat.
    - done. }
  split; [constructor; [done|]; intros x Hx|split].
  - assert (x = to) as -> by (unfold thread_st, remove_st in Hx; kfields; congruence).
    exists (with_stat RT_THREAD_RUNNING th). split; [apply thread_st_lookup|].
    by rewrite stat_with_stat.
  - transitivity (remove_st to th k).
    + apply frame_remove. intros q Hq Hx. destruct q; try by eapply Hq.
      1: destruct (so_defunct _ _ H _ Hx) as (th' & E & Es).
      2-12: edestruct (so_wait _ _ H) as (th' & E & Es); [|exact Hx|]; [done|].
      all: assert (th' = th) as -> by congruence; destruct Hs as [Hs|Hs]; rewrite Hs in Es; done.
    + apply frame_stat; [done| |].
      * intros [? ?]. destruct Hs; done.
      * intros [_ Hr]. apply Hr. apply stat_with_stat.
  - split; [done|]. split; [apply thread_st_lookup|].
    intros p. unfold thread_st, remove_st; kfields. apply qget_remove.
Qed.

(** No ready thread has a smaller priority number than the running one. *)
Definition highest_running (k : kstate) : Prop :=
  forall p x, x ∈ qget (k_tq k) (QReady p) ->
  exists c th, k_current k = Some c /\ k_threads k !! c = Some th /\
    stat_of th = RT_THREAD_RUNNING /\ th_current_priority th <= p.

Lemma clear_yield_inv t th k :
  sched_inv None k -> k_threads k !! t = Some th -> stat_of th = RT_THREAD_RUNNING ->
  sched_inv None (thread_st t (clear_yield th) k) /\
  sched_frame k (thread_st t (clear_yield th) k).
Proof.
  intros H Ht Hs. destruct (so_prio _ _ H t th Ht) as [Hp Hm]. split.
  - apply (unfloat_inv t (clear_yield th)).
    + apply (thread_float_inv t th); [by apply (float_running t th)|done|done|].
      rewrite stat_clear_yield. done.
    + apply thread_st_lookup.
    + by rewrite stat_clear_yield, Hs.
    + intros _. by apply (so_running _ _ H t th).
  - apply frame_stat; [done| |].
    + intros [_ ?]. done.
    + intros [_ Hr]. apply Hr. change (set_th_stat _ th) with (clear_yield th).
      by rewrite stat_clear_yield.
Qed.

(** The choice of [rt_schedule] between the current thread [c] and the first
    thread [to] of the best ready list, that of priority [hp]: [c] goes on if
    it runs and is better, or as good and does not yield. *)
Definition goes_on (th : rt_thread) (hp : Z) : bool :=
  (stat_of th =? RT_THREAD_RUNNING) &&
  ((th_current_priority th <? hp) || ((th_current_priority th =? hp) && negb (yields th))).

(** The ready lists afterwards: unless it goes on, [c] is put, if it could
    still run, in front of the list of its priority, and [to] leaves its
    list. *)
Definition ready_after (c to : nat) (th : rt_thread) (hp : Z) (ready : Z -> list nat) (p : Z)
  : list nat :=
  if goes_on th hp then ready p
  else filter (fun y => y <> to)
         (if (stat_of th =? RT_THREAD_RUNNING) && (p =? th_current_priority th)
          then c :: ready p else ready p).

(** What a call of [rt_schedule] with the scheduler unlocked establishes. *)
Record scheduled (c to : nat) (th : rt_thread) (hp : Z) (k k' : kstate) : Prop := Scheduled {
  sd_ok : sched_ok k';
  sd_frame : sched_frame k k';
  sd_current : k_current k' = Some (if goes_on th hp then c else to);
  sd_highest : highest_running k';
  sd_ready p : qget (k_tq k') (QReady p)
    = ready_after c to th hp (fun p => qget (k_tq k) (QReady p)) p
}.

Section reschedule.
Context (k : kstate) (c to : nat) (th tht : rt_thread) (hp : Z).
Context (H : sched_inv None k) (Hc : k_current k = Some c) (Ht : k_threads k !! c = Some th).
Context (Htt : k_threads k !! to = Some tht) (Hst : stat_of tht = RT_THREAD_READY)
  (Hpt : th_current_priority tht = hp) (Hne : to <> c).
Context (Hmin : forall p x, x ∈ qget (k_tq k) (QReady p) -> hp <= p).

(** The running thread goes on. *)
Lemma reschedule_keep :
  stat_of th = RT_THREAD_RUNNING -> goes_on th hp = true -> th_current_priority th <= hp ->
  let k1 := thread_st c (clear_yield th) k in
  exists k', (rt_schedule_remove_thread c;; upd_thread c (with_stat RT_THREAD_RUNNING)) k1
      = Some (tt, k') /\ scheduled c to th hp k k'.
Proof using All.
  intros Hr Hg Hle k1. destruct (clear_yield_inv c th k H Ht Hr) as [H1 F1].
  destruct (dispatch_spec c (clear_yield th) k1) as (k' & E & Hok' & F & Hc' & Hth' & Hq');
    [done|apply thread_st_lookup|right; by rewrite stat_clear_yield|done|].
  exists k'. split; [exact E|]. constructor; [done|by transitivity k1|by rewrite Hg| |].
  2: { intros p. rewrite Hq'. unfold ready_after. rewrite Hg. apply filter_ne_notin.
    intros Hx. destruct (so_ready _ _ H1 p c Hx) as (? & Hl & Hs' & _).
    unfold k1 in Hl. rewrite thread_st_lookup in Hl. injection Hl as <-.
    rewrite stat_clear_yield, Hr in Hs'. done. }
  intros p x Hx. rewrite Hq' in Hx. apply list_elem_of_filter in Hx as [_ Hx].
  exists c, (with_stat RT_THREAD_RUNNING (clear_yield th)). split_and!; try done.
  - by rewrite stat_with_stat.
  - kfields. apply Hmin in Hx. lia.
Qed.

(** The processor goes to [to]; a thread that could still run is put back
    on its ready list. *)
Lemma reschedule_preempt :
  stat_of th = RT_THREAD_RUNNING -> goes_on th hp = false -> hp <= th_current_priority th ->
  let k1 := thread_st c (clear_yield th) k in
  exists k',
    (rt_schedule_insert_thread c;; rt_schedule_remove_thread to;;
     upd_thread to (with_stat RT_THREAD_RUNNING))
      (set_k_current (Some to) (set_k_current_priority (u8 hp) k1)) = Some (tt, k') /\
    scheduled c to th hp k k'.
Proof using All.
  intros Hr Hg Hle k1. destruct (clear_yield_inv c th k H Ht Hr) as [H1 F1].
  assert (k_threads k1 !! c = Some (clear_yield th)) as Hc1 by apply thread_st_lookup.
  set (k2 := set_k_current (Some to) (set_k_current_priority (u8 hp) k1)).
  assert (sched_inv (Some c) k2) as H2.
  { apply current_inv.
    - apply priority_inv, (float_running c (clear_yield th)); [done|done|].
      by rewrite stat_clear_yield.
    - intros x thx Hx Hxc Hrx. exfalso. apply Hxc. f_equal.
      pose proof (so_running _ _ H1 x thx Hx ltac:(done) Hrx) as Hcx.
      unfold k1, thread_st in Hcx; kfields. congruence. }
  set (k3 := insert_st c (clear_yield th) k2).
  assert (rt_schedule_insert_thread c k2 = Some (tt, k3)) as Hins.
  { apply insert_eq; [done|]. unfold k2; kfields. congruence. }
  assert (sched_inv None k3) as H3.
  { apply insert_inv; [done|done|]. kfields. destruct (so_prio _ _ H c th Ht) as [_ Hm].
    apply Hm; by rewrite Hr. }
  destruct (dispatch_spec to tht k3) as (k' & E & Hok' & F & Hc' & Hth' & Hq');
    [done| |by left|done|].
  { unfold k3, insert_st, k2, k1, thread_st; kfields. by rewrite !lookup_insert_ne by done. }
  exists k'. split; [mrun; rewrite Hins; exact E|]. constructor; [done| |by rewrite Hg| |].
  3: { intros p. rewrite Hq'. unfold ready_after. rewrite Hg, Hr. simpl.
    unfold k3, insert_st. rewrite yields_clear_yield. kfields.
    rewrite qget_insert_after. destruct (Z.eqb_spec p (th_current_priority th)) as [->|Hp].
    - by rewrite decide_True.
    - rewrite decide_False; [done|]. intros [= E']. by apply Hp. }
  { transitivity k1; [done|]. transitivity k2.
    { transitivity (set_k_current_priority (u8 hp) k1);
        [apply frame_priority|apply frame_current]. }
    transitivity k3; [|done].
    apply frame_insert; [done|]. intros [_ Hx]. apply Hx. by rewrite stat_clear_yield. }
  intros p x Hx. rewrite Hq' in Hx. apply list_elem_of_filter in Hx as [_ Hx].
  exists to, (with_stat RT_THREAD_RUNNING tht). split_and!; try done.
  - by rewrite stat_with_stat.
  - kfields. rewrite Hpt. unfold k3, insert_st in Hx; kfields.
    destruct (yields (clear_yield th));
      [apply elem_insert_before in Hx|apply elem_insert_after in Hx];
      (destruct Hx as [Hx|[_ [= ->]]]; [by apply Hmin in Hx|kfields; lia]).
Qed.

(** The current thread has blocked or ended. *)
Lemma reschedule_switch :
  stat_of th <> RT_THREAD_RUNNING ->
  exists k',
    (rt_schedule_remove_thread to;; upd_thread to (with_stat RT_THREAD_RUNNING))
      (set_k_current (Some to) (set_k_current_priority (u8 hp) k)) = Some (tt, k') /\
    scheduled c to th hp k k'.
Proof using All.
  intros Hr. assert (goes_on th hp = false) as Hg.
  { unfold goes_on. by destruct (Z.eqb_spec (stat_of th) RT_THREAD_RUNNING). }
  set (k2 := set_k_current (Some to) (set_k_current_priority (u8 hp) k)).
  assert (sched_inv None k2) as H2.
  { apply current_inv; [by apply priority_inv|]. intros x thx Hx _ Hrx. exfalso.
    assert (k_threads k !! x = Some thx) as Hx' by done.
    pose proof (so_running _ _ H x thx Hx' ltac:(done) Hrx). congruence. }
  destruct (dispatch_spec to tht k2) as (k' & E & Hok' & F & Hc' & Hth' & Hq');
    [done|done|by left|done|].
  exists k'. split; [exact E|]. constructor; [done| |by rewrite Hg| |].
  3: { intros p. rewrite Hq'. unfold ready_after. rewrite Hg.
    by destruct (Z.eqb_spec (stat_of th) RT_THREAD_RUNNING). }
  { transitivity k2; [|done]. transitivity (set_k_current_priority (u8 hp) k);
      [apply frame_priority|apply frame_current]. }
  intros p x Hx. rewrite Hq' in Hx. apply list_elem_of_filter in Hx as [_ Hx].
  exists to, (with_stat RT_THREAD_RUNNING tht). split_and!; try done.
  - by rewrite stat_with_stat.
  - kfields. rewrite Hpt. by apply Hmin in Hx.
Qed.
End reschedule.

(** With no ready thread, or a locked scheduler, nothing happens; otherwise
    the choice above is made. *)
Lemma schedule_case k c th :
  sched_inv None k -> k_current k = Some c -> k_threads k !! c = Some th ->
  stat_of th <> RT_THREAD_READY -> k_lock_nest k = 0 ->
  (rt_schedule k = Some (tt, k) /\ forall p, qget (k_tq k) (QReady p) = []) \/
  exists to hp rest k', rt_schedule k = Some (tt, k') /\
    qget (k_tq k) (QReady hp) = to :: rest /\
    (forall p x, x ∈ qget (k_tq k) (QReady p) -> hp <= p) /\ scheduled c to th hp k k'.
Proof.
  intros H Hc Ht Hnr Hl. unfold rt_schedule. mrun. rewrite Hl; simpl.
  destruct (Z.eqb_spec (k_ready_group k) 0) as [Hg|Hg].
  { left. split; [done|]. intros p. destruct (qget (k_tq k) (QReady p)) as [|x l] eqn:E; [done|].
    exfalso. apply (group_zero k H Hg p x). rewrite E. by left. }
  right. destruct (highest_spec k H Hg) as (to & hp & tht & Heq & Hhd & Htt & Hst & Hpt & Hhp & Hmin).
  destruct (qget (k_tq k) (QReady hp)) as [|? rest] eqn:Eq; [done|].
  injection Hhd as ->. exists to, hp, rest.
  rewrite Heq. unfold current_thread, rt_thread_self. mrun. rewrite Hc.
  rewrite (get_thread_eq c k th Ht).
  assert (to <> c) as Hne by (intros ->; apply Hnr; congruence).
  destruct (Z.eqb_spec (stat_of th) RT_THREAD_RUNNING) as [Hr|Hr].
  2: { rewrite decide_False by done.
    destruct (reschedule_switch k c to th tht hp H Hc Ht Htt Hst Hpt Hne Hmin Hr)
      as (k' & E & S). exists k'. split_and!; done. }
  rewrite (upd_thread_eq c _ k th Ht).
  destruct (goes_on th hp) eqn:Hgo; unfold goes_on in Hgo; rewrite (proj2 (Z.eqb_eq _ _) Hr) in Hgo;
    destruct (Z.ltb_spec (th_current_priority th) hp);
    destruct (Z.eqb_spec (th_current_priority th) hp); destruct (yields th) eqn:Hy; simpl in Hgo;
    try discriminate; try lia; cbv beta iota; simpl.
  all: first [rewrite decide_True by done|rewrite decide_False by done].
  all: first
    [destruct (reschedule_keep k c to th tht hp H Hc Ht Htt Hst Hpt Hne Hmin Hr) as (k' & E & S);
       [unfold goes_on; rewrite Hr, Hy; simpl; lia|lia|]
    |destruct (reschedule_preempt k c to th tht hp H Hc Ht Htt Hst Hpt Hne Hmin Hr) as (k' & E & S);
       [unfold goes_on; rewrite Hr, Hy; simpl; lia|lia|]].
  all: exists k'; split_and!; done.
Qed.

Lemma schedule_chosen k k' c th hp to rest :
  sched_inv None k -> k_current k = Some c -> k_threads k !! c = Some th ->
  stat_of th <> RT_THREAD_READY -> k_lock_nest k = 0 -> rt_schedule k = Some (tt, k') ->
  qget (k_tq k) (QReady hp) = to :: rest ->
  (forall p, 0 <= p < hp -> qget (k_tq k) (QReady p) = []) ->
  k_current k' = Some (if goes_on th hp then c else to) /\
  forall p, qget (k_tq k') (QReady p)
    = ready_after c to th hp (fun p => qget (k_tq k) (QReady p)) p.
Proof.
  intros H Hc Ht Hnr Hl E Hq Hlow.
  destruct (schedule_case k c th H Hc Ht Hnr Hl)
    as [[_ Hno]|(to' & hp' & rest' & k2 & E' & Hq' & Hmin & S)]; [congruence|].
  assert (hp' = hp) as ->.
  { apply Z.le_antisymm; [apply (Hmin _ to); rewrite Hq; by left|].
    destruct (Z.le_gt_cases hp hp') as [|Hlt]; [done|].
    destruct (so_ready _ _ H hp' to') as (tht & Htt & _ & <-); [rewrite Hq'; by left|].
    destruct (so_prio _ _ H _ _ Htt) as [Hr _].
    rewrite Hlow in Hq' by lia. done. }
  rewrite Hq in Hq'. injection Hq' as <- <-. rewrite E in E'. injection E' as <-.
  split; apply S.
Qed.

Lemma schedule_locked k : k_lock_nest k <> 0 -> rt_schedule k = Some (tt, k).
Proof. intros H. unfold rt_schedule. mrun. by destruct (Z.eqb_spec (k_lock_nest k) 0). Qed.

Lemma schedule_spec k :
  sched_ok k -> is_Some (k_current k) ->
  exists k', rt_schedule k = Some (tt, k') /\ sched_ok k' /\ sched_frame k k' /\
    is_Some (k_current k') /\
    (k_lock_nest k = 0 -> highest_running k') /\
    (k_lock_nest k <> 0 -> k' = k).
Proof.
  intros Hok [c Hc]. pose proof (ok_inv k Hok) as H.
  destruct (ok_current k Hok c Hc) as (th & Ht & Hnr).
  destruct (Z.eq_dec (k_lock_nest k) 0) as [Hl|Hl].
  2: { exists k. rewrite (schedule_locked k Hl). split_and!; done. }
  destruct (schedule_case k c th H Hc Ht Hnr Hl)
    as [[E Hno]|(to & hp & rest & k' & E & _ & _ & [Hok' F Hc' Hh _])]; rewrite E.
  - exists k. split_and!; try done. intros _ p x Hx. by rewrite Hno in Hx; apply elem_of_nil in Hx.
  - exists k'. by split_and!.
Qed.
