(* ===== verification/Object.v ===== *)
(** * Kernel objects

    [src/object.c]: the object container, its per-class lists, and the
    operations that put an object into the container, take it out and look it
    up. Modules are not configured and the hooks are null.

    A control block that is not there yet is uninitialised memory; the model
    reads zeroes in it. Every initialisation function overwrites the fields
    of the block the kernel later reads. *)
From S2P Require Import Prelude Kservice Kernel Sched.

(** ** Control blocks and their object header *)

Definition raw_object : rt_object := RtObject (replicate RT_NAME_MAX 0) 0 0.
Definition raw_thread : rt_thread := RtThread raw_object 0 0 0 0 0 0 0 0.
Definition raw_timer : rt_timer := RtTimer raw_object 0 0.
Definition raw_semaphore : rt_semaphore := RtSemaphore raw_object 0.
Definition raw_mutex : rt_mutex := RtMutex raw_object 0 0 0 None.
Definition raw_event : rt_event := RtEvent raw_object 0.
Definition raw_mailbox : rt_mailbox := RtMailbox raw_object [] 0 0 0 0.
Definition raw_messagequeue : rt_messagequeue :=
  RtMessageQueue raw_object 0 0 0 ∅ ∅ None None None.
Definition raw_mempool : rt_mempool := RtMempool raw_object 0 0 0 0 ∅ None.

Definition set_sem_parent (x : rt_object) (s : rt_semaphore) : rt_semaphore :=
  RtSemaphore x (sem_value s).
Definition set_mx_parent (x : rt_object) (m : rt_mutex) : rt_mutex :=
  RtMutex x (mx_value m) (mx_original_priority m) (mx_hold m) (mx_owner m).
Definition set_ev_parent (x : rt_object) (e : rt_event) : rt_event := RtEvent x (ev_set e).
Definition set_mb_parent (x : rt_object) (b : rt_mailbox) : rt_mailbox :=
  RtMailbox x (mb_msg_pool b) (mb_size b) (mb_entry b) (mb_in_offset b) (mb_out_offset b).
Definition set_mq_parent (x : rt_object) (q : rt_messagequeue) : rt_messagequeue :=
  RtMessageQueue x (mq_msg_size q) (mq_max_msgs q) (mq_entry q) (mq_next q) (mq_data q)
    (mq_head q) (mq_tail q) (mq_free q).
Definition set_mp_parent (x : rt_object) (p : rt_mempool) : rt_mempool :=
  RtMempool x (mp_size p) (mp_block_size p) (mp_block_total_count p) (mp_block_free_count p)
    (mp_header_of p) (mp_block_list p).
Definition raw_device : rt_device := RtDevice raw_object 0 0 0 0 None None.
Definition set_dev_parent (x : rt_object) (d : rt_device) : rt_device :=
  RtDevice x (dev_type d) (dev_flag d) (dev_open_flag d) (dev_ref_count d) (dev_rx_indicate d) (dev_tx_complete d).

Definition obj_hdr (o : oid) (k : kstate) : option rt_object :=
  match o with
  | OThread t => th_object <$> k_threads k !! t
  | OSem s => sem_parent <$> k_sems k !! s
  | OMutex m => mx_parent <$> k_mutexes k !! m
  | OEvent e => ev_parent <$> k_events k !! e
  | OMailBox b => mb_parent <$> k_mbs k !! b
  | OMessageQueue q => mq_parent <$> k_mqs k !! q
  | OMemPool p => mp_parent <$> k_mps k !! p
  | OTimer m => tm_parent <$> k_timers k !! m
  | ODevice d => dev_parent <$> k_devices k !! d
  end.

Definition set_obj_hdr (o : oid) (h : rt_object) (k : kstate) : kstate :=
  match o with
  | OThread t => set_k_threads
      (<[t := set_th_object h (default raw_thread (k_threads k !! t))]> (k_threads k)) k
  | OSem s => set_k_sems
      (<[s := set_sem_parent h (default raw_semaphore (k_sems k !! s))]> (k_sems k)) k
  | OMutex m => set_k_mutexes
      (<[m := set_mx_parent h (default raw_mutex (k_mutexes k !! m))]> (k_mutexes k)) k
  | OEvent e => set_k_events
      (<[e := set_ev_parent h (default raw_event (k_events k !! e))]> (k_events k)) k
  | OMailBox b => set_k_mbs
      (<[b := set_mb_parent h (default raw_mailbox (k_mbs k !! b))]> (k_mbs k)) k
  | OMessageQueue q => set_k_mqs
      (<[q := set_mq_parent h (default raw_messagequeue (k_mqs k !! q))]> (k_mqs k)) k
  | OMemPool p => set_k_mps
      (<[p := set_mp_parent h (default raw_mempool (k_mps k !! p))]> (k_mps k)) k
  | OTimer m => set_k_timers
      (<[m := set_tm_parent h (default raw_timer (k_timers k !! m))]> (k_timers k)) k
  | ODevice d => set_k_devices
      (<[d := set_dev_parent h (default raw_device (k_devices k !! d))]> (k_devices k)) k
  end.

(** [RT_KERNEL_MALLOC] returned this block, zeroed by [rt_memset]; and
    [RT_KERNEL_FREE] of it. *)
Definition raw_block (o : oid) (k : kstate) : kstate :=
  match o with
  | OThread t => set_k_threads (<[t := raw_thread]> (k_threads k)) k
  | OSem s => set_k_sems (<[s := raw_semaphore]> (k_sems k)) k
  | OMutex m => set_k_mutexes (<[m := raw_mutex]> (k_mutexes k)) k
  | OEvent e => set_k_events (<[e := raw_event]> (k_events k)) k
  | OMailBox b => set_k_mbs (<[b := raw_mailbox]> (k_mbs k)) k
  | OMessageQueue q => set_k_mqs (<[q := raw_messagequeue]> (k_mqs k)) k
  | OMemPool p => set_k_mps (<[p := raw_mempool]> (k_mps k)) k
  | OTimer m => set_k_timers (<[m := raw_timer]> (k_timers k)) k
  | ODevice d => set_k_devices (<[d := raw_device]> (k_devices k)) k
  end.

Definition free_block (o : oid) (k : kstate) : kstate :=
  match o with
  | OThread t => set_k_threads (delete t (k_threads k)) k
  | OSem s => set_k_sems (delete s (k_sems k)) k
  | OMutex m => set_k_mutexes (delete m (k_mutexes k)) k
  | OEvent e => set_k_events (delete e (k_events k)) k
  | OMailBox b => set_k_mbs (delete b (k_mbs k)) k
  | OMessageQueue q => set_k_mqs (delete q (k_mqs k)) k
  | OMemPool p => set_k_mps (delete p (k_mps k)) k
  | OTimer m => set_k_timers (delete m (k_timers k)) k
  | ODevice d => set_k_devices (delete d (k_devices k)) k
  end.

Definition get_hdr (o : oid) : M rt_object := h ← gets (obj_hdr o); deref h.
Definition put_hdr (o : oid) (h : rt_object) : M unit := modify (set_obj_hdr o h).
Definition modify_objlist (f : gmap Z (list oid) -> gmap Z (list oid)) : M unit :=
  modify (fun k => set_k_objlist (f (k_objlist k)) k).

Definition set_o_type (x : Z) (h : rt_object) : rt_object := RtObject (o_name h) x (o_flag h).
Definition set_o_name (x : list Z) (h : rt_object) : rt_object := RtObject x (o_type h) (o_flag h).

(** ** object.c *)

Definition RT_Object_Class_MemHeap : Z := 7.
Definition RT_Object_Class_Device : Z := 9.

(** The [type] field of each entry of the container. *)
Definition _object_container : list Z :=
  [RT_Object_Class_Thread; RT_Object_Class_Semaphore; RT_Object_Class_Mutex;
   RT_Object_Class_Event; RT_Object_Class_MailBox; RT_Object_Class_MessageQueue;
   RT_Object_Class_MemHeap; RT_Object_Class_MemPool; RT_Object_Class_Device;
   RT_Object_Class_Timer; RT_Object_Class_Memory].

Definition rt_object_get_information (type : Z) : option nat :=
  fst <$> list_find (fun c => c = type) _object_container.

(** [information->object_list]; the list of an entry is found under its class. *)
Definition object_list (type : Z) : M (list oid) := gets (fun k => qget (k_objlist k) type).

Fixpoint list_for_each_count (nodes : list oid) (count : Z) : Z :=
  match nodes with [] => count | _ :: nodes => list_for_each_count nodes (count + 1) end.

Definition rt_object_get_length (type : Z) : M Z :=
  match rt_object_get_information type with
  | None => mret 0
  | Some _ => l ← object_list type; mret (list_for_each_count l 0)
  end.

Fixpoint get_pointers_loop (nodes : list oid) (index maxlen : Z) (pointers : list oid)
    : Z * list oid :=
  match nodes with
  | [] => (index, pointers)
  | object :: nodes =>
      let pointers := pointers ++ [object] in
      let index := index + 1 in
      if maxlen <=? index then (index, pointers)
      else get_pointers_loop nodes index maxlen pointers
  end.

(** The count and what is stored from [pointers[0]] on. *)
Definition rt_object_get_pointers (type maxlen : Z) : M (Z * list oid) :=
  if maxlen <=? 0 then mret (0, [])
  else match rt_object_get_information type with
  | None => mret (0, [])
  | Some _ => l ← object_list type; mret (get_pointers_loop l 0 maxlen [])
  end.

Fixpoint assert_not_linked (nodes : list oid) (object : oid) : M unit :=
  match nodes with
  | [] => mret tt
  | obj :: nodes => rt_assert (bool_decide (obj <> object));; assert_not_linked nodes object
  end.

Definition rt_object_init (object : oid) (type : Z) (name : list Z) : M unit :=
  rt_assert (bool_decide (is_Some (rt_object_get_information type)));;
  rt_enter_critical;;
  nodes ← object_list type;
  assert_not_linked nodes object;;
  rt_exit_critical;;
  h ← gets (fun k => default raw_object (obj_hdr object k));
  put_hdr object (set_o_name (rt_strncpy name RT_NAME_MAX)
    (set_o_type (Z.lor type RT_Object_Class_Static) h));;
  modify_objlist (rt_list_insert_after type object).

Definition rt_object_detach (object : oid) : M unit :=
  h ← get_hdr object;
  put_hdr object (set_o_type 0 h);;
  modify_objlist (rt_list_remove object).

(** [mem] is what [RT_KERNEL_MALLOC] returns. *)
Definition rt_object_allocate (mem : option oid) (type : Z) (name : list Z) : M (option oid) :=
  RT_DEBUG_NOT_IN_INTERRUPT;;
  rt_assert (bool_decide (is_Some (rt_object_get_information type)));;
  match mem with
  | None => mret None
  | Some object =>
      modify (raw_block object);;
      h ← get_hdr object;
      put_hdr object (set_o_name (rt_strncpy name RT_NAME_MAX) (set_o_flag 0 (set_o_type type h)));;
      modify_objlist (rt_list_insert_after type object);;
      mret (Some object)
  end.

Definition rt_object_delete (object : oid) : M unit :=
  h ← get_hdr object;
  rt_assert (Z.land (o_type h) RT_Object_Class_Static =? 0);;
  put_hdr object (set_o_type RT_Object_Class_Null h);;
  modify_objlist (rt_list_remove object);;
  modify (free_block object).

Definition rt_object_is_systemobject (object : oid) : M bool :=
  h ← get_hdr object;
  mret (negb (Z.land (o_type h) RT_Object_Class_Static =? 0)).

Definition rt_object_get_type (object : oid) : M Z :=
  h ← get_hdr object;
  mret (u8 (Z.land (o_type h) (Z.lnot RT_Object_Class_Static))).

(** The walk over the list; [rt_exit_critical] is called on both ways out. *)
Fixpoint find_loop (nodes : list oid) (name : list Z) : M (option oid) :=
  match nodes with
  | [] => mret None
  | object :: nodes =>
      h ← get_hdr object;
      if rt_strncmp (o_name h) name RT_NAME_MAX =? 0 then mret (Some object)
      else find_loop nodes name
  end.

Definition rt_object_find (name : option (list Z)) (type : Z) : M (option oid) :=
  match name, rt_object_get_information type with
  | Some name, Some _ =>
      RT_DEBUG_NOT_IN_INTERRUPT;;
      rt_enter_critical;;
      nodes ← object_list type;
      r ← find_loop nodes name;
      rt_exit_critical;;
      mret r
  | _, _ => mret None
  end.

(** [RT_ASSERT(rt_object_get_type(object) == type)], which opens most calls. *)
Definition assert_type (object : oid) (type : Z) : M unit :=
  ty ← rt_object_get_type object; rt_assert (ty =? type).
