(* ===== verification/Timer.v ===== *)
(** * Timers

    [src/timer.c], with the two functions of [src/thread.c] it calls
    ([rt_thread_suspend], [rt_thread_resume]) and the one it calls back
    ([_thread_timeout]). The skip list has the one configured level, so its
    random level choice has no effect, and the hooks are null.

    A timer's callback is [_thread_timeout] for the timer built into a thread;
    for the others it is the parameter [timeout_func] of the section. *)
From S2P Require Import Prelude Kservice Kernel Sched Object.

Definition RT_TIMER_FLAG_DEACTIVATED : Z := 0.
Definition RT_TIMER_FLAG_ONE_SHOT : Z := 0.
Definition RT_TIMER_CTRL_SET_TIME : Z := 0.
Definition RT_TIMER_CTRL_GET_TIME : Z := 1.
Definition RT_TIMER_CTRL_SET_ONESHOT : Z := 2.
Definition RT_TIMER_CTRL_SET_PERIODIC : Z := 3.
Definition RT_TIMER_CTRL_GET_STATE : Z := 4.
Definition RT_TIMER_CTRL_GET_REMAIN_TIME : Z := 5.

Definition rt_tick_get : M Z := gets k_tick.

(** [rt_list_init] of a node; the node of a list in use is not initialised
    again, which would cut the list. *)
Definition rt_list_init_node {K A} `{Countable K} `{EqDecision A}
    (x : A) (m : gmap K (list A)) : bool :=
  bool_decide (map_Forall (fun _ l => x ∉ l) m).

Definition _timer_init (timer : tmid) (time flag : Z) : M unit :=
  upd_timer timer (set_tm_flag flag);;
  upd_timer timer (fun tm => set_tm_flag (Z.land (tm_flag tm) (Z.lnot RT_TIMER_FLAG_ACTIVATED)) tm);;
  upd_timer timer (set_tm_timeout_tick 0);;
  upd_timer timer (set_tm_init_tick time);;
  fresh ← gets (fun k => rt_list_init_node timer (k_tmq k));
  rt_assert fresh.

Definition _timer_list_next_timeout (timer_list : tmlist) : M (Z * option Z) :=
  l ← gets (fun k => qget (k_tmq k) timer_list);
  match l with
  | timer :: _ => tm ← get_timer timer; mret (RT_EOK, Some (tm_timeout_tick tm))
  | [] => mret (- RT_ERROR, None)
  end.

Definition _timer_remove (timer : tmid) : M unit := modify_tmq (rt_list_remove timer).

Definition clear_activated (timer : tmid) : M unit :=
  upd_timer timer
    (fun tm => set_tm_flag (Z.land (tm_flag tm) (Z.lnot RT_TIMER_FLAG_ACTIVATED)) tm).

Definition rt_timer_init (timer : tmid) (name : list Z) (time flag : Z) : M unit :=
  rt_assert (time <? RT_TICK_MAX / 2);;
  rt_object_init (OTimer timer) RT_Object_Class_Timer name;;
  _timer_init timer time flag.

Definition rt_timer_detach (timer : tmid) : M Z :=
  assert_type (OTimer timer) RT_Object_Class_Timer;;
  system ← rt_object_is_systemobject (OTimer timer);
  rt_assert system;;
  _timer_remove timer;;
  clear_activated timer;;
  rt_object_detach (OTimer timer);;
  mret RT_EOK.

Definition rt_timer_create (mem : option oid) (name : list Z) (time flag : Z)
    : M (option tmid) :=
  rt_assert (time <? RT_TICK_MAX / 2);;
  timer ← rt_object_allocate mem RT_Object_Class_Timer name;
  match timer with
  | Some (OTimer timer) => _timer_init timer time flag;; mret (Some timer)
  | _ => mret None
  end.

Definition rt_timer_delete (timer : tmid) : M Z :=
  assert_type (OTimer timer) RT_Object_Class_Timer;;
  system ← rt_object_is_systemobject (OTimer timer);
  rt_assert (negb system);;
  _timer_remove timer;;
  clear_activated timer;;
  rt_object_delete (OTimer timer);;
  mret RT_EOK.

Definition rt_timer_stop (timer : tmid) : M Z :=
  assert_type (OTimer timer) RT_Object_Class_Timer;;
  tm ← get_timer timer;
  if Z.land (tm_flag tm) RT_TIMER_FLAG_ACTIVATED =? 0 then mret (- RT_ERROR)
  else
    _timer_remove timer;;
    clear_activated timer;;
    mret RT_EOK.

(** The error code, and what is at [*arg] afterwards. *)
Definition rt_timer_control (timer : tmid) (cmd arg : Z) : M (Z * Z) :=
  assert_type (OTimer timer) RT_Object_Class_Timer;;
  tm ← get_timer timer;
  if cmd =? RT_TIMER_CTRL_GET_TIME then mret (RT_EOK, tm_init_tick tm)
  else if cmd =? RT_TIMER_CTRL_SET_TIME then
    rt_assert (arg <? RT_TICK_MAX / 2);;
    upd_timer timer (set_tm_init_tick arg);;
    mret (RT_EOK, arg)
  else if cmd =? RT_TIMER_CTRL_SET_ONESHOT then
    upd_timer timer (fun tm =>
      set_tm_flag (Z.land (tm_flag tm) (Z.lnot RT_TIMER_FLAG_PERIODIC)) tm);;
    mret (RT_EOK, arg)
  else if cmd =? RT_TIMER_CTRL_SET_PERIODIC then
    upd_timer timer (fun tm => set_tm_flag (Z.lor (tm_flag tm) RT_TIMER_FLAG_PERIODIC) tm);;
    mret (RT_EOK, arg)
  else if cmd =? RT_TIMER_CTRL_GET_STATE then
    mret (RT_EOK, if Z.land (tm_flag tm) RT_TIMER_FLAG_ACTIVATED =? 0
                  then RT_TIMER_FLAG_DEACTIVATED else RT_TIMER_FLAG_ACTIVATED)
  else if cmd =? RT_TIMER_CTRL_GET_REMAIN_TIME then mret (RT_EOK, tm_timeout_tick tm)
  else mret (RT_EOK, arg).

(** ** Suspending and resuming a thread (thread.c) *)

Definition rt_thread_suspend (thread : nat) : M Z :=
  assert_type (OThread thread) RT_Object_Class_Thread;;
  self ← rt_thread_self;
  rt_assert (bool_decide (self = Some thread));;
  th ← get_thread thread;
  if negb (stat_of th =? RT_THREAD_READY) && negb (stat_of th =? RT_THREAD_RUNNING)
  then mret (- RT_ERROR)
  else
    rt_schedule_remove_thread thread;;
    upd_thread thread (with_stat RT_THREAD_SUSPEND);;
    rt_timer_stop (TmThread thread);;
    mret RT_EOK.

Definition rt_thread_resume (thread : nat) : M Z :=
  assert_type (OThread thread) RT_Object_Class_Thread;;
  th ← get_thread thread;
  if negb (stat_of th =? RT_THREAD_SUSPEND) then mret (- RT_ERROR)
  else
    modify_tq (rt_list_remove thread);;
    rt_timer_stop (TmThread thread);;
    rt_schedule_insert_thread thread;;
    mret RT_EOK.

(** ** Starting a timer *)

(** The walk along [timer_list] and the insertion after the row it stops at:
    behind the timers that expire no later. *)
Fixpoint timer_row_insert (timers : gmap tmid rt_timer) (timer : tmid) (timeout_tick : Z)
    (rows : list tmid) : option (list tmid) :=
  match rows with
  | [] => Some [timer]
  | p :: rows' =>
      match timers !! p with
      | None => None
      | Some t =>
          let d := u32 (tm_timeout_tick t - timeout_tick) in
          if d =? 0 then cons p <$> timer_row_insert timers timer timeout_tick rows'
          else if d <? RT_TICK_MAX / 2 then Some (timer :: rows)
          else cons p <$> timer_row_insert timers timer timeout_tick rows'
      end
  end.

Definition is_soft (tm : rt_timer) : bool :=
  negb (Z.land (tm_flag tm) RT_TIMER_FLAG_SOFT_TIMER =? 0).

Definition rt_timer_start (timer : tmid) : M Z :=
  assert_type (OTimer timer) RT_Object_Class_Timer;;
  _timer_remove timer;;
  clear_activated timer;;
  now ← rt_tick_get;
  upd_timer timer (fun tm => set_tm_timeout_tick (u32 (now + tm_init_tick tm)) tm);;
  tm ← get_timer timer;
  let timer_list := if is_soft tm then TLSoft else TLHard in
  rows ← gets (fun k =>
    timer_row_insert (k_timers k) timer (tm_timeout_tick tm) (qget (k_tmq k) timer_list));
  rows ← deref rows;
  modify_tmq (fun m => <[timer_list := rows]> m);;
  upd_timer timer (fun tm => set_tm_flag (Z.lor (tm_flag tm) RT_TIMER_FLAG_ACTIVATED) tm);;
  need_schedule ←
    (if is_soft tm then
       status ← gets k_soft_status;
       _timer_thread ← gets k_timer_thread;
       if status =? RT_SOFT_TIMER_IDLE then
         th ← get_thread _timer_thread;
         if stat_of th =? RT_THREAD_SUSPEND then
           rt_thread_resume _timer_thread;; mret true
         else mret false
       else mret false
     else mret false);
  when need_schedule rt_schedule;;
  mret RT_EOK.

(** The callback of a thread's own timer (thread.c). *)
Definition _thread_timeout (thread : nat) : M unit :=
  th ← get_thread thread;
  rt_assert (stat_of th =? RT_THREAD_SUSPEND);;
  assert_type (OThread thread) RT_Object_Class_Thread;;
  upd_thread thread (set_th_error (- RT_ETIMEOUT));;
  modify_tq (rt_list_remove thread);;
  rt_schedule_insert_thread thread;;
  rt_schedule.

(** ** Expiry *)

Section expiry.
Context (timeout_func : nat -> M unit).

Definition callback (timer : tmid) : M unit :=
  match timer with TmThread t => _thread_timeout t | TmUser n => timeout_func n end.

(** After the callback: the timer is taken off the local list, and a
    periodic timer that is still active starts again. Nothing is done when
    the callback has started, stopped or removed the timer itself. *)
Definition timer_check_post (t : tmid) (list : tmlist) : M unit :=
  empty ← gets (fun k => rt_list_isempty list (k_tmq k));
  if (empty : bool) then mret tt
  else
    modify_tmq (rt_list_remove t);;
    tm ← get_timer t;
    when (negb (Z.land (tm_flag tm) RT_TIMER_FLAG_PERIODIC =? 0)
          && negb (Z.land (tm_flag tm) RT_TIMER_FLAG_ACTIVATED =? 0))
      (clear_activated t;; rt_timer_start t;; mret tt).

Definition timer_check_pre (t : tmid) (list : tmlist) : M unit :=
  _timer_remove t;;
  tm ← get_timer t;
  when (Z.land (tm_flag tm) RT_TIMER_FLAG_PERIODIC =? 0) (clear_activated t);;
  modify_tmq (rt_list_insert_after list t).

(** The loop of [rt_timer_check]: undefined when [fuel] runs out. *)
Fixpoint timer_check_loop (fuel : nat) (current_tick : Z) : M unit :=
  match fuel with
  | O => fun _ => None
  | S fuel =>
      rows ← gets (fun k => qget (k_tmq k) TLHard);
      match rows with
      | [] => mret tt
      | t :: _ =>
          tm ← get_timer t;
          if u32 (current_tick - tm_timeout_tick tm) <? RT_TICK_MAX / 2 then
            timer_check_pre t TLHardLocal;;
            callback t;;
            current_tick ← rt_tick_get;
            timer_check_post t TLHardLocal;;
            timer_check_loop fuel current_tick
          else mret tt
      end
  end.

Definition rt_timer_check (fuel : nat) : M unit :=
  current_tick ← rt_tick_get;
  modify_tmq (fun m => <[TLHardLocal := []]> m);;
  timer_check_loop fuel current_tick.

Fixpoint soft_timer_check_loop (fuel : nat) : M unit :=
  match fuel with
  | O => fun _ => None
  | S fuel =>
      rows ← gets (fun k => qget (k_tmq k) TLSoft);
      match rows with
      | [] => mret tt
      | t :: _ =>
          tm ← get_timer t;
          current_tick ← rt_tick_get;
          if u32 (current_tick - tm_timeout_tick tm) <? RT_TICK_MAX / 2 then
            timer_check_pre t TLSoftLocal;;
            modify (set_k_soft_status RT_SOFT_TIMER_BUSY);;
            callback t;;
            modify (set_k_soft_status RT_SOFT_TIMER_IDLE);;
            timer_check_post t TLSoftLocal;;
            soft_timer_check_loop fuel
          else mret tt
      end
  end.

Definition rt_soft_timer_check (fuel : nat) : M unit :=
  modify_tmq (fun m => <[TLSoftLocal := []]> m);;
  soft_timer_check_loop fuel.
End expiry.

Definition rt_timer_next_timeout_tick : M Z :=
  '(_, next_timeout) ← _timer_list_next_timeout TLHard;
  mret (default RT_TICK_MAX next_timeout).

Definition rt_system_timer_init : M unit := modify_tmq (fun m => <[TLHard := []]> m).
