(* ===== verification/Thread.v ===== *)
(** * Threads, the tick and the idle thread

    [src/thread.c] (its suspend, resume and timeout functions are in
    Timer.v), [src/clock.c], [src/idle.c] and [src/irq.c]. The stack, the
    entry point and the context switch are not modelled. *)
From S2P Require Import Prelude Kservice Kernel Sched Object Timer.

Definition RT_THREAD_CTRL_STARTUP : Z := 0.
Definition RT_THREAD_CTRL_CLOSE : Z := 1.
Definition RT_THREAD_CTRL_CHANGE_PRIORITY : Z := 2.
Definition RT_TICK_PER_SECOND : Z := 100.
Definition RT_ENOSYS : Z := 6.
Definition RT_EBUSY : Z := 7.
Definition RT_WAITING_FOREVER : Z := -1.

(** ** irq.c *)

Definition rt_interrupt_enter : M unit :=
  modify (fun k => set_k_interrupt_nest (u8 (k_interrupt_nest k + 1)) k).
Definition rt_interrupt_leave : M unit :=
  modify (fun k => set_k_interrupt_nest (u8 (k_interrupt_nest k - 1)) k).

(** ** idle.c: the list of ended threads and the idle hooks *)

Definition rt_thread_defunct_enqueue (thread : nat) : M unit :=
  modify_tq (rt_list_insert_after QDefunct thread).

Definition rt_thread_defunct_dequeue : M (option nat) :=
  l ← gets (fun k => qget (k_tq k) QDefunct);
  match l with
  | thread :: _ => modify_tq (rt_list_remove thread);; mret (Some thread)
  | [] => mret None
  end.

Definition RT_IDLE_HOOK_LIST_SIZE : nat := 4%nat.

(** [idle_hook_list], whose slots are null or hold a hook. *)
Fixpoint idle_sethook_loop (idle_hook_list : list (option nat)) (hook : nat)
    : Z * list (option nat) :=
  match idle_hook_list with
  | [] => (- RT_EFULL, [])
  | None :: l => (RT_EOK, Some hook :: l)
  | h :: l => let '(ret, l) := idle_sethook_loop l hook in (ret, h :: l)
  end.
Definition rt_thread_idle_sethook := idle_sethook_loop.

Fixpoint idle_delhook_loop (idle_hook_list : list (option nat)) (hook : nat)
    : Z * list (option nat) :=
  match idle_hook_list with
  | [] => (- RT_ENOSYS, [])
  | h :: l =>
      if decide (h = Some hook) then (RT_EOK, None :: l)
      else let '(ret, l) := idle_delhook_loop l hook in (ret, h :: l)
  end.
Definition rt_thread_idle_delhook := idle_delhook_loop.

Section defunct.
(** The user's cleanup function of a thread; [mret tt] where it is null. *)
Context (cleanup : nat -> M unit).

Definition defunct_one (thread : nat) : M unit :=
  object_is_systemobject ← rt_object_is_systemobject (OThread thread);
  when object_is_systemobject (rt_object_detach (OThread thread));;
  cleanup thread;;
  when (negb object_is_systemobject) (rt_object_delete (OThread thread)).

Fixpoint rt_defunct_execute (fuel : nat) : M unit :=
  match fuel with
  | O => fun _ => None
  | S fuel =>
      thread ← rt_thread_defunct_dequeue;
      match thread with
      | None => mret tt
      | Some thread => defunct_one thread;; rt_defunct_execute fuel
      end
  end.
End defunct.

(** ** The error number (kservice.c) *)

Definition rt_get_errno : M Z :=
  nest ← rt_interrupt_get_nest;
  if negb (nest =? 0) then gets k_errno
  else
    tid ← rt_thread_self;
    match tid with
    | None => gets k_errno
    | Some tid => th ← get_thread tid; mret (th_error th)
    end.

Definition rt_set_errno (error : Z) : M unit :=
  nest ← rt_interrupt_get_nest;
  if negb (nest =? 0) then modify (set_k_errno error)
  else
    tid ← rt_thread_self;
    match tid with
    | None => modify (set_k_errno error)
    | Some tid => upd_thread tid (set_th_error error)
    end.

(** ** thread.c *)

Definition _thread_exit : M unit :=
  thread ← current_thread;
  rt_schedule_remove_thread thread;;
  rt_timer_detach (TmThread thread);;
  upd_thread thread (set_th_stat RT_THREAD_CLOSE);;
  rt_thread_defunct_enqueue thread;;
  rt_schedule.

Definition set_th_tick (init remaining : Z) (th : rt_thread) : rt_thread :=
  RtThread (th_object th) (th_error th) (th_stat th) (th_current_priority th)
    (th_number_mask th) (th_event_set th) (th_event_info th) init remaining.

Definition _thread_init (thread : nat) (priority tick : Z) : M Z :=
  fresh ← gets (fun k => rt_list_init_node thread (k_tq k));
  rt_assert fresh;;
  rt_assert (priority <? RT_THREAD_PRIORITY_MAX);;
  upd_thread thread (set_th_priority priority 0);;
  upd_thread thread (set_th_event 0 0);;
  upd_thread thread (set_th_tick tick tick);;
  upd_thread thread (set_th_error RT_EOK);;
  upd_thread thread (set_th_stat RT_THREAD_INIT);;
  th ← get_thread thread;
  rt_timer_init (TmThread thread) (o_name (th_object th)) 0 RT_TIMER_FLAG_ONE_SHOT;;
  mret RT_EOK.

Definition rt_thread_init (thread : nat) (name : list Z) (priority tick : Z) : M Z :=
  rt_object_init (OThread thread) RT_Object_Class_Thread name;;
  _thread_init thread priority tick.

Definition rt_thread_startup (thread : nat) : M Z :=
  th ← get_thread thread;
  rt_assert (stat_of th =? RT_THREAD_INIT);;
  assert_type (OThread thread) RT_Object_Class_Thread;;
  upd_thread thread (fun th =>
    set_th_priority (th_current_priority th) (u32 (Z.shiftl 1 (th_current_priority th))) th);;
  upd_thread thread (set_th_stat RT_THREAD_SUSPEND);;
  rt_thread_resume thread;;
  self ← rt_thread_self;
  when (bool_decide (is_Some self)) rt_schedule;;
  mret RT_EOK.

(** The common end of [rt_thread_detach] and [rt_thread_delete]. *)
Definition thread_close (thread : nat) : M Z :=
  th ← get_thread thread;
  if stat_of th =? RT_THREAD_CLOSE then mret RT_EOK
  else
    when (negb (stat_of th =? RT_THREAD_INIT)) (rt_schedule_remove_thread thread);;
    rt_timer_detach (TmThread thread);;
    upd_thread thread (set_th_stat RT_THREAD_CLOSE);;
    rt_thread_defunct_enqueue thread;;
    mret RT_EOK.

Definition rt_thread_detach (thread : nat) : M Z :=
  assert_type (OThread thread) RT_Object_Class_Thread;;
  system ← rt_object_is_systemobject (OThread thread);
  rt_assert system;;
  thread_close thread.

(** [mem] and [stack_start] are what the two calls of [RT_KERNEL_MALLOC]
    return. *)
Definition rt_thread_create (mem : option oid) (stack_start : bool) (name : list Z)
    (priority tick : Z) : M (option nat) :=
  thread ← rt_object_allocate mem RT_Object_Class_Thread name;
  match thread with
  | Some (OThread thread) =>
      if stack_start then _thread_init thread priority tick;; mret (Some thread)
      else rt_object_delete (OThread thread);; mret None
  | _ => mret None
  end.

Definition rt_thread_delete (thread : nat) : M Z :=
  assert_type (OThread thread) RT_Object_Class_Thread;;
  system ← rt_object_is_systemobject (OThread thread);
  rt_assert (negb system);;
  thread_close thread.

Definition rt_thread_yield : M Z :=
  thread ← current_thread;
  upd_thread thread (fun th => set_th_remaining_tick (th_init_tick th) th);;
  upd_thread thread set_yield;;
  rt_schedule;;
  mret RT_EOK.

(** Arming the thread's own timer, as every timed wait does:
    [rt_timer_control(.., SET_TIME, &tick); rt_timer_start(..)]. *)
Definition start_thread_timer (thread : nat) (tick : Z) : M unit :=
  rt_timer_control (TmThread thread) RT_TIMER_CTRL_SET_TIME tick;;
  rt_timer_start (TmThread thread);;
  mret tt.

Definition rt_thread_sleep (tick : Z) : M (outcome unit) :=
  thread ← current_thread;
  assert_type (OThread thread) RT_Object_Class_Thread;;
  upd_thread thread (set_th_error RT_EOK);;
  rt_thread_suspend thread;;
  start_thread_timer thread tick;;
  rt_schedule;;
  mret (Wait tt).

(** The rest of the call, when [thread] runs again. *)
Definition rt_thread_sleep_return (thread : nat) : M Z :=
  th ← get_thread thread;
  when (th_error th =? - RT_ETIMEOUT) (upd_thread thread (set_th_error RT_EOK));;
  th ← get_thread thread;
  mret (th_error th).

Definition rt_thread_delay (tick : Z) : M (outcome unit) := rt_thread_sleep tick.

(** The outcome and the new value of [*tick]; a call that waits goes on with
    [rt_thread_sleep_return]. *)
Definition rt_thread_delay_until (tick inc_tick : Z) : M (outcome unit * Z) :=
  thread ← current_thread;
  assert_type (OThread thread) RT_Object_Class_Thread;;
  upd_thread thread (set_th_error RT_EOK);;
  cur_tick ← rt_tick_get;
  if u32 (cur_tick - tick) <? inc_tick then
    let tick := u32 (tick + inc_tick) in
    let left_tick := u32 (tick - cur_tick) in
    rt_thread_suspend thread;;
    start_thread_timer thread left_tick;;
    rt_schedule;;
    mret (Wait tt, tick)
  else
    th ← get_thread thread;
    mret (Ret (th_error th), cur_tick).

(** ** clock.c *)

Definition rt_tick_set (tick : Z) : M unit := modify (set_k_tick tick).

(** The arithmetic is that of [unsigned int]: RT_TICK_PER_SECOND is a plain
    [int] constant, the quotients are of [rt_int32_t]. *)
Definition rt_tick_from_millisecond (ms : Z) : Z :=
  if ms <? 0 then u32 (-1)
  else
    let tick := u32 (s32 (RT_TICK_PER_SECOND * Z.quot ms 1000)) in
    u32 (tick + Z.quot (RT_TICK_PER_SECOND * Z.rem ms 1000 + 999) 1000).

Definition rt_tick_get_millisecond : M Z :=
  t ← rt_tick_get; mret (u32 (t * (1000 / RT_TICK_PER_SECOND))).

Definition rt_thread_mdelay (ms : Z) : M (outcome unit) :=
  rt_thread_sleep (rt_tick_from_millisecond ms).

(** [rt_thread_control]; [arg] is the byte at [*arg]. *)
Definition rt_thread_control (thread : nat) (cmd arg : Z) : M Z :=
  assert_type (OThread thread) RT_Object_Class_Thread;;
  if cmd =? RT_THREAD_CTRL_CHANGE_PRIORITY then
    th ← get_thread thread;
    (if stat_of th =? RT_THREAD_READY then
       rt_schedule_remove_thread thread;;
       upd_thread thread (set_th_priority arg (u32 (Z.shiftl 1 arg)));;
       rt_schedule_insert_thread thread
     else upd_thread thread (set_th_priority arg (u32 (Z.shiftl 1 arg))));;
    mret RT_EOK
  else if cmd =? RT_THREAD_CTRL_STARTUP then rt_thread_startup thread
  else if cmd =? RT_THREAD_CTRL_CLOSE then
    system ← rt_object_is_systemobject (OThread thread);
    rt_err ← (if (system : bool) then rt_thread_detach thread else rt_thread_delete thread);
    rt_schedule;;
    mret rt_err
  else mret RT_EOK.

Definition rt_thread_find (name : list Z) : M (option oid) :=
  rt_object_find (Some name) RT_Object_Class_Thread.

Section tick.
Context (timeout_func : nat -> M unit).

(** The body of the tick interrupt; [fuel] bounds the expiry loop. *)
Definition rt_tick_increase (fuel : nat) : M unit :=
  modify (fun k => set_k_tick (u32 (k_tick k + 1)) k);;
  thread ← current_thread;
  upd_thread thread (fun th => set_th_remaining_tick (u64 (th_remaining_tick th - 1)) th);;
  th ← get_thread thread;
  (if th_remaining_tick th =? 0 then
     upd_thread thread (fun th => set_th_remaining_tick (th_init_tick th) th);;
     upd_thread thread set_yield;;
     rt_schedule
   else mret tt);;
  rt_timer_check timeout_func fuel.

(** One round of the timer thread's loop: up to the point where it blocks
    or starts over ... *)
Definition _timer_thread_entry (fuel : nat) : M (outcome bool) :=
  '(err, next_timeout) ← _timer_list_next_timeout TLSoft;
  match next_timeout with
  | None =>
      self ← current_thread;
      rt_thread_suspend self;;
      rt_schedule;;
      mret (Wait false)
  | Some next_timeout =>
      current_tick ← rt_tick_get;
      if u32 (next_timeout - current_tick) <? RT_TICK_MAX / 2 then
        rt_thread_delay (u32 (next_timeout - current_tick));;
        mret (Wait true)
      else
        rt_soft_timer_check timeout_func fuel;;
        mret (Ret 0)
  end.

(** ... and from there on, [delay] telling whether it waited in
    [rt_thread_delay]. *)
Definition _timer_thread_resume (fuel : nat) (delay : bool) : M unit :=
  self ← current_thread;
  (if delay then rt_thread_sleep_return self;; mret tt else mret tt);;
  rt_soft_timer_check timeout_func fuel.
End tick.

Definition RT_TIMER_THREAD_PRIO : Z := 4.

(** ["timer"]. *)
Definition timer_name : list Z := [116; 105; 109; 101; 114].

Definition rt_system_timer_thread_init : M unit :=
  modify_tmq (fun m => <[TLSoft := []]> m);;
  _timer_thread ← gets k_timer_thread;
  rt_thread_init _timer_thread timer_name RT_TIMER_THREAD_PRIO 10;;
  rt_thread_startup _timer_thread;;
  mret tt.

(** ["tidle0"], the only idle thread. *)
Definition idle_name : list Z := [116; 105; 100; 108; 101; 48].

Definition rt_thread_idle_init (idle : nat) : M unit :=
  rt_thread_init idle idle_name (RT_THREAD_PRIORITY_MAX - 1) 32;;
  rt_thread_startup idle;;
  mret tt.
