(* ===== verification/KernelInv.v ===== *)
(** * The kernel invariant

    What holds of threads, ready lists, wait lists and timers between two
    kernel calls, and what the primitives that move a thread between these
    lists do: [rt_thread_suspend], [rt_thread_resume], [rt_timer_stop],
    [rt_timer_start], [_thread_timeout] and [rt_schedule]. The clients
    (semaphores, mutexes, events, mailboxes, message queues, the tick) are
    proved against these specifications only. *)
From S2P Require Import Prelude Kservice Kernel Sched Object Timer Thread.

(** ** What the primitives leave alone *)

Record obj_frame (k k' : kstate) : Prop := ObjFrame {
  of_sems : k_sems k' = k_sems k;
  of_mutexes : k_mutexes k' = k_mutexes k;
  of_events : k_events k' = k_events k;
  of_mbs : k_mbs k' = k_mbs k;
  of_mqs : k_mqs k' = k_mqs k;
  of_mps : k_mps k' = k_mps k;
  of_completions : k_completions k' = k_completions k;
  of_dqs : k_dqs k' = k_dqs k;
  of_objlist : k_objlist k' = k_objlist k;
  of_lock : k_lock_nest k' = k_lock_nest k;
  of_interrupt : k_interrupt_nest k' = k_interrupt_nest k;
  of_tick : k_tick k' = k_tick k;
  of_timer_thread : k_timer_thread k' = k_timer_thread k;
  of_soft : k_soft_status k' = k_soft_status k;
  of_devices : k_devices k' = k_devices k;
  of_wqueues : k_wqueues k' = k_wqueues k;
  of_wqlists : k_wqlists k' = k_wqlists k;
  of_wqnodes : k_wqnodes k' = k_wqnodes k;
  of_works : k_works k' = k_works k;
  of_workqueues : k_workqueues k' = k_workqueues k;
  of_wklists : k_wklists k' = k_wklists k
}.

#[export] Instance obj_frame_refl : Reflexive obj_frame.
Proof. by constructor. Qed.
#[export] Instance obj_frame_trans : Transitive obj_frame.
Proof. intros k1 k2 k3 [] []. constructor; congruence. Qed.

Lemma sched_obj_frame k k' : sched_frame k k' -> obj_frame k k'.
Proof.
  intros F. apply sched_frame_fields in F.
  destruct F as (_ & _ & ? & ? & ? & ? & ? & ? & ? & ? & ? & ? & ? & ? & ? & ? & _ & ? & ? & ? & ? & ? & ? & ?). by constructor.
Qed.

(** ** Timers *)

(** The object is in use as one of class [c]. *)
Definition has_type (c : Z) (h : rt_object) : Prop :=
  u8 (Z.land (o_type h) (Z.lnot RT_Object_Class_Static)) = c.
Definition is_static (h : rt_object) : bool :=
  negb (Z.land (o_type h) RT_Object_Class_Static =? 0).
Definition activated (tm : rt_timer) : bool :=
  negb (Z.land (tm_flag tm) RT_TIMER_FLAG_ACTIVATED =? 0).
Definition periodic (tm : rt_timer) : bool :=
  negb (Z.land (tm_flag tm) RT_TIMER_FLAG_PERIODIC =? 0).

(** The list the timer is started on. *)
Definition list_of (tm : rt_timer) : tmlist := if is_soft tm then TLSoft else TLHard.
Definition is_global (l : tmlist) : Prop := l = TLHard \/ l = TLSoft.

Record timer_inv (k : kstate) : Prop := TimerInv {
  ti_thread t th : k_threads k !! t = Some th -> stat_of th <> RT_THREAD_CLOSE ->
    has_type RT_Object_Class_Thread (th_object th) /\
    exists tm, k_timers k !! TmThread t = Some tm /\
      has_type RT_Object_Class_Timer (tm_parent tm) /\
      is_static (tm_parent tm) = true /\ is_soft tm = false /\ periodic tm = false;
  ti_on l m : is_global l -> m ∈ qget (k_tmq k) l ->
    exists tm, k_timers k !! m = Some tm /\ has_type RT_Object_Class_Timer (tm_parent tm) /\
      activated tm = true /\ list_of tm = l;
  ti_armed t l : is_global l -> TmThread t ∈ qget (k_tmq k) l ->
    exists th, k_threads k !! t = Some th /\ stat_of th = RT_THREAD_SUSPEND;
  ti_nodup l : is_global l -> NoDup (qget (k_tmq k) l)
}.

Record kernel_inv (float : option nat) (k : kstate) : Prop := KernelInv {
  ki_sched : sched_inv float k;
  ki_timer : timer_inv k
}.

Record kernel_ok (k : kstate) : Prop := KernelOk {
  ko_sched : sched_ok k;
  ko_timer : timer_inv k
}.

Lemma kernel_ok_inv k : kernel_ok k -> kernel_inv None k.
Proof. intros [[] ?]. by constructor. Qed.

(** ** Invariants that look at part of the state only *)

Lemma sched_inv_ext float k k' :
  k_threads k' = k_threads k -> k_tq k' = k_tq k -> k_current k' = k_current k ->
  k_ready_group k' = k_ready_group k -> sched_inv float k -> sched_inv float k'.
Proof. intros E1 E2 E3 E4 []. constructor; rewrite ?E1, ?E2, ?E3, ?E4; done. Qed.

Lemma sched_ok_ext k k' :
  k_threads k' = k_threads k -> k_tq k' = k_tq k -> k_current k' = k_current k ->
  k_ready_group k' = k_ready_group k -> sched_ok k -> sched_ok k'.
Proof.
  intros E1 E2 E3 E4 [H1 H2]. constructor; [by eapply sched_inv_ext|]. by rewrite E1, E3.
Qed.

(** [timer_inv] looks at the objects and the status of the threads. *)
Definition status_kept (k k' : kstate) : Prop :=
  forall t th', k_threads k' !! t = Some th' ->
  exists th, k_threads k !! t = Some th /\ th_object th' = th_object th /\
    (stat_of th = RT_THREAD_CLOSE -> stat_of th' = RT_THREAD_CLOSE).

Lemma timer_inv_ext k k' :
  k_timers k' = k_timers k -> k_tmq k' = k_tmq k -> status_kept k k' ->
  (forall t l th, is_global l -> TmThread t ∈ qget (k_tmq k) l ->
     k_threads k !! t = Some th -> stat_of th = RT_THREAD_SUSPEND ->
     exists th', k_threads k' !! t = Some th' /\ stat_of th' = RT_THREAD_SUSPEND) ->
  timer_inv k -> timer_inv k'.
Proof.
  intros E1 E2 Hs Ha [Ht Ho Har Hnd]. constructor; rewrite ?E1, ?E2; [|done| |done].
  - intros t th' Ht' Hc. destruct (Hs t th' Ht') as (th & Hth & Eo & Hcl).
    rewrite Eo. apply Ht; [done|]. tauto.
  - intros t l Hl Hin. destruct (Har t l Hl Hin) as (th & Hth & Hst). eauto.
Qed.

Lemma timer_inv_sched k k' : sched_frame k k' -> timer_inv k -> timer_inv k'.
Proof.
  intros F. destruct (sched_frame_fields k k' F) as (E1 & E2 & _).
  apply timer_inv_ext; [done|done| |].
  - intros t th' Ht'. destruct (k_threads k !! t) as [th|] eqn:Hth.
    + exists th. destruct (sf_thread _ _ F t th Hth) as (s & Hs & Hb & _).
      assert (th' = set_th_stat s th) as -> by congruence.
      split; [done|]. split; [done|]. intros Hc. rewrite Hb; [done|].
      unfold blocked. by rewrite Hc.
    + rewrite (sf_none _ _ F t Hth) in Ht'. done.
  - intros t l th _ _ Hth Hst. destruct (sf_thread _ _ F t th Hth) as (s & Hs & Hb & _).
    rewrite Hb in Hs; [by exists th|]. unfold blocked. by rewrite Hst.
Qed.

(** ** [rt_schedule] *)

Lemma schedule_kernel k :
  kernel_ok k -> is_Some (k_current k) ->
  exists k', rt_schedule k = Some (tt, k') /\ kernel_ok k' /\ sched_frame k k' /\
    is_Some (k_current k') /\ (k_lock_nest k = 0 -> highest_running k').
Proof.
  intros [Hs Ht] Hc. destruct (schedule_spec k Hs Hc) as (k' & E & Hok & F & Hc' & Hh & _).
  exists k'. split; [done|]. split; [|done]. constructor; [done|by eapply timer_inv_sched].
Qed.

(** ** Object headers *)

Lemma assert_thread_type k t th :
  k_threads k !! t = Some th -> has_type RT_Object_Class_Thread (th_object th) ->
  assert_type (OThread t) RT_Object_Class_Thread k = Some (tt, k).
Proof.
  intros Ht Hy. unfold assert_type, rt_object_get_type, get_hdr. mrun. unfold obj_hdr.
  rewrite Ht; simpl. unfold has_type in Hy. by rewrite Hy.
Qed.

Lemma assert_timer_type k m tm :
  k_timers k !! m = Some tm -> has_type RT_Object_Class_Timer (tm_parent tm) ->
  assert_type (OTimer m) RT_Object_Class_Timer k = Some (tt, k).
Proof.
  intros Ht Hy. unfold assert_type, rt_object_get_type, get_hdr. mrun. unfold obj_hdr.
  rewrite Ht; simpl. unfold has_type in Hy. by rewrite Hy.
Qed.

(** ** [rt_timer_stop] *)

Definition timer_st (m : tmid) (tm : rt_timer) (k : kstate) : kstate :=
  set_k_timers (<[m := tm]> (k_timers k)) k.

Lemma upd_timer_eq m f k tm :
  k_timers k !! m = Some tm -> upd_timer m f k = Some (tt, timer_st m (f tm) k).
Proof. intros H. unfold upd_timer. rewrite bind_unfold. unfold get_timer. by rewrite H. Qed.

Lemma get_timer_eq m k tm : k_timers k !! m = Some tm -> get_timer m k = Some (tm, k).
Proof. intros H. unfold get_timer. by rewrite H. Qed.

Definition deactivate (tm : rt_timer) : rt_timer :=
  set_tm_flag (Z.land (tm_flag tm) (Z.lnot RT_TIMER_FLAG_ACTIVATED)) tm.

Definition stop_st (m : tmid) (tm : rt_timer) (k : kstate) : kstate :=
  if activated tm
  then timer_st m (deactivate tm) (set_k_tmq (rt_list_remove m (k_tmq k)) k) else k.

Lemma timer_stop_eq k m tm :
  k_timers k !! m = Some tm -> has_type RT_Object_Class_Timer (tm_parent tm) ->
  rt_timer_stop m k = Some (if activated tm then RT_EOK else - RT_ERROR, stop_st m tm k).
Proof.
  intros Hm Hy. unfold rt_timer_stop. mrun. rewrite (assert_timer_type k m tm) by done.
  rewrite (get_timer_eq m k tm) by done. unfold stop_st, activated, _timer_remove, clear_activated.
  mrun. destruct (_ =? 0); simpl; [done|]. by rewrite (upd_timer_eq m _ _ tm).
Qed.

Lemma deactivate_fields tm :
  tm_parent (deactivate tm) = set_o_flag (tm_flag (deactivate tm)) (tm_parent tm) /\
  is_soft (deactivate tm) = is_soft tm /\ periodic (deactivate tm) = periodic tm /\
  activated (deactivate tm) = false.
Proof.
  split; [done|]. unfold is_soft, periodic, activated, deactivate. kfields.
  rewrite <- !Z.land_assoc. change (Z.land (Z.lnot RT_TIMER_FLAG_ACTIVATED) 4) with 4.
  change (Z.land (Z.lnot RT_TIMER_FLAG_ACTIVATED) RT_TIMER_FLAG_PERIODIC) with 2.
  change (Z.land (Z.lnot RT_TIMER_FLAG_ACTIVATED) RT_TIMER_FLAG_ACTIVATED) with 0.
  change (Z.land (Z.lnot RT_TIMER_FLAG_ACTIVATED) RT_TIMER_FLAG_SOFT_TIMER) with 4.
  by rewrite Z.land_0_r.
Qed.

(** Changing the flag, the ticks or the list of one timer. *)
Lemma timer_inv_set m tm tm' k tmq' :
  timer_inv k -> k_timers k !! m = Some tm ->
  o_type (tm_parent tm') = o_type (tm_parent tm) -> is_soft tm' = is_soft tm ->
  periodic tm' = periodic tm ->
  (forall l x, is_global l -> x ∈ qget tmq' l -> x <> m -> x ∈ qget (k_tmq k) l) ->
  (forall l, is_global l -> m ∈ qget tmq' l ->
     has_type RT_Object_Class_Timer (tm_parent tm) /\ activated tm' = true /\ list_of tm = l) ->
  (forall l t, is_global l -> m = TmThread t -> m ∈ qget tmq' l ->
     exists th, k_threads k !! t = Some th /\ stat_of th = RT_THREAD_SUSPEND) ->
  (forall l, is_global l -> NoDup (qget tmq' l)) ->
  timer_inv (timer_st m tm' (set_k_tmq tmq' k)).
Proof.
  intros [Ht Ho Har Hnd] Hm Ety Esoft Eper Hsub Hself Hth Hnd'.
  assert (forall c, has_type c (tm_parent tm) -> has_type c (tm_parent tm')) as Hty.
  { intros c. unfold has_type. by rewrite Ety. }
  constructor; unfold timer_st; kfields.
  - intros t th Hlk Hc. destruct (Ht t th Hlk Hc) as (Hto & tm0 & Htm0 & Hy & Hst & Hsf & Hp).
    split; [done|]. destruct (decide (m = TmThread t)) as [->|Hne].
    + assert (tm0 = tm) as -> by congruence. exists tm'. rewrite lookup_insert_eq.
      split_and!; [done|auto| |congruence|congruence].
      unfold is_static. rewrite Ety. done.
    + exists tm0. rewrite lookup_insert_ne by done. done.
  - intros l x Hl Hx. destruct (decide (x = m)) as [->|Hne].
    + destruct (Hself l Hl Hx) as (Hy & Ha & Hll). exists tm'. rewrite lookup_insert_eq.
      split; [done|]. split; [auto|]. split; [done|]. unfold list_of in *. by rewrite Esoft.
    + rewrite lookup_insert_ne by done. apply Ho; [done|]. by apply Hsub.
  - intros t l Hl Hx. destruct (decide (TmThread t = m)) as [<-|Hne]; [by eapply Hth|].
    apply (Har t l Hl). by apply Hsub.
  - done.
Qed.

Lemma timer_stop_inv m tm k :
  timer_inv k -> k_timers k !! m = Some tm ->
  timer_inv (stop_st m tm k) /\
  (forall l, is_global l -> m ∉ qget (k_tmq (stop_st m tm k)) l).
Proof.
  intros H Hm. unfold stop_st. destruct (activated tm) eqn:Ha.
  2: { split; [done|]. intros l Hl Hin. destruct (ti_on k H l m Hl Hin) as (tm' & ? & _ & ? & _).
       congruence. }
  destruct (deactivate_fields tm) as (Ep & Es & Eper & Eact).
  assert (forall l, m ∉ qget (rt_list_remove m (k_tmq k)) l) as Hnot.
  { intros l Hin. apply elem_remove in Hin. by destruct Hin. }
  split; [|by intros l _; apply Hnot].
  apply (timer_inv_set m tm); try done.
  - intros l x _ Hx _. apply elem_remove in Hx. by destruct Hx.
  - intros l _ Hin. by apply Hnot in Hin.
  - intros l t _ _ Hin. by apply Hnot in Hin.
  - intros l Hl. rewrite qget_remove. apply NoDup_filter. by apply (ti_nodup k H).
Qed.

(** What [rt_timer_stop] leaves of the timer lists. *)
Lemma stop_st_tmq m tm k l :
  timer_inv k -> k_timers k !! m = Some tm -> is_global l ->
  qget (k_tmq (stop_st m tm k)) l = filter (fun x => x <> m) (qget (k_tmq k) l).
Proof.
  intros H Hm Hl. unfold stop_st. destruct (activated tm) eqn:Ha.
  - unfold timer_st; kfields. apply qget_remove.
  - symmetry. apply filter_ne_notin. intros Hin.
    destruct (ti_on k H l m Hl Hin) as (tm' & ? & _ & ? & _). congruence.
Qed.

Lemma stop_st_fields m tm k :
  k_threads (stop_st m tm k) = k_threads k /\ k_tq (stop_st m tm k) = k_tq k /\
  k_current (stop_st m tm k) = k_current k /\
  k_current_priority (stop_st m tm k) = k_current_priority k /\
  k_ready_group (stop_st m tm k) = k_ready_group k /\ obj_frame k (stop_st m tm k).
Proof. unfold stop_st. by destruct (activated tm). Qed.

Lemma stop_st_timers m tm k x :
  k_timers k !! m = Some tm ->
  k_timers (stop_st m tm k) !! x =
    if decide (x = m) then Some (if activated tm then deactivate tm else tm) else k_timers k !! x.
Proof.
  intros Hm. unfold stop_st. case_decide as Hd; [subst x|].
  - destruct (activated tm); [apply lookup_insert_eq|done].
  - destruct (activated tm); [|done]. unfold timer_st; kfields. by rewrite lookup_insert_ne.
Qed.

(** ** [rt_thread_suspend] *)

Lemma running_unlisted t th k q :
  sched_inv None k -> k_threads k !! t = Some th -> stat_of th = RT_THREAD_RUNNING ->
  t ∉ qget (k_tq k) q.
Proof. intros H Ht Hs. by apply (so_float _ _ (float_running t th k H Ht Hs)). Qed.

Lemma running_unarmed t th k l :
  timer_inv k -> k_threads k !! t = Some th -> stat_of th <> RT_THREAD_SUSPEND -> is_global l ->
  TmThread t ∉ qget (k_tmq k) l.
Proof.
  intros H Ht Hs Hl Hin. destruct (ti_armed k H t l Hl Hin) as (th' & ? & ?). congruence.
Qed.

(** The effect of [rt_thread_suspend] on the running thread [c]. *)
Record suspended (c : nat) (th : rt_thread) (k k' : kstate) : Prop := Suspended {
  su_ok : kernel_ok k';
  su_frame : obj_frame k k';
  su_current : k_current k' = Some c;
  su_threads : k_threads k' = <[c := with_stat RT_THREAD_SUSPEND th]> (k_threads k);
  su_tq q : qget (k_tq k') q = qget (k_tq k) q;
  su_unlisted q : c ∉ qget (k_tq k') q;
  su_tmq l : is_global l -> qget (k_tmq k') l = qget (k_tmq k) l;
  su_unarmed l : is_global l -> TmThread c ∉ qget (k_tmq k') l;
  su_timers m : m <> TmThread c -> k_timers k' !! m = k_timers k !! m
}.

(** The running thread taken off its list and marked as suspended. *)
Lemma unready_inv c th k :
  kernel_ok k -> k_threads k !! c = Some th -> stat_of th = RT_THREAD_RUNNING ->
  let k1 := thread_st c (with_stat RT_THREAD_SUSPEND th) (remove_st c th k) in
  sched_inv None k1 /\ timer_inv k1 /\ forall q, qget (k_tq k1) q = qget (k_tq k) q.
Proof.
  intros [[H Hcur] Ht] Hth Hr k1. destruct (so_prio _ _ H c th Hth) as [Hp Hm].
  assert (stat_of (with_stat RT_THREAD_SUSPEND th) = RT_THREAD_SUSPEND) as Hs' by apply stat_with_stat.
  split; [|split].
  - apply (unfloat_inv c (with_stat RT_THREAD_SUSPEND th)); [|apply thread_st_lookup|by rewrite Hs'|by rewrite Hs'].
    apply (thread_float_inv c th); [|done|done|].
    + apply remove_inv; [done|done| |]; by rewrite Hr.
    + intros _ _. apply Hm; by rewrite Hr.
  - apply (timer_inv_ext k); [done|done| | |done].
    + intros x thx Hx. unfold k1, thread_st, remove_st in Hx; kfields.
      destruct (decide (x = c)) as [->|Hne].
      * rewrite lookup_insert_eq in Hx. injection Hx as <-. exists th. split; [done|].
        split; [done|]. by rewrite Hr.
      * rewrite lookup_insert_ne in Hx by done. by exists thx.
    + intros x l thx Hl Hin Hx Hsx. exists thx. split; [|done].
      unfold k1, thread_st, remove_st; kfields. rewrite lookup_insert_ne; [done|].
      intros ->. exfalso. apply (running_unarmed x th k l); try done. by rewrite Hr.
  - intros q. unfold k1, thread_st, remove_st; kfields. rewrite qget_remove.
    apply filter_ne_notin. by apply (running_unlisted c th).
Qed.

Lemma suspend_spec c th k :
  kernel_ok k -> k_current k = Some c -> k_threads k !! c = Some th ->
  stat_of th = RT_THREAD_RUNNING ->
  exists k', rt_thread_suspend c k = Some (RT_EOK, k') /\ suspended c th k k'.
Proof.
  intros Hok Hc Hth Hr. destruct (unready_inv c th k Hok Hth Hr) as (H1 & T1 & Hq1). destruct Hok as [[H _] Ht].
  assert (stat_of th <> RT_THREAD_CLOSE) as Hnc by (by rewrite Hr).
  destruct (ti_thread k Ht c th Hth Hnc) as (Hty & tm & Htm & Htty & _).
  set (th' := with_stat RT_THREAD_SUSPEND th) in *. set (k1 := thread_st c th' (remove_st c th k)) in *.
  assert (k_timers k1 !! TmThread c = Some tm) as Htm1 by done.
  destruct (timer_stop_inv (TmThread c) tm k1 T1 Htm1) as [T2 Hnot].
  destruct (stop_st_fields (TmThread c) tm k1) as (F1 & F2 & F3 & F4 & F5 & F6).
  exists (stop_st (TmThread c) tm k1). split.
  - unfold rt_thread_suspend, rt_thread_self. mrun.
    rewrite (assert_thread_type k c th) by done. unfold rt_assert.
    rewrite Hc, bool_decide_eq_true_2 by done. rewrite (get_thread_eq c k th), Hr by done. cbn.
    rewrite (remove_eq c k th) by done.
    rewrite (upd_thread_eq c _ (remove_st c th k) th) by done. fold th'. fold k1.
    by rewrite (timer_stop_eq k1 (TmThread c) tm).
  - constructor.
    4: by rewrite F1. 3: by rewrite F3. 2: by transitivity k1. 5: done.
    + constructor; [|done]. apply (sched_ok_ext k1); try done. constructor; [done|].
      intros x Hx. assert (x = c) as -> by (unfold k1, thread_st, remove_st in Hx; kfields; congruence).
      exists th'. split; [apply thread_st_lookup|]. assert (stat_of th' = RT_THREAD_SUSPEND) as -> by apply stat_with_stat. done.
    + intros q. by rewrite F2, Hq1.
    + intros q. rewrite F2, Hq1. by apply (running_unlisted c th).
    + intros l Hl. rewrite stop_st_tmq by done. apply filter_ne_notin.
      apply (running_unarmed c th); try done. by rewrite Hr.
    + intros m Hmc. rewrite (stop_st_timers (TmThread c) tm k1) by done.
      by rewrite decide_False by done.
Qed.

(** ** Updates that keep the invariant *)

(** The fields the invariants do not read. *)
Definition same_sched (th th' : rt_thread) : Prop :=
  th_stat th' = th_stat th /\ th_object th' = th_object th /\
  th_current_priority th' = th_current_priority th /\ th_number_mask th' = th_number_mask th.

Lemma thread_st_same t th th' k :
  k_threads k !! t = Some th -> same_sched th th' -> kernel_ok k -> kernel_ok (thread_st t th' k).
Proof.
  intros Hth (Es & Eo & Ep & Em) [[H Hcur] T].
  assert (stat_of th' = stat_of th) as Est by (unfold stat_of; by rewrite Es).
  assert (forall x thx, k_threads (thread_st t th' k) !! x = Some thx ->
    exists thy, k_threads k !! x = Some thy /\ stat_of thx = stat_of thy /\
      th_object thx = th_object thy /\
      th_current_priority thx = th_current_priority thy /\
      th_number_mask thx = th_number_mask thy) as Hback.
  { intros x thx Hx. unfold thread_st in Hx; kfields. destruct (decide (x = t)) as [->|Hne].
    - rewrite lookup_insert_eq in Hx. injection Hx as <-. exists th. done.
    - rewrite lookup_insert_ne in Hx by done. by exists thx. }
  assert (forall x thx, k_threads k !! x = Some thx ->
    exists thy, k_threads (thread_st t th' k) !! x = Some thy /\ stat_of thy = stat_of thx /\
      th_current_priority thy = th_current_priority thx) as Hfwd.
  { intros x thx Hx. unfold thread_st; kfields. destruct (decide (x = t)) as [->|Hne].
    - rewrite lookup_insert_eq. exists th'. assert (thx = th) as -> by congruence. done.
    - rewrite lookup_insert_ne by done. by exists thx. }
  destruct H as [Hex Hnd Hfl Hrd Hwt Hdf Hqd Hrun Hpr Hg Hb].
  constructor; [constructor; [constructor|]|]; try done.
  - intros p x Hx. destruct (Hrd p x Hx) as (thx & Hx1 & Hx2 & Hx3).
    destruct (Hfwd x thx Hx1) as (thy & ? & ? & ?). exists thy.
    split; [done|]. split; congruence.
  - intros q x Hq Hx. destruct (Hwt q x Hq Hx) as (thx & Hx1 & Hx2).
    destruct (Hfwd x thx Hx1) as (thy & ? & ? & ?). exists thy. split; congruence.
  - intros x Hx. destruct (Hdf x Hx) as (thx & Hx1 & Hx2).
    destruct (Hfwd x thx Hx1) as (thy & ? & ? & ?). exists thy. split; congruence.
  - intros x thx Hx Hn Hs. destruct (Hback x thx Hx) as (thy & ? & ? & ? & Epy & ?).
    rewrite Epy. apply Hqd; [done|done|congruence].
  - intros x thx Hx Hn Hs. destruct (Hback x thx Hx) as (thy & ? & ? & ?).
    apply (Hrun x thy); [done|done|congruence].
  - intros x thx Hx. destruct (Hback x thx Hx) as (thy & Hy & Esy & ? & Epy & Emy).
    rewrite Epy, Emy, Esy. by apply (Hpr x).
  - intros x Hx. destruct (Hcur x Hx) as (thx & Hx1 & Hx2).
    destruct (Hfwd x thx Hx1) as (thy & ? & ? & ?). exists thy. split; [done|congruence].
  - apply (timer_inv_ext k); try done.
    + intros x thx Hx. destruct (Hback x thx Hx) as (thy & ? & Esy & ? & _). exists thy.
      split; [done|]. split; [done|]. by rewrite Esy.
    + intros x l thx _ _ Hx Hs. destruct (Hfwd x thx Hx) as (thy & ? & ? & _). exists thy.
      split; [done|congruence].
Qed.

(** Putting a suspended, unlisted thread on a wait list, anywhere. *)
Lemma wait_insert_ok q t th l1 l2 k :
  kernel_ok k -> is_wait q -> k_threads k !! t = Some th -> stat_of th = RT_THREAD_SUSPEND ->
  (forall q', t ∉ qget (k_tq k) q') -> qget (k_tq k) q = l1 ++ l2 ->
  kernel_ok (set_k_tq (<[q := l1 ++ t :: l2]> (k_tq k)) k).
Proof.
  intros [[[Hex Hnd Hfl Hrd Hwt Hdf Hqd Hrun Hpr Hg Hb] Hcur] T] Hq Hth Hs Hnot Hl.
  set (tq' := <[q := l1 ++ t :: l2]> (k_tq k)).
  assert (forall q' x, x ∈ qget tq' q' <-> x ∈ qget (k_tq k) q' \/ (x = t /\ q' = q)) as Hin.
  { intros q' x. unfold tq'. rewrite qget_insert. case_decide as Hd.
    - subst q'. rewrite Hl, !elem_of_app, elem_of_cons. tauto.
    - split; [auto|]. by intros [?|[_ ->]]. }
  constructor.
  2: { apply (timer_inv_ext k); try done; [intros x thx Hx; by exists thx|].
       intros x l thx _ _ Hx Hsx. by exists thx. }
  constructor; [|done]. constructor; kfields; fold tq'; try done.
  - intros q1 q2 x [H1|[-> ->]]%Hin [H2|[Hx ->]]%Hin; subst; eauto; exfalso; by eapply Hnot.
  - intros q'. unfold tq'. rewrite qget_insert. case_decide as Hd; [|done].
    specialize (Hnd q). specialize (Hnot q). rewrite Hl in Hnd, Hnot.
    rewrite <- Permutation_middle. by apply NoDup_cons.
  - intros p x [H1|[-> <-]]%Hin; [eauto|done].
  - intros q' x Hq' [H1|[-> _]]%Hin; [eauto|by exists th].
  - intros x [H1|[-> <-]]%Hin; [eauto|done].
  - intros x thx Hx Hn Hsx. apply Hin. left. by apply Hqd.
  - intros p Hp. rewrite Hb by done. unfold tq'. rewrite qget_insert.
    rewrite decide_False by (by intros ->). done.
Qed.

(** ** Waking a thread *)

Lemma not_ready_unlisted t th k p :
  sched_inv None k -> k_threads k !! t = Some th -> stat_of th <> RT_THREAD_READY ->
  t ∉ qget (k_tq k) (QReady p).
Proof.
  intros H Hth Hs Hin. destruct (so_ready _ _ H p t Hin) as (th' & ? & Hr & _). congruence.
Qed.

(** Taking a suspended or closed thread off its list. *)
Lemma unlink_ok t th k :
  kernel_ok k -> k_threads k !! t = Some th -> stat_of th <> RT_THREAD_READY ->
  kernel_ok (set_k_tq (rt_list_remove t (k_tq k)) k).
Proof.
  intros [[H Hcur] T] Hth Hs. pose proof (fun p => not_ready_unlisted t th k p H Hth Hs) as Hnr.
  destruct H as [Hex Hnd Hfl Hrd Hwt Hdf Hqd Hrun Hpr Hg Hb].
  constructor.
  2: { apply (timer_inv_ext k); try done; [intros x thx Hx; by exists thx|].
       intros x l thx _ _ Hx Hsx. by exists thx. }
  constructor; [|done]. constructor; kfields; try done.
  - intros q q' x H1 H2. apply elem_remove in H1 as [_ ?]. apply elem_remove in H2 as [_ ?]. eauto.
  - intros q. rewrite qget_remove. by apply NoDup_filter.
  - intros p x Hx. apply elem_remove in Hx as [_ ?]. eauto.
  - intros q x Hq Hx. apply elem_remove in Hx as [_ ?]. eauto.
  - intros x Hx. apply elem_remove in Hx as [_ ?]. eauto.
  - intros x thx Hx Hn Hsx. apply elem_remove. split; [|by apply Hqd].
    intros ->. congruence.
  - intros p Hp. rewrite qget_remove, filter_ne_notin by done. by apply Hb.
Qed.

(** The status a woken thread gets: a thread that still has the processor
    simply goes on. *)
Definition wake_stat (t : nat) (k : kstate) : Z :=
  if decide (k_current k = Some t) then RT_THREAD_RUNNING else RT_THREAD_READY.

Record woken (t : nat) (th : rt_thread) (k k' : kstate) : Prop := Woken {
  wk_ok : kernel_ok k';
  wk_frame : obj_frame k k';
  wk_current : k_current k' = k_current k;
  wk_threads : k_threads k' = <[t := with_stat (wake_stat t k) th]> (k_threads k);
  wk_tq q : (forall p, q <> QReady p) ->
    qget (k_tq k') q = filter (fun x => x <> t) (qget (k_tq k) q);
  wk_tmq l : is_global l ->
    qget (k_tmq k') l = filter (fun x => x <> TmThread t) (qget (k_tmq k) l);
  wk_timers m : m <> TmThread t -> k_timers k' !! m = k_timers k !! m
}.

(** A thread on no list, whose status is about to change. *)
Lemma unlisted_float t k :
  sched_inv None k -> (forall q, t ∉ qget (k_tq k) q) -> sched_inv (Some t) k.
Proof.
  intros [Hex Hnd Hfl Hrd Hwt Hdf Hqd Hrun Hpr Hg Hb] Hnot. constructor; try done.
  - intros q x [= <-]. apply Hnot.
  - intros x thx Hx _. by apply Hqd.
  - intros x thx Hx _. by apply (Hrun x thx).
Qed.

(** The status of a suspended thread whose timer is off does not matter to the timers. *)
Lemma restat_timers t th s tq g k :
  timer_inv k -> k_threads k !! t = Some th -> stat_of th = RT_THREAD_SUSPEND ->
  (forall l, is_global l -> TmThread t ∉ qget (k_tmq k) l) ->
  timer_inv (set_k_ready_group g (set_k_tq tq (thread_st t (with_stat s th) k))).
Proof.
  intros T Hth Hs Hun. apply (timer_inv_ext k); try done.
  - intros x thx Hx. unfold thread_st in Hx; kfields. destruct (decide (x = t)) as [->|Hne].
    + rewrite lookup_insert_eq in Hx. injection Hx as <-. exists th. split; [done|].
      split; [done|]. rewrite Hs. done.
    + rewrite lookup_insert_ne in Hx by done. by exists thx.
  - intros x l thx Hl Hin Hx Hsx. exists thx. unfold thread_st; kfields.
    rewrite lookup_insert_ne; [done|]. intros <-. by apply (Hun l).
Qed.

(** [rt_list_remove(&thread->tlist); rt_schedule_insert_thread(thread)] for a
    suspended thread whose timer is not running. *)
Lemma wake_spec t th k :
  kernel_ok k -> k_threads k !! t = Some th -> stat_of th = RT_THREAD_SUSPEND ->
  (forall l, is_global l -> TmThread t ∉ qget (k_tmq k) l) ->
  exists k', (modify_tq (rt_list_remove t);; rt_schedule_insert_thread t) k = Some (tt, k') /\
    woken t th k k' /\ k_timers k' = k_timers k /\ k_tmq k' = k_tmq k.
Proof.
  intros Hok Hth Hs Hun.
  destruct (unlink_ok t th k Hok Hth) as [[H Hcur] T]; [by rewrite Hs|].
  set (k1 := set_k_tq (rt_list_remove t (k_tq k)) k) in *.
  assert (k_threads k1 !! t = Some th) as Hth1 by done.
  destruct (so_prio _ _ H t th Hth1) as [Hp Hm].
  assert (th_number_mask th = 2 ^ th_current_priority th) as Hm' by (apply Hm; by rewrite Hs).
  assert (forall q, t ∉ qget (k_tq k1) q) as Hnot.
  { intros q Hin. unfold k1 in Hin; kfields. apply elem_remove in Hin. by destruct Hin. }
  pose proof (unlisted_float t k1 H Hnot) as Hf.
  pose proof (fun s tq g => restat_timers t th s tq g k1 T Hth1 Hs Hun) as Ht.
  assert (forall l, is_global l -> qget (k_tmq k) l = filter (fun x => x <> TmThread t) (qget (k_tmq k) l)) as Hoff.
  { intros l Hl. symmetry. apply filter_ne_notin. by apply Hun. }
  destruct (decide (k_current k = Some t)) as [Hc|Hc].
  - set (th' := with_stat RT_THREAD_RUNNING th).
    assert (stat_of th' = RT_THREAD_RUNNING) as Hs' by apply stat_with_stat.
    exists (thread_st t th' k1). split; [mrun; fold k1; by apply insert_current|].
    assert (sched_inv None (thread_st t th' k1)) as H1.
    { apply (unfloat_inv t th'); [|apply thread_st_lookup|by rewrite Hs'|done].
      apply (thread_float_inv t th); try done. }
    split; [|done]. constructor; try done.
    + constructor; [constructor; [done|]|].
      * intros x Hx. assert (x = t) as -> by (unfold thread_st, k1 in Hx; kfields; congruence).
        exists th'. split; [apply thread_st_lookup|by rewrite Hs'].
      * pose proof (Ht RT_THREAD_RUNNING (k_tq k1) (k_ready_group k1)) as Hti. by destruct k.
    + unfold wake_stat. rewrite decide_True by done. done.
    + intros q _. unfold thread_st, k1; kfields. apply qget_remove.
  - exists (insert_st t th k1). split; [mrun; fold k1; by apply insert_eq|].
    assert (sched_inv None (insert_st t th k1)) as H1 by (by apply insert_inv).
    split; [|done]. constructor; try done.
    + constructor; [constructor; [done|]|unfold insert_st; by apply (Ht RT_THREAD_READY)].
      intros x Hx. assert (x <> t) as Hne by (intros ->; done).
      destruct (Hcur x Hx) as (thx & ? & ?). exists thx. unfold insert_st; kfields. by rewrite lookup_insert_ne.
    + unfold wake_stat. rewrite decide_False by done. done.
    + intros q Hq. unfold insert_st; kfields.
      assert (QReady (th_current_priority th) <> q) as Hd by (intros <-; by eapply Hq).
      destruct (yields th); rewrite ?qget_insert_before, ?qget_insert_after;
        rewrite decide_False by done; apply qget_remove.
Qed.

(** A thread after [rt_thread_resume] and a call of the scheduler: it can
    run. *)
Definition runnable (k : kstate) (t : nat) (th : rt_thread) : Prop :=
  exists s, k_threads k !! t = Some (set_th_stat s th) /\ ~ blocked (set_th_stat s th).

Lemma wake_stat_unblocked t th k : ~ blocked (with_stat (wake_stat t k) th).
Proof.
  unfold blocked, wake_stat. case_decide; intros [H1 H2].
  - apply H2. apply stat_with_stat.
  - apply H1. apply stat_with_stat.
Qed.

Lemma runnable_sched t th k k' s :
  sched_frame k k' -> k_threads k !! t = Some (set_th_stat s th) ->
  ~ blocked (set_th_stat s th) -> runnable k' t th.
Proof.
  intros F Ht Hb. destruct (sf_thread _ _ F t _ Ht) as (s' & Hs & _ & Hn).
  exists s'. split; [done|]. by apply Hn.
Qed.

Lemma runnable_woken t th k k1 k' : woken t th k k1 -> sched_frame k1 k' -> runnable k' t th.
Proof.
  intros W F. eapply (runnable_sched t th k1 k' _ F).
  - rewrite (wk_threads _ _ _ _ W). apply lookup_insert_eq.
  - apply wake_stat_unblocked.
Qed.

Lemma stop_kernel_ok m tm k :
  kernel_ok k -> k_timers k !! m = Some tm -> kernel_ok (stop_st m tm k).
Proof.
  intros [Hs Ht] Hm. destruct (stop_st_fields m tm k) as (F1 & F2 & F3 & _ & F5 & _).
  constructor; [by apply (sched_ok_ext k)|]. by apply timer_stop_inv.
Qed.

Lemma stop_st_tq m tm k tq : stop_st m tm (set_k_tq tq k) = set_k_tq tq (stop_st m tm k).
Proof. unfold stop_st. by destruct (activated tm). Qed.

Lemma resume_spec t th k :
  kernel_ok k -> k_threads k !! t = Some th -> stat_of th = RT_THREAD_SUSPEND ->
  exists k', rt_thread_resume t k = Some (RT_EOK, k') /\ woken t th k k'.
Proof.
  intros Hok Hth Hs.
  assert (stat_of th <> RT_THREAD_CLOSE) as Hnc by (by rewrite Hs).
  destruct (ti_thread k (ko_timer k Hok) t th Hth Hnc) as (Hty & tm & Htm & Htty & _).
  destruct (stop_st_fields (TmThread t) tm k) as (F1 & F2 & F3 & _ & F5 & F6).
  set (k1 := stop_st (TmThread t) tm k) in *.
  assert (kernel_ok k1) as Hok1 by (by apply stop_kernel_ok).
  assert (k_threads k1 !! t = Some th) as Hth1 by (by rewrite F1).
  destruct (wake_spec t th k1 Hok1 Hth1 Hs) as (k' & E & W & _).
  { apply timer_stop_inv; [apply Hok|done]. }
  exists k'. split.
  - unfold rt_thread_resume. mrun. rewrite (assert_thread_type k t th) by done.
    rewrite (get_thread_eq t k th), Hs by done. cbn.
    rewrite (timer_stop_eq _ (TmThread t) tm) by done. rewrite stop_st_tq. fold k1.
    revert E. mrun. rewrite F2. intros ->. done.
  - destruct W as [W1 W2 W3 W4 W5 W6 W7]. constructor.
    + done.
    + by transitivity k1.
    + by rewrite W3, F3.
    + rewrite W4, F1. unfold wake_stat. by rewrite F3.
    + intros q Hq. by rewrite W5, F2.
    + intros l Hl. rewrite W6 by done. unfold k1.
      rewrite stop_st_tmq by (done || apply Hok).
      rewrite list_filter_filter. apply list_filter_iff. tauto.
    + intros m Hm. rewrite W7 by done. unfold k1. rewrite (stop_st_timers _ tm) by done.
      by rewrite decide_False.
Qed.

(** The callback of a thread's timer: the thread is woken with the error
    [-RT_ETIMEOUT]. *)
Lemma timeout_spec t th k :
  kernel_ok k -> is_Some (k_current k) ->
  k_threads k !! t = Some th -> stat_of th = RT_THREAD_SUSPEND ->
  (forall l, is_global l -> TmThread t ∉ qget (k_tmq k) l) ->
  exists k1 k', _thread_timeout t k = Some (tt, k') /\
    woken t (set_th_error (- RT_ETIMEOUT) th) (thread_st t (set_th_error (- RT_ETIMEOUT) th) k) k1 /\
    rt_schedule k1 = Some (tt, k') /\
    kernel_ok k' /\ sched_frame k1 k' /\ is_Some (k_current k') /\
    k_timers k1 = k_timers k /\ k_tmq k1 = k_tmq k.
Proof.
  intros Hok Hcur Hth Hs Hun.
  assert (stat_of th <> RT_THREAD_CLOSE) as Hnc by (by rewrite Hs).
  destruct (ti_thread k (ko_timer k Hok) t th Hth Hnc) as (Hty & _).
  set (th' := set_th_error (- RT_ETIMEOUT) th).
  assert (kernel_ok (thread_st t th' k)) as Hok0 by (by apply (thread_st_same t th)).
  destruct (wake_spec t th' (thread_st t th' k)) as (k1 & E & W & Etm & Etmq); try done;
    [apply thread_st_lookup|].
  destruct (schedule_kernel k1) as (k' & E' & Hok' & F & Hc' & _).
  { apply W. } { by rewrite (wk_current _ _ _ _ W). }
  exists k1, k'. split; [|done].
  unfold _thread_timeout, rt_assert. mrun. rewrite (get_thread_eq t k th), Hs by done. cbn.
  rewrite (assert_thread_type k t th) by done.
  rewrite (upd_thread_eq t _ k th) by done. fold th'.
  revert E. mrun. intros ->. done.
Qed.

(** ** [rt_timer_start] *)

Lemma row_insert_spec timers m timeout rows :
  (forall p, p ∈ rows -> is_Some (timers !! p)) ->
  exists l1 l2, rows = l1 ++ l2 /\ timer_row_insert timers m timeout rows = Some (l1 ++ m :: l2) /\
    (forall p tm, p ∈ l1 -> timers !! p = Some tm ->
       u32 (tm_timeout_tick tm - timeout) = 0 \/
       RT_TICK_MAX / 2 <= u32 (tm_timeout_tick tm - timeout)) /\
    (forall p tm, head l2 = Some p -> timers !! p = Some tm ->
       0 < u32 (tm_timeout_tick tm - timeout) < RT_TICK_MAX / 2).
Proof.
  induction rows as [|p rows IH]; intros Hall.
  - exists [], []. split_and!; [done|done|intros q tm Hq; by apply elem_of_nil in Hq|done].
  - destruct (Hall p) as [t Hp]; [by left|].
    destruct IH as (l1 & l2 & -> & E & H1 & H2); [intros q Hq; apply Hall; by right|].
    assert (0 <= u32 (tm_timeout_tick t - timeout)) as Hnn by (apply Z.mod_pos_bound; lia).
    simpl. rewrite Hp, E. simpl.
    assert (u32 (tm_timeout_tick t - timeout) = 0 \/
            RT_TICK_MAX / 2 <= u32 (tm_timeout_tick t - timeout) ->
      exists l1' l2', p :: l1 ++ l2 = l1' ++ l2' /\
        Some (p :: l1 ++ m :: l2) = Some (l1' ++ m :: l2') /\
        (forall q tm, q ∈ l1' -> timers !! q = Some tm ->
           u32 (tm_timeout_tick tm - timeout) = 0 \/
           RT_TICK_MAX / 2 <= u32 (tm_timeout_tick tm - timeout)) /\
        (forall q tm, head l2' = Some q -> timers !! q = Some tm ->
           0 < u32 (tm_timeout_tick tm - timeout) < RT_TICK_MAX / 2)) as Hgo.
    { intros Hd. exists (p :: l1), l2. split_and!; try done.
      intros q tm Hq Hqt. apply elem_of_cons in Hq as [->|Hq]; [|eauto].
      by assert (tm = t) as -> by congruence. }
    destruct (Z.eqb_spec (u32 (tm_timeout_tick t - timeout)) 0) as [Hz|Hz]; [apply Hgo; by left|].
    destruct (Z.ltb_spec (u32 (tm_timeout_tick t - timeout)) (RT_TICK_MAX / 2)) as [Hlt|Hge];
      [|apply Hgo; by right].
    exists [], (p :: l1 ++ l2). split_and!; [done|done|intros q tm Hq; by apply elem_of_nil in Hq|].
    intros q tm [= <-] Hq. assert (tm = t) as -> by congruence. lia.
Qed.

Definition set_active (tm : rt_timer) : rt_timer :=
  set_tm_flag (Z.lor (tm_flag tm) RT_TIMER_FLAG_ACTIVATED) tm.

Lemma set_active_fields tm :
  is_soft (set_active tm) = is_soft tm /\ periodic (set_active tm) = periodic tm /\
  activated (set_active tm) = true.
Proof.
  unfold is_soft, periodic, activated, set_active. kfields. rewrite !Z.land_lor_distr_l.
  change (Z.land RT_TIMER_FLAG_ACTIVATED RT_TIMER_FLAG_SOFT_TIMER) with 0.
  change (Z.land RT_TIMER_FLAG_ACTIVATED RT_TIMER_FLAG_PERIODIC) with 0.
  change (Z.land RT_TIMER_FLAG_ACTIVATED RT_TIMER_FLAG_ACTIVATED) with 1.
  rewrite !Z.lor_0_r. split; [done|]. split; [done|].
  destruct (Z.eqb_spec (Z.lor (Z.land (tm_flag tm) RT_TIMER_FLAG_ACTIVATED) 1) 0) as [E|]; [|done].
  apply Z.lor_eq_0_iff in E. lia.
Qed.

(** The timer as [rt_timer_start] leaves it. *)
Definition started (now : Z) (tm : rt_timer) : rt_timer :=
  set_active (set_tm_timeout_tick (u32 (now + tm_init_tick tm)) (deactivate tm)).

Lemma started_fields now tm :
  is_soft (started now tm) = is_soft tm /\ periodic (started now tm) = periodic tm /\
  activated (started now tm) = true /\ o_type (tm_parent (started now tm)) = o_type (tm_parent tm) /\
  tm_timeout_tick (started now tm) = u32 (now + tm_init_tick tm) /\
  tm_init_tick (started now tm) = tm_init_tick tm.
Proof.
  destruct (set_active_fields (set_tm_timeout_tick (u32 (now + tm_init_tick tm)) (deactivate tm)))
    as (E1 & E2 & E3).
  destruct (deactivate_fields tm) as (_ & D1 & D2 & _).
  unfold started. rewrite E1, E2, E3. split_and!; try done.
Qed.

(** The effect of [rt_timer_start] up to the point where it may wake the
    timer thread: [l1] and [l2] are the timers before and after [m]. *)
Record timer_started (m : tmid) (tm : rt_timer) (l1 l2 : list tmid) (k k' : kstate) : Prop :=
TimerStarted {
  ts_state : k' = timer_st m (started (k_tick k) tm)
    (set_k_tmq (<[list_of tm := l1 ++ m :: l2]> (rt_list_remove m (k_tmq k))) k);
  ts_rows : filter (fun x => x <> m) (qget (k_tmq k) (list_of tm)) = l1 ++ l2;
  ts_before p t : p ∈ l1 -> k_timers k !! p = Some t ->
    u32 (tm_timeout_tick t - u32 (k_tick k + tm_init_tick tm)) = 0 \/
    RT_TICK_MAX / 2 <= u32 (tm_timeout_tick t - u32 (k_tick k + tm_init_tick tm));
  ts_after p t : head l2 = Some p -> k_timers k !! p = Some t ->
    0 < u32 (tm_timeout_tick t - u32 (k_tick k + tm_init_tick tm)) < RT_TICK_MAX / 2
}.

Lemma timer_st_st m a b k : timer_st m a (timer_st m b k) = timer_st m a k.
Proof. unfold timer_st; kfields. by rewrite insert_insert_eq. Qed.

Lemma timer_st_lookup m tm k : k_timers (timer_st m tm k) !! m = Some tm.
Proof. apply lookup_insert_eq. Qed.

(** The part of [rt_timer_start] before it looks at the timer thread. *)
Lemma timer_start_core m tm k :
  timer_inv k -> k_timers k !! m = Some tm -> has_type RT_Object_Class_Timer (tm_parent tm) ->
  exists l1 l2 k', timer_started m tm l1 l2 k k' /\
    rt_timer_start m k =
      (need_schedule ←
        (if is_soft tm then
           status ← gets k_soft_status;
           _timer_thread ← gets k_timer_thread;
           if status =? RT_SOFT_TIMER_IDLE then
             th ← get_thread _timer_thread;
             if stat_of th =? RT_THREAD_SUSPEND then rt_thread_resume _timer_thread;; mret true
             else mret false
           else mret false
         else mret false);
       when need_schedule rt_schedule;; mret RT_EOK) k'.
Proof.
  intros H Hm Hy. set (timeout := u32 (k_tick k + tm_init_tick tm)).
  set (k1 := timer_st m (set_tm_timeout_tick timeout (deactivate tm))
               (set_k_tmq (rt_list_remove m (k_tmq k)) k)).
  destruct (deactivate_fields tm) as (_ & D1 & _).
  assert (is_global (list_of tm)) as Hg by (unfold list_of, is_global; destruct (is_soft tm); auto).
  destruct (row_insert_spec (k_timers k1) m timeout (qget (k_tmq k1) (list_of tm)))
    as (l1 & l2 & Hrows & Hins & Hb & Ha).
  { intros p Hp. unfold k1, timer_st in *; kfields. apply elem_remove in Hp as [Hne Hp].
    rewrite lookup_insert_ne by done. destruct (ti_on k H _ p Hg Hp) as (t & ? & _). eauto. }
  assert (forall p t, p <> m -> k_timers k !! p = Some t -> k_timers k1 !! p = Some t) as Hkeep.
  { intros p t Hne Hp. unfold k1, timer_st; kfields. by rewrite lookup_insert_ne. }
  assert (forall p, p ∈ l1 ++ l2 -> p <> m) as Hne.
  { intros p Hp. rewrite <- Hrows in Hp. unfold k1, timer_st in Hp; kfields.
    apply elem_remove in Hp. by destruct Hp. }
  exists l1, l2, (timer_st m (started (k_tick k) tm)
    (set_k_tmq (<[list_of tm := l1 ++ m :: l2]> (rt_list_remove m (k_tmq k))) k)).
  split.
  - constructor; [done| | |].
    + rewrite <- Hrows. symmetry. apply qget_remove.
    + intros p t Hp Ht. apply (Hb p t Hp). apply Hkeep; [|done].
      apply Hne, elem_of_app. by left.
    + intros p t Hp Ht. apply (Ha p t Hp). apply Hkeep; [|done].
      apply Hne, elem_of_app. right. destruct l2; [done|]. injection Hp as ->. by left.
  - unfold rt_timer_start, _timer_remove, clear_activated, rt_tick_get. mrun.
    rewrite (assert_timer_type k m tm) by done.
    rewrite (upd_timer_eq m _ _ tm) by done. rewrite (upd_timer_eq m _ _ (deactivate tm))
      by apply timer_st_lookup. rewrite timer_st_st. kfields.
    fold timeout. fold (deactivate tm).
    change (timer_st m _ (set_k_tmq (rt_list_remove m (k_tmq k)) k)) with k1.
    rewrite (get_timer_eq m k1 (set_tm_timeout_tick timeout (deactivate tm)))
      by apply timer_st_lookup.
    assert (is_soft (set_tm_timeout_tick timeout (deactivate tm)) = is_soft tm) as -> by done.
    change (if is_soft tm then TLSoft else TLHard) with (list_of tm).
    kfields. rewrite Hins.
    rewrite (upd_timer_eq m _ _ (set_tm_timeout_tick timeout (deactivate tm)))
      by apply timer_st_lookup.
    change (set_k_tmq ?tmq k1) with (timer_st m (set_tm_timeout_tick timeout (deactivate tm))
      (set_k_tmq tmq k)).
    rewrite timer_st_st. reflexivity.
Qed.

(** The timer thread is only woken for a timer of its own, if it waits. *)
Definition server_runs (k : kstate) : Prop :=
  exists th, k_threads k !! k_timer_thread k = Some th /\ ~ blocked th.

Lemma unblocked_not_suspended th : ~ blocked th -> stat_of th <> RT_THREAD_SUSPEND.
Proof. intros Hn Hs. apply Hn. unfold blocked. by rewrite Hs. Qed.

Lemma timer_start_quiet m tm k :
  timer_inv k -> k_timers k !! m = Some tm -> has_type RT_Object_Class_Timer (tm_parent tm) ->
  (is_soft tm = true -> server_runs k) ->
  exists l1 l2 k', rt_timer_start m k = Some (RT_EOK, k') /\ timer_started m tm l1 l2 k k'.
Proof.
  intros H Hm Hy Hs. destruct (timer_start_core m tm k H Hm Hy) as (l1 & l2 & k' & Hst & E).
  exists l1, l2, k'. split; [|done]. rewrite E. destruct (is_soft tm); [|done].
  destruct Hs as (th & Hth & Hb); [done|]. mrun. destruct (_ =? RT_SOFT_TIMER_IDLE); [|done].
  rewrite (ts_state _ _ _ _ _ _ Hst). unfold timer_st; kfields. rewrite (get_thread_eq _ _ th) by done.
  by rewrite (proj2 (Z.eqb_neq _ _) (unblocked_not_suspended th Hb)).
Qed.

Lemma timer_start_hard m tm k :
  timer_inv k -> k_timers k !! m = Some tm -> has_type RT_Object_Class_Timer (tm_parent tm) ->
  is_soft tm = false ->
  exists l1 l2 k', rt_timer_start m k = Some (RT_EOK, k') /\ timer_started m tm l1 l2 k k'.
Proof. intros H Hm Hy Hs. apply timer_start_quiet; [done|done|done|by rewrite Hs]. Qed.

Lemma timer_started_inv m tm l1 l2 k k' :
  timer_inv k -> k_timers k !! m = Some tm -> has_type RT_Object_Class_Timer (tm_parent tm) ->
  (forall t, m = TmThread t -> exists th, k_threads k !! t = Some th /\
     stat_of th = RT_THREAD_SUSPEND) ->
  timer_started m tm l1 l2 k k' -> timer_inv k'.
Proof.
  intros H Hm Hy Hth [-> Hrows _ _].
  destruct (started_fields (k_tick k) tm) as (S1 & S2 & S3 & S4 & _).
  assert (is_global (list_of tm)) as Hg by (unfold list_of, is_global; destruct (is_soft tm); auto).
  assert (forall l x, x ∈ qget (<[list_of tm := l1 ++ m :: l2]> (rt_list_remove m (k_tmq k))) l ->
    x <> m -> x ∈ qget (k_tmq k) l) as Hsub.
  { intros l x Hx Hne. rewrite qget_insert in Hx. case_decide as Hd.
    - subst l. rewrite elem_of_app, elem_of_cons in Hx.
      assert (x ∈ l1 ++ l2) as Hx' by (rewrite elem_of_app; tauto).
      rewrite <- Hrows in Hx'. apply list_elem_of_filter in Hx'. tauto.
    - apply elem_remove in Hx. tauto. }
  assert (forall l, m ∈ qget (<[list_of tm := l1 ++ m :: l2]> (rt_list_remove m (k_tmq k))) l ->
    list_of tm = l) as Hself.
  { intros l Hx. rewrite qget_insert in Hx. case_decide as Hd; [done|].
    apply elem_remove in Hx. tauto. }
  apply (timer_inv_set m tm); try done.
  - intros l x _ Hx Hne. by apply Hsub.
  - intros l _ Hx. split; [done|]. split; [done|]. by apply Hself.
  - intros l t _ E _. by apply Hth.
  - intros l Hl. rewrite qget_insert. case_decide as Hd.
    + assert (NoDup (l1 ++ l2)) as Hnd.
      { rewrite <- Hrows. apply NoDup_filter. by apply (ti_nodup k H). }
      assert (m ∉ l1 ++ l2) as Hnm.
      { rewrite <- Hrows. intros Hx. apply list_elem_of_filter in Hx. tauto. }
      rewrite <- Permutation_middle. by apply NoDup_cons.
    + rewrite qget_remove. apply NoDup_filter. by apply (ti_nodup k H).
Qed.

(** ** Arming the timer of a suspended thread *)

Record armed (c : nat) (tick : Z) (k k' : kstate) : Prop := Armed {
  ar_ok : kernel_ok k';
  ar_frame : obj_frame k k';
  ar_threads : k_threads k' = k_threads k;
  ar_tq : k_tq k' = k_tq k;
  ar_current : k_current k' = k_current k;
  ar_timer : exists tm, k_timers k' !! TmThread c = Some tm /\
    tm_timeout_tick tm = u32 (k_tick k + tick) /\ periodic tm = false;
  ar_on : TmThread c ∈ qget (k_tmq k') TLHard;
  ar_others l x : is_global l -> x <> TmThread c ->
    x ∈ qget (k_tmq k') l <-> x ∈ qget (k_tmq k) l;
  ar_timers m : m <> TmThread c -> k_timers k' !! m = k_timers k !! m
}.

Lemma set_tmq_id k : set_k_tmq (k_tmq k) k = k.
Proof. by destruct k. Qed.

Lemma start_thread_timer_spec c th tick k :
  kernel_ok k -> k_threads k !! c = Some th -> stat_of th = RT_THREAD_SUSPEND ->
  tick < RT_TICK_MAX / 2 ->
  exists k', start_thread_timer c tick k = Some (tt, k') /\ armed c tick k k'.
Proof.
  intros Hok Hth Hs Htick.
  assert (stat_of th <> RT_THREAD_CLOSE) as Hnc by (by rewrite Hs).
  destruct (ti_thread k (ko_timer k Hok) c th Hth Hnc) as (_ & tm & Htm & Hty & _ & Hsoft & Hper).
  set (tm1 := set_tm_init_tick tick tm). set (k1 := timer_st (TmThread c) tm1 k).
  assert (timer_inv k1) as T1.
  { unfold k1. rewrite <- (set_tmq_id k).
    apply (timer_inv_set (TmThread c) tm); try done; try apply Hok.
    - intros l Hl Hin. split; [done|].
      destruct (ti_on k (ko_timer k Hok) l _ Hl Hin) as (tm' & ? & _ & ? & ?).
      assert (tm' = tm) as -> by congruence. done.
    - intros l t Hl [= <-] Hin. by exists th. }
  destruct (timer_start_hard (TmThread c) tm1 k1 T1) as (l1 & l2 & k' & E & St);
    [apply timer_st_lookup|done|done|].
  assert (timer_inv k') as T'.
  { apply (timer_started_inv (TmThread c) tm1 l1 l2 k1); try done; [apply timer_st_lookup|].
    intros t [= <-]. by exists th. }
  destruct St as [-> Hrows _ _].
  assert (list_of tm1 = TLHard) as Hl by (unfold list_of; change (is_soft tm1) with (is_soft tm); by rewrite Hsoft).
  destruct (started_fields (k_tick k1) tm1) as (_ & S2 & _ & _ & S5 & _).
  eexists. split.
  { unfold start_thread_timer, rt_timer_control. mrun.
    rewrite (assert_timer_type k _ tm) by done. rewrite (get_timer_eq _ k tm) by done.
    cbv [RT_TIMER_CTRL_SET_TIME RT_TIMER_CTRL_GET_TIME]; simpl (_ =? _). cbv iota.
    unfold rt_assert. destruct (Z.ltb_spec tick (RT_TICK_MAX / 2)); [|lia].
    rewrite (upd_timer_eq _ _ k tm) by done. fold tm1 k1. by rewrite E. }
  rewrite Hl in *. constructor; try done.
  - constructor; [|done]. destruct Hok as [Hsched _]. by apply (sched_ok_ext k).
  - exists (started (k_tick k1) tm1). split; [apply timer_st_lookup|].
    rewrite S5, S2. done.
  - unfold timer_st; kfields. rewrite qget_insert, decide_True by done.
    apply elem_of_app. right. by left.
  - intros l x Hg Hx. unfold timer_st; kfields. rewrite qget_insert. case_decide as Hd.
    + subst l. rewrite elem_of_app, elem_of_cons.
      assert (x ∈ l1 ++ l2 <-> x ∈ qget (k_tmq k) TLHard) as <-.
      { rewrite <- Hrows, list_elem_of_filter. unfold k1, timer_st; kfields. tauto. }
      rewrite elem_of_app. tauto.
    + rewrite elem_remove. tauto.
  - intros m Hm. unfold k1, timer_st; kfields. by rewrite !lookup_insert_ne by done.
Qed.

(** ** Changing a priority *)

Lemma with_stat_id th : with_stat (stat_of th) th = th.
Proof.
  unfold with_stat, stat_of. replace (Z.lor _ _) with (th_stat th); [by destruct th|].
  apply Z.bits_inj'. intros n Hn. rewrite Z.lor_spec, !Z.land_spec, Z.lnot_spec by done.
  by destruct (Z.testbit (th_stat th) n), (Z.testbit RT_THREAD_STAT_MASK n).
Qed.

Definition with_priority (p : Z) (th : rt_thread) : rt_thread := set_th_priority p (2 ^ p) th.

Lemma mask_of_priority p : 0 <= p < 32 -> u32 (Z.shiftl 1 p) = 2 ^ p.
Proof.
  intros Hp. rewrite Z.shiftl_1_l. apply u32_small. split; [apply Z.pow_nonneg; lia|].
  apply Z.pow_lt_mono_r; lia.
Qed.

(** The effect of [rt_thread_control(.., CHANGE_PRIORITY, ..)]. *)
Record reprioritized (t : nat) (p : Z) (th : rt_thread) (k k' : kstate) : Prop := Reprioritized {
  rp_ok : kernel_ok k';
  rp_frame : obj_frame k k';
  rp_current : k_current k' = k_current k;
  rp_threads : k_threads k' = <[t := with_priority p th]> (k_threads k);
  rp_tq q : (forall p, q <> QReady p) -> qget (k_tq k') q = qget (k_tq k) q;
  rp_tmq : k_tmq k' = k_tmq k;
  rp_timers : k_timers k' = k_timers k
}.

(** Replacing the thread [t], which keeps its object and its status. *)
Lemma timer_inv_thread t th th' k k' :
  timer_inv k -> k_threads k !! t = Some th -> th_object th' = th_object th ->
  stat_of th' = stat_of th -> k_threads k' = <[t := th']> (k_threads k) ->
  k_timers k' = k_timers k -> k_tmq k' = k_tmq k -> timer_inv k'.
Proof.
  intros H Ht Eo Es Eth Etm Etmq. apply (timer_inv_ext k); try done.
  - intros x thx Hx. rewrite Eth in Hx. destruct (decide (x = t)) as [->|Hne].
    + rewrite lookup_insert_eq in Hx. injection Hx as <-. exists th. split; [done|].
      split; [done|]. by rewrite Es.
    + rewrite lookup_insert_ne in Hx by done. by exists thx.
  - intros x l thx _ _ Hx Hs. rewrite Eth. destruct (decide (x = t)) as [->|Hne].
    + rewrite lookup_insert_eq. exists th'. assert (thx = th) as -> by congruence. by rewrite Es.
    + rewrite lookup_insert_ne by done. by exists thx.
Qed.

Lemma set_priority_ready t th p k :
  kernel_ok k -> k_threads k !! t = Some th -> stat_of th = RT_THREAD_READY -> 0 <= p < 32 ->
  exists k', (rt_schedule_remove_thread t;;
              upd_thread t (set_th_priority p (u32 (Z.shiftl 1 p)));;
              rt_schedule_insert_thread t) k = Some (tt, k') /\ reprioritized t p th k k'.
Proof.
  intros [[H Hcur] T] Hth Hr Hp. rewrite mask_of_priority by done.
  assert (k_current k <> Some t) as Hc.
  { intros Hc. destruct (Hcur t Hc) as (th' & ? & ?). congruence. }
  set (k1 := remove_st t th k). set (th1 := with_priority p th). set (k2 := thread_st t th1 k1).
  assert (stat_of th1 = RT_THREAD_READY) as Hr1 by done.
  assert (sched_inv (Some t) k2) as H2.
  { apply (thread_float_inv t th); [|done|done|done]. apply remove_inv; [done|done| |]; by rewrite Hr. }
  set (k3 := insert_st t th1 k2).
  assert (sched_inv None k3) as H3 by (apply insert_inv; [done|apply thread_st_lookup|done]).
  assert (k_threads k3 = <[t := th1]> (k_threads k)) as Eth.
  { unfold k3, insert_st, k2, thread_st; kfields. rewrite insert_insert_eq.
    change (set_th_stat _ th1) with (with_stat RT_THREAD_READY th1). rewrite <- Hr1. by rewrite with_stat_id. }
  exists k3. split.
  { mrun. rewrite (remove_eq t k th) by done. fold k1. rewrite (upd_thread_eq t _ k1 th) by done.
    fold (with_priority p th) th1 k2. by rewrite (insert_eq t k2 th1) by (done || apply thread_st_lookup). }
  constructor; try done.
  - constructor; [constructor; [done|]|by apply (timer_inv_thread t th th1 k)].
    intros x Hx. assert (x <> t) as Hne by (intros ->; done).
    destruct (Hcur x Hx) as (thx & ? & ?). exists thx. by rewrite Eth, lookup_insert_ne.
  - intros q Hq. unfold k3, insert_st; kfields.
    assert (QReady (th_current_priority th1) <> q) as Hd by (intros <-; by eapply Hq).
    destruct (yields th1); rewrite ?qget_insert_before, ?qget_insert_after; rewrite decide_False by done;
      unfold k2, thread_st, k1, remove_st; kfields; rewrite qget_remove; apply filter_ne_notin;
      intros Hx; pose proof (so_queued _ _ H t th Hth ltac:(done) Hr) as Hin;
      by apply (Hq (th_current_priority th)), (so_excl _ _ H _ _ t).
Qed.

Lemma set_priority_other t th p k :
  kernel_ok k -> k_threads k !! t = Some th -> stat_of th <> RT_THREAD_READY -> 0 <= p < 32 ->
  reprioritized t p th k (thread_st t (with_priority p th) k).
Proof.
  intros [[H Hcur] T] Hth Hr Hp.
  assert (forall x thx, k_threads (thread_st t (with_priority p th) k) !! x = Some thx ->
    (x = t /\ thx = with_priority p th) \/ (x <> t /\ k_threads k !! x = Some thx)) as Hback.
  { intros x thx Hx. unfold thread_st in Hx; kfields. destruct (decide (x = t)) as [->|Hne].
    - rewrite lookup_insert_eq in Hx. left. by injection Hx as <-.
    - rewrite lookup_insert_ne in Hx by done. by right. }
  assert (forall x thx, k_threads k !! x = Some thx ->
    exists thy, k_threads (thread_st t (with_priority p th) k) !! x = Some thy /\
      stat_of thy = stat_of thx /\ (x <> t -> thy = thx)) as Hfwd.
  { intros x thx Hx. unfold thread_st; kfields. destruct (decide (x = t)) as [->|Hne].
    - rewrite lookup_insert_eq. exists (with_priority p th). assert (thx = th) as -> by congruence. done.
    - rewrite lookup_insert_ne by done. by exists thx. }
  constructor; try done. constructor; [constructor|].
  - destruct H as [Hex Hnd Hfl Hrd Hwt Hdf Hqd Hrun Hpr Hg Hb]. constructor; try done.
    + intros q x Hx. destruct (Hrd q x Hx) as (thx & Hxt & Hs & Hpx).
      destruct (Hfwd x thx Hxt) as (thy & Hy & Esy & Hsame). exists thy.
      assert (x <> t) as Hne by (intros ->; congruence). specialize (Hsame Hne). by subst.
    + intros q x Hq Hx. destruct (Hwt q x Hq Hx) as (thx & Hxt & Hs).
      destruct (Hfwd x thx Hxt) as (thy & Hy & Esy & _). exists thy. split; congruence.
    + intros x Hx. destruct (Hdf x Hx) as (thx & Hxt & Hs).
      destruct (Hfwd x thx Hxt) as (thy & Hy & Esy & _). exists thy. split; congruence.
    + intros x thx Hx Hn Hs. destruct (Hback x thx Hx) as [[-> ->]|[Hne Hx']]; [done|by apply Hqd].
    + intros x thx Hx Hn Hs. destruct (Hback x thx Hx) as [[-> ->]|[Hne Hx']];
        [by apply (Hrun t th)|by apply (Hrun x thx)].
    + intros x thx Hx. destruct (Hback x thx Hx) as [[-> ->]|[Hne Hx']]; [done|by apply (Hpr x)].
  - intros x Hx. destruct (Hcur x Hx) as (thx & Hxt & Hs).
    destruct (Hfwd x thx Hxt) as (thy & Hy & Esy & _). exists thy. split; [done|congruence].
  - by apply (timer_inv_thread t th (with_priority p th) k).
Qed.

Lemma change_priority_spec t th p k :
  kernel_ok k -> k_threads k !! t = Some th -> stat_of th <> RT_THREAD_CLOSE -> 0 <= p < 32 ->
  exists k', rt_thread_control t RT_THREAD_CTRL_CHANGE_PRIORITY p k = Some (RT_EOK, k') /\
    reprioritized t p th k k'.
Proof.
  intros Hok Hth Hc Hp. destruct (ti_thread k (ko_timer k Hok) t th Hth Hc) as (Hty & _).
  unfold rt_thread_control. mrun. rewrite (assert_thread_type k t th) by done.
  rewrite (Z.eqb_refl RT_THREAD_CTRL_CHANGE_PRIORITY). cbv beta iota.
  rewrite (get_thread_eq t k th) by done.
  destruct (Z.eqb_spec (stat_of th) RT_THREAD_READY) as [Hr|Hr].
  - destruct (set_priority_ready t th p k Hok Hth Hr Hp) as (k' & E & R). exists k'.
    split; [|done]. revert E. mrun. intros ->. done.
  - eexists. split; [|by apply set_priority_other].
    rewrite (upd_thread_eq t _ k th), mask_of_priority by done. done.
Qed.

(** Milliseconds in ticks, rounded up. *)
Lemma tick_from_millisecond_eq msec :
  0 <= msec < 2 ^ 31 -> rt_tick_from_millisecond msec = (msec + 9) / 10.
Proof.
  intros H. unfold rt_tick_from_millisecond, RT_TICK_PER_SECOND.
  rewrite (proj2 (Z.ltb_ge msec 0)) by lia. rewrite Z.quot_div_nonneg, Z.rem_mod_nonneg by lia.
  rewrite Z.quot_div_nonneg by dlia. rewrite s32_small by dlia. rewrite (u32_small (_ * _)) by dlia.
  rewrite u32_small by dlia. dlia.
Qed.
