(* ===== verification/Boot.v ===== *)
(** * System start, and an executable check of the invariant

    [src/components.c]: the start sequence up to the first context switch.
    The invariant of KernelInv.v is decidable on a given state;
    [kernel_check] decides it, so that a concrete state is shown to satisfy
    it by evaluation. *)
From S2P Require Import Prelude Kservice Kernel Sched Object Timer Thread KernelInv.

(** ** components.c *)

Definition RT_MAIN_THREAD_PRIORITY : Z := 10.
(** ["main"]. *)
Definition main_name : list Z := [109; 97; 105; 110].

(** [mem] and [stack] are what the allocator returns for the main thread. *)
Definition rt_application_init (mem : option oid) (stack : bool) : M unit :=
  tid ← rt_thread_create mem stack main_name RT_MAIN_THREAD_PRIORITY 20;
  tid ← deref tid;
  rt_thread_startup tid;;
  mret tt.

(** After [rt_hw_board_init], which sets up the hardware and the heap. *)
Definition rtthread_startup (mem : option oid) (stack : bool) (idle : nat) : M Z :=
  rt_system_timer_init;;
  rt_system_scheduler_init;;
  rt_application_init mem stack;;
  rt_system_timer_thread_init;;
  rt_thread_idle_init idle;;
  rt_system_scheduler_start;;
  mret 0.

(** The kernel's variables before the start: all zero, but for
    [_soft_timer_status], which is initialised to idle. *)
Definition power_on (timer_thread : nat) : kstate :=
  KState ∅ ∅ ∅ ∅ ∅ ∅ ∅ ∅ ∅ ∅ ∅ ∅ ∅ ∅ ∅ ∅ ∅ ∅ ∅ ∅ None 0 0 0 0 0 RT_SOFT_TIMER_IDLE timer_thread 0.

(** ** Deciding the invariant *)

Definition tq_check (k : kstate) (q : waitq) (l : list nat) : Prop :=
  NoDup l /\
  Forall (fun t =>
    match k_threads k !! t with
    | None => False
    | Some th =>
        match q with
        | QReady p => stat_of th = RT_THREAD_READY /\ th_current_priority th = p
        | QDefunct => stat_of th = RT_THREAD_CLOSE
        | _ => stat_of th = RT_THREAD_SUSPEND
        end
    end) l.

#[export] Instance tq_check_dec k q l : Decision (tq_check k q l).
Proof.
  unfold tq_check. apply and_dec; [apply _|]. apply Forall_dec. intros t.
  destruct (k_threads k !! t); [destruct q|]; apply _.
Defined.

Definition thread_check (k : kstate) (t : nat) (th : rt_thread) : Prop :=
  (stat_of th = RT_THREAD_READY -> t ∈ qget (k_tq k) (QReady (th_current_priority th))) /\
  (stat_of th = RT_THREAD_RUNNING -> k_current k = Some t) /\
  (0 <= th_current_priority th < 32) /\
  (stat_of th <> RT_THREAD_INIT -> stat_of th <> RT_THREAD_CLOSE ->
   th_number_mask th = 2 ^ th_current_priority th) /\
  (stat_of th <> RT_THREAD_CLOSE ->
     has_type RT_Object_Class_Thread (th_object th) /\
     match k_timers k !! TmThread t with
     | None => False
     | Some tm => has_type RT_Object_Class_Timer (tm_parent tm) /\
         is_static (tm_parent tm) = true /\ is_soft tm = false /\ periodic tm = false
     end).

#[export] Instance has_type_dec c h : Decision (has_type c h).
Proof. unfold has_type. apply _. Defined.

#[export] Instance thread_check_dec k t th : Decision (thread_check k t th).
Proof.
  unfold thread_check. repeat apply and_dec; try apply _.
  apply impl_dec; [apply _|]. apply and_dec; [apply _|].
  destruct (k_timers k !! TmThread t); apply _.
Defined.

Definition tmq_check (k : kstate) (l : tmlist) : Prop :=
  NoDup (qget (k_tmq k) l) /\
  Forall (fun m =>
    match k_timers k !! m with
    | None => False
    | Some tm => has_type RT_Object_Class_Timer (tm_parent tm) /\ activated tm = true /\
        list_of tm = l
    end /\
    match m with
    | TmUser _ => True
    | TmThread t =>
        match k_threads k !! t with
        | None => False
        | Some th => stat_of th = RT_THREAD_SUSPEND
        end
    end) (qget (k_tmq k) l).

#[export] Instance tmq_check_dec k l : Decision (tmq_check k l).
Proof.
  unfold tmq_check. apply and_dec; [apply _|]. apply Forall_dec. intros m. apply and_dec.
  - destruct (k_timers k !! m); apply _.
  - destruct m as [t|n]; [destruct (k_threads k !! t)|]; apply _.
Defined.

Definition current_check (k : kstate) : Prop :=
  match k_current k with
  | None => True
  | Some c => match k_threads k !! c with
              | None => False
              | Some th => stat_of th <> RT_THREAD_READY
              end
  end.

#[export] Instance current_check_dec k : Decision (current_check k).
Proof.
  unfold current_check. destruct (k_current k) as [c|]; [destruct (k_threads k !! c)|]; apply _.
Defined.

(** No thread is on two lists. *)
Definition excl_check (k : kstate) : Prop :=
  map_Forall (fun q l =>
    map_Forall (fun q' l' => q = q' \/ Forall (fun t => t ∉ l') l) (k_tq k)) (k_tq k).

Definition kernel_check (k : kstate) : bool :=
  bool_decide (map_Forall (tq_check k) (k_tq k)) &&
  bool_decide (map_Forall (thread_check k) (k_threads k)) &&
  bool_decide (tmq_check k TLHard) && bool_decide (tmq_check k TLSoft) &&
  bool_decide (current_check k) && bool_decide (excl_check k) &&
  bool_decide (0 <= k_ready_group k < 2 ^ 32) &&
  forallb (fun p => eqb (Z.testbit (k_ready_group k) p)
                        (negb (rt_list_isempty (QReady p) (k_tq k)))) (seqZ 0 32).

Lemma qget_in {K A} `{Countable K} (m : gmap K (list A)) (q : K) (x : A) :
  x ∈ qget m q -> exists l, m !! q = Some l /\ qget m q = l /\ x ∈ l.
Proof.
  unfold qget. destruct (m !! q) as [l|]; [by exists l|]. intros Hx. by apply elem_of_nil in Hx.
Qed.

Section sound.
Context (k : kstate).
Context (Htq : map_Forall (tq_check k) (k_tq k)) (Hth : map_Forall (thread_check k) (k_threads k)).

Lemma tq_check_thread (q : waitq) (t : nat) :
  t ∈ qget (k_tq k) q ->
  exists th, k_threads k !! t = Some th /\
    match q with
    | QReady p => stat_of th = RT_THREAD_READY /\ th_current_priority th = p
    | QDefunct => stat_of th = RT_THREAD_CLOSE
    | _ => stat_of th = RT_THREAD_SUSPEND
    end.
Proof using Htq.
  intros Hin. destruct (qget_in _ _ _ Hin) as (l & Hl & _ & Hx).
  destruct (Htq q l Hl) as [_ Hf]. rewrite Forall_forall in Hf. specialize (Hf t Hx).
  destruct (k_threads k !! t) as [th|]; [|done]. by exists th.
Qed.

Lemma sched_check_sound :
  excl_check k -> 0 <= k_ready_group k < 2 ^ 32 ->
  (forall p, 0 <= p < 32 ->
     Z.testbit (k_ready_group k) p = negb (rt_list_isempty (QReady p) (k_tq k))) ->
  sched_inv None k.
Proof using Htq Hth.
  intros Hex Hg Hbits. constructor; try done.
  - intros q q' t H1 H2. destruct (qget_in _ _ _ H1) as (l & Hl & _ & Hx).
    destruct (qget_in _ _ _ H2) as (l' & Hl' & _ & Hx').
    destruct (Hex q l Hl q' l' Hl') as [?|Hf]; [done|].
    rewrite Forall_forall in Hf. by destruct (Hf t Hx).
  - intros q. unfold qget. destruct (k_tq k !! q) as [l|] eqn:E; [|apply NoDup_nil_2].
    by destruct (Htq q l E).
  - intros p t Hin. by apply tq_check_thread in Hin.
  - intros q t Hq Hin. apply tq_check_thread in Hin. by destruct q.
  - intros t Hin. by apply tq_check_thread in Hin.
  - intros t th Ht _. by apply (Hth t th Ht).
  - intros t th Ht _. by apply (Hth t th Ht).
  - intros t th Ht. by destruct (Hth t th Ht) as (_ & _ & ? & ? & _).
  - lia.
  - intros p Hp. destruct (decide (p < 32)) as [Hlt|Hge].
    + rewrite Hbits by lia. unfold rt_list_isempty. by destruct (qget (k_tq k) (QReady p)).
    + rewrite Z.bits_above_log2; [|lia|].
      2: { destruct (decide (k_ready_group k = 0)) as [->|]; [simpl; lia|].
           apply Z.lt_le_trans with 32; [apply Z.log2_lt_pow2; lia|lia]. }
      split; [done|]. intros Hne. destruct (qget (k_tq k) (QReady p)) as [|t l] eqn:E; [done|].
      destruct (tq_check_thread (QReady p) t) as (th & Ht & _ & Hpr); [rewrite E; by left|].
      destruct (Hth t th Ht) as (_ & _ & ? & _). lia.
Qed.

Lemma timer_check_sound :
  tmq_check k TLHard -> tmq_check k TLSoft -> timer_inv k.
Proof using Hth.
  intros H1 H2. assert (forall l, is_global l -> tmq_check k l) as Hl by (by intros l [-> | ->]).
  assert (forall l m, is_global l -> m ∈ qget (k_tmq k) l ->
    match k_timers k !! m with
    | None => False
    | Some tm => has_type RT_Object_Class_Timer (tm_parent tm) /\ activated tm = true /\
        list_of tm = l
    end /\
    match m with
    | TmUser _ => True
    | TmThread t =>
        match k_threads k !! t with
        | None => False
        | Some th => stat_of th = RT_THREAD_SUSPEND
        end
    end) as Hon.
  { intros l m Hg Hin. destruct (Hl l Hg) as [_ Hf]. rewrite Forall_forall in Hf. by apply Hf. }
  constructor.
  - intros t th Ht Hc. destruct (Hth t th Ht) as (_ & _ & _ & _ & Hty).
    destruct (Hty Hc) as [Ho Hm]. split; [done|].
    destruct (k_timers k !! TmThread t) as [tm|]; [|done]. by exists tm.
  - intros l m Hg Hin. destruct (Hon l m Hg Hin) as [Hm _].
    destruct (k_timers k !! m) as [tm|]; [|done]. by exists tm.
  - intros t l Hg Hin. destruct (Hon l _ Hg Hin) as [_ Hm].
    destruct (k_threads k !! t) as [th|]; [|done]. by exists th.
  - intros l Hg. apply (Hl l Hg).
Qed.
End sound.

Lemma kernel_check_sound k : kernel_check k = true -> kernel_ok k.
Proof.
  unfold kernel_check. rewrite !andb_true_iff, !bool_decide_eq_true, forallb_forall.
  intros [[[[[[[Htq Hth] Hh] Hs] Hc] Hex] Hg] Hb].
  constructor; [constructor|by apply timer_check_sound].
  - apply sched_check_sound; try done. intros p Hp.
    apply eqb_prop, Hb, list_elem_of_In, elem_of_seqZ. lia.
  - intros t Ht. unfold current_check in Hc. rewrite Ht in Hc.
    destruct (k_threads k !! t) as [th|]; [|done]. by exists th.
Qed.

(** ** The start, and a small running system *)

(** The state after a call that succeeds. *)
Definition after {A} (m : M A) (k : kstate) : kstate :=
  match m k with Some (_, k') => k' | None => k end.

(** The main thread is 0, the timer thread 1 and the idle thread 2. *)
Definition boot_state : kstate := after (rtthread_startup (Some (OThread 0%nat)) true 2) (power_on 1).

(** The timer thread has found no soft timer and blocked, so that the main
    thread runs; it has started two threads: 3 with its own priority 10 and 4
    with priority 20. *)
Definition demo_state : kstate :=
  after (rt_thread_init 3 [97] 10 5;; rt_thread_startup 3;;
         rt_thread_init 4 [98] 20 5;; rt_thread_startup 4)
    (after (_timer_thread_entry (fun _ => mret tt) 1) boot_state).

Lemma demo_ok : kernel_ok demo_state.
Proof. apply kernel_check_sound. vm_compute. reflexivity. Qed.

Definition thread_at (t : nat) (k : kstate) : rt_thread := default raw_thread (k_threads k !! t).

(** The scheduler starts the timer thread, the one of highest priority; every
    thread is where the invariant says and nothing has failed. *)
Definition boot_result (r : option (Z * kstate)) : Prop :=
  exists k, r = Some (0, k) /\ kernel_ok k /\ k_current k = Some 1%nat /\
    qget (k_tq k) (QReady RT_MAIN_THREAD_PRIORITY) = [0%nat] /\
    qget (k_tq k) (QReady (RT_THREAD_PRIORITY_MAX - 1)) = [2%nat].
