(* ===== verification/SchedSpec.v ===== *)
(** * Properties of the scheduler

    The bitmap search, the choice of the running thread, and what
    [rt_thread_yield] does to threads of equal priority. *)
From S2P Require Import Prelude Kservice Kernel Sched Object Timer Thread KernelInv Boot.

(** [__rt_ffs] of a non-zero 32-bit word is one more than the number of
    its lowest set bit, and 0 of the word 0; it is how the scheduler finds the
    smallest priority number that has a ready thread. *)
Theorem ffs_correct value :
  0 <= value < 2 ^ 32 ->
  (value = 0 -> __rt_ffs value = 0) /\
  (value <> 0 -> 1 <= __rt_ffs value <= 32 /\ Z.testbit value (__rt_ffs value - 1) = true /\
     forall j, 0 <= j < __rt_ffs value - 1 -> Z.testbit value j = false).
Proof.
  intros Hv. split; [by intros ->|]. intros Hne.
  destruct (ffs_spec value) as (H32 & H0 & Hb & Hl); [lia|]. split_and!; try done; lia.
Qed.

Lemma ffs_correct_witness : __rt_ffs 0x80001400 = 11 /\ Z.testbit 0x80001400 10 = true.
Proof.
  destruct (ffs_correct 0x80001400) as [_ H]; [vm_compute; split; congruence|].
  destruct H as (_ & Hb & _); [discriminate|]. split; [reflexivity|exact Hb].
Defined.

(** C1: a call of [rt_schedule] always succeeds and keeps the kernel
    invariant (every ready thread is on the ready list of its priority and on
    no other, the bitmap has exactly the bits of the non-empty lists, only the
    current thread runs). If the scheduler is locked, or no thread is ready,
    nothing changes. Otherwise the choice is between the current thread and
    the first thread of the best ready list: the current thread goes on if it
    can run and is better, or is as good and has not yielded; else the other
    one runs, leaves its list, and the current thread, if it can still run, is
    put in front of the list of its priority; the other ready lists stay as
    they are. No ready thread then has a better priority than the running one.
    Threads that wait or have ended keep their state and their place. *)
Theorem schedule_correct k c th :
  kernel_ok k -> k_current k = Some c -> k_threads k !! c = Some th ->
  exists k', rt_schedule k = Some (tt, k') /\ kernel_ok k' /\
    (k_lock_nest k <> 0 \/ (forall p, qget (k_tq k) (QReady p) = []) -> k' = k) /\
    (forall hp to rest, k_lock_nest k = 0 -> qget (k_tq k) (QReady hp) = to :: rest ->
       (forall p, 0 <= p < hp -> qget (k_tq k) (QReady p) = []) ->
       k_current k' = Some (if goes_on th hp then c else to) /\
       (forall p, qget (k_tq k') (QReady p)
          = ready_after c to th hp (fun p => qget (k_tq k) (QReady p)) p)) /\
    (k_lock_nest k = 0 -> highest_running k') /\
    (forall t th, k_threads k !! t = Some th -> blocked th -> k_threads k' !! t = Some th) /\
    (forall q, (forall p, q <> QReady p) -> qget (k_tq k') q = qget (k_tq k) q).
Proof.
  intros Hk Hc Hth. destruct Hk as [Hs Ht].
  destruct (ok_current k Hs c Hc) as (th' & Hth' & Hnr). simplify_eq.
  destruct (schedule_spec k Hs) as (k' & E & Hok & F & _ & Hh & Hl); [by exists c|].
  exists k'. split; [done|]. split; [constructor; [done|by eapply timer_inv_sched]|].
  split.
  { intros [Hn|Hn]; [by apply Hl|]. destruct (Z.eq_dec (k_lock_nest k) 0) as [H0|H0]; [|by apply Hl].
    destruct (schedule_case k c th (ok_inv k Hs) Hc Hth Hnr H0)
      as [[E' _]|(to & hp & rest & k2 & _ & Hq & _)]; [congruence|by rewrite Hn in Hq]. }
  split_and!; try done.
  - intros hp to rest H0 Hq Hlow. eapply schedule_chosen; eauto. apply Hs.
  - intros t tht Htt Hb. destruct (sf_thread _ _ F t tht Htt) as (s & Hs' & Hsame & _).
    by rewrite Hsame in Hs'.
  - apply F.
Qed.

(** The main thread is preempted by a ready thread 3 of priority 9. *)
Definition preempt_demo : kstate :=
  after (rt_thread_control 3 RT_THREAD_CTRL_CHANGE_PRIORITY 9) demo_state.

Lemma schedule_correct_witness :
  exists k', rt_schedule preempt_demo = Some (tt, k') /\ kernel_ok k' /\
    k_current k' = Some 3%nat /\ qget (k_tq k') (QReady 10) = [0%nat].
Proof.
  destruct (k_threads preempt_demo !! 0%nat) as [th|] eqn:Hth; [|vm_compute in Hth; discriminate].
  destruct (schedule_correct preempt_demo 0 th) as (k' & E & Hok & _ & Hch & _).
  - apply kernel_check_sound. vm_compute. reflexivity.
  - vm_compute. reflexivity.
  - exact Hth.
  - destruct (Hch 9 3%nat []) as [Hc Hq].
    + vm_compute. reflexivity.
    + vm_compute. reflexivity.
    + intros p Hp. apply (Forall_forall (fun p => qget (k_tq preempt_demo) (QReady p) = []) (seqZ 0 9));
        [vm_compute; repeat constructor|apply elem_of_seqZ; lia].
    + exists k'. split; [exact E|]. split; [exact Hok|]. rewrite Hc, Hq.
      vm_compute in Hth. injection Hth as <-. vm_compute. split; reflexivity.
Defined.

(** ** Yielding *)

(** [a] runs with priority [p], and the ready threads of that priority are
    [b] and then [rest]; none is better. *)
Record sharing (p : Z) (a b : nat) (rest : list nat) (k : kstate) : Prop := Sharing {
  sh_ok : kernel_ok k;
  sh_unlocked : k_lock_nest k = 0;
  sh_current : k_current k = Some a;
  sh_running : exists th, k_threads k !! a = Some th /\ stat_of th = RT_THREAD_RUNNING /\
    th_current_priority th = p;
  sh_ready : qget (k_tq k) (QReady p) = b :: rest;
  sh_best p' x : x ∈ qget (k_tq k) (QReady p') -> p <= p'
}.

Lemma yields_set_yield th : yields (set_yield th) = true.
Proof.
  unfold yields, set_yield. kfields. rewrite Z.land_lor_distr_l.
  change (Z.land RT_THREAD_STAT_YIELD RT_THREAD_STAT_YIELD_MASK) with 8.
  destruct (Z.eqb_spec (Z.lor (Z.land (th_stat th) RT_THREAD_STAT_YIELD_MASK) 8) 0) as [E|]; [|done].
  apply Z.lor_eq_0_iff in E. lia.
Qed.

(** The running thread marked as yielding, and with other ticks. *)
Lemma running_st_ok a th th' k :
  kernel_ok k -> k_current k = Some a -> k_threads k !! a = Some th -> stat_of th = RT_THREAD_RUNNING ->
  stat_of th' = RT_THREAD_RUNNING -> th_object th' = th_object th ->
  th_current_priority th' = th_current_priority th -> th_number_mask th' = th_number_mask th ->
  kernel_ok (thread_st a th' k).
Proof.
  intros [[H Hcur] T] Hc Hth Hr Hr1 Eo Ep Em. destruct (so_prio _ _ H a th Hth) as [Hp1 Hm1].
  assert (sched_inv None (thread_st a th' k)) as H1.
  { apply (unfloat_inv a th'); [|apply thread_st_lookup|by rewrite Hr1|done].
    apply (thread_float_inv a th); [by apply (float_running a th)|done|by rewrite Ep|].
    intros _ _. rewrite Em, Ep. apply Hm1; by rewrite Hr. }
  constructor; [constructor; [done|]|].
  - intros x Hx. assert (x = a) as -> by (unfold thread_st in Hx; kfields; congruence).
    exists th'. rewrite Hr1. split; [apply thread_st_lookup|done].
  - apply (timer_inv_ext k); try done.
    + intros x thx Hx. unfold thread_st in Hx; kfields. destruct (decide (x = a)) as [->|Hne].
      * rewrite lookup_insert_eq in Hx. injection Hx as <-. exists th. split; [done|].
        split; [done|]. by rewrite Hr, Hr1.
      * rewrite lookup_insert_ne in Hx by done. by exists thx.
    + intros x l thx _ _ Hx Hs. exists thx. split; [|done]. unfold thread_st; kfields.
      rewrite lookup_insert_ne; [done|]. intros <-.
      assert (thx = th) as -> by congruence. by rewrite Hr in Hs.
Qed.

(** The scheduler passes over a running thread that is marked as yielding, and puts
    it before the others of its priority. *)
Lemma schedule_yielding p a b rest th1 k1 :
  kernel_ok k1 -> k_lock_nest k1 = 0 -> k_current k1 = Some a -> k_threads k1 !! a = Some th1 ->
  stat_of th1 = RT_THREAD_RUNNING -> yields th1 = true -> th_current_priority th1 = p ->
  qget (k_tq k1) (QReady p) = b :: rest -> (forall p' x, x ∈ qget (k_tq k1) (QReady p') -> p <= p') ->
  exists tht, k_threads k1 !! b = Some tht /\ th_current_priority tht = p /\ b <> a /\
    rt_schedule k1 = Some (tt, thread_st b (with_stat RT_THREAD_RUNNING tht) (remove_st b tht (insert_st a (clear_yield th1)
      (set_k_current (Some b) (set_k_current_priority (u8 p) (thread_st a (clear_yield th1) k1)))))).
Proof.
  intros Hok1 Hl1 Hc1 Hth1 Hr1 Hy Hp Hq Hbest. pose proof (ok_inv _ (ko_sched _ Hok1)) as H1.
  assert (b ∈ qget (k_tq k1) (QReady p)) as Hb by (rewrite Hq; by left).
  assert (k_ready_group k1 <> 0) as Hg by (intros H0; by apply (group_zero k1 H1 H0 p b)).
  destruct (highest_spec k1 H1 Hg) as (to & hp & tht & Eh & Hhd & Htt & Hst & Hpt & Hhp & Hmin).
  assert (hp = p) as ->.
  { apply Hmin in Hb. assert (to ∈ qget (k_tq k1) (QReady hp)) as Hto%Hbest; [|lia].
    destruct (qget (k_tq k1) (QReady hp)); [done|]. injection Hhd as ->. by left. }
  assert (to = b) as -> by (rewrite Hq in Hhd; by injection Hhd).
  assert (b <> a) as Hne.
  { intros ->. assert (tht = th1) as -> by congruence. by rewrite Hst in Hr1. }
  exists tht. do 3 (split; [done|]).
  set (th2 := clear_yield th1). set (k2 := thread_st a th2 k1).
  set (k3 := set_k_current (Some b) (set_k_current_priority (u8 p) k2)).
  set (k4 := insert_st a th2 k3).
  assert (k_threads k4 !! b = Some tht) as Htt4.
  { unfold k4, insert_st, k3, k2, thread_st; kfields. by rewrite !lookup_insert_ne by done. }
  unfold rt_schedule. mrun. rewrite Hl1. simpl (0 =? 0). cbv beta iota.
  rewrite (proj2 (Z.eqb_neq _ _) Hg). cbv beta iota.
  rewrite Eh, (current_thread_eq k1 a), (get_thread_eq a k1 th1), Hr1 by done. cbn [Z.eqb Pos.eqb RT_THREAD_RUNNING].
  rewrite (upd_thread_eq a _ k1 th1) by done. fold th2 k2. rewrite Hp, Z.ltb_irrefl, Z.eqb_refl, Hy. cbv beta iota.
  rewrite decide_False by done. fold k3.
  rewrite (insert_eq a k3 th2); [|apply thread_st_lookup|unfold k3; kfields; congruence].
  fold k4. rewrite (remove_eq b k4 tht) by done.
  by rewrite (upd_thread_eq b _ (remove_st b tht k4) tht).
Qed.

(** The thread that yields goes to the front of the list, not to its end. *)
Lemma yield_swaps p a b rest k :
  sharing p a b rest k ->
  exists k', rt_thread_yield k = Some (RT_EOK, k') /\ sharing p b a rest k'.
Proof.
  intros [Hok Hl Hc (th & Hth & Hr & Hp) Hq Hbest].
  set (th1 := set_yield (set_th_remaining_tick (th_init_tick th) th)).
  assert (stat_of th1 = RT_THREAD_RUNNING) as Hr1 by (unfold th1; by rewrite stat_set_yield).
  set (k1 := thread_st a th1 k).
  assert (kernel_ok k1) as Hok1 by (by apply (running_st_ok a th)).
  destruct (schedule_kernel k1 Hok1) as (k' & E & Hok' & F & _ & Hh); [by exists a|].
  destruct (schedule_yielding p a b rest th1 k1) as (tht & Htt & Hpt & Hne & Ek'); try done;
    [apply thread_st_lookup|apply yields_set_yield|].
  rewrite E in Ek'. injection Ek' as Ek'. exists k'. split.
  { unfold rt_thread_yield. mrun. rewrite (current_thread_eq k a) by done.
    rewrite (upd_thread_eq a _ k th) by done.
    rewrite (upd_thread_eq a _ _ (set_th_remaining_tick (th_init_tick th) th)) by apply thread_st_lookup.
    assert (thread_st a th1 (thread_st a (set_th_remaining_tick (th_init_tick th) th) k) = k1) as Ek.
    { unfold k1, thread_st; kfields. by rewrite insert_insert_eq. }
    fold th1. rewrite Ek, E. done. }
  assert (k_current k' = Some b) as Hc' by (by rewrite Ek').
  constructor; [done| |done| | |].
  - destruct (sched_frame_fields _ _ F) as (_ & _ & _ & _ & _ & _ & _ & _ & _ & _ & _ & Hlk & _).
    by rewrite Hlk.
  - exists (with_stat RT_THREAD_RUNNING tht). rewrite Ek'. split; [apply thread_st_lookup|].
    split; [apply stat_with_stat|done].
  - rewrite Ek'. pose proof (yields_clear_yield th1) as Hy.
    assert (th_current_priority (clear_yield th1) = p) as Hp2 by done. set (th2 := clear_yield th1) in *.
    unfold thread_st, remove_st; kfields. rewrite qget_remove. unfold insert_st; kfields. rewrite Hy, Hp2.
    rewrite qget_insert_after, decide_True by done. unfold thread_st; kfields. change (k_tq k1) with (k_tq k). rewrite Hq.
    pose proof (so_nodup _ _ (ok_inv _ (ko_sched _ Hok)) (QReady p)) as Hnd. rewrite Hq in Hnd. apply NoDup_cons in Hnd as [Hnb _].
    rewrite filter_cons_True by congruence. rewrite filter_cons_False by auto.
    by rewrite filter_ne_notin.
  - intros p' x Hx. destruct (Hh Hl p' x Hx) as (c & thc & Hcc & Htc & _ & Hple).
    rewrite Hc' in Hcc. injection Hcc as <-. rewrite Ek' in Htc.
    rewrite thread_st_lookup in Htc. injection Htc as <-. kfields. lia.
Qed.

(** [n] calls of [rt_thread_yield], each by the thread that runs then. *)
Fixpoint yield_times (n : nat) : M unit :=
  match n with O => mret tt | S n => rt_thread_yield;; yield_times n end.

(** [rt_thread_yield] does not share the processor among three threads of
    one priority. [rt_schedule] clears the yield flag of the thread that gives
    way before it puts it back on the ready list, so
    [rt_schedule_insert_thread] puts it first: the two threads [a] and [b]
    alternate for ever, and however often they yield, the threads behind them
    keep waiting in the same places. *)
Theorem yield_starves n p a b rest k :
  sharing p a b rest k ->
  exists k', yield_times n k = Some (tt, k') /\
    k_current k' = Some (if Nat.even n then a else b) /\
    qget (k_tq k') (QReady p) = (if Nat.even n then b else a) :: rest.
Proof.
  revert a b k. induction n as [|n IH]; intros a b k H.
  - exists k. destruct H. done.
  - destruct (yield_swaps p a b rest k H) as (k1 & E & H1).
    destruct (IH b a k1 H1) as (k' & E' & Hc & Hq). exists k'.
    split; [simpl; mrun; by rewrite E|]. rewrite Nat.even_succ, <- Nat.negb_even.
    by destruct (Nat.even n).
Qed.

(** Deciding that no ready list before priority [p] has a thread. *)
Definition best_check (p : Z) (k : kstate) : bool :=
  forallb (fun '(q, l) => match q, l with QReady p', _ :: _ => p <=? p' | _, _ => true end)
    (map_to_list (k_tq k)).

Lemma best_check_sound p k :
  best_check p k = true -> forall p' x, x ∈ qget (k_tq k) (QReady p') -> p <= p'.
Proof.
  unfold best_check. rewrite forallb_forall. intros Hall p' x Hx.
  destruct (qget_in _ _ _ Hx) as (l & Hl & _ & Hx').
  apply elem_of_map_to_list, list_elem_of_In, Hall in Hl. destruct l; [by apply elem_of_nil in Hx'|].
  by apply Z.leb_le.
Qed.

(** Main and the threads 3 and 5 share priority 10. *)
Definition three_demo : kstate :=
  after (rt_thread_init 5 [99] 10 5;; rt_thread_startup 5) demo_state.

Lemma yield_starves_witness :
  exists k', yield_times 100 three_demo = Some (tt, k') /\
    3%nat ∈ qget (k_tq k') (QReady 10) /\ k_current k' = Some 0%nat.
Proof.
  destruct (yield_starves 100 10 0 5 [3%nat] three_demo) as (k' & E & Hc & Hq).
  - constructor.
    + apply kernel_check_sound. vm_compute. reflexivity.
    + vm_compute. reflexivity.
    + vm_compute. reflexivity.
    + exists (thread_at 0 three_demo). vm_compute. split_and!; reflexivity.
    + vm_compute. reflexivity.
    + by apply best_check_sound; vm_compute.
  - exists k'. split; [exact E|]. split; [|exact Hc]. rewrite Hq. simpl. right. left.
Defined.

(** The start of the system. From cleared memory [rtthread_startup] (with
    memory for the main thread) succeeds and leaves a state in which the
    kernel invariant holds, the timer thread runs, having the best priority,
    and the main and idle threads are ready on the lists of their
    priorities. *)
Theorem boot_correct :
  boot_result (rtthread_startup (Some (OThread 0%nat)) true 2 (power_on 1)).
Proof.
  exists boot_state. split; [vm_compute; reflexivity|].
  split; [apply kernel_check_sound; vm_compute; reflexivity|]. vm_compute. done.
Qed.
