(* ===== verification/TimerSpec.v ===== *)
(** * Properties of the timers

    The order of the timer list, the expiry loop of the tick interrupt, and
    sleeping. Ticks wrap around at 2^32; they are compared relative to a base
    tick [b], in a window of half the range. *)
From Stdlib Require Import Sorted.
From S2P Require Import Prelude Kservice Kernel Sched Object Timer Thread KernelInv Boot.

(** ** Ticks relative to a base *)

Definition since (b x : Z) : Z := u32 (x - b).
Definition half : Z := RT_TICK_MAX / 2.

Lemma since_range b x : 0 <= since b x < 2 ^ 32.
Proof. apply Z.mod_pos_bound. lia. Qed.

Lemma u32_sub b x y : u32 (x - y) = u32 (since b x - since b y).
Proof. unfold u32, since, u32. rewrite <- Zminus_mod. f_equal. lia. Qed.

(** The comparison the code makes orders the ticks of a window. *)
Lemma diff_cmp b x y :
  since b x < half -> since b y < half ->
  (since b y <= since b x -> u32 (x - y) = since b x - since b y /\ u32 (x - y) < half) /\
  (since b x < since b y -> half <= u32 (x - y)).
Proof.
  intros Hx Hy. pose proof (since_range b x). pose proof (since_range b y).
  rewrite (u32_sub b x y). unfold half, RT_TICK_MAX in *. change (0xffffffff / 2) with 2147483647 in *.
  split; intros Hle.
  - rewrite u32_small by lia. lia.
  - unfold u32. replace (since b x - since b y) with (since b x - since b y + 2 ^ 32 + (-1) * 2 ^ 32) by lia.
    rewrite Z.mod_add, Z.mod_small by lia. lia.
Qed.

Lemma since_u32 b x : since b (u32 x) = since b x.
Proof. unfold since, u32. rewrite Zminus_mod_idemp_l. done. Qed.

Lemma since_add b now n :
  0 <= n -> since b now + n < half -> since b (now + n) = since b now + n.
Proof.
  intros Hn Hlt. pose proof (since_range b now). unfold half, RT_TICK_MAX in Hlt.
  change (0xffffffff / 2) with 2147483647 in Hlt.
  unfold since. replace (now + n - b) with (now - b + n) by lia.
  unfold u32 at 1. rewrite <- Zplus_mod_idemp_l. apply Z.mod_small. unfold since, u32 in *. lia.
Qed.

(** ** The order of the list *)

Definition timeout_of (timers : gmap tmid rt_timer) (m : tmid) : Z :=
  match timers !! m with Some tm => tm_timeout_tick tm | None => 0 end.

(** Sorted by expiry, all in the window that starts at [b]. *)
Definition rows_ok (b : Z) (timers : gmap tmid rt_timer) (rows : list tmid) : Prop :=
  Forall (fun m => since b (timeout_of timers m) < half) rows /\
  Sorted (fun m m' => since b (timeout_of timers m) <= since b (timeout_of timers m')) rows.

Lemma rows_ok_le b timers m rows x :
  rows_ok b timers (m :: rows) -> x ∈ rows ->
  since b (timeout_of timers m) <= since b (timeout_of timers x).
Proof.
  intros [_ Hs] Hx. apply Sorted_StronglySorted in Hs; [|intros ???; lia].
  apply StronglySorted_inv in Hs as [_ Hf]. rewrite Forall_forall in Hf. by apply Hf.
Qed.

Lemma rows_ok_insert b timers m l1 l2 :
  rows_ok b timers (l1 ++ l2) -> since b (timeout_of timers m) < half ->
  (forall p, p ∈ l1 -> since b (timeout_of timers p) <= since b (timeout_of timers m)) ->
  (forall p, head l2 = Some p -> since b (timeout_of timers m) <= since b (timeout_of timers p)) ->
  rows_ok b timers (l1 ++ m :: l2).
Proof.
  intros [Hf Hs] Hm H1 H2. apply Forall_app in Hf as [Hf1 Hf2]. split.
  { apply Forall_app. split; [done|]. by constructor. }
  clear Hf1 Hf2. induction l1 as [|x l1 IH]; simpl in *.
  - constructor; [done|]. destruct l2; constructor. by apply H2.
  - apply Sorted_inv in Hs as [Hs Hd]. constructor.
    + apply IH; [done|]. intros p Hp. apply H1. by right.
    + destruct l1 as [|y l1]; simpl; constructor; [apply H1; by left|].
      by inversion Hd.
Qed.

Lemma Forall_filter {A} (P Q : A -> Prop) `{forall x, Decision (Q x)} (l : list A) :
  Forall P l -> Forall P (filter Q l).
Proof.
  rewrite !Forall_forall. intros Hf x Hx. apply list_elem_of_filter in Hx as [_ Hx]. by apply Hf.
Qed.

Lemma rows_ok_filter b timers m rows :
  rows_ok b timers rows -> rows_ok b timers (filter (fun x => x <> m) rows).
Proof.
  intros [Hf Hs]. split; [by apply Forall_filter|].
  apply Sorted_StronglySorted in Hs; [|intros ???; lia]. apply StronglySorted_Sorted.
  induction Hs as [|x rows Hs IH Hx]; [constructor|].
  apply Forall_cons in Hf as [_ Hf]. specialize (IH Hf).
  destruct (decide (x <> m)); [rewrite filter_cons_True by done|by rewrite filter_cons_False by done].
  constructor; [done|]. by apply Forall_filter.
Qed.

(** The order does not depend on timers that are not on the list. *)
Lemma rows_ok_ext b timers timers' rows :
  (forall m, m ∈ rows -> timeout_of timers' m = timeout_of timers m) ->
  rows_ok b timers rows -> rows_ok b timers' rows.
Proof.
  intros He [Hf Hs]. split.
  - rewrite Forall_forall in *. intros m Hm. rewrite He by done. by apply Hf.
  - clear Hf. induction Hs as [|x rows Hs IH Hd]; [constructor|]. constructor.
    + apply IH. intros m Hm. apply He. by right.
    + destruct Hd as [|y rows Hle]; constructor.
      rewrite !He; [done| |]; [right; by left|by left].
Qed.

Lemma timeout_of_eq timers m tm : timers !! m = Some tm -> timeout_of timers m = tm_timeout_tick tm.
Proof. intros H. unfold timeout_of. by rewrite H. Qed.

(** The list after [rt_timer_start]. *)
Lemma started_rows b m tm l1 l2 k k' :
  timer_inv k -> k_timers k !! m = Some tm -> timer_started m tm l1 l2 k k' ->
  rows_ok b (k_timers k) (qget (k_tmq k) (list_of tm)) ->
  since b (k_tick k + tm_init_tick tm) < half ->
  rows_ok b (k_timers k') (qget (k_tmq k') (list_of tm)) /\
  qget (k_tmq k') (list_of tm) = l1 ++ m :: l2.
Proof.
  intros H Hm [-> Hrows Hb Ha] Hok Hd.
  assert (qget (<[list_of tm := l1 ++ m :: l2]> (rt_list_remove m (k_tmq k))) (list_of tm) =
    l1 ++ m :: l2) as Hq by (by rewrite qget_insert, decide_True).
  assert (forall p, p ∈ l1 ++ l2 -> p <> m /\ p ∈ qget (k_tmq k) (list_of tm)) as Hin.
  { intros p Hp. rewrite <- Hrows in Hp. by apply list_elem_of_filter in Hp. }
  assert (timeout_of (k_timers (timer_st m (started (k_tick k) tm) k)) m =
    u32 (k_tick k + tm_init_tick tm)) as Em.
  { rewrite (timeout_of_eq _ _ _ (timer_st_lookup m _ k)). by apply started_fields. }
  assert (forall p, p ∈ l1 ++ l2 ->
    timeout_of (k_timers (timer_st m (started (k_tick k) tm) k)) p = timeout_of (k_timers k) p) as Ep.
  { intros p Hp. unfold timeout_of, timer_st; kfields. rewrite lookup_insert_ne; [done|].
    intros <-. apply Hin in Hp as [? _]. done. }
  assert (forall p, p ∈ l1 ++ l2 -> exists t, k_timers k !! p = Some t /\
    timeout_of (k_timers k) p = tm_timeout_tick t /\ since b (tm_timeout_tick t) < half) as Hlk.
  { intros p Hp. apply Hin in Hp as [_ Hp].
    assert (is_global (list_of tm)) as Hg by (unfold list_of, is_global; destruct (is_soft tm); auto).
    destruct (ti_on k H _ p Hg Hp) as (t & Ht & _). exists t.
    destruct Hok as [Hf _]. rewrite Forall_forall in Hf. specialize (Hf p Hp).
    rewrite (timeout_of_eq _ p t Ht) in *. done. }
  unfold timer_st at 2; kfields. split; [|done]. rewrite Hq.
  change (k_timers (timer_st m (started (k_tick k) tm) (set_k_tmq _ k)))
    with (k_timers (timer_st m (started (k_tick k) tm) k)).
  set (x := u32 (k_tick k + tm_init_tick tm)) in *.
  assert (since b x < half) as Hx by (unfold x; by rewrite since_u32).
  apply rows_ok_insert.
  - apply (rows_ok_ext b (k_timers k)); [done|]. rewrite <- Hrows. by apply rows_ok_filter.
  - by rewrite Em.
  - intros p Hp. assert (p ∈ l1 ++ l2) as Hp' by (apply elem_of_app; by left).
    rewrite Em, Ep by done. destruct (Hlk p Hp') as (t & Ht & -> & Hw).
    destruct (diff_cmp b (tm_timeout_tick t) x Hw Hx) as [H1 H2].
    destruct (decide (since b (tm_timeout_tick t) <= since b x)); [done|].
    destruct H1 as [H1 H1']; [lia|]. fold half in Hb. destruct (Hb p t Hp Ht) as [E|E]; lia.
  - intros p Hp. assert (p ∈ l1 ++ l2) as Hp'.
    { apply elem_of_app. right. destruct l2; [done|]. injection Hp as ->. by left. }
    rewrite Em, Ep by done. destruct (Hlk p Hp') as (t & Ht & -> & Hw).
    destruct (diff_cmp b (tm_timeout_tick t) x Hw Hx) as [_ H2].
    destruct (decide (since b x <= since b (tm_timeout_tick t))); [done|].
    fold half in Ha. specialize (Ha p t Hp Ht). lia.
Qed.

(** [rt_timer_start] of a hard timer. The timer, wherever it was, is then
    on the list exactly once, active, and expires [init_tick] ticks from now
    modulo 2^32; the list stays sorted by expiry, and among timers of the same
    expiry the new one is the last. This holds across the wrap-around of the
    tick counter, as long as all expiries lie within half its range. *)
Theorem timer_start_correct b k m tm :
  timer_inv k -> k_timers k !! m = Some tm -> has_type RT_Object_Class_Timer (tm_parent tm) ->
  is_soft tm = false ->
  rows_ok b (k_timers k) (qget (k_tmq k) TLHard) -> since b (k_tick k + tm_init_tick tm) < half ->
  exists k' l1 l2, rt_timer_start m k = Some (RT_EOK, k') /\
    qget (k_tmq k') TLHard = l1 ++ m :: l2 /\
    filter (fun x => x <> m) (qget (k_tmq k) TLHard) = l1 ++ l2 /\
    rows_ok b (k_timers k') (qget (k_tmq k') TLHard) /\
    (exists tm', k_timers k' !! m = Some tm' /\ activated tm' = true /\
       tm_timeout_tick tm' = u32 (k_tick k + tm_init_tick tm)) /\
    (forall p t, head l2 = Some p -> k_timers k !! p = Some t ->
       since b (k_tick k + tm_init_tick tm) < since b (tm_timeout_tick t)).
Proof.
  intros H Hm Hy Hs Hrows Hd. destruct (timer_start_hard m tm k H Hm Hy Hs) as (l1 & l2 & k' & E & St).
  assert (list_of tm = TLHard) as Hl by (unfold list_of; by rewrite Hs).
  destruct (started_rows b m tm l1 l2 k k' H Hm St) as [Hrows' Hq]; [by rewrite Hl|done|].
  rewrite Hl in *. exists k', l1, l2. split; [done|]. split; [done|].
  pose proof (ts_rows _ _ _ _ _ _ St) as Hr. rewrite Hl in Hr. split; [done|]. split; [done|].
  split.
  - exists (started (k_tick k) tm). rewrite (ts_state _ _ _ _ _ _ St).
    split; [apply timer_st_lookup|]. by destruct (started_fields (k_tick k) tm) as (_ & _ & ? & _ & ? & _).
  - intros p t Hp Ht. pose proof (ts_after _ _ _ _ _ _ St p t Hp Ht) as Ha. fold half in Ha.
    assert (p ∈ qget (k_tmq k) TLHard) as Hin.
    { assert (p ∈ l1 ++ l2) as Hin; [|rewrite <- Hr in Hin; apply list_elem_of_filter in Hin as [_ Hin]; done].
      apply elem_of_app. right. destruct l2; [done|]. injection Hp as ->. by left. }
    destruct Hrows as [Hf _]. rewrite Forall_forall in Hf. specialize (Hf p Hin).
    rewrite (timeout_of_eq _ p t Ht) in Hf. rewrite <- since_u32.
    destruct (diff_cmp b (tm_timeout_tick t) (u32 (k_tick k + tm_init_tick tm))) as [H1 H2];
      [done|by rewrite since_u32|].
    destruct (decide (since b (tm_timeout_tick t) < since b (u32 (k_tick k + tm_init_tick tm))));
      [specialize (H2 l); lia|]. destruct H1; lia.
Qed.

(** ** The expiry loop *)

Lemma rows_ok_sublist b timers rows rows' :
  rows' `sublist_of` rows -> rows_ok b timers rows -> rows_ok b timers rows'.
Proof.
  intros Hsub [Hf Hs]. split.
  - rewrite Forall_forall in *. intros x Hx. apply Hf.
    by eapply elem_of_submseteq, sublist_submseteq.
  - apply Sorted_StronglySorted in Hs; [|intros ???; lia]. apply StronglySorted_Sorted. clear Hf.
    induction Hsub as [|x l1 l2 Hsub IH|x l1 l2 Hsub IH]; [constructor| |].
    + apply StronglySorted_inv in Hs as [Hs Hx]. constructor; [by apply IH|].
      rewrite Forall_forall in *. intros y Hy. apply Hx.
      by eapply elem_of_submseteq, sublist_submseteq.
    + apply StronglySorted_inv in Hs as [Hs _]. by apply IH.
Qed.

(** What a callback of an application timer may do: wake threads (and so stop
    their timers) and call the scheduler. It starts no timer, leaves the
    application's timers alone and does not move the tick. *)
Record wakes_only (k k' : kstate) : Prop := WakesOnly {
  wo_tick : k_tick k' = k_tick k;
  wo_timer_thread : k_timer_thread k' = k_timer_thread k;
  wo_user n : k_timers k' !! TmUser n = k_timers k !! TmUser n;
  wo_rows l : qget (k_tmq k') l `sublist_of` qget (k_tmq k) l;
  wo_user_rows l n : TmUser n ∈ qget (k_tmq k) l -> TmUser n ∈ qget (k_tmq k') l;
  wo_kept m : m ∈ qget (k_tmq k') TLHard -> k_timers k' !! m = k_timers k !! m;
  wo_gone t : TmThread t ∈ qget (k_tmq k) TLHard -> TmThread t ∉ qget (k_tmq k') TLHard ->
    exists th, k_threads k' !! t = Some th /\ ~ blocked th;
  wo_threads t th : k_threads k !! t = Some th ->
    exists th', k_threads k' !! t = Some th' /\ (blocked th -> th' = th \/ ~ blocked th') /\
      (~ blocked th -> ~ blocked th')
}.

#[export] Instance wakes_only_refl : Reflexive wakes_only.
Proof. intros k. constructor; try done. intros t th Ht. exists th. auto. Qed.

(** Only the lists that are not global change. *)
Lemma kernel_ok_tmq tmq' k :
  (forall l, is_global l -> qget tmq' l = qget (k_tmq k) l) -> kernel_ok k ->
  kernel_ok (set_k_tmq tmq' k).
Proof.
  intros He [Hs [Ht Ho Ha Hn]]. constructor; [by apply (sched_ok_ext k)|].
  constructor; kfields; try done.
  - intros l m Hl. rewrite He by done. by apply Ho.
  - intros t l Hl. rewrite He by done. by apply Ha.
  - intros l Hl. rewrite He by done. by apply Hn.
Qed.

(** The contract of the application's timer callbacks. *)
Class TimerCallbacks (f : nat -> M unit) : Prop :=
  callbacks_ok n k : kernel_ok k -> is_Some (k_current k) ->
    exists k', f n k = Some (tt, k') /\ kernel_ok k' /\ is_Some (k_current k') /\ wakes_only k k'.

(** A callback that does nothing fulfils it. *)
#[export] Instance no_callbacks : TimerCallbacks (fun _ => mret tt).
Proof. intros n k Hok Hc. by exists k. Qed.

(** An observer [g] of the kernel's objects sees the calls of the callbacks: each
    call of [f n] changes what it sees by [step n], and what the timers
    themselves change (threads, timers, their lists and the status of the timer
    thread) it does not see. *)
Class Observed {O : Type} (f : nat -> M unit) (g : kstate -> O) (step : nat -> O -> O) : Prop := {
  obs_call n k k' : kernel_ok k -> f n k = Some (tt, k') -> g k' = step n (g k);
  obs_frame k k' : obj_frame (set_k_soft_status RT_SOFT_TIMER_IDLE k) (set_k_soft_status RT_SOFT_TIMER_IDLE k') -> g k' = g k
}.

(** Who sees nothing. *)
#[export] Instance observed_nothing f : Observed f (fun _ => tt) (fun _ _ => tt).
Proof. by constructor. Qed.

Lemma obs_obj {O} f g step `{!@Observed O f g step} k k' : obj_frame k k' -> g k' = g k.
Proof. intros F. apply (obs_frame (f := f) (step := step)). destruct F. by constructor. Qed.

(** The list of the tick's timers, or of those of the timer thread, with the
    list of what is being served. *)
Definition timers_of (soft : bool) : tmlist := if soft then TLSoft else TLHard.
Definition local_of (soft : bool) : tmlist := if soft then TLSoftLocal else TLHardLocal.

Lemma timers_of_global soft : is_global (timers_of soft).
Proof. destruct soft; [by right|by left]. Qed.

Lemma local_not_global soft l : is_global l -> local_of soft <> l.
Proof. by destruct soft; intros [-> | ->]. Qed.

Lemma global_cases soft l : is_global l -> l = timers_of soft \/ l = timers_of (negb soft).
Proof. destruct soft; intros [-> | ->]; auto. Qed.

Lemma list_of_soft soft tm : list_of tm = timers_of soft -> is_soft tm = soft.
Proof. unfold list_of. by destruct soft, (is_soft tm). Qed.

Lemma on_one_list soft m k :
  timer_inv k -> m ∈ qget (k_tmq k) (timers_of soft) -> m ∉ qget (k_tmq k) (timers_of (negb soft)).
Proof.
  intros H H1 H2. destruct (ti_on k H _ m (timers_of_global _) H1) as (tm & Htm & _ & _ & L1).
  destruct (ti_on k H _ m (timers_of_global _) H2) as (tm' & Htm' & _ & _ & L2).
  apply list_of_soft in L1, L2. assert (tm' = tm) as -> by congruence. rewrite L1 in L2. by destruct soft.
Qed.

Section check.
Context (f : nat -> M unit) `{!TimerCallbacks f} (soft : bool) (b now : Z).
Context {O : Type} (g : kstate -> O) (step : nat -> O -> O) `{!Observed f g step}.

Definition due (timers : gmap tmid rt_timer) (m : tmid) : Prop :=
  since b (timeout_of timers m) <= since b now.

#[global] Instance due_dec timers m : Decision (due timers m).
Proof. unfold due. apply _. Defined.

(** The state at the head of the loop, [now] being the tick. The list of the
    timer thread is served by that thread, which runs. *)
Record expiry_inv (k : kstate) : Prop := ExpiryInv {
  ci_ok : kernel_ok k;
  ci_current : is_Some (k_current k);
  ci_tick : k_tick k = now;
  ci_local : qget (k_tmq k) (local_of soft) = [];
  ci_rows : rows_ok b (k_timers k) (qget (k_tmq k) (timers_of soft));
  ci_now : since b now < half;
  ci_server : soft = true -> server_runs k;
  ci_periodic m tm : m ∈ qget (k_tmq k) (timers_of soft) -> k_timers k !! m = Some tm ->
    periodic tm = true -> 0 < tm_init_tick tm /\ since b now + tm_init_tick tm < half
}.

(** What has become of the application's timer [n], which was due and had the
    state [tm]: a periodic one is back on the list, [tm_init_tick] from now; one
    that is not is off the list. *)
Definition user_served (n : nat) (tm : rt_timer) (k' : kstate) : Prop :=
  if periodic tm then
    TmUser n ∈ qget (k_tmq k') (timers_of soft) /\ ~ due (k_timers k') (TmUser n) /\
    k_timers k' !! TmUser n = Some (started now (deactivate tm))
  else TmUser n ∉ qget (k_tmq k') (timers_of soft) /\ k_timers k' !! TmUser n = Some (deactivate tm).

(** The application's timers that are due, in the order of the list. *)
Definition user_due (timers : gmap tmid rt_timer) (m : tmid) : option nat :=
  match m with TmUser n => if decide (due timers m) then Some n else None | TmThread _ => None end.

Definition due_users (k : kstate) : list nat :=
  omap (user_due (k_timers k)) (qget (k_tmq k) (timers_of soft)).

(** What one round and the whole loop achieve. *)
Record progress (k k' : kstate) : Prop := Progress {
  pr_threads t th : k_threads k !! t = Some th ->
    exists th', k_threads k' !! t = Some th' /\ (blocked th -> th' = th \/ ~ blocked th') /\
      (~ blocked th -> ~ blocked th');
  pr_armed t : TmThread t ∈ qget (k_tmq k) (timers_of soft) ->
    (TmThread t ∈ qget (k_tmq k') (timers_of soft) /\
     k_timers k' !! TmThread t = k_timers k !! TmThread t) \/
    exists th, k_threads k' !! t = Some th /\ ~ blocked th;
  pr_alone t : (forall n, TmUser n ∈ qget (k_tmq k) (timers_of soft) -> ~ due (k_timers k) (TmUser n)) ->
    TmThread t ∈ qget (k_tmq k) (timers_of soft) -> ~ due (k_timers k) (TmThread t) ->
    TmThread t ∈ qget (k_tmq k') (timers_of soft) /\
    k_timers k' !! TmThread t = k_timers k !! TmThread t;
  pr_user n : TmUser n ∈ qget (k_tmq k) (timers_of soft) ->
    (TmUser n ∈ qget (k_tmq k') (timers_of soft) /\ k_timers k' !! TmUser n = k_timers k !! TmUser n) \/
    (due (k_timers k) (TmUser n) /\ exists tm, k_timers k !! TmUser n = Some tm /\ user_served n tm k');
  pr_off n : TmUser n ∉ qget (k_tmq k) (timers_of soft) ->
    TmUser n ∉ qget (k_tmq k') (timers_of soft) /\ k_timers k' !! TmUser n = k_timers k !! TmUser n
}.

Definition ndue (k : kstate) : nat := length (filter (due (k_timers k)) (qget (k_tmq k) (timers_of soft))).

Lemma due_head k t rows :
  expiry_inv k -> qget (k_tmq k) (timers_of soft) = t :: rows -> ~ due (k_timers k) t ->
  forall m, m ∈ qget (k_tmq k) (timers_of soft) -> ~ due (k_timers k) m.
Proof using.
  intros H Hq Hn m Hm Hd. apply Hn. pose proof (ci_rows k H) as Hr. rewrite Hq in Hr, Hm.
  apply elem_of_cons in Hm as [->|Hm]; [done|].
  pose proof (rows_ok_le b (k_timers k) t rows m Hr Hm). unfold due in *. lia.
Qed.

(** The test of the loop is the comparison of the ticks. *)
Lemma due_test k m tm :
  expiry_inv k -> m ∈ qget (k_tmq k) (timers_of soft) -> k_timers k !! m = Some tm ->
  (u32 (now - tm_timeout_tick tm) <? RT_TICK_MAX / 2) = bool_decide (due (k_timers k) m).
Proof using.
  intros H Hm Htm. pose proof (ci_rows k H) as [Hf _]. rewrite Forall_forall in Hf.
  specialize (Hf m Hm). unfold due. rewrite (timeout_of_eq _ m tm Htm) in Hf.
  destruct (diff_cmp b now (tm_timeout_tick tm) (ci_now k H) Hf) as [H1 H2].
  fold half. case_bool_decide as Hd; rewrite (timeout_of_eq _ m tm Htm) in Hd.
  - apply Z.ltb_lt. destruct H1 as [_ H1]; [done|exact H1].
  - apply Z.ltb_ge. apply H2. lia.
Qed.

(** A round takes [t] off the list, and puts it back later than [now] if it
    is periodic. *)
Record round (t : tmid) (k k' : kstate) : Prop := Round {
  ro_inv : expiry_inv k';
  ro_progress : progress k k';
  ro_calls : exists ns, due_users k = ns ++ due_users k' /\ g k' = fold_left (fun o n => step n o) ns (g k);
  ro_due m : m ∈ qget (k_tmq k') (timers_of soft) -> due (k_timers k') m ->
    m ∈ qget (k_tmq k) (timers_of soft) /\ due (k_timers k) m /\ m <> t
}.

Lemma round_ndue t k k' :
  t ∈ qget (k_tmq k) (timers_of soft) -> due (k_timers k) t -> round t k k' -> expiry_inv k ->
  (ndue k' < ndue k)%nat.
Proof using.
  intros Ht Hd R H. unfold ndue.
  assert (t :: filter (due (k_timers k')) (qget (k_tmq k') (timers_of soft)) ⊆+
          filter (due (k_timers k)) (qget (k_tmq k) (timers_of soft))) as Hsub.
  { apply NoDup_submseteq.
    - apply NoDup_cons. split.
      + intros Hin. apply list_elem_of_filter in Hin as [Hdt Hin].
        by destruct (ro_due _ _ _ R t Hin Hdt) as (_ & _ & ?).
      + apply NoDup_filter. apply (ti_nodup k' (ko_timer k' (ci_ok k' (ro_inv _ _ _ R)))). apply timers_of_global.
    - intros m Hm. apply elem_of_cons in Hm as [->|Hm].
      + by apply list_elem_of_filter.
      + apply list_elem_of_filter in Hm as [Hdm Hm].
        destruct (ro_due _ _ _ R m Hm Hdm) as (? & ? & _). by apply list_elem_of_filter. }
  apply submseteq_length in Hsub. simpl in Hsub. lia.
Qed.

Lemma users_sublist timers l l' :
  l' `sublist_of` l -> NoDup l -> (forall n, TmUser n ∈ l -> TmUser n ∈ l') ->
  omap (user_due timers) l' = omap (user_due timers) l.
Proof using.
  intros Hs. induction Hs as [|x l1 l2 Hs IH|x l1 l2 Hs IH]; intros Hnd Hu; [done| |];
    apply NoDup_cons in Hnd as [Hx Hnd].
  - assert (omap (user_due timers) l1 = omap (user_due timers) l2) as E; [|cbn [omap list_omap]; by rewrite E].
    apply IH; [done|]. intros n Hn. assert (TmUser n ∈ x :: l1) as Hi by (apply Hu; by right).
    apply elem_of_cons in Hi as [E|Hi]; [by rewrite E in Hn|done].
  - assert (forall n, TmUser n ∈ l2 -> TmUser n ∈ l1) as Hu' by (intros n Hn; apply Hu; by right).
    destruct x as [t|n]; [by apply IH|]. exfalso. apply Hx.
    eapply elem_of_submseteq; [apply Hu; by left|by apply sublist_submseteq].
Qed.

Lemma users_ext timers timers' (l : list tmid) :
  (forall m, m ∈ l -> timeout_of timers' m = timeout_of timers m) ->
  omap (user_due timers') l = omap (user_due timers) l.
Proof using.
  induction l as [|x l IH]; intros He; [done|]. cbn [omap list_omap].
  rewrite IH by (intros m Hm; apply He; by right).
  assert (user_due timers' x = user_due timers x) as ->; [|done].
  destruct x as [t|n]; [done|]. unfold user_due. assert (due timers' (TmUser n) <-> due timers (TmUser n)) as Hi.
  { unfold due. by rewrite He by left. }
  destruct (decide (due timers' _)), (decide (due timers _)); tauto.
Qed.

Lemma due_users_none k : (forall m, m ∈ qget (k_tmq k) (timers_of soft) -> ~ due (k_timers k) m) -> due_users k = [].
Proof using.
  unfold due_users. generalize (qget (k_tmq k) (timers_of soft)) as l.
  induction l as [|x l IH]; intros Hn; [done|]. cbn [omap list_omap].
  rewrite IH by (intros m Hm; apply Hn; by right). destruct x as [t|n]; [done|]. unfold user_due.
  rewrite decide_False; [done|]. apply Hn. by left.
Qed.

(** *** A round *)

Definition pre_timer (tm : rt_timer) : rt_timer := if periodic tm then tm else deactivate tm.

Lemma pre_timer_fields tm :
  o_type (tm_parent (pre_timer tm)) = o_type (tm_parent tm) /\ is_soft (pre_timer tm) = is_soft tm /\
  periodic (pre_timer tm) = periodic tm.
Proof using.
  unfold pre_timer. destruct (deactivate_fields tm) as (_ & ? & ? & _).
  destruct (periodic tm) eqn:?; [done|]. split_and!; [done|done|congruence].
Qed.

Lemma pre_spec k t tm rows :
  expiry_inv k -> qget (k_tmq k) (timers_of soft) = t :: rows -> k_timers k !! t = Some tm ->
  exists k1, timer_check_pre t (local_of soft) k = Some (tt, k1) /\ kernel_ok k1 /\
    k_threads k1 = k_threads k /\ k_current k1 = k_current k /\ k_tick k1 = k_tick k /\
    k_timers k1 = <[t := pre_timer tm]> (k_timers k) /\ k_timer_thread k1 = k_timer_thread k /\
    qget (k_tmq k1) (timers_of soft) = rows /\ qget (k_tmq k1) (local_of soft) = [t] /\
    qget (k_tmq k1) (timers_of (negb soft)) = qget (k_tmq k) (timers_of (negb soft)) /\ t ∉ rows /\ obj_frame k k1.
Proof using.
  intros H Hq Htm. pose proof (ci_ok k H) as [Hs Hti]. pose proof (timers_of_global soft) as Hg.
  set (tmq1 := rt_list_insert_after (local_of soft) t (rt_list_remove t (k_tmq k))).
  assert (t ∈ qget (k_tmq k) (timers_of soft)) as Hin by (rewrite Hq; by left).
  pose proof (on_one_list soft t k Hti Hin) as Hother.
  destruct (ti_on k Hti (timers_of soft) t Hg Hin) as (tm' & ? & Hty & _ & Hlo).
  assert (tm' = tm) as -> by congruence.
  pose proof (ti_nodup k Hti (timers_of soft) Hg) as Hnd. rewrite Hq in Hnd.
  apply NoDup_cons in Hnd as [Hnt Hnd].
  assert (forall l, is_global l -> qget tmq1 l = filter (fun x => x <> t) (qget (k_tmq k) l)) as Hq1.
  { intros l Hl. unfold tmq1. rewrite qget_insert_after, decide_False by (intros <-; by apply (local_not_global soft _ Hl)).
    apply qget_remove. }
  assert (qget tmq1 (timers_of soft) = rows) as Q1.
  { rewrite (Hq1 _ Hg), Hq, filter_cons_False by auto. by apply filter_ne_notin. }
  assert (qget tmq1 (timers_of (negb soft)) = qget (k_tmq k) (timers_of (negb soft))) as Q2.
  { rewrite Hq1 by apply timers_of_global. by apply filter_ne_notin. }
  assert (qget tmq1 (local_of soft) = [t]) as Q3.
  { unfold tmq1. rewrite qget_insert_after, decide_True by done. rewrite qget_remove.
    by rewrite (ci_local k H). }
  assert (forall l, is_global l -> t ∉ qget tmq1 l) as Hnot.
  { intros l Hl Hx. rewrite (Hq1 l Hl) in Hx. by apply list_elem_of_filter in Hx as [? _]. }
  exists (timer_st t (pre_timer tm) (set_k_tmq tmq1 k)). split.
  { unfold timer_check_pre, _timer_remove, clear_activated, pre_timer, periodic. mrun.
    rewrite (get_timer_eq t _ tm) by done. destruct (_ =? 0).
    - by rewrite (upd_timer_eq t _ _ tm).
    - unfold timer_st; kfields. rewrite insert_id by done. by destruct k. }
  destruct (pre_timer_fields tm) as (P1 & P2 & P3).
  split_and!; try done. constructor; [by apply (sched_ok_ext k)|].
  apply (timer_inv_set t tm); try done.
  - intros l x Hl Hx _. rewrite (Hq1 l Hl) in Hx. by apply list_elem_of_filter in Hx as [_ ?].
  - intros l Hl Hx. by apply Hnot in Hx.
  - intros l x Hl _ Hx. by apply Hnot in Hx.
  - intros l Hl. rewrite (Hq1 l Hl). apply NoDup_filter. by apply (ti_nodup k Hti).
Qed.

(** The call of the timeout function. *)
Definition serve (t : tmid) : M unit :=
  if soft then
    modify (set_k_soft_status RT_SOFT_TIMER_BUSY);; callback f t;; modify (set_k_soft_status RT_SOFT_TIMER_IDLE)
  else callback f t.

(** What a round comes to once the timer is on the list of those being served. *)
Definition round_done (t : tmid) (k k' : kstate) : Prop :=
  exists k1 k2, timer_check_pre t (local_of soft) k = Some (tt, k1) /\ serve t k1 = Some (tt, k2) /\
    k_tick k2 = now /\ timer_check_post t (local_of soft) k2 = Some (tt, k').

(** The timers of threads are timers of the tick. *)
Lemma thread_timer_hard t k : timer_inv k -> TmThread t ∈ qget (k_tmq k) (timers_of soft) -> soft = false.
Proof using.
  intros H Hin. pose proof (timers_of_global soft) as Hg. destruct (ti_armed k H t _ Hg Hin) as (th & Hth & Hs).
  destruct (ti_thread k H t th Hth) as (_ & tm & Htm & _ & _ & Hsf & _); [by rewrite Hs|].
  destruct (ti_on k H _ _ Hg Hin) as (tm' & ? & _ & _ & Hlo). assert (tm' = tm) as -> by congruence.
  apply list_of_soft in Hlo. congruence.
Qed.

(** A thread's own timer has expired and the thread is awake: [k3] is the state in
    which the timer is only on the list of those that are being served. *)
Record fired (t : nat) (tm : rt_timer) (rows : list tmid) (k k3 : kstate) : Prop := Fired {
  fi_ok : kernel_ok k3;
  fi_frame : obj_frame k k3;
  fi_soft : soft = false;
  fi_current : is_Some (k_current k3);
  fi_tick : k_tick k3 = now;
  fi_timers : k_timers k3 = <[TmThread t := pre_timer tm]> (k_timers k);
  fi_hard : qget (k_tmq k3) (timers_of soft) = rows;
  fi_local : qget (k_tmq k3) (local_of soft) = [TmThread t];
  fi_off l : is_global l -> TmThread t ∉ qget (k_tmq k3) l;
  fi_woken : exists th, k_threads k3 !! t = Some th /\ ~ blocked th;
  fi_threads x th : x <> t -> k_threads k !! x = Some th ->
    exists s, k_threads k3 !! x = Some (set_th_stat s th) /\ (blocked th -> set_th_stat s th = th) /\
      (~ blocked th -> ~ blocked (set_th_stat s th))
}.

Lemma thread_fires k t rows tm :
  expiry_inv k -> qget (k_tmq k) (timers_of soft) = TmThread t :: rows -> k_timers k !! TmThread t = Some tm ->
  exists k1 k3, timer_check_pre (TmThread t) (local_of soft) k = Some (tt, k1) /\
    serve (TmThread t) k1 = Some (tt, k3) /\ fired t tm rows k k3 /\
    (TmThread t ∉ rows) /\ periodic (pre_timer tm) = false.
Proof using.
  intros H Hq Htm. destruct (pre_spec k (TmThread t) tm rows H Hq Htm)
    as (k1 & E1 & Hok1 & Eth & Ec & Etk & Etm & _ & Q1 & Q2 & Q3 & Hnt & Fr1).
  pose proof (ci_ok k H) as [_ Hti]. pose proof (timers_of_global soft) as Hg.
  assert (TmThread t ∈ qget (k_tmq k) (timers_of soft)) as Hin by (rewrite Hq; by left).
  destruct (ti_armed k Hti t (timers_of soft) Hg Hin) as (th & Hth & Hst).
  destruct (ti_thread k Hti t th Hth) as (_ & tm' & ? & _ & _ & Hsf & Hper); [by rewrite Hst|].
  assert (tm' = tm) as -> by congruence.
  assert (is_Some (k_current k1)) as Hc1 by (rewrite Ec; apply H).
  assert (k_threads k1 !! t = Some th) as Hth1 by (by rewrite Eth).
  assert (forall l, is_global l -> TmThread t ∉ qget (k_tmq k1) l) as Hun.
  { intros l Hl. destruct (global_cases soft l Hl) as [-> | ->]; [by rewrite Q1|]. rewrite Q3. by apply on_one_list. }
  pose proof (thread_timer_hard t k Hti Hin) as Hsoft.
  destruct (timeout_spec t th k1 Hok1 Hc1 Hth1 Hst Hun)
    as (k2 & k3 & E2 & W & Es & Hok3 & F & Hc3 & Etm2 & Etmq2).
  destruct (sched_frame_fields _ _ F) as (Ftm & Ftmq & _).
  rewrite Etm2 in Ftm. rewrite Etmq2 in Ftmq.
  exists k1, k3. split; [done|]. split; [unfold serve; by rewrite Hsoft|]. split; [|split; [done|]].
  2: { unfold pre_timer. rewrite Hper. by destruct (deactivate_fields tm) as (_ & _ & -> & _). }
  constructor; try done; rewrite ?Ftmq; try done.
  - transitivity k1; [done|]. transitivity k2; [|by apply sched_obj_frame].
    destruct (wk_frame _ _ _ _ W). by constructor.
  - rewrite (of_tick _ _ (sched_obj_frame _ _ F)), (of_tick _ _ (wk_frame _ _ _ _ W)).
    unfold thread_st; kfields. rewrite Etk. apply H.
  - by rewrite Ftm.
  - destruct (runnable_woken _ _ _ _ _ W F) as (s & ? & ?). eauto.
  - intros x thx Hne Hx. apply (sf_thread _ _ F x thx).
    rewrite (wk_threads _ _ _ _ W), lookup_insert_ne by done. unfold thread_st; kfields.
    rewrite lookup_insert_ne by done. by rewrite Eth.
Qed.

(** A thread's own timer: the thread is woken. *)
Lemma round_thread k t rows tm :
  expiry_inv k -> qget (k_tmq k) (timers_of soft) = TmThread t :: rows -> due (k_timers k) (TmThread t) ->
  k_timers k !! TmThread t = Some tm ->
  exists k', round_done (TmThread t) k k' /\ round (TmThread t) k k'.
Proof using Observed0.
  intros H Hq Hdue Htm. destruct (thread_fires k t rows tm H Hq Htm) as (k1 & k3 & E1 & E2 & [Hok3 Fr3 Hsoft Hc3 Htk Ftm Q1 Q2 Hun Hwk Hth] & Hnt & Hper).
  set (k' := set_k_tmq (rt_list_remove (TmThread t) (k_tmq k3)) k3). pose proof (timers_of_global soft) as Hg.
  exists k'. split.
  { exists k1, k3. do 3 (split; [done|]). unfold timer_check_post. mrun.
    unfold rt_list_isempty. rewrite Q2. cbv beta iota. fold k'.
    rewrite (get_timer_eq _ k' (pre_timer tm)) by (unfold k'; kfields; rewrite Ftm; apply lookup_insert_eq).
    unfold periodic in Hper. apply negb_false_iff in Hper. by rewrite Hper. }
  assert (forall l, is_global l -> qget (rt_list_remove (TmThread t) (k_tmq k3)) l = qget (k_tmq k3) l) as Hrem.
  { intros l Hl. rewrite qget_remove. by apply filter_ne_notin, Hun. }
  assert (qget (k_tmq k') (timers_of soft) = rows) as Q'.
  { unfold k'; kfields. by rewrite Hrem. }
  assert (forall m, m <> TmThread t -> k_timers k' !! m = k_timers k !! m) as Hkeep.
  { intros m Hm. unfold k'; kfields. rewrite Ftm. by rewrite lookup_insert_ne. }
  assert (forall m, m ∈ rows -> m <> TmThread t) as Hner by (intros m Hm ->; done).
  assert (forall m, m ∈ rows -> timeout_of (k_timers k') m = timeout_of (k_timers k) m) as Hto.
  { intros m Hm. unfold timeout_of. by rewrite Hkeep by auto. }
  constructor; [constructor; try done| | |].
  - by apply kernel_ok_tmq.
  - unfold k'; kfields. by rewrite qget_remove, Q2, filter_cons_False by auto.
  - rewrite Q'. apply (rows_ok_ext b (k_timers k)); [done|].
    apply (rows_ok_sublist b _ (TmThread t :: rows)); [by apply sublist_cons|]. rewrite <- Hq. apply H.
  - apply H.
  - by rewrite Hsoft.
  - intros m tmm Hm. rewrite Q' in Hm. rewrite Hkeep by auto. apply (ci_periodic k H). rewrite Hq. by right.
  - constructor.
    + intros x thx Hx. destruct (decide (x = t)) as [->|Hne]; [destruct Hwk as (tht & ? & ?); exists tht; auto|].
      destruct (Hth x thx Hne Hx) as (s & ? & Hb & ?). exists (set_th_stat s thx). auto.
    + intros x Hx. rewrite Hq in Hx. apply elem_of_cons in Hx as [[= ->]|Hx]; [right; eauto|].
      left. rewrite Q'. split; [done|]. apply Hkeep. by apply Hner.
    + intros x _ Hx Hd. rewrite Hq in Hx. apply elem_of_cons in Hx as [[= ->]|Hx]; [done|].
      rewrite Q'. split; [done|]. apply Hkeep. by apply Hner.
    + intros n Hn. rewrite Hq in Hn. apply elem_of_cons in Hn as [?|Hn]; [done|].
      left. rewrite Q'. split; [done|]. by apply Hkeep.
    + intros n Hn. rewrite Hq in Hn. rewrite Q'. split; [by intros ?; apply Hn; right|]. by apply Hkeep.
  - exists []. split; [|apply (obs_obj f g step); destruct Fr3; by constructor].
    unfold due_users. rewrite Q', Hq. simpl. symmetry. by apply users_ext.
  - intros m Hm Hd. rewrite Q' in Hm. unfold due in *. rewrite Hto in Hd by done.
    rewrite Hq. split; [by right|]. split; [done|]. by apply Hner.
Qed.

(** An application's timer: [k2] is the state after its callback. *)
Record called (n : nat) (tm : rt_timer) (rows : list tmid) (k k2 : kstate) : Prop := Called {
  ca_ok : kernel_ok k2;
  ca_current : is_Some (k_current k2);
  ca_tick : k_tick k2 = now;
  ca_timer : k_timers k2 !! TmUser n = Some (pre_timer tm);
  ca_local : qget (k_tmq k2) (local_of soft) = [TmUser n];
  ca_sub : qget (k_tmq k2) (timers_of soft) `sublist_of` rows;
  ca_not l : is_global l -> TmUser n ∉ qget (k_tmq k2) l;
  ca_rows : rows_ok b (k_timers k2) (qget (k_tmq k2) (timers_of soft));
  ca_server : soft = true -> server_runs k2;
  ca_same m : m ∈ qget (k_tmq k2) (timers_of soft) -> k_timers k2 !! m = k_timers k !! m;
  ca_seen : g k2 = step n (g k);
  ca_users : omap (user_due (k_timers k)) (qget (k_tmq k2) (timers_of soft)) = omap (user_due (k_timers k)) rows;
  ca_progress : forall k', k_threads k' = k_threads k2 ->
    (forall m, m <> TmUser n -> k_timers k' !! m = k_timers k2 !! m) ->
    (forall m, m <> TmUser n -> m ∈ qget (k_tmq k') (timers_of soft) <-> m ∈ qget (k_tmq k2) (timers_of soft)) ->
    user_served n tm k' -> progress k k'
}.

(** Setting the status of the timer thread does not matter to the invariant. *)
Lemma soft_status_ok s k : kernel_ok k -> kernel_ok (set_k_soft_status s k).
Proof using. intros [Hs Ht]. constructor; [by apply (sched_ok_ext k)|by destruct Ht]. Qed.

Lemma serve_user n k :
  kernel_ok k -> is_Some (k_current k) ->
  exists k', serve (TmUser n) k = Some (tt, k') /\ kernel_ok k' /\ is_Some (k_current k') /\ wakes_only k k' /\
    g k' = step n (g k).
Proof using TimerCallbacks0 Observed0.
  intros Hok Hc. unfold serve. destruct soft.
  2: { destruct (callbacks_ok n k Hok Hc) as (k' & E & ? & ? & ?). exists k'. split_and!; try done.
       by apply (obs_call (f := f)). }
  destruct (callbacks_ok n (set_k_soft_status RT_SOFT_TIMER_BUSY k)) as (k' & E & Hok' & Hc' & W);
    [by apply soft_status_ok|done|].
  exists (set_k_soft_status RT_SOFT_TIMER_IDLE k'). simpl callback. mrun. rewrite E. split; [done|].
  split; [by apply soft_status_ok|]. split; [done|]. split; [destruct W; by constructor|].
  rewrite (obs_frame (f := f) (step := step) k' _) by done.
  rewrite (obs_call (f := f) (step := step) n _ k' (soft_status_ok _ k Hok) E). f_equal.
  by apply (obs_frame (f := f) (step := step)).
Qed.

Lemma callback_keeps k1 k2 m :
  timer_inv k1 -> wakes_only k1 k2 -> m ∈ qget (k_tmq k2) (timers_of soft) -> k_timers k2 !! m = k_timers k1 !! m.
Proof using.
  intros H W Hm. destruct m as [t|x]; [|apply (wo_user _ _ W)].
  assert (TmThread t ∈ qget (k_tmq k1) (timers_of soft)) as Hin.
  { eapply elem_of_submseteq; [exact Hm|]. apply sublist_submseteq, (wo_rows _ _ W). }
  pose proof (thread_timer_hard t k1 H Hin) as Hsoft. rewrite Hsoft in Hm. by apply (wo_kept _ _ W).
Qed.

(** [k1] is the state before the call, [k2] that after it, and [k'] that at the
    head of the loop. *)
Lemma called_progress k k1 k2 k' n tm rows :
  wakes_only k1 k2 -> timer_inv k1 -> k_threads k1 = k_threads k ->
  k_timers k1 = <[TmUser n := pre_timer tm]> (k_timers k) -> qget (k_tmq k1) (timers_of soft) = rows ->
  qget (k_tmq k) (timers_of soft) = TmUser n :: rows -> TmUser n ∉ rows -> due (k_timers k) (TmUser n) ->
  k_timers k !! TmUser n = Some tm ->
  k_threads k' = k_threads k2 -> (forall m, m <> TmUser n -> k_timers k' !! m = k_timers k2 !! m) ->
  (forall m, m <> TmUser n -> m ∈ qget (k_tmq k') (timers_of soft) <-> m ∈ qget (k_tmq k2) (timers_of soft)) ->
  user_served n tm k' -> progress k k'.
Proof using.
  intros W Hti Eth Etm Q1 Hq Hnt Hdue Htm Kth Ktm Kq Sv.
  assert (forall m, m ∈ qget (k_tmq k2) (timers_of soft) -> m ∈ rows) as Hin2.
  { intros m Hm. rewrite <- Q1. eapply elem_of_submseteq; [exact Hm|]. apply sublist_submseteq, (wo_rows _ _ W). }
  assert (forall x, x <> n -> k_timers k' !! TmUser x = k_timers k !! TmUser x) as Hux.
  { intros x Hx. rewrite Ktm, (wo_user _ _ W), Etm by congruence. rewrite lookup_insert_ne by congruence. done. }
  constructor.
  - rewrite Kth, <- Eth. intros t th Ht. by apply (wo_threads _ _ W).
  - intros t Ht. rewrite Hq in Ht. apply elem_of_cons in Ht as [?|Ht]; [done|].
    destruct (decide (TmThread t ∈ qget (k_tmq k2) (timers_of soft))) as [Hi|Hi].
    + left. split; [by apply Kq|]. rewrite Ktm by done.
      rewrite (callback_keeps k1 k2 _ Hti W Hi), Etm. by rewrite lookup_insert_ne.
    + right. rewrite Kth. rewrite <- Q1 in Ht. pose proof (thread_timer_hard t k1 Hti Ht) as Hsoft.
      rewrite Hsoft in Ht, Hi. by apply (wo_gone _ _ W).
  - intros t Hnone. exfalso. apply (Hnone n); [rewrite Hq; by left|done].
  - intros x Hx. destruct (decide (x = n)) as [->|Hne]; [right; eauto|].
    rewrite Hq in Hx. apply elem_of_cons in Hx as [[= ->]|Hx]; [done|]. left.
    split; [|by rewrite Hux]. apply Kq; [congruence|]. apply (wo_user_rows _ _ W). by rewrite Q1.
  - intros x Hx. rewrite Hq in Hx. assert (x <> n) as Hne by (intros ->; apply Hx; by left).
    split; [|by apply Hux]. rewrite Kq by congruence. intros Hi. apply Hx. right. by apply Hin2.
Qed.

Lemma called_spec k n rows tm :
  expiry_inv k -> qget (k_tmq k) (timers_of soft) = TmUser n :: rows -> due (k_timers k) (TmUser n) ->
  k_timers k !! TmUser n = Some tm ->
  exists k1 k2, timer_check_pre (TmUser n) (local_of soft) k = Some (tt, k1) /\
    serve (TmUser n) k1 = Some (tt, k2) /\ called n tm rows k k2.
Proof using TimerCallbacks0 Observed0.
  intros H Hq Hdue Htm. destruct (pre_spec k (TmUser n) tm rows H Hq Htm)
    as (k1 & E1 & Hok1 & Eth & Ec & Etk & Etm & Est & Q1 & Q2 & Q3 & Hnt & Fr1).
  pose proof (timers_of_global soft) as Hg.
  destruct (serve_user n k1 Hok1) as (k2 & E2 & Hok2 & Hc2 & W & Eg); [rewrite Ec; apply H|].
  pose proof (wo_rows _ _ W (timers_of soft)) as Hsub. rewrite Q1 in Hsub.
  assert (forall m, m ∈ qget (k_tmq k2) (timers_of soft) -> m ∈ rows) as Hin2.
  { intros m Hm. by eapply elem_of_submseteq, sublist_submseteq. }
  assert (forall m, m ∈ qget (k_tmq k2) (timers_of soft) -> k_timers k2 !! m = k_timers k !! m) as Hsame.
  { intros m Hm. assert (m <> TmUser n) as Hne by (intros ->; by apply Hnt, Hin2).
    rewrite (callback_keeps k1 k2 m); [by rewrite Etm, lookup_insert_ne|by apply ko_timer|done..]. }
  exists k1, k2. split; [done|]. split; [done|]. constructor; try done.
  - rewrite (wo_tick _ _ W), Etk. apply H.
  - rewrite (wo_user _ _ W), Etm. apply lookup_insert_eq.
  - pose proof (wo_rows _ _ W (local_of soft)) as Hl. rewrite Q2 in Hl.
    pose proof (wo_user_rows _ _ W (local_of soft) n) as Hi. rewrite Q2 in Hi. specialize (Hi ltac:(by left)).
    pose proof (sublist_length _ _ Hl) as Hlen. simpl in Hlen.
    destruct (qget (k_tmq k2) (local_of soft)) as [|x [|y l]]; [by apply elem_of_nil in Hi| |simpl in Hlen; lia].
    apply list_elem_of_singleton in Hi. by subst.
  - intros l Hl Hx. destruct (global_cases soft l Hl) as [-> | ->]; [by apply Hnt, Hin2|].
    pose proof (wo_rows _ _ W (timers_of (negb soft))) as Hl'. rewrite Q3 in Hl'.
    apply (on_one_list soft (TmUser n) k (ko_timer k (ci_ok k H))); [rewrite Hq; by left|].
    by eapply elem_of_submseteq, sublist_submseteq.
  - apply (rows_ok_ext b (k_timers k)).
    { intros m Hm. unfold timeout_of. by rewrite Hsame. }
    apply (rows_ok_sublist b _ (TmUser n :: rows)); [by apply sublist_cons|].
    rewrite <- Hq. apply H.
  - intros Hsoft. destruct (ci_server k H Hsoft) as (th & Hth & Hb). rewrite <- Eth in Hth.
    destruct (wo_threads _ _ W _ _ Hth) as (th' & Hth' & _ & Hb'). exists th'.
    rewrite (wo_timer_thread _ _ W), Est. auto.
  - rewrite Eg. f_equal. by apply (obs_obj f g step).
  - apply users_sublist; [done| |].
    + pose proof (ti_nodup k (ko_timer k (ci_ok k H)) _ Hg) as Hnd. rewrite Hq in Hnd. by apply NoDup_cons in Hnd as [_ ?].
    + intros x Hx. apply (wo_user_rows _ _ W). by rewrite Q1.
  - intros k' Kth Ktm Kq Sv. apply (called_progress k k1 k2 k' n tm rows); try done. by apply ko_timer.
Qed.

(** The state at the head of the loop without the timer. *)
Definition dropped (n : nat) (k : kstate) : kstate := set_k_tmq (rt_list_remove (TmUser n) (k_tmq k)) k.

Lemma dropped_list k n tm rows k2 l :
  called n tm rows k k2 -> is_global l -> qget (k_tmq (dropped n k2)) l = qget (k_tmq k2) l.
Proof using.
  intros C Hl. unfold dropped; kfields. rewrite qget_remove. apply filter_ne_notin. by apply (ca_not _ _ _ _ _ C).
Qed.

(** Whatever stays on the list was there before. *)
Lemma called_in k n tm rows k2 m :
  qget (k_tmq k) (timers_of soft) = TmUser n :: rows -> called n tm rows k k2 ->
  m ∈ qget (k_tmq k2) (timers_of soft) -> m ∈ qget (k_tmq k) (timers_of soft).
Proof using.
  intros Hq C Hm. rewrite Hq. right. eapply elem_of_submseteq; [exact Hm|]. apply sublist_submseteq, C.
Qed.

Lemma dropped_inv k n tm rows k2 :
  expiry_inv k -> qget (k_tmq k) (timers_of soft) = TmUser n :: rows -> called n tm rows k k2 ->
  expiry_inv (dropped n k2).
Proof using.
  intros H Hq C. pose proof (fun l Hl => dropped_list k n tm rows k2 l C Hl) as Hrem. unfold dropped in *; kfields.
  constructor; kfields; try apply C.
  - apply kernel_ok_tmq; [done|apply C].
  - rewrite qget_remove, (ca_local _ _ _ _ _ C). by rewrite filter_cons_False by auto.
  - rewrite Hrem by apply timers_of_global. apply C.
  - apply H.
  - intros m tmm Hm. rewrite Hrem in Hm by apply timers_of_global. rewrite (ca_same _ _ _ _ _ C) by done.
    by apply (ci_periodic k H), (called_in k n tm rows k2).
Qed.

(** The timers that are due, in a state with the same timers and, up to [n], the same list as after the call. *)
Lemma called_users k n tm rows k2 k' :
  qget (k_tmq k) (timers_of soft) = TmUser n :: rows -> due (k_timers k) (TmUser n) -> called n tm rows k k2 ->
  omap (user_due (k_timers k')) (qget (k_tmq k') (timers_of soft)) =
    omap (user_due (k_timers k')) (qget (k_tmq k2) (timers_of soft)) ->
  (forall m, m <> TmUser n -> k_timers k' !! m = k_timers k2 !! m) -> due_users k = [n] ++ due_users k'.
Proof using.
  intros Hq Hdue C Hl Hkeep. unfold due_users. rewrite Hq, Hl. cbn [omap list_omap user_due].
  rewrite decide_True by done. simpl. f_equal. rewrite <- (ca_users _ _ _ _ _ C). symmetry. apply users_ext.
  intros m Hm. unfold timeout_of. rewrite Hkeep, (ca_same _ _ _ _ _ C); [done|done|].
  intros ->. by apply (ca_not _ _ _ _ _ C (timers_of soft)); [apply timers_of_global|].
Qed.

Lemma called_drop k n tm rows k2 :
  expiry_inv k -> qget (k_tmq k) (timers_of soft) = TmUser n :: rows -> due (k_timers k) (TmUser n) ->
  periodic tm = false -> called n tm rows k k2 -> round (TmUser n) k (dropped n k2).
Proof using Observed0.
  intros H Hq Hdue Hper C. pose proof (dropped_list k n tm rows k2 _ C (timers_of_global soft)) as Hrem.
  pose proof (ca_not _ _ _ _ _ C _ (timers_of_global soft)) as Hnot.
  constructor; [by apply (dropped_inv k n tm rows)| | |].
  - apply (ca_progress _ _ _ _ _ C); try done; [intros m _; by rewrite Hrem|].
    unfold user_served. rewrite Hper, Hrem. split; [done|]. unfold dropped; kfields. rewrite (ca_timer _ _ _ _ _ C).
    unfold pre_timer. by rewrite Hper.
  - exists [n]. split; [|simpl; rewrite <- (ca_seen _ _ _ _ _ C); apply (obs_obj f g step); by constructor].
    apply (called_users k n tm rows k2); try done. by rewrite Hrem.
  - intros m Hm Hd. rewrite Hrem in Hm. unfold dropped, due, timeout_of in *; kfields.
    rewrite (ca_same _ _ _ _ _ C) in Hd by done. split; [by apply (called_in k n tm rows k2)|]. split; [done|by intros ->].
Qed.

(** Back with the timer started again. *)
Record restarted (n : nat) (tm : rt_timer) (k2 k' : kstate) : Prop := Restarted {
  re_ok : kernel_ok k';
  re_threads : k_threads k' = k_threads k2;
  re_current : k_current k' = k_current k2;
  re_server : k_timer_thread k' = k_timer_thread k2;
  re_tick : k_tick k' = now;
  re_local : qget (k_tmq k') (local_of soft) = [];
  re_rows : rows_ok b (k_timers k') (qget (k_tmq k') (timers_of soft));
  re_frame : obj_frame k2 k';
  re_list : exists l1 l2, qget (k_tmq k') (timers_of soft) = l1 ++ TmUser n :: l2 /\ qget (k_tmq k2) (timers_of soft) = l1 ++ l2;
  re_timer : k_timers k' !! TmUser n = Some (started now (deactivate tm));
  re_keep m : m <> TmUser n -> k_timers k' !! m = k_timers k2 !! m
}.

(** [k3] is the state in which a periodic timer has been called and is on no
    list any more. *)
Lemma restart_spec n tm k3 :
  expiry_inv k3 -> k_timers k3 !! TmUser n = Some tm -> has_type RT_Object_Class_Timer (tm_parent tm) ->
  is_soft tm = soft -> 0 < tm_init_tick tm -> since b now + tm_init_tick tm < half ->
  (forall l, is_global l -> TmUser n ∉ qget (k_tmq k3) l) ->
  exists k', (clear_activated (TmUser n);; rt_timer_start (TmUser n);; mret tt) k3 = Some (tt, k') /\
    restarted n tm k3 k'.
Proof using.
  intros R Htm3 Hty Hsoft Hini Hfit Hnot3. destruct (deactivate_fields tm) as (Dp & Ds & Dper & _).
  set (k4 := timer_st (TmUser n) (deactivate tm) k3).
  assert (kernel_ok k4) as Hok4.
  { destruct (ci_ok k3 R) as [Hs3 Ht3]. constructor; [by apply (sched_ok_ext k3)|].
    unfold k4. rewrite <- (set_tmq_id k3). apply (timer_inv_set _ tm); try done.
    - intros l Hl Hx. by apply Hnot3 in Hx.
    - intros l Hl. by apply (ti_nodup k3 Ht3). }
  destruct (timer_start_quiet (TmUser n) (deactivate tm) k4 (ko_timer k4 Hok4))
    as (l1 & l2 & k5 & E5 & St); [apply timer_st_lookup|done|rewrite Ds, Hsoft; apply (ci_server k3 R)|].
  assert (list_of (deactivate tm) = (timers_of soft)) as Hl4 by (unfold list_of; by rewrite Ds, Hsoft).
  assert (k_tick k4 = now) as Htk4 by apply R.
  assert (forall m, m <> TmUser n -> k_timers k4 !! m = k_timers k3 !! m) as Hkeep4.
  { intros m Hm. unfold k4, timer_st; kfields. by rewrite lookup_insert_ne. }
  destruct (started_rows b (TmUser n) (deactivate tm) l1 l2 k4 k5 (ko_timer k4 Hok4)) as [Hrows5 Hq5].
  { apply timer_st_lookup. } { done. }
  { rewrite Hl4. apply (rows_ok_ext b (k_timers k3)); [|apply R].
    intros m Hm. unfold timeout_of. rewrite Hkeep4; [done|]. intros ->. by apply (Hnot3 (timers_of soft)); [apply timers_of_global|]. }
  { rewrite Htk4, since_add; [done|simpl; lia|done]. }
  pose proof (ts_rows _ _ _ _ _ _ St) as Hr. rewrite Hl4 in Hrows5, Hq5, Hr.
  pose proof (ts_state _ _ _ _ _ _ St) as E5'. exists k5. split.
  { unfold clear_activated. mrun. rewrite (upd_timer_eq _ _ k3 tm) by done. fold (deactivate tm) k4.
    by rewrite E5. }
  constructor; try (by rewrite E5'); try done.
  - constructor; [rewrite E5'; apply (sched_ok_ext k4); try done; apply Hok4|].
    apply (timer_started_inv (TmUser n) (deactivate tm) l1 l2 k4); try done; [apply Hok4|apply timer_st_lookup].
  - rewrite E5'. unfold timer_st; kfields. rewrite qget_insert, Hl4, decide_False by (intros E; by apply (local_not_global soft _ (timers_of_global soft))).
    rewrite qget_remove. change (k_tmq k4) with (k_tmq k3). by rewrite (ci_local k3 R).
  - exists l1, l2. split; [done|]. rewrite <- Hr. change (k_tmq k4) with (k_tmq k3). symmetry.
    apply filter_ne_notin. apply Hnot3, timers_of_global.
  - rewrite E5', Htk4. apply timer_st_lookup.
  - intros m Hm. rewrite E5'. unfold timer_st; kfields. rewrite lookup_insert_ne by done. by apply Hkeep4.
Qed.

Lemma restarted_in n tm k2 k' m :
  restarted n tm k2 k' ->
  m ∈ qget (k_tmq k') (timers_of soft) <-> m = TmUser n \/ m ∈ qget (k_tmq k2) (timers_of soft).
Proof using. intros R. destruct (re_list _ _ _ _ R) as (l1 & l2 & -> & ->). rewrite !elem_of_app, elem_of_cons. tauto. Qed.

(** A started timer is not due. *)
Lemma restarted_not_due n tm k2 k' :
  restarted n tm k2 k' -> 0 < tm_init_tick tm -> since b now + tm_init_tick tm < half -> ~ due (k_timers k') (TmUser n).
Proof using.
  intros R Hini Hfit Hd. unfold due in Hd. rewrite (timeout_of_eq _ _ _ (re_timer _ _ _ _ R)) in Hd.
  destruct (started_fields now (deactivate tm)) as (_ & _ & _ & _ & S5 & _). rewrite S5, since_u32 in Hd.
  rewrite since_add in Hd; [simpl in Hd; lia|simpl; lia|done].
Qed.

(** The round whose timer has been started again. *)
Lemma restarted_round k n tm rows k2 k' :
  expiry_inv k -> qget (k_tmq k) (timers_of soft) = TmUser n :: rows -> due (k_timers k) (TmUser n) ->
  k_timers k !! TmUser n = Some tm -> periodic tm = true -> called n tm rows k k2 ->
  restarted n tm (dropped n k2) k' -> round (TmUser n) k k'.
Proof using Observed0.
  intros H Hq Hdue Htm Hper C R. pose proof (dropped_inv k n tm rows k2 H Hq C) as H3.
  pose proof (dropped_list k n tm rows k2 _ C (timers_of_global soft)) as Hrem.
  assert (TmUser n ∈ qget (k_tmq k) (timers_of soft)) as Hin0 by (rewrite Hq; by left).
  destruct (ci_periodic k H (TmUser n) tm Hin0 Htm Hper) as [Hini Hfit].
  pose proof (restarted_not_due n tm _ k' R Hini Hfit) as Hnd.
  assert (forall m, m ∈ qget (k_tmq k') (timers_of soft) <-> m = TmUser n \/ m ∈ qget (k_tmq k2) (timers_of soft)) as Hin.
  { intros m. rewrite <- Hrem. by apply (restarted_in n tm). }
  destruct (started_fields now (deactivate tm)) as (S1 & S2 & S3 & S4 & S5 & S6).
  assert (forall m, m <> TmUser n -> k_timers k' !! m = k_timers k2 !! m) as Hkeep by apply (re_keep _ _ _ _ R).
  constructor.
  - constructor; try apply R; [rewrite (re_current _ _ _ _ R); apply H3|apply H| |].
    { unfold server_runs. rewrite (re_threads _ _ _ _ R), (re_server _ _ _ _ R). apply (ci_server _ H3). }
    intros m tmm Hm Htmm Hpm. destruct (decide (m = TmUser n)) as [->|Hne].
    + rewrite (re_timer _ _ _ _ R) in Htmm. injection Htmm as <-. by rewrite S6.
    + apply Hin in Hm as [?|Hm]; [done|]. rewrite Hkeep, (ca_same _ _ _ _ _ C) in Htmm by done.
      apply (ci_periodic k H m); [by apply (called_in k n tm rows k2)|done|done].
  - apply (ca_progress _ _ _ _ _ C); [apply R|done| |].
    { intros m Hne. rewrite Hin. tauto. }
    unfold user_served. rewrite Hper. split; [apply Hin; by left|]. split; [done|apply R].
  - exists [n]. split.
    2: { simpl. rewrite <- (ca_seen _ _ _ _ _ C). apply (obs_obj f g step).
         destruct (re_frame _ _ _ _ R). by constructor. }
    apply (called_users k n tm rows k2); try done. rewrite <- Hrem.
    destruct (re_list _ _ _ _ R) as (l1 & l2 & -> & ->). rewrite !omap_app. cbn [omap list_omap user_due].
    by rewrite decide_False.
  - intros m Hm Hdm. apply Hin in Hm as [->|Hm]; [done|].
    assert (m <> TmUser n) as Hne by (intros ->; done).
    unfold due, timeout_of in *. rewrite Hkeep, (ca_same _ _ _ _ _ C) in Hdm by done.
    split; [by apply (called_in k n tm rows k2)|done].
Qed.

Lemma called_restart k n tm rows k2 :
  expiry_inv k -> qget (k_tmq k) (timers_of soft) = TmUser n :: rows -> due (k_timers k) (TmUser n) ->
  k_timers k !! TmUser n = Some tm -> periodic tm = true -> called n tm rows k k2 ->
  exists k', (clear_activated (TmUser n);; rt_timer_start (TmUser n);; mret tt) (dropped n k2) = Some (tt, k') /\
    round (TmUser n) k k'.
Proof using Observed0.
  intros H Hq Hdue Htm Hper C.
  assert (TmUser n ∈ qget (k_tmq k) (timers_of soft)) as Hin0 by (rewrite Hq; by left).
  destruct (ti_on k (ko_timer k (ci_ok k H)) _ _ (timers_of_global soft) Hin0) as (tm' & ? & Hty & _ & Hlo).
  assert (tm' = tm) as -> by congruence.
  destruct (ci_periodic k H (TmUser n) tm Hin0 Htm Hper) as [Hini Hfit].
  destruct (restart_spec n tm (dropped n k2) (dropped_inv k n tm rows k2 H Hq C)) as (k' & E & R); try done.
  - unfold dropped; kfields. rewrite (ca_timer _ _ _ _ _ C). unfold pre_timer. by rewrite Hper.
  - by apply (list_of_soft soft tm).
  - intros l Hl. rewrite (dropped_list k n tm rows k2 l C Hl). by apply (ca_not _ _ _ _ _ C).
  - exists k'. split; [done|]. by apply (restarted_round k n tm rows k2).
Qed.

Lemma round_user k n rows tm :
  expiry_inv k -> qget (k_tmq k) (timers_of soft) = TmUser n :: rows -> due (k_timers k) (TmUser n) ->
  k_timers k !! TmUser n = Some tm -> exists k', round_done (TmUser n) k k' /\ round (TmUser n) k k'.
Proof using TimerCallbacks0 Observed0.
  intros H Hq Hdue Htm. destruct (called_spec k n rows tm H Hq Hdue Htm) as (k1 & k2 & E1 & E2 & C).
  set (k3 := dropped n k2).
  assert (forall k', timer_check_post (TmUser n) (local_of soft) k2 = Some (tt, k') -> round_done (TmUser n) k k') as Hdone.
  { intros k' E. exists k1, k2. split; [done|]. split; [done|]. split; [apply C|done]. }
  assert (timer_check_post (TmUser n) (local_of soft) k2 =
    when (periodic tm && activated (pre_timer tm)) (clear_activated (TmUser n);; rt_timer_start (TmUser n);; mret tt) k3) as Ep.
  { unfold timer_check_post. mrun. unfold rt_list_isempty. rewrite (ca_local _ _ _ _ _ C). cbv beta iota. fold (dropped n k2) k3.
    rewrite (get_timer_eq _ k3 (pre_timer tm)) by apply C.
    destruct (pre_timer_fields tm) as (_ & _ & P). by rewrite <- P. }
  destruct (periodic tm) eqn:Hper; simpl in Ep.
  - destruct (called_restart k n tm rows k2 H Hq Hdue Htm Hper C) as (k' & E & R). exists k'. split; [|done].
    apply Hdone. rewrite Ep. unfold pre_timer. rewrite Hper.
    destruct (ti_on k (ko_timer k (ci_ok k H)) _ (TmUser n) (timers_of_global soft)) as (tm' & ? & _ & Ha & _);
      [rewrite Hq; by left|]. assert (tm' = tm) as -> by congruence. by rewrite Ha.
  - exists k3. split; [by apply Hdone|]. by apply (called_drop k n tm rows k2).
Qed.

Lemma round_spec k t rows tm :
  expiry_inv k -> qget (k_tmq k) (timers_of soft) = t :: rows -> due (k_timers k) t ->
  k_timers k !! t = Some tm -> exists k', round_done t k k' /\ round t k k'.
Proof using TimerCallbacks0 Observed0.
  intros H Hq Hdue Htm. destruct t as [t|n]; [by eapply round_thread|by eapply round_user].
Qed.

Lemma progress_trans k1 k2 k3 : progress k1 k2 -> progress k2 k3 -> progress k1 k3.
Proof using.
  intros [T1 A1 L1 U1 O1] [T2 A2 L2 U2 O2]. constructor.
  - intros t th Ht. destruct (T1 t th Ht) as (th2 & Ht2 & B1 & N1).
    destruct (T2 t th2 Ht2) as (th3 & Ht3 & B2 & N2). exists th3. split; [done|].
    split; [|auto]. intros Hb. destruct (B1 Hb) as [->|Hn]; [by apply B2|right; auto].
  - intros t Ht. destruct (A1 t Ht) as [[Hi E]|(th & Hth & Hn)].
    + destruct (A2 t Hi) as [[Hi2 E2]|?]; [left|by right]. split; [done|congruence].
    + right. destruct (T2 t th Hth) as (th' & ? & _ & N). exists th'. auto.
  - intros t Hnone Ht Hd. destruct (L1 t Hnone Ht Hd) as [Hi E]. destruct (L2 t) as [? E2]; [|done| |].
    + intros n Hn Hdn. destruct (decide (TmUser n ∈ qget (k_tmq k1) (timers_of soft))) as [H1|H1].
      * destruct (U1 n H1) as [[_ E1]|[Hd1 _]]; apply (Hnone n H1); [|done]. unfold due, timeout_of in *. by rewrite <- E1.
      * by destruct (O1 n H1) as [? _].
    + unfold due, timeout_of in *. by rewrite E.
    + split; [done|congruence].
  - intros n Hn. destruct (U1 n Hn) as [[Hi E]|[Hd (tm & Htm & Sv)]].
    + destruct (U2 n Hi) as [[? E2]|[Hd (tm & Htm & Sv)]]; [left; split; [done|congruence]|right].
      split; [unfold due, timeout_of in *; by rewrite <- E|]. exists tm. by rewrite <- E.
    + right. split; [done|]. exists tm. split; [done|]. unfold user_served in *. destruct (periodic tm).
      * destruct Sv as (Hi & Hn2 & E). destruct (U2 n Hi) as [[Hi2 E2]|[? _]]; [|done].
        split; [done|]. split; [|congruence]. unfold due, timeout_of in *. by rewrite E2.
      * destruct Sv as (Hi & E). destruct (O2 n Hi) as [Hi2 E2]. split; [done|congruence].
  - intros n Hn. destruct (O1 n Hn) as [Hi E]. destruct (O2 n Hi) as [? E2]. split; [done|congruence].
Qed.

(** What both expiry loops are: they end at the first timer that is not
    due, and do a round otherwise. *)
Record expiry_loop (loop : nat -> M unit) : Prop := ExpiryLoop {
  el_empty n k : k_tick k = now -> qget (k_tmq k) (timers_of soft) = [] -> loop (S n) k = Some (tt, k);
  el_stop n k t rows tm : k_tick k = now -> qget (k_tmq k) (timers_of soft) = t :: rows ->
    k_timers k !! t = Some tm -> (u32 (now - tm_timeout_tick tm) <? RT_TICK_MAX / 2) = false ->
    loop (S n) k = Some (tt, k);
  el_round n k t rows tm k' : k_tick k = now -> qget (k_tmq k) (timers_of soft) = t :: rows ->
    k_timers k !! t = Some tm -> (u32 (now - tm_timeout_tick tm) <? RT_TICK_MAX / 2) = true ->
    round_done t k k' -> loop (S n) k = loop n k'
}.

Lemma check_loop_spec loop fuel k :
  expiry_loop loop -> expiry_inv k -> (ndue k < fuel)%nat ->
  exists k', loop fuel k = Some (tt, k') /\ expiry_inv k' /\ progress k k' /\
    (forall m, m ∈ qget (k_tmq k') (timers_of soft) -> ~ due (k_timers k') m) /\
    g k' = fold_left (fun o n => step n o) (due_users k) (g k).
Proof using TimerCallbacks0 Observed0.
  intros L. revert k. induction fuel as [|fuel IH]; intros k H Hf; [lia|].
  assert (progress k k) as Prefl.
  { constructor; try auto. intros t th Ht. exists th. auto. }
  pose proof (ci_tick k H) as Htk. destruct (qget (k_tmq k) (timers_of soft)) as [|t rows] eqn:Hq.
  { exists k. split; [by apply L|]. split_and!; try done; [intros m Hm; rewrite Hq in Hm; by apply elem_of_nil in Hm|].
    unfold due_users. by rewrite Hq. }
  assert (t ∈ qget (k_tmq k) (timers_of soft)) as Hin by (rewrite Hq; by left).
  destruct (ti_on k (ko_timer k (ci_ok k H)) _ t (timers_of_global soft) Hin) as (tm & Htm & _).
  pose proof (due_test k t tm H Hin Htm) as Ht. case_bool_decide as Hd.
  - destruct (round_spec k t rows tm H Hq Hd Htm) as (k2 & E2 & R).
    pose proof (round_ndue t k k2 Hin Hd R H) as Hlt.
    destruct (IH k2 (ro_inv _ _ _ R)) as (k' & E & H' & P & Hn & Eg); [lia|]. exists k'. split_and!; try done.
    + by rewrite (el_round loop L fuel k t rows tm k2).
    + by apply (progress_trans k k2); [apply R|].
    + destruct (ro_calls _ _ _ R) as (ns & -> & E1). by rewrite fold_left_app, <- E1.
  - pose proof (due_head k t rows H Hq Hd) as Hn. exists k. split; [by apply (el_stop loop L fuel k t rows tm)|].
    split_and!; try done. by rewrite due_users_none.
Qed.
End check.

(** Of the list of the tick. *)
Notation check_inv := (expiry_inv false).

Lemma timer_check_is_loop f now : expiry_loop f false now (fun fuel => timer_check_loop f fuel now).
Proof.
  constructor; intros n k.
  - intros _ Hq. simpl. mrun. simpl in Hq. by rewrite Hq.
  - intros t rows tm _ Hq Htm Hd. simpl. mrun. simpl in Hq. by rewrite Hq, (get_timer_eq t k tm), Hd.
  - intros t rows tm k' _ Hq Htm Hd (k1 & k2 & E1 & E2 & Et & E3). simpl. mrun. simpl in *.
    rewrite Hq, (get_timer_eq t k tm), Hd by done. unfold rt_tick_get. mrun.
    unfold serve in E2. by rewrite E1, E2, Et, E3.
Qed.

(** A loop that starts with nothing being served. *)
Lemma expiry_check_spec f `{!TimerCallbacks f} {O} (g : kstate -> O) step `{!Observed f g step} soft b now loop fuel k :
  expiry_loop f soft now loop -> expiry_inv soft b now k ->
  (length (qget (k_tmq k) (timers_of soft)) < fuel)%nat ->
  exists k', (modify_tmq (fun m => <[local_of soft := []]> m);; loop fuel) k = Some (tt, k') /\
    expiry_inv soft b now k' /\
    (forall m, m ∈ qget (k_tmq k') (timers_of soft) -> ~ due b now (k_timers k') m) /\
    progress soft b now k k' /\ g k' = fold_left (fun o n => step n o) (due_users soft b now k) (g k).
Proof.
  intros L H Hf. set (k0 := set_k_tmq (<[local_of soft := []]> (k_tmq k)) k).
  assert (forall l, is_global l -> qget (<[local_of soft := []]> (k_tmq k)) l = qget (k_tmq k) l) as Hg.
  { intros l Hl. rewrite qget_insert, decide_False; [done|]. by apply local_not_global. }
  assert (qget (k_tmq k0) (timers_of soft) = qget (k_tmq k) (timers_of soft)) as Hq by apply Hg, timers_of_global.
  assert (expiry_inv soft b now k0) as H0.
  { destruct H as [Hok Hc Ht Hl Hr Hn Hs Hp]. constructor; try done.
    - by apply kernel_ok_tmq.
    - unfold k0; kfields. by rewrite qget_insert, decide_True.
    - by rewrite Hq.
    - intros m tm. rewrite Hq. apply Hp. }
  destruct (check_loop_spec f soft b now g step loop fuel k0 L H0) as (k' & E & H' & [P1 P2 P3 P4 P5] & Hn & Eg).
  { unfold ndue. rewrite Hq. eapply Nat.le_lt_trans; [apply length_filter|done]. }
  exists k'. do 3 (split; [done|]). split; [by constructor; rewrite <- ?Hq|].
  unfold due_users in *. by rewrite <- Hq, Eg, (obs_obj f g step k k0).
Qed.

(** The expiry loop from [rt_timer_check] on. *)
Lemma timer_check_spec f `{!TimerCallbacks f} {O} (g : kstate -> O) step `{!Observed f g step} b k fuel now :
  check_inv b now k -> (length (qget (k_tmq k) TLHard) < fuel)%nat ->
  exists k', rt_timer_check f fuel k = Some (tt, k') /\ check_inv b now k' /\
    (forall m, m ∈ qget (k_tmq k') TLHard -> ~ due b now (k_timers k') m) /\
    progress false b now k k' /\ g k' = fold_left (fun o n => step n o) (due_users false b now k) (g k).
Proof.
  intros H Hf. destruct (expiry_check_spec f g step false b now _ fuel k (timer_check_is_loop f now) H Hf)
    as (k' & E & H' & Hn & P & Eg).
  exists k'. unfold rt_timer_check, rt_tick_get. mrun. rewrite (ci_tick _ _ _ _ H). done.
Qed.

(** What has become of the timers when no timer on the list is due any more: a
    timer of the application was due and has been served, or is as it was. *)
Lemma progress_user soft b now k k' n :
  progress soft b now k k' -> (forall m, m ∈ qget (k_tmq k') (timers_of soft) -> ~ due b now (k_timers k') m) ->
  TmUser n ∈ qget (k_tmq k) (timers_of soft) ->
  if decide (due b now (k_timers k) (TmUser n))
  then exists tm, k_timers k !! TmUser n = Some tm /\ user_served soft b now n tm k'
  else TmUser n ∈ qget (k_tmq k') (timers_of soft) /\ k_timers k' !! TmUser n = k_timers k !! TmUser n.
Proof.
  intros P Hn Hi. destruct (pr_user _ _ _ _ _ P n Hi) as [[Hi' E]|[Hd Sv]].
  - rewrite decide_False; [done|]. specialize (Hn _ Hi'). unfold due, timeout_of in *. by rewrite <- E.
  - by rewrite decide_True.
Qed.

(** A thread whose timer was due can run; a timer of a thread that was not due is as
    it was, or the thread can run. *)
Lemma progress_thread soft b now k k' t :
  progress soft b now k k' -> (forall m, m ∈ qget (k_tmq k') (timers_of soft) -> ~ due b now (k_timers k') m) ->
  TmThread t ∈ qget (k_tmq k) (timers_of soft) ->
  (~ due b now (k_timers k) (TmThread t) /\ TmThread t ∈ qget (k_tmq k') (timers_of soft) /\
   k_timers k' !! TmThread t = k_timers k !! TmThread t) \/
  exists th, k_threads k' !! t = Some th /\ ~ blocked th.
Proof.
  intros P Hn Ht. destruct (pr_armed _ _ _ _ _ P t Ht) as [[Hi Et]|?]; [left|by right].
  split; [|done]. specialize (Hn _ Hi). unfold due, timeout_of in *. by rewrite <- Et.
Qed.

(** C2: the expiry of timers in the tick interrupt, [rt_timer_check]. The timer
    list is sorted, its timers expire within half the tick range of a base [b],
    and a periodic timer has a period that is not zero. Then the loop ends (one
    round per due timer and one more are enough), whatever the callbacks of
    the application do within their contract; afterwards no timer on the list
    is due, the list is again in order and the kernel invariant holds; every
    thread whose timer was due can run; a timer of a thread that was not due
    still runs, unless a callback has woken the thread; and an application's
    timer that was not due is as it was. *)
Theorem timer_check_correct f `{!TimerCallbacks f} b k fuel :
  check_inv b (k_tick k) k -> (length (qget (k_tmq k) TLHard) < fuel)%nat ->
  exists k', rt_timer_check f fuel k = Some (tt, k') /\ check_inv b (k_tick k) k' /\
    (forall m tm, m ∈ qget (k_tmq k') TLHard -> k_timers k' !! m = Some tm ->
       RT_TICK_MAX / 2 <= u32 (k_tick k - tm_timeout_tick tm)) /\
    (forall t, TmThread t ∈ qget (k_tmq k) TLHard ->
       (~ due b (k_tick k) (k_timers k) (TmThread t) /\ TmThread t ∈ qget (k_tmq k') TLHard /\
        k_timers k' !! TmThread t = k_timers k !! TmThread t) \/
       exists th, k_threads k' !! t = Some th /\ ~ blocked th) /\
    (forall n, TmUser n ∈ qget (k_tmq k) TLHard -> ~ due b (k_tick k) (k_timers k) (TmUser n) ->
       TmUser n ∈ qget (k_tmq k') TLHard /\ k_timers k' !! TmUser n = k_timers k !! TmUser n).
Proof.
  intros H Hf. destruct (timer_check_spec f (fun _ => tt) (fun _ _ => tt) b k fuel (k_tick k) H Hf)
    as (k' & E & H' & Hn & P & _).
  exists k'. split; [done|]. split; [done|]. split; [|split].
  - intros m tm Hm Htm. specialize (Hn m Hm). apply (diff_cmp b); [apply H'| |].
    + pose proof (ci_rows _ _ _ _ H') as [Hfa _]. rewrite Forall_forall in Hfa. specialize (Hfa m Hm).
      by rewrite (timeout_of_eq _ _ _ Htm) in Hfa.
    + unfold due in Hn. rewrite (timeout_of_eq _ _ _ Htm) in Hn. lia.
  - intros t Ht. by apply (progress_thread false b (k_tick k)).
  - intros n Hi Hd. pose proof (progress_user false b (k_tick k) k k' n P Hn Hi) as Hu. by rewrite decide_False in Hu.
Qed.

(** ** Sleeping *)

Lemma sleep_spec k c th tick :
  kernel_ok k -> k_current k = Some c -> k_threads k !! c = Some th ->
  stat_of th = RT_THREAD_RUNNING -> k_lock_nest k = 0 -> tick < RT_TICK_MAX / 2 ->
  exists k', rt_thread_sleep tick k = Some (Wait tt, k') /\ kernel_ok k' /\ highest_running k' /\
    k_threads k' !! c = Some (with_stat RT_THREAD_SUSPEND (set_th_error RT_EOK th)) /\
    TmThread c ∈ qget (k_tmq k') TLHard /\
    timeout_of (k_timers k') (TmThread c) = u32 (k_tick k + tick) /\
    forall k2, kernel_ok k2 -> is_Some (k_current k2) -> k_threads k2 !! c = k_threads k' !! c ->
      (forall l, is_global l -> TmThread c ∉ qget (k_tmq k2) l) ->
      exists k3 th' k4, _thread_timeout c k2 = Some (tt, k3) /\ kernel_ok k3 /\
        k_threads k3 !! c = Some th' /\ ~ blocked th' /\ rt_thread_sleep_return c k3 = Some (RT_EOK, k4).
Proof.
  intros Hok Hc Hth Hr Hl Ht. set (th0 := set_th_error RT_EOK th).
  set (k0 := thread_st c th0 k).
  assert (kernel_ok k0) as Hok0 by (by apply (thread_st_same c th)).
  destruct (suspend_spec c th0 k0 Hok0 Hc ltac:(apply thread_st_lookup) Hr) as (k1 & E1 & Su).
  set (th1 := with_stat RT_THREAD_SUSPEND th0).
  assert (stat_of th1 = RT_THREAD_SUSPEND) as Hs1 by apply stat_with_stat.
  assert (blocked th1) as Hbl by (unfold blocked; by rewrite Hs1).
  assert (k_threads k1 !! c = Some th1) as Hth1.
  { rewrite (su_threads _ _ _ _ Su). apply lookup_insert_eq. }
  destruct (start_thread_timer_spec c th1 tick k1 (su_ok _ _ _ _ Su) Hth1 Hs1 Ht) as (k2 & E2 & A).
  destruct (schedule_kernel k2 (ar_ok _ _ _ _ A)) as (k' & Es & Hok' & F & Hc' & Hh).
  { rewrite (ar_current _ _ _ _ A), (su_current _ _ _ _ Su). eauto. }
  destruct (sched_frame_fields _ _ F) as (Ftm & Ftmq & _).
  assert (stat_of th <> RT_THREAD_CLOSE) as Hnc by (by rewrite Hr).
  destruct (ti_thread k (ko_timer k Hok) c th Hth Hnc) as (Hty & _).
  assert (k_threads k' !! c = Some th1) as Hth'.
  { destruct (sf_thread _ _ F c th1) as (s & Hs & Hb & _).
    - by rewrite (ar_threads _ _ _ _ A).
    - by rewrite Hb in Hs. }
  exists k'. split.
  { unfold rt_thread_sleep. mrun. rewrite (current_thread_eq k c), (assert_thread_type k c th) by done.
    rewrite (upd_thread_eq c _ k th) by done. fold th0 k0. by rewrite E1, E2, Es. }
  split; [done|]. split.
  { apply Hh. by rewrite (of_lock _ _ (ar_frame _ _ _ _ A)), (of_lock _ _ (su_frame _ _ _ _ Su)). }
  split; [done|]. split; [rewrite Ftmq; apply A|]. split.
  { destruct (ar_timer _ _ _ _ A) as (tm & Htm & Ht' & _). rewrite Ftm, (timeout_of_eq _ _ _ Htm), Ht'.
    by rewrite (of_tick _ _ (su_frame _ _ _ _ Su)). }
  intros k3 Hok3 Hc3 Hth3 Hun. rewrite Hth' in Hth3.
  destruct (timeout_spec c th1 k3 Hok3 Hc3 Hth3 Hs1 Hun) as (k5 & k4 & E4 & W & _ & Hok4 & F6 & _).
  destruct (runnable_woken _ _ _ _ _ W F6) as (s & Hth4 & Hnb).
  exists k4, (set_th_stat s (set_th_error (- RT_ETIMEOUT) th1)). eexists. do 4 (split; [done|]).
  unfold rt_thread_sleep_return. mrun. rewrite (get_thread_eq c k4 _ Hth4).
  change (th_error _ =? - RT_ETIMEOUT) with true. cbv iota.
  rewrite (upd_thread_eq c _ k4 _ Hth4). by rewrite (get_thread_eq c _ _ (thread_st_lookup c _ k4)).
Qed.

(** The thread [c] sleeps for [n] ticks from [k] on: it is suspended with its timer
    set, the best ready thread has the processor, and if the timer expires while the
    thread is still suspended, the expiry makes the thread runnable, and
    its call returns [RT_EOK]. *)
Definition sleeps (c : nat) (th : rt_thread) (n : Z) (k : kstate) (call : M (outcome unit)) : Prop :=
  exists k', call k = Some (Wait tt, k') /\ kernel_ok k' /\ highest_running k' /\
    k_threads k' !! c = Some (with_stat RT_THREAD_SUSPEND (set_th_error RT_EOK th)) /\
    TmThread c ∈ qget (k_tmq k') TLHard /\
    timeout_of (k_timers k') (TmThread c) = u32 (k_tick k + n) /\
    forall k2, kernel_ok k2 -> is_Some (k_current k2) -> k_threads k2 !! c = k_threads k' !! c ->
      (forall l, is_global l -> TmThread c ∉ qget (k_tmq k2) l) ->
      exists k3 th' k4, _thread_timeout c k2 = Some (tt, k3) /\ kernel_ok k3 /\
        k_threads k3 !! c = Some th' /\ ~ blocked th' /\ rt_thread_sleep_return c k3 = Some (RT_EOK, k4).

(** C39: [rt_thread_sleep], [rt_thread_delay] and [rt_thread_mdelay] suspend
    the caller with its timer set to expire that many ticks from now (less than half
    the range of the tick), and the best ready thread gets the processor;
    [rt_thread_mdelay] of a time that is not negative waits the least number
    of ticks that is not shorter than its milliseconds. When the timer expires,
    its handler [_thread_timeout] succeeds, the thread can run again, and its call
    returns [RT_EOK]. *)
Theorem sleep_correct k c th :
  kernel_ok k -> k_current k = Some c -> k_threads k !! c = Some th ->
  stat_of th = RT_THREAD_RUNNING -> k_lock_nest k = 0 ->
  (forall tick, tick < RT_TICK_MAX / 2 ->
     sleeps c th tick k (rt_thread_sleep tick) /\ sleeps c th tick k (rt_thread_delay tick)) /\
  (forall ms, 0 <= ms < 2 ^ 31 ->
     exists n, ms * RT_TICK_PER_SECOND <= n * 1000 < ms * RT_TICK_PER_SECOND + 1000 /\
       sleeps c th n k (rt_thread_mdelay ms)).
Proof.
  intros Hok Hc Hth Hr Hl. split.
  - intros tick Ht. split; by apply sleep_spec.
  - intros ms Hms. exists ((ms + 9) / 10). split; [unfold RT_TICK_PER_SECOND; dlia|].
    unfold rt_thread_mdelay. rewrite tick_from_millisecond_eq by done.
    apply sleep_spec; try done. unfold RT_TICK_MAX. dlia.
Qed.

(** ** Concrete timers *)

(** Main sleeps for three ticks; the application's timer 7 has period 3; the
    tick has reached both expiries. *)
Definition timer_demo : kstate :=
  after (rt_timer_init (TmUser 7) [116] 3 RT_TIMER_FLAG_PERIODIC;; rt_timer_start (TmUser 7);;
         rt_thread_sleep 3;; rt_tick_set 3) demo_state.

Definition timer_at (m : tmid) (k : kstate) : rt_timer := default raw_timer (k_timers k !! m).

Lemma timer_demo_rows : rows_ok 3 (k_timers timer_demo) (qget (k_tmq timer_demo) TLHard).
Proof.
  replace (qget (k_tmq timer_demo) TLHard) with [TmUser 7; TmThread 0] by (vm_compute; reflexivity).
  split; [repeat constructor|]; repeat constructor; vm_compute; congruence.
Qed.

Lemma timer_start_correct_witness :
  exists k', rt_timer_start (TmUser 7) timer_demo = Some (RT_EOK, k') /\
    rows_ok 3 (k_timers k') (qget (k_tmq k') TLHard).
Proof.
  destruct (timer_start_correct 3 timer_demo (TmUser 7) (timer_at (TmUser 7) timer_demo))
    as (k' & l1 & l2 & E & _ & _ & H & _).
  - apply kernel_check_sound. vm_compute. reflexivity.
  - vm_compute. reflexivity.
  - vm_compute. reflexivity.
  - vm_compute. reflexivity.
  - apply timer_demo_rows.
  - vm_compute. reflexivity.
  - exists k'. split; assumption.
Defined.

Lemma timer_demo_inv : check_inv 3 (k_tick timer_demo) timer_demo.
Proof.
  constructor.
  - apply kernel_check_sound. vm_compute. reflexivity.
  - vm_compute. eauto.
  - reflexivity.
  - vm_compute. reflexivity.
  - apply timer_demo_rows.
  - vm_compute. reflexivity.
  - discriminate.
  - intros m tm Hm. unfold timers_of in Hm. replace (qget (k_tmq timer_demo) TLHard) with [TmUser 7; TmThread 0] in Hm
      by (vm_compute; reflexivity).
    apply elem_of_cons in Hm as [->|Hm%list_elem_of_singleton]; [|subst m]; intros Htm Hp.
    + vm_compute in Htm. injection Htm as <-. vm_compute. done.
    + vm_compute in Htm. injection Htm as <-. vm_compute in Hp. discriminate.
Qed.

Lemma timer_check_correct_witness :
  due 3 (k_tick timer_demo) (k_timers timer_demo) (TmThread 0) /\
  exists k', rt_timer_check (fun _ => mret tt) 3 timer_demo = Some (tt, k') /\
    check_inv 3 (k_tick timer_demo) k' /\
    exists th, k_threads k' !! 0%nat = Some th /\ ~ blocked th.
Proof.
  assert (due 3 (k_tick timer_demo) (k_timers timer_demo) (TmThread 0)) as Hdue
    by (vm_compute; congruence).
  split; [exact Hdue|].
  destruct (timer_check_correct (fun _ => mret tt) 3 timer_demo 3) as (k' & E & H & _ & Ht & _).
  - apply timer_demo_inv.
  - vm_compute. lia.
  - exists k'. split; [exact E|]. split; [exact H|].
    destruct (Ht 0%nat) as [[Hn _]|Hr]; [|contradiction|exact Hr].
    replace (qget (k_tmq timer_demo) TLHard) with [TmUser 7; TmThread 0] by (vm_compute; reflexivity).
    right. left.
Defined.

Lemma sleep_correct_witness :
  exists k', rt_thread_mdelay 25 demo_state = Some (Wait tt, k') /\
    timeout_of (k_timers k') (TmThread 0) = u32 (k_tick demo_state + 3).
Proof.
  destruct (sleep_correct demo_state 0 (thread_at 0 demo_state)) as [_ H].
  - apply demo_ok.
  - vm_compute. reflexivity.
  - vm_compute. reflexivity.
  - vm_compute. reflexivity.
  - vm_compute. reflexivity.
  - destruct (H 25) as (n & Hn & k' & E & _ & _ & _ & _ & Et & _); [lia|].
    assert (n = 3) as -> by (unfold RT_TICK_PER_SECOND in Hn; lia).
    exists k'. split; assumption.
Defined.
