(* ===== verification/SoftTimer.v ===== *)
(** * The timer thread

    [_timer_thread_entry] of timer.c, the thread that serves the soft timers:
    how long it waits, and what it has done after it. *)
From S2P Require Import Prelude Kservice Kernel Sched Object Timer Thread KernelInv Boot TimerSpec.







Section server.
Context (f : nat -> M unit) `{!TimerCallbacks f} {O : Type} (g : kstate -> O) (step : nat -> O -> O) `{!Observed f g step} (b : Z) (k : kstate) (c : nat) (th : rt_thread).
Context (Hinv : expiry_inv true b (k_tick k) k) (Hc : k_current k = Some c) (Hth : k_threads k !! c = Some th).
Context (Hr : stat_of th = RT_THREAD_RUNNING) (Hlock : k_lock_nest k = 0).





End server.


(** ** A callback that counts *)

(** The application counts in the value of the semaphore of the same number. *)
Definition counted (sem : rt_semaphore) : rt_semaphore := RtSemaphore (sem_parent sem) (u16 (sem_value sem + 1)).
Definition counting (n : nat) : M unit := modify (fun k => set_k_sems (alter counted n (k_sems k)) k).

#[export] Instance counting_ok : TimerCallbacks counting.
Proof.
  intros n k Hok Hc. eexists. split; [reflexivity|]. split; [|split; [done|]].
  - destruct Hok as [Hs Ht]. constructor; [by apply (sched_ok_ext k)|by destruct Ht].
  - constructor; try done. intros t th Ht. exists th. auto.
Qed.

#[export] Instance counting_observed : Observed counting k_sems (fun n sems => alter counted n sems).
Proof. constructor; [by intros n k k' _ [= <-]|]. intros k k' F. apply (of_sems _ _ F). Qed.

(** ** A periodic soft timer *)





