(* ===== verification/Tick.v ===== *)
(** * The tick interrupt

    [rt_tick_increase] as a whole: the tick, the time slice of the running
    thread, and the timers. *)
From S2P Require Import Prelude Kservice Kernel Sched Object Timer Thread KernelInv Boot SchedSpec TimerSpec.







(** ** The third tick of [timer_demo] *)



