(* ===== verification/Ipc.v ===== *)
(** * Waiting on a kernel object

    The part of [src/ipc.c] all the blocking objects share: the list of
    waiting threads, how a thread is put on it and taken off it. *)
From S2P Require Import Prelude Kservice Kernel Sched Object Timer Thread KernelInv.

Definition _ipc_object_init (q : waitq) : M Z :=
  modify_tq (fun m => <[q := []]> m);; mret RT_EOK.

(** Before the first waiting thread of lower priority. *)
Fixpoint prio_insert (threads : gmap nat rt_thread) (thread : nat) (priority : Z)
    (l : list nat) : option (list nat) :=
  match l with
  | [] => Some [thread]
  | sthread :: l' =>
      match threads !! sthread with
      | None => None
      | Some sth =>
          if priority <? th_current_priority sth then Some (thread :: l)
          else cons sthread <$> prio_insert threads thread priority l'
      end
  end.

Definition _ipc_list_suspend (list : waitq) (thread : nat) (flag : Z) : M Z :=
  rt_thread_suspend thread;;
  (if flag =? RT_IPC_FLAG_FIFO then modify_tq (rt_list_insert_before list thread)
   else if flag =? RT_IPC_FLAG_PRIO then
     th ← get_thread thread;
     l ← gets (fun k =>
       prio_insert (k_threads k) thread (th_current_priority th) (qget (k_tq k) list));
     l ← deref l;
     modify_tq (fun m => <[list := l]> m)
   else rt_assert false);;
  mret RT_EOK.

Definition list_first (list : waitq) : M nat :=
  l ← gets (fun k => qget (k_tq k) list); deref (head l).

Definition _ipc_list_resume (list : waitq) : M Z :=
  thread ← list_first list;
  rt_thread_resume thread;;
  mret RT_EOK.

Fixpoint resume_all_loop (fuel : nat) (list : waitq) : M unit :=
  match fuel with
  | O => fun _ => None
  | S fuel =>
      empty ← gets (fun k => rt_list_isempty list (k_tq k));
      if (empty : bool) then mret tt
      else
        thread ← list_first list;
        upd_thread thread (set_th_error (- RT_ERROR));;
        rt_thread_resume thread;;
        resume_all_loop fuel list
  end.

(** Each round takes the first thread off the list; a round that does not
    leaves everything as it is and the loop does not end, so one round per
    thread and the last test are enough. *)
Definition _ipc_list_resume_all (list : waitq) : M Z :=
  n ← gets (fun k => length (qget (k_tq k) list));
  resume_all_loop (S n) list;;
  mret RT_EOK.

(** How a send or a receive ends: the first thread of a list is woken, if
    there is one. *)
Definition wake_waiter (list : waitq) : M Z :=
  empty ← gets (fun k => rt_list_isempty list (k_tq k));
  if negb empty then _ipc_list_resume list;; rt_schedule;; mret RT_EOK
  else mret RT_EOK.

(** [rt_thread_self()->error = e]. *)
Definition set_error (thread : nat) (e : Z) : M unit := upd_thread thread (set_th_error e).

(** How every blocking call suspends its thread: on the list, with the timer
    armed if the timeout is finite, and then the scheduler. *)
Definition block_on (list : waitq) (thread : nat) (flag timeout : Z) : M unit :=
  _ipc_list_suspend list thread flag;;
  when (0 <? timeout) (start_thread_timer thread timeout);;
  rt_schedule.

(** The same in the loops of the mailbox and the message queue, which note the
    tick of a timed wait in [tick_delta] ... *)
Definition block_on_since (list : waitq) (thread : nat) (flag timeout tick_delta : Z) : M Z :=
  _ipc_list_suspend list thread flag;;
  tick_delta ← (if 0 <? timeout then
                  now ← rt_tick_get; start_thread_timer thread timeout;; mret now
                else mret tick_delta);
  rt_schedule;;
  mret tick_delta.

(** ... and what is left of [timeout] when the thread runs again:
    [timeout -= tick_delta] is computed in unsigned 32-bit arithmetic. *)
Definition remaining_timeout (timeout tick_delta : Z) : M (Z * Z) :=
  if 0 <? timeout then
    now ← rt_tick_get;
    let tick_delta := u32 (now - tick_delta) in
    let timeout := s32 (u32 (timeout - tick_delta)) in
    mret (if timeout <? 0 then 0 else timeout, tick_delta)
  else mret (timeout, tick_delta).

Definition valid_flag (flag : Z) : bool :=
  (flag =? RT_IPC_FLAG_FIFO) || (flag =? RT_IPC_FLAG_PRIO).

(** [sem->parent.parent.flag = flag]. *)
Definition set_flag (object : oid) (flag : Z) : M unit :=
  h ← get_hdr object; put_hdr object (set_o_flag flag h).
Definition get_flag (object : oid) : M Z := h ← get_hdr object; mret (o_flag h).

(** The three assertions and the resumption that open [rt_*_detach] and
    [rt_*_delete]; the latter are for objects from the heap. *)
Definition assert_system (object : oid) (expect : bool) : M unit :=
  system ← rt_object_is_systemobject object;
  rt_assert (eqb (system : bool) expect).

(** ** What blocking does *)

(** The place of a thread of priority [p] in a list that is kept in the order
    [flag] asks for. *)
Definition queue_place (flag p : Z) (threads : gmap nat rt_thread) (l1 l2 : list nat) : Prop :=
  (flag = RT_IPC_FLAG_FIFO -> l2 = []) /\
  (flag = RT_IPC_FLAG_PRIO ->
     (forall x th, x ∈ l1 -> threads !! x = Some th -> th_current_priority th <= p) /\
     (forall x th, head l2 = Some x -> threads !! x = Some th -> p < th_current_priority th)).

Lemma prio_insert_spec threads t p l :
  (forall x, x ∈ l -> is_Some (threads !! x)) ->
  exists l1 l2, l = l1 ++ l2 /\ prio_insert threads t p l = Some (l1 ++ t :: l2) /\
    (forall x th, x ∈ l1 -> threads !! x = Some th -> th_current_priority th <= p) /\
    (forall x th, head l2 = Some x -> threads !! x = Some th -> p < th_current_priority th).
Proof.
  induction l as [|x l IH]; intros Hall.
  - exists [], []. split_and!; [done|done|intros y th Hy; by apply elem_of_nil in Hy|done].
  - destruct (Hall x) as [thx Hx]; [by left|].
    destruct IH as (l1 & l2 & -> & E & H1 & H2); [intros y Hy; apply Hall; by right|].
    simpl. rewrite Hx, E. simpl. destruct (Z.ltb_spec p (th_current_priority thx)) as [Hlt|Hge].
    + exists [], (x :: l1 ++ l2). split_and!; [done|done|intros y th Hy; by apply elem_of_nil in Hy|].
      intros y th [= <-] Hy. by assert (th = thx) as -> by congruence.
    + exists (x :: l1), l2. split_and!; try done.
      intros y th Hy Hyt. apply elem_of_cons in Hy as [->|Hy]; [|eauto].
      by assert (th = thx) as -> by congruence.
Qed.

(** A thread [th] that a call of the scheduler may have dispatched or
    preempted, but not woken or ended. *)
Definition rescheduled (k : kstate) (t : nat) (th : rt_thread) : Prop :=
  exists s, k_threads k !! t = Some (set_th_stat s th) /\
    (blocked th -> set_th_stat s th = th) /\ (~ blocked th -> ~ blocked (set_th_stat s th)).

Lemma rescheduled_open k t th :
  rescheduled k t th -> stat_of th <> RT_THREAD_CLOSE ->
  exists th', k_threads k !! t = Some th' /\ stat_of th' <> RT_THREAD_CLOSE /\
    th_current_priority th' = th_current_priority th.
Proof.
  intros (s & Ht & Hb & Hn) Hc. exists (set_th_stat s th). split; [done|]. split; [|done].
  intros Hc'. assert (~ blocked th) as Hnb by (intros Hbl; rewrite (Hb Hbl) in Hc'; done).
  apply (Hn Hnb). unfold blocked. by rewrite Hc'.
Qed.

(** The running thread [c] after it has been put on the list [q] and the
    scheduler has been called. *)
Record blocked_on (q : waitq) (c : nat) (th : rt_thread) (flag timeout : Z)
    (k k' : kstate) : Prop := BlockedOn {
  bo_ok : kernel_ok k';
  bo_frame : obj_frame k k';
  bo_current : is_Some (k_current k');
  bo_highest : k_lock_nest k = 0 -> highest_running k';
  bo_thread : k_threads k' !! c = Some (with_stat RT_THREAD_SUSPEND th);
  bo_other t tht : t <> c -> k_threads k !! t = Some tht -> rescheduled k' t tht;
  bo_queue : exists l1 l2, qget (k_tq k) q = l1 ++ l2 /\ qget (k_tq k') q = l1 ++ c :: l2 /\
    queue_place flag (th_current_priority th) (k_threads k) l1 l2;
  bo_tq q' : q' <> q -> (forall p, q' <> QReady p) -> qget (k_tq k') q' = qget (k_tq k) q';
  bo_timer : 0 < timeout -> TmThread c ∈ qget (k_tmq k') TLHard /\
    exists tm, k_timers k' !! TmThread c = Some tm /\ tm_timeout_tick tm = u32 (k_tick k + timeout);
  bo_no_timer l : timeout <= 0 -> is_global l -> TmThread c ∉ qget (k_tmq k') l;
  bo_timers l x : is_global l -> x <> TmThread c ->
    x ∈ qget (k_tmq k') l <-> x ∈ qget (k_tmq k) l
}.

(** The place in the list, by the priorities that the threads have afterwards. *)
Lemma blocked_on_place q c th flag timeout k k' :
  kernel_ok k -> is_wait q -> k_threads k !! c = Some th -> stat_of th = RT_THREAD_RUNNING ->
  blocked_on q c th flag timeout k k' ->
  exists l1 l2, qget (k_tq k) q = l1 ++ l2 /\ qget (k_tq k') q = l1 ++ c :: l2 /\
    queue_place flag (th_current_priority th) (k_threads k') l1 l2.
Proof.
  intros Hok Hq Hth Hr B. destruct (bo_queue _ _ _ _ _ _ _ B) as (l1 & l2 & E1 & E2 & [P1 P2]).
  exists l1, l2. split; [done|]. split; [done|]. split; [done|]. intros Hf. destruct (P2 Hf) as [H1 H2].
  assert (forall x th', x ∈ l1 ++ l2 -> k_threads k' !! x = Some th' ->
    exists thx, k_threads k !! x = Some thx /\ th_current_priority th' = th_current_priority thx) as Hx.
  { intros x th' Hin Hx'. rewrite <- E1 in Hin.
    destruct (so_wait _ _ (ok_inv _ (ko_sched _ Hok)) q x Hq Hin) as (thx & Hthx & Hs).
    assert (x <> c) as Hne by (intros ->; assert (thx = th) as -> by congruence; by rewrite Hr in Hs).
    destruct (bo_other _ _ _ _ _ _ _ B x thx Hne Hthx) as (s & Hs' & _). exists thx. split; [done|].
    assert (th' = set_th_stat s thx) as -> by congruence. done. }
  split; intros x th' Hin Hx'.
  - destruct (Hx x th') as (thx & ? & ->); [apply elem_of_app; by left|done|]. by apply (H1 x).
  - destruct (Hx x th') as (thx & ? & ->); [|done|by apply (H2 x)].
    apply elem_of_app. right. destruct l2; [done|]. injection Hin as ->. by left.
Qed.

Definition flag_ok (flag : Z) : Prop := flag = RT_IPC_FLAG_FIFO \/ flag = RT_IPC_FLAG_PRIO.

Lemma ipc_suspend_spec q c th flag k :
  kernel_ok k -> is_wait q -> flag_ok flag ->
  k_current k = Some c -> k_threads k !! c = Some th -> stat_of th = RT_THREAD_RUNNING ->
  exists k1 l1 l2, suspended c th k k1 /\ qget (k_tq k) q = l1 ++ l2 /\
    queue_place flag (th_current_priority th) (k_threads k) l1 l2 /\
    _ipc_list_suspend q c flag k =
      Some (RT_EOK, set_k_tq (<[q := l1 ++ c :: l2]> (k_tq k1)) k1) /\
    kernel_ok (set_k_tq (<[q := l1 ++ c :: l2]> (k_tq k1)) k1).
Proof.
  intros Hok Hq Hf Hc Hth Hr. destruct (suspend_spec c th k Hok Hc Hth Hr) as (k1 & E & Su).
  destruct (prio_insert_spec (k_threads k1) c (th_current_priority th) (qget (k_tq k1) q))
    as (p1 & p2 & Hl & Hins & Hb & Ha).
  { intros x Hx. destruct (so_wait _ _ (ok_inv _ (ko_sched _ (su_ok _ _ _ _ Su))) q x Hq Hx)
      as (thx & ? & _). eauto. }
  assert (k_threads k1 !! c = Some (with_stat RT_THREAD_SUSPEND th)) as Hth1.
  { rewrite (su_threads _ _ _ _ Su). apply lookup_insert_eq. }
  assert (forall l1 l2, qget (k_tq k1) q = l1 ++ l2 ->
    kernel_ok (set_k_tq (<[q := l1 ++ c :: l2]> (k_tq k1)) k1)) as Hins_ok.
  { intros l1 l2 Hl'. apply (wait_insert_ok q c (with_stat RT_THREAD_SUSPEND th)); try done.
    - apply Su.
    - apply stat_with_stat.
    - apply Su. }
  pose proof (su_tq _ _ _ _ Su q) as Hq0. unfold _ipc_list_suspend. mrun. rewrite E.
  destruct Hf as [-> | ->]; simpl.
  - exists k1, (qget (k_tq k) q), []. rewrite app_nil_r. split_and!; try done.
    + unfold rt_list_insert_before. by rewrite Hq0.
    + apply Hins_ok. by rewrite app_nil_r.
  - exists k1, p1, p2. rewrite <- Hq0. split_and!; try done.
    + split; [done|]. intros _. split.
      * intros x thx Hx Hxt. apply (Hb x thx Hx). rewrite (su_threads _ _ _ _ Su).
        rewrite lookup_insert_ne; [done|]. intros <-. apply (su_unlisted _ _ _ _ Su q).
        rewrite Hl. apply elem_of_app. by left.
      * intros x thx Hx Hxt. apply (Ha x thx Hx). rewrite (su_threads _ _ _ _ Su).
        rewrite lookup_insert_ne; [done|]. intros <-. apply (su_unlisted _ _ _ _ Su q).
        rewrite Hl. apply elem_of_app. right. destruct p2; [done|]. injection Hx as ->. by left.
    + rewrite (get_thread_eq c k1 (with_stat RT_THREAD_SUSPEND th)) by done. kfields.
      by rewrite Hins.
    + by apply Hins_ok.
Qed.

(** The timer of a suspended thread is started, if the call has a limit. *)
Lemma maybe_timer_spec c th timeout k :
  kernel_ok k -> k_threads k !! c = Some th -> stat_of th = RT_THREAD_SUSPEND -> timeout < RT_TICK_MAX / 2 ->
  (forall l, is_global l -> TmThread c ∉ qget (k_tmq k) l) ->
  exists k2, when (0 <? timeout) (start_thread_timer c timeout) k = Some (tt, k2) /\
    (if 0 <? timeout then armed c timeout k k2 else k2 = k) /\
    kernel_ok k2 /\ obj_frame k k2 /\ k_threads k2 = k_threads k /\ k_tq k2 = k_tq k /\ k_current k2 = k_current k /\
    (forall l x, is_global l -> x <> TmThread c -> (x ∈ qget (k_tmq k2) l <-> x ∈ qget (k_tmq k) l)).
Proof.
  intros Hok Hth Hs Hto Hun. destruct (Z.ltb_spec 0 timeout); [|by exists k].
  destruct (start_thread_timer_spec c th timeout k) as (k2 & E & A); eauto. exists k2. split; [done|]. by destruct A.
Qed.

(** A suspended thread [c] has been put on [q] between [l1] and [l2]: its timer
    is armed and the scheduler called. *)
Lemma enqueued_spec q c th flag timeout k k1 l1 l2 :
  is_wait q -> timeout < RT_TICK_MAX / 2 -> suspended c th k k1 ->
  qget (k_tq k) q = l1 ++ l2 ->
  queue_place flag (th_current_priority th) (k_threads k) l1 l2 ->
  let k1' := set_k_tq (<[q := l1 ++ c :: l2]> (k_tq k1)) k1 in
  exists k2, when (0 <? timeout) (start_thread_timer c timeout) k1' = Some (tt, k2) /\
    k_tick k2 = k_tick k /\
    exists k', rt_schedule k2 = Some (tt, k') /\ blocked_on q c th flag timeout k k' /\
      qget (k_tq k') q = l1 ++ c :: l2.
Proof.
  intros Hq Hto Su Hl Hpl k1'. set (th' := with_stat RT_THREAD_SUSPEND th).
  assert (stat_of th' = RT_THREAD_SUSPEND) as Hs' by apply stat_with_stat.
  assert (blocked th') as Hbl by (unfold blocked; by rewrite Hs').
  assert (k_threads k1' !! c = Some th') as Hth1.
  { unfold k1'; kfields. rewrite (su_threads _ _ _ _ Su). apply lookup_insert_eq. }
  assert (kernel_ok k1') as Hok1.
  { apply (wait_insert_ok q c th'); try done; try apply Su. by rewrite (su_tq _ _ _ _ Su). }
  assert (obj_frame k k1') as F1 by (transitivity k1; [apply Su|done]).
  destruct (maybe_timer_spec c th' timeout k1' Hok1 Hth1 Hs' Hto)
    as (k2 & E2 & A2 & Hok2 & F2 & Et & Eq & Ec & Hx); [apply Su|].
  exists k2. split; [done|]. split; [by rewrite (of_tick _ _ F2), (of_tick _ _ F1)|].
  destruct (schedule_kernel k2 Hok2) as (k' & Es & Hok' & Fs & Hc' & Hh).
  { rewrite Ec. unfold k1'; kfields. rewrite (su_current _ _ _ _ Su). eauto. }
  assert (qget (k_tq k') q = l1 ++ c :: l2) as Hqk.
  { rewrite (sf_wait _ _ Fs) by (intros p ->; done). rewrite Eq. unfold k1'; kfields.
    by rewrite qget_insert, decide_True. }
  exists k'. split; [done|]. split; [|done].
  assert (k_threads k2 !! c = Some th') as Hth2 by (by rewrite Et).
  destruct (sched_frame_fields _ _ Fs) as (Ftm & Ftmq & _). constructor.
  - done.
  - transitivity k1'; [done|]. transitivity k2; [done|]. by apply sched_obj_frame.
  - done.
  - intros Hl0. apply Hh. by rewrite (of_lock _ _ F2), (of_lock _ _ F1).
  - destruct (sf_thread _ _ Fs c th' Hth2) as (s & Hs & Hb & _). rewrite Hb in Hs by done. done.
  - intros t tht Hne Ht.
    assert (k_threads k2 !! t = Some tht) as Ht2.
    { rewrite Et. unfold k1'; kfields. rewrite (su_threads _ _ _ _ Su).
      by rewrite lookup_insert_ne. }
    by apply (sf_thread _ _ Fs t tht).
  - by exists l1, l2.
  - intros q' Hq' Hnr. rewrite (sf_wait _ _ Fs) by done. rewrite Eq. unfold k1'; kfields.
    rewrite qget_insert, decide_False by done. apply Su.
  - intros Hpos. destruct (Z.ltb_spec 0 timeout); [|lia]. rewrite Ftmq, Ftm.
    split; [apply A2|]. destruct (ar_timer _ _ _ _ A2) as (tm & ? & ? & _). exists tm.
    by rewrite <- (of_tick _ _ F1).
  - intros l Hle Hg. destruct (Z.ltb_spec 0 timeout); [lia|]. rewrite Ftmq. subst k2.
    by apply (su_unarmed _ _ _ _ Su).
  - intros l x Hg Hne. rewrite Ftmq, Hx by done. unfold k1'; kfields.
    by rewrite (su_tmq _ _ _ _ Su).
Qed.

(** The common part of [block_on] and [block_on_since]. *)
Lemma enqueue_spec q c th flag timeout k :
  kernel_ok k -> is_wait q -> flag_ok flag -> timeout < RT_TICK_MAX / 2 ->
  k_current k = Some c -> k_threads k !! c = Some th -> stat_of th = RT_THREAD_RUNNING ->
  exists k2, (_ipc_list_suspend q c flag;;
              when (0 <? timeout) (start_thread_timer c timeout)) k = Some (tt, k2) /\
    k_tick k2 = k_tick k /\
    exists k', rt_schedule k2 = Some (tt, k') /\ blocked_on q c th flag timeout k k'.
Proof.
  intros Hok Hq Hf Hto Hc Hth Hr.
  destruct (ipc_suspend_spec q c th flag k Hok Hq Hf Hc Hth Hr)
    as (k1 & l1 & l2 & Su & Hl & Hpl & E & Hok1).
  destruct (enqueued_spec q c th flag timeout k k1 l1 l2 Hq Hto Su Hl Hpl)
    as (k2 & E2 & Ht & k' & Es & B & _).
  exists k2. split; [|split; [done|by exists k']]. mrun. rewrite E. apply E2.
Qed.

Lemma block_on_spec q c th flag timeout k :
  kernel_ok k -> is_wait q -> flag_ok flag -> timeout < RT_TICK_MAX / 2 ->
  k_current k = Some c -> k_threads k !! c = Some th -> stat_of th = RT_THREAD_RUNNING ->
  exists k', block_on q c flag timeout k = Some (tt, k') /\ blocked_on q c th flag timeout k k'.
Proof.
  intros Hok Hq Hf Hto Hc Hth Hr.
  destruct (enqueue_spec q c th flag timeout k Hok Hq Hf Hto Hc Hth Hr)
    as (k2 & E & _ & k' & E' & B). exists k'. split; [|done].
  unfold block_on. revert E. mrun. destruct (_ipc_list_suspend q c flag k) as [[? ?]|]; [|done].
  intros ->. done.
Qed.

Lemma block_on_since_spec q c th flag timeout delta k :
  kernel_ok k -> is_wait q -> flag_ok flag -> timeout < RT_TICK_MAX / 2 ->
  k_current k = Some c -> k_threads k !! c = Some th -> stat_of th = RT_THREAD_RUNNING ->
  exists k', block_on_since q c flag timeout delta k =
      Some (if 0 <? timeout then k_tick k else delta, k') /\
    blocked_on q c th flag timeout k k'.
Proof.
  intros Hok Hq Hf Hto Hc Hth Hr.
  destruct (ipc_suspend_spec q c th flag k Hok Hq Hf Hc Hth Hr)
    as (k1 & l1 & l2 & Su & _ & _ & E1 & _).
  destruct (enqueue_spec q c th flag timeout k Hok Hq Hf Hto Hc Hth Hr)
    as (k2 & E & Ht & k' & E' & B). exists k'. split; [|done].
  unfold block_on_since, rt_tick_get. revert E. mrun. rewrite E1.
  destruct (0 <? timeout).
  - intros ->. rewrite E'. kfields. by rewrite (of_tick _ _ (su_frame _ _ _ _ Su)).
  - intros [= <-]. by rewrite E'.
Qed.

(** ** What waking does *)

(** The first thread [t] of the wait list [q] has been woken and the
    scheduler called. *)
Record woke (q : waitq) (t : nat) (th : rt_thread) (k k' : kstate) : Prop := Woke {
  wo_ok : kernel_ok k';
  wo_frame : obj_frame k k';
  wo_current : is_Some (k_current k');
  wo_highest : k_lock_nest k = 0 -> highest_running k';
  wo_runnable : runnable k' t th;
  wo_queue : t :: qget (k_tq k') q = qget (k_tq k) q;
  wo_tq q' : q' <> q -> (forall p, q' <> QReady p) -> qget (k_tq k') q' = qget (k_tq k) q';
  wo_other x thx : x <> t -> k_threads k !! x = Some thx -> rescheduled k' x thx;
  wo_timer l : is_global l -> TmThread t ∉ qget (k_tmq k') l;
  wo_timers l x : is_global l -> x <> TmThread t ->
    x ∈ qget (k_tmq k') l <-> x ∈ qget (k_tmq k) l
}.

Lemma woken_sched t th k k1 k' q :
  kernel_ok k -> is_wait q -> head (qget (k_tq k) q) = Some t ->
  woken t th k k1 -> sched_frame k1 k' -> kernel_ok k' -> is_Some (k_current k') ->
  (k_lock_nest k1 = 0 -> highest_running k') ->
  woke q t th k k'.
Proof.
  intros Hok Hq Hhd W F Hok' Hc Hh. destruct (sched_frame_fields _ _ F) as (_ & Ftmq & _).
  assert (forall p, q <> QReady p) as Hnr by (intros p ->; done).
  pose proof (ok_inv _ (ko_sched _ Hok)) as Hinv.
  assert (t ∈ qget (k_tq k) q) as Hin by (destruct (qget (k_tq k) q); [done|]; injection Hhd as ->; by left).
  constructor.
  - done.
  - transitivity k1; [apply W|]. by apply sched_obj_frame.
  - done.
  - intros Hl. apply Hh. by rewrite (of_lock _ _ (wk_frame _ _ _ _ W)).
  - by apply (runnable_woken t th k k1).
  - rewrite (sf_wait _ _ F) by done. rewrite (wk_tq _ _ _ _ W) by done.
    pose proof (so_nodup _ _ Hinv q) as Hnd. destruct (qget (k_tq k) q) as [|x l]; [done|].
    injection Hhd as ->. apply NoDup_cons in Hnd as [Hx _].
    rewrite filter_cons_False by auto. by rewrite filter_ne_notin.
  - intros q' Hne Hr. rewrite (sf_wait _ _ F) by done. rewrite (wk_tq _ _ _ _ W) by done.
    apply filter_ne_notin. intros Hx. apply Hne. by apply (so_excl _ _ Hinv q' q t).
  - intros x thx Hne Hx. apply (sf_thread _ _ F x thx).
    rewrite (wk_threads _ _ _ _ W). by rewrite lookup_insert_ne.
  - intros l Hg. rewrite Ftmq, (wk_tmq _ _ _ _ W) by done. intros Hx.
    apply list_elem_of_filter in Hx. tauto.
  - intros l x Hg Hne. rewrite Ftmq, (wk_tmq _ _ _ _ W) by done.
    rewrite list_elem_of_filter. tauto.
Qed.

Lemma list_resume_spec q t k :
  kernel_ok k -> is_wait q -> head (qget (k_tq k) q) = Some t ->
  exists th k1, k_threads k !! t = Some th /\ stat_of th = RT_THREAD_SUSPEND /\
    _ipc_list_resume q k = Some (RT_EOK, k1) /\ woken t th k k1.
Proof.
  intros Hok Hq Hhd.
  destruct (so_wait _ _ (ok_inv _ (ko_sched _ Hok)) q t Hq) as (th & Hth & Hs).
  { destruct (qget (k_tq k) q); [done|]. injection Hhd as ->. by left. }
  destruct (resume_spec t th k Hok Hth Hs) as (k1 & E & W). exists th, k1. split_and!; try done.
  unfold _ipc_list_resume, list_first. mrun. rewrite Hhd, E. done.
Qed.

(** [_ipc_list_resume(list); rt_schedule();]. *)
Lemma wake_first_spec q t k :
  kernel_ok k -> is_wait q -> head (qget (k_tq k) q) = Some t -> is_Some (k_current k) ->
  exists th k1 k', k_threads k !! t = Some th /\ _ipc_list_resume q k = Some (RT_EOK, k1) /\
    rt_schedule k1 = Some (tt, k') /\ woke q t th k k'.
Proof.
  intros Hok Hq Hhd Hc. destruct (list_resume_spec q t k Hok Hq Hhd) as (th & k1 & Hth & _ & E & W).
  destruct (schedule_kernel k1) as (k' & Es & Hok' & F & Hc' & Hh); [apply W| |].
  { by rewrite (wk_current _ _ _ _ W). }
  exists th, k1, k'. split_and!; try done. by apply (woken_sched t th k k1 k' q).
Qed.

(** After [wake_waiter]: the first thread waiting on [q] has left the list and
    can run; if nobody waits, nothing has changed. *)
Record handed (q : waitq) (k k' : kstate) : Prop := Handed {
  ha_ok : kernel_ok k';
  ha_frame : obj_frame k k';
  ha_current : is_Some (k_current k');
  ha_queue : qget (k_tq k') q = tail (qget (k_tq k) q);
  ha_tq q' : q' <> q -> (forall p, q' <> QReady p) -> qget (k_tq k') q' = qget (k_tq k) q';
  ha_first t : head (qget (k_tq k) q) = Some t ->
    exists th, k_threads k !! t = Some th /\ runnable k' t th /\
      (k_lock_nest k = 0 -> highest_running k');
  ha_idle : qget (k_tq k) q = [] -> k' = k
}.

Lemma wake_waiter_spec q k :
  kernel_ok k -> is_wait q -> is_Some (k_current k) ->
  exists k', wake_waiter q k = Some (RT_EOK, k') /\ handed q k k'.
Proof.
  intros Hok Hq Hc. unfold wake_waiter. mrun.
  destruct (qget (k_tq k) q) as [|t l] eqn:El.
  - replace (rt_list_isempty q (k_tq k)) with true by (symmetry; by apply isempty_spec).
    exists k. split; [done|]. constructor; try done; rewrite El; done.
  - replace (rt_list_isempty q (k_tq k)) with false by (unfold rt_list_isempty; by rewrite El).
    destruct (wake_first_spec q t k) as (th & k1 & k' & Hth & E & Es & W); try done;
      [by rewrite El|].
    rewrite E, Es. exists k'. split; [done|].
    pose proof (wo_queue _ _ _ _ _ W) as Hl. rewrite El in Hl. injection Hl as Hl. constructor.
    + apply W.
    + apply W.
    + apply W.
    + by rewrite Hl, El.
    + apply W.
    + intros t'. rewrite El. intros [= <-]. exists th. split; [done|]. split; apply W.
    + by rewrite El.
Qed.

(** What the users of [q] see of it: the first of the waiting threads can run,
    and the processor is with the best thread; without a waiting thread,
    nothing happens to any thread. *)
Definition served (q : waitq) (k k' : kstate) : Prop :=
  qget (k_tq k') q = tail (qget (k_tq k) q) /\
  match qget (k_tq k) q with
  | [] => k_threads k' = k_threads k /\ k_current k' = k_current k
  | t :: _ => exists th, k_threads k !! t = Some th /\ runnable k' t th /\ highest_running k'
  end.

(** [k1] is [k] but for the control block of an object. *)
Lemma handed_served q k k1 k' :
  handed q k1 k' -> k_threads k1 = k_threads k -> k_tq k1 = k_tq k ->
  k_current k1 = k_current k -> k_lock_nest k1 = 0 -> served q k k'.
Proof.
  intros H Et Eq Ec Hl. split; [by rewrite <- Eq, (ha_queue _ _ _ H)|].
  pose proof (ha_first _ _ _ H) as Hf. pose proof (ha_idle _ _ _ H) as Hi. rewrite Eq in Hf, Hi.
  destruct (qget (k_tq k) q) as [|t l].
  - by rewrite (Hi eq_refl).
  - destruct (Hf t eq_refl) as (th & Hth & Hr & Hh). rewrite Et in Hth. exists th. eauto.
Qed.

(** All threads of [q] have been woken with the error [-RT_ERROR]. *)
Record woke_all (q : waitq) (k k' : kstate) : Prop := WokeAll {
  wa_ok : kernel_ok k';
  wa_frame : obj_frame k k';
  wa_current : k_current k' = k_current k;
  wa_queue : qget (k_tq k') q = [];
  wa_tq q' : q' <> q -> (forall p, q' <> QReady p) -> qget (k_tq k') q' = qget (k_tq k) q';
  wa_woken t th : t ∈ qget (k_tq k) q -> k_threads k !! t = Some th ->
    runnable k' t (set_th_error (- RT_ERROR) th);
  wa_other t : t ∉ qget (k_tq k) q -> k_threads k' !! t = k_threads k !! t
}.

(** One round: the first of the waiting threads gets the error and is woken. *)
Lemma resume_all_round q t l k :
  kernel_ok k -> is_wait q -> qget (k_tq k) q = t :: l ->
  exists th k1, k_threads k !! t = Some th /\
    (forall fuel, resume_all_loop (S fuel) q k = resume_all_loop fuel q k1) /\
    woken t (set_th_error (- RT_ERROR) th) (thread_st t (set_th_error (- RT_ERROR) th) k) k1 /\
    qget (k_tq k1) q = l /\ t ∉ l /\
    (forall x, x <> t -> k_threads k1 !! x = k_threads k !! x).
Proof.
  intros Hok Hq Hl. destruct (so_wait _ _ (ok_inv _ (ko_sched _ Hok)) q t Hq) as (th & Hth & Hs); [rewrite Hl; by left|].
  set (th' := set_th_error (- RT_ERROR) th). set (k0 := thread_st t th' k).
  assert (kernel_ok k0) as Hok0 by (by apply (thread_st_same t th)).
  destruct (resume_spec t th' k0 Hok0 ltac:(apply thread_st_lookup) Hs) as (k1 & E & W).
  assert (forall p, q <> QReady p) as Hnr by (intros p ->; done).
  pose proof (so_nodup _ _ (ok_inv _ (ko_sched _ Hok)) q) as Hnd. rewrite Hl in Hnd. apply NoDup_cons in Hnd as [Hnt Hnd].
  exists th, k1. split; [done|]. split; [|split; [done|split; [|split; [done|]]]].
  - intros fuel. simpl resume_all_loop. unfold list_first. mrun. unfold rt_list_isempty. rewrite Hl. cbv beta iota. rewrite Hl.
    change (head (t :: l)) with (Some t). cbv beta iota. rewrite (upd_thread_eq t _ k th) by done. fold th' k0. by rewrite E.
  - rewrite (wk_tq _ _ _ _ W) by done. unfold k0, thread_st; kfields. rewrite Hl.
    rewrite filter_cons_False by auto. by apply filter_ne_notin.
  - intros x Hx. rewrite (wk_threads _ _ _ _ W), lookup_insert_ne by done.
    unfold k0, thread_st; kfields. by rewrite lookup_insert_ne.
Qed.

Lemma resume_all_loop_spec q l k :
  kernel_ok k -> is_wait q -> qget (k_tq k) q = l ->
  exists k', resume_all_loop (S (length l)) q k = Some (tt, k') /\ woke_all q k k'.
Proof.
  intros Hok Hq. revert k Hok. induction l as [|t l IH]; intros k Hok Hl.
  - exists k. split.
    + simpl. mrun. assert (rt_list_isempty q (k_tq k) = true) as -> by (by apply isempty_spec). done.
    + constructor; try done. intros t th Ht. rewrite Hl in Ht. by apply elem_of_nil in Ht.
  - destruct (resume_all_round q t l k Hok Hq Hl) as (th & k1 & Hth & E & W & Hl1 & Hnt & Hkeep).
    destruct (IH k1 (wk_ok _ _ _ _ W) Hl1) as (k' & E' & A). exists k'. split; [by rewrite E|].
    constructor.
    + apply A.
    + transitivity (thread_st t (set_th_error (- RT_ERROR) th) k); [done|]. transitivity k1; [apply W|apply A].
    + by rewrite (wa_current _ _ _ A), (wk_current _ _ _ _ W).
    + apply A.
    + intros q' Hq' Hr. rewrite (wa_tq _ _ _ A) by done. rewrite (wk_tq _ _ _ _ W) by done.
      apply filter_ne_notin. intros Hx. apply Hq'.
      apply (so_excl _ _ (ok_inv _ (ko_sched _ Hok)) q' q t); [done|]. rewrite Hl. by left.
    + intros x thx Hx Hxt. rewrite Hl in Hx. destruct (decide (x = t)) as [->|Hne].
      * assert (thx = th) as -> by congruence.
        assert (t ∉ qget (k_tq k1) q) as Hn1 by (by rewrite Hl1).
        eexists. split; [rewrite (wa_other _ _ _ A t Hn1), (wk_threads _ _ _ _ W);
          apply lookup_insert_eq|apply wake_stat_unblocked].
      * apply elem_of_cons in Hx as [->|Hx]; [done|].
        apply (wa_woken _ _ _ A); [by rewrite Hl1|]. by rewrite Hkeep.
    + intros x Hx. rewrite Hl, not_elem_of_cons in Hx. destruct Hx as [Hne Hx].
      rewrite (wa_other _ _ _ A) by (by rewrite Hl1). by apply Hkeep.
Qed.

Lemma resume_all_spec q k :
  kernel_ok k -> is_wait q ->
  exists k', _ipc_list_resume_all q k = Some (RT_EOK, k') /\ woke_all q k k'.
Proof.
  intros Hok Hq. destruct (resume_all_loop_spec q (qget (k_tq k) q) k Hok Hq eq_refl) as (k' & E & A).
  exists k'. split; [|done]. unfold _ipc_list_resume_all. mrun. by rewrite E.
Qed.

(** ** States that differ in the control block of an object *)

(** The invariant does not read the control blocks of the objects. *)
Lemma kernel_ok_objects k k' :
  k_threads k' = k_threads k -> k_timers k' = k_timers k -> k_tq k' = k_tq k ->
  k_tmq k' = k_tmq k -> k_current k' = k_current k -> k_ready_group k' = k_ready_group k ->
  kernel_ok k -> kernel_ok k'.
Proof.
  intros E1 E2 E3 E4 E5 E6 [Hs Ht]. constructor; [by apply (sched_ok_ext k)|].
  apply (timer_inv_ext k); try done.
  - intros t th Hth. rewrite E1 in Hth. by exists th.
  - intros t l th _ _ Hth Hst. exists th. by rewrite E1.
Qed.

(** Where the calling thread may block: the scheduler is not locked, no
    interrupt is being served, and the caller is running. *)
Record can_block (k : kstate) (c : nat) (th : rt_thread) : Prop := CanBlock {
  cb_current : k_current k = Some c;
  cb_thread : k_threads k !! c = Some th;
  cb_running : stat_of th = RT_THREAD_RUNNING;
  cb_unlocked : k_lock_nest k = 0;
  cb_no_isr : k_interrupt_nest k = 0
}.

Lemma scheduler_available k c th b :
  can_block k c th -> RT_DEBUG_SCHEDULER_AVAILABLE b k = Some (tt, k).
Proof.
  intros [Hc Ht Hr Hl Hn]. unfold RT_DEBUG_SCHEDULER_AVAILABLE, RT_DEBUG_IN_THREAD_CONTEXT,
    RT_DEBUG_NOT_IN_INTERRUPT, rt_critical_level, rt_interrupt_get_nest, rt_thread_self, rt_assert.
  destruct b; [|done]. mrun. rewrite Hl. simpl. rewrite Hc. simpl. rewrite Hn. done.
Qed.

(** Reading the header of an object. *)
Lemma assert_type_eq o c k h :
  obj_hdr o k = Some h -> has_type c h -> assert_type o c k = Some (tt, k).
Proof.
  intros Ho Hy. unfold assert_type, rt_object_get_type, get_hdr. mrun. rewrite Ho; simpl.
  unfold has_type in Hy. by rewrite Hy, Z.eqb_refl.
Qed.

Lemma get_flag_eq o k h : obj_hdr o k = Some h -> get_flag o k = Some (o_flag h, k).
Proof. intros Ho. unfold get_flag, get_hdr. mrun. by rewrite Ho. Qed.

Lemma set_error_ok c th e k :
  kernel_ok k -> k_threads k !! c = Some th ->
  set_error c e k = Some (tt, thread_st c (set_th_error e th) k) /\
  kernel_ok (thread_st c (set_th_error e th) k).
Proof.
  intros Hok Hth. split; [by apply upd_thread_eq|]. by apply (thread_st_same c th).
Qed.

(** An object of class [c] that threads can wait on. *)
Definition ipc_header (c : Z) (h : rt_object) : Prop := has_type c h /\ flag_ok (o_flag h).

(** Blocking the caller, the way all calls do it: the error is reset first. *)
Lemma block_caller q c th flag timeout k :
  kernel_ok k -> is_wait q -> flag_ok flag -> timeout < RT_TICK_MAX / 2 -> can_block k c th ->
  exists k', (set_error c RT_EOK;; block_on q c flag timeout) k = Some (tt, k') /\
    blocked_on q c (set_th_error RT_EOK th) flag timeout (thread_st c (set_th_error RT_EOK th) k) k'.
Proof.
  intros Hok Hq Hf Hto [Hc Hth Hr _ _].
  destruct (set_error_ok c th RT_EOK k Hok Hth) as [E Hok1].
  set (k1 := thread_st c (set_th_error RT_EOK th) k) in *.
  destruct (block_on_spec q c (set_th_error RT_EOK th) flag timeout k1) as (k' & E' & B); try done;
    [apply thread_st_lookup|].
  exists k'. split; [|done]. mrun. by rewrite E.
Qed.

(** The same in the loops of the mailbox and the message queue. *)
Lemma block_caller_since q c th o h timeout delta k :
  kernel_ok k -> is_wait q -> obj_hdr o k = Some h -> flag_ok (o_flag h) ->
  timeout < RT_TICK_MAX / 2 -> can_block k c th ->
  (forall th', obj_hdr o (thread_st c th' k) = Some h) ->
  exists k', (set_error c RT_EOK;; flag ← get_flag o;
              block_on_since q c flag timeout delta) k =
      Some (if 0 <? timeout then k_tick k else delta, k') /\
    blocked_on q c (set_th_error RT_EOK th) (o_flag h) timeout
      (thread_st c (set_th_error RT_EOK th) k) k'.
Proof.
  intros Hok Hq Ho Hf Hto [Hc Hth Hr _ _] Ho'.
  destruct (set_error_ok c th RT_EOK k Hok Hth) as [E Hok1].
  set (k1 := thread_st c (set_th_error RT_EOK th) k) in *.
  destruct (block_on_since_spec q c (set_th_error RT_EOK th) (o_flag h) timeout delta k1)
    as (k' & E' & B); try done; [apply thread_st_lookup|].
  exists k'. split; [|done]. mrun. rewrite E. fold k1. rewrite (get_flag_eq _ k1 h); [done|apply Ho'].
Qed.

(** The caller [c] waits on [q], where the object's flag [flag] puts it, with
    its error reset, and the best thread runs. *)
Definition waits (q : waitq) (c : nat) (th : rt_thread) (flag : Z) (k k' : kstate) : Prop :=
  highest_running k' /\
  k_threads k' !! c = Some (with_stat RT_THREAD_SUSPEND (set_th_error RT_EOK th)) /\
  exists l1 l2, qget (k_tq k) q = l1 ++ l2 /\ qget (k_tq k') q = l1 ++ c :: l2 /\
    queue_place flag (th_current_priority th)
      (k_threads (thread_st c (set_th_error RT_EOK th) k)) l1 l2.

Lemma blocked_waits q c th flag timeout k k' :
  blocked_on q c (set_th_error RT_EOK th) flag timeout (thread_st c (set_th_error RT_EOK th) k) k' ->
  k_lock_nest k = 0 -> waits q c th flag k k'.
Proof.
  intros B Hl. split; [by apply B|]. split; [apply B|]. apply (bo_queue _ _ _ _ _ _ _ B).
Qed.

(** What [remaining_timeout] leaves of a timeout that began at tick [since]. *)
Definition time_left (timeout since now : Z) : Z :=
  if 0 <? timeout then Z.max 0 (timeout - u32 (now - since)) else timeout.

Lemma remaining_timeout_eq timeout since k :
  timeout < 2 ^ 31 -> u32 (k_tick k - since) < 2 ^ 31 ->
  remaining_timeout timeout since k =
    Some ((time_left timeout since (k_tick k),
           if 0 <? timeout then u32 (k_tick k - since) else since), k).
Proof.
  intros Hto He. unfold remaining_timeout, time_left, rt_tick_get. mrun.
  destruct (Z.ltb_spec 0 timeout); [|done].
  assert (0 <= u32 (k_tick k - since)) by (apply Z.mod_pos_bound; lia).
  replace (s32 (u32 (timeout - u32 (k_tick k - since))))
    with (timeout - u32 (k_tick k - since)).
  - destruct (Z.ltb_spec (timeout - u32 (k_tick k - since)) 0); do 3 f_equal; lia.
  - generalize dependent (u32 (k_tick k - since)). intros d Hd Hd'. unfold s32, u32. dlia.
Qed.

(** Both waiting lists of a mailbox or message queue have been woken with the
    error [-RT_ERROR]. *)
Record woke_both (q1 q2 : waitq) (k k' : kstate) : Prop := WokeBoth {
  wb_ok : kernel_ok k';
  wb_frame : obj_frame k k';
  wb_current : k_current k' = k_current k;
  wb_empty : qget (k_tq k') q1 = [] /\ qget (k_tq k') q2 = [];
  wb_woken t th : t ∈ qget (k_tq k) q1 \/ t ∈ qget (k_tq k) q2 -> k_threads k !! t = Some th ->
    runnable k' t (set_th_error (- RT_ERROR) th)
}.

Lemma resume_both_spec q1 q2 k :
  kernel_ok k -> is_wait q1 -> is_wait q2 -> q1 <> q2 ->
  exists k1 k', _ipc_list_resume_all q1 k = Some (RT_EOK, k1) /\
    _ipc_list_resume_all q2 k1 = Some (RT_EOK, k') /\ woke_both q1 q2 k k'.
Proof.
  intros Hok H1 H2 Hne.
  assert (forall q p, is_wait q -> q <> QReady p) as Hw by (by intros [] ? ?).
  destruct (resume_all_spec q1 k Hok H1) as (k1 & E1 & A1).
  destruct (resume_all_spec q2 k1 (wa_ok _ _ _ A1) H2) as (k2 & E2 & A2).
  assert (qget (k_tq k1) q2 = qget (k_tq k) q2) as Hq2 by (apply (wa_tq _ _ _ A1); auto).
  pose proof (ok_inv _ (ko_sched _ Hok)) as Hinv.
  exists k1, k2. split; [done|]. split; [done|]. constructor.
  - apply A2.
  - transitivity k1; [apply A1|apply A2].
  - by rewrite (wa_current _ _ _ A2), (wa_current _ _ _ A1).
  - split; [|apply A2]. rewrite (wa_tq _ _ _ A2) by auto. apply A1.
  - intros t th [Ht|Ht] Hth.
    + destruct (wa_woken _ _ _ A1 t th Ht Hth) as (s & Hs & Hb). exists s. split; [|done].
      rewrite (wa_other _ _ _ A2); [done|]. rewrite Hq2. intros Ht2. apply Hne.
      by apply (so_excl _ _ Hinv q1 q2 t).
    + apply (wa_woken _ _ _ A2); [by rewrite Hq2|].
      rewrite (wa_other _ _ _ A1); [done|]. intros Ht1. apply Hne.
      by apply (so_excl _ _ Hinv q1 q2 t).
Qed.

(** After a reset: the two lists are empty, their threads can run and will
    report [-RT_ERROR], and the best thread has the processor. *)
Definition reset (q1 q2 : waitq) (k k' : kstate) : Prop :=
  qget (k_tq k') q1 = [] /\ qget (k_tq k') q2 = [] /\ highest_running k' /\
  forall t th, t ∈ qget (k_tq k) q1 \/ t ∈ qget (k_tq k) q2 -> k_threads k !! t = Some th ->
    runnable k' t (set_th_error (- RT_ERROR) th).

(** The scheduler is called after the object's control block, in which [k2]
    differs from [k1], has been cleared. *)
Lemma reset_schedule q1 q2 k k1 k2 :
  is_wait q1 -> is_wait q2 -> woke_both q1 q2 k k1 -> kernel_ok k2 ->
  k_threads k2 = k_threads k1 -> k_tq k2 = k_tq k1 -> k_current k2 = k_current k1 ->
  k_lock_nest k2 = 0 -> is_Some (k_current k) ->
  exists k', rt_schedule k2 = Some (tt, k') /\ kernel_ok k' /\ obj_frame k2 k' /\
    reset q1 q2 k k'.
Proof.
  intros H1 H2 W Hok2 Et Eq Ec Hl Hc.
  assert (forall q p, is_wait q -> q <> QReady p) as Hw by (by intros [] ? ?).
  destruct (schedule_kernel k2 Hok2) as (k' & E & Hok' & F & _ & Hh).
  { by rewrite Ec, (wb_current _ _ _ _ W). }
  exists k'. split; [done|]. split; [done|]. split; [by apply sched_obj_frame|].
  destruct (wb_empty _ _ _ _ W) as [He1 He2]. unfold reset.
  rewrite !(sf_wait _ _ F) by auto. rewrite Eq. split; [done|]. split; [done|].
  split; [by apply Hh|]. intros t th Ht Hth.
  destruct (wb_woken _ _ _ _ W t th Ht Hth) as (s & Hs & Hb). rewrite <- Et in Hs.
  by apply (runnable_sched t _ k2 k' s).
Qed.
