(* ===== verification/IpcSem.v ===== *)
(** * Semaphores

    The semaphore functions of [src/ipc.c]. *)
From S2P Require Import Prelude Kservice Kernel Sched Object Timer Thread KernelInv Boot Ipc.

Definition RT_SEM_VALUE_MAX : Z := 65535.

Definition get_sem (sem : nat) : M rt_semaphore := s ← gets (fun k => k_sems k !! sem); deref s.
Definition put_sem (sem : nat) (s : rt_semaphore) : M unit :=
  modify (fun k => set_k_sems (<[sem := s]> (k_sems k)) k).
Definition set_sem_value (v : Z) (s : rt_semaphore) : rt_semaphore :=
  RtSemaphore (sem_parent s) v.
Definition upd_sem (sem : nat) (f : rt_semaphore -> rt_semaphore) : M unit :=
  s ← get_sem sem; put_sem sem (f s).

Definition rt_sem_init (sem : nat) (name : list Z) (value flag : Z) : M Z :=
  rt_assert (value <? 0x10000);;
  rt_assert (valid_flag flag);;
  rt_object_init (OSem sem) RT_Object_Class_Semaphore name;;
  _ipc_object_init (QSem sem);;
  upd_sem sem (set_sem_value (u16 value));;
  set_flag (OSem sem) flag;;
  mret RT_EOK.

Definition rt_sem_detach (sem : nat) : M Z :=
  assert_type (OSem sem) RT_Object_Class_Semaphore;;
  assert_system (OSem sem) true;;
  _ipc_list_resume_all (QSem sem);;
  rt_object_detach (OSem sem);;
  mret RT_EOK.

Definition rt_sem_create (mem : option oid) (name : list Z) (value flag : Z) : M (option nat) :=
  rt_assert (value <? 0x10000);;
  rt_assert (valid_flag flag);;
  RT_DEBUG_NOT_IN_INTERRUPT;;
  sem ← rt_object_allocate mem RT_Object_Class_Semaphore name;
  match sem with
  | Some (OSem sem) =>
      _ipc_object_init (QSem sem);;
      upd_sem sem (set_sem_value (u16 value));;
      set_flag (OSem sem) flag;;
      mret (Some sem)
  | _ => mret None
  end.

Definition rt_sem_delete (sem : nat) : M Z :=
  assert_type (OSem sem) RT_Object_Class_Semaphore;;
  assert_system (OSem sem) false;;
  RT_DEBUG_NOT_IN_INTERRUPT;;
  _ipc_list_resume_all (QSem sem);;
  rt_object_delete (OSem sem);;
  mret RT_EOK.

Definition rt_sem_take (sem : nat) (timeout : Z) : M (outcome unit) :=
  assert_type (OSem sem) RT_Object_Class_Semaphore;;
  s ← get_sem sem;
  if 0 <? sem_value s then
    put_sem sem (set_sem_value (u16 (sem_value s - 1)) s);;
    mret (Ret RT_EOK)
  else if timeout =? 0 then mret (Ret (- RT_ETIMEOUT))
  else
    RT_DEBUG_SCHEDULER_AVAILABLE true;;
    thread ← current_thread;
    set_error thread RT_EOK;;
    flag ← get_flag (OSem sem);
    block_on (QSem sem) thread flag timeout;;
    mret (Wait tt).

(** The end of the call when [thread] runs again. *)
Definition rt_sem_take_return (thread : nat) : M Z :=
  th ← get_thread thread;
  if negb (th_error th =? RT_EOK) then mret (th_error th) else mret RT_EOK.

Definition rt_sem_trytake (sem : nat) : M (outcome unit) := rt_sem_take sem 0.

Definition rt_sem_release (sem : nat) : M Z :=
  assert_type (OSem sem) RT_Object_Class_Semaphore;;
  empty ← gets (fun k => rt_list_isempty (QSem sem) (k_tq k));
  if negb empty then
    _ipc_list_resume (QSem sem);;
    rt_schedule;;
    mret RT_EOK
  else
    s ← get_sem sem;
    if sem_value s <? RT_SEM_VALUE_MAX then
      put_sem sem (set_sem_value (u16 (sem_value s + 1)) s);;
      mret RT_EOK
    else mret (- RT_EFULL).

Definition rt_sem_control (sem : nat) (cmd arg : Z) : M Z :=
  assert_type (OSem sem) RT_Object_Class_Semaphore;;
  if cmd =? RT_IPC_CMD_RESET then
    _ipc_list_resume_all (QSem sem);;
    upd_sem sem (set_sem_value (u16 arg));;
    rt_schedule;;
    mret RT_EOK
  else mret (- RT_ERROR).

(** ** Correctness *)

Record sem_ok (k : kstate) (sem : nat) (s : rt_semaphore) : Prop := SemOk {
  so_lookup : k_sems k !! sem = Some s;
  so_header : ipc_header RT_Object_Class_Semaphore (sem_parent s);
  so_value : 0 <= sem_value s <= RT_SEM_VALUE_MAX;
  so_waiters : 0 < sem_value s -> qget (k_tq k) (QSem sem) = []
}.

Definition sem_st (sem : nat) (s : rt_semaphore) (k : kstate) : kstate :=
  set_k_sems (<[sem := s]> (k_sems k)) k.

Lemma get_sem_eq sem s k : k_sems k !! sem = Some s -> get_sem sem k = Some (s, k).
Proof. intros H. unfold get_sem. mrun. by rewrite H. Qed.

Lemma sem_hdr k sem s : k_sems k !! sem = Some s -> obj_hdr (OSem sem) k = Some (sem_parent s).
Proof. intros H. simpl. by rewrite H. Qed.

Lemma sem_st_kernel_ok sem s k : kernel_ok k -> kernel_ok (sem_st sem s k).
Proof. by apply kernel_ok_objects. Qed.

(** The caller takes a unit if there is one; it is refused at once if it does
    not want to wait; otherwise it waits on the semaphore's list. *)
Lemma sem_take_spec k sem s c th timeout :
  kernel_ok k -> sem_ok k sem s -> can_block k c th -> timeout < RT_TICK_MAX / 2 ->
  exists r k', rt_sem_take sem timeout k = Some (r, k') /\ kernel_ok k' /\
    ((0 < sem_value s /\ r = Ret RT_EOK /\
        k' = sem_st sem (set_sem_value (sem_value s - 1) s) k) \/
     (sem_value s = 0 /\ timeout = 0 /\ r = Ret (- RT_ETIMEOUT) /\ k' = k) \/
     (sem_value s = 0 /\ timeout <> 0 /\ r = Wait tt /\
        blocked_on (QSem sem) c (set_th_error RT_EOK th) (o_flag (sem_parent s)) timeout
          (thread_st c (set_th_error RT_EOK th) k) k')).
Proof.
  intros Hok [Hs [Hy Hf] Hv Hw] Hcb Hto. unfold RT_SEM_VALUE_MAX in Hv. unfold rt_sem_take. mrun.
  rewrite (assert_type_eq _ _ k (sem_parent s)) by (done || by apply sem_hdr).
  rewrite (get_sem_eq sem s k) by done.
  destruct (Z.ltb_spec 0 (sem_value s)) as [Hpos|Hz].
  - eexists _, _. split; [done|]. split; [by apply sem_st_kernel_ok|]. left.
    rewrite u16_small by lia. done.
  - assert (sem_value s = 0) as Hv0 by lia. destruct (Z.eqb_spec timeout 0) as [Ht|Ht].
    + eexists _, _. split; [done|]. split; [done|]. right. by left.
    + rewrite (scheduler_available k c th) by done.
      rewrite (current_thread_eq k c) by apply Hcb.
      destruct (block_caller (QSem sem) c th (o_flag (sem_parent s)) timeout k)
        as (k' & E & B); try done.
      revert E. mrun. destruct (set_error_ok c th RT_EOK k Hok (cb_thread _ _ _ Hcb)) as [-> _].
      rewrite (get_flag_eq _ _ (sem_parent s)) by (by apply sem_hdr). intros ->.
      eexists _, _. split; [done|]. split; [apply B|]. right. by right.
Qed.

(** The longest waiting thread (the first of the list) gets the unit
    directly; without one the value goes up, unless it is at its maximum. *)
Lemma sem_release_spec k sem s :
  kernel_ok k -> sem_ok k sem s -> is_Some (k_current k) ->
  exists r k', rt_sem_release sem k = Some (r, k') /\ kernel_ok k' /\
    match qget (k_tq k) (QSem sem) with
    | t :: l => r = RT_EOK /\ exists th, k_threads k !! t = Some th /\ woke (QSem sem) t th k k'
    | [] => if sem_value s <? RT_SEM_VALUE_MAX
            then r = RT_EOK /\ k' = sem_st sem (set_sem_value (sem_value s + 1) s) k
            else r = - RT_EFULL /\ k' = k
    end.
Proof.
  intros Hok [Hs [Hy Hf] Hv Hw] Hc. unfold rt_sem_release. mrun.
  rewrite (assert_type_eq _ _ k (sem_parent s)) by (done || by apply sem_hdr).
  unfold rt_list_isempty. destruct (qget (k_tq k) (QSem sem)) as [|t l] eqn:El; cbv iota.
  - rewrite (get_sem_eq sem s k) by done. unfold RT_SEM_VALUE_MAX in *.
    destruct (Z.ltb_spec (sem_value s) 65535).
    + eexists _, _. split; [done|]. split; [by apply sem_st_kernel_ok|].
      rewrite u16_small by lia. done.
    + by eexists _, _.
  - destruct (wake_first_spec (QSem sem) t k) as (th & k1 & k' & Hth & E & Es & W); try done;
      [by rewrite El|].
    rewrite E, Es. eexists _, _. split; [done|]. split; [apply W|]. split; [done|]. by exists th.
Qed.

(** What a semaphore is to its users: a number of units, and the threads that
    wait for one in the order in which they will get it. *)
Record sem_abs := SemAbs { a_value : Z; a_waiting : list nat }.

Definition sem_view (sem : nat) (k : kstate) : option sem_abs :=
  match k_sems k !! sem with
  | Some s => Some (SemAbs (sem_value s) (qget (k_tq k) (QSem sem)))
  | None => None
  end.

(** C10: [rt_sem_take] does to the users' view of a semaphore what its contract
    says. With a unit left the caller gets it at once. Without one, a caller
    that does not want to wait is refused with [-RT_ETIMEOUT] and nothing
    changes; any other caller is suspended, at the place of the waiting list
    that the semaphore's flag (first come, or priority) gives it, and the
    processor goes to the best ready thread. The semaphore and the kernel
    invariant hold afterwards. *)
Theorem sem_take_correct k sem s c th timeout :
  kernel_ok k -> sem_ok k sem s -> can_block k c th -> timeout < RT_TICK_MAX / 2 ->
  exists r k' s', rt_sem_take sem timeout k = Some (r, k') /\ kernel_ok k' /\ sem_ok k' sem s' /\
    (0 < sem_value s -> r = Ret RT_EOK /\
       sem_view sem k' = Some (SemAbs (sem_value s - 1) []) /\ k_current k' = Some c) /\
    (sem_value s = 0 -> timeout = 0 -> r = Ret (- RT_ETIMEOUT) /\ k' = k) /\
    (sem_value s = 0 -> timeout <> 0 -> r = Wait tt /\ highest_running k' /\
       k_threads k' !! c = Some (with_stat RT_THREAD_SUSPEND (set_th_error RT_EOK th)) /\
       exists l1 l2, sem_view sem k = Some (SemAbs 0 (l1 ++ l2)) /\
         sem_view sem k' = Some (SemAbs 0 (l1 ++ c :: l2)) /\
         queue_place (o_flag (sem_parent s)) (th_current_priority th)
           (k_threads (thread_st c (set_th_error RT_EOK th) k)) l1 l2).
Proof.
  intros Hok Hso Hcb Hto. pose proof (so_value _ _ _ Hso) as Hv.
  pose proof (so_waiters _ _ _ Hso) as Hw. pose proof (so_lookup _ _ _ Hso) as Hs.
  destruct (sem_take_spec k sem s c th timeout Hok Hso Hcb Hto)
    as (r & k' & E & Hok' & [(Hpos & -> & ->)|[(Hz & -> & -> & ->)|(Hz & Ht & -> & B)]]).
  - eexists _, _, (set_sem_value (sem_value s - 1) s). split; [exact E|]. split; [done|].
    split; [|split; [|split; lia]].
    + constructor; [apply lookup_insert_eq|apply Hso|simpl; lia|]. simpl. intros _. by apply Hw.
    + intros _. split; [done|]. split; [|by apply Hcb].
      unfold sem_view, sem_st; kfields. rewrite lookup_insert_eq, Hw by done. done.
  - exists (Ret (- RT_ETIMEOUT)), k, s. by split_and!; try done; lia.
  - pose proof (of_sems _ _ (bo_frame _ _ _ _ _ _ _ B)) as Es.
    assert (k_sems k' !! sem = Some s) as Hs' by (by rewrite Es).
    exists (Wait tt), k', s. split; [done|]. split; [done|].
    split; [constructor; [done|apply Hso|done|lia]|]. split; [lia|]. split; [done|].
    intros _ _. split; [done|].
    split; [by apply (bo_highest _ _ _ _ _ _ _ B), (cb_unlocked _ _ _ Hcb)|].
    split; [by apply B|]. destruct (bo_queue _ _ _ _ _ _ _ B) as (l1 & l2 & Hl & Hl' & Hp).
    exists l1, l2. unfold sem_view. rewrite Hs, Hs', Hz, Hl'.
    change (k_tq (thread_st _ _ k)) with (k_tq k) in Hl. rewrite Hl. done.
Qed.

(** C11: [rt_sem_release] hands the unit over: the first waiting thread is made
    runnable, its timer no longer runs, the value stays as it is and the
    scheduler has been called. Without a waiting thread the value goes up by
    one; at its maximum 65535 the call fails with [-RT_EFULL] and changes
    nothing. The semaphore and the kernel invariant hold afterwards. *)
Theorem sem_release_correct k sem s :
  kernel_ok k -> sem_ok k sem s -> is_Some (k_current k) -> k_lock_nest k = 0 ->
  exists r k' s', rt_sem_release sem k = Some (r, k') /\ kernel_ok k' /\ sem_ok k' sem s' /\
    match qget (k_tq k) (QSem sem) with
    | t :: l => r = RT_EOK /\ sem_view sem k' = Some (SemAbs (sem_value s) l) /\
        highest_running k' /\ (forall l, is_global l -> TmThread t ∉ qget (k_tmq k') l) /\
        exists th, k_threads k !! t = Some th /\ runnable k' t th
    | [] => if sem_value s <? RT_SEM_VALUE_MAX
            then r = RT_EOK /\ sem_view sem k' = Some (SemAbs (sem_value s + 1) [])
            else r = - RT_EFULL /\ k' = k
    end.
Proof.
  intros Hok Hso Hc Hl. pose proof (so_lookup _ _ _ Hso) as Hs.
  pose proof (so_value _ _ _ Hso) as Hv. pose proof (so_waiters _ _ _ Hso) as Hw.
  destruct (sem_release_spec k sem s Hok Hso Hc) as (r & k' & E & Hok' & Hr).
  destruct (qget (k_tq k) (QSem sem)) as [|t l] eqn:El.
  - destruct (Z.ltb_spec (sem_value s) RT_SEM_VALUE_MAX).
    + destruct Hr as [-> ->]. eexists _, _, (set_sem_value (sem_value s + 1) s).
      split; [exact E|]. split; [done|].
      split; [constructor; [apply lookup_insert_eq|apply Hso|simpl; lia|done]|].
      split; [done|]. unfold sem_view, sem_st; kfields. by rewrite lookup_insert_eq, El.
    + destruct Hr as [-> ->]. by exists (- RT_EFULL), k, s.
  - destruct Hr as [-> (th & Hth & W)].
    assert (k_sems k' !! sem = Some s) as Hs' by (by rewrite (of_sems _ _ (wo_frame _ _ _ _ _ W))).
    pose proof (wo_queue _ _ _ _ _ W) as Hq. rewrite El in Hq. injection Hq as Hq.
    assert (sem_value s = 0) as Hz by (destruct (decide (0 < sem_value s)); [by apply Hw in l0|lia]).
    exists RT_EOK, k', s. split; [done|]. split; [done|].
    split; [constructor; [done|apply Hso|done|lia]|].
    split; [done|]. split; [unfold sem_view; by rewrite Hs', Hq|].
    split; [by apply W|]. split; [by apply W|]. exists th. split; [done|apply W].
Qed.

(** *** The end of a wait *)

(** Thread [t] can run again, and its call of [rt_sem_take] returns [e]. *)
Definition told (t : nat) (e : Z) (k : kstate) : Prop :=
  exists th, k_threads k !! t = Some th /\ ~ blocked th /\ rt_sem_take_return t k = Some (e, k).

Lemma runnable_told t th e k : runnable k t (set_th_error e th) -> told t e k.
Proof.
  intros (st & Ht & Hb). eexists. split; [done|]. split; [done|]. unfold rt_sem_take_return. mrun.
  rewrite (get_thread_eq t k _ Ht). simpl. by destruct (Z.eqb_spec e RT_EOK) as [->|].
Qed.

(** The semaphore's header outside and inside the container. *)
Lemma sem_system k sem s :
  k_sems k !! sem = Some s ->
  assert_system (OSem sem) (negb (Z.land (o_type (sem_parent s)) RT_Object_Class_Static =? 0)) k = Some (tt, k).
Proof.
  intros Hs. unfold assert_system, rt_object_is_systemobject, get_hdr, rt_assert. mrun.
  rewrite (sem_hdr k sem s Hs). by rewrite eqb_reflx.
Qed.

Lemma objlist_remove k sem cls : OSem sem ∉ qget (rt_list_remove (OSem sem) (k_objlist k)) cls.
Proof. rewrite qget_remove. intros H. by apply list_elem_of_filter in H as [? _]. Qed.

Section ending.
Context (k : kstate) (sem : nat) (s : rt_semaphore).
Context (Hok : kernel_ok k) (Hso : sem_ok k sem s).

Lemma sem_reset_spec arg :
  is_Some (k_current k) ->
  exists k', rt_sem_control sem RT_IPC_CMD_RESET arg k = Some (RT_EOK, k') /\ kernel_ok k' /\
    sem_view sem k' = Some (SemAbs (u16 arg) []) /\
    forall t, t ∈ qget (k_tq k) (QSem sem) -> told t (- RT_ERROR) k'.
Proof using Hok Hso.
  intros Hc. pose proof (so_lookup _ _ _ Hso) as Hs.
  destruct (resume_all_spec (QSem sem) k Hok) as (k1 & E & A); [done|].
  assert (k_sems k1 !! sem = Some s) as Hs1 by (by rewrite (of_sems _ _ (wa_frame _ _ _ A))).
  set (k2 := sem_st sem (set_sem_value (u16 arg) s) k1).
  assert (kernel_ok k2) as Hok2 by (by apply sem_st_kernel_ok, A).
  destruct (schedule_kernel k2 Hok2) as (k' & Es & Hok' & F & _); [simpl; by rewrite (wa_current _ _ _ A)|].
  exists k'. split; [|split; [done|split]].
  - unfold rt_sem_control, upd_sem, put_sem. mrun.
    rewrite (assert_type_eq _ _ k (sem_parent s)) by (by apply sem_hdr || apply Hso).
    change (RT_IPC_CMD_RESET =? RT_IPC_CMD_RESET) with true. cbv beta iota. rewrite E, (get_sem_eq sem s k1 Hs1).
    fold (sem_st sem (set_sem_value (u16 arg) s) k1) k2. by rewrite Es.
  - unfold sem_view. rewrite (of_sems _ _ (sched_obj_frame _ _ F)), (sf_wait _ _ F) by done.
    unfold k2, sem_st; kfields. by rewrite lookup_insert_eq, (wa_queue _ _ _ A).
  - intros t Ht. destruct (so_wait _ _ (ok_inv _ (ko_sched _ Hok)) (QSem sem) t) as (th & Hth & _); [done|done|].
    destruct (wa_woken _ _ _ A t th Ht Hth) as (st & Hst & Hb). apply (runnable_told t th).
    by apply (runnable_sched t (set_th_error (- RT_ERROR) th) k2 k' st F).
Qed.

(** What is left of the semaphore is not among the objects of the kernel. *)
Lemma sem_detach_spec :
  Z.land (o_type (sem_parent s)) RT_Object_Class_Static <> 0 ->
  exists k', rt_sem_detach sem k = Some (RT_EOK, k') /\ kernel_ok k' /\
    qget (k_tq k') (QSem sem) = [] /\ (forall cls, OSem sem ∉ qget (k_objlist k') cls) /\
    forall t, t ∈ qget (k_tq k) (QSem sem) -> told t (- RT_ERROR) k'.
Proof using Hok Hso.
  intros Hstatic. pose proof (so_lookup _ _ _ Hso) as Hs.
  destruct (resume_all_spec (QSem sem) k Hok) as (k1 & E & A); [done|].
  assert (k_sems k1 !! sem = Some s) as Hs1 by (by rewrite (of_sems _ _ (wa_frame _ _ _ A))).
  pose proof (sem_system k sem s Hs) as Esys. rewrite (proj2 (Z.eqb_neq _ _) Hstatic) in Esys.
  eexists. split; [|split; [|split; [|split]]].
  - unfold rt_sem_detach, rt_object_detach, get_hdr, put_hdr, modify_objlist. mrun.
    rewrite (assert_type_eq _ _ k (sem_parent s)) by (by apply sem_hdr || apply Hso).
    simpl negb in Esys. rewrite Esys, E, (sem_hdr k1 sem s Hs1). reflexivity.
  - apply (kernel_ok_objects k1); try done. apply A.
  - apply A.
  - intros cls. simpl. apply objlist_remove.
  - intros t Ht. destruct (so_wait _ _ (ok_inv _ (ko_sched _ Hok)) (QSem sem) t) as (th & Hth & _); [done|done|].
    apply (runnable_told t th). destruct (wa_woken _ _ _ A t th Ht Hth) as (st & Hst & Hb). by exists st.
Qed.

Lemma sem_delete_spec :
  Z.land (o_type (sem_parent s)) RT_Object_Class_Static = 0 -> k_interrupt_nest k = 0 ->
  exists k', rt_sem_delete sem k = Some (RT_EOK, k') /\ kernel_ok k' /\ k_sems k' !! sem = None /\
    qget (k_tq k') (QSem sem) = [] /\ (forall cls, OSem sem ∉ qget (k_objlist k') cls) /\
    forall t, t ∈ qget (k_tq k) (QSem sem) -> told t (- RT_ERROR) k'.
Proof using Hok Hso.
  intros Hheap Hni. pose proof (so_lookup _ _ _ Hso) as Hs.
  destruct (resume_all_spec (QSem sem) k Hok) as (k1 & E & A); [done|].
  assert (k_sems k1 !! sem = Some s) as Hs1 by (by rewrite (of_sems _ _ (wa_frame _ _ _ A))).
  pose proof (sem_system k sem s Hs) as Esys. rewrite Hheap in Esys. simpl negb in Esys.
  assert (RT_DEBUG_NOT_IN_INTERRUPT k = Some (tt, k)) as Eni.
  { unfold RT_DEBUG_NOT_IN_INTERRUPT, rt_interrupt_get_nest, rt_assert. mrun. by rewrite Hni. }
  eexists. split; [|split; [|split; [|split; [|split]]]].
  - unfold rt_sem_delete, rt_object_delete, get_hdr, put_hdr, modify_objlist, rt_assert. mrun.
    rewrite (assert_type_eq _ _ k (sem_parent s)) by (by apply sem_hdr || apply Hso).
    rewrite Esys, Eni, E, (sem_hdr k1 sem s Hs1), Hheap. reflexivity.
  - apply (kernel_ok_objects k1); try done. apply A.
  - apply lookup_delete_eq.
  - apply A.
  - intros cls. simpl. apply objlist_remove.
  - intros t Ht. destruct (so_wait _ _ (ok_inv _ (ko_sched _ Hok)) (QSem sem) t) as (th & Hth & _); [done|done|].
    apply (runnable_told t th). destruct (wa_woken _ _ _ A t th Ht Hth) as (st & Hst & Hb). by exists st.
Qed.

(** The timer of one of the waiting threads expires. *)
Lemma sem_expiry_spec t :
  is_Some (k_current k) -> t ∈ qget (k_tq k) (QSem sem) ->
  (forall tl, is_global tl -> TmThread t ∉ qget (k_tmq k) tl) ->
  exists k', _thread_timeout t k = Some (tt, k') /\ kernel_ok k' /\ told t (- RT_ETIMEOUT) k' /\
    sem_view sem k' = Some (SemAbs (sem_value s) (filter (fun x => x <> t) (qget (k_tq k) (QSem sem)))).
Proof using Hok Hso.
  intros Hc Hin Hun.
  destruct (so_wait _ _ (ok_inv _ (ko_sched _ Hok)) (QSem sem) t) as (th & Hth & Hst); [done|done|].
  destruct (timeout_spec t th k Hok Hc Hth Hst Hun) as (k1 & k' & E & W & _ & Hok' & F & _).
  exists k'. do 2 (split; [done|]). split.
  - apply (runnable_told t th). by apply (runnable_woken _ _ _ k1 _ W).
  - unfold sem_view. rewrite (of_sems _ _ (sched_obj_frame _ _ F)), (of_sems _ _ (wk_frame _ _ _ _ W)).
    unfold thread_st; kfields. rewrite (so_lookup _ _ _ Hso), (sf_wait _ _ F), (wk_tq _ _ _ _ W) by done. done.
Qed.
End ending.

(** C38: how a wait on a semaphore ends is what the caller is told, when
    [rt_sem_take] returns in the woken thread. After [rt_sem_release] the first of the waiting
    threads is told [RT_EOK], and the others go on waiting; when the timer of one of them,
    whichever it is, expires, that one is told [-RT_ETIMEOUT], and only it has left the list;
    after [rt_sem_control] with the command RESET, [rt_sem_detach] or [rt_sem_delete] all of
    them are told [-RT_ERROR] and nobody waits any more: a reset semaphore has the
    value it was given, a detached or deleted one is not in the list of objects any more. In
    each case the thread can run; a release, whose unit is handed over, and a timeout leave
    the value as it is. *)
Theorem sem_wait_outcome k sem s :
  kernel_ok k -> sem_ok k sem s -> is_Some (k_current k) ->
  (forall t th, t ∈ qget (k_tq k) (QSem sem) -> k_threads k !! t = Some th -> th_error th = RT_EOK) ->
  let waiting := qget (k_tq k) (QSem sem) in
  (forall t l, waiting = t :: l ->
     exists k', rt_sem_release sem k = Some (RT_EOK, k') /\ kernel_ok k' /\ told t RT_EOK k' /\
       sem_view sem k' = Some (SemAbs (sem_value s) l)) /\
  (forall t, t ∈ waiting -> (forall tl, is_global tl -> TmThread t ∉ qget (k_tmq k) tl) ->
     exists k', _thread_timeout t k = Some (tt, k') /\ kernel_ok k' /\ told t (- RT_ETIMEOUT) k' /\
       sem_view sem k' = Some (SemAbs (sem_value s) (filter (fun x => x <> t) waiting))) /\
  (forall arg, exists k', rt_sem_control sem RT_IPC_CMD_RESET arg k = Some (RT_EOK, k') /\ kernel_ok k' /\
     sem_view sem k' = Some (SemAbs (u16 arg) []) /\ forall t, t ∈ waiting -> told t (- RT_ERROR) k') /\
  (if Z.land (o_type (sem_parent s)) RT_Object_Class_Static =? 0 then
     k_interrupt_nest k = 0 ->
     exists k', rt_sem_delete sem k = Some (RT_EOK, k') /\ kernel_ok k' /\ k_sems k' !! sem = None /\
       qget (k_tq k') (QSem sem) = [] /\ (forall cls, OSem sem ∉ qget (k_objlist k') cls) /\
       forall t, t ∈ waiting -> told t (- RT_ERROR) k'
   else
     exists k', rt_sem_detach sem k = Some (RT_EOK, k') /\ kernel_ok k' /\
       qget (k_tq k') (QSem sem) = [] /\ (forall cls, OSem sem ∉ qget (k_objlist k') cls) /\
       forall t, t ∈ waiting -> told t (- RT_ERROR) k').
Proof.
  intros Hok Hso Hc He waiting. split; [|split; [|split]].
  - intros t l Hl. destruct (sem_release_spec k sem s Hok Hso Hc) as (r & k' & E & Hok' & Hr).
    unfold waiting in Hl. rewrite Hl in Hr. destruct Hr as [-> (th & Hth & W)].
    exists k'. do 2 (split; [done|]). split.
    + apply (runnable_told t th). assert (th = set_th_error RT_EOK th) as <-; [|apply W].
      specialize (He t th). rewrite Hl in He. specialize (He ltac:(by left) Hth). destruct th; simpl in He; by subst.
    + pose proof (wo_queue _ _ _ _ _ W) as Hq. rewrite Hl in Hq. injection Hq as Hq.
      unfold sem_view. by rewrite (of_sems _ _ (wo_frame _ _ _ _ _ W)), (so_lookup _ _ _ Hso), Hq.
  - intros t Ht Hun. by apply sem_expiry_spec.
  - intros arg. by apply (sem_reset_spec k sem s).
  - destruct (Z.eqb_spec (Z.land (o_type (sem_parent s)) RT_Object_Class_Static) 0).
    + by apply (sem_delete_spec k sem s).
    + by apply (sem_detach_spec k sem s).
Qed.

(** ** A concrete semaphore *)

(** Semaphore 0 without units; the main thread waits on it for five ticks and
    thread 3 has the processor. *)
Definition sem_demo : kstate := after (rt_sem_init 0 [115] 0 RT_IPC_FLAG_FIFO) demo_state.
Definition sem_demo_waiting : kstate := after (rt_sem_take 0 5) sem_demo.
Definition sem_at (sem : nat) (k : kstate) : rt_semaphore := default raw_semaphore (k_sems k !! sem).

(** A concrete semaphore without units is in order. *)
Ltac concrete_sem :=
  constructor; [vm_compute; reflexivity
    |split; [vm_compute; reflexivity|left; vm_compute; reflexivity]
    |vm_compute; split; discriminate
    |let Hp := fresh in intros Hp; vm_compute in Hp; discriminate Hp].

Lemma sem_take_correct_witness :
  exists r k' s', rt_sem_take 0 5 sem_demo = Some (r, k') /\ kernel_ok k' /\ sem_ok k' 0 s' /\
    r = Wait tt.
Proof.
  destruct (sem_take_correct sem_demo 0 (sem_at 0 sem_demo) 0 (thread_at 0 sem_demo) 5)
    as (r & k' & s' & E & Hok & Hso & _ & _ & Hw).
  - apply kernel_check_sound. vm_compute. reflexivity.
  - concrete_sem.
  - constructor; vm_compute; reflexivity.
  - vm_compute. reflexivity.
  - exists r, k', s'. split_and!; try assumption. apply Hw; vm_compute; [reflexivity|discriminate].
Defined.

Lemma sem_release_correct_witness :
  qget (k_tq sem_demo_waiting) (QSem 0) = [0%nat] /\
  exists r k' s', rt_sem_release 0 sem_demo_waiting = Some (r, k') /\ kernel_ok k' /\
    sem_ok k' 0 s' /\ sem_view 0 k' = Some (SemAbs 0 []).
Proof.
  split; [vm_compute; reflexivity|].
  destruct (sem_release_correct sem_demo_waiting 0 (sem_at 0 sem_demo_waiting))
    as (r & k' & s' & E & Hok & Hso & H).
  - apply kernel_check_sound. vm_compute. reflexivity.
  - concrete_sem.
  - vm_compute. eauto.
  - vm_compute. reflexivity.
  - exists r, k', s'. split_and!; try assumption. revert H.
    replace (qget (k_tq sem_demo_waiting) (QSem 0)) with [0%nat] by (vm_compute; reflexivity).
    intros (_ & Hv & _). rewrite Hv. vm_compute. reflexivity.
Defined.

Lemma sem_wait_outcome_witness :
  (exists k', rt_sem_release 0 sem_demo_waiting = Some (RT_EOK, k') /\ told 0 RT_EOK k') /\
  (exists k', rt_sem_detach 0 sem_demo_waiting = Some (RT_EOK, k') /\ told 0 (- RT_ERROR) k').
Proof.
  assert (qget (k_tq sem_demo_waiting) (QSem 0) = [0%nat]) as Hq by (vm_compute; reflexivity).
  destruct (sem_wait_outcome sem_demo_waiting 0 (sem_at 0 sem_demo_waiting)) as (Hr & _ & _ & Hd).
  - apply kernel_check_sound. vm_compute. reflexivity.
  - concrete_sem.
  - vm_compute. eauto.
  - rewrite Hq. intros t th Ht Hth. apply list_elem_of_singleton in Ht. subst t.
    vm_compute in Hth. injection Hth as <-. reflexivity.
  - split.
    + destruct (Hr 0%nat [] Hq) as (k' & E & _ & T & _). exists k'. split; assumption.
    + assert ((Z.land (o_type (sem_parent (sem_at 0 sem_demo_waiting))) RT_Object_Class_Static =? 0) = false) as Ht
        by (vm_compute; reflexivity).
      rewrite Ht in Hd. destruct Hd as (k' & E & _ & _ & _ & T). exists k'. split; [exact E|]. apply T.
      rewrite Hq. left.
Defined.
