(* ===== verification/SemSystem.v ===== *)
(** * Semaphores in a system of threads

    Any interleaving of calls on one semaphore, timeouts, and steps of the rest
    of the system: who holds the units. *)
From S2P Require Import Prelude Kservice Kernel Sched Object Timer Thread KernelInv Boot Ipc IpcSem.



















(** ** A binary semaphore *)



