(* ===== verification/IpcMutex.v ===== *)
(** * Mutexes

    The mutex functions of [src/ipc.c], with their priority inheritance. *)
From S2P Require Import Prelude Kservice Kernel Sched Object Timer Thread KernelInv Boot Ipc.

Definition RT_MUTEX_VALUE_MAX : Z := 65535.
Definition RT_MUTEX_HOLD_MAX : Z := 255.

Definition get_mutex (mutex : nat) : M rt_mutex :=
  m ← gets (fun k => k_mutexes k !! mutex); deref m.
Definition put_mutex (mutex : nat) (m : rt_mutex) : M unit :=
  modify (fun k => set_k_mutexes (<[mutex := m]> (k_mutexes k)) k).
Definition upd_mutex (mutex : nat) (f : rt_mutex -> rt_mutex) : M unit :=
  m ← get_mutex mutex; put_mutex mutex (f m).
Definition set_mx_value (x : Z) (m : rt_mutex) : rt_mutex :=
  RtMutex (mx_parent m) x (mx_original_priority m) (mx_hold m) (mx_owner m).
Definition set_mx_hold (x : Z) (m : rt_mutex) : rt_mutex :=
  RtMutex (mx_parent m) (mx_value m) (mx_original_priority m) x (mx_owner m).
Definition set_mx_owner (x : option nat) (priority : Z) (m : rt_mutex) : rt_mutex :=
  RtMutex (mx_parent m) (mx_value m) priority (mx_hold m) x.

(** The fields [rt_mutex_init] and [rt_mutex_create] set. *)
Definition mutex_fields (mutex : nat) : M unit :=
  upd_mutex mutex (set_mx_value 1);;
  upd_mutex mutex (set_mx_owner None 0xff);;
  upd_mutex mutex (set_mx_hold 0);;
  set_flag (OMutex mutex) RT_IPC_FLAG_PRIO.

Definition rt_mutex_init (mutex : nat) (name : list Z) (flag : Z) : M Z :=
  rt_object_init (OMutex mutex) RT_Object_Class_Mutex name;;
  _ipc_object_init (QMutex mutex);;
  mutex_fields mutex;;
  mret RT_EOK.

Definition rt_mutex_detach (mutex : nat) : M Z :=
  assert_type (OMutex mutex) RT_Object_Class_Mutex;;
  assert_system (OMutex mutex) true;;
  _ipc_list_resume_all (QMutex mutex);;
  rt_object_detach (OMutex mutex);;
  mret RT_EOK.

Definition rt_mutex_create (mem : option oid) (name : list Z) (flag : Z) : M (option nat) :=
  RT_DEBUG_NOT_IN_INTERRUPT;;
  mutex ← rt_object_allocate mem RT_Object_Class_Mutex name;
  match mutex with
  | Some (OMutex mutex) =>
      _ipc_object_init (QMutex mutex);;
      mutex_fields mutex;;
      mret (Some mutex)
  | _ => mret None
  end.

Definition rt_mutex_delete (mutex : nat) : M Z :=
  assert_type (OMutex mutex) RT_Object_Class_Mutex;;
  assert_system (OMutex mutex) false;;
  RT_DEBUG_NOT_IN_INTERRUPT;;
  _ipc_list_resume_all (QMutex mutex);;
  rt_object_delete (OMutex mutex);;
  mret RT_EOK.

Definition rt_mutex_take (mutex : nat) (timeout : Z) : M (outcome unit) :=
  RT_DEBUG_SCHEDULER_AVAILABLE true;;
  assert_type (OMutex mutex) RT_Object_Class_Mutex;;
  thread ← current_thread;
  set_error thread RT_EOK;;
  m ← get_mutex mutex;
  if decide (mx_owner m = Some thread) then
    if mx_hold m <? RT_MUTEX_HOLD_MAX then
      put_mutex mutex (set_mx_hold (u8 (mx_hold m + 1)) m);;
      mret (Ret RT_EOK)
    else mret (Ret (- RT_EFULL))
  else if 0 <? mx_value m then
    th ← get_thread thread;
    let m := set_mx_owner (Some thread) (th_current_priority th)
               (set_mx_value (u16 (mx_value m - 1)) m) in
    put_mutex mutex m;;
    if mx_hold m <? RT_MUTEX_HOLD_MAX then
      put_mutex mutex (set_mx_hold (u8 (mx_hold m + 1)) m);;
      mret (Ret RT_EOK)
    else mret (Ret (- RT_EFULL))
  else if timeout =? 0 then
    set_error thread (- RT_ETIMEOUT);;
    mret (Ret (- RT_ETIMEOUT))
  else
    th ← get_thread thread;
    owner ← deref (mx_owner m);
    oth ← get_thread owner;
    when (th_current_priority th <? th_current_priority oth)
      (rt_thread_control owner RT_THREAD_CTRL_CHANGE_PRIORITY (th_current_priority th);; mret tt);;
    flag ← get_flag (OMutex mutex);
    block_on (QMutex mutex) thread flag timeout;;
    mret (Wait tt).

Definition rt_mutex_take_return (thread : nat) : M Z :=
  th ← get_thread thread;
  if negb (th_error th =? RT_EOK) then mret (th_error th) else mret RT_EOK.

Definition rt_mutex_trytake (mutex : nat) : M (outcome unit) := rt_mutex_take mutex 0.

Definition rt_mutex_release (mutex : nat) : M Z :=
  assert_type (OMutex mutex) RT_Object_Class_Mutex;;
  RT_DEBUG_IN_THREAD_CONTEXT;;
  thread ← current_thread;
  m ← get_mutex mutex;
  if decide (mx_owner m <> Some thread) then
    set_error thread (- RT_ERROR);;
    mret (- RT_ERROR)
  else
    let m := set_mx_hold (u8 (mx_hold m - 1)) m in
    put_mutex mutex m;;
    if mx_hold m =? 0 then
      th ← get_thread thread;
      when (negb (mx_original_priority m =? th_current_priority th))
        (rt_thread_control thread RT_THREAD_CTRL_CHANGE_PRIORITY (mx_original_priority m);; mret tt);;
      empty ← gets (fun k => rt_list_isempty (QMutex mutex) (k_tq k));
      if negb empty then
        next ← list_first (QMutex mutex);
        nth ← get_thread next;
        let m := set_mx_owner (Some next) (th_current_priority nth) m in
        put_mutex mutex m;;
        if mx_hold m <? RT_MUTEX_HOLD_MAX then
          put_mutex mutex (set_mx_hold (u8 (mx_hold m + 1)) m);;
          _ipc_list_resume (QMutex mutex);;
          rt_schedule;;
          mret RT_EOK
        else mret (- RT_EFULL)
      else if mx_value m <? RT_MUTEX_VALUE_MAX then
        put_mutex mutex (set_mx_owner None 0xff (set_mx_value (u16 (mx_value m + 1)) m));;
        mret RT_EOK
      else mret (- RT_EFULL)
    else mret RT_EOK.

Definition rt_mutex_control (mutex : nat) (cmd arg : Z) : M Z :=
  assert_type (OMutex mutex) RT_Object_Class_Mutex;;
  mret (- RT_ERROR).

(** ** Correctness *)

(** A mutex is free, with nobody waiting, or has an owner that holds it
    between once and 255 times. *)
Record mutex_ok (k : kstate) (mutex : nat) (m : rt_mutex) : Prop := MutexOk {
  mo_lookup : k_mutexes k !! mutex = Some m;
  mo_type : has_type RT_Object_Class_Mutex (mx_parent m);
  mo_flag : o_flag (mx_parent m) = RT_IPC_FLAG_PRIO;
  mo_state :
    match mx_owner m with
    | None => mx_value m = 1 /\ mx_hold m = 0 /\ qget (k_tq k) (QMutex mutex) = []
    | Some t => mx_value m = 0 /\ 1 <= mx_hold m <= RT_MUTEX_HOLD_MAX /\
        0 <= mx_original_priority m < 32 /\
        exists th, k_threads k !! t = Some th /\ stat_of th <> RT_THREAD_CLOSE
    end
}.

Definition mutex_st (mutex : nat) (m : rt_mutex) (k : kstate) : kstate :=
  set_k_mutexes (<[mutex := m]> (k_mutexes k)) k.

Lemma get_mutex_eq mutex m k : k_mutexes k !! mutex = Some m -> get_mutex mutex k = Some (m, k).
Proof. intros H. unfold get_mutex. mrun. by rewrite H. Qed.

Lemma mutex_hdr k mutex m :
  k_mutexes k !! mutex = Some m -> obj_hdr (OMutex mutex) k = Some (mx_parent m).
Proof. intros H. simpl. by rewrite H. Qed.

Lemma mutex_st_ok mutex m k : kernel_ok k -> kernel_ok (mutex_st mutex m k).
Proof. by apply kernel_ok_objects. Qed.

(** The opening of [rt_mutex_take]. *)
Lemma mutex_take_enter k mutex m c th timeout :
  kernel_ok k -> mutex_ok k mutex m -> can_block k c th ->
  let k0 := thread_st c (set_th_error RT_EOK th) k in
  kernel_ok k0 /\ k_mutexes k0 !! mutex = Some m /\
  k_threads k0 !! c = Some (set_th_error RT_EOK th) /\
  rt_mutex_take mutex timeout k =
    (if decide (mx_owner m = Some c) then
       if mx_hold m <? RT_MUTEX_HOLD_MAX then
         put_mutex mutex (set_mx_hold (u8 (mx_hold m + 1)) m);; mret (Ret RT_EOK)
       else mret (Ret (- RT_EFULL))
     else if 0 <? mx_value m then
       th ← get_thread c;
       let m := set_mx_owner (Some c) (th_current_priority th)
                  (set_mx_value (u16 (mx_value m - 1)) m) in
       put_mutex mutex m;;
       if mx_hold m <? RT_MUTEX_HOLD_MAX then
         put_mutex mutex (set_mx_hold (u8 (mx_hold m + 1)) m);; mret (Ret RT_EOK)
       else mret (Ret (- RT_EFULL))
     else if timeout =? 0 then set_error c (- RT_ETIMEOUT);; mret (Ret (- RT_ETIMEOUT))
     else
       th ← get_thread c;
       owner ← deref (mx_owner m);
       oth ← get_thread owner;
       when (th_current_priority th <? th_current_priority oth)
         (rt_thread_control owner RT_THREAD_CTRL_CHANGE_PRIORITY (th_current_priority th);; mret tt);;
       flag ← get_flag (OMutex mutex);
       block_on (QMutex mutex) c flag timeout;;
       mret (Wait tt)) k0.
Proof.
  intros Hok Hmo Hcb k0. pose proof (cb_thread _ _ _ Hcb) as Hth.
  destruct (set_error_ok c th RT_EOK k Hok Hth) as [E Hok0]. fold k0 in E, Hok0.
  split; [done|]. split; [apply Hmo|]. split; [apply thread_st_lookup|].
  unfold rt_mutex_take at 1. mrun. rewrite (scheduler_available k c th) by done.
  rewrite (assert_type_eq _ _ k (mx_parent m)) by (apply mutex_hdr, Hmo || apply Hmo).
  rewrite (current_thread_eq k c) by apply Hcb. rewrite E.
  rewrite (get_mutex_eq mutex m k0) by apply Hmo. done.
Qed.

(** Setting the priority of a thread under a condition. *)
Lemma adjust_spec (b : bool) o p tho k :
  kernel_ok k -> k_threads k !! o = Some tho -> stat_of tho <> RT_THREAD_CLOSE -> 0 <= p < 32 ->
  exists k' tho',
    when b (rt_thread_control o RT_THREAD_CTRL_CHANGE_PRIORITY p;; mret tt) k = Some (tt, k') /\
    kernel_ok k' /\ obj_frame k k' /\ k_current k' = k_current k /\
    k_threads k' = <[o := tho']> (k_threads k) /\ stat_of tho' = stat_of tho /\
    th_current_priority tho' = (if b then p else th_current_priority tho) /\
    (forall q, (forall p, q <> QReady p) -> qget (k_tq k') q = qget (k_tq k) q).
Proof.
  intros Hok Ho Hc Hp. destruct b.
  - destruct (change_priority_spec o tho p k Hok Ho Hc Hp) as (k' & E & R).
    exists k', (with_priority p tho). split; [mrun; by rewrite E|]. destruct R. done.
  - exists k, tho. mrun. split_and!; try done. by rewrite insert_id.
Qed.

Lemma owned_ok k mutex m t th :
  k_mutexes k !! mutex = Some m -> has_type RT_Object_Class_Mutex (mx_parent m) ->
  o_flag (mx_parent m) = RT_IPC_FLAG_PRIO -> mx_owner m = Some t -> mx_value m = 0 ->
  1 <= mx_hold m <= 255 -> 0 <= mx_original_priority m < 32 ->
  k_threads k !! t = Some th -> stat_of th <> RT_THREAD_CLOSE -> mutex_ok k mutex m.
Proof.
  intros Hm Hty Hfl Ho Hv Hh Hp Ht Hc. constructor; try done. rewrite Ho. unfold RT_MUTEX_HOLD_MAX.
  split; [done|]. split; [lia|]. split; [lia|]. by exists th.
Qed.

Section take.
Context (k : kstate) (mutex : nat) (m : rt_mutex) (c : nat) (th : rt_thread) (timeout : Z).
Context (Hok : kernel_ok k) (Hmo : mutex_ok k mutex m) (Hcb : can_block k c th).

Lemma can_block_open : stat_of th <> RT_THREAD_CLOSE.
Proof using Hcb. by rewrite (cb_running _ _ _ Hcb). Qed.

(** The owner takes the mutex again. *)
Lemma take_again :
  mx_owner m = Some c ->
  exists r k' m', rt_mutex_take mutex timeout k = Some (r, k') /\ kernel_ok k' /\
    mutex_ok k' mutex m' /\ mx_owner m' = Some c /\ k_current k' = Some c /\
    if mx_hold m <? RT_MUTEX_HOLD_MAX then r = Ret RT_EOK /\ mx_hold m' = mx_hold m + 1
    else r = Ret (- RT_EFULL) /\ m' = m.
Proof using All.
  intros Ho. destruct (mutex_take_enter k mutex m c th timeout Hok Hmo Hcb) as (Hok0 & Hm0 & Hc0 & ->).
  pose proof can_block_open as Hnc. destruct Hmo as [_ Hty Hfl Hst]. rewrite Ho in Hst.
  destruct Hst as (Hv & Hh & Horig & _). unfold RT_MUTEX_HOLD_MAX in *.
  rewrite decide_True by done. destruct (Z.ltb_spec (mx_hold m) 255) as [Hlt|Hge].
  - eexists _, _, (set_mx_hold (mx_hold m + 1) m).
    split; [mrun; by rewrite u8_small by lia|]. split; [by apply mutex_st_ok|].
    split; [|split_and!; try done; apply Hcb].
    eapply owned_ok; try done; [apply lookup_insert_eq|simpl; lia].
  - eexists _, _, m. split; [done|]. split; [done|]. split; [|split_and!; try done; apply Hcb].
    by eapply owned_ok.
Qed.

Lemma thread_error_other o tho :
  k_threads k !! o = Some tho -> o <> c -> k_threads (thread_st c (set_th_error RT_EOK th) k) !! o = Some tho.
Proof. intros. unfold thread_st; kfields. by rewrite lookup_insert_ne. Qed.

(** Another thread owns it, and the caller does not want to wait. *)
Lemma take_refused o :
  mx_owner m = Some o -> o <> c -> timeout = 0 ->
  exists k', rt_mutex_take mutex timeout k = Some (Ret (- RT_ETIMEOUT), k') /\ kernel_ok k' /\
    mutex_ok k' mutex m /\ k_current k' = Some c.
Proof using All.
  intros Ho Hne ->. destruct (mutex_take_enter k mutex m c th 0 Hok Hmo Hcb) as (Hok0 & Hm0 & Hc0 & ->).
  set (th0 := set_th_error RT_EOK th) in *. set (k0 := thread_st c th0 k) in *.
  destruct Hmo as [_ Hty Hfl Hst]. rewrite Ho in Hst.
  destruct Hst as (Hv & Hh & Horig & tho & Htho & Hoc). unfold RT_MUTEX_HOLD_MAX in *.
  rewrite decide_False by congruence. rewrite Hv. change (0 <? 0) with false. cbv beta iota.
  destruct (set_error_ok c th0 (- RT_ETIMEOUT) k0 Hok0 Hc0) as [E Hok1].
  change (0 =? 0) with true. cbv beta iota. eexists. split; [mrun; by rewrite E|]. split; [done|]. split; [|apply Hcb].
  eapply owned_ok; try done. unfold thread_st at 1; kfields. rewrite lookup_insert_ne by done.
  apply (thread_error_other o tho Htho Hne).
Qed.

(** Another thread owns it, and the caller waits. *)
Lemma take_wait o :
  mx_owner m = Some o -> o <> c -> timeout <> 0 -> timeout < RT_TICK_MAX / 2 ->
  exists k', rt_mutex_take mutex timeout k = Some (Wait tt, k') /\ kernel_ok k' /\
    mutex_ok k' mutex m /\ highest_running k' /\
    k_threads k' !! c = Some (with_stat RT_THREAD_SUSPEND (set_th_error RT_EOK th)) /\
    (exists l1 l2, qget (k_tq k) (QMutex mutex) = l1 ++ l2 /\
       qget (k_tq k') (QMutex mutex) = l1 ++ c :: l2 /\
       queue_place RT_IPC_FLAG_PRIO (th_current_priority th) (k_threads k') l1 l2) /\
    exists tho tho', k_threads k !! o = Some tho /\ k_threads k' !! o = Some tho' /\
      th_current_priority tho' = Z.min (th_current_priority tho) (th_current_priority th).
Proof using All.
  intros Ho Hne Ht Hto.
  destruct (mutex_take_enter k mutex m c th timeout Hok Hmo Hcb) as (Hok0 & Hm0 & Hc0 & ->).
  set (th0 := set_th_error RT_EOK th) in *. set (k0 := thread_st c th0 k) in *.
  destruct (so_prio _ _ (ok_inv _ (ko_sched _ Hok)) c th (cb_thread _ _ _ Hcb)) as [Hp _].
  destruct Hmo as [Hm Hty Hfl Hst]. rewrite Ho in Hst.
  destruct Hst as (Hv & Hh & Horig & tho & Htho & Hoc). unfold RT_MUTEX_HOLD_MAX in *.
  pose proof (thread_error_other o tho Htho Hne) as Htho0. fold th0 k0 in Htho0.
  rewrite decide_False by congruence. rewrite Hv. change (0 <? 0) with false. cbv beta iota.
  rewrite (proj2 (Z.eqb_neq timeout 0) Ht).
  destruct (adjust_spec (th_current_priority th0 <? th_current_priority tho) o
              (th_current_priority th0) tho k0 Hok0 Htho0 Hoc Hp)
    as (k1 & tho1 & E1 & Hok1 & F1 & Ec1 & Eth1 & Es1 & Ep1 & Eq1).
  assert (k_threads k1 !! c = Some th0) as Hc1 by (by rewrite Eth1, lookup_insert_ne by done).
  destruct (block_on_spec (QMutex mutex) c th0 RT_IPC_FLAG_PRIO timeout k1) as (k' & E' & B);
    [done|done|by right|done|rewrite Ec1; apply Hcb|done|apply Hcb|].
  destruct (rescheduled_open k' o tho1) as (tho' & Htho' & Hoc' & Hop').
  { apply (bo_other _ _ _ _ _ _ _ B); [done|]. rewrite Eth1. apply lookup_insert_eq. }
  { by rewrite Es1. }
  exists k'. split.
  { mrun. rewrite Ho. mrun. rewrite (get_thread_eq c k0 th0), (get_thread_eq o k0 tho) by done.
    revert E1. mrun. intros ->. rewrite (get_flag_eq _ k1 (mx_parent m)), Hfl, E'; [done|].
    apply mutex_hdr. by rewrite (of_mutexes _ _ F1). }
  split; [apply B|]. split.
  { eapply owned_ok; try done.
    by rewrite (of_mutexes _ _ (bo_frame _ _ _ _ _ _ _ B)), (of_mutexes _ _ F1). }
  split; [apply (bo_highest _ _ _ _ _ _ _ B); rewrite (of_lock _ _ F1); apply Hcb|].
  split; [apply B|]. split.
  { destruct (blocked_on_place (QMutex mutex) c th0 RT_IPC_FLAG_PRIO timeout k1 k' Hok1 I Hc1 (cb_running _ _ _ Hcb) B) as (l1 & l2 & H1 & H2 & P).
    exists l1, l2. rewrite <- H1. by rewrite Eq1. }
  exists tho, tho'. split; [done|]. split; [done|]. rewrite Hop', Ep1.
  change (th_current_priority th0) with (th_current_priority th).
  destruct (Z.ltb_spec (th_current_priority th) (th_current_priority tho)); lia.
Qed.

(** Nobody owns it. *)
Lemma take_free_runs :
  mx_owner m = None ->
  exists k' m', rt_mutex_take mutex timeout k = Some (Ret RT_EOK, k') /\ kernel_ok k' /\
    mutex_ok k' mutex m' /\ mx_owner m' = Some c /\ mx_hold m' = 1 /\
    mx_original_priority m' = th_current_priority th /\
    can_block k' c (set_th_error RT_EOK th) /\ qget (k_tq k') (QMutex mutex) = [].
Proof using All.
  intros Ho. destruct (mutex_take_enter k mutex m c th timeout Hok Hmo Hcb) as (Hok0 & Hm0 & Hc0 & ->).
  set (th0 := set_th_error RT_EOK th) in *.
  destruct (so_prio _ _ (ok_inv _ (ko_sched _ Hok)) c th (cb_thread _ _ _ Hcb)) as [Hp _].
  destruct Hmo as [_ Hty Hfl Hst]. rewrite Ho in Hst. destruct Hst as (Hv & Hh & Hq).
  rewrite decide_False by congruence. rewrite Hv. change (0 <? 1) with true. cbv beta iota.
  mrun. rewrite (get_thread_eq c _ _ Hc0). unfold put_mutex at 1. mrun.
  cbn [set_mx_owner set_mx_value set_mx_hold mx_hold]. rewrite Hh.
  eexists _, (set_mx_hold 1 (set_mx_owner (Some c) (th_current_priority th) (set_mx_value 0 m))).
  split; [reflexivity|]. split; [by apply mutex_st_ok, mutex_st_ok|].
  split.
  { eapply (owned_ok _ mutex _ c th0); [apply lookup_insert_eq|done|done|done|done|simpl; lia|done|apply Hc0|].
    apply can_block_open. }
  split_and!; [done|done|done| |exact Hq].
  destruct Hcb as [Hcu Hth Hru Hlk Hni]. constructor; try done.
Qed.

Lemma take_free :
  mx_owner m = None ->
  exists k' m', rt_mutex_take mutex timeout k = Some (Ret RT_EOK, k') /\ kernel_ok k' /\
    mutex_ok k' mutex m' /\ mx_owner m' = Some c /\ mx_hold m' = 1 /\
    mx_original_priority m' = th_current_priority th /\ k_current k' = Some c.
Proof using All.
  intros Ho. destruct (take_free_runs Ho) as (k' & m' & ? & ? & ? & ? & ? & ? & H & _).
  exists k', m'. split_and!; try done. apply H.
Qed.
End take.

(** C5: [rt_mutex_take]. A free mutex becomes the caller's, held once, and the
    caller's priority is noted. The owner may take it again, up to 255 times,
    then it is refused with [-RT_EFULL]. Any other caller is refused with
    [-RT_ETIMEOUT] if it does not want to wait; otherwise it is suspended at
    the place its priority gives it among the waiting threads, and the owner
    inherits its priority if that is better. In every case the mutex and the
    kernel invariant hold afterwards, so there is never more than one owner
    and nobody waits for a free mutex. *)
Theorem mutex_take_correct k mutex m c th timeout :
  kernel_ok k -> mutex_ok k mutex m -> can_block k c th -> timeout < RT_TICK_MAX / 2 ->
  exists r k' m', rt_mutex_take mutex timeout k = Some (r, k') /\ kernel_ok k' /\
    mutex_ok k' mutex m' /\
    match mx_owner m with
    | None => r = Ret RT_EOK /\ mx_owner m' = Some c /\ mx_hold m' = 1 /\
        mx_original_priority m' = th_current_priority th /\ k_current k' = Some c
    | Some o =>
        if decide (o = c) then
          mx_owner m' = Some c /\ k_current k' = Some c /\
          if mx_hold m <? RT_MUTEX_HOLD_MAX then r = Ret RT_EOK /\ mx_hold m' = mx_hold m + 1
          else r = Ret (- RT_EFULL) /\ m' = m
        else if decide (timeout = 0) then
          r = Ret (- RT_ETIMEOUT) /\ m' = m /\ k_current k' = Some c
        else
          r = Wait tt /\ m' = m /\ highest_running k' /\
          k_threads k' !! c = Some (with_stat RT_THREAD_SUSPEND (set_th_error RT_EOK th)) /\
          (exists l1 l2, qget (k_tq k) (QMutex mutex) = l1 ++ l2 /\
             qget (k_tq k') (QMutex mutex) = l1 ++ c :: l2 /\
             queue_place RT_IPC_FLAG_PRIO (th_current_priority th) (k_threads k') l1 l2) /\
          exists tho tho', k_threads k !! o = Some tho /\ k_threads k' !! o = Some tho' /\
            th_current_priority tho' = Z.min (th_current_priority tho) (th_current_priority th)
    end.
Proof.
  intros Hok Hmo Hcb Hto. destruct (mx_owner m) as [o|] eqn:Ho.
  - case_decide as Hoc; [subst o|case_decide as Ht].
    + destruct (take_again k mutex m c th timeout Hok Hmo Hcb Ho) as (r & k' & m' & H). by exists r, k', m'.
    + destruct (take_refused k mutex m c th timeout Hok Hmo Hcb o Ho Hoc Ht) as (k' & ? & ? & ? & ?).
      by exists (Ret (- RT_ETIMEOUT)), k', m.
    + destruct (take_wait k mutex m c th timeout Hok Hmo Hcb o Ho Hoc Ht Hto) as (k' & ? & ? & ? & ?).
      by exists (Wait tt), k', m.
  - destruct (take_free k mutex m c th timeout Hok Hmo Hcb Ho) as (k' & m' & ? & ? & ? & ?).
    by exists (Ret RT_EOK), k', m'.
Qed.

Lemma mutex_release_enter k mutex m c th :
  mutex_ok k mutex m -> can_block k c th ->
  rt_mutex_release mutex k =
    (if decide (mx_owner m <> Some c) then
       set_error c (- RT_ERROR);; mret (- RT_ERROR)
     else
       let m := set_mx_hold (u8 (mx_hold m - 1)) m in
       put_mutex mutex m;;
       if mx_hold m =? 0 then
         th ← get_thread c;
         when (negb (mx_original_priority m =? th_current_priority th))
           (rt_thread_control c RT_THREAD_CTRL_CHANGE_PRIORITY (mx_original_priority m);; mret tt);;
         empty ← gets (fun k => rt_list_isempty (QMutex mutex) (k_tq k));
         if negb empty then
           next ← list_first (QMutex mutex);
           nth ← get_thread next;
           let m := set_mx_owner (Some next) (th_current_priority nth) m in
           put_mutex mutex m;;
           if mx_hold m <? RT_MUTEX_HOLD_MAX then
             put_mutex mutex (set_mx_hold (u8 (mx_hold m + 1)) m);;
             _ipc_list_resume (QMutex mutex);; rt_schedule;; mret RT_EOK
           else mret (- RT_EFULL)
         else if mx_value m <? RT_MUTEX_VALUE_MAX then
           put_mutex mutex (set_mx_owner None 0xff (set_mx_value (u16 (mx_value m + 1)) m));;
           mret RT_EOK
         else mret (- RT_EFULL)
       else mret RT_EOK) k.
Proof.
  intros Hmo Hcb. unfold rt_mutex_release at 1. mrun.
  rewrite (assert_type_eq _ _ k (mx_parent m)) by (apply mutex_hdr, Hmo || apply Hmo).
  assert (RT_DEBUG_IN_THREAD_CONTEXT k = Some (tt, k)) as ->.
  { unfold RT_DEBUG_IN_THREAD_CONTEXT, RT_DEBUG_NOT_IN_INTERRUPT, rt_interrupt_get_nest,
      rt_thread_self, rt_assert. mrun. rewrite (cb_current _ _ _ Hcb). simpl.
    by rewrite (cb_no_isr _ _ _ Hcb). }
  rewrite (current_thread_eq k c) by apply Hcb.
  by rewrite (get_mutex_eq mutex m k) by apply Hmo.
Qed.

Section release.
Context (k : kstate) (mutex : nat) (m : rt_mutex) (c : nat) (th : rt_thread).
Context (Hok : kernel_ok k) (Hmo : mutex_ok k mutex m) (Hcb : can_block k c th).

Lemma release_refused :
  mx_owner m <> Some c ->
  exists k', rt_mutex_release mutex k = Some (- RT_ERROR, k') /\ kernel_ok k' /\
    mutex_ok k' mutex m /\ k_current k' = Some c.
Proof using All.
  intros Ho. rewrite (mutex_release_enter k mutex m c th Hmo Hcb). rewrite decide_True by done.
  destruct (set_error_ok c th (- RT_ERROR) k Hok) as [E Hok1]; [apply Hcb|].
  eexists. split; [mrun; by rewrite E|]. split; [done|]. split; [|apply Hcb].
  destruct Hmo as [Hm Hty Hfl Hst]. constructor; try done. destruct (mx_owner m) as [t|]; [|done].
  destruct Hst as (? & ? & ? & tht & ? & ?). split_and!; try done; try lia. exists tht.
  split; [|done]. unfold thread_st; kfields. by rewrite lookup_insert_ne by congruence.
Qed.

Let m1 := set_mx_hold (mx_hold m - 1) m.
Let k1 := mutex_st mutex m1 k.

Lemma release_nested :
  mx_owner m = Some c -> mx_hold m <> 1 ->
  rt_mutex_release mutex k = Some (RT_EOK, k1) /\ kernel_ok k1 /\ mutex_ok k1 mutex m1.
Proof using All.
  intros Ho H1. rewrite (mutex_release_enter k mutex m c th Hmo Hcb). rewrite decide_False by tauto.
  destruct Hmo as [_ Hty Hfl Hst]. rewrite Ho in Hst.
  destruct Hst as (Hv & Hh & Horig & _). unfold RT_MUTEX_HOLD_MAX in *. rewrite u8_small by lia.
  cbv zeta. fold m1. split.
  { rewrite bind_unfold. change (put_mutex mutex m1 k) with (Some (tt, k1)). cbv beta iota.
    change (mx_hold m1) with (mx_hold m - 1).
    by replace (mx_hold m - 1 =? 0) with false by (symmetry; apply Z.eqb_neq; lia). }
  split; [by apply mutex_st_ok|].
  eapply owned_ok; try done; [apply lookup_insert_eq|simpl; lia|apply Hcb|by eapply can_block_open].
Qed.

(** The last release: the owner's priority is restored. *)
Record restored (k2 : kstate) (th2 : rt_thread) : Prop := Restored {
  rs_ok : kernel_ok k2;
  rs_frame : obj_frame k1 k2;
  rs_current : k_current k2 = Some c;
  rs_threads : k_threads k2 = <[c := th2]> (k_threads k);
  rs_priority : th_current_priority th2 = mx_original_priority m;
  rs_stat : stat_of th2 = stat_of th;
  rs_queue : qget (k_tq k2) (QMutex mutex) = qget (k_tq k) (QMutex mutex)
}.

Lemma release_last :
  mx_owner m = Some c -> mx_hold m = 1 ->
  exists k2 th2, restored k2 th2 /\
    rt_mutex_release mutex k =
      (empty ← gets (fun k => rt_list_isempty (QMutex mutex) (k_tq k));
       if negb empty then
         next ← list_first (QMutex mutex);
         nth ← get_thread next;
         let m := set_mx_owner (Some next) (th_current_priority nth) m1 in
         put_mutex mutex m;;
         if mx_hold m <? RT_MUTEX_HOLD_MAX then
           put_mutex mutex (set_mx_hold (u8 (mx_hold m + 1)) m);;
           _ipc_list_resume (QMutex mutex);; rt_schedule;; mret RT_EOK
         else mret (- RT_EFULL)
       else if mx_value m1 <? RT_MUTEX_VALUE_MAX then
         put_mutex mutex (set_mx_owner None 0xff (set_mx_value (u16 (mx_value m1 + 1)) m1));;
         mret RT_EOK
       else mret (- RT_EFULL)) k2.
Proof using All.
  intros Ho H1. rewrite (mutex_release_enter k mutex m c th Hmo Hcb). rewrite decide_False by tauto.
  pose proof (mo_state _ _ _ Hmo) as Hst. rewrite Ho in Hst.
  destruct Hst as (Hv & Hh & Horig & _). unfold RT_MUTEX_HOLD_MAX in Hh. rewrite u8_small by lia.
  cbv zeta. fold m1. change (mx_hold m1) with (mx_hold m - 1).
  assert (kernel_ok k1) as Hok1 by (by apply mutex_st_ok).
  pose proof (cb_thread _ _ _ Hcb) as Hth. pose proof (can_block_open k c th Hcb) as Hnc.
  destruct (adjust_spec (negb (mx_original_priority m =? th_current_priority th)) c
              (mx_original_priority m) th k1 Hok1 Hth Hnc Horig)
    as (k2 & th2 & E2 & Hok2 & F2 & Ec2 & Eth2 & Es2 & Ep2 & Eq2).
  exists k2, th2. split.
  { constructor; try done; [by rewrite Ec2; apply Hcb| |by rewrite Eq2].
    rewrite Ep2. by destruct (Z.eqb_spec (mx_original_priority m) (th_current_priority th)). }
  rewrite bind_unfold. change (put_mutex mutex m1 k) with (Some (tt, k1)). cbv beta iota.
  rewrite H1. change (1 - 1 =? 0) with true. cbv beta iota.
  rewrite bind_unfold, (get_thread_eq c k1 th) by done. cbv beta iota. rewrite bind_unfold.
  change (mx_original_priority m1) with (mx_original_priority m). by rewrite E2.
Qed.

(** Nobody waits. *)
Lemma release_free :
  mx_owner m = Some c -> mx_hold m = 1 -> qget (k_tq k) (QMutex mutex) = [] ->
  exists k' m' th', rt_mutex_release mutex k = Some (RT_EOK, k') /\ kernel_ok k' /\
    mutex_ok k' mutex m' /\ k_threads k' !! c = Some th' /\
    th_current_priority th' = mx_original_priority m /\ mx_owner m' = None /\ can_block k' c th'.
Proof using All.
  intros Ho H1 El. destruct (release_last Ho H1) as (k2 & th2 & R & ->).
  destruct Hmo as [_ Hty Hfl Hst]. rewrite Ho in Hst. destruct Hst as (Hv & _).
  exists (mutex_st mutex (set_mx_owner None 0xff (set_mx_value 1 m1)) k2),
    (set_mx_owner None 0xff (set_mx_value 1 m1)), th2.
  split. { unfold rt_list_isempty. mrun. rewrite (rs_queue _ _ R), El. cbv beta iota.
    change (mx_value m1) with (mx_value m). by rewrite Hv. }
  split; [apply mutex_st_ok, R|].
  split. { constructor; [apply lookup_insert_eq|done|done|]. simpl. split; [done|].
    split; [lia|]. by rewrite (rs_queue _ _ R). }
  assert (k_threads k2 !! c = Some th2) as Hth2 by (rewrite (rs_threads _ _ R); apply lookup_insert_eq).
  split; [done|]. split; [apply R|]. split; [done|]. destruct Hcb as [_ _ Hru Hlk Hni].
  constructor; [apply R|done|by rewrite (rs_stat _ _ R)| |].
  - change (k_lock_nest k2 = 0). by rewrite (of_lock _ _ (rs_frame _ _ R)).
  - change (k_interrupt_nest k2 = 0). by rewrite (of_interrupt _ _ (rs_frame _ _ R)).
Qed.

(** The first waiting thread becomes the owner. *)
Lemma release_handover t l :
  mx_owner m = Some c -> mx_hold m = 1 -> qget (k_tq k) (QMutex mutex) = t :: l ->
  exists k' m' th' tht, rt_mutex_release mutex k = Some (RT_EOK, k') /\ kernel_ok k' /\
    mutex_ok k' mutex m' /\ k_threads k' !! c = Some th' /\
    th_current_priority th' = mx_original_priority m /\
    mx_owner m' = Some t /\ mx_hold m' = 1 /\ qget (k_tq k') (QMutex mutex) = l /\
    highest_running k' /\ k_threads k !! t = Some tht /\ runnable k' t tht /\
    mx_original_priority m' = th_current_priority tht.
Proof using All.
  intros Ho H1 El. destruct (release_last Ho H1) as (k2 & th2 & R & ->).
  destruct (so_wait _ _ (ok_inv _ (ko_sched _ Hok)) (QMutex mutex) t) as (tht & Htht & Hts);
    [done|rewrite El; by left|].
  assert (t <> c) as Hne.
  { intros ->. rewrite (cb_thread _ _ _ Hcb) in Htht. injection Htht as <-.
    rewrite (cb_running _ _ _ Hcb) in Hts. done. }
  assert (k_threads k2 !! t = Some tht) as Htht2 by (rewrite (rs_threads _ _ R); by rewrite lookup_insert_ne).
  set (m2 := set_mx_hold 1 (set_mx_owner (Some t) (th_current_priority tht) m1)).
  set (k3 := mutex_st mutex m2 (mutex_st mutex (set_mx_owner (Some t) (th_current_priority tht) m1) k2)).
  assert (kernel_ok k3) as Hok3 by (apply mutex_st_ok, mutex_st_ok, R).
  assert (head (qget (k_tq k2) (QMutex mutex)) = Some t) as Hhd by (by rewrite (rs_queue _ _ R), El).
  destruct (wake_first_spec (QMutex mutex) t k3 Hok3) as (tht' & k4 & k' & Ht3 & E4 & E5 & W);
    [done|done|change (is_Some (k_current k2)); rewrite (rs_current _ _ R); by exists c|].
  assert (tht' = tht) as -> by (change (k_threads k3) with (k_threads k2) in Ht3; congruence).
  destruct (wo_other _ _ _ _ _ W c th2) as (s2 & Hs2 & _);
    [done|change (k_threads k2 !! c = Some th2); rewrite (rs_threads _ _ R); apply lookup_insert_eq|].
  destruct (so_prio _ _ (ok_inv _ (ko_sched _ Hok)) t tht Htht) as [Hpt _].
  destruct (wo_runnable _ _ _ _ _ W) as (s & Hrt & Hnb).
  exists k', m2, (set_th_stat s2 th2), tht.
  split. { unfold rt_list_isempty, list_first. mrun. rewrite (rs_queue _ _ R), El. cbv beta iota.
    rewrite Hhd. cbv beta iota. rewrite (get_thread_eq t k2 tht) by done.
    unfold put_mutex at 1. mrun. cbn [set_mx_owner set_mx_value set_mx_hold mx_hold m1]. rewrite H1.
    change (1 - 1 <? RT_MUTEX_HOLD_MAX) with true. cbv beta iota. unfold put_mutex. mrun.
    fold m1. change (set_k_mutexes _ _) with k3. by rewrite E4, E5. }
  split; [apply W|].
  split. { eapply (owned_ok k' mutex m2 t (set_th_stat s tht)); try done; try apply Hmo.
    - rewrite (of_mutexes _ _ (wo_frame _ _ _ _ _ W)). apply lookup_insert_eq.
    - pose proof (mo_state _ _ _ Hmo) as Hst. rewrite Ho in Hst. apply Hst.
    - intros Hcl. apply Hnb. unfold blocked. by rewrite Hcl. }
  split; [done|]. split; [apply R|]. split; [done|]. split; [done|].
  split. { pose proof (wo_queue _ _ _ _ _ W) as Hq. change (k_tq k3) with (k_tq k2) in Hq.
    rewrite (rs_queue _ _ R), El in Hq. by injection Hq. }
  split. { apply (wo_highest _ _ _ _ _ W). change (k_lock_nest k2 = 0).
    rewrite (of_lock _ _ (rs_frame _ _ R)). apply Hcb. }
  split; [done|]. split; [apply W|done].
Qed.
End release.

(** C6: [rt_mutex_release]. Only the owner can release; others get
    [-RT_ERROR] and the mutex stays as it is. A mutex held more than once is
    held once less. Otherwise the owner's priority goes back to what it was
    when it took the mutex, and the mutex passes directly to the first
    waiting thread, which then holds it once and can run, or becomes free if
    nobody waits. In every case the mutex and the kernel invariant hold
    afterwards. *)
Theorem mutex_release_correct k mutex m c th :
  kernel_ok k -> mutex_ok k mutex m -> can_block k c th ->
  exists r k' m', rt_mutex_release mutex k = Some (r, k') /\ kernel_ok k' /\ mutex_ok k' mutex m' /\
    if decide (mx_owner m = Some c) then
      if mx_hold m =? 1 then
        r = RT_EOK /\
        (exists th', k_threads k' !! c = Some th' /\ th_current_priority th' = mx_original_priority m) /\
        match qget (k_tq k) (QMutex mutex) with
        | [] => mx_owner m' = None /\ k_current k' = Some c
        | t :: l => mx_owner m' = Some t /\ mx_hold m' = 1 /\ qget (k_tq k') (QMutex mutex) = l /\
            highest_running k' /\
            exists tht, k_threads k !! t = Some tht /\ runnable k' t tht /\
              mx_original_priority m' = th_current_priority tht
        end
      else r = RT_EOK /\ mx_owner m' = Some c /\ mx_hold m' = mx_hold m - 1 /\ k_current k' = Some c
    else r = - RT_ERROR /\ m' = m /\ k_current k' = Some c.
Proof.
  intros Hok Hmo Hcb. case_decide as Ho.
  2: { destruct (release_refused k mutex m c th Hok Hmo Hcb Ho) as (k' & ? & ? & ? & ?).
    by exists (- RT_ERROR), k', m. }
  destruct (Z.eqb_spec (mx_hold m) 1) as [H1|H1].
  2: { destruct (release_nested k mutex m c th Hok Hmo Hcb Ho H1) as (? & ? & ?).
    eexists _, _, _. split_and!; try done. apply Hcb. }
  destruct (qget (k_tq k) (QMutex mutex)) as [|t l] eqn:El.
  - destruct (release_free k mutex m c th Hok Hmo Hcb Ho H1 El) as (k' & m' & th' & ? & ? & ? & ? & ? & ? & [? _ _ _ _]).
    exists RT_EOK, k', m'. split_and!; eauto.
  - destruct (release_handover k mutex m c th Hok Hmo Hcb t l Ho H1 El)
      as (k' & m' & th' & tht & ? & ? & ? & ? & ? & ? & ? & ? & ? & ? & ? & ?).
    exists RT_EOK, k', m'. split_and!; eauto.
Qed.

(** ** Concrete mutexes *)

(** Mutex 0, free. *)
Definition mutex_demo : kstate := after (rt_mutex_init 0 [109] RT_IPC_FLAG_PRIO) demo_state.
(** Held by the main thread. *)
Definition mutex_demo_held : kstate := after (rt_mutex_take 0 (-1)) mutex_demo.

(** Thread 4, of priority 20, runs, and owns mutex 0; the main thread and
    thread 3, of priority 10, sleep, the first until tick 50. *)
Definition low_owner : M unit :=
  rt_mutex_init 0 [109] RT_IPC_FLAG_PRIO;; rt_mutex_init 1 [110] RT_IPC_FLAG_PRIO;;
  rt_thread_sleep 50;; rt_thread_sleep 1000;; rt_mutex_take 0 (-1);; mret tt.

(** The tick reaches 50 and the main thread runs again. *)
Definition main_wakes : M unit :=
  rt_tick_set 50;; rt_timer_check (fun _ => mret tt) 3.

Definition mutex_demo_wait : kstate := after (low_owner;; main_wakes) demo_state.

Definition mutex_at (mutex : nat) (k : kstate) : rt_mutex :=
  default raw_mutex (k_mutexes k !! mutex).

Lemma mutex_take_correct_witness :
  exists r k' m', rt_mutex_take 0 7 mutex_demo_wait = Some (r, k') /\ kernel_ok k' /\
    mutex_ok k' 0 m' /\ r = Wait tt /\
    exists th, k_threads k' !! 4%nat = Some th /\ th_current_priority th = 10.
Proof.
  destruct (mutex_take_correct mutex_demo_wait 0 (mutex_at 0 mutex_demo_wait) 0
              (thread_at 0 mutex_demo_wait) 7) as (r & k' & m' & E & Hok & Hmo & H).
  - apply kernel_check_sound. vm_compute. reflexivity.
  - constructor; [vm_compute; reflexivity|vm_compute; reflexivity|vm_compute; reflexivity|].
    vm_compute. split_and!; try congruence. eexists. split; [reflexivity|discriminate].
  - constructor; vm_compute; reflexivity.
  - vm_compute. reflexivity.
  - exists r, k', m'. split; [exact E|]. split; [exact Hok|]. split; [exact Hmo|].
    replace (mx_owner (mutex_at 0 mutex_demo_wait)) with (Some 4%nat) in H by (vm_compute; reflexivity).
    destruct (decide (4 = 0)%nat) as [?|_]; [discriminate|].
    destruct (decide (7 = 0)) as [?|_]; [discriminate|].
    destruct H as (-> & _ & _ & _ & _ & tho & tho' & H1 & H2 & H3). split; [reflexivity|].
    exists tho'. split; [exact H2|]. rewrite H3. vm_compute in H1. injection H1 as <-.
    vm_compute. reflexivity.
Defined.

Lemma mutex_release_correct_witness :
  exists r k' m', rt_mutex_release 0 mutex_demo_held = Some (r, k') /\ kernel_ok k' /\
    mutex_ok k' 0 m' /\ r = RT_EOK /\ mx_owner m' = None.
Proof.
  destruct (mutex_release_correct mutex_demo_held 0 (mutex_at 0 mutex_demo_held) 0
              (thread_at 0 mutex_demo_held)) as (r & k' & m' & E & Hok & Hmo & H).
  - apply kernel_check_sound. vm_compute. reflexivity.
  - constructor; [vm_compute; reflexivity|vm_compute; reflexivity|vm_compute; reflexivity|].
    vm_compute. split_and!; try congruence. eexists. split; [reflexivity|discriminate].
  - constructor; vm_compute; reflexivity.
  - exists r, k', m'. split; [exact E|]. split; [exact Hok|]. split; [exact Hmo|].
    replace (mx_owner (mutex_at 0 mutex_demo_held)) with (Some 0%nat) in H by (vm_compute; reflexivity).
    replace (mx_hold (mutex_at 0 mutex_demo_held) =? 1) with true in H by (vm_compute; reflexivity).
    destruct (decide (Some 0%nat = Some 0%nat)) as [_|?]; [|contradiction].
    replace (qget (k_tq mutex_demo_held) (QMutex 0)) with (@nil nat) in H by (vm_compute; reflexivity).
    destruct H as (-> & _ & Hn & _). split; [reflexivity|exact Hn].
Defined.

(** The rest of the first scenario: the main thread waits for mutex 0, so that
    thread 4 inherits priority 10 and runs on; it takes mutex 1, releases 0
    (its priority goes back to 20 and the main thread runs, releases 0 and
    sleeps), and then releases 1. *)
Definition nested_release : M unit :=
  low_owner;; main_wakes;; rt_mutex_take 0 (-1);;
  rt_mutex_take 1 (-1);; rt_mutex_release 0;;
  rt_mutex_release 0;; rt_thread_sleep 1000;;
  rt_mutex_release 1;; mret tt.

(** priority inheritance with two mutexes leaves a thread with a priority
    that is not its own. A mutex remembers the priority its owner has when it
    takes it, inherited or not, and restores that one: thread 4, of priority
    20, ends with priority 10 although it holds no mutex and nobody waits. *)
Theorem mutex_priority_leak :
  th_current_priority (thread_at 4 demo_state) = 20 /\
  exists k', nested_release demo_state = Some (tt, k') /\ k_current k' = Some 4%nat /\
    mx_owner (mutex_at 0 k') = None /\ mx_owner (mutex_at 1 k') = None /\
    th_current_priority (thread_at 4 k') = 10.
Proof.
  split; [vm_compute; reflexivity|]. exists (after nested_release demo_state).
  split; [vm_compute; reflexivity|]. vm_compute. done.
Qed.

(** The main thread waits for mutex 0 for five ticks only, and gives up. *)
Definition timed_out : M Z :=
  low_owner;; main_wakes;; rt_mutex_take 0 5;;
  rt_tick_set 55;; rt_timer_check (fun _ => mret tt) 3;;
  rt_mutex_take_return 0.

(** when the wait that made the owner inherit a priority times out, the
    owner keeps it: the main thread is told [-RT_ETIMEOUT], nobody waits for
    the mutex, and its owner, of priority 20, still has priority 10. *)
Theorem mutex_timeout_keeps_priority :
  exists k', timed_out demo_state = Some (- RT_ETIMEOUT, k') /\
    mx_owner (mutex_at 0 k') = Some 4%nat /\ qget (k_tq k') (QMutex 0) = [] /\
    th_current_priority (thread_at 4 k') = 10.
Proof.
  exists (after timed_out demo_state). split; [vm_compute; reflexivity|]. vm_compute. done.
Qed.
