(* ===== verification/IpcEvent.v ===== *)
(** * Events

    The event functions of [src/ipc.c]. *)
From S2P Require Import Prelude Kservice Kernel Sched Object Timer Thread KernelInv Boot Ipc.

Definition RT_EVENT_FLAG_AND : Z := 1.
Definition RT_EVENT_FLAG_OR : Z := 2.
Definition RT_EVENT_FLAG_CLEAR : Z := 4.

Definition get_event (event : nat) : M rt_event :=
  e ← gets (fun k => k_events k !! event); deref e.
Definition set_event_set (event : nat) (set : Z) : M unit :=
  e ← get_event event;
  modify (fun k => set_k_events (<[event := RtEvent (ev_parent e) set]> (k_events k)) k).

Definition rt_event_init (event : nat) (name : list Z) (flag : Z) : M Z :=
  rt_assert (valid_flag flag);;
  rt_object_init (OEvent event) RT_Object_Class_Event name;;
  set_flag (OEvent event) flag;;
  _ipc_object_init (QEvent event);;
  set_event_set event 0;;
  mret RT_EOK.

Definition rt_event_detach (event : nat) : M Z :=
  assert_type (OEvent event) RT_Object_Class_Event;;
  assert_system (OEvent event) true;;
  _ipc_list_resume_all (QEvent event);;
  rt_object_detach (OEvent event);;
  mret RT_EOK.

Definition rt_event_create (mem : option oid) (name : list Z) (flag : Z) : M (option nat) :=
  rt_assert (valid_flag flag);;
  RT_DEBUG_NOT_IN_INTERRUPT;;
  event ← rt_object_allocate mem RT_Object_Class_Event name;
  match event with
  | Some (OEvent event) =>
      set_flag (OEvent event) flag;;
      _ipc_object_init (QEvent event);;
      set_event_set event 0;;
      mret (Some event)
  | _ => mret None
  end.

Definition rt_event_delete (event : nat) : M Z :=
  assert_type (OEvent event) RT_Object_Class_Event;;
  assert_system (OEvent event) false;;
  RT_DEBUG_NOT_IN_INTERRUPT;;
  _ipc_list_resume_all (QEvent event);;
  rt_object_delete (OEvent event);;
  mret RT_EOK.

Definition has_flag (info flag : Z) : bool := negb (Z.land info flag =? 0).

(** [event->set & ~set] at 32 bits. *)
Definition clear_bits (x set : Z) : Z := Z.land x (Z.lnot set).

(** What a waiting thread asks of the event's set: [Some true] and the bits
    it receives when it can go on, [None] when it asks neither for all nor
    for any of its bits. *)
Definition event_status (th : rt_thread) (set : Z) : option (bool * Z) :=
  if has_flag (th_event_info th) RT_EVENT_FLAG_AND then
    Some (Z.land (th_event_set th) set =? th_event_set th, th_event_set th)
  else if has_flag (th_event_info th) RT_EVENT_FLAG_OR then
    let both := Z.land (th_event_set th) set in
    Some (if both =? 0 then (false, th_event_set th) else (true, both))
  else None.

(** The walk over the waiting threads: [Some need_schedule], or [None] for
    the early return with [-RT_EINVAL]. *)
Fixpoint event_send_loop (event : nat) (nodes : list nat) (need_schedule : bool)
    : M (option bool) :=
  match nodes with
  | [] => mret (Some need_schedule)
  | thread :: nodes =>
      th ← get_thread thread;
      e ← get_event event;
      match event_status th (ev_set e) with
      | None => mret None
      | Some (status, set) =>
          upd_thread thread (fun th => set_th_event set (th_event_info th) th);;
          if status then
            when (has_flag (th_event_info th) RT_EVENT_FLAG_CLEAR)
              (set_event_set event (clear_bits (ev_set e) set));;
            rt_thread_resume thread;;
            event_send_loop event nodes true
          else event_send_loop event nodes need_schedule
      end
  end.

Definition rt_event_send (event : nat) (set : Z) : M Z :=
  assert_type (OEvent event) RT_Object_Class_Event;;
  if set =? 0 then mret (- RT_ERROR)
  else
    e ← get_event event;
    set_event_set event (Z.lor (ev_set e) set);;
    nodes ← gets (fun k => qget (k_tq k) (QEvent event));
    need_schedule ← event_send_loop event nodes false;
    match need_schedule with
    | None => mret (- RT_EINVAL)
    | Some need_schedule => when need_schedule rt_schedule;; mret RT_EOK
    end.

(** The outcome, and what is stored at [*recved] by then. *)
Definition rt_event_recv (event : nat) (set option timeout : Z)
    : M (outcome unit * Datatypes.option Z) :=
  assert_type (OEvent event) RT_Object_Class_Event;;
  RT_DEBUG_SCHEDULER_AVAILABLE true;;
  if set =? 0 then mret (Ret (- RT_ERROR), None)
  else
    thread ← current_thread;
    set_error thread RT_EOK;;
    e ← get_event event;
    status ←
      (if has_flag option RT_EVENT_FLAG_AND then mret (Z.land (ev_set e) set =? set)
       else if has_flag option RT_EVENT_FLAG_OR then mret (negb (Z.land (ev_set e) set =? 0))
       else rt_assert false;; mret false);
    if (status : bool) then
      upd_thread thread (set_th_event (Z.land (ev_set e) set) option);;
      when (has_flag option RT_EVENT_FLAG_CLEAR) (set_event_set event (clear_bits (ev_set e) set));;
      th ← get_thread thread;
      mret (Ret (th_error th), Some (Z.land (ev_set e) set))
    else if timeout =? 0 then
      set_error thread (- RT_ETIMEOUT);;
      mret (Ret (- RT_ETIMEOUT), None)
    else
      upd_thread thread (set_th_event set option);;
      flag ← get_flag (OEvent event);
      block_on (QEvent event) thread flag timeout;;
      mret (Wait tt, None).

Definition rt_event_recv_return (thread : nat) : M (Z * option Z) :=
  th ← get_thread thread;
  if negb (th_error th =? RT_EOK) then mret (th_error th, None)
  else mret (th_error th, Some (th_event_set th)).

Definition rt_event_control (event : nat) (cmd : Z) : M Z :=
  assert_type (OEvent event) RT_Object_Class_Event;;
  if cmd =? RT_IPC_CMD_RESET then
    _ipc_list_resume_all (QEvent event);;
    set_event_set event 0;;
    rt_schedule;;
    mret RT_EOK
  else mret (- RT_ERROR).

(** ** Correctness *)

(** *** What a waiting thread asks for, bit by bit *)

(** Bit 0 of the option asks for all of the bits of the thread's set, bit 1 for any
    of them, and bit 2 to take them away. *)
Definition asks (th : rt_thread) : Prop :=
  Z.testbit (th_event_info th) 0 = true \/ Z.testbit (th_event_info th) 1 = true.

Definition asked (th : rt_thread) (n : Z) : Prop := 0 <= n /\ Z.testbit (th_event_set th) n = true.

(** The bits [set] have what the thread asks for. *)
Definition met (th : rt_thread) (set : Z) : Prop :=
  if Z.testbit (th_event_info th) 0 then forall n, asked th n -> Z.testbit set n = true
  else exists n, asked th n /\ Z.testbit set n = true.

(** Who is served with the bits [set], in the order of the list: the bits that are left, the
    threads that go on with the bits each receives, and the threads that keep waiting. *)
Inductive answered : Z -> list (nat * rt_thread) -> Z * list (nat * Z) * list nat -> Prop :=
  | an_done set : answered set [] (set, [], [])
  | an_waits set t th ws s w r :
      ~ met th set -> answered set ws (s, w, r) -> answered set ((t, th) :: ws) (s, w, t :: r)
  | an_goes set left bits t th ws s w r :
      met th set ->
      (forall n, 0 <= n -> Z.testbit bits n = Z.testbit (th_event_set th) n && Z.testbit set n) ->
      (forall n, 0 <= n ->
         Z.testbit left n = Z.testbit set n && negb (Z.testbit (th_event_info th) 2 && Z.testbit bits n)) ->
      answered left ws (s, w, r) -> answered set ((t, th) :: ws) (s, (t, bits) :: w, r).

Lemma land_bit x n : 0 <= n -> Z.land x (2 ^ n) = if Z.testbit x n then 2 ^ n else 0.
Proof.
  intros Hn. apply Z.bits_inj'. intros i Hi. rewrite Z.land_spec, Z.pow2_bits_eqb by done.
  destruct (Z.eqb_spec n i) as [->|Hne].
  - rewrite andb_true_r. destruct (Z.testbit x i); [by rewrite Z.pow2_bits_true|by rewrite Z.bits_0].
  - rewrite andb_false_r. destruct (Z.testbit x n); [by rewrite Z.pow2_bits_false|by rewrite Z.bits_0].
Qed.

Lemma has_flag_bit info n : 0 <= n -> has_flag info (2 ^ n) = Z.testbit info n.
Proof.
  intros Hn. unfold has_flag. rewrite land_bit by done. destruct (Z.testbit info n); [|done].
  by rewrite (proj2 (Z.eqb_neq _ _)) by (apply Z.pow_nonzero; lia).
Qed.

Lemma flag_and info : has_flag info RT_EVENT_FLAG_AND = Z.testbit info 0.
Proof. by apply (has_flag_bit info 0). Qed.
Lemma flag_or info : has_flag info RT_EVENT_FLAG_OR = Z.testbit info 1.
Proof. by apply (has_flag_bit info 1). Qed.
Lemma flag_clear info : has_flag info RT_EVENT_FLAG_CLEAR = Z.testbit info 2.
Proof. by apply (has_flag_bit info 2). Qed.

(** A number that is not zero has a bit. *)
Lemma nonzero_bit x : x <> 0 -> exists n, 0 <= n /\ Z.testbit x n = true.
Proof.
  intros Hx. destruct (Z.lt_trichotomy x 0) as [Hn|[?|Hp]]; [|done|].
  - exists (Z.succ (Z.log2 (Z.pred (- x)))). pose proof (Z.log2_nonneg (Z.pred (- x))). split; [lia|].
    apply Z.bits_above_log2_neg; lia.
  - exists (Z.log2 x). split; [apply Z.log2_nonneg|by apply Z.bit_log2].
Qed.

Lemma land_all x y : Z.land x y = x <-> forall n, 0 <= n -> Z.testbit x n = true -> Z.testbit y n = true.
Proof.
  split.
  - intros E n Hn Hx. rewrite <- E, Z.land_spec in Hx. by apply andb_true_iff in Hx as [_ ?].
  - intros H. apply Z.bits_inj'. intros n Hn. rewrite Z.land_spec. specialize (H n Hn).
    destruct (Z.testbit x n); [by rewrite H|done].
Qed.

Lemma land_any x y : Z.land x y <> 0 <-> exists n, (0 <= n /\ Z.testbit x n = true) /\ Z.testbit y n = true.
Proof.
  split.
  - intros H. apply nonzero_bit in H as (n & Hn & E). rewrite Z.land_spec in E. apply andb_true_iff in E as [? ?].
    by exists n.
  - intros (n & [Hn Hx] & Hy) E. apply (f_equal (fun z => Z.testbit z n)) in E.
    by rewrite Z.land_spec, Hx, Hy, Z.bits_0 in E.
Qed.

(** The code's test is that one. *)
Lemma event_status_met th set b bits :
  event_status th set = Some (b, bits) ->
  asks th /\ (if b then met th set /\ forall n, 0 <= n -> Z.testbit bits n = Z.testbit (th_event_set th) n && Z.testbit set n
              else ~ met th set).
Proof.
  unfold event_status, asks, met. rewrite flag_and, flag_or. destruct (Z.testbit (th_event_info th) 0) eqn:Hall.
  - intros [= <- <-]. split; [by left|]. destruct (Z.eqb_spec (Z.land (th_event_set th) set) (th_event_set th)) as [E|E].
    + pose proof (proj1 (land_all _ _) E) as Hm. split; [intros n [Hn Ha]; by apply Hm|]. intros n Hn.
      destruct (Z.testbit (th_event_set th) n) eqn:Ha; [by rewrite Hm|done].
    + intros Hm. apply E, land_all. intros n Hn Ha. by apply Hm.
  - destruct (Z.testbit (th_event_info th) 1) eqn:Hany; [|done]. intros H. split; [by right|].
    destruct (Z.eqb_spec (Z.land (th_event_set th) set) 0) as [E|E]; injection H as <- <-.
    + intros Hm. by apply (proj2 (land_any _ _)) in Hm.
    + split; [by apply (proj1 (land_any _ _))|]. intros n _. by rewrite Z.land_spec.
Qed.

Lemma asks_status th set : asks th -> exists b bits, event_status th set = Some (b, bits).
Proof.
  unfold asks, event_status. rewrite flag_and, flag_or. intros H.
  destruct (Z.testbit (th_event_info th) 0); [eauto|]. destruct H as [?| ->]; [done|].
  destruct (Z.land _ _ =? 0); eauto.
Qed.

Lemma unmet_status th set :
  asks th /\ ~ met th set <-> exists b, event_status th set = Some (false, b).
Proof.
  split.
  - intros [Ha Hn]. destruct (asks_status th set Ha) as (b & bits & E). destruct b; [|eauto].
    by destruct (event_status_met th set true bits E) as (_ & ? & _).
  - intros [b E]. apply (event_status_met th set false b E).
Qed.

(** The walk of [rt_event_send] over the waiting threads as a function: the
    set that is left, the threads that go on with the bits each receives, and
    the threads that keep waiting. *)
Fixpoint event_walk (set : Z) (ws : list (nat * rt_thread)) : Z * list (nat * Z) * list nat :=
  match ws with
  | [] => (set, [], [])
  | (t, th) :: ws =>
      match event_status th set with
      | Some (true, bits) =>
          let set := if has_flag (th_event_info th) RT_EVENT_FLAG_CLEAR
                     then clear_bits set bits else set in
          let '(s, w, r) := event_walk set ws in (s, (t, bits) :: w, r)
      | _ => let '(s, w, r) := event_walk set ws in (s, w, t :: r)
      end
  end.

Lemma event_walk_answered ws : forall set,
  Forall (fun x => asks x.2) ws -> answered set ws (event_walk set ws).
Proof.
  induction ws as [|[t th] ws IH]; intros set Ha; [constructor|].
  apply Forall_cons in Ha as [Ha Hws]. simpl. destruct (asks_status th set Ha) as (b & bits & E). rewrite E.
  destruct (event_status_met th set b bits E) as [_ Hm]. destruct b.
  - destruct Hm as [Hm Hb].
    set (s := if has_flag (th_event_info th) RT_EVENT_FLAG_CLEAR then clear_bits set bits else set).
    specialize (IH s Hws). destruct (event_walk s ws) as [[s' w] r].
    apply (an_goes set s bits); try done. intros n Hn. unfold s. rewrite flag_clear.
    destruct (Z.testbit (th_event_info th) 2); simpl; [|by rewrite andb_true_r].
    unfold clear_bits. by rewrite Z.land_spec, Z.lnot_spec.
  - specialize (IH set Hws). destruct (event_walk set ws) as [[s' w] r]. by constructor.
Qed.

Definition waiters (k : kstate) (l : list nat) : list (nat * rt_thread) :=
  (fun t => (t, thread_at t k)) <$> l.

Definition event_st (event : nat) (e : rt_event) (k : kstate) : kstate :=
  set_k_events (<[event := e]> (k_events k)) k.

(** An event object in use: each waiting thread asks for all or for any of its
    bits, and what it asks for is not there. *)
Record event_ok (k : kstate) (event : nat) (e : rt_event) : Prop := EventOk {
  eo_lookup : k_events k !! event = Some e;
  eo_header : ipc_header RT_Object_Class_Event (ev_parent e);
  eo_waiters t : t ∈ qget (k_tq k) (QEvent event) -> exists th,
    k_threads k !! t = Some th /\ asks th /\ ~ met th (ev_set e)
}.

Lemma get_event_eq event e k : k_events k !! event = Some e -> get_event event k = Some (e, k).
Proof. intros H. unfold get_event. mrun. by rewrite H. Qed.

Lemma set_event_set_eq event e s k :
  k_events k !! event = Some e ->
  set_event_set event s k = Some (tt, event_st event (RtEvent (ev_parent e) s) k).
Proof. intros H. unfold set_event_set. mrun. by rewrite (get_event_eq event e k). Qed.

Lemma event_hdr k event e :
  k_events k !! event = Some e -> obj_hdr (OEvent event) k = Some (ev_parent e).
Proof. intros H. simpl. by rewrite H. Qed.

Lemma event_st_ok event e k : kernel_ok k -> kernel_ok (event_st event e k).
Proof. by apply kernel_ok_objects. Qed.

Lemma event_st_st event a b k : event_st event a (event_st event b k) = event_st event a k.
Proof. unfold event_st; kfields. by rewrite insert_insert_eq. Qed.

Lemma event_status_not th set b :
  event_status th set = Some (false, b) -> b = th_event_set th.
Proof.
  unfold event_status. destruct (has_flag _ RT_EVENT_FLAG_AND); [by intros [= _ <-]|].
  destruct (has_flag _ RT_EVENT_FLAG_OR); [|done].
  destruct (_ =? 0); [by intros [= <-]|done].
Qed.

(** Whether a thread asks for all or for any does not depend on the set. *)
Lemma event_status_some th set set' r :
  event_status th set = Some r -> exists r', event_status th set' = Some r'.
Proof.
  unfold event_status. destruct (has_flag _ RT_EVENT_FLAG_AND); [eauto|].
  destruct (has_flag _ RT_EVENT_FLAG_OR); [eauto|done].
Qed.

(** Fewer bits do not satisfy more threads. *)
Lemma event_status_mono th set bits b :
  event_status th set = Some (false, b) -> event_status th (clear_bits set bits) = Some (false, b).
Proof.
  unfold event_status, clear_bits. destruct (has_flag _ RT_EVENT_FLAG_AND).
  - intros [= Hne <-]. do 2 f_equal. apply Z.eqb_neq. apply Z.eqb_neq in Hne. intros He. apply Hne.
    apply Z.bits_inj'. intros n Hn. apply (f_equal (fun x => Z.testbit x n)) in He.
    rewrite Z.land_spec, Z.land_spec in He. rewrite Z.land_spec.
    destruct (Z.testbit (th_event_set th) n), (Z.testbit set n); try done.
  - destruct (has_flag _ RT_EVENT_FLAG_OR); [|done].
    destruct (Z.eqb_spec (Z.land (th_event_set th) set) 0) as [E|]; [|done].
    rewrite Z.land_assoc, E, Z.land_0_l. done.
Qed.

(** The states the walk goes through: threads have been woken, and the set of
    the event has lost bits. *)
Record walked (event : nat) (e : rt_event) (rem : list nat) (nodes : list nat)
    (r : Z * list (nat * Z) * list nat) (k k' : kstate) : Prop := Walked {
  wl_ok : kernel_ok k';
  wl_current : k_current k' = k_current k;
  wl_lock : k_lock_nest k' = k_lock_nest k;
  wl_event : k_events k' !! event = Some (RtEvent (ev_parent e) r.1.1);
  wl_queue : qget (k_tq k') (QEvent event) = rem ++ r.2;
  wl_woken t b : (t, b) ∈ r.1.2 -> exists th,
    k_threads k' !! t = Some th /\ th_event_set th = b /\ ~ blocked th;
  wl_other t : t ∉ r.1.2.*1 -> k_threads k' !! t = k_threads k !! t
}.

Lemma event_walk_sub set ws t :
  t ∈ (event_walk set ws).1.2.*1 \/ t ∈ (event_walk set ws).2 -> t ∈ ws.*1.
Proof.
  revert set. induction ws as [|[x th] ws IH]; intros set; [by intros [?|?]|]. simpl.
  destruct (event_status th set) as [[[] bits]|];
    match goal with |- context [event_walk ?s ws] => specialize (IH s); destruct (event_walk s ws) as [[? ?] ?] end;
    simpl in *; rewrite ?elem_of_cons; tauto.
Qed.

Lemma waiters_fst k l : (waiters k l).*1 = l.
Proof. unfold waiters. rewrite <- list_fmap_compose. apply list_fmap_id. Qed.

Lemma waiters_ext k k' l :
  (forall t, t ∈ l -> k_threads k' !! t = k_threads k !! t) -> waiters k' l = waiters k l.
Proof.
  intros H. unfold waiters. apply list_fmap_ext. intros i t Ht.
  unfold thread_at. rewrite H; [done|]. by apply list_elem_of_lookup_2 in Ht.
Qed.

Lemma thread_st_id t th k : k_threads k !! t = Some th -> thread_st t th k = k.
Proof. intros H. unfold thread_st. rewrite insert_id by done. by destruct k. Qed.

(** A waiting thread that is satisfied with [bits] has been woken. *)
Record event_served (event : nat) (e : rt_event) (rem : list nat) (t : nat) (nodes : list nat) (th : rt_thread)
    (bits : Z) (k k' : kstate) : Prop := EventServed {
  es_ok : kernel_ok k';
  es_event : k_events k' !! event = Some (RtEvent (ev_parent e)
    (if has_flag (th_event_info th) RT_EVENT_FLAG_CLEAR then clear_bits (ev_set e) bits else ev_set e));
  es_current : k_current k' = k_current k;
  es_lock : k_lock_nest k' = k_lock_nest k;
  es_queue : qget (k_tq k') (QEvent event) = rem ++ nodes;
  es_thread : exists s, let th' := set_th_stat s (set_th_event bits (th_event_info th) th) in
    k_threads k' !! t = Some th' /\ ~ blocked th';
  es_other x : x <> t -> k_threads k' !! x = k_threads k !! x
}.

Lemma event_serve_spec event e rem t nodes th bits k :
  kernel_ok k -> k_events k !! event = Some e -> qget (k_tq k) (QEvent event) = rem ++ t :: nodes ->
  k_threads k !! t = Some th -> stat_of th = RT_THREAD_SUSPEND ->
  exists k', (upd_thread t (fun th => set_th_event bits (th_event_info th) th);;
              when (has_flag (th_event_info th) RT_EVENT_FLAG_CLEAR)
                (set_event_set event (clear_bits (ev_set e) bits));;
              rt_thread_resume t) k = Some (RT_EOK, k') /\
    event_served event e rem t nodes th bits k k'.
Proof.
  intros Hok He Hq Hth Hsus.
  pose proof (so_nodup _ _ (ok_inv _ (ko_sched _ Hok)) (QEvent event)) as Hnd. rewrite Hq in Hnd.
  apply NoDup_app in Hnd as (Hnd1 & Hdis & Hnd2). apply NoDup_cons in Hnd2 as [Htn Hnd2].
  set (th1 := set_th_event bits (th_event_info th) th). set (k1 := thread_st t th1 k).
  assert (kernel_ok k1) as Hok1 by (by apply (thread_st_same t th)).
  set (s := if has_flag (th_event_info th) RT_EVENT_FLAG_CLEAR then clear_bits (ev_set e) bits else ev_set e).
  set (k2 := event_st event (RtEvent (ev_parent e) s) k1).
  assert (when (has_flag (th_event_info th) RT_EVENT_FLAG_CLEAR)
            (set_event_set event (clear_bits (ev_set e) bits)) k1 = Some (tt, k2)) as E2.
  { unfold k2, s. destruct (has_flag _ _); [by apply set_event_set_eq|].
    unfold when, mret, St_ret. do 2 f_equal. unfold event_st. rewrite insert_id; [by destruct k1|].
    change (k_events k1) with (k_events k). rewrite He. by destruct e. }
  assert (kernel_ok k2) as Hok2 by (by apply event_st_ok).
  destruct (resume_spec t th1 k2 Hok2 ltac:(apply thread_st_lookup) Hsus) as (k3 & E3 & W). exists k3. split.
  { rewrite bind_unfold, (upd_thread_eq t _ k th) by done. fold th1 k1. by rewrite bind_unfold, E2. }
  constructor.
  - apply W.
  - rewrite (of_events _ _ (wk_frame _ _ _ _ W)). apply lookup_insert_eq.
  - apply (wk_current _ _ _ _ W).
  - apply (of_lock _ _ (wk_frame _ _ _ _ W)).
  - rewrite (wk_tq _ _ _ _ W) by done. unfold k2, event_st, k1, thread_st; kfields.
    rewrite Hq, filter_app, filter_cons_False by auto. f_equal; apply filter_ne_notin; [|done].
    intros Hr. apply (Hdis t Hr). by left.
  - eexists. rewrite (wk_threads _ _ _ _ W). split; [apply lookup_insert_eq|apply wake_stat_unblocked].
  - intros x Hx. rewrite (wk_threads _ _ _ _ W), lookup_insert_ne by done.
    unfold k2, event_st, k1, thread_st; kfields. by rewrite lookup_insert_ne.
Qed.

Lemma event_loop_served event nodes t th bits need k k1 e :
  k_threads k !! t = Some th -> k_events k !! event = Some e -> event_status th (ev_set e) = Some (true, bits) ->
  (upd_thread t (fun th => set_th_event bits (th_event_info th) th);;
   when (has_flag (th_event_info th) RT_EVENT_FLAG_CLEAR) (set_event_set event (clear_bits (ev_set e) bits));;
   rt_thread_resume t) k = Some (RT_EOK, k1) ->
  event_send_loop event (t :: nodes) need k = event_send_loop event nodes true k1.
Proof.
  intros Hth He Hs E. simpl event_send_loop.
  rewrite bind_unfold, (get_thread_eq t k th), bind_unfold, (get_event_eq event e k), Hs by done.
  revert E. rewrite !bind_unfold. destruct (upd_thread t _ k) as [[u k2]|]; [|done].
  rewrite !bind_unfold. destruct (when _ _ k2) as [[u' k3]|]; [|done]. intros E. by rewrite bind_unfold, E.
Qed.

Lemma event_loop_skipped event nodes t th bits need k e :
  k_threads k !! t = Some th -> k_events k !! event = Some e -> event_status th (ev_set e) = Some (false, bits) ->
  event_send_loop event (t :: nodes) need k = event_send_loop event nodes need k.
Proof.
  intros Hth He Hs. pose proof (event_status_not th _ _ Hs) as ->. simpl event_send_loop.
  rewrite bind_unfold, (get_thread_eq t k th), bind_unfold, (get_event_eq event e k), Hs by done.
  rewrite bind_unfold, (upd_thread_eq t _ k th) by done.
  replace (set_th_event (th_event_set th) (th_event_info th) th) with th by (by destruct th).
  by rewrite thread_st_id.
Qed.

(** The walk behind a thread that has been served. *)
Lemma walked_served event e rem t nodes th bits k k1 k' :
  event_served event e rem t nodes th bits k k1 -> t ∉ nodes ->
  let s := if has_flag (th_event_info th) RT_EVENT_FLAG_CLEAR then clear_bits (ev_set e) bits else ev_set e in
  let '(s', w, r) := event_walk s (waiters k nodes) in
  walked event (RtEvent (ev_parent e) s) rem nodes (s', w, r) k1 k' ->
  walked event e rem (t :: nodes) (s', (t, bits) :: w, r) k k'.
Proof.
  intros [S1 S2 S3 S4 S5 (st & S6 & Hb) S7] Htn s. destruct (event_walk s (waiters k nodes)) as [[s' w] r] eqn:Ew.
  intros [L1 L2 L3 L4 L5 L6 L7]. assert (t ∉ w.*1) as Htw.
  { intros Hx. apply Htn. pose proof (event_walk_sub s (waiters k nodes) t) as Hsub. rewrite Ew in Hsub.
    rewrite waiters_fst in Hsub. apply Hsub. by left. }
  constructor; simpl in *; try done.
  - by rewrite L2.
  - by rewrite L3.
  - intros x b [[= -> ->]|Hx]%elem_of_cons; [|by apply L6].
    eexists. rewrite L7 by done. split; [exact S6|]. split; [done|exact Hb].
  - intros x Hx. apply not_elem_of_cons in Hx as [Hne Hx]. rewrite L7 by done. by apply S7.
Qed.

Lemma event_send_loop_spec event nodes : forall rem need k e,
  kernel_ok k -> k_events k !! event = Some e ->
  qget (k_tq k) (QEvent event) = rem ++ nodes ->
  (forall t, t ∈ nodes -> exists th r, k_threads k !! t = Some th /\ event_status th (ev_set e) = Some r) ->
  exists k', event_send_loop event nodes need k =
      Some (Some (need || negb (bool_decide ((event_walk (ev_set e) (waiters k nodes)).1.2 = []))), k') /\
    walked event e rem nodes (event_walk (ev_set e) (waiters k nodes)) k k'.
Proof.
  induction nodes as [|t nodes IH]; intros rem need k e Hok He Hq Hst.
  { exists k. simpl. rewrite orb_false_r. split; [done|]. constructor; try done.
    - simpl. by destruct e.
    - intros t b Ht. by apply elem_of_nil in Ht. }
  destruct (Hst t) as (th & [status bits] & Hth & Hs); [by left|].
  assert (t ∈ qget (k_tq k) (QEvent event)) as Hin by (rewrite Hq; apply elem_of_app; right; by left).
  destruct (so_wait _ _ (ok_inv _ (ko_sched _ Hok)) (QEvent event) t) as (th' & ? & Hsus); [done|done|].
  assert (th' = th) as -> by congruence.
  assert (thread_at t k = th) as Hat by (unfold thread_at; by rewrite Hth).
  change (waiters k (t :: nodes)) with ((t, thread_at t k) :: waiters k nodes).
  simpl event_walk. rewrite Hat, Hs. destruct status.
  - destruct (event_serve_spec event e rem t nodes th bits k) as (k1 & E1 & Sv); try done.
    rewrite (event_loop_served event nodes t th bits need k k1 e) by done.
    pose proof (so_nodup _ _ (ok_inv _ (ko_sched _ Hok)) (QEvent event)) as Hnd. rewrite Hq in Hnd.
    apply NoDup_app in Hnd as (_ & _ & [Htn _]%NoDup_cons).
    assert (forall x, x ∈ nodes -> k_threads k1 !! x = k_threads k !! x) as Hkeep
      by (intros x Hx; apply (es_other _ _ _ _ _ _ _ _ _ Sv); by intros ->).
    pose proof (walked_served event e rem t nodes th bits k k1) as Hwalk.
    set (s := if has_flag (th_event_info th) RT_EVENT_FLAG_CLEAR then clear_bits (ev_set e) bits else ev_set e) in *.
    destruct (IH rem true k1 (RtEvent (ev_parent e) s)) as (k' & E' & L); [apply Sv|apply Sv|apply Sv| |].
    { intros x Hx. destruct (Hst x) as (thx & r & Hx1 & Hx2); [by right|].
      destruct (event_status_some thx (ev_set e) s r Hx2) as [r' Hr']. exists thx, r'. by rewrite Hkeep. }
    rewrite (waiters_ext k k1 nodes Hkeep) in E', L. simpl (ev_set _) in *. exists k'. rewrite E'.
    specialize (Hwalk k' Sv Htn). cbv zeta in Hwalk.
    destruct (event_walk s (waiters k nodes)) as [[s' w] r] eqn:Ew. split; [by destruct need|by apply Hwalk].
  - rewrite (event_loop_skipped event nodes t th bits need k e) by done.
    destruct (IH (rem ++ [t]) need k e Hok He) as (k' & E' & L).
    { by rewrite <- app_assoc. }
    { intros x Hx. apply Hst. by right. }
    exists k'. rewrite E'. destruct (event_walk (ev_set e) (waiters k nodes)) as [[s' w] r] eqn:Ew.
    simpl in *. split; [done|]. destruct L as [L1 L2 L3 L4 L5 L6 L7]. constructor; simpl in *; try done.
    by rewrite L5, <- app_assoc.
Qed.

Lemma walk_final set ws th b :
  event_status th set = Some (false, b) ->
  event_status th (event_walk set ws).1.1 = Some (false, b).
Proof.
  revert set. induction ws as [|[x thx] ws IH]; intros set Hs; [done|]. simpl.
  destruct (event_status thx set) as [[[] bits]|].
  - set (s := if has_flag _ _ then _ else _). specialize (IH s). destruct (event_walk s ws) as [[? ?] ?].
    apply IH. unfold s. destruct (has_flag _ _); [by apply event_status_mono|done].
  - specialize (IH set). destruct (event_walk set ws) as [[? ?] ?]. by apply IH.
  - specialize (IH set). destruct (event_walk set ws) as [[? ?] ?]. by apply IH.
Qed.

(** The threads that keep waiting do so for bits that are not there. *)
Lemma walk_rest set ws t :
  (forall x th, (x, th) ∈ ws -> exists r, event_status th set = Some r) ->
  t ∈ (event_walk set ws).2 ->
  exists th b, (t, th) ∈ ws /\ event_status th (event_walk set ws).1.1 = Some (false, b).
Proof.
  revert set. induction ws as [|[x thx] ws IH]; intros set Hall Ht; [by apply elem_of_nil in Ht|].
  assert (forall s y th, (y, th) ∈ ws -> exists r, event_status th s = Some r) as Hall'.
  { intros s y th Hy. destruct (Hall y th) as [r Hr]; [by right|]. by eapply event_status_some. }
  destruct (Hall x thx) as [[status bits] Hx]; [by left|]. revert Ht. simpl. rewrite Hx. destruct status.
  - set (s := if has_flag _ _ then _ else _). specialize (IH s (Hall' s)).
    destruct (event_walk s ws) as [[s' w] r] eqn:Ew. simpl in *. intros Ht.
    destruct (IH Ht) as (th & b & Hin & Hs). exists th, b. split; [by right|done].
  - specialize (IH set (Hall' set)). pose proof (walk_final set ws thx bits Hx) as Hf.
    destruct (event_walk set ws) as [[s' w] r] eqn:Ew. simpl in *. intros Ht.
    apply elem_of_cons in Ht as [->|Ht]; [exists thx, bits; split; [by left|done]|].
    destruct (IH Ht) as (th & b & Hin & Hs). exists th, b. split; [by right|done].
Qed.

(** [rt_schedule] is called if a thread was woken. *)
Lemma schedule_if k (b : bool) :
  kernel_ok k -> is_Some (k_current k) -> k_lock_nest k = 0 ->
  exists k', when b rt_schedule k = Some (tt, k') /\ kernel_ok k' /\ sched_frame k k' /\
    (b = true -> highest_running k').
Proof.
  intros Hok Hc Hl. destruct b; [|by exists k].
  destruct (schedule_kernel k Hok Hc) as (k' & E & Hok' & F & _ & Hh). exists k'. split_and!; auto.
Qed.

(** The threads the walk leaves on the list still lack their bits. *)
Lemma event_left_ok k k1 k2 k' event e e1 set :
  kernel_ok k -> event_ok k event e -> ev_parent e1 = ev_parent e ->
  let ws := waiters k (qget (k_tq k) (QEvent event)) in
  let r := event_walk (Z.lor (ev_set e) set) ws in
  k_threads k1 = k_threads k ->
  walked event e1 [] (qget (k_tq k) (QEvent event)) r k1 k2 -> sched_frame k2 k' ->
  event_ok k' event (RtEvent (ev_parent e) r.1.1).
Proof.
  intros Hok [He Hh Hw] Ep ws r Ek L F.
  assert (qget (k_tq k') (QEvent event) = r.2) as Hq' by (rewrite (sf_wait _ _ F) by done; apply L).
  constructor; [rewrite (of_events _ _ (sched_obj_frame _ _ F)), <- Ep; apply L|done|].
  intros t Ht. rewrite Hq' in Ht. destruct (walk_rest (Z.lor (ev_set e) set) ws t) as (th & b & Hin & Hs).
  { intros x th Hx. apply list_elem_of_fmap in Hx as (y & [= -> ->] & Hy).
    destruct (Hw y Hy) as (th & Hth & Hs). apply unmet_status in Hs as [b Hs].
    destruct (event_status_some th (ev_set e) (Z.lor (ev_set e) set) _ Hs) as [r' Hr'].
    exists r'. unfold thread_at. by rewrite Hth. }
  { done. }
  apply list_elem_of_fmap in Hin as (y & [= -> ->] & Hy).
  destruct (Hw y Hy) as (th & Hth & _). exists th.
  assert (thread_at y k = th) as Hat by (unfold thread_at; by rewrite Hth). rewrite Hat in Hs.
  split; [|apply unmet_status; by exists b].
  destruct (so_wait _ _ (ok_inv _ (ko_sched _ Hok)) (QEvent event) y) as (th' & Hth' & Hsus); [done|done|].
  rewrite Hth in Hth'. injection Hth' as <-.
  assert (k_threads k2 !! y = Some th) as Hth2.
  { rewrite (wl_other _ _ _ _ _ _ _ L); [by rewrite Ek|]. intros Hyw.
    apply list_elem_of_fmap in Hyw as ([y' b2] & -> & Hyw). simpl in *.
    destruct (wl_woken _ _ _ _ _ _ _ L y' b2 Hyw) as (th2 & Hth2 & _ & Hnb).
    assert (y' ∈ qget (k_tq k2) (QEvent event)) as Hy2 by (by rewrite (wl_queue _ _ _ _ _ _ _ L)).
    destruct (so_wait _ _ (ok_inv _ (ko_sched _ (wl_ok _ _ _ _ _ _ _ L))) (QEvent event) y')
      as (th3 & ? & Hs3); [done|done|]. simplify_eq. apply Hnb. unfold blocked. by rewrite Hs3. }
  destruct (sf_thread _ _ F y th Hth2) as (s & Hs' & Hb & _). rewrite Hb in Hs'; [done|].
  unfold blocked. by rewrite Hsus.
Qed.

(** C36: [rt_event_send] adds the bits to the event and serves the waiting
    threads in the order of the list, as [answered] says: a thread goes on
    when the bits it asked for (all of them, or any of them, bit by bit) are there, receives
    those of them that are there, and
    takes them away from the event, and from the threads behind it, if it
    asked for that. The threads that go on can run and the scheduler has been
    called; those left on the list still lack their bits, so no wake-up is
    lost. *)
Theorem event_send_correct k event e set :
  kernel_ok k -> event_ok k event e -> is_Some (k_current k) -> k_lock_nest k = 0 -> set <> 0 ->
  let waiting := waiters k (qget (k_tq k) (QEvent event)) in
  let r := event_walk (Z.lor (ev_set e) set) waiting in
  answered (Z.lor (ev_set e) set) waiting r /\
  exists k' e', rt_event_send event set k = Some (RT_EOK, k') /\ kernel_ok k' /\
    event_ok k' event e' /\ ev_set e' = r.1.1 /\ qget (k_tq k') (QEvent event) = r.2 /\
    (forall t b, (t, b) ∈ r.1.2 -> exists th, k_threads k' !! t = Some th /\
       th_event_set th = b /\ ~ blocked th) /\
    (r.1.2 <> [] -> highest_running k').
Proof.
  intros Hok Heo Hc Hl Hset waiting r. pose proof Heo as [He Hh Hw]. split.
  { apply event_walk_answered. apply Forall_fmap, Forall_forall. intros t Ht. destruct (Hw t Ht) as (th & Hth & Ha & _).
    unfold thread_at. simpl. rewrite Hth. exact Ha. }
  set (e1 := RtEvent (ev_parent e) (Z.lor (ev_set e) set)). set (k1 := event_st event e1 k).
  destruct (event_send_loop_spec event (qget (k_tq k) (QEvent event)) [] false k1 e1)
    as (k2 & E & L); try done; [by apply event_st_ok|apply lookup_insert_eq| |].
  { intros t Ht. destruct (Hw t Ht) as (th & Hth & Ha & _).
    destruct (asks_status th (ev_set e1) Ha) as (b & bits & Hr). eauto. }
  change (waiters k1) with (waiters k) in *. simpl (ev_set e1) in *. fold waiting in E, L. fold r in E, L.
  destruct (schedule_if k2 (negb (bool_decide (r.1.2 = [])))) as (k' & E' & Hok' & F & Hh');
    [apply L|by rewrite (wl_current _ _ _ _ _ _ _ L)|by rewrite (wl_lock _ _ _ _ _ _ _ L)|].
  exists k', (RtEvent (ev_parent e) r.1.1). split.
  { unfold rt_event_send. mrun.
    rewrite (assert_type_eq _ _ k (ev_parent e)) by (by apply event_hdr || by apply Hh).
    destruct (Z.eqb_spec set 0); [done|]. rewrite (get_event_eq event e k) by done.
    rewrite (set_event_set_eq event e _ k) by done. fold e1 k1. change (k_tq k1) with (k_tq k). rewrite E.
    revert E'. mrun. destruct (bool_decide (r.1.2 = [])); simpl; [by intros [= <-]|].
    intros ->. done. }
  split; [done|]. split; [by eapply (event_left_ok k k1 k2 k' event e e1)|]. split; [done|].
  split; [rewrite (sf_wait _ _ F) by done; apply L|]. split.
  - intros t b Ht. destruct (wl_woken _ _ _ _ _ _ _ L t b Ht) as (th & Hth & Hb & Hnb).
    destruct (sf_thread _ _ F t th Hth) as (s & Hs & _ & Hn). exists (set_th_stat s th).
    split; [done|]. split; [done|]. by apply Hn.
  - intros Hne. apply Hh'. by rewrite bool_decide_false.
Qed.

(** Whether the set has what a thread asks for. *)
Definition satisfied (option set have : Z) : bool :=
  if has_flag option RT_EVENT_FLAG_AND then Z.land have set =? set
  else negb (Z.land have set =? 0).

(** The waiting threads of an event when only other threads and the event's
    set change. *)
Lemma event_ok_keep k k' event e s :
  kernel_ok k -> event_ok k event e ->
  k_events k' !! event = Some (RtEvent (ev_parent e) s) ->
  (s = ev_set e \/ exists bits, s = clear_bits (ev_set e) bits) ->
  qget (k_tq k') (QEvent event) = qget (k_tq k) (QEvent event) ->
  (forall t th, t ∈ qget (k_tq k) (QEvent event) -> k_threads k !! t = Some th ->
     k_threads k' !! t = Some th) ->
  event_ok k' event (RtEvent (ev_parent e) s).
Proof.
  intros Hok [He Hh Hw] He' Hs Hq Hth. constructor; [done|done|].
  intros t Ht. rewrite Hq in Ht. destruct (Hw t Ht) as (th & Hlk & Hst). exists th.
  split; [by apply Hth|]. simpl. destruct Hs as [->|[bits ->]]; [done|].
  apply unmet_status in Hst as [b Hst]. apply unmet_status. exists b. by apply event_status_mono.
Qed.

Section recv.
Context (k : kstate) (event : nat) (e : rt_event) (c : nat) (th : rt_thread) (set option timeout : Z).
Context (Hok : kernel_ok k) (Heo : event_ok k event e) (Hcb : can_block k c th) (Hset : set <> 0).
Context (Hopt : has_flag option RT_EVENT_FLAG_AND || has_flag option RT_EVENT_FLAG_OR = true).

Let th0 := set_th_error RT_EOK th.
Let k0 := thread_st c th0 k.

(** The opening of [rt_event_recv]. *)
Lemma recv_enter :
  kernel_ok k0 /\ k_threads k0 !! c = Some th0 /\
  rt_event_recv event set option timeout k =
    (if satisfied option set (ev_set e) then
       upd_thread c (set_th_event (Z.land (ev_set e) set) option);;
       when (has_flag option RT_EVENT_FLAG_CLEAR) (set_event_set event (clear_bits (ev_set e) set));;
       th ← get_thread c;
       mret (Ret (th_error th), Some (Z.land (ev_set e) set))
     else if timeout =? 0 then
       set_error c (- RT_ETIMEOUT);; mret (Ret (- RT_ETIMEOUT), None)
     else
       upd_thread c (set_th_event set option);;
       flag ← get_flag (OEvent event);
       block_on (QEvent event) c flag timeout;;
       mret (Wait tt, None)) k0.
Proof using All.
  pose proof (cb_thread _ _ _ Hcb) as Hth. destruct (set_error_ok c th RT_EOK k Hok Hth) as [E0 Hok0].
  fold th0 in E0, Hok0. fold k0 in E0, Hok0. split; [done|]. split; [apply thread_st_lookup|].
  unfold rt_event_recv. rewrite bind_unfold.
  rewrite (assert_type_eq _ _ k (ev_parent e)) by (apply event_hdr, Heo || apply Heo).
  destruct (Z.eqb_spec set 0) as [|_]; [done|]. rewrite bind_unfold.
  rewrite (scheduler_available k c th) by done. rewrite bind_unfold, (current_thread_eq k c) by apply Hcb.
  rewrite bind_unfold, E0, bind_unfold, (get_event_eq event e k0) by apply Heo.
  unfold satisfied. destruct (has_flag option RT_EVENT_FLAG_AND); [done|].
  rewrite orb_false_l in Hopt. by rewrite Hopt.
Qed.

(** The threads that wait already are other threads. *)
Lemma recv_others th' t thx :
  t ∈ qget (k_tq k) (QEvent event) -> k_threads k !! t = Some thx ->
  t <> c /\ k_threads (thread_st c th' k0) !! t = Some thx.
Proof using All.
  intros Ht Hx. assert (t <> c) as Hne.
  { intros ->. by apply (running_unlisted c th k (QEvent event) (ok_inv _ (ko_sched _ Hok))
      (cb_thread _ _ _ Hcb) (cb_running _ _ _ Hcb)). }
  split; [done|]. unfold k0, thread_st; kfields. by rewrite !lookup_insert_ne by (apply not_eq_sym, Hne).
Qed.

Lemma recv_now :
  satisfied option set (ev_set e) = true ->
  exists k' e', rt_event_recv event set option timeout k
      = Some ((Ret RT_EOK, Some (Z.land (ev_set e) set)), k') /\ kernel_ok k' /\
    event_ok k' event e' /\ k_current k' = Some c /\
    ev_set e' = (if has_flag option RT_EVENT_FLAG_CLEAR then clear_bits (ev_set e) set else ev_set e).
Proof using All.
  intros Hsat. destruct recv_enter as (Hok0 & Hth0 & ->). rewrite Hsat.
  set (th1 := set_th_event (Z.land (ev_set e) set) option th0). set (k1 := thread_st c th1 k0).
  assert (kernel_ok k1) as Hok1 by (by apply (thread_st_same c th0)).
  set (s := if has_flag option RT_EVENT_FLAG_CLEAR then clear_bits (ev_set e) set else ev_set e).
  set (k2 := event_st event (RtEvent (ev_parent e) s) k1).
  assert (when (has_flag option RT_EVENT_FLAG_CLEAR)
            (set_event_set event (clear_bits (ev_set e) set)) k1 = Some (tt, k2)) as E2.
  { unfold k2, s. destruct (has_flag option RT_EVENT_FLAG_CLEAR).
    - apply set_event_set_eq, Heo.
    - simpl. do 2 f_equal. unfold event_st. rewrite insert_id; [done|].
      change (k_events k1) with (k_events k). rewrite (eo_lookup _ _ _ Heo). by destruct e. }
  exists k2, (RtEvent (ev_parent e) s). split.
  { rewrite bind_unfold, (upd_thread_eq c _ k0 th0) by done. fold th1 k1.
    rewrite bind_unfold, E2, bind_unfold, (get_thread_eq c k2 th1); [done|]. apply thread_st_lookup. }
  split; [by apply event_st_ok|]. split; [|split; [apply Hcb|done]].
  apply (event_ok_keep k); try done; [apply lookup_insert_eq| |].
  - unfold s. destruct (has_flag option RT_EVENT_FLAG_CLEAR); [right; eauto|by left].
  - intros t thx Ht Hx. by apply recv_others.
Qed.

Lemma recv_refused :
  satisfied option set (ev_set e) = false -> timeout = 0 ->
  exists k', rt_event_recv event set option timeout k = Some ((Ret (- RT_ETIMEOUT), None), k') /\
    kernel_ok k' /\ event_ok k' event e /\ k_current k' = Some c.
Proof using All.
  intros Hsat Ht. destruct recv_enter as (Hok0 & Hth0 & ->). rewrite Hsat, (proj2 (Z.eqb_eq _ _) Ht).
  destruct (set_error_ok c th0 (- RT_ETIMEOUT) k0 Hok0 Hth0) as [E1 Hok1].
  exists (thread_st c (set_th_error (- RT_ETIMEOUT) th0) k0).
  split; [by rewrite bind_unfold, E1|]. split; [done|]. split; [|apply Hcb].
  replace e with (RtEvent (ev_parent e) (ev_set e)) at 1 by (by destruct e).
  apply (event_ok_keep k); try done;
    [change (k_events k !! event = Some (RtEvent (ev_parent e) (ev_set e))); rewrite (eo_lookup _ _ _ Heo);
     by destruct e|by left|].
  intros t thx Hx Ht'. by apply recv_others.
Qed.

(** A request that is not satisfied waits to be. *)
Lemma unsatisfied_status thx :
  satisfied option set (ev_set e) = false -> th_event_info thx = option -> th_event_set thx = set ->
  event_status thx (ev_set e) = Some (false, set).
Proof using Hopt.
  intros Hsat Ei Es. unfold event_status. rewrite Ei, Es, Z.land_comm. revert Hsat Hopt. unfold satisfied.
  destruct (has_flag option RT_EVENT_FLAG_AND); [by intros ->|]. simpl. intros Hz ->.
  apply negb_false_iff in Hz. by rewrite Hz.
Qed.

Lemma recv_wait :
  satisfied option set (ev_set e) = false -> timeout <> 0 -> timeout < RT_TICK_MAX / 2 ->
  exists k' th', rt_event_recv event set option timeout k = Some ((Wait tt, None), k') /\
    kernel_ok k' /\ event_ok k' event e /\ highest_running k' /\
    (exists l1 l2, qget (k_tq k) (QEvent event) = l1 ++ l2 /\
       qget (k_tq k') (QEvent event) = l1 ++ c :: l2) /\
    k_threads k' !! c = Some th' /\ stat_of th' = RT_THREAD_SUSPEND /\
    th_event_set th' = set /\ th_event_info th' = option.
Proof using All.
  intros Hsat Ht Hto. destruct recv_enter as (Hok0 & Hth0 & ->). rewrite Hsat, (proj2 (Z.eqb_neq _ _) Ht).
  set (th1 := set_th_event set option th0). set (k1 := thread_st c th1 k0).
  assert (kernel_ok k1) as Hok1 by (by apply (thread_st_same c th0)).
  destruct Heo as [He [Hty Hf] Hw].
  destruct (block_on_spec (QEvent event) c th1 (o_flag (ev_parent e)) timeout k1)
    as (k' & E' & B); [done|done|done|done|apply Hcb|apply thread_st_lookup|apply Hcb|].
  destruct (bo_queue _ _ _ _ _ _ _ B) as (l1 & l2 & H1 & H2 & _). change (k_tq k1) with (k_tq k) in H1.
  exists k', (with_stat RT_THREAD_SUSPEND th1). split.
  { rewrite bind_unfold, (upd_thread_eq c _ k0 th0) by done. fold th1 k1.
    rewrite bind_unfold, (get_flag_eq _ k1 (ev_parent e)) by (by apply event_hdr).
    by rewrite bind_unfold, E'. }
  split; [apply B|]. split.
  { constructor; [by rewrite (of_events _ _ (bo_frame _ _ _ _ _ _ _ B))|done|].
    intros t Hin. rewrite H2 in Hin. destruct (decide (t = c)) as [->|Hne].
    { exists (with_stat RT_THREAD_SUSPEND th1). split; [apply B|]. apply unmet_status. exists set. by apply unsatisfied_status. }
    assert (t ∈ qget (k_tq k) (QEvent event)) as Hin'.
    { rewrite H1. rewrite elem_of_app, elem_of_cons in Hin. rewrite elem_of_app. tauto. }
    destruct (Hw t Hin') as (thx & Hx & Hs). exists thx. split; [|done].
    destruct (so_wait _ _ (ok_inv _ (ko_sched _ Hok)) (QEvent event) t) as (th' & Hx' & Hsus); [done|done|].
    rewrite Hx in Hx'. injection Hx' as <-.
    destruct (bo_other _ _ _ _ _ _ _ B t thx Hne) as (st & Hst & Hb & _); [by apply recv_others|].
    rewrite Hb in Hst; [done|]. unfold blocked. by rewrite Hsus. }
  split; [apply (bo_highest _ _ _ _ _ _ _ B); apply Hcb|]. split; [by exists l1, l2|].
  split; [apply B|]. split; [apply stat_with_stat|done].
Qed.
End recv.

(** [rt_event_recv] with one of the options for all or for any. If the
    event has the bits, the caller gets those it asked for, and they are taken
    away if it asked for that. Otherwise a caller that does not want to wait
    is refused with [-RT_ETIMEOUT], and any other caller is suspended among
    the waiting threads, its request noted in its control block. The event and
    the kernel invariant hold afterwards. *)
Theorem event_recv_correct k event e c th set option timeout :
  kernel_ok k -> event_ok k event e -> can_block k c th -> set <> 0 -> timeout < RT_TICK_MAX / 2 ->
  has_flag option RT_EVENT_FLAG_AND || has_flag option RT_EVENT_FLAG_OR = true ->
  exists r k' e', rt_event_recv event set option timeout k = Some (r, k') /\ kernel_ok k' /\
    event_ok k' event e' /\
    if satisfied option set (ev_set e) then
      r = (Ret RT_EOK, Some (Z.land (ev_set e) set)) /\ k_current k' = Some c /\
      ev_set e' = (if has_flag option RT_EVENT_FLAG_CLEAR then clear_bits (ev_set e) set else ev_set e)
    else if decide (timeout = 0) then
      r = (Ret (- RT_ETIMEOUT), None) /\ ev_set e' = ev_set e /\ k_current k' = Some c
    else
      r = (Wait tt, None) /\ ev_set e' = ev_set e /\ highest_running k' /\
      (exists l1 l2, qget (k_tq k) (QEvent event) = l1 ++ l2 /\
         qget (k_tq k') (QEvent event) = l1 ++ c :: l2) /\
      exists th', k_threads k' !! c = Some th' /\ stat_of th' = RT_THREAD_SUSPEND /\
        th_event_set th' = set /\ th_event_info th' = option.
Proof.
  intros Hok Heo Hcb Hset Hto Hopt. destruct (satisfied option set (ev_set e)) eqn:Hsat.
  { destruct (recv_now k event e c th set option timeout Hok Heo Hcb Hset Hopt Hsat)
      as (k' & e' & ? & ? & ? & ? & ?). by eexists _, k', e'. }
  case_decide as Ht.
  - destruct (recv_refused k event e c th set option timeout Hok Heo Hcb Hset Hopt Hsat Ht)
      as (k' & ? & ? & ? & ?). by eexists _, k', e.
  - destruct (recv_wait k event e c th set option timeout Hok Heo Hcb Hset Hopt Hsat Ht Hto)
      as (k' & th' & ? & ? & ? & ? & ? & ? & ? & ? & ?). eexists _, k', e. split_and!; eauto.
Qed.

(** ** A concrete event *)

(** Event 0; the main thread waits for both of the bits 0 and 1 and takes them
    away, thread 3 for any of the bits 1 and 2. *)
Definition event_demo : kstate :=
  after (rt_event_init 0 [101] RT_IPC_FLAG_FIFO;; rt_event_recv 0 3 5 (-1);;
         rt_event_recv 0 6 2 (-1)) demo_state.

Definition event_at (event : nat) (k : kstate) : rt_event := default raw_event (k_events k !! event).

Lemma event_demo_ok : event_ok event_demo 0 (event_at 0 event_demo).
Proof.
  constructor; [vm_compute; reflexivity|split; [vm_compute; reflexivity|left; vm_compute; reflexivity]|].
  intros t Ht.
  replace (qget (k_tq event_demo) (QEvent 0)) with [0%nat; 3%nat] in Ht by (vm_compute; reflexivity).
  apply elem_of_cons in Ht as [->|Ht%list_elem_of_singleton]; [|subst t].
  - exists (thread_at 0 event_demo). split; [vm_compute; reflexivity|]. apply unmet_status. exists 3. vm_compute. reflexivity.
  - exists (thread_at 3 event_demo). split; [vm_compute; reflexivity|]. apply unmet_status. exists 6. vm_compute. reflexivity.
Qed.

(** Bits 0, 1 and 2 are sent: main takes 0 and 1 away, thread 3 gets 2. *)
Lemma event_send_correct_witness :
  exists k' e', rt_event_send 0 7 event_demo = Some (RT_EOK, k') /\ kernel_ok k' /\
    event_ok k' 0 e' /\ ev_set e' = 4 /\ highest_running k'.
Proof.
  destruct (event_send_correct event_demo 0 (event_at 0 event_demo) 7)
    as (_ & k' & e' & E & Hok & He & Hs & _ & _ & Hh).
  - apply kernel_check_sound. vm_compute. reflexivity.
  - apply event_demo_ok.
  - vm_compute. eauto.
  - vm_compute. reflexivity.
  - discriminate.
  - exists k', e'. split; [exact E|]. split; [exact Hok|]. split; [exact He|]. split.
    + rewrite Hs. vm_compute. reflexivity.
    + apply Hh. vm_compute. discriminate.
Defined.

Lemma event_recv_correct_witness :
  exists r k' e', rt_event_recv 0 2 RT_EVENT_FLAG_OR 5 event_demo = Some (r, k') /\ kernel_ok k' /\
    event_ok k' 0 e' /\ r = (Wait tt, None).
Proof.
  destruct (event_recv_correct event_demo 0 (event_at 0 event_demo) 4 (thread_at 4 event_demo) 2
              RT_EVENT_FLAG_OR 5) as (r & k' & e' & E & Hok & He & H).
  - apply kernel_check_sound. vm_compute. reflexivity.
  - apply event_demo_ok.
  - constructor; vm_compute; reflexivity.
  - discriminate.
  - vm_compute. reflexivity.
  - reflexivity.
  - exists r, k', e'. split; [exact E|]. split; [exact Hok|]. split; [exact He|].
    replace (satisfied RT_EVENT_FLAG_OR 2 (ev_set (event_at 0 event_demo))) with false in H
      by (vm_compute; reflexivity).
    destruct (decide (5 = 0)) as [?|_]; [discriminate|]. apply H.
Defined.
