(* ===== verification/ObjectSpec.v ===== *)
(** * Properties of the object container

    What [rt_object_init] and [rt_object_find] do, and with them the first
    steps of every [rt_*_init] of a communication object. *)
From S2P Require Import Prelude Kservice Kernel Sched Object Timer Thread KernelInv Boot Ipc.

(** ** Critical sections *)

(** [k'] is [k] after the scheduler may have been called. *)
Record settled (k k' : kstate) : Prop := Settled {
  se_ok : kernel_ok k';
  se_frame : sched_frame k k';
  se_current : is_Some (k_current k) -> is_Some (k_current k')
}.

Lemma set_lock_id k n : k_lock_nest k = n -> set_k_lock_nest n k = k.
Proof. destruct k. simpl. by intros ->. Qed.

Lemma set_lock_twice n m k : set_k_lock_nest n (set_k_lock_nest m k) = set_k_lock_nest n k.
Proof. done. Qed.

(** A critical section around a computation that only reads. *)
Lemma critical_spec {A} (m : M A) (a : A) k :
  kernel_ok k -> 0 <= k_lock_nest k < 32767 ->
  (forall l, m (set_k_lock_nest l k) = Some (a, set_k_lock_nest l k)) ->
  exists k', (rt_enter_critical;; r ← m; rt_exit_critical;; mret r) k = Some (a, k') /\ settled k k'.
Proof.
  intros Hok Hl Hm. set (l := k_lock_nest k) in *.
  assert (s16 (l + 1) = l + 1) as E1 by (unfold s16; dlia).
  assert (s16 (l + 1 - 1) = l) as E2 by (unfold s16; dlia).
  unfold rt_enter_critical, rt_exit_critical, rt_thread_self. mrun. rewrite Hm. kfields.
  fold l. rewrite E1, E2, !set_lock_twice. destruct (Z.leb_spec l 0) as [Hz|Hnz].
  - assert (l = 0) as Hl0 by lia. change (k_current (set_k_lock_nest l k)) with (k_current k).
    rewrite set_lock_twice, (set_lock_id k 0) by done.
    destruct (bool_decide_reflect (is_Some (k_current k))) as [Hc|Hc].
    + destruct (schedule_kernel k Hok Hc) as (k' & -> & Hok' & F & Hc' & _).
      exists k'. split; [done|]. by constructor.
    + exists k. split; [done|]. constructor; [done|done|by intros].
  - rewrite set_lock_id by done. exists k. split; [done|]. by constructor.
Qed.

(** ** The container *)

(** Every object of the class is there and has a string, cut off at
    [RT_NAME_MAX] bytes, as its name. *)
Definition named (k : kstate) (o : oid) (s : list Z) : Prop :=
  is_string s /\ exists h, obj_hdr o k = Some h /\ o_name h = rt_strncpy s RT_NAME_MAX.

Definition same_name (s name : list Z) : Prop := take RT_NAME_MAX s = take RT_NAME_MAX name.

Record class_ok (k : kstate) (type : Z) : Prop := ClassOk {
  cl_info : is_Some (rt_object_get_information type);
  cl_named o : o ∈ qget (k_objlist k) type -> exists s, named k o s
}.

Lemma named_unique k o s s' : named k o s -> named k o s' -> same_name s s'.
Proof.
  intros [Hs (h & Hh & Hn)] [Hs' (h' & Hh' & Hn')]. assert (h' = h) as -> by congruence.
  apply strncmp_eq; [done|done|].
  rewrite <- strncmp_strncpy, <- Hn, Hn', strncmp_strncpy. by apply strncmp_eq.
Qed.

(** [r] is the first object of [nodes] with the name [name]. *)
Definition first_named (k : kstate) (nodes : list oid) (name : list Z) (r : option oid) : Prop :=
  match r with
  | Some o => exists l1 l2 s, nodes = l1 ++ o :: l2 /\ named k o s /\ same_name s name /\
      forall x s, x ∈ l1 -> named k x s -> ~ same_name s name
  | None => forall x s, x ∈ nodes -> named k x s -> ~ same_name s name
  end.

Lemma find_loop_spec nodes name k :
  is_string name -> (forall o, o ∈ nodes -> exists s, named k o s) ->
  exists r, (forall l, find_loop nodes name (set_k_lock_nest l k) = Some (r, set_k_lock_nest l k)) /\
    first_named k nodes name r.
Proof.
  intros Hname. induction nodes as [|o nodes IH]; intros Hn.
  - exists None. split; [done|]. intros x s Hx. by apply elem_of_nil in Hx.
  - destruct IH as (r & E & Hr); [intros x Hx; apply Hn; by right|].
    destruct (Hn o) as (s & Hs); [by left|]. pose proof Hs as [Hstr (h & Hh & Hnm)].
    assert (rt_strncmp (o_name h) name RT_NAME_MAX = 0 <-> same_name s name) as Hcmp.
    { rewrite Hnm, strncmp_strncpy. by apply strncmp_eq. }
    assert (forall l, obj_hdr o (set_k_lock_nest l k) = Some h) as Hh' by (intros l; by destruct o).
    destruct (Z.eqb_spec (rt_strncmp (o_name h) name RT_NAME_MAX) 0) as [Heq|Hne].
    + exists (Some o). split.
      * intros l. cbn [find_loop]. unfold get_hdr. mrun. rewrite Hh'. by rewrite Heq.
      * exists [], nodes, s. split; [done|]. split; [done|]. split; [by apply Hcmp|].
        intros x s' Hx. by apply elem_of_nil in Hx.
    + assert (forall x s', x ∈ [o] -> named k x s' -> ~ same_name s' name) as Ho.
      { intros x s' ->%list_elem_of_singleton Hx Hsn. apply Hne, Hcmp.
        transitivity (take RT_NAME_MAX s'); [by apply (named_unique k o)|done]. }
      exists r. split.
      * intros l. cbn [find_loop]. unfold get_hdr. mrun. rewrite Hh'.
        rewrite (proj2 (Z.eqb_neq _ _) Hne). apply E.
      * destruct r as [x|].
        -- destruct Hr as (l1 & l2 & sx & -> & Hx & Hsn & Hl1). exists (o :: l1), l2, sx.
           split; [done|]. split; [done|]. split; [done|].
           intros y sy Hy. apply elem_of_cons in Hy as [->|Hy]; [|by apply Hl1].
           apply Ho. by apply list_elem_of_singleton.
        -- intros y sy Hy. apply elem_of_cons in Hy as [->|Hy]; [|by apply Hr].
           apply Ho. by apply list_elem_of_singleton.
Qed.

Lemma object_find_spec k name type :
  kernel_ok k -> class_ok k type -> is_string name ->
  0 <= k_lock_nest k < 32767 -> k_interrupt_nest k = 0 ->
  exists r k', rt_object_find (Some name) type k = Some (r, k') /\ settled k k' /\
    first_named k (qget (k_objlist k) type) name r.
Proof.
  intros Hok [[i Hi] Hn] Hname Hl Hint.
  destruct (find_loop_spec (qget (k_objlist k) type) name k Hname Hn) as (r & E & Hr).
  destruct (critical_spec (nodes ← object_list type; find_loop nodes name) r k Hok Hl)
    as (k' & Ec & Hs); [intros l; unfold object_list; mrun; apply E|].
  exists r, k'. split; [|done]. unfold rt_object_find. rewrite Hi, bind_unfold.
  assert (RT_DEBUG_NOT_IN_INTERRUPT k = Some (tt, k)) as ->.
  { unfold RT_DEBUG_NOT_IN_INTERRUPT, rt_interrupt_get_nest, rt_assert. mrun. by rewrite Hint. }
  rewrite <- Ec. unfold object_list. mrun. done.
Qed.

(** [rt_object_find] returns the first object of the class, the one
    initialised last, whose name agrees with the given one in the first
    [RT_NAME_MAX] bytes, and null if there is none. It runs with the scheduler
    locked; when it unlocks it the scheduler may be called, but no thread is
    woken or blocked. *)
Theorem object_find_correct k name type :
  kernel_ok k -> class_ok k type -> is_string name ->
  0 <= k_lock_nest k < 32767 -> k_interrupt_nest k = 0 ->
  exists r k', rt_object_find (Some name) type k = Some (r, k') /\ settled k k' /\
    first_named k (qget (k_objlist k) type) name r.
Proof. apply object_find_spec. Qed.

(** ** Initialising an object *)

(** The communication objects and devices: neither threads nor timers. *)
Definition is_ipc (o : oid) : Prop :=
  match o with OThread _ | OTimer _ => False | _ => True end.

Lemma obj_hdr_settled k k' x : sched_frame k k' -> obj_hdr x k' = obj_hdr x k.
Proof.
  intros F. pose proof (sched_obj_frame _ _ F) as O.
  destruct (sched_frame_fields _ _ F) as (Ft & _).
  destruct x; simpl; rewrite ?(of_sems _ _ O), ?(of_mutexes _ _ O), ?(of_events _ _ O),
    ?(of_mbs _ _ O), ?(of_mqs _ _ O), ?(of_mps _ _ O), ?(of_devices _ _ O), ?Ft; try done.
  destruct (k_threads k !! t) as [th|] eqn:E.
  - destruct (sf_thread _ _ F t th E) as (s & -> & _). done.
  - by rewrite (sf_none _ _ F t E).
Qed.

Lemma obj_hdr_set x o h k : obj_hdr x (set_obj_hdr o h k) = if decide (x = o) then Some h else obj_hdr x k.
Proof.
  assert (forall (A : Type) (f : A -> rt_object) (m : gmap nat A) i j a,
    f <$> (<[j := a]> m) !! i = if decide (i = j) then Some (f a) else f <$> m !! i) as Hn.
  { intros A f m i j a. case_decide; subst; [by rewrite lookup_insert_eq|].
    by rewrite lookup_insert_ne. }
  destruct x, o; simpl; try (by rewrite decide_False by done); rewrite ?Hn.
  all: try (repeat case_decide; simplify_eq; done).
  destruct (decide (m = m0)) as [->|Hne].
  - by rewrite lookup_insert_eq, decide_True.
  - rewrite lookup_insert_ne, decide_False by congruence. done.
Qed.

Lemma set_hdr_kernel_ok o h l k :
  is_ipc o -> kernel_ok k -> kernel_ok (set_k_objlist l (set_obj_hdr o h k)).
Proof. intros Ho. apply kernel_ok_objects; by destruct o. Qed.

(** The header that [rt_object_init] writes. *)
Definition init_hdr (type : Z) (name : list Z) (h : option rt_object) : rt_object :=
  set_o_name (rt_strncpy name RT_NAME_MAX)
    (set_o_type (Z.lor type RT_Object_Class_Static) (default raw_object h)).

Definition init_st (o : oid) (type : Z) (name : list Z) (k : kstate) : kstate :=
  set_k_objlist (rt_list_insert_after type o (k_objlist k))
    (set_obj_hdr o (init_hdr type name (obj_hdr o k)) k).

Lemma assert_not_linked_eq nodes o k :
  o ∉ nodes -> assert_not_linked nodes o k = Some (tt, k).
Proof.
  induction nodes as [|x nodes IH]; intros Ho; [done|]. apply not_elem_of_cons in Ho as [Hx Ho].
  simpl. unfold rt_assert. mrun. rewrite bool_decide_true by auto. by apply IH.
Qed.

Lemma object_init_spec o type name k :
  kernel_ok k -> is_Some (rt_object_get_information type) -> o ∉ qget (k_objlist k) type ->
  0 <= k_lock_nest k < 32767 ->
  exists k', settled k k' /\ rt_object_init o type name k = Some (tt, init_st o type name k').
Proof.
  intros Hok Hi Ho Hl.
  destruct (critical_spec (nodes ← object_list type; assert_not_linked nodes o) tt k Hok Hl)
    as (k' & E & Hs).
  { intros l. unfold object_list. mrun. by rewrite assert_not_linked_eq. }
  exists k'. split; [done|]. revert E. unfold rt_object_init, rt_enter_critical, object_list, put_hdr.
  mrun. unfold rt_assert at 1. rewrite bool_decide_true by done. kfields.
  rewrite assert_not_linked_eq by done.
  destruct (rt_exit_critical _) as [[[] k1]|]; [|done]. intros [= ->].
  by unfold init_st; destruct o.
Qed.

(** [rt_object_init] of a communication object registers it: it becomes
    the first object of its class under its name (cut off at [RT_NAME_MAX]
    bytes), no other object of the class changes, and [rt_object_find] with
    that name then returns it. *)
Theorem object_init_found o type name k :
  kernel_ok k -> class_ok k type -> is_ipc o -> o ∉ qget (k_objlist k) type ->
  is_string name -> 0 <= k_lock_nest k < 32767 -> k_interrupt_nest k = 0 ->
  exists k1 k2, rt_object_init o type name k = Some (tt, k1) /\
    rt_object_find (Some name) type k1 = Some (Some o, k2) /\
    kernel_ok k1 /\ kernel_ok k2 /\ class_ok k1 type /\ named k1 o name /\
    qget (k_objlist k1) type = o :: qget (k_objlist k) type /\
    forall x, x <> o -> obj_hdr x k1 = obj_hdr x k.
Proof.
  intros Hok [Hi Hn] Hipc Ho Hname Hl Hint.
  destruct (object_init_spec o type name k Hok Hi Ho Hl) as (k' & [Hok' F Hc] & E).
  pose proof (sched_obj_frame _ _ F) as O. set (k1 := init_st o type name k').
  assert (forall x, obj_hdr x k1 = if decide (x = o) then Some (init_hdr type name (obj_hdr o k'))
            else obj_hdr x k) as Hh.
  { intros x. rewrite <- (obj_hdr_settled k k' x F), <- obj_hdr_set. by destruct x. }
  assert (named k1 o name) as Hno.
  { split; [done|]. eexists. rewrite Hh, decide_True by done. done. }
  assert (qget (k_objlist k1) type = o :: qget (k_objlist k) type) as Hq.
  { unfold k1, init_st; kfields. rewrite qget_insert_after, decide_True by done.
    by rewrite (of_objlist _ _ O). }
  assert (forall x, x <> o -> obj_hdr x k1 = obj_hdr x k) as Hother.
  { intros x Hx. by rewrite Hh, decide_False. }
  assert (kernel_ok k1) as Hok1 by (by apply set_hdr_kernel_ok).
  assert (class_ok k1 type) as Hcl.
  { constructor; [done|]. intros x. rewrite Hq, elem_of_cons. intros [->|Hx]; [eauto|].
    destruct (Hn x Hx) as (s & Hs & h & Hxh & Hnm). exists s. split; [done|]. exists h.
    rewrite Hother; [done|]. by intros ->. }
  assert (k_lock_nest k1 = k_lock_nest k /\ k_interrupt_nest k1 = k_interrupt_nest k) as [El Ei].
  { rewrite <- (of_lock _ _ O), <- (of_interrupt _ _ O). by unfold k1, init_st; destruct o. }
  destruct (object_find_spec k1 name type) as (r & k2 & Ef & Hs2 & Hr); try done;
    [by rewrite El|by rewrite Ei|].
  exists k1, k2. split; [done|]. split; [|split; [done|split; [apply Hs2|done]]].
  rewrite Ef. do 2 f_equal. rewrite Hq in Hr. destruct r as [x|].
  - destruct Hr as ([|y l1] & l2 & s & Hl1 & _ & _ & Hne); [by injection Hl1 as <- _|].
    injection Hl1 as <- _. exfalso. by apply (Hne o name); [left|done|].
  - exfalso. by apply (Hr o name); [left|done|].
Qed.

(** A list of waiting threads that is empty is initialised again. *)
Lemma init_list_ok q k :
  kernel_ok k -> qget (k_tq k) q = [] -> kernel_ok (set_k_tq (<[q := []]> (k_tq k)) k).
Proof.
  intros [[Hs Hc] Ht] Hq.
  assert (forall q', qget (<[q := []]> (k_tq k)) q' = qget (k_tq k) q') as E.
  { intros q'. rewrite qget_insert. case_decide; [by subst|done]. }
  constructor; [constructor; [|done]|].
  2: { apply (timer_inv_ext k); [done|done|intros t th Hth; by exists th| |done].
    intros t l th _ _ Hth ?. by exists th. }
  destruct Hs. constructor; kfields; intros *; rewrite ?E; eauto.
Qed.

(** Setting the flag of an object. *)
Lemma set_flag_eq o h f k :
  obj_hdr o k = Some h -> set_flag o f k = Some (tt, set_obj_hdr o (set_o_flag f h) k).
Proof. intros Hh. unfold set_flag, get_hdr, put_hdr. mrun. by rewrite Hh. Qed.

(** What the [rt_*_init] of a communication object begins with: the object is
    registered, its flag is set and its list of waiting threads is empty. *)
Lemma ipc_init_spec o c name flag q k :
  kernel_ok k -> is_Some (rt_object_get_information c) -> o ∉ qget (k_objlist k) c ->
  0 <= k_lock_nest k < 32767 -> is_ipc o -> is_wait q -> qget (k_tq k) q = [] ->
  exists k1 k2 k' h0, rt_object_init o c name k = Some (tt, k1) /\
    set_flag o flag k1 = Some (tt, k2) /\ _ipc_object_init q k2 = Some (RT_EOK, k') /\
    kernel_ok k' /\ obj_hdr o k' = Some (set_o_flag flag (init_hdr c name h0)) /\
    (forall q', is_wait q' -> qget (k_tq k') q' = qget (k_tq k) q') /\
    k_current k' = k_current k1 /\ k_lock_nest k' = k_lock_nest k.
Proof.
  intros Hok Hi Ho Hl Hipc Hw Hq.
  destruct (object_init_spec o c name k Hok Hi Ho Hl) as (k0 & [Hok0 F _] & E).
  set (h := init_hdr c name (obj_hdr o k0)). set (k1 := init_st o c name k0) in *.
  assert (obj_hdr o k1 = Some h) as Hh1.
  { replace (obj_hdr o k1) with (obj_hdr o (set_obj_hdr o h k0)) by (by destruct o).
    by rewrite obj_hdr_set, decide_True. }
  set (k2 := set_obj_hdr o (set_o_flag flag h) k1).
  assert (kernel_ok k2) as Hok2.
  { replace k2 with (set_k_objlist (k_objlist k1) k2) by (by unfold k2; destruct o).
    apply set_hdr_kernel_ok; [done|]. unfold k1, init_st. by apply set_hdr_kernel_ok. }
  assert (k_tq k2 = k_tq k0 /\ k_current k2 = k_current k1 /\ k_lock_nest k2 = k_lock_nest k0)
    as (Et & Ec & El) by (unfold k2, k1, init_st; by destruct o).
  assert (qget (k_tq k2) q = []) as Hq2 by (rewrite Et, (sf_wait _ _ F); [done|by destruct q]).
  exists k1, k2, (set_k_tq (<[q := []]> (k_tq k2)) k2), (obj_hdr o k0).
  split; [done|]. split; [by apply set_flag_eq|]. split; [done|]. split; [by apply init_list_ok|].
  split.
  { transitivity (obj_hdr o k2); [by destruct o|]. unfold k2. by rewrite obj_hdr_set, decide_True. }
  split; [|split; [done|]].
  - intros q' Hw'. simpl. rewrite qget_insert. case_decide as He; [by subst q'|].
    rewrite Et. apply (sf_wait _ _ F). by destruct q'.
  - simpl. rewrite El. by rewrite (of_lock _ _ (sched_obj_frame _ _ F)).
Qed.

(** ** [rt_timer_detach] *)

Definition dead_timer (tm : rt_timer) : rt_timer :=
  set_tm_parent (set_o_type 0 (tm_parent (deactivate tm))) (deactivate tm).

(** The state [rt_timer_detach] leaves. *)
Definition detached (m : tmid) (tm : rt_timer) (k : kstate) : kstate :=
  set_k_objlist (rt_list_remove (OTimer m) (k_objlist k))
    (set_k_tmq (rt_list_remove m (k_tmq k)) (set_k_timers (<[m := dead_timer tm]> (k_timers k)) k)).

Lemma timer_detach_eq m tm k :
  k_timers k !! m = Some tm -> has_type RT_Object_Class_Timer (tm_parent tm) -> is_static (tm_parent tm) = true ->
  rt_timer_detach m k = Some (RT_EOK, detached m tm k).
Proof.
  intros Hm Hy Hs. unfold rt_timer_detach. rewrite (bind_ok _ _ k tt k) by (by apply (assert_timer_type k m tm)).
  assert (rt_object_is_systemobject (OTimer m) k = Some (true, k)) as E.
  { unfold rt_object_is_systemobject, get_hdr. mrun. unfold obj_hdr. rewrite Hm; simpl.
    change (Some (is_static (tm_parent tm), k) = Some (true, k)). by rewrite Hs. }
  rewrite (bind_ok _ _ k true k) by done. rewrite (bind_ok _ _ k tt k) by done.
  set (k1 := set_k_tmq (rt_list_remove m (k_tmq k)) k). rewrite (bind_ok _ _ k tt k1) by done.
  rewrite (bind_ok _ _ k1 tt (timer_st m (deactivate tm) k1)) by (by apply (upd_timer_eq m _ k1 tm)).
  set (k2 := timer_st m (deactivate tm) k1). rewrite (bind_ok _ _ k2 tt (detached m tm k)); [done|].
  unfold rt_object_detach, get_hdr, put_hdr, modify_objlist. mrun. unfold obj_hdr.
  assert (k_timers k2 !! m = Some (deactivate tm)) as E2 by apply timer_st_lookup. rewrite E2. simpl. unfold detached, k2, k1, timer_st; kfields.
  by rewrite lookup_insert_eq, insert_insert_eq.
Qed.

(** ** Concrete objects *)

Lemma class_ok_names k type names :
  is_Some (rt_object_get_information type) -> Forall is_string names ->
  map (fun o => o_name <$> obj_hdr o k) (qget (k_objlist k) type) =
    map (fun s => Some (rt_strncpy s RT_NAME_MAX)) names ->
  class_ok k type.
Proof.
  intros Hi Hs Hm. constructor; [done|]. revert names Hs Hm.
  induction (qget (k_objlist k) type) as [|x l IH]; intros [|s names] Hs Hm o Ho; try done;
    [by apply elem_of_nil in Ho|].
  apply Forall_cons in Hs as [Hs Hss]. injection Hm as Hx Hm.
  apply elem_of_cons in Ho as [->|Ho]; [|by apply (IH names)].
  exists s. split; [done|]. destruct (obj_hdr x k) as [h|]; [|done]. exists h.
  split; [done|]. by injection Hx.
Qed.

Lemma demo_threads : class_ok demo_state RT_Object_Class_Thread.
Proof.
  apply (class_ok_names _ _ [[98]; [97]; idle_name; timer_name; main_name]).
  - vm_compute. eauto.
  - repeat constructor.
  - vm_compute. reflexivity.
Qed.

Lemma demo_sems : class_ok demo_state RT_Object_Class_Semaphore.
Proof. apply (class_ok_names _ _ []); [vm_compute; eauto|constructor|vm_compute; reflexivity]. Qed.

(** The thread list is searched for the name of the idle thread. *)
Lemma object_find_correct_witness :
  exists r k', rt_object_find (Some idle_name) RT_Object_Class_Thread demo_state = Some (r, k') /\
    kernel_ok k' /\ r = Some (OThread 2).
Proof.
  destruct (object_find_correct demo_state idle_name RT_Object_Class_Thread)
    as (r & k' & E & Hs & _).
  - exact demo_ok.
  - exact demo_threads.
  - repeat constructor.
  - vm_compute. split; congruence.
  - vm_compute. reflexivity.
  - exists r, k'. split; [exact E|]. split; [apply Hs|].
    assert (fst <$> rt_object_find (Some idle_name) RT_Object_Class_Thread demo_state =
      Some (Some (OThread 2))) as E' by (vm_compute; reflexivity).
    rewrite E in E'. injection E' as ->. reflexivity.
Defined.

(** Semaphore 7 with a name of nine bytes, found again. *)
Lemma object_init_found_witness :
  exists k1 k2,
    rt_object_init (OSem 7) RT_Object_Class_Semaphore [97; 98; 99; 100; 101; 102; 103; 104; 105]
      demo_state = Some (tt, k1) /\
    rt_object_find (Some [97; 98; 99; 100; 101; 102; 103; 104; 105]) RT_Object_Class_Semaphore k1 =
      Some (Some (OSem 7), k2) /\ kernel_ok k2.
Proof.
  destruct (object_init_found (OSem 7) RT_Object_Class_Semaphore
      [97; 98; 99; 100; 101; 102; 103; 104; 105] demo_state) as (k1 & k2 & E1 & E2 & _ & Hok & _).
  - exact demo_ok.
  - exact demo_sems.
  - exact I.
  - replace (qget (k_objlist demo_state) RT_Object_Class_Semaphore) with (@nil oid)
      by (vm_compute; reflexivity). apply not_elem_of_nil.
  - repeat constructor.
  - vm_compute. split; congruence.
  - vm_compute. reflexivity.
  - exists k1, k2. split; [exact E1|]. split; [exact E2|exact Hok].
Defined.
