(* ===== verification/ThreadEnd.v ===== *)
(** * The end of a thread

    A thread is closed by [rt_thread_detach] or [rt_thread_delete] (thread.c),
    which puts it on the list of the ended threads; the idle thread takes it
    from there and gives up its object, [rt_defunct_execute] (idle.c). *)
From S2P Require Import Prelude Kservice Kernel Sched Object Timer Thread KernelInv Boot ObjectSpec.

(** ** Closing *)

(** A thread that is on no list may be put on that of the ended ones. *)
Lemma defunct_insert_inv t th k :
  sched_inv (Some t) k -> k_threads k !! t = Some th -> stat_of th = RT_THREAD_CLOSE ->
  sched_inv None (set_k_tq (rt_list_insert_after QDefunct t (k_tq k)) k).
Proof.
  intros [Hex Hnd Hfl Hrd Hwt Hdf Hqd Hrun Hpr Hg Hb] Hth Hs.
  assert (forall q x, x ∈ qget (rt_list_insert_after QDefunct t (k_tq k)) q <->
    x ∈ qget (k_tq k) q \/ (x = t /\ q = QDefunct)) as Hin by (intros q x; apply elem_insert_after).
  assert (forall q, t ∉ qget (k_tq k) q) as Hnt by (intros; by apply Hfl).
  constructor; kfields; try done.
  - intros q1 q2 x H1%Hin H2%Hin. destruct H1 as [H1|[-> ->]], H2 as [H2|[? ->]]; subst; eauto; exfalso; by eapply Hnt.
  - intros q. apply nodup_insert_after; auto.
  - intros p x Hx%Hin. destruct Hx as [H1|[_ ?]]; [eauto|done].
  - intros q x Hq Hx%Hin. destruct Hx as [H1|[_ ->]]; [eauto|done].
  - intros x Hx%Hin. destruct Hx as [H1|[-> _]]; [eauto|by exists th].
  - intros x thx Hx _ Hsx. apply Hin. left. apply Hqd; [done| |done]. intros [= <-].
    assert (thx = th) as -> by congruence. by rewrite Hs in Hsx.
  - intros x thx Hx _ Hsx. apply (Hrun x thx); [done| |done]. intros [= <-].
    assert (thx = th) as -> by congruence. by rewrite Hs in Hsx.
  - intros p Hp. rewrite Hb by done. by rewrite qget_insert_after, decide_False.
Qed.

Definition closed_thread (th : rt_thread) : rt_thread := set_th_stat RT_THREAD_CLOSE th.

(** The thread [t] has been closed. *)
Record closed (t : nat) (th : rt_thread) (k k' : kstate) : Prop := Closed {
  cd_ok : kernel_ok k';
  cd_threads : k_threads k' = <[t := closed_thread th]> (k_threads k);
  cd_current : k_current k' = k_current k;
  cd_lock : k_lock_nest k' = k_lock_nest k;
  cd_lists q : qget (k_tq k') q =
    if decide (q = QDefunct) then t :: qget (k_tq k) QDefunct else filter (fun x => x <> t) (qget (k_tq k) q);
  cd_armed l : qget (k_tmq k') l = filter (fun m => m <> TmThread t) (qget (k_tmq k) l);
  cd_timers m : m <> TmThread t -> k_timers k' !! m = k_timers k !! m;
  cd_objects c : qget (k_objlist k') c = filter (fun o => o <> OTimer (TmThread t)) (qget (k_objlist k) c)
}.

(** A thread taken off its list, on none of the lists then. *)
Definition unlisted_st (t : nat) (th : rt_thread) (k : kstate) : kstate :=
  if stat_of th =? RT_THREAD_INIT then k else remove_st t th k.

Lemma init_unlisted t th k q :
  sched_inv None k -> k_threads k !! t = Some th -> stat_of th = RT_THREAD_INIT -> t ∉ qget (k_tq k) q.
Proof.
  intros H Hth Hs Hin.
  assert (exists th', k_threads k !! t = Some th' /\ stat_of th' <> RT_THREAD_INIT) as (th' & ? & ?); [|congruence].
  assert (is_wait q \/ q = QDefunct \/ exists p, q = QReady p) as [Hw|[->|[p ->]]] by (destruct q; simpl; eauto).
  - destruct (so_wait _ _ H q t Hw Hin) as (th' & ? & Es). exists th'. by rewrite Es.
  - destruct (so_defunct _ _ H t Hin) as (th' & ? & Es). exists th'. by rewrite Es.
  - destruct (so_ready _ _ H _ t Hin) as (th' & ? & Es & _). exists th'. by rewrite Es.
Qed.

Lemma unlisted_inv t th k :
  sched_inv None k -> k_threads k !! t = Some th -> stat_of th <> RT_THREAD_CLOSE ->
  sched_inv (Some t) (unlisted_st t th k) /\
  (forall q, qget (k_tq (unlisted_st t th k)) q = filter (fun x => x <> t) (qget (k_tq k) q)).
Proof.
  intros H Hth Hs. unfold unlisted_st. destruct (Z.eqb_spec (stat_of th) RT_THREAD_INIT) as [Hi|Hi].
  - pose proof (fun q => init_unlisted t th k q H Hth Hi) as Hnot. split; [by apply unlisted_float|].
    intros q. by rewrite filter_ne_notin.
  - split; [by apply remove_inv|]. intros q. apply qget_remove.
Qed.

(** The state a thread is closed in. *)
Definition close_st (t : nat) (th : rt_thread) (tm : rt_timer) (k : kstate) : kstate :=
  let k1 := thread_st t (closed_thread th) (detached (TmThread t) tm (unlisted_st t th k)) in
  set_k_tq (rt_list_insert_after QDefunct t (k_tq k1)) k1.

Lemma unlisted_fields t th k :
  k_threads (unlisted_st t th k) = k_threads k /\ k_timers (unlisted_st t th k) = k_timers k /\
  k_tmq (unlisted_st t th k) = k_tmq k /\ k_objlist (unlisted_st t th k) = k_objlist k /\
  k_current (unlisted_st t th k) = k_current k /\ k_lock_nest (unlisted_st t th k) = k_lock_nest k.
Proof. unfold unlisted_st. by destruct (stat_of th =? RT_THREAD_INIT). Qed.

Lemma close_st_sched t th tm k :
  sched_ok k -> k_threads k !! t = Some th -> stat_of th <> RT_THREAD_CLOSE -> sched_ok (close_st t th tm k).
Proof.
  intros [H Hcur] Hth Hs. destruct (so_prio _ _ H t th Hth) as [Hp _].
  destruct (unlisted_inv t th k H Hth Hs) as [H1 _].
  destruct (unlisted_fields t th k) as (E1 & _ & _ & _ & E5 & _). unfold close_st.
  set (k1 := unlisted_st t th k) in *.
  assert (sched_inv (Some t) (thread_st t (closed_thread th) (detached (TmThread t) tm k1))) as H2.
  { apply (thread_float_inv t th); [by apply (sched_inv_ext _ k1)| |done|done].
    unfold detached; kfields. by rewrite E1. }
  constructor; [apply (defunct_insert_inv t (closed_thread th)); [done|apply thread_st_lookup|done]|].
  unfold thread_st, detached; kfields. rewrite E1, E5. intros x Hx. destruct (decide (x = t)) as [->|Hne].
  - exists (closed_thread th). by rewrite lookup_insert_eq.
  - rewrite lookup_insert_ne by done. by apply Hcur.
Qed.

Lemma close_st_timers t th tm k :
  timer_inv k -> k_threads k !! t = Some th -> timer_inv (close_st t th tm k).
Proof.
  intros [T1 T2 T3 T4] Hth. destruct (unlisted_fields t th k) as (E1 & E2 & E3 & _).
  unfold close_st. set (k1 := unlisted_st t th k) in *.
  assert (forall l m, m ∈ qget (rt_list_remove (TmThread t) (k_tmq k1)) l -> m <> TmThread t /\ m ∈ qget (k_tmq k) l) as Hin.
  { intros l m. by rewrite elem_remove, E3. }
  constructor; unfold thread_st, detached; kfields; rewrite ?E1, ?E2.
  - intros x thx Hx Hc. destruct (decide (x = t)) as [->|Hne].
    { rewrite lookup_insert_eq in Hx. by injection Hx as <-. }
    rewrite lookup_insert_ne in Hx by done. rewrite lookup_insert_ne by congruence. by apply T1.
  - intros l m Hl Hm. destruct (Hin l m Hm) as [Hne Hm']. rewrite lookup_insert_ne by done. by apply T2.
  - intros x l Hl Hm. destruct (Hin l _ Hm) as [Hne Hm']. rewrite lookup_insert_ne by congruence. by apply (T3 x l).
  - intros l Hl. rewrite qget_remove, E3. apply NoDup_filter. by apply T4.
Qed.

Lemma close_spec t th k :
  kernel_ok k -> k_threads k !! t = Some th -> stat_of th <> RT_THREAD_CLOSE ->
  exists k', thread_close t k = Some (RT_EOK, k') /\ closed t th k k'.
Proof.
  intros Hok Hth Hs. destruct (ti_thread k (ko_timer k Hok) t th Hth Hs) as (_ & tm & Htm & Hty & Hst & _).
  destruct (unlisted_fields t th k) as (E1 & E2 & E3 & E4 & E5 & E6).
  destruct (unlisted_inv t th k (ok_inv _ (ko_sched _ Hok)) Hth Hs) as [_ Hq].
  exists (close_st t th tm k). split.
  - unfold thread_close. rewrite (bind_ok _ _ k th k) by (by apply get_thread_eq).
    rewrite (proj2 (Z.eqb_neq _ _) Hs).
    rewrite (bind_ok _ _ k tt (unlisted_st t th k)).
    2: { unfold unlisted_st, when. destruct (stat_of th =? RT_THREAD_INIT); [done|]. by apply remove_eq. }
    rewrite (bind_ok _ _ _ RT_EOK (detached (TmThread t) tm (unlisted_st t th k))).
    2: { apply timer_detach_eq; [by rewrite E2|done|done]. }
    set (k1 := detached (TmThread t) tm (unlisted_st t th k)).
    assert (k_threads k1 !! t = Some th) as Hth1 by (unfold k1, detached; kfields; by rewrite E1).
    by rewrite (bind_ok _ _ _ tt (thread_st t (closed_thread th) k1)) by (by apply upd_thread_eq).
  - assert (kernel_ok (close_st t th tm k)) as Hok'.
    { constructor; [apply close_st_sched|apply close_st_timers]; done || apply Hok. }
    constructor; [done|..]; unfold close_st, thread_st, detached; kfields; rewrite ?E1, ?E2, ?E3, ?E4; try done.
    + intros q. rewrite qget_insert_after, !Hq. repeat case_decide; try done. f_equal. apply filter_ne_notin. intros Hin.
      destruct (so_defunct _ _ (ok_inv _ (ko_sched _ Hok)) t Hin) as (th' & ? & ?). congruence.
    + intros l. apply qget_remove.
    + intros m Hm. by rewrite lookup_insert_ne.
    + intros c. apply qget_remove.
Qed.

(** The scheduler leaves a closed thread for a ready one. *)
Lemma schedule_leaves c th p x k :
  kernel_ok k -> k_current k = Some c -> k_threads k !! c = Some th -> stat_of th = RT_THREAD_CLOSE ->
  k_lock_nest k = 0 -> x ∈ qget (k_tq k) (QReady p) ->
  exists k' c', rt_schedule k = Some (tt, k') /\ k_current k' = Some c' /\ c' <> c.
Proof.
  intros Hok Hc Hth Hs Hl Hx. pose proof (ok_inv _ (ko_sched _ Hok)) as H.
  destruct (schedule_case k c th H Hc Hth) as [[_ Hno]|(to & hp & rest & k' & E & Hq & _ & S)];
    [by rewrite Hs|done|by rewrite Hno in Hx; apply elem_of_nil in Hx|].
  exists k', to. split; [done|]. split.
  - destruct S as [_ _ Hc' _ _]. rewrite Hc'. unfold goes_on. by rewrite Hs.
  - intros ->. destruct (so_ready _ _ H hp c) as (th' & ? & Es & _); [rewrite Hq; by left|].
    assert (th' = th) as -> by congruence. by rewrite Hs in Es.
Qed.

Lemma thread_close_call t th arg k :
  kernel_ok k -> is_Some (k_current k) -> k_threads k !! t = Some th -> stat_of th <> RT_THREAD_CLOSE ->
  exists k1 k2, closed t th k k1 /\ rt_schedule k1 = Some (tt, k2) /\
    rt_thread_control t RT_THREAD_CTRL_CLOSE arg k = Some (RT_EOK, k2) /\
    kernel_ok k2 /\ sched_frame k1 k2 /\ is_Some (k_current k2).
Proof.
  intros Hok Hc Hth Hs. destruct (close_spec t th k Hok Hth Hs) as (k1 & E1 & C).
  destruct (schedule_kernel k1 (cd_ok _ _ _ _ C)) as (k2 & E2 & Hok2 & F & Hc2 & _).
  { by rewrite (cd_current _ _ _ _ C). }
  exists k1, k2. split; [done|]. split; [done|]. split; [|done].
  destruct (ti_thread k (ko_timer k Hok) t th Hth Hs) as (Hty & _).
  assert (rt_object_is_systemobject (OThread t) k = Some (is_static (th_object th), k)) as Es.
  { unfold rt_object_is_systemobject, get_hdr, obj_hdr. mrun. by rewrite Hth. }
  unfold rt_thread_control. rewrite (bind_ok _ _ k tt k) by (by apply (assert_thread_type k t th)).
  cbn -[rt_thread_detach rt_thread_delete]. rewrite (bind_ok _ _ k _ k) by done.
  rewrite (bind_ok _ _ k RT_EOK k1); [by rewrite (bind_ok _ _ k1 tt k2)|].
  destruct (is_static (th_object th)).
  - unfold rt_thread_detach. rewrite (bind_ok _ _ k tt k) by (by apply (assert_thread_type k t th)).
    by rewrite (bind_ok _ _ k true k), (bind_ok _ _ k tt k).
  - unfold rt_thread_delete. rewrite (bind_ok _ _ k tt k) by (by apply (assert_thread_type k t th)).
    by rewrite (bind_ok _ _ k false k), (bind_ok _ _ k tt k).
Qed.

(** C7: closing a thread that has not ended, a static or an allocated one,
    running, ready, waiting or not even started, succeeds. The thread is closed,
    is the first on the list of the ended threads and on no ready list and no
    list of waiting threads, which all keep their order without it; its
    timer is on no timer list and no object any more, the other timers stay.
    The waiting threads keep waiting. Its object is still there. A thread that closes itself
    does not run on if another one is ready (and the scheduler is not locked). *)
Theorem thread_close_correct t th arg k :
  kernel_ok k -> is_Some (k_current k) -> k_threads k !! t = Some th -> stat_of th <> RT_THREAD_CLOSE ->
  exists k', rt_thread_control t RT_THREAD_CTRL_CLOSE arg k = Some (RT_EOK, k') /\ kernel_ok k' /\
    k_threads k' !! t = Some (closed_thread th) /\
    qget (k_tq k') QDefunct = t :: qget (k_tq k) QDefunct /\
    (forall p, t ∉ qget (k_tq k') (QReady p)) /\
    (forall q, is_wait q -> qget (k_tq k') q = filter (fun x => x <> t) (qget (k_tq k) q)) /\
    (forall l, qget (k_tmq k') l = filter (fun m => m <> TmThread t) (qget (k_tmq k) l)) /\
    (forall m, m <> TmThread t -> k_timers k' !! m = k_timers k !! m) /\
    (forall c, qget (k_objlist k') c = filter (fun o => o <> OTimer (TmThread t)) (qget (k_objlist k) c)) /\
    (forall x thx, x <> t -> k_threads k !! x = Some thx -> blocked thx -> k_threads k' !! x = Some thx) /\
    (forall p x, k_current k = Some t -> k_lock_nest k = 0 -> x <> t -> x ∈ qget (k_tq k) (QReady p) ->
       exists c, k_current k' = Some c /\ c <> t).
Proof.
  intros Hok Hc Hth Hs. destruct (thread_close_call t th arg k Hok Hc Hth Hs) as (k1 & k2 & C & E1 & E & Hok2 & F & _).
  destruct C as [C1 C2 C3 Cl C4 C5 C6 C7]. destruct (sched_frame_fields _ _ F) as (Ftm & Ftmq & _).
  assert (k_threads k1 !! t = Some (closed_thread th)) as Hth1 by (rewrite C2; apply lookup_insert_eq).
  assert (forall x thx, k_threads k1 !! x = Some thx -> blocked thx -> k_threads k2 !! x = Some thx) as Hb.
  { intros x thx Hx Hbx. destruct (sf_thread _ _ F x thx Hx) as (s & Hs' & Hsame & _). by rewrite Hsame in Hs'. }
  assert (k_threads k2 !! t = Some (closed_thread th)) as Hth2 by (by apply Hb).
  exists k2. split; [done|]. split; [done|]. split; [done|]. split_and!.
  - rewrite (sf_wait _ _ F) by done. by rewrite C4.
  - intros p Hin. by apply (not_ready_unlisted t (closed_thread th) k2 p (ok_inv _ (ko_sched _ Hok2))) in Hin.
  - intros q Hq. rewrite (sf_wait _ _ F) by (by intros p ->). rewrite C4. case_decide; [by subst q|done].
  - intros l. by rewrite Ftmq.
  - intros m Hm. rewrite Ftm. by apply C6.
  - intros c. by rewrite (of_objlist _ _ (sched_obj_frame _ _ F)).
  - intros x thx Hx Hthx. apply Hb. by rewrite C2, lookup_insert_ne.
  - intros p x Hct Hl Hxt Hx. rewrite <- C3 in Hct.
    destruct (schedule_leaves t (closed_thread th) p x k1 C1 Hct Hth1) as (k' & c & E' & Hc' & Hne); [done|by rewrite Cl| |].
    + rewrite C4, decide_False by done. by apply list_elem_of_filter.
    + exists c. split; [congruence|done].
Qed.

(** ** Cleaning up *)

(** The thread that is running has not been closed. *)
Definition awake (k : kstate) : Prop :=
  exists c th, k_current k = Some c /\ k_threads k !! c = Some th /\ stat_of th <> RT_THREAD_CLOSE.

(** [t] is no thread, or a closed one. *)
Definition dead (k : kstate) (t : nat) : Prop := forall th, k_threads k !! t = Some th -> stat_of th = RT_THREAD_CLOSE.

(** The contract of the cleanup functions of the threads: they may use the
    kernel, but start no thread and leave the closed ones and the class of the
    threads alone. *)
Class ThreadCleanup (cleanup : nat -> M unit) : Prop :=
  cleanup_ok t k : kernel_ok k -> awake k ->
    exists k', cleanup t k = Some (tt, k') /\ kernel_ok k' /\ awake k' /\
      qget (k_tq k') QDefunct = qget (k_tq k) QDefunct /\
      qget (k_objlist k') RT_Object_Class_Thread = qget (k_objlist k) RT_Object_Class_Thread /\
      forall x, dead k x -> k_threads k' !! x = k_threads k !! x.

(** No cleanup function fulfils it. *)
#[export] Instance no_cleanup : ThreadCleanup (fun _ => mret tt).
Proof. intros t k Hok Ha. by exists k. Qed.

(** A closed thread on no list may be changed, or removed. *)
Lemma closed_update t th ts k :
  kernel_ok k -> awake k -> k_threads k !! t = Some th -> stat_of th = RT_THREAD_CLOSE ->
  t ∉ qget (k_tq k) QDefunct -> (forall x, x <> t -> ts !! x = k_threads k !! x) ->
  (forall th', ts !! t = Some th' ->
     th_stat th' = th_stat th /\ th_current_priority th' = th_current_priority th) ->
  kernel_ok (set_k_threads ts k) /\ awake (set_k_threads ts k).
Proof.
  intros [[H Hcur] T] (c & thc & Hc & Hthc & Hsc) Hth Hs Hnd Hts Ht.
  assert (forall x thx, k_threads k !! x = Some thx -> stat_of thx <> RT_THREAD_CLOSE -> ts !! x = Some thx) as Hkeep.
  { intros x thx Hx Hsx. rewrite Hts; [done|]. intros ->. congruence. }
  assert (forall x thx, ts !! x = Some thx -> stat_of thx <> RT_THREAD_CLOSE -> k_threads k !! x = Some thx) as Hback.
  { intros x thx Hx Hsx. destruct (decide (x = t)) as [->|Hne]; [|by rewrite <- Hts].
    destruct (Ht thx Hx) as [Es _]. unfold stat_of in *. rewrite Es in Hsx. congruence. }
  split; [|by exists c, thc; auto]. destruct H as [Hex Hnd' Hfl Hrd Hwt Hdf Hqd Hrun Hpr Hg Hb].
  constructor; [constructor; [constructor|]|]; kfields; try done.
  - intros p x Hx. destruct (Hrd p x Hx) as (thx & Hx1 & Hx2 & Hx3). exists thx.
    split; [apply Hkeep; [done|by rewrite Hx2]|done].
  - intros q x Hq Hx. destruct (Hwt q x Hq Hx) as (thx & Hx1 & Hx2). exists thx.
    split; [apply Hkeep; [done|by rewrite Hx2]|done].
  - intros x Hx. rewrite Hts by (by intros ->). by apply Hdf.
  - intros x thx Hx Hn Hsx. apply Hqd; [apply Hback; [done|by rewrite Hsx]|done|done].
  - intros x thx Hx Hn Hsx. apply (Hrun x thx); [apply Hback; [done|by rewrite Hsx]|done|done].
  - intros x thx Hx. destruct (decide (x = t)) as [->|Hne]; [|rewrite Hts in Hx by done; by apply (Hpr x)].
    destruct (Ht thx Hx) as [Es Ep]. rewrite Ep. split; [by apply (Hpr t)|]. unfold stat_of in *. by rewrite Es.
  - rewrite Hc. intros x [= <-]. destruct (Hcur c Hc) as (th' & ? & ?). exists th'. split; [|done].
    apply Hkeep; congruence.
  - destruct T as [T1 T2 T3 T4]. constructor; kfields; try done.
    + intros x thx Hx Hsx. apply T1; [by apply Hback|done].
    + intros x l Hl Hx. destruct (T3 x l Hl Hx) as (thx & Hx1 & Hx2). exists thx.
      split; [apply Hkeep; [done|by rewrite Hx2]|done].
Qed.

(** The object of the thread [t] has been given up: a static thread is left
    without a class, the block of another one is freed. *)
Definition gone (t : nat) (th : rt_thread) (k : kstate) : Prop :=
  k_threads k !! t = if is_static (th_object th) then Some (set_th_object (set_o_type 0 (th_object th)) th) else None.

Section cleanup.
Context (cleanup : nat -> M unit) `{!ThreadCleanup cleanup}.

(** From [k] to [k'] the ended threads [ts] have been given up. *)
Record cleaned (ts : list nat) (k k' : kstate) : Prop := Cleaned {
  cn_ok : kernel_ok k';
  cn_awake : awake k';
  cn_gone t th : t ∈ ts -> k_threads k !! t = Some th -> gone t th k';
  cn_kept t : t ∉ ts -> dead k t -> k_threads k' !! t = k_threads k !! t;
  cn_objects : qget (k_objlist k') RT_Object_Class_Thread =
    filter (fun o => o ∉ OThread <$> ts) (qget (k_objlist k) RT_Object_Class_Thread)
}.

Lemma is_systemobject_eq t th k :
  k_threads k !! t = Some th -> rt_object_is_systemobject (OThread t) k = Some (is_static (th_object th), k).
Proof using. intros Hth. unfold rt_object_is_systemobject, get_hdr, obj_hdr. mrun. by rewrite Hth. Qed.

Lemma kernel_ok_objlist ol k : kernel_ok k -> kernel_ok (set_k_objlist ol k).
Proof using. intros [Hs Ht]. constructor; [by apply (sched_ok_ext k)|by destruct Ht]. Qed.

Lemma without_thread t (ol : gmap Z (list oid)) :
  qget (rt_list_remove (OThread t) ol) RT_Object_Class_Thread =
  filter (fun o => o ∉ OThread <$> [t]) (qget ol RT_Object_Class_Thread).
Proof using.
  rewrite qget_remove. apply list_filter_iff. intros o. change (OThread <$> [t]) with [OThread t].
  by rewrite list_elem_of_singleton.
Qed.

(** [k1] is the state without the object of [t]. *)
Lemma detach_step t th k :
  kernel_ok k -> awake k -> k_threads k !! t = Some th -> stat_of th = RT_THREAD_CLOSE ->
  t ∉ qget (k_tq k) QDefunct -> is_static (th_object th) = true ->
  exists k1, rt_object_detach (OThread t) k = Some (tt, k1) /\ cleaned [t] k k1 /\ k_tq k1 = k_tq k.
Proof using.
  intros Hok Ha Hth Hs Hnot Hst. set (th' := set_th_object (set_o_type 0 (th_object th)) th).
  destruct (closed_update t th (<[t := th']> (k_threads k)) k Hok Ha Hth Hs Hnot) as [Hok1 Ha1].
  { intros x Hx. by rewrite lookup_insert_ne. } { intros thx. rewrite lookup_insert_eq. by intros [= <-]. }
  exists (set_k_objlist (rt_list_remove (OThread t) (k_objlist k)) (thread_st t th' k)). split; [|split; [|done]].
  { unfold rt_object_detach, get_hdr, put_hdr, modify_objlist, obj_hdr. mrun. rewrite Hth. simpl. by rewrite Hth. }
  constructor; [by apply kernel_ok_objlist|done| | |apply without_thread]; unfold thread_st; kfields.
  - intros x thx ->%list_elem_of_singleton Hx. assert (thx = th) as -> by congruence. unfold gone; kfields.
    by rewrite Hst, lookup_insert_eq.
  - intros x Hx _. rewrite lookup_insert_ne; [done|]. intros ->. apply Hx. by left.
Qed.

Lemma delete_step t th k :
  kernel_ok k -> awake k -> k_threads k !! t = Some th -> stat_of th = RT_THREAD_CLOSE ->
  t ∉ qget (k_tq k) QDefunct -> is_static (th_object th) = false ->
  exists k1, rt_object_delete (OThread t) k = Some (tt, k1) /\ cleaned [t] k k1 /\ k_tq k1 = k_tq k.
Proof using.
  intros Hok Ha Hth Hs Hnot Hst.
  destruct (closed_update t th (delete t (k_threads k)) k Hok Ha Hth Hs Hnot) as [Hok1 Ha1].
  { intros x Hx. by rewrite lookup_delete_ne. } { intros thx. by rewrite lookup_delete_eq. }
  exists (set_k_objlist (rt_list_remove (OThread t) (k_objlist k)) (set_k_threads (delete t (k_threads k)) k)).
  split; [|split; [|done]].
  { unfold rt_object_delete, get_hdr, put_hdr, modify_objlist, obj_hdr, rt_assert. mrun. rewrite Hth. simpl.
    unfold is_static in Hst. apply negb_false_iff in Hst. rewrite Hst, Hth. simpl. kfields. by rewrite delete_insert_eq. }
  constructor; [by apply kernel_ok_objlist|done| | |apply without_thread]; kfields.
  - intros x thx ->%list_elem_of_singleton Hx. assert (thx = th) as -> by congruence. unfold gone; kfields.
    by rewrite Hst, lookup_delete_eq.
  - intros x Hx _. rewrite lookup_delete_ne; [done|]. intros ->. apply Hx. by left.
Qed.

(** What the closed threads and the class of the threads are like is the same in [k] and [k']. *)
Definition same_closed (k k' : kstate) : Prop :=
  qget (k_objlist k') RT_Object_Class_Thread = qget (k_objlist k) RT_Object_Class_Thread /\
  forall x, dead k x -> k_threads k' !! x = k_threads k !! x.

Lemma dead_same k k' x : dead k x -> k_threads k' !! x = k_threads k !! x -> dead k' x.
Proof using. unfold dead. by intros Hd ->. Qed.

Lemma dead_closed k t th : k_threads k !! t = Some th -> stat_of th = RT_THREAD_CLOSE -> dead k t.
Proof using. intros Hth Hs th'. rewrite Hth. by intros [= <-]. Qed.

Lemma gone_dead t th k : stat_of th = RT_THREAD_CLOSE -> gone t th k -> dead k t.
Proof using. unfold gone, dead. intros Hs -> th'. destruct (is_static (th_object th)); [by intros [= <-]|done]. Qed.

Lemma cleaned_before t th k k1 k2 :
  k_threads k !! t = Some th -> stat_of th = RT_THREAD_CLOSE -> same_closed k k1 -> cleaned [t] k1 k2 -> cleaned [t] k k2.
Proof using.
  intros Hth Hs [Eo Hk] [C1 C2 C3 C4 C5]. constructor; [done|done| | |by rewrite C5, Eo].
  - intros x thx ->%list_elem_of_singleton Hx. assert (thx = th) as -> by congruence.
    apply C3; [by apply list_elem_of_singleton|]. rewrite Hk; [done|by eapply dead_closed].
  - intros x Hx Hd. pose proof (Hk x Hd) as E. rewrite <- E. apply C4; [done|by apply (dead_same k)].
Qed.

Lemma defunct_one_spec t th k :
  kernel_ok k -> awake k -> k_threads k !! t = Some th -> stat_of th = RT_THREAD_CLOSE ->
  t ∉ qget (k_tq k) QDefunct ->
  exists k', defunct_one cleanup t k = Some (tt, k') /\ cleaned [t] k k' /\
    qget (k_tq k') QDefunct = qget (k_tq k) QDefunct.
Proof using ThreadCleanup0.
  intros Hok Ha Hth Hs Hnot. unfold defunct_one. rewrite (bind_ok _ _ k _ k) by (by apply is_systemobject_eq).
  destruct (is_static (th_object th)) eqn:Hst; simpl.
  - destruct (detach_step t th k Hok Ha Hth Hs Hnot Hst) as (k1 & E1 & [C1 C2 C3 C4 C5] & Eq1).
    destruct (cleanup_ok t k1 C1 C2) as (k2 & E2 & Hok2 & Ha2 & Hq2 & Ho2 & Hk2). exists k2.
    rewrite (bind_ok _ _ k tt k1), (bind_ok _ _ k1 tt k2) by done. split; [done|].
    split; [|by rewrite Hq2, Eq1]. constructor; [done|done| | |by rewrite Ho2].
    + intros x thx Hx Hthx. pose proof (C3 x thx Hx Hthx) as G. apply list_elem_of_singleton in Hx as ->.
      assert (thx = th) as -> by congruence. unfold gone in *. rewrite Hk2; [done|by apply (gone_dead _ th)].
    + intros x Hx Hd. rewrite <- (C4 x Hx Hd). apply Hk2. by apply (dead_same k), C4.
  - destruct (cleanup_ok t k Hok Ha) as (k1 & E1 & Hok1 & Ha1 & Hq1 & Ho1 & Hk1). assert (k_threads k1 !! t = Some th) as Hth1 by (rewrite Hk1; [done|by eapply dead_closed]).
    destruct (delete_step t th k1 Hok1 Ha1 Hth1 Hs) as (k2 & E2 & C & Eq2); [by rewrite Hq1|done|]. exists k2.
    rewrite (bind_ok _ _ k tt k), (bind_ok _ _ k tt k1) by done. split; [done|].
    split; [by apply (cleaned_before t th k k1)|by rewrite Eq2].
Qed.

(** A thread on the list of the ended ones is taken off it. *)
Lemma dequeue_spec t ts k :
  kernel_ok k -> awake k -> qget (k_tq k) QDefunct = t :: ts ->
  exists k1 th, rt_thread_defunct_dequeue k = Some (Some t, k1) /\ kernel_ok k1 /\ awake k1 /\
    k_threads k !! t = Some th /\ stat_of th = RT_THREAD_CLOSE /\ qget (k_tq k1) QDefunct = ts /\ (t ∉ ts) /\
    k_threads k1 = k_threads k /\ k_objlist k1 = k_objlist k.
Proof using.
  intros Hok Ha Hq. pose proof (ok_inv _ (ko_sched _ Hok)) as H.
  destruct (so_defunct _ _ H t) as (th & Hth & Hs); [rewrite Hq; by left|].
  pose proof (so_nodup _ _ H QDefunct) as Hnd. rewrite Hq in Hnd. apply NoDup_cons in Hnd as [Hnot Hnd].
  exists (set_k_tq (rt_list_remove t (k_tq k)) k), th. split.
  { unfold rt_thread_defunct_dequeue. mrun. by rewrite Hq. }
  split; [apply (unlink_ok t th); [done|done|by rewrite Hs]|]. split_and!; try done. kfields.
  rewrite qget_remove, Hq, filter_cons_False by auto. by apply filter_ne_notin.
Qed.

Lemma cleaned_cons t ts k k1 k2 :
  (forall x, x ∈ t :: ts -> exists th, k_threads k !! x = Some th /\ stat_of th = RT_THREAD_CLOSE) ->
  t ∉ ts -> cleaned [t] k k1 -> cleaned ts k1 k2 -> cleaned (t :: ts) k k2.
Proof using.
  intros Hcl Hnot [C1 C2 C3 C4 C5] [D1 D2 D3 D4 D5]. constructor; [done|done| | |].
  - intros x th Hx Hth. destruct (Hcl x Hx) as (th' & Hth' & Hs). assert (th' = th) as -> by congruence.
    apply elem_of_cons in Hx as [->|Hx].
    + assert (gone t th k1) as G by (apply C3; [by left|done]). unfold gone in *.
      rewrite D4; [done|done|by apply (gone_dead _ th)].
    + apply D3; [done|]. rewrite C4; [done| |by eapply dead_closed]. by intros ->%list_elem_of_singleton.
  - intros x Hx Hd. apply not_elem_of_cons in Hx as [Hxt Hx].
    assert (k_threads k1 !! x = k_threads k !! x) as E by (apply C4; [by rewrite list_elem_of_singleton|done]).
    rewrite <- E. apply D4; [done|]. by apply (dead_same k).
  - rewrite D5, C5, list_filter_filter. apply list_filter_iff. intros o.
    change (OThread <$> [t]) with [OThread t]. change (OThread <$> t :: ts) with (OThread t :: (OThread <$> ts)).
    rewrite list_elem_of_singleton, elem_of_cons. tauto.
Qed.

Lemma defunct_execute_spec fuel k :
  kernel_ok k -> awake k -> (length (qget (k_tq k) QDefunct) < fuel)%nat ->
  exists k', rt_defunct_execute cleanup fuel k = Some (tt, k') /\
    cleaned (qget (k_tq k) QDefunct) k k' /\ qget (k_tq k') QDefunct = [].
Proof using ThreadCleanup0.
  revert k. induction fuel as [|fuel IH]; intros k Hok Ha Hf; [lia|]. cbn [rt_defunct_execute].
  destruct (qget (k_tq k) QDefunct) as [|t ts] eqn:Hq.
  - exists k. unfold rt_thread_defunct_dequeue. mrun. rewrite Hq. split; [done|]. split; [|done].
    constructor; [done|done| |done|].
    + intros t th Ht. by apply elem_of_nil in Ht.
    + induction (qget (k_objlist k) RT_Object_Class_Thread) as [|o l IHl]; [done|].
      rewrite filter_cons_True by apply not_elem_of_nil. by f_equal.
  - destruct (dequeue_spec t ts k Hok Ha Hq) as (k1 & th & E1 & Hok1 & Ha1 & Hth & Hs & Hq1 & Hnot & Et1 & Eo1).
    destruct (defunct_one_spec t th k1) as (k2 & E2 & C & Hq2); try done; [by rewrite Et1|by rewrite Hq1|].
    rewrite Hq1 in Hq2. destruct (IH k2) as (k' & E & C' & Hq'); [apply C|apply C|rewrite Hq2; simpl in Hf; lia|].
    rewrite Hq2 in C'. exists k'. rewrite (bind_ok _ _ k (Some t) k1), (bind_ok _ _ k1 tt k2) by done.
    split; [done|]. split; [|done]. apply (cleaned_cons t ts k k2); [|done| |done].
    + intros x Hx. apply (so_defunct _ _ (ok_inv _ (ko_sched _ Hok))). by rewrite Hq.
    + destruct C as [C1 C2 C3 C4 C5]. unfold dead in *. rewrite Et1, Eo1 in *. by constructor.
Qed.
End cleanup.

(** C8: the idle thread's cleaning terminates: it gives up the object of every ended
    thread (a static thread is detached and is left without a class, the block of
    an allocated one is freed), so that the list of the ended threads is empty, and
    no other; of the class of the threads exactly they are gone, the rest keeps
    its order, and the closed threads that were not on the list are as they were.
    The kernel invariant holds again and the idle thread still runs. *)
Theorem defunct_execute_correct cleanup `{!ThreadCleanup cleanup} fuel k :
  kernel_ok k -> awake k -> (length (qget (k_tq k) QDefunct) < fuel)%nat ->
  exists k', rt_defunct_execute cleanup fuel k = Some (tt, k') /\ kernel_ok k' /\ awake k' /\
    qget (k_tq k') QDefunct = [] /\
    (forall t th, t ∈ qget (k_tq k) QDefunct -> k_threads k !! t = Some th -> gone t th k') /\
    (forall t, t ∉ qget (k_tq k) QDefunct -> dead k t -> k_threads k' !! t = k_threads k !! t) /\
    qget (k_objlist k') RT_Object_Class_Thread =
      filter (fun o => o ∉ OThread <$> qget (k_tq k) QDefunct) (qget (k_objlist k) RT_Object_Class_Thread).
Proof.
  intros Hok Ha Hf. destruct (defunct_execute_spec cleanup fuel k Hok Ha Hf) as (k' & E & [C1 C2 C3 C4 C5] & Hq).
  by exists k'.
Qed.

(** ** Two threads that end *)

(** Thread 3, static and ready, and the main thread 0, allocated and running, are closed. *)
Definition end_demo : kstate :=
  after (rt_thread_control 3 RT_THREAD_CTRL_CLOSE 0;; rt_thread_control 0 RT_THREAD_CTRL_CLOSE 0) demo_state.

Lemma end_demo_ok : kernel_ok end_demo.
Proof. apply kernel_check_sound. vm_compute. reflexivity. Qed.

(** The running main thread closes itself; thread 3 is ready. *)
Lemma thread_close_correct_witness :
  exists k', rt_thread_control 0 RT_THREAD_CTRL_CLOSE 0 demo_state = Some (RT_EOK, k') /\ kernel_ok k' /\
    qget (k_tq k') QDefunct = [0%nat] /\ exists c, k_current k' = Some c /\ c <> 0%nat.
Proof.
  destruct (thread_close_correct 0 (thread_at 0 demo_state) 0 demo_state)
    as (k' & E & Hok & _ & Hq & _ & _ & _ & _ & _ & _ & Hl).
  - exact demo_ok.
  - vm_compute. eauto.
  - vm_compute. reflexivity.
  - vm_compute. discriminate.
  - exists k'. split; [exact E|]. split; [exact Hok|]. split.
    + rewrite Hq. vm_compute. reflexivity.
    + apply (Hl 10 3%nat); [vm_compute; reflexivity|vm_compute; reflexivity|discriminate|].
      replace (qget (k_tq demo_state) (QReady 10)) with [3%nat] by (vm_compute; reflexivity). left.
Defined.

(** Both threads are cleaned up: thread 3 stays without a class, the block of thread 0 is freed. *)
Lemma defunct_execute_correct_witness :
  exists k', rt_defunct_execute (fun _ => mret tt) 3 end_demo = Some (tt, k') /\ kernel_ok k' /\
    qget (k_tq k') QDefunct = [] /\ k_threads k' !! 0%nat = None /\ is_Some (k_threads k' !! 3%nat) /\
    qget (k_objlist k') RT_Object_Class_Thread = [OThread 4; OThread 2; OThread 1].
Proof.
  assert (qget (k_tq end_demo) QDefunct = [0; 3]%nat) as Hd by (vm_compute; reflexivity).
  destruct (defunct_execute_correct (fun _ => mret tt) 3 end_demo) as (k' & E & Hok & _ & Hq & Hg & _ & Ho).
  - exact end_demo_ok.
  - exists 4%nat, (thread_at 4 end_demo). vm_compute. split; [reflexivity|]. split; [reflexivity|discriminate].
  - rewrite Hd. simpl. lia.
  - exists k'. split; [exact E|]. split; [exact Hok|]. split; [exact Hq|]. rewrite Hd in Hg, Ho. split; [|split].
    + rewrite (Hg 0%nat (thread_at 0 end_demo)); [|left|]; vm_compute; reflexivity.
    + rewrite (Hg 3%nat (thread_at 3 end_demo)); [|right; left|]; vm_compute; eauto.
    + rewrite Ho. vm_compute. reflexivity.
Defined.
