(* ===== verification/Device.v ===== *)
(** * Devices

    [src/device.c]: registration, the reference count and the dispatch to the
    driver. The driver's operations are arguments ([RT_USING_DEVICE_OPS]: the
    table [ops] is never null, its entries may be), and so are the call-backs,
    which are only stored. *)
From S2P Require Import Prelude Kservice Kernel Sched Object Timer Thread KernelInv Boot Ipc ObjectSpec.

Definition RT_DEVICE_FLAG_STANDALONE : Z := 0x008.
Definition RT_DEVICE_FLAG_ACTIVATED : Z := 0x010.
Definition RT_DEVICE_OFLAG_CLOSE : Z := 0x000.
Definition RT_DEVICE_OFLAG_OPEN : Z := 0x008.
Definition RT_DEVICE_OFLAG_MASK : Z := 0xf0f.

(** ** The fields of the control block *)

Definition get_dev (dev : nat) : M rt_device := d ← gets (fun k => k_devices k !! dev); deref d.
Definition put_dev (dev : nat) (d : rt_device) : M unit :=
  modify (fun k => set_k_devices (<[dev := d]> (k_devices k)) k).
Definition upd_dev (dev : nat) (f : rt_device -> rt_device) : M unit := d ← get_dev dev; put_dev dev (f d).

Definition set_dev_flag (x : Z) (d : rt_device) : rt_device :=
  RtDevice (dev_parent d) (dev_type d) x (dev_open_flag d) (dev_ref_count d) (dev_rx_indicate d) (dev_tx_complete d).
Definition set_dev_open_flag (x : Z) (d : rt_device) : rt_device :=
  RtDevice (dev_parent d) (dev_type d) (dev_flag d) x (dev_ref_count d) (dev_rx_indicate d) (dev_tx_complete d).
Definition set_dev_ref_count (x : Z) (d : rt_device) : rt_device :=
  RtDevice (dev_parent d) (dev_type d) (dev_flag d) (dev_open_flag d) x (dev_rx_indicate d) (dev_tx_complete d).
Definition set_dev_rx_indicate (x : option nat) (d : rt_device) : rt_device :=
  RtDevice (dev_parent d) (dev_type d) (dev_flag d) (dev_open_flag d) (dev_ref_count d) x (dev_tx_complete d).
Definition set_dev_tx_complete (x : option nat) (d : rt_device) : rt_device :=
  RtDevice (dev_parent d) (dev_type d) (dev_flag d) (dev_open_flag d) (dev_ref_count d) (dev_rx_indicate d) x.

(** ** device.c *)

Definition rt_device_find (name : list Z) : M (option oid) := rt_object_find (Some name) RT_Object_Class_Device.

Definition rt_device_register (dev : option nat) (name : list Z) (flags : Z) : M Z :=
  match dev with
  | None => mret (- RT_ERROR)
  | Some dev =>
      o ← rt_device_find name;
      match o with
      | Some _ => mret (- RT_ERROR)
      | None =>
          rt_object_init (ODevice dev) RT_Object_Class_Device name;;
          upd_dev dev (set_dev_flag flags);;
          upd_dev dev (set_dev_ref_count 0);;
          upd_dev dev (set_dev_open_flag 0);;
          mret RT_EOK
      end
  end.

Definition rt_device_unregister (dev : nat) : M Z :=
  assert_type (ODevice dev) RT_Object_Class_Device;;
  system ← rt_object_is_systemobject (ODevice dev);
  rt_assert system;;
  rt_object_detach (ODevice dev);;
  mret RT_EOK.

(** [mem] is what [rt_malloc] returns; the block is cleared. *)
Definition rt_device_create (mem : option nat) (type : Z) : M (option nat) :=
  match mem with
  | Some device =>
      modify (raw_block (ODevice device));;
      upd_dev device (fun d => RtDevice (dev_parent d) type (dev_flag d) (dev_open_flag d) (dev_ref_count d)
                                 (dev_rx_indicate d) (dev_tx_complete d));;
      mret (Some device)
  | None => mret None
  end.

Definition rt_device_destroy (dev : nat) : M unit :=
  assert_type (ODevice dev) RT_Object_Class_Device;;
  system ← rt_object_is_systemobject (ODevice dev);
  rt_assert (negb system);;
  rt_object_detach (ODevice dev);;
  modify (free_block (ODevice dev)).

(** Whether the result of a driver's operation counts as success. *)
Definition accepted (result : Z) : bool := (result =? RT_EOK) || (result =? - RT_ENOSYS).

Section driver.
(** The driver's operations; [None] is a null pointer. *)
Context (device_init : nat -> option (M Z)).
Context (device_open : nat -> option (Z -> M Z)).
Context (device_close : nat -> option (M Z)).
Context (device_read : nat -> option (Z -> Z -> M (list Z * Z))).
Context (device_write : nat -> option (Z -> list Z -> Z -> M Z)).
Context (device_control : nat -> option (Z -> Z -> M Z)).

Definition activate (dev : nat) : M unit :=
  upd_dev dev (fun d => set_dev_flag (Z.lor (dev_flag d) RT_DEVICE_FLAG_ACTIVATED) d).

Definition rt_device_init (dev : nat) : M Z :=
  match device_init dev with
  | Some init =>
      d ← get_dev dev;
      if Z.land (dev_flag d) RT_DEVICE_FLAG_ACTIVATED =? 0 then
        result ← init;
        if negb (result =? RT_EOK) then mret result
        else activate dev;; mret result
      else mret RT_EOK
  | None => mret RT_EOK
  end.

Definition rt_device_open (dev : nat) (oflag : Z) : M Z :=
  assert_type (ODevice dev) RT_Object_Class_Device;;
  d ← get_dev dev;
  result ←
    (if Z.land (dev_flag d) RT_DEVICE_FLAG_ACTIVATED =? 0 then
       result ← (match device_init dev with Some init => init | None => mret RT_EOK end);
       if negb (result =? RT_EOK) then mret result
       else activate dev;; mret RT_EOK
     else mret RT_EOK);
  if negb (result =? RT_EOK) then mret result
  else
    d ← get_dev dev;
    if negb (Z.land (dev_flag d) RT_DEVICE_FLAG_STANDALONE =? 0) &&
       negb (Z.land (dev_open_flag d) RT_DEVICE_OFLAG_OPEN =? 0)
    then mret (- RT_EBUSY)
    else
      result ←
        (match device_open dev with
         | Some open => open oflag
         | None => upd_dev dev (set_dev_open_flag (Z.land oflag RT_DEVICE_OFLAG_MASK));; mret RT_EOK
         end);
      when (accepted result)
        (upd_dev dev (fun d => set_dev_open_flag (Z.lor (dev_open_flag d) RT_DEVICE_OFLAG_OPEN) d);;
         upd_dev dev (fun d => set_dev_ref_count (u8 (dev_ref_count d + 1)) d);;
         d ← get_dev dev;
         rt_assert (negb (dev_ref_count d =? 0)));;
      mret result.

Definition rt_device_close (dev : nat) : M Z :=
  assert_type (ODevice dev) RT_Object_Class_Device;;
  d ← get_dev dev;
  if dev_ref_count d =? 0 then mret (- RT_ERROR)
  else
    upd_dev dev (fun d => set_dev_ref_count (u8 (dev_ref_count d - 1)) d);;
    d ← get_dev dev;
    if negb (dev_ref_count d =? 0) then mret RT_EOK
    else
      result ← (match device_close dev with Some close => close | None => mret RT_EOK end);
      when (accepted result) (upd_dev dev (set_dev_open_flag RT_DEVICE_OFLAG_CLOSE));;
      mret result.

(** The bytes read, and how many. *)
Definition rt_device_read (dev : nat) (pos size : Z) : M (list Z * Z) :=
  assert_type (ODevice dev) RT_Object_Class_Device;;
  d ← get_dev dev;
  if dev_ref_count d =? 0 then rt_set_errno (- RT_ERROR);; mret ([], 0)
  else
    match device_read dev with
    | Some read => read pos size
    | None => rt_set_errno (- RT_ENOSYS);; mret ([], 0)
    end.

Definition rt_device_write (dev : nat) (pos : Z) (buffer : list Z) (size : Z) : M Z :=
  assert_type (ODevice dev) RT_Object_Class_Device;;
  d ← get_dev dev;
  if dev_ref_count d =? 0 then rt_set_errno (- RT_ERROR);; mret 0
  else
    match device_write dev with
    | Some write => write pos buffer size
    | None => rt_set_errno (- RT_ENOSYS);; mret 0
    end.

Definition rt_device_control (dev : nat) (cmd arg : Z) : M Z :=
  assert_type (ODevice dev) RT_Object_Class_Device;;
  match device_control dev with
  | Some control => control cmd arg
  | None => mret (- RT_ENOSYS)
  end.

Definition rt_device_set_rx_indicate (dev : nat) (rx_ind : option nat) : M Z :=
  assert_type (ODevice dev) RT_Object_Class_Device;;
  upd_dev dev (set_dev_rx_indicate rx_ind);; mret RT_EOK.
Definition rt_device_set_tx_complete (dev : nat) (tx_done : option nat) : M Z :=
  assert_type (ODevice dev) RT_Object_Class_Device;;
  upd_dev dev (set_dev_tx_complete tx_done);; mret RT_EOK.
End driver.
