(* ===== verification/DeviceSpec.v ===== *)
(** * Devices: opening and closing

    Whatever users open and close, a device behaves as the abstract machine
    [dev_step], which has three variables: whether the device is activated,
    whether it is open, and the number of its users. *)
From S2P Require Import Prelude Kservice Kernel Sched Object Timer Thread KernelInv Boot Ipc ObjectSpec Device.

(** ** The abstract device *)

Record dev_abs := DevAbs { da_active : bool; da_open : bool; da_users : Z }.

Inductive dev_call := DevOpen (oflag : Z) | DevClose.

(** [dev_step standalone v call result v']: what a call may return, and how it
    leaves the device. An opening fails if the driver's [init] or [open] does, or
    if the device is for one user and open; the driver's [close] is called for the
    last user only, and if it fails the device stays open without users. *)
Inductive dev_step (standalone : bool) : dev_abs -> dev_call -> Z -> dev_abs -> Prop :=
  | step_init_fails o n f r : r <> RT_EOK ->
      dev_step standalone (DevAbs false o n) (DevOpen f) r (DevAbs false o n)
  | step_busy a n f : standalone = true ->
      dev_step standalone (DevAbs a true n) (DevOpen f) (- RT_EBUSY) (DevAbs true true n)
  | step_open_fails a o n f r : o && standalone = false -> accepted r = false ->
      dev_step standalone (DevAbs a o n) (DevOpen f) r (DevAbs true o n)
  | step_open a o n f r : o && standalone = false -> accepted r = true -> n < 255 ->
      dev_step standalone (DevAbs a o n) (DevOpen f) r (DevAbs true true (n + 1))
  | step_no_user a o :
      dev_step standalone (DevAbs a o 0) DevClose (- RT_ERROR) (DevAbs a o 0)
  | step_not_last a o n : 1 < n ->
      dev_step standalone (DevAbs a o n) DevClose RT_EOK (DevAbs a o (n - 1))
  | step_close a o r : accepted r = true ->
      dev_step standalone (DevAbs a o 1) DevClose r (DevAbs a false 0)
  | step_close_fails a o r : accepted r = false ->
      dev_step standalone (DevAbs a o 1) DevClose r (DevAbs a o 0).

Inductive dev_steps (standalone : bool) : dev_abs -> list dev_call -> list Z -> dev_abs -> Prop :=
  | steps_nil v : dev_steps standalone v [] [] v
  | steps_cons v call r v1 calls rs v2 :
      dev_step standalone v call r v1 -> dev_steps standalone v1 calls rs v2 ->
      dev_steps standalone v (call :: calls) (r :: rs) v2.

(** A device with users is open and activated; one for a single user has one at most. *)
Definition dev_inv (standalone : bool) (v : dev_abs) : Prop :=
  0 <= da_users v <= 255 /\ (0 < da_users v -> da_open v = true /\ da_active v = true) /\
  (standalone = true -> da_users v <= 1).

Lemma dev_step_inv standalone v call r v' : dev_step standalone v call r v' -> dev_inv standalone v -> dev_inv standalone v'.
Proof.
  unfold dev_inv. intros H (Hn & Ho & Hs). destruct H; simpl in *; split_and!; try done; try lia; try (intros; tauto).
  - intros ->. destruct o; [done|]. assert (n <= 0); [|lia]. destruct (decide (0 < n)); [|lia]. by destruct Ho.
  - intros Hn1. apply Ho. lia.
  - intros E. specialize (Hs E). lia.
Qed.

Lemma close_last_fails standalone a o r v :
  dev_step standalone (DevAbs a o 1) DevClose r v -> accepted r = false -> v = DevAbs a o 0.
Proof. intros H Hr. inversion H; subst; first [done|lia|congruence]. Qed.

(** ** The control block *)

Definition activated (d : rt_device) : bool := negb (Z.land (dev_flag d) RT_DEVICE_FLAG_ACTIVATED =? 0).
Definition standalone (d : rt_device) : bool := negb (Z.land (dev_flag d) RT_DEVICE_FLAG_STANDALONE =? 0).
Definition opened (d : rt_device) : bool := negb (Z.land (dev_open_flag d) RT_DEVICE_OFLAG_OPEN =? 0).
Definition dev_view (d : rt_device) : dev_abs := DevAbs (activated d) (opened d) (dev_ref_count d).

Record device_ok (k : kstate) (dev : nat) (d : rt_device) : Prop := DeviceOk {
  de_kernel : kernel_ok k;
  de_lookup : k_devices k !! dev = Some d;
  de_type : has_type RT_Object_Class_Device (dev_parent d)
}.

(** What is expected of a driver's [init], [open] and [close]: of the device's
    control block they may change [open_flag] only, and when they fail the
    device is as open as before. *)
Definition operation_ok (dev : nat) (x : M Z) : Prop :=
  forall k d, device_ok k dev d ->
    exists r k' f, x k = Some (r, k') /\ device_ok k' dev (set_dev_open_flag f d) /\
      (accepted r = false -> opened (set_dev_open_flag f d) = opened d).

Class Driver (dev : nat) (device_init : nat -> option (M Z)) (device_open : nat -> option (Z -> M Z))
    (device_close : nat -> option (M Z)) : Prop := {
  driver_init init : device_init dev = Some init ->
    forall k d, device_ok k dev d ->
      exists r k' f, init k = Some (r, k') /\ device_ok k' dev (set_dev_open_flag f d) /\
        opened (set_dev_open_flag f d) = opened d;
  driver_open open oflag : device_open dev = Some open -> operation_ok dev (open oflag);
  driver_close close : device_close dev = Some close -> operation_ok dev close
}.

Lemma get_dev_eq k dev d : k_devices k !! dev = Some d -> get_dev dev k = Some (d, k).
Proof. intros H. unfold get_dev. by rewrite bind_gets, H. Qed.

Lemma bind_dev {B} k dev d (f : rt_device -> M B) : device_ok k dev d -> (get_dev dev ≫= f) k = f d k.
Proof. intros H. by rewrite (bind_ok _ _ _ _ _ (get_dev_eq k dev d (de_lookup _ _ _ H))). Qed.

Lemma upd_dev_ok k dev d f :
  device_ok k dev d -> dev_parent (f d) = dev_parent d ->
  exists k', upd_dev dev f k = Some (tt, k') /\ device_ok k' dev (f d).
Proof.
  intros [Hok Hd Ht] Hp. eexists. split; [unfold upd_dev; by rewrite (bind_ok _ _ _ _ _ (get_dev_eq k dev d Hd))|].
  constructor; [by apply (kernel_ok_objects k)|apply lookup_insert_eq|by rewrite Hp].
Qed.

Lemma assert_device k dev d : device_ok k dev d -> assert_type (ODevice dev) RT_Object_Class_Device k = Some (tt, k).
Proof. intros [_ Hd Ht]. apply (assert_type_eq _ _ k (dev_parent d)); [simpl; by rewrite Hd|done]. Qed.

(** ** Calls *)

Section driver.
Context (device_init : nat -> option (M Z)) (device_open : nat -> option (Z -> M Z)) (device_close : nat -> option (M Z)).
Context (dev : nat) `{!Driver dev device_init device_open device_close}.

Definition run_call (call : dev_call) : M Z :=
  match call with
  | DevOpen oflag => rt_device_open device_init device_open dev oflag
  | DevClose => rt_device_close device_close dev
  end.
Fixpoint run_calls (calls : list dev_call) : M (list Z) :=
  match calls with
  | [] => mret []
  | call :: calls => r ← run_call call; rs ← run_calls calls; mret (r :: rs)
  end.

(** A call does a step of the abstract device. *)
Definition simulated (call : dev_call) (k : kstate) (d : rt_device) : Prop :=
  exists r k' d', run_call call k = Some (r, k') /\ device_ok k' dev d' /\ standalone d' = standalone d /\
    dev_step (standalone d) (dev_view d) call r (dev_view d').

Lemma activate_spec k d :
  device_ok k dev d ->
  exists k' d', activate dev k = Some (tt, k') /\ device_ok k' dev d' /\ standalone d' = standalone d /\
    dev_view d' = DevAbs true (opened d) (dev_ref_count d).
Proof using Type.
  intros Hd. destruct (upd_dev_ok k dev d (fun d => set_dev_flag (Z.lor (dev_flag d) RT_DEVICE_FLAG_ACTIVATED) d) Hd)
    as (k' & E & Hd'); [done|].
  eexists k', _. split; [exact E|]. split; [exact Hd'|]. unfold standalone, dev_view, activated. simpl.
  rewrite !Z.land_lor_distr_l. change (Z.land RT_DEVICE_FLAG_ACTIVATED RT_DEVICE_FLAG_STANDALONE) with 0.
  rewrite Z.lor_0_r. split; [done|]. f_equal. apply negb_true_iff, Z.eqb_neq. rewrite Z.lor_eq_0_iff. by intros [_ ?].
Qed.

(** The device has been activated if it has to be. *)
Lemma ensure_active k d :
  device_ok k dev d ->
  exists r k' d', (if Z.land (dev_flag d) RT_DEVICE_FLAG_ACTIVATED =? 0 then
       result ← (match device_init dev with Some init => init | None => mret RT_EOK end);
       if negb (result =? RT_EOK) then mret result
       else activate dev;; mret RT_EOK
     else mret RT_EOK) k = Some (r, k') /\ device_ok k' dev d' /\ standalone d' = standalone d /\
    (r <> RT_EOK -> activated d = false /\ dev_view d' = dev_view d) /\
    (r = RT_EOK -> dev_view d' = DevAbs true (opened d) (dev_ref_count d)).
Proof using Driver0.
  intros Hd. destruct (Z.land (dev_flag d) RT_DEVICE_FLAG_ACTIVATED =? 0) eqn:Ea.
  2: { exists RT_EOK, k, d. do 3 (split; [done|]). split; [done|]. intros _. unfold dev_view, activated. by rewrite Ea. }
  assert (exists r k1 f, (match device_init dev with Some init => init | None => mret RT_EOK end) k = Some (r, k1) /\
    device_ok k1 dev (set_dev_open_flag f d) /\ opened (set_dev_open_flag f d) = opened d) as (r & k1 & f & E1 & Hd1 & Ho).
  { destruct (device_init dev) as [init|] eqn:Ei; [by apply (driver_init init Ei)|].
    exists RT_EOK, k, (dev_open_flag d). split; [done|]. split; [|done]. by replace (set_dev_open_flag _ d) with d by (by destruct d). }
  rewrite (bind_ok _ _ _ _ _ E1). destruct (Z.eqb_spec r RT_EOK) as [->|Hr]; cbv beta iota delta [negb].
  - destruct (activate_spec k1 _ Hd1) as (k2 & d2 & E2 & Hd2 & Hs2 & Hv2). rewrite (bind_ok _ _ _ _ _ E2).
    exists RT_EOK, k2, d2. split; [done|]. split; [done|]. split; [done|]. split; [done|]. intros _. by rewrite Hv2, Ho.
  - exists r, k1, (set_dev_open_flag f d). split; [done|]. split; [done|]. split; [done|]. split; [|done].
    intros _. unfold dev_view. rewrite Ho. unfold activated. simpl. by rewrite Ea.
Qed.

(** The driver's [open], or the flags stored in its place. *)
Lemma driver_opens k d oflag :
  device_ok k dev d ->
  exists r k' f, (match device_open dev with
         | Some open => open oflag
         | None => upd_dev dev (set_dev_open_flag (Z.land oflag RT_DEVICE_OFLAG_MASK));; mret RT_EOK
         end) k = Some (r, k') /\ device_ok k' dev (set_dev_open_flag f d) /\
    (accepted r = false -> opened (set_dev_open_flag f d) = opened d).
Proof using Driver0.
  intros Hd. destruct (device_open dev) as [open|] eqn:Eo; [by apply (driver_open open oflag Eo)|].
  destruct (upd_dev_ok k dev d (set_dev_open_flag (Z.land oflag RT_DEVICE_OFLAG_MASK)) Hd) as (k' & E & Hd'); [done|].
  exists RT_EOK, k', (Z.land oflag RT_DEVICE_OFLAG_MASK). split; [|done]. by rewrite (bind_ok _ _ _ _ _ E).
Qed.

Lemma simulate_open oflag k d :
  device_ok k dev d -> 0 <= dev_ref_count d < 255 -> simulated (DevOpen oflag) k d.
Proof using Driver0.
  intros Hd Hn. unfold simulated. simpl. unfold rt_device_open.
  rewrite (bind_ok _ _ _ _ _ (assert_device k dev d Hd)), (bind_dev k dev d _ Hd).
  destruct (ensure_active k d Hd) as (r & k1 & d1 & E1 & Hd1 & Hs1 & Hf & Ha). rewrite (bind_ok _ _ _ _ _ E1).
  destruct (Z.eqb_spec r RT_EOK) as [->|Hr]; cbv beta iota delta [negb].
  2: { destruct (Hf Hr) as [Hact Hv]. exists r, k1, d1. do 3 (split; [done|]). rewrite Hv. unfold dev_view. rewrite Hact.
       by constructor. }
  specialize (Ha eq_refl). rewrite (bind_dev k1 dev d1 _ Hd1).
  cbv beta. assert (opened d1 = opened d) as Ho1 by (by injection Ha).
  change (if Z.land (dev_flag d1) RT_DEVICE_FLAG_STANDALONE =? 0 then false else true) with (standalone d1).
  change (if Z.land (dev_open_flag d1) RT_DEVICE_OFLAG_OPEN =? 0 then false else true) with (opened d1). rewrite Hs1, Ho1.
  destruct (standalone d && opened d) eqn:Eb.
  { apply andb_true_iff in Eb as [Es Eo]. exists (- RT_EBUSY), k1, d1. do 3 (split; [done|]).
    rewrite Ha. unfold dev_view. rewrite Eo. by constructor. }
  rewrite andb_comm in Eb.
  destruct (driver_opens k1 d1 oflag Hd1) as (r & k2 & f & E2 & Hd2 & Hkeep). rewrite (bind_ok _ _ _ _ _ E2).
  destruct (accepted r) eqn:Er; cbv beta iota delta [when].
  2: { exists r, k2, (set_dev_open_flag f d1). do 3 (split; [done|]).
       replace (dev_view (set_dev_open_flag f d1)) with (dev_view d1) by (unfold dev_view; by rewrite Hkeep).
       rewrite Ha. by apply step_open_fails. }
  destruct (upd_dev_ok k2 dev _ (fun d => set_dev_open_flag (Z.lor (dev_open_flag d) RT_DEVICE_OFLAG_OPEN) d) Hd2)
    as (k3 & E3 & Hd3); [done|].
  destruct (upd_dev_ok k3 dev _ (fun d => set_dev_ref_count (u8 (dev_ref_count d + 1)) d) Hd3) as (k4 & E4 & Hd4); [done|].
  assert (dev_ref_count d1 = dev_ref_count d) as Hn1 by (by injection Ha). simpl in Hd4. rewrite Hn1, u8_small in Hd4 by lia.
  rewrite bind_unfold, (bind_ok _ _ _ _ _ E3), (bind_ok _ _ _ _ _ E4), (bind_dev _ _ _ _ Hd4). simpl dev_ref_count.
  unfold rt_assert. rewrite (proj2 (Z.eqb_neq _ 0)) by lia. cbv beta iota delta [negb].
  eexists r, k4, _. split; [done|]. split; [exact Hd4|]. split; [done|].
  match goal with |- dev_step _ _ _ _ ?v => replace v with (DevAbs true true (dev_ref_count d + 1)) end.
  - apply step_open; [done|done|lia].
  - unfold dev_view, opened, activated. simpl. injection Ha as Hact _ _. unfold activated in Hact. rewrite Hact. f_equal.
    symmetry. apply negb_true_iff, Z.eqb_neq. rewrite Z.land_lor_distr_l, Z.lor_eq_0_iff. by intros [_ ?].
Qed.

Lemma simulate_close k d :
  device_ok k dev d -> 0 <= dev_ref_count d <= 255 -> simulated DevClose k d.
Proof using Driver0.
  intros Hd Hn. unfold simulated. simpl. unfold rt_device_close.
  rewrite (bind_ok _ _ _ _ _ (assert_device k dev d Hd)), (bind_dev k dev d _ Hd).
  destruct (Z.eqb_spec (dev_ref_count d) 0) as [E0|Hn0].
  { exists (- RT_ERROR), k, d. do 3 (split; [done|]). unfold dev_view. rewrite E0. constructor. }
  destruct (upd_dev_ok k dev d (fun d => set_dev_ref_count (u8 (dev_ref_count d - 1)) d) Hd) as (k1 & E1 & Hd1); [done|].
  rewrite u8_small in Hd1 by lia. rewrite (bind_ok _ _ _ _ _ E1), (bind_dev _ _ _ _ Hd1). cbv beta. cbn [dev_ref_count set_dev_ref_count].
  destruct (Z.eqb_spec (dev_ref_count d - 1) 0) as [E2|Hn1]; cbv beta iota delta [negb].
  2: { eexists RT_EOK, k1, _. split; [done|]. split; [exact Hd1|]. split; [done|]. apply step_not_last. lia. }
  set (d1 := set_dev_ref_count (dev_ref_count d - 1) d) in *.
  assert (exists r k2 f, (match device_close dev with Some close => close | None => mret RT_EOK end) k1 = Some (r, k2) /\
    device_ok k2 dev (set_dev_open_flag f d1) /\
    (accepted r = false -> opened (set_dev_open_flag f d1) = opened d1)) as (r & k2 & f & E3 & Hd2 & Hkeep).
  { destruct (device_close dev) as [close|] eqn:Ec; [by apply (driver_close close Ec)|].
    exists RT_EOK, k1, (dev_open_flag d1). split; [done|]. split; [|done]. by replace (set_dev_open_flag _ d1) with d1 by (by destruct d1). }
  rewrite (bind_ok _ _ _ _ _ E3). unfold dev_view at 1. replace (dev_ref_count d) with 1 by lia.
  destruct (accepted r) eqn:Er; cbv beta iota delta [when].
  - destruct (upd_dev_ok k2 dev _ (set_dev_open_flag RT_DEVICE_OFLAG_CLOSE) Hd2) as (k3 & E4 & Hd3); [done|].
    rewrite (bind_ok _ _ _ _ _ E4). eexists r, k3, _. split; [done|]. split; [exact Hd3|]. split; [done|].
    unfold dev_view. simpl. rewrite E2. by apply step_close.
  - exists r, k2, (set_dev_open_flag f d1). do 3 (split; [done|]). unfold dev_view. rewrite Hkeep by done. simpl. rewrite E2.
    by apply step_close_fails.
Qed.

(** The calls that open. *)
Definition openings (calls : list dev_call) : Z :=
  foldr (fun c n => match c with DevOpen _ => n + 1 | DevClose => n end) 0 calls.
Lemma openings_nonneg calls : 0 <= openings calls.
Proof using Type. induction calls as [|[] ? IH]; simpl; lia. Qed.

Lemma run_calls_spec calls k d :
  device_ok k dev d -> dev_inv (standalone d) (dev_view d) -> dev_ref_count d + openings calls <= 255 ->
  exists rs k' d', run_calls calls k = Some (rs, k') /\ device_ok k' dev d' /\ standalone d' = standalone d /\
    dev_steps (standalone d) (dev_view d) calls rs (dev_view d') /\ dev_inv (standalone d) (dev_view d').
Proof using Driver0.
  revert k d. induction calls as [|call calls IH]; intros k d Hd Hi Hn.
  { exists [], k, d. do 3 (split; [done|]). split; [constructor|done]. }
  assert (openings (call :: calls) = openings calls + match call with DevOpen _ => 1 | DevClose => 0 end /\ 0 <= openings calls) as [Eo Ho].
  { split; [|apply openings_nonneg]. destruct call; simpl; lia. }
  assert (0 <= dev_ref_count d) as Hn0 by apply Hi.
  assert (simulated call k d) as (r & k1 & d1 & E & Hd1 & Hs1 & Hstep).
  { destruct call; [apply simulate_open|apply simulate_close]; try done; lia. }
  pose proof (dev_step_inv _ _ _ _ _ Hstep Hi) as Hi1. rewrite <- Hs1 in Hi1.
  assert (dev_ref_count d1 <= dev_ref_count d + match call with DevOpen _ => 1 | DevClose => 0 end) as Hn1.
  { revert Hstep. unfold dev_view. inversion 1; lia. }
  destruct (IH k1 d1 Hd1 Hi1) as (rs & k' & d' & E' & Hd' & Hs' & Hsteps & Hi'); [lia|].
  rewrite Hs1 in Hs', Hsteps, Hi'. exists (r :: rs), k', d'. split; [|split; [done|split; [done|split; [by econstructor|done]]]].
  simpl. by rewrite (bind_ok _ _ _ _ _ E), (bind_ok _ _ _ _ _ E').
Qed.

(** C32: every call of [rt_device_open] and [rt_device_close] does a step of the
    abstract device, for every driver that keeps its contract. In particular, with at most 255
    openings no call fails an assertion, a device with users is always open and
    activated, and a stand-alone device never has a second user. *)
Theorem device_refines calls k d :
  device_ok k dev d -> dev_inv (standalone d) (dev_view d) -> dev_ref_count d + openings calls <= 255 ->
  exists rs k' d', run_calls calls k = Some (rs, k') /\ device_ok k' dev d' /\ standalone d' = standalone d /\
    dev_steps (standalone d) (dev_view d) calls rs (dev_view d') /\ dev_inv (standalone d) (dev_view d').
Proof using Driver0. apply run_calls_spec. Qed.

(** If the driver's [close] fails for the only user of a stand-alone device, the
    device is stuck: whatever is called from then on, opening gives [-RT_EBUSY],
    closing gives [-RT_ERROR], and nothing changes. *)
Theorem device_close_failure_sticks k d r k1 calls :
  device_ok k dev d -> standalone d = true -> dev_view d = DevAbs true true 1 ->
  run_call DevClose k = Some (r, k1) -> accepted r = false ->
  run_calls calls k1 = Some (map (fun c => match c with DevOpen _ => - RT_EBUSY | DevClose => - RT_ERROR end) calls, k1).
Proof using Driver0.
  intros Hd Hs Hv E Hr. assert (dev_ref_count d = 1) as Hn by (by injection Hv).
  destruct (simulate_close k d Hd) as (r' & k1' & d1 & E' & Hd1 & Hs1 & Hstep); [lia|].
  rewrite E in E'. injection E' as <- <-. rewrite Hv in Hstep.
  pose proof (close_last_fails _ _ _ _ _ Hstep Hr) as Hv1.
  assert (dev_ref_count d1 = 0) as Hn1 by (by injection Hv1).
  assert (activated d1 = true /\ opened d1 = true) as [Ha1 Ho1] by (by injection Hv1).
  rewrite Hs in Hs1. clear - Hd1 Hn1 Ha1 Ho1 Hs1. unfold activated, opened, standalone in *. apply negb_true_iff in Ha1.
  induction calls as [|call calls IH]; [done|].
  assert (run_call call k1 = Some (match call with DevOpen _ => - RT_EBUSY | DevClose => - RT_ERROR end, k1)) as E.
  { destruct call as [oflag|]; simpl; unfold rt_device_open, rt_device_close;
      rewrite (bind_ok _ _ _ _ _ (assert_device k1 dev d1 Hd1)), (bind_dev k1 dev d1 _ Hd1).
    - rewrite Ha1. rewrite (bind_ok _ _ _ RT_EOK k1 eq_refl). change (negb (RT_EOK =? RT_EOK)) with false. cbv iota.
      rewrite (bind_dev k1 dev d1 _ Hd1), Hs1, Ho1. done.
    - by rewrite Hn1. }
  simpl run_calls. rewrite (bind_ok _ _ _ _ _ E), (bind_ok _ _ _ _ _ IH). done.
Qed.
End driver.

(** ** Registration *)

(** What registering device [dev] does: it is refused if a device has the name,
    and else the first of its class, closed, and without users. *)
Theorem device_register_correct k dev name flags :
  kernel_ok k -> class_ok k RT_Object_Class_Device -> is_string name ->
  0 <= k_lock_nest k < 32767 -> k_interrupt_nest k = 0 -> ODevice dev ∉ qget (k_objlist k) RT_Object_Class_Device ->
  exists r k', rt_device_register (Some dev) name flags k = Some (r, k') /\ kernel_ok k' /\
    ((r = - RT_ERROR /\ qget (k_objlist k') RT_Object_Class_Device = qget (k_objlist k) RT_Object_Class_Device /\
      exists o s, o ∈ qget (k_objlist k) RT_Object_Class_Device /\ named k o s /\ same_name s name) \/
     (r = RT_EOK /\ qget (k_objlist k') RT_Object_Class_Device = ODevice dev :: qget (k_objlist k) RT_Object_Class_Device /\
      (forall x s, x ∈ qget (k_objlist k) RT_Object_Class_Device -> named k x s -> ~ same_name s name) /\
      exists d, device_ok k' dev d /\ dev_flag d = flags /\ opened d = false /\ dev_ref_count d = 0 /\
        o_name (dev_parent d) = rt_strncpy name RT_NAME_MAX /\ is_static (dev_parent d) = true)).
Proof.
  intros Hok Hcl Hname Hl Hint Hnew.
  destruct (object_find_spec k name RT_Object_Class_Device Hok Hcl Hname Hl Hint) as (o & k0 & E & [Hok0 F _] & Hf).
  pose proof (sched_obj_frame _ _ F) as O. unfold rt_device_register, rt_device_find. rewrite (bind_ok _ _ _ _ _ E).
  destruct o as [o|].
  { destruct Hf as (l1 & l2 & s & El & Hn & Hsame & _). exists (- RT_ERROR), k0. split; [done|]. split; [done|]. left.
    rewrite (of_objlist _ _ O). split; [done|]. split; [done|]. exists o, s. rewrite El. split; [set_solver|done]. }
  destruct (object_init_spec (ODevice dev) RT_Object_Class_Device name k0 Hok0) as (k1 & [Hok1 F1 _] & E1);
    [apply Hcl|by rewrite (of_objlist _ _ O)|by rewrite (of_lock _ _ O)|].
  pose proof (sched_obj_frame _ _ F1) as O1. set (k2 := init_st _ _ _ k1) in *. rewrite (bind_ok _ _ _ _ _ E1).
  set (h := init_hdr RT_Object_Class_Device name (obj_hdr (ODevice dev) k1)).
  set (d := set_dev_parent h (default raw_device (k_devices k1 !! dev))).
  assert (device_ok k2 dev d) as Hd.
  { constructor; [by apply (set_hdr_kernel_ok (ODevice dev))|apply lookup_insert_eq|done]. }
  destruct (upd_dev_ok k2 dev d (set_dev_flag flags) Hd) as (k3 & E3 & Hd3); [done|].
  destruct (upd_dev_ok k3 dev _ (set_dev_ref_count 0) Hd3) as (k4 & E4 & Hd4); [done|].
  destruct (upd_dev_ok k4 dev _ (set_dev_open_flag 0) Hd4) as (k5 & E5 & Hd5); [done|].
  assert (k_objlist k5 = k_objlist k2) as El.
  { assert (forall f a b, upd_dev dev f a = Some (tt, b) -> k_objlist b = k_objlist a) as Hkeep.
    { intros f a b Hu. unfold upd_dev, get_dev in Hu. rewrite bind_unfold, bind_gets in Hu.
      destruct (k_devices a !! dev); [|done]. by injection Hu as <-. }
    by rewrite (Hkeep _ _ _ E5), (Hkeep _ _ _ E4), (Hkeep _ _ _ E3). }
  exists RT_EOK, k5. rewrite (bind_ok _ _ _ _ _ E3), (bind_ok _ _ _ _ _ E4), (bind_ok _ _ _ _ _ E5).
  split; [done|]. split; [apply Hd5|]. right. split; [done|]. rewrite El. split.
  { simpl. rewrite qget_insert_after, decide_True by done. by rewrite (of_objlist _ _ O1), (of_objlist _ _ O). }
  split; [exact Hf|]. eexists. split; [exact Hd5|]. done.
Qed.

(** [rt_device_destroy] can never succeed: a device that comes from
    [rt_device_create] is not of the class it asserts, and registration, which
    makes it one, also marks it as static, which it asserts it is not. *)
Theorem device_destroy_asserts k dev type name flags k1 :
  (rt_device_create (Some dev) type k = Some (Some dev, k1) -> rt_device_destroy dev k1 = None) /\
  (kernel_ok k -> class_ok k RT_Object_Class_Device -> is_string name ->
   0 <= k_lock_nest k < 32767 -> k_interrupt_nest k = 0 -> ODevice dev ∉ qget (k_objlist k) RT_Object_Class_Device ->
   rt_device_register (Some dev) name flags k = Some (RT_EOK, k1) -> rt_device_destroy dev k1 = None).
Proof.
  split.
  - unfold rt_device_create. rewrite bind_modify. unfold upd_dev, get_dev. intros E.
    assert (exists d, k_devices k1 !! dev = Some d /\ dev_parent d = raw_object) as (d & Hd & Hp).
    { set (k2 := raw_block (ODevice dev) k) in *. rewrite bind_unfold, bind_unfold, bind_gets in E.
      assert (k_devices k2 !! dev = Some raw_device) as H2 by apply lookup_insert_eq. rewrite H2 in E. injection E as <-.
      eexists. split; [apply lookup_insert_eq|done]. }
    unfold rt_device_destroy, assert_type, rt_object_get_type, get_hdr, obj_hdr. mrun. rewrite Hd. simpl. by rewrite Hp.
  - intros Hok Hcl Hname Hl Hint Hnew E.
    destruct (device_register_correct k dev name flags Hok Hcl Hname Hl Hint Hnew) as (r & k' & E' & _ & H).
    rewrite E in E'. injection E' as <- <-. destruct H as [(? & _)|(_ & _ & _ & d & Hd & _ & _ & _ & _ & Hs)]; [done|].
    unfold rt_device_destroy. rewrite (bind_ok _ _ _ _ _ (assert_device k1 dev d Hd)).
    unfold rt_object_is_systemobject, get_hdr, obj_hdr. mrun. rewrite (de_lookup _ _ _ Hd).
    simpl. unfold is_static in Hs. apply negb_true_iff in Hs. by rewrite Hs.
Qed.

(** ** A concrete device *)

(** A serial port: [open] stores the flags, [init] and [close] do nothing. *)
Definition uart_init (dev : nat) : option (M Z) := Some (mret RT_EOK).
Definition uart_open (dev : nat) : option (Z -> M Z) :=
  Some (fun oflag => upd_dev dev (set_dev_open_flag (Z.land oflag 0xff));; mret RT_EOK).
Definition uart_close (dev : nat) : option (M Z) := Some (mret (- RT_ENOSYS)).

#[export] Instance uart_driver dev : Driver dev uart_init uart_open uart_close.
Proof.
  assert (forall d, set_dev_open_flag (dev_open_flag d) d = d) as Hid by (by intros []).
  constructor.
  - intros init [= <-] k d Hd. exists RT_EOK, k, (dev_open_flag d). by rewrite Hid.
  - intros open oflag [= <-] k d Hd.
    destruct (upd_dev_ok k dev d (set_dev_open_flag (Z.land oflag 0xff)) Hd) as (k' & E & Hd'); [done|].
    exists RT_EOK, k', (Z.land oflag 0xff). split; [|done]. by rewrite (bind_ok _ _ _ _ _ E).
  - intros close [= <-] k d Hd. exists (- RT_ENOSYS), k, (dev_open_flag d). by rewrite Hid.
Qed.

Definition dev_demo : kstate := after (rt_device_register (Some 0%nat) [117] 0x108) demo_state.

Lemma dev_demo_ok : exists d, device_ok dev_demo 0 d /\ standalone d = true /\ dev_view d = DevAbs false false 0.
Proof.
  exists (default raw_device (k_devices dev_demo !! 0%nat)). split; [|vm_compute; by split].
  constructor; [apply kernel_check_sound; vm_compute; reflexivity|vm_compute; reflexivity|vm_compute; reflexivity].
Qed.

Lemma device_refines_witness :
  exists rs k' d', run_calls uart_init uart_open uart_close 0 [DevOpen 3; DevOpen 3; DevClose; DevClose] dev_demo = Some (rs, k') /\
    device_ok k' 0 d' /\
    dev_steps true (DevAbs false false 0) [DevOpen 3; DevOpen 3; DevClose; DevClose] rs (dev_view d').
Proof.
  destruct dev_demo_ok as (d & Hd & Hs & Hv).
  destruct (device_refines uart_init uart_open uart_close 0 [DevOpen 3; DevOpen 3; DevClose; DevClose] dev_demo d Hd)
    as (rs & k' & d' & E & Hd' & _ & H & _).
  - rewrite Hs, Hv. split; [split; discriminate|]. split; [intros Hx; discriminate Hx|intros _; discriminate].
  - replace (dev_ref_count d) with 0 by (injection Hv; congruence). discriminate.
  - exists rs, k', d'. split; [exact E|]. split; [exact Hd'|]. rewrite <- Hs, <- Hv. exact H.
Defined.
