(* ===== verification/Suspend.v ===== *)
(** * Threads that are suspended on no list

    The components of [drivers/ipc] that keep lists of their own suspend a
    thread, and later resume it, without one of the lists [k_tq]. What they do to
    all other threads is summed up by [stirred]. *)
From S2P Require Import Prelude Kservice Kernel Sched Object Timer Thread KernelInv Boot Ipc ObjectSpec.

(** ** Suspending the caller *)

(** The running thread [c] after it has suspended itself, with its timer armed if
    [timed], and has called the scheduler. *)
Record paused (c : nat) (th : rt_thread) (timed : bool) (tick : Z) (k k' : kstate) : Prop := Paused {
  pa_ok : kernel_ok k';
  pa_frame : obj_frame k k';
  pa_current : is_Some (k_current k');
  pa_highest : k_lock_nest k = 0 -> highest_running k';
  pa_thread : k_threads k' !! c = Some (with_stat RT_THREAD_SUSPEND th);
  pa_other t tht : t <> c -> k_threads k !! t = Some tht -> rescheduled k' t tht;
  pa_timer : timed = true -> TmThread c ∈ qget (k_tmq k') TLHard /\
    exists tm, k_timers k' !! TmThread c = Some tm /\ tm_timeout_tick tm = u32 (k_tick k + tick);
  pa_no_timer l : timed = false -> is_global l -> TmThread c ∉ qget (k_tmq k') l;
  pa_timers m : m <> TmThread c -> k_timers k' !! m = k_timers k !! m;
  pa_rows l x : is_global l -> x <> TmThread c -> x ∈ qget (k_tmq k') l <-> x ∈ qget (k_tmq k) l
}.

(** Arming the timer, or not. *)
Lemma arm_spec c th timed tick k :
  kernel_ok k -> k_threads k !! c = Some th -> stat_of th = RT_THREAD_SUSPEND -> tick < RT_TICK_MAX / 2 ->
  exists k', when timed (start_thread_timer c tick) k = Some (tt, k') /\
    kernel_ok k' /\ obj_frame k k' /\ k_threads k' = k_threads k /\ k_current k' = k_current k /\
    if timed then armed c tick k k' else k' = k.
Proof.
  intros Hok Hth Hs Ht. destruct timed; [|by exists k].
  destruct (start_thread_timer_spec c th tick k) as (k' & E & A); try done.
  exists k'. split; [exact E|]. split_and!; (apply A || done).
Qed.

Lemma pause_spec c th timed tick k :
  kernel_ok k -> k_current k = Some c -> k_threads k !! c = Some th -> stat_of th = RT_THREAD_RUNNING ->
  tick < RT_TICK_MAX / 2 ->
  exists k', (rt_thread_suspend c;; when timed (start_thread_timer c tick);; rt_schedule) k = Some (tt, k') /\
    paused c th timed tick k k'.
Proof.
  intros Hok Hc Hth Hr Htk. destruct (suspend_spec c th k Hok Hc Hth Hr) as (k1 & E1 & Su).
  set (th' := with_stat RT_THREAD_SUSPEND th). assert (stat_of th' = RT_THREAD_SUSPEND) as Hs by apply stat_with_stat.
  assert (blocked th') as Hbl by (unfold blocked; by rewrite Hs).
  assert (k_threads k1 !! c = Some th') as Hth1 by (rewrite (su_threads _ _ _ _ Su); apply lookup_insert_eq).
  destruct (arm_spec c th' timed tick k1 (su_ok _ _ _ _ Su) Hth1 Hs Htk) as (k2 & E2 & Hok2 & F2 & Et & Ec & A).
  destruct (schedule_kernel k2 Hok2) as (k' & Es & Hok' & Fs & Hc' & Hh).
  { rewrite Ec, (su_current _ _ _ _ Su). eauto. }
  pose proof (su_frame _ _ _ _ Su) as F1. destruct (sched_frame_fields _ _ Fs) as (Ftm & Ftmq & _).
  exists k'. split; [by rewrite bind_unfold, E1, bind_unfold, E2|]. constructor; try done.
  - transitivity k1; [done|]. transitivity k2; [done|]. by apply sched_obj_frame.
  - intros Hl0. apply Hh. by rewrite (of_lock _ _ F2), (of_lock _ _ F1).
  - destruct (sf_thread _ _ Fs c th') as (s & E & Hb & _); [by rewrite Et|]. by rewrite Hb in E.
  - intros t tht Hne Ht. apply (sf_thread _ _ Fs t tht). rewrite Et, (su_threads _ _ _ _ Su). by rewrite lookup_insert_ne.
  - intros ->. rewrite Ftm, Ftmq. split; [apply A|]. destruct (ar_timer _ _ _ _ A) as (tm & ? & ? & _).
    exists tm. by rewrite <- (of_tick _ _ F1).
  - intros l -> Hg. rewrite Ftmq, A. by apply (su_unarmed _ _ _ _ Su).
  - intros m Hm. rewrite Ftm, <- (su_timers _ _ _ _ Su m Hm). destruct timed; [by apply A|by rewrite A].
  - intros l x Hg Hx. rewrite Ftmq, <- (su_tmq _ _ _ _ Su l Hg). destruct timed; [by apply A|by rewrite A].
Qed.

(** ** Resuming a thread that may have been woken already *)

Lemma resume_any_spec t th k :
  kernel_ok k -> k_threads k !! t = Some th -> stat_of th <> RT_THREAD_CLOSE ->
  exists r k', rt_thread_resume t k = Some (r, k') /\
    ((stat_of th = RT_THREAD_SUSPEND /\ r = RT_EOK /\ woken t th k k') \/
     (stat_of th <> RT_THREAD_SUSPEND /\ r = - RT_ERROR /\ k' = k)).
Proof.
  intros Hok Hth Hnc. destruct (decide (stat_of th = RT_THREAD_SUSPEND)) as [Hs|Hs].
  - destruct (resume_spec t th k Hok Hth Hs) as (k' & E & W). exists RT_EOK, k'. split; [done|]. by left.
  - exists (- RT_ERROR), k. split; [|by right]. destruct (ti_thread k (ko_timer k Hok) t th Hth Hnc) as (Hty & _).
    unfold rt_thread_resume. rewrite bind_unfold, (assert_thread_type k t th) by done.
    rewrite bind_unfold, (get_thread_eq t k th) by done. by rewrite (proj2 (Z.eqb_neq _ _)) by done.
Qed.

(** ** What happens to everybody else *)

(** A thread stays as it is, or can run. *)
Definition woken_or_same (k k' : kstate) : Prop := forall t th,
  k_threads k !! t = Some th -> exists th', k_threads k' !! t = Some th' /\ (th' = th \/ ~ blocked th').

#[export] Instance woken_or_same_refl : Reflexive woken_or_same.
Proof. intros k t th H. exists th. auto. Qed.
#[export] Instance woken_or_same_trans : Transitive woken_or_same.
Proof.
  intros k1 k2 k3 H1 H2 t th Ht. destruct (H1 t th Ht) as (th2 & Ht2 & O2). destruct (H2 t th2 Ht2) as (th3 & Ht3 & O3).
  exists th3. split; [done|]. destruct O3 as [->|]; [done|by right].
Qed.

Record stirred (k k' : kstate) : Prop := Stirred {
  st_ok : kernel_ok k';
  st_frame : obj_frame k k';
  st_current : is_Some (k_current k) -> is_Some (k_current k');
  st_threads : woken_or_same k k';
  st_timers n : k_timers k' !! TmUser n = k_timers k !! TmUser n;
  st_rows l n : is_global l -> TmUser n ∈ qget (k_tmq k') l <-> TmUser n ∈ qget (k_tmq k) l
}.

Lemma stirred_refl k : kernel_ok k -> stirred k k.
Proof. by constructor. Qed.

Lemma stirred_trans k1 k2 k3 : stirred k1 k2 -> stirred k2 k3 -> stirred k1 k3.
Proof.
  intros [] []. constructor; try done; [by transitivity k2|auto|by transitivity k2|intros n; congruence|].
  intros l n Hl. by transitivity (TmUser n ∈ qget (k_tmq k2) l); auto.
Qed.

Lemma rescheduled_same k t th :
  rescheduled k t th -> exists th', k_threads k !! t = Some th' /\ (th' = th \/ ~ blocked th').
Proof.
  intros (s & Hs & Hb & Hn). exists (set_th_stat s th). split; [done|].
  destruct (decide (stat_of th = RT_THREAD_READY)) as [H1|H1]; [right; apply Hn; by intros []|].
  destruct (decide (stat_of th = RT_THREAD_RUNNING)) as [H2|H2]; [right; apply Hn; by intros []|]. left. by apply Hb.
Qed.

Lemma sched_woken_or_same k k' : sched_frame k k' -> woken_or_same k k'.
Proof. intros F t th Ht. apply rescheduled_same. by apply (sf_thread _ _ F t th). Qed.

Lemma sched_stirred k k' :
  sched_frame k k' -> kernel_ok k' -> (is_Some (k_current k) -> is_Some (k_current k')) -> stirred k k'.
Proof.
  intros F Hok Hc. destruct (sched_frame_fields _ _ F) as (Ft & Fq & _).
  constructor; [done|by apply sched_obj_frame|done|by apply sched_woken_or_same|by rewrite Ft|by rewrite Fq].
Qed.

Lemma woken_stirred t th k k' : k_threads k !! t = Some th -> woken t th k k' -> stirred k k'.
Proof.
  intros Hth [W1 W2 W3 W4 W5 W6 W7]. constructor; [done|done|by rewrite W3| |intros n; by apply W7|].
  - intros x thx Hx. rewrite W4. destruct (decide (x = t)) as [->|Hne].
    + rewrite lookup_insert_eq. eexists. split; [done|]. right. apply wake_stat_unblocked.
    + rewrite lookup_insert_ne by done. eauto.
  - intros l n Hl. rewrite (W6 l Hl), list_elem_of_filter. naive_solver.
Qed.

Lemma schedule_stirred k :
  kernel_ok k -> is_Some (k_current k) ->
  exists k', rt_schedule k = Some (tt, k') /\ stirred k k' /\ (k_lock_nest k = 0 -> highest_running k').
Proof.
  intros Hok Hc. destruct (schedule_kernel k Hok Hc) as (k' & E & Hok' & F & Hc' & Hh).
  exists k'. split; [done|]. split; [by apply sched_stirred|done].
Qed.

(** [rt_thread_resume(thread); rt_schedule()] for a suspended thread. *)
Lemma resume_schedule_spec t th k :
  kernel_ok k -> is_Some (k_current k) -> k_threads k !! t = Some th -> stat_of th = RT_THREAD_SUSPEND ->
  exists k', (rt_thread_resume t;; rt_schedule) k = Some (tt, k') /\ stirred k k' /\ runnable k' t th /\
    (k_lock_nest k = 0 -> highest_running k').
Proof.
  intros Hok Hc Hth Hs. destruct (resume_spec t th k Hok Hth Hs) as (k1 & E1 & W).
  destruct (schedule_kernel k1) as (k' & E & Hok' & F & Hc' & Hh); [apply W|by rewrite (wk_current _ _ _ _ W)|].
  exists k'. split; [by rewrite (bind_ok _ _ k RT_EOK k1)|]. split; [|split].
  - apply (stirred_trans k k1); [by apply (woken_stirred t th)|by apply sched_stirred].
  - by apply (runnable_woken t th k k1).
  - by rewrite <- (of_lock _ _ (wk_frame _ _ _ _ W)).
Qed.

(** ** Critical sections *)

(** [m], run with the scheduler locked, and the scheduler called at the end. *)
Lemma critical_sched {A} (m : M A) (a : A) k k1 :
  0 <= k_lock_nest k < 32767 -> m (set_k_lock_nest (k_lock_nest k + 1) k) = Some (a, k1) ->
  kernel_ok k1 -> is_Some (k_current k1) -> k_lock_nest k1 = k_lock_nest k + 1 ->
  exists k', (rt_enter_critical;; r ← m; rt_exit_critical;; mret r) k = Some (a, k') /\ kernel_ok k' /\
    is_Some (k_current k') /\ sched_frame (set_k_lock_nest (k_lock_nest k) k1) k'.
Proof.
  intros Hl Hm Hok1 Hc1 Hn. set (l := k_lock_nest k) in *.
  assert (s16 (l + 1) = l + 1) as E1 by (unfold s16; dlia). assert (s16 (l + 1 - 1) = l) as E2 by (unfold s16; dlia).
  set (k2 := set_k_lock_nest l k1). assert (kernel_ok k2) as Hok2 by (by apply (kernel_ok_objects k1)).
  rewrite bind_unfold. change (rt_enter_critical k) with (Some (tt, set_k_lock_nest (s16 (l + 1)) k)). rewrite E1.
  cbv iota beta. rewrite bind_unfold, Hm. unfold rt_exit_critical, rt_thread_self. mrun. rewrite Hn. kfields. rewrite E2.
  fold k2. destruct (Z.leb_spec l 0) as [Hz|Hnz]; [|by exists k2].
  assert (set_k_lock_nest 0 k2 = k2) as -> by (unfold k2; rewrite set_lock_twice; f_equal; lia).
  rewrite bool_decide_true by done. destruct (schedule_kernel k2 Hok2 Hc1) as (k' & -> & Hok' & F & Hc' & _). by exists k'.
Qed.

Lemma critical_run {A} (m : M A) (a : A) k k1 :
  let k0 := set_k_lock_nest (k_lock_nest k + 1) k in
  0 <= k_lock_nest k < 32767 -> is_Some (k_current k) -> m k0 = Some (a, k1) -> stirred k0 k1 ->
  exists k', (rt_enter_critical;; r ← m; rt_exit_critical;; mret r) k = Some (a, k') /\ stirred k k' /\
    sched_frame (set_k_lock_nest (k_lock_nest k) k1) k'.
Proof.
  intros k0 Hl Hc Hm S. assert (is_Some (k_current k1)) as Hc1 by (by apply (st_current _ _ S)).
  destruct (critical_sched m a k k1) as (k' & E & Hok' & Hc' & F); try done; [apply S|apply (of_lock _ _ (st_frame _ _ S))|].
  exists k'. split; [done|]. split; [|done]. set (k2 := set_k_lock_nest (k_lock_nest k) k1) in *.
  apply (stirred_trans k k2); [|by apply sched_stirred]. destruct S as [S1 O S3 S4 S5 S6]. constructor; try done.
  - by apply (kernel_ok_objects k1).
  - destruct O. by constructor.
Qed.
