(* ===== verification/WaitQueue.v ===== *)
(** * Wait queues

    [drivers/ipc/waitqueue.c] and [waitqueue.h]: threads wait for a condition
    that a driver announces with [rt_wqueue_wakeup]. The nodes of
    [rt_wqueue_wait], which live on the stack of the waiting thread, have the
    default wake function; that of a node the user adds is an argument. *)
From S2P Require Import Prelude Kservice Kernel Sched Object Timer Thread KernelInv Boot Ipc Suspend.

Definition RT_WQ_FLAG_CLEAN : Z := 0x00.
Definition RT_WQ_FLAG_WAKEUP : Z := 0x01.

Definition set_wq_flag (queue : nat) (flag : Z) : M unit :=
  q ← gets (fun k => k_wqueues k !! queue); deref q;;
  modify (fun k => set_k_wqueues (<[queue := RtWqueue flag]> (k_wqueues k)) k).
Definition get_wq_flag (queue : nat) : M Z :=
  q ← gets (fun k => k_wqueues k !! queue); q ← deref q; mret (wq_flag q).
Definition get_wqnode (n : wqnode) : M rt_wqueue_node := x ← gets (fun k => k_wqnodes k !! n); deref x.
Definition modify_wqlists (f : gmap nat (list wqnode) -> gmap nat (list wqnode)) : M unit :=
  modify (fun k => set_k_wqlists (f (k_wqlists k)) k).

Definition rt_wqueue_init (queue : nat) : M unit :=
  modify (fun k => set_k_wqueues (<[queue := RtWqueue RT_WQ_FLAG_CLEAN]> (k_wqueues k)) k);;
  modify_wqlists (fun m => <[queue := []]> m).

Definition rt_wqueue_add (queue : nat) (node : wqnode) : M unit :=
  modify_wqlists (rt_list_insert_before queue node).
Definition rt_wqueue_remove (node : wqnode) : M unit := modify_wqlists (rt_list_remove node).

Definition __wqueue_default_wake (wait : wqnode) (key : Z) : M Z := mret 0.

Section wakeup.
(** The wake functions of the user's nodes. *)
Context (user_wakeup : nat -> Z -> M Z).

Definition wakeup (entry : wqnode) (key : Z) : M Z :=
  match entry with
  | WaitNode t => __wqueue_default_wake (WaitNode t) key
  | UserNode n => user_wakeup n key
  end.

(** The walk along [queue_list], and whether somebody was woken. *)
Fixpoint wakeup_loop (nodes : list wqnode) (key : Z) : M bool :=
  match nodes with
  | [] => mret false
  | entry :: nodes =>
      r ← wakeup entry key;
      if r =? 0 then
        e ← get_wqnode entry;
        rt_thread_resume (wn_polling_thread e);;
        rt_wqueue_remove entry;;
        mret true
      else wakeup_loop nodes key
  end.

Definition rt_wqueue_wakeup (queue : nat) (key : Z) : M unit :=
  set_wq_flag queue RT_WQ_FLAG_WAKEUP;;
  nodes ← gets (fun k => qget (k_wqlists k) queue);
  need_schedule ← wakeup_loop nodes key;
  when need_schedule rt_schedule.
End wakeup.

(** The end of [rt_wqueue_wait], from [__exit_wakeup] on. *)
Definition rt_wqueue_wait_return (tid queue : nat) : M Z :=
  set_wq_flag queue RT_WQ_FLAG_CLEAN;;
  rt_wqueue_remove (WaitNode tid);;
  th ← get_thread tid;
  mret (th_error th).

(** [rt_wqueue_wait], up to where it returns or the thread is suspended. *)
Definition rt_wqueue_wait (queue : nat) (condition msec : Z) : M (outcome unit) :=
  RT_DEBUG_SCHEDULER_AVAILABLE true;;
  let tick := s32 (rt_tick_from_millisecond msec) in
  if negb (condition =? 0) || (tick =? 0) then mret (Ret 0)
  else
    tid ← current_thread;
    modify (fun k => set_k_wqnodes (<[WaitNode tid := RtWqueueNode tid 0]> (k_wqnodes k)) k);;
    fresh ← gets (fun k => rt_list_init_node (WaitNode tid) (k_wqlists k));
    rt_assert fresh;;
    set_error tid RT_EOK;;
    flag ← get_wq_flag queue;
    if flag =? RT_WQ_FLAG_WAKEUP then
      r ← rt_wqueue_wait_return tid queue;
      mret (Ret r)
    else
      rt_wqueue_add queue (WaitNode tid);;
      rt_thread_suspend tid;;
      when (negb (tick =? RT_WAITING_FOREVER)) (start_thread_timer tid (u32 tick));;
      rt_schedule;;
      mret (Wait tt).

(** ** Wait queues in use *)

Definition wqueue_st (q : nat) (flag : Z) (k : kstate) : kstate :=
  set_k_wqueues (<[q := RtWqueue flag]> (k_wqueues k)) k.

Lemma set_wq_flag_eq q x flag k : k_wqueues k !! q = Some x -> set_wq_flag q flag k = Some (tt, wqueue_st q flag k).
Proof. intros H. unfold set_wq_flag. mrun. by rewrite H. Qed.

Lemma wqueue_st_ok q flag k : kernel_ok k -> kernel_ok (wqueue_st q flag k).
Proof. by apply kernel_ok_objects. Qed.

Lemma rt_wqueue_remove_ok n k : kernel_ok k -> kernel_ok (set_k_wqlists (rt_list_remove n (k_wqlists k)) k).
Proof. by apply kernel_ok_objects. Qed.

(** The threads behind the nodes of [q] exist. *)
Definition nodes_ok (k : kstate) (q : nat) : Prop :=
  Forall (fun n => exists e th, k_wqnodes k !! n = Some e /\ k_threads k !! wn_polling_thread e = Some th /\
            stat_of th <> RT_THREAD_CLOSE) (qget (k_wqlists k) q).

(** The contract of the user's wake functions: they return, and leave the kernel's state alone. *)
Class WakeFunctions (user_wakeup : nat -> Z -> M Z) : Prop :=
  wake_returns n key k : exists r, user_wakeup n key k = Some (r, k).

Definition willing (user_wakeup : nat -> Z -> M Z) (key : Z) (k : kstate) (n : wqnode) : bool :=
  match wakeup user_wakeup n key k with Some (r, _) => r =? 0 | None => false end.

(** What is left of a waiting call when its thread runs again. *)
Lemma wait_return_spec q x c th k :
  k_wqueues k !! q = Some x -> k_threads k !! c = Some th ->
  rt_wqueue_wait_return c q k =
    Some (th_error th, set_k_wqlists (rt_list_remove (WaitNode c) (k_wqlists k)) (wqueue_st q RT_WQ_FLAG_CLEAN k)).
Proof.
  intros Hx Hth. unfold rt_wqueue_wait_return. rewrite bind_unfold, (set_wq_flag_eq q x) by done.
  unfold rt_wqueue_remove, modify_wqlists. mrun. by rewrite (get_thread_eq c _ th).
Qed.

Section wake.
Context (user_wakeup : nat -> Z -> M Z) {Hwake : WakeFunctions user_wakeup}.
Local Notation willing := (willing user_wakeup).

Lemma wakeup_eq n key k : exists r, wakeup user_wakeup n key k = Some (r, k) /\ willing key k n = (r =? 0).
Proof using Hwake.
  destruct n as [t|n]; [by exists 0|]. destruct (Hwake n key k) as [r E]. exists r. split; [done|].
  unfold WaitQueue.willing. cbn [wakeup]. by rewrite E.
Qed.

Definition wake_up (n : wqnode) : M bool :=
  e ← get_wqnode n; rt_thread_resume (wn_polling_thread e);; rt_wqueue_remove n;; mret true.

(** The walk stops at the first willing node. *)
Lemma wakeup_loop_eq nodes key k :
  wakeup_loop user_wakeup nodes key k =
    match head (filter (fun n => willing key k n = true) nodes) with
    | Some n => wake_up n k
    | None => Some (false, k)
    end.
Proof using Hwake.
  induction nodes as [|n nodes IH]; [done|]. destruct (wakeup_eq n key k) as (r & E & Ew).
  cbn [wakeup_loop]. rewrite bind_unfold, E. destruct (r =? 0).
  - by rewrite filter_cons_True.
  - rewrite filter_cons_False by (by rewrite Ew). exact IH.
Qed.

(** The wake-up has gone to the node [n] with the thread [t]. *)
Record wake_given (n : wqnode) (t : nat) (th : rt_thread) (k k' : kstate) : Prop := WakeGiven {
  wg_ok : kernel_ok k';
  wg_wqueues : k_wqueues k' = k_wqueues k;
  wg_lists q : qget (k_wqlists k') q = filter (fun x => x <> n) (qget (k_wqlists k) q);
  wg_thread : stat_of th = RT_THREAD_SUSPEND -> runnable k' t th;
  wg_highest : k_lock_nest k = 0 -> highest_running k';
  wg_other t' th' : t' <> t \/ stat_of th <> RT_THREAD_SUSPEND -> k_threads k !! t' = Some th' -> rescheduled k' t' th'
}.

Lemma wake_up_spec n e th k :
  kernel_ok k -> is_Some (k_current k) -> k_wqnodes k !! n = Some e ->
  k_threads k !! wn_polling_thread e = Some th -> stat_of th <> RT_THREAD_CLOSE ->
  exists k', (need_schedule ← wake_up n; when need_schedule rt_schedule) k = Some (tt, k') /\
    wake_given n (wn_polling_thread e) th k k'.
Proof using.
  intros Hok Hc He Hth Hnc. destruct (resume_any_spec (wn_polling_thread e) th k Hok Hth Hnc) as (r & k1 & E1 & H1).
  assert (kernel_ok k1 /\ obj_frame k k1 /\ k_current k1 = k_current k) as (Hok1 & F1 & Hc1)
    by (destruct H1 as [(_ & _ & [])|(_ & _ & ->)]; done).
  set (k2 := set_k_wqlists (rt_list_remove n (k_wqlists k1)) k1).
  assert (kernel_ok k2) as Hok2 by (by apply rt_wqueue_remove_ok).
  destruct (schedule_kernel k2 Hok2) as (k' & Es & Hok' & Fs & _ & Hh); [by rewrite <- Hc1 in Hc|].
  exists k'. split.
  { unfold wake_up, get_wqnode, rt_wqueue_remove, modify_wqlists. mrun. rewrite He; simpl. by rewrite E1. }
  pose proof (sched_obj_frame _ _ Fs) as F2. constructor.
  - done.
  - rewrite (of_wqueues _ _ F2). by apply (of_wqueues _ _ F1).
  - intros q. rewrite (of_wqlists _ _ F2). unfold k2; kfields. by rewrite qget_remove, (of_wqlists _ _ F1).
  - intros Hs. destruct H1 as [(_ & _ & W)|(Hn & _)]; [|done].
    eapply (runnable_sched _ th k2 k' _ Fs); [|by apply wake_stat_unblocked].
    change (k_threads k2) with (k_threads k1). rewrite (wk_threads _ _ _ _ W). by apply lookup_insert_eq.
  - intros Hl. apply Hh. change (k_lock_nest k2) with (k_lock_nest k1). by rewrite (of_lock _ _ F1).
  - intros t' th' Hne Ht'. apply (sf_thread _ _ Fs t' th'). change (k_threads k2) with (k_threads k1).
    destruct H1 as [(Hs & _ & W)|(_ & _ & ->)]; [|done].
    rewrite (wk_threads _ _ _ _ W), lookup_insert_ne; [done|]. by destruct Hne as [?|?].
Qed.

Lemma wqueue_wakeup_spec q x key k :
  kernel_ok k -> is_Some (k_current k) -> k_wqueues k !! q = Some x -> nodes_ok k q ->
  let k1 := wqueue_st q RT_WQ_FLAG_WAKEUP k in
  match head (filter (fun n => willing key k1 n = true) (qget (k_wqlists k) q)) with
  | None => rt_wqueue_wakeup user_wakeup q key k = Some (tt, k1)
  | Some n => exists e th k', k_wqnodes k !! n = Some e /\ k_threads k !! wn_polling_thread e = Some th /\
      rt_wqueue_wakeup user_wakeup q key k = Some (tt, k') /\ wake_given n (wn_polling_thread e) th k1 k'
  end.
Proof using Hwake.
  intros Hok Hc Hx Hn k1. unfold rt_wqueue_wakeup. rewrite bind_unfold, (set_wq_flag_eq q x) by done. fold k1.
  rewrite bind_gets. change (k_wqlists k1) with (k_wqlists k).
  pose proof (wakeup_loop_eq (qget (k_wqlists k) q) key k1) as El.
  destruct (head _) as [n|] eqn:Eh; [|by rewrite bind_unfold, El].
  assert (n ∈ qget (k_wqlists k) q) as Hin.
  { apply head_Some_elem_of in Eh. by apply list_elem_of_filter in Eh as [_ ?]. }
  apply (proj1 (Forall_forall _ _) Hn) in Hin as (e & th & He & Hth & Hnc). exists e, th.
  destruct (wake_up_spec n e th k1) as (k' & E & W); try done; [by apply wqueue_st_ok|].
  exists k'. do 2 (split; [done|]). split; [|done]. rewrite <- E. by rewrite !bind_unfold, El.
Qed.
End wake.

(** The timeout in ticks: milliseconds rounded up, and for ever if negative. *)
Lemma wait_ticks msec :
  - 2 ^ 31 <= msec < 2 ^ 31 ->
  s32 (rt_tick_from_millisecond msec) = if msec <? 0 then RT_WAITING_FOREVER else (msec + 9) / 10.
Proof.
  intros H. destruct (Z.ltb_spec msec 0) as [Hn|Hn].
  - unfold rt_tick_from_millisecond. by rewrite (proj2 (Z.ltb_lt msec 0)).
  - rewrite tick_from_millisecond_eq by lia. apply s32_small. dlia.
Qed.

(** The waiting thread [c] with its node at the end of the queue. *)
Record queued (q c : nat) (th : rt_thread) (msec : Z) (k k' : kstate) : Prop := Queued {
  qd_ok : kernel_ok k';
  qd_current : is_Some (k_current k');
  qd_highest : highest_running k';
  qd_thread : k_threads k' !! c = Some (with_stat RT_THREAD_SUSPEND (set_th_error RT_EOK th));
  qd_wqueues : k_wqueues k' = k_wqueues k;
  qd_node : k_wqnodes k' = <[WaitNode c := RtWqueueNode c 0]> (k_wqnodes k);
  qd_lists q' : qget (k_wqlists k') q' = qget (k_wqlists k) q' ++ if decide (q = q') then [WaitNode c] else [];
  qd_other t tht : t <> c -> k_threads k !! t = Some tht -> rescheduled k' t tht;
  qd_timer : 0 < msec -> TmThread c ∈ qget (k_tmq k') TLHard /\
    exists tm, k_timers k' !! TmThread c = Some tm /\ tm_timeout_tick tm = u32 (k_tick k + (msec + 9) / 10);
  qd_no_timer l : msec < 0 -> is_global l -> TmThread c ∉ qget (k_tmq k') l
}.

(** No node of [c] is on a queue: a thread waits for one thing at a time. *)
Definition no_node (c : nat) (k : kstate) : Prop := rt_list_init_node (WaitNode c) (k_wqlists k) = true.

Lemma no_node_get c k q : no_node c k -> WaitNode c ∉ qget (k_wqlists k) q.
Proof.
  unfold no_node, rt_list_init_node. rewrite bool_decide_eq_true. intros H. unfold qget.
  destruct (k_wqlists k !! q) eqn:E; [by apply (H q)|]. apply not_elem_of_nil.
Qed.

(** The state in which a call that does not return at once looks at the flag. *)
Definition about_to_wait (c : nat) (th : rt_thread) (k : kstate) : kstate :=
  thread_st c (set_th_error RT_EOK th) (set_k_wqnodes (<[WaitNode c := RtWqueueNode c 0]> (k_wqnodes k)) k).

Lemma about_to_wait_ok c th k :
  kernel_ok k -> k_threads k !! c = Some th -> kernel_ok (about_to_wait c th k).
Proof. intros Hok Hth. apply (thread_st_same c th); try done. by apply (kernel_ok_objects k). Qed.

Lemma block_on_wqueue q c th msec k :
  kernel_ok k -> can_block k c th -> no_node c k -> - 2 ^ 31 <= msec < 2 ^ 31 -> msec <> 0 ->
  let tick := s32 (rt_tick_from_millisecond msec) in
  exists k', (rt_wqueue_add q (WaitNode c);; rt_thread_suspend c;;
              when (negb (tick =? RT_WAITING_FOREVER)) (start_thread_timer c (u32 tick));; rt_schedule)
               (about_to_wait c th k) = Some (tt, k') /\ queued q c th msec k k'.
Proof.
  intros Hok [Hc Hth Hr Hl _] Hf Hm Hz tick. set (k1 := about_to_wait c th k).
  set (k2 := set_k_wqlists (rt_list_insert_before q (WaitNode c) (k_wqlists k1)) k1).
  assert (kernel_ok k2) as Hok2 by (apply (kernel_ok_objects k1); try done; by apply about_to_wait_ok).
  assert (u32 tick < RT_TICK_MAX / 2 \/ msec < 0) as Ht.
  { unfold tick. rewrite wait_ticks by done. destruct (Z.ltb_spec msec 0); [by right|left].
    rewrite u32_small by dlia. unfold RT_TICK_MAX. dlia. }
  set (timed := negb (tick =? RT_WAITING_FOREVER)).
  assert (timed = (0 <? msec)) as Htimed.
  { unfold timed, tick. rewrite wait_ticks by done. destruct (Z.ltb_spec msec 0).
    - symmetry. apply Z.ltb_ge. lia.
    - rewrite (proj2 (Z.ltb_lt 0 msec)) by lia. unfold RT_WAITING_FOREVER. by rewrite (proj2 (Z.eqb_neq _ _)) by dlia. }
  destruct (pause_spec c (set_th_error RT_EOK th) timed (if timed then u32 tick else 0) k2) as (k' & E & P); try done.
  { apply thread_st_lookup. }
  { rewrite Htimed. destruct (Z.ltb_spec 0 msec); [|done]. destruct Ht; [done|lia]. }
  exists k'. split.
  { rewrite bind_unfold. change (rt_wqueue_add q (WaitNode c) k1) with (Some (tt, k2)). cbv iota beta.
    rewrite <- E. by destruct timed. }
  pose proof (pa_frame _ _ _ _ _ _ P) as F. constructor.
  - apply P.
  - apply P.
  - by apply P.
  - apply P.
  - by rewrite (of_wqueues _ _ F).
  - by rewrite (of_wqnodes _ _ F).
  - intros q'. rewrite (of_wqlists _ _ F). unfold k2; kfields. rewrite qget_insert_before.
    destruct (decide (q = q')) as [<-|]; [done|]. by rewrite app_nil_r.
  - intros t tht Hne Hx. apply (pa_other _ _ _ _ _ _ P t tht Hne). unfold k2, k1, about_to_wait, thread_st; kfields.
    by rewrite lookup_insert_ne.
  - intros Hp. assert (timed = true) as Et by (rewrite Htimed; by apply Z.ltb_lt).
    destruct (pa_timer _ _ _ _ _ _ P Et) as (Hon & tm & Htm & Htk). split; [done|]. exists tm. split; [done|].
    rewrite Htk, Et. change (k_tick k2) with (k_tick k). unfold tick. rewrite wait_ticks by done.
    rewrite (proj2 (Z.ltb_ge msec 0)) by lia. f_equal. f_equal. apply u32_small. dlia.
  - intros l Hn. apply (pa_no_timer _ _ _ _ _ _ P). rewrite Htimed. apply Z.ltb_ge. lia.
Qed.

Lemma get_wq_flag_eq q flag k : k_wqueues k !! q = Some (RtWqueue flag) -> get_wq_flag q k = Some (flag, k).
Proof. intros H. unfold get_wq_flag. mrun. by rewrite H. Qed.

(** A call that has to look at the flag. *)
Lemma wait_looks q flag c th msec k :
  k_wqueues k !! q = Some (RtWqueue flag) -> kernel_ok k -> can_block k c th -> no_node c k ->
  - 2 ^ 31 <= msec < 2 ^ 31 -> msec <> 0 ->
  rt_wqueue_wait q 0 msec k =
    let tick := s32 (rt_tick_from_millisecond msec) in
    (if flag =? RT_WQ_FLAG_WAKEUP then r ← rt_wqueue_wait_return c q; mret (Ret r)
     else rt_wqueue_add q (WaitNode c);; rt_thread_suspend c;;
          when (negb (tick =? RT_WAITING_FOREVER)) (start_thread_timer c (u32 tick));; rt_schedule;; mret (Wait tt))
      (about_to_wait c th k).
Proof.
  intros Hx Hok Hcb Hf Hm Hz. unfold rt_wqueue_wait. rewrite bind_unfold, (scheduler_available k c th) by done.
  cbv beta zeta iota. rewrite (proj2 (Z.eqb_neq (s32 _) 0)).
  2:{ rewrite wait_ticks by done. unfold RT_WAITING_FOREVER. destruct (Z.ltb_spec msec 0); [done|dlia]. }
  cbn [orb negb Z.eqb]. rewrite bind_unfold, (current_thread_eq k c) by apply Hcb. cbv iota beta.
  set (k0 := set_k_wqnodes (<[WaitNode c := RtWqueueNode c 0]> (k_wqnodes k)) k).
  rewrite (bind_ok _ _ k tt k0) by done. rewrite bind_gets.
  change (rt_list_init_node (WaitNode c) (k_wqlists k0)) with (rt_list_init_node (WaitNode c) (k_wqlists k)).
  rewrite Hf. rewrite (bind_ok _ _ k0 tt k0) by done.
  rewrite (bind_ok _ _ k0 tt (about_to_wait c th k)) by (apply upd_thread_eq, Hcb).
  by rewrite (bind_ok _ _ _ flag (about_to_wait c th k)) by (by apply get_wq_flag_eq).
Qed.

Definition returned (c q : nat) (th : rt_thread) (k : kstate) : kstate :=
  set_k_wqlists (rt_list_remove (WaitNode c) (k_wqlists k)) (wqueue_st q RT_WQ_FLAG_CLEAN (about_to_wait c th k)).

Lemma wait_at_once q c th msec k :
  k_wqueues k !! q = Some (RtWqueue RT_WQ_FLAG_WAKEUP) -> kernel_ok k -> can_block k c th -> no_node c k ->
  - 2 ^ 31 <= msec < 2 ^ 31 -> msec <> 0 ->
  rt_wqueue_wait q 0 msec k = Some (Ret RT_EOK, returned c q th k) /\ kernel_ok (returned c q th k).
Proof.
  intros Hx Hok Hcb Hf Hm Hz. split.
  - rewrite (wait_looks q _ c th) by done. cbv zeta. rewrite Z.eqb_refl.
    rewrite bind_unfold, (wait_return_spec q (RtWqueue RT_WQ_FLAG_WAKEUP) c (set_th_error RT_EOK th)); try done.
    apply thread_st_lookup.
  - apply (rt_wqueue_remove_ok (WaitNode c) (wqueue_st q RT_WQ_FLAG_CLEAN (about_to_wait c th k))).
    apply wqueue_st_ok, about_to_wait_ok; [done|apply Hcb].
Qed.

Lemma wait_blocks q flag c th msec k :
  k_wqueues k !! q = Some (RtWqueue flag) -> flag <> RT_WQ_FLAG_WAKEUP ->
  kernel_ok k -> can_block k c th -> no_node c k -> - 2 ^ 31 <= msec < 2 ^ 31 -> msec <> 0 ->
  exists k', rt_wqueue_wait q 0 msec k = Some (Wait tt, k') /\ queued q c th msec k k'.
Proof.
  intros Hx Hn Hok Hcb Hf Hm Hz. destruct (block_on_wqueue q c th msec k) as (k' & E & Q); try done.
  exists k'. split; [|done]. rewrite (wait_looks q flag c th) by done. cbv zeta in E |- *.
  rewrite (proj2 (Z.eqb_neq _ _)) by done. revert E. rewrite !bind_unfold.
  destruct (rt_wqueue_add _ _ _) as [[u k1]|]; [|done]. rewrite !bind_unfold.
  destruct (rt_thread_suspend c k1) as [[r k2]|]; [|done]. rewrite !bind_unfold.
  destruct (when _ _ k2) as [[u' k3]|]; [|done]. rewrite bind_unfold. by intros ->.
Qed.

(** ** Correctness *)

(** C33: [rt_wqueue_wait]: a call returns 0 at once if its condition holds or it
    does not want to wait. If a wake-up has come since the last wait, the call uses it
    up and returns [RT_EOK]. Else the caller waits at the end of the
    queue, its timer armed for the milliseconds rounded up to ticks unless it waits
    for ever, and the best ready thread runs. From then on, whatever happens to
    the other threads: the first wake-up that finds it at the head of the queue makes it runnable
    and its call returns [RT_EOK]; if its timer expires first, it is runnable, too,
    and its call returns [-RT_ETIMEOUT] and takes it off the queue. *)
Theorem wqueue_wait_correct user_wakeup `{!WakeFunctions user_wakeup} q flag c th condition msec k :
  kernel_ok k -> k_wqueues k !! q = Some (RtWqueue flag) -> can_block k c th -> no_node c k ->
  - 2 ^ 31 <= msec < 2 ^ 31 ->
  if decide (condition <> 0 \/ msec = 0) then rt_wqueue_wait q condition msec k = Some (Ret 0, k)
  else if decide (flag = RT_WQ_FLAG_WAKEUP) then
    rt_wqueue_wait q condition msec k = Some (Ret RT_EOK, returned c q th k) /\ kernel_ok (returned c q th k)
  else exists k', rt_wqueue_wait q condition msec k = Some (Wait tt, k') /\ queued q c th msec k k' /\
    (forall k2 l x key, kernel_ok k2 -> is_Some (k_current k2) -> k_threads k2 !! c = k_threads k' !! c ->
       k_wqueues k2 !! q = Some x -> k_wqnodes k2 !! WaitNode c = k_wqnodes k' !! WaitNode c ->
       qget (k_wqlists k2) q = WaitNode c :: l -> nodes_ok k2 q ->
       exists k3 k4 th', rt_wqueue_wakeup user_wakeup q key k2 = Some (tt, k3) /\
         k_threads k3 !! c = Some th' /\ ~ blocked th' /\
         rt_wqueue_wait_return c q k3 = Some (RT_EOK, k4)) /\
    (forall k2 x, kernel_ok k2 -> is_Some (k_current k2) -> k_threads k2 !! c = k_threads k' !! c ->
       k_wqueues k2 !! q = Some x -> (forall l, is_global l -> TmThread c ∉ qget (k_tmq k2) l) ->
       exists k3 k4 th', _thread_timeout c k2 = Some (tt, k3) /\
         k_threads k3 !! c = Some th' /\ ~ blocked th' /\
         rt_wqueue_wait_return c q k3 = Some (- RT_ETIMEOUT, k4) /\ WaitNode c ∉ qget (k_wqlists k4) q).
Proof.
  intros Hok Hx Hcb Hf Hm. case_decide as Hz.
  { unfold rt_wqueue_wait. rewrite bind_unfold, (scheduler_available k c th) by done.
    destruct Hz as [Hz| ->]; [by rewrite (proj2 (Z.eqb_neq condition 0))|]. by destruct (condition =? 0). }
  assert (condition = 0 /\ msec <> 0) as [-> Hz'] by lia.
  case_decide as Hfl; [subst flag; by apply wait_at_once|].
  destruct (wait_blocks q flag c th msec k) as (k' & E & Q); try done. exists k'. do 2 (split; [done|]).
  set (th1 := with_stat RT_THREAD_SUSPEND (set_th_error RT_EOK th)).
  pose proof (qd_thread _ _ _ _ _ _ Q : _ = Some th1) as Hth. assert (stat_of th1 = RT_THREAD_SUSPEND) as Hs by apply stat_with_stat.
  split.
  - intros k2 l x key Hok2 Hc2 Ht2 Hx2 Hn2 Hq2 Hno2. rewrite Hth in Ht2.
    rewrite (qd_node _ _ _ _ _ _ Q), lookup_insert_eq in Hn2.
    pose proof (wqueue_wakeup_spec user_wakeup q x key k2 Hok2 Hc2 Hx2 Hno2) as H. cbv zeta in H.
    rewrite Hq2, filter_cons_True in H by done. cbn [head] in H.
    destruct H as (e & th2 & k3 & He & Hte & E3 & W). rewrite Hn2 in He. injection He as <-.
    cbn [wn_polling_thread] in *. assert (th2 = th1) as -> by congruence.
    destruct (wg_thread _ _ _ _ _ W Hs) as (s & Hs3 & Hb). exists k3. do 2 eexists. do 3 (split; [done|]).
    apply (wait_return_spec q (RtWqueue RT_WQ_FLAG_WAKEUP) c (set_th_stat s th1)); [|done].
    rewrite (wg_wqueues _ _ _ _ _ W). apply lookup_insert_eq.
  - intros k2 x Hok2 Hc2 Ht2 Hx2 Hun. rewrite Hth in Ht2.
    destruct (timeout_spec c th1 k2 Hok2 Hc2 Ht2 Hs Hun) as (k3 & k4 & E4 & W & _ & _ & F & _).
    destruct (runnable_woken _ _ _ _ _ W F) as (s & Ht4 & Hb). exists k4. do 2 eexists. do 3 (split; [done|]).
    split; [apply (wait_return_spec q x c (set_th_stat s (set_th_error (- RT_ETIMEOUT) th1)) k4); [|done]|].
    + by rewrite (of_wqueues _ _ (sched_obj_frame _ _ F)), (of_wqueues _ _ (wk_frame _ _ _ _ W)).
    + kfields. rewrite elem_remove. by intros [].
Qed.

(** [rt_wqueue_wakeup]: the wake-up is noted in the queue's flag, so that a thread that is
    about to wait does not: its call returns [RT_EOK] at once. The first node in the queue
    whose wake function agrees is taken off; its thread, if it is suspended,
    is made runnable and the scheduler called. Nobody else is woken. *)
Theorem wqueue_wakeup_correct user_wakeup `{!WakeFunctions user_wakeup} q x key k :
  kernel_ok k -> is_Some (k_current k) -> k_wqueues k !! q = Some x -> nodes_ok k q ->
  let k1 := wqueue_st q RT_WQ_FLAG_WAKEUP k in
  exists k', rt_wqueue_wakeup user_wakeup q key k = Some (tt, k') /\ kernel_ok k' /\
    match head (filter (fun n => willing user_wakeup key k1 n = true) (qget (k_wqlists k) q)) with
    | None => k' = k1
    | Some n => exists e th, k_wqnodes k !! n = Some e /\ k_threads k !! wn_polling_thread e = Some th /\
        wake_given n (wn_polling_thread e) th k1 k'
    end /\
    forall k2 c th msec, kernel_ok k2 -> k_wqueues k2 !! q = k_wqueues k' !! q -> can_block k2 c th ->
      no_node c k2 -> - 2 ^ 31 <= msec < 2 ^ 31 -> msec <> 0 ->
      rt_wqueue_wait q 0 msec k2 = Some (Ret RT_EOK, returned c q th k2).
Proof.
  intros Hok Hc Hx Hn k1. pose proof (wqueue_wakeup_spec user_wakeup q x key k Hok Hc Hx Hn) as H. cbv zeta in H. fold k1 in H.
  assert (forall k', k_wqueues k' = k_wqueues k1 ->
    forall k2 c th msec, kernel_ok k2 -> k_wqueues k2 !! q = k_wqueues k' !! q -> can_block k2 c th ->
      no_node c k2 -> - 2 ^ 31 <= msec < 2 ^ 31 -> msec <> 0 ->
      rt_wqueue_wait q 0 msec k2 = Some (Ret RT_EOK, returned c q th k2)) as Hrem.
  { intros k' E k2 c th msec Hok2 Hx2. rewrite E in Hx2. unfold k1, wqueue_st in Hx2; kfields.
    rewrite lookup_insert_eq in Hx2. intros. by apply wait_at_once. }
  destruct (head _) as [n|].
  - destruct H as (e & th & k' & He & Hth & E & W). exists k'. split; [done|]. split; [apply W|].
    split; [by exists e, th|]. apply Hrem, W.
  - exists k1. split; [done|]. split; [by apply wqueue_st_ok|]. split; [done|]. by apply Hrem.
Qed.

(** A wake-up can be lost. The timer of the first waiting thread [a] has
    expired, but [a], runnable, has not taken its node off the queue yet: the wake-up
    takes the node and wakes nobody, no matter who waits behind [a]; then [a]
    reports the timeout, and clears the flag. *)
Theorem wqueue_wakeup_lost user_wakeup `{!WakeFunctions user_wakeup} q x key k a tha l :
  kernel_ok k -> is_Some (k_current k) -> k_wqueues k !! q = Some x -> nodes_ok k q ->
  qget (k_wqlists k) q = WaitNode a :: l -> k_wqnodes k !! WaitNode a = Some (RtWqueueNode a 0) ->
  k_threads k !! a = Some tha -> stat_of tha <> RT_THREAD_SUSPEND -> th_error tha = - RT_ETIMEOUT ->
  exists k' k2, rt_wqueue_wakeup user_wakeup q key k = Some (tt, k') /\
    (forall t th, k_threads k !! t = Some th -> blocked th -> k_threads k' !! t = Some th) /\
    rt_wqueue_wait_return a q k' = Some (- RT_ETIMEOUT, k2) /\
    (forall t th, k_threads k !! t = Some th -> blocked th -> k_threads k2 !! t = Some th) /\
    k_wqueues k2 !! q = Some (RtWqueue RT_WQ_FLAG_CLEAN) /\
    qget (k_wqlists k2) q = filter (fun n => n <> WaitNode a) l.
Proof.
  intros Hok Hc Hx Hn Hq Hna Hta Hns He.
  pose proof (wqueue_wakeup_spec user_wakeup q x key k Hok Hc Hx Hn) as H. cbv zeta in H.
  rewrite Hq, filter_cons_True in H by done. cbn [head] in H. destruct H as (e & th & k' & Hne & Hth & E & W).
  rewrite Hna in Hne. injection Hne as <-. cbn [wn_polling_thread] in *. assert (th = tha) as -> by congruence.
  assert (forall t th, k_threads k !! t = Some th -> blocked th -> k_threads k' !! t = Some th) as Hsame.
  { intros t th Ht Hb. destruct (wg_other _ _ _ _ _ W t th) as (s & Hs & Hb' & _); [by right|done|].
    by rewrite Hb' in Hs. }
  destruct (wg_other _ _ _ _ _ W a tha) as (s & Hs & _); [by right|done|].
  exists k'. eexists. split; [done|]. split; [done|]. split.
  { rewrite <- He. apply (wait_return_spec q (RtWqueue RT_WQ_FLAG_WAKEUP) a (set_th_stat s tha)); [|done].
    rewrite (wg_wqueues _ _ _ _ _ W). apply lookup_insert_eq. }
  split; [done|]. split; [apply lookup_insert_eq|]. kfields. rewrite qget_remove, (wg_lists _ _ _ _ _ W).
  change (k_wqlists (wqueue_st _ _ k)) with (k_wqlists k). rewrite Hq, filter_cons_False by (intros []; done).
  rewrite list_filter_filter. apply list_filter_iff. tauto.
Qed.

(** ** A concrete queue *)

(** Queue 0; the main thread waits for it; so does the timer thread, with a node
    of its own; the main thread's timer expires. *)
Definition wqueue_demo : kstate := after (rt_wqueue_init 0) demo_state.
Definition wqueue_demo_waiting : kstate := after (rt_wqueue_wait 0 0 50) wqueue_demo.
Definition wqueue_demo_late : kstate :=
  after (modify (fun k => set_k_wqnodes (<[UserNode 3 := RtWqueueNode (k_timer_thread k) 0]> (k_wqnodes k)) k);;
         rt_wqueue_add 0 (UserNode 3);;
         rt_timer_stop (TmThread 0);; _thread_timeout 0) wqueue_demo_waiting.

#[export] Instance no_wake_functions : WakeFunctions (fun _ _ => mret 0).
Proof. intros n key k. by exists 0. Qed.

Definition nodes_check (k : kstate) (q : nat) : bool :=
  forallb (fun n => match k_wqnodes k !! n with
    | Some e => match k_threads k !! wn_polling_thread e with
                | Some th => negb (stat_of th =? RT_THREAD_CLOSE)
                | None => false
                end
    | None => false
    end) (qget (k_wqlists k) q).

Lemma nodes_check_sound k q : nodes_check k q = true -> nodes_ok k q.
Proof.
  unfold nodes_check, nodes_ok. rewrite forallb_forall, Forall_forall. intros H n Hn.
  apply list_elem_of_In in Hn. specialize (H n Hn). destruct (k_wqnodes k !! n) as [e|] eqn:He; [|done].
  destruct (k_threads k !! wn_polling_thread e) as [th|] eqn:Ht; [|done]. exists e, th. split_and!; [done..|].
  by apply Z.eqb_neq, negb_true_iff.
Qed.

Lemma wqueue_wait_correct_witness :
  exists k', rt_wqueue_wait 0 0 50 wqueue_demo = Some (Wait tt, k') /\
    queued 0 0 (thread_at 0 wqueue_demo) 50 wqueue_demo k'.
Proof.
  pose proof (wqueue_wait_correct (fun _ _ => mret 0) 0 RT_WQ_FLAG_CLEAN 0 (thread_at 0 wqueue_demo) 0 50 wqueue_demo) as H.
  rewrite !decide_False in H by (intros H'; (discriminate H' || destruct H' as [[]|H']; (reflexivity || discriminate H'))).
  destruct H as (k' & E & Q & _).
  - apply kernel_check_sound. vm_compute. reflexivity.
  - vm_compute. reflexivity.
  - constructor; vm_compute; reflexivity.
  - vm_compute. reflexivity.
  - split; [discriminate|reflexivity].
  - exists k'. split; [exact E|exact Q].
Defined.

Lemma wqueue_wakeup_correct_witness :
  exists k', rt_wqueue_wakeup (fun _ _ => mret 0) 0 7 wqueue_demo_waiting = Some (tt, k') /\ kernel_ok k'.
Proof.
  destruct (wqueue_wakeup_correct (fun _ _ => mret 0) 0 (RtWqueue RT_WQ_FLAG_CLEAN) 7 wqueue_demo_waiting) as (k' & E & Hok & _).
  - apply kernel_check_sound. vm_compute. reflexivity.
  - vm_compute. eauto.
  - vm_compute. reflexivity.
  - apply nodes_check_sound. vm_compute. reflexivity.
  - exists k'. split; [exact E|exact Hok].
Defined.

Lemma wqueue_wakeup_lost_witness :
  exists k' k2, rt_wqueue_wakeup (fun _ _ => mret 0) 0 7 wqueue_demo_late = Some (tt, k') /\
    rt_wqueue_wait_return 0 0 k' = Some (- RT_ETIMEOUT, k2) /\ qget (k_wqlists k2) 0%nat = [UserNode 3].
Proof.
  destruct (wqueue_wakeup_lost (fun _ _ => mret 0) 0 (RtWqueue RT_WQ_FLAG_CLEAN) 7 wqueue_demo_late 0
              (thread_at 0 wqueue_demo_late) [UserNode 3]) as (k' & k2 & E & _ & E2 & _ & _ & Hl).
  - apply kernel_check_sound. vm_compute. reflexivity.
  - vm_compute. eauto.
  - vm_compute. reflexivity.
  - apply nodes_check_sound. vm_compute. reflexivity.
  - vm_compute. reflexivity.
  - vm_compute. reflexivity.
  - vm_compute. reflexivity.
  - vm_compute. discriminate.
  - vm_compute. reflexivity.
  - exists k', k2. split; [exact E|]. split; [exact E2|]. rewrite Hl. vm_compute. reflexivity.
Defined.
