(* ===== verification/IpcQueue.v ===== *)
(** * Bounded queues of messages

    What mailboxes and message queues promise their users in common: a queue
    of at most [cap] messages, with insertion at either end and removal at the
    front. [BoundedQueue] states the promise for each of the calls that do not
    wait; [bq_refines] draws the consequence for any sequence of them. The
    circular array of the mailbox is here too. *)
From S2P Require Import Prelude Kservice Kernel Sched Object Timer Thread KernelInv Boot Ipc.

(** ** The interface *)

(** A receiver says with [Lim] how much it wants of a message ([unit] where a
    message is one word) and gets an [Out]. *)
Inductive bq_op (Msg Lim : Type) := BqSend (m : Msg) | BqUrgent (m : Msg) | BqRecv (l : Lim).
Arguments BqSend {Msg Lim} m.
Arguments BqUrgent {Msg Lim} m.
Arguments BqRecv {Msg Lim} l.

(** The abstract queue: its messages and what a call returns. *)
Definition bq_step {Msg Lim} (cap : nat) (ms : list Msg) (o : bq_op Msg Lim)
    : list Msg * (Z * option (Lim * Msg)) :=
  match o with
  | BqSend m => if (length ms <? cap)%nat then (ms ++ [m], (RT_EOK, None))
                else (ms, (- RT_EFULL, None))
  | BqUrgent m => if (length ms <? cap)%nat then (m :: ms, (RT_EOK, None))
                  else (ms, (- RT_EFULL, None))
  | BqRecv l => match ms with
                | m :: ms => (ms, (RT_EOK, Some (l, m)))
                | [] => ([], (- RT_ETIMEOUT, None))
                end
  end.

Fixpoint bq_steps {Msg Lim} (cap : nat) (ms : list Msg) (ops : list (bq_op Msg Lim))
    : list Msg * list (Z * option (Lim * Msg)) :=
  match ops with
  | [] => (ms, [])
  | o :: ops => let '(ms, r) := bq_step cap ms o in
                let '(ms, rs) := bq_steps cap ms ops in (ms, r :: rs)
  end.

(** The code that returned without waiting. *)
Definition returned {W} (r : outcome W) : M Z :=
  match r with Ret e => mret e | Wait _ => fun _ => None end.

(** [repr ms k]: in [k] the object is in order and holds [ms]. *)
Class BoundedQueue {Msg Lim Out : Type} (send urgent : Msg -> M Z)
    (recv : Lim -> M (Z * option Out)) (repr : list Msg -> kstate -> Prop) (cap : nat)
    (valid : Msg -> Prop) (wants : Lim -> Prop) (delivers : Lim -> Msg -> Out -> Prop) : Prop := {
  bq_send_ok ms m k : repr ms k -> valid m ->
    exists k', send m k = Some (if (length ms <? cap)%nat then RT_EOK else - RT_EFULL, k') /\
      repr (if (length ms <? cap)%nat then ms ++ [m] else ms) k';
  bq_urgent_ok ms m k : repr ms k -> valid m ->
    exists k', urgent m k = Some (if (length ms <? cap)%nat then RT_EOK else - RT_EFULL, k') /\
      repr (if (length ms <? cap)%nat then m :: ms else ms) k';
  bq_recv_ok ms l k : repr ms k -> wants l ->
    match ms with
    | [] => exists k', recv l k = Some ((- RT_ETIMEOUT, None), k') /\ repr [] k'
    | m :: ms => exists out k', recv l k = Some ((RT_EOK, Some out), k') /\
        delivers l m out /\ repr ms k'
    end
}.

Section refinement.
Context {Msg Lim Out : Type} (send urgent : Msg -> M Z) (recv : Lim -> M (Z * option Out))
  (repr : list Msg -> kstate -> Prop) (cap : nat) (valid : Msg -> Prop) (wants : Lim -> Prop)
  (delivers : Lim -> Msg -> Out -> Prop)
  `{!BoundedQueue send urgent recv repr cap valid wants delivers}.

Definition bq_exec (o : bq_op Msg Lim) : M (Z * option Out) :=
  match o with
  | BqSend m => r ← send m; mret (r, None)
  | BqUrgent m => r ← urgent m; mret (r, None)
  | BqRecv l => recv l
  end.

Fixpoint bq_run (ops : list (bq_op Msg Lim)) : M (list (Z * option Out)) :=
  match ops with
  | [] => mret []
  | o :: ops => r ← bq_exec o; rs ← bq_run ops; mret (r :: rs)
  end.

Definition op_valid (o : bq_op Msg Lim) : Prop :=
  match o with BqSend m | BqUrgent m => valid m | BqRecv l => wants l end.

(** The code's result is the abstract one; what is received is what was
    sent. *)
Definition agree (a : Z * option (Lim * Msg)) (r : Z * option Out) : Prop :=
  a.1 = r.1 /\
  match a.2, r.2 with
  | Some (l, m), Some out => delivers l m out
  | None, None => True
  | _, _ => False
  end.

Lemma bq_step_refines o ms k :
  repr ms k -> op_valid o ->
  exists r k', bq_exec o k = Some (r, k') /\ repr (bq_step cap ms o).1 k' /\
    agree (bq_step cap ms o).2 r.
Proof using BoundedQueue0.
  intros Hr Hv. destruct o as [m|m|l]; simpl in *.
  - destruct (bq_send_ok ms m k Hr Hv) as (k' & E & Hr'). eexists _, k'.
    rewrite bind_unfold, E. split; [done|]. by destruct (length ms <? cap)%nat.
  - destruct (bq_urgent_ok ms m k Hr Hv) as (k' & E & Hr'). eexists _, k'.
    rewrite bind_unfold, E. split; [done|]. by destruct (length ms <? cap)%nat.
  - pose proof (bq_recv_ok ms l k Hr Hv) as H. destruct ms as [|m ms].
    + destruct H as (k' & E & Hr'). by exists (- RT_ETIMEOUT, None), k'.
    + destruct H as (out & k' & E & Hd & Hr'). by exists (RT_EOK, Some out), k'.
Qed.

Lemma bq_refines ops ms k :
  repr ms k -> Forall op_valid ops ->
  exists rs k', bq_run ops k = Some (rs, k') /\ repr (bq_steps cap ms ops).1 k' /\
    Forall2 agree (bq_steps cap ms ops).2 rs.
Proof using BoundedQueue0.
  revert ms k. induction ops as [|o ops IH]; intros ms k Hr Hv; [by exists [], k|].
  apply Forall_cons in Hv as [Ho Hv].
  destruct (bq_step_refines o ms k Hr Ho) as (r & k1 & E1 & Hr1 & Ha).
  simpl. destruct (bq_step cap ms o) as [ms1 a]. simpl in *.
  destruct (IH ms1 k1 Hr1 Hv) as (rs & k2 & E2 & Hr2 & Has).
  destruct (bq_steps cap ms1 ops) as [ms2 as2]. simpl in *.
  exists (r :: rs), k2. split; [|by auto]. by rewrite bind_unfold, E1, bind_unfold, E2.
Qed.
End refinement.

(** ** The circular array *)

(** Index [i] past the start of an array of [size] slots, [i < 2 * size]. *)
Definition slot (size i : Z) : Z := if i <? size then i else i - size.

(** The [n] words from index [out] on. *)
Definition ring (pool : list Z) (size out n : Z) : list Z :=
  ztab n (fun i => zget pool (slot size (out + i))).

Lemma slot_bound size i : 0 <= i < 2 * size -> 0 <= slot size i < size.
Proof. unfold slot. zcases; lia. Qed.

Lemma zlen_ring pool size out n : 0 <= n -> zlen (ring pool size out n) = n.
Proof. apply zlen_ztab. Qed.

Lemma ring_length pool size out n : 0 <= n -> length (ring pool size out n) = Z.to_nat n.
Proof. intros H. pose proof (zlen_ring pool size out n H). unfold zlen in *. lia. Qed.

Lemma ring_push_back pool size out n v :
  0 <= out < size -> size <= zlen pool -> 0 <= n < size ->
  ring (zset pool (slot size (out + n)) v) size out (n + 1) = ring pool size out n ++ [v].
Proof.
  intros. apply zlist_eq; rewrite ?zlen_app, !zlen_ring by lia; [done|]. intros i Hi.
  rewrite zget_app, zlen_ring by lia. unfold ring. rewrite zget_ztab by lia.
  pose proof (slot_bound size (out + n) ltac:(lia)). pose proof (slot_bound size (out + i) ltac:(lia)).
  rewrite zget_zset by lia. destruct (Z.ltb_spec i n).
  - rewrite zget_ztab by lia. destruct (Z.eqb_spec (slot size (out + n)) (slot size (out + i))) as [E|];
      [|done]. revert E. unfold slot. zcases; lia.
  - assert (i = n) as -> by lia. by rewrite Z.eqb_refl, Z.sub_diag.
Qed.

Lemma ring_push_front pool size out n v :
  0 <= out < size -> size <= zlen pool -> 0 <= n < size ->
  let o := if 0 <? out then out - 1 else size - 1 in
  ring (zset pool o v) size o (n + 1) = v :: ring pool size out n.
Proof.
  intros Ho Hs Hn o. assert (0 <= o < size) by (unfold o; destruct (0 <? out) eqn:?; lia).
  change (v :: ?l) with ([v] ++ l).
  apply zlist_eq; rewrite ?zlen_app, !zlen_ring by lia; [unfold zlen; simpl; lia|]. intros i Hi.
  rewrite zget_app by lia. change (zlen [v]) with 1. unfold ring at 1. rewrite zget_ztab by lia.
  pose proof (slot_bound size (o + i) ltac:(lia)). rewrite zget_zset by lia.
  destruct (Z.ltb_spec i 1).
  - assert (i = 0) as -> by lia. replace (slot size (o + 0)) with o by (unfold slot; zcases; lia).
    by rewrite Z.eqb_refl.
  - destruct (Z.eqb_spec o (slot size (o + i))) as [E|_]; [revert E; unfold slot; zcases; lia|].
    unfold ring. rewrite zget_ztab by lia. f_equal. unfold slot, o. destruct (Z.ltb_spec 0 out); zcases; lia.
Qed.

Lemma ring_pop pool size out n :
  0 <= out < size -> 0 < n <= size ->
  ring pool size out n = zget pool out :: ring pool size (slot size (out + 1)) (n - 1).
Proof.
  intros Ho Hn. change (?v :: ?l) with ([v] ++ l).
  apply zlist_eq; rewrite ?zlen_app, !zlen_ring by lia; [unfold zlen; simpl; lia|]. intros i Hi.
  rewrite zget_app by lia. change (zlen [_]) with 1. unfold ring at 1. rewrite zget_ztab by lia.
  destruct (Z.ltb_spec i 1).
  - assert (i = 0) as -> by lia. unfold zget at 2. simpl. f_equal. unfold slot. zcases; lia.
  - unfold ring. rewrite zget_ztab by lia. f_equal. unfold slot. zcases; lia.
Qed.

Lemma slot_push_front size out n :
  0 <= out < size -> 0 <= n < size ->
  slot size ((if 0 <? out then out - 1 else size - 1) + (n + 1)) = slot size (out + n).
Proof. intros. unfold slot. destruct (Z.ltb_spec 0 out); zcases; lia. Qed.

Lemma slot_pop size out n :
  0 <= out < size -> 0 < n <= size ->
  slot size (slot size (out + 1) + (n - 1)) = slot size (out + n).
Proof. intros. unfold slot. zcases; lia. Qed.

Lemma slot_succ size i : 0 <= i < size -> size <= 65535 ->
  (if size <=? u16 (i + 1) then 0 else u16 (i + 1)) = slot size (i + 1).
Proof. intros. rewrite u16_small by lia. unfold slot. zcases; lia. Qed.

Lemma slot_next size out n :
  0 <= out < size -> 0 <= n < size -> slot size (slot size (out + n) + 1) = slot size (out + (n + 1)).
Proof. intros. unfold slot. zcases; lia. Qed.
