(* ===== verification/IpcMailbox.v ===== *)
(** * Mailboxes

    The mailbox functions of [src/ipc.c]. A wait of [rt_mb_send_wait] or
    [rt_mb_recv] is a pair of its local variables [timeout] and
    [tick_delta]. *)
From S2P Require Import Prelude Kservice Kernel Sched Object Timer Thread KernelInv Boot Ipc ObjectSpec IpcQueue.

Definition RT_MB_ENTRY_MAX : Z := 65535.

Definition get_mb (mb : nat) : M rt_mailbox := b ← gets (fun k => k_mbs k !! mb); deref b.
Definition put_mb (mb : nat) (b : rt_mailbox) : M unit :=
  modify (fun k => set_k_mbs (<[mb := b]> (k_mbs k)) k).
Definition upd_mb (mb : nat) (f : rt_mailbox -> rt_mailbox) : M unit :=
  b ← get_mb mb; put_mb mb (f b).
Definition set_mb_pool (pool : list Z) (size : Z) (b : rt_mailbox) : rt_mailbox :=
  RtMailbox (mb_parent b) pool size (mb_entry b) (mb_in_offset b) (mb_out_offset b).
(** [entry], [in_offset] and [out_offset]. *)
Definition set_mb_offsets (entry i o : Z) (b : rt_mailbox) : rt_mailbox :=
  RtMailbox (mb_parent b) (mb_msg_pool b) (mb_size b) entry i o.

(** [mb->msg_pool[i] = value] and [mb->msg_pool[i]]: undefined outside the
    pool. *)
Definition mb_store (b : rt_mailbox) (i value : Z) : M rt_mailbox :=
  rt_assert ((0 <=? i) && (i <? zlen (mb_msg_pool b)));;
  mret (set_mb_pool (zset (mb_msg_pool b) i value) (mb_size b) b).
Definition mb_load (b : rt_mailbox) (i : Z) : M Z :=
  rt_assert ((0 <=? i) && (i <? zlen (mb_msg_pool b)));;
  mret (zget (mb_msg_pool b) i).

Definition rt_mb_init (mb : nat) (name msgpool : list Z) (size flag : Z) : M Z :=
  rt_assert (valid_flag flag);;
  rt_object_init (OMailBox mb) RT_Object_Class_MailBox name;;
  set_flag (OMailBox mb) flag;;
  _ipc_object_init (QMbRecv mb);;
  upd_mb mb (set_mb_pool msgpool (u16 size));;
  upd_mb mb (set_mb_offsets 0 0 0);;
  modify_tq (fun m => <[QMbSend mb := []]> m);;
  mret RT_EOK.

Definition rt_mb_detach (mb : nat) : M Z :=
  assert_type (OMailBox mb) RT_Object_Class_MailBox;;
  assert_system (OMailBox mb) true;;
  _ipc_list_resume_all (QMbRecv mb);;
  _ipc_list_resume_all (QMbSend mb);;
  rt_object_detach (OMailBox mb);;
  mret RT_EOK.

(** [mem] and [msg_pool] are what the two allocations return. *)
Definition rt_mb_create (mem : option oid) (msg_pool : option (list Z)) (name : list Z)
    (size flag : Z) : M (option nat) :=
  rt_assert (valid_flag flag);;
  RT_DEBUG_NOT_IN_INTERRUPT;;
  mb ← rt_object_allocate mem RT_Object_Class_MailBox name;
  match mb with
  | Some (OMailBox mb) =>
      set_flag (OMailBox mb) flag;;
      _ipc_object_init (QMbRecv mb);;
      match msg_pool with
      | None =>
          upd_mb mb (set_mb_pool [] (u16 size));;
          rt_object_delete (OMailBox mb);;
          mret None
      | Some pool =>
          upd_mb mb (set_mb_pool pool (u16 size));;
          upd_mb mb (set_mb_offsets 0 0 0);;
          modify_tq (fun m => <[QMbSend mb := []]> m);;
          mret (Some mb)
      end
  | _ => mret None
  end.

Definition rt_mb_delete (mb : nat) : M Z :=
  assert_type (OMailBox mb) RT_Object_Class_MailBox;;
  assert_system (OMailBox mb) false;;
  RT_DEBUG_NOT_IN_INTERRUPT;;
  _ipc_list_resume_all (QMbRecv mb);;
  _ipc_list_resume_all (QMbSend mb);;
  rt_object_delete (OMailBox mb);;
  mret RT_EOK.

(** [rt_mb_send_wait] from the end of its loop on. *)
Definition mb_send_put (mb : nat) (value : Z) : M Z :=
  b ← get_mb mb;
  b ← mb_store b (mb_in_offset b) value;
  let i := u16 (mb_in_offset b + 1) in
  let i := if mb_size b <=? i then 0 else i in
  let b := set_mb_offsets (mb_entry b) i (mb_out_offset b) b in
  put_mb mb b;;
  if mb_entry b <? RT_MB_ENTRY_MAX then
    put_mb mb (set_mb_offsets (u16 (mb_entry b + 1)) i (mb_out_offset b) b);;
    wake_waiter (QMbRecv mb)
  else mret (- RT_EFULL).

(** The head of its loop, up to the wait or the end. *)
Definition mb_send_loop (mb : nat) (value timeout tick_delta : Z) : M (outcome (Z * Z)) :=
  b ← get_mb mb;
  if mb_entry b =? mb_size b then
    thread ← current_thread;
    set_error thread RT_EOK;;
    if timeout =? 0 then mret (Ret (- RT_EFULL))
    else
      flag ← get_flag (OMailBox mb);
      tick_delta ← block_on_since (QMbSend mb) thread flag timeout tick_delta;
      mret (Wait (timeout, tick_delta))
  else r ← mb_send_put mb value; mret (Ret r).

Definition rt_mb_send_wait (mb : nat) (value timeout : Z) : M (outcome (Z * Z)) :=
  assert_type (OMailBox mb) RT_Object_Class_MailBox;;
  RT_DEBUG_SCHEDULER_AVAILABLE (negb (timeout =? 0));;
  b ← get_mb mb;
  if (mb_entry b =? mb_size b) && (timeout =? 0) then mret (Ret (- RT_EFULL))
  else mb_send_loop mb value timeout 0.

(** When the waiting [thread] runs again. *)
Definition rt_mb_send_resume (thread mb : nat) (value : Z) (w : Z * Z) : M (outcome (Z * Z)) :=
  th ← get_thread thread;
  if negb (th_error th =? RT_EOK) then mret (Ret (th_error th))
  else
    '(timeout, tick_delta) ← remaining_timeout w.1 w.2;
    mb_send_loop mb value timeout tick_delta.

Definition rt_mb_send (mb : nat) (value : Z) : M (outcome (Z * Z)) := rt_mb_send_wait mb value 0.

Definition rt_mb_urgent (mb : nat) (value : Z) : M Z :=
  assert_type (OMailBox mb) RT_Object_Class_MailBox;;
  b ← get_mb mb;
  if mb_entry b =? mb_size b then mret (- RT_EFULL)
  else
    let o := if 0 <? mb_out_offset b then mb_out_offset b - 1 else u16 (mb_size b - 1) in
    b ← mb_store b o value;
    put_mb mb (set_mb_offsets (u16 (mb_entry b + 1)) (mb_in_offset b) o b);;
    wake_waiter (QMbRecv mb).

(** [rt_mb_recv] from the end of its loop on: the code and [*value]. *)
Definition mb_recv_get (mb : nat) : M (Z * Z) :=
  b ← get_mb mb;
  value ← mb_load b (mb_out_offset b);
  let o := u16 (mb_out_offset b + 1) in
  let o := if mb_size b <=? o then 0 else o in
  let entry := if 0 <? mb_entry b then mb_entry b - 1 else mb_entry b in
  put_mb mb (set_mb_offsets entry (mb_in_offset b) o b);;
  r ← wake_waiter (QMbSend mb);
  mret (r, value).

Definition mb_recv_loop (mb : nat) (timeout tick_delta : Z)
    : M (outcome (Z * Z) * option Z) :=
  b ← get_mb mb;
  if mb_entry b =? 0 then
    thread ← current_thread;
    set_error thread RT_EOK;;
    if timeout =? 0 then
      set_error thread (- RT_ETIMEOUT);;
      mret (Ret (- RT_ETIMEOUT), None)
    else
      flag ← get_flag (OMailBox mb);
      tick_delta ← block_on_since (QMbRecv mb) thread flag timeout tick_delta;
      mret (Wait (timeout, tick_delta), None)
  else '(r, value) ← mb_recv_get mb; mret (Ret r, Some value).

Definition rt_mb_recv (mb : nat) (timeout : Z) : M (outcome (Z * Z) * option Z) :=
  assert_type (OMailBox mb) RT_Object_Class_MailBox;;
  RT_DEBUG_SCHEDULER_AVAILABLE (negb (timeout =? 0));;
  b ← get_mb mb;
  if (mb_entry b =? 0) && (timeout =? 0) then mret (Ret (- RT_ETIMEOUT), None)
  else mb_recv_loop mb timeout 0.

Definition rt_mb_recv_resume (thread mb : nat) (w : Z * Z)
    : M (outcome (Z * Z) * option Z) :=
  th ← get_thread thread;
  if negb (th_error th =? RT_EOK) then mret (Ret (th_error th), None)
  else
    '(timeout, tick_delta) ← remaining_timeout w.1 w.2;
    mb_recv_loop mb timeout tick_delta.

Definition rt_mb_control (mb : nat) (cmd : Z) : M Z :=
  assert_type (OMailBox mb) RT_Object_Class_MailBox;;
  if cmd =? RT_IPC_CMD_RESET then
    _ipc_list_resume_all (QMbRecv mb);;
    _ipc_list_resume_all (QMbSend mb);;
    upd_mb mb (set_mb_offsets 0 0 0);;
    rt_schedule;;
    mret RT_EOK
  else mret (- RT_ERROR).

(** ** Correctness *)

Record mb_ok (k : kstate) (mb : nat) (b : rt_mailbox) : Prop := MbOk {
  mo_lookup : k_mbs k !! mb = Some b;
  mo_header : ipc_header RT_Object_Class_MailBox (mb_parent b);
  mo_size : 0 < mb_size b <= 65535;
  mo_pool : mb_size b <= zlen (mb_msg_pool b);
  mo_entry : 0 <= mb_entry b <= mb_size b;
  mo_out : 0 <= mb_out_offset b < mb_size b;
  mo_in : mb_in_offset b = slot (mb_size b) (mb_out_offset b + mb_entry b)
}.

(** The messages in a mailbox, oldest first. *)
Definition mb_messages (b : rt_mailbox) : list Z :=
  ring (mb_msg_pool b) (mb_size b) (mb_out_offset b) (mb_entry b).

Definition mb_st (mb : nat) (b : rt_mailbox) (k : kstate) : kstate :=
  set_k_mbs (<[mb := b]> (k_mbs k)) k.

Lemma get_mb_eq mb b k : k_mbs k !! mb = Some b -> get_mb mb k = Some (b, k).
Proof. intros H. unfold get_mb. mrun. by rewrite H. Qed.

Lemma put_mb_eq mb b k : put_mb mb b k = Some (tt, mb_st mb b k).
Proof. done. Qed.

Lemma mb_hdr k mb b : k_mbs k !! mb = Some b -> obj_hdr (OMailBox mb) k = Some (mb_parent b).
Proof. intros H. simpl. by rewrite H. Qed.

Lemma mb_st_kernel_ok mb b k : kernel_ok k -> kernel_ok (mb_st mb b k).
Proof. by apply kernel_ok_objects. Qed.

Lemma mb_st_st mb b b' k : mb_st mb b' (mb_st mb b k) = mb_st mb b' k.
Proof. unfold mb_st; kfields. by rewrite insert_insert_eq. Qed.

Lemma mb_ok_frame k k' mb b : mb_ok k mb b -> k_mbs k' = k_mbs k -> mb_ok k' mb b.
Proof. intros [] E. constructor; try done. by rewrite E. Qed.

Lemma mb_messages_length b :
  0 <= mb_entry b -> length (mb_messages b) = Z.to_nat (mb_entry b).
Proof. apply ring_length. Qed.

Lemma mb_store_eq b i v k :
  0 <= i < zlen (mb_msg_pool b) ->
  mb_store b i v k = Some (set_mb_pool (zset (mb_msg_pool b) i v) (mb_size b) b, k).
Proof.
  intros. unfold mb_store, rt_assert. mrun.
  destruct (Z.leb_spec 0 i), (Z.ltb_spec i (zlen (mb_msg_pool b))); done || lia.
Qed.

Lemma mb_load_eq b i k :
  0 <= i < zlen (mb_msg_pool b) -> mb_load b i k = Some (zget (mb_msg_pool b) i, k).
Proof.
  intros. unfold mb_load, rt_assert. mrun.
  destruct (Z.leb_spec 0 i), (Z.ltb_spec i (zlen (mb_msg_pool b))); done || lia.
Qed.

(** The mailbox [b] with a message more at its end, a message more at its
    front, and without its first message. *)
Definition mb_pushed (b : rt_mailbox) (v : Z) : rt_mailbox :=
  RtMailbox (mb_parent b) (zset (mb_msg_pool b) (mb_in_offset b) v) (mb_size b) (mb_entry b + 1)
    (slot (mb_size b) (mb_in_offset b + 1)) (mb_out_offset b).
Definition mb_pushed_front (b : rt_mailbox) (v : Z) : rt_mailbox :=
  let o := if 0 <? mb_out_offset b then mb_out_offset b - 1 else mb_size b - 1 in
  RtMailbox (mb_parent b) (zset (mb_msg_pool b) o v) (mb_size b) (mb_entry b + 1)
    (mb_in_offset b) o.
Definition mb_popped (b : rt_mailbox) : rt_mailbox :=
  set_mb_offsets (mb_entry b - 1) (mb_in_offset b) (slot (mb_size b) (mb_out_offset b + 1)) b.

Lemma mb_pushed_ok k mb b v :
  mb_ok k mb b -> mb_entry b < mb_size b ->
  mb_ok (mb_st mb (mb_pushed b v) k) mb (mb_pushed b v) /\
  mb_messages (mb_pushed b v) = mb_messages b ++ [v].
Proof.
  intros [Hb Hh Hs Hp He Ho Hi] Hlt. split.
  - constructor; simpl; [apply lookup_insert_eq|done|done|by rewrite zlen_zset|lia|done|].
    rewrite Hi. apply slot_next; lia.
  - unfold mb_messages; simpl. rewrite Hi. apply ring_push_back; lia.
Qed.

Lemma mb_pushed_front_ok k mb b v :
  mb_ok k mb b -> mb_entry b < mb_size b ->
  mb_ok (mb_st mb (mb_pushed_front b v) k) mb (mb_pushed_front b v) /\
  mb_messages (mb_pushed_front b v) = v :: mb_messages b.
Proof.
  intros [Hb Hh Hs Hp He Ho Hi] Hlt. split.
  - constructor; simpl; [apply lookup_insert_eq|done|done|by rewrite zlen_zset|lia| |].
    + destruct (Z.ltb_spec 0 (mb_out_offset b)); lia.
    + rewrite Hi. symmetry. apply slot_push_front; lia.
  - unfold mb_messages; simpl. apply ring_push_front; lia.
Qed.

Lemma mb_popped_ok k mb b :
  mb_ok k mb b -> 0 < mb_entry b ->
  mb_ok (mb_st mb (mb_popped b) k) mb (mb_popped b) /\
  mb_messages b = zget (mb_msg_pool b) (mb_out_offset b) :: mb_messages (mb_popped b).
Proof.
  intros [Hb Hh Hs Hp He Ho Hi] Hlt. split.
  - constructor; simpl; [apply lookup_insert_eq|done|done|done|lia| |].
    + apply slot_bound. lia.
    + rewrite Hi. symmetry. apply slot_pop; lia.
  - unfold mb_messages; simpl. apply ring_pop; lia.
Qed.

Ltac mb_fields :=
  cbn [set_mb_pool set_mb_offsets mb_parent mb_msg_pool mb_size mb_entry mb_in_offset mb_out_offset].

(** The ends of the three calls, once there is room or a message. *)
Lemma mb_send_put_spec k mb b v :
  kernel_ok k -> mb_ok k mb b -> is_Some (k_current k) -> mb_entry b < mb_size b ->
  exists k', mb_send_put mb v k = Some (RT_EOK, k') /\
    handed (QMbRecv mb) (mb_st mb (mb_pushed b v) k) k'.
Proof.
  intros Hok Hmo Hc Hlt. pose proof Hmo as [Hb Hh Hs Hp He Ho Hi].
  pose proof (slot_bound (mb_size b) (mb_out_offset b + mb_entry b) ltac:(lia)) as Hib.
  destruct (wake_waiter_spec (QMbRecv mb) (mb_st mb (mb_pushed b v) k)) as (k' & E & H);
    [by apply mb_st_kernel_ok|done|done|].
  exists k'. split; [|done]. unfold mb_send_put.
  rewrite bind_unfold, (get_mb_eq mb b) by done.
  rewrite bind_unfold, mb_store_eq by (rewrite Hi; lia). cbv beta iota zeta. mb_fields.
  rewrite slot_succ by (rewrite ?Hi; lia).
  rewrite bind_unfold, put_mb_eq. unfold RT_MB_ENTRY_MAX.
  rewrite (proj2 (Z.ltb_lt (mb_entry b) 65535)) by lia.
  rewrite bind_unfold, put_mb_eq, mb_st_st, u16_small by lia. exact E.
Qed.

Lemma mb_urgent_put_spec k mb b v :
  kernel_ok k -> mb_ok k mb b -> is_Some (k_current k) -> mb_entry b < mb_size b ->
  exists k', rt_mb_urgent mb v k = Some (RT_EOK, k') /\
    handed (QMbRecv mb) (mb_st mb (mb_pushed_front b v) k) k'.
Proof.
  intros Hok Hmo Hc Hlt. pose proof Hmo as [Hb Hh Hs Hp He Ho Hi].
  destruct (wake_waiter_spec (QMbRecv mb) (mb_st mb (mb_pushed_front b v) k)) as (k' & E & H);
    [by apply mb_st_kernel_ok|done|done|].
  exists k'. split; [|done]. unfold rt_mb_urgent.
  rewrite bind_unfold, (assert_type_eq _ _ k (mb_parent b)) by (by apply mb_hdr || apply Hh).
  rewrite bind_unfold, (get_mb_eq mb b) by done.
  rewrite (proj2 (Z.eqb_neq (mb_entry b) (mb_size b))) by lia. cbv zeta.
  replace (u16 (mb_size b - 1)) with (mb_size b - 1) by (rewrite u16_small; lia).
  rewrite bind_unfold, mb_store_eq by (destruct (Z.ltb_spec 0 (mb_out_offset b)); lia).
  mb_fields. rewrite bind_unfold, put_mb_eq, u16_small by lia. exact E.
Qed.

Lemma mb_recv_get_spec k mb b :
  kernel_ok k -> mb_ok k mb b -> is_Some (k_current k) -> 0 < mb_entry b ->
  exists k', mb_recv_get mb k = Some ((RT_EOK, zget (mb_msg_pool b) (mb_out_offset b)), k') /\
    handed (QMbSend mb) (mb_st mb (mb_popped b) k) k'.
Proof.
  intros Hok Hmo Hc Hlt. pose proof Hmo as [Hb Hh Hs Hp He Ho Hi].
  destruct (wake_waiter_spec (QMbSend mb) (mb_st mb (mb_popped b) k)) as (k' & E & H);
    [by apply mb_st_kernel_ok|done|done|].
  exists k'. split; [|done]. unfold mb_recv_get.
  rewrite bind_unfold, (get_mb_eq mb b) by done.
  rewrite bind_unfold, mb_load_eq by lia. cbv zeta. rewrite slot_succ by lia.
  rewrite (proj2 (Z.ltb_lt 0 (mb_entry b))) by lia.
  rewrite bind_unfold, put_mb_eq, bind_unfold. unfold mb_popped in E. by rewrite E.
Qed.

(** The loops, with [timeout] and [delta] as they stand: on the object's list
    the caller waits ... *)
Lemma mb_send_loop_spec k mb b c th v timeout delta :
  kernel_ok k -> mb_ok k mb b -> can_block k c th -> timeout < RT_TICK_MAX / 2 ->
  exists r k' b', mb_send_loop mb v timeout delta k = Some (r, k') /\ kernel_ok k' /\
    mb_ok k' mb b' /\ is_Some (k_current k') /\
    if decide (mb_entry b < mb_size b) then
      r = Ret RT_EOK /\ mb_messages b' = mb_messages b ++ [v] /\ mb_size b' = mb_size b /\
      served (QMbRecv mb) k k'
    else if decide (timeout = 0) then r = Ret (- RT_EFULL) /\ b' = b
    else r = Wait (timeout, if 0 <? timeout then k_tick k else delta) /\ b' = b /\
         waits (QMbSend mb) c th (o_flag (mb_parent b)) k k'.
Proof.
  intros Hok Hmo Hcb Hto. pose proof Hmo as [Hb [Hy Hf] Hs Hp He Ho Hi].
  assert (is_Some (k_current k)) as Hc by (rewrite (cb_current _ _ _ Hcb); eauto).
  unfold mb_send_loop. rewrite bind_unfold, (get_mb_eq mb b) by done.
  destruct (decide (mb_entry b < mb_size b)) as [Hlt|Hge].
  - rewrite (proj2 (Z.eqb_neq (mb_entry b) (mb_size b))) by lia.
    destruct (mb_send_put_spec k mb b v Hok Hmo Hc Hlt) as (k' & E & H).
    destruct (mb_pushed_ok k mb b v Hmo Hlt) as [Hmo' Hm].
    exists (Ret RT_EOK), k', (mb_pushed b v). rewrite bind_unfold, E. split; [done|].
    split; [apply H|]. split; [apply (mb_ok_frame _ _ _ _ Hmo'), H|]. split; [apply H|].
    split; [done|]. split; [done|]. split; [done|].
    by apply (handed_served _ _ (mb_st mb (mb_pushed b v) k)); try apply Hcb.
  - rewrite (proj2 (Z.eqb_eq (mb_entry b) (mb_size b))) by lia.
    rewrite bind_unfold, (current_thread_eq k c) by apply Hcb.
    destruct (set_error_ok c th RT_EOK k Hok (cb_thread _ _ _ Hcb)) as [E0 Hok0].
    destruct (decide (timeout = 0)) as [->|Ht].
    + rewrite bind_unfold, E0. eexists _, _, b. split; [done|]. split; [done|].
      split; [by apply (mb_ok_frame k)|]. done.
    + rewrite (proj2 (Z.eqb_neq timeout 0)) by done.
      destruct (block_caller_since (QMbSend mb) c th (OMailBox mb) (mb_parent b) timeout delta k)
        as (k' & E & B); try done; [by apply mb_hdr|intros; by apply mb_hdr|].
      revert E. rewrite !bind_unfold, E0, !bind_unfold.
      rewrite (get_flag_eq _ _ (mb_parent b)) by (by apply mb_hdr). intros E.
      rewrite bind_unfold, E. eexists _, k', b. split; [done|]. split; [apply B|].
      split; [apply (mb_ok_frame _ _ _ _ Hmo), (of_mbs _ _ (bo_frame _ _ _ _ _ _ _ B))|].
      split; [apply B|]. split; [done|]. split; [done|].
      apply (blocked_waits _ _ _ _ _ _ _ B), Hcb.
Qed.

Lemma mb_recv_loop_spec k mb b c th timeout delta :
  kernel_ok k -> mb_ok k mb b -> can_block k c th -> timeout < RT_TICK_MAX / 2 ->
  exists r k' b', mb_recv_loop mb timeout delta k = Some (r, k') /\ kernel_ok k' /\
    mb_ok k' mb b' /\ is_Some (k_current k') /\
    match mb_messages b with
    | v :: ms => r = (Ret RT_EOK, Some v) /\ mb_messages b' = ms /\ mb_size b' = mb_size b /\
                 served (QMbSend mb) k k'
    | [] => b' = b /\
        if decide (timeout = 0) then r = (Ret (- RT_ETIMEOUT), None)
        else r = (Wait (timeout, if 0 <? timeout then k_tick k else delta), None) /\
             waits (QMbRecv mb) c th (o_flag (mb_parent b)) k k'
    end.
Proof.
  intros Hok Hmo Hcb Hto. pose proof Hmo as [Hb [Hy Hf] Hs Hp He Ho Hi].
  assert (is_Some (k_current k)) as Hc by (rewrite (cb_current _ _ _ Hcb); eauto).
  pose proof (mb_messages_length b ltac:(lia)) as Hlen.
  unfold mb_recv_loop. rewrite bind_unfold, (get_mb_eq mb b) by done.
  destruct (Z.eqb_spec (mb_entry b) 0) as [Hz|Hnz].
  - destruct (mb_messages b) as [|x ms]; [|simpl in Hlen; lia].
    rewrite bind_unfold, (current_thread_eq k c) by apply Hcb.
    destruct (set_error_ok c th RT_EOK k Hok (cb_thread _ _ _ Hcb)) as [E0 Hok0].
    destruct (decide (timeout = 0)) as [->|Ht].
    + rewrite bind_unfold, E0. change (0 =? 0) with true. cbv iota.
      destruct (set_error_ok c (set_th_error RT_EOK th) (- RT_ETIMEOUT) _ Hok0) as [E1 Hok1];
        [apply thread_st_lookup|].
      rewrite bind_unfold, E1.
      eexists _, _, b. split; [done|]. split; [done|]. split; [by apply (mb_ok_frame k)|]. done.
    + rewrite (proj2 (Z.eqb_neq timeout 0)) by done.
      destruct (block_caller_since (QMbRecv mb) c th (OMailBox mb) (mb_parent b) timeout delta k)
        as (k' & E & B); try done; [by apply mb_hdr|intros; by apply mb_hdr|].
      revert E. rewrite !bind_unfold, E0, !bind_unfold.
      rewrite (get_flag_eq _ _ (mb_parent b)) by (by apply mb_hdr). intros E.
      rewrite bind_unfold, E. eexists _, k', b. split; [done|]. split; [apply B|].
      split; [apply (mb_ok_frame _ _ _ _ Hmo), (of_mbs _ _ (bo_frame _ _ _ _ _ _ _ B))|].
      split; [apply B|]. split; [done|]. split; [done|].
      apply (blocked_waits _ _ _ _ _ _ _ B), Hcb.
  - destruct (mb_recv_get_spec k mb b Hok Hmo Hc ltac:(lia)) as (k' & E & H).
    destruct (mb_popped_ok k mb b Hmo ltac:(lia)) as [Hmo' Hm]. rewrite Hm.
    eexists _, k', (mb_popped b). rewrite bind_unfold, E. split; [done|].
    split; [apply H|]. split; [apply (mb_ok_frame _ _ _ _ Hmo'), H|]. split; [apply H|].
    split; [done|]. split; [done|]. split; [done|].
    by apply (handed_served _ _ (mb_st mb (mb_popped b) k)); try apply Hcb.
Qed.

(** The calls up to their loops. *)
Lemma mb_send_wait_eq k mb b v timeout :
  mb_ok k mb b -> RT_DEBUG_SCHEDULER_AVAILABLE (negb (timeout =? 0)) k = Some (tt, k) ->
  rt_mb_send_wait mb v timeout k =
    if (mb_entry b =? mb_size b) && (timeout =? 0) then Some (Ret (- RT_EFULL), k)
    else mb_send_loop mb v timeout 0 k.
Proof.
  intros [Hb [Hy _] _ _ _ _ _] Hcb. unfold rt_mb_send_wait.
  rewrite bind_unfold, (assert_type_eq _ _ k (mb_parent b)) by (done || by apply mb_hdr).
  rewrite bind_unfold, Hcb.
  rewrite bind_unfold, (get_mb_eq mb b) by done. by destruct (_ && _).
Qed.

Lemma mb_recv_eq k mb b timeout :
  mb_ok k mb b -> RT_DEBUG_SCHEDULER_AVAILABLE (negb (timeout =? 0)) k = Some (tt, k) ->
  rt_mb_recv mb timeout k =
    if (mb_entry b =? 0) && (timeout =? 0) then Some ((Ret (- RT_ETIMEOUT), None), k)
    else mb_recv_loop mb timeout 0 k.
Proof.
  intros [Hb [Hy _] _ _ _ _ _] Hcb. unfold rt_mb_recv.
  rewrite bind_unfold, (assert_type_eq _ _ k (mb_parent b)) by (done || by apply mb_hdr).
  rewrite bind_unfold, Hcb.
  rewrite bind_unfold, (get_mb_eq mb b) by done. by destruct (_ && _).
Qed.

(** [rt_mb_send_wait]. Into a mailbox with room the value goes behind the
    messages that are there, and the first thread waiting for a message, if
    any, is woken. If the mailbox is full, a caller that does not want to wait
    is refused with [-RT_EFULL] and nothing changes; any other caller is
    suspended among the waiting senders and its timer armed. The mailbox and
    the kernel invariant hold afterwards. *)
Theorem mb_send_correct k mb b c th value timeout :
  kernel_ok k -> mb_ok k mb b -> can_block k c th -> timeout < RT_TICK_MAX / 2 ->
  exists r k' b', rt_mb_send_wait mb value timeout k = Some (r, k') /\ kernel_ok k' /\
    mb_ok k' mb b' /\
    if decide (mb_entry b < mb_size b) then
      r = Ret RT_EOK /\ mb_messages b' = mb_messages b ++ [value] /\ served (QMbRecv mb) k k'
    else if decide (timeout = 0) then r = Ret (- RT_EFULL) /\ k' = k
    else r = Wait (timeout, if 0 <? timeout then k_tick k else 0) /\ b' = b /\
         waits (QMbSend mb) c th (o_flag (mb_parent b)) k k'.
Proof.
  intros Hok Hmo Hcb Hto. pose proof (mo_entry _ _ _ Hmo) as He.
  rewrite (mb_send_wait_eq k mb b) by (done || by apply (scheduler_available k c th)).
  destruct (mb_send_loop_spec k mb b c th value timeout 0 Hok Hmo Hcb Hto)
    as (r & k' & b' & E & Hok' & Hmo' & _ & H).
  destruct (decide (mb_entry b < mb_size b)).
  - rewrite (proj2 (Z.eqb_neq (mb_entry b) (mb_size b))) by lia.
    exists r, k', b'. split; [exact E|]. by destruct H as (? & ? & _ & ?).
  - rewrite (proj2 (Z.eqb_eq (mb_entry b) (mb_size b))) by lia.
    destruct (decide (timeout = 0)) as [->|Ht].
    + by exists (Ret (- RT_EFULL)), k, b.
    + rewrite (proj2 (Z.eqb_neq timeout 0)) by done. by exists r, k', b'.
Qed.

(** [rt_mb_recv]. The caller gets the oldest message, and the first thread
    waiting for room, if any, is woken. From an empty mailbox a caller that
    does not want to wait is told [-RT_ETIMEOUT] and nothing changes; any
    other caller is suspended among the waiting receivers and its timer
    armed. The mailbox and the kernel invariant hold afterwards. *)
Theorem mb_recv_correct k mb b c th timeout :
  kernel_ok k -> mb_ok k mb b -> can_block k c th -> timeout < RT_TICK_MAX / 2 ->
  exists r k' b', rt_mb_recv mb timeout k = Some (r, k') /\ kernel_ok k' /\ mb_ok k' mb b' /\
    match mb_messages b with
    | v :: ms => r = (Ret RT_EOK, Some v) /\ mb_messages b' = ms /\ served (QMbSend mb) k k'
    | [] => b' = b /\
        if decide (timeout = 0) then r = (Ret (- RT_ETIMEOUT), None) /\ k' = k
        else r = (Wait (timeout, if 0 <? timeout then k_tick k else 0), None) /\
             waits (QMbRecv mb) c th (o_flag (mb_parent b)) k k'
    end.
Proof.
  intros Hok Hmo Hcb Hto. pose proof (mo_entry _ _ _ Hmo) as He.
  pose proof (mb_messages_length b ltac:(lia)) as Hlen.
  rewrite (mb_recv_eq k mb b) by (done || by apply (scheduler_available k c th)).
  destruct (mb_recv_loop_spec k mb b c th timeout 0 Hok Hmo Hcb Hto)
    as (r & k' & b' & E & Hok' & Hmo' & _ & H).
  destruct (mb_messages b) as [|v ms]; simpl in Hlen.
  - rewrite (proj2 (Z.eqb_eq (mb_entry b) 0)) by lia. destruct H as [-> H].
    destruct (decide (timeout = 0)) as [->|Ht].
    + by exists (Ret (- RT_ETIMEOUT), None), k, b.
    + rewrite (proj2 (Z.eqb_neq timeout 0)) by done. by exists r, k', b.
  - rewrite (proj2 (Z.eqb_neq (mb_entry b) 0)) by lia.
    exists r, k', b'. split; [exact E|]. by destruct H as (? & ? & _ & ?).
Qed.

(** a receiver that was woken tries again. If its timer expired or the
    mailbox was reset, it returns the error it was woken with. Otherwise it
    takes the oldest message; if another thread was faster, it gives up when
    its time is over and else waits again, at most until the same tick as
    before: being woken in vain never prolongs a timed wait. *)
Theorem mb_recv_resume_correct k mb b c th timeout since :
  kernel_ok k -> mb_ok k mb b -> can_block k c th -> timeout < RT_TICK_MAX / 2 ->
  u32 (k_tick k - since) < 2 ^ 31 ->
  let left := time_left timeout since (k_tick k) in
  (0 < left -> u32 (k_tick k + left) = u32 (since + timeout)) /\
  exists r k' b', rt_mb_recv_resume c mb (timeout, since) k = Some (r, k') /\ kernel_ok k' /\
    mb_ok k' mb b' /\
    if decide (th_error th = RT_EOK) then
      match mb_messages b with
      | v :: ms => r = (Ret RT_EOK, Some v) /\ mb_messages b' = ms /\ served (QMbSend mb) k k'
      | [] => b' = b /\
          if decide (left = 0) then r = (Ret (- RT_ETIMEOUT), None)
          else r = (Wait (left, if 0 <? left then k_tick k else since), None) /\
               waits (QMbRecv mb) c th (o_flag (mb_parent b)) k k'
      end
    else r = (Ret (th_error th), None) /\ k' = k.
Proof.
  intros Hok Hmo Hcb Hto He left.
  assert (timeout < 2 ^ 31) as Hto' by (change (RT_TICK_MAX / 2) with 2147483647 in Hto; lia).
  split.
  { unfold left, time_left. destruct (Z.ltb_spec 0 timeout); [|lia]. unfold u32 in *. intros. dlia. }
  unfold rt_mb_recv_resume. rewrite bind_unfold, (get_thread_eq c k th) by apply Hcb.
  destruct (decide (th_error th = RT_EOK)) as [->|Hne].
  - change (negb (RT_EOK =? RT_EOK)) with false. cbv iota.
    rewrite bind_unfold. simpl fst. simpl snd. rewrite remaining_timeout_eq by done. fold left.
    destruct (mb_recv_loop_spec k mb b c th left (if 0 <? timeout then u32 (k_tick k - since) else since)
                Hok Hmo Hcb) as (r & k' & b' & E & Hok' & Hmo' & _ & H).
    { unfold left, time_left. pose proof (Z.mod_pos_bound (k_tick k - since) (2 ^ 32) ltac:(lia)).
      unfold u32. destruct (Z.ltb_spec 0 timeout); lia. }
    exists r, k', b'. split; [exact E|]. split; [done|]. split; [done|].
    destruct (mb_messages b) as [|v ms]; [|by destruct H as (? & ? & _ & ?)].
    destruct H as [-> H]. split; [done|]. destruct (decide (left = 0)); [done|].
    destruct H as [-> Hw]. split; [|done]. destruct (Z.ltb_spec 0 left) as [|Hneg]; [done|].
    destruct (Z.ltb_spec 0 timeout) as [Hp|]; [|done]. unfold left, time_left in *.
    rewrite (proj2 (Z.ltb_lt 0 timeout)) in * by lia. lia.
  - rewrite (proj2 (Z.eqb_neq (th_error th) RT_EOK)) by done.
    by exists (Ret (th_error th), None), k, b.
Qed.

(** ** The mailbox as a bounded queue *)

(** The three calls that do not wait. *)
Definition mb_try_send (mb : nat) (v : Z) : M Z := r ← rt_mb_send mb v; returned r.
Definition mb_try_recv (mb : nat) (_ : unit) : M (Z * option Z) :=
  '(r, v) ← rt_mb_recv mb 0; e ← returned r; mret (e, v).

(** Mailbox [mb] has room for [cap] messages and holds [ms]; some thread
    runs. *)
Definition mb_repr (mb cap : nat) (ms : list Z) (k : kstate) : Prop :=
  kernel_ok k /\ is_Some (k_current k) /\
  exists b, mb_ok k mb b /\ mb_messages b = ms /\ Z.to_nat (mb_size b) = cap.

Lemma mb_repr_handed mb cap q k b k' :
  mb_ok (mb_st mb b k) mb b -> handed q (mb_st mb b k) k' -> Z.to_nat (mb_size b) = cap ->
  mb_repr mb cap (mb_messages b) k'.
Proof.
  intros Hb H Hc. split; [apply H|]. split; [apply H|]. exists b. split; [|done].
  by apply (mb_ok_frame _ _ _ _ Hb), H.
Qed.

Lemma mb_repr_room mb cap b ms k :
  mb_ok k mb b -> mb_messages b = ms -> Z.to_nat (mb_size b) = cap ->
  (length ms <? cap)%nat = negb (mb_entry b =? mb_size b).
Proof.
  intros Hmo <- <-. pose proof (mo_entry _ _ _ Hmo) as He.
  rewrite mb_messages_length by lia.
  destruct (Nat.ltb_spec (Z.to_nat (mb_entry b)) (Z.to_nat (mb_size b)));
    destruct (Z.eqb_spec (mb_entry b) (mb_size b)); done || lia.
Qed.

#[export] Instance mailbox_queue mb cap :
  BoundedQueue (mb_try_send mb) (rt_mb_urgent mb) (mb_try_recv mb) (mb_repr mb cap) cap
    (fun _ => True) (fun _ => True) (fun _ v out => out = v).
Proof.
  assert (forall k b, mb_ok k mb b -> assert_type (OMailBox mb) RT_Object_Class_MailBox k = Some (tt, k))
    as Hty.
  { intros k b Hmo. apply (assert_type_eq _ _ k (mb_parent b)); [apply mb_hdr|]; apply Hmo. }
  constructor; intros ms m k (Hok & Hc & b & Hmo & Hms & Hcap) _;
    pose proof (mo_entry _ _ _ Hmo) as He.
  - rewrite (mb_repr_room mb cap b ms k) by done. unfold mb_try_send, rt_mb_send.
    rewrite bind_unfold, (mb_send_wait_eq k mb b) by done. rewrite andb_true_r.
    destruct (Z.eqb_spec (mb_entry b) (mb_size b)) as [Heq|Hne]; simpl negb; cbv iota.
    + exists k. split; [done|]. split; [done|]. split; [done|]. by exists b.
    + destruct (mb_send_put_spec k mb b m Hok Hmo Hc ltac:(lia)) as (k' & E & H).
      destruct (mb_pushed_ok k mb b m Hmo ltac:(lia)) as [Hmo' Hm].
      exists k'. split.
      * unfold mb_send_loop. rewrite bind_unfold, (get_mb_eq mb b) by apply Hmo.
        rewrite (proj2 (Z.eqb_neq _ _)) by done. by rewrite bind_unfold, E.
      * rewrite <- Hms, <- Hm. by apply (mb_repr_handed _ _ _ _ _ _ Hmo' H).
  - rewrite (mb_repr_room mb cap b ms k) by done.
    destruct (Z.eqb_spec (mb_entry b) (mb_size b)) as [Heq|Hne]; simpl negb; cbv iota.
    + exists k. split.
      * unfold rt_mb_urgent. rewrite bind_unfold, (Hty k b Hmo), bind_unfold, (get_mb_eq mb b) by apply Hmo.
        by rewrite (proj2 (Z.eqb_eq _ _)).
      * split; [done|]. split; [done|]. by exists b.
    + destruct (mb_urgent_put_spec k mb b m Hok Hmo Hc ltac:(lia)) as (k' & E & H).
      destruct (mb_pushed_front_ok k mb b m Hmo ltac:(lia)) as [Hmo' Hm].
      exists k'. split; [done|]. rewrite <- Hms, <- Hm. by apply (mb_repr_handed _ _ _ _ _ _ Hmo' H).
  - pose proof (mb_messages_length b ltac:(lia)) as Hlen. rewrite Hms in Hlen.
    unfold mb_try_recv. rewrite bind_unfold, (mb_recv_eq k mb b) by done. rewrite andb_true_r.
    destruct ms as [|x ms]; simpl in Hlen.
    + rewrite (proj2 (Z.eqb_eq (mb_entry b) 0)) by lia.
      exists k. split; [done|]. split; [done|]. split; [done|]. by exists b.
    + rewrite (proj2 (Z.eqb_neq (mb_entry b) 0)) by lia.
      destruct (mb_recv_get_spec k mb b Hok Hmo Hc ltac:(lia)) as (k' & E & H).
      destruct (mb_popped_ok k mb b Hmo ltac:(lia)) as [Hmo' Hm]. rewrite Hms in Hm.
      injection Hm as -> ->. eexists _, k'. split; [|split; [done|]].
      * unfold mb_recv_loop. rewrite bind_unfold, (get_mb_eq mb b) by apply Hmo.
        rewrite (proj2 (Z.eqb_neq (mb_entry b) 0)) by lia. by rewrite bind_unfold, E.
      * by apply (mb_repr_handed _ _ _ _ _ _ Hmo' H).
Qed.

(** C14: any sequence of calls of [rt_mb_send], [rt_mb_urgent] and [rt_mb_recv]
    without waiting returns what a first-in first-out queue of [cap] words
    returns, urgent words going to the front; it leaves what the queue would
    hold, and the kernel invariant, whichever threads the calls wake. *)
Theorem mailbox_refines_fifo mb cap ops ms k :
  mb_repr mb cap ms k ->
  exists rs k', bq_run (mb_try_send mb) (rt_mb_urgent mb) (mb_try_recv mb) ops k = Some (rs, k') /\
    mb_repr mb cap (bq_steps cap ms ops).1 k' /\
    rs = map (fun r => (r.1, snd <$> r.2)) (bq_steps cap ms ops).2.
Proof.
  intros Hr. destruct (bq_refines (mb_try_send mb) (rt_mb_urgent mb) (mb_try_recv mb)
    (mb_repr mb cap) cap (fun _ => True) (fun _ => True) (fun _ v out => out = v) ops ms k Hr)
    as (rs & k' & E & Hr' & Ha).
  { apply Forall_forall. by intros []. }
  exists rs, k'. split; [done|]. split; [done|]. clear - Ha.
  induction Ha as [|[r m] [r' v] l l' [Hr Hm] _ IH]; [done|]. simpl in *. rewrite IH, Hr.
  destruct m as [[? ?]|], v as [?|]; try done. by subst.
Qed.

(** ** A concrete mailbox *)

(** Mailbox 0 has two slots and holds the word 7. *)
Definition mb_demo : kstate :=
  after (rt_mb_init 0 [109] [0; 0] 2 RT_IPC_FLAG_FIFO;; rt_mb_send 0 7) demo_state.
(** The same, empty, after the main thread has waited since tick 1. *)
Definition mb_demo_empty : kstate := after (rt_mb_recv 0 0;; rt_tick_set 3) mb_demo.

Definition mb_at (mb : nat) (k : kstate) : rt_mailbox := default raw_mailbox (k_mbs k !! mb).

(** A concrete mailbox is in order. *)
Ltac concrete_mb :=
  constructor; [vm_compute; reflexivity
    |split; [vm_compute; reflexivity|left; vm_compute; reflexivity]
    |vm_compute; split; congruence|vm_compute; congruence|vm_compute; split; congruence
    |vm_compute; split; congruence|vm_compute; reflexivity].

Lemma mb_send_correct_witness :
  exists r k' b', rt_mb_send_wait 0 8 5 mb_demo = Some (r, k') /\ kernel_ok k' /\ mb_ok k' 0 b' /\
    r = Ret RT_EOK /\ mb_messages b' = [7; 8].
Proof.
  destruct (mb_send_correct mb_demo 0 (mb_at 0 mb_demo) 0 (thread_at 0 mb_demo) 8 5)
    as (r & k' & b' & E & Hok & Hmo & H).
  - apply kernel_check_sound. vm_compute. reflexivity.
  - concrete_mb.
  - constructor; vm_compute; reflexivity.
  - vm_compute. reflexivity.
  - exists r, k', b'. split; [exact E|]. split; [exact Hok|]. split; [exact Hmo|].
    destruct (decide _) as [_|Hn]; [|exfalso; apply Hn; vm_compute; reflexivity].
    destruct H as (-> & Hm & _). split; [reflexivity|]. rewrite Hm. vm_compute. reflexivity.
Defined.

Lemma mb_recv_correct_witness :
  exists r k' b', rt_mb_recv 0 0 mb_demo = Some (r, k') /\ kernel_ok k' /\ mb_ok k' 0 b' /\
    r = (Ret RT_EOK, Some 7).
Proof.
  destruct (mb_recv_correct mb_demo 0 (mb_at 0 mb_demo) 0 (thread_at 0 mb_demo) 0)
    as (r & k' & b' & E & Hok & Hmo & H).
  - apply kernel_check_sound. vm_compute. reflexivity.
  - concrete_mb.
  - constructor; vm_compute; reflexivity.
  - vm_compute. reflexivity.
  - exists r, k', b'. split; [exact E|]. split; [exact Hok|]. split; [exact Hmo|].
    replace (mb_messages (mb_at 0 mb_demo)) with [7] in H by (vm_compute; reflexivity).
    cbv iota in H. destruct H as (-> & _). reflexivity.
Defined.

(** Woken at tick 3 for nothing, the main thread waits on for the three ticks
    that are left. *)
Lemma mb_recv_resume_correct_witness :
  exists r k' b', rt_mb_recv_resume 0 0 (5, 1) mb_demo_empty = Some (r, k') /\ kernel_ok k' /\
    mb_ok k' 0 b' /\ r = (Wait (3, 3), None).
Proof.
  destruct (mb_recv_resume_correct mb_demo_empty 0 (mb_at 0 mb_demo_empty) 0
              (thread_at 0 mb_demo_empty) 5 1) as (_ & r & k' & b' & E & Hok & Hmo & H).
  - apply kernel_check_sound. vm_compute. reflexivity.
  - concrete_mb.
  - constructor; vm_compute; reflexivity.
  - vm_compute. reflexivity.
  - vm_compute. reflexivity.
  - exists r, k', b'. split; [exact E|]. split; [exact Hok|]. split; [exact Hmo|].
    destruct (decide _) as [_|Hn]; [|exfalso; apply Hn; vm_compute; reflexivity].
    replace (mb_messages (mb_at 0 mb_demo_empty)) with (@nil Z) in H by (vm_compute; reflexivity).
    replace (time_left 5 1 (k_tick mb_demo_empty)) with 3 in H by (vm_compute; reflexivity).
    destruct (decide (3 = 0)) as [?|_]; [discriminate|]. destruct H as (_ & -> & _).
    vm_compute. reflexivity.
Defined.

Lemma mailbox_refines_fifo_witness :
  exists rs k', bq_run (mb_try_send 0) (rt_mb_urgent 0) (mb_try_recv 0)
      [BqUrgent 9; BqSend 1; BqRecv tt; BqSend 2; BqRecv tt; BqRecv tt; BqRecv tt] mb_demo =
        Some (rs, k') /\
    rs = [(RT_EOK, None); (- RT_EFULL, None); (RT_EOK, Some 9); (RT_EOK, None);
          (RT_EOK, Some 7); (RT_EOK, Some 2); (- RT_ETIMEOUT, None)].
Proof.
  destruct (mailbox_refines_fifo 0 2
      [BqUrgent 9; BqSend 1; BqRecv tt; BqSend 2; BqRecv tt; BqRecv tt; BqRecv tt] [7] mb_demo)
    as (rs & k' & E & _ & ->).
  - split; [apply kernel_check_sound; vm_compute; reflexivity|]. split; [vm_compute; eauto|].
    exists (mb_at 0 mb_demo). split; [concrete_mb|]. split; vm_compute; reflexivity.
  - eexists _, k'. split; [exact E|]. vm_compute. reflexivity.
Defined.
