(* ===== verification/IpcInit.v ===== *)
(** * Initialisation of communication objects

    The [rt_*_init] of semaphores, mutexes, events and mailboxes give objects
    that are in order, with nobody waiting; that of message queues is in
    IpcMq.v. *)
From S2P Require Import Prelude Kservice Kernel Sched Object Timer Thread KernelInv Boot Ipc ObjectSpec.
From S2P Require Import IpcSem IpcMutex IpcEvent IpcQueue IpcMailbox.

(** An object that [rt_*_init] can be called for: it is not registered yet, and no
    thread is linked in the memory of its list heads (which need not be set up). *)
Record fresh_object (k : kstate) (o : oid) (c : Z) (qs : list waitq) : Prop := FreshObject {
  fo_kernel : kernel_ok k;
  fo_lock : 0 <= k_lock_nest k < 32767;
  fo_new : o ∉ qget (k_objlist k) c;
  fo_queues : Forall (fun q => qget (k_tq k) q = []) qs
}.

(** The list head that [_ipc_object_init] sets up, empty, whatever was in the memory. *)
Definition list_ready (q : waitq) (k : kstate) : Prop := k_tq k !! q = Some [].

Lemma ipc_object_init_ready q k k' : _ipc_object_init q k = Some (RT_EOK, k') -> list_ready q k'.
Proof. unfold list_ready, _ipc_object_init, modify_tq. mrun. intros [= <-]. apply lookup_insert_eq. Qed.

(** The two first steps of [rt_sem_init] and [rt_mutex_init]. *)
Lemma object_list_spec o c name q k :
  fresh_object k o c [q] -> is_Some (rt_object_get_information c) -> is_ipc o -> is_wait q ->
  exists k1 k' h0, rt_object_init o c name k = Some (tt, k1) /\ _ipc_object_init q k1 = Some (RT_EOK, k') /\
    kernel_ok k' /\ obj_hdr o k' = Some (init_hdr c name h0) /\ qget (k_tq k') q = [].
Proof.
  intros [Hok Hl Ho Hq] Hi Hipc Hw. apply (proj1 (Forall_singleton _ _)) in Hq.
  destruct (object_init_spec o c name k Hok Hi Ho Hl) as (k0 & [Hok0 F _] & E).
  set (h := init_hdr c name (obj_hdr o k0)). set (k1 := init_st o c name k0) in *.
  assert (k_tq k1 = k_tq k0) as Et by (unfold k1, init_st; by destruct o).
  exists k1, (set_k_tq (<[q := []]> (k_tq k1)) k1), (obj_hdr o k0). split; [done|]. split; [done|]. split.
  - apply init_list_ok; [by apply set_hdr_kernel_ok|]. rewrite Et, (sf_wait _ _ F); [exact Hq|by destruct q].
  - split; [|by simpl; rewrite qget_insert, decide_True]. transitivity (obj_hdr o (set_obj_hdr o h k0)); [by destruct o|]. by rewrite obj_hdr_set, decide_True.
Qed.

(** A semaphore with [value] units. *)
Lemma sem_init_spec k sem name value flag :
  fresh_object k (OSem sem) RT_Object_Class_Semaphore [QSem sem] -> 0 <= value <= RT_SEM_VALUE_MAX -> flag_ok flag ->
  exists k' s, rt_sem_init sem name value flag k = Some (RT_EOK, k') /\ kernel_ok k' /\ sem_ok k' sem s /\
    sem_value s = value /\ o_flag (sem_parent s) = flag /\ list_ready (QSem sem) k'.
Proof.
  unfold RT_SEM_VALUE_MAX. intros Hf Hv Hflag.
  destruct (object_list_spec (OSem sem) RT_Object_Class_Semaphore name (QSem sem) k Hf) as (k1 & k2 & h0 & E1 & E2 & Hok & Hh & Hq);
    [vm_compute; eauto|done|done|].
  change (sem_parent <$> k_sems k2 !! sem = Some (init_hdr RT_Object_Class_Semaphore name h0)) in Hh.
  destruct (k_sems k2 !! sem) as [s0|] eqn:Es; [|done]. injection Hh as Hh.
  set (s1 := set_sem_value value s0). set (h := set_o_flag flag (sem_parent s0)). set (s2 := RtSemaphore h value).
  exists (sem_st sem s2 (sem_st sem s1 k2)), s2. split; [|split; [by do 2 apply sem_st_kernel_ok|split; [|split; [done|split; [done|exact (ipc_object_init_ready _ _ _ E2)]]]]].
  - unfold rt_sem_init, rt_assert. rewrite (proj2 (Z.ltb_lt _ _)) by lia.
    assert (valid_flag flag = true) as -> by (by destruct Hflag as [-> | ->]).
    rewrite bind_unfold. cbv beta iota. rewrite bind_unfold. cbv beta iota.
    rewrite (bind_ok _ _ _ _ _ E1), (bind_ok _ _ _ _ _ E2). rewrite u16_small by lia.
    assert (upd_sem sem (set_sem_value value) k2 = Some (tt, sem_st sem s1 k2)) as E3.
    { unfold upd_sem. by rewrite (bind_ok _ _ _ _ _ (get_sem_eq sem s0 k2 Es)). }
    rewrite (bind_ok _ _ _ _ _ E3). erewrite bind_ok; [reflexivity|].
    erewrite set_flag_eq by (simpl; by rewrite lookup_insert_eq). do 2 f_equal. unfold s2. simpl. rewrite lookup_insert_eq. done.
  - constructor; [apply lookup_insert_eq| |done|done].
    simpl. unfold h. rewrite Hh. split; [reflexivity|done].
Qed.

(** A mutex that nobody has. *)
Lemma mutex_init_spec k mutex name flag :
  fresh_object k (OMutex mutex) RT_Object_Class_Mutex [QMutex mutex] ->
  exists k' m, rt_mutex_init mutex name flag k = Some (RT_EOK, k') /\ kernel_ok k' /\ mutex_ok k' mutex m /\
    mx_owner m = None /\ list_ready (QMutex mutex) k'.
Proof.
  intros Hf.
  destruct (object_list_spec (OMutex mutex) RT_Object_Class_Mutex name (QMutex mutex) k Hf) as (k1 & k2 & h0 & E1 & E2 & Hok & Hh & Hq);
    [vm_compute; eauto|done|done|].
  change (mx_parent <$> k_mutexes k2 !! mutex = Some (init_hdr RT_Object_Class_Mutex name h0)) in Hh.
  destruct (k_mutexes k2 !! mutex) as [m0|] eqn:Em; [|done]. injection Hh as Hh.
  assert (forall f m k, k_mutexes k !! mutex = Some m -> upd_mutex mutex f k = Some (tt, mutex_st mutex (f m) k)) as Hupd.
  { intros f m k3 Hm. unfold upd_mutex. by rewrite (bind_ok _ _ _ _ _ (get_mutex_eq mutex m k3 Hm)). }
  set (m1 := set_mx_value 1 m0). set (m2 := set_mx_owner None 255 m1). set (m3 := set_mx_hold 0 m2).
  set (k3 := mutex_st mutex m3 (mutex_st mutex m2 (mutex_st mutex m1 k2))).
  set (m4 := RtMutex (set_o_flag RT_IPC_FLAG_PRIO (mx_parent m0)) 1 255 0 None).
  assert (mutex_fields mutex k2 = Some (tt, mutex_st mutex m4 k3)) as E3.
  { unfold mutex_fields. rewrite (bind_ok _ _ _ _ _ (Hupd _ m0 k2 Em)).
    rewrite (bind_ok _ _ _ _ _ (Hupd _ m1 _ (lookup_insert_eq _ _ _))).
    rewrite (bind_ok _ _ _ _ _ (Hupd _ m2 _ (lookup_insert_eq _ _ _))). fold m2 m3 k3.
    erewrite set_flag_eq by (simpl; by rewrite lookup_insert_eq). unfold set_obj_hdr. simpl. by rewrite lookup_insert_eq. }
  exists (mutex_st mutex m4 k3), m4. split; [|split; [|split; [|split; [done|exact (ipc_object_init_ready _ _ _ E2)]]]].
  - unfold rt_mutex_init. rewrite (bind_ok _ _ _ _ _ E1), (bind_ok _ _ _ _ _ E2). by rewrite (bind_ok _ _ _ _ _ E3).
  - by do 4 apply mutex_st_ok.
  - constructor; [apply lookup_insert_eq| |done|done]. simpl. by rewrite Hh.
Qed.

(** An event none of whose bits is set. *)
Lemma event_init_spec k event name flag :
  fresh_object k (OEvent event) RT_Object_Class_Event [QEvent event] -> flag_ok flag ->
  exists k' e, rt_event_init event name flag k = Some (RT_EOK, k') /\ kernel_ok k' /\ event_ok k' event e /\
    ev_set e = 0 /\ o_flag (ev_parent e) = flag /\ list_ready (QEvent event) k'.
Proof.
  intros [Hok Hl Hnew Hq] Hflag. apply (proj1 (Forall_singleton _ _)) in Hq.
  destruct (ipc_init_spec (OEvent event) RT_Object_Class_Event name flag (QEvent event) k)
    as (k1 & k2 & k3 & h0 & E1 & E2 & E3 & Hok3 & Hh & Hw & _); try done.
  change (ev_parent <$> k_events k3 !! event = Some (set_o_flag flag (init_hdr RT_Object_Class_Event name h0))) in Hh.
  destruct (k_events k3 !! event) as [e|] eqn:Ee; [|done]. injection Hh as Hh.
  exists (event_st event (RtEvent (ev_parent e) 0) k3), (RtEvent (ev_parent e) 0).
  split; [|split; [by apply event_st_ok|split; [|split; [done|split; [by rewrite Hh|exact (ipc_object_init_ready _ _ _ E3)]]]]].
  - unfold rt_event_init. rewrite bind_assert by (by destruct Hflag as [-> | ->]).
    rewrite (bind_ok _ _ _ _ _ E1), (bind_ok _ _ _ _ _ E2), (bind_ok _ _ _ _ _ E3).
    by rewrite (bind_ok _ _ _ _ _ (set_event_set_eq event e 0 k3 Ee)).
  - constructor; [apply lookup_insert_eq|simpl; by rewrite Hh|].
    intros t Ht. change (t ∈ qget (k_tq k3) (QEvent event)) in Ht. rewrite Hw, Hq in Ht by done. by apply elem_of_nil in Ht.
Qed.

(** A mailbox without messages. *)
Lemma mb_init_spec k mb name pool size flag :
  fresh_object k (OMailBox mb) RT_Object_Class_MailBox [QMbRecv mb; QMbSend mb] -> flag_ok flag ->
  0 < size <= 65535 -> size <= zlen pool ->
  exists k' b, rt_mb_init mb name pool size flag k = Some (RT_EOK, k') /\ kernel_ok k' /\ mb_ok k' mb b /\
    mb_messages b = [] /\ mb_size b = size /\ o_flag (mb_parent b) = flag /\
    list_ready (QMbRecv mb) k' /\ list_ready (QMbSend mb) k'.
Proof.
  intros [Hok Hl Hnew Hq] Hflag Hs Hp. apply Forall_cons_1 in Hq as [Hq1 Hq2%(proj1 (Forall_singleton _ _))].
  destruct (ipc_init_spec (OMailBox mb) RT_Object_Class_MailBox name flag (QMbRecv mb) k)
    as (k1 & k2 & k3 & h0 & E1 & E2 & E3 & Hok3 & Hh & Hw & _); try done.
  change (mb_parent <$> k_mbs k3 !! mb = Some (set_o_flag flag (init_hdr RT_Object_Class_MailBox name h0))) in Hh.
  destruct (k_mbs k3 !! mb) as [b|] eqn:Eb; [|done]. injection Hh as Hh.
  assert (forall f b k, k_mbs k !! mb = Some b -> upd_mb mb f k = Some (tt, mb_st mb (f b) k)) as Hupd.
  { intros f b' k' Hb. unfold upd_mb. by rewrite (bind_ok _ _ _ _ _ (get_mb_eq mb b' k' Hb)). }
  set (b1 := set_mb_pool pool size b). set (b2 := set_mb_offsets 0 0 0 b1).
  set (k4 := mb_st mb b2 (mb_st mb b1 k3)).
  assert (kernel_ok k4) as Hok4 by by do 2 apply mb_st_kernel_ok.
  exists (set_k_tq (<[QMbSend mb := []]> (k_tq k4)) k4), b2. split; [|split; [|split; [|split; [done|split; [done|split; [by change (o_flag (mb_parent b) = flag); rewrite Hh|split]]]]]].
  - unfold rt_mb_init. rewrite bind_assert by (by destruct Hflag as [-> | ->]).
    rewrite (bind_ok _ _ _ _ _ E1), (bind_ok _ _ _ _ _ E2), (bind_ok _ _ _ _ _ E3), u16_small by lia.
    rewrite (bind_ok _ _ _ _ _ (Hupd _ b k3 Eb)). by rewrite (bind_ok _ _ _ _ _ (Hupd _ b1 _ (lookup_insert_eq _ _ _))).
  - apply init_list_ok; [done|]. change (qget (k_tq k3) (QMbSend mb) = []). by rewrite Hw.
  - constructor; simpl; [apply lookup_insert_eq|by rewrite Hh|lia|lia|lia|lia|]. unfold slot. zcases; lia.
  - unfold list_ready. simpl. rewrite lookup_insert_ne by done. exact (ipc_object_init_ready _ _ _ E3).
  - apply lookup_insert_eq.
Qed.

(** C40: [rt_sem_init], [rt_mutex_init], [rt_event_init] and [rt_mb_init] of a new
    object, of any name, succeed, keep the kernel invariant and give an object that
    is in order: a semaphore with the units asked for, a mutex without an owner,
    an event without bits, a mailbox without messages, with the flag that was asked for
    (a mutex's is always RT_IPC_FLAG_PRIO); and each of
    the object's list heads, two of a mailbox, has been set up and is empty, so that nobody waits for any of them. *)
Theorem ipc_init_correct k name flag :
  flag_ok flag ->
  (forall sem value, fresh_object k (OSem sem) RT_Object_Class_Semaphore [QSem sem] -> 0 <= value <= RT_SEM_VALUE_MAX ->
     exists k' s, rt_sem_init sem name value flag k = Some (RT_EOK, k') /\ kernel_ok k' /\ sem_ok k' sem s /\
       sem_value s = value /\ o_flag (sem_parent s) = flag /\ list_ready (QSem sem) k') /\
  (forall mutex, fresh_object k (OMutex mutex) RT_Object_Class_Mutex [QMutex mutex] ->
     exists k' m, rt_mutex_init mutex name flag k = Some (RT_EOK, k') /\ kernel_ok k' /\ mutex_ok k' mutex m /\
       mx_owner m = None /\ list_ready (QMutex mutex) k') /\
  (forall event, fresh_object k (OEvent event) RT_Object_Class_Event [QEvent event] ->
     exists k' e, rt_event_init event name flag k = Some (RT_EOK, k') /\ kernel_ok k' /\ event_ok k' event e /\
       ev_set e = 0 /\ o_flag (ev_parent e) = flag /\ list_ready (QEvent event) k') /\
  (forall mb pool size, fresh_object k (OMailBox mb) RT_Object_Class_MailBox [QMbRecv mb; QMbSend mb] ->
     0 < size <= 65535 -> size <= zlen pool ->
     exists k' b, rt_mb_init mb name pool size flag k = Some (RT_EOK, k') /\ kernel_ok k' /\ mb_ok k' mb b /\
       mb_messages b = [] /\ mb_size b = size /\ o_flag (mb_parent b) = flag /\
       list_ready (QMbRecv mb) k' /\ list_ready (QMbSend mb) k').
Proof.
  intros Hflag. split; [|split; [|split]].
  - intros sem value Hf Hv. by apply sem_init_spec.
  - intros mutex Hf. by apply mutex_init_spec.
  - intros event Hf. by apply event_init_spec.
  - intros mb pool size Hf Hs Hp. by apply mb_init_spec.
Qed.

(** Objects that are not there yet, in the demonstration state. *)
Lemma demo_fresh :
  fresh_object demo_state (OSem 0) RT_Object_Class_Semaphore [QSem 0] /\
  fresh_object demo_state (OMutex 0) RT_Object_Class_Mutex [QMutex 0] /\
  fresh_object demo_state (OEvent 0) RT_Object_Class_Event [QEvent 0] /\
  fresh_object demo_state (OMailBox 0) RT_Object_Class_MailBox [QMbRecv 0; QMbSend 0].
Proof.
  split_and!; (constructor; [exact demo_ok|vm_compute; split; [discriminate|reflexivity]
    |vm_compute; apply not_elem_of_nil|repeat constructor; vm_compute; reflexivity]).
Qed.

Lemma ipc_init_correct_witness :
  exists k' b, rt_mb_init 0 [109] [0; 0; 0] 3 RT_IPC_FLAG_FIFO demo_state = Some (RT_EOK, k') /\
    mb_ok k' 0 b /\ list_ready (QMbRecv 0) k' /\ list_ready (QMbSend 0) k'.
Proof.
  destruct (ipc_init_correct demo_state [109] RT_IPC_FLAG_FIFO) as (_ & _ & _ & H); [left; reflexivity|].
  destruct (H 0%nat [0; 0; 0] 3) as (k' & b & E & _ & Hb & _ & _ & _ & L1 & L2).
  - apply demo_fresh.
  - split; [reflexivity|discriminate].
  - vm_compute. discriminate.
  - exists k', b. split_and!; assumption.
Defined.
