(* ===== verification/WorkQueue.v ===== *)
(** * Work queues

    [drivers/ipc/workqueue.c] and [workqueue.h]: work items are executed one after
    the other by the thread of their queue, at once or after a delay. The
    functions of the work items are an argument of the thread that calls them;
    [_delayed_work_timeout_handler] is what the timers of the work items call. *)
From S2P Require Import Prelude Kservice Kernel Sched Object Timer Thread KernelInv Boot Ipc IpcSem ObjectSpec.

Definition RT_WORK_STATE_PENDING : Z := 0x0001.
Definition RT_WORK_STATE_SUBMITTING : Z := 0x0002.

(** ** The fields of the control blocks *)

Definition get_work (w : nat) : M rt_work := x ← gets (fun k => k_works k !! w); deref x.
Definition put_work (w : nat) (x : rt_work) : M unit := modify (fun k => set_k_works (<[w := x]> (k_works k)) k).
Definition upd_work (w : nat) (f : rt_work -> rt_work) : M unit := x ← get_work w; put_work w (f x).

Definition set_wk_flags (f : Z) (x : rt_work) : rt_work := RtWork f (wk_type x) (wk_workqueue x).
Definition set_wk_workqueue (q : option nat) (x : rt_work) : rt_work := RtWork (wk_flags x) (wk_type x) q.
(** [work->flags |= state] and [work->flags &= ~state]. *)
Definition set_state (state : Z) (x : rt_work) : rt_work := set_wk_flags (Z.lor (wk_flags x) state) x.
Definition clear_state (state : Z) (x : rt_work) : rt_work := set_wk_flags (Z.land (wk_flags x) (Z.lnot state)) x.
Definition has_state (state : Z) (x : rt_work) : bool := negb (Z.land (wk_flags x) state =? 0).

Definition get_workqueue (q : nat) : M rt_workqueue := x ← gets (fun k => k_workqueues k !! q); deref x.
Definition put_workqueue (q : nat) (x : rt_workqueue) : M unit :=
  modify (fun k => set_k_workqueues (<[q := x]> (k_workqueues k)) k).
Definition set_work_current (q : nat) (w : option nat) : M unit :=
  x ← get_workqueue q; put_workqueue q (RtWorkqueue w (wkq_sem x) (wkq_work_thread x)).
Definition set_work_thread (q : nat) (t : nat) : M unit :=
  x ← get_workqueue q; put_workqueue q (RtWorkqueue (wkq_work_current x) (wkq_sem x) t).

Definition modify_wklists (f : gmap wklist (list nat) -> gmap wklist (list nat)) : M unit :=
  modify (fun k => set_k_wklists (f (k_wklists k)) k).

(** ** The thread of a queue *)

(** What wakes it, at the end of the calls that hand it work: only if it is
    suspended because there was none. *)
Definition wake_worker (queue : nat) : M unit :=
  q ← get_workqueue queue;
  match wkq_work_current q with
  | Some _ => mret tt
  | None =>
      th ← get_thread (wkq_work_thread q);
      when (stat_of th =? RT_THREAD_SUSPEND) (rt_thread_resume (wkq_work_thread q);; rt_schedule)
  end.

(** The loop wakes everybody who waits for the current work item: a unit of the semaphore is
    released until nobody takes it. Undefined when [fuel] runs out. *)
Fixpoint completion_loop (fuel : nat) (sem : nat) : M Z :=
  match fuel with
  | O => fun _ => None
  | S fuel =>
      result ← rt_sem_trytake sem;
      match result with
      | Ret result =>
          if result =? - RT_ETIMEOUT then rt_sem_release sem;; completion_loop fuel sem
          else if result =? RT_EOK then mret RT_EOK
          else mret (- RT_ERROR)
      | Wait _ => fun _ => None
      end
  end.

Definition _workqueue_work_completion (fuel : nat) (queue : nat) : M Z :=
  rt_enter_critical;;
  q ← get_workqueue queue;
  result ← completion_loop fuel (wkq_sem q);
  rt_exit_critical;;
  mret result.

(** The first part of a round of [_workqueue_thread_entry]: the thread takes the
    next work item, or is suspended. *)
Definition worker_take (queue : nat) : M (option nat) :=
  l ← gets (fun k => qget (k_wklists k) (WLWork queue));
  match l with
  | [] =>
      self ← current_thread;
      rt_thread_suspend self;;
      rt_schedule;;
      mret None
  | work :: _ =>
      modify_wklists (rt_list_remove work);;
      set_work_current queue (Some work);;
      upd_work work (clear_state RT_WORK_STATE_PENDING);;
      upd_work work (set_wk_workqueue None);;
      mret (Some work)
  end.

(** What follows when the work item's function has returned. *)
Definition worker_done (fuel : nat) (queue : nat) : M unit :=
  set_work_current queue None;;
  _workqueue_work_completion fuel queue;;
  mret tt.

(** One round: the function of a work item, and whatever other threads do meanwhile, is [work_func]. *)
Definition _workqueue_thread_entry (work_func : nat -> M unit) (fuel : nat) (queue : nat) : M (outcome unit) :=
  work ← worker_take queue;
  match work with
  | None => mret (Wait tt)
  | Some work => work_func work;; worker_done fuel queue;; mret (Ret 0)
  end.

(** ** Work items *)

(** ["work"] and ["wqueue"]. *)
Definition work_name : list Z := [119; 111; 114; 107].
Definition wqueue_name : list Z := [119; 113; 117; 101; 117; 101].

Definition rt_work_init (work : nat) : M unit :=
  fresh ← gets (fun k => rt_list_init_node work (k_wklists k));
  rt_assert fresh;;
  put_work work (RtWork 0 0 None).

(** [queue] takes [work], at the end of its list. *)
Definition append_work (queue work : nat) : M unit :=
  modify_wklists (rt_list_insert_before (WLWork queue) work);;
  upd_work work (set_state RT_WORK_STATE_PENDING).

Definition _workqueue_submit_work (queue work : nat) (ticks : Z) : M Z :=
  modify_wklists (rt_list_remove work);;
  upd_work work (clear_state RT_WORK_STATE_PENDING);;
  if ticks =? 0 then
    q ← get_workqueue queue;
    err ← (if decide (wkq_work_current q <> Some work) then
             append_work queue work;;
             upd_work work (set_wk_workqueue (Some queue));;
             mret RT_EOK
           else mret (- RT_EBUSY));
    wake_worker queue;;
    mret err
  else if ticks <? RT_TICK_MAX / 2 then
    wk ← get_work work;
    (if has_state RT_WORK_STATE_SUBMITTING wk then
       rt_timer_stop (TmUser work);;
       rt_timer_control (TmUser work) RT_TIMER_CTRL_SET_TIME ticks;;
       mret tt
     else
       rt_timer_init (TmUser work) work_name ticks (Z.lor RT_TIMER_FLAG_ONE_SHOT RT_TIMER_FLAG_SOFT_TIMER);;
       upd_work work (set_state RT_WORK_STATE_SUBMITTING));;
    upd_work work (set_wk_workqueue (Some queue));;
    modify_wklists (rt_list_insert_before (WLDelayed queue) work);;
    rt_timer_start (TmUser work);;
    mret RT_EOK
  else mret (- RT_ERROR).

Definition _workqueue_cancel_work (queue work : nat) : M Z :=
  modify_wklists (rt_list_remove work);;
  upd_work work (clear_state RT_WORK_STATE_PENDING);;
  wk ← get_work work;
  when (has_state RT_WORK_STATE_SUBMITTING wk)
    (rt_timer_stop (TmUser work);;
     rt_timer_detach (TmUser work);;
     upd_work work (clear_state RT_WORK_STATE_SUBMITTING));;
  q ← get_workqueue queue;
  let err := if decide (wkq_work_current q <> Some work) then RT_EOK else - RT_EBUSY in
  upd_work work (set_wk_workqueue None);;
  mret err.

Definition _delayed_work_timeout_handler (work : nat) : M unit :=
  wk ← get_work work;
  rt_assert (bool_decide (is_Some (wk_workqueue wk)));;
  queue ← deref (wk_workqueue wk);
  rt_timer_detach (TmUser work);;
  upd_work work (clear_state RT_WORK_STATE_SUBMITTING);;
  modify_wklists (rt_list_remove work);;
  q ← get_workqueue queue;
  (if decide (wkq_work_current q <> Some work) then append_work queue work else mret tt);;
  wake_worker queue.

(** ** Queues *)

(** The block [RT_KERNEL_MALLOC] returns, with what is in it; and what the
    allocator returns for the thread. *)
Definition rt_workqueue_create (mem : option (nat * rt_workqueue)) (thread : option oid) (stack : bool)
    (name : list Z) (priority : Z) : M (option nat) :=
  match mem with
  | None => mret None
  | Some (queue, q) =>
      put_workqueue queue q;;
      modify_wklists (fun m => <[WLWork queue := []]> m);;
      modify_wklists (fun m => <[WLDelayed queue := []]> m);;
      set_work_current queue None;;
      rt_sem_init (wkq_sem q) wqueue_name 0 RT_IPC_FLAG_FIFO;;
      work_thread ← rt_thread_create thread stack name priority 10;
      match work_thread with
      | None =>
          modify (fun k => set_k_workqueues (delete queue (k_workqueues k)) k);;
          modify (free_block (OSem (wkq_sem q)));;
          mret None
      | Some work_thread =>
          set_work_thread queue work_thread;;
          rt_thread_startup work_thread;;
          mret (Some queue)
      end
  end.

Definition rt_workqueue_dowork (queue work : nat) : M Z := _workqueue_submit_work queue work 0.

Definition rt_workqueue_submit_work (queue work : nat) (ticks : Z) : M Z :=
  rt_assert (ticks <? RT_TICK_MAX / 2);;
  _workqueue_submit_work queue work ticks.

Definition rt_workqueue_urgent_work (queue work : nat) : M Z :=
  modify_wklists (rt_list_remove work);;
  modify_wklists (rt_list_insert_after (WLWork queue) work);;
  wake_worker queue;;
  mret RT_EOK.

Definition rt_workqueue_cancel_work (queue work : nat) : M Z := _workqueue_cancel_work queue work.

(** A call that waits returns [RT_EOK] when its thread runs again. *)
Definition rt_workqueue_cancel_work_sync (queue work : nat) : M (outcome unit) :=
  q ← get_workqueue queue;
  if decide (wkq_work_current q = Some work) then
    r ← rt_sem_take (wkq_sem q) RT_WAITING_FOREVER;
    match r with Ret _ => mret (Ret RT_EOK) | Wait w => mret (Wait w) end
  else
    _workqueue_cancel_work queue work;;
    mret (Ret RT_EOK).

(** The loops over the two lists; undefined when [fuel] runs out. *)
Fixpoint cancel_loop (fuel : nat) (list : wklist) (queue : nat) : M unit :=
  match fuel with
  | O => fun _ => None
  | S fuel =>
      l ← gets (fun k => qget (k_wklists k) list);
      match l with
      | [] => mret tt
      | work :: _ => _workqueue_cancel_work queue work;; cancel_loop fuel list queue
      end
  end.

Definition rt_workqueue_cancel_all_work (fuel : nat) (queue : nat) : M Z :=
  rt_enter_critical;;
  cancel_loop fuel (WLWork queue) queue;;
  cancel_loop fuel (WLDelayed queue) queue;;
  rt_exit_critical;;
  mret RT_EOK.

Definition rt_workqueue_destroy (fuel : nat) (queue : nat) : M Z :=
  rt_workqueue_cancel_all_work fuel queue;;
  q ← get_workqueue queue;
  rt_thread_delete (wkq_work_thread q);;
  rt_sem_detach (wkq_sem q);;
  modify (fun k => set_k_workqueues (delete queue (k_workqueues k)) k);;
  modify (free_block (OSem (wkq_sem q)));;
  mret RT_EOK.

(** ** The system's queue, [sys_workq] *)

Definition rt_work_submit (sys_workq : option nat) (work : nat) (ticks : Z) : M Z :=
  queue ← deref sys_workq; rt_workqueue_submit_work queue work ticks.
Definition rt_work_urgent (sys_workq : option nat) (work : nat) : M Z :=
  queue ← deref sys_workq; rt_workqueue_urgent_work queue work.
Definition rt_work_cancel (sys_workq : option nat) (work : nat) : M Z :=
  queue ← deref sys_workq; rt_workqueue_cancel_work queue work.

Definition RT_SYSTEM_WORKQUEUE_PRIORITY : Z := 23.
(** ["sys workq"]. *)
Definition sys_workq_name : list Z := [115; 121; 115; 32; 119; 111; 114; 107; 113].

(** The error code, and [sys_workq] afterwards. *)
Definition rt_work_sys_workqueue_init (sys_workq : option nat) (mem : option (nat * rt_workqueue))
    (thread : option oid) (stack : bool) : M (Z * option nat) :=
  match sys_workq with
  | Some queue => mret (RT_EOK, Some queue)
  | None =>
      sys_workq ← rt_workqueue_create mem thread stack sys_workq_name RT_SYSTEM_WORKQUEUE_PRIORITY;
      rt_assert (bool_decide (is_Some sys_workq));;
      mret (RT_EOK, sys_workq)
  end.
