(* ===== verification/WorkQueueSpec.v ===== *)
(** * Work queues: correctness

    What a queue promises: work is executed in the order of its list, and a thread that has work
    to do is not left suspended. *)
From S2P Require Import Prelude Kservice Kernel Sched Object Timer Thread KernelInv Boot Ipc IpcSem ObjectSpec Suspend WorkQueue.

(** ** The invariant *)

(** The thread of a queue has been started and not ended. *)
Definition worker_ok (k : kstate) (t : nat) : Prop :=
  exists th, k_threads k !! t = Some th /\ (stat_of th = RT_THREAD_SUSPEND \/ ~ blocked th).

(** A queue with work, whose thread is not executing any, has a thread that can run. *)
Definition awake (k : kstate) (q : nat) : Prop := forall x th,
  k_workqueues k !! q = Some x -> wkq_work_current x = None -> qget (k_wklists k) (WLWork q) <> [] ->
  k_threads k !! wkq_work_thread x = Some th -> ~ blocked th.

(** The timer of a work item is set up as long as the work item waits for it. *)
Definition work_ok (k : kstate) (w : nat) (x : rt_work) : Prop :=
  if has_state RT_WORK_STATE_SUBMITTING x then
    exists tm, k_timers k !! TmUser w = Some tm /\ has_type RT_Object_Class_Timer (tm_parent tm) /\
      is_static (tm_parent tm) = true /\ is_soft tm = true
  else OTimer (TmUser w) ∉ qget (k_objlist k) RT_Object_Class_Timer /\
    forall l, is_global l -> TmUser w ∉ qget (k_tmq k) l.

(** The invariant of all queues and work items; [ex] is a queue whose thread is about to be woken. *)
Record wkq_inv (ex : option nat) (k : kstate) : Prop := WkqInv {
  wi_nodup l : NoDup (qget (k_wklists k) l);
  wi_excl l l' w : w ∈ qget (k_wklists k) l -> w ∈ qget (k_wklists k) l' -> l = l';
  wi_known l w : w ∈ qget (k_wklists k) l -> is_Some (k_works k !! w);
  wi_worker q x : k_workqueues k !! q = Some x -> worker_ok k (wkq_work_thread x);
  wi_own q q' x x' : k_workqueues k !! q = Some x -> k_workqueues k !! q' = Some x' ->
    wkq_work_thread x = wkq_work_thread x' -> q = q';
  wi_awake q : ex <> Some q -> awake k q;
  wi_work w x : k_works k !! w = Some x -> work_ok k w x
}.

Lemma worker_ok_stirred k k' t : woken_or_same k k' -> worker_ok k t -> worker_ok k' t.
Proof.
  intros H (th & Ht & Hs). destruct (H t th Ht) as (th' & Ht' & O). exists th'. split; [done|].
  destruct O as [->|]; [done|by right].
Qed.

Lemma stirred_unblocked k k' t th th' :
  woken_or_same k k' -> k_threads k !! t = Some th -> k_threads k' !! t = Some th' -> ~ blocked th -> ~ blocked th'.
Proof. intros H Ht Ht' Hb. destruct (H t th Ht) as (th2 & E & [->|O]); simplify_eq; done. Qed.

Lemma awake_stirred k k' q :
  k_workqueues k' = k_workqueues k -> k_wklists k' = k_wklists k -> woken_or_same k k' ->
  (forall x, k_workqueues k !! q = Some x -> worker_ok k (wkq_work_thread x)) -> awake k q -> awake k' q.
Proof.
  intros Ex El S Hw Ha x th' Hx Hc Hl Ht'. rewrite Ex in Hx. rewrite El in Hl.
  destruct (Hw x Hx) as (th & Ht & _). by apply (stirred_unblocked k k' (wkq_work_thread x) th th'), (Ha x th).
Qed.

Lemma work_ok_stirred k k' w x : stirred k k' -> work_ok k w x -> work_ok k' w x.
Proof.
  intros S. unfold work_ok. rewrite (st_timers _ _ S), (of_objlist _ _ (st_frame _ _ S)).
  destruct (has_state _ x); [done|]. intros [H1 H2]. split; [done|]. intros l Hl. rewrite (st_rows _ _ S) by done. auto.
Qed.

Lemma wkq_inv_stirred ex k k' : stirred k k' -> wkq_inv ex k -> wkq_inv ex k'.
Proof.
  intros S []. pose proof (st_frame _ _ S) as F.
  constructor; rewrite ?(of_wklists _ _ F), ?(of_works _ _ F), ?(of_workqueues _ _ F); try done.
  - intros q x Hx. apply (worker_ok_stirred k); [apply S|by eapply wi_worker0].
  - intros q Hq. apply (awake_stirred k); [apply F|apply F|apply S|intros x Hx; by eapply wi_worker0|by apply wi_awake0].
  - intros w x Hx. apply (work_ok_stirred k); [done|by apply wi_work0].
Qed.

(** ** Elementary changes of the state *)

Definition lists_st (m : gmap wklist (list nat)) (k : kstate) : kstate := set_k_wklists m k.
Definition work_st (w : nat) (x : rt_work) (k : kstate) : kstate := set_k_works (<[w := x]> (k_works k)) k.
Definition queue_st (q : nat) (x : rt_workqueue) (k : kstate) : kstate := set_k_workqueues (<[q := x]> (k_workqueues k)) k.

Lemma get_work_eq w x k : k_works k !! w = Some x -> get_work w k = Some (x, k).
Proof. intros H. unfold get_work. mrun. by rewrite H. Qed.

Lemma upd_work_eq w f x k : k_works k !! w = Some x -> upd_work w f k = Some (tt, work_st w (f x) k).
Proof. intros H. unfold upd_work. by rewrite (bind_ok _ _ k x k) by (by apply get_work_eq). Qed.

Lemma get_workqueue_eq q x k : k_workqueues k !! q = Some x -> get_workqueue q k = Some (x, k).
Proof. intros H. unfold get_workqueue. mrun. by rewrite H. Qed.

Lemma set_work_current_eq q w x k :
  k_workqueues k !! q = Some x ->
  set_work_current q w k = Some (tt, queue_st q (RtWorkqueue w (wkq_sem x) (wkq_work_thread x)) k).
Proof. intros H. unfold set_work_current. by rewrite (bind_ok _ _ k x k) by (by apply get_workqueue_eq). Qed.

Lemma lists_st_ok m k : kernel_ok k -> kernel_ok (lists_st m k).
Proof. by apply kernel_ok_objects. Qed.
Lemma work_st_ok w x k : kernel_ok k -> kernel_ok (work_st w x k).
Proof. by apply kernel_ok_objects. Qed.
Lemma queue_st_ok q x k : kernel_ok k -> kernel_ok (queue_st q x k).
Proof. by apply kernel_ok_objects. Qed.

(** Taking a work item off its list. *)
Lemma unlink_inv ex w k : wkq_inv ex k -> wkq_inv ex (lists_st (rt_list_remove w (k_wklists k)) k).
Proof.
  intros []. constructor; unfold lists_st; kfields; try done.
  - intros l. rewrite qget_remove. by apply NoDup_filter.
  - intros l l' x [_ H1]%elem_remove [_ H2]%elem_remove. eauto.
  - intros l x [_ H1]%elem_remove. eauto.
  - intros q Hq x th Hx Hc Hl Ht. apply (wi_awake0 q Hq x th Hx Hc); [|done]. kfields. intros E. apply Hl.
    by rewrite qget_remove, E.
Qed.

(** Putting a work item that is on no list at the end or at the beginning of one. *)
Lemma link_inv ex w l0 m k :
  wkq_inv ex k -> is_Some (k_works k !! w) -> (forall l, w ∉ qget (k_wklists k) l) ->
  (forall l, qget m l = if decide (l0 = l) then qget (k_wklists k) l ++ [w] else qget (k_wklists k) l) \/
  (forall l, qget m l = if decide (l0 = l) then w :: qget (k_wklists k) l else qget (k_wklists k) l) ->
  (forall q, l0 = WLWork q -> ex = None \/ ex = Some q) ->
  wkq_inv (match l0 with WLWork q => Some q | WLDelayed _ => ex end) (lists_st m k).
Proof.
  intros [] Hw Hn Hm Hex.
  assert (forall l x, x ∈ qget m l <-> x ∈ qget (k_wklists k) l \/ (x = w /\ l0 = l)) as Hin.
  { intros l x. destruct Hm as [E|E]; rewrite E; case_decide; rewrite ?elem_of_app, ?elem_of_cons;
      set_solver. }
  constructor; unfold lists_st; kfields; try done.
  - intros l. destruct Hm as [E|E]; rewrite E; case_decide; [|done| |done].
    + apply NoDup_app. split; [done|]. split; [|apply NoDup_singleton]. set_solver.
    + by apply NoDup_cons.
  - intros l l' x H1%Hin H2%Hin. destruct H1 as [H1|[-> ->]], H2 as [H2|[? ?]]; subst; eauto; by edestruct Hn.
  - intros l x Hx%Hin. destruct Hx as [|[-> _]]; eauto.
  - intros q Hq x th Hx Hc Hl Ht. assert (l0 <> WLWork q) as Hne.
    { intros ->. by apply Hq. }
    apply (wi_awake0 q) with (x := x); try done.
    { intros ->. destruct l0 as [q'|]; [|done]. destruct (Hex q' eq_refl) as [|E]; simplify_eq. }
    kfields. intros E. apply Hl. destruct Hm as [Em|Em]; by rewrite Em, decide_False.
Qed.

(** A new state of a work item, whose timer is treated the same way. *)
Lemma work_st_inv ex w x x' k :
  wkq_inv ex k -> k_works k !! w = Some x ->
  has_state RT_WORK_STATE_SUBMITTING x' = has_state RT_WORK_STATE_SUBMITTING x -> wkq_inv ex (work_st w x' k).
Proof.
  intros [] Hx Hs. constructor; unfold work_st; kfields; try done.
  - intros l y Hy. destruct (decide (y = w)) as [->|]; [rewrite lookup_insert_eq|rewrite lookup_insert_ne by done]; eauto.
  - intros y z. destruct (decide (y = w)) as [->|].
    + rewrite lookup_insert_eq. intros [= <-]. specialize (wi_work0 w x Hx). unfold work_ok in *. rewrite Hs. done.
    + rewrite lookup_insert_ne by done. apply wi_work0.
Qed.

Lemma pending_submitting x :
  has_state RT_WORK_STATE_SUBMITTING (set_state RT_WORK_STATE_PENDING x) = has_state RT_WORK_STATE_SUBMITTING x /\
  has_state RT_WORK_STATE_SUBMITTING (clear_state RT_WORK_STATE_PENDING x) = has_state RT_WORK_STATE_SUBMITTING x.
Proof.
  unfold has_state, set_state, clear_state, set_wk_flags. cbn [wk_flags]. split.
  - rewrite Z.land_lor_distr_l. change (Z.land RT_WORK_STATE_PENDING RT_WORK_STATE_SUBMITTING) with 0. by rewrite Z.lor_0_r.
  - rewrite <- Z.land_assoc. by change (Z.land (Z.lnot RT_WORK_STATE_PENDING) RT_WORK_STATE_SUBMITTING) with RT_WORK_STATE_SUBMITTING.
Qed.

Lemma wkq_inv_awake q k : wkq_inv (Some q) k -> awake k q -> wkq_inv None k.
Proof.
  intros [] Ha. constructor; try done. intros q' _. destruct (decide (q' = q)) as [->|Hne]; [done|].
  apply wi_awake0. congruence.
Qed.

Lemma wkq_inv_weaken q k : wkq_inv None k -> wkq_inv (Some q) k.
Proof. intros []. constructor; try done. intros q' _. by apply wi_awake0. Qed.

Lemma unblocked_runnable k t th : runnable k t th -> exists th', k_threads k !! t = Some th' /\ ~ blocked th'.
Proof. intros (s & Hs & Hb). eauto. Qed.

(** Afterwards the thread of the queue is not suspended while there is work. *)
Lemma wake_worker_spec q x k :
  kernel_ok k -> is_Some (k_current k) -> wkq_inv (Some q) k -> k_workqueues k !! q = Some x ->
  exists k', wake_worker q k = Some (tt, k') /\ stirred k k' /\ wkq_inv None k'.
Proof.
  intros Hok Hc I Hx. unfold wake_worker. rewrite (bind_ok _ _ k x k) by (by apply get_workqueue_eq).
  destruct (wkq_work_current x) as [w|] eqn:Ew.
  { exists k. split; [done|]. split; [by apply stirred_refl|]. apply (wkq_inv_awake q); [done|].
    intros x' th Hx' Hw'. congruence. }
  destruct (wi_worker _ _ I q x Hx) as (th & Ht & Hs).
  rewrite (bind_ok _ _ k th k) by (by apply get_thread_eq). destruct (Z.eqb_spec (stat_of th) RT_THREAD_SUSPEND) as [E|E].
  - destruct (resume_schedule_spec (wkq_work_thread x) th k Hok Hc Ht E) as (k' & Er & S & R & _).
    exists k'. split; [exact Er|]. split; [done|]. apply (wkq_inv_awake q); [by apply (wkq_inv_stirred _ k)|].
    intros x' th' Hx' _ _ Ht'. rewrite (of_workqueues _ _ (st_frame _ _ S)) in Hx'. assert (x' = x) as -> by congruence.
    apply unblocked_runnable in R as (th2 & Ht2 & Hb). congruence.
  - exists k. split; [done|]. split; [by apply stirred_refl|]. apply (wkq_inv_awake q); [done|].
    intros x' th' Hx' _ _ Ht'. assert (x' = x) as -> by congruence. assert (th' = th) as -> by congruence. by destruct Hs.
Qed.

(** ** The timers of the work items *)

(** The tick at which the timer of the work item [n] expires, if it is running. *)
Definition alarm (k : kstate) (n : nat) : option Z :=
  if decide (TmUser n ∈ qget (k_tmq k) TLSoft) then tm_timeout_tick <$> k_timers k !! TmUser n else None.

Lemma alarm_same k k' n :
  k_timers k' !! TmUser n = k_timers k !! TmUser n ->
  (TmUser n ∈ qget (k_tmq k') TLSoft <-> TmUser n ∈ qget (k_tmq k) TLSoft) -> alarm k' n = alarm k n.
Proof.
  intros E H. unfold alarm. rewrite E. by destruct (decide (TmUser n ∈ qget (k_tmq k') TLSoft)),
    (decide (TmUser n ∈ qget (k_tmq k) TLSoft)); tauto.
Qed.

Lemma alarm_stirred k k' n : stirred k k' -> alarm k' n = alarm k n.
Proof. intros S. apply alarm_same; [apply S|]. apply S. by right. Qed.

Lemma alarm_off k n : TmUser n ∉ qget (k_tmq k) TLSoft -> alarm k n = None.
Proof. intros H. unfold alarm. by rewrite decide_False. Qed.

(** ** Calls that do not touch a timer *)

(** The call has left the work items on the lists [lists], and [w] as [x']. *)
Record acted (w : nat) (lists : wklist -> list nat) (x' : rt_work) (k k' : kstate) : Prop := Acted {
  ac_ok : kernel_ok k';
  ac_current : is_Some (k_current k');
  ac_inv : wkq_inv None k';
  ac_lists l : qget (k_wklists k') l = lists l;
  ac_works : k_works k' = <[w := x']> (k_works k);
  ac_queues : k_workqueues k' = k_workqueues k;
  ac_threads : woken_or_same k k';
  ac_lock : k_lock_nest k' = k_lock_nest k;
  ac_alarms n : n <> w -> alarm k' n = alarm k n
}.

(** The list without [w]. *)
Definition without (w : nat) (k : kstate) (l : wklist) : list nat := filter (fun y => y <> w) (qget (k_wklists k) l).

Lemma without_not_in w k l : w ∉ without w k l.
Proof. unfold without. rewrite list_elem_of_filter. by intros []. Qed.

Definition off_lists (w : nat) (k : kstate) : kstate := lists_st (rt_list_remove w (k_wklists k)) k.

Lemma off_lists_get w k l : qget (k_wklists (off_lists w k)) l = without w k l.
Proof. apply qget_remove. Qed.

Lemma off_lists_bind {A} w (f : M A) k :
  (modify_wklists (rt_list_remove w);; f) k = f (off_lists w k).
Proof. done. Qed.

(** The state in which the queue's list is ready and its thread about to be woken. *)
Lemma stirred_acted q w lists x' k k1 :
  kernel_ok k1 -> is_Some (k_current k1) -> wkq_inv (Some q) k1 -> is_Some (k_workqueues k1 !! q) ->
  (forall l, qget (k_wklists k1) l = lists l) -> k_works k1 = <[w := x']> (k_works k) ->
  k_workqueues k1 = k_workqueues k -> k_threads k1 = k_threads k -> k_lock_nest k1 = k_lock_nest k ->
  (forall n, n <> w -> alarm k1 n = alarm k n) ->
  exists k', wake_worker q k1 = Some (tt, k') /\ acted w lists x' k k' /\ alarm k' w = alarm k1 w.
Proof.
  intros Hok Hc I [x Hx] Hl Hw Hq Ht Hn Ha. destruct (wake_worker_spec q x k1 Hok Hc I Hx) as (k' & E & S & I').
  exists k'. split; [done|]. split; [|by apply alarm_stirred].
  pose proof (st_frame _ _ S) as F. constructor; try done.
  - apply S.
  - by apply S.
  - intros l. by rewrite (of_wklists _ _ F).
  - by rewrite (of_works _ _ F).
  - by rewrite (of_workqueues _ _ F).
  - intros t th Hth. apply (st_threads _ _ S). by rewrite Ht.
  - by rewrite (of_lock _ _ F).
  - intros n Hne. rewrite (alarm_stirred _ _ n S). by apply Ha.
Qed.

Lemma append_work_spec q w x k :
  kernel_ok k -> wkq_inv None k \/ wkq_inv (Some q) k -> k_works k !! w = Some x -> (forall l, w ∉ qget (k_wklists k) l) ->
  let k' := work_st w (set_state RT_WORK_STATE_PENDING x) (lists_st (rt_list_insert_before (WLWork q) w (k_wklists k)) k) in
  append_work q w k = Some (tt, k') /\ kernel_ok k' /\ wkq_inv (Some q) k'.
Proof.
  intros Hok I Hx Hn k'. split; [|split].
  - unfold append_work. rewrite (bind_ok _ _ k tt (lists_st (rt_list_insert_before (WLWork q) w (k_wklists k)) k)) by done.
    by apply upd_work_eq.
  - by apply work_st_ok, lists_st_ok.
  - apply (work_st_inv _ w x); [|done|apply pending_submitting].
    assert (wkq_inv (Some q) k) as I' by (destruct I as [I|I]; [by apply wkq_inv_weaken|done]).
    apply (link_inv (Some q) w (WLWork q)); [done|by exists x|done| |intros q' [= ->]; by right].
    left. intros l. rewrite qget_insert_before. case_decide; [by subst|done].
Qed.

Lemma work_st_st w x y k : work_st w x (work_st w y k) = work_st w x k.
Proof. unfold work_st; kfields. by rewrite insert_insert_eq. Qed.

Lemma work_st_lookup w x k : k_works (work_st w x k) !! w = Some x.
Proof. apply lookup_insert_eq. Qed.

(** What every call for [w] begins with: [w] is on no list and not pending. *)
Definition taken_off (w : nat) (x : rt_work) (k : kstate) : kstate :=
  work_st w (clear_state RT_WORK_STATE_PENDING x) (off_lists w k).

Lemma take_off_bind {A} w x (f : M A) k :
  k_works k !! w = Some x ->
  (modify_wklists (rt_list_remove w);; upd_work w (clear_state RT_WORK_STATE_PENDING);; f) k = f (taken_off w x k).
Proof. intros Hx. rewrite off_lists_bind. by rewrite (bind_ok _ _ (off_lists w k) tt (taken_off w x k)) by (by apply upd_work_eq). Qed.

Lemma taken_off_spec ex w x k :
  kernel_ok k -> wkq_inv ex k -> k_works k !! w = Some x ->
  kernel_ok (taken_off w x k) /\ wkq_inv ex (taken_off w x k) /\
  (forall l, qget (k_wklists (taken_off w x k)) l = without w k l) /\
  k_works (taken_off w x k) !! w = Some (clear_state RT_WORK_STATE_PENDING x).
Proof.
  intros Hok I Hx. split; [by apply work_st_ok, lists_st_ok|]. split.
  - apply (work_st_inv _ w x); [by apply unlink_inv|done|apply pending_submitting].
  - split; [apply off_lists_get|apply work_st_lookup].
Qed.

(** A work item handed to [q]. *)
Definition pending_work (q : nat) (x : rt_work) : rt_work :=
  set_wk_workqueue (Some q) (set_state RT_WORK_STATE_PENDING (clear_state RT_WORK_STATE_PENDING x)).

Lemma submit_now_spec q w x y k :
  kernel_ok k -> is_Some (k_current k) -> wkq_inv None k -> k_works k !! w = Some x -> k_workqueues k !! q = Some y ->
  exists k', if decide (wkq_work_current y = Some w)
    then _workqueue_submit_work q w 0 k = Some (- RT_EBUSY, k') /\
         acted w (without w k) (clear_state RT_WORK_STATE_PENDING x) k k' /\ alarm k' w = alarm k w
    else _workqueue_submit_work q w 0 k = Some (RT_EOK, k') /\
         acted w (fun l => without w k l ++ if decide (l = WLWork q) then [w] else []) (pending_work q x) k k' /\
         alarm k' w = alarm k w.
Proof.
  intros Hok Hc I Hx Hy. destruct (taken_off_spec None w x k Hok I Hx) as (Hok1 & I1 & Hl1 & Hx1).
  set (k1 := taken_off w x k) in *. unfold _workqueue_submit_work. rewrite (take_off_bind w x) by done. fold k1.
  cbn [Z.eqb]. rewrite (bind_ok _ _ k1 y k1) by (by apply get_workqueue_eq). case_decide as Hw.
  - rewrite decide_False by (by intros H). rewrite (bind_ok _ _ k1 (- RT_EBUSY) k1) by done.
    destruct (stirred_acted q w (without w k) (clear_state RT_WORK_STATE_PENDING x) k k1) as (k' & E & A & Ea); try done.
    { by apply wkq_inv_weaken. }
    exists k'. split; [|by rewrite Ea]. by rewrite (bind_ok _ _ k1 tt k').
  - rewrite decide_True by done.
    destruct (append_work_spec q w (clear_state RT_WORK_STATE_PENDING x) k1) as (E2 & Hok2 & I2); try done; [by left| |].
    { intros l. rewrite Hl1. apply without_not_in. }
    set (k2 := work_st w _ _) in *. set (k3 := work_st w (pending_work q x) k2).
    assert (upd_work w (set_wk_workqueue (Some q)) k2 = Some (tt, k3)) as E3.
    { apply (upd_work_eq w (set_wk_workqueue (Some q)) (set_state RT_WORK_STATE_PENDING (clear_state RT_WORK_STATE_PENDING x))).
      apply work_st_lookup. }
    rewrite (bind_ok _ _ k1 RT_EOK k3) by (by rewrite (bind_ok _ _ k1 tt k2), (bind_ok _ _ k2 tt k3)).
    destruct (stirred_acted q w (fun l => without w k l ++ if decide (l = WLWork q) then [w] else [])
                (pending_work q x) k k3) as (k' & E & A & Ea); try done.
    + by apply work_st_ok.
    + by apply (work_st_inv _ w (set_state RT_WORK_STATE_PENDING (clear_state RT_WORK_STATE_PENDING x))); [|apply work_st_lookup|].
    + intros l. change (k_wklists k3) with (rt_list_insert_before (WLWork q) w (k_wklists k1)).
      rewrite qget_insert_before, !Hl1. destruct (decide (WLWork q = l)) as [<-|Hne]; [by rewrite decide_True|].
      by rewrite decide_False, app_nil_r.
    + unfold k3, k2, k1, taken_off, work_st, off_lists, lists_st. kfields. by rewrite !insert_insert_eq.
    + exists k'. split; [|by rewrite Ea]. by rewrite (bind_ok _ _ k3 tt k').
Qed.

Lemma urgent_spec q w x k :
  kernel_ok k -> is_Some (k_current k) -> wkq_inv None k -> k_works k !! w = Some x -> is_Some (k_workqueues k !! q) ->
  exists k', rt_workqueue_urgent_work q w k = Some (RT_EOK, k') /\
    acted w (fun l => if decide (l = WLWork q) then w :: without w k l else without w k l) x k k' /\ alarm k' w = alarm k w.
Proof.
  intros Hok Hc I Hx Hy. unfold rt_workqueue_urgent_work. rewrite off_lists_bind. set (k1 := off_lists w k).
  set (k2 := lists_st (rt_list_insert_after (WLWork q) w (k_wklists k1)) k1). rewrite (bind_ok _ _ k1 tt k2) by done.
  destruct (stirred_acted q w (fun l => if decide (l = WLWork q) then w :: without w k l else without w k l) x k k2)
    as (k' & E & A & Ea); try done.
  - by apply lists_st_ok, lists_st_ok.
  - apply (link_inv None w (WLWork q)); [by apply unlink_inv|by exists x| | |by left].
    { intros l. unfold k1. rewrite off_lists_get. apply without_not_in. }
    right. intros l. rewrite qget_insert_after. case_decide; [by subst|done].
  - intros l. unfold k2, lists_st; kfields. rewrite qget_insert_after. unfold k1. rewrite !off_lists_get.
    destruct (decide (WLWork q = l)) as [<-|Hne]; [by rewrite decide_True|by rewrite decide_False].
  - symmetry. by apply insert_id.
  - exists k'. split; [|by rewrite Ea]. by rewrite (bind_ok _ _ k2 tt k').
Qed.

(** ** The thread of a queue *)

(** A new work item in execution, or none. *)
Lemma queue_st_inv ex q x c k :
  wkq_inv ex k -> k_workqueues k !! q = Some x ->
  let k' := queue_st q (RtWorkqueue c (wkq_sem x) (wkq_work_thread x)) k in
  (ex <> Some q -> awake k' q) -> wkq_inv ex k'.
Proof.
  intros [] Hx k' Ha.
  assert (forall p y, k_workqueues k' !! p = Some y -> exists y0, k_workqueues k !! p = Some y0 /\
            wkq_work_thread y = wkq_work_thread y0 /\ (p <> q -> y = y0)) as Hq.
  { intros p y. unfold k', queue_st; kfields. destruct (decide (p = q)) as [->|Hne].
    - rewrite lookup_insert_eq. intros [= <-]. by exists x.
    - rewrite lookup_insert_ne by done. intros Hy. by exists y. }
  constructor; try done.
  - intros p y (y0 & Hy0 & -> & _)%Hq. by eapply wi_worker0.
  - intros p p' y y' (y0 & Hy0 & -> & _)%Hq (y1 & Hy1 & -> & _)%Hq. by apply wi_own0.
  - intros p Hp. destruct (decide (p = q)) as [->|Hne]; [by apply Ha|].
    intros y th Hy Hc Hl Ht. apply Hq in Hy as (y0 & Hy0 & _ & E). rewrite E in * by done. by apply (wi_awake0 p Hp y0 th).
Qed.

(** The thread [t] of the queue [q] runs, between two work items. *)
Record worker_runs (q t : nat) (x : rt_workqueue) (th : rt_thread) (k : kstate) : Prop := WorkerRuns {
  wr_queue : k_workqueues k !! q = Some x;
  wr_thread : wkq_work_thread x = t;
  wr_running : can_block k t th
}.

(** Work items are taken in the order of the list. *)
Lemma worker_take_spec q t x th w l z k :
  kernel_ok k -> wkq_inv None k -> worker_runs q t x th k -> qget (k_wklists k) (WLWork q) = w :: l ->
  k_works k !! w = Some z ->
  let k' := work_st w (set_wk_workqueue None (clear_state RT_WORK_STATE_PENDING z))
              (queue_st q (RtWorkqueue (Some w) (wkq_sem x) t) (off_lists w k)) in
  worker_take q k = Some (Some w, k') /\ kernel_ok k' /\ wkq_inv None k' /\ qget (k_wklists k') (WLWork q) = l.
Proof.
  intros Hok I [Hx Ht Hcb] Hl Hz k'. set (k1 := off_lists w k). set (k2 := queue_st q (RtWorkqueue (Some w) (wkq_sem x) t) k1).
  assert (wkq_inv None k1) as I1 by (by apply unlink_inv).
  assert (wkq_inv None k2) as I2.
  { unfold k2. rewrite <- Ht. apply (queue_st_inv None q x); [done|done|]. intros _ y th' Hy Hc.
    unfold queue_st in Hy; kfields. rewrite lookup_insert_eq in Hy. by injection Hy as <-. }
  split; [|split; [|split]].
  - unfold worker_take. rewrite bind_gets, Hl, off_lists_bind. fold k1.
    rewrite (bind_ok _ _ k1 tt k2) by (unfold k2; rewrite <- Ht; by apply set_work_current_eq).
    set (k3 := work_st w (clear_state RT_WORK_STATE_PENDING z) k2).
    rewrite (bind_ok _ _ k2 tt k3) by (by apply upd_work_eq).
    rewrite (bind_ok _ _ k3 tt (work_st w (set_wk_workqueue None (clear_state RT_WORK_STATE_PENDING z)) k3))
      by (apply upd_work_eq, work_st_lookup).
    unfold k3. by rewrite work_st_st.
  - by apply work_st_ok, queue_st_ok, lists_st_ok.
  - apply (work_st_inv _ w z); [done|done|apply pending_submitting].
  - change (k_wklists k') with (k_wklists (off_lists w k)). rewrite off_lists_get. unfold without. rewrite Hl.
    pose proof (wi_nodup _ _ I (WLWork q)) as Hnd. rewrite Hl in Hnd. apply NoDup_cons in Hnd as [Hn _].
    rewrite filter_cons_False by auto. by apply filter_ne_notin.
Qed.

(** Without work the thread is suspended. *)
Lemma worker_idle_spec q t x th k :
  kernel_ok k -> wkq_inv None k -> worker_runs q t x th k -> qget (k_wklists k) (WLWork q) = [] ->
  exists k', worker_take q k = Some (None, k') /\ kernel_ok k' /\ is_Some (k_current k') /\ wkq_inv None k' /\
    highest_running k' /\ obj_frame k k' /\ k_threads k' !! t = Some (with_stat RT_THREAD_SUSPEND th).
Proof.
  intros Hok I [Hx Ht [Hc Hth Hr Hl0 _]] Hl. destruct (pause_spec t th false 0 k) as (k' & E & P); try done.
  exists k'. split.
  { unfold worker_take. rewrite bind_gets, Hl. rewrite (bind_ok _ _ k t k) by (by apply current_thread_eq).
    revert E. rewrite !bind_unfold. destruct (rt_thread_suspend t k) as [[r k1]|]; [|done].
    rewrite !bind_unfold. change (when false (start_thread_timer t 0) k1) with (Some (tt, k1)). cbv iota beta.
    by intros ->. }
  pose proof (pa_frame _ _ _ _ _ _ P) as F. do 2 (split; [apply P|]). split; [|split; [by apply P|split; [done|apply P]]].
  assert (stat_of (with_stat RT_THREAD_SUSPEND th) = RT_THREAD_SUSPEND) as Hs by apply stat_with_stat.
  assert (forall u thu, u <> t -> k_threads k !! u = Some thu ->
    exists thu', k_threads k' !! u = Some thu' /\ (thu' = thu \/ ~ blocked thu')) as Hoth.
  { intros u thu Hne Hu. apply rescheduled_same. by apply P. }
  destruct I. constructor; rewrite ?(of_wklists _ _ F), ?(of_works _ _ F), ?(of_workqueues _ _ F); try done.
  - intros p y Hy. destruct (wi_worker0 p y Hy) as (thy & Hty & Hsy). destruct (decide (wkq_work_thread y = t)) as [E'|Hne].
    + rewrite E'. eexists. split; [apply (pa_thread _ _ _ _ _ _ P)|by left].
    + destruct (Hoth _ _ Hne Hty) as (th' & Ht' & O). exists th'. split; [done|]. destruct O as [->|]; [done|by right].
  - intros p _ y thy Hy Hcy Hly Hty. rewrite (of_workqueues _ _ F) in Hy. rewrite (of_wklists _ _ F) in Hly.
    destruct (decide (p = q)) as [->|Hne]; [done|].
    assert (wkq_work_thread y <> t) as Hnt by (intros E'; apply Hne; apply (wi_own0 p q y x); [done|done|congruence]).
    destruct (wi_worker0 p y Hy) as (thy0 & Hty0 & _). destruct (Hoth _ _ Hnt Hty0) as (th' & Ht' & O).
    assert (th' = thy) as -> by congruence. destruct O as [->|]; [|done]. by apply (wi_awake0 p ltac:(done) y thy0).
  - intros w z Hz. specialize (wi_work0 w z Hz). unfold work_ok in *. rewrite (of_objlist _ _ F).
    rewrite (pa_timers _ _ _ _ _ _ P) by done. destruct (has_state _ z); [done|]. destruct wi_work0 as [H1 H2].
    split; [done|]. intros l Hg. rewrite (pa_rows _ _ _ _ _ _ P) by done. auto.
Qed.

(** ** Waking those who wait for a work item *)

Definition can_run (k : kstate) (t : nat) : Prop := exists th, k_threads k !! t = Some th /\ ~ blocked th.

Lemma can_run_stirred k k' t : woken_or_same k k' -> can_run k t -> can_run k' t.
Proof. intros H (th & Ht & Hb). destruct (H t th Ht) as (th' & Ht' & O). exists th'. split; [done|]. by destruct O as [->|]. Qed.

Lemma trytake_empty sem s k :
  sem_ok k sem s -> sem_value s = 0 -> rt_sem_trytake sem k = Some (Ret (- RT_ETIMEOUT), k).
Proof.
  intros [Hs [Hy _] _ _] Hz. unfold rt_sem_trytake, rt_sem_take.
  rewrite (bind_ok _ _ k tt k) by (by apply (assert_type_eq _ _ k (sem_parent s)); [apply sem_hdr|]).
  rewrite (bind_ok _ _ k s k) by (by apply get_sem_eq). by rewrite Hz.
Qed.

(** With nobody waiting, a unit is released and taken again. *)
Lemma completion_last n sem s k :
  kernel_ok k -> sem_ok k sem s -> sem_value s = 0 -> is_Some (k_current k) -> qget (k_tq k) (QSem sem) = [] ->
  completion_loop (S (S n)) sem k = Some (RT_EOK, k).
Proof.
  intros Hok Hso Hz Hc Hq. cbn [completion_loop].
  rewrite (bind_ok _ _ k (Ret (- RT_ETIMEOUT)) k) by (by apply (trytake_empty sem s)). cbn [Z.eqb].
  rewrite Z.eqb_refl. destruct (sem_release_spec k sem s Hok Hso Hc) as (r & k1 & E & Hok1 & H).
  rewrite Hq, Hz in H. destruct H as [-> ->]. set (s1 := set_sem_value (0 + 1) s) in *. set (k1 := sem_st sem s1 k) in *.
  rewrite (bind_ok _ _ k RT_EOK k1) by done.
  assert (rt_sem_trytake sem k1 = Some (Ret RT_EOK, k)) as E1.
  { unfold rt_sem_trytake, rt_sem_take. pose proof (so_lookup _ _ _ Hso) as Hs. destruct (so_header _ _ _ Hso) as [Hy _].
    assert (k_sems k1 !! sem = Some s1) as Hs1 by apply lookup_insert_eq.
    rewrite (bind_ok _ _ k1 tt k1) by (by apply (assert_type_eq _ _ k1 (sem_parent s1)); [apply sem_hdr|]).
    rewrite (bind_ok _ _ k1 s1 k1) by (by apply get_sem_eq). change (0 <? sem_value s1) with true. cbv iota.
    rewrite (bind_ok _ _ k1 tt k); [done|]. unfold put_sem, modify. do 2 f_equal.
    unfold k1, sem_st; kfields. rewrite insert_insert_eq. change (u16 (sem_value s1 - 1)) with 0.
    assert (set_sem_value 0 s1 = s) as -> by (unfold s1, set_sem_value; destruct s; simpl in *; by subst).
    rewrite insert_id by done. by destruct k. }
  by rewrite (bind_ok _ _ k1 (Ret RT_EOK) k).
Qed.

(** Otherwise the first waiting thread is woken. *)
Lemma release_first sem s t l k :
  kernel_ok k -> sem_ok k sem s -> is_Some (k_current k) -> qget (k_tq k) (QSem sem) = t :: l ->
  exists k', rt_sem_release sem k = Some (RT_EOK, k') /\ stirred k k' /\ can_run k' t /\ qget (k_tq k') (QSem sem) = l.
Proof.
  intros Hok Hso Hc Hq. destruct (list_resume_spec (QSem sem) t k Hok) as (th & k1 & Hth & _ & E & W); [done|by rewrite Hq|].
  destruct (schedule_kernel k1) as (k' & Es & Hok' & F & Hc' & _); [apply W|by rewrite (wk_current _ _ _ _ W)|].
  exists k'. split; [|split; [|split]].
  - unfold rt_sem_release. destruct (so_header _ _ _ Hso) as [Hy _].
    rewrite (bind_ok _ _ k tt k) by (apply (assert_type_eq _ _ k (sem_parent s)); [apply sem_hdr, Hso|done]).
    rewrite bind_gets. unfold rt_list_isempty. rewrite Hq. cbn [negb]. rewrite (bind_ok _ _ k RT_EOK k1) by done.
    by rewrite (bind_ok _ _ k1 tt k').
  - apply (stirred_trans k k1); [by apply (woken_stirred t th)|by apply sched_stirred].
  - apply unblocked_runnable with th. by apply (runnable_woken t th k k1).
  - rewrite (sf_wait _ _ F) by done. rewrite (wk_tq _ _ _ _ W) by done. rewrite Hq.
    pose proof (so_nodup _ _ (ok_inv _ (ko_sched _ Hok)) (QSem sem)) as Hnd. rewrite Hq in Hnd.
    apply NoDup_cons in Hnd as [Hn _]. rewrite filter_cons_False by auto. by apply filter_ne_notin.
Qed.

Lemma sem_ok_stirred sem s k k' :
  sem_ok k sem s -> sem_value s = 0 -> stirred k k' -> sem_ok k' sem s.
Proof. intros [] Hz S. constructor; try done; [by rewrite (of_sems _ _ (st_frame _ _ S))|lia]. Qed.

Lemma completion_loop_spec n sem s l k :
  kernel_ok k -> sem_ok k sem s -> sem_value s = 0 -> is_Some (k_current k) -> qget (k_tq k) (QSem sem) = l ->
  exists k', completion_loop (length l + S (S n)) sem k = Some (RT_EOK, k') /\ stirred k k' /\
    qget (k_tq k') (QSem sem) = [] /\ forall t, t ∈ l -> can_run k' t.
Proof.
  revert k. induction l as [|t l IH]; intros k Hok Hso Hz Hc Hq.
  { exists k. split; [by apply (completion_last n sem s)|]. split; [by apply stirred_refl|]. split; [done|].
    intros t Ht. by apply elem_of_nil in Ht. }
  destruct (release_first sem s t l k Hok Hso Hc Hq) as (k1 & E1 & S1 & R1 & Q1).
  destruct (IH k1) as (k' & E & S' & Q & R); [apply S1|by apply (sem_ok_stirred sem s k)|done|by apply S1|done|].
  exists k'. split; [|split; [|split; [done|]]].
  - change (length (t :: l) + S (S n))%nat with (S (length l + S (S n))). cbn [completion_loop].
    rewrite (bind_ok _ _ k (Ret (- RT_ETIMEOUT)) k) by (by apply (trytake_empty sem s)). rewrite Z.eqb_refl.
    by rewrite (bind_ok _ _ k RT_EOK k1).
  - by apply (stirred_trans k k1).
  - intros u [->|Hu]%elem_of_cons; [by apply (can_run_stirred k1); [apply S'|]|by apply R].
Qed.

(** A work item is finished: everybody who waits for it can run, and the queue
    takes the next one. *)
Lemma worker_done_spec fuel q t x th s k :
  kernel_ok k -> wkq_inv None k -> k_workqueues k !! q = Some x -> k_current k = Some (wkq_work_thread x) ->
  k_threads k !! wkq_work_thread x = Some th -> stat_of th = RT_THREAD_RUNNING -> t = wkq_work_thread x ->
  0 <= k_lock_nest k < 32767 -> sem_ok k (wkq_sem x) s -> sem_value s = 0 ->
  (length (qget (k_tq k) (QSem (wkq_sem x))) + 2 <= fuel)%nat ->
  exists k', worker_done fuel q k = Some (tt, k') /\ kernel_ok k' /\ wkq_inv None k' /\
    k_workqueues k' !! q = Some (RtWorkqueue None (wkq_sem x) t) /\ k_wklists k' = k_wklists k /\
    k_works k' = k_works k /\ k_sems k' = k_sems k /\ is_Some (k_current k') /\ k_lock_nest k' = k_lock_nest k /\
    qget (k_tq k') (QSem (wkq_sem x)) = [] /\
    (forall u, u ∈ qget (k_tq k) (QSem (wkq_sem x)) -> can_run k' u) /\ can_run k' t.
Proof.
  intros Hok I Hx Hc Hth Hr -> Hl Hso Hz Hf. set (t := wkq_work_thread x).
  set (k1 := queue_st q (RtWorkqueue None (wkq_sem x) t) k).
  assert (~ blocked th) as Hnb by (intros [_ H]; by rewrite Hr in H).
  assert (wkq_inv None k1) as I1.
  { apply (queue_st_inv None q x); [done|done|]. intros _ y thy Hy _ _ Hty. unfold queue_st in Hy, Hty; kfields.
    rewrite lookup_insert_eq in Hy. injection Hy as <-. cbn [wkq_work_thread] in Hty. congruence. }
  set (l := qget (k_tq k) (QSem (wkq_sem x))) in *. set (k0 := set_k_lock_nest (k_lock_nest k1 + 1) k1).
  destruct (completion_loop_spec (fuel - length l - 2) (wkq_sem x) s l k0) as (k2 & E & S' & Q & R); try done.
  { by apply (kernel_ok_objects k). }
  { destruct Hso. by constructor. }
  replace (length l + S (S (fuel - length l - 2)))%nat with fuel in E by lia.
  destruct (critical_run (q ← get_workqueue q; completion_loop fuel (wkq_sem q)) RT_EOK k1 k2) as (k' & E' & S2 & F); try done.
  { by rewrite (bind_ok _ _ _ (RtWorkqueue None (wkq_sem x) t) k0) by (apply get_workqueue_eq, lookup_insert_eq). }
  pose proof (st_frame _ _ S2) as F2.
  assert (forall u, can_run k2 u -> can_run k' u) as Hrun.
  { intros u Hu. apply (can_run_stirred (set_k_lock_nest (k_lock_nest k1) k2)); [by apply sched_woken_or_same|done]. }
  exists k'. split; [|split; [apply S2|]].
  { unfold worker_done. rewrite (bind_ok _ _ k tt k1) by (by apply set_work_current_eq).
    rewrite (bind_ok _ _ k1 RT_EOK k'); [done|]. rewrite <- E'. unfold _workqueue_work_completion.
    rewrite !bind_unfold. destruct (rt_enter_critical k1) as [[[] k3]|]; [|done]. rewrite !bind_unfold.
    destruct (get_workqueue q k3) as [[y k4]|]; [|done]. rewrite ?bind_unfold. done. }
  split; [by apply (wkq_inv_stirred _ k1)|]. split; [rewrite (of_workqueues _ _ F2); apply lookup_insert_eq|].
  split; [by rewrite (of_wklists _ _ F2)|]. split; [by rewrite (of_works _ _ F2)|].
  split; [by rewrite (of_sems _ _ F2)|]. split; [apply S2; by apply (mk_is_Some _ (wkq_work_thread x))|]. split; [by rewrite (of_lock _ _ F2)|].
  split; [by rewrite (sf_wait _ _ F)|]. split; [intros u Hu; by apply Hrun, R|].
  apply (can_run_stirred k1); [apply S2|]. by exists th.
Qed.
