(* ===== verification/WorkQueueTimer.v ===== *)
(** * Work queues: delayed work

    A delayed work item waits on the timer that it carries, a timer of the timer thread; here
    the timer is set up, restarted and taken down. *)
From S2P Require Import Prelude Kservice Kernel Sched Object Timer Thread KernelInv Boot Ipc IpcSem ObjectSpec Suspend.
From S2P Require Import WorkQueue WorkQueueSpec.

(** ** The timer of a work item *)

(** The timer [w] is changed, and is on none of the two lists. *)
Lemma user_timer_ok w tm' tmq' ol k :
  kernel_ok k -> (forall l, is_global l -> qget tmq' l = filter (fun m => m <> TmUser w) (qget (k_tmq k) l)) ->
  kernel_ok (set_k_objlist ol (set_k_tmq tmq' (set_k_timers (<[TmUser w := tm']> (k_timers k)) k))).
Proof.
  intros [Hs [T1 T2 T3 T4]] Hq. constructor; [by apply (sched_ok_ext k)|]. constructor; kfields.
  - intros t th Ht Hc. rewrite lookup_insert_ne by done. by apply T1.
  - intros l m Hl. rewrite (Hq l Hl), list_elem_of_filter. intros [Hne Hm]. rewrite lookup_insert_ne by congruence.
    by apply T2.
  - intros t l Hl. rewrite (Hq l Hl), list_elem_of_filter. intros [_ Hm]. by apply (T3 t l).
  - intros l Hl. rewrite (Hq l Hl). apply NoDup_filter. by apply T4.
Qed.

(** The timer of [w] and [w] itself are changed, and no other. *)
Record work_changed (w : nat) (x' : rt_work) (k k' : kstate) : Prop := WorkChanged {
  wc_threads : woken_or_same k k';
  wc_lists : k_wklists k' = k_wklists k;
  wc_queues : k_workqueues k' = k_workqueues k;
  wc_works : k_works k' = <[w := x']> (k_works k);
  wc_timers n : n <> w -> k_timers k' !! TmUser n = k_timers k !! TmUser n;
  wc_objects n : n <> w -> OTimer (TmUser n) ∈ qget (k_objlist k') RT_Object_Class_Timer ->
    OTimer (TmUser n) ∈ qget (k_objlist k) RT_Object_Class_Timer;
  wc_rows l n : is_global l -> n <> w -> TmUser n ∈ qget (k_tmq k') l <-> TmUser n ∈ qget (k_tmq k) l
}.

Lemma work_changed_alarm w x' k k' n : work_changed w x' k k' -> n <> w -> alarm k' n = alarm k n.
Proof. intros C Hn. apply alarm_same; [by apply C|]. apply (wc_rows _ _ _ _ C); [by right|done]. Qed.

Lemma work_changed_inv ex w x x' k k' :
  wkq_inv ex k -> k_works k !! w = Some x -> work_changed w x' k k' -> work_ok k' w x' -> wkq_inv ex k'.
Proof.
  intros [] Hx [C1 C2 C3 C4 C5 C6 C7] Hw. constructor; rewrite ?C2, ?C3, ?C4; try done.
  - intros l y Hy. destruct (decide (y = w)) as [->|]; [rewrite lookup_insert_eq|rewrite lookup_insert_ne by done]; eauto.
  - intros q y Hy. apply (worker_ok_stirred k); [done|by eapply wi_worker].
  - intros q Hq. apply (awake_stirred k); try done; [intros y Hy; by eapply wi_worker|by apply wi_awake].
  - intros y z. destruct (decide (y = w)) as [->|Hne]; [rewrite lookup_insert_eq; by intros [= <-]|].
    rewrite lookup_insert_ne by done. intros Hz. specialize (wi_work y z Hz). unfold work_ok in *.
    destruct (has_state _ z); [by rewrite C5|]. destruct wi_work as [H1 H2]. split; [auto|].
    intros l Hl Hin. apply (H2 l Hl). by apply C7.
Qed.

Lemma detached_ok w tm k : kernel_ok k -> kernel_ok (detached (TmUser w) tm k).
Proof. intros Hok. apply user_timer_ok; [done|]. intros l _. apply qget_remove. Qed.

Lemma detached_changed w tm x x' k :
  k_works k !! w = Some x -> work_changed w x' k (work_st w x' (detached (TmUser w) tm k)).
Proof.
  intros Hx. constructor; unfold work_st, detached; kfields; try done.
  - intros t th Ht. exists th. auto.
  - intros n Hn. by rewrite lookup_insert_ne by congruence.
  - intros n _. rewrite elem_remove. tauto.
  - intros l n _ Hn. rewrite elem_remove. split; [tauto|]. split; [congruence|done].
Qed.

Lemma detached_alarm w tm k n : alarm (detached (TmUser w) tm k) n = if decide (n = w) then None else alarm k n.
Proof.
  case_decide as Hn; [subst|apply alarm_same].
  - apply alarm_off. unfold detached; kfields. rewrite elem_remove. tauto.
  - unfold detached; kfields. by rewrite lookup_insert_ne by congruence.
  - unfold detached; kfields. rewrite elem_remove. split; [tauto|]. split; [congruence|done].
Qed.

(** A detached timer is off all lists: the work item may be submitted again. *)
Lemma detached_work w tm x k :
  has_state RT_WORK_STATE_SUBMITTING x = false -> work_ok (detached (TmUser w) tm k) w x.
Proof.
  intros Hs. unfold work_ok. rewrite Hs. unfold detached; kfields.
  split; [rewrite elem_remove; by intros []|]. intros l _. rewrite elem_remove. by intros [].
Qed.

Lemma cleared_state s x : has_state s (clear_state s x) = false.
Proof.
  unfold has_state, clear_state, set_wk_flags. cbn [wk_flags]. rewrite <- Z.land_assoc, (Z.land_comm (Z.lnot s)), Z.land_lnot_diag.
  by rewrite Z.land_0_r.
Qed.

(** The end of the waiting of [w], whose timer is taken down. *)
Lemma timer_taken_down ex w x tm k :
  kernel_ok k -> wkq_inv ex k -> k_works k !! w = Some x -> k_timers k !! TmUser w = Some tm ->
  has_type RT_Object_Class_Timer (tm_parent tm) -> is_static (tm_parent tm) = true ->
  let x' := clear_state RT_WORK_STATE_SUBMITTING x in
  let k' := work_st w x' (detached (TmUser w) tm k) in
  (rt_timer_detach (TmUser w);; upd_work w (clear_state RT_WORK_STATE_SUBMITTING)) k = Some (tt, k') /\
  kernel_ok k' /\ wkq_inv ex k'.
Proof.
  intros Hok I Hx Ht Hy Hs x' k'. split; [|split].
  - rewrite (bind_ok _ _ k RT_EOK (detached (TmUser w) tm k)) by (by apply timer_detach_eq). by apply upd_work_eq.
  - by apply work_st_ok, detached_ok.
  - apply (work_changed_inv ex w x x' k); [done|done|by apply (detached_changed w tm x)|].
    apply (detached_work w tm x'), cleared_state.
Qed.

(** ** The timer expires *)

(** The work item is handed to its queue, unless it is being executed. *)
Lemma timeout_handler_spec q w x y k :
  kernel_ok k -> is_Some (k_current k) -> wkq_inv None k -> k_works k !! w = Some x -> k_workqueues k !! q = Some y ->
  wk_workqueue x = Some q -> has_state RT_WORK_STATE_SUBMITTING x = true ->
  let x1 := clear_state RT_WORK_STATE_SUBMITTING x in
  exists k', _delayed_work_timeout_handler w k = Some (tt, k') /\
    alarm k' w = None /\
    if decide (wkq_work_current y = Some w) then acted w (without w k) x1 k k'
    else acted w (fun l => without w k l ++ if decide (l = WLWork q) then [w] else [])
           (set_state RT_WORK_STATE_PENDING x1) k k'.
Proof.
  intros Hok Hc I Hx Hy Hq Hs x1. pose proof (wi_work _ _ I w x Hx) as Hw. unfold work_ok in Hw. rewrite Hs in Hw.
  destruct Hw as (tm & Htm & Hty & Hst & _).
  destruct (timer_taken_down None w x tm k Hok I Hx Htm Hty Hst) as (E1 & Hok1 & I1). fold x1 in E1, Hok1, I1.
  set (k1 := work_st w x1 (detached (TmUser w) tm k)) in *. set (k2 := off_lists w k1).
  assert (forall A (f : M A), (rt_timer_detach (TmUser w);; upd_work w (clear_state RT_WORK_STATE_SUBMITTING);; f) k = f k1) as Eb.
  { intros A f. revert E1. rewrite !bind_unfold. destruct (rt_timer_detach _ k) as [[r k3]|]; [|done].
    rewrite bind_unfold. by intros ->. }
  assert (forall l, qget (k_wklists k2) l = without w k l) as Hl2 by (intros l; unfold k2; by rewrite off_lists_get).
  unfold _delayed_work_timeout_handler. rewrite (bind_ok _ _ k x k) by (by apply get_work_eq). rewrite Hq.
  rewrite (bind_ok _ _ k tt k) by done. rewrite (bind_ok _ _ k q k) by done. rewrite Eb, off_lists_bind. fold k2.
  rewrite (bind_ok _ _ k2 y k2) by (by apply get_workqueue_eq).
  assert (kernel_ok k2) as Hok2 by (by apply lists_st_ok). assert (wkq_inv None k2) as I2 by (by apply unlink_inv).
  assert (k_works k2 !! w = Some x1) as Hx2 by apply lookup_insert_eq.
  assert (forall n, alarm k2 n = if decide (n = w) then None else alarm k n) as Ha by (intros n; apply (detached_alarm w tm k)).
  assert (alarm k2 w = None) as Haw by (by rewrite Ha, decide_True).
  destruct (decide (wkq_work_current y = Some w)) as [Hcw|Hcw].
  - rewrite decide_False by auto. rewrite (bind_ok _ _ k2 tt k2) by done.
    destruct (stirred_acted q w (without w k) x1 k k2) as (k' & E & A & Ea); try done; [by apply wkq_inv_weaken| |].
    { intros n Hn. by rewrite Ha, decide_False. }
    exists k'. split; [done|]. by rewrite Ea.
  - rewrite decide_True by done.
    destruct (append_work_spec q w x1 k2) as (E3 & Hok3 & I3); try done; [by left| |].
    { intros l. rewrite Hl2. apply without_not_in. }
    set (k3 := work_st w (set_state RT_WORK_STATE_PENDING x1) (lists_st (rt_list_insert_before (WLWork q) w (k_wklists k2)) k2)) in *.
    rewrite (bind_ok _ _ k2 tt k3) by exact E3.
    destruct (stirred_acted q w (fun l => without w k l ++ if decide (l = WLWork q) then [w] else [])
                (set_state RT_WORK_STATE_PENDING x1) k k3) as (k' & E & A & Ea); try done;
      [| | |exists k'; split; [done|by rewrite Ea]].
    + intros l. change (k_wklists k3) with (rt_list_insert_before (WLWork q) w (k_wklists k2)).
      rewrite qget_insert_before, !Hl2. destruct (decide (WLWork q = l)) as [<-|Hne]; [by rewrite decide_True|].
      by rewrite decide_False, app_nil_r.
    + unfold k3, k2, k1, work_st, off_lists, lists_st. kfields. by rewrite !insert_insert_eq.
    + intros n Hn. change (alarm k2 n = alarm k n). by rewrite Ha, decide_False.
Qed.

(** ** Cancelling *)

(** A work item that waits for nothing. *)
Definition idle_work (x : rt_work) : rt_work :=
  let x1 := clear_state RT_WORK_STATE_PENDING x in
  set_wk_workqueue None (if has_state RT_WORK_STATE_SUBMITTING x then clear_state RT_WORK_STATE_SUBMITTING x1 else x1).

Lemma idle_work_state x : has_state RT_WORK_STATE_SUBMITTING (idle_work x) = false.
Proof.
  unfold idle_work. destruct (has_state RT_WORK_STATE_SUBMITTING x) eqn:E; [apply (cleared_state _ (clear_state _ x))|].
  change (has_state RT_WORK_STATE_SUBMITTING (clear_state RT_WORK_STATE_PENDING x) = false). by rewrite (proj2 (pending_submitting x)).
Qed.

Lemma stop_then_detach w tm k :
  k_timers k !! TmUser w = Some tm -> has_type RT_Object_Class_Timer (tm_parent tm) -> is_static (tm_parent tm) = true ->
  exists r tm', rt_timer_stop (TmUser w) k = Some (r, stop_st (TmUser w) tm k) /\
    k_timers (stop_st (TmUser w) tm k) !! TmUser w = Some tm' /\
    has_type RT_Object_Class_Timer (tm_parent tm') /\ is_static (tm_parent tm') = true.
Proof.
  intros Ht Hy Hs. eexists _, _. split; [by apply timer_stop_eq|].
  rewrite (stop_st_timers _ tm) by done. rewrite decide_True by done. split; [done|]. by destruct (activated tm).
Qed.

Lemma stop_changed w tm x k :
  k_timers k !! TmUser w = Some tm -> k_works k !! w = Some x ->
  work_changed w x k (stop_st (TmUser w) tm k).
Proof.
  intros Ht Hx. destruct (stop_st_fields (TmUser w) tm k) as (F1 & _ & _ & _ & _ & F). constructor.
  - intros t th Hth. rewrite F1. exists th. auto.
  - apply F.
  - apply F.
  - rewrite (of_works _ _ F). symmetry. by apply insert_id.
  - intros n Hn. rewrite (stop_st_timers _ tm) by done. by rewrite decide_False by congruence.
  - intros n _. by rewrite (of_objlist _ _ F).
  - intros l n _ Hn. unfold stop_st. destruct (activated tm); [|done]. unfold timer_st; kfields. rewrite elem_remove.
    split; [tauto|]. split; [congruence|done].
Qed.

(** The timer is stopped and taken down, if there is one. *)
Lemma timer_cancelled ex w x k :
  kernel_ok k -> wkq_inv ex k -> k_works k !! w = Some x ->
  let x' := if has_state RT_WORK_STATE_SUBMITTING x then clear_state RT_WORK_STATE_SUBMITTING x else x in
  exists k', when (has_state RT_WORK_STATE_SUBMITTING x)
      (rt_timer_stop (TmUser w);; rt_timer_detach (TmUser w);; upd_work w (clear_state RT_WORK_STATE_SUBMITTING)) k =
      Some (tt, k') /\
    kernel_ok k' /\ wkq_inv ex k' /\ k_works k' = <[w := x']> (k_works k) /\ k_wklists k' = k_wklists k /\
    k_workqueues k' = k_workqueues k /\ k_threads k' = k_threads k /\ k_current k' = k_current k /\
    k_lock_nest k' = k_lock_nest k /\ forall n, alarm k' n = if decide (n = w) then None else alarm k n.
Proof.
  intros Hok I Hx x'. pose proof (wi_work _ _ I w x Hx) as Hw. unfold work_ok in Hw. unfold x'.
  destruct (has_state RT_WORK_STATE_SUBMITTING x) eqn:Hs.
  2: { exists k. split_and!; try done; [symmetry; by apply insert_id|]. intros n. case_decide as Hn; [|done].
       subst n. apply alarm_off. apply Hw. by right. }
  destruct Hw as (tm & Htm & Hty & Hst & Hso). destruct (stop_then_detach w tm k Htm Hty Hst) as (r & tm1 & E1 & Ht1 & Hy1 & Hs1).
  destruct (stop_st_fields (TmUser w) tm k) as (F1 & _ & F3 & _ & _ & F). set (k1 := stop_st (TmUser w) tm k) in *.
  assert (kernel_ok k1) as Hok1 by (by apply stop_kernel_ok).
  assert (k_works k1 !! w = Some x) as Hx1 by (by rewrite (of_works _ _ F)).
  assert (wkq_inv ex k1) as I1.
  { apply (work_changed_inv ex w x x k); [done|done|by apply stop_changed|]. unfold work_ok. rewrite Hs. exists tm1.
    split_and!; try done. unfold k1 in Ht1. rewrite (stop_st_timers _ tm), decide_True in Ht1 by done. injection Ht1 as <-.
    destruct (activated tm); [|done]. by rewrite (proj1 (proj2 (deactivate_fields tm))). }
  destruct (timer_taken_down ex w x tm1 k1 Hok1 I1 Hx1 Ht1 Hy1 Hs1) as (E2 & Hok2 & I2). eexists. split.
  { cbn [when]. rewrite (bind_ok _ _ k r k1) by done. exact E2. }
  split; [done|]. split; [done|].
  assert (forall n, alarm (detached (TmUser w) tm1 k1) n = if decide (n = w) then None else alarm k n) as Ha.
  { intros n. rewrite detached_alarm. case_decide as Hn; [done|]. apply (work_changed_alarm w x); [by apply stop_changed|done]. }
  unfold work_st, detached; kfields.
  rewrite (of_works _ _ F), (of_wklists _ _ F), (of_workqueues _ _ F), (of_lock _ _ F), F1, F3. done.
Qed.

Lemma cancel_spec q w x y k :
  kernel_ok k -> is_Some (k_current k) -> wkq_inv None k -> k_works k !! w = Some x -> k_workqueues k !! q = Some y ->
  exists k', _workqueue_cancel_work q w k =
      Some (if decide (wkq_work_current y = Some w) then - RT_EBUSY else RT_EOK, k') /\
    acted w (without w k) (idle_work x) k k' /\ alarm k' w = None.
Proof.
  intros Hok Hc I Hx Hy. destruct (taken_off_spec None w x k Hok I Hx) as (Hok1 & I1 & Hl1 & Hx1).
  set (k1 := taken_off w x k) in *. set (x1 := clear_state RT_WORK_STATE_PENDING x) in *.
  destruct (timer_cancelled None w x1 k1 Hok1 I1 Hx1) as (k2 & E2 & Hok2 & I2 & W2 & L2 & Q2 & T2 & C2 & N2 & Ha).
  set (x2 := if has_state RT_WORK_STATE_SUBMITTING x1 then _ else _) in W2.
  assert (x2 = if has_state RT_WORK_STATE_SUBMITTING x then clear_state RT_WORK_STATE_SUBMITTING x1 else x1) as Ex2.
  { unfold x2, x1. by rewrite (proj2 (pending_submitting x)). }
  assert (k_works k2 !! w = Some x2) as Hx2 by (rewrite W2; apply lookup_insert_eq).
  set (k3 := work_st w (set_wk_workqueue None x2) k2). exists k3. split.
  - unfold _workqueue_cancel_work. rewrite (take_off_bind w x) by done. fold x1 k1.
    rewrite (bind_ok _ _ k1 x1 k1) by (by apply get_work_eq). rewrite (bind_ok _ _ k1 tt k2) by exact E2.
    rewrite (bind_ok _ _ k2 y k2) by (apply get_workqueue_eq; by rewrite Q2). cbv zeta.
    rewrite (bind_ok _ _ k2 tt k3) by (by apply (upd_work_eq w (set_wk_workqueue None) x2)).
    destruct (decide (wkq_work_current y = Some w)); [by rewrite decide_False by auto|by rewrite decide_True].
  - split; [|change (alarm k2 w = None); by rewrite Ha, decide_True]. constructor.
    + by apply work_st_ok.
    + change (k_current k3) with (k_current k2). by rewrite C2.
    + by apply (work_st_inv _ w x2).
    + intros l. change (k_wklists k3) with (k_wklists k2). by rewrite L2, Hl1.
    + unfold k3, work_st; kfields. rewrite W2. unfold k1, taken_off, work_st; kfields. rewrite !insert_insert_eq.
      unfold idle_work. by rewrite Ex2.
    + change (k_workqueues k3) with (k_workqueues k2). by rewrite Q2.
    + intros t th Ht. change (k_threads k3) with (k_threads k2). rewrite T2. exists th. auto.
    + change (k_lock_nest k3) with (k_lock_nest k2). by rewrite N2.
    + intros n Hn. change (alarm k2 n = alarm k n). by rewrite Ha, decide_False.
Qed.

(** ** Delayed work *)

(** Starting a timer of the timer thread, which is woken if it sleeps. *)
Lemma timer_start_soft m tm k :
  kernel_ok k -> is_Some (k_current k) -> k_timers k !! m = Some tm -> has_type RT_Object_Class_Timer (tm_parent tm) ->
  is_soft tm = true -> (forall t, m <> TmThread t) -> worker_ok k (k_timer_thread k) ->
  exists l1 l2 k1 k', rt_timer_start m k = Some (RT_EOK, k') /\ timer_started m tm l1 l2 k k1 /\
    kernel_ok k1 /\ stirred k1 k'.
Proof.
  intros Hok Hc Hm Hy Hs Hnt Hw. destruct (timer_start_core m tm k (ko_timer k Hok) Hm Hy) as (l1 & l2 & k1 & T & E).
  assert (kernel_ok k1) as Hok1.
  { constructor.
    - pose proof (ts_state _ _ _ _ _ _ T) as ->. apply (sched_ok_ext k); try done. apply Hok.
    - apply (timer_started_inv m tm l1 l2 k k1); try done; [apply Hok|]. intros t Ht. by apply Hnt in Ht. }
  assert (k_current k1 = k_current k /\ k_threads k1 = k_threads k /\ k_timer_thread k1 = k_timer_thread k) as (C1 & T1 & M1)
    by (by rewrite (ts_state _ _ _ _ _ _ T)).
  destruct Hw as (th & Ht & Hst). rewrite <- M1, <- T1 in Ht.
  assert (exists k', rt_timer_start m k = Some (RT_EOK, k') /\ stirred k1 k') as (k' & E' & S'); [|by exists l1, l2, k1, k'].
  rewrite E, Hs. destruct (Z.eqb_spec (k_soft_status k1) RT_SOFT_TIMER_IDLE) as [Ei|Ei].
  - destruct (Z.eqb_spec (stat_of th) RT_THREAD_SUSPEND) as [Es|Es].
    + destruct (resume_schedule_spec (k_timer_thread k1) th k1 Hok1) as (k' & Er & S' & _); [by rewrite C1|done|done|].
      exists k'. split; [|done]. revert Er. mrun. rewrite Ei, Z.eqb_refl. mrun. rewrite (get_thread_eq _ k1 th) by done.
      rewrite Es. simpl. destruct (rt_thread_resume _ k1) as [[r k2]|]; [|done]. by intros ->.
    + exists k1. split; [|by apply stirred_refl]. mrun. rewrite Ei, Z.eqb_refl. mrun. rewrite (get_thread_eq _ k1 th) by done.
      by rewrite (proj2 (Z.eqb_neq _ _)) by done.
  - exists k1. split; [|by apply stirred_refl]. mrun. by rewrite (proj2 (Z.eqb_neq _ _)) by done.
Qed.

(** [rt_timer_init] of the timer of a work item that does not wait for it. *)
Definition fresh_timer (h : option rt_object) (ticks : Z) : rt_timer :=
  RtTimer (set_o_flag RT_TIMER_FLAG_SOFT_TIMER (init_hdr RT_Object_Class_Timer work_name h)) ticks 0.

Definition timer_init_st (w : nat) (ticks : Z) (k : kstate) : kstate :=
  set_k_objlist (rt_list_insert_after RT_Object_Class_Timer (OTimer (TmUser w)) (k_objlist k))
    (set_k_timers (<[TmUser w := fresh_timer (obj_hdr (OTimer (TmUser w)) k) ticks]> (k_timers k)) k).

Lemma work_timer_init w ticks k :
  kernel_ok k -> OTimer (TmUser w) ∉ qget (k_objlist k) RT_Object_Class_Timer ->
  rt_list_init_node (TmUser w) (k_tmq k) = true -> ticks < RT_TICK_MAX / 2 -> 0 <= k_lock_nest k < 32767 ->
  exists k', settled k k' /\
    rt_timer_init (TmUser w) work_name ticks (Z.lor RT_TIMER_FLAG_ONE_SHOT RT_TIMER_FLAG_SOFT_TIMER) k =
      Some (tt, timer_init_st w ticks k').
Proof.
  intros Hok Ho Hf Ht Hl.
  destruct (object_init_spec (OTimer (TmUser w)) RT_Object_Class_Timer work_name k) as (k' & Hs & E); [done| |done..|].
  { eexists. vm_compute. reflexivity. }
  exists k'. split; [done|]. unfold rt_timer_init. rewrite (proj2 (Z.ltb_lt _ _)) by done.
  rewrite (bind_ok _ _ k tt k) by done. rewrite (bind_ok _ _ k tt _) by exact E.
  set (k1 := init_st (OTimer (TmUser w)) RT_Object_Class_Timer work_name k').
  set (tm1 := set_tm_parent (init_hdr RT_Object_Class_Timer work_name (obj_hdr (OTimer (TmUser w)) k'))
                (default raw_timer (k_timers k' !! TmUser w))).
  assert (k_timers k1 !! TmUser w = Some tm1) as H1 by apply lookup_insert_eq.
  unfold _timer_init, clear_activated. mrun.
  rewrite (upd_timer_eq (TmUser w) _ k1 tm1) by done. do 3 (rewrite (upd_timer_eq (TmUser w) _ _ _) by apply timer_st_lookup).
  rewrite !timer_st_st. unfold timer_st at 1; kfields.
  change (k_tmq k1) with (k_tmq k'). rewrite (proj1 (proj2 (sched_frame_fields _ _ (se_frame _ _ Hs)))), Hf. cbn [rt_assert].
  do 2 f_equal. unfold k1, timer_st, timer_init_st, init_st; simpl. by rewrite insert_insert_eq.
Qed.

(** The timer of [w], ready to be started for [ticks] ticks. *)
Record prepared (w : nat) (x' : rt_work) (ticks : Z) (k k' : kstate) : Prop := Prepared {
  pp_ok : kernel_ok k';
  pp_inv : wkq_inv None k';
  pp_changed : work_changed w x' k k';
  pp_current : is_Some (k_current k) -> is_Some (k_current k');
  pp_lock : k_lock_nest k' = k_lock_nest k;
  pp_tick : k_tick k' = k_tick k;
  pp_thread : k_timer_thread k' = k_timer_thread k;
  pp_timer : exists tm, k_timers k' !! TmUser w = Some tm /\ tm_init_tick tm = ticks /\
    has_type RT_Object_Class_Timer (tm_parent tm) /\ is_static (tm_parent tm) = true /\ is_soft tm = true
}.

Lemma set_submitting x : has_state RT_WORK_STATE_SUBMITTING (set_state RT_WORK_STATE_SUBMITTING x) = true.
Proof.
  unfold has_state, set_state, set_wk_flags. cbn [wk_flags]. apply negb_true_iff, Z.eqb_neq. rewrite Z.land_lor_distr_l.
  change (Z.land RT_WORK_STATE_SUBMITTING RT_WORK_STATE_SUBMITTING) with 2. intros H. apply Z.lor_eq_0_iff in H. lia.
Qed.

(** A timer that runs is stopped, and set to the new time. *)
Lemma timer_restarted w x ticks k :
  kernel_ok k -> wkq_inv None k -> k_works k !! w = Some x -> has_state RT_WORK_STATE_SUBMITTING x = true ->
  ticks < RT_TICK_MAX / 2 ->
  exists k', (rt_timer_stop (TmUser w);; rt_timer_control (TmUser w) RT_TIMER_CTRL_SET_TIME ticks;; mret tt) k =
      Some (tt, k') /\ prepared w x ticks k k'.
Proof.
  intros Hok I Hx Hs Ht. pose proof (wi_work _ _ I w x Hx) as Hw. unfold work_ok in Hw. rewrite Hs in Hw.
  destruct Hw as (tm & Htm & Hty & Hst & Hso). destruct (stop_then_detach w tm k Htm Hty Hst) as (r & tm1 & E1 & Ht1 & Hy1 & Hs1).
  assert (is_soft tm1 = true) as Hso1.
  { rewrite (stop_st_timers _ tm), decide_True in Ht1 by done. injection Ht1 as <-. destruct (activated tm); [|done].
    by rewrite (proj1 (proj2 (deactivate_fields tm))). }
  destruct (stop_st_fields (TmUser w) tm k) as (F1 & _ & F3 & _ & _ & F). pose proof (stop_changed w tm x k Htm Hx) as C.
  pose proof (proj2 (timer_stop_inv (TmUser w) tm k (ko_timer _ Hok) Htm)) as Hun.
  assert (kernel_ok (stop_st (TmUser w) tm k)) as Hok1 by (by apply stop_kernel_ok).
  set (k1 := stop_st (TmUser w) tm k) in *. set (k2 := timer_st (TmUser w) (set_tm_init_tick ticks tm1) k1).
  assert (work_changed w x k k2) as C2.
  { destruct C as [C1 C2 C3 C4 C5 C6 C7]. constructor; try done. intros n Hn. unfold k2, timer_st; kfields.
    rewrite lookup_insert_ne by congruence. by apply C5. }
  assert (k_timers k2 !! TmUser w = Some (set_tm_init_tick ticks tm1)) as Ht2 by apply timer_st_lookup.
  exists k2. split.
  { rewrite (bind_ok _ _ k r k1) by done. rewrite (bind_ok _ _ k1 (RT_EOK, ticks) k2); [done|]. unfold rt_timer_control.
    rewrite (bind_ok _ _ k1 tt k1) by (by apply (assert_timer_type k1 (TmUser w) tm1)).
    rewrite (bind_ok _ _ k1 tm1 k1) by (by apply get_timer_eq).
    change (RT_TIMER_CTRL_SET_TIME =? RT_TIMER_CTRL_GET_TIME) with false.
    change (RT_TIMER_CTRL_SET_TIME =? RT_TIMER_CTRL_SET_TIME) with true. cbv iota. rewrite (proj2 (Z.ltb_lt _ _)) by done.
    rewrite (bind_ok _ _ k1 tt k1) by done. by rewrite (bind_ok _ _ k1 tt k2) by (by apply (upd_timer_eq (TmUser w) _ k1 tm1)). }
  constructor; try done.
  - apply (user_timer_ok w (set_tm_init_tick ticks tm1) (k_tmq k1) (k_objlist k1) k1); [done|].
    intros l Hl. symmetry. apply filter_ne_notin. by apply Hun.
  - apply (work_changed_inv None w x x k); try done. unfold work_ok. rewrite Hs. by exists (set_tm_init_tick ticks tm1).
  - change (k_current k2) with (k_current k1). by rewrite F3.
  - apply (of_lock _ _ F).
  - apply (of_tick _ _ F).
  - apply (of_timer_thread _ _ F).
  - by exists (set_tm_init_tick ticks tm1).
Qed.

(** A timer that does not run is set up. *)
Lemma timer_set_up w x ticks k :
  kernel_ok k -> is_Some (k_current k) -> wkq_inv None k -> k_works k !! w = Some x ->
  has_state RT_WORK_STATE_SUBMITTING x = false -> rt_list_init_node (TmUser w) (k_tmq k) = true ->
  ticks < RT_TICK_MAX / 2 -> 0 <= k_lock_nest k < 32767 ->
  exists k', (rt_timer_init (TmUser w) work_name ticks (Z.lor RT_TIMER_FLAG_ONE_SHOT RT_TIMER_FLAG_SOFT_TIMER);;
              upd_work w (set_state RT_WORK_STATE_SUBMITTING)) k = Some (tt, k') /\
    prepared w (set_state RT_WORK_STATE_SUBMITTING x) ticks k k'.
Proof.
  intros Hok Hc I Hx Hs Hf Ht Hl. pose proof (wi_work _ _ I w x Hx) as Hw. unfold work_ok in Hw. rewrite Hs in Hw.
  destruct Hw as [Ho Hn]. destruct (work_timer_init w ticks k) as (k1 & [Hok1 F Hc1] & E); try done.
  pose proof (sched_obj_frame _ _ F) as O. destruct (sched_frame_fields _ _ F) as (Ftm & Ftmq & _).
  set (k2 := timer_init_st w ticks k1) in *. set (x' := set_state RT_WORK_STATE_SUBMITTING x).
  assert (k_works k2 !! w = Some x) as Hx2 by (change (k_works k2) with (k_works k1); by rewrite (of_works _ _ O)).
  set (k3 := work_st w x' k2). set (tm := fresh_timer (obj_hdr (OTimer (TmUser w)) k1) ticks).
  assert (k_timers k3 !! TmUser w = Some tm) as Ht3 by apply lookup_insert_eq.
  assert (work_changed w x' k k3) as C.
  { constructor.
    - intros t th Hth. by apply (sched_woken_or_same k k1 F t th).
    - apply (of_wklists _ _ O).
    - apply (of_workqueues _ _ O).
    - change (k_works k3) with (<[w := x']> (k_works k1)). by rewrite (of_works _ _ O).
    - intros n Hne. unfold k3, work_st, k2, timer_init_st; kfields. rewrite lookup_insert_ne by congruence. by rewrite Ftm.
    - intros n Hne. unfold k3, work_st, k2, timer_init_st; kfields. rewrite elem_insert_after, (of_objlist _ _ O).
      intros [?|[[= ?] _]]; [done|congruence].
    - intros l n _ _. change (k_tmq k3) with (k_tmq k1). by rewrite Ftmq. }
  exists k3. split; [|constructor].
  - rewrite (bind_ok _ _ k tt k2) by done. by apply upd_work_eq.
  - apply work_st_ok. apply (user_timer_ok w tm (k_tmq k1)); [done|]. intros l Hg. symmetry. apply filter_ne_notin.
    rewrite Ftmq. by apply Hn.
  - apply (work_changed_inv None w x x' k); [done|done|done|]. unfold work_ok, x'. rewrite set_submitting. by exists tm.
  - done.
  - done.
  - apply (of_lock _ _ O).
  - apply (of_tick _ _ O).
  - apply (of_timer_thread _ _ O).
  - by exists tm.
Qed.

(** A work item that waits for its timer. *)
Definition delayed_work (q : nat) (x : rt_work) : rt_work :=
  let x1 := clear_state RT_WORK_STATE_PENDING x in
  set_wk_workqueue (Some q) (if has_state RT_WORK_STATE_SUBMITTING x1 then x1 else set_state RT_WORK_STATE_SUBMITTING x1).

(** The timer of [w] has [ticks] ticks to go. *)
Definition counting (w : nat) (ticks : Z) (k k' : kstate) : Prop :=
  TmUser w ∈ qget (k_tmq k') TLSoft /\
  exists tm, k_timers k' !! TmUser w = Some tm /\ tm_timeout_tick tm = u32 (k_tick k + ticks).

(** Setting it up, or again. *)
Lemma timer_prepared w x ticks k :
  kernel_ok k -> is_Some (k_current k) -> wkq_inv None k -> k_works k !! w = Some x ->
  (has_state RT_WORK_STATE_SUBMITTING x = false -> rt_list_init_node (TmUser w) (k_tmq k) = true) ->
  ticks < RT_TICK_MAX / 2 -> 0 <= k_lock_nest k < 32767 ->
  exists k', (if has_state RT_WORK_STATE_SUBMITTING x then
       rt_timer_stop (TmUser w);; rt_timer_control (TmUser w) RT_TIMER_CTRL_SET_TIME ticks;; mret tt
     else
       rt_timer_init (TmUser w) work_name ticks (Z.lor RT_TIMER_FLAG_ONE_SHOT RT_TIMER_FLAG_SOFT_TIMER);;
       upd_work w (set_state RT_WORK_STATE_SUBMITTING)) k = Some (tt, k') /\
    prepared w (if has_state RT_WORK_STATE_SUBMITTING x then x else set_state RT_WORK_STATE_SUBMITTING x) ticks k k'.
Proof.
  intros Hok Hc I Hx Hf Ht Hl. destruct (has_state RT_WORK_STATE_SUBMITTING x) eqn:Hs.
  - by apply timer_restarted.
  - apply timer_set_up; try done. by apply Hf.
Qed.

(** The other timers on the lists. *)
Lemma started_in m tm l1 l2 k k' l p :
  timer_started m tm l1 l2 k k' -> p <> m -> p ∈ qget (k_tmq k') l <-> p ∈ qget (k_tmq k) l.
Proof.
  intros T Hne. rewrite (ts_state _ _ _ _ _ _ T). unfold timer_st; kfields.
  rewrite qget_insert. case_decide as Hl.
  - subst l. assert (p ∈ l1 ++ l2 <-> p ∈ qget (k_tmq k) (list_of tm)) as H.
    { rewrite <- (ts_rows _ _ _ _ _ _ T), list_elem_of_filter. tauto. }
    rewrite <- H, !elem_of_app, elem_of_cons. tauto.
  - rewrite elem_remove. tauto.
Qed.

Lemma prepared_start q w x x' ticks k k1 :
  prepared w x' ticks k k1 -> k_works k !! w = Some x -> has_state RT_WORK_STATE_SUBMITTING x' = true ->
  is_Some (k_current k) -> worker_ok k (k_timer_thread k) -> (forall l, w ∉ qget (k_wklists k) l) ->
  let m := rt_list_insert_before (WLDelayed q) w (k_wklists k1) in
  exists k', rt_timer_start (TmUser w) (lists_st m (work_st w (set_wk_workqueue (Some q) x') k1)) = Some (RT_EOK, k') /\
    kernel_ok k' /\ is_Some (k_current k') /\ wkq_inv None k' /\ k_wklists k' = m /\
    k_works k' = <[w := set_wk_workqueue (Some q) x']> (k_works k) /\ k_workqueues k' = k_workqueues k /\
    woken_or_same k k' /\ k_lock_nest k' = k_lock_nest k /\ counting w ticks k k' /\
    forall n, n <> w -> alarm k' n = alarm k n.
Proof.
  intros [P1 P2 P3 P4 P5 P6 P7 (tm & Htm & Hin & Hty & Hst & Hso)] Hx Hs Hc Hw Hn m.
  set (x2 := set_wk_workqueue (Some q) x'). set (k2 := lists_st m (work_st w x2 k1)).
  assert (k_works k1 !! w = Some x') as Hx1 by (rewrite (wc_works _ _ _ _ P3); apply lookup_insert_eq).
  assert (k_works k2 !! w = Some x2) as Hx2 by apply lookup_insert_eq.
  assert (wkq_inv None k2) as I2.
  { apply (link_inv None w (WLDelayed q)); [by apply (work_st_inv _ w x')|by exists x2| | |done].
    - intros l. change (k_wklists (work_st w x2 k1)) with (k_wklists k1). by rewrite (wc_lists _ _ _ _ P3).
    - left. intros l. unfold m. rewrite qget_insert_before. case_decide; [by subst|done]. }
  destruct (timer_start_soft (TmUser w) tm k2) as (l1 & l2 & k3 & k' & E & T & Hok3 & S'); try done.
  { by apply lists_st_ok, work_st_ok. }
  { by apply P4. }
  { change (k_timer_thread k2) with (k_timer_thread k1). rewrite P7. by apply (worker_ok_stirred k); [apply P3|]. }
  pose proof (ts_state _ _ _ _ _ _ T) as Ek3. destruct (started_fields (k_tick k2) tm) as (G1 & G2 & G3 & G4 & G5 & _).
  assert (work_changed w x2 k2 k3) as C3.
  { rewrite Ek3. constructor; unfold timer_st; kfields; try done.
    - intros t th Hth. exists th. auto.
    - symmetry. by apply insert_id.
    - intros n Hne. by rewrite lookup_insert_ne by congruence.
    - intros l n Hg Hne. pose proof (started_in (TmUser w) tm l1 l2 k2 k3 l (TmUser n) T ltac:(congruence)) as H.
      by rewrite Ek3 in H. }
  assert (wkq_inv None k3) as I3.
  { apply (work_changed_inv None w x2 x2 k2); try done. unfold work_ok. change (has_state _ x2) with (has_state RT_WORK_STATE_SUBMITTING x').
    rewrite Hs, Ek3. exists (started (k_tick k2) tm). split; [apply timer_st_lookup|]. split_and!.
    - unfold has_type in *. by rewrite G4.
    - unfold is_static in *. by rewrite G4.
    - by rewrite G1. }
  pose proof (st_frame _ _ S') as F. exists k'. split; [done|]. split; [apply S'|]. split.
  { apply S'. rewrite Ek3. by apply P4. }
  split; [by apply (wkq_inv_stirred _ k3)|]. split; [by rewrite (of_wklists _ _ F), Ek3|]. split.
  { rewrite (of_works _ _ F), Ek3. change (<[w := x2]> (k_works k1) = <[w := x2]> (k_works k)).
    by rewrite (wc_works _ _ _ _ P3), insert_insert_eq. }
  split; [rewrite (of_workqueues _ _ F), Ek3; apply P3|]. split.
  { transitivity k1; [apply P3|]. transitivity k3; [|apply S']. intros t th Hth. rewrite Ek3. exists th. auto. }
  split; [rewrite (of_lock _ _ F), Ek3; apply P5|]. split; [split|].
  - apply (st_rows _ _ S'); [by right|]. rewrite Ek3. unfold timer_st, list_of; kfields. rewrite Hso, qget_insert, decide_True by done.
    apply elem_of_app. right. by left.
  - exists (started (k_tick k2) tm). rewrite (st_timers _ _ S'), Ek3, G5, Hin. split; [apply timer_st_lookup|].
    change (k_tick k2) with (k_tick k1). by rewrite P6.
  - intros n Hne. rewrite (alarm_stirred _ _ n S'), (work_changed_alarm _ _ _ _ n C3 Hne).
    apply (work_changed_alarm _ _ _ _ n P3 Hne).
Qed.

Lemma submit_later_spec q w x ticks k :
  kernel_ok k -> is_Some (k_current k) -> wkq_inv None k -> k_works k !! w = Some x ->
  (has_state RT_WORK_STATE_SUBMITTING x = false -> rt_list_init_node (TmUser w) (k_tmq k) = true) ->
  worker_ok k (k_timer_thread k) -> 0 <= k_lock_nest k < 32767 -> 0 < ticks < RT_TICK_MAX / 2 ->
  exists k', _workqueue_submit_work q w ticks k = Some (RT_EOK, k') /\
    acted w (fun l => without w k l ++ if decide (l = WLDelayed q) then [w] else []) (delayed_work q x) k k' /\
    alarm k' w = Some (u32 (k_tick k + ticks)).
Proof.
  intros Hok Hc I Hx Hf Hw Hl Ht. destruct (taken_off_spec None w x k Hok I Hx) as (Hok1 & I1 & Hl1 & Hx1).
  set (k1 := taken_off w x k) in *. set (x1 := clear_state RT_WORK_STATE_PENDING x) in *.
  destruct (timer_prepared w x1 ticks k1) as (k2 & E2 & P2); try done; [|lia|].
  { unfold x1. rewrite (proj2 (pending_submitting x)). exact Hf. }
  set (x2 := if has_state RT_WORK_STATE_SUBMITTING x1 then x1 else _) in P2.
  assert (has_state RT_WORK_STATE_SUBMITTING x2 = true) as Hs2.
  { unfold x2. destruct (has_state RT_WORK_STATE_SUBMITTING x1) eqn:E; [done|apply set_submitting]. }
  destruct (prepared_start q w x1 x2 ticks k1 k2) as (k' & E & R1 & R2 & R3 & R4 & R5 & R6 & R7 & R8 & R9 & R10); try done.
  { intros l. rewrite Hl1. apply without_not_in. }
  exists k'. split; [|split].
  - unfold _workqueue_submit_work. rewrite (take_off_bind w x) by done. fold x1 k1.
    rewrite (proj2 (Z.eqb_neq ticks 0)) by lia. rewrite (proj2 (Z.ltb_lt _ _)) by lia.
    rewrite (bind_ok _ _ k1 x1 k1) by (by apply get_work_eq). rewrite (bind_ok _ _ k1 tt k2) by exact E2.
    rewrite (bind_ok _ _ k2 tt (work_st w (set_wk_workqueue (Some q) x2) k2)).
    2: { apply (upd_work_eq w (set_wk_workqueue (Some q)) x2). rewrite (wc_works _ _ _ _ (pp_changed _ _ _ _ _ P2)). apply lookup_insert_eq. }
    set (k3 := work_st w _ k2) in *. set (k4 := lists_st _ k3) in E. rewrite (bind_ok _ _ k3 tt k4) by done.
    by rewrite (bind_ok _ _ k4 RT_EOK k').
  - constructor; try done.
    + intros l. rewrite R4, (wc_lists _ _ _ _ (pp_changed _ _ _ _ _ P2)), qget_insert_before, !Hl1.
      destruct (decide (WLDelayed q = l)) as [<-|Hne]; [by rewrite decide_True|]. by rewrite decide_False, app_nil_r.
    + rewrite R5. unfold k1, taken_off, work_st; kfields. by rewrite insert_insert_eq.
  - destruct R9 as (Hin & tm & Htm & Hto). unfold alarm. rewrite decide_True, Htm by done. simpl. by rewrite Hto.
Qed.
