(* ===== verification/WorkQueueCorrect.v ===== *)
(** * Work queues: the theorems

    Every call does to a queue what the abstract queue of work items does
    ([wkq_step]), and keeps the invariant; the thread of the queue takes the work
    items in order; and three ways in which the code fails. *)
From S2P Require Import Prelude Kservice Kernel Sched Object Timer Thread KernelInv Boot Ipc IpcSem ObjectSpec IpcInit Suspend.
From S2P Require Import WorkQueue WorkQueueSpec WorkQueueTimer.

(** ** The abstract queue *)

(** The work items to be executed, in order; those that wait for their timer; the one in execution. *)
Record wkq_view := WkqView { v_ready : list nat; v_delayed : list nat; v_current : option nat }.






Definition view (q : nat) (k : kstate) : option wkq_view :=
  x ← k_workqueues k !! q;
  Some (WkqView (qget (k_wklists k) (WLWork q)) (qget (k_wklists k) (WLDelayed q)) (wkq_work_current x)).


Record system_ok (k : kstate) : Prop := SystemOk {
  sy_ok : kernel_ok k;
  sy_current : is_Some (k_current k);
  sy_queues : wkq_inv None k;
  sy_lock : 0 <= k_lock_nest k < 32767
}.


Lemma acted_system w lists x' k k' : acted w lists x' k k' -> system_ok k -> system_ok k'.
Proof. intros [] []. constructor; try done. by rewrite ac_lock. Qed.




(** ** The thread of a queue *)

Lemma queue_list_off w q l k :
  wkq_inv None k -> w ∈ qget (k_wklists k) (WLWork q) -> l <> WLWork q -> without w k l = qget (k_wklists k) l.
Proof. intros I Hw Hl. apply filter_ne_notin. intros H. apply Hl. by apply (wi_excl _ _ I l (WLWork q) w). Qed.

(** C31: a round of the thread of a work queue begins with the first work item of the
    list, which is then the one in execution, not pending and of no queue. If there is
    none, the thread is suspended and the best ready thread runs: a queue is idle only
    when there is no work. When the work item's function has returned,
    every thread that waits for the work item ([rt_workqueue_cancel_work_sync]) can run, the
    loop that wakes them has ended (a round per waiting thread and two more are enough fuel) and left the semaphore as
    it was, and the queue is ready for the next work item. *)
Theorem workqueue_thread_correct q t x th fuel s k :
  system_ok k -> worker_runs q t x th k ->
  (wkq_work_current x = None ->
   match qget (k_wklists k) (WLWork q) with
   | [] => exists k', worker_take q k = Some (None, k') /\ system_ok k' /\ highest_running k' /\ view q k' = view q k /\
       k_threads k' !! t = Some (with_stat RT_THREAD_SUSPEND th)
   | w :: l => exists k' z, worker_take q k = Some (Some w, k') /\ system_ok k' /\
       view q k' = Some (WkqView l (qget (k_wklists k) (WLDelayed q)) (Some w)) /\
       k_works k !! w = Some z /\ k_works k' !! w = Some (set_wk_workqueue None (clear_state RT_WORK_STATE_PENDING z))
   end) /\
  (sem_ok k (wkq_sem x) s -> sem_value s = 0 -> (length (qget (k_tq k) (QSem (wkq_sem x))) + 2 <= fuel)%nat ->
   exists k', worker_done fuel q k = Some (tt, k') /\ system_ok k' /\
     view q k' = Some (WkqView (qget (k_wklists k) (WLWork q)) (qget (k_wklists k) (WLDelayed q)) None) /\
     qget (k_tq k') (QSem (wkq_sem x)) = [] /\ k_sems k' = k_sems k /\
     (forall u, u ∈ qget (k_tq k) (QSem (wkq_sem x)) -> can_run k' u) /\ can_run k' t).
Proof.
  intros Hsys Hw. pose proof Hsys as [Hok Hcur I Hl]. pose proof Hw as [Hx Ht [Hc Hth Hr Hl0 Hi]]. split.
  - intros Hn. destruct (qget (k_wklists k) (WLWork q)) as [|w l] eqn:El.
    + destruct (worker_idle_spec q t x th k Hok I Hw El) as (k' & E & Hok' & Hc' & I' & Hh & F & Ht'). exists k'.
      split; [done|]. split; [|split; [done|split; [|done]]].
      * constructor; [done|done|done|by rewrite (of_lock _ _ F)].
      * unfold view. by rewrite (of_workqueues _ _ F), (of_wklists _ _ F).
    + assert (w ∈ qget (k_wklists k) (WLWork q)) as Hin by (rewrite El; by left).
      destruct (wi_known _ _ I _ w Hin) as [z Hz].
      destruct (worker_take_spec q t x th w l z k Hok I Hw El Hz) as (E & Hok' & I' & Hl'). cbv zeta in *.
      set (k' := work_st w _ _) in *. exists k', z. split; [done|]. split; [by constructor|]. split.
      * unfold view. change (k_workqueues k') with (<[q := RtWorkqueue (Some w) (wkq_sem x) t]> (k_workqueues k)).
        rewrite lookup_insert_eq.
        change (Some (WkqView (qget (k_wklists k') (WLWork q)) (qget (k_wklists (off_lists w k)) (WLDelayed q)) (Some w)) =
                Some (WkqView l (qget (k_wklists k) (WLDelayed q)) (Some w))).
        by rewrite Hl', off_lists_get, (queue_list_off w q).
      * split; [done|]. apply work_st_lookup.
  - intros Hso Hz Hf.
    destruct (worker_done_spec fuel q t x th s k) as (k' & E & Hok' & I' & Hq' & Hl' & Hw' & Hs' & Hc' & Hn' & Ht' & Hu & Hr'); try done;
      [by rewrite Ht|by rewrite Ht|].
    exists k'. split; [done|]. split; [constructor; try done; by rewrite Hn'|].
    split; [unfold view; rewrite Hq', Hl'; done|]. split_and!; done.
Qed.

(** ** Cancelling everything *)

Lemma cancel_loop_spec list q y fuel k :
  system_ok k -> k_workqueues k !! q = Some y -> (length (qget (k_wklists k) list) < fuel)%nat ->
  exists k', cancel_loop fuel list q k = Some (tt, k') /\ system_ok k' /\ qget (k_wklists k') list = [] /\
    (forall l, l <> list -> qget (k_wklists k') l = qget (k_wklists k) l) /\
    k_workqueues k' = k_workqueues k /\ k_lock_nest k' = k_lock_nest k /\
    (forall w, w ∉ qget (k_wklists k) list -> k_works k' !! w = k_works k !! w) /\
    (forall w x, w ∈ qget (k_wklists k) list -> k_works k !! w = Some x -> k_works k' !! w = Some (idle_work x)).
Proof.
  revert k. induction fuel as [|fuel IH]; intros k Hs Hy Hf; [lia|]. cbn [cancel_loop]. rewrite bind_gets.
  destruct (qget (k_wklists k) list) as [|w l] eqn:El.
  { exists k. split_and!; try done. intros w x Hw. by apply elem_of_nil in Hw. }
  pose proof Hs as [Hok Hc I Hl]. assert (w ∈ qget (k_wklists k) list) as Hin by (rewrite El; by left).
  destruct (wi_known _ _ I list w Hin) as [x Hx]. destruct (cancel_spec q w x y k Hok Hc I Hx Hy) as (k1 & E1 & A & _).
  pose proof (acted_system _ _ _ _ _ A Hs) as Hs1.
  assert ((w ∉ l) /\ qget (k_wklists k1) list = l) as [Hwl El1].
  { rewrite (ac_lists _ _ _ _ _ A). pose proof (wi_nodup _ _ I list) as Hnd. unfold without. rewrite El in *.
    apply NoDup_cons in Hnd as [Hn _]. split; [done|]. rewrite filter_cons_False by auto. by apply filter_ne_notin. }
  assert (forall l', l' <> list -> qget (k_wklists k1) l' = qget (k_wklists k) l') as Hother.
  { intros l' Hne. rewrite (ac_lists _ _ _ _ _ A). apply filter_ne_notin. intros H. apply Hne. by apply (wi_excl _ _ I l' list w). }
  destruct (IH k1 Hs1) as (k' & E & Hs' & He & Ho & Hq & Hn & Hkeep & Hidle).
  { by rewrite (ac_queues _ _ _ _ _ A). } { rewrite El1. simpl in Hf. lia. }
  rewrite El1 in Hkeep, Hidle. exists k'. split; [by rewrite (bind_ok _ _ k _ k1) by exact E1|]. do 2 (split; [done|]). split.
  { intros l' Hne. by rewrite Ho, Hother. }
  split; [by rewrite Hq; apply A|]. split; [by rewrite Hn; apply A|]. split.
  - intros u Hu. apply not_elem_of_cons in Hu as [Hne Hu]. rewrite Hkeep by done. rewrite (ac_works _ _ _ _ _ A).
    by rewrite lookup_insert_ne.
  - intros u z Hu Hz. destruct (decide (u = w)) as [->|Hne].
    + rewrite Hkeep by done. rewrite (ac_works _ _ _ _ _ A), lookup_insert_eq. congruence.
    + apply elem_of_cons in Hu as [?|Hu]; [done|]. apply Hidle; [done|]. rewrite (ac_works _ _ _ _ _ A).
      by rewrite lookup_insert_ne.
Qed.

Lemma sched_system k k' : sched_frame k k' -> kernel_ok k' -> is_Some (k_current k') -> system_ok k -> system_ok k'.
Proof.
  intros F Hok Hc [H1 H2 H3 H4]. constructor; [done|done| |].
  - apply (wkq_inv_stirred _ k); [by apply sched_stirred|done].
  - by rewrite (of_lock _ _ (sched_obj_frame _ _ F)).
Qed.

Lemma lock_system n k : 0 <= n < 32767 -> system_ok k -> system_ok (set_k_lock_nest n k).
Proof. intros Hn [H1 H2 [] H4]. constructor; [by apply (kernel_ok_objects k)|done|by constructor|done]. Qed.

(** [rt_workqueue_cancel_all_work] ends (a round per work item on the longer of the two lists and one
    more are enough fuel), and leaves no work item on a list of the queue: each of them is neither
    pending nor waiting for its timer, and belongs to no queue. The work items of
    other queues are not touched. *)
Theorem workqueue_cancel_all_correct q y fuel k :
  system_ok k -> k_workqueues k !! q = Some y -> k_lock_nest k < 32766 ->
  (length (qget (k_wklists k) (WLWork q)) < fuel)%nat -> (length (qget (k_wklists k) (WLDelayed q)) < fuel)%nat ->
  exists k', rt_workqueue_cancel_all_work fuel q k = Some (RT_EOK, k') /\ system_ok k' /\
    view q k' = Some (WkqView [] [] (wkq_work_current y)) /\
    (forall l, l <> WLWork q -> l <> WLDelayed q -> qget (k_wklists k') l = qget (k_wklists k) l) /\
    forall w x, w ∈ qget (k_wklists k) (WLWork q) \/ w ∈ qget (k_wklists k) (WLDelayed q) -> k_works k !! w = Some x ->
      k_works k' !! w = Some (idle_work x).
Proof.
  intros Hs Hy Hn Hf1 Hf2. pose proof Hs as [Hok Hc I Hl].
  set (k0 := set_k_lock_nest (k_lock_nest k + 1) k). assert (system_ok k0) as Hs0 by (apply lock_system; [lia|done]).
  destruct (cancel_loop_spec (WLWork q) q y fuel k0 Hs0 Hy Hf1) as (k1 & E1 & Hs1 & L1 & O1 & Q1 & N1 & K1 & I1).
  destruct (cancel_loop_spec (WLDelayed q) q y fuel k1 Hs1) as (k2 & E2 & Hs2 & L2 & O2 & Q2 & N2 & K2 & I2).
  { by rewrite Q1. } { rewrite O1 by done. exact Hf2. }
  rewrite O1 in K2, I2 by done. change (k_wklists k0) with (k_wklists k) in *. change (k_works k0) with (k_works k) in *.
  destruct (critical_sched (cancel_loop fuel (WLWork q) q;; cancel_loop fuel (WLDelayed q) q;; mret RT_EOK) RT_EOK k k2)
    as (k' & E & Hok' & Hc' & F).
  { lia. } { fold k0. by rewrite (bind_ok _ _ k0 tt k1), (bind_ok _ _ k1 tt k2). } { apply Hs2. } { apply Hs2. }
  { by rewrite N2, N1. }
  pose proof (sched_obj_frame _ _ F) as O. exists k'. split; [|split; [|split; [|split]]].
  - rewrite <- E. unfold rt_workqueue_cancel_all_work. rewrite !bind_unfold. destruct (rt_enter_critical k) as [[[] k3]|]; [|done].
    rewrite !bind_unfold. destruct (cancel_loop fuel (WLWork q) q k3) as [[[] k4]|]; [|done].
    rewrite !bind_unfold. by destruct (cancel_loop fuel (WLDelayed q) q k4) as [[[] k5]|].
  - apply (sched_system (set_k_lock_nest (k_lock_nest k) k2)); [done|done|done|]. by apply lock_system.
  - unfold view. rewrite (of_workqueues _ _ O), (of_wklists _ _ O). kfields. rewrite Q2, Q1. change (k_workqueues k0) with (k_workqueues k).
    rewrite Hy. simpl. by rewrite L2, (O2 (WLWork q)), L1.
  - intros l Hl1 Hl2. rewrite (of_wklists _ _ O). kfields. by rewrite O2, O1.
  - intros w x Hw Hx. rewrite (of_works _ _ O). kfields. destruct (decide (w ∈ qget (k_wklists k) (WLWork q))) as [H1|H1].
    + rewrite K2; [by apply I1|]. intros H2. by pose proof (wi_excl _ _ I _ _ w H1 H2).
    + destruct Hw as [?|H2]; [done|]. apply I2; [done|]. by rewrite K1.
Qed.

(** ** Concrete queues *)

(** The main thread creates queue 0, whose thread 9 has the higher priority 8 and runs until it finds no
    work; then the main thread goes on. The work items 1 and 2 are initialised. *)
Definition wkq_demo_running : kstate :=
  after (rt_workqueue_create (Some (0%nat, RtWorkqueue None 7 99)) (Some (OThread 9)) true [119] 8;;
         rt_work_init 1;; rt_work_init 2) demo_state.
Definition wkq_demo : kstate := after (worker_take 0) wkq_demo_running.

(** Deciding the invariant. *)
Definition worker_check (k : kstate) (t : nat) : bool :=
  match k_threads k !! t with
  | Some th => (stat_of th =? RT_THREAD_SUSPEND) || (stat_of th =? RT_THREAD_READY) || (stat_of th =? RT_THREAD_RUNNING)
  | None => false
  end.

Definition awake_check (k : kstate) (q : nat) (x : rt_workqueue) : bool :=
  match wkq_work_current x, qget (k_wklists k) (WLWork q), k_threads k !! wkq_work_thread x with
  | None, _ :: _, Some th => (stat_of th =? RT_THREAD_READY) || (stat_of th =? RT_THREAD_RUNNING)
  | _, _, _ => true
  end.

Definition work_check (k : kstate) (w : nat) (x : rt_work) : bool :=
  if has_state RT_WORK_STATE_SUBMITTING x then
    match k_timers k !! TmUser w with
    | Some tm => bool_decide (has_type RT_Object_Class_Timer (tm_parent tm)) && is_static (tm_parent tm) && is_soft tm
    | None => false
    end
  else bool_decide (OTimer (TmUser w) ∉ qget (k_objlist k) RT_Object_Class_Timer) &&
       bool_decide (TmUser w ∉ qget (k_tmq k) TLHard) && bool_decide (TmUser w ∉ qget (k_tmq k) TLSoft).

Definition wkq_check (k : kstate) : bool :=
  bool_decide (map_Forall (fun l xs => NoDup xs /\ Forall (fun w => is_Some (k_works k !! w)) xs /\
    map_Forall (fun l' xs' => l = l' \/ Forall (fun w => w ∉ xs') xs) (k_wklists k)) (k_wklists k)) &&
  bool_decide (map_Forall (fun q x => worker_check k (wkq_work_thread x) = true /\ awake_check k q x = true /\
    map_Forall (fun q' x' => q = q' \/ wkq_work_thread x <> wkq_work_thread x') (k_workqueues k)) (k_workqueues k)) &&
  bool_decide (map_Forall (fun w x => work_check k w x = true) (k_works k)).

Lemma ready_or_running th : (stat_of th =? RT_THREAD_READY) || (stat_of th =? RT_THREAD_RUNNING) = true -> ~ blocked th.
Proof. intros H [H1 H2]. by rewrite !(proj2 (Z.eqb_neq _ _)) in H. Qed.

Lemma worker_check_sound k t : worker_check k t = true -> worker_ok k t.
Proof.
  unfold worker_check. destruct (k_threads k !! t) as [th|] eqn:Et; [|done]. intros H. exists th. split; [done|].
  destruct (Z.eqb_spec (stat_of th) RT_THREAD_SUSPEND); [by left|right]. by apply ready_or_running.
Qed.

Lemma wkq_check_sound k : wkq_check k = true -> wkq_inv None k.
Proof.
  unfold wkq_check. rewrite !andb_true_iff, !bool_decide_eq_true. intros [[Hl Hq] Hw].
  assert (forall l w, w ∈ qget (k_wklists k) l -> exists xs, k_wklists k !! l = Some xs /\ w ∈ xs) as Hin.
  { intros l w H. apply qget_in in H as (xs & E & _ & ?). by exists xs. }
  constructor.
  - intros l. unfold qget. destruct (k_wklists k !! l) as [xs|] eqn:E; [|apply NoDup_nil_2]. by apply (Hl l xs).
  - intros l l' w (xs & E & H1)%Hin (xs' & E' & H2)%Hin. destruct (Hl l xs E) as (_ & _ & H).
    destruct (H l' xs' E') as [?|Hd]; [done|]. rewrite Forall_forall in Hd. by apply Hd in H1.
  - intros l w (xs & E & H1)%Hin. destruct (Hl l xs E) as (_ & H & _). rewrite Forall_forall in H. by apply H.
  - intros q x Hx. destruct (Hq q x Hx) as (H & _). by apply worker_check_sound.
  - intros q q' x x' Hx Hx' E. destruct (Hq q x Hx) as (_ & _ & H). by destruct (H q' x' Hx').
  - intros q _ x th Hx Hc Hne Ht. destruct (Hq q x Hx) as (_ & H & _). unfold awake_check in H. rewrite Hc, Ht in H.
    destruct (qget (k_wklists k) (WLWork q)); [done|]. by apply ready_or_running.
  - intros w x Hx. specialize (Hw w x Hx). unfold work_check in Hw. unfold work_ok. destruct (has_state _ x).
    + destruct (k_timers k !! TmUser w) as [tm|]; [|done]. rewrite !andb_true_iff, bool_decide_eq_true in Hw.
      destruct Hw as [[? ?] ?]. by exists tm.
    + rewrite !andb_true_iff, !bool_decide_eq_true in Hw. destruct Hw as [[? ?] ?]. split; [done|]. by intros l [-> | ->].
Qed.

Definition system_check (k : kstate) : bool :=
  kernel_check k && wkq_check k && bool_decide (is_Some (k_current k)) && (0 <=? k_lock_nest k) && (k_lock_nest k <? 32767).

Lemma system_check_sound k : system_check k = true -> system_ok k.
Proof.
  unfold system_check. rewrite !andb_true_iff, bool_decide_eq_true. intros [[[[H1 H2] H3] H4] H5].
  constructor; [by apply kernel_check_sound|done|by apply wkq_check_sound|lia].
Qed.


Lemma wkq_demo_running_ok : system_ok wkq_demo_running.
Proof. apply system_check_sound. vm_compute. reflexivity. Qed.

(** Work item 1 waits; thread 9 has just been created. *)
Definition wkq_demo_delayed : kstate := after (rt_workqueue_submit_work 0 1 5) wkq_demo.


Lemma workqueue_thread_correct_witness :
  (exists k', worker_take 0 wkq_demo_running = Some (None, k') /\ system_ok k') /\
  (exists k', worker_done 2 0 wkq_demo_running = Some (tt, k') /\ system_ok k').
Proof.
  destruct (workqueue_thread_correct 0 9 (RtWorkqueue None 7 9) (thread_at 9 wkq_demo_running) 2
              (default raw_semaphore (k_sems wkq_demo_running !! 7%nat)) wkq_demo_running) as [H1 H2].
  - apply wkq_demo_running_ok.
  - constructor; [vm_compute; reflexivity|reflexivity|]. constructor; vm_compute; reflexivity.
  - split.
    + specialize (H1 eq_refl).
      replace (qget (k_wklists wkq_demo_running) (WLWork 0)) with (@nil nat) in H1 by (vm_compute; reflexivity).
      destruct H1 as (k' & E & Hs & _). exists k'. split; [exact E|exact Hs].
    + destruct H2 as (k' & E & Hs & _).
      * constructor; [vm_compute; reflexivity|split; vm_compute; auto|split; vm_compute; discriminate|].
        intros H. vm_compute in H. discriminate H.
      * vm_compute. reflexivity.
      * apply Nat.leb_le. vm_compute. reflexivity.
      * exists k'. split; [exact E|exact Hs].
Defined.

Lemma workqueue_cancel_all_correct_witness :
  exists k', rt_workqueue_cancel_all_work 2 0 wkq_demo_delayed = Some (RT_EOK, k') /\ view 0 k' = Some (WkqView [] [] None).
Proof.
  destruct (workqueue_cancel_all_correct 0 (RtWorkqueue None 7 9) 2 wkq_demo_delayed) as (k' & E & _ & Hv & _).
  - apply system_check_sound. vm_compute. reflexivity.
  - vm_compute. reflexivity.
  - vm_compute. reflexivity.
  - apply Nat.ltb_lt. vm_compute. reflexivity.
  - apply Nat.ltb_lt. vm_compute. reflexivity.
  - exists k'. split; [exact E|exact Hv].
Defined.

(** ** Where the code fails *)

(** Whoever is taken to be executed belongs to no queue. *)
Lemma worker_take_owner q w k k' :
  worker_take q k = Some (Some w, k') -> exists z, k_works k' !! w = Some z /\ wk_workqueue z = None.
Proof.
  unfold worker_take. rewrite bind_gets. destruct (qget (k_wklists k) (WLWork q)) as [|u l].
  - rewrite !bind_unfold. destruct (current_thread k) as [[c k1]|]; [|done]. rewrite bind_unfold.
    destruct (rt_thread_suspend c k1) as [[r k2]|]; [|done]. rewrite bind_unfold. by destruct (rt_schedule k2) as [[]|].
  - rewrite off_lists_bind. set (k1 := off_lists u k). rewrite bind_unfold.
    destruct (set_work_current q (Some u) k1) as [[[] k2]|]; [|done]. rewrite bind_unfold.
    destruct (upd_work u (clear_state RT_WORK_STATE_PENDING) k2) as [[[] k3]|]; [|done].
    destruct (k_works k3 !! u) as [z|] eqn:Ez.
    + rewrite (bind_ok _ _ k3 tt (work_st u (set_wk_workqueue None z) k3)) by (by apply upd_work_eq).
      intros [= <- <-]. exists (set_wk_workqueue None z). split; [apply work_st_lookup|done].
    + unfold upd_work, get_work. mrun. by rewrite Ez.
Qed.

(** Submitting delayed work for immediate execution leaves its timer running. If
    the timer expires after the thread has taken the work item, the
    handler finds no queue, and its assertion fails. *)
Theorem workqueue_timer_orphan q w x y k :
  system_ok k -> k_works k !! w = Some x -> has_state RT_WORK_STATE_SUBMITTING x = true -> k_workqueues k !! q = Some y ->
  wkq_work_current y <> Some w ->
  exists k1 x1, rt_workqueue_dowork q w k = Some (RT_EOK, k1) /\ k_works k1 !! w = Some x1 /\
    has_state RT_WORK_STATE_SUBMITTING x1 = true /\
    forall k2 k3, worker_take q k2 = Some (Some w, k3) -> _delayed_work_timeout_handler w k3 = None.
Proof.
  intros [Hok Hc I Hl] Hx Hs Hy Hn. destruct (submit_now_spec q w x y k Hok Hc I Hx Hy) as (k1 & H).
  rewrite decide_False in H by done. destruct H as (E & A & _). exists k1, (pending_work q x). split; [exact E|]. split.
  { rewrite (ac_works _ _ _ _ _ A). apply lookup_insert_eq. }
  split.
  { unfold pending_work. change (has_state RT_WORK_STATE_SUBMITTING (set_state RT_WORK_STATE_PENDING (clear_state RT_WORK_STATE_PENDING x)) = true).
    by rewrite (proj1 (pending_submitting _)), (proj2 (pending_submitting _)). }
  intros k2 k3 Ht. apply worker_take_owner in Ht as (z & Hz & Hq). unfold _delayed_work_timeout_handler.
  rewrite (bind_ok _ _ k3 z k3) by (by apply get_work_eq). by rewrite Hq.
Qed.

(** It happens: the timer of work item 1 is running while the work item is executed. *)
Lemma workqueue_timer_orphan_witness :
  exists k1 k2, rt_workqueue_dowork 0 1 wkq_demo_delayed = Some (RT_EOK, k1) /\ worker_take 0 k1 = Some (Some 1%nat, k2) /\
    head (qget (k_tmq k2) TLSoft) = Some (TmUser 1) /\ _delayed_work_timeout_handler 1 k2 = None.
Proof.
  destruct (workqueue_timer_orphan 0 1 (default (RtWork 0 0 None) (k_works wkq_demo_delayed !! 1%nat)) (RtWorkqueue None 7 9)
              wkq_demo_delayed) as (k1 & x1 & E & _ & _ & H).
  - apply system_check_sound. vm_compute. reflexivity.
  - vm_compute. reflexivity.
  - vm_compute. reflexivity.
  - vm_compute. reflexivity.
  - discriminate.
  - exists k1, (after (worker_take 0) k1). split; [exact E|].
    assert (k1 = after (rt_workqueue_dowork 0 1) wkq_demo_delayed) as Ek by (unfold after; rewrite E; reflexivity).
    assert (worker_take 0 k1 = Some (Some 1%nat, after (worker_take 0) k1)) as Et by (rewrite Ek; vm_compute; reflexivity).
    split; [exact Et|]. split; [rewrite Ek; vm_compute; reflexivity|]. exact (H _ _ Et).
Defined.

(** If the thread cannot be created, the memory of the queue is given back while the semaphore in it is
    still registered with the kernel. *)
Theorem workqueue_create_leaks :
  exists k', rt_workqueue_create (Some (0%nat, RtWorkqueue None 7 99)) None true [119] 8 demo_state = Some (None, k') /\
    k_sems k' !! 7%nat = None /\ k_workqueues k' !! 0%nat = None /\ OSem 7 ∈ qget (k_objlist k') RT_Object_Class_Semaphore.
Proof.
  exists (after (rt_workqueue_create (Some (0%nat, RtWorkqueue None 7 99)) None true [119] 8) demo_state).
  split; [vm_compute; reflexivity|]. split; [vm_compute; reflexivity|]. split; [vm_compute; reflexivity|].
  apply (bool_decide_unpack _). vm_compute. exact I.
Qed.
