(* ===== verification/IpcMq.v ===== *)
(** * Message queues

    The message queue functions of [src/ipc.c]. The message at index [i] of
    the pool is node [i] of [mq_next]; its bytes are [mq_data !! i]. A wait is
    a pair of the local variables [timeout] and [tick_delta]. *)
From S2P Require Import Prelude Kservice Kernel Sched Object Timer Thread KernelInv Boot Ipc ObjectSpec IpcQueue.

Definition RT_MQ_ENTRY_MAX : Z := 65535.
(** [sizeof(struct rt_mq_message)]. *)
Definition sizeof_rt_mq_message : Z := 8.

Definition get_mq (mq : nat) : M rt_messagequeue := q ← gets (fun k => k_mqs k !! mq); deref q.
Definition put_mq (mq : nat) (q : rt_messagequeue) : M unit :=
  modify (fun k => set_k_mqs (<[mq := q]> (k_mqs k)) k).
Definition upd_mq (mq : nat) (f : rt_messagequeue -> rt_messagequeue) : M unit :=
  q ← get_mq mq; put_mq mq (f q).

Definition set_mq_sizes (msg_size max_msgs : Z) (q : rt_messagequeue) : rt_messagequeue :=
  RtMessageQueue (mq_parent q) msg_size max_msgs (mq_entry q) (mq_next q) (mq_data q)
    (mq_head q) (mq_tail q) (mq_free q).
Definition set_mq_entry (x : Z) (q : rt_messagequeue) : rt_messagequeue :=
  RtMessageQueue (mq_parent q) (mq_msg_size q) (mq_max_msgs q) x (mq_next q) (mq_data q)
    (mq_head q) (mq_tail q) (mq_free q).
Definition set_mq_next (x : gmap nat (option nat)) (q : rt_messagequeue) : rt_messagequeue :=
  RtMessageQueue (mq_parent q) (mq_msg_size q) (mq_max_msgs q) (mq_entry q) x (mq_data q)
    (mq_head q) (mq_tail q) (mq_free q).
Definition set_mq_data (x : gmap nat (list Z)) (q : rt_messagequeue) : rt_messagequeue :=
  RtMessageQueue (mq_parent q) (mq_msg_size q) (mq_max_msgs q) (mq_entry q) (mq_next q) x
    (mq_head q) (mq_tail q) (mq_free q).
Definition set_mq_head (x : option nat) (q : rt_messagequeue) : rt_messagequeue :=
  RtMessageQueue (mq_parent q) (mq_msg_size q) (mq_max_msgs q) (mq_entry q) (mq_next q)
    (mq_data q) x (mq_tail q) (mq_free q).
Definition set_mq_tail (x : option nat) (q : rt_messagequeue) : rt_messagequeue :=
  RtMessageQueue (mq_parent q) (mq_msg_size q) (mq_max_msgs q) (mq_entry q) (mq_next q)
    (mq_data q) (mq_head q) x (mq_free q).
Definition set_mq_free (x : option nat) (q : rt_messagequeue) : rt_messagequeue :=
  RtMessageQueue (mq_parent q) (mq_msg_size q) (mq_max_msgs q) (mq_entry q) (mq_next q)
    (mq_data q) (mq_head q) (mq_tail q) x.

(** [msg->next], [msg->next = x] and [rt_memcpy(msg + 1, buffer, size)]:
    undefined outside the pool. *)
Definition msg_next (q : rt_messagequeue) (msg : nat) : M (option nat) := deref (mq_next q !! msg).
Definition set_msg_next (msg : nat) (x : option nat) (q : rt_messagequeue) : M rt_messagequeue :=
  _ ← msg_next q msg; mret (set_mq_next (<[msg := x]> (mq_next q)) q).
Definition msg_copy_in (msg : nat) (buffer : list Z) (size : Z) (q : rt_messagequeue)
    : M rt_messagequeue :=
  data ← deref (mq_data q !! msg);
  rt_assert (size <=? zlen data);;
  mret (set_mq_data (<[msg := memcpy_at data 0 buffer size]> (mq_data q)) q).
Definition msg_copy_out (msg : nat) (size : Z) (q : rt_messagequeue) : M (list Z) :=
  data ← deref (mq_data q !! msg);
  rt_assert (size <=? zlen data);;
  mret (ztake size data).

(** The loop that links all the messages into the free list; [n] rounds are
    left and [temp] is the index of the next message. *)
Fixpoint mq_free_loop (n temp : nat) (next : gmap nat (option nat)) (free : option nat)
    : gmap nat (option nat) * option nat :=
  match n with
  | O => (next, free)
  | S n => mq_free_loop n (S temp) (<[temp := free]> next) (Some temp)
  end.

(** What [rt_mq_init] and [rt_mq_create] do once the pool is there. *)
Definition mq_link_free (mq : nat) (pool : gmap nat (list Z)) : M unit :=
  upd_mq mq (set_mq_data pool);;
  upd_mq mq (set_mq_head None);;
  upd_mq mq (set_mq_tail None);;
  q ← get_mq mq;
  let '(next, free) := mq_free_loop (Z.to_nat (mq_max_msgs q)) 0 ∅ None in
  upd_mq mq (set_mq_next next);;
  upd_mq mq (set_mq_free free);;
  upd_mq mq (set_mq_entry 0);;
  modify_tq (fun m => <[QMqSend mq := []]> m).

(** [msgpool] is the memory after each message header. *)
Definition rt_mq_init (mq : nat) (name : list Z) (msgpool : gmap nat (list Z))
    (msg_size pool_size flag : Z) : M Z :=
  rt_assert (valid_flag flag);;
  rt_object_init (OMessageQueue mq) RT_Object_Class_MessageQueue name;;
  set_flag (OMessageQueue mq) flag;;
  _ipc_object_init (QMqRecv mq);;
  let msg_size := u16 (RT_ALIGN msg_size RT_ALIGN_SIZE) in
  upd_mq mq (set_mq_sizes msg_size (u16 (pool_size / (msg_size + sizeof_rt_mq_message))));;
  mq_link_free mq msgpool;;
  mret RT_EOK.

Definition rt_mq_detach (mq : nat) : M Z :=
  assert_type (OMessageQueue mq) RT_Object_Class_MessageQueue;;
  assert_system (OMessageQueue mq) true;;
  _ipc_list_resume_all (QMqRecv mq);;
  _ipc_list_resume_all (QMqSend mq);;
  rt_object_detach (OMessageQueue mq);;
  mret RT_EOK.

(** [mem] and [msg_pool] are what the two allocations return. *)
Definition rt_mq_create (mem : option oid) (msg_pool : option (gmap nat (list Z)))
    (name : list Z) (msg_size max_msgs flag : Z) : M (option nat) :=
  rt_assert (valid_flag flag);;
  RT_DEBUG_NOT_IN_INTERRUPT;;
  mq ← rt_object_allocate mem RT_Object_Class_MessageQueue name;
  match mq with
  | Some (OMessageQueue mq) =>
      set_flag (OMessageQueue mq) flag;;
      _ipc_object_init (QMqRecv mq);;
      upd_mq mq (set_mq_sizes (u16 (RT_ALIGN msg_size RT_ALIGN_SIZE)) (u16 max_msgs));;
      match msg_pool with
      | None => rt_object_delete (OMessageQueue mq);; mret None
      | Some pool => mq_link_free mq pool;; mret (Some mq)
      end
  | _ => mret None
  end.

Definition rt_mq_delete (mq : nat) : M Z :=
  assert_type (OMessageQueue mq) RT_Object_Class_MessageQueue;;
  assert_system (OMessageQueue mq) false;;
  RT_DEBUG_NOT_IN_INTERRUPT;;
  _ipc_list_resume_all (QMqRecv mq);;
  _ipc_list_resume_all (QMqSend mq);;
  rt_object_delete (OMessageQueue mq);;
  mret RT_EOK.

(** The three parts of [rt_mq_send_wait] after its loop, between which
    interrupts are enabled: a message is taken off the free list, filled ... *)
Definition mq_take_free (mq msg : nat) : M unit :=
  q ← get_mq mq;
  next ← msg_next q msg;
  put_mq mq (set_mq_free next q).

Definition mq_fill (mq msg : nat) (buffer : list Z) (size : Z) : M unit :=
  q ← get_mq mq;
  q ← set_msg_next msg None q;
  q ← msg_copy_in msg buffer size q;
  put_mq mq q.

(** ... and linked at the end of the queue. *)
Definition mq_link_tail (mq msg : nat) : M Z :=
  q ← get_mq mq;
  q ← (match mq_tail q with
       | Some tail => set_msg_next tail (Some msg) q
       | None => mret q
       end);
  let q := set_mq_tail (Some msg) q in
  let q := match mq_head q with None => set_mq_head (Some msg) q | Some _ => q end in
  put_mq mq q;;
  if mq_entry q <? RT_MQ_ENTRY_MAX then
    put_mq mq (set_mq_entry (u16 (mq_entry q + 1)) q);;
    wake_waiter (QMqRecv mq)
  else mret (- RT_EFULL).

Definition mq_send_put (mq msg : nat) (buffer : list Z) (size : Z) : M Z :=
  mq_take_free mq msg;;
  mq_fill mq msg buffer size;;
  mq_link_tail mq msg.

Definition mq_send_loop (mq : nat) (buffer : list Z) (size timeout tick_delta : Z)
    : M (outcome (Z * Z)) :=
  q ← get_mq mq;
  match mq_free q with
  | None =>
      thread ← current_thread;
      set_error thread RT_EOK;;
      if timeout =? 0 then mret (Ret (- RT_EFULL))
      else
        flag ← get_flag (OMessageQueue mq);
        tick_delta ← block_on_since (QMqSend mq) thread flag timeout tick_delta;
        mret (Wait (timeout, tick_delta))
  | Some msg => r ← mq_send_put mq msg buffer size; mret (Ret r)
  end.

Definition rt_mq_send_wait (mq : nat) (buffer : list Z) (size timeout : Z)
    : M (outcome (Z * Z)) :=
  assert_type (OMessageQueue mq) RT_Object_Class_MessageQueue;;
  rt_assert (negb (size =? 0));;
  RT_DEBUG_SCHEDULER_AVAILABLE (negb (timeout =? 0));;
  q ← get_mq mq;
  if mq_msg_size q <? size then mret (Ret (- RT_ERROR))
  else if bool_decide (mq_free q = None) && (timeout =? 0) then mret (Ret (- RT_EFULL))
  else mq_send_loop mq buffer size timeout 0.

Definition rt_mq_send_resume (thread mq : nat) (buffer : list Z) (size : Z) (w : Z * Z)
    : M (outcome (Z * Z)) :=
  th ← get_thread thread;
  if negb (th_error th =? RT_EOK) then mret (Ret (th_error th))
  else
    '(timeout, tick_delta) ← remaining_timeout w.1 w.2;
    mq_send_loop mq buffer size timeout tick_delta.

Definition rt_mq_send (mq : nat) (buffer : list Z) (size : Z) : M (outcome (Z * Z)) :=
  rt_mq_send_wait mq buffer size 0.

Definition mq_copy (mq msg : nat) (buffer : list Z) (size : Z) : M unit :=
  q ← get_mq mq;
  q ← msg_copy_in msg buffer size q;
  put_mq mq q.

Definition mq_link_head (mq msg : nat) : M Z :=
  q ← get_mq mq;
  q ← set_msg_next msg (mq_head q) q;
  let q := set_mq_head (Some msg) q in
  let q := match mq_tail q with None => set_mq_tail (Some msg) q | Some _ => q end in
  put_mq mq q;;
  if mq_entry q <? RT_MQ_ENTRY_MAX then
    put_mq mq (set_mq_entry (u16 (mq_entry q + 1)) q);;
    wake_waiter (QMqRecv mq)
  else mret (- RT_EFULL).

Definition rt_mq_urgent (mq : nat) (buffer : list Z) (size : Z) : M Z :=
  assert_type (OMessageQueue mq) RT_Object_Class_MessageQueue;;
  rt_assert (negb (size =? 0));;
  q ← get_mq mq;
  if mq_msg_size q <? size then mret (- RT_ERROR)
  else
    match mq_free q with
    | None => mret (- RT_EFULL)
    | Some msg =>
        mq_take_free mq msg;;
        mq_copy mq msg buffer size;;
        mq_link_head mq msg
    end.

(** The three parts of [rt_mq_recv] after its loop: the first message is
    unlinked, copied out and put on the free list. *)
Definition mq_unlink_head (mq : nat) : M nat :=
  q ← get_mq mq;
  msg ← deref (mq_head q);
  next ← msg_next q msg;
  let q := set_mq_head next q in
  let q := if decide (mq_tail q = Some msg) then set_mq_tail None q else q in
  put_mq mq (if 0 <? mq_entry q then set_mq_entry (mq_entry q - 1) q else q);;
  mret msg.

Definition mq_read (mq msg : nat) (size : Z) : M (list Z) :=
  q ← get_mq mq;
  msg_copy_out msg (if mq_msg_size q <? size then mq_msg_size q else size) q.

Definition mq_give_free (mq msg : nat) : M unit :=
  q ← get_mq mq;
  q ← set_msg_next msg (mq_free q) q;
  put_mq mq (set_mq_free (Some msg) q).

Definition mq_recv_get (mq : nat) (size : Z) : M (Z * list Z) :=
  msg ← mq_unlink_head mq;
  data ← mq_read mq msg size;
  mq_give_free mq msg;;
  r ← wake_waiter (QMqSend mq);
  mret (r, data).

(** The outcome, and the bytes stored at [buffer]. *)
Definition mq_recv_loop (mq : nat) (size timeout tick_delta : Z)
    : M (outcome (Z * Z) * option (list Z)) :=
  q ← get_mq mq;
  if mq_entry q =? 0 then
    thread ← current_thread;
    set_error thread RT_EOK;;
    if timeout =? 0 then
      set_error thread (- RT_ETIMEOUT);;
      mret (Ret (- RT_ETIMEOUT), None)
    else
      flag ← get_flag (OMessageQueue mq);
      tick_delta ← block_on_since (QMqRecv mq) thread flag timeout tick_delta;
      mret (Wait (timeout, tick_delta), None)
  else '(r, data) ← mq_recv_get mq size; mret (Ret r, Some data).

Definition rt_mq_recv (mq : nat) (size timeout : Z)
    : M (outcome (Z * Z) * option (list Z)) :=
  assert_type (OMessageQueue mq) RT_Object_Class_MessageQueue;;
  rt_assert (negb (size =? 0));;
  RT_DEBUG_SCHEDULER_AVAILABLE (negb (timeout =? 0));;
  q ← get_mq mq;
  if (mq_entry q =? 0) && (timeout =? 0) then mret (Ret (- RT_ETIMEOUT), None)
  else mq_recv_loop mq size timeout 0.

Definition rt_mq_recv_resume (thread mq : nat) (size : Z) (w : Z * Z)
    : M (outcome (Z * Z) * option (list Z)) :=
  th ← get_thread thread;
  if negb (th_error th =? RT_EOK) then mret (Ret (th_error th), None)
  else
    '(timeout, tick_delta) ← remaining_timeout w.1 w.2;
    mq_recv_loop mq size timeout tick_delta.

(** The loop of [rt_mq_control]; it takes one round per queued message. *)
Fixpoint mq_reset_loop (fuel : nat) (q : rt_messagequeue) : M rt_messagequeue :=
  match fuel with
  | O => fun _ => None
  | S fuel =>
      match mq_head q with
      | None => mret q
      | Some msg =>
          next ← msg_next q msg;
          let q := set_mq_head next q in
          let q := if decide (mq_tail q = Some msg) then set_mq_tail None q else q in
          q ← set_msg_next msg (mq_free q) q;
          mq_reset_loop fuel (set_mq_free (Some msg) q)
      end
  end.

(** [fuel]: one more than the number of messages of the pool. *)
Definition rt_mq_control (fuel mq : nat) (cmd : Z) : M Z :=
  assert_type (OMessageQueue mq) RT_Object_Class_MessageQueue;;
  if cmd =? RT_IPC_CMD_RESET then
    _ipc_list_resume_all (QMqRecv mq);;
    _ipc_list_resume_all (QMqSend mq);;
    q ← get_mq mq;
    q ← mq_reset_loop fuel q;
    put_mq mq (set_mq_entry 0 q);;
    rt_schedule;;
    mret RT_EOK
  else mret (- RT_ERROR).

(** ** Linked messages *)

(** From [h] on, the [next] pointers lead through the messages of [l]. *)
Fixpoint chain (next : gmap nat (option nat)) (h : option nat) (l : list nat) : Prop :=
  match l with
  | [] => h = None
  | x :: l => h = Some x /\ exists y, next !! x = Some y /\ chain next y l
  end.

Lemma chain_frame next next' h l :
  (forall x, x ∈ l -> next' !! x = next !! x) -> chain next h l -> chain next' h l.
Proof.
  revert h. induction l as [|x l IH]; intros h Hn; [done|]. intros [-> (y & Hx & Hc)].
  split; [done|]. exists y. split; [rewrite Hn; [done|by left]|].
  apply IH; [|done]. intros z Hz. apply Hn. by right.
Qed.

Lemma chain_insert next h l x v : x ∉ l -> chain next h l -> chain (<[x := v]> next) h l.
Proof. intros Hx. apply chain_frame. intros y Hy. apply lookup_insert_ne. by intros ->. Qed.

Lemma chain_head next h l : chain next h l -> h = head l.
Proof. destruct l; [done|]. by intros [-> _]. Qed.

Lemma chain_elem next h l x : chain next h l -> x ∈ l -> is_Some (next !! x).
Proof.
  revert h. induction l as [|y l IH]; intros h Hc Hx; [by apply elem_of_nil in Hx|].
  destruct Hc as [_ (z & Hy & Hc)]. apply elem_of_cons in Hx as [->|Hx]; eauto.
Qed.

(** Appending [m] after the last message [t]. *)
Lemma chain_snoc next h l t m :
  NoDup (l ++ [t; m]) -> chain next h (l ++ [t]) -> next !! m = Some None ->
  chain (<[t := Some m]> next) h (l ++ [t; m]).
Proof.
  revert h. induction l as [|x l IH]; intros h Hnd Hc Hm; simpl in *.
  - destruct Hc as [-> _]. split; [done|]. exists (Some m). split; [apply lookup_insert_eq|].
    split; [done|]. exists None. split; [|done]. rewrite lookup_insert_ne; [done|].
    intros ->. apply NoDup_cons in Hnd as [Ht _]. apply Ht. by left.
  - destruct Hc as [-> (y & Hx & Hc)]. apply NoDup_cons in Hnd as [Hxn Hnd].
    split; [done|]. exists y. split; [|by apply IH].
    rewrite lookup_insert_ne; [done|]. intros ->. apply Hxn. apply elem_of_app. right. by left.
Qed.

(** ** The queue's data *)

(** [used] are the messages in the queue, first to last, [free] those on the
    free list; together they are the slots of the pool. *)
Record mq_wf (q : rt_messagequeue) (used free : list nat) : Prop := MqWf {
  qw_size : 0 <= mq_msg_size q;
  qw_max : 0 <= mq_max_msgs q <= 65535;
  qw_used : chain (mq_next q) (mq_head q) used;
  qw_free : chain (mq_next q) (mq_free q) free;
  qw_tail : mq_tail q = last used;
  qw_entry : mq_entry q = zlen used;
  qw_slots : used ++ free ≡ₚ seq 0 (Z.to_nat (mq_max_msgs q));
  qw_data i : i ∈ used ++ free -> exists d, mq_data q !! i = Some d /\ mq_msg_size q <= zlen d
}.

Lemma mq_wf_nodup q used free : mq_wf q used free -> NoDup (used ++ free).
Proof. intros W. rewrite (qw_slots _ _ _ W). apply NoDup_seq. Qed.

Lemma mq_wf_length q used free :
  mq_wf q used free -> zlen used + zlen free = mq_max_msgs q.
Proof.
  intros W. pose proof (Permutation_length (qw_slots _ _ _ W)) as H.
  rewrite length_app, length_seq in H. pose proof (qw_max _ _ _ W). unfold zlen. lia.
Qed.

Ltac mq_fields := cbn [set_mq_sizes set_mq_entry set_mq_next set_mq_data set_mq_head set_mq_tail
  set_mq_free mq_parent mq_msg_size mq_max_msgs mq_entry mq_next mq_data mq_head mq_tail mq_free].

(** The queue after each step of the operations. *)
Definition mq_filled (msg : nat) (d : list Z) (q : rt_messagequeue) : rt_messagequeue :=
  set_mq_data (<[msg := d]> (mq_data q)) (set_mq_next (<[msg := None]> (mq_next q)) q).
Definition mq_linked_tail (msg : nat) (q : rt_messagequeue) : rt_messagequeue :=
  RtMessageQueue (mq_parent q) (mq_msg_size q) (mq_max_msgs q) (mq_entry q + 1)
    (match mq_tail q with Some t => <[t := Some msg]> (mq_next q) | None => mq_next q end)
    (mq_data q) (match mq_head q with None => Some msg | h => h end) (Some msg) (mq_free q).
Definition mq_linked_head (msg : nat) (q : rt_messagequeue) : rt_messagequeue :=
  RtMessageQueue (mq_parent q) (mq_msg_size q) (mq_max_msgs q) (mq_entry q + 1)
    (<[msg := mq_head q]> (mq_next q)) (mq_data q) (Some msg)
    (match mq_tail q with None => Some msg | t => t end) (mq_free q).
Definition mq_unlinked (msg : nat) (next : option nat) (q : rt_messagequeue) : rt_messagequeue :=
  RtMessageQueue (mq_parent q) (mq_msg_size q) (mq_max_msgs q) (mq_entry q - 1) (mq_next q)
    (mq_data q) next (if decide (mq_tail q = Some msg) then None else mq_tail q) (mq_free q).
Definition mq_given (msg : nat) (q : rt_messagequeue) : rt_messagequeue :=
  set_mq_free (Some msg) (set_mq_next (<[msg := mq_free q]> (mq_next q)) q).

Lemma mq_push_wf q used msg free d next :
  mq_wf q used (msg :: free) -> mq_next q !! msg = Some next -> mq_msg_size q <= zlen d ->
  mq_wf (mq_linked_tail msg (mq_filled msg d (set_mq_free next q))) (used ++ [msg]) free.
Proof.
  intros W Hn Hd. pose proof (mq_wf_nodup _ _ _ W) as Hnd. destruct W as [H1 H2 Hu Hf Ht He Hs Hdt].
  assert (used ++ msg :: free = (used ++ [msg]) ++ free) as Happ by (by rewrite <- app_assoc).
  rewrite Happ in Hnd. apply NoDup_app in Hnd as (Hndu & Hdis & Hndf).
  pose proof Hndu as Hndu'. apply NoDup_app in Hndu' as (_ & Hmu & _).
  assert (msg ∉ used) as Hmu' by (intros Hin; apply (Hmu msg Hin); by left).
  assert (msg ∉ free) as Hmf by (apply Hdis, elem_of_app; right; by left).
  destruct Hf as [_ (y & Hy & Hf)]. assert (y = next) as -> by congruence.
  constructor; unfold mq_linked_tail, mq_filled; mq_fields.
  - done.
  - done.
  - destruct used as [|u used'] using rev_ind; [|clear IHused'].
    + rewrite Ht. simpl last. cbv iota. rewrite (chain_head _ _ _ Hu). simpl head. cbv iota.
      split; [done|]. exists None. split; [apply lookup_insert_eq|done].
    + rewrite Ht, last_snoc. cbv iota. rewrite <- app_assoc in *. simpl app in *.
      assert (mq_head q = Some (default u (head used'))) as Hh.
      { rewrite (chain_head _ _ _ Hu). by destruct used'. }
      rewrite Hh in *. apply chain_snoc; [done| |apply lookup_insert_eq].
      by apply chain_insert.
  - assert (chain (<[msg := None]> (mq_next q)) next free) as Hc by (by apply chain_insert).
    destruct (mq_tail q) as [t|] eqn:Etl; [|done]. apply chain_insert; [|done].
    symmetry in Ht. apply last_Some_elem_of in Ht. intros Hin. apply (Hdis t); [|done].
    apply elem_of_app. by left.
  - by rewrite last_snoc.
  - rewrite He, zlen_app. done.
  - by rewrite <- Happ.
  - intros i Hi. rewrite <- Happ in Hi. destruct (decide (i = msg)) as [->|Hne].
    + exists d. by rewrite lookup_insert_eq.
    + rewrite lookup_insert_ne by done. by apply Hdt.
Qed.

Lemma mq_push_front_wf q used msg free d next :
  mq_wf q used (msg :: free) -> mq_next q !! msg = Some next -> mq_msg_size q <= zlen d ->
  mq_wf (mq_linked_head msg (set_mq_data (<[msg := d]> (mq_data q)) (set_mq_free next q)))
    (msg :: used) free.
Proof.
  intros W Hn Hd. pose proof (mq_wf_nodup _ _ _ W) as Hnd. destruct W as [H1 H2 Hu Hf Ht He Hs Hdt].
  assert (used ++ msg :: free ≡ₚ (msg :: used) ++ free) as Happ by solve_Permutation.
  rewrite Happ in Hnd. simpl in Hnd. apply NoDup_cons in Hnd as [Hm _].
  rewrite elem_of_app in Hm.
  destruct Hf as [_ (y & Hy & Hf)]. assert (y = next) as -> by congruence.
  constructor; unfold mq_linked_head; mq_fields.
  - done.
  - done.
  - split; [done|]. exists (mq_head q). split; [apply lookup_insert_eq|].
    apply chain_insert; [tauto|done].
  - apply chain_insert; [tauto|done].
  - rewrite Ht. destruct used as [|u used'] using rev_ind; [done|]. clear IHused'.
    rewrite last_snoc. change (msg :: used' ++ [u]) with ((msg :: used') ++ [u]).
    by rewrite last_snoc.
  - rewrite He. unfold zlen. simpl. lia.
  - by rewrite <- Happ.
  - intros i Hi. rewrite <- Happ in Hi. destruct (decide (i = msg)) as [->|Hne].
    + exists d. by rewrite lookup_insert_eq.
    + rewrite lookup_insert_ne by done. by apply Hdt.
Qed.

Lemma mq_pop_wf q msg used free next :
  mq_wf q (msg :: used) free -> mq_next q !! msg = Some next ->
  mq_wf (mq_given msg (mq_unlinked msg next q)) used (msg :: free).
Proof.
  intros W Hn. pose proof (mq_wf_nodup _ _ _ W) as Hnd. destruct W as [H1 H2 Hu Hf Ht He Hs Hdt].
  assert ((msg :: used) ++ free ≡ₚ used ++ msg :: free) as Happ by solve_Permutation.
  simpl in Hnd. apply NoDup_cons in Hnd as [Hm _]. rewrite elem_of_app in Hm.
  destruct Hu as [_ (y & Hy & Hu)]. assert (y = next) as -> by congruence.
  constructor; unfold mq_given, mq_unlinked; mq_fields.
  - done.
  - done.
  - apply chain_insert; [tauto|done].
  - split; [done|]. exists (mq_free q). split; [apply lookup_insert_eq|].
    apply chain_insert; [tauto|done].
  - rewrite Ht. destruct used as [|u used'] using rev_ind; [by rewrite decide_True|]. clear IHused'.
    change (msg :: used' ++ [u]) with ((msg :: used') ++ [u]). rewrite !last_snoc.
    rewrite decide_False; [done|]. intros [= ->]. apply Hm. left. apply elem_of_app. right. by left.
  - rewrite He. unfold zlen. simpl. lia.
  - by rewrite <- Happ.
  - intros i Hi. rewrite <- Happ in Hi. by apply Hdt.
Qed.

(** ** The operations on the data *)

Record mq_ok (k : kstate) (mq : nat) (q : rt_messagequeue) (used free : list nat) : Prop := MqOk {
  qo_lookup : k_mqs k !! mq = Some q;
  qo_header : ipc_header RT_Object_Class_MessageQueue (mq_parent q);
  qo_wf : mq_wf q used free
}.

Definition mq_st (mq : nat) (q : rt_messagequeue) (k : kstate) : kstate :=
  set_k_mqs (<[mq := q]> (k_mqs k)) k.

Lemma get_mq_eq mq q k : k_mqs k !! mq = Some q -> get_mq mq k = Some (q, k).
Proof. intros H. unfold get_mq. mrun. by rewrite H. Qed.

Lemma put_mq_eq mq q k : put_mq mq q k = Some (tt, mq_st mq q k).
Proof. done. Qed.

Lemma mq_hdr k mq q : k_mqs k !! mq = Some q -> obj_hdr (OMessageQueue mq) k = Some (mq_parent q).
Proof. intros H. simpl. by rewrite H. Qed.

Lemma mq_st_lookup mq q k : k_mqs (mq_st mq q k) !! mq = Some q.
Proof. apply lookup_insert_eq. Qed.

Lemma mq_st_st mq q q' k : mq_st mq q' (mq_st mq q k) = mq_st mq q' k.
Proof. unfold mq_st; kfields. by rewrite insert_insert_eq. Qed.

Lemma mq_st_kernel_ok mq q k : kernel_ok k -> kernel_ok (mq_st mq q k).
Proof. by apply kernel_ok_objects. Qed.

Lemma mq_ok_frame k k' mq q used free :
  mq_ok k mq q used free -> k_mqs k' = k_mqs k -> mq_ok k' mq q used free.
Proof. intros [] E. constructor; try done. by rewrite E. Qed.

Lemma msg_copy_in_eq msg d buffer size q k :
  mq_data q !! msg = Some d -> size <= zlen d ->
  msg_copy_in msg buffer size q k =
    Some (set_mq_data (<[msg := memcpy_at d 0 buffer size]> (mq_data q)) q, k).
Proof.
  intros Hd Hs. unfold msg_copy_in, rt_assert. mrun. rewrite Hd.
  by rewrite (proj2 (Z.leb_le size (zlen d))) by lia.
Qed.

Lemma mq_take_free_eq mq q msg next k :
  k_mqs k !! mq = Some q -> mq_next q !! msg = Some next ->
  mq_take_free mq msg k = Some (tt, mq_st mq (set_mq_free next q) k).
Proof.
  intros Hq Hn. unfold mq_take_free. rewrite bind_unfold, (get_mq_eq mq q) by done.
  unfold msg_next. mrun. by rewrite Hn.
Qed.

Lemma mq_fill_eq mq q msg d buffer size k :
  k_mqs k !! mq = Some q -> is_Some (mq_next q !! msg) -> mq_data q !! msg = Some d ->
  size <= zlen d ->
  mq_fill mq msg buffer size k =
    Some (tt, mq_st mq (mq_filled msg (memcpy_at d 0 buffer size) q) k).
Proof.
  intros Hq [n Hn] Hd Hs. unfold mq_fill. rewrite bind_unfold, (get_mq_eq mq q) by done.
  rewrite bind_unfold. unfold set_msg_next, msg_next. rewrite bind_unfold.
  unfold deref. rewrite Hn. mrun. fold (put_mq mq). by rewrite (msg_copy_in_eq msg d).
Qed.

Lemma mq_link_tail_eq mq q msg k :
  k_mqs k !! mq = Some q -> (forall t, mq_tail q = Some t -> is_Some (mq_next q !! t)) ->
  0 <= mq_entry q < 65535 ->
  mq_link_tail mq msg k = wake_waiter (QMqRecv mq) (mq_st mq (mq_linked_tail msg q) k).
Proof.
  intros Hq Ht He. unfold mq_link_tail. rewrite bind_unfold, (get_mq_eq mq q) by done.
  assert ((match mq_tail q with
           | Some tail => set_msg_next tail (Some msg) q
           | None => mret q
           end) k = Some (set_mq_next (match mq_tail q with
             Some t => <[t := Some msg]> (mq_next q) | None => mq_next q end) q, k)) as E.
  { destruct (mq_tail q) as [t|] eqn:Et.
    - destruct (Ht t eq_refl) as [n Hn]. unfold set_msg_next, msg_next. mrun. by rewrite Hn.
    - destruct q; done. }
  rewrite bind_unfold, E. cbv zeta. mq_fields. unfold RT_MQ_ENTRY_MAX.
  destruct (mq_head q) as [h|] eqn:Hh; mq_fields;
    rewrite bind_unfold, put_mq_eq, (proj2 (Z.ltb_lt (mq_entry q) 65535)) by lia;
    rewrite bind_unfold, put_mq_eq, mq_st_st, u16_small by lia;
    unfold mq_linked_tail, set_mq_entry, set_mq_tail, set_mq_next, set_mq_head; mq_fields; by rewrite ?Hh.
Qed.

Lemma mq_link_head_eq mq q msg k :
  k_mqs k !! mq = Some q -> is_Some (mq_next q !! msg) -> 0 <= mq_entry q < 65535 ->
  mq_link_head mq msg k = wake_waiter (QMqRecv mq) (mq_st mq (mq_linked_head msg q) k).
Proof.
  intros Hq [n Hn] He. unfold mq_link_head. rewrite bind_unfold, (get_mq_eq mq q) by done.
  assert (set_msg_next msg (mq_head q) q k =
    Some (set_mq_next (<[msg := mq_head q]> (mq_next q)) q, k)) as E.
  { unfold set_msg_next, msg_next. mrun. by rewrite Hn. }
  rewrite bind_unfold, E. cbv zeta. mq_fields. unfold RT_MQ_ENTRY_MAX.
  destruct (mq_tail q) as [t|] eqn:Ht; mq_fields;
    rewrite bind_unfold, put_mq_eq, (proj2 (Z.ltb_lt (mq_entry q) 65535)) by lia;
    rewrite bind_unfold, put_mq_eq, mq_st_st, u16_small by lia;
    unfold mq_linked_head, set_mq_entry, set_mq_tail, set_mq_next, set_mq_head; mq_fields; by rewrite ?Ht.
Qed.

Lemma mq_unlink_head_eq mq q msg next k :
  k_mqs k !! mq = Some q -> mq_head q = Some msg -> mq_next q !! msg = Some next ->
  0 < mq_entry q ->
  mq_unlink_head mq k = Some (msg, mq_st mq (mq_unlinked msg next q) k).
Proof.
  intros Hq Hh Hn He. unfold mq_unlink_head. rewrite bind_unfold, (get_mq_eq mq q) by done.
  unfold msg_next. mrun. rewrite Hh, Hn. mq_fields. unfold mq_unlinked.
  case_decide; mq_fields; rewrite (proj2 (Z.ltb_lt 0 (mq_entry q))) by lia; done.
Qed.

Lemma mq_give_free_eq mq q msg k :
  k_mqs k !! mq = Some q -> is_Some (mq_next q !! msg) ->
  mq_give_free mq msg k = Some (tt, mq_st mq (mq_given msg q) k).
Proof.
  intros Hq [n Hn]. unfold mq_give_free. rewrite bind_unfold, (get_mq_eq mq q) by done.
  unfold set_msg_next, msg_next. mrun. by rewrite Hn.
Qed.

Lemma mq_read_eq mq q msg d size k :
  k_mqs k !! mq = Some q -> mq_data q !! msg = Some d -> mq_msg_size q <= zlen d ->
  mq_read mq msg size k = Some (ztake (Z.min size (mq_msg_size q)) d, k).
Proof.
  intros Hq Hd Hs. unfold mq_read. rewrite bind_unfold, (get_mq_eq mq q) by done.
  unfold msg_copy_out, rt_assert. mrun. rewrite Hd.
  destruct (Z.ltb_spec (mq_msg_size q) size).
  - rewrite (proj2 (Z.leb_le _ _)) by lia. by rewrite Z.min_r by lia.
  - rewrite (proj2 (Z.leb_le _ _)) by lia. by rewrite Z.min_l by lia.
Qed.

(** The same queue, its slots now holding [data]. *)
Definition mq_like (q q' : rt_messagequeue) (data : gmap nat (list Z)) : Prop :=
  mq_parent q' = mq_parent q /\ mq_msg_size q' = mq_msg_size q /\
  mq_max_msgs q' = mq_max_msgs q /\ mq_data q' = data.

Lemma zlen_copy d buffer size :
  0 <= size <= zlen buffer -> size <= zlen d -> zlen (memcpy_at d 0 buffer size) = zlen d.
Proof. intros. apply zlen_memcpy_at; lia. Qed.

Lemma ztake_copy d buffer size :
  0 <= size <= zlen buffer -> ztake size (memcpy_at d 0 buffer size) = ztake size buffer.
Proof.
  intros H. unfold memcpy_at. change (ztake 0 d) with (@nil Z). rewrite app_nil_l.
  unfold ztake, zlen in *. rewrite take_app_le by (rewrite length_take; lia).
  rewrite take_take. f_equal. lia.
Qed.

(** What the three calls do once they have a slot or a message. *)
Lemma mq_send_put_spec k mq q used msg free buffer size d :
  kernel_ok k -> mq_ok k mq q used (msg :: free) -> is_Some (k_current k) ->
  0 <= size <= mq_msg_size q -> size <= zlen buffer -> mq_data q !! msg = Some d ->
  exists k' q', mq_send_put mq msg buffer size k = Some (RT_EOK, k') /\
    handed (QMqRecv mq) (mq_st mq q' k) k' /\
    mq_ok (mq_st mq q' k) mq q' (used ++ [msg]) free /\
    mq_like q q' (<[msg := memcpy_at d 0 buffer size]> (mq_data q)).
Proof.
  intros Hok [Hq Hh W] Hc Hs Hb Hd. pose proof (mq_wf_length _ _ _ W) as Hlen.
  pose proof (qw_max _ _ _ W) as Hmax. pose proof (qw_entry _ _ _ W) as He.
  destruct (qw_data _ _ _ W msg) as (d' & Hd' & Hdl).
  { apply elem_of_app. right. by left. }
  assert (d' = d) as -> by congruence.
  destruct (qw_free _ _ _ W) as [_ (next & Hn & _)].
  set (q1 := set_mq_free next q). set (q2 := mq_filled msg (memcpy_at d 0 buffer size) q1).
  set (q' := mq_linked_tail msg q2).
  destruct (wake_waiter_spec (QMqRecv mq) (mq_st mq q' k)) as (k' & E & H);
    [by apply mq_st_kernel_ok|done|done|].
  exists k', q'. split.
  { unfold mq_send_put. rewrite bind_unfold, (mq_take_free_eq mq q msg next) by done. fold q1.
    rewrite bind_unfold, (mq_fill_eq mq q1 msg d);
      [|apply mq_st_lookup|by exists next|done|lia]. fold q2. rewrite mq_st_st.
    rewrite (mq_link_tail_eq mq q2); [by rewrite mq_st_st| apply mq_st_lookup| |].
    - intros t Ht. unfold q2, mq_filled; mq_fields. destruct (decide (t = msg)) as [->|Hne];
        [rewrite lookup_insert_eq; eauto|]. rewrite lookup_insert_ne by done.
      change (mq_tail q = Some t) in Ht. rewrite (qw_tail _ _ _ W) in Ht.
      apply last_Some_elem_of in Ht. by apply (chain_elem _ _ _ _ (qw_used _ _ _ W)).
    - change (mq_entry q2) with (mq_entry q). rewrite He. unfold zlen in *. simpl in Hlen. lia. }
  split; [done|]. split; [|done]. constructor; [apply mq_st_lookup|done|].
  apply mq_push_wf; [done|done|]. rewrite zlen_copy; lia.
Qed.

Lemma mq_urgent_put_spec k mq q used msg free buffer size d :
  kernel_ok k -> mq_ok k mq q used (msg :: free) -> is_Some (k_current k) ->
  0 < size <= mq_msg_size q -> size <= zlen buffer -> mq_data q !! msg = Some d ->
  exists k' q', rt_mq_urgent mq buffer size k = Some (RT_EOK, k') /\
    handed (QMqRecv mq) (mq_st mq q' k) k' /\
    mq_ok (mq_st mq q' k) mq q' (msg :: used) free /\
    mq_like q q' (<[msg := memcpy_at d 0 buffer size]> (mq_data q)).
Proof.
  intros Hok [Hq Hh W] Hc Hs Hb Hd. pose proof (mq_wf_length _ _ _ W) as Hlen.
  pose proof (qw_max _ _ _ W) as Hmax. pose proof (qw_entry _ _ _ W) as He.
  destruct (qw_data _ _ _ W msg) as (d' & Hd' & Hdl).
  { apply elem_of_app. right. by left. }
  assert (d' = d) as -> by congruence.
  destruct (qw_free _ _ _ W) as [Hfr (next & Hn & _)].
  set (q1 := set_mq_free next q).
  set (q2 := set_mq_data (<[msg := memcpy_at d 0 buffer size]> (mq_data q)) q1).
  set (q' := mq_linked_head msg q2).
  destruct (wake_waiter_spec (QMqRecv mq) (mq_st mq q' k)) as (k' & E & H);
    [by apply mq_st_kernel_ok|done|done|].
  exists k', q'. split.
  { unfold rt_mq_urgent.
    rewrite bind_unfold, (assert_type_eq _ _ k (mq_parent q)) by (by apply mq_hdr || apply Hh).
    rewrite bind_unfold. unfold rt_assert. rewrite (proj2 (Z.eqb_neq size 0)) by lia. cbn [negb].
    rewrite bind_unfold, (get_mq_eq mq q), (proj2 (Z.ltb_ge (mq_msg_size q) size)), Hfr by (done || lia).
    rewrite bind_unfold, (mq_take_free_eq mq q msg next) by done. fold q1.
    rewrite bind_unfold. unfold mq_copy at 1.
    rewrite bind_unfold, (get_mq_eq mq q1) by apply mq_st_lookup.
    rewrite bind_unfold, (msg_copy_in_eq msg d) by (done || lia).
    change (mq_data q1) with (mq_data q). fold q2. rewrite put_mq_eq, mq_st_st.
    rewrite (mq_link_head_eq mq q2); [by rewrite mq_st_st|apply mq_st_lookup|by exists next|].
    change (mq_entry q2) with (mq_entry q). rewrite He. unfold zlen in *. simpl in Hlen. lia. }
  split; [done|]. split; [|done]. constructor; [apply mq_st_lookup|done|].
  apply mq_push_front_wf; [done|done|]. rewrite zlen_copy; lia.
Qed.

Lemma mq_recv_get_spec k mq q used msg free size d :
  kernel_ok k -> mq_ok k mq q (msg :: used) free -> is_Some (k_current k) ->
  mq_data q !! msg = Some d ->
  exists k' q', mq_recv_get mq size k = Some ((RT_EOK, ztake (Z.min size (mq_msg_size q)) d), k') /\
    handed (QMqSend mq) (mq_st mq q' k) k' /\
    mq_ok (mq_st mq q' k) mq q' used (msg :: free) /\ mq_like q q' (mq_data q).
Proof.
  intros Hok [Hq Hh W] Hc Hd. pose proof (qw_entry _ _ _ W) as He.
  destruct (qw_data _ _ _ W msg) as (d' & Hd' & Hdl); [by left|].
  assert (d' = d) as -> by congruence.
  destruct (qw_used _ _ _ W) as [Hhd (next & Hn & _)].
  set (q1 := mq_unlinked msg next q). set (q' := mq_given msg q1).
  destruct (wake_waiter_spec (QMqSend mq) (mq_st mq q' k)) as (k' & E & H);
    [by apply mq_st_kernel_ok|done|done|].
  exists k', q'. split.
  { unfold mq_recv_get.
    rewrite bind_unfold, (mq_unlink_head_eq mq q msg next)
      by (done || rewrite He; unfold zlen; simpl; lia). fold q1.
    rewrite bind_unfold, (mq_read_eq mq q1 msg d); [|apply mq_st_lookup|done|done].
    rewrite bind_unfold, (mq_give_free_eq mq q1); [|apply mq_st_lookup|by exists next].
    fold q'. by rewrite mq_st_st, bind_unfold, E. }
  split; [done|]. split; [|done]. constructor; [apply mq_st_lookup|done|].
  by apply mq_pop_wf.
Qed.

(** ** Correctness *)

(** The messages in a queue, oldest first; each has the queue's message size,
    of which a sender may have written only the beginning. *)
Definition mq_messages (q : rt_messagequeue) (used : list nat) : list (list Z) :=
  map (fun i => ztake (mq_msg_size q) (default [] (mq_data q !! i))) used.

Lemma mq_messages_like q q' used :
  mq_like q q' (mq_data q) -> mq_messages q' used = mq_messages q used.
Proof. intros (_ & Es & _ & Ed). unfold mq_messages. by rewrite Es, Ed. Qed.

Lemma mq_messages_write q q' used msg d :
  mq_like q q' (<[msg := d]> (mq_data q)) -> msg ∉ used ->
  mq_messages q' used = mq_messages q used.
Proof.
  intros (_ & Es & _ & Ed) Hm. unfold mq_messages. rewrite Es, Ed. apply map_ext_in.
  intros i Hi%list_elem_of_In. rewrite lookup_insert_ne; [done|]. by intros ->.
Qed.

Lemma mq_message_written q q' msg d buffer size :
  mq_like q q' (<[msg := memcpy_at d 0 buffer size]> (mq_data q)) ->
  0 <= size <= mq_msg_size q -> size <= zlen buffer ->
  exists m, mq_messages q' [msg] = [m] /\ ztake size m = ztake size buffer.
Proof.
  intros (_ & Es & _ & Ed) Hs Hb. eexists. split; [done|]. rewrite Es, Ed, lookup_insert_eq.
  simpl. rewrite <- (ztake_copy d buffer size) by lia.
  rewrite ztake_ztake. f_equal. lia.
Qed.

Lemma mq_messages_app q used used' :
  mq_messages q (used ++ used') = mq_messages q used ++ mq_messages q used'.
Proof. apply map_app. Qed.

Lemma mq_messages_length q used : length (mq_messages q used) = length used.
Proof. apply length_map. Qed.

(** There is a free slot exactly if the queue is not full. *)
Lemma mq_wf_room q used free :
  mq_wf q used free ->
  if decide (mq_entry q < mq_max_msgs q) then exists msg rest, free = msg :: rest else free = [].
Proof.
  intros W. pose proof (mq_wf_length _ _ _ W) as Hl. rewrite (qw_entry _ _ _ W).
  case_decide as H; destruct free as [|msg rest]; unfold zlen in *; simpl in *; try lia; eauto.
Qed.

(** The loops, with [timeout] and [delta] as they stand. *)
Lemma mq_send_loop_spec k mq q used free c th buffer size timeout delta :
  kernel_ok k -> mq_ok k mq q used free -> can_block k c th -> timeout < RT_TICK_MAX / 2 ->
  0 < size <= mq_msg_size q -> size <= zlen buffer ->
  exists r k' q' used' free', mq_send_loop mq buffer size timeout delta k = Some (r, k') /\
    kernel_ok k' /\ mq_ok k' mq q' used' free' /\ is_Some (k_current k') /\
    if decide (mq_entry q < mq_max_msgs q) then
      r = Ret RT_EOK /\ served (QMqRecv mq) k k' /\
      exists m, mq_messages q' used' = mq_messages q used ++ [m] /\
        ztake size m = ztake size buffer
    else if decide (timeout = 0) then r = Ret (- RT_EFULL) /\ q' = q /\ used' = used
    else r = Wait (timeout, if 0 <? timeout then k_tick k else delta) /\ q' = q /\ used' = used /\
         waits (QMqSend mq) c th (o_flag (mq_parent q)) k k'.
Proof.
  intros Hok Hmo Hcb Hto Hs Hb. pose proof Hmo as [Hq [Hy Hf] W].
  assert (is_Some (k_current k)) as Hc by (rewrite (cb_current _ _ _ Hcb); eauto).
  unfold mq_send_loop. rewrite bind_unfold, (get_mq_eq mq q) by done.
  rewrite (chain_head _ _ _ (qw_free _ _ _ W)). pose proof (mq_wf_room _ _ _ W) as Hr.
  destruct (decide (mq_entry q < mq_max_msgs q)).
  - destruct Hr as (msg & rest & ->). change (head (msg :: rest)) with (Some msg). cbv iota.
    destruct (qw_data _ _ _ W msg) as (d & Hd & _); [apply elem_of_app; right; by left|].
    destruct (mq_send_put_spec k mq q used msg rest buffer size d)
      as (k' & q' & E & H & Hmo' & Hl); try done; [lia|].
    exists (Ret RT_EOK), k', q', (used ++ [msg]), rest. rewrite bind_unfold, E. split; [done|].
    split; [apply H|]. split; [apply (mq_ok_frame _ _ _ _ _ _ Hmo'), H|]. split; [apply H|].
    split; [done|]. split; [by apply (handed_served _ _ (mq_st mq q' k)); try apply Hcb|].
    destruct (mq_message_written q q' msg d buffer size Hl) as (m & Em & Ez); [lia|done|].
    exists m. split; [|done]. rewrite mq_messages_app, Em. f_equal.
    apply (mq_messages_write _ _ _ _ _ Hl). pose proof (mq_wf_nodup _ _ _ W) as Hnd.
    apply NoDup_app in Hnd as (_ & Hdis & _). intros Hin. apply (Hdis msg Hin). by left.
  - subst free. change (head (@nil nat)) with (@None nat). cbv iota.
    rewrite bind_unfold, (current_thread_eq k c) by apply Hcb.
    destruct (set_error_ok c th RT_EOK k Hok (cb_thread _ _ _ Hcb)) as [E0 Hok0].
    destruct (decide (timeout = 0)) as [->|Ht].
    + rewrite bind_unfold, E0. eexists _, _, q, used, []. split; [done|]. split; [done|].
      split; [by apply (mq_ok_frame k)|]. done.
    + rewrite (proj2 (Z.eqb_neq timeout 0)) by done.
      destruct (block_caller_since (QMqSend mq) c th (OMessageQueue mq) (mq_parent q) timeout delta k)
        as (k' & E & B); try done; [by apply mq_hdr|intros; by apply mq_hdr|].
      revert E. rewrite !bind_unfold, E0, !bind_unfold.
      rewrite (get_flag_eq _ _ (mq_parent q)) by (by apply mq_hdr). intros E.
      rewrite bind_unfold, E. eexists _, k', q, used, []. split; [done|]. split; [apply B|].
      split; [apply (mq_ok_frame _ _ _ _ _ _ Hmo), (of_mqs _ _ (bo_frame _ _ _ _ _ _ _ B))|].
      split; [apply B|]. split; [done|]. split; [done|]. split; [done|].
      apply (blocked_waits _ _ _ _ _ _ _ B), Hcb.
Qed.

Lemma mq_recv_loop_spec k mq q used free c th size timeout delta :
  kernel_ok k -> mq_ok k mq q used free -> can_block k c th -> timeout < RT_TICK_MAX / 2 ->
  exists r k' q' used' free', mq_recv_loop mq size timeout delta k = Some (r, k') /\
    kernel_ok k' /\ mq_ok k' mq q' used' free' /\ is_Some (k_current k') /\
    match mq_messages q used with
    | m :: ms => r = (Ret RT_EOK, Some (ztake size m)) /\ mq_messages q' used' = ms /\
                 served (QMqSend mq) k k'
    | [] => q' = q /\ used' = used /\
        if decide (timeout = 0) then r = (Ret (- RT_ETIMEOUT), None)
        else r = (Wait (timeout, if 0 <? timeout then k_tick k else delta), None) /\
             waits (QMqRecv mq) c th (o_flag (mq_parent q)) k k'
    end.
Proof.
  intros Hok Hmo Hcb Hto. pose proof Hmo as [Hq [Hy Hf] W].
  assert (is_Some (k_current k)) as Hc by (rewrite (cb_current _ _ _ Hcb); eauto).
  unfold mq_recv_loop. rewrite bind_unfold, (get_mq_eq mq q) by done.
  rewrite (qw_entry _ _ _ W). destruct used as [|msg used].
  - change (zlen [] =? 0) with true. cbv iota. simpl mq_messages. cbv iota.
    rewrite bind_unfold, (current_thread_eq k c) by apply Hcb.
    destruct (set_error_ok c th RT_EOK k Hok (cb_thread _ _ _ Hcb)) as [E0 Hok0].
    destruct (decide (timeout = 0)) as [->|Ht].
    + rewrite bind_unfold, E0. change (0 =? 0) with true. cbv iota.
      destruct (set_error_ok c (set_th_error RT_EOK th) (- RT_ETIMEOUT) _ Hok0) as [E1 Hok1];
        [apply thread_st_lookup|].
      rewrite bind_unfold, E1. eexists _, _, q, [], free. split; [done|]. split; [done|].
      split; [by apply (mq_ok_frame k)|]. done.
    + rewrite (proj2 (Z.eqb_neq timeout 0)) by done.
      destruct (block_caller_since (QMqRecv mq) c th (OMessageQueue mq) (mq_parent q) timeout delta k)
        as (k' & E & B); try done; [by apply mq_hdr|intros; by apply mq_hdr|].
      revert E. rewrite !bind_unfold, E0, !bind_unfold.
      rewrite (get_flag_eq _ _ (mq_parent q)) by (by apply mq_hdr). intros E.
      rewrite bind_unfold, E. eexists _, k', q, [], free. split; [done|]. split; [apply B|].
      split; [apply (mq_ok_frame _ _ _ _ _ _ Hmo), (of_mqs _ _ (bo_frame _ _ _ _ _ _ _ B))|].
      split; [apply B|]. split; [done|]. split; [done|]. split; [done|].
      apply (blocked_waits _ _ _ _ _ _ _ B), Hcb.
  - rewrite (proj2 (Z.eqb_neq (zlen (msg :: used)) 0)) by (unfold zlen; simpl; lia).
    destruct (qw_data _ _ _ W msg) as (d & Hd & _); [by left|].
    destruct (mq_recv_get_spec k mq q used msg free size d) as (k' & q' & E & H & Hmo' & Hl);
      try done.
    eexists _, k', q', used, (msg :: free). rewrite bind_unfold, E. split; [done|].
    split; [apply H|]. split; [apply (mq_ok_frame _ _ _ _ _ _ Hmo'), H|]. split; [apply H|].
    simpl mq_messages. rewrite Hd. simpl default. split; [|split].
    + by rewrite ztake_ztake.
    + by rewrite (mq_messages_like q q').
    + by apply (handed_served _ _ (mq_st mq q' k)); try apply Hcb.
Qed.

Lemma mq_send_wait_eq k mq q used free buffer size timeout :
  mq_ok k mq q used free -> size <> 0 ->
  RT_DEBUG_SCHEDULER_AVAILABLE (negb (timeout =? 0)) k = Some (tt, k) ->
  rt_mq_send_wait mq buffer size timeout k =
    if mq_msg_size q <? size then Some (Ret (- RT_ERROR), k)
    else if bool_decide (mq_free q = None) && (timeout =? 0) then Some (Ret (- RT_EFULL), k)
    else mq_send_loop mq buffer size timeout 0 k.
Proof.
  intros [Hq [Hy _] _] Hs Ha. unfold rt_mq_send_wait.
  rewrite bind_unfold, (assert_type_eq _ _ k (mq_parent q)) by (done || by apply mq_hdr).
  rewrite bind_unfold. unfold rt_assert. rewrite (proj2 (Z.eqb_neq size 0)) by done. cbn [negb].
  rewrite bind_unfold, Ha, bind_unfold, (get_mq_eq mq q) by done.
  destruct (mq_msg_size q <? size); [done|]. by destruct (_ && _).
Qed.

Lemma mq_recv_eq k mq q used free size timeout :
  mq_ok k mq q used free -> size <> 0 ->
  RT_DEBUG_SCHEDULER_AVAILABLE (negb (timeout =? 0)) k = Some (tt, k) ->
  rt_mq_recv mq size timeout k =
    if (mq_entry q =? 0) && (timeout =? 0) then Some ((Ret (- RT_ETIMEOUT), None), k)
    else mq_recv_loop mq size timeout 0 k.
Proof.
  intros [Hq [Hy _] _] Hs Ha. unfold rt_mq_recv.
  rewrite bind_unfold, (assert_type_eq _ _ k (mq_parent q)) by (done || by apply mq_hdr).
  rewrite bind_unfold. unfold rt_assert. rewrite (proj2 (Z.eqb_neq size 0)) by done. cbn [negb].
  rewrite bind_unfold, Ha, bind_unfold, (get_mq_eq mq q) by done. by destruct (_ && _).
Qed.

Lemma mq_free_none k mq q used free :
  mq_ok k mq q used free ->
  bool_decide (mq_free q = None) = negb (bool_decide (mq_entry q < mq_max_msgs q)).
Proof.
  intros [_ _ W]. pose proof (mq_wf_room _ _ _ W) as Hr.
  rewrite (chain_head _ _ _ (qw_free _ _ _ W)).
  case_decide; rewrite ?(bool_decide_true (mq_entry q < _)), ?(bool_decide_false (mq_entry q < _)) by done.
  - destruct Hr as (msg & rest & ->). done.
  - by subst free.
Qed.

(** [rt_mq_send_wait]. A message longer than the queue's message size is
    refused with [-RT_ERROR]. Otherwise, if there is a free slot, a message
    that begins with the [size] bytes of the buffer is queued behind the
    others, and the first thread waiting for a message, if any, is woken. If
    there is none, a caller that does not want to wait is refused with
    [-RT_EFULL] and any other is suspended among the waiting senders. The
    linked lists of the queue and the kernel invariant hold afterwards. *)
Theorem mq_send_correct k mq q used free c th buffer size timeout :
  kernel_ok k -> mq_ok k mq q used free -> can_block k c th -> timeout < RT_TICK_MAX / 2 ->
  0 < size <= zlen buffer ->
  exists r k' q' used' free', rt_mq_send_wait mq buffer size timeout k = Some (r, k') /\
    kernel_ok k' /\ mq_ok k' mq q' used' free' /\
    if mq_msg_size q <? size then r = Ret (- RT_ERROR) /\ k' = k
    else if decide (mq_entry q < mq_max_msgs q) then
      r = Ret RT_EOK /\ served (QMqRecv mq) k k' /\
      exists m, mq_messages q' used' = mq_messages q used ++ [m] /\
        ztake size m = ztake size buffer
    else if decide (timeout = 0) then r = Ret (- RT_EFULL) /\ k' = k
    else r = Wait (timeout, if 0 <? timeout then k_tick k else 0) /\ q' = q /\ used' = used /\
         waits (QMqSend mq) c th (o_flag (mq_parent q)) k k'.
Proof.
  intros Hok Hmo Hcb Hto Hs.
  rewrite (mq_send_wait_eq k mq q used free)
    by (done || lia || by apply (scheduler_available k c th)).
  destruct (Z.ltb_spec (mq_msg_size q) size) as [Hbig|Hsm];
    [by exists (Ret (- RT_ERROR)), k, q, used, free|].
  rewrite (mq_free_none k mq q used free) by done.
  destruct (mq_send_loop_spec k mq q used free c th buffer size timeout 0)
    as (r & k' & q' & used' & free' & E & Hok' & Hmo' & _ & H); try done; [lia|lia|].
  destruct (decide (mq_entry q < mq_max_msgs q)) as [Hlt|Hge].
  - rewrite bool_decide_true by done. exists r, k', q', used', free'. done.
  - rewrite bool_decide_false by done. destruct (decide (timeout = 0)) as [->|Ht].
    + by exists (Ret (- RT_EFULL)), k, q, used, free.
    + rewrite (proj2 (Z.eqb_neq timeout 0)) by done. by exists r, k', q', used', free'.
Qed.

(** [rt_mq_recv]. The caller gets the beginning of the oldest message, as
    many bytes as its buffer and a message of the queue have; the message's
    slot becomes free and the first thread waiting for one, if any, is woken.
    From an empty queue a caller that does not want to wait is told
    [-RT_ETIMEOUT] and nothing changes; any other is suspended among the
    waiting receivers. The queue's linked lists and the kernel invariant hold
    afterwards. *)
Theorem mq_recv_correct k mq q used free c th size timeout :
  kernel_ok k -> mq_ok k mq q used free -> can_block k c th -> timeout < RT_TICK_MAX / 2 ->
  size <> 0 ->
  exists r k' q' used' free', rt_mq_recv mq size timeout k = Some (r, k') /\
    kernel_ok k' /\ mq_ok k' mq q' used' free' /\
    match mq_messages q used with
    | m :: ms => r = (Ret RT_EOK, Some (ztake size m)) /\ mq_messages q' used' = ms /\
                 served (QMqSend mq) k k'
    | [] => q' = q /\ used' = used /\
        if decide (timeout = 0) then r = (Ret (- RT_ETIMEOUT), None) /\ k' = k
        else r = (Wait (timeout, if 0 <? timeout then k_tick k else 0), None) /\
             waits (QMqRecv mq) c th (o_flag (mq_parent q)) k k'
    end.
Proof.
  intros Hok Hmo Hcb Hto Hs.
  rewrite (mq_recv_eq k mq q used free) by (done || by apply (scheduler_available k c th)).
  destruct (mq_recv_loop_spec k mq q used free c th size timeout 0)
    as (r & k' & q' & used' & free' & E & Hok' & Hmo' & _ & H); try done.
  rewrite (qw_entry _ _ _ (qo_wf _ _ _ _ _ Hmo)).
  destruct used as [|msg used]; simpl mq_messages in *; cbv iota in *.
  - change (zlen [] =? 0) with true. destruct H as (-> & -> & H).
    destruct (decide (timeout = 0)) as [->|Ht].
    + by exists (Ret (- RT_ETIMEOUT), None), k, q, [], free.
    + rewrite (proj2 (Z.eqb_neq timeout 0)) by done. by exists r, k', q, [], free'.
  - rewrite (proj2 (Z.eqb_neq (zlen (msg :: used)) 0)) by (unfold zlen; simpl; lia).
    by exists r, k', q', used', free'.
Qed.

(** ** The message queue as a bounded queue *)

(** The three calls that do not wait; a message is sent from a buffer of its
    length, and received into one of [l] bytes. *)
Definition mq_try_send (mq : nat) (m : list Z) : M Z := r ← rt_mq_send mq m (zlen m); returned r.
Definition mq_try_urgent (mq : nat) (m : list Z) : M Z := rt_mq_urgent mq m (zlen m).
Definition mq_try_recv (mq : nat) (l : Z) : M (Z * option (list Z)) :=
  '(r, d) ← rt_mq_recv mq l 0; e ← returned r; mret (e, d).

(** The slot's contents begin with the message [m]. *)
Definition stored (m slot : list Z) : Prop := ztake (zlen m) slot = m.

(** Message queue [mq] has room for [cap] messages of up to [size] bytes and
    holds [ms]; some thread runs. *)
Definition mq_repr (mq cap : nat) (size : Z) (ms : list (list Z)) (k : kstate) : Prop :=
  kernel_ok k /\ is_Some (k_current k) /\
  exists q used free, mq_ok k mq q used free /\ Z.to_nat (mq_max_msgs q) = cap /\
    mq_msg_size q = size /\ Forall2 stored ms (mq_messages q used).

Definition mq_valid (size : Z) (m : list Z) : Prop := 0 < zlen m <= size.

(** A received buffer begins with as much of the message as fits. *)
Definition mq_delivers (l : Z) (m out : list Z) : Prop := ztake (zlen m) out = ztake l m.

Lemma mq_repr_handed mq cap size ms qq k q used free k' :
  mq_ok (mq_st mq q k) mq q used free -> handed qq (mq_st mq q k) k' ->
  Z.to_nat (mq_max_msgs q) = cap -> mq_msg_size q = size ->
  Forall2 stored ms (mq_messages q used) -> mq_repr mq cap size ms k'.
Proof.
  intros Hq H Hc Hs Hms. split; [apply H|]. split; [apply H|]. exists q, used, free.
  split; [|done]. by apply (mq_ok_frame _ _ _ _ _ _ Hq), H.
Qed.

Lemma mq_repr_room q used free ms cap :
  mq_wf q used free -> Forall2 stored ms (mq_messages q used) -> Z.to_nat (mq_max_msgs q) = cap ->
  (length ms <? cap)%nat = match free with [] => false | _ => true end.
Proof.
  intros W Hms <-. pose proof (mq_wf_length _ _ _ W) as Hl.
  apply Forall2_length in Hms. rewrite mq_messages_length in Hms. unfold zlen in Hl.
  destruct (Nat.ltb_spec (length ms) (Z.to_nat (mq_max_msgs q))), free; simpl in Hl; done || lia.
Qed.

Lemma stored_snoc q q' used msg d m ms :
  mq_like q q' (<[msg := memcpy_at d 0 m (zlen m)]> (mq_data q)) -> zlen m <= mq_msg_size q ->
  msg ∉ used -> Forall2 stored ms (mq_messages q used) ->
  Forall2 stored ms (mq_messages q' used) /\ Forall2 stored [m] (mq_messages q' [msg]).
Proof.
  intros Hl Hs Hm Hms. rewrite (mq_messages_write _ _ _ _ _ Hl Hm). split; [done|].
  destruct (mq_message_written _ _ _ _ _ _ Hl) as (m' & -> & E); [|done|].
  { pose proof (zlen_nonneg m). lia. }
  constructor; [|constructor]. unfold stored. rewrite E. unfold ztake, zlen. rewrite Nat2Z.id.
  apply take_ge. done.
Qed.

Lemma mq_send_queue mq cap size ms m k :
  mq_repr mq cap size ms k -> mq_valid size m ->
  exists k', mq_try_send mq m k = Some (if (length ms <? cap)%nat then RT_EOK else - RT_EFULL, k') /\
    mq_repr mq cap size (if (length ms <? cap)%nat then ms ++ [m] else ms) k'.
Proof.
  intros (Hok & Hc & q & used & free & Hmo & Hcap & Hsz & Hms) Hv.
  pose proof Hmo as [Hq Hh W]. pose proof (mq_wf_nodup _ _ _ W) as Hnd.
  rewrite (mq_repr_room _ _ _ _ _ W Hms Hcap). unfold mq_try_send, rt_mq_send, mq_valid in *.
  rewrite bind_unfold, (mq_send_wait_eq k mq q used free) by (done || lia).
  rewrite (proj2 (Z.ltb_ge _ _)), andb_true_r by lia.
  rewrite (chain_head _ _ _ (qw_free _ _ _ W)). destruct free as [|msg free].
  - exists k. split; [done|]. split; [done|]. split; [done|]. by exists q, used, [].
  - destruct (qw_data _ _ _ W msg) as (d & Hd & _); [apply elem_of_app; right; by left|].
    destruct (mq_send_put_spec k mq q used msg free m (zlen m) d)
      as (k' & q' & E & H & Hmo' & Hl); try done; [lia|].
    exists k'. rewrite bool_decide_false by done. split.
    + unfold mq_send_loop. rewrite bind_unfold, (get_mq_eq mq q) by done.
      rewrite (chain_head _ _ _ (qw_free _ _ _ W)).
      change (head (msg :: free)) with (Some msg). cbv iota. by rewrite bind_unfold, E.
    + destruct (stored_snoc _ _ _ _ _ _ _ Hl ltac:(lia) ltac:(apply NoDup_app in Hnd as (_ & Hdis & _);
        intros Hin; apply (Hdis msg Hin); by left) Hms) as [H1 H2].
      destruct Hl as (_ & Es & Em & _). apply (mq_repr_handed _ _ _ _ _ _ _ _ _ _ Hmo' H);
        [by rewrite Em|by rewrite Es|]. rewrite mq_messages_app. by apply Forall2_app.
Qed.

Lemma mq_urgent_queue mq cap size ms m k :
  mq_repr mq cap size ms k -> mq_valid size m ->
  exists k', mq_try_urgent mq m k = Some (if (length ms <? cap)%nat then RT_EOK else - RT_EFULL, k') /\
    mq_repr mq cap size (if (length ms <? cap)%nat then m :: ms else ms) k'.
Proof.
  intros (Hok & Hc & q & used & free & Hmo & Hcap & Hsz & Hms) Hv.
  pose proof Hmo as [Hq Hh W]. pose proof (mq_wf_nodup _ _ _ W) as Hnd.
  rewrite (mq_repr_room _ _ _ _ _ W Hms Hcap). unfold mq_try_urgent, mq_valid in *.
  destruct free as [|msg free].
  - exists k. split; [|split; [done|]; split; [done|]; by exists q, used, []].
    unfold rt_mq_urgent.
    rewrite bind_unfold, (assert_type_eq _ _ k (mq_parent q)) by (by apply mq_hdr || apply Hh).
    rewrite bind_unfold. unfold rt_assert. rewrite (proj2 (Z.eqb_neq _ 0)) by lia. cbn [negb].
    rewrite bind_unfold, (get_mq_eq mq q), (proj2 (Z.ltb_ge _ _)) by (done || lia).
    by rewrite (qw_free _ _ _ W).
  - destruct (qw_data _ _ _ W msg) as (d & Hd & _); [apply elem_of_app; right; by left|].
    destruct (mq_urgent_put_spec k mq q used msg free m (zlen m) d)
      as (k' & q' & E & H & Hmo' & Hl); try done; [lia|].
    exists k'. split; [done|].
    destruct (stored_snoc _ _ _ _ _ _ _ Hl ltac:(lia) ltac:(apply NoDup_app in Hnd as (_ & Hdis & _);
        intros Hin; apply (Hdis msg Hin); by left) Hms) as [H1 H2].
    destruct Hl as (_ & Es & Em & _). apply (mq_repr_handed _ _ _ _ _ _ _ _ _ _ Hmo' H);
      [by rewrite Em|by rewrite Es|]. change (msg :: used) with ([msg] ++ used).
    rewrite mq_messages_app. change (m :: ms) with ([m] ++ ms). by apply Forall2_app.
Qed.

Lemma mq_recv_queue mq cap size ms m k :
  mq_repr mq cap size ms k -> 0 < m ->
  match ms with
  | [] => exists k', mq_try_recv mq m k = Some ((- RT_ETIMEOUT, None), k') /\ mq_repr mq cap size [] k'
  | x :: ms => exists out k', mq_try_recv mq m k = Some ((RT_EOK, Some out), k') /\
      mq_delivers m x out /\ mq_repr mq cap size ms k'
  end.
Proof.
  intros (Hok & Hc & q & used & free & Hmo & Hcap & Hsz & Hms) Hv.
  pose proof Hmo as [Hq Hh W]. pose proof (mq_wf_nodup _ _ _ W) as Hnd.
  unfold mq_try_recv. rewrite bind_unfold, (mq_recv_eq k mq q used free) by (done || lia).
  rewrite (qw_entry _ _ _ W), andb_true_r. destruct used as [|msg used].
  - apply Forall2_nil_inv_r in Hms as ->. change (zlen [] =? 0) with true. cbv iota.
    exists k. split; [done|]. split; [done|]. split; [done|]. by exists q, [], free.
  - apply Forall2_cons_inv_r in Hms as (x & ms' & Hx & Hms' & ->).
    rewrite (proj2 (Z.eqb_neq (zlen (msg :: used)) 0)) by (unfold zlen; simpl; lia).
    destruct (qw_data _ _ _ W msg) as (d & Hd & _); [by left|].
    destruct (mq_recv_get_spec k mq q used msg free m d) as (k' & q' & E & H & Hmo' & Hl); try done.
    eexists _, k'. split; [|split].
    + unfold mq_recv_loop. rewrite bind_unfold, (get_mq_eq mq q), (qw_entry _ _ _ W) by done.
      rewrite (proj2 (Z.eqb_neq (zlen (msg :: used)) 0)) by (unfold zlen; simpl; lia).
      by rewrite bind_unfold, E.
    + unfold stored in Hx. rewrite Hd in Hx. simpl in Hx. unfold mq_delivers.
      transitivity (ztake m (ztake (zlen x) (ztake (mq_msg_size q) d))); [|by rewrite Hx].
      rewrite !ztake_ztake. f_equal. lia.
    + pose proof (mq_messages_like q q' used Hl) as Em. destruct Hl as (_ & Es & Emx & _).
      apply (mq_repr_handed _ _ _ _ _ _ _ _ _ _ Hmo' H); [by rewrite Emx|by rewrite Es|].
      by rewrite Em.
Qed.

#[export] Instance message_queue_queue mq cap size :
  BoundedQueue (mq_try_send mq) (mq_try_urgent mq) (mq_try_recv mq) (mq_repr mq cap size) cap
    (mq_valid size) (fun l => 0 < l) mq_delivers.
Proof.
  constructor; [apply mq_send_queue|apply mq_urgent_queue|apply mq_recv_queue].
Qed.

(** C13: any sequence of calls of [rt_mq_send], [rt_mq_urgent] and [rt_mq_recv]
    without waiting, with messages that fit, behaves as a first-in first-out
    queue of [cap] messages, urgent ones going to the front: the codes are the
    queue's, and each receiver gets the bytes of the message the queue gives
    it, as many as its buffer holds. The linked lists of the pool and the
    kernel invariant hold afterwards, whichever threads the calls wake. *)
Theorem mq_refines_fifo mq cap size ops ms k :
  mq_repr mq cap size ms k -> Forall (op_valid (mq_valid size) (fun l => 0 < l)) ops ->
  exists rs k', bq_run (mq_try_send mq) (mq_try_urgent mq) (mq_try_recv mq) ops k = Some (rs, k') /\
    mq_repr mq cap size (bq_steps cap ms ops).1 k' /\
    Forall2 (agree mq_delivers) (bq_steps cap ms ops).2 rs.
Proof.
  apply (bq_refines (mq_try_send mq) (mq_try_urgent mq) (mq_try_recv mq) (mq_repr mq cap size)
           cap (mq_valid size) (fun l => 0 < l) mq_delivers).
Qed.

(** ** Resetting a queue *)

(** The loop moves the messages to the free list one by one; it does not touch
    [entry]. *)
Lemma mq_reset_loop_spec q used free k n :
  mq_wf (set_mq_entry (zlen used) q) used free ->
  exists q', mq_reset_loop (S (length used + n)) q k = Some (q', k) /\
    mq_wf (set_mq_entry 0 q') [] (rev used ++ free) /\ mq_like q q' (mq_data q).
Proof.
  revert q free. induction used as [|msg used IH]; intros q free W.
  - exists q. split; [|done]. simpl. by rewrite (qw_used _ _ _ W : mq_head q = None).
  - destruct (qw_used _ _ _ W) as [Hh (next & Hn & _)]. change (mq_head q = Some msg) in Hh.
    change (mq_next q !! msg = Some next) in Hn.
    set (q1 := mq_given msg (set_mq_entry (mq_entry q) (mq_unlinked msg next q))).
    destruct (IH q1 (msg :: free)) as (q' & E & W' & Hl).
    { pose proof (mq_pop_wf _ _ _ _ next W Hn) as W1.
      replace (set_mq_entry (zlen used) q1)
        with (mq_given msg (mq_unlinked msg next (set_mq_entry (zlen (msg :: used)) q))); [done|].
      unfold q1, mq_given, mq_unlinked, set_mq_free, set_mq_next, set_mq_entry; mq_fields.
      f_equal. unfold zlen. simpl length. lia. }
    exists q'. split; [|split].
    + rewrite <- E. change (length (msg :: used) + n)%nat with (S (length used + n)).
      change (mq_reset_loop (S (S (length used + n))) q) with
        (match mq_head q with
         | None => mret q
         | Some msg =>
             next ← msg_next q msg;
             let q := set_mq_head next q in
             let q := if decide (mq_tail q = Some msg) then set_mq_tail None q else q in
             q ← set_msg_next msg (mq_free q) q;
             mq_reset_loop (S (length used + n)) (set_mq_free (Some msg) q)
         end).
      rewrite Hh. unfold set_msg_next, msg_next. mrun. rewrite Hn. mq_fields.
      unfold q1, mq_given, mq_unlinked. case_decide; mq_fields; by rewrite Hn.
    + simpl rev. rewrite <- app_assoc. exact W'.
    + exact Hl.
Qed.

(** the reset command of [rt_mq_control]. The loop over the queued messages
    ends within the number of messages of the pool; afterwards the queue is
    empty and all its slots are free, and every thread that waited to send or
    to receive can run and will report [-RT_ERROR]. *)
Theorem mq_reset_correct k mq q used free :
  kernel_ok k -> mq_ok k mq q used free -> is_Some (k_current k) -> k_lock_nest k = 0 ->
  exists k' q', rt_mq_control (S (Z.to_nat (mq_max_msgs q))) mq RT_IPC_CMD_RESET k =
      Some (RT_EOK, k') /\
    kernel_ok k' /\ mq_ok k' mq q' [] (rev used ++ free) /\ mq_entry q' = 0 /\
    reset (QMqRecv mq) (QMqSend mq) k k'.
Proof.
  intros Hok [Hq [Hy Hf] W] Hc Hl.
  destruct (resume_both_spec (QMqRecv mq) (QMqSend mq) k Hok) as (k1 & k2 & E1 & E2 & B); [done..|].
  assert (k_mqs k2 !! mq = Some q) as Hq2 by (by rewrite (of_mqs _ _ (wb_frame _ _ _ _ B))).
  pose proof (mq_wf_length _ _ _ W) as Hlen. unfold zlen in Hlen.
  destruct (mq_reset_loop_spec q used free k2 (length free)) as (q' & E3 & W' & Hlk).
  { rewrite <- (qw_entry _ _ _ W). by replace (set_mq_entry (mq_entry q) q) with q by (by destruct q). }
  replace (length used + length free)%nat with (Z.to_nat (mq_max_msgs q)) in E3 by lia.
  set (q0 := set_mq_entry 0 q').
  destruct (reset_schedule (QMqRecv mq) (QMqSend mq) k k2 (mq_st mq q0 k2))
    as (k' & Es & Hok' & F & Hr); try done.
  { apply mq_st_kernel_ok, B. }
  { change (k_lock_nest k2 = 0). by rewrite (of_lock _ _ (wb_frame _ _ _ _ B)). }
  exists k', q0. split; [|split; [done|split; [|done]]].
  - unfold rt_mq_control.
    rewrite bind_unfold, (assert_type_eq _ _ k (mq_parent q)) by (done || by apply mq_hdr).
    change (RT_IPC_CMD_RESET =? RT_IPC_CMD_RESET) with true. cbv iota.
    rewrite bind_unfold, E1, bind_unfold, E2, bind_unfold, (get_mq_eq mq q) by done.
    rewrite bind_unfold, E3, bind_unfold, put_mq_eq. fold q0. by rewrite bind_unfold, Es.
  - constructor; [|change (mq_parent q0) with (mq_parent q'); by destruct Hlk as (-> & _)|done].
    rewrite (of_mqs _ _ F). apply mq_st_lookup.
Qed.

(** ** Initialising a queue *)

Lemma upd_mq_eq mq f q k :
  k_mqs k !! mq = Some q -> upd_mq mq f k = Some (tt, mq_st mq (f q) k).
Proof. intros H. unfold upd_mq. by rewrite bind_unfold, (get_mq_eq mq q). Qed.

Lemma mq_free_loop_spec n temp next free l :
  chain next free l -> (forall x, x ∈ l -> (x < temp)%nat) ->
  chain (mq_free_loop n temp next free).1 (mq_free_loop n temp next free).2 (rev (seq temp n) ++ l).
Proof.
  revert temp next free l. induction n as [|n IH]; intros temp next free l Hc Hl; [done|].
  simpl. rewrite <- app_assoc. apply IH.
  - split; [done|]. exists free. split; [apply lookup_insert_eq|]. apply chain_insert; [|done].
    intros Hin. specialize (Hl temp Hin). lia.
  - intros x [->|Hx]%elem_of_cons; [lia|]. specialize (Hl x Hx). lia.
Qed.

(** The empty queue that [mq_link_free] builds. *)
Definition mq_emptied (pool : gmap nat (list Z)) (q : rt_messagequeue) : rt_messagequeue :=
  let r := mq_free_loop (Z.to_nat (mq_max_msgs q)) 0 ∅ None in
  RtMessageQueue (mq_parent q) (mq_msg_size q) (mq_max_msgs q) 0 r.1 pool None None r.2.

Lemma mq_link_free_spec mq pool q k :
  k_mqs k !! mq = Some q ->
  mq_link_free mq pool k =
    Some (tt, set_k_tq (<[QMqSend mq := []]> (k_tq k)) (mq_st mq (mq_emptied pool q) k)).
Proof.
  intros Hq. unfold mq_link_free. rewrite bind_unfold, (upd_mq_eq mq _ q) by done.
  rewrite bind_unfold, (upd_mq_eq mq _ (set_mq_data pool q)) by apply mq_st_lookup.
  rewrite bind_unfold, (upd_mq_eq mq _ (set_mq_head None (set_mq_data pool q))) by apply mq_st_lookup.
  set (q3 := set_mq_tail None (set_mq_head None (set_mq_data pool q))).
  rewrite bind_unfold, (get_mq_eq mq q3) by apply mq_st_lookup.
  unfold mq_emptied. change (mq_max_msgs q3) with (mq_max_msgs q).
  destruct (mq_free_loop (Z.to_nat (mq_max_msgs q)) 0 ∅ None) as [next free].
  rewrite bind_unfold, (upd_mq_eq mq _ q3) by apply mq_st_lookup.
  rewrite bind_unfold, (upd_mq_eq mq _ (set_mq_next next q3)) by apply mq_st_lookup.
  rewrite bind_unfold, (upd_mq_eq mq _ (set_mq_free free (set_mq_next next q3))) by apply mq_st_lookup.
  by rewrite !mq_st_st.
Qed.

Lemma mq_emptied_wf pool q :
  0 <= mq_msg_size q -> 0 <= mq_max_msgs q <= 65535 ->
  (forall i, (i < Z.to_nat (mq_max_msgs q))%nat ->
     exists d, pool !! i = Some d /\ mq_msg_size q <= zlen d) ->
  mq_wf (mq_emptied pool q) [] (rev (seq 0 (Z.to_nat (mq_max_msgs q)))).
Proof.
  intros Hs Hm Hp. constructor; try done.
  - rewrite <- (app_nil_r (rev _)). apply mq_free_loop_spec; [done|].
    intros x Hx. by apply elem_of_nil in Hx.
  - simpl. by rewrite <- Permutation_rev.
  - intros i Hi. apply Hp. simpl in Hi. rewrite <- Permutation_rev in Hi.
    apply elem_of_seq in Hi. simpl in *. lia.
Qed.

(** [rt_mq_init] of a new queue over a pool of [pool_size] bytes. The
    message size is rounded up to the alignment, and the pool divided into as
    many slots as hold a header and a message; all of them are linked, last to
    first, into the free list, the queue is empty and registered under its
    name, and the kernel invariant holds. *)
Theorem mq_init_correct k mq name pool msg_size pool_size flag :
  let size := 4 * ((msg_size + 3) / 4) in
  let max := pool_size / (size + sizeof_rt_mq_message) in
  kernel_ok k -> is_string name -> flag_ok flag -> 0 <= k_lock_nest k < 32767 ->
  OMessageQueue mq ∉ qget (k_objlist k) RT_Object_Class_MessageQueue ->
  qget (k_tq k) (QMqRecv mq) = [] -> qget (k_tq k) (QMqSend mq) = [] ->
  0 <= msg_size -> size <= 65535 -> 0 <= pool_size -> max <= 65535 ->
  (forall i, (i < Z.to_nat max)%nat -> exists d, pool !! i = Some d /\ zlen d = size) ->
  exists k' q, rt_mq_init mq name pool msg_size pool_size flag k = Some (RT_EOK, k') /\
    kernel_ok k' /\ mq_ok k' mq q [] (rev (seq 0 (Z.to_nat max))) /\
    mq_msg_size q = size /\ mq_max_msgs q = max /\ named k' (OMessageQueue mq) name.
Proof.
  intros size max Hok Hname Hf Hl Hnew Hq1 Hq2 Hm Hs Hp Hmax Hpool.
  destruct (ipc_init_spec (OMessageQueue mq) RT_Object_Class_MessageQueue name flag (QMqRecv mq) k)
    as (k1 & k2 & k3 & h0 & E1 & E2 & E3 & Hok3 & Hh3 & Hw3 & _); try done.
  set (h := set_o_flag flag (init_hdr RT_Object_Class_MessageQueue name h0)) in *.
  change (mq_parent <$> k_mqs k3 !! mq = Some h) in Hh3.
  destruct (k_mqs k3 !! mq) as [q0|] eqn:Eq0; [|done]. injection Hh3 as Hpar.
  set (q1 := set_mq_sizes size max q0).
  assert (mq_parent (mq_emptied pool q1) = h) as Hpar1 by done.
  assert (0 <= size) as Hs0 by (unfold size; dlia).
  assert (0 <= max) as Hm0 by (apply Z.div_pos; [done|]; unfold sizeof_rt_mq_message; lia).
  assert (RT_ALIGN msg_size RT_ALIGN_SIZE = size) as Hal.
  { apply RT_ALIGN_4. unfold size in Hs. split; [done|]. dlia. }
  assert (kernel_ok (mq_st mq (mq_emptied pool q1) (mq_st mq q1 k3))) as Hok4
    by (by apply mq_st_kernel_ok, mq_st_kernel_ok).
  exists (set_k_tq (<[QMqSend mq := []]> (k_tq k3)) (mq_st mq (mq_emptied pool q1) (mq_st mq q1 k3))),
    (mq_emptied pool q1).
  split; [|split; [|split; [|split; [done|split; [done|]]]]].
  - unfold rt_mq_init, rt_assert. rewrite bind_unfold.
    assert (valid_flag flag = true) as -> by (by destruct Hf as [-> | ->]).
    cbv iota. rewrite bind_unfold, E1, bind_unfold, E2, bind_unfold, E3.
    cbv beta iota zeta. rewrite Hal, u16_small by lia. fold max. rewrite (u16_small max) by lia.
    rewrite bind_unfold, (upd_mq_eq mq _ q0) by done. fold q1.
    by rewrite bind_unfold, (mq_link_free_spec mq pool q1) by apply mq_st_lookup.
  - apply (init_list_ok (QMqSend mq) _ Hok4). change (qget (k_tq k3) (QMqSend mq) = []).
    by rewrite Hw3.
  - constructor; [apply mq_st_lookup|by rewrite Hpar1|].
    apply (mq_emptied_wf pool q1); [done|done|]. intros i Hi.
    destruct (Hpool i Hi) as (d & Hd & Hz). exists d. split; [done|]. simpl. lia.
  - split; [done|]. exists h. split; [|done]. simpl. rewrite lookup_insert_eq. simpl. by rewrite Hpar.
Qed.

(** ** A concrete queue *)

(** Queue 0 has two slots of four bytes; it holds the message 1 2 3. *)
Definition mq_pool : gmap nat (list Z) := <[0%nat := [0; 0; 0; 0]]> (<[1%nat := [0; 0; 0; 0]]> ∅).
Definition mq_demo : kstate :=
  after (rt_mq_init 0 [113] mq_pool 3 24 RT_IPC_FLAG_FIFO;; rt_mq_send 0 [1; 2; 3] 3) demo_state.
(** The main thread waits for room after a second message. *)
Definition mq_demo_full : kstate :=
  after (rt_mq_send 0 [4; 5] 2;; rt_mq_send_wait 0 [6] 1 (-1)) mq_demo.

Definition mq_at (mq : nat) (k : kstate) : rt_messagequeue := default raw_messagequeue (k_mqs k !! mq).

Lemma mq_demo_chain q used free :
  0 <= mq_msg_size q -> 0 <= mq_max_msgs q <= 65535 ->
  chain (mq_next q) (mq_head q) used -> chain (mq_next q) (mq_free q) free ->
  mq_tail q = last used -> mq_entry q = zlen used ->
  used ++ free ≡ₚ seq 0 (Z.to_nat (mq_max_msgs q)) ->
  Forall (fun i => exists d, mq_data q !! i = Some d /\ mq_msg_size q <= zlen d) (used ++ free) ->
  mq_wf q used free.
Proof. intros ??????? Hd. constructor; try done. intros i. rewrite Forall_forall in Hd. apply Hd. Qed.

(** A concrete queue is in order. *)
Ltac concrete_mq :=
  constructor; [vm_compute; reflexivity
    |split; [vm_compute; reflexivity|left; vm_compute; reflexivity]
    |apply mq_demo_chain;
      [vm_compute; congruence|vm_compute; split; congruence
      |vm_compute; eauto 10|vm_compute; eauto 10|vm_compute; reflexivity|vm_compute; reflexivity
      |vm_compute; try reflexivity; apply Permutation_swap
      |repeat constructor; eexists; (split; [vm_compute; reflexivity|vm_compute; congruence])]].

Lemma mq_demo_ok : mq_ok mq_demo 0 (mq_at 0 mq_demo) [1%nat] [0%nat].
Proof. concrete_mq. Qed.

Lemma mq_demo_full_ok : mq_ok mq_demo_full 0 (mq_at 0 mq_demo_full) [1%nat; 0%nat] [].
Proof. concrete_mq. Qed.

Lemma mq_send_correct_witness :
  exists r k' q' used' free', rt_mq_send_wait 0 [4; 5] 2 0 mq_demo = Some (r, k') /\
    kernel_ok k' /\ mq_ok k' 0 q' used' free' /\ r = Ret RT_EOK.
Proof.
  destruct (mq_send_correct mq_demo 0 (mq_at 0 mq_demo) [1%nat] [0%nat] 0 (thread_at 0 mq_demo)
              [4; 5] 2 0) as (r & k' & q' & used' & free' & E & Hok & Hmo & H).
  - apply kernel_check_sound. vm_compute. reflexivity.
  - exact mq_demo_ok.
  - constructor; vm_compute; reflexivity.
  - vm_compute. reflexivity.
  - vm_compute. split; congruence.
  - exists r, k', q', used', free'. split; [exact E|]. split; [exact Hok|]. split; [exact Hmo|].
    replace (mq_msg_size (mq_at 0 mq_demo) <? 2) with false in H by (vm_compute; reflexivity).
    cbv iota in H. destruct (decide _) as [_|Hn]; [|exfalso; apply Hn; vm_compute; reflexivity].
    destruct H as (-> & _). reflexivity.
Defined.

Lemma mq_recv_correct_witness :
  exists r k' q' used' free', rt_mq_recv 0 2 0 mq_demo = Some (r, k') /\
    kernel_ok k' /\ mq_ok k' 0 q' used' free' /\ r = (Ret RT_EOK, Some [1; 2]).
Proof.
  destruct (mq_recv_correct mq_demo 0 (mq_at 0 mq_demo) [1%nat] [0%nat] 0 (thread_at 0 mq_demo) 2 0)
    as (r & k' & q' & used' & free' & E & Hok & Hmo & H).
  - apply kernel_check_sound. vm_compute. reflexivity.
  - exact mq_demo_ok.
  - constructor; vm_compute; reflexivity.
  - vm_compute. reflexivity.
  - discriminate.
  - exists r, k', q', used', free'. split; [exact E|]. split; [exact Hok|]. split; [exact Hmo|].
    replace (mq_messages (mq_at 0 mq_demo) [1%nat]) with [[1; 2; 3; 0]] in H
      by (vm_compute; reflexivity).
    cbv iota in H. destruct H as (-> & _). reflexivity.
Defined.

Lemma mq_refines_fifo_witness :
  exists rs k', bq_run (mq_try_send 0) (mq_try_urgent 0) (mq_try_recv 0)
      [BqUrgent [9; 9]; BqSend [7]; BqRecv 4; BqRecv 1] mq_demo = Some (rs, k') /\
    mq_repr 0 2 4 [] k'.
Proof.
  destruct (mq_refines_fifo 0 2 4 [BqUrgent [9; 9]; BqSend [7]; BqRecv 4; BqRecv 1] [[1; 2; 3]] mq_demo)
    as (rs & k' & E & Hr & _).
  - split; [apply kernel_check_sound; vm_compute; reflexivity|]. split; [vm_compute; eauto|].
    exists (mq_at 0 mq_demo), [1%nat], [0%nat]. split; [exact mq_demo_ok|].
    split; [vm_compute; reflexivity|]. split; [vm_compute; reflexivity|].
    constructor; [vm_compute; reflexivity|constructor].
  - repeat constructor; vm_compute; congruence.
  - exists rs, k'. split; [exact E|]. exact Hr.
Defined.

(** The reset wakes the main thread, which waits for room. *)
Lemma mq_reset_correct_witness :
  exists k' q', rt_mq_control 3 0 RT_IPC_CMD_RESET mq_demo_full = Some (RT_EOK, k') /\
    kernel_ok k' /\ mq_ok k' 0 q' [] [0%nat; 1%nat] /\
    runnable k' 0 (set_th_error (- RT_ERROR) (thread_at 0 mq_demo_full)).
Proof.
  destruct (mq_reset_correct mq_demo_full 0 (mq_at 0 mq_demo_full) [1%nat; 0%nat] [])
    as (k' & q' & E & Hok & Hmo & _ & _ & _ & _ & Hw).
  - apply kernel_check_sound. vm_compute. reflexivity.
  - exact mq_demo_full_ok.
  - vm_compute. eauto.
  - vm_compute. reflexivity.
  - exists k', q'. split; [exact E|]. split; [exact Hok|]. split; [exact Hmo|].
    apply Hw; [right; vm_compute; left|vm_compute; reflexivity].
Defined.

Lemma mq_init_correct_witness :
  exists k' q, rt_mq_init 0 [113] mq_pool 3 24 RT_IPC_FLAG_FIFO demo_state = Some (RT_EOK, k') /\
    kernel_ok k' /\ mq_ok k' 0 q [] [1%nat; 0%nat].
Proof.
  destruct (mq_init_correct demo_state 0 [113] mq_pool 3 24 RT_IPC_FLAG_FIFO)
    as (k' & q & E & Hok & Hmo & _).
  - apply kernel_check_sound. vm_compute. reflexivity.
  - repeat constructor; vm_compute; congruence.
  - left. reflexivity.
  - vm_compute. split; congruence.
  - replace (qget (k_objlist demo_state) RT_Object_Class_MessageQueue) with (@nil oid)
      by (vm_compute; reflexivity). apply not_elem_of_nil.
  - vm_compute. reflexivity.
  - vm_compute. reflexivity.
  - lia.
  - vm_compute. congruence.
  - lia.
  - vm_compute. congruence.
  - intros i Hi. change (Z.to_nat _) with 2%nat in Hi.
    exists [0; 0; 0; 0]. split; [|vm_compute; reflexivity].
    destruct i as [|[|i]]; [vm_compute; reflexivity|vm_compute; reflexivity|lia].
  - exists k', q. split; [exact E|]. split; [exact Hok|]. exact Hmo.
Defined.
