(* ===== verification/Mempool.v ===== *)
(** * Memory pools

    [src/mempool.c]. Block [i] of a pool is the block whose header word is the
    [i]th of the pool's memory; [mp_header_of] maps it to what the word holds:
    a link of the free list, or a pointer to the pool while the block is in
    use. The address the user gets, behind the header, is the pair of the pool
    and [i]. *)
From S2P Require Import Prelude Kservice Kernel Sched Object Timer Thread KernelInv Boot Ipc ObjectSpec.

Definition get_mp (mp : nat) : M rt_mempool := p ← gets (fun k => k_mps k !! mp); deref p.
Definition put_mp (mp : nat) (p : rt_mempool) : M unit :=
  modify (fun k => set_k_mps (<[mp := p]> (k_mps k)) k).
Definition upd_mp (mp : nat) (f : rt_mempool -> rt_mempool) : M unit :=
  p ← get_mp mp; put_mp mp (f p).

Definition set_mp_sizes (size block_size total : Z) (p : rt_mempool) : rt_mempool :=
  RtMempool (mp_parent p) size block_size total total (mp_header_of p) (mp_block_list p).
Definition set_mp_blocks (free : Z) (headers : gmap nat mp_header) (list : option nat)
    (p : rt_mempool) : rt_mempool :=
  RtMempool (mp_parent p) (mp_size p) (mp_block_size p) (mp_block_total_count p) free headers list.

(** [sizeof(rt_uint8_t * )]. *)
Definition sizeof_pointer : Z := 8.

(** The loop that links all the blocks, and the end of the list. Without a
    single block the last write would be before the pool, and with too many
    for the memory the writes of the loop would be behind it. *)
Definition mp_link (p : rt_mempool) : option (gmap nat mp_header) :=
  let total := Z.to_nat (mp_block_total_count p) in
  let headers :=
    foldl (fun h offset => <[offset := MpNext (Some (S offset))]> h) ∅ (seq 0 total) in
  if mp_size p <? Z.of_nat total * (mp_block_size p + sizeof_pointer) then None
  else
    match total with
    | O => None
    | S last => Some (<[last := MpNext None]> headers)
    end.

Definition mp_link_blocks (mp : nat) : M unit :=
  modify_tq (fun m => <[QMp mp := []]> m);;
  p ← get_mp mp;
  headers ← deref (mp_link p);
  put_mp mp (set_mp_blocks (mp_block_free_count p) headers (Some 0%nat) p).

Definition rt_mp_init (mp : nat) (name : list Z) (size block_size : Z) : M Z :=
  rt_assert ((0 <? size) && (0 <? block_size));;
  rt_object_init (OMemPool mp) RT_Object_Class_MemPool name;;
  let size := RT_ALIGN_DOWN size RT_ALIGN_SIZE in
  let block_size := RT_ALIGN block_size RT_ALIGN_SIZE in
  upd_mp mp (set_mp_sizes size block_size (size / u64 (block_size + sizeof_pointer)));;
  mp_link_blocks mp;;
  mret RT_EOK.

(** The loop that opens [rt_mp_detach] and [rt_mp_delete]. *)
Definition mp_resume_all (mp : nat) : M unit :=
  n ← gets (fun k => length (qget (k_tq k) (QMp mp)));
  resume_all_loop (S n) (QMp mp).

Definition rt_mp_detach (mp : nat) : M Z :=
  assert_type (OMemPool mp) RT_Object_Class_MemPool;;
  assert_system (OMemPool mp) true;;
  mp_resume_all mp;;
  rt_object_detach (OMemPool mp);;
  mret RT_EOK.

(** [mem] and [start] are what the two allocations return. *)
Definition rt_mp_create (mem : option oid) (start : bool) (name : list Z)
    (block_count block_size : Z) : M (option nat) :=
  RT_DEBUG_NOT_IN_INTERRUPT;;
  rt_assert ((0 <? block_count) && (0 <? block_size));;
  mp ← rt_object_allocate mem RT_Object_Class_MemPool name;
  match mp with
  | Some (OMemPool mp) =>
      let block_size := RT_ALIGN block_size RT_ALIGN_SIZE in
      upd_mp mp (set_mp_sizes (u64 (u64 (block_size + sizeof_pointer) * block_count)) block_size 0);;
      if start then
        upd_mp mp (fun p => set_mp_sizes (mp_size p) (mp_block_size p) block_count p);;
        mp_link_blocks mp;;
        mret (Some mp)
      else
        rt_object_delete (OMemPool mp);;
        mret None
  | _ => mret None
  end.

Definition rt_mp_delete (mp : nat) : M Z :=
  RT_DEBUG_NOT_IN_INTERRUPT;;
  assert_type (OMemPool mp) RT_Object_Class_MemPool;;
  assert_system (OMemPool mp) false;;
  mp_resume_all mp;;
  rt_object_delete (OMemPool mp);;
  mret RT_EOK.

(** [rt_mp_alloc] from the end of its loop on. *)
Definition mp_take (mp : nat) : M nat :=
  p ← get_mp mp;
  let p := set_mp_blocks (u64 (mp_block_free_count p - 1)) (mp_header_of p) (mp_block_list p) p in
  put_mp mp p;;
  block ← deref (mp_block_list p);
  header ← deref (mp_header_of p !! block);
  match header with
  | MpPool => fun _ => None
  | MpNext next =>
      put_mp mp (set_mp_blocks (mp_block_free_count p) (<[block := MpPool]> (mp_header_of p)) next p);;
      mret block
  end.

(** The loop up to a wait or the end; a wait is a pair of [time] and
    [before_sleep]. A waiting thread goes to the front of the list. *)
Definition mp_alloc_loop (mp : nat) (time before_sleep : Z)
    : M (option (Z * Z) * option nat) :=
  p ← get_mp mp;
  if mp_block_free_count p =? 0 then
    if time =? 0 then
      rt_set_errno (- RT_ETIMEOUT);;
      mret (None, None)
    else
      RT_DEBUG_NOT_IN_INTERRUPT;;
      thread ← current_thread;
      set_error thread RT_EOK;;
      rt_thread_suspend thread;;
      modify_tq (rt_list_insert_after (QMp mp) thread);;
      before_sleep ← (if 0 <? time then
                        now ← rt_tick_get; start_thread_timer thread time;; mret now
                      else mret before_sleep);
      rt_schedule;;
      mret (Some (time, before_sleep), None)
  else
    block ← mp_take mp;
    mret (None, Some block).

(** The result is the wait, if any, and otherwise the block or null. *)
Definition rt_mp_alloc (mp : nat) (time : Z) : M (option (Z * Z) * option nat) :=
  mp_alloc_loop mp time 0.

Definition rt_mp_alloc_resume (thread mp : nat) (w : Z * Z) : M (option (Z * Z) * option nat) :=
  th ← get_thread thread;
  if negb (th_error th =? RT_EOK) then mret (None, None)
  else
    '(time, _) ← remaining_timeout w.1 w.2;
    mp_alloc_loop mp time w.2.

(** [mp] is what the header of the block points to. *)
Definition rt_mp_free (block : option (nat * nat)) : M unit :=
  match block return M unit with
  | None => mret tt
  | Some (mp, block) =>
      p ← get_mp mp;
      header ← deref (mp_header_of p !! block);
      match header return M unit with
      | MpNext _ => fun _ => None
      | MpPool =>
          put_mp mp (set_mp_blocks (u64 (mp_block_free_count p + 1))
            (<[block := MpNext (mp_block_list p)]> (mp_header_of p)) (Some block) p);;
          empty ← gets (fun k => rt_list_isempty (QMp mp) (k_tq k));
          when (negb empty)
            (thread ← list_first (QMp mp);
             upd_thread thread (set_th_error RT_EOK);;
             rt_thread_resume thread;;
             rt_schedule)
      end
  end.

(** ** The free list *)

Fixpoint free_chain (headers : gmap nat mp_header) (b : option nat) (l : list nat) : Prop :=
  match l with
  | [] => b = None
  | x :: l => b = Some x /\ exists next, headers !! x = Some (MpNext next) /\ free_chain headers next l
  end.

(** The blocks of [free] are on the free list in this order, those of [held]
    are in use, and there are no others. *)
Record mp_wf (p : rt_mempool) (free held : list nat) : Prop := MpWf {
  mpw_free : free_chain (mp_header_of p) (mp_block_list p) free;
  mpw_held b : b ∈ held -> mp_header_of p !! b = Some MpPool;
  mpw_blocks : free ++ held ≡ₚ seq 0 (Z.to_nat (mp_block_total_count p));
  mpw_count : mp_block_free_count p = zlen free;
  mpw_total : 0 < mp_block_total_count p < 2 ^ 64
}.

Record mp_ok (k : kstate) (mp : nat) (p : rt_mempool) (free held : list nat) : Prop := MpOk {
  mpo_lookup : k_mps k !! mp = Some p;
  mpo_type : has_type RT_Object_Class_MemPool (mp_parent p);
  mpo_wf : mp_wf p free held
}.

Lemma free_chain_frame h x v b l :
  x ∉ l -> free_chain h b l -> free_chain (<[x := v]> h) b l.
Proof.
  revert b. induction l as [|y l IH]; intros b Hx; [done|].
  apply not_elem_of_cons in Hx as [Hne Hx]. intros (-> & next & Hn & Hc).
  split; [done|]. exists next. rewrite lookup_insert_ne by done. split; [done|by apply IH].
Qed.

Lemma mp_wf_nodup p free held : mp_wf p free held -> NoDup (free ++ held).
Proof. intros W. rewrite (mpw_blocks _ _ _ W). apply NoDup_seq. Qed.

Lemma mp_wf_length p free held :
  mp_wf p free held -> zlen free + zlen held = mp_block_total_count p.
Proof.
  intros W. pose proof (Permutation_length (mpw_blocks _ _ _ W)) as Hl.
  pose proof (mpw_total _ _ _ W). rewrite length_app, length_seq in Hl. unfold zlen. lia.
Qed.

(** The pool after the first free block has been taken, and after [b] has been
    given back. *)
Definition mp_taken (p : rt_mempool) (next : option nat) (b : nat) : rt_mempool :=
  set_mp_blocks (mp_block_free_count p - 1) (<[b := MpPool]> (mp_header_of p)) next p.
Definition mp_given (p : rt_mempool) (b : nat) : rt_mempool :=
  set_mp_blocks (mp_block_free_count p + 1) (<[b := MpNext (mp_block_list p)]> (mp_header_of p))
    (Some b) p.

Lemma mp_taken_wf p b free held :
  mp_wf p (b :: free) held ->
  exists next, mp_header_of p !! b = Some (MpNext next) /\ mp_block_list p = Some b /\
    mp_wf (mp_taken p next b) free (b :: held).
Proof.
  intros W. pose proof (mp_wf_nodup _ _ _ W) as Hnd. simpl in Hnd. apply NoDup_cons in Hnd as [Hb _].
  destruct W as [(Hl & next & Hn & Hf) Hh Hp Hc Ht]. exists next. split; [done|]. split; [done|].
  constructor; simpl.
  - apply free_chain_frame; [|done]. intros Hx. apply Hb, elem_of_app. by left.
  - intros x [->|Hx]%elem_of_cons; [apply lookup_insert_eq|].
    rewrite lookup_insert_ne; [by apply Hh|]. intros ->. apply Hb, elem_of_app. by right.
  - rewrite <- Permutation_middle. apply Hp.
  - rewrite Hc. unfold zlen. simpl length. lia.
  - done.
Qed.

Lemma mp_given_wf p b free held :
  mp_wf p free (b :: held) -> mp_wf (mp_given p b) (b :: free) held.
Proof.
  intros W. pose proof (mp_wf_nodup _ _ _ W) as Hnd. rewrite <- Permutation_middle in Hnd.
  apply NoDup_cons in Hnd as [Hb _]. destruct W as [Hf Hh Hp Hc Ht]. constructor; simpl.
  - split; [done|]. exists (mp_block_list p). split; [apply lookup_insert_eq|].
    apply free_chain_frame; [|done]. intros Hx. apply Hb, elem_of_app. by left.
  - intros x Hx. rewrite lookup_insert_ne; [apply Hh; by right|].
    intros ->. apply Hb, elem_of_app. by right.
  - by rewrite Permutation_middle.
  - rewrite Hc. unfold zlen. simpl length. lia.
  - done.
Qed.

(** The order of the blocks in use does not matter. *)
Lemma mp_wf_held p free held held' : held ≡ₚ held' -> mp_wf p free held -> mp_wf p free held'.
Proof.
  intros E [Hf Hh Hp Hc Ht]. constructor; try done; [|by rewrite <- E].
  intros b Hb. apply Hh. by rewrite E.
Qed.

Definition mp_st (mp : nat) (p : rt_mempool) (k : kstate) : kstate :=
  set_k_mps (<[mp := p]> (k_mps k)) k.

Lemma get_mp_eq mp p k : k_mps k !! mp = Some p -> get_mp mp k = Some (p, k).
Proof. intros H. unfold get_mp. mrun. by rewrite H. Qed.
Lemma mp_st_kernel_ok mp p k : kernel_ok k -> kernel_ok (mp_st mp p k).
Proof. by apply kernel_ok_objects. Qed.
Lemma mp_st_st mp p p' k : mp_st mp p' (mp_st mp p k) = mp_st mp p' k.
Proof. unfold mp_st; kfields. by rewrite insert_insert_eq. Qed.
Lemma mp_st_lookup mp p k : k_mps (mp_st mp p k) !! mp = Some p.
Proof. apply lookup_insert_eq. Qed.

Lemma mp_take_spec k mp p b free held :
  mp_ok k mp p (b :: free) held ->
  exists p', mp_take mp k = Some (b, mp_st mp p' k) /\ mp_ok (mp_st mp p' k) mp p' free (b :: held).
Proof.
  intros [Hp Hty W]. destruct (mp_taken_wf p b free held W) as (next & Hn & Hl & W').
  pose proof (mp_wf_length _ _ _ W) as Hlen. pose proof (mpw_total _ _ _ W) as Ht.
  pose proof (mpw_count _ _ _ W) as Hc. pose proof (zlen_nonneg free). pose proof (zlen_nonneg held).
  assert (zlen (b :: free) = zlen free + 1) as E by (unfold zlen; simpl length; lia).
  exists (mp_taken p next b). split; [|split; [apply mp_st_lookup|done|done]].
  unfold mp_take. rewrite bind_unfold, (get_mp_eq mp p) by done.
  rewrite (u64_small (mp_block_free_count p - 1)) by lia. cbv zeta.
  set (p1 := set_mp_blocks (mp_block_free_count p - 1) (mp_header_of p) (mp_block_list p) p).
  rewrite bind_unfold. change (put_mp mp p1 k) with (Some (tt, mp_st mp p1 k)). cbv beta iota.
  rewrite bind_unfold. change (mp_block_list p1) with (mp_block_list p). rewrite Hl. cbv beta iota.
  unfold deref at 1. rewrite bind_unfold. change (mp_header_of p1) with (mp_header_of p). rewrite Hn.
  unfold deref at 1. cbv beta iota. rewrite bind_unfold. unfold mret, St_ret.
  change (put_mp mp ?q (mp_st mp p1 k)) with (Some (tt, mp_st mp q (mp_st mp p1 k))).
  cbv beta iota. by rewrite mp_st_st.
Qed.

(** ** Requests *)

Lemma set_errno_eq k c th e :
  can_block k c th -> rt_set_errno e k = Some (tt, thread_st c (set_th_error e th) k).
Proof.
  intros [Hc Hth _ _ Hn]. unfold rt_set_errno, rt_interrupt_get_nest, rt_thread_self. mrun.
  rewrite Hn. change (0 =? 0) with true. cbv beta iota. rewrite Hc. by apply upd_thread_eq.
Qed.

(** A thread that waits for a block, in front of those that wait already. *)
Lemma mp_wait_spec k mp p c th time before :
  kernel_ok k -> k_mps k !! mp = Some p -> mp_block_free_count p = 0 -> can_block k c th ->
  time <> 0 -> time < RT_TICK_MAX / 2 ->
  let th0 := set_th_error RT_EOK th in
  exists k', mp_alloc_loop mp time before k =
      Some ((Some (time, if 0 <? time then k_tick k else before), None), k') /\
    blocked_on (QMp mp) c th0 (-1) time (thread_st c th0 k) k' /\
    qget (k_tq k') (QMp mp) = c :: qget (k_tq k) (QMp mp).
Proof.
  intros Hok Hp Hf Hcb Ht Hto th0. pose proof (cb_thread _ _ _ Hcb) as Hth.
  destruct (set_error_ok c th RT_EOK k Hok Hth) as [E0 Hok0]. fold th0 in E0, Hok0.
  set (k0 := thread_st c th0 k) in *.
  destruct (suspend_spec c th0 k0 Hok0) as (k1 & E1 & Su);
    [apply Hcb|apply thread_st_lookup|apply Hcb|].
  destruct (enqueued_spec (QMp mp) c th0 (-1) time k0 k1 [] (qget (k_tq k) (QMp mp)))
    as (k2 & E2 & Htk & k' & Es & B & Hq); try done.
  exists k'. split; [|done]. unfold mp_alloc_loop.
  rewrite bind_unfold, (get_mp_eq mp p) by done. rewrite Hf. change (0 =? 0) with true. cbv iota.
  rewrite (proj2 (Z.eqb_neq time 0) Ht), bind_unfold.
  assert (RT_DEBUG_NOT_IN_INTERRUPT k = Some (tt, k)) as ->.
  { unfold RT_DEBUG_NOT_IN_INTERRUPT, rt_interrupt_get_nest, rt_assert. mrun.
    by rewrite (cb_no_isr _ _ _ Hcb). }
  rewrite bind_unfold, (current_thread_eq k c) by apply Hcb.
  rewrite bind_unfold, E0, bind_unfold, E1, bind_unfold.
  change (modify_tq (rt_list_insert_after (QMp mp) c) k1)
    with (Some (tt, set_k_tq (<[QMp mp := c :: qget (k_tq k1) (QMp mp)]> (k_tq k1)) k1)).
  cbv beta iota. rewrite (su_tq _ _ _ _ Su). change (k_tq k0) with (k_tq k).
  set (k1' := set_k_tq _ _) in *. rewrite bind_unfold.
  destruct (0 <? time) eqn:H0.
  - unfold rt_tick_get. rewrite bind_unfold. unfold gets at 1. cbv beta iota.
    change ([] ++ c :: qget (k_tq k) (QMp mp)) with (c :: qget (k_tq k) (QMp mp)) in E2. fold k1' in E2.
    simpl in E2. rewrite bind_unfold, E2. unfold mret, St_ret. rewrite bind_unfold, Es.
    do 4 f_equal. change (k_tick k1') with (k_tick k1). by rewrite (of_tick _ _ (su_frame _ _ _ _ Su)).
  - unfold mret at 1, St_ret. injection E2 as <-. by rewrite bind_unfold, Es.
Qed.

Lemma mp_ok_frame k k' mp p free held :
  mp_ok k mp p free held -> k_mps k' = k_mps k -> mp_ok k' mp p free held.
Proof. intros [] E. constructor; try done. by rewrite E. Qed.

Lemma mp_busy k mp p free held :
  mp_ok k mp p free held -> mp_block_free_count p = 0 <-> free = [].
Proof.
  intros [_ _ W]. rewrite (mpw_count _ _ _ W). unfold zlen. by destruct free.
Qed.

(** The branch of [rt_mp_alloc] that has a block to give. *)
Lemma mp_alloc_now k mp p b free held time before :
  kernel_ok k -> mp_ok k mp p (b :: free) held ->
  exists p', mp_alloc_loop mp time before k = Some ((None, Some b), mp_st mp p' k) /\
    kernel_ok (mp_st mp p' k) /\ mp_ok (mp_st mp p' k) mp p' free (b :: held).
Proof.
  intros Hok Hmp. destruct (mp_take_spec k mp p b free held Hmp) as (p' & E & Hmp').
  exists p'. split; [|split; [by apply mp_st_kernel_ok|done]].
  unfold mp_alloc_loop. rewrite bind_unfold, (get_mp_eq mp p) by apply Hmp.
  destruct (Z.eqb_spec (mp_block_free_count p) 0) as [H0|_].
  - apply (mp_busy _ _ _ _ _ Hmp) in H0. done.
  - by rewrite bind_unfold, E.
Qed.

(** The branch that fails at once. *)
Lemma mp_alloc_empty k mp p held c th before :
  kernel_ok k -> mp_ok k mp p [] held -> can_block k c th ->
  let k' := thread_st c (set_th_error (- RT_ETIMEOUT) th) k in
  mp_alloc_loop mp 0 before k = Some ((None, None), k') /\ kernel_ok k' /\ mp_ok k' mp p [] held.
Proof.
  intros Hok Hmp Hcb k'. split; [|split; [|by apply (mp_ok_frame k)]].
  - unfold mp_alloc_loop. rewrite bind_unfold, (get_mp_eq mp p) by apply Hmp.
    rewrite (proj2 (mp_busy _ _ _ _ _ Hmp) eq_refl). change (0 =? 0) with true. cbv iota.
    by rewrite bind_unfold, (set_errno_eq k c th).
  - apply (set_error_ok c th); [done|apply Hcb].
Qed.

(** What a call of [rt_mp_alloc], or the rest of one after a wait, does. *)
Lemma mp_alloc_loop_spec k mp p free held c th time before :
  kernel_ok k -> mp_ok k mp p free held -> can_block k c th -> time < RT_TICK_MAX / 2 ->
  exists w b k' p', mp_alloc_loop mp time before k = Some ((w, b), k') /\ kernel_ok k' /\
    match free with
    | x :: rest => w = None /\ b = Some x /\ mp_ok k' mp p' rest (x :: held) /\
        k_current k' = Some c /\ k_threads k' = k_threads k
    | [] => b = None /\ p' = p /\ mp_ok k' mp p [] held /\
        if decide (time = 0) then
          w = None /\ k_current k' = Some c /\
          k_threads k' !! c = Some (set_th_error (- RT_ETIMEOUT) th)
        else
          w = Some (time, if 0 <? time then k_tick k else before) /\ highest_running k' /\
          k_threads k' !! c = Some (with_stat RT_THREAD_SUSPEND (set_th_error RT_EOK th)) /\
          qget (k_tq k') (QMp mp) = c :: qget (k_tq k) (QMp mp)
    end.
Proof.
  intros Hok Hmp Hcb Hto. destruct free as [|x rest].
  - case_decide as Ht.
    + subst time. destruct (mp_alloc_empty k mp p held c th before Hok Hmp Hcb) as (E & Hok' & Hmp').
      eexists _, _, _, p. split; [exact E|]. split; [done|]. split_and!; try done; [apply Hcb|].
      apply thread_st_lookup.
    + destruct (mp_wait_spec k mp p c th time before Hok) as (k' & E & B & Hq); try done;
        [apply Hmp|by apply (mp_busy _ _ _ _ _ Hmp)|].
      eexists _, _, k', p. split; [exact E|]. split; [apply B|]. split; [done|]. split; [done|].
      split; [apply (mp_ok_frame k); [done|]; by rewrite (of_mps _ _ (bo_frame _ _ _ _ _ _ _ B))|].
      split; [done|]. split; [apply (bo_highest _ _ _ _ _ _ _ B); apply Hcb|].
      split; [apply B|done].
  - destruct (mp_alloc_now k mp p x rest held time before Hok Hmp) as (p' & E & Hok' & Hmp').
    eexists _, _, _, p'. split; [exact E|]. split; [done|]. split_and!; try done. apply Hcb.
Qed.

(** [rt_mp_alloc]. If a block is free, the caller gets the first one of the
    free list at once, and it is then in use. Otherwise a caller that does not
    want to wait gets a null pointer and the error number is [-RT_ETIMEOUT];
    any other caller is suspended in front of the threads that wait already,
    and the best ready thread runs. The pool and the kernel invariant hold
    afterwards. *)
Theorem mp_alloc_correct k mp p free held c th time :
  kernel_ok k -> mp_ok k mp p free held -> can_block k c th -> time < RT_TICK_MAX / 2 ->
  exists w b k' p', rt_mp_alloc mp time k = Some ((w, b), k') /\ kernel_ok k' /\
    match free with
    | x :: rest => w = None /\ b = Some x /\ mp_ok k' mp p' rest (x :: held) /\
        k_current k' = Some c /\ k_threads k' = k_threads k
    | [] => b = None /\ p' = p /\ mp_ok k' mp p [] held /\
        if decide (time = 0) then
          w = None /\ k_current k' = Some c /\
          k_threads k' !! c = Some (set_th_error (- RT_ETIMEOUT) th)
        else
          w = Some (time, if 0 <? time then k_tick k else 0) /\ highest_running k' /\
          k_threads k' !! c = Some (with_stat RT_THREAD_SUSPEND (set_th_error RT_EOK th)) /\
          qget (k_tq k') (QMp mp) = c :: qget (k_tq k) (QMp mp)
    end.
Proof. apply mp_alloc_loop_spec. Qed.

(** The first waiting thread is told that there is a block. *)
Lemma mp_wake_spec k mp t l :
  kernel_ok k -> is_Some (k_current k) -> qget (k_tq k) (QMp mp) = t :: l ->
  exists th k', k_threads k !! t = Some th /\
    (thread ← list_first (QMp mp);
     upd_thread thread (set_th_error RT_EOK);; rt_thread_resume thread;; rt_schedule) k =
      Some (tt, k') /\
    woke (QMp mp) t (set_th_error RT_EOK th) (thread_st t (set_th_error RT_EOK th) k) k'.
Proof.
  intros Hok Hc Hq.
  destruct (so_wait _ _ (ok_inv _ (ko_sched _ Hok)) (QMp mp) t) as (th & Hth & Hs);
    [done|rewrite Hq; by left|].
  set (th' := set_th_error RT_EOK th). set (k0 := thread_st t th' k).
  assert (kernel_ok k0) as Hok0 by (by apply (thread_st_same t th)).
  destruct (resume_spec t th' k0 Hok0) as (k1 & E & W); [apply thread_st_lookup|done|].
  destruct (schedule_kernel k1) as (k' & Es & Hok' & F & Hc' & Hh);
    [apply W|by rewrite (wk_current _ _ _ _ W)|].
  exists th, k'. split; [done|]. split.
  - unfold list_first. mrun. rewrite Hq. change (head (t :: l)) with (Some t). cbv beta iota.
    rewrite (upd_thread_eq t _ k th) by done. fold th' k0. by rewrite E.
  - apply (woken_sched t th' k0 k1 k'); try done. change (k_tq k0) with (k_tq k). by rewrite Hq.
Qed.

Lemma mp_free_spec k mp p b free held :
  kernel_ok k -> mp_ok k mp p free (b :: held) -> is_Some (k_current k) -> k_lock_nest k = 0 ->
  exists k', rt_mp_free (Some (mp, b)) k = Some (tt, k') /\ kernel_ok k' /\ is_Some (k_current k') /\
    k_lock_nest k' = 0 /\ mp_ok k' mp (mp_given p b) (b :: free) held /\
    match qget (k_tq k) (QMp mp) with
    | [] => k_threads k' = k_threads k /\ k_current k' = k_current k /\ k_tq k' = k_tq k
    | t :: l => qget (k_tq k') (QMp mp) = l /\ highest_running k' /\
        exists th, k_threads k !! t = Some th /\ runnable k' t (set_th_error RT_EOK th)
    end.
Proof.
  intros Hok Hmp Hc Hl. pose proof Hmp as [Hp Hty W]. pose proof (mp_wf_length _ _ _ W) as Hlen.
  pose proof (mpw_total _ _ _ W) as Ht. pose proof (mpw_count _ _ _ W) as Hcnt.
  pose proof (zlen_nonneg free). pose proof (zlen_nonneg held).
  assert (zlen (b :: held) = zlen held + 1) as Eb by (unfold zlen; simpl length; lia).
  set (k1 := mp_st mp (mp_given p b) k).
  assert (kernel_ok k1) as Hok1 by (by apply mp_st_kernel_ok).
  assert (mp_ok k1 mp (mp_given p b) (b :: free) held) as Hmp1
    by (constructor; [apply mp_st_lookup|done|by apply mp_given_wf]).
  assert (rt_mp_free (Some (mp, b)) k =
    when (negb (rt_list_isempty (QMp mp) (k_tq k)))
      (thread ← list_first (QMp mp); upd_thread thread (set_th_error RT_EOK);;
       rt_thread_resume thread;; rt_schedule) k1) as ->.
  { unfold rt_mp_free. rewrite bind_unfold, (get_mp_eq mp p) by done.
    rewrite bind_unfold, (mpw_held _ _ _ W b) by by left. unfold deref. cbv beta iota.
    by rewrite (u64_small (mp_block_free_count p + 1)) by lia. }
  destruct (qget (k_tq k) (QMp mp)) as [|t l] eqn:El.
  - rewrite (proj2 (isempty_spec (k_tq k) (QMp mp)) El). by exists k1.
  - replace (rt_list_isempty (QMp mp) (k_tq k)) with false by (unfold rt_list_isempty; by rewrite El).
    destruct (mp_wake_spec k1 mp t l Hok1 Hc El) as (th & k' & Hth & E & Wk).
    exists k'. split; [exact E|]. split; [apply Wk|]. split; [apply Wk|].
    split; [by rewrite (of_lock _ _ (wo_frame _ _ _ _ _ Wk))|].
    split; [apply (mp_ok_frame k1); [done|]; by rewrite (of_mps _ _ (wo_frame _ _ _ _ _ Wk))|].
    pose proof (wo_queue _ _ _ _ _ Wk) as Hq. change (k_tq _) with (k_tq k) in Hq at 2.
    rewrite El in Hq. injection Hq as Hq. split; [done|].
    split; [by apply (wo_highest _ _ _ _ _ Wk)|]. exists th. split; [done|apply Wk].
Qed.

(** ** Initialising a pool *)

Lemma link_loop_lookup total n h b :
  foldl (fun h offset => <[offset := MpNext (Some (S offset))]> h) h (seq n total) !! b =
    if decide (n <= b < n + total)%nat then Some (MpNext (Some (S b))) else (h : gmap nat mp_header) !! b.
Proof.
  revert n h. induction total as [|total IH]; intros n h; simpl.
  - by rewrite decide_False by lia.
  - rewrite IH. repeat case_decide; try lia; try done.
    + assert (b = n) as -> by lia. by rewrite lookup_insert_eq.
    + by rewrite lookup_insert_ne by lia.
Qed.

Lemma linked_chain h last :
  (forall b, (b < last)%nat -> h !! b = Some (MpNext (Some (S b)))) ->
  h !! last = Some (MpNext None) ->
  forall n b, (b + n = last)%nat -> free_chain h (Some b) (seq b (S n)).
Proof.
  intros Hh Hlast n. induction n as [|n IH]; intros b Hb.
  - assert (b = last) as -> by lia. split; [done|]. by exists None.
  - split; [done|]. exists (Some (S b)). split; [apply Hh; lia|]. apply (IH (S b)). lia.
Qed.

Lemma mp_link_wf p :
  0 < mp_block_total_count p < 2 ^ 64 -> mp_block_free_count p = mp_block_total_count p ->
  mp_block_total_count p * (mp_block_size p + sizeof_pointer) <= mp_size p ->
  exists headers, mp_link p = Some headers /\
    mp_wf (set_mp_blocks (mp_block_free_count p) headers (Some 0%nat) p)
      (seq 0 (Z.to_nat (mp_block_total_count p))) [].
Proof.
  intros Ht Hf Hs. unfold mp_link. rewrite Z2Nat.id by lia.
  destruct (Z.ltb_spec (mp_size p) (mp_block_total_count p * (mp_block_size p + sizeof_pointer))); [lia|].
  destruct (Z.to_nat (mp_block_total_count p)) as [|last] eqn:El; [lia|].
  pose proof (link_loop_lookup (S last) 0 ∅) as Hloop.
  set (hs := foldl _ _ _) in *. exists (<[last := MpNext None]> hs). split; [done|]. constructor.
  - apply (linked_chain _ last); [| |lia].
    + intros b Hb. simpl. rewrite lookup_insert_ne by lia. rewrite Hloop. by rewrite decide_True by lia.
    + apply lookup_insert_eq.
  - intros b Hb. by apply elem_of_nil in Hb.
  - rewrite app_nil_r. simpl mp_block_total_count. by rewrite El.
  - simpl mp_block_free_count. rewrite Hf. unfold zlen. rewrite length_seq. lia.
  - done.
Qed.

Lemma upd_mp_eq mp f p k : k_mps k !! mp = Some p -> upd_mp mp f k = Some (tt, mp_st mp (f p) k).
Proof. intros H. unfold upd_mp. by rewrite bind_unfold, (get_mp_eq mp p). Qed.

(** [rt_mp_init] of a new pool over [size] bytes. The block size is rounded
    up to the alignment, and the memory divided into as many blocks with a
    header as fit, at least one of which there must be; all of them are free,
    in the order of their addresses, and the kernel invariant holds. *)
Theorem mp_init_correct k mp name size block_size :
  let bs := 4 * ((block_size + 3) / 4) in
  let total := 4 * (size / 4) / (bs + sizeof_pointer) in
  kernel_ok k -> 0 <= k_lock_nest k < 32767 -> OMemPool mp ∉ qget (k_objlist k) RT_Object_Class_MemPool ->
  qget (k_tq k) (QMp mp) = [] -> 0 < size < 2 ^ 64 -> 0 < block_size < 2 ^ 63 -> 0 < total ->
  exists k' p, rt_mp_init mp name size block_size k = Some (RT_EOK, k') /\ kernel_ok k' /\
    mp_ok k' mp p (seq 0 (Z.to_nat total)) [] /\ mp_block_size p = bs /\
    mp_block_total_count p = total /\ mp_block_free_count p = total.
Proof.
  intros bs total Hok Hl Hnew Hq Hs Hb Htot.
  destruct (object_init_spec (OMemPool mp) RT_Object_Class_MemPool name k Hok) as (k0 & [Hok0 F _] & E);
    [vm_compute; eauto|done|done|].
  set (h := init_hdr RT_Object_Class_MemPool name (obj_hdr (OMemPool mp) k0)) in *.
  set (k1 := init_st (OMemPool mp) RT_Object_Class_MemPool name k0) in *.
  assert (kernel_ok k1) as Hok1 by (by apply set_hdr_kernel_ok).
  set (q0 := set_mp_parent h (default raw_mempool (k_mps k0 !! mp))).
  assert (k_mps k1 !! mp = Some q0) as Hq0 by apply lookup_insert_eq.
  assert (RT_ALIGN_DOWN size RT_ALIGN_SIZE = 4 * (size / 4)) as Ed by apply RT_ALIGN_DOWN_4.
  assert (RT_ALIGN block_size RT_ALIGN_SIZE = bs) as Ea by (apply RT_ALIGN_4; lia).
  assert (block_size <= bs <= block_size + 3) as Hbs by (unfold bs; dlia).
  assert (total * (bs + sizeof_pointer) <= 4 * (size / 4) < 2 ^ 64) as Hts.
  { unfold total. rewrite Z.mul_comm. split; [apply Z.mul_div_le; unfold sizeof_pointer; lia|dlia]. }
  set (p1 := set_mp_sizes (4 * (size / 4)) bs total q0).
  destruct (mp_link_wf p1) as (headers & Elink & W); [simpl; unfold sizeof_pointer in *; nia|done|simpl; lia|].
  set (k2 := mp_st mp p1 k1). set (k3 := set_k_tq (<[QMp mp := []]> (k_tq k2)) k2).
  set (p2 := set_mp_blocks total headers (Some 0%nat) p1).
  assert (kernel_ok k3) as Hok3.
  { apply init_list_ok; [by apply mp_st_kernel_ok|]. change (k_tq k2) with (k_tq k0).
    by rewrite (sf_wait _ _ F). }
  exists (mp_st mp p2 k3), p2. split; [|split; [by apply mp_st_kernel_ok|]].
  - unfold rt_mp_init, rt_assert. rewrite bind_unfold.
    rewrite (proj2 (Z.ltb_lt 0 size)), (proj2 (Z.ltb_lt 0 block_size)) by lia. simpl andb. cbv iota.
    unfold mret at 1, St_ret at 1. cbv beta iota. rewrite bind_unfold, E. cbv zeta. rewrite Ed, Ea.
    rewrite (u64_small (bs + sizeof_pointer)) by (unfold sizeof_pointer; lia). fold total.
    rewrite bind_unfold, (upd_mp_eq mp _ q0) by done. fold p1 k2. unfold mp_link_blocks.
    rewrite !bind_unfold. change (modify_tq (fun m => <[QMp mp := []]> m) k2) with (Some (tt, k3)).
    cbv beta iota. rewrite bind_unfold, (get_mp_eq mp p1) by apply mp_st_lookup.
    rewrite bind_unfold, Elink. done.
  - split; [|done]. constructor; [apply mp_st_lookup|done|exact W].
Qed.

(** ** A concrete pool *)

(** 60 bytes make three blocks of 12 bytes. *)
Definition mp_demo : kstate := after (rt_mp_init 0 [112] 60 10) demo_state.
Definition mp_at (mp : nat) (k : kstate) : rt_mempool := default raw_mempool (k_mps k !! mp).
(** All three are taken. *)
Definition mp_demo_full : kstate := after (rt_mp_alloc 0 0;; rt_mp_alloc 0 0;; rt_mp_alloc 0 0) mp_demo.

Lemma mp_demo_ok : mp_ok mp_demo 0 (mp_at 0 mp_demo) [0%nat; 1%nat; 2%nat] [].
Proof.
  constructor; [vm_compute; reflexivity|vm_compute; reflexivity|]. constructor.
  - vm_compute. repeat (split; [reflexivity|]; eexists; split; [reflexivity|]). reflexivity.
  - intros b Hb. by apply elem_of_nil in Hb.
  - vm_compute. reflexivity.
  - vm_compute. reflexivity.
  - vm_compute. split; congruence.
Qed.

Lemma mp_demo_full_ok : mp_ok mp_demo_full 0 (mp_at 0 mp_demo_full) [] [2%nat; 1%nat; 0%nat].
Proof.
  constructor; [vm_compute; reflexivity|vm_compute; reflexivity|]. constructor.
  - vm_compute. reflexivity.
  - intros b Hb. repeat (apply elem_of_cons in Hb as [->|Hb]; [vm_compute; reflexivity|]).
    by apply elem_of_nil in Hb.
  - symmetry. apply (Permutation_rev [0%nat; 1%nat; 2%nat]).
  - vm_compute. reflexivity.
  - vm_compute. split; congruence.
Qed.

Lemma mp_alloc_correct_witness :
  exists w b k', rt_mp_alloc 0 5 mp_demo_full = Some ((w, b), k') /\ kernel_ok k' /\ b = None /\
    w = Some (5, 0) /\ qget (k_tq k') (QMp 0) = [0%nat].
Proof.
  destruct (mp_alloc_correct mp_demo_full 0 (mp_at 0 mp_demo_full) [] [2%nat; 1%nat; 0%nat] 0
    (thread_at 0 mp_demo_full) 5) as (w & b & k' & p' & E & Hok & Hb & _ & _ & H).
  - apply kernel_check_sound. vm_compute. reflexivity.
  - apply mp_demo_full_ok.
  - constructor; vm_compute; reflexivity.
  - vm_compute. reflexivity.
  - exists w, b, k'. split; [exact E|]. split; [exact Hok|]. split; [exact Hb|].
    destruct (decide (5 = 0)) as [?|_]; [discriminate|]. destruct H as (-> & _ & _ & ->).
    split; vm_compute; reflexivity.
Defined.

Lemma mp_init_correct_witness :
  exists k' p, rt_mp_init 0 [112] 60 10 demo_state = Some (RT_EOK, k') /\ kernel_ok k' /\
    mp_ok k' 0 p [0%nat; 1%nat; 2%nat] [] /\ mp_block_total_count p = 3.
Proof.
  destruct (mp_init_correct demo_state 0 [112] 60 10) as (k' & p & E & Hok & Hmp & _ & Ht & _).
  - exact demo_ok.
  - vm_compute. split; congruence.
  - replace (qget (k_objlist demo_state) RT_Object_Class_MemPool) with (@nil oid)
      by (vm_compute; reflexivity). apply not_elem_of_nil.
  - vm_compute. reflexivity.
  - vm_compute. split; congruence.
  - vm_compute. split; congruence.
  - vm_compute. reflexivity.
  - exists k', p. split; [exact E|]. split; [exact Hok|]. split; [exact Hmp|exact Ht].
Defined.
