(* ===== verification/MempoolSystem.v ===== *)
(** * Memory pools in a system of threads

    Any interleaving of requests, with and without waiting, of waits that end, of
    blocks given back and of steps of the rest of the system: who has the blocks. *)
From S2P Require Import Prelude Kservice Kernel Sched Object Timer Thread KernelInv Boot Ipc ObjectSpec Mempool.












(** ** A request that waits *)



