(* ===== verification/Sys.v ===== *)
(** * Calls that wait

    Components that keep their own state behind a lock of the kernel work on
    the pair [sys] of the kernel's state and theirs. A call that finds the lock
    taken suspends its thread; what it does when the thread runs again is the
    rest of the call. *)
From S2P Require Import Prelude Kernel Sched.

Record sys (T : Type) := Sys { sys_kernel : kstate; sys_data : T }.
Arguments Sys {T} _ _.
Arguments sys_kernel {T} _.
Arguments sys_data {T} _.

(** A call that is done, or waits, with what is left of it. *)
#[warnings="-register-all"]
Inductive call (S A : Type) : Type :=
  | Done (a : A)
  | Waits (rest : S -> option (call S A * S)).
Arguments Done {S A} a.
Arguments Waits {S A} rest.

(** [rt_thread_self()->name], for the allocators, which note the owner. *)
Definition self_name : M (option (list Z)) :=
  self ← rt_thread_self;
  match self with
  | Some t => th ← get_thread t; mret (Some (o_name (th_object th)))
  | None => mret None
  end.

Section sys.
Context {T : Type}.
Implicit Types (k : kstate) (m : T).

Definition lift_k {A} (x : M A) : St (sys T) A := fun s =>
  match x (sys_kernel s) with Some (a, k) => Some (a, Sys k (sys_data s)) | None => None end.
Definition lift_h {A} (x : St T A) : St (sys T) A := fun s =>
  match x (sys_data s) with Some (a, m) => Some (a, Sys (sys_kernel s) m) | None => None end.

Lemma lift_k_ok {A} (x : M A) k m a k' : x k = Some (a, k') -> lift_k x (Sys k m) = Some (a, Sys k' m).
Proof. intros E. unfold lift_k. cbn [sys_kernel]. by rewrite E. Qed.

Lemma lift_h_ok {A} (x : St T A) k m a m' : x m = Some (a, m') -> lift_h x (Sys k m) = Some (a, Sys k m').
Proof. intros E. unfold lift_h. cbn [sys_data]. by rewrite E. Qed.
End sys.

(** A call, and then what follows it. *)
Section calls.
Context {S : Type}.

Fixpoint and_then {A B} (c : call S A) (f : A -> St S (call S B)) : St S (call S B) := fun s =>
  match c with
  | Done a => f a s
  | Waits rest => Some (Waits (fun s1 =>
      match rest s1 with Some (c', s2) => and_then c' f s2 | None => None end), s)
  end.

(** [x] is called, then [f] with its result. *)
Definition calls {A B} (x : St S (call S A)) (f : A -> St S (call S B)) : St S (call S B) :=
  c ← x; and_then c f.

Lemma calls_done {A B} (x : St S (call S A)) (f : A -> St S (call S B)) s a s' :
  x s = Some (Done a, s') -> calls x f s = f a s'.
Proof. intros E. unfold calls. by rewrite (bind_ok _ _ _ _ _ E). Qed.
End calls.
