(* ===== verification/Console.v ===== *)
(** * The console

    The console of [src/kservice.c]: the device [_console_device], and what is
    printed on it. The state is the kernel's beside the memory of Cmem.v. The
    operations of the device drivers are arguments, as in Device.v, and so is
    the board's [rt_hw_console_output], which is given the address of a
    string. *)
From Stdlib Require Import String Ascii.
From S2P Require Import Prelude Kservice Cmem Kmemory Kstring Printf PrintfNumber PrintfSpec PrintfCorrect.
From S2P Require Import Kernel Sched Object Timer Thread KernelInv Boot Ipc ObjectSpec Device DeviceSpec Sys.
Open Scope Z_scope.

Definition RT_CONSOLEBUF_SIZE : Z := 128.
Definition RT_DEVICE_FLAG_STREAM : Z := 0x040.
Definition RT_DEVICE_OFLAG_RDWR : Z := 0x003.

Record console := Console {
  cn_memory : cmem;
  cn_device : option nat      (* _console_device *)
}.

Definition on_memory {A} (x : St cmem A) : St (sys console) A := fun s =>
  match x (cn_memory (sys_data s)) with
  | Some (a, m) => Some (a, Sys (sys_kernel s) (Console m (cn_device (sys_data s))))
  | None => None
  end.

Definition rt_console_get_device : St (sys console) (option nat) := gets (fun s => cn_device (sys_data s)).
Definition set_console (d : option nat) : St (sys console) unit :=
  modify (fun s => Sys (sys_kernel s) (Console (cn_memory (sys_data s)) d)).

(** [rt_device_t] of what the object container finds. *)
Definition as_device (o : option oid) : option nat := match o with Some (ODevice d) => Some d | _ => None end.

Section console.
Context (device_init : nat -> option (M Z)).
Context (device_open : nat -> option (Z -> M Z)).
Context (device_close : nat -> option (M Z)).
Context (device_write : nat -> option (Z -> list Z -> Z -> M Z)).
Context (rt_hw_console_output : Z -> St (sys console) unit).
(** The address of the static [rt_log_buf]. *)
Context (rt_log_buf : Z).

Definition rt_console_set_device (name : list Z) : St (sys console) (option nat) :=
  old_device ← rt_console_get_device;
  o ← lift_k (rt_device_find name);
  let new_device := as_device o in
  if decide (new_device = old_device) then mret None
  else
    match new_device with
    | Some new =>
        match old_device with
        | Some old => r ← lift_k (rt_device_close device_close old); mret tt
        | None => mret tt
        end;;
        lift_k (rt_device_open device_init device_open new (Z.lor RT_DEVICE_OFLAG_RDWR RT_DEVICE_FLAG_STREAM));;
        set_console (Some new)
    | None => mret tt
    end;;
    mret old_device.

(** [size] bytes at [buffer] are written to the console. *)
Definition console_write (buffer size : Z) : St (sys console) unit :=
  d ← rt_console_get_device;
  match d with
  | None => rt_hw_console_output buffer
  | Some dev =>
      bytes ← on_memory (load_bytes (Z.to_nat size) buffer);
      lift_k (rt_device_write device_write dev 0 bytes size);;
      mret tt
  end.

Definition rt_kputs (str : Z) : St (sys console) unit :=
  if str =? 0 then mret tt
  else
    d ← rt_console_get_device;
    match d with
    | None => rt_hw_console_output str
    | Some _ => n ← on_memory (rt_strlen str); console_write str n
    end.

Definition rt_kprintf (fmt : Z) (args : list Z) : St (sys console) Z :=
  n ← on_memory (rt_vsnprintf rt_log_buf (RT_CONSOLEBUF_SIZE - 1) fmt args);
  let length := u64 n in
  let length := if RT_CONSOLEBUF_SIZE - 1 <? length then RT_CONSOLEBUF_SIZE - 1 else length in
  console_write rt_log_buf length;;
  mret (s32 length).

(** ** Theorems *)

Lemma on_memory_ok {A} (x : St cmem A) k m d a m' :
  x m = Some (a, m') -> on_memory x (Sys k (Console m d)) = Some (a, Sys k (Console m' d)).
Proof using Type. intros E. unfold on_memory. cbn [sys_data sys_kernel cn_memory cn_device]. by rewrite E. Qed.

(** The console device is open and its driver can write. *)
Definition console_open (k : kstate) (dev : nat) (write : Z -> list Z -> Z -> M Z) : Prop :=
  device_write dev = Some write /\ exists d, device_ok k dev d /\ dev_ref_count d <> 0.

Lemma console_write_spec k m dev write buffer bytes :
  console_open k dev write -> bytes_at m buffer bytes ->
  console_write buffer (zlen bytes) (Sys k (Console m (Some dev))) =
  match write 0 bytes (zlen bytes) k with
  | Some (_, k') => Some (tt, Sys k' (Console m (Some dev)))
  | None => None
  end.
Proof using Type.
  intros (Hw & d & Hd & Hn) Hb. unfold console_write, rt_console_get_device. rewrite bind_gets. cbn [sys_data cn_device].
  assert (Z.to_nat (zlen bytes) = length bytes) as -> by (unfold zlen; lia).
  rewrite (bind_ok _ _ _ _ _ (on_memory_ok _ k m _ _ _ (load_bytes_ok m buffer bytes Hb))).
  rewrite bind_unfold. unfold lift_k. cbn [sys_kernel sys_data]. unfold rt_device_write.
  rewrite (bind_ok _ _ _ _ _ (assert_device k dev d Hd)), (bind_dev k dev d _ Hd). cbv beta.
  rewrite (proj2 (Z.eqb_neq _ 0) Hn), Hw. destruct (write 0 bytes (zlen bytes) k) as [[r k']|]; done.
Qed.

(** What a text becomes on the console: all of it, or 126 characters and a
    zero. *)
Definition console_text (text : list Z) : list Z :=
  if zlen text <=? 126 then text else ztake 126 text ++ [0].

Lemma console_text_length text : zlen (console_text text) = Z.min 127 (zlen text).
Proof using Type.
  unfold console_text. destruct (Z.leb_spec (zlen text) 126); [lia|].
  rewrite zlen_app, zlen_ztake by lia. change (zlen [0]) with 1. lia.
Qed.

(** C23: [rt_kprintf] gives the console's driver, in one call, the text that the
    format string and the arguments mean, if it has no more than 126 characters,
    and returns its length. Of a longer text the driver is given the first 126
    characters and the terminating zero after them, 127 bytes, and 127 is
    returned. The buffer of 128 bytes is never overrun. *)
Theorem kprintf_correct k m dev write strs fmt ps args text :
  console_open k dev write ->
  printable m strs rt_log_buf 127 fmt ps text -> rt_log_buf + 127 < 2 ^ 64 ->
  render strs ps args = Some text ->
  let sent := console_text text in
  rt_kprintf fmt args (Sys k (Console m (Some dev))) =
  match write 0 sent (zlen sent) k with
  | Some (_, k') =>
      Some (zlen sent, Sys k' (Console (write_bytes rt_log_buf (ztake 126 text ++ [0]) m) (Some dev)))
  | None => None
  end.
Proof using Type.
  intros Hc Hp Hend Hr. cbv zeta. unfold rt_kprintf. change (RT_CONSOLEBUF_SIZE - 1) with 127.
  pose proof (vsnprintf_spec _ _ _ _ _ _ _ _ Hp Hr) as E. unfold printed in E.
  assert (capacity rt_log_buf 127 = 127) as Ec by (unfold capacity; lia). rewrite Ec in E.
  change (0 <? 127) with true in E. cbv iota in E. change (127 - 1) with 126 in E.
  rewrite (bind_ok _ _ _ _ _ (on_memory_ok _ k m _ _ _ E)). cbv zeta.
  pose proof (pr_length _ _ _ _ _ _ _ Hp). pose proof (zlen_nonneg text). rewrite u64_small by lia.
  set (m1 := write_bytes rt_log_buf (ztake 126 text ++ [0]) m).
  assert ((if 127 <? zlen text then 127 else zlen text) = zlen (console_text text)) as ->
    by (rewrite console_text_length; destruct (Z.ltb_spec 127 (zlen text)); lia).
  assert (bytes_at m1 rt_log_buf (console_text text)) as Hb.
  { pose proof (write_bytes_at rt_log_buf (ztake 126 text ++ [0]) m) as Hb. fold m1 in Hb.
    unfold console_text. destruct (Z.leb_spec (zlen text) 126); [|exact Hb].
    apply bytes_at_app in Hb as [Hb _]. unfold ztake in Hb. by rewrite take_ge in Hb by (unfold zlen in *; lia). }
  rewrite bind_unfold, (console_write_spec k m1 dev write _ _ Hc Hb).
  destruct (write 0 _ _ k) as [[r k']|]; [|done]. apply mret_ok. rewrite s32_small; [done|].
  rewrite console_text_length. lia.
Qed.
End console.

(** A device that is open, whose driver takes all it is given and notes the
    last byte in the error number. *)
Definition console_demo : kstate := after (rt_device_open (fun _ => None) (fun _ => None) 0 0x43) dev_demo.
Definition note_write (pos : Z) (bytes : list Z) (size : Z) : M Z :=
  rt_set_errno (zget bytes (size - 1));; mret size.
Definition demo_write (dev : nat) : option (Z -> list Z -> Z -> M Z) := Some note_write.

Lemma console_demo_open : console_open demo_write console_demo 0 note_write.
Proof.
  split; [done|]. exists (default raw_device (k_devices console_demo !! 0%nat)). split; [|vm_compute; discriminate].
  constructor; [apply kernel_check_sound; vm_compute; reflexivity|vm_compute; reflexivity|vm_compute; reflexivity].
Qed.

(** "[%130d]": 132 characters. *)
Definition long_pieces : list piece :=
  [PChar (char "["); PDirective (Directive [] (Some (Lit 130)) None QNone Cd); PChar (char "]")].
Definition long_memory : cmem :=
  write_bytes 100 (chars "[%130d]" ++ [0]) (write_bytes 1000 (replicate 128 7) ∅).
Definition long_text : list Z := chars "[" ++ spaces 128 ++ chars "42]".

Lemma long_printable : printable long_memory (fun _ => None) 1000 127 100 long_pieces long_text.
Proof.
  constructor.
  - apply cmem_okb_sound. vm_compute. reflexivity.
  - lia.
  - lia.
  - change (Z.min (capacity 1000 127) (zlen long_text + 1)) with 127. apply write_bytes_mapped.
    intros b Hb. apply (mapped_write 1000 128 (replicate 128 7)); [done|lia].
  - done.
  - vm_compute. reflexivity.
  - split; [apply cstringb_sound; vm_compute; reflexivity|]. right. done.
  - done.
Qed.

Lemma note_demo : exists k', note_write 0 (ztake 126 long_text ++ [0]) 127 console_demo = Some (127, k').
Proof.
  assert (match note_write 0 (ztake 126 long_text ++ [0]) 127 console_demo with
    | Some (r, _) => r =? 127 | None => false end = true) as H by (vm_compute; reflexivity).
  destruct (note_write _ _ _ _) as [[r k']|]; [|discriminate]. exists k'. apply Z.eqb_eq in H. by rewrite H.
Qed.

Lemma kprintf_correct_witness : exists k',
  rt_kprintf demo_write (fun _ => mret tt) 1000 100 [42] (Sys console_demo (Console long_memory (Some 0%nat))) =
    Some (127, Sys k' (Console (write_bytes 1000 (ztake 126 long_text ++ [0]) long_memory) (Some 0%nat))).
Proof.
  pose proof console_demo_open as Ho. pose proof long_printable as Hp.
  assert (render (fun _ => None) long_pieces [42] = Some long_text) as Hr by (vm_compute; reflexivity).
  assert (console_text long_text = ztake 126 long_text ++ [0]) as Ht by (vm_compute; reflexivity).
  assert (zlen (ztake 126 long_text ++ [0]) = 127) as Hl by (vm_compute; reflexivity).
  destruct note_demo as [k' Ew].
  revert Ho Hp Hr Ht Hl Ew. generalize long_text long_memory console_demo. intros text m k Ho Hp Hr Ht Hl Ew.
  exists k'.
  rewrite (kprintf_correct demo_write (fun _ => mret tt) 1000 k m 0 note_write (fun _ => None) 100 long_pieces [42] text
    Ho Hp ltac:(lia) Hr). by rewrite Ht, Hl, Ew.
Defined.
