(* ===== verification/Mem.v ===== *)
(** * The heap

    [src/mem.c], the small memory allocator, which is the system heap in the
    configured build. Heap memory is addressed by the offset from [heap_ptr].
    It has two views: [sm_items] has the headers, a header being the first 32
    bytes of [struct rt_small_mem_item], and [sm_bytes] all other bytes,
    the thread names of the headers among them. Writing a header forgets the
    bytes and headers it overlaps, and writing bytes the headers they overlap;
    reading what is not there is undefined. *)
From S2P Require Import Prelude Kservice Kernel.

Record smem_item := SmemItem { pool_ptr : Z; it_next : Z; it_prev : Z }.

Record rt_small_mem := SmallMem {
  sm_parent : rt_object;
  sm_total : Z;
  sm_used : Z;
  sm_max : Z;
  sm_address : Z;                 (* of the control block *)
  heap_ptr : Z;
  heap_end : Z;                   (* as an offset, like lfree *)
  lfree : Z;
  mem_size_aligned : Z;
  sm_items : gmap Z smem_item;
  sm_bytes : gmap Z Z
}.

Definition set_sm_used (used max : Z) (m : rt_small_mem) : rt_small_mem :=
  SmallMem (sm_parent m) (sm_total m) used max (sm_address m) (heap_ptr m) (heap_end m) (lfree m)
    (mem_size_aligned m) (sm_items m) (sm_bytes m).
Definition set_lfree (x : Z) (m : rt_small_mem) : rt_small_mem :=
  SmallMem (sm_parent m) (sm_total m) (sm_used m) (sm_max m) (sm_address m) (heap_ptr m) (heap_end m) x
    (mem_size_aligned m) (sm_items m) (sm_bytes m).
Definition set_memory (items : gmap Z smem_item) (bytes : gmap Z Z) (m : rt_small_mem)
    : rt_small_mem :=
  SmallMem (sm_parent m) (sm_total m) (sm_used m) (sm_max m) (sm_address m) (heap_ptr m) (heap_end m)
    (lfree m) (mem_size_aligned m) items bytes.

(** The allocator's functions change the heap, or are undefined. *)
Abbreviation H := (St rt_small_mem).

(** ** Memory *)

Definition SIZEOF_STRUCT_MEM : Z := 40.
Definition MIN_SIZE : Z := 24.
Definition MIN_SIZE_ALIGNED : Z := RT_ALIGN MIN_SIZE RT_ALIGN_SIZE.
Definition sizeof_fields : Z := 32.

Definition get_item (p : Z) : H smem_item := fun m => i ← sm_items m !! p; Some (i, m).
Definition upd_item (p : Z) (f : smem_item -> smem_item) : H unit :=
  i ← get_item p;
  modify (fun m => set_memory (<[p := f i]> (sm_items m)) (sm_bytes m) m).

Definition set_pool_ptr (x : Z) (i : smem_item) : smem_item := SmemItem x (it_next i) (it_prev i).
Definition set_it_next (x : Z) (i : smem_item) : smem_item := SmemItem (pool_ptr i) x (it_prev i).
Definition set_it_prev (x : Z) (i : smem_item) : smem_item := SmemItem (pool_ptr i) (it_next i) x.

(** A header is written where there may be none. *)
Definition far (p size q : Z) : Prop := q + sizeof_fields <= p \/ p + size <= q.
#[export] Instance far_dec p size q : Decision (far p size q).
Proof. unfold far. apply _. Defined.

Definition new_item (p : Z) (i : smem_item) : H unit :=
  modify (fun m =>
    set_memory (<[p := i]> (filter (fun x => far p sizeof_fields x.1) (sm_items m)))
      (filter (fun x => ~ (p <= x.1 < p + sizeof_fields)) (sm_bytes m)) m).

(** The bytes [l] are written from [p] on. *)
Fixpoint put_bytes (p : Z) (l : list Z) (bytes : gmap Z Z) : gmap Z Z :=
  match l with [] => bytes | x :: l => put_bytes (p + 1) l (<[p := x]> bytes) end.
Definition write_bytes (p : Z) (l : list Z) : H unit :=
  modify (fun m =>
    set_memory (filter (fun x => far p (zlen l) x.1) (sm_items m)) (put_bytes p l (sm_bytes m)) m).

(** A byte nobody has written reads as any byte; the model takes 0. *)
Definition read_bytes (p n : Z) : H (list Z) :=
  gets (fun m => map (fun i => default 0 (sm_bytes m !! (p + i))) (seqZ 0 n)).

(** ** The pool pointer of an item, with the bit that says it is used *)

Definition MEM_MASK : Z := 0xfffffffe.
Definition MEM_USED (m : rt_small_mem) : Z := Z.lor (Z.land (sm_address m) MEM_MASK) 1.
Definition MEM_FREED (m : rt_small_mem) : Z := Z.lor (Z.land (sm_address m) MEM_MASK) 0.
Definition MEM_ISUSED (i : smem_item) : bool := negb (Z.land (pool_ptr i) 1 =? 0).
Definition MEM_POOL (i : smem_item) : Z := Z.land (pool_ptr i) MEM_MASK.

(** The loop of [rt_smem_setname], which pads a name with blanks. *)
Fixpoint smem_name (n : nat) (name : list Z) : list Z :=
  match n with
  | O => []
  | S n' =>
      match name with
      | [] => repeat 32 n
      | c :: name => if c =? 0 then repeat 32 n else c :: smem_name n' name
      end
  end.
Definition rt_smem_setname (mem : Z) (name : list Z) : H unit :=
  write_bytes (mem + sizeof_fields) (smem_name 8 name).

Definition init_name : list Z := [73; 78; 73; 84].
Definition none_name : list Z := [78; 79; 78; 69].
Definition blank_name : list Z := [32; 32; 32; 32].

(** ** mem.c *)

(** What both halves of [plug_holes] do to combine two neighbours. *)
Definition merge_items (mem nmem : Z) : H unit :=
  upd_item nmem (set_pool_ptr 0);;
  i ← get_item nmem;
  upd_item mem (set_it_next (it_next i));;
  upd_item (it_next i) (set_it_prev mem).

(** [plug_holes], first half and second half. *)
Definition free_behind (mem nmem : Z) : H bool :=
  if mem =? nmem then mret false
  else
    ni ← get_item nmem;
    e ← gets heap_end;
    mret (negb (MEM_ISUSED ni) && negb (nmem =? e)).
Definition plug_forward (mem : Z) : H unit :=
  i ← get_item mem;
  let nmem := it_next i in
  plug ← free_behind mem nmem;
  when plug
    (free ← gets lfree;
     when (free =? nmem) (modify (set_lfree mem));;
     merge_items mem nmem).

Definition free_before (mem pmem : Z) : H bool :=
  if pmem =? mem then mret false else pi ← get_item pmem; mret (negb (MEM_ISUSED pi)).
Definition plug_backward (mem : Z) : H unit :=
  i ← get_item mem;
  let pmem := it_prev i in
  plug ← free_before mem pmem;
  when plug
    (free ← gets lfree;
     when (free =? mem) (modify (set_lfree pmem));;
     merge_items pmem mem).

Definition plug_holes (mem : Z) : H unit :=
  rt_assert (0 <=? mem);;
  e ← gets heap_end;
  rt_assert (mem <? e);;
  plug_forward mem;;
  plug_backward mem.

(** [sizeof(struct rt_small_mem)]. *)
Definition sizeof_rt_small_mem : Z := 104.

(** The heap in the memory [begin_addr] to [begin_addr + size]: null if it is
    too small. The control block is at its beginning; of [rt_object_init] only
    the header is here. *)
Definition rt_smem_init (name : list Z) (begin_addr size : Z) : option rt_small_mem :=
  let small_mem := RT_ALIGN begin_addr RT_ALIGN_SIZE in
  let start_addr := u64 (small_mem + sizeof_rt_small_mem) in
  let begin_align := RT_ALIGN start_addr RT_ALIGN_SIZE in
  let end_align := RT_ALIGN_DOWN (u64 (begin_addr + size)) RT_ALIGN_SIZE in
  if (2 * SIZEOF_STRUCT_MEM <? end_align) && (start_addr <=? end_align - 2 * SIZEOF_STRUCT_MEM) then
    let mem_size := u64 (end_align - begin_align - 2 * SIZEOF_STRUCT_MEM) in
    let h := RtObject (rt_strncpy name RT_NAME_MAX) (Z.lor RT_Object_Class_Memory RT_Object_Class_Static) 0 in
    let m := SmallMem h mem_size 0 0 small_mem begin_align (mem_size + SIZEOF_STRUCT_MEM) 0 mem_size ∅ ∅ in
    let e := mem_size + SIZEOF_STRUCT_MEM in
    snd <$>
      (new_item 0 (SmemItem (MEM_FREED m) e 0);;
       rt_smem_setname 0 init_name;;
       new_item e (SmemItem (MEM_USED m) e e);;
       rt_smem_setname e init_name) m
  else None.

(** The assertions on the object that open every operation. *)
Definition assert_heap : H unit :=
  type ← gets (fun m => o_type (sm_parent m));
  rt_assert (u8 (Z.land type (Z.lnot RT_Object_Class_Static)) =? RT_Object_Class_Memory);;
  rt_assert (negb (Z.land type RT_Object_Class_Static =? 0)).

Definition add_used (n : Z) : H unit :=
  modify (fun m =>
    let used := u64 (sm_used m + n) in
    set_sm_used used (if sm_max m <? used then used else sm_max m) m).

(** The loop that moves [lfree] to the next free item. *)
Fixpoint lfree_loop (fuel : nat) : H unit :=
  match fuel with
  | O => fun _ => None
  | S fuel =>
      free ← gets lfree;
      e ← gets heap_end;
      i ← get_item free;
      if MEM_ISUSED i && negb (free =? e) then
        modify (set_lfree (it_next i));;
        lfree_loop fuel
      else mret tt
  end.

(** One round per item of the heap, and the last test, are enough. *)
Definition smem_fuel (m : rt_small_mem) : nat :=
  Z.to_nat (mem_size_aligned m / SIZEOF_STRUCT_MEM + 3).

(** The item [mem2] is cut off the end of [mem] at [ptr2]. *)
Definition split_item (mem ptr2 : Z) : H unit :=
  i ← get_item mem;
  freed ← gets MEM_FREED;
  new_item ptr2 (SmemItem freed (it_next i) mem);;
  rt_smem_setname ptr2 blank_name;;
  upd_item mem (set_it_next ptr2);;
  i2 ← get_item ptr2;
  size ← gets mem_size_aligned;
  when (negb (it_next i2 =? size + SIZEOF_STRUCT_MEM)) (upd_item (it_next i2) (set_it_prev ptr2)).

(** The item at [ptr] is marked used and gets the name [self] of the running
    thread, and [lfree] leaves it. *)
Definition mark_taken (self : option (list Z)) (ptr : Z) : H unit :=
  used ← gets MEM_USED;
  upd_item ptr (set_pool_ptr used);;
  rt_smem_setname ptr (default none_name self);;
  free ← gets lfree;
  fuel ← gets smem_fuel;
  when (ptr =? free) (lfree_loop fuel).

(** The free item at [ptr] is taken. *)
Definition take_item (self : option (list Z)) (ptr size : Z) : H Z :=
  i ← get_item ptr;
  (if size + SIZEOF_STRUCT_MEM + MIN_SIZE_ALIGNED <=? u64 (it_next i - (ptr + SIZEOF_STRUCT_MEM)) then
     split_item ptr (ptr + SIZEOF_STRUCT_MEM + size);;
     add_used (size + SIZEOF_STRUCT_MEM)
   else add_used (it_next i - ptr));;
  mark_taken self ptr;;
  e ← gets heap_end;
  rt_assert (ptr + SIZEOF_STRUCT_MEM + size <=? e);;
  heap ← gets heap_ptr;
  rt_assert ((heap + ptr + SIZEOF_STRUCT_MEM) mod RT_ALIGN_SIZE =? 0);;
  rt_assert (Z.land (heap + ptr) (RT_ALIGN_SIZE - 1) =? 0);;
  mret (heap + ptr + SIZEOF_STRUCT_MEM).

(** The search for the first item that fits. *)
Fixpoint alloc_loop (fuel : nat) (self : option (list Z)) (ptr size : Z) : H (option Z) :=
  match fuel with
  | O => fun _ => None
  | S fuel =>
      total ← gets mem_size_aligned;
      if ptr <=? u64 (total - size) then
        i ← get_item ptr;
        if negb (MEM_ISUSED i) && (size <=? u64 (it_next i - (ptr + SIZEOF_STRUCT_MEM))) then
          p ← take_item self ptr size;
          mret (Some p)
        else alloc_loop fuel self (it_next i) size
      else mret None
  end.

Definition rt_smem_alloc (self : option (list Z)) (size : Z) : H (option Z) :=
  if size =? 0 then mret None
  else
    assert_heap;;
    let size := RT_ALIGN size RT_ALIGN_SIZE in
    let size := if size <? MIN_SIZE_ALIGNED then MIN_SIZE_ALIGNED else size in
    total ← gets mem_size_aligned;
    if total <? size then mret None
    else
      free ← gets lfree;
      fuel ← gets smem_fuel;
      alloc_loop fuel self free size.

Definition sub_used (n : Z) : H unit :=
  modify (fun m => set_sm_used (u64 (sm_used m - n)) (sm_max m) m).

(** The item [mem], now free, is counted and combined with its neighbours. *)
Definition give_back (mem next : Z) : H unit :=
  free ← gets lfree;
  when (mem <? free) (modify (set_lfree mem));;
  sub_used (next - mem);;
  plug_holes mem.

(** The pool is found through the item; undefined if it is not this heap. *)
Definition rt_smem_free (rmem : option Z) : H unit :=
  match rmem with
  | None => mret tt
  | Some rmem =>
      rt_assert (Z.land rmem (RT_ALIGN_SIZE - 1) =? 0);;
      heap ← gets heap_ptr;
      let mem := rmem - SIZEOF_STRUCT_MEM - heap in
      i ← get_item mem;
      address ← gets sm_address;
      rt_assert (MEM_POOL i =? address);;
      rt_assert (MEM_ISUSED i);;
      assert_heap;;
      e ← gets heap_end;
      rt_assert ((heap <=? rmem) && (rmem <? heap + e));;
      ni ← get_item (it_next i);
      rt_assert (MEM_POOL ni =? address);;
      freed ← gets MEM_FREED;
      upd_item mem (set_pool_ptr freed);;
      rt_smem_setname mem blank_name;;
      give_back mem (it_next i)
  end.

(** The used item [mem] with [size] bytes for the user is cut down to [newsize]. *)
Definition shrink_item (mem size newsize : Z) : H unit :=
  sub_used (size - newsize);;
  let ptr2 := mem + SIZEOF_STRUCT_MEM + newsize in
  split_item mem ptr2;;
  free ← gets lfree;
  when (ptr2 <? free) (modify (set_lfree ptr2));;
  plug_holes ptr2.

(** The data of the item at [rmem] moves to a new one. *)
Definition move_item (self : option (list Z)) (rmem size newsize : Z) : H (option Z) :=
  nmem ← rt_smem_alloc self newsize;
  match nmem with
  | None => mret None
  | Some nmem =>
      heap ← gets heap_ptr;
      data ← read_bytes (rmem - heap) (if size <? newsize then size else newsize);
      write_bytes (nmem - heap) data;;
      rt_smem_free (Some rmem);;
      mret (Some nmem)
  end.

Definition rt_smem_realloc (self : option (list Z)) (rmem : option Z) (newsize : Z) : H (option Z) :=
  assert_heap;;
  let newsize := RT_ALIGN newsize RT_ALIGN_SIZE in
  total ← gets mem_size_aligned;
  if total <? newsize then mret None
  else if newsize =? 0 then rt_smem_free rmem;; mret None
  else
    match rmem with
    | None => rt_smem_alloc self newsize
    | Some rmem =>
        rt_assert (Z.land rmem (RT_ALIGN_SIZE - 1) =? 0);;
        heap ← gets heap_ptr;
        e ← gets heap_end;
        rt_assert ((heap <=? rmem) && (rmem <? heap + e));;
        let mem := rmem - SIZEOF_STRUCT_MEM - heap in
        i ← get_item mem;
        let size := u64 (it_next i - mem - SIZEOF_STRUCT_MEM) in
        if size =? newsize then mret (Some rmem)
        else if newsize + SIZEOF_STRUCT_MEM + MIN_SIZE <? size then
          shrink_item mem size newsize;;
          mret (Some rmem)
        else move_item self rmem size newsize
    end.

(** The walk of [memcheck] over one heap: whether it finds all items in order.
    [position] is an [int]. *)
Fixpoint memcheck_loop (fuel : nat) (mem : Z) : H bool :=
  match fuel with
  | O => fun _ => None
  | S fuel =>
      e ← gets heap_end;
      if mem =? e then mret true
      else
        let position := s32 mem in
        total ← gets mem_size_aligned;
        i ← get_item mem;
        address ← gets sm_address;
        if (position <? 0) || (s32 total <? position) || negb (MEM_POOL i =? address) then mret false
        else memcheck_loop fuel (it_next i)
  end.
Definition memcheck : H bool := fuel ← gets smem_fuel; memcheck_loop fuel 0.
