(* ===== verification/MemSpec.v ===== *)
(** * Properties of the heap

    What the headers of Mem.v stand for: a sequence of blocks without gaps.
    The operations of the allocator are shown to do to the sequence what their
    specification on sequences says. *)
From S2P Require Import Prelude Kservice Kernel Mem.

(** ** Blocks *)

(** A block: its length, header included, and whether it is used. *)
Abbreviation block := (Z * bool)%type.

Definition extent (bs : list block) : Z := foldr (fun b n => b.1 + n) 0 bs.

(** The start of the last block of [bs], which begins at [p] behind [prev]. *)
Fixpoint last_start (prev p : Z) (bs : list block) : Z :=
  match bs with [] => prev | b :: bs => last_start p (p + b.1) bs end.

Fixpoint starts (p : Z) (bs : list block) : list Z :=
  match bs with [] => [] | b :: bs => p :: starts (p + b.1) bs end.

(** The pool pointer of an item of the heap at [a]. *)
Definition mark (a : Z) (used : bool) : Z := Z.lor (Z.land a MEM_MASK) (if used then 1 else 0).

(** The headers of the blocks [bs] from [p] on. *)
Fixpoint laid (items : gmap Z smem_item) (a prev p : Z) (bs : list block) : Prop :=
  match bs with
  | [] => True
  | b :: bs => items !! p = Some (SmemItem (mark a b.2) (p + b.1) prev) /\
      laid items a p (p + b.1) bs
  end.

Definition sized (b : block) : Prop := SIZEOF_STRUCT_MEM <= b.1 /\ b.1 mod 4 = 0.

Lemma extent_app l r : extent (l ++ r) = extent l + extent r.
Proof. induction l as [|b l IH]; simpl; [done|]. rewrite IH. lia. Qed.

Lemma extent_nonneg bs : Forall sized bs -> 0 <= extent bs /\ extent bs mod 4 = 0.
Proof.
  induction 1 as [|b bs [Hb Hm] _ [IH1 IH2]]; simpl; [done|]. unfold SIZEOF_STRUCT_MEM in *. dlia.
Qed.

Lemma last_start_app prev p l r :
  last_start prev p (l ++ r) = last_start (last_start prev p l) (p + extent l) r.
Proof.
  revert prev p. induction l as [|b l IH]; intros prev p; simpl; [by rewrite Z.add_0_r|].
  rewrite IH. f_equal. lia.
Qed.

Lemma starts_app p l r : starts p (l ++ r) = starts p l ++ starts (p + extent l) r.
Proof.
  revert p. induction l as [|b l IH]; intros p; simpl; [by rewrite Z.add_0_r|].
  rewrite IH. do 3 f_equal. lia.
Qed.

Lemma starts_range p q bs :
  Forall sized bs -> q ∈ starts p bs -> p <= q /\ q + SIZEOF_STRUCT_MEM <= p + extent bs.
Proof.
  intros Hs. revert p. induction Hs as [|b bs [Hb Hm] Hs IH]; intros p Hq; simpl in *.
  - by apply elem_of_nil in Hq.
  - destruct (extent_nonneg bs Hs). unfold SIZEOF_STRUCT_MEM in *.
    apply elem_of_cons in Hq as [->|Hq]; [lia|]. apply IH in Hq. lia.
Qed.

Lemma laid_app items a prev p l r :
  laid items a prev p (l ++ r) <->
  laid items a prev p l /\ laid items a (last_start prev p l) (p + extent l) r.
Proof.
  revert prev p. induction l as [|b l IH]; intros prev p; simpl; [rewrite Z.add_0_r; tauto|].
  rewrite IH. replace (p + b.1 + extent l) with (p + (b.1 + extent l)) by lia. tauto.
Qed.

Lemma laid_ext items items' a prev p bs :
  laid items a prev p bs -> (forall q, q ∈ starts p bs -> items' !! q = items !! q) ->
  laid items' a prev p bs.
Proof.
  revert prev p. induction bs as [|b bs IH]; intros prev p; simpl; [done|].
  intros [Hb Hl] He. split; [rewrite He; [done|by left]|]. apply IH; [done|].
  intros q Hq. apply He. by right.
Qed.

(** ** The bit that says used *)

Lemma mark_used a u n p : MEM_ISUSED (SmemItem (mark a u) n p) = u.
Proof.
  unfold MEM_ISUSED, mark. simpl pool_ptr. rewrite Z.land_lor_distr_l, <- Z.land_assoc.
  change (Z.land MEM_MASK 1) with 0. rewrite Z.land_0_r. by destruct u.
Qed.

Lemma mark_pool a u n p : Z.land a MEM_MASK = a -> MEM_POOL (SmemItem (mark a u) n p) = a.
Proof.
  intros Ha. unfold MEM_POOL, mark. simpl pool_ptr. rewrite Z.land_lor_distr_l, <- Z.land_assoc, Z.land_diag.
  rewrite Ha. by destruct u; rewrite ?Z.land_0_l, Z.lor_0_r.
Qed.

(** ** The heap as a sequence of blocks *)

Record heap_struct (bs : list block) (m : rt_small_mem) : Prop := HeapStruct {
  hs_type : u8 (Z.land (o_type (sm_parent m)) (Z.lnot RT_Object_Class_Static)) = RT_Object_Class_Memory /\
    Z.land (o_type (sm_parent m)) RT_Object_Class_Static <> 0;
  hs_address : Z.land (sm_address m) MEM_MASK = sm_address m;
  hs_heap : 0 <= heap_ptr m /\ heap_ptr m mod 4 = 0 /\ heap_ptr m + heap_end m < 2 ^ 64;
  hs_end : heap_end m = mem_size_aligned m + SIZEOF_STRUCT_MEM;
  hs_extent : extent bs = heap_end m;
  hs_sized : Forall sized bs;
  hs_laid : laid (sm_items m) (sm_address m) 0 0 bs;
  hs_last : exists prev, sm_items m !! heap_end m =
    Some (SmemItem (mark (sm_address m) true) (heap_end m) prev)
}.

(** Between [m] and [m'] only bytes from [lo] to [hi] have changed, apart from
    the headers and the counters. *)
Record within (lo hi : Z) (m m' : rt_small_mem) : Prop := Within {
  wi_parent : sm_parent m' = sm_parent m;
  wi_total : sm_total m' = sm_total m;
  wi_address : sm_address m' = sm_address m;
  wi_heap : heap_ptr m' = heap_ptr m;
  wi_end : heap_end m' = heap_end m;
  wi_size : mem_size_aligned m' = mem_size_aligned m;
  wi_bytes q : ~ (lo <= q < hi) -> sm_bytes m' !! q = sm_bytes m !! q
}.

#[export] Instance within_refl lo hi : Reflexive (within lo hi).
Proof. by constructor. Qed.
#[export] Instance within_trans lo hi : Transitive (within lo hi).
Proof.
  intros m1 m2 m3 H1 H2. destruct H1, H2. constructor; try congruence.
  intros q Hq. transitivity (sm_bytes m2 !! q); auto.
Qed.

Lemma within_le lo hi lo' hi' m m' :
  (forall q, lo <= q < hi -> lo' <= q < hi') -> within lo hi m m' -> within lo' hi' m m'.
Proof. intros Hl []. constructor; try done. intros q Hq. apply wi_bytes0. intros H. apply Hl in H. lia. Qed.
Ltac within_lia := eapply within_le; [|eassumption]; intros; lia.

Definition counters (m : rt_small_mem) : Z * Z * Z := (lfree m, sm_used m, sm_max m).

Lemma get_item_eq p i m : sm_items m !! p = Some i -> get_item p m = Some (i, m).
Proof. intros Hi. unfold get_item. by rewrite Hi. Qed.

Definition item_st (p : Z) (i : smem_item) (m : rt_small_mem) : rt_small_mem :=
  set_memory (<[p := i]> (sm_items m)) (sm_bytes m) m.

Lemma upd_item_eq p f i m :
  sm_items m !! p = Some i -> upd_item p f m = Some (tt, item_st p (f i) m).
Proof. intros Hi. unfold upd_item. by rewrite bind_unfold, (get_item_eq p i). Qed.

(** Running a sequence of operations. *)
Lemma bindh_item {B} p i (f : smem_item -> H B) m :
  sm_items m !! p = Some i -> (get_item p ≫= f) m = f i m.
Proof. intros Hi. by rewrite bind_unfold, (get_item_eq p i). Qed.

Lemma bindh_upd {B} p i g (f : unit -> H B) m :
  sm_items m !! p = Some i -> (upd_item p g ≫= f) m = f tt (item_st p (g i) m).
Proof. intros Hi. by rewrite bind_unfold, (upd_item_eq p g i). Qed.

Lemma assert_heap_eq bs m : heap_struct bs m -> assert_heap m = Some (tt, m).
Proof.
  intros [[Ht Hs] _ _ _ _ _ _ _]. unfold assert_heap, rt_assert, gets. rewrite !bind_unfold.
  rewrite (proj2 (Z.eqb_eq _ _) Ht). by rewrite (proj2 (Z.eqb_neq _ _) Hs).
Qed.

(** Changing the headers of the blocks [old] and of the one behind them. *)
Lemma struct_replace l old mid r prev' m m' :
  heap_struct (l ++ old ++ r) m -> within 0 (heap_end m) m m' ->
  Forall sized mid -> extent mid = extent old ->
  last_start (last_start 0 0 l) (extent l) mid = prev' ->
  laid (sm_items m') (sm_address m) (last_start 0 0 l) (extent l) mid ->
  (forall q, q ∈ starts 0 l -> sm_items m' !! q = sm_items m !! q) ->
  match r with
  | [] => exists prev, sm_items m' !! heap_end m =
      Some (SmemItem (mark (sm_address m) true) (heap_end m) prev)
  | b :: r' =>
      sm_items m' !! (extent l + extent old) =
        Some (SmemItem (mark (sm_address m) b.2) (extent l + extent old + b.1) prev') /\
      (forall q, q ∈ starts (extent l + extent old + b.1) r' -> sm_items m' !! q = sm_items m !! q) /\
      sm_items m' !! heap_end m = sm_items m !! heap_end m
  end ->
  heap_struct (l ++ mid ++ r) m'.
Proof.
  intros [Ht Had Hhp Hen Hex Hsz Hlaid Hlast] [Ep _ Ea Eh Ee Es _] Hmsz Hext Hprev Hmid Hlf Hnext.
  apply laid_app in Hlaid as [Hl Hlaid]. apply laid_app in Hlaid as [_ Hr].
  apply Forall_app in Hsz as [Hsl Hsz]. apply Forall_app in Hsz as [_ Hsr]. constructor.
  - by rewrite Ep.
  - by rewrite Ea.
  - by rewrite Eh, Ee.
  - by rewrite Ee, Es.
  - rewrite Ee, <- Hex, !extent_app. lia.
  - by repeat (apply Forall_app; split).
  - rewrite Ea. apply laid_app. split; [by eapply laid_ext|]. rewrite Z.add_0_l. apply laid_app.
    split; [done|]. rewrite Hext, Hprev. destruct r as [|b r']; [done|].
    destruct Hnext as (Hb & Hr' & _). split; [done|]. destruct Hr as [_ Hr].
    rewrite Z.add_0_l in Hr. by eapply laid_ext.
  - rewrite Ee, Ea. destruct r as [|b r']; [done|]. by destruct Hnext as (_ & _ & ->).
Qed.

(** Where the blocks around [old] begin. *)
Lemma struct_starts l old r m :
  heap_struct (l ++ old ++ r) m ->
  (forall q, q ∈ starts 0 l -> 0 <= q /\ q + SIZEOF_STRUCT_MEM <= extent l) /\
  (forall q, q ∈ starts (extent l + extent old) r ->
     extent l + extent old <= q /\ q + SIZEOF_STRUCT_MEM <= heap_end m) /\
  0 <= extent l /\ extent l mod 4 = 0 /\ extent l + extent old + extent r = heap_end m /\ 0 <= extent r.
Proof.
  intros Hm. pose proof (hs_sized _ _ Hm) as Hsz. pose proof (hs_extent _ _ Hm) as Hex.
  apply Forall_app in Hsz as [Hsl Hsz]. apply Forall_app in Hsz as [_ Hsr].
  rewrite !extent_app in Hex. destruct (extent_nonneg l Hsl), (extent_nonneg r Hsr).
  split_and!; try lia.
  - intros q Hq. apply (starts_range 0 q l Hsl) in Hq. lia.
  - intros q Hq. apply (starts_range _ q r Hsr) in Hq. lia.
Qed.

(** The headers of all blocks but those of [old], and the one at the end, are
    as before. *)
Definition others (l old r : list block) (m m' : rt_small_mem) : Prop :=
  forall q, q + SIZEOF_STRUCT_MEM <= extent l \/ extent l + extent old <= q ->
    sm_items m' !! q = sm_items m !! q.

Lemma struct_others l old mid r m m' :
  heap_struct (l ++ old ++ r) m -> within 0 (heap_end m) m m' -> others l old r m m' ->
  Forall sized mid -> extent mid = extent old ->
  last_start (last_start 0 0 l) (extent l) mid = last_start (last_start 0 0 l) (extent l) old ->
  laid (sm_items m') (sm_address m) (last_start 0 0 l) (extent l) mid ->
  heap_struct (l ++ mid ++ r) m'.
Proof.
  intros Hm W Ho Hs He Hp Hl. destruct (struct_starts l old r m Hm) as (Hsl & Hsr & _ & _ & Hend & Hr0).
  apply (struct_replace l old mid r _ m m' Hm W Hs He Hp Hl).
  - intros q Hq. apply Ho. left. by apply Hsl.
  - assert (sm_items m' !! heap_end m = sm_items m !! heap_end m) as Hlast.
    { apply Ho. right. lia. }
    pose proof (hs_laid _ _ Hm) as Hlaid. apply laid_app in Hlaid as [_ Hlaid].
    apply laid_app in Hlaid as [_ Hr]. rewrite Z.add_0_l in Hr.
    destruct r as [|b r'].
    + destruct (hs_last _ _ Hm) as [prev Hi]. exists prev. by rewrite Hlast.
    + destruct Hr as [Hb _]. split_and!; try done.
      * rewrite Ho; [done|]. right. destruct (Hsr (extent l + extent old)); [by left|]. lia.
      * intros q Hq. apply Ho. right. destruct (Hsr q); [by right|]. lia.
Qed.

Lemma put_bytes_far q data lo bytes :
  ~ (lo <= q < lo + zlen data) -> put_bytes lo data bytes !! q = bytes !! q.
Proof.
  revert lo bytes. induction data as [|x d IH]; intros lo b Hn; simpl; [done|].
  assert (zlen (x :: d) = zlen d + 1) as E by (unfold zlen; simpl length; lia).
  pose proof (zlen_nonneg d). rewrite IH by lia. by rewrite lookup_insert_ne by lia.
Qed.

Section at_block.
Context (l : list block) (len : Z) (u : bool) (r : list block) (m : rt_small_mem).
Context (Hm : heap_struct (l ++ (len, u) :: r) m).

Let p := extent l.
Let a := sm_address m.

Lemma block_laid :
  laid (sm_items m) a 0 0 l /\
  sm_items m !! p = Some (SmemItem (mark a u) (p + len) (last_start 0 0 l)) /\
  laid (sm_items m) a p (p + len) r.
Proof using Hm. pose proof (hs_laid _ _ Hm) as Hl. by apply laid_app in Hl. Qed.

Lemma block_sized : Forall sized l /\ (SIZEOF_STRUCT_MEM <= len /\ len mod 4 = 0) /\ Forall sized r.
Proof using Hm.
  pose proof (hs_sized _ _ Hm) as Hs. apply Forall_app in Hs as [? Hs].
  apply Forall_cons in Hs as [? ?]. done.
Qed.

Lemma block_place : 0 <= p /\ p mod 4 = 0 /\ 0 <= extent r /\ p + len + extent r = heap_end m.
Proof using Hm.
  destruct block_sized as (Hl & _ & Hr). destruct (extent_nonneg l Hl), (extent_nonneg r Hr).
  pose proof (hs_extent _ _ Hm) as He. rewrite extent_app in He. simpl in He. fold p in He. unfold p. lia.
Qed.

(** The item behind the block. *)
Lemma block_next :
  exists i, sm_items m !! (p + len) = Some i /\
    match r with
    | [] => p + len = heap_end m /\ MEM_ISUSED i = true /\ pool_ptr i = mark a true /\
        it_next i = heap_end m
    | b :: _ => p + len < heap_end m /\ i = SmemItem (mark a b.2) (p + len + b.1) p
    end.
Proof using Hm.
  destruct block_laid as (_ & _ & Hr). destruct block_place as (_ & _ & He & Hs).
  destruct block_sized as (_ & _ & Hsz).
  destruct r as [|b r'].
  - destruct (hs_last _ _ Hm) as [prev Hi]. simpl in Hs. rewrite Z.add_0_r in Hs. rewrite <- Hs in Hi.
    eexists. split; [exact Hi|]. split; [done|]. split; [apply mark_used|]. by rewrite Hs in *.
  - destruct Hr as [Hb _]. apply Forall_cons in Hsz as [[Hb1 _] Hsz].
    destruct (extent_nonneg r' Hsz). unfold SIZEOF_STRUCT_MEM in *.
    eexists. split; [exact Hb|]. split; [simpl in Hs; lia|done].
Qed.


(** The same, changing only what is inside the block. *)
Lemma inside_within lo hi m' : p <= lo -> hi <= p + len -> within lo hi m m' -> within 0 (heap_end m) m m'.
Proof using Hm. intros. destruct block_place as (? & _ & ? & ?). within_lia. Qed.

(** The block is marked. *)
Lemma mark_spec u' :
  let m' := item_st p (SmemItem (mark a u') (p + len) (last_start 0 0 l)) m in
  upd_item p (set_pool_ptr (mark a u')) m = Some (tt, m') /\ heap_struct (l ++ (len, u') :: r) m'.
Proof using Hm.
  intros m'. destruct block_laid as (_ & Hp & _). destruct block_sized as (_ & Hlen & _).
  split; [by rewrite (upd_item_eq p _ _ m Hp)|]. change (heap_struct (l ++ [(len, u')] ++ r) m').
  apply (struct_others l [(len, u)] [(len, u')] r m m' Hm); [done| | |done|done|].
  - intros q Hq. simpl in Hq. unfold SIZEOF_STRUCT_MEM in *. apply lookup_insert_ne. fold p in Hq. lia.
  - by apply Forall_singleton.
  - split; [apply lookup_insert_eq|done].
Qed.

(** Bytes are written inside the block, behind the fields of its header. *)
Lemma write_spec lo data :
  p + sizeof_fields <= lo -> lo + zlen data <= p + len ->
  exists m', write_bytes lo data m = Some (tt, m') /\ heap_struct (l ++ (len, u) :: r) m' /\
    within lo (lo + zlen data) m m' /\ counters m' = counters m /\
    sm_bytes m' = put_bytes lo data (sm_bytes m).
Proof using Hm.
  intros Hlo Hhi. destruct block_laid as (_ & Hp & _). destruct block_sized as (_ & Hlen & _).
  pose proof (zlen_nonneg data). unfold sizeof_fields in *.
  assert (forall q, q + 40 <= p \/ q = p \/ p + len <= q ->
    filter (fun x => far lo (zlen data) x.1) (sm_items m) !! q = sm_items m !! q) as Hfar.
  { intros q Hq. destruct (sm_items m !! q) as [i|] eqn:Hi.
    - apply map_lookup_filter_Some. split; [done|]. simpl. unfold far, sizeof_fields. lia.
    - apply map_lookup_filter_None. by left. }
  eexists. split; [done|]. match goal with |- heap_struct _ ?x /\ _ => set (m' := x) end.
  assert (within lo (lo + zlen data) m m') as W.
  { constructor; try done. intros q Hq. by apply put_bytes_far. }
  split; [|done]. change (heap_struct (l ++ [(len, u)] ++ r) m').
  apply (struct_others l [(len, u)] [(len, u)] r m m' Hm); [| | |done|done|].
  - eapply inside_within; [| |done]; lia.
  - intros q Hq. simpl in Hq. fold p in Hq. unfold SIZEOF_STRUCT_MEM in *. apply Hfar. lia.
  - by apply Forall_singleton.
  - split; [|done]. simpl sm_items. rewrite Hfar by (fold p; lia). done.
Qed.
End at_block.

Lemma smem_name_length n name : zlen (smem_name n name) = Z.of_nat n.
Proof.
  unfold zlen. f_equal. revert name. induction n as [|n IH]; intros name; simpl; [done|].
  destruct name as [|c name]; [simpl; by rewrite repeat_length|].
  destruct (c =? 0); simpl; [by rewrite repeat_length|]. by rewrite IH.
Qed.

Lemma setname_spec l len u r m name :
  heap_struct (l ++ (len, u) :: r) m ->
  exists m', rt_smem_setname (extent l) name m = Some (tt, m') /\
    heap_struct (l ++ (len, u) :: r) m' /\
    within (extent l) (extent l + SIZEOF_STRUCT_MEM) m m' /\ counters m' = counters m.
Proof.
  intros Hm. destruct (block_sized l len u r m Hm) as (_ & [Hlen _] & _).
  pose proof (smem_name_length 8 name) as Hn. unfold SIZEOF_STRUCT_MEM in *.
  destruct (write_spec l len u r m Hm (extent l + sizeof_fields) (smem_name 8 name))
    as (m' & E & Hm' & W & C & _); [lia|rewrite Hn; unfold sizeof_fields; lia|].
  exists m'. split; [done|]. split; [done|]. split; [|done].
  rewrite Hn in W. unfold sizeof_fields in *. within_lia.
Qed.

(** What [new_item] and [rt_smem_setname] of a new header do to the others. *)
Definition placed (p : Z) (i : smem_item) (name : list Z) (m : rt_small_mem) : rt_small_mem :=
  default m (snd <$> (new_item p i;; rt_smem_setname p name) m).

Lemma place_bind {A} p i name (f : H A) m :
  (new_item p i;; rt_smem_setname p name;; f) m = f (placed p i name m).
Proof. done. Qed.

Lemma placed_items p i name m q :
  q = p \/ q + SIZEOF_STRUCT_MEM <= p \/ p + SIZEOF_STRUCT_MEM <= q ->
  sm_items (placed p i name m) !! q = if decide (q = p) then Some i else sm_items m !! q.
Proof.
  intros Hq. pose proof (smem_name_length 8 name) as Hn. unfold SIZEOF_STRUCT_MEM in *.
  change (sm_items (placed p i name m)) with
    (filter (fun x : Z * smem_item => far (p + sizeof_fields) (zlen (smem_name 8 name)) x.1)
      (<[p := i]> (filter (fun x => far p sizeof_fields x.1) (sm_items m)))).
  assert (forall x, sm_items m !! q = Some x -> q <> p ->
    (filter (fun x => far p sizeof_fields x.1) (sm_items m) : gmap Z smem_item) !! q = Some x) as H1.
  { intros x Hx Hne. apply map_lookup_filter_Some. split; [done|]. simpl. unfold far, sizeof_fields. lia. }
  case_decide as He.
  - subst q. apply map_lookup_filter_Some. split; [apply lookup_insert_eq|].
    cbn [fst]. unfold far, sizeof_fields. lia.
  - destruct (sm_items m !! q) as [x|] eqn:Hx.
    + apply map_lookup_filter_Some. split; [|cbn [fst]; unfold far, sizeof_fields; lia].
      rewrite lookup_insert_ne by done. by apply H1.
    + apply map_lookup_filter_None. left. rewrite lookup_insert_ne by done.
      apply map_lookup_filter_None. by left.
Qed.

Lemma placed_within p i name m : within p (p + SIZEOF_STRUCT_MEM) m (placed p i name m).
Proof.
  pose proof (smem_name_length 8 name) as Hn. constructor; try done. intros q Hq.
  change (sm_bytes (placed p i name m)) with
    (put_bytes (p + sizeof_fields) (smem_name 8 name)
      (filter (fun x => ~ (p <= x.1 < p + sizeof_fields)) (sm_bytes m))).
  unfold SIZEOF_STRUCT_MEM, sizeof_fields in *. rewrite put_bytes_far by lia.
  destruct (sm_bytes m !! q) as [x|] eqn:Hx.
  - apply map_lookup_filter_Some. split; [done|]. simpl. lia.
  - apply map_lookup_filter_None. by left.
Qed.

(** The end of a block, from [ptr2] on, is cut off as a free block. *)
Section split.
Context (l : list block) (len : Z) (u : bool) (r : list block) (m : rt_small_mem) (s : Z).
Context (Hm : heap_struct (l ++ (len, u) :: r) m).
Context (Hs : 0 <= s) (Hs4 : s mod 4 = 0) (Hlen : 2 * SIZEOF_STRUCT_MEM + s <= len).

Let p := extent l.
Let a := sm_address m.
Let ptr2 := p + SIZEOF_STRUCT_MEM + s.

(** The heap with the new header, with the old one set right, and with the one behind. *)
Let m2 := placed ptr2 (SmemItem (mark a false) (p + len) p) blank_name m.
Let m3 := item_st p (SmemItem (mark a u) ptr2 (last_start 0 0 l)) m2.
Let m4 := if p + len =? heap_end m then m3
  else match sm_items m !! (p + len) with
       | Some i => item_st (p + len) (set_it_prev ptr2 i) m3
       | None => m3
       end.

Lemma split_items2 q :
  q = ptr2 \/ q + 40 <= ptr2 \/ ptr2 + 40 <= q ->
  sm_items m2 !! q = if decide (q = ptr2) then Some (SmemItem (mark a false) (p + len) p) else sm_items m !! q.
Proof using. apply placed_items. Qed.

Lemma split_within : within ptr2 (ptr2 + SIZEOF_STRUCT_MEM) m m4.
Proof using.
  transitivity m2; [apply placed_within|]. unfold m4. destruct (p + len =? heap_end m); [done|].
  by destruct (sm_items m !! (p + len)).
Qed.

Lemma split_items q :
  q <> p -> (q <> p + len \/ q = heap_end m) -> q = ptr2 \/ q + 40 <= ptr2 \/ ptr2 + 40 <= q ->
  sm_items m4 !! q = if decide (q = ptr2) then Some (SmemItem (mark a false) (p + len) p) else sm_items m !! q.
Proof using.
  intros H1 H2 H3. rewrite <- (split_items2 q H3).
  assert (sm_items m3 !! q = sm_items m2 !! q) as E.
  { unfold m3, item_st; simpl. by rewrite lookup_insert_ne by done. }
  unfold m4. destruct (Z.eqb_spec (p + len) (heap_end m)) as [He|He]; [done|].
  destruct (sm_items m !! (p + len)); [|done]. unfold item_st; simpl. rewrite lookup_insert_ne; [done|]. lia.
Qed.

Lemma split_run : split_item p ptr2 m = Some (tt, m4).
Proof using Hm Hs Hlen.
  destruct (block_laid l len u r m Hm) as (_ & Hp & _). destruct (block_next l len u r m Hm) as (i3 & Hi3 & _).
  fold p a in Hp, Hi3. assert (ptr2 = p + 40 + s) as Ep by done. unfold SIZEOF_STRUCT_MEM in Hlen.
  unfold split_item. rewrite (bindh_item p _ _ m Hp), bind_gets.
  change (MEM_FREED m) with (mark a false). cbn [it_next]. rewrite place_bind. fold m2.
  rewrite (bindh_upd p (SmemItem (mark a u) (p + len) (last_start 0 0 l))).
  2: { rewrite split_items2 by lia. by rewrite decide_False by lia. }
  change (item_st p _ m2) with m3.
  rewrite (bindh_item ptr2 (SmemItem (mark a false) (p + len) p)), bind_gets.
  2: { unfold m3, item_st; simpl. rewrite lookup_insert_ne by lia. rewrite split_items2 by lia.
       by rewrite decide_True. }
  cbn [it_next].
  change (mem_size_aligned m3 + SIZEOF_STRUCT_MEM) with (mem_size_aligned m + SIZEOF_STRUCT_MEM).
  rewrite <- (hs_end _ _ Hm). unfold m4. rewrite Hi3. destruct (Z.eqb_spec (p + len) (heap_end m)); [done|].
  cbn [negb when]. rewrite (upd_item_eq _ _ i3); [done|]. unfold m3, item_st; simpl.
  rewrite lookup_insert_ne by lia. rewrite split_items2 by lia. by rewrite decide_False by lia.
Qed.

Lemma split_struct :
  heap_struct (l ++ [(SIZEOF_STRUCT_MEM + s, u); (len - SIZEOF_STRUCT_MEM - s, false)] ++ r) m4.
Proof using Hm Hs Hs4 Hlen.
  destruct (block_next l len u r m Hm) as (i3 & Hi3 & Hnext). fold p a in Hi3, Hnext.
  destruct (struct_starts l [(len, u)] r m Hm) as (Hsl & Hsr & Hl0 & _ & Hend & Hr0). simpl in Hsr, Hend.
  destruct (block_sized l len u r m Hm) as (_ & [_ Hlen4] & Hsz). fold p in Hl0, Hend, Hsl.
  assert (ptr2 = p + 40 + s) as Ep by done. unfold SIZEOF_STRUCT_MEM in *.
  apply (struct_replace l [(len, u)] _ r ptr2 m m4 Hm); fold p; fold a.
  - pose proof split_within as W. unfold SIZEOF_STRUCT_MEM in W. within_lia.
  - repeat constructor; simpl; unfold SIZEOF_STRUCT_MEM; try lia; dlia.
  - simpl. lia.
  - simpl. lia.
  - simpl. replace (p + (40 + s)) with ptr2 by lia. split; [|split; [|done]].
    + unfold m4. destruct (p + len =? heap_end m); [apply lookup_insert_eq|].
      rewrite Hi3. unfold item_st; simpl. rewrite lookup_insert_ne by lia. apply lookup_insert_eq.
    + rewrite split_items by lia. rewrite decide_True by done. do 2 f_equal. lia.
  - intros q Hq. apply Hsl in Hq. rewrite split_items by lia. by rewrite decide_False by lia.
  - cbn [extent foldr fst]. rewrite Z.add_0_r. destruct r as [|b r'].
    + destruct (hs_last _ _ Hm) as [prev Hi]. exists prev. destruct Hnext as (He & _).
      rewrite split_items by lia. by rewrite decide_False by lia.
    + destruct Hnext as (Hlt & ->). apply Forall_cons in Hsz as [[Hb _] Hsz]. split; [|split].
      * unfold m4. rewrite (proj2 (Z.eqb_neq _ _)) by lia. rewrite Hi3. apply lookup_insert_eq.
      * intros q Hq. apply (starts_range _ q r' Hsz) in Hq. unfold SIZEOF_STRUCT_MEM in Hb.
        rewrite split_items by lia. by rewrite decide_False by lia.
      * rewrite split_items by lia. by rewrite decide_False by lia.
Qed.

Lemma split_spec :
  exists m', split_item p ptr2 m = Some (tt, m') /\
    heap_struct (l ++ [(SIZEOF_STRUCT_MEM + s, u); (len - SIZEOF_STRUCT_MEM - s, false)] ++ r) m' /\
    within ptr2 (ptr2 + SIZEOF_STRUCT_MEM) m m' /\ counters m' = counters m.
Proof using Hm Hs Hs4 Hlen.
  exists m4. split; [exact split_run|]. split; [exact split_struct|]. split; [exact split_within|].
  unfold m4. destruct (p + len =? heap_end m); [done|]. by destruct (sm_items m !! (p + len)).
Qed.
End split.

(** Two neighbours become one block. *)
Lemma merge_spec l n1 u1 n2 u2 r m :
  heap_struct (l ++ (n1, u1) :: (n2, u2) :: r) m ->
  let p := extent l in
  exists m', merge_items p (p + n1) m = Some (tt, m') /\
    heap_struct (l ++ (n1 + n2, u1) :: r) m' /\ within 0 0 m m' /\ counters m' = counters m.
Proof.
  intros Hm p. destruct (block_laid l n1 u1 _ m Hm) as (_ & Hp & Hq & Hr). fold p in Hp, Hq, Hr.
  cbn [fst snd] in Hq, Hr. set (a := sm_address m) in *. set (q := p + n1) in *.
  destruct (struct_starts l [(n1, u1); (n2, u2)] r m Hm) as (Hsl & Hsr & Hl0 & _ & Hend & Hr0).
  cbn [extent foldr fst] in Hsr, Hend. replace (extent l + (n1 + (n2 + 0))) with (q + n2) in * by lia.
  destruct (block_sized l n1 u1 _ m Hm) as (_ & [Hn1 Hm1] & [[Hn2 Hm2] Hrs]%Forall_cons).
  assert (heap_struct ((l ++ [(n1, u1)]) ++ (n2, u2) :: r) m) as Hm' by by rewrite <- app_assoc.
  destruct (block_next _ n2 u2 r m Hm') as (i3 & Hi3 & Hnext).
  assert (extent (l ++ [(n1, u1)]) = q) as Eq by (rewrite extent_app; simpl; fold p; lia).
  rewrite Eq in Hi3, Hnext. unfold SIZEOF_STRUCT_MEM in *. cbn [fst] in *.
  set (m1 := item_st q (SmemItem 0 (q + n2) p) m).
  set (m2 := item_st p (SmemItem (mark a u1) (q + n2) (last_start 0 0 l)) m1).
  set (m3 := item_st (q + n2) (set_it_prev p i3) m2).
  assert (forall x, x <> p -> x <> q -> x <> q + n2 -> sm_items m3 !! x = sm_items m !! x) as Ho.
  { intros x H1 H2 H3. unfold m3, m2, m1, item_st; simpl. by rewrite !lookup_insert_ne by done. }
  assert (sm_items m2 !! (q + n2) = Some i3) as Hi3'.
  { unfold m2, m1, item_st; simpl. by rewrite !lookup_insert_ne by lia. }
  exists m3. split; [|split; [|by split]].
  - unfold merge_items. rewrite (bindh_upd q _ _ _ m Hq). change (item_st q _ m) with m1.
    rewrite (bindh_item q (SmemItem 0 (q + n2) p)) by apply lookup_insert_eq. cbn [it_next].
    rewrite (bindh_upd p (SmemItem (mark a u1) q (last_start 0 0 l))).
    2: { unfold m1, item_st; simpl. by rewrite lookup_insert_ne by lia. }
    change (item_st p _ m1) with m2. by rewrite (upd_item_eq _ _ i3).
  - apply (struct_replace l [(n1, u1); (n2, u2)] [(n1 + n2, u1)] r p m m3 Hm); fold p; fold a.
    + by constructor.
    + repeat constructor; simpl; unfold SIZEOF_STRUCT_MEM; try lia; dlia.
    + simpl. lia.
    + done.
    + split; [|done]. unfold m3, m2, item_st; simpl. rewrite lookup_insert_ne, lookup_insert_eq by lia.
      do 2 f_equal. lia.
    + intros x Hx. apply Hsl in Hx. fold p in Hx. apply Ho; lia.
    + cbn [extent foldr fst]. replace (p + (n1 + (n2 + 0))) with (q + n2) by lia. destruct r as [|b r'].
      * destruct Hnext as (He & _ & Hpool & Hnx). rewrite <- He. eexists. unfold m3, item_st; simpl.
        rewrite lookup_insert_eq. destruct i3; simpl in *. subst. rewrite He. done.
      * destruct Hnext as (Hlt & ->). split; [|split].
        -- apply lookup_insert_eq.
        -- apply Forall_cons in Hrs as [[Hb _] Hsz]. intros x Hx.
           apply (starts_range _ x r' Hsz) in Hx. unfold SIZEOF_STRUCT_MEM in Hb. apply Ho; lia.
        -- apply Ho; lia.
Qed.
