(* ===== verification/MemOps.v ===== *)
(** * Correctness of the heap operations

    The invariant of the heap, [heap_ok], adds to the blocks of MemSpec.v that
    free blocks are never neighbours, that [lfree] is the first of them and
    that the counter of used bytes is right. [rt_smem_alloc], [rt_smem_free]
    and [rt_smem_realloc] implement first-fit allocation, coalescing free and
    reallocation on the blocks. *)
From S2P Require Import Prelude Kservice Kernel Mem MemSpec.

(** ** Free and used blocks *)

(** The start of the first free block, or the end. *)
Fixpoint first_free (p : Z) (bs : list block) : Z :=
  match bs with [] => p | b :: bs => if b.2 : bool then first_free (p + b.1) bs else p end.

Definition used_size (bs : list block) : Z := foldr (fun b n => if b.2 : bool then b.1 + n else n) 0 bs.

(** No two free blocks are neighbours; [u] is whether the block before is used. *)
Fixpoint merged (u : bool) (bs : list block) : Prop :=
  match bs with [] => True | b :: bs => u || b.2 = true /\ merged b.2 bs end.

Definition last_used (u : bool) (bs : list block) : bool := foldl (fun _ b => b.2) u bs.

(** A used block has room behind its header. *)
Definition roomy (b : block) : Prop := b.2 = true -> SIZEOF_STRUCT_MEM < b.1.

Record heap_ok (bs : list block) (m : rt_small_mem) : Prop := HeapOk {
  ho_struct : heap_struct bs m;
  ho_merged : merged true bs;
  ho_room : Forall roomy bs;
  ho_lfree : lfree m = first_free 0 bs;
  ho_used : sm_used m = used_size bs;
  ho_max : sm_used m <= sm_max m
}.

Lemma first_free_app p l r :
  first_free p (l ++ r) = if forallb snd l then first_free (p + extent l) r else first_free p l.
Proof.
  revert p. induction l as [|[n u] l IH]; intros p; simpl; [by rewrite Z.add_0_r|].
  destruct u; simpl; [|done]. rewrite IH. by rewrite Z.add_assoc.
Qed.

Lemma first_free_le p bs : Forall sized bs -> p <= first_free p bs <= p + extent bs.
Proof.
  intros Hs. revert p. induction Hs as [|[n u] bs [Hn _] Hs IH]; intros p; simpl; [lia|].
  destruct (extent_nonneg bs Hs). unfold SIZEOF_STRUCT_MEM in *. simpl in Hn.
  destruct u; [specialize (IH (p + n))|]; lia.
Qed.

Lemma first_free_lt p bs : Forall sized bs -> forallb snd bs = false -> first_free p bs < p + extent bs.
Proof.
  intros Hs. revert p. induction Hs as [|[n u] bs [Hn _] Hs IH]; intros p; simpl; [done|].
  destruct (extent_nonneg bs Hs). unfold SIZEOF_STRUCT_MEM in *. simpl in Hn.
  destruct u; simpl; [|lia]. intros Hf. specialize (IH (p + n) Hf). lia.
Qed.

Lemma used_size_app l r : used_size (l ++ r) = used_size l + used_size r.
Proof. induction l as [|[n u] l IH]; simpl; [done|]. destruct u; lia. Qed.

Lemma used_size_bound bs : Forall sized bs -> 0 <= used_size bs <= extent bs.
Proof.
  induction 1 as [|[n u] bs [Hn _] Hs IH]; simpl; [lia|]. unfold SIZEOF_STRUCT_MEM in Hn. simpl in Hn.
  destruct u; lia.
Qed.

Lemma merged_app u l r : merged u (l ++ r) <-> merged u l /\ merged (last_used u l) r.
Proof. revert u. induction l as [|b l IH]; intros u; simpl; [tauto|]. rewrite IH. tauto. Qed.

Lemma merged_weaken u bs : merged u bs -> merged true bs.
Proof. destruct bs as [|b bs]; simpl; [done|]. by intros [_ ?]. Qed.

Lemma last_used_app u l r : last_used u (l ++ r) = last_used (last_used u l) r.
Proof. unfold last_used. by rewrite foldl_app. Qed.

(** The heap changes from one sequence of blocks to another. *)
Lemma heap_ok_of bs m free used max m' :
  heap_struct bs m -> merged true bs -> Forall roomy bs -> counters m = (free, used, max) ->
  free = first_free 0 bs -> used = used_size bs -> used <= max -> m = m' -> heap_ok bs m'.
Proof. intros Hm Hg Hr [= <- <- <-] Hf Hu Hx <-. by constructor. Qed.

(** ** Taking a free block *)

(** The counter of used bytes grows, and the largest value with it. *)
Lemma add_used_spec bs m n :
  heap_struct bs m -> 0 <= sm_used m + n < 2 ^ 64 ->
  exists m', add_used n m = Some (tt, m') /\ heap_struct bs m' /\ within 0 0 m m' /\
    counters m' = (lfree m, sm_used m + n, sm_max m `max` (sm_used m + n)) /\
    sm_items m' = sm_items m.
Proof.
  intros Hm Hb. eexists. split; [done|]. rewrite u64_small by lia.
  split_and!; try done.
  - destruct Hm. by constructor.
  - unfold counters. simpl. do 2 f_equal. destruct (Z.ltb_spec (sm_max m) (sm_used m + n)); lia.
Qed.

Lemma sub_used_spec bs m n :
  heap_struct bs m -> 0 <= sm_used m - n < 2 ^ 64 ->
  exists m', sub_used n m = Some (tt, m') /\ heap_struct bs m' /\ within 0 0 m m' /\
    counters m' = (lfree m, sm_used m - n, sm_max m).
Proof.
  intros Hm Hb. eexists. split; [done|]. rewrite u64_small by lia.
  split_and!; try done. destruct Hm. by constructor.
Qed.

Lemma set_lfree_spec bs m x :
  heap_struct bs m ->
  heap_struct bs (set_lfree x m) /\ within 0 0 m (set_lfree x m) /\
  counters (set_lfree x m) = (x, sm_used m, sm_max m).
Proof. intros Hm. split_and!; try done. destruct Hm. by constructor. Qed.

(** The loop moves [lfree] from the start of a block to the first free one. *)
Lemma lfree_loop_spec l r m fuel :
  heap_struct (l ++ r) m -> lfree m = extent l -> (length r < fuel)%nat ->
  exists m', lfree_loop fuel m = Some (tt, m') /\ heap_struct (l ++ r) m' /\ within 0 0 m m' /\
    counters m' = (first_free (extent l) r, sm_used m, sm_max m).
Proof.
  revert l m fuel. induction r as [|[len u] r IH]; intros l m fuel Hm Hf Hlen;
    (destruct fuel as [|fuel]; [simpl in Hlen; lia|]); cbn [lfree_loop];
    rewrite !bind_gets, Hf.
  - rewrite app_nil_r in *. destruct (hs_last _ _ Hm) as [prev Hi].
    rewrite <- (hs_extent _ _ Hm) in *. rewrite (bindh_item _ _ _ _ Hi), mark_used, Z.eqb_refl.
    exists m. unfold counters. by rewrite Hf.
  - destruct (block_laid l len u r m Hm) as (_ & Hi & _). rewrite (bindh_item _ _ _ _ Hi), mark_used.
    destruct (block_place l len u r m Hm) as (_ & _ & Hr & He).
    destruct (block_sized l len u r m Hm) as (_ & [Hn _] & _). unfold SIZEOF_STRUCT_MEM in Hn.
    destruct (Z.eqb_spec (extent l) (heap_end m)); [lia|]. destruct u; simpl.
    + rewrite bind_modify. cbn [it_next].
      destruct (set_lfree_spec _ m (extent l + len) Hm) as (Hm1 & W & C).
      assert (extent (l ++ [(len, true)]) = extent l + len) as Ee by (rewrite extent_app; simpl; lia).
      destruct (IH (l ++ [(len, true)]) (set_lfree (extent l + len) m) fuel)
        as (m' & E & Hm' & W' & C'); [by rewrite <- app_assoc| |simpl in Hlen; lia|].
      { by rewrite Ee. }
      rewrite <- app_assoc in Hm'. rewrite Ee in C'. exists m'. split; [exact E|]. split; [done|].
      split; [by etransitivity|done].
    + exists m. unfold counters. by rewrite Hf.
Qed.

(** The loops never run out of fuel. *)
Lemma smem_fuel_enough bs m : heap_struct bs m -> (length bs + 1 < smem_fuel m)%nat.
Proof.
  intros Hm. pose proof (hs_end _ _ Hm) as He. pose proof (hs_extent _ _ Hm) as Hx.
  pose proof (hs_sized _ _ Hm) as Hs. unfold smem_fuel, SIZEOF_STRUCT_MEM in *.
  assert (40 * Z.of_nat (length bs) <= extent bs).
  { clear -Hs. induction Hs as [|b bs [Hb _] _ IH]; cbn [length extent foldr]; [lia|].
    unfold SIZEOF_STRUCT_MEM in Hb. unfold extent in IH. lia. }
  dlia.
Qed.

(** The block with room [size] for the user that is made of a free block of length [len]. *)
Definition taken (len size : Z) : list block :=
  if size + SIZEOF_STRUCT_MEM + MIN_SIZE_ALIGNED <=? len - SIZEOF_STRUCT_MEM
  then [(SIZEOF_STRUCT_MEM + size, true); (len - SIZEOF_STRUCT_MEM - size, false)]
  else [(len, true)].

(** The free block [(len, false)] behind [l] is taken. *)
Section take.
Context (l : list block) (len : Z) (r : list block) (m : rt_small_mem) (size : Z).
Context (Hm : heap_ok (l ++ (len, false) :: r) m).
Context (Hsize : MIN_SIZE_ALIGNED <= size /\ size mod 4 = 0 /\ SIZEOF_STRUCT_MEM + size <= len).

Let p := extent l.
Let bs' := l ++ taken len size ++ r.

Lemma taken_facts :
  extent (taken len size) = len /\ len < 2 ^ 64 /\ 0 <= p /\ p + len <= heap_end m /\
  0 <= sm_used m /\ sm_used m + len < 2 ^ 64 /\
  used_size bs' = sm_used m + (if size + SIZEOF_STRUCT_MEM + MIN_SIZE_ALIGNED <=? len - SIZEOF_STRUCT_MEM
    then SIZEOF_STRUCT_MEM + size else len).
Proof using Hm Hsize.
  destruct (block_place l len false r m (ho_struct _ _ Hm)) as (H1 & _ & H2 & H3).
  destruct (hs_heap _ _ (ho_struct _ _ Hm)) as (? & _ & ?).
  destruct (block_sized l len false r m (ho_struct _ _ Hm)) as (Hl & [Hn _] & Hr).
  pose proof (used_size_bound l Hl). pose proof (used_size_bound r Hr).
  pose proof (ho_used _ _ Hm) as Hu. unfold bs', p, taken, SIZEOF_STRUCT_MEM in *.
  rewrite !used_size_app in *. cbn [used_size foldr snd fst] in Hu. fold (used_size r) in Hu.
  destruct (_ <=? _); simpl; fold (used_size r); lia.
Qed.

Lemma taken_merged : merged true bs'.
Proof using Hm.
  pose proof (ho_merged _ _ Hm) as Hg. unfold bs'. apply merged_app in Hg as [Hl [Hn Hr]].
  rewrite !merged_app. split; [done|]. simpl snd in *.
  unfold taken. destruct (_ <=? _); cbn [merged last_used foldl snd]; rewrite ?orb_true_r; [done|].
  split; [done|]. by eapply merged_weaken.
Qed.

Lemma taken_roomy : Forall roomy bs'.
Proof using Hm Hsize.
  pose proof (ho_room _ _ Hm) as Hr. unfold bs'. apply Forall_app in Hr as [Hl Hr].
  apply Forall_cons in Hr as [_ Hr]. change MIN_SIZE_ALIGNED with 24 in *. unfold SIZEOF_STRUCT_MEM in *.
  repeat (apply Forall_app; split); [done| |done]. unfold taken, roomy, SIZEOF_STRUCT_MEM.
  destruct (_ <=? _); repeat constructor; simpl; lia || done.
Qed.

(** [lfree] is right again once its loop has run, if it was the taken block. *)
Lemma taken_first_free :
  (lfree m = p -> first_free p (taken len size ++ r) = first_free 0 bs') /\
  (lfree m <> p -> first_free 0 bs' = lfree m).
Proof using Hm.
  rewrite (ho_lfree _ _ Hm). unfold bs'. rewrite !first_free_app, Z.add_0_l. fold p.
  destruct (block_sized l len false r m (ho_struct _ _ Hm)) as (Hl & _ & _).
  pose proof (first_free_lt 0 l Hl) as Hlt. fold p in Hlt.
  destruct (forallb snd l); simpl; [by split|]. specialize (Hlt eq_refl). split; [lia|done].
Qed.

(** The block is cut if it is large enough, and its bytes are counted. *)
Lemma take_split_spec :
  exists m1, (if size + SIZEOF_STRUCT_MEM + MIN_SIZE_ALIGNED <=? u64 (p + len - (p + SIZEOF_STRUCT_MEM))
     then split_item p (p + SIZEOF_STRUCT_MEM + size);; add_used (size + SIZEOF_STRUCT_MEM)
     else add_used (p + len - p)) m = Some (tt, m1) /\
    (exists n bs1, taken len size = (n, true) :: bs1 /\ heap_struct (l ++ (n, false) :: bs1 ++ r) m1) /\
    within p (p + len) m m1 /\
    counters m1 = (lfree m, used_size bs', sm_max m `max` used_size bs').
Proof using Hm Hsize.
  destruct taken_facts as (_ & H64 & H0 & He & Hu0 & Hu & ->). pose proof (ho_struct _ _ Hm) as Hs.
  replace (p + len - (p + SIZEOF_STRUCT_MEM)) with (len - SIZEOF_STRUCT_MEM) by lia.
  destruct (block_sized l len false r m Hs) as (_ & [Hn _] & _).
  unfold taken, MIN_SIZE_ALIGNED, MIN_SIZE, RT_ALIGN_SIZE in *. change (RT_ALIGN 24 4) with 24 in *.
  unfold SIZEOF_STRUCT_MEM in *. rewrite u64_small by lia. destruct (Z.leb_spec (size + 40 + 24) (len - 40)).
  - destruct (split_spec l len false r m size Hs) as (m1 & E1 & Hm1 & W1 & C1);
      unfold SIZEOF_STRUCT_MEM in *; [lia|lia|lia|]. fold p in E1, W1.
    rewrite (bind_ok _ _ _ _ _ E1). injection C1 as C1 C2 C3.
    destruct (add_used_spec _ m1 (size + 40) Hm1) as (m2 & E2 & Hm2 & W2 & C & _); [lia|].
    exists m2. split; [exact E2|]. split; [by eexists _, _|]. split.
    + transitivity m1; within_lia.
    + rewrite C, C1, C2, C3. f_equal; [f_equal|]; lia.
  - replace (p + len - p) with len by lia.
    destruct (add_used_spec _ m len Hs) as (m2 & E2 & Hm2 & W2 & C & _); [lia|].
    exists m2. split; [exact E2|]. split; [by eexists _, _|]. split; [|by rewrite C].
    within_lia.
Qed.
(** The block is marked used, named, and [lfree] is moved if it was here. *)
Lemma take_mark_spec self n bs1 m1 :
  taken len size = (n, true) :: bs1 -> heap_struct (l ++ (n, false) :: bs1 ++ r) m1 ->
  counters m1 = (lfree m, used_size bs', sm_max m `max` used_size bs') ->
  exists m2, mark_taken self p m1 = Some (tt, m2) /\
    heap_ok bs' m2 /\ within p (p + SIZEOF_STRUCT_MEM) m1 m2.
Proof using Hm Hsize.
  intros Et Hm1 C1. unfold mark_taken. rewrite bind_gets. destruct (mark_spec l n false _ m1 Hm1 true) as [E2 Hm2].
  fold p in E2, Hm2. change (MEM_USED m1) with (mark (sm_address m1) true). rewrite (bind_ok _ _ _ _ _ E2).
  set (m2 := item_st p _ m1) in *.
  destruct (setname_spec l n true _ m2 (default none_name self) Hm2) as (m3 & E3 & Hm3 & W3 & C3).
  fold p in E3, W3. rewrite (bind_ok _ _ _ _ _ E3), !bind_gets.
  assert (within p (p + SIZEOF_STRUCT_MEM) m1 m3) as W by by transitivity m2.
  assert (counters m3 = (lfree m, used_size bs', sm_max m `max` used_size bs')) as C.
  { rewrite C3. exact C1. }
  injection C as Cf3 Cu3 Cx3. rewrite Cf3. destruct taken_first_free as [Ht1 Ht2].
  change ((n, true) :: bs1 ++ r) with (((n, true) :: bs1) ++ r) in Hm3. rewrite <- Et in Hm3.
  destruct (Z.eqb_spec p (lfree m)) as [He|Hn].
  - destruct (lfree_loop_spec l (taken len size ++ r) m3 (smem_fuel m3) Hm3) as (m4 & E4 & Hm4 & W4 & C4);
      [by rewrite Cf3, <- He|pose proof (smem_fuel_enough _ _ Hm3) as Hf; rewrite length_app in Hf; lia|].
    exists m4. split; [exact E4|]. split; [|transitivity m3; [done|within_lia]].
    eapply heap_ok_of; [exact Hm4|exact taken_merged|exact taken_roomy|exact C4|by apply Ht1|exact Cu3| |done]. lia.
  - exists m3. split; [done|]. split; [|done].
    eapply heap_ok_of; [exact Hm3|exact taken_merged|exact taken_roomy|reflexivity| |exact Cu3| |done]; [|lia].
    rewrite Cf3. symmetry. by apply Ht2.
Qed.

Lemma take_item_spec self :
  exists m', take_item self p size m = Some (heap_ptr m + p + SIZEOF_STRUCT_MEM, m') /\
    heap_ok bs' m' /\ within p (p + len) m m'.
Proof using Hm Hsize.
  pose proof (ho_struct _ _ Hm) as Hs. destruct (block_laid l len false r m Hs) as (_ & Hi & _). fold p in Hi.
  destruct take_split_spec as (m1 & E1 & (n & bs1 & Et & Hm1) & W1 & C1).
  destruct (take_mark_spec self n bs1 m1 Et Hm1 C1) as (m2 & E2 & Hm2 & W2).
  destruct (hs_heap _ _ Hs) as (Hh0 & Hh4 & _). destruct (block_place l len false r m Hs) as (H0 & H4 & _ & _).
  fold p in H0, H4. destruct taken_facts as (_ & _ & _ & He & _). 
  assert (within p (p + len) m m2) as W. { transitivity m1; [done|]. destruct (block_sized l len false r m Hs) as (_ & [Hn _] & _). unfold SIZEOF_STRUCT_MEM in *. within_lia. }
  exists m2. split; [|done]. unfold take_item. rewrite (bindh_item _ _ _ _ Hi). cbn [it_next].
  rewrite (bind_ok _ _ _ _ _ E1), (bind_ok _ _ _ _ _ E2), bind_gets.
  destruct W as [_ _ _ Wh We _ _]. unfold SIZEOF_STRUCT_MEM, RT_ALIGN_SIZE in *. rewrite We.
  rewrite bind_assert by lia. rewrite bind_gets, Wh, !bind_assert.
  { done. }
  - change (4 - 1) with (Z.ones 2). rewrite Z.land_ones by done. change (2 ^ 2) with 4. dlia.
  - dlia.
Qed.
End take.

(** ** Allocation *)

(** The bytes the allocator looks for when asked for [size] bytes. *)
Definition request (size : Z) : Z :=
  let s := RT_ALIGN size RT_ALIGN_SIZE in if s <? MIN_SIZE_ALIGNED then MIN_SIZE_ALIGNED else s.

Definition fits (s : Z) (b : block) : bool := negb b.2 && (SIZEOF_STRUCT_MEM + s <=? b.1).

(** The first free block with room for [s] bytes, between the others. *)
Fixpoint first_fit (s : Z) (bs : list block) : option (list block * Z * list block) :=
  match bs with
  | [] => None
  | b :: bs =>
      if fits s b then Some ([], b.1, bs)
      else match first_fit s bs with Some (l, n, r) => Some (b :: l, n, r) | None => None end
  end.

Lemma request_spec size :
  0 < size <= 2 ^ 64 - 4 -> size <= request size /\ MIN_SIZE_ALIGNED <= request size < 2 ^ 64 /\ request size mod 4 = 0.
Proof.
  intros Hs. unfold request. change MIN_SIZE_ALIGNED with 24. rewrite RT_ALIGN_4 by lia.
  destruct (Z.ltb_spec (4 * ((size + 3) / 4)) 24); dlia.
Qed.

Lemma first_fit_some s bs l n r :
  first_fit s bs = Some (l, n, r) ->
  bs = l ++ (n, false) :: r /\ SIZEOF_STRUCT_MEM + s <= n /\ Forall (fun b => fits s b = false) l.
Proof.
  revert l. induction bs as [|[k u] bs IH]; intros l; [done|]. cbn [first_fit].
  destruct (fits s (k, u)) eqn:Hf.
  - intros [= <- <- <-]. unfold fits in Hf. apply andb_true_iff in Hf as [Hu Hk].
    destruct u; [done|]. simpl in *. split; [done|]. split; [by apply Z.leb_le|done].
  - destruct (first_fit s bs) as [[[l' n'] r']|]; [|done]. intros [= <- <- <-].
    destruct (IH l' eq_refl) as (-> & Hn & Hl). split; [done|]. split; [done|]. by constructor.
Qed.

(** Used blocks are passed over. *)
Lemma first_fit_used s l r :
  forallb snd l = true ->
  first_fit s (l ++ r) = match first_fit s r with Some (l', n, r') => Some (l ++ l', n, r') | None => None end.
Proof.
  induction l as [|[k u] l IH]; intros Hu; simpl in *; [by destruct (first_fit s r) as [[[]]|]|].
  apply andb_true_iff in Hu as [-> Hu]. unfold fits. simpl. rewrite (IH Hu).
  by destruct (first_fit s r) as [[[]]|].
Qed.

Lemma first_free_split bs :
  exists l r, bs = l ++ r /\ forallb snd l = true /\ first_free 0 bs = extent l.
Proof.
  assert (forall p, exists l r, bs = l ++ r /\ forallb snd l = true /\ first_free p bs = p + extent l) as H.
  { induction bs as [|[k u] bs IH]; intros p; [exists [], []; split_and!; simpl; lia || done|]. simpl. destruct u.
    - destruct (IH (p + k)) as (l & r & -> & Hl & ->). exists ((k, true) :: l), r.
      split_and!; [done|done|simpl; lia].
    - exists [], ((k, false) :: bs). split_and!; [done|done|simpl; lia]. }
  destruct (H 0) as (l & r & ? & ? & ?). exists l, r. by rewrite Z.add_0_l in *.
Qed.

(** The search from the end of [l] on finds the first block that fits. *)
Lemma alloc_loop_spec self s l r m fuel :
  heap_struct (l ++ r) m -> 0 <= s -> s <= mem_size_aligned m -> (length r < fuel)%nat ->
  alloc_loop fuel self (extent l) s m =
    match first_fit s r with
    | None => Some (None, m)
    | Some (l', _, _) => (p ← take_item self (extent (l ++ l')) s; mret (Some p)) m
    end.
Proof.
  intros Hm H0 Hs. revert l Hm fuel. induction r as [|[n u] r IH]; intros l Hm fuel Hf;
    (destruct fuel as [|fuel]; [simpl in Hf; lia|]); cbn [alloc_loop first_fit]; rewrite bind_gets;
    destruct (hs_heap _ _ Hm) as (Hh0 & _ & Hh64); pose proof (hs_end _ _ Hm) as He; unfold SIZEOF_STRUCT_MEM in He.
  - pose proof (hs_extent _ _ Hm) as Hx. rewrite app_nil_r in Hx.
    rewrite u64_small by lia. by rewrite (proj2 (Z.leb_gt _ _)) by lia.
  - destruct (block_place l n u r m Hm) as (Hp0 & _ & Hr0 & Hx).
    destruct (block_sized l n u r m Hm) as (_ & [Hn _] & _).
    destruct (block_laid l n u r m Hm) as (_ & Hi & _). unfold SIZEOF_STRUCT_MEM in *.
    rewrite u64_small by lia. assert (extent (l ++ [(n, u)]) = extent l + n) as Ee by (rewrite extent_app; simpl; lia).
    destruct (Z.leb_spec (extent l) (mem_size_aligned m - s)) as [Hle|Hgt].
    + rewrite (bindh_item _ _ _ _ Hi), mark_used. cbn [it_next].
      replace (extent l + n - (extent l + 40)) with (n - 40) by lia. rewrite u64_small by lia.
      unfold fits. cbn [fst snd]. unfold SIZEOF_STRUCT_MEM.
      replace (40 + s <=? n) with (s <=? n - 40) by (destruct (Z.leb_spec s (n - 40)), (Z.leb_spec (40 + s) n); lia).
      destruct (negb u && (s <=? n - 40)); [by rewrite app_nil_r|]. rewrite <- Ee, IH.
      * destruct (first_fit s r) as [[[l' ?] ?]|]; [|done]. by rewrite <- app_assoc.
      * by rewrite <- app_assoc.
      * simpl in Hf. lia.
    + assert (first_fit s ((n, u) :: r) = None) as E; [|by cbn [first_fit] in E; rewrite E].
      destruct (first_fit s ((n, u) :: r)) as [[[l' n'] r']|] eqn:E; [|done].
      apply first_fit_some in E as (E & Hn' & _). rewrite E in Hm.
      destruct (struct_starts l (l' ++ [(n', false)]) r' m) as (_ & _ & _ & _ & He' & Hr'); [by rewrite <- app_assoc|].
      pose proof (hs_sized _ _ Hm) as Hz. apply Forall_app in Hz as [_ Hz]. apply Forall_app in Hz as [Hz _].
      destruct (extent_nonneg l' Hz). rewrite extent_app in He'. simpl in He'. unfold SIZEOF_STRUCT_MEM in *. lia.
Qed.

(** [rt_smem_alloc] is first fit. *)
Lemma smem_alloc_spec self size bs m :
  heap_ok bs m -> 0 < size <= 2 ^ 64 - 4 ->
  match first_fit (request size) bs with
  | None => rt_smem_alloc self size m = Some (None, m)
  | Some (l, n, r) => exists m',
      rt_smem_alloc self size m = Some (Some (heap_ptr m + extent l + SIZEOF_STRUCT_MEM), m') /\
      heap_ok (l ++ taken n (request size) ++ r) m' /\ within (extent l) (extent l + n) m m'
  end.
Proof.
  intros Hm Hsize. pose proof (ho_struct _ _ Hm) as Hs. destruct (request_spec size Hsize) as (_ & Hr & Hr4).
  unfold rt_smem_alloc. rewrite (proj2 (Z.eqb_neq size 0)) by lia.
  rewrite (bind_ok _ _ _ _ _ (assert_heap_eq bs m Hs)). fold (request size). cbv zeta. rewrite bind_gets.
  change MIN_SIZE_ALIGNED with 24 in Hr.
  destruct (first_free_split bs) as (l0 & r0 & E0 & Hu & Hf). rewrite <- (ho_lfree _ _ Hm) in Hf.
  destruct (Z.ltb_spec (mem_size_aligned m) (request size)) as [Hlt|Hge].
  - destruct (first_fit (request size) bs) as [[[l n] r]|] eqn:E; [|done].
    apply first_fit_some in E as (-> & Hn & _). destruct (block_place l n false r m Hs) as (? & _ & ? & ?).
    pose proof (hs_end _ _ Hs). lia.
  - rewrite !bind_gets, Hf, (alloc_loop_spec self _ l0 r0); [|by rewrite <- E0|lia|done|].
    2: { pose proof (smem_fuel_enough _ _ Hs) as Hl. rewrite E0, length_app in Hl. lia. }
    pose proof (first_fit_used (request size) l0 r0 Hu) as Eu. rewrite <- E0 in Eu.
    destruct (first_fit (request size) r0) as [[[l1 n1] r1]|]; rewrite Eu; [|done].
    apply first_fit_some in Eu as (Eb & Hn & _). rewrite Eb in Hm.
    destruct (take_item_spec _ n1 r1 m (request size) Hm) with (self := self) as (m' & E & Hm' & W);
      [change MIN_SIZE_ALIGNED with 24; lia|].
    exists m'. by rewrite (bind_ok _ _ _ _ _ E).
Qed.

(** ** Freeing *)

(** The block [len] becomes free behind the blocks [l] and before [r], and is
    combined with its free neighbours. *)
Definition join_next (len : Z) (r : list block) : Z * list block :=
  match r with (n, false) :: r' => (len + n, r') | _ => (len, r) end.
Definition join_prev (l : list block) (len : Z) (r : list block) : list block :=
  match last l with
  | Some (n, false) => removelast l ++ (n + len, false) :: r
  | _ => l ++ (len, false) :: r
  end.
Definition freed (l : list block) (len : Z) (r : list block) : list block :=
  let '(len', r') := join_next len r in join_prev l len' r'.

Lemma plug_forward_spec l len r m :
  heap_struct (l ++ (len, false) :: r) m -> lfree m <= extent l ->
  let '(len', r') := join_next len r in
  exists m', plug_forward (extent l) m = Some (tt, m') /\
    heap_struct (l ++ (len', false) :: r') m' /\ within 0 0 m m' /\ counters m' = counters m.
Proof.
  intros Hm Hf. destruct (block_laid l len false r m Hm) as (_ & Hi & _).
  destruct (block_next l len false r m Hm) as (i & Hn & Hc).
  destruct (block_sized l len false r m Hm) as (_ & [Hlen _] & _). unfold SIZEOF_STRUCT_MEM in Hlen.
  unfold plug_forward. rewrite (bindh_item _ _ _ _ Hi). cbn [it_next].
  assert (free_behind (extent l) (extent l + len) m =
    Some (negb (MEM_ISUSED i) && negb (extent l + len =? heap_end m), m)) as E.
  { unfold free_behind. rewrite (proj2 (Z.eqb_neq _ _)) by lia. by rewrite (bindh_item _ _ _ _ Hn). }
  rewrite (bind_ok _ _ _ _ _ E). unfold join_next. destruct r as [|[n u] r'].
  - destruct Hc as (_ & -> & _). by exists m.
  - destruct Hc as (Hlt & ->). rewrite mark_used. destruct u; [by exists m|].
    rewrite (proj2 (Z.eqb_neq _ _)) by lia. cbn [snd negb andb when]. rewrite bind_gets.
    rewrite (proj2 (Z.eqb_neq _ _)) by lia. cbn [when].
    destruct (merge_spec l len false n false r' m Hm) as (m' & Em & ?). exists m'. by rewrite (bind_ok _ _ m tt m).
Qed.

Lemma plug_backward_spec l len r m :
  heap_struct (l ++ (len, false) :: r) m -> lfree m <= first_free 0 l ->
  exists m', plug_backward (extent l) m = Some (tt, m') /\
    heap_struct (join_prev l len r) m' /\ within 0 0 m m' /\ counters m' = counters m.
Proof.
  intros Hm Hf. destruct (block_laid l len false r m Hm) as (Hl & Hi & _).
  unfold plug_backward. rewrite (bindh_item _ _ _ _ Hi). cbn [it_prev]. unfold join_prev.
  destruct l as [|[n u] l' _] using rev_ind; [by exists m|].
  rewrite last_snoc, removelast_last. rewrite <- app_assoc in Hm. cbn [app] in Hm.
  destruct (block_laid l' n u _ m Hm) as (_ & Hp & _).
  destruct (block_sized l' n u _ m Hm) as (Hl' & [Hn _] & _). unfold SIZEOF_STRUCT_MEM in Hn.
  rewrite last_start_app, extent_app in *. cbn [last_start extent foldr fst] in *. rewrite Z.add_0_r, ?Z.add_0_l in *.
  assert (free_before (extent l' + n) (extent l') m = Some (negb u, m)) as E.
  { unfold free_before. rewrite (proj2 (Z.eqb_neq _ _)) by lia. by rewrite (bindh_item _ _ _ _ Hp), mark_used. }
  rewrite (bind_ok _ _ _ _ _ E). destruct u; cbn [negb when].
  { exists m. by rewrite <- app_assoc. }
  rewrite bind_gets. pose proof (first_free_le 0 l' Hl') as Hff. rewrite first_free_app in Hf.
  rewrite (proj2 (Z.eqb_neq _ _)).
  2: { destruct (forallb snd l'); simpl in Hf; lia. }
  destruct (merge_spec l' n false len false r m Hm) as (m' & Em & ?). exists m'. by rewrite (bind_ok _ _ m tt m).
Qed.

(** What combining keeps. *)
Section freed_facts.
Context (l : list block) (len : Z) (r : list block).

Lemma freed_used : used_size (freed l len r) = used_size l + used_size r.
Proof using.
  assert (forall n k, used_size (join_prev l n k) = used_size l + used_size k) as H.
  { intros n k. unfold join_prev. destruct l as [|[j u] l' _] using rev_ind; [done|].
    rewrite last_snoc, removelast_last. destruct u; rewrite !used_size_app; simpl; lia. }
  unfold freed, join_next. destruct r as [|[j u] r']; [by rewrite H|]. destruct u; by rewrite H.
Qed.

Lemma freed_first_free : first_free 0 (freed l len r) = first_free 0 (l ++ (len, false) :: r).
Proof using.
  assert (forall n k, first_free 0 (join_prev l n k) = first_free 0 (l ++ (len, false) :: r)) as H.
  { intros n k. unfold join_prev. destruct l as [|[j u] l' _] using rev_ind; [done|].
    rewrite last_snoc, removelast_last. destruct u; rewrite !first_free_app.
    - done.
    - rewrite forallb_app, andb_false_r. by destruct (forallb snd l'). }
  unfold freed, join_next. destruct r as [|[j u] r']; [by rewrite H|]. destruct u; by rewrite H.
Qed.

Lemma freed_roomy : Forall roomy l -> Forall roomy r -> Forall roomy (freed l len r).
Proof using.
  assert (forall n k, Forall roomy l -> Forall roomy k -> Forall roomy (join_prev l n k)) as H.
  { intros n k Hl' Hk. unfold join_prev. destruct l as [|[j u] l' _] using rev_ind.
    - constructor; [by intros ?|done].
    - rewrite last_snoc, removelast_last. apply Forall_app in Hl' as [Hl1 Hl2].
      destruct u; repeat (apply Forall_app; split); try done; (constructor; [by intros ?|done]). }
  intros H1 H2. unfold freed, join_next. destruct r as [|[j u] r']; [by apply H|].
  apply Forall_cons in H2 as [Hj H2]. destruct u; apply H; try done. by constructor.
Qed.

Lemma freed_merged : merged true (l ++ (len, true) :: r) -> merged true (freed l len r).
Proof using.
  assert (forall n k, merged true l -> merged false k -> merged true (join_prev l n k)) as H.
  { intros n k Hl' Hk. unfold join_prev. destruct l as [|[j u] l' _] using rev_ind; [by simpl|].
    rewrite last_snoc, removelast_last. pose proof Hl' as Hl2. apply merged_app in Hl2 as [H1 [H2 _]].
    destruct u; apply merged_app; (split; [done|]).
    - rewrite last_used_app. by simpl.
    - simpl in H2 |- *. by rewrite H2. }
  intros Hg. apply merged_app in Hg as [Hg [_ Hk]]. simpl in Hk.
  unfold freed, join_next. destruct r as [|[j u] r']; [by apply H|].
  destruct Hk as [_ Hk]. simpl in Hk. destruct u; apply H; done.
Qed.
End freed_facts.

(** [plug_holes] combines a free block with its neighbours. *)
Lemma plug_holes_spec l len r m :
  heap_struct (l ++ (len, false) :: r) m -> lfree m = first_free 0 (l ++ (len, false) :: r) ->
  exists m', plug_holes (extent l) m = Some (tt, m') /\
    heap_struct (freed l len r) m' /\ within 0 0 m m' /\ counters m' = counters m /\
    lfree m' = first_free 0 (freed l len r).
Proof.
  intros Hm Hf. destruct (block_place l len false r m Hm) as (H0 & _ & Hr & He).
  destruct (block_sized l len false r m Hm) as (Hl & [Hn _] & _). unfold SIZEOF_STRUCT_MEM in Hn.
  unfold plug_holes. rewrite bind_assert by lia. rewrite bind_gets, bind_assert by lia.
  pose proof (first_free_le 0 l Hl) as Hle.
  assert (lfree m <= first_free 0 l /\ lfree m <= extent l) as [Hf1 Hf2].
  { rewrite Hf, first_free_app. pose proof (first_free_le 0 l Hl).
    assert (forallb snd l = true -> first_free 0 l = extent l) as Hu.
    { intros Hu. pose proof (first_free_app 0 l []) as E. rewrite app_nil_r, Hu in E. simpl in E. lia. }
    destruct (forallb snd l); simpl; [rewrite Hu by done|]; lia. }
  pose proof (plug_forward_spec l len r m Hm Hf2) as P. pose proof (freed_first_free l len r) as Ff.
  unfold freed in *. destruct (join_next len r) as [len' r'].
  destruct P as (m1 & E1 & Hm1 & W1 & C1). rewrite (bind_ok _ _ _ _ _ E1).
  assert (lfree m1 = lfree m) as Ef by by injection C1.
  destruct (plug_backward_spec l len' r' m1 Hm1) as (m2 & E2 & Hm2 & W2 & C2); [by rewrite Ef|].
  exists m2. split; [done|]. split; [done|]. split; [by transitivity m1|].
  split; [by rewrite C2|]. rewrite Ff, <- Hf, <- Ef. by injection C2.
Qed.

Lemma lowered_first_free l len u r :
  Forall sized (l ++ (len, u) :: r) ->
  first_free 0 (l ++ (len, u) :: r) `min` extent l = first_free 0 (l ++ (len, false) :: r).
Proof.
  intros Hs. apply Forall_app in Hs as [Hl Hs]. apply Forall_cons in Hs as [[Hn _] Hr].
  rewrite !first_free_app, Z.add_0_l. unfold SIZEOF_STRUCT_MEM in *. cbn [fst] in Hn.
  destruct (forallb snd l) eqn:Hu.
  - cbn [first_free snd fst]. pose proof (first_free_le (extent l + len) r Hr). destruct u; lia.
  - pose proof (first_free_lt 0 l Hl Hu). lia.
Qed.

(** The address [heap_ptr m + p + SIZEOF_STRUCT_MEM] of the user's part of a block. *)
Lemma user_address l len u r m :
  heap_ok (l ++ (len, u) :: r) m -> SIZEOF_STRUCT_MEM < len ->
  let rmem := heap_ptr m + extent l + SIZEOF_STRUCT_MEM in
  (Z.land rmem (RT_ALIGN_SIZE - 1) =? 0) = true /\ rmem - SIZEOF_STRUCT_MEM - heap_ptr m = extent l /\
  (heap_ptr m <=? rmem) && (rmem <? heap_ptr m + heap_end m) = true /\ rmem mod 4 = 0 /\ 0 <= extent l.
Proof.
  intros Hok Hlen rmem. pose proof (ho_struct _ _ Hok) as Hm. destruct (hs_heap _ _ Hm) as (Hh0 & Hh4 & _).
  destruct (block_place l len u r m Hm) as (H0 & H4 & Hr & He).
  unfold rmem, SIZEOF_STRUCT_MEM, RT_ALIGN_SIZE in *. split; [|split; [lia|split; [lia|split; [dlia|lia]]]].
  change (4 - 1) with (Z.ones 2). rewrite Z.land_ones by done. change (2 ^ 2) with 4. dlia.
Qed.

(** [plug_holes] restores the invariant when the block [len] has become free. *)
Lemma plugged_spec l len r m :
  heap_struct (l ++ (len, false) :: r) m -> merged true (l ++ (len, true) :: r) ->
  Forall roomy l -> Forall roomy r -> lfree m = first_free 0 (l ++ (len, false) :: r) ->
  sm_used m = used_size l + used_size r -> sm_used m <= sm_max m ->
  exists m', plug_holes (extent l) m = Some (tt, m') /\
    heap_ok (freed l len r) m' /\ within 0 0 m m'.
Proof.
  intros Hm Hg Hl Hr Hf Hu Hx.
  destruct (plug_holes_spec l len r m Hm Hf) as (m' & E & Hm' & W & C & Cf).
  exists m'. split; [done|]. split; [|done]. injection C as _ Cu Cx. constructor; try done.
  - by apply freed_merged.
  - by apply freed_roomy.
  - rewrite freed_used. lia.
  - lia.
Qed.

(** [lfree] moves down to a block that has become free. *)
Definition lowered (p : Z) (m : rt_small_mem) : rt_small_mem := if p <? lfree m then set_lfree p m else m.

Lemma lowered_spec bs m p :
  heap_struct bs m ->
  heap_struct bs (lowered p m) /\ within 0 0 m (lowered p m) /\
  counters (lowered p m) = (lfree m `min` p, sm_used m, sm_max m).
Proof.
  intros Hm. unfold lowered. destruct (Z.ltb_spec p (lfree m)).
  - destruct (set_lfree_spec _ m p Hm) as (? & ? & ->). split_and!; try done. by rewrite Z.min_r by lia.
  - split_and!; try done. unfold counters. by rewrite Z.min_l by lia.
Qed.

Lemma bindh_lower {B} p (f : unit -> H B) m :
  (free ← gets lfree; when (p <? free) (modify (set_lfree p)) ≫= f) m = f tt (lowered p m).
Proof. rewrite bind_gets. unfold lowered. by destruct (_ <? _). Qed.

Lemma used_block_size l len r m :
  heap_ok (l ++ (len, true) :: r) m ->
  sm_used m = used_size l + len + used_size r /\ 0 <= used_size l /\ 0 <= used_size r /\
  SIZEOF_STRUCT_MEM < len /\ sm_used m < 2 ^ 64.
Proof.
  intros Hok. pose proof (ho_struct _ _ Hok) as Hm. pose proof (hs_sized _ _ Hm) as Hsz.
  pose proof (used_size_bound _ Hsz) as Hub. rewrite (hs_extent _ _ Hm), <- (ho_used _ _ Hok) in Hub.
  destruct (hs_heap _ _ Hm) as (? & _ & ?).
  pose proof (ho_room _ _ Hok) as [_ [Hro _]%Forall_cons]%Forall_app. specialize (Hro eq_refl).
  pose proof Hsz as [Hsl [_ Hsr]%Forall_cons]%Forall_app.
  pose proof (used_size_bound l Hsl). pose proof (used_size_bound r Hsr).
  rewrite (ho_used _ _ Hok), used_size_app in *. cbn [used_size foldr snd fst] in *. fold (used_size r) in *.
  lia.
Qed.

(** A block that was used, and is marked free, is given back. *)
Lemma give_back_spec l len r m m1 :
  heap_ok (l ++ (len, true) :: r) m ->
  heap_struct (l ++ (len, false) :: r) m1 -> counters m1 = counters m ->
  exists m', give_back (extent l) (extent l + len) m1 = Some (tt, m') /\
    heap_ok (freed l len r) m' /\ within 0 0 m1 m'.
Proof.
  intros Hok Hm1 [= Cf1 Cu1 Cx1]. destruct (used_block_size _ _ _ _ Hok) as (Hu & ? & ? & Hroom & ?).
  unfold SIZEOF_STRUCT_MEM in Hroom. pose proof (ho_max _ _ Hok).
  destruct (lowered_spec _ m1 (extent l) Hm1) as (Hm2 & W2 & C2). injection C2 as Cf Cu Cx.
  destruct (sub_used_spec _ _ len Hm2) as (m3 & E3 & Hm3 & W3 & C3); [lia|]. injection C3 as Cf3 Cu3 Cx3.
  pose proof (ho_room _ _ Hok) as [Hr1 [_ Hr2]%Forall_cons]%Forall_app.
  destruct (plugged_spec l len r m3 Hm3) as (m4 & E4 & Hm4 & W4); try done; try lia.
  - apply (ho_merged _ _ Hok).
  - rewrite Cf3, Cf, Cf1, (ho_lfree _ _ Hok). by apply lowered_first_free, (hs_sized _ _ (ho_struct _ _ Hok)).
  - exists m4. split; [|split; [done|by transitivity (lowered (extent l) m1); [|transitivity m3]]].
    unfold give_back. rewrite bindh_lower. replace (extent l + len - extent l) with len by lia.
    by rewrite (bind_ok _ _ _ _ _ E3).
Qed.

(** The item behind a block belongs to the same heap. *)
Lemma next_pool l len u r m :
  heap_struct (l ++ (len, u) :: r) m ->
  exists i, sm_items m !! (extent l + len) = Some i /\ MEM_POOL i = sm_address m.
Proof.
  intros Hm. destruct (block_next l len u r m Hm) as (i & Hn & Hc). exists i. split; [done|].
  destruct r as [|b r']; [|destruct Hc as [_ ->]; by apply mark_pool, (hs_address _ _ Hm)].
  destruct Hc as (_ & _ & Hc & _). destruct i as [x y z]. cbn [pool_ptr] in Hc. subst x.
  apply mark_pool, (hs_address _ _ Hm).
Qed.

(** [rt_smem_free] of a used block. *)
Lemma smem_free_spec l len r m :
  heap_ok (l ++ (len, true) :: r) m ->
  exists m', rt_smem_free (Some (heap_ptr m + extent l + SIZEOF_STRUCT_MEM)) m = Some (tt, m') /\
    heap_ok (freed l len r) m' /\ within (extent l) (extent l + SIZEOF_STRUCT_MEM) m m'.
Proof.
  intros Hok. pose proof (ho_struct _ _ Hok) as Hm. destruct (used_block_size _ _ _ _ Hok) as (_ & _ & _ & Hroom & _).
  destruct (user_address l len true r m Hok Hroom) as (Ha & Ep & Hb & _).
  destruct (block_laid l len true r m Hm) as (_ & Hi & _).
  destruct (next_pool l len true r m Hm) as (i & Hn & Hpool).
  unfold rt_smem_free. rewrite (bind_assert _ _ _ Ha), bind_gets. cbv zeta. rewrite Ep.
  rewrite (bindh_item _ _ _ _ Hi), bind_gets, bind_assert by (apply Z.eqb_eq, mark_pool, (hs_address _ _ Hm)).
  rewrite bind_assert by apply mark_used. rewrite (bind_ok _ _ _ _ _ (assert_heap_eq _ _ Hm)), bind_gets.
  rewrite (bind_assert _ _ _ Hb). cbn [it_next]. rewrite (bindh_item _ _ _ _ Hn).
  rewrite bind_assert by (by apply Z.eqb_eq). rewrite bind_gets.
  destruct (mark_spec l len true r m Hm false) as [E1 Hm1].
  change (MEM_FREED m) with (mark (sm_address m) false). rewrite (bind_ok _ _ _ _ _ E1).
  set (m1 := item_st _ _ m) in *.
  destruct (setname_spec l len false r m1 blank_name Hm1) as (m2 & E2 & Hm2 & W2 & C2).
  rewrite (bind_ok _ _ _ _ _ E2).
  destruct (give_back_spec l len r m m2 Hok Hm2) as (m3 & E3 & Hm3 & W3); [by rewrite C2|].
  exists m3. split; [done|]. split; [done|]. transitivity m1; [done|]. transitivity m2; within_lia.
Qed.
