(* ===== verification/MemRealloc.v ===== *)
(** * The heap: reallocation, start, and the theorems

    [rt_smem_realloc] on the blocks, the walk of the shell command [memcheck],
    the first state of a heap, and the theorems about all operations. *)
From S2P Require Import Prelude Kservice Kernel Mem MemSpec MemOps.

(** ** Reallocation *)

(** A used block is cut down in place. *)
Lemma shrink_item_spec l len r m n :
  heap_ok (l ++ (len, true) :: r) m -> 0 < n -> n mod 4 = 0 -> 2 * SIZEOF_STRUCT_MEM + n <= len ->
  exists m', shrink_item (extent l) (len - SIZEOF_STRUCT_MEM) n m = Some (tt, m') /\
    heap_ok (freed (l ++ [(SIZEOF_STRUCT_MEM + n, true)]) (len - SIZEOF_STRUCT_MEM - n) r) m' /\
    within (extent l + SIZEOF_STRUCT_MEM + n) (extent l + 2 * SIZEOF_STRUCT_MEM + n) m m'.
Proof.
  intros Hok Hn0 Hn4 Hlen. destruct (used_block_size _ _ _ _ Hok) as (Hu & Hu1 & Hu2 & _ & ?).
  unfold SIZEOF_STRUCT_MEM in Hlen. pose proof (ho_max _ _ Hok) as Hx.
  set (l1 := l ++ [(SIZEOF_STRUCT_MEM + n, true)]). set (k := len - SIZEOF_STRUCT_MEM - n).
  assert (extent l1 = extent l + SIZEOF_STRUCT_MEM + n) as El1 by (unfold l1; rewrite extent_app; simpl; lia).
  destruct (sub_used_spec _ m (len - SIZEOF_STRUCT_MEM - n) (ho_struct _ _ Hok)) as (m1 & E1 & Hm1 & W1 & C1);
    [unfold SIZEOF_STRUCT_MEM; lia|].
  destruct (split_spec l len true r m1 n Hm1) as (m2 & E2 & Hm2 & W2 & C2); [lia|done|unfold SIZEOF_STRUCT_MEM; lia|].
  change (l ++ [?a; ?b] ++ r) with (l ++ [a] ++ b :: r) in Hm2. rewrite app_assoc in Hm2. fold l1 k in Hm2.
  destruct (lowered_spec _ m2 (extent l1) Hm2) as (Hm3 & W3 & C3).
  rewrite C1 in C2. injection C2 as Cf2 Cu2 Cx2. injection C3 as Cf3 Cu3 Cx3.
  pose proof (ho_room _ _ Hok) as [Hr1 [_ Hr2]%Forall_cons]%Forall_app.
  destruct (plugged_spec l1 k r (lowered (extent l1) m2) Hm3) as (m4 & E4 & Hm4 & W4); try done; try lia.
  - pose proof (ho_merged _ _ Hok) as [Hg [_ Hg2]]%merged_app. unfold l1. rewrite <- app_assoc.
    apply merged_app. split; [done|]. cbn [app merged snd]. by rewrite !orb_true_r.
  - apply Forall_app. split; [done|]. apply Forall_singleton. intros _. cbn [fst]. lia.
  - rewrite Cf3, Cf2, (ho_lfree _ _ Hok). rewrite <- (lowered_first_free l1 k true r).
    + f_equal. unfold l1. rewrite <- app_assoc, !first_free_app.
      cbn [app first_free snd fst forallb andb extent foldr].
      by replace (0 + extent l + (SIZEOF_STRUCT_MEM + n + 0) + k) with (0 + extent l + len) by (unfold k; lia).
    + pose proof (hs_sized _ _ Hm2) as [Hs1 [Hs2 Hs3]%Forall_cons]%Forall_app.
      apply Forall_app. split; [done|]. by constructor.
  - rewrite Cu3, Cu2. unfold l1. rewrite used_size_app. simpl. unfold SIZEOF_STRUCT_MEM in *. lia.
  - unfold SIZEOF_STRUCT_MEM in *. lia.
  - exists m4. split; [|split; [done|]].
    + unfold shrink_item. replace (len - SIZEOF_STRUCT_MEM - n) with k by done.
      rewrite (bind_ok _ _ _ _ _ E1). cbv zeta. rewrite <- El1 in E2 |- *.
      by rewrite (bind_ok _ _ _ _ _ E2), bindh_lower.
    + transitivity m1; [within_lia|]. transitivity m2; [unfold SIZEOF_STRUCT_MEM in *; within_lia|].
      transitivity (lowered (extent l1) m2); within_lia.
Qed.

(** ** Moving a block *)

Lemma put_bytes_lookup p data bytes i :
  0 <= i < zlen data -> put_bytes p data bytes !! (p + i) = data !! Z.to_nat i.
Proof.
  revert p i bytes. induction data as [|x data IH]; intros p i bytes Hi; [unfold zlen in Hi; simpl in Hi; lia|].
  assert (zlen (x :: data) = zlen data + 1) as E by (unfold zlen; simpl length; lia). simpl.
  destruct (decide (i = 0)) as [->|Hne].
  - rewrite put_bytes_far by lia. rewrite Z.add_0_r. apply lookup_insert_eq.
  - replace (p + i) with (p + 1 + (i - 1)) by lia. rewrite IH by lia.
    replace (Z.to_nat i) with (S (Z.to_nat (i - 1))) by lia. done.
Qed.

Definition byte_at (m : rt_small_mem) (p : Z) : Z := default 0 (sm_bytes m !! p).

Lemma within_byte lo hi m m' x : within lo hi m m' -> ~ (lo <= x < hi) -> byte_at m' x = byte_at m x.
Proof. intros W Hx. unfold byte_at. by rewrite (wi_bytes _ _ _ _ W). Qed.

Lemma read_bytes_eq p n m : read_bytes p n m = Some (map (fun i => byte_at m (p + i)) (seqZ 0 n), m).
Proof. done. Qed.

Lemma read_lookup (f : Z -> Z) n i : 0 <= i < n -> (map f (seqZ 0 n) : list Z) !! Z.to_nat i = Some (f i).
Proof.
  intros Hi. apply list_lookup_fmap_Some. exists i. split; [done|].
  apply lookup_seqZ. lia.
Qed.

(** Replacing one block by others of the same length leaves the others. *)
Lemma other_block l1 b1 r1 l b r t :
  l1 ++ b1 :: r1 = l ++ b :: r -> b1 <> b -> extent t = b1.1 -> Forall sized (l ++ b :: r) ->
  exists l' r', l1 ++ t ++ r1 = l' ++ b :: r' /\ extent l' = extent l /\
    (extent l1 + b1.1 <= extent l \/ extent l + b.1 <= extent l1).
Proof.
  intros E Hne Ht Hs. rewrite <- E in Hs. apply app_eq_inv in E as [(k & -> & E)|(k & -> & E)].
  - destruct k as [|c k]; [by injection E as ->|]. injection E as -> ->.
    exists l, (k ++ t ++ r1). split; [by rewrite <- app_assoc|]. split; [done|]. right.
    apply Forall_app in Hs as [Hs _]. apply Forall_app in Hs as [_ [_ Hs]%Forall_cons].
    destruct (extent_nonneg k Hs). rewrite extent_app. simpl. lia.
  - destruct k as [|c k]; [by injection E as ->|]. injection E as -> ->.
    exists (l1 ++ t ++ k), r. split; [by rewrite <- !app_assoc|]. rewrite !extent_app. simpl. split; [lia|]. left.
    apply Forall_app in Hs as [_ [_ Hs]%Forall_cons]. apply Forall_app in Hs as [Hs _].
    destruct (extent_nonneg k Hs). lia.
Qed.

(** An invariant about the blocks survives a write inside one of them. *)
Lemma heap_ok_same bs m m' : heap_ok bs m -> heap_struct bs m' -> counters m' = counters m -> heap_ok bs m'.
Proof.
  intros [Hs Hg Hr Hf Hu Hx] Hm' [= Cf Cu Cx]. constructor; try done; congruence.
Qed.

(** The user of a block that was just taken writes into it. *)
Lemma write_taken_spec l n r s m lo data :
  heap_ok (l ++ taken n s ++ r) m -> SIZEOF_STRUCT_MEM + s <= n ->
  extent l + sizeof_fields <= lo -> lo + zlen data <= extent l + SIZEOF_STRUCT_MEM + s ->
  exists m', write_bytes lo data m = Some (tt, m') /\ heap_ok (l ++ taken n s ++ r) m' /\
    within lo (lo + zlen data) m m' /\ sm_bytes m' = put_bytes lo data (sm_bytes m).
Proof.
  intros Hok Hn Hlo Hhi.
  assert (exists k u bs1, taken n s = (k, u) :: bs1 /\ SIZEOF_STRUCT_MEM + s <= k) as (k & u & bs1 & Et & Hk).
  { unfold taken. destruct (_ <=? _); eexists _, _, _; (split; [reflexivity|lia]). }
  pose proof (ho_struct _ _ Hok) as Hs. rewrite Et in Hok, Hs |- *.
  destruct (write_spec l k u _ m Hs lo data) as (m' & E & Hm' & W & C & B); [lia|lia|].
  exists m'. split_and!; try done. by eapply heap_ok_same.
Qed.

(** [move_item] when there is room: the data is in the new block at [extent l1],
    the old one at [extent l] is free, and no other byte has changed. *)
Section move.
Context (l : list block) (len : Z) (r : list block) (m : rt_small_mem) (self : option (list Z)) (n : Z).
Context (Hok : heap_ok (l ++ (len, true) :: r) m) (Hn : 0 < n <= 2 ^ 64 - 4).

Let old := extent l + SIZEOF_STRUCT_MEM.
Let moved := (len - SIZEOF_STRUCT_MEM) `min` n.

Lemma copied_spec l1 n1 r1 m1 :
  heap_ok (l1 ++ taken n1 (request n) ++ r1) m1 -> SIZEOF_STRUCT_MEM + request n <= n1 ->
  let new := extent l1 + SIZEOF_STRUCT_MEM in
  exists m2, write_bytes new (map (fun i => byte_at m1 (old + i)) (seqZ 0 moved)) m1 = Some (tt, m2) /\
    heap_ok (l1 ++ taken n1 (request n) ++ r1) m2 /\ within new (new + moved) m1 m2 /\
    (forall i, 0 <= i < moved -> byte_at m2 (new + i) = byte_at m1 (old + i)).
Proof using Hn Hok.
  intros Hok1 Hn1 new. destruct (request_spec n Hn) as (Hreq & _ & _).
  destruct (used_block_size _ _ _ _ Hok) as (_ & _ & _ & Hroom & _).
  set (data := map (fun i => byte_at m1 (old + i)) (seqZ 0 moved)).
  assert (0 <= moved <= n) as Hmv by (unfold moved; lia).
  assert (zlen data = moved) as Ed.
  { unfold data, zlen. rewrite length_map, length_seqZ. lia. }
  destruct (write_taken_spec l1 n1 r1 (request n) m1 new data Hok1 Hn1) as (m2 & E2 & Hok2 & W2 & B2);
    [unfold new, sizeof_fields, SIZEOF_STRUCT_MEM; lia|unfold new; lia|].
  exists m2. rewrite Ed in W2. split; [done|split; [done|split; [done|]]].
  intros i Hi. unfold byte_at at 1. rewrite B2, put_bytes_lookup by lia. unfold data. by rewrite read_lookup.
Qed.

Lemma move_item_spec :
  match first_fit (request n) (l ++ (len, true) :: r) with
  | None => move_item self (heap_ptr m + old) (len - SIZEOF_STRUCT_MEM) n m = Some (None, m)
  | Some (l1, n1, r1) =>
      let new := extent l1 + SIZEOF_STRUCT_MEM in
      exists m' l' r',
        move_item self (heap_ptr m + old) (len - SIZEOF_STRUCT_MEM) n m = Some (Some (heap_ptr m + new), m') /\
        l1 ++ taken n1 (request n) ++ r1 = l' ++ (len, true) :: r' /\ extent l' = extent l /\
        heap_ok (freed l' len r') m' /\
        (forall i, 0 <= i < moved -> byte_at m' (new + i) = byte_at m (old + i)) /\
        (forall x, ~ (extent l1 <= x < extent l1 + n1) -> ~ (extent l <= x < old) -> byte_at m' x = byte_at m x)
  end.
Proof using Hn Hok.
  pose proof (smem_alloc_spec self n _ m Hok Hn) as A. unfold move_item.
  destruct (first_fit (request n) (l ++ (len, true) :: r)) as [[[l1 n1] r1]|] eqn:Ef; [|by rewrite (bind_ok _ _ _ _ _ A)].
  set (new := extent l1 + SIZEOF_STRUCT_MEM). destruct A as (m1 & E1 & Hok1 & W1).
  rewrite (bind_ok _ _ _ _ _ E1), bind_gets. apply first_fit_some in Ef as (Eb & Hfit & _).
  destruct (copied_spec l1 n1 r1 m1 Hok1 Hfit) as (m2 & E2 & Hok2 & W2 & B2). fold new in E2, W2, B2.
  rewrite (wi_heap _ _ _ _ W1). replace (heap_ptr m + old - heap_ptr m) with old by lia.
  replace (if len - SIZEOF_STRUCT_MEM <? n then len - SIZEOF_STRUCT_MEM else n) with moved
    by (unfold moved; destruct (Z.ltb_spec (len - SIZEOF_STRUCT_MEM) n); lia).
  rewrite (bind_ok _ _ _ _ _ (read_bytes_eq old moved m1)).
  replace (heap_ptr m + extent l1 + SIZEOF_STRUCT_MEM - heap_ptr m) with new by (unfold new; lia).
  rewrite (bind_ok _ _ _ _ _ E2).
  destruct (used_block_size _ _ _ _ Hok) as (_ & _ & _ & Hroom & _).
  destruct (request_spec n Hn) as (Hreq & _ & _).
  destruct (other_block l1 (n1, false) r1 l (len, true) r (taken n1 (request n))) as (l' & r' & Et & El & Hdis);
    [done|done| |apply (hs_sized _ _ (ho_struct _ _ Hok))|].
  { unfold taken. destruct (_ <=? _); simpl; lia. }
  rewrite Et in Hok2. destruct (smem_free_spec l' len r' m2 Hok2) as (m3 & E3 & Hok3 & W3).
  rewrite (wi_heap _ _ _ _ W2), (wi_heap _ _ _ _ W1), El, <- Z.add_assoc in E3. fold old in E3.
  rewrite (bind_ok _ _ _ _ _ E3). exists m3, l', r'. rewrite <- Z.add_assoc. fold new.
  rewrite El in W3. fold old in W3. unfold SIZEOF_STRUCT_MEM in *. cbn [fst] in Hdis.
  assert (moved <= len - 40 /\ moved <= n) as [] by (unfold moved; lia).
  split_and!; try done.
  - intros i Hi. rewrite (within_byte _ _ _ _ _ W3), B2, (within_byte _ _ _ _ _ W1); unfold new, old; lia || done.
  - intros x H1 H2. rewrite (within_byte _ _ _ _ _ W3), (within_byte _ _ _ _ _ W2), (within_byte _ _ _ _ _ W1);
      unfold new in *; lia || done.
Qed.
End move.

(** [rt_smem_realloc] of a used block, on every branch. *)
Lemma smem_realloc_spec self newsize l len r m :
  heap_ok (l ++ (len, true) :: r) m -> 0 <= newsize <= 2 ^ 64 - 4 ->
  let n := RT_ALIGN newsize RT_ALIGN_SIZE in
  let rmem := heap_ptr m + (extent l + SIZEOF_STRUCT_MEM) in
  let size := len - SIZEOF_STRUCT_MEM in
  rt_smem_realloc self (Some rmem) newsize m =
    if mem_size_aligned m <? n then Some (None, m)
    else if n =? 0 then (rt_smem_free (Some rmem);; mret None) m
    else if size =? n then Some (Some rmem, m)
    else if n + SIZEOF_STRUCT_MEM + MIN_SIZE <? size then (shrink_item (extent l) size n;; mret (Some rmem)) m
    else move_item self rmem size n m.
Proof.
  intros Hok Hns n rmem size. pose proof (ho_struct _ _ Hok) as Hm.
  destruct (used_block_size _ _ _ _ Hok) as (Hu & ? & ? & Hroom & ?).
  destruct (user_address l len true r m Hok Hroom) as (Ha & Ep & Hb & _).
  destruct (block_laid l len true r m Hm) as (_ & Hi & _).
  replace (heap_ptr m + extent l + SIZEOF_STRUCT_MEM) with rmem in * by (unfold rmem; lia).
  unfold rt_smem_realloc. rewrite (bind_ok _ _ _ _ _ (assert_heap_eq _ _ Hm)), bind_gets. fold n. cbv zeta.
  destruct (_ <? n); [done|]. destruct (n =? 0); [done|].
  rewrite (bind_assert _ _ _ Ha), !bind_gets, (bind_assert _ _ _ Hb), Ep, (bindh_item _ _ _ _ Hi). cbn [it_next].
  replace (extent l + len - extent l - SIZEOF_STRUCT_MEM) with size by (unfold size; lia).
  rewrite u64_small by (unfold size, SIZEOF_STRUCT_MEM in *; lia).
  destruct (size =? n); [done|]. by destruct (_ <? size).
Qed.

(** ** The walk of the shell command *)



Lemma memcheck_loop_spec l r m fuel :
  heap_ok (l ++ r) m -> mem_size_aligned m < 2 ^ 31 -> (length r < fuel)%nat ->
  memcheck_loop fuel (extent l) m = Some (true, m).
Proof.
  revert l fuel. induction r as [|[len u] r IH]; intros l fuel Hok Hsz Hf;
    (destruct fuel as [|fuel]; [simpl in Hf; lia|]); cbn [memcheck_loop]; rewrite bind_gets;
    pose proof (ho_struct _ _ Hok) as Hm.
  - rewrite app_nil_r in Hm. by rewrite <- (hs_extent _ _ Hm), Z.eqb_refl.
  - destruct (block_place l len u r m Hm) as (H0 & _ & Hr & He).
    destruct (block_sized l len u r m Hm) as (_ & [Hn _] & _). unfold SIZEOF_STRUCT_MEM in Hn.
    destruct (block_laid l len u r m Hm) as (_ & Hi & _). pose proof (hs_end _ _ Hm) as Hend.
    unfold SIZEOF_STRUCT_MEM in Hend. rewrite (proj2 (Z.eqb_neq _ _)) by lia.
    cbv zeta. rewrite bind_gets, (bindh_item _ _ _ _ Hi), bind_gets.
    rewrite mark_pool, Z.eqb_refl by apply (hs_address _ _ Hm). rewrite !s32_small by lia.
    rewrite (proj2 (Z.ltb_ge _ _)), (proj2 (Z.ltb_ge _ _)) by lia. cbn [orb negb it_next].
    specialize (IH (l ++ [(len, u)]) fuel). rewrite <- app_assoc, extent_app in IH. simpl in IH.
    rewrite Z.add_0_r in IH. apply IH; [done|done|]. simpl in Hf. lia.
Qed.

(** ** Start *)

(** The mask of [MEM_POOL] keeps addresses below 4 GB. *)
Lemma low_address a : 0 <= a < 2 ^ 32 -> a mod 4 = 0 -> Z.land a MEM_MASK = a.
Proof.
  intros Ha Ha4. replace a with (Z.shiftl (a / 2) 1) at 1 by (rewrite Z.shiftl_mul_pow2 by lia; dlia).
  change MEM_MASK with (Z.shiftl (Z.ones 31) 1). rewrite <- Z.shiftl_land, Z.land_ones by lia.
  rewrite Z.shiftl_mul_pow2 by lia. rewrite (Z.mod_small (a / 2)) by dlia. dlia.
Qed.

(** A new heap is one free block and the item at its end. *)
Lemma fresh_heap_ok h size address heap m0 :
  o_type h = Z.lor RT_Object_Class_Memory RT_Object_Class_Static -> 0 <= size -> size mod 4 = 0 ->
  0 <= address < 2 ^ 32 -> address mod 4 = 0 -> 0 <= heap -> heap mod 4 = 0 ->
  heap + size + SIZEOF_STRUCT_MEM < 2 ^ 64 ->
  let e := size + SIZEOF_STRUCT_MEM in
  m0 = SmallMem h size 0 0 address heap e 0 size ∅ ∅ ->
  exists m, snd <$> (new_item 0 (SmemItem (MEM_FREED m0) e 0);; rt_smem_setname 0 init_name;;
       new_item e (SmemItem (MEM_USED m0) e e);; rt_smem_setname e init_name) m0 = Some m /\
    heap_ok [(e, false)] m /\ within 0 (e + SIZEOF_STRUCT_MEM) m0 m /\ counters m = (0, 0, 0).
Proof.
  intros Ht Hs Hs4 Ha Ha4 Hh Hh4 Hb e E0. rewrite place_bind.
  set (m1 := placed 0 _ init_name m0). set (m2 := placed e (SmemItem (MEM_USED m0) e e) init_name m1).
  exists m2. unfold SIZEOF_STRUCT_MEM in *. assert (sm_address m0 = address) as Ea by by subst.
  assert (within 0 (e + 40) m0 m2) as W.
  { transitivity m1; [pose proof (placed_within 0 (SmemItem (MEM_FREED m0) e 0) init_name m0) as W|
      pose proof (placed_within e (SmemItem (MEM_USED m0) e e) init_name m1) as W];
      unfold SIZEOF_STRUCT_MEM in W; within_lia. }
  assert (counters m2 = (0, 0, 0)) as C by by subst m0.
  split; [done|]. split; [|done]. injection C as Cf Cu Cx. destruct W as [Wp _ Wa Wh We Ws _].
  assert (sm_items m2 !! e = Some (SmemItem (mark address true) e e)) as He.
  { unfold m2. rewrite placed_items by by left. rewrite decide_True by done. by rewrite <- Ea. }
  constructor; [|done|by apply Forall_singleton|exact Cf|exact Cu|].
  2: { change (sm_used m0 <= sm_max m0). lia. }
  subst m0. cbn [sm_address heap_ptr heap_end mem_size_aligned sm_parent] in *. constructor.
  - rewrite Wp, Ht. done.
  - rewrite Wa. by apply low_address.
  - rewrite Wh, We. lia.
  - by rewrite We, Ws.
  - rewrite We. simpl. lia.
  - repeat constructor; simpl; unfold SIZEOF_STRUCT_MEM; [lia|dlia].
  - split; [|done]. rewrite Wa. unfold m2. rewrite placed_items by (unfold SIZEOF_STRUCT_MEM; lia).
    rewrite decide_False by lia. unfold m1. rewrite placed_items by by left. by rewrite decide_True by done.
  - rewrite We, Wa. by exists e.
Qed.


Lemma smem_init_spec name begin_addr size :
  0 <= begin_addr -> 0 <= size -> begin_addr + size < 2 ^ 32 ->
  let start := 4 * ((begin_addr + 3) / 4) + sizeof_rt_small_mem in
  let last := 4 * ((begin_addr + size) / 4) in
  if start + 2 * SIZEOF_STRUCT_MEM <=? last then
    exists m, rt_smem_init name begin_addr size = Some m /\
      heap_ok [(last - start - SIZEOF_STRUCT_MEM, false)] m /\ heap_ptr m = start /\
      sm_address m = 4 * ((begin_addr + 3) / 4) /\ sm_total m = last - start - 2 * SIZEOF_STRUCT_MEM /\ sm_used m = 0
  else rt_smem_init name begin_addr size = None.
Proof.
  intros Hb Hs Hbs start last. unfold rt_smem_init. change RT_ALIGN_SIZE with 4. cbv zeta.
  rewrite (RT_ALIGN_4 begin_addr) by lia. fold start.
  assert (0 <= start < 2 ^ 33) as H1 by (unfold start, sizeof_rt_small_mem; dlia).
  assert (0 <= last < 2 ^ 33) as H2 by (unfold last; dlia).
  rewrite (u64_small start), RT_ALIGN_4, RT_ALIGN_DOWN_4, (u64_small (begin_addr + size)) by lia. fold last.
  assert (4 * ((start + 3) / 4) = start) as -> by (unfold start, sizeof_rt_small_mem; dlia).
  unfold SIZEOF_STRUCT_MEM. destruct (Z.leb_spec (start + 2 * 40) last) as [Hle|Hgt].
  - rewrite (proj2 (Z.ltb_lt _ _)), (proj2 (Z.leb_le _ _)) by (unfold start, sizeof_rt_small_mem in *; dlia).
    cbn [andb]. rewrite u64_small by lia. set (h := RtObject _ _ _).
    set (k := last - start - 2 * 40).
    destruct (fresh_heap_ok h k (4 * ((begin_addr + 3) / 4)) start
      (SmallMem h k 0 0 (4 * ((begin_addr + 3) / 4)) start (k + SIZEOF_STRUCT_MEM) 0 k ∅ ∅))
      as (m & E & Hm & W & C); unfold SIZEOF_STRUCT_MEM; try done; try lia;
      [unfold k, start, last, sizeof_rt_small_mem in *; dlia..|].
    exists m. split; [exact E|]. injection C as _ Cu _. destruct W as [_ Wt Wa Wh _ _ _].
    replace (last - start - 40) with (k + SIZEOF_STRUCT_MEM) by (unfold k, SIZEOF_STRUCT_MEM; lia). done.
  - replace ((2 * 40 <? last) && (start <=? last - 2 * 40)) with false by (symmetry; lia). done.
Qed.

(** ** Theorems *)

(** C16: [rt_smem_alloc] of at least one byte and at most 2^64 - 4 (a larger size wraps around when it is
    rounded up) is first fit: it takes the first free block with room for the
    request, rounded up to the alignment and the minimal size, and cuts the
    rest off it when that can be a block of its own; it returns an aligned
    address with room for all bytes asked for. It fails only when no free block
    has room, and then changes nothing. No byte outside the taken block changes,
    and the invariant (no gaps, no two free neighbours, [lfree] first, bytes
    counted) holds again. *)
Theorem smem_alloc_correct self size bs m :
  heap_ok bs m -> 0 < size <= 2 ^ 64 - 4 ->
  match first_fit (request size) bs with
  | None => rt_smem_alloc self size m = Some (None, m)
  | Some (l, n, r) => exists m',
      let rmem := heap_ptr m + extent l + SIZEOF_STRUCT_MEM in
      rt_smem_alloc self size m = Some (Some rmem, m') /\ rmem mod RT_ALIGN_SIZE = 0 /\
      SIZEOF_STRUCT_MEM + size <= n /\ bs = l ++ (n, false) :: r /\
      heap_ok (l ++ taken n (request size) ++ r) m' /\ within (extent l) (extent l + n) m m'
  end.
Proof.
  intros Hok Hsize. pose proof (smem_alloc_spec self size bs m Hok Hsize) as A.
  destruct (request_spec size Hsize) as (Hr & _ & _).
  destruct (first_fit (request size) bs) as [[[l n] r]|] eqn:E; [|done].
  apply first_fit_some in E as (-> & Hn & _). destruct A as (m' & A & Hok' & W).
  destruct (block_place l n false r m (ho_struct _ _ Hok)) as (_ & H4 & _ & _).
  destruct (hs_heap _ _ (ho_struct _ _ Hok)) as (_ & Hh4 & _).
  exists m'. unfold SIZEOF_STRUCT_MEM, RT_ALIGN_SIZE in *. split_and!; try done; try lia. dlia.
Qed.

(** C17: [rt_smem_free] of an allocated block succeeds, makes it free and joins it with
    the free blocks on both sides, moves [lfree] down to it if it is now the
    first, takes its bytes off the counter, and touches nothing but headers:
    the invariant holds again. *)
Theorem smem_free_correct l len r m :
  heap_ok (l ++ (len, true) :: r) m ->
  exists m', rt_smem_free (Some (heap_ptr m + extent l + SIZEOF_STRUCT_MEM)) m = Some (tt, m') /\
    heap_ok (freed l len r) m' /\ within (extent l) (extent l + SIZEOF_STRUCT_MEM) m m' /\
    sm_used m' = sm_used m - len.
Proof.
  intros Hok. destruct (smem_free_spec l len r m Hok) as (m' & E & Hok' & W). exists m'.
  split_and!; try done. rewrite (ho_used _ _ Hok'), (ho_used _ _ Hok), freed_used, used_size_app. simpl. lia.
Qed.

(** C37: [rt_smem_realloc] of an allocated block, on every branch (for a size of at most 2^64 - 4): a size the heap can
    never have and a failed search give null and change nothing; size 0 frees;
    the same size changes nothing; a much smaller size cuts the block down in
    place, keeping the user's bytes; any other size moves the block: the first
    bytes of the new one are those of the old one, which is free, and the other
    blocks are untouched. *)
Theorem smem_realloc_correct self newsize l len r m :
  heap_ok (l ++ (len, true) :: r) m -> 0 <= newsize <= 2 ^ 64 - 4 ->
  let n := RT_ALIGN newsize RT_ALIGN_SIZE in
  let old := extent l + SIZEOF_STRUCT_MEM in
  let size := len - SIZEOF_STRUCT_MEM in
  let result := rt_smem_realloc self (Some (heap_ptr m + old)) newsize m in
  if mem_size_aligned m <? n then result = Some (None, m)
  else if n =? 0 then exists m', result = Some (None, m') /\ heap_ok (freed l len r) m' /\
    within (extent l) old m m'
  else if size =? n then result = Some (Some (heap_ptr m + old), m)
  else if n + SIZEOF_STRUCT_MEM + MIN_SIZE <? size then
    exists m', result = Some (Some (heap_ptr m + old), m') /\
      heap_ok (freed (l ++ [(SIZEOF_STRUCT_MEM + n, true)]) (size - n) r) m' /\
      within (old + n) (old + n + SIZEOF_STRUCT_MEM) m m'
  else
    match first_fit (request n) (l ++ (len, true) :: r) with
    | None => result = Some (None, m)
    | Some (l1, n1, r1) =>
        let new := extent l1 + SIZEOF_STRUCT_MEM in
        exists m' l' r', result = Some (Some (heap_ptr m + new), m') /\
          l1 ++ taken n1 (request n) ++ r1 = l' ++ (len, true) :: r' /\ extent l' = extent l /\
          heap_ok (freed l' len r') m' /\
          (forall i, 0 <= i < size `min` n -> byte_at m' (new + i) = byte_at m (old + i)) /\
          (forall x, ~ (extent l1 <= x < extent l1 + n1) -> ~ (extent l <= x < old) -> byte_at m' x = byte_at m x)
    end.
Proof.
  intros Hok Hns n old size result. pose proof (smem_realloc_spec self newsize l len r m Hok Hns) as E.
  cbv zeta in E. fold n old size in E. unfold result. rewrite E.
  assert (n mod 4 = 0 /\ 0 <= n <= 2 ^ 64 - 4) as [Hn4 Hn].
  { unfold n, RT_ALIGN_SIZE. rewrite RT_ALIGN_4 by lia. dlia. }
  destruct (_ <? n); [done|]. destruct (Z.eqb_spec n 0).
  - destruct (smem_free_spec l len r m Hok) as (m' & E' & ?). exists m'. rewrite <- Z.add_assoc in E'.
    by rewrite (bind_ok _ _ _ _ _ E').
  - destruct (size =? n); [done|]. destruct (Z.ltb_spec (n + SIZEOF_STRUCT_MEM + MIN_SIZE) size) as [Hlt|].
    + destruct (shrink_item_spec l len r m n Hok) as (m' & E' & Hok' & W);
        [lia|done|unfold MIN_SIZE, size, SIZEOF_STRUCT_MEM in *; lia|].
      exists m'. unfold size. rewrite (bind_ok _ _ _ _ _ E'). split; [done|]. split; [done|].
      unfold old. within_lia.
    + apply move_item_spec; [done|lia].
Qed.

(** [rt_smem_init] puts a heap of one free block and an end marker into the memory
    it is given, within its bounds, or fails because there is no room. *)
Theorem smem_init_correct name begin_addr size :
  0 <= begin_addr -> 0 <= size -> begin_addr + size < 2 ^ 32 ->
  let start := 4 * ((begin_addr + 3) / 4) + sizeof_rt_small_mem in
  let last := 4 * ((begin_addr + size) / 4) in
  match rt_smem_init name begin_addr size with
  | None => last < start + 2 * SIZEOF_STRUCT_MEM
  | Some m => heap_ok [(last - start - SIZEOF_STRUCT_MEM, false)] m /\ heap_ptr m = start /\
      begin_addr <= sm_address m /\ sm_address m + sizeof_rt_small_mem = heap_ptr m /\
      heap_ptr m + heap_end m + SIZEOF_STRUCT_MEM <= begin_addr + size /\
      sm_total m = last - start - 2 * SIZEOF_STRUCT_MEM /\ sm_used m = 0
  end.
Proof.
  intros Hb Hs Hbs start last. pose proof (smem_init_spec name begin_addr size Hb Hs Hbs) as H.
  cbv zeta in H. fold start last in H. destruct (Z.leb_spec (start + 2 * SIZEOF_STRUCT_MEM) last); [|by rewrite H].
  destruct H as (m & -> & Hok & Hh & Ha & Ht & Hu). pose proof (hs_extent _ _ (ho_struct _ _ Hok)) as He.
  cbn [extent foldr fst] in He. rewrite Ha, Hh, <- He. unfold SIZEOF_STRUCT_MEM, start, last in *.
  split_and!; try done; try lia; dlia.
Qed.

(** Rounding a request up to the alignment wraps around: of the largest three
    sizes [rt_smem_alloc] makes the smallest block there is. *)
Theorem smem_alloc_wraps self size m :
  2 ^ 64 - 3 <= size < 2 ^ 64 -> rt_smem_alloc self size m = rt_smem_alloc self MIN_SIZE m.
Proof.
  intros Hs. unfold rt_smem_alloc. rewrite (proj2 (Z.eqb_neq size 0)) by lia.
  assert (RT_ALIGN size RT_ALIGN_SIZE = 0) as ->; [|done].
  unfold RT_ALIGN, RT_ALIGN_SIZE, u64. replace (size + 4 - 1) with (size - (2 ^ 64 - 3) + 1 * 2 ^ 64) by lia.
  rewrite Z.mod_add, Z.mod_small by lia.
  assert (size - (2 ^ 64 - 3) = 0 \/ size - (2 ^ 64 - 3) = 1 \/ size - (2 ^ 64 - 3) = 2) as [-> | [-> | ->]] by lia; done.
Qed.

(** The shell command [memcheck] finds a heap in order when its invariant holds. *)
Theorem memcheck_correct bs m :
  heap_ok bs m -> mem_size_aligned m < 2 ^ 31 -> memcheck m = Some (true, m).
Proof.
  intros Hok Hs. unfold memcheck. rewrite bind_gets. apply (memcheck_loop_spec [] bs); [done|done|].
  pose proof (smem_fuel_enough _ _ (ho_struct _ _ Hok)). lia.
Qed.

(** ** Witnesses *)

(** A heap of 880 bytes, and the same with a block of 100 bytes for the user. *)
Definition demo_heap : rt_small_mem :=
  default (SmallMem (RtObject [] 0 0) 0 0 0 0 0 0 0 0 ∅ ∅) (rt_smem_init [104] 4096 1024).
Definition demo_used : rt_small_mem :=
  match rt_smem_alloc None 100 demo_heap with Some (_, m) => m | None => demo_heap end.

Lemma demo_heap_ok : heap_ok [(880, false)] demo_heap.
Proof.
  destruct (smem_init_spec [104] 4096 1024) as (m & E & Hok & _); [done..|]. unfold demo_heap. by rewrite E.
Qed.

Lemma demo_used_ok : heap_ok [(140, true); (740, false)] demo_used.
Proof.
  destruct (smem_alloc_spec None 100 _ _ demo_heap_ok) as (m & E & Hok & _); [lia|].
  unfold demo_used. by rewrite E.
Qed.

Lemma smem_alloc_correct_witness :
  exists m', rt_smem_alloc None 100 demo_heap = Some (Some 4240, m') /\ heap_ok [(140, true); (740, false)] m'.
Proof.
  destruct (smem_alloc_correct None 100 _ _ demo_heap_ok) as (m & E & _ & _ & _ & Hok & _);
    [split; [reflexivity|discriminate]|].
  exists m. split; [exact E|exact Hok].
Defined.

Lemma smem_free_correct_witness :
  exists m', rt_smem_free (Some 4240) demo_used = Some (tt, m') /\ heap_ok [(880, false)] m'.
Proof.
  destruct (smem_free_correct [] 140 [(740, false)] demo_used demo_used_ok) as (m & E & Hok & _).
  exists m. split; [exact E|exact Hok].
Defined.

Lemma demo_used_place : heap_ptr demo_used = 4200 /\ mem_size_aligned demo_used = 840.
Proof. by split; vm_compute. Qed.

Lemma smem_realloc_correct_witness :
  exists m', rt_smem_realloc None (Some (4200 + 40)) 200 demo_used = Some (Some (4200 + 180), m') /\
    heap_ok [(140, false); (240, true); (500, false)] m' /\
    forall i, 0 <= i < 100 -> byte_at m' (180 + i) = byte_at demo_used (40 + i).
Proof.
  destruct demo_used_place as [Hp Hs].
  assert (0 <= 200 <= 2 ^ 64 - 4) as Hn by lia.
  pose proof (smem_realloc_correct None 200 [] 140 [(740, false)] demo_used demo_used_ok Hn) as H.
  rewrite Hp, Hs in H. destruct H as (m & l' & r' & E & Eb & El & Hok & Hi & _).
  exists m. split; [exact E|]. split; [|exact Hi].
  destruct l' as [|b l']; [injection Eb as <-; exact Hok|]. injection Eb as <- Eb. exfalso.
  destruct l' as [|b' l']; [discriminate Eb|]. injection Eb as <- Eb. destruct l' as [|b'' l']; [discriminate Eb|].
  injection Eb as <- Eb. destruct l'; discriminate Eb.
Defined.

Lemma smem_init_correct_witness :
  4096 + 1024 < 2 ^ 32 /\ heap_ok [(880, false)] demo_heap.
Proof.
  split; [reflexivity|].
  destruct (smem_init_correct [104] 4096 1024) as [H _]; [discriminate|discriminate|reflexivity|]. exact H.
Defined.

Lemma smem_alloc_wraps_witness :
  2 ^ 64 - 1 < 2 ^ 64 /\ (fst <$> rt_smem_alloc None (2 ^ 64 - 1) demo_heap) = Some (Some 4240).
Proof.
  split; [reflexivity|]. rewrite (smem_alloc_wraps None (2 ^ 64 - 1)) by (split; [discriminate|reflexivity]).
  vm_compute. reflexivity.
Defined.

Lemma memcheck_correct_witness : memcheck demo_used = Some (true, demo_used).
Proof. apply (memcheck_correct _ _ demo_used_ok). reflexivity. Defined.
