(* ===== verification/SystemHeap.v ===== *)
(** * The system heap

    The heap functions of [src/kservice.c]: the small memory allocator of Mem.v
    behind a mutex, on the kernel and the heap together. A call that finds the
    mutex taken waits; its second half, named [..._locked], runs when the
    thread has the mutex. The identity of the mutex
    [_lock] is the argument [lock]. *)
From S2P Require Import Prelude Kservice Kernel Sched Object Timer Thread KernelInv Boot Ipc IpcMutex.
From S2P Require Import Sys Mem MemSpec MemOps MemRealloc.

Abbreviation Y := (St (sys rt_small_mem)).
Abbreviation called := (call (sys rt_small_mem)).

Section heap.
Context (lock : nat).

Definition _heap_lock_init : M unit := rt_mutex_init lock [104; 101; 97; 112] RT_IPC_FLAG_PRIO;; mret tt.

Definition _heap_lock : M (outcome unit) :=
  self ← rt_thread_self;
  match self with
  | Some _ => rt_mutex_take lock RT_WAITING_FOREVER
  | None => mret (Ret RT_EOK)
  end.

Definition _heap_unlock (level : Z) : M unit :=
  rt_assert (level =? RT_EOK);;
  self ← rt_thread_self;
  match self with Some _ => rt_mutex_release lock;; mret tt | None => mret tt end.

(** The functions of Mem.v on the heap. Only the owner of the mutex may call
    them (or anybody before the first thread runs): any other access is a data
    race, and undefined. *)
Definition may_access : M unit :=
  self ← rt_thread_self;
  match self with
  | Some self => m ← get_mutex lock; rt_assert (bool_decide (mx_owner m = Some self))
  | None => mret tt
  end.

Definition on_heap {A} (m : H A) : Y A := lift_k may_access;; lift_h m.

(** What every function does once [_heap_lock] has returned [level]. *)
Definition locked {A} (body : option (list Z) -> H A) (level : Z) : Y A :=
  self ← lift_k self_name;
  a ← on_heap (body self);
  lift_k (_heap_unlock level);;
  mret a.

(** The second half of a call that had to wait, when its thread runs again. *)
Definition resumed {A} (f : Z -> Y A) : Y (called A) :=
  level ← lift_k (thread ← current_thread; rt_mutex_take_return thread);
  a ← f level;
  mret (Done a).

Definition guarded {A} (f : Z -> Y A) : Y (called A) :=
  o ← lift_k _heap_lock;
  match o with
  | Ret level => a ← f level; mret (Done a)
  | Wait _ => mret (Waits (resumed f))
  end.

(** The heap between two addresses: null if the heap cannot be there. *)
Definition rt_system_heap_init (begin_addr end_addr : Z) (k : kstate) : option (unit * sys rt_small_mem) :=
  let begin_align := RT_ALIGN begin_addr RT_ALIGN_SIZE in
  let end_align := RT_ALIGN_DOWN end_addr RT_ALIGN_SIZE in
  if begin_align <? end_align then
    match rt_smem_init [104; 101; 97; 112] begin_addr (end_align - begin_align), _heap_lock_init k with
    | Some m, Some (_, k) => Some (tt, Sys k m)
    | _, _ => None
    end
  else None.

Definition malloc_locked (size level : Z) : Y (option Z) := locked (fun self => rt_smem_alloc self size) level.
Definition rt_malloc (size : Z) : Y (called (option Z)) := guarded (malloc_locked size).

Definition realloc_locked (rmem : option Z) (newsize level : Z) : Y (option Z) :=
  locked (fun self => rt_smem_realloc self rmem newsize) level.
Definition rt_realloc (rmem : option Z) (newsize : Z) : Y (called (option Z)) :=
  guarded (realloc_locked rmem newsize).

(** Bytes written at an address. *)
Definition store (p : Z) (data : list Z) : H unit := heap ← gets heap_ptr; write_bytes (p - heap) data.

Definition calloc_locked (count size level : Z) : Y (option Z) :=
  p ← malloc_locked (u64 (count * size)) level;
  match p with
  | Some p =>
      lift_h (store p (replicate (Z.to_nat (u64 (count * size))) 0));;
      mret (Some p)
  | None => mret None
  end.
Definition rt_calloc (count size : Z) : Y (called (option Z)) := guarded (calloc_locked count size).

Definition free_locked (rmem level : Z) : Y unit := locked (fun _ => rt_smem_free (Some rmem)) level.
Definition rt_free (rmem : option Z) : Y (called unit) :=
  match rmem with
  | Some rmem => guarded (free_locked rmem)
  | None => mret (Done tt)
  end.

(** The total size, the bytes used, and the most that ever were. *)
Definition memory_info_locked (level : Z) : Y (Z * Z * Z) :=
  locked (fun _ => gets (fun m => (sm_total m, sm_used m, sm_max m))) level.
Definition rt_memory_info : Y (called (Z * Z * Z)) := guarded memory_info_locked.

(** A pointer in memory: eight bytes, the lowest first. *)
Fixpoint le_bytes (n : nat) (x : Z) : list Z :=
  match n with O => [] | S n => x mod 256 :: le_bytes n (x / 256) end.
Definition le_value (l : list Z) : Z := foldr (fun b x => b + 256 * x) 0 l.

Definition sizeof_ptr : Z := 8.

(** [align] rounded up to the size of a pointer, and the aligned address in a block at [ptr]. *)
Definition align_of (align : Z) : Z := Z.land (u64 (align + (sizeof_ptr - 1))) (Z.lnot (sizeof_ptr - 1)).
Definition aligned_address (ptr align : Z) : Z :=
  if Z.land ptr (align - 1) =? 0 then u64 (ptr + align)
  else Z.land (u64 (ptr + (align - 1))) (Z.lnot (align - 1)).

Definition malloc_align_locked (size align level : Z) : Y (option Z) :=
  let align := align_of align in
  let align_size := u64 (align_of size + align) in
  ptr ← malloc_locked align_size level;
  match ptr with
  | Some ptr =>
      let align_ptr := aligned_address ptr align in
      lift_h (store (align_ptr - sizeof_ptr) (le_bytes 8 ptr));;
      mret (Some align_ptr)
  | None => mret None
  end.
Definition rt_malloc_align (size align : Z) : Y (called (option Z)) := guarded (malloc_align_locked size align).

Definition rt_free_align (ptr : option Z) : Y (called unit) :=
  match ptr with
  | Some ptr =>
      bytes ← lift_h (heap ← gets heap_ptr; read_bytes (ptr - sizeof_ptr - heap) sizeof_ptr);
      let real_ptr := le_value bytes in
      rt_free (if real_ptr =? 0 then None else Some real_ptr)
  | None => mret (Done tt)
  end.
End heap.

(** ** The mutex around the heap *)

Lemma le_value_bytes n x : 0 <= x < 256 ^ Z.of_nat n -> le_value (le_bytes n x) = x.
Proof.
  revert x. induction n as [|n IH]; intros x Hx; [simpl in *; lia|]. simpl le_bytes. simpl le_value.
  rewrite Nat2Z.inj_succ, Z.pow_succ_r in Hx by lia. rewrite IH by dlia. dlia.
Qed.

Lemma le_bytes_length n x : zlen (le_bytes n x) = Z.of_nat n.
Proof. unfold zlen. f_equal. revert x. induction n as [|n IH]; intros x; simpl; [done|]. by rewrite IH. Qed.

Section guard.
Context (lock : nat) (k : kstate) (m : rt_small_mem) (mx : rt_mutex) (c : nat) (th : rt_thread).
Context (Hok : kernel_ok k) (Hmx : mutex_ok k lock mx) (Hcb : can_block k c th).

Let name := o_name (th_object th).

(** The owner of the mutex does its work and lets the mutex go. *)
Lemma locked_spec {A} (body : option (list Z) -> H A) a m' :
  mx_owner mx = Some c -> mx_hold mx = 1 -> body (Some name) m = Some (a, m') ->
  exists k' mx', locked lock body RT_EOK (Sys k m) = Some (a, Sys k' m') /\ kernel_ok k' /\
    mutex_ok k' lock mx' /\
    match qget (k_tq k) (QMutex lock) with
    | [] => mx_owner mx' = None /\ exists th', can_block k' c th'
    | t :: l => mx_owner mx' = Some t /\ mx_hold mx' = 1 /\ qget (k_tq k') (QMutex lock) = l /\ highest_running k'
    end.
Proof using Hok Hmx Hcb.
  intros Ho Hh Eb.
  assert (exists k' mx', rt_mutex_release lock k = Some (RT_EOK, k') /\ kernel_ok k' /\ mutex_ok k' lock mx' /\
    match qget (k_tq k) (QMutex lock) with
    | [] => mx_owner mx' = None /\ exists th', can_block k' c th'
    | t :: l => mx_owner mx' = Some t /\ mx_hold mx' = 1 /\ qget (k_tq k') (QMutex lock) = l /\ highest_running k'
    end) as (k' & mx' & E & Hok' & Hmx' & Hq).
  { destruct (qget (k_tq k) (QMutex lock)) as [|t l] eqn:El.
    - destruct (release_free k lock mx c th Hok Hmx Hcb Ho Hh El) as (k' & mx' & th' & ? & ? & ? & _ & _ & ? & ?).
      exists k', mx'. split_and!; try done. by exists th'.
    - destruct (release_handover k lock mx c th Hok Hmx Hcb t l Ho Hh El)
        as (k' & mx' & _ & _ & ? & ? & ? & _ & _ & ? & ? & ? & ? & _). by exists k', mx'. }
  exists k', mx'. split; [|done].
  assert (self_name k = Some (Some name, k)) as E1.
  { unfold self_name, rt_thread_self. mrun. rewrite (cb_current _ _ _ Hcb). by rewrite (get_thread_eq c k th) by apply Hcb. }
  assert (_heap_unlock lock RT_EOK k = Some (tt, k')) as E2.
  { unfold _heap_unlock, rt_thread_self, rt_assert. rewrite Z.eqb_refl. mrun. rewrite (cb_current _ _ _ Hcb). by rewrite E. }
  assert (may_access lock k = Some (tt, k)) as E3.
  { unfold may_access, rt_thread_self, rt_assert. mrun. rewrite (cb_current _ _ _ Hcb).
    rewrite (get_mutex_eq lock mx k) by apply Hmx. by rewrite Ho, bool_decide_true. }
  assert (on_heap lock (body (Some name)) (Sys k m) = Some (a, Sys k m')) as E4.
  { unfold on_heap. rewrite (bind_ok _ _ _ _ _ (lift_k_ok _ _ m _ _ E3)). by apply lift_h_ok. }
  unfold locked. rewrite (bind_ok _ _ _ _ _ (lift_k_ok _ _ m _ _ E1)). rewrite (bind_ok _ _ _ _ _ E4).
  by rewrite (bind_ok _ _ _ _ _ (lift_k_ok _ _ _ _ _ E2)).
Qed.

End guard.

Section calls.
Context (lock : nat) (k : kstate) (m : rt_small_mem) (mx : rt_mutex) (c : nat) (th : rt_thread).
Context (Hok : kernel_ok k) (Hmx : mutex_ok k lock mx) (Hcb : can_block k c th).

(** A call when the mutex is free. *)
Lemma guarded_free {A} (body : option (list Z) -> H A) a m' :
  mx_owner mx = None -> body (Some (o_name (th_object th))) m = Some (a, m') ->
  exists k1 k' mx' th', _heap_lock lock k = Some (Ret RT_EOK, k1) /\
    locked lock body RT_EOK (Sys k1 m) = Some (a, Sys k' m') /\
    kernel_ok k' /\ mutex_ok k' lock mx' /\ mx_owner mx' = None /\ can_block k' c th'.
Proof using Hok Hmx Hcb.
  intros Ho Eb. destruct (take_free_runs k lock mx c th RT_WAITING_FOREVER Hok Hmx Hcb Ho)
    as (k1 & mx1 & E & Hok1 & Hmx1 & Ho1 & Hh1 & _ & Hcb1 & Hq1).
  assert (_heap_lock lock k = Some (Ret RT_EOK, k1)) as E1.
  { unfold _heap_lock, rt_thread_self. mrun. by rewrite (cb_current _ _ _ Hcb). }
  destruct (locked_spec lock k1 m mx1 c _ Hok1 Hmx1 Hcb1 body a m' Ho1 Hh1 Eb) as (k' & mx' & E' & Hok' & Hmx' & H).
  rewrite Hq1 in H. destruct H as (Ho' & th' & Hcb'). by exists k1, k', mx', th'.
Qed.

(** The whole of such a call, when it does nothing after the mutex is released. *)
Lemma guarded_free_done {A} (body : option (list Z) -> H A) a m' :
  mx_owner mx = None -> body (Some (o_name (th_object th))) m = Some (a, m') ->
  exists k' mx' th', guarded lock (locked lock body) (Sys k m) = Some (Done a, Sys k' m') /\
    kernel_ok k' /\ mutex_ok k' lock mx' /\ mx_owner mx' = None /\ can_block k' c th'.
Proof using Hok Hmx Hcb.
  intros Ho Eb. destruct (guarded_free body a m' Ho Eb) as (k1 & k' & mx' & th' & E1 & E2 & R).
  exists k', mx', th'. split; [|done]. unfold guarded.
  rewrite (bind_ok _ _ _ _ _ (lift_k_ok _ _ m _ _ E1)). by rewrite (bind_ok _ _ _ _ _ E2).
Qed.

(** A call when another thread has the mutex. *)
Lemma guarded_waits {A} (f : Z -> Y A) o :
  mx_owner mx = Some o -> o <> c ->
  exists k', guarded lock f (Sys k m) = Some (Waits (resumed f), Sys k' m) /\ kernel_ok k' /\ mutex_ok k' lock mx /\
    highest_running k' /\ k_threads k' !! c = Some (with_stat RT_THREAD_SUSPEND (set_th_error RT_EOK th)) /\
    c ∈ qget (k_tq k') (QMutex lock).
Proof using Hok Hmx Hcb.
  intros Ho Hne.
  destruct (take_wait k lock mx c th RT_WAITING_FOREVER Hok Hmx Hcb o Ho Hne) as (k' & E & Hok' & Hmx' & Hh & Hth & Hq & _);
    [done|done|].
  assert (_heap_lock lock k = Some (Wait tt, k')) as E1.
  { unfold _heap_lock, rt_thread_self. mrun. by rewrite (cb_current _ _ _ Hcb). }
  exists k'. split_and!; try done.
  - unfold guarded. by rewrite (bind_ok _ _ _ _ _ (lift_k_ok _ _ m _ _ E1)).
  - destruct Hq as (l1 & l2 & _ & -> & _). set_solver.
Qed.
End calls.

(** ** Allocation through the mutex *)

Lemma guarded_eq {A} lock k m k1 (f : Z -> Y A) :
  _heap_lock lock k = Some (Ret RT_EOK, k1) ->
  guarded lock f (Sys k m) = (a ← f RT_EOK; mret (Done a)) (Sys k1 m).
Proof. intros E. unfold guarded. by rewrite (bind_ok _ _ _ _ _ (lift_k_ok _ _ m _ _ E)). Qed.

(** The allocation of a call that finds the mutex free. *)
Lemma malloc_first lock k m mx c th (Hok : kernel_ok k) (Hmx : mutex_ok k lock mx) (Hcb : can_block k c th) s bs :
  mx_owner mx = None -> heap_ok bs m -> 0 < s <= 2 ^ 64 - 4 ->
  exists k1 k' mx' th', _heap_lock lock k = Some (Ret RT_EOK, k1) /\
    kernel_ok k' /\ mutex_ok k' lock mx' /\ mx_owner mx' = None /\ can_block k' c th' /\
    match first_fit (request s) bs with
    | None => malloc_locked lock s RT_EOK (Sys k1 m) = Some (None, Sys k' m)
    | Some (l, n, r) => exists m1,
        malloc_locked lock s RT_EOK (Sys k1 m) = Some (Some (heap_ptr m + extent l + SIZEOF_STRUCT_MEM), Sys k' m1) /\
        heap_ok (l ++ taken n (request s) ++ r) m1 /\ within (extent l) (extent l + n) m m1
    end.
Proof.
  intros Ho Hh Hs. set (name := o_name (th_object th)). pose proof (smem_alloc_spec (Some name) s bs m Hh Hs) as A.
  assert (exists r m1, rt_smem_alloc (Some name) s m = Some (r, m1)) as (r & m1 & E).
  { destruct (first_fit (request s) bs) as [[[l n] r]|]; [destruct A as (m' & -> & _)|rewrite A]; eauto. }
  destruct (guarded_free lock k m mx c th Hok Hmx Hcb (fun self => rt_smem_alloc self s) r m1 Ho E)
    as (k1 & k' & mx' & th' & E1 & E2 & ? & ? & ? & ?).
  exists k1, k', mx', th'. split_and!; try done. unfold malloc_locked.
  destruct (first_fit (request s) bs) as [[[l n] r']|].
  - destruct A as (m' & A & ? & ?). rewrite E in A. injection A as -> ->. by exists m'.
  - rewrite E in A. by injection A as -> ->.
Qed.

(** C18: [rt_malloc] from a thread. If the heap's mutex is free, the call allocates as
    [rt_smem_alloc] does, under the name of the thread, and the mutex is free
    again; if another thread has it, nothing happens to the heap and the caller
    is suspended in the mutex's waiting list. That the call has a result also says
    that it uses the heap only while it owns the mutex: any other use is undefined
    ([on_heap]). *)
Theorem malloc_correct lock k m mx c th size r m' :
  kernel_ok k -> mutex_ok k lock mx -> can_block k c th ->
  rt_smem_alloc (Some (o_name (th_object th))) size m = Some (r, m') ->
  match mx_owner mx with
  | None => exists k' mx' th', rt_malloc lock size (Sys k m) = Some (Done r, Sys k' m') /\
      kernel_ok k' /\ mutex_ok k' lock mx' /\ mx_owner mx' = None /\ can_block k' c th'
  | Some o => o <> c -> exists k', rt_malloc lock size (Sys k m) = Some (Waits (resumed (malloc_locked lock size)), Sys k' m) /\
      kernel_ok k' /\ mutex_ok k' lock mx /\ highest_running k' /\
      k_threads k' !! c = Some (with_stat RT_THREAD_SUSPEND (set_th_error RT_EOK th)) /\
      c ∈ qget (k_tq k') (QMutex lock)
  end.
Proof.
  intros Hok Hmx Hcb Ea. unfold rt_malloc, malloc_locked. destruct (mx_owner mx) as [o|] eqn:Ho.
  - intros Hne. by apply (guarded_waits lock k m mx c th Hok Hmx Hcb _ o).
  - by apply (guarded_free_done lock k m mx c th Hok Hmx Hcb (fun self => rt_smem_alloc self size)).
Qed.

(** A thread that waited for the heap's mutex allocates when the mutex has been
    handed to it, and hands it on to the next thread that waits. *)
Theorem malloc_resume_correct lock k m mx c th size r m' :
  kernel_ok k -> mutex_ok k lock mx -> can_block k c th -> th_error th = RT_EOK ->
  mx_owner mx = Some c -> mx_hold mx = 1 ->
  rt_smem_alloc (Some (o_name (th_object th))) size m = Some (r, m') ->
  exists k' mx', resumed (malloc_locked lock size) (Sys k m) = Some (Done r, Sys k' m') /\
    kernel_ok k' /\ mutex_ok k' lock mx' /\
    match qget (k_tq k) (QMutex lock) with
    | [] => mx_owner mx' = None
    | t :: l => mx_owner mx' = Some t /\ qget (k_tq k') (QMutex lock) = l /\ highest_running k'
    end.
Proof.
  intros Hok Hmx Hcb He Ho Hh Ea.
  destruct (locked_spec lock k m mx c th Hok Hmx Hcb (fun self => rt_smem_alloc self size) r m' Ho Hh Ea)
    as (k' & mx' & E & Hok' & Hmx' & Hq).
  exists k', mx'. split; [|split; [done|split; [done|]]].
  - assert ((thread ← current_thread; rt_mutex_take_return thread) k = Some (RT_EOK, k)) as E1.
    { unfold current_thread, rt_thread_self, rt_mutex_take_return. mrun. rewrite (cb_current _ _ _ Hcb). cbv beta iota.
      rewrite (get_thread_eq c k th) by apply Hcb. by rewrite He. }
    unfold resumed. rewrite (bind_ok _ _ _ _ _ (lift_k_ok _ _ m _ _ E1)).
    by rewrite (bind_ok _ _ _ _ _ E).
  - destruct (qget (k_tq k) (QMutex lock)); [by destruct Hq|]. by destruct Hq as (? & _ & ? & ?).
Qed.

(** [rt_calloc] gives a block with room for all objects, filled with zeros, as long
    as the product of the sizes is below 2^64. *)
Theorem calloc_correct lock k m mx c th count size bs :
  kernel_ok k -> mutex_ok k lock mx -> can_block k c th -> mx_owner mx = None ->
  heap_ok bs m -> 0 < count * size <= 2 ^ 64 - 4 ->
  exists k' mx' th' m', kernel_ok k' /\ mutex_ok k' lock mx' /\ mx_owner mx' = None /\ can_block k' c th' /\
  match first_fit (request (count * size)) bs with
  | None => rt_calloc lock count size (Sys k m) = Some (Done None, Sys k' m') /\ m' = m
  | Some (l, n, r) =>
      rt_calloc lock count size (Sys k m) =
        Some (Done (Some (heap_ptr m + extent l + SIZEOF_STRUCT_MEM)), Sys k' m') /\
      heap_ok (l ++ taken n (request (count * size)) ++ r) m' /\ within (extent l) (extent l + n) m m' /\
      SIZEOF_STRUCT_MEM + count * size <= n /\
      forall i, 0 <= i < count * size -> sm_bytes m' !! (extent l + SIZEOF_STRUCT_MEM + i) = Some 0
  end.
Proof.
  intros Hok Hmx Hcb Ho Hh Hs. set (s := count * size) in *. destruct (request_spec s Hs) as (Hr & _ & _).
  destruct (malloc_first lock k m mx c th Hok Hmx Hcb s bs Ho Hh Hs) as (k1 & k' & mx' & th' & E1 & ? & ? & ? & ? & A).
  exists k', mx', th'. unfold rt_calloc. rewrite (guarded_eq lock k m k1 _ E1). unfold calloc_locked. fold s.
  rewrite (u64_small s) by lia. destruct (first_fit (request s) bs) as [[[l n] r]|] eqn:Ef.
  2: { exists m. split_and!; try done. by rewrite (bind_ok _ _ _ _ _ (bind_ok _ _ _ _ _ A)). }
  destruct A as (m1 & E & Hok1 & W1). apply first_fit_some in Ef as (-> & Hn & _).
  set (p := extent l + SIZEOF_STRUCT_MEM).
  assert (zlen (replicate (Z.to_nat s) 0) = s) as Ez by (unfold zlen; rewrite length_replicate; lia).
  destruct (write_taken_spec l n r (request s) m1 p (replicate (Z.to_nat s) 0) Hok1 Hn) as (m2 & E2 & Hok2 & W2 & B2);
    [unfold p, sizeof_fields, SIZEOF_STRUCT_MEM; lia|unfold p; lia|].
  exists m2. split_and!; try done.
  - assert (heap_ptr m + extent l + SIZEOF_STRUCT_MEM - heap_ptr m1 = p) as Ep by (rewrite (wi_heap _ _ _ _ W1); unfold p; lia).
    assert (store (heap_ptr m + extent l + SIZEOF_STRUCT_MEM) (replicate (Z.to_nat s) 0) m1 = Some (tt, m2)) as E3.
    { unfold store. by rewrite bind_gets, Ep. }
    erewrite bind_ok; [|rewrite (bind_ok _ _ _ _ _ E); by rewrite (bind_ok _ _ _ _ _ (lift_h_ok _ k' _ _ _ E3))].
    done.
  - transitivity m1; [done|]. rewrite Ez in W2. unfold p, SIZEOF_STRUCT_MEM in *. within_lia.
  - lia.
  - intros i Hi. rewrite B2, put_bytes_lookup by lia.
    apply lookup_replicate_2. lia.
Qed.

(** ** Aligned allocation *)

Lemma align_of_spec x : 0 <= x < 2 ^ 64 - 7 -> align_of x = 8 * ((x + 7) / 8).
Proof.
  intros Hx. unfold align_of, sizeof_ptr. change (8 - 1) with 7. rewrite u64_small by lia.
  change (Z.lnot 7) with (Z.lnot (2 ^ 3 - 1)). by rewrite land_lnot_pow2 by lia.
Qed.

(** The alignment that is used: the one asked for, at least a pointer's. *)
Lemma align_of_pow2 j : 0 <= j < 62 -> align_of (2 ^ j) = 2 ^ (Z.max j 3).
Proof.
  intros Hj. pose proof (Z.pow_lt_mono_r 2 j 62). rewrite align_of_spec by lia.
  destruct (Z.le_gt_cases 3 j).
  - rewrite Z.max_l by lia. replace j with (3 + (j - 3)) by lia. rewrite Z.pow_add_r by lia.
    change (2 ^ 3) with 8. dlia.
  - rewrite Z.max_r by lia. assert (j = 0 \/ j = 1 \/ j = 2) as [-> | [-> | ->]] by lia; reflexivity.
Qed.

(** The aligned address is a little behind [ptr]. *)
Lemma aligned_address_spec ptr j :
  3 <= j < 62 -> 0 <= ptr < 2 ^ 63 -> ptr mod 4 = 0 ->
  let p := aligned_address ptr (2 ^ j) in p mod 2 ^ j = 0 /\ ptr + 4 <= p <= ptr + 2 ^ j.
Proof.
  intros Hj Hp Hp4 p. pose proof (Z.pow_lt_mono_r 2 j 62). assert (0 < 2 ^ j) as H0 by (apply Z.pow_pos_nonneg; lia).
  assert (2 ^ j mod 8 = 0) as H8.
  { replace j with (3 + (j - 3)) by lia. rewrite Z.pow_add_r by lia. change (2 ^ 3) with 8. dlia. }
  unfold p, aligned_address. rewrite land_pow2, land_lnot_pow2 by lia. set (a := 2 ^ j) in *.
  pose proof (Z.div_mod ptr a). pose proof (Z.mod_pos_bound ptr a).
  destruct (Z.eqb_spec (ptr mod a) 0) as [E|E].
  - rewrite u64_small by lia. split; [|dlia]. rewrite Z.add_mod, E, Z.mod_same by lia. by rewrite Z.mod_0_l by lia.
  - rewrite u64_small by lia. pose proof (Z.div_mod (ptr + (a - 1)) a). pose proof (Z.mod_pos_bound (ptr + (a - 1)) a).
    split; [by rewrite Z.mul_comm, Z.mod_mul by lia|]. set (q := (ptr + (a - 1)) / a) in *.
    assert (a * q = 8 * (a / 8 * q)) as Eq by (replace a with (8 * (a / 8)) at 1 by dlia; lia).
    assert (a * q <> ptr).
    { intros Hc. apply E. rewrite <- Hc, Z.mul_comm. apply Z.mod_mul. lia. }
    set (t := a / 8 * q) in *. dlia.
Qed.

Lemma le_bytes_range n x : 0 <= x -> Forall (fun b => 0 <= b < 256) (le_bytes n x).
Proof. revert x. induction n as [|n IH]; intros x Hx; simpl; [done|]. constructor; [dlia|apply IH; dlia]. Qed.

(** Bytes read back from where they were written. *)
Lemma read_written p data bytes m m2 :
  (forall i, 0 <= i < zlen data -> byte_at m2 (p + i) = byte_at m (p + i)) ->
  sm_bytes m = put_bytes p data bytes ->
  read_bytes p (zlen data) m2 = Some (data, m2).
Proof.
  intros Hb Hm. rewrite read_bytes_eq. f_equal. f_equal. apply list_eq. intros i.
  destruct (decide (i < length data)%nat) as [Hi|Hi].
  - replace i with (Z.to_nat (Z.of_nat i)) by lia.
    rewrite read_lookup by (unfold zlen; lia). rewrite Hb by (unfold zlen; lia). unfold byte_at.
    rewrite Hm, put_bytes_lookup by (unfold zlen; lia). rewrite Nat2Z.id.
    destruct (lookup_lt_is_Some_2 data i Hi) as [x ->]. done.
  - rewrite !lookup_ge_None_2; [done|lia|]. rewrite length_map, length_seqZ. unfold zlen. lia.
Qed.

(** Freeing what [rt_malloc_align] gave: [bytes] is the memory it left. *)
Lemma free_align_spec lock k m mx c th l len r p bytes m1 :
  kernel_ok k -> mutex_ok k lock mx -> can_block k c th -> mx_owner mx = None ->
  heap_ok (l ++ (len, true) :: r) m -> 0 < heap_ptr m ->
  let ptr := heap_ptr m + extent l + SIZEOF_STRUCT_MEM in
  let q := p - sizeof_ptr - heap_ptr m in
  sm_bytes m1 = put_bytes q (le_bytes 8 ptr) bytes ->
  (forall i, 0 <= i < sizeof_ptr -> byte_at m (q + i) = byte_at m1 (q + i)) ->
  exists k' mx' th' m', rt_free_align lock (Some p) (Sys k m) = Some (Done tt, Sys k' m') /\
    heap_ok (freed l len r) m' /\ kernel_ok k' /\ mutex_ok k' lock mx' /\ mx_owner mx' = None /\ can_block k' c th'.
Proof.
  intros Hok Hmx Hcb Ho Hh Hp ptr q Eb Hb. destruct (smem_free_spec l len r m Hh) as (m' & E & Hh' & W). fold ptr in E.
  destruct (guarded_free_done lock k m mx c th Hok Hmx Hcb (fun _ => rt_smem_free (Some ptr)) tt m' Ho E)
    as (k' & mx' & th' & E' & ?).
  exists k', mx', th', m'. split; [|done]. unfold rt_free_align.
  assert ((heap ← gets heap_ptr; read_bytes (p - sizeof_ptr - heap) sizeof_ptr) m = Some (le_bytes 8 ptr, m)) as E1.
  { rewrite bind_gets. fold q. apply (read_written q (le_bytes 8 ptr) bytes m1 m); [exact Hb|exact Eb]. }
  destruct (block_place l len true r m (ho_struct _ _ Hh)) as (? & _ & ? & ?).
  destruct (hs_heap _ _ (ho_struct _ _ Hh)) as (? & _ & ?).
  destruct (used_block_size _ _ _ _ Hh) as (_ & _ & _ & Hroom & _).
  rewrite (bind_ok _ _ _ _ _ (lift_h_ok _ k _ _ _ E1)). rewrite le_value_bytes.
  2: { change (256 ^ Z.of_nat 8) with (2 ^ 64). unfold ptr, SIZEOF_STRUCT_MEM in *. lia. }
  rewrite (proj2 (Z.eqb_neq ptr 0)) by (unfold ptr, SIZEOF_STRUCT_MEM in *; lia). exact E'.
Qed.

Lemma pow2_divides p j : 0 <= j -> p mod 2 ^ (Z.max j 3) = 0 -> p mod 2 ^ j = 0.
Proof.
  intros Hj Hp. assert (0 < 2 ^ j) by (apply Z.pow_pos_nonneg; lia).
  assert (0 < 2 ^ (Z.max j 3)) by (apply Z.pow_pos_nonneg; lia).
  apply Z.mod_divide; [lia|]. apply Z.mod_divide in Hp; [|lia]. etransitivity; [|exact Hp].
  exists (2 ^ (Z.max j 3 - j)). rewrite <- Z.pow_add_r by lia. f_equal. lia.
Qed.

(** The pointer is stored before the aligned address, inside the new block. *)
Lemma malloc_align_store m l n r m1 s j :
  heap_ok (l ++ (n, false) :: r) m -> heap_ok (l ++ taken n (request s) ++ r) m1 ->
  within (extent l) (extent l + n) m m1 -> heap_ptr m + heap_end m < 2 ^ 63 -> 3 <= j < 62 ->
  SIZEOF_STRUCT_MEM + request s <= n -> 2 ^ j <= request s ->
  let ptr := heap_ptr m + extent l + SIZEOF_STRUCT_MEM in
  let p := aligned_address ptr (2 ^ j) in
  exists m2, store (p - sizeof_ptr) (le_bytes 8 ptr) m1 = Some (tt, m2) /\
    heap_ok (l ++ taken n (request s) ++ r) m2 /\ within (extent l) (extent l + n) m1 m2 /\
    sm_bytes m2 = put_bytes (p - sizeof_ptr - heap_ptr m) (le_bytes 8 ptr) (sm_bytes m1) /\
    p mod 2 ^ j = 0 /\ ptr + 4 <= p <= ptr + 2 ^ j.
Proof.
  intros Hh Hok1 W1 H63 Hj Hn Hs ptr p.
  destruct (block_place l n false r m (ho_struct _ _ Hh)) as (H0 & H4 & Hr & He).
  destruct (hs_heap _ _ (ho_struct _ _ Hh)) as (Hh0 & Hh4 & _).
  destruct (aligned_address_spec ptr j) as (Hpa & Hpp); [done| |unfold ptr, SIZEOF_STRUCT_MEM; dlia|].
  { unfold ptr, SIZEOF_STRUCT_MEM in *. pose proof (Z.pow_pos_nonneg 2 j). lia. }
  fold p in Hpa, Hpp. pose proof (le_bytes_length 8 ptr) as Hl. unfold sizeof_ptr.
  destruct (write_taken_spec l n r (request s) m1 (p - 8 - heap_ptr m) (le_bytes 8 ptr) Hok1 Hn) as (m2 & E2 & Hok2 & W2 & B2);
    [unfold ptr, sizeof_fields, SIZEOF_STRUCT_MEM in *; lia|unfold ptr, SIZEOF_STRUCT_MEM in *; lia|].
  exists m2. split_and!; try done; try lia.
  - unfold store. by rewrite bind_gets, (wi_heap _ _ _ _ W1).
  - rewrite Hl in W2. unfold ptr, SIZEOF_STRUCT_MEM in *. within_lia.
Qed.

(** C19: [rt_malloc_align] gives an address that is a multiple of the alignment asked for,
    with room for [size] bytes behind it inside a new block; and
    [rt_free_align] gives that block back, whenever it is called, as long as
    the eight bytes before the address are left alone. *)
Theorem malloc_align_correct lock k m mx c th size j bs :
  kernel_ok k -> mutex_ok k lock mx -> can_block k c th -> mx_owner mx = None ->
  heap_ok bs m -> 0 < heap_ptr m -> heap_ptr m + heap_end m < 2 ^ 63 -> 0 < size < 2 ^ 62 -> 0 <= j < 62 ->
  exists k' mx' th' m', kernel_ok k' /\ mutex_ok k' lock mx' /\ mx_owner mx' = None /\ can_block k' c th' /\
  match first_fit (request (align_of size + align_of (2 ^ j))) bs with
  | None => rt_malloc_align lock size (2 ^ j) (Sys k m) = Some (Done None, Sys k' m') /\ m' = m
  | Some (l, n, r) => exists p,
      rt_malloc_align lock size (2 ^ j) (Sys k m) = Some (Done (Some p), Sys k' m') /\
      p mod 2 ^ j = 0 /\ heap_ptr m + extent l + SIZEOF_STRUCT_MEM < p /\ p + size <= heap_ptr m + extent l + n /\
      heap_ok (l ++ taken n (request (align_of size + align_of (2 ^ j))) ++ r) m' /\
      within (extent l) (extent l + n) m m' /\
      forall k2 m2 mx2 th2 l2 n2 r2,
        kernel_ok k2 -> mutex_ok k2 lock mx2 -> can_block k2 c th2 -> mx_owner mx2 = None ->
        heap_ok (l2 ++ (n2, true) :: r2) m2 -> extent l2 = extent l -> heap_ptr m2 = heap_ptr m ->
        (forall i, 0 <= i < sizeof_ptr ->
           byte_at m2 (p - sizeof_ptr - heap_ptr m + i) = byte_at m' (p - sizeof_ptr - heap_ptr m + i)) ->
        exists k3 m3, rt_free_align lock (Some p) (Sys k2 m2) = Some (Done tt, Sys k3 m3) /\
          heap_ok (freed l2 n2 r2) m3
  end.
Proof.
  intros Hok Hmx Hcb Ho Hh Hp0 Hp63 Hsz Hj. pose proof (Z.pow_lt_mono_r 2 j 62).
  assert (0 < 2 ^ j) by (apply Z.pow_pos_nonneg; lia).
  set (a := align_of (2 ^ j)). set (s := align_of size + a).
  assert (a = 2 ^ Z.max j 3) as Ea by (by apply align_of_pow2).
  assert (8 <= a < 2 ^ 62) as Ha.
  { rewrite Ea. split; [apply (Z.pow_le_mono_r 2 3); lia|apply Z.pow_lt_mono_r; lia]. }
  assert (size <= align_of size < 2 ^ 62 + 8) as Hal by (rewrite align_of_spec by lia; dlia).
  assert (0 < s <= 2 ^ 64 - 4) as Hs by (unfold s; lia). destruct (request_spec s Hs) as (Hr & _ & _).
  destruct (malloc_first lock k m mx c th Hok Hmx Hcb s bs Ho Hh Hs) as (k1 & k' & mx' & th' & E1 & ? & ? & ? & ? & A).
  exists k', mx', th'. unfold rt_malloc_align. rewrite (guarded_eq lock k m k1 _ E1). unfold malloc_align_locked.
  fold a. fold s. rewrite (u64_small s) by lia. destruct (first_fit (request s) bs) as [[[l n] r]|] eqn:Ef.
  2: { exists m. split_and!; try done. by rewrite (bind_ok _ _ _ _ _ (bind_ok _ _ _ _ _ A)). }
  destruct A as (m1 & E & Hok1 & W1). apply first_fit_some in Ef as (-> & Hn & _).
  set (ptr := heap_ptr m + extent l + SIZEOF_STRUCT_MEM) in *. set (p := aligned_address ptr a).
  destruct (malloc_align_store m l n r m1 s (Z.max j 3) Hh Hok1 W1) as (m2 & E2 & Hok2 & W2 & B2 & Hpa & Hpp);
    [lia|lia|lia|rewrite <- Ea; transitivity s; [unfold s; lia|done]|].
  rewrite <- Ea in E2, B2, Hpp, Hpa. fold ptr p in E2, B2, Hpp, Hpa. rewrite Ea in Hpa.
  exists m2. do 4 (split; [done|]). exists p. split_and!; try done; try lia.
  - assert (lift_h (store (p - sizeof_ptr) (le_bytes 8 ptr)) (Sys k' m1) = Some (tt, Sys k' m2)) as E3 by by apply lift_h_ok.
    erewrite bind_ok; [|rewrite (bind_ok _ _ _ _ _ E); by rewrite (bind_ok _ _ _ _ _ E3)]. done.
  - apply (pow2_divides p j); [lia|done].
  - by transitivity m1.
  - intros k2 m3 mx2 th2 l2 n2 r2 ? Hmx2 Hcb2 Ho2 Hh2 El2 Ehp Hb.
    destruct (free_align_spec lock k2 m3 mx2 c th2 l2 n2 r2 p (sm_bytes m1) m2) as (k3 & _ & _ & m4 & ? & ? & _);
      try done; rewrite ?Ehp, ?El2; [done|exact B2|exact Hb|]. by exists k3, m4.
Qed.

(** ** Witnesses: the main thread, with mutex 0 as the heap's *)

Lemma lock_demo_ok : kernel_ok mutex_demo /\ mutex_ok mutex_demo 0 (mutex_at 0 mutex_demo) /\
  can_block mutex_demo 0 (thread_at 0 mutex_demo) /\ mx_owner (mutex_at 0 mutex_demo) = None.
Proof.
  split; [|split; [|split]].
  - apply kernel_check_sound. vm_compute. reflexivity.
  - constructor; [vm_compute; reflexivity|vm_compute; reflexivity|vm_compute; reflexivity|].
    vm_compute. split_and!; congruence.
  - constructor; vm_compute; reflexivity.
  - vm_compute. reflexivity.
Qed.

Lemma lock_demo_held_ok : kernel_ok mutex_demo_held /\ mutex_ok mutex_demo_held 0 (mutex_at 0 mutex_demo_held) /\
  can_block mutex_demo_held 0 (thread_at 0 mutex_demo_held) /\
  th_error (thread_at 0 mutex_demo_held) = RT_EOK /\ mx_owner (mutex_at 0 mutex_demo_held) = Some 0%nat /\
  mx_hold (mutex_at 0 mutex_demo_held) = 1 /\ qget (k_tq mutex_demo_held) (QMutex 0) = [].
Proof.
  split; [|split; [|split]].
  - apply kernel_check_sound. vm_compute. reflexivity.
  - constructor; [vm_compute; reflexivity|vm_compute; reflexivity|vm_compute; reflexivity|].
    vm_compute. split_and!; try congruence. eexists. split; [reflexivity|discriminate].
  - constructor; vm_compute; reflexivity.
  - vm_compute. by split_and!.
Qed.

Lemma malloc_correct_witness :
  exists k' m', rt_malloc 0 100 (Sys mutex_demo demo_heap) =
      Some (Done (Some (heap_ptr demo_heap + 0 + SIZEOF_STRUCT_MEM)), Sys k' m') /\
    kernel_ok k' /\ heap_ok [(140, true); (740, false)] m'.
Proof.
  destruct lock_demo_ok as (Hk & Hm & Hc & Ho).
  destruct (smem_alloc_spec (Some (o_name (th_object (thread_at 0 mutex_demo)))) 100 _ _ demo_heap_ok)
    as (m' & E & Hok & _); [split; [reflexivity|discriminate]|].
  pose proof (malloc_correct 0 mutex_demo demo_heap _ 0 _ 100 _ m' Hk Hm Hc E) as H.
  rewrite Ho in H. destruct H as (k' & _ & _ & E' & Hk' & _). exists k', m'. split; [exact E'|]. split; [exact Hk'|exact Hok].
Defined.

Lemma malloc_resume_correct_witness :
  exists k' m', resumed (malloc_locked 0 100) (Sys mutex_demo_held demo_heap) =
      Some (Done (Some (heap_ptr demo_heap + 0 + SIZEOF_STRUCT_MEM)), Sys k' m') /\ kernel_ok k' /\
    exists mx', mutex_ok k' 0 mx' /\ mx_owner mx' = None.
Proof.
  destruct lock_demo_held_ok as (Hk & Hm & Hc & He & Ho & Hh & Hq).
  destruct (smem_alloc_spec (Some (o_name (th_object (thread_at 0 mutex_demo_held)))) 100 _ _ demo_heap_ok)
    as (m' & E & Hok & _); [split; [reflexivity|discriminate]|].
  destruct (malloc_resume_correct 0 mutex_demo_held demo_heap _ 0 _ 100 _ m' Hk Hm Hc He Ho Hh E)
    as (k' & mx' & E' & Hk' & Hm' & Hq'). rewrite Hq in Hq'.
  exists k', m'. split; [exact E'|]. split; [exact Hk'|]. exists mx'. split; assumption.
Defined.

Lemma calloc_correct_witness :
  exists k' m', rt_calloc 0 10 10 (Sys mutex_demo demo_heap) =
      Some (Done (Some (heap_ptr demo_heap + 0 + SIZEOF_STRUCT_MEM)), Sys k' m') /\ kernel_ok k' /\
    forall i, 0 <= i < 100 -> sm_bytes m' !! (40 + i) = Some 0.
Proof.
  destruct lock_demo_ok as (Hk & Hm & Hc & Ho).
  destruct (calloc_correct 0 mutex_demo demo_heap _ 0 _ 10 10 _ Hk Hm Hc Ho demo_heap_ok)
    as (k' & _ & _ & m' & Hk' & _ & _ & _ & E & _ & _ & _ & Hz); [split; [reflexivity|discriminate]|].
  exists k', m'. split; [exact E|]. split; [exact Hk'|exact Hz].
Defined.

Lemma malloc_align_correct_witness :
  exists k' m' p, rt_malloc_align 0 100 (2 ^ 6) (Sys mutex_demo demo_heap) = Some (Done (Some p), Sys k' m') /\
    p mod 64 = 0 /\ heap_ok [(208, true); (672, false)] m'.
Proof.
  destruct lock_demo_ok as (Hk & Hm & Hc & Ho).
  assert (0 < heap_ptr demo_heap /\ heap_ptr demo_heap + heap_end demo_heap < 2 ^ 63) as [H1 H2]
    by (vm_compute; split; reflexivity).
  destruct (malloc_align_correct 0 mutex_demo demo_heap _ 0 _ 100 6 _ Hk Hm Hc Ho demo_heap_ok H1 H2)
    as (k' & _ & _ & m' & _ & _ & _ & _ & p & E & Hp & _ & _ & Hok & _);
    [split; reflexivity|split; [discriminate|reflexivity]|].
  exists k', m', p. split; [exact E|]. split; [exact Hp|exact Hok].
Defined.
