(* ===== verification/Memheap.v ===== *)
(** * Memory heaps

    [src/memheap.c]. The blocks of a heap are linked in a circle, in the order of
    their addresses, and the free ones in another circle, whose head is in the
    control block. Memory has two views, as in Mem.v: [mh_items] has the
    headers, by address, that of the free list among them, and [mh_bytes] all
    other bytes. Writing a header forgets the bytes and headers it overlaps, and
    writing bytes the headers they overlap. *)
From S2P Require Import Prelude Kservice Kernel Sched Object Timer Thread KernelInv Ipc IpcSem Sys Mem.

Record rt_memheap_item := MemheapItem {
  mi_magic : Z;
  mi_pool : Z;
  mi_next : Z;
  mi_prev : Z;
  mi_next_free : Z;
  mi_prev_free : Z;
  mi_owner : list Z
}.

Record rt_memheap := Memheap {
  mh_parent : rt_object;
  mh_address : Z;                 (* of the control block *)
  start_addr : Z;
  pool_size : Z;
  available_size : Z;
  max_used_size : Z;
  block_list : Z;
  free_list : Z;
  mh_locked : bool;
  mh_items : gmap Z rt_memheap_item;
  mh_bytes : gmap Z Z
}.

Abbreviation N := (St rt_memheap).

Definition set_items (items : gmap Z rt_memheap_item) (bytes : gmap Z Z) (m : rt_memheap) : rt_memheap :=
  Memheap (mh_parent m) (mh_address m) (start_addr m) (pool_size m) (available_size m) (max_used_size m)
    (block_list m) (free_list m) (mh_locked m) items bytes.
Definition set_available (available max : Z) (m : rt_memheap) : rt_memheap :=
  Memheap (mh_parent m) (mh_address m) (start_addr m) (pool_size m) available max
    (block_list m) (free_list m) (mh_locked m) (mh_items m) (mh_bytes m).
Definition set_mh_parent (parent : rt_object) (m : rt_memheap) : rt_memheap :=
  Memheap parent (mh_address m) (start_addr m) (pool_size m) (available_size m) (max_used_size m)
    (block_list m) (free_list m) (mh_locked m) (mh_items m) (mh_bytes m).

Definition RT_MEMHEAP_MAGIC : Z := 0x1ea01ea0.
Definition RT_MEMHEAP_MASK : Z := 0xFFFFFFFE.
Definition RT_MEMHEAP_USED : Z := 1.
Definition RT_MEMHEAP_FREED : Z := 0.
Definition RT_MEMHEAP_MINIALLOC : Z := 12.
(** [sizeof(struct rt_memheap_item)], and what of it is not padding. *)
Definition RT_MEMHEAP_SIZE : Z := RT_ALIGN 56 RT_ALIGN_SIZE.
Definition sizeof_item : Z := 52.
(** The offset of [free_header] in [struct rt_memheap]. *)
Definition free_header (m : rt_memheap) : Z := mh_address m + 80.

Definition RT_MEMHEAP_IS_USED (i : rt_memheap_item) : bool := negb (Z.land (mi_magic i) RT_MEMHEAP_USED =? 0).
Definition used_magic : Z := Z.lor RT_MEMHEAP_MAGIC RT_MEMHEAP_USED.
Definition freed_magic : Z := Z.lor RT_MEMHEAP_MAGIC RT_MEMHEAP_FREED.

(** ** Headers *)

Definition set_mi_magic (x : Z) (i : rt_memheap_item) : rt_memheap_item :=
  MemheapItem x (mi_pool i) (mi_next i) (mi_prev i) (mi_next_free i) (mi_prev_free i) (mi_owner i).
Definition set_mi_next (x : Z) (i : rt_memheap_item) : rt_memheap_item :=
  MemheapItem (mi_magic i) (mi_pool i) x (mi_prev i) (mi_next_free i) (mi_prev_free i) (mi_owner i).
Definition set_mi_prev (x : Z) (i : rt_memheap_item) : rt_memheap_item :=
  MemheapItem (mi_magic i) (mi_pool i) (mi_next i) x (mi_next_free i) (mi_prev_free i) (mi_owner i).
Definition set_mi_next_free (x : Z) (i : rt_memheap_item) : rt_memheap_item :=
  MemheapItem (mi_magic i) (mi_pool i) (mi_next i) (mi_prev i) x (mi_prev_free i) (mi_owner i).
Definition set_mi_prev_free (x : Z) (i : rt_memheap_item) : rt_memheap_item :=
  MemheapItem (mi_magic i) (mi_pool i) (mi_next i) (mi_prev i) (mi_next_free i) x (mi_owner i).
Definition set_mi_owner (x : list Z) (i : rt_memheap_item) : rt_memheap_item :=
  MemheapItem (mi_magic i) (mi_pool i) (mi_next i) (mi_prev i) (mi_next_free i) (mi_prev_free i) x.

Definition get_mi (p : Z) : N rt_memheap_item := i ← gets (fun m => mh_items m !! p); deref i.
Definition upd_mi (p : Z) (f : rt_memheap_item -> rt_memheap_item) : N unit :=
  i ← get_mi p;
  modify (fun m => set_items (<[p := f i]> (mh_items m)) (mh_bytes m) m).

(** A header of which only the magic number, the pool and the owner are known. *)
Definition away (p size q : Z) : Prop := q + sizeof_item <= p \/ p + size <= q.
#[export] Instance away_dec p size q : Decision (away p size q).
Proof. unfold away. apply _. Defined.
Definition new_mi (p magic : Z) (owner : list Z) : N unit :=
  modify (fun m =>
    set_items (<[p := MemheapItem magic (mh_address m) 0 0 0 0 owner]>
        (filter (fun x => away p sizeof_item x.1) (mh_items m)))
      (filter (fun x => ~ (p <= x.1 < p + sizeof_item)) (mh_bytes m)) m).

Definition MEMITEM_SIZE (p : Z) : N Z := i ← get_mi p; mret (u64 (mi_next i - p - RT_MEMHEAP_SIZE)).

(** The item at [p] is put first on the free list, or taken off it. *)
Definition link_free (p : Z) : N unit :=
  f ← gets free_list;
  i ← get_mi f; upd_mi p (set_mi_next_free (mi_next_free i));;
  upd_mi p (set_mi_prev_free f);;
  i ← get_mi f; upd_mi (mi_next_free i) (set_mi_prev_free p);;
  upd_mi f (set_mi_next_free p).
Definition unlink_free (p : Z) : N unit :=
  i ← get_mi p; upd_mi (mi_next_free i) (set_mi_prev_free (mi_prev_free i));;
  i ← get_mi p; upd_mi (mi_prev_free i) (set_mi_next_free (mi_next_free i)).

Definition forget_free (p : Z) : N unit :=
  upd_mi p (set_mi_next_free 0);;
  upd_mi p (set_mi_prev_free 0).

(** The end of the block at [header] becomes a free block at [new]. *)
Definition cut_item (header new : Z) : N unit :=
  new_mi new freed_magic blank_name;;
  upd_mi new (set_mi_prev header);;
  i ← get_mi header; upd_mi new (set_mi_next (mi_next i));;
  i ← get_mi header; upd_mi (mi_next i) (set_mi_prev new);;
  upd_mi header (set_mi_next new).

(** [x] bytes are taken. *)
Definition take_available (x : Z) : N unit :=
  modify (fun m =>
    let available := u64 (available_size m - x) in
    let used := u64 (pool_size m - available) in
    set_available available (if max_used_size m <? used then used else max_used_size m) m).
Definition give_available (x : Z) : N unit :=
  modify (fun m => set_available (u64 (available_size m + x)) (max_used_size m) m).

(** ** memheap.c *)

Definition _remove_next_ptr (next_ptr : Z) : N unit :=
  unlink_free next_ptr;;
  i ← get_mi next_ptr; upd_mi (mi_next i) (set_mi_prev (mi_prev i));;
  i ← get_mi next_ptr; upd_mi (mi_prev i) (set_mi_next (mi_next i)).

(** The memory part of [rt_memheap_init], with the control block at [memheap]. *)
Definition memheap_setup (memheap : Z) (name : list Z) (start size : Z) : option rt_memheap :=
  let pool := RT_ALIGN_DOWN size RT_ALIGN_SIZE in
  let available := u64 (pool - 2 * RT_MEMHEAP_SIZE) in
  let h := RtObject (rt_strncpy name RT_NAME_MAX) (Z.lor RT_Object_Class_MemHeap RT_Object_Class_Static) 0 in
  let m := Memheap h memheap start pool available (u64 (pool - available)) start (memheap + 80) false ∅ ∅ in
  let header := memheap + 80 in
  snd <$>
    (new_mi header freed_magic [0; 0; 0; 0];;
     upd_mi header (set_mi_next_free header);;
     upd_mi header (set_mi_prev_free header);;
     new_mi start freed_magic blank_name;;
     upd_mi start (set_mi_next_free start);;
     upd_mi start (set_mi_prev_free start);;
     upd_mi start (set_mi_next (u64 (start + available + RT_MEMHEAP_SIZE)));;
     i ← get_mi start; upd_mi start (set_mi_prev (mi_next i));;
     link_free start;;
     i ← get_mi start;
     let item := mi_next i in
     new_mi item used_magic [0; 0; 0; 0];;
     upd_mi item (set_mi_next start);;
     upd_mi item (set_mi_prev start)) m.

(** The search of [rt_memheap_alloc]: where it ends, and the last size it saw. *)
Fixpoint find_loop (fuel : nat) (header_ptr free_size size : Z) : N (Z * Z) :=
  match fuel with
  | O => fun _ => None
  | S fuel =>
      f ← gets free_list;
      if negb (header_ptr =? f) && (free_size <? size) then
        free_size ← MEMITEM_SIZE header_ptr;
        if free_size <? size then
          i ← get_mi header_ptr;
          find_loop fuel (mi_next_free i) free_size size
        else find_loop fuel header_ptr free_size size
      else mret (header_ptr, free_size)
  end.

(** A round for every place a header can be at, one that stops, one more. *)
Definition memheap_fuel (m : rt_memheap) : nat := Z.to_nat (pool_size m / RT_MEMHEAP_SIZE + 3).

Definition owner_name (self : option (list Z)) : list Z := take 4 (default none_name self).

(** The free block at [header_ptr] of [free_size] bytes is taken off the free
    list, or its first [size] bytes are. *)
Definition carve (header_ptr free_size size : Z) : N unit :=
  if u64 (size + RT_MEMHEAP_SIZE + RT_MEMHEAP_MINIALLOC) <=? free_size then
    let new_ptr := u64 (header_ptr + size + RT_MEMHEAP_SIZE) in
    cut_item header_ptr new_ptr;;
    unlink_free header_ptr;;
    forget_free header_ptr;;
    link_free new_ptr;;
    take_available (size + RT_MEMHEAP_SIZE)
  else
    take_available free_size;;
    unlink_free header_ptr;;
    forget_free header_ptr.

Definition take_block (self : option (list Z)) (header_ptr free_size size : Z) : N Z :=
  carve header_ptr free_size size;;
  upd_mi header_ptr (set_mi_magic used_magic);;
  upd_mi header_ptr (set_mi_owner (owner_name self));;
  mret (u64 (header_ptr + RT_MEMHEAP_SIZE)).

(** What [rt_memheap_alloc] does between taking and releasing the lock. *)
Definition alloc_block (self : option (list Z)) (size : Z) : N (option Z) :=
  f ← gets free_list;
  i ← get_mi f;
  fuel ← gets memheap_fuel;
  r ← find_loop fuel (mi_next_free i) 0 size;
  if size <=? r.2 then p ← take_block self r.1 r.2 size; mret (Some p) else mret None.

(** The free item at [header_ptr] joins the free one before it, or the one behind
    it. *)
Definition merge_left (header_ptr : Z) : N Z :=
  give_available RT_MEMHEAP_SIZE;;
  i ← get_mi header_ptr; upd_mi (mi_prev i) (set_mi_next (mi_next i));;
  i ← get_mi header_ptr; upd_mi (mi_next i) (set_mi_prev (mi_prev i));;
  i ← get_mi header_ptr; mret (mi_prev i).
Definition merge_right (header_ptr : Z) : N unit :=
  give_available RT_MEMHEAP_SIZE;;
  i ← get_mi header_ptr;
  let new_ptr := mi_next i in
  ni ← get_mi new_ptr; upd_mi (mi_next ni) (set_mi_prev header_ptr);;
  ni ← get_mi new_ptr; upd_mi header_ptr (set_mi_next (mi_next ni));;
  unlink_free new_ptr.

(** [header_ptr] goes before the first item of the free list. *)
Definition insert_header (header_ptr : Z) : N unit :=
  f ← gets free_list;
  i ← get_mi f;
  let n := mi_next_free i in
  upd_mi header_ptr (set_mi_next_free n);;
  ni ← get_mi n; upd_mi header_ptr (set_mi_prev_free (mi_prev_free ni));;
  ni ← get_mi n; upd_mi (mi_prev_free ni) (set_mi_next_free header_ptr);;
  upd_mi n (set_mi_prev_free header_ptr).

Definition assert_memheap : N unit :=
  type ← gets (fun m => o_type (mh_parent m));
  rt_assert (u8 (Z.land type (Z.lnot RT_Object_Class_Static)) =? RT_Object_Class_MemHeap).

(** [rt_memheap_free] before it takes the lock; the heap is found through the
    item, and is this one. *)
Definition check_block (header_ptr : Z) : N unit :=
  i ← get_mi header_ptr;
  rt_assert (mi_magic i =? used_magic);;
  ni ← get_mi (mi_next i);
  rt_assert (Z.land (mi_magic ni) RT_MEMHEAP_MASK =? RT_MEMHEAP_MAGIC);;
  heap ← gets mh_address;
  rt_assert (mi_pool i =? heap);;
  assert_memheap.

Definition free_block (header_ptr : Z) : N unit :=
  upd_mi header_ptr (set_mi_magic freed_magic);;
  size ← MEMITEM_SIZE header_ptr; give_available size;;
  i ← get_mi header_ptr;
  pi ← get_mi (mi_prev i);
  let left := negb (RT_MEMHEAP_IS_USED pi) in
  header_ptr ← (if left then merge_left header_ptr else mret header_ptr);
  i ← get_mi header_ptr;
  ni ← get_mi (mi_next i);
  when (negb (RT_MEMHEAP_IS_USED ni)) (merge_right header_ptr);;
  when (negb left) (insert_header header_ptr);;
  upd_mi header_ptr (set_mi_owner blank_name).

(** The block at [header_ptr] grows into the free one behind it, if that is large
    enough: whether it did. *)
Definition grow_block (header_ptr oldsize newsize : Z) : N bool :=
  i ← get_mi header_ptr;
  let next_ptr := mi_next i in
  rt_assert (header_ptr <? next_ptr);;
  ni ← get_mi next_ptr;
  if negb (RT_MEMHEAP_IS_USED ni) then
    size ← MEMITEM_SIZE next_ptr;
    let nextsize := s32 size in
    if u64 (newsize + RT_MEMHEAP_MINIALLOC) <? u64 (nextsize + oldsize) then
      take_available (u64 (newsize - oldsize));;
      _remove_next_ptr next_ptr;;
      let next_ptr := u64 (header_ptr + RT_MEMHEAP_SIZE + newsize) in
      cut_item header_ptr next_ptr;;
      link_free next_ptr;;
      mret true
    else mret false
  else mret false.

(** The end of the block at [header_ptr], behind [newsize] bytes, is given back. *)
Definition shrink_block (header_ptr newsize : Z) : N unit :=
  let new_ptr := u64 (header_ptr + newsize + RT_MEMHEAP_SIZE) in
  cut_item header_ptr new_ptr;;
  i ← get_mi new_ptr;
  let free_ptr := mi_next i in
  fi ← get_mi free_ptr;
  when (negb (RT_MEMHEAP_IS_USED fi))
    (size ← MEMITEM_SIZE free_ptr; give_available (- size);;
     fi ← get_mi free_ptr; upd_mi (mi_next fi) (set_mi_prev new_ptr);;
     fi ← get_mi free_ptr; upd_mi new_ptr (set_mi_next (mi_next fi));;
     unlink_free free_ptr);;
  link_free new_ptr;;
  size ← MEMITEM_SIZE new_ptr; give_available size.

(** Bytes read and written; one that nobody has written reads as any byte. *)
Definition mh_read (p n : Z) : N (list Z) :=
  gets (fun m => map (fun i => default 0 (mh_bytes m !! (p + i))) (seqZ 0 n)).
Definition mh_write (p : Z) (l : list Z) : N unit :=
  modify (fun m =>
    set_items (filter (fun x => away p (zlen l) x.1) (mh_items m)) (put_bytes p l (mh_bytes m)) m).

(** ** The calls, which take the lock *)

Section memheap.
Context (lock : nat).

Abbreviation Y := (St (sys rt_memheap)).
Abbreviation called := (call (sys rt_memheap)).

Definition rt_memheap_init (memheap : Z) (name : list Z) (start size : Z) (k : kstate)
    : option (Z * sys rt_memheap) :=
  match memheap_setup memheap name start size, rt_sem_init lock name 1 RT_IPC_FLAG_PRIO k with
  | Some m, Some (_, k) => Some (RT_EOK, Sys k m)
  | _, _ => None
  end.

(** The list of all heaps is not part of the state. *)
Definition rt_memheap_detach : Y Z :=
  lift_h assert_memheap;;
  lift_h (type ← gets (fun m => o_type (mh_parent m)); rt_assert (negb (Z.land type RT_Object_Class_Static =? 0)));;
  lift_k (rt_sem_detach lock);;
  lift_h (modify (fun m => set_mh_parent (set_o_type 0 (mh_parent m)) m));;
  mret RT_EOK.

(** [body] with the lock; [error] is the result if the lock cannot be taken. *)
Definition entered {A} (error : A) (body : Y (called A)) (result : Z) : Y (called A) :=
  if negb (result =? RT_EOK) then lift_k (rt_set_errno result);; mret (Done error) else body.
(** The same for a call that had to wait, when its thread runs again. *)
Definition resumed {A} (error : A) (body : Y (called A)) : Y (called A) :=
  result ← lift_k (thread ← current_thread; rt_sem_take_return thread);
  entered error body result.
Definition with_lock {A} (error : A) (body : Y (called A)) : Y (called A) :=
  locked ← lift_h (gets mh_locked);
  if negb locked then
    o ← lift_k (rt_sem_take lock RT_WAITING_FOREVER);
    match o with
    | Ret result => entered error body result
    | Wait _ => mret (Waits (resumed error body))
    end
  else body.
Definition release_lock : Y unit :=
  locked ← lift_h (gets mh_locked);
  if negb locked then lift_k (rt_sem_release lock);; mret tt else mret tt.

Definition request_size (size : Z) : Z :=
  let size := RT_ALIGN size RT_ALIGN_SIZE in
  if size <? RT_MEMHEAP_MINIALLOC then RT_MEMHEAP_MINIALLOC else size.

Definition alloc_locked (size : Z) : Y (called (option Z)) :=
  self ← lift_k self_name;
  p ← lift_h (alloc_block self size);
  release_lock;;
  mret (Done p).
Definition rt_memheap_alloc (size : Z) : Y (called (option Z)) :=
  lift_h assert_memheap;;
  let size := request_size size in
  available ← lift_h (gets available_size);
  if size <? available then with_lock None (alloc_locked size) else mret (Done None).

Definition free_locked (header_ptr : Z) : Y (called unit) :=
  lift_h (free_block header_ptr);;
  release_lock;;
  mret (Done tt).
Definition rt_memheap_free (ptr : option Z) : Y (called unit) :=
  match ptr with
  | None => mret (Done tt)
  | Some ptr =>
      let header_ptr := u64 (ptr - RT_MEMHEAP_SIZE) in
      lift_h (check_block header_ptr);;
      with_lock tt (free_locked header_ptr)
  end.

(** [rt_memheap_realloc] when the block has to move. *)
Definition move_block (ptr oldsize newsize : Z) : Y (called (option Z)) :=
  calls (rt_memheap_alloc newsize) (fun new_ptr =>
    match new_ptr with
    | Some new_ptr =>
        lift_h (data ← mh_read ptr (if oldsize <? newsize then oldsize else newsize);
                mh_write new_ptr data);;
        calls (rt_memheap_free (Some ptr)) (fun _ => mret (Done (Some new_ptr)))
    | None => mret (Done None)
    end).
Definition grow_locked (ptr oldsize newsize : Z) : Y (called (option Z)) :=
  grown ← lift_h (grow_block (u64 (ptr - RT_MEMHEAP_SIZE)) oldsize newsize);
  release_lock;;
  if grown : bool then mret (Done (Some ptr)) else move_block ptr oldsize newsize.
Definition shrink_locked (ptr newsize : Z) : Y (called (option Z)) :=
  lift_h (shrink_block (u64 (ptr - RT_MEMHEAP_SIZE)) newsize);;
  release_lock;;
  mret (Done (Some ptr)).
Definition rt_memheap_realloc (ptr : option Z) (newsize : Z) : Y (called (option Z)) :=
  lift_h assert_memheap;;
  if newsize =? 0 then calls (rt_memheap_free ptr) (fun _ => mret (Done None))
  else
    let newsize := request_size newsize in
    match ptr with
    | None => rt_memheap_alloc newsize
    | Some ptr =>
        oldsize ← lift_h (MEMITEM_SIZE (u64 (ptr - RT_MEMHEAP_SIZE)));
        if oldsize <? newsize then with_lock None (grow_locked ptr oldsize newsize)
        else if oldsize <=? u64 (newsize + RT_MEMHEAP_SIZE + RT_MEMHEAP_MINIALLOC) then mret (Done (Some ptr))
        else with_lock None (shrink_locked ptr newsize)
    end.

(** The pool's size, the bytes used, and the most that ever were; nothing is
    stored if the lock cannot be taken. *)
Definition rt_memheap_info : Y (called (option (Z * Z * Z))) :=
  with_lock None (
    r ← lift_h (gets (fun m => (pool_size m, u64 (pool_size m - available_size m), max_used_size m)));
    release_lock;;
    mret (Done (Some r))).
End memheap.

(** [memheapcheck] on one heap: whether all items are in order. *)
Definition item_in_order (m : rt_memheap) (item : Z) (i ni : rt_memheap_item) : bool :=
  ((Z.land (mi_magic i) freed_magic =? freed_magic) || (Z.land (mi_magic i) used_magic =? used_magic)) &&
  (mi_pool i =? mh_address m) &&
  negb (negb ((mi_next i <=? u64 (start_addr m + pool_size m)) && (start_addr m <=? mi_prev i)) &&
        (mi_next i =? RT_ALIGN (mi_next i) RT_ALIGN_SIZE) && (mi_prev i =? RT_ALIGN (mi_prev i) RT_ALIGN_SIZE)) &&
  negb (mi_next i =? mi_prev ni).
Fixpoint memheapcheck_loop (fuel : nat) (item : Z) : N bool :=
  match fuel with
  | O => fun _ => None
  | S fuel =>
      first ← gets block_list;
      i ← get_mi item;
      if mi_next i =? first then mret true
      else
        ni ← get_mi (mi_next i);
        ok ← gets (fun m => item_in_order m item i ni);
        if ok : bool then memheapcheck_loop fuel (mi_next i) else mret false
  end.
Definition memheapcheck : N bool :=
  first ← gets block_list;
  fuel ← gets memheap_fuel;
  memheapcheck_loop fuel first.
