(* ===== verification/MemheapSpec.v ===== *)
(** * Memory heaps: the two circles

    What the operations of Memheap.v on headers do to the circle of the blocks
    and to the circle of the free ones, with the lemmas of RtList.v. *)
From S2P Require Import Prelude Kservice Kernel RtList Sys Mem Memheap.

(** ** Views of the headers *)

Definition block_links (m : rt_memheap) : gmap Z (rt_list_node Z) :=
  (fun i => RtListNode (mi_next i) (mi_prev i)) <$> mh_items m.
Definition free_links (m : rt_memheap) : gmap Z (rt_list_node Z) :=
  (fun i => RtListNode (mi_next_free i) (mi_prev_free i)) <$> mh_items m.
Definition tags (m : rt_memheap) : gmap Z (Z * Z) := (fun i => (mi_magic i, mi_pool i)) <$> mh_items m.

(** What no operation on headers changes. *)
Definition core (m : rt_memheap) : rt_object * Z * Z * Z * Z * Z * bool :=
  (mh_parent m, mh_address m, start_addr m, pool_size m, block_list m, free_list m, mh_locked m).
Definition rest (m : rt_memheap) : (rt_object * Z * Z * Z * Z * Z * bool) * Z * Z * gmap Z Z :=
  (core m, available_size m, max_used_size m, mh_bytes m).

Lemma core_inv m m' :
  core m' = core m -> mh_parent m' = mh_parent m /\ mh_address m' = mh_address m /\ start_addr m' = start_addr m /\
    pool_size m' = pool_size m /\ block_list m' = block_list m /\ free_list m' = free_list m /\ mh_locked m' = mh_locked m.
Proof. unfold core. intros E. by injection E. Qed.

Lemma rest_inv m m' :
  rest m' = rest m -> core m' = core m /\ available_size m' = available_size m /\
    max_used_size m' = max_used_size m /\ mh_bytes m' = mh_bytes m.
Proof.
  intros E. split_and!; [apply (f_equal (fun x => x.1.1.1) E)|apply (f_equal (fun x => x.1.1.2) E)
    |apply (f_equal (fun x => x.1.2) E)|apply (f_equal (fun x => x.2) E)].
Qed.

Definition has (m : rt_memheap) (p : Z) : Prop := is_Some (mh_items m !! p).

Lemma has_tags m m' p : tags m' = tags m -> has m p -> has m' p.
Proof.
  unfold has, tags. intros E [i Hi]. assert (((fun i => (mi_magic i, mi_pool i)) <$> mh_items m') !! p <> None) as H.
  { rewrite E, lookup_fmap, Hi. done. }
  rewrite lookup_fmap in H. destruct (mh_items m' !! p); [eauto|done].
Qed.

Lemma block_nxt m p y : nxt (block_links m) p = Some y -> exists i, mh_items m !! p = Some i /\ mi_next i = y.
Proof. unfold nxt, block_links. rewrite lookup_fmap. destruct (mh_items m !! p); [|done]. intros [= <-]. eauto. Qed.
Lemma block_prv m p y : prv (block_links m) p = Some y -> exists i, mh_items m !! p = Some i /\ mi_prev i = y.
Proof. unfold prv, block_links. rewrite lookup_fmap. destruct (mh_items m !! p); [|done]. intros [= <-]. eauto. Qed.
Lemma free_nxt m p y : nxt (free_links m) p = Some y -> exists i, mh_items m !! p = Some i /\ mi_next_free i = y.
Proof. unfold nxt, free_links. rewrite lookup_fmap. destruct (mh_items m !! p); [|done]. intros [= <-]. eauto. Qed.
Lemma free_prv m p y : prv (free_links m) p = Some y -> exists i, mh_items m !! p = Some i /\ mi_prev_free i = y.
Proof. unfold prv, free_links. rewrite lookup_fmap. destruct (mh_items m !! p); [|done]. intros [= <-]. eauto. Qed.
Lemma tags_item m p a b : tags m !! p = Some (a, b) -> exists i, mh_items m !! p = Some i /\ mi_magic i = a /\ mi_pool i = b.
Proof. unfold tags. rewrite lookup_fmap. destruct (mh_items m !! p); [|done]. intros [= <- <-]. eauto. Qed.

Lemma has_nxt s m p y : nxt s p = Some y -> s = block_links m \/ s = free_links m -> has m p.
Proof. intros H [-> | ->]; [apply block_nxt in H as (i & Hi & _)|apply free_nxt in H as (i & Hi & _)]; by exists i. Qed.

(** ** One step *)

Definition item_at (p : Z) (i : rt_memheap_item) (m : rt_memheap) : rt_memheap :=
  set_items (<[p := i]> (mh_items m)) (mh_bytes m) m.

Lemma get_mi_eq p i m : mh_items m !! p = Some i -> get_mi p m = Some (i, m).
Proof. intros Hi. unfold get_mi. by rewrite bind_gets, Hi. Qed.

Lemma bind_mi {B} p i (f : rt_memheap_item -> N B) m : mh_items m !! p = Some i -> (get_mi p ≫= f) m = f i m.
Proof. intros Hi. by rewrite (bind_ok _ _ _ _ _ (get_mi_eq p i m Hi)). Qed.

Lemma upd_mi_eq p f i m : mh_items m !! p = Some i -> upd_mi p f m = Some (tt, item_at p (f i) m).
Proof. intros Hi. unfold upd_mi. by rewrite (bind_mi p i). Qed.

(** A view of the headers that an update does not touch. *)
Lemma view_same {A} (v : rt_memheap_item -> A) p i j (items : gmap Z rt_memheap_item) :
  items !! p = Some i -> v j = v i -> v <$> <[p := j]> items = v <$> items.
Proof.
  intros Hi Hv. rewrite fmap_insert, Hv. apply insert_id. by rewrite lookup_fmap, Hi.
Qed.

(** [m'] differs from [m] only in the links of one circle. *)
Record relinked (m m' : rt_memheap) : Prop := Relinked {
  rl_tags : tags m' = tags m;
  rl_rest : rest m' = rest m
}.
#[export] Instance relinked_refl : Reflexive relinked.
Proof. done. Qed.
#[export] Instance relinked_trans : Transitive relinked.
Proof. intros m1 m2 m3 [] []. constructor; congruence. Qed.
Lemma has_relinked m m' p : relinked m m' -> has m p -> has m' p.
Proof. intros [E _]. by apply has_tags. Qed.

(** The update of one link of the item at [p], from its equation. *)
Ltac relink links i Hi :=
  rewrite (upd_mi_eq _ _ i) by done; eexists; split; [done|]; split; [|split; [|split; [|split]]];
  [ intros x; unfold nxt, prv, links; simpl; rewrite !lookup_fmap, lookup_insert; do 2 case_decide; subst; done
  | intros x; unfold nxt, prv, links; simpl; rewrite !lookup_fmap, lookup_insert; case_decide; [subst; by rewrite Hi|done]
  | by apply (view_same _ _ i) | by apply (view_same _ _ i) | done ].

Lemma upd_next_spec p v m :
  has m p -> exists m', upd_mi p (set_mi_next v) m = Some (tt, m') /\
    (forall x, nxt (block_links m') x = if decide (x = p) then Some v else nxt (block_links m) x) /\
    (forall x, prv (block_links m') x = prv (block_links m) x) /\
    free_links m' = free_links m /\ relinked m m'.
Proof.
  intros [i Hi]. relink block_links i Hi.
Qed.

Lemma upd_prev_spec p v m :
  has m p -> exists m', upd_mi p (set_mi_prev v) m = Some (tt, m') /\
    (forall x, prv (block_links m') x = if decide (x = p) then Some v else prv (block_links m) x) /\
    (forall x, nxt (block_links m') x = nxt (block_links m) x) /\
    free_links m' = free_links m /\ relinked m m'.
Proof.
  intros [i Hi]. relink block_links i Hi.
Qed.

Lemma upd_next_free_spec p v m :
  has m p -> exists m', upd_mi p (set_mi_next_free v) m = Some (tt, m') /\
    (forall x, nxt (free_links m') x = if decide (x = p) then Some v else nxt (free_links m) x) /\
    (forall x, prv (free_links m') x = prv (free_links m) x) /\
    block_links m' = block_links m /\ relinked m m'.
Proof.
  intros [i Hi]. relink free_links i Hi.
Qed.

Lemma upd_prev_free_spec p v m :
  has m p -> exists m', upd_mi p (set_mi_prev_free v) m = Some (tt, m') /\
    (forall x, prv (free_links m') x = if decide (x = p) then Some v else prv (free_links m) x) /\
    (forall x, nxt (free_links m') x = nxt (free_links m) x) /\
    block_links m' = block_links m /\ relinked m m'.
Proof.
  intros [i Hi]. relink free_links i Hi.
Qed.

(** ** The free list *)

(** A step of a sequence: a read of a field, or an update by its lemma. *)
Ltac mi_read H :=
  let i := fresh "i" in let Hi := fresh "Hi" in let E := fresh "E" in
  destruct H as (i & Hi & E); rewrite (bind_mi _ _ _ _ Hi), E; clear i Hi E.

Ltac mi_upd H m1 N P B R :=
  let E := fresh "E" in
  destruct H as (m1 & E & N & P & B & R); [|first [rewrite (bind_ok _ _ _ _ _ E); clear E | exists m1; split; [exact E|]]].
Ltac mi_has := repeat first [ eassumption | eapply has_relinked; [eassumption|] ].

Lemma has_free_nxt m p y : nxt (free_links m) p = Some y -> has m p.
Proof. intros H. apply free_nxt in H as (i & ? & _). by exists i. Qed.
Lemma has_free_prv m p y : prv (free_links m) p = Some y -> has m p.
Proof. intros H. apply free_prv in H as (i & ? & _). by exists i. Qed.
Lemma has_block_nxt m p y : nxt (block_links m) p = Some y -> has m p.
Proof. intros H. apply block_nxt in H as (i & ? & _). by exists i. Qed.
Lemma has_block_prv m p y : prv (block_links m) p = Some y -> has m p.
Proof. intros H. apply block_prv in H as (i & ? & _). by exists i. Qed.

Lemma link_free_spec p y m :
  links (free_links m) (free_list m) y -> has m p -> p <> free_list m -> p <> y ->
  exists m', link_free p m = Some (tt, m') /\ inserted (free_list m) p y (free_links m) (free_links m') /\
    block_links m' = block_links m /\ relinked m m'.
Proof.
  set (f := free_list m). intros [Hn Hp] Hh Hf Hy. unfold link_free. rewrite bind_gets. fold f.
  pose proof (has_free_nxt _ _ _ Hn) as Hhf. pose proof (has_free_prv _ _ _ Hp) as Hhy.
  mi_read (free_nxt _ _ _ Hn).
  mi_upd (upd_next_free_spec p y m) m1 N1 P1 B1 R1; [mi_has|].
  mi_upd (upd_prev_free_spec p f m1) m2 P2 N2 B2 R2; [mi_has|].
  assert (nxt (free_links m2) f = Some y) as Hn2 by (by rewrite N2, N1, decide_False).
  mi_read (free_nxt _ _ _ Hn2).
  mi_upd (upd_prev_free_spec y p m2) m3 P3 N3 B3 R3; [mi_has|].
  mi_upd (upd_next_free_spec f p m3) m4 N4 P4 B4 R4; [mi_has|].
  split; [split|split].
  - intros x. rewrite N4, N3, N2, N1. repeat case_decide; congruence.
  - intros x. rewrite P4, P3, P2, P1. repeat case_decide; congruence.
  - congruence.
  - by rewrite R1, R2, R3.
Qed.

Lemma insert_header_spec p y m :
  links (free_links m) (free_list m) y -> has m p -> p <> free_list m -> p <> y ->
  exists m', insert_header p m = Some (tt, m') /\ inserted (free_list m) p y (free_links m) (free_links m') /\
    block_links m' = block_links m /\ relinked m m'.
Proof.
  set (f := free_list m). intros [Hn Hp] Hh Hf Hy. unfold insert_header. rewrite bind_gets. fold f.
  pose proof (has_free_nxt _ _ _ Hn) as Hhf. pose proof (has_free_prv _ _ _ Hp) as Hhy.
  mi_read (free_nxt _ _ _ Hn). cbv zeta.
  mi_upd (upd_next_free_spec p y m) m1 N1 P1 B1 R1; [mi_has|].
  assert (prv (free_links m1) y = Some f) as Hp1 by (by rewrite P1).
  mi_read (free_prv _ _ _ Hp1).
  mi_upd (upd_prev_free_spec p f m1) m2 P2 N2 B2 R2; [mi_has|].
  assert (prv (free_links m2) y = Some f) as Hp2 by (by rewrite P2, decide_False).
  mi_read (free_prv _ _ _ Hp2).
  mi_upd (upd_next_free_spec f p m2) m3 N3 P3 B3 R3; [mi_has|].
  mi_upd (upd_prev_free_spec y p m3) m4 P4 N4 B4 R4; [mi_has|].
  split; [split|split].
  - intros x. rewrite N4, N3, N2, N1. repeat case_decide; congruence.
  - intros x. rewrite P4, P3, P2, P1. repeat case_decide; congruence.
  - congruence.
  - by rewrite R1, R2, R3.
Qed.

Lemma unlink_free_spec a p y m :
  links (free_links m) a p -> links (free_links m) p y -> p <> a -> p <> y ->
  exists m', unlink_free p m = Some (tt, m') /\ bypassed a p y (free_links m) (free_links m') /\
    block_links m' = block_links m /\ relinked m m'.
Proof.
  intros [Hap Hpa] [Hpy Hyp] Ha Hy. unfold unlink_free.
  pose proof (has_free_nxt _ _ _ Hap) as Hha. pose proof (has_free_prv _ _ _ Hyp) as Hhy.
  destruct (free_nxt _ _ _ Hpy) as (i & Hi & E1). pose proof (free_prv _ _ _ Hpa) as (i' & Hi' & E2).
  assert (i' = i) as -> by congruence. rewrite (bind_mi _ _ _ _ Hi), E1, E2.
  mi_upd (upd_prev_free_spec y a m) m1 P1 N1 B1 R1; [mi_has|].
  assert (nxt (free_links m1) p = Some y) as Hn1 by (by rewrite N1).
  assert (prv (free_links m1) p = Some a) as Hp1 by (by rewrite P1, decide_False).
  destruct (free_nxt _ _ _ Hn1) as (j & Hj & E3). pose proof (free_prv _ _ _ Hp1) as (j' & Hj' & E4).
  assert (j' = j) as -> by congruence. rewrite (bind_mi _ _ _ _ Hj), E3, E4.
  mi_upd (upd_next_free_spec a y m1) m2 N2 P2 B2 R2; [mi_has|].
  split; [split|split].
  - intros x Hx. rewrite N2, N1. done.
  - intros x Hx. rewrite P2, P1. done.
  - congruence.
  - by rewrite R1.
Qed.

(** The free links of an item that is not free any more. *)
Lemma forget_free_spec p m :
  has m p -> exists m', forget_free p m = Some (tt, m') /\
    (forall x, x <> p -> free_links m' !! x = free_links m !! x) /\
    block_links m' = block_links m /\ relinked m m'.
Proof.
  intros [i Hi]. unfold forget_free. rewrite (bind_ok _ _ _ _ _ (upd_mi_eq p _ i m Hi)).
  assert (mh_items (item_at p (set_mi_next_free 0 i) m) !! p = Some (set_mi_next_free 0 i)) as Hi' by apply lookup_insert_eq.
  rewrite (upd_mi_eq _ _ _ _ Hi'). eexists. split; [done|]. split; [|split; [|split; [|done]]].
  - intros x Hx. unfold free_links. simpl. by rewrite !lookup_fmap, !lookup_insert_ne by done.
  - unfold block_links. simpl. rewrite insert_insert_eq. by apply (view_same _ _ i).
  - unfold tags. simpl. rewrite insert_insert_eq. by apply (view_same _ _ i).
Qed.

(** ** The blocks *)

Definition given (x : Z) (m : rt_memheap) : rt_memheap :=
  set_available (u64 (available_size m + x)) (max_used_size m) m.

Lemma bind_give {B} x (f : unit -> N B) m : (give_available x ≫= f) m = f tt (given x m).
Proof. done. Qed.

(** The free item [p] between [a] and [y] is left out: by [merge_left], by the
    first half of [merge_right], and by the second half of [_remove_next_ptr]. *)
Lemma merge_left_spec a p y m :
  links (block_links m) a p -> links (block_links m) p y -> p <> a -> p <> y ->
  exists m', merge_left p m = Some (a, m') /\ bypassed a p y (block_links m) (block_links m') /\
    free_links m' = free_links m /\ relinked (given RT_MEMHEAP_SIZE m) m'.
Proof.
  intros [Hap Hpa] [Hpy Hyp] Ha Hy. unfold merge_left. rewrite bind_give. set (m0 := given _ m).
  pose proof (has_block_nxt m0 _ _ Hap) as Hha. pose proof (has_block_prv m0 _ _ Hyp) as Hhy.
  destruct (block_nxt m0 _ _ Hpy) as (i & Hi & E1). pose proof (block_prv m0 _ _ Hpa) as (i' & Hi' & E2).
  assert (i' = i) as -> by congruence. rewrite (bind_mi _ _ _ _ Hi), E1, E2.
  mi_upd (upd_next_spec a y m0) m1 N1 P1 B1 R1; [mi_has|].
  assert (nxt (block_links m1) p = Some y) as Hn1 by (by rewrite N1, decide_False).
  assert (prv (block_links m1) p = Some a) as Hp1 by (by rewrite P1).
  destruct (block_nxt _ _ _ Hn1) as (j & Hj & E3). pose proof (block_prv _ _ _ Hp1) as (j' & Hj' & E4).
  assert (j' = j) as -> by congruence. rewrite (bind_mi _ _ _ _ Hj), E3, E4.
  mi_upd (upd_prev_spec y a m1) m2 P2 N2 B2 R2; [mi_has|].
  assert (prv (block_links m2) p = Some a) as Hp2 by (by rewrite P2, decide_False).
  mi_read (block_prv _ _ _ Hp2). exists m2. split; [done|]. split; [split|split].
  - intros x Hx. by rewrite N2, N1.
  - intros x Hx. by rewrite P2, P1.
  - by rewrite B2, B1.
  - by rewrite R1.
Qed.

Lemma cut_right_spec {B} a p y m (f : unit -> N B) :
  links (block_links m) a p -> links (block_links m) p y -> p <> a -> p <> y ->
  exists m', (ni ← get_mi p; upd_mi (mi_next ni) (set_mi_prev a);;
              ni ← get_mi p; upd_mi a (set_mi_next (mi_next ni)) ≫= f) m = f tt m' /\
    bypassed a p y (block_links m) (block_links m') /\ free_links m' = free_links m /\ relinked m m'.
Proof.
  intros [Hap Hpa] [Hpy Hyp] Ha Hy.
  pose proof (has_block_nxt m _ _ Hap) as Hha. pose proof (has_block_prv m _ _ Hyp) as Hhy.
  mi_read (block_nxt _ _ _ Hpy).
  mi_upd (upd_prev_spec y a m) m1 P1 N1 B1 R1; [mi_has|].
  assert (nxt (block_links m1) p = Some y) as Hn1 by (by rewrite N1).
  mi_read (block_nxt _ _ _ Hn1).
  mi_upd (upd_next_spec a y m1) m2 N2 P2 B2 R2; [mi_has|].
  exists m2. split; [done|]. split; [split|split].
  - intros x Hx. by rewrite N2, N1.
  - intros x Hx. by rewrite P2, P1.
  - by rewrite B2, B1.
  - by rewrite R1.
Qed.

Lemma remove_next_spec a p y a' y' m :
  links (free_links m) a' p -> links (free_links m) p y' -> p <> a' -> p <> y' ->
  links (block_links m) a p -> links (block_links m) p y -> p <> a -> p <> y ->
  exists m', _remove_next_ptr p m = Some (tt, m') /\ bypassed a' p y' (free_links m) (free_links m') /\
    bypassed a p y (block_links m) (block_links m') /\ relinked m m'.
Proof.
  intros La Ly Ha' Hy' [Hap Hpa] [Hpy Hyp] Ha Hy. unfold _remove_next_ptr.
  destruct (unlink_free_spec a' p y' m La Ly Ha' Hy') as (m0 & E0 & F0 & B0 & R0). rewrite (bind_ok _ _ _ _ _ E0).
  rewrite <- B0 in Hap, Hpa, Hpy, Hyp.
  pose proof (has_block_nxt m0 _ _ Hap) as Hha. pose proof (has_block_prv m0 _ _ Hyp) as Hhy.
  destruct (block_nxt m0 _ _ Hpy) as (i & Hi & E1). pose proof (block_prv m0 _ _ Hpa) as (i' & Hi' & E2).
  assert (i' = i) as -> by congruence. rewrite (bind_mi _ _ _ _ Hi), E1, E2.
  mi_upd (upd_prev_spec y a m0) m1 P1 N1 B1 R1; [mi_has|].
  assert (nxt (block_links m1) p = Some y) as Hn1 by (by rewrite N1).
  assert (prv (block_links m1) p = Some a) as Hp1 by (by rewrite P1, decide_False).
  destruct (block_nxt _ _ _ Hn1) as (j & Hj & E3). pose proof (block_prv _ _ _ Hp1) as (j' & Hj' & E4).
  assert (j' = j) as -> by congruence. rewrite (bind_mi _ _ _ _ Hj), E3, E4.
  mi_upd (upd_next_spec a y m1) m2 N2 P2 B2 R2; [mi_has|].
  rewrite <- B0. split; [by rewrite B2, B1|]. split; [split|].
  - intros x Hx. by rewrite N2, N1.
  - intros x Hx. by rewrite P2, P1.
  - by rewrite R0, R1.
Qed.

(** The new item [q] goes between [p] and [y]. *)
Definition cut_links (p q : Z) : N unit :=
  upd_mi q (set_mi_prev p);;
  i ← get_mi p; upd_mi q (set_mi_next (mi_next i));;
  i ← get_mi p; upd_mi (mi_next i) (set_mi_prev q);;
  upd_mi p (set_mi_next q).

Lemma cut_links_spec p q y m :
  links (block_links m) p y -> has m q -> q <> p -> q <> y ->
  exists m', cut_links p q m = Some (tt, m') /\ inserted p q y (block_links m) (block_links m') /\
    free_links m' = free_links m /\ relinked m m'.
Proof.
  intros [Hpy Hyp] Hq Hqp Hqy. unfold cut_links.
  pose proof (has_block_nxt m _ _ Hpy) as Hhp. pose proof (has_block_prv m _ _ Hyp) as Hhy.
  mi_upd (upd_prev_spec q p m) m1 P1 N1 B1 R1; [mi_has|].
  assert (nxt (block_links m1) p = Some y) as Hn1 by (by rewrite N1).
  mi_read (block_nxt _ _ _ Hn1).
  mi_upd (upd_next_spec q y m1) m2 N2 P2 B2 R2; [mi_has|].
  assert (nxt (block_links m2) p = Some y) as Hn2 by (by rewrite N2, decide_False).
  mi_read (block_nxt _ _ _ Hn2).
  mi_upd (upd_prev_spec y q m2) m3 P3 N3 B3 R3; [mi_has|].
  mi_upd (upd_next_spec p q m3) m4 N4 P4 B4 R4; [mi_has|].
  split; [split|split].
  - intros x. rewrite N4, N3, N2, N1. repeat case_decide; congruence.
  - intros x. rewrite P4, P3, P2, P1. repeat case_decide; congruence.
  - congruence.
  - by rewrite R1, R2, R3.
Qed.

(** A new header: nothing changes but at the addresses it covers. *)
Definition with_new (q : Z) (m : rt_memheap) : rt_memheap :=
  set_items (<[q := MemheapItem freed_magic (mh_address m) 0 0 0 0 blank_name]>
      (filter (fun x => away q sizeof_item x.1) (mh_items m)))
    (filter (fun x => ~ (q <= x.1 < q + sizeof_item)) (mh_bytes m)) m.

Lemma with_new_items q m x :
  x <> q -> away q sizeof_item x -> mh_items (with_new q m) !! x = mh_items m !! x.
Proof.
  intros Hx Ha. simpl. rewrite lookup_insert_ne by done. rewrite map_lookup_filter.
  destruct (mh_items m !! x); [|done]. simpl. by rewrite option_guard_True.
Qed.

Lemma with_new_views q m x :
  x <> q -> away q sizeof_item x ->
  block_links (with_new q m) !! x = block_links m !! x /\
  free_links (with_new q m) !! x = free_links m !! x /\ tags (with_new q m) !! x = tags m !! x.
Proof.
  intros Hx Ha. unfold block_links, free_links, tags. by rewrite !lookup_fmap, !(with_new_items q m x).
Qed.

Lemma with_new_at q m :
  mh_items (with_new q m) !! q = Some (MemheapItem freed_magic (mh_address m) 0 0 0 0 blank_name).
Proof. apply lookup_insert_eq. Qed.

Lemma with_new_tag q m : tags (with_new q m) !! q = Some (freed_magic, mh_address m).
Proof. unfold tags. by rewrite lookup_fmap, with_new_at. Qed.

Lemma with_new_has q m : has (with_new q m) q.
Proof. eexists. apply with_new_at. Qed.

Lemma with_new_bytes q m x : ~ (q <= x < q + sizeof_item) -> mh_bytes (with_new q m) !! x = mh_bytes m !! x.
Proof.
  intros Hx. simpl. rewrite map_lookup_filter. destruct (mh_bytes m !! x); [|done]. simpl.
  by rewrite option_guard_True.
Qed.

Lemma cut_item_eq p q m : cut_item p q m = cut_links p q (with_new q m).
Proof. done. Qed.

(** ** On circles *)

Lemma circle_split {L} `{Countable L} (s : gmap L (rt_list_node L)) h l1 p l2 :
  circle s h (l1 ++ p :: l2) ->
  links s (before h l1) p /\ links s p (behind h l2) /\ p <> before h l1 /\ p <> behind h l2 /\ p <> h /\ p ∉ l1 ++ l2.
Proof.
  intros Hc. split; [by apply (circle_links s h l1 (p :: l2))|]. split.
  { pose proof (circle_links s h (l1 ++ [p]) l2) as Hl. rewrite <- app_assoc in Hl. specialize (Hl Hc).
    unfold before in Hl. by rewrite last_snoc in Hl. }
  destruct Hc as [Hnd _]. apply NoDup_cons in Hnd as [Hh Hnd]. apply NoDup_app in Hnd as (_ & Hd & Hnd).
  apply NoDup_cons in Hnd as [Hp _].
  assert (p <> h) as Hph by (intros E; apply Hh; rewrite <- E, elem_of_app; right; by left).
  assert (p ∉ l1 ++ l2) as Hn by (intros [Hx|Hx]%elem_of_app; [apply (Hd p Hx); by left|done]).
  split_and!; try done; intros E.
  - pose proof (before_in h l1) as Hb. rewrite <- E in Hb. apply elem_of_cons in Hb as [?|Hb]; [done|].
    apply Hn, elem_of_app. by left.
  - pose proof (behind_in h l2) as Hb. rewrite <- E in Hb. apply elem_of_cons in Hb as [?|Hb]; [done|].
    apply Hn, elem_of_app. by right.
Qed.

Lemma unlink_circle h f1 p f2 m :
  circle (free_links m) h (f1 ++ p :: f2) ->
  exists m', unlink_free p m = Some (tt, m') /\ circle (free_links m') h (f1 ++ f2) /\
    block_links m' = block_links m /\ relinked m m'.
Proof.
  intros Hc. destruct (circle_split _ _ _ _ _ Hc) as (La & Ly & Ha & Hy & _).
  destruct (unlink_free_spec _ _ _ m La Ly Ha Hy) as (m' & E & F & B & R).
  exists m'. split; [done|]. split; [by eapply circle_bypassed|done].
Qed.

(** The item [p] is taken off the free list for good. *)
Lemma unlink_forget_circle h f1 p f2 m :
  circle (free_links m) h (f1 ++ p :: f2) ->
  exists m' m'', unlink_free p m = Some (tt, m') /\ forget_free p m' = Some (tt, m'') /\
    circle (free_links m'') h (f1 ++ f2) /\ block_links m'' = block_links m /\ relinked m m''.
Proof.
  intros Hc. destruct (circle_split _ _ _ _ _ Hc) as ([_ Hp%has_free_prv] & _ & _ & _ & Hh & Hn).
  destruct (unlink_circle h f1 p f2 m Hc) as (m1 & E1 & C1 & B1 & R1).
  destruct (forget_free_spec p m1) as (m2 & E2 & F2 & B2 & R2); [by eapply has_relinked|].
  exists m1, m2. split; [done|]. split; [done|]. split; [|split; [congruence|by rewrite R1]].
  apply (circle_ext (free_links m1)); [done|]. intros x Hx. apply F2. intros ->.
  by apply elem_of_cons in Hx as [?|?].
Qed.

(** The item [q] is put first on the free list. *)
Lemma link_circle (link : Z -> N unit) h q fl m :
  (forall y, links (free_links m) (free_list m) y -> has m q -> q <> free_list m -> q <> y ->
   exists m', link q m = Some (tt, m') /\ inserted (free_list m) q y (free_links m) (free_links m') /\
    block_links m' = block_links m /\ relinked m m') ->
  circle (free_links m) h fl -> free_list m = h -> has m q -> q ∉ h :: fl ->
  exists m', link q m = Some (tt, m') /\ circle (free_links m') h (q :: fl) /\
    block_links m' = block_links m /\ relinked m m'.
Proof.
  intros Hlink Hc Hh Hq Hn. destruct (Hlink (behind h fl)) as (m' & E & F & B & R).
  - rewrite Hh. by apply (circle_links _ h [] fl).
  - done.
  - rewrite Hh. by apply not_elem_of_cons in Hn as [? _].
  - intros E. apply Hn. rewrite E. apply behind_in.
  - exists m'. split; [done|]. split; [|done]. rewrite Hh in F. by apply (circle_inserted _ _ h [] fl q Hc Hn).
Qed.

Lemma link_free_circle h q fl m :
  circle (free_links m) h fl -> free_list m = h -> has m q -> q ∉ h :: fl ->
  exists m', link_free q m = Some (tt, m') /\ circle (free_links m') h (q :: fl) /\
    block_links m' = block_links m /\ relinked m m'.
Proof. apply link_circle. intros y. apply link_free_spec. Qed.

Lemma insert_header_circle h q fl m :
  circle (free_links m) h fl -> free_list m = h -> has m q -> q ∉ h :: fl ->
  exists m', insert_header q m = Some (tt, m') /\ circle (free_links m') h (q :: fl) /\
    block_links m' = block_links m /\ relinked m m'.
Proof. apply link_circle. intros y. apply insert_header_spec. Qed.

(** The header [q] is cut into the circle of the blocks behind [p]. *)
Lemma cut_circle e l1 p l2 h fl q m :
  circle (block_links m) e (l1 ++ p :: l2) -> circle (free_links m) h fl ->
  (forall x, x ∈ e :: l1 ++ p :: l2 \/ x ∈ h :: fl -> x <> q /\ away q sizeof_item x) ->
  exists m', cut_item p q m = Some (tt, m') /\ circle (block_links m') e (l1 ++ p :: q :: l2) /\
    circle (free_links m') h fl /\ has m' q /\ relinked (with_new q m) m'.
Proof.
  intros Hb Hf Hq. set (m0 := with_new q m).
  assert (circle (block_links m0) e (l1 ++ p :: l2)) as Hb0.
  { apply (circle_ext (block_links m)); [done|]. intros x Hx. apply with_new_views; apply Hq; by left. }
  assert (circle (free_links m0) h fl) as Hf0.
  { apply (circle_ext (free_links m)); [done|]. intros x Hx. apply with_new_views; apply Hq; by right. }
  destruct (circle_split _ _ _ _ _ Hb0) as (_ & Ly & _).
  assert (q ∉ e :: l1 ++ p :: l2) as Hqb by (intros Hx; by apply (Hq q); [left|]).
  destruct (cut_links_spec p q (behind e l2) m0 Ly (with_new_has q m)) as (m1 & E1 & B1 & F1 & R1).
  - intros ->. apply Hqb. right. apply elem_of_app. right. by left.
  - intros E. apply Hqb. rewrite E. pose proof (behind_in e l2) as Hx.
    rewrite elem_of_cons in *. rewrite elem_of_app, elem_of_cons. tauto.
  - exists m1. rewrite cut_item_eq, F1. split; [done|]. split; [|split; [done|split; [|done]]].
    + replace (l1 ++ p :: q :: l2) with ((l1 ++ [p]) ++ q :: l2) by by rewrite <- app_assoc.
      apply (circle_inserted (block_links m0)); [by rewrite <- app_assoc|by rewrite <- app_assoc|].
      unfold before. by rewrite last_snoc.
    + apply (has_relinked m0); [done|apply with_new_has].
Qed.
