(* ===== verification/MemheapOps.v ===== *)
(** * Memory heaps: the invariant

    What the headers of a heap stand for: a row of blocks, as in MemSpec.v, and
    the order of the free ones in their list. *)
From S2P Require Import Prelude Kservice Kernel Object RtList Sys Mem MemSpec MemOps Memheap MemheapSpec.

Definition magic_of (used : bool) : Z := if used then used_magic else freed_magic.

(** The headers of the blocks [bs] from [p] on are marked. *)
Fixpoint tagged (t : gmap Z (Z * Z)) (a p : Z) (bs : list block) : Prop :=
  match bs with
  | [] => True
  | b :: bs => t !! p = Some (magic_of b.2, a) /\ tagged t a (p + b.1) bs
  end.

Fixpoint free_starts (p : Z) (bs : list block) : list Z :=
  match bs with
  | [] => []
  | b :: bs => if b.2 : bool then free_starts (p + b.1) bs else p :: free_starts (p + b.1) bs
  end.

(** The bytes in free blocks. *)
Definition free_room (bs : list block) : Z :=
  foldr (fun b n => if b.2 : bool then n else b.1 - RT_MEMHEAP_SIZE + n) 0 bs.

Definition spacious (b : block) : Prop := RT_MEMHEAP_SIZE + RT_MEMHEAP_MINIALLOC <= b.1 /\ b.1 mod 4 = 0.

(** The headers are in order: the blocks lie one behind the other from the start
    of the pool to the last header, and [fl] is the free list. *)
Record mh_struct (bs : list block) (fl : list Z) (m : rt_memheap) : Prop := MhStruct {
  mo_type : u8 (Z.land (o_type (mh_parent m)) (Z.lnot RT_Object_Class_Static)) = RT_Object_Class_MemHeap;
  mo_place : 0 < start_addr m /\ start_addr m mod 4 = 0 /\ start_addr m + pool_size m < 2 ^ 64 /\
    (free_header m + RT_MEMHEAP_SIZE <= start_addr m \/ start_addr m + pool_size m <= free_header m);
  mo_heads : free_list m = free_header m /\ block_list m = start_addr m;
  mo_extent : extent bs + RT_MEMHEAP_SIZE = pool_size m;
  mo_spacious : Forall spacious bs;
  mo_blocks : circle (block_links m) (start_addr m + extent bs) (starts (start_addr m) bs);
  mo_tags : tagged (tags m) (mh_address m) (start_addr m) bs;
  mo_tail : tags m !! (start_addr m + extent bs) = Some (used_magic, mh_address m);
  mo_free : circle (free_links m) (free_header m) fl
}.

(** The free list has the free blocks, the counters agree, and no two free blocks
    are neighbours. *)
Record memheap_ok (bs : list block) (fl : list Z) (m : rt_memheap) : Prop := MemheapOk {
  mo_struct :> mh_struct bs fl m;
  mo_members : fl ≡ₚ free_starts (start_addr m) bs;
  mo_available : available_size m = free_room bs;
  mo_max : pool_size m - available_size m <= max_used_size m;
  mo_merged : merged true bs
}.

(** ** Rows of blocks *)

Ltac hsize := change RT_MEMHEAP_SIZE with 56 in *; change RT_MEMHEAP_MINIALLOC with 12 in *; change sizeof_item with 52 in *.

Lemma spacious_sized bs : Forall spacious bs -> Forall sized bs.
Proof.
  intros H. eapply Forall_impl; [exact H|]. intros b [Hb Hm]. split; [|done]. hsize. unfold SIZEOF_STRUCT_MEM. lia.
Qed.

Lemma spacious_extent bs : Forall spacious bs -> 68 * Z.of_nat (length bs) <= extent bs /\ extent bs mod 4 = 0.
Proof.
  intros H. split; [|apply extent_nonneg; by apply spacious_sized].
  induction H as [|b bs [Hb _] _ IH]; [done|]. simpl length. simpl extent. hsize. lia.
Qed.

Lemma tagged_app t a p l r : tagged t a p (l ++ r) <-> tagged t a p l /\ tagged t a (p + extent l) r.
Proof.
  revert p. induction l as [|b l IH]; intros p; simpl; [rewrite Z.add_0_r; tauto|].
  rewrite IH. replace (p + b.1 + extent l) with (p + (b.1 + extent l)) by lia. tauto.
Qed.

Lemma tagged_ext t t' a p bs :
  tagged t a p bs -> (forall q, q ∈ starts p bs -> t' !! q = t !! q) -> tagged t' a p bs.
Proof.
  revert p. induction bs as [|b bs IH]; intros p; simpl; [done|]. intros [Hb Hl] He.
  split; [rewrite He; [done|by left]|]. apply IH; [done|]. intros q Hq. apply He. by right.
Qed.

Lemma free_starts_app p l r : free_starts p (l ++ r) = free_starts p l ++ free_starts (p + extent l) r.
Proof.
  revert p. induction l as [|b l IH]; intros p; simpl; [by rewrite Z.add_0_r|].
  rewrite IH. replace (p + b.1 + extent l) with (p + (b.1 + extent l)) by lia. by destruct b.2.
Qed.

Lemma free_starts_elem q p bs :
  q ∈ free_starts p bs <-> exists l n r, bs = l ++ (n, false) :: r /\ q = p + extent l.
Proof.
  revert p. induction bs as [|[n u] bs IH]; intros p; simpl.
  - split; [by intros ?%elem_of_nil|]. by intros ([|] & ? & ? & ? & _).
  - split.
    + destruct u; [|intros [->|Hq]%elem_of_cons; [exists [], n, bs; split; [done|simpl; lia]|]].
      * intros (l & n' & r & -> & ->)%IH. exists ((n, true) :: l), n', r. split; [done|]. simpl. lia.
      * apply IH in Hq as (l & n' & r & -> & ->). exists ((n, false) :: l), n', r. split; [done|]. simpl. lia.
    + intros ([|b l] & n' & r & Hb & ->); simpl in Hb.
      * injection Hb as -> -> ->. replace (p + extent []) with p by (simpl; lia). by left.
      * injection Hb as <- ->. assert (p + extent ((n, u) :: l) ∈ free_starts (p + n) (l ++ (n', false) :: r)).
        { apply IH. exists l, n', r. split; [done|]. simpl. lia. }
        destruct u; [done|]. by right.
Qed.

Lemma free_starts_starts q p bs : q ∈ free_starts p bs -> q ∈ starts p bs.
Proof.
  intros (l & n & r & -> & ->)%free_starts_elem. rewrite starts_app. apply elem_of_app. right. by left.
Qed.

Lemma free_starts_length p bs : (length (free_starts p bs) <= length bs)%nat.
Proof. revert p. induction bs as [|[n []] bs IH]; intros p; simpl; [lia| |]; specialize (IH (p + n)); lia. Qed.

Lemma free_room_app l r : free_room (l ++ r) = free_room l + free_room r.
Proof. induction l as [|[n []] l IH]; simpl; lia. Qed.

Lemma free_room_bound bs : Forall spacious bs -> 0 <= free_room bs <= extent bs.
Proof. induction 1 as [|[n []] bs [Hb _] _ IH]; simpl in *; hsize; lia. Qed.

(** Where the headers of a row are. *)
Lemma starts_apart p q bs : Forall spacious bs -> q ∈ starts p bs -> p <= q /\ q + 68 <= p + extent bs.
Proof.
  intros Hs. revert p. induction Hs as [|b bs [Hb Hm] Hs IH]; intros p; simpl; [by intros ?%elem_of_nil|].
  destruct (spacious_extent bs Hs). hsize. intros [->|Hq]%elem_of_cons; [lia|]. apply IH in Hq. lia.
Qed.

(** The address before and behind a block. *)
Definition prev_start (e p : Z) (l : list block) : Z := before e (starts p l).

(** A place of a row determines the block. *)
Lemma row_unique l b r l' b' r' :
  Forall spacious (l ++ b :: r) -> l ++ b :: r = l' ++ b' :: r' -> extent l = extent l' -> l = l' /\ b = b' /\ r = r'.
Proof.
  revert l'. induction l as [|c l IH]; intros [|c' l'] Hs E Ee; simpl in *.
  - by injection E as -> ->.
  - injection E as -> E. apply Forall_cons in Hs as [[Hb _] Hs]. rewrite E in Hs. apply Forall_app in Hs as [Hs _].
    destruct (spacious_extent _ Hs). hsize. lia.
  - injection E as -> E. apply Forall_cons in Hs as [[Hb _] Hs]. apply Forall_app in Hs as [Hs _].
    destruct (spacious_extent _ Hs). hsize. lia.
  - injection E as -> E. apply Forall_cons in Hs as [_ Hs].
    destruct (IH l' Hs E) as (-> & -> & ->); [lia|done].
Qed.

Lemma tagged_last t a p e l :
  tagged t a p l -> t !! e = Some (used_magic, a) -> t !! prev_start e p l = Some (magic_of (last_used true l), a).
Proof.
  destruct l as [|b l _] using rev_ind; [done|]. intros [_ [Ht _]]%tagged_app _.
  unfold prev_start, before. rewrite starts_app. simpl starts. rewrite last_snoc, last_used_app. done.
Qed.

Section at_block.
Context (l : list block) (n : Z) (u : bool) (r : list block) (fl : list Z) (m : rt_memheap).
Context (Hm : mh_struct (l ++ (n, u) :: r) fl m).

Let s0 := start_addr m.
Let e := s0 + extent (l ++ (n, u) :: r).
Let p := s0 + extent l.

Lemma row_spacious : Forall spacious l /\ (68 <= n /\ n mod 4 = 0) /\ Forall spacious r.
Proof using Hm.
  pose proof (mo_spacious _ _ _ Hm) as Hs. apply Forall_app in Hs as [? Hs].
  apply Forall_cons in Hs as [[? ?] ?]. done.
Qed.

Lemma row_place :
  0 < s0 /\ s0 <= p /\ p mod 4 = 0 /\ p + n + extent r = e /\ 0 <= extent r /\ e + 56 = s0 + pool_size m /\ e + 56 < 2 ^ 64 /\
  (free_header m + 56 <= s0 \/ e + 56 <= free_header m).
Proof using Hm.
  destruct row_spacious as (Hl & [Hn Hn4] & Hr). destruct (spacious_extent l Hl), (spacious_extent r Hr).
  destruct (mo_place _ _ _ Hm) as (? & ? & ? & ?). pose proof (mo_extent _ _ _ Hm) as He. hsize.
  unfold e, p, s0. rewrite extent_app in *. simpl in *. repeat split; try lia. dlia.
Qed.

Lemma starts_split : starts s0 (l ++ (n, u) :: r) = starts s0 l ++ p :: starts (p + n) r.
Proof using Type. by rewrite starts_app. Qed.

Lemma row_next : behind e (starts (p + n) r) = p + n.
Proof using Hm.
  destruct row_place as (_ & _ & _ & He & _). revert He. generalize e. intros e' He.
  destruct r as [|b r']; [|done]. unfold behind. simpl in *. lia.
Qed.

(** The block is linked to its neighbours. *)
Lemma row_links : links (block_links m) (prev_start e s0 l) p /\ links (block_links m) p (p + n).
Proof using Hm.
  pose proof (mo_blocks _ _ _ Hm) as Hc. fold s0 e in Hc. rewrite starts_split in Hc. split.
  - by apply (circle_links _ _ (starts s0 l) (p :: starts (p + n) r)).
  - rewrite <- row_next. change (p :: starts (p + n) r) with ([p] ++ starts (p + n) r) in Hc.
    rewrite app_assoc in Hc. apply circle_links in Hc. unfold before in Hc. by rewrite last_snoc in Hc.
Qed.

Lemma row_item : exists i, mh_items m !! p = Some i /\ mi_magic i = magic_of u /\ mi_pool i = mh_address m /\
  mi_next i = p + n /\ mi_prev i = prev_start e s0 l.
Proof using Hm.
  pose proof (mo_tags _ _ _ Hm) as Ht. apply tagged_app in Ht as [_ [Ht _]].
  apply tags_item in Ht as (i & Hi & E1 & E2). exists i. fold s0 p in Hi. split_and!; try done.
  - destruct row_links as [_ [Hn _]]. apply block_nxt in Hn as (j & Hj & ?). by simplify_eq.
  - destruct row_links as [[_ Hp] _]. apply block_prv in Hp as (j & Hj & ?). by simplify_eq.
Qed.

Lemma row_size : MEMITEM_SIZE p m = Some (n - 56, m).
Proof using Hm.
  destruct row_item as (i & Hi & _ & _ & En & _). unfold MEMITEM_SIZE. rewrite (bind_mi _ _ _ _ Hi), En.
  destruct row_place as (? & ? & ? & ? & ? & ? & ? & ?). destruct row_spacious as (_ & [? _] & _). hsize.
  replace (p + n - p - 56) with (n - 56) by lia. rewrite u64_small by lia. done.
Qed.

(** The neighbour behind: the next block, or the end. *)
Lemma row_behind : exists i, mh_items m !! (p + n) = Some i /\ mi_pool i = mh_address m /\
  mi_magic i = magic_of (match r with b :: _ => b.2 | [] => true end).
Proof using Hm.
  pose proof (mo_tail _ _ _ Hm) as Htl. pose proof (mo_tags _ _ _ Hm) as Ht. fold s0 e in Htl.
  destruct row_place as (_ & _ & _ & He & _). revert Htl He. generalize e. intros e' Htl He.
  apply tagged_app in Ht as [_ [_ Ht]]. fold s0 p in Ht.
  assert (tags m !! (p + n) = Some (magic_of (match r with b :: _ => b.2 | [] => true end), mh_address m)) as Hx.
  { destruct r as [|b r']; [|apply Ht]. simpl in He. by replace (p + n) with e' by lia. }
  apply tags_item in Hx as (i & Hi & E1 & E2). eauto.
Qed.

(** The neighbour before. *)
Lemma row_before : exists i, mh_items m !! prev_start e s0 l = Some i /\ mi_magic i = magic_of (last_used true l).
Proof using Hm.
  pose proof (mo_tail _ _ _ Hm) as Htl. pose proof (mo_tags _ _ _ Hm) as Ht. fold s0 e in Htl.
  apply tagged_app in Ht as [Ht _].
  destruct (tags_item _ _ _ _ (tagged_last _ _ _ e _ Ht Htl)) as (i & ? & ? & _). eauto.
Qed.

End at_block.

Lemma row_free_elem l n u r fl m :
  memheap_ok (l ++ (n, u) :: r) fl m -> start_addr m + extent l ∈ fl <-> u = false.
Proof.
  intros Hm. rewrite (mo_members _ _ _ Hm). split.
  - intros (l' & n' & r' & E & E')%free_starts_elem.
    destruct (row_unique l (n, u) r l' (n', false) r' (mo_spacious _ _ _ Hm) E) as (_ & [= _ ->] & _); [lia|done].
  - intros ->. apply free_starts_elem. by exists l, n, r.
Qed.

(** ** Changing a part of the row *)

Section rebuild.
Context (l old mid r : list block) (fl fl' : list Z) (m m' : rt_memheap).
Context (Hm : mh_struct (l ++ old ++ r) fl m).
Let s0 := start_addr m.

(** The blocks [old] become the blocks [mid]; all other headers are as before. *)
Lemma rebuild :
  core m' = core m -> extent mid = extent old -> Forall spacious mid ->
  (forall x, x + 56 <= s0 + extent l \/ s0 + extent l + extent old <= x -> tags m' !! x = tags m !! x) ->
  tagged (tags m') (mh_address m) (s0 + extent l) mid ->
  circle (block_links m') (s0 + extent (l ++ old ++ r)) (starts s0 (l ++ mid ++ r)) ->
  circle (free_links m') (free_header m) fl' -> mh_struct (l ++ mid ++ r) fl' m'.
Proof using Hm.
  intros Hcore Hext Hmsp Hout Htag Hb Hf.
  assert (extent (l ++ mid ++ r) = extent (l ++ old ++ r)) as He by (rewrite !extent_app; lia).
  apply core_inv in Hcore as (E1 & E2 & E3 & E4 & E5 & E6 & E7).
  assert (free_header m' = free_header m) as E8 by (unfold free_header; by rewrite E2).
  pose proof (mo_spacious _ _ _ Hm) as Hs. apply Forall_app in Hs as [Hsl Hs]. apply Forall_app in Hs as [_ Hsr].
  pose proof (mo_tags _ _ _ Hm) as Ht. apply tagged_app in Ht as [Htl Ht]. apply tagged_app in Ht as [_ Htr].
  fold s0 in Htl, Htr. destruct (spacious_extent r Hsr) as [Hr0 _].
  constructor; rewrite ?E1, ?E2, ?E3, ?E4, ?E5, ?E6, ?E8, ?He; try done; try apply Hm.
  - by repeat (apply Forall_app; split).
  - fold s0. apply tagged_app. split; [|apply tagged_app; split; [done|]].
    + eapply tagged_ext; [done|]. intros q Hq. apply Hout. left. apply starts_apart in Hq; [lia|done].
    + rewrite Hext. eapply tagged_ext; [done|]. intros q Hq. apply Hout. right. apply starts_apart in Hq; [lia|done].
  - fold s0. rewrite Hout; [apply Hm|]. right. rewrite !extent_app. lia.
Qed.
End rebuild.

(** ** Search *)

(** The bytes behind the header at [q]. *)
Definition room (m : rt_memheap) (q : Z) : Z :=
  match mh_items m !! q with Some i => u64 (mi_next i - q - RT_MEMHEAP_SIZE) | None => 0 end.

Lemma room_eq m q : has m q -> MEMITEM_SIZE q m = Some (room m q, m).
Proof. intros [i Hi]. unfold MEMITEM_SIZE, room. by rewrite (bind_mi _ _ _ _ Hi), Hi. Qed.

Lemma row_room l n u r fl m : mh_struct (l ++ (n, u) :: r) fl m -> room m (start_addr m + extent l) = n - 56.
Proof.
  intros Hm. pose proof (row_size l n u r fl m Hm) as E. destruct (row_item l n u r fl m Hm) as (i & Hi & _).
  rewrite room_eq in E by by exists i. by injection E.
Qed.

Lemma mh_find_loop_spec m h f1 f2 size s fuel :
  circle (free_links m) h (f1 ++ f2) -> free_list m = h -> size < s -> (S (length f2) < fuel)%nat ->
  exists q x, find_loop fuel (behind h f2) size s m = Some ((q, x), m) /\
    match list_find (fun q => s <= room m q) f2 with
    | Some (_, q') => q = q' /\ x = room m q
    | None => x < s
    end.
Proof.
  intros Hc Hh. revert f1 size fuel Hc. induction f2 as [|q f2 IH]; intros f1 size fuel Hc Hs Hf;
    (destruct fuel as [|fuel]; [simpl in Hf; lia|]); simpl find_loop; rewrite bind_gets, Hh.
  - change (behind h []) with h. rewrite Z.eqb_refl. simpl. by exists h, size.
  - assert (q <> h) as Hq.
    { intros ->. destruct Hc as [Hnd _]. apply NoDup_cons in Hnd as [Hnd _]. set_solver. }
    change (behind h (q :: f2)) with q. rewrite (proj2 (Z.eqb_neq q h) Hq), (proj2 (Z.ltb_lt size s) Hs). simpl.
    pose proof (circle_links (free_links m) h (f1 ++ [q]) f2) as Hl. rewrite <- app_assoc in Hl. specialize (Hl Hc) as [Hn _].
    unfold before in Hn. rewrite last_snoc in Hn. simpl in Hn.
    rewrite (bind_ok _ _ _ _ _ (room_eq m q (has_free_nxt _ _ _ Hn))).
    destruct (Z.ltb_spec (room m q) s) as [Hr|Hr].
    + rewrite decide_False by lia. mi_read (free_nxt _ _ _ Hn).
      destruct (IH (f1 ++ [q]) (room m q) fuel) as (q' & x & E & H); [by rewrite <- app_assoc|done|simpl in Hf; lia|].
      exists q', x. split; [done|]. by destruct (list_find _ f2) as [[? ?]|].
    + rewrite decide_True by lia. destruct fuel as [|fuel]; [simpl in Hf; lia|]. simpl find_loop.
      rewrite bind_gets, Hh, (proj2 (Z.eqb_neq q h) Hq), (proj2 (Z.ltb_ge (room m q) s) Hr). simpl. by exists q, (room m q).
Qed.

Lemma memheap_fuel_enough bs fl m : memheap_ok bs fl m -> (S (length fl) < memheap_fuel m)%nat.
Proof.
  intros Hm. rewrite (mo_members _ _ _ Hm). pose proof (free_starts_length (start_addr m) bs).
  destruct (spacious_extent bs (mo_spacious _ _ _ Hm)). pose proof (mo_extent _ _ _ Hm) as He. unfold memheap_fuel. hsize. dlia.
Qed.

(** ** Headers in order stay in order *)

Lemma struct_ext bs fl fl' m m' :
  mh_struct bs fl m -> core m' = core m -> block_links m' = block_links m -> tags m' = tags m ->
  circle (free_links m') (free_header m) fl' -> mh_struct bs fl' m'.
Proof.
  intros Hm (E1 & E2 & E3 & E4 & E5 & E6 & _)%core_inv Eb Et Hf.
  assert (free_header m' = free_header m) as E7 by (unfold free_header; by rewrite E2).
  constructor; rewrite ?E1, ?E2, ?E3, ?E4, ?E5, ?E6, ?E7, ?Eb, ?Et; try done; apply Hm.
Qed.

Lemma struct_views bs fl m m' :
  mh_struct bs fl m -> core m' = core m ->
  (forall x, x = start_addr m + extent bs \/ x ∈ starts (start_addr m) bs ->
     block_links m' !! x = block_links m !! x /\ tags m' !! x = tags m !! x) ->
  (forall x, x ∈ free_header m :: fl -> free_links m' !! x = free_links m !! x) -> mh_struct bs fl m'.
Proof.
  intros Hm (E1 & E2 & E3 & E4 & E5 & E6 & _)%core_inv Hb Hf.
  assert (free_header m' = free_header m) as E7 by (unfold free_header; by rewrite E2).
  constructor; rewrite ?E1, ?E2, ?E3, ?E4, ?E5, ?E6, ?E7; try apply Hm.
  - apply (circle_ext (block_links m)); [apply Hm|]. intros x Hx. apply Hb. by apply elem_of_cons in Hx.
  - apply (tagged_ext (tags m)); [apply Hm|]. intros x Hx. apply Hb. by right.
  - rewrite (proj2 (Hb _ (or_introl eq_refl))). apply Hm.
  - apply (circle_ext (free_links m)); [apply Hm|done].
Qed.

(** A block is marked used or free. *)
Lemma retag_spec l n u u' r fl m :
  mh_struct (l ++ (n, u) :: r) fl m ->
  exists m', upd_mi (start_addr m + extent l) (set_mi_magic (magic_of u')) m = Some (tt, m') /\
    mh_struct (l ++ (n, u') :: r) fl m' /\ rest m' = rest m.
Proof.
  intros Hm. destruct (row_item _ _ _ _ _ _ Hm) as (i & Hi & _ & Ep & _). set (p := start_addr m + extent l) in *.
  rewrite (upd_mi_eq _ _ _ _ Hi). set (m' := item_at _ _ m). exists m'. split; [done|]. split; [|done].
  assert (block_links m' = block_links m) as Eb by by apply (view_same _ _ i).
  assert (free_links m' = free_links m) as Ef by by apply (view_same _ _ i).
  assert (tags m' = <[p := (magic_of u', mh_address m)]> (tags m)) as Et.
  { unfold tags. simpl. rewrite fmap_insert. simpl. by rewrite Ep. }
  destruct (row_spacious _ _ _ _ _ _ Hm) as (_ & [Hn Hn4] & _).
  apply (rebuild l [(n, u)] [(n, u')] r fl fl m m' Hm); try done.
  - by repeat constructor.
  - fold p. simpl. intros x Hx. rewrite Et, lookup_insert_ne; [done|lia].
  - fold p. rewrite Et. split; [by rewrite lookup_insert_eq|done].
  - rewrite Eb. pose proof (mo_blocks _ _ _ Hm) as Hb. by rewrite starts_app in *.
  - rewrite Ef. apply Hm.
Qed.

(** Two neighbours become one block. *)
Lemma joined_struct l n0 u0 n u r fl fl' m m' :
  mh_struct (l ++ (n0, u0) :: (n, u) :: r) fl m -> core m' = core m -> tags m' = tags m ->
  (let p := start_addr m + extent l in
   bypassed p (p + n0) (p + n0 + n) (block_links m) (block_links m')) ->
  circle (free_links m') (free_header m) fl' -> mh_struct (l ++ (n0 + n, u0) :: r) fl' m'.
Proof.
  intros Hm Ec Et Hb Hf. cbv zeta in Hb. set (p := start_addr m + extent l) in *.
  assert (mh_struct ((l ++ [(n0, u0)]) ++ (n, u) :: r) fl m) as Hm2 by by rewrite <- app_assoc.
  destruct (row_spacious _ _ _ _ _ _ Hm) as (_ & [Hn0 Hn04] & _).
  destruct (row_spacious _ _ _ _ _ _ Hm2) as (_ & [Hn Hn4] & _).
  apply (rebuild l [(n0, u0); (n, u)] [(n0 + n, u0)] r fl fl' m m' Hm); try done.
  - simpl. lia.
  - repeat constructor; simpl; hsize; [lia|dlia].
  - intros x _. by rewrite Et.
  - rewrite Et. pose proof (mo_tags _ _ _ Hm) as Ht. apply tagged_app in Ht as [_ [Ht _]]. by split.
  - pose proof (row_next _ _ _ _ _ _ Hm2) as Hrn. pose proof (mo_blocks _ _ _ Hm) as Hc.
    rewrite <- app_assoc, (extent_app l [(n0, u0)]) in Hrn. simpl in Hrn.
    replace (start_addr m + (extent l + (n0 + 0))) with (p + n0) in Hrn by (unfold p; lia).
    rewrite starts_app in *. simpl in *. fold p in Hc |- *. replace (p + (n0 + n)) with (p + n0 + n) by lia.
    replace (starts (start_addr m) l ++ p :: starts (p + n0 + n) r)
      with ((starts (start_addr m) l ++ [p]) ++ starts (p + n0 + n) r) by by rewrite <- app_assoc.
    apply (circle_bypassed (block_links m) _ _ _ _ (p + n0)); [by rewrite <- app_assoc|].
    unfold before. rewrite last_snoc. simpl default. by rewrite Hrn.
Qed.

(** A block is cut in two; the second part, at [q], is not on the free list yet. *)
Lemma cut_struct l n u a r fl m :
  mh_struct (l ++ (n, u) :: r) fl m -> 68 <= a -> 68 <= n - a -> a mod 4 = 0 ->
  (forall x, x ∈ fl -> x ∈ starts (start_addr m) (l ++ (n, u) :: r)) ->
  let p := start_addr m + extent l in
  exists m', cut_item p (p + a) m = Some (tt, m') /\ mh_struct (l ++ (a, u) :: (n - a, false) :: r) fl m' /\
    has m' (p + a) /\ relinked (with_new (p + a) m) m' /\ p + a ∉ free_header m :: fl.
Proof.
  intros Hm Ha Hna Ha4 Hfl p. set (q := p + a). set (e := start_addr m + extent (l ++ (n, u) :: r)).
  destruct (row_place _ _ _ _ _ _ Hm) as (P0 & P1 & P2 & P3 & P4 & P5 & P6 & P7). fold p e in P1, P2, P3, P5, P6, P7.
  destruct (row_spacious _ _ _ _ _ _ Hm) as (Hl & [Hn Hn4] & Hr).
  pose proof (mo_blocks _ _ _ Hm) as Hb. rewrite starts_split in Hb. fold p e in Hb.
  assert (forall x, x ∈ starts (start_addr m) l ++ p :: starts (p + n) r -> x <> q /\ away q sizeof_item x) as Hst.
  { intros x. unfold away, q. hsize. intros [Hx|[->|Hx]%elem_of_cons]%elem_of_app; [|lia|];
      apply starts_apart in Hx; (done || lia). }
  assert (forall x, x ∈ e :: starts (start_addr m) l ++ p :: starts (p + n) r \/ x ∈ free_header m :: fl ->
    x <> q /\ away q sizeof_item x) as Hpl.
  { intros x [[->|Hx]%elem_of_cons|[->|Hx]%elem_of_cons]; [|by apply Hst| |]; [unfold away, q; hsize; lia..|].
    apply Hst. apply Hfl in Hx. by rewrite starts_split in Hx. }
  destruct (cut_circle e _ p _ _ fl q m Hb (mo_free _ _ _ Hm) Hpl) as (m' & E & B & F & Hq & [T R]).
  exists m'. split; [done|]. split; [|split; [done|split; [done|]]].
  - apply (rebuild l [(n, u)] [(a, u); (n - a, false)] r fl fl m m' Hm).
    + by destruct (rest_inv _ _ R).
    + simpl. lia.
    + repeat constructor; simpl; hsize; try lia; dlia.
    + fold p. simpl. intros x Hx. rewrite T. apply with_new_views; unfold away, q; hsize; lia.
    + fold p. rewrite T. split; [|split; [apply with_new_tag|done]].
      pose proof (mo_tags _ _ _ Hm) as Ht. apply tagged_app in Ht as [_ [Ht _]]. fold p in Ht.
      transitivity (tags m !! p); [|exact Ht]. apply with_new_views; unfold away, q; hsize; lia.
    + simpl. rewrite starts_app. simpl. fold p e q. by replace (q + (n - a)) with (p + n) by (unfold q; lia).
    + done.
  - intros Hx. by apply (Hpl q); [right|].
Qed.

(** A block that is not there yet is put first on the free list. *)
Lemma link_struct bs fl q m :
  mh_struct bs fl m -> has m q -> q ∉ free_header m :: fl ->
  exists m', link_free q m = Some (tt, m') /\ mh_struct bs (q :: fl) m' /\ rest m' = rest m.
Proof.
  intros Hm Hq Hn. destruct (mo_heads _ _ _ Hm) as [Hh _].
  destruct (link_free_circle (free_header m) q fl m (mo_free _ _ _ Hm) Hh Hq Hn) as (m' & E & F & B & [T R]).
  exists m'. split; [done|]. split; [|done]. apply (struct_ext bs fl _ m); try done. by destruct (rest_inv _ _ R).
Qed.

(** The free block behind a block joins it. *)
Lemma remove_next_struct l n u k r f1 f2 m :
  let p := start_addr m + extent l in
  mh_struct (l ++ (n, u) :: (k, false) :: r) (f1 ++ (p + n) :: f2) m ->
  exists m', _remove_next_ptr (p + n) m = Some (tt, m') /\
    mh_struct (l ++ (n + k, u) :: r) (f1 ++ f2) m' /\ rest m' = rest m.
Proof.
  intros p Hm. assert (mh_struct ((l ++ [(n, u)]) ++ (k, false) :: r) (f1 ++ (p + n) :: f2) m) as Hm2 by by rewrite <- app_assoc.
  destruct (row_spacious _ _ _ _ _ _ Hm) as (_ & [Hn _] & _). destruct (row_spacious _ _ _ _ _ _ Hm2) as (_ & [Hk _] & _).
  destruct (row_links _ _ _ _ _ _ Hm) as [_ Lp]. fold p in Lp.
  destruct (row_links _ _ _ _ _ _ Hm2) as [_ Ly]. rewrite extent_app in Ly. simpl in Ly.
  replace (start_addr m + (extent l + (n + 0))) with (p + n) in Ly by (unfold p; lia).
  pose proof (mo_free _ _ _ Hm) as Hf. destruct (circle_split _ _ _ _ _ Hf) as (La' & Ly' & Ha' & Hy' & _).
  destruct (remove_next_spec p (p + n) (p + n + k) _ _ m La' Ly' Ha' Hy' Lp Ly) as (m' & E & F & B & [T R]); [lia|lia|].
  exists m'. split; [done|]. split; [|done].
  apply (joined_struct l n u k false r _ _ m m' Hm); try done.
  - by destruct (rest_inv _ _ R).
  - by eapply circle_bypassed.
Qed.
