(* ===== verification/MemheapAlloc.v ===== *)
(** * Memory heaps: allocation

    [alloc_block] takes the first block of the free list that is large enough, and
    gives the rest of it back if that is worth a block. *)
From S2P Require Import Prelude Kservice Kernel Object RtList Sys Mem MemSpec MemOps Memheap MemheapSpec MemheapOps.

(** Between [m] and [m'] no byte has changed but from [lo] to [hi]. *)
Record kept (lo hi : Z) (m m' : rt_memheap) : Prop := Kept {
  ke_core : core m' = core m;
  ke_bytes x : ~ (lo <= x < hi) -> mh_bytes m' !! x = mh_bytes m !! x
}.

Lemma kept_trans lo hi m1 m2 m3 : kept lo hi m1 m2 -> kept lo hi m2 m3 -> kept lo hi m1 m3.
Proof. intros [C1 B1] [C2 B2]. split; [congruence|]. intros x Hx. by rewrite B2, B1. Qed.
Lemma kept_le lo hi lo' hi' m m' :
  (forall x, lo <= x < hi -> lo' <= x < hi') -> kept lo hi m m' -> kept lo' hi' m m'.
Proof. intros Hl [C B]. split; [done|]. intros x Hx. apply B. intros H. by apply Hl in H. Qed.

Lemma kept_rest m m' : rest m' = rest m -> kept 0 0 m m'.
Proof. intros (E & _ & _ & E')%rest_inv. split; [done|]. intros x _. by rewrite E'. Qed.

(** The magic number and the owner of the item at [p] are written. *)
Lemma mh_mark_spec p magic owner i m :
  mh_items m !! p = Some i ->
  exists m', (upd_mi p (set_mi_magic magic);; upd_mi p (set_mi_owner owner)) m = Some (tt, m') /\
    block_links m' = block_links m /\ free_links m' = free_links m /\
    tags m' = <[p := (magic, mi_pool i)]> (tags m) /\ rest m' = rest m.
Proof.
  intros Hi. rewrite (bind_ok _ _ _ _ _ (upd_mi_eq p _ i m Hi)).
  assert (mh_items (item_at p (set_mi_magic magic i) m) !! p = Some (set_mi_magic magic i)) as Hi' by apply lookup_insert_eq.
  rewrite (upd_mi_eq _ _ _ _ Hi'). eexists. split; [done|]. split; [|split; [|split; [|done]]];
    unfold block_links, free_links, tags; simpl; rewrite insert_insert_eq.
  - by apply (view_same _ _ i).
  - by apply (view_same _ _ i).
  - by rewrite fmap_insert.
Qed.

Definition used_up (x : Z) (m : rt_memheap) : rt_memheap :=
  let available := u64 (available_size m - x) in
  let used := u64 (pool_size m - available) in
  set_available available (if max_used_size m <? used then used else max_used_size m) m.
Lemma bind_take {B} x (f : unit -> N B) m : (take_available x ≫= f) m = f tt (used_up x m).
Proof. done. Qed.

Lemma used_up_rest x m m' : rest m' = rest m -> rest (used_up x m') = rest (used_up x m).
Proof.
  intros E. destruct (rest_inv _ _ E) as (Ec & Ea & Ex & Eb). unfold rest, used_up. simpl.
  rewrite Ea, Ex, Eb. injection Ec as ? ? ? Ep ? ? ?. rewrite Ep. unfold core. simpl. congruence.
Qed.

Lemma with_new_rest q m m' : rest m' = rest m -> rest (with_new q m') = rest (with_new q m).
Proof.
  intros (Ec & Ea & Ex & Eb)%rest_inv. unfold rest, with_new. simpl. rewrite Ea, Ex, Eb.
  apply core_inv in Ec as (E1 & E2 & E3 & E4 & E5 & E6 & E7). unfold core. simpl. congruence.
Qed.

Lemma used_up_counts x m :
  0 <= x <= available_size m -> available_size m <= pool_size m < 2 ^ 64 ->
  available_size (used_up x m) = available_size m - x /\
  pool_size m - available_size (used_up x m) <= max_used_size (used_up x m).
Proof.
  intros Hx Ha. unfold used_up. simpl. rewrite (u64_small (available_size m - x)) by lia.
  rewrite u64_small by lia. zcases; lia.
Qed.

Definition mh_taken (n s : Z) : list block :=
  if s + 68 <=? n - 56 then [(s + 56, true); (n - s - 56, false)] else [(n, true)].
(** The free list behind its head: the block at [p] of length [n] is gone. *)
Definition mh_rest (p n s : Z) (fl : list Z) : list Z :=
  if s + 68 <=? n - 56 then (p + s + 56) :: fl else fl.

Lemma available_bound bs fl m : memheap_ok bs fl m -> 0 <= available_size m <= pool_size m /\ pool_size m < 2 ^ 64.
Proof.
  intros Hm. rewrite (mo_available _ _ _ Hm). destruct (free_room_bound _ (mo_spacious _ _ _ Hm)).
  pose proof (mo_extent _ _ _ Hm). destruct (mo_place _ _ _ Hm) as (? & _ & ? & _). hsize. lia.
Qed.

Section take.
Context (l : list block) (n : Z) (r : list block) (f1 f2 : list Z) (m : rt_memheap).
Let p := start_addr m + extent l.
Let e := start_addr m + extent (l ++ (n, false) :: r).
Let h := free_header m.
Context (Hm : memheap_ok (l ++ (n, false) :: r) (f1 ++ p :: f2) m).
Lemma take_members : f1 ++ f2 ≡ₚ free_starts (start_addr m) l ++ free_starts (p + n) r.
Proof using Hm.
  pose proof (mo_members _ _ _ Hm) as H. rewrite free_starts_app in H. simpl in H.
  rewrite <- !Permutation_middle in H. by apply Permutation_cons_inv in H.
Qed.

Lemma row_free_room : n - 56 <= available_size m.
Proof using Hm.
  rewrite (mo_available _ _ _ Hm), free_room_app. simpl. hsize.
  destruct (row_spacious _ _ _ _ _ _ Hm) as (Hl & _ & Hr). destruct (free_room_bound _ Hl), (free_room_bound _ Hr). lia.
Qed.

Context (s : Z) (Hs : 12 <= s <= n - 56) (Hs4 : s mod 4 = 0).
Let q := p + s + 56.

(** The whole block is taken off the free list. *)
Lemma carve_whole_spec :
  n - 56 < s + 68 ->
  exists m', carve p (n - 56) s m = Some (tt, m') /\ block_links m' = block_links m /\
    circle (free_links m') h (f1 ++ f2) /\ tags m' = tags m /\ rest m' = rest (used_up (n - 56) m).
Proof using Hm Hs.
  clear Hs4. intros Hbig.
  destruct (row_place _ _ _ _ _ _ Hm) as (P0 & P1 & P2 & P3 & P4 & P5 & P6 & P7). fold p e in P1, P2, P3, P5, P6, P7.
  unfold carve. change RT_MEMHEAP_SIZE with 56. change RT_MEMHEAP_MINIALLOC with 12.
  rewrite u64_small by lia. rewrite (proj2 (Z.leb_gt (s + 56 + 12) (n - 56))) by lia. rewrite bind_take.
  destruct (unlink_forget_circle h f1 p f2 (used_up (n - 56) m)) as (m1 & m2 & E1 & E2 & C2 & B2 & [T2 R2]); [apply Hm|].
  rewrite (bind_ok _ _ _ _ _ E1). by exists m2.
Qed.

Lemma cut_place x :
  s + 68 <= n - 56 ->
  x ∈ e :: starts (start_addr m) l ++ p :: starts (p + n) r \/ x ∈ h :: f1 ++ p :: f2 -> x <> q /\ away q sizeof_item x.
Proof using Hm Hs.
  clear Hs4. intros Hn Hx. destruct (row_place _ _ _ _ _ _ Hm) as (P0 & P1 & P2 & P3 & P4 & P5 & P6 & P7).
  fold p e h in P1, P2, P3, P5, P6, P7. destruct (row_spacious _ _ _ _ _ _ Hm) as (Hl & _ & Hr).
  assert (x = e \/ x = h \/ x ∈ starts (start_addr m) l ++ p :: starts (p + n) r) as [->|[->|Hx']].
  { destruct Hx as [[?|?]%elem_of_cons|[?|Hx]%elem_of_cons]; [tauto|tauto|tauto|]. right; right.
    rewrite (mo_members _ _ _ Hm) in Hx. apply free_starts_starts in Hx. by rewrite starts_split in Hx. }
  - unfold away, q. hsize. lia.
  - unfold away, q. hsize. lia.
  - unfold away, q. hsize. apply elem_of_app in Hx' as [Hx'|[->|Hx']%elem_of_cons]; [|lia|];
      apply starts_apart in Hx'; (done || lia).
Qed.

(** The first [s] bytes are taken, and the rest is free. *)
Lemma carve_split_spec :
  s + 68 <= n - 56 ->
  exists m', carve p (n - 56) s m = Some (tt, m') /\
    circle (block_links m') e (starts (start_addr m) l ++ p :: q :: starts (p + n) r) /\
    circle (free_links m') h (q :: f1 ++ f2) /\ tags m' = tags (with_new q m) /\
    rest m' = rest (used_up (s + 56) (with_new q m)).
Proof using Hm Hs.
  clear Hs4. intros Hbig. destruct (row_place _ _ _ _ _ _ Hm) as (P0 & P1 & P2 & P3 & P4 & P5 & P6 & P7). fold p e in P1, P2, P3, P5, P6, P7.
  pose proof (mo_blocks _ _ _ Hm) as Hb. rewrite starts_split in Hb. fold p e in Hb.
  destruct (cut_circle e (starts (start_addr m) l) p (starts (p + n) r) h (f1 ++ p :: f2) q m Hb (mo_free _ _ _ Hm))
    as (m1 & E1 & B1 & F1 & H1 & R1); [intros; by apply cut_place|].
  destruct (unlink_forget_circle h f1 p f2 m1 F1) as (m2 & m3 & E2 & E3 & F3 & B3 & R3).
  assert (relinked (with_new q m) m3) as R by by transitivity m1.
  destruct (rest_inv _ _ (rl_rest _ _ R)) as ((_ & _ & _ & _ & _ & El & _)%core_inv & _).
  destruct (link_free_circle h q (f1 ++ f2) m3 F3) as (m4 & E4 & F4 & B4 & [T4 R4]).
  { rewrite El. apply Hm. } { by apply (has_relinked m1). }
  { intros Hx. apply (cut_place q Hbig); [|done]. right. rewrite elem_of_cons, elem_of_app in *. rewrite elem_of_cons. tauto. }
  exists (used_up (s + 56) m4). split; [|split; [|split; [done|split; [by apply (eq_trans T4), R|]]]].
  - unfold carve. change RT_MEMHEAP_SIZE with 56. change RT_MEMHEAP_MINIALLOC with 12.
    rewrite u64_small by lia. rewrite (proj2 (Z.leb_le (s + 56 + 12) (n - 56))) by lia.
    rewrite (u64_small (p + s + 56)) by lia. fold q. cbv zeta.
    rewrite (bind_ok _ _ _ _ _ E1), (bind_ok _ _ _ _ _ E2), (bind_ok _ _ _ _ _ E3). by rewrite (bind_ok _ _ _ _ _ E4).
  - change (block_links (used_up (s + 56) m4)) with (block_links m4). by rewrite B4, B3.
  - apply used_up_rest. by apply (eq_trans R4), R.
Qed.
Lemma take_merged : merged true (l ++ mh_taken n s ++ r).
Proof using Hm.
  pose proof (mo_merged _ _ _ Hm) as Hg. apply merged_app in Hg as [Hl Hg]. simpl in Hg. destruct Hg as [Hu Hr].
  apply merged_app. split; [done|]. unfold mh_taken.
  destruct (_ <=? _); simpl; rewrite !orb_true_r; [done|]. split; [done|]. by eapply merged_weaken.
Qed.

(** Off the free list, the block is marked. *)
Lemma mh_take_mark_spec self m1 :
  core m1 = core m ->
  (forall x, x + 56 <= p \/ p + n <= x -> tags m1 !! x = tags m !! x) ->
  tags m1 !! p = Some (freed_magic, mh_address m) ->
  (s + 68 <= n - 56 -> tags m1 !! q = Some (freed_magic, mh_address m)) ->
  circle (block_links m1) e (starts (start_addr m) (l ++ mh_taken n s ++ r)) ->
  circle (free_links m1) h (mh_rest p n s (f1 ++ f2)) ->
  available_size m1 = available_size m - (if s + 68 <=? n - 56 then s + 56 else n - 56) ->
  pool_size m - available_size m1 <= max_used_size m1 ->
  exists m', (upd_mi p (set_mi_magic used_magic);; upd_mi p (set_mi_owner (owner_name self))) m1 = Some (tt, m') /\
    memheap_ok (l ++ mh_taken n s ++ r) (mh_rest p n s (f1 ++ f2)) m' /\ mh_bytes m' = mh_bytes m1 /\ core m' = core m.
Proof using Hm Hs Hs4.
  intros Hc Ht Htp Htq Hb Hf Ha Hmx. destruct (tags_item _ _ _ _ Htp) as (i & Hi & Ei & Ep).
  destruct (mh_mark_spec p used_magic (owner_name self) i m1 Hi) as (m' & E & B & F & T & R).
  destruct (rest_inv _ _ R) as (Rc & Ra & Rx & Rb). exists m'. split; [done|].
  split; [|split; [done|by rewrite Rc]].
  destruct (row_spacious _ _ _ _ _ _ Hm) as (Hl & [Hn Hn4] & Hr).
  destruct (core_inv _ _ Rc) as (_ & _ & Ec3 & Ec4 & _). destruct (core_inv _ _ Hc) as (_ & _ & Ed3 & Ed4 & _).
  constructor; rewrite ?Ec3, ?Ec4, ?Ed3, ?Ed4; [apply (rebuild l [(n, false)] (mh_taken n s) r (f1 ++ p :: f2) _ m m' Hm)|..].
  - by rewrite Rc.
  - unfold mh_taken. zcases; simpl; lia.
  - unfold mh_taken. zcases; repeat constructor; simpl; hsize; try lia; try done; dlia.
  - fold p. simpl. intros x Hx. rewrite T, lookup_insert_ne by lia. apply Ht. lia.
  - fold p. rewrite Ep in T. unfold mh_taken. zcases; simpl; rewrite T; (split; [by rewrite lookup_insert_eq|]); [|done].
    split; [|done]. rewrite lookup_insert_ne by lia. replace (p + (s + 56)) with q by (unfold q; lia). by apply Htq.
  - by rewrite B.
  - by rewrite F.
  - rewrite !free_starts_app. fold p. unfold mh_rest, mh_taken.
    zcases; simpl; rewrite take_members; [|by replace (p + (n + 0)) with (p + n) by lia].
    replace (p + (s + 56 + (n - s - 56 + 0))) with (p + n) by lia.
    replace (p + (s + 56)) with (p + s + 56) by lia. by rewrite Permutation_middle.
  - rewrite Ra, Ha, (mo_available _ _ _ Hm), !free_room_app. unfold mh_taken. hsize. zcases; simpl; hsize; lia.
  - rewrite Ra, Rx. done.
  - apply take_merged.
Qed.
Lemma take_block_spec self :
  exists m', take_block self p (n - 56) s m = Some (p + 56, m') /\
    memheap_ok (l ++ mh_taken n s ++ r) (mh_rest p n s (f1 ++ f2)) m' /\ kept (p + 56) (p + n) m m'.
Proof using Hm Hs Hs4.
  destruct (row_place _ _ _ _ _ _ Hm) as (P0 & P1 & P2 & P3 & P4 & P5 & P6 & P7). fold p e in P1, P2, P3, P5, P6, P7.
  pose proof (available_bound _ _ _ Hm) as Hb. pose proof row_free_room as Hfr.
  assert (tags m !! p = Some (freed_magic, mh_address m)) as Htp.
  { pose proof (mo_tags _ _ _ Hm) as Ht. apply tagged_app in Ht as [_ [Ht _]]. exact Ht. }
  assert (exists m1 m', carve p (n - 56) s m = Some (tt, m1) /\
    (upd_mi p (set_mi_magic used_magic);; upd_mi p (set_mi_owner (owner_name self))) m1 = Some (tt, m') /\
    memheap_ok (l ++ mh_taken n s ++ r) (mh_rest p n s (f1 ++ f2)) m' /\ kept (p + 56) (p + n) m m')
    as (m1 & m' & E1 & E2 & Hok & K).
  2: { exists m'. split; [|done]. unfold take_block. rewrite (bind_ok _ _ _ _ _ E1).
       apply bind_Some in E2 as (? & m2 & E2 & E3). rewrite (bind_ok _ _ _ _ _ E2), (bind_ok _ _ _ _ _ E3).
       unfold mret, St_ret. hsize. rewrite u64_small by lia. done. }
  destruct (Z.le_gt_cases (s + 68) (n - 56)) as [Hbig|Hbig].
  - destruct (carve_split_spec Hbig) as (m1 & E1 & B1 & F1 & T1 & R1).
    destruct (rest_inv _ _ R1) as (Rc & Ra & Rx & Rb).
    destruct (used_up_counts (s + 56) (with_new q m)) as [C1 C2]; [simpl; lia|simpl; lia|].
    destruct (mh_take_mark_spec self m1) as (m' & E' & Hok & Eb & Ec).
    + by rewrite Rc.
    + intros x Hx. rewrite T1. apply with_new_views; unfold away, q; hsize; lia.
    + rewrite T1. rewrite <- Htp. apply with_new_views; unfold away, q; hsize; lia.
    + intros _. rewrite T1. apply with_new_tag.
    + unfold mh_taken. rewrite (proj2 (Z.leb_le _ _) Hbig). rewrite starts_app. simpl. fold p.
      replace (p + (s + 56)) with q by (unfold q; lia). replace (q + (n - s - 56)) with (p + n) by (unfold q; lia). done.
    + unfold mh_rest. rewrite (proj2 (Z.leb_le _ _) Hbig). fold q. by replace (p + s + 56) with q by done.
    + rewrite (proj2 (Z.leb_le _ _) Hbig), Ra, C1. done.
    + rewrite Ra, Rx. simpl in C2. exact C2.
    + exists m1, m'. split_and!; try done. constructor; [done|]. intros x Hx. rewrite Eb, Rb.
      apply with_new_bytes. unfold q. hsize. lia.
  - destruct (carve_whole_spec) as (m1 & E1 & B1 & F1 & T1 & R1); [lia|].
    destruct (rest_inv _ _ R1) as (Rc & Ra & Rx & Rb).
    destruct (used_up_counts (n - 56) m) as [C1 C2]; [lia|lia|].
    assert ((s + 68 <=? n - 56) = false) as Hle by (apply Z.leb_gt; lia).
    destruct (mh_take_mark_spec self m1) as (m' & E' & Hok & Eb & Ec); try (by rewrite T1).
    + by rewrite Rc.
    + lia.
    + unfold mh_taken. rewrite Hle, B1. pose proof (mo_blocks _ _ _ Hm) as Hbl. rewrite starts_app in *. done.
    + unfold mh_rest. by rewrite Hle.
    + by rewrite Hle, Ra, C1.
    + by rewrite Ra, Rx.
    + exists m1, m'. split_and!; try done. constructor; [done|]. intros x Hx. by rewrite Eb, Rb.
Qed.
End take.

(** ** The whole search *)

Lemma free_block_at bs fl m p :
  memheap_ok bs fl m -> p ∈ fl ->
  exists l n r, bs = l ++ (n, false) :: r /\ p = start_addr m + extent l /\ room m p = n - 56.
Proof.
  intros Hm Hp. rewrite (mo_members _ _ _ Hm) in Hp. apply free_starts_elem in Hp as (l & n & r & -> & ->).
  exists l, n, r. split_and!; try done. apply (row_room l n false r fl), Hm.
Qed.

Lemma alloc_block_spec self s bs fl m :
  memheap_ok bs fl m -> 12 <= s -> s mod 4 = 0 ->
  match list_find (fun q => s <= room m q) fl with
  | None => alloc_block self s m = Some (None, m)
  | Some (k, p) => exists l n r m', bs = l ++ (n, false) :: r /\ p = start_addr m + extent l /\ s <= n - 56 /\
      alloc_block self s m = Some (Some (p + 56), m') /\
      memheap_ok (l ++ mh_taken n s ++ r) (mh_rest p n s (delete k fl)) m' /\ kept (p + 56) (p + n) m m'
  end.
Proof.
  intros Hm Hs Hs4. destruct (mo_heads _ _ _ Hm) as [Hh _]. pose proof (mo_free _ _ _ Hm) as Hc.
  assert (nxt (free_links m) (free_list m) = Some (behind (free_header m) fl)) as Hn.
  { rewrite Hh. by apply (circle_links _ _ [] fl). }
  destruct (mh_find_loop_spec m (free_header m) [] fl 0 s (memheap_fuel m) Hc Hh) as (q & x & E & Hf);
    [lia|by eapply memheap_fuel_enough|].
  assert (forall f : Z * Z -> N (option Z), (f' ← gets free_list; i ← get_mi f'; fuel ← gets memheap_fuel;
    r ← find_loop fuel (mi_next_free i) 0 s; f r) m = f (q, x) m) as E1.
  { intros f. rewrite bind_gets. mi_read (free_nxt _ _ _ Hn). rewrite bind_gets. by rewrite (bind_ok _ _ _ _ _ E). }
  unfold alloc_block. rewrite E1. simpl. destruct (list_find _ fl) as [[k p]|] eqn:El.
  - destruct Hf as [-> ->]. apply list_find_Some in El as (Hk & Hr & _).
    destruct (free_block_at bs fl m p Hm) as (l & n & r & -> & -> & Er); [by eapply list_elem_of_lookup_2|].
    apply list_elem_of_split_length in Hk as (f1 & f2 & -> & ->).
    destruct (take_block_spec l n r f1 f2 m Hm s ltac:(lia) Hs4 self) as (m' & E2 & Hok & K).
    exists l, n, r, m'. split_and!; try done; [lia| |].
    + rewrite (proj2 (Z.leb_le _ _) Hr), Er. by rewrite (bind_ok _ _ _ _ _ E2).
    + by rewrite delete_middle.
  - by rewrite (proj2 (Z.leb_gt _ _) Hf).
Qed.
