(* ===== verification/MemheapFree.v ===== *)
(** * Memory heaps: release

    [free_block] makes a block free and joins it with the free blocks before and
    behind it, so that the row of blocks becomes [freed] of MemOps.v. *)
From S2P Require Import Prelude Kservice Kernel Object RtList Sys Mem MemSpec MemOps.
From S2P Require Import Memheap MemheapSpec MemheapOps MemheapAlloc.

(** From [m] to [m'] [x] bytes have become available. *)
Record gave (x : Z) (m m' : rt_memheap) : Prop := Gave {
  ga_core : core m' = core m;
  ga_bytes : mh_bytes m' = mh_bytes m;
  ga_max : max_used_size m' = max_used_size m;
  ga_available : 0 <= available_size m -> available_size m + x < 2 ^ 64 -> available_size m' = available_size m + x
}.

Lemma gave_rest x m m' : 0 <= x -> rest m' = rest (given x m) -> gave x m m'.
Proof.
  intros Hx (Ec & Ea & Em & Eb)%rest_inv. constructor; try done. intros H0 Hlt. rewrite Ea. simpl. apply u64_small. lia.
Qed.
Lemma gave_zero m m' : rest m' = rest m -> gave 0 m m'.
Proof. intros (Ec & Ea & Em & Eb)%rest_inv. constructor; try done. lia. Qed.
Lemma gave_trans x y m1 m2 m3 : 0 <= x -> 0 <= y -> gave x m1 m2 -> gave y m2 m3 -> gave (x + y) m1 m3.
Proof. intros Hx Hy [] []. constructor; try congruence. intros H0 Hl. rewrite ga_available1; lia. Qed.

Lemma gave_eq x y m m' : x = y -> gave x m m' -> gave y m m'.
Proof. by intros ->. Qed.

Lemma used_magic_of i u : mi_magic i = magic_of u -> RT_MEMHEAP_IS_USED i = u.
Proof. unfold RT_MEMHEAP_IS_USED. intros ->. by destruct u. Qed.

Lemma struct_given x bs fl m : mh_struct bs fl m -> mh_struct bs fl (given x m).
Proof. intros Hm. apply (struct_ext bs fl fl m); try done. apply Hm. Qed.

(** The row before a block that joins the free one before it, and its length. *)
Definition join_left (l : list block) (n : Z) : list block * Z :=
  match last l with Some (n0, false) => (removelast l, n0 + n) | _ => (l, n) end.

Lemma join_left_cases l n :
  (last_used true l = true /\ join_left l n = (l, n)) \/
  exists l0 n0, last_used true l = false /\ l = l0 ++ [(n0, false)] /\ join_left l n = (l0, n0 + n).
Proof.
  destruct l as [|[n0 u0] l _] using rev_ind; [by left|]. unfold join_left. rewrite last_used_app, last_snoc.
  destruct u0; [by left|]. right. exists l, n0. by rewrite removelast_last.
Qed.

Lemma freed_eq l n r :
  freed l n r = let '(l1, n1) := join_left l n in let '(n2, r2) := join_next n1 r in l1 ++ (n2, false) :: r2.
Proof.
  unfold freed, join_prev, join_left, join_next.
  destruct (last l) as [[n0 []]|], r as [|[n2 []] r']; simpl; try done. by rewrite Z.add_assoc.
Qed.

(** ** Joining the block before *)

Section left.
Context (l : list block) (n : Z) (r : list block) (fl : list Z) (m : rt_memheap).
Context (Hm : mh_struct (l ++ (n, false) :: r) fl m).
Let p := start_addr m + extent l.

Lemma left_spec {B} (f : bool -> Z -> N B) :
  let '(l1, n1) := join_left l n in
  let left := negb (last_used true l) in
  exists m', (i ← get_mi p; pi ← get_mi (mi_prev i);
    h ← (if negb (RT_MEMHEAP_IS_USED pi) then merge_left p else mret p);
    f (negb (RT_MEMHEAP_IS_USED pi)) h) m = f left (start_addr m + extent l1) m' /\
    mh_struct (l1 ++ (n1, false) :: r) fl m' /\ gave (if left then 56 else 0) m m'.
Proof using Hm.
  destruct (row_item _ _ _ _ _ _ Hm) as (i & Hi & _ & _ & _ & Ep). fold p in Hi, Ep.
  destruct (row_before _ _ _ _ _ _ Hm) as (j & Hj & Ej). rewrite <- Ep in Hj.
  pose proof (used_magic_of _ _ Ej) as Eu.
  destruct (join_left_cases l n) as [[Hl ->]|(l0 & n0 & Hl & E & ->)]; rewrite Hl in *; simpl.
  - exists m. rewrite (bind_mi _ _ _ _ Hi), (bind_mi _ _ _ _ Hj), Eu. split; [done|]. split; [done|]. by apply gave_zero.
  - assert (mh_struct (l0 ++ (n0, false) :: (n, false) :: r) fl m) as Hm0.
    { rewrite E in Hm. by rewrite <- app_assoc in Hm. }
    set (a := start_addr m + extent l0). assert (p = a + n0) as Epa.
    { unfold p, a. rewrite E, extent_app. simpl. lia. }
    destruct (row_links _ _ _ _ _ _ Hm0) as [_ La]. destruct (row_links _ _ _ _ _ _ Hm) as [_ Lp].
    fold a in La. fold p in Lp. rewrite <- Epa in La.
    destruct (row_spacious _ _ _ _ _ _ Hm0) as (_ & [Hn0 _] & _). destruct (row_spacious _ _ _ _ _ _ Hm) as (_ & [Hn _] & _).
    destruct (merge_left_spec a p (p + n) m La Lp) as (m' & E' & B' & F' & [T' R']); [lia|lia|].
    exists m'. rewrite (bind_mi _ _ _ _ Hi), (bind_mi _ _ _ _ Hj), Eu. simpl. rewrite (bind_ok _ _ _ _ _ E').
    split; [done|]. split; [|by apply gave_rest].
    apply (joined_struct l0 n0 false n false r fl fl m m' Hm0).
    + by destruct (rest_inv _ _ R').
    + by rewrite T'.
    + fold a. cbv zeta. by rewrite <- Epa.
    + rewrite F'. apply Hm.
Qed.
End left.

(** ** Joining the block behind *)

Definition without_right (p n : Z) (r : list block) (fl : list Z) : list Z :=
  match r with (_, false) :: _ => filter (fun x => x <> p + n) fl | _ => fl end.

Section right.
Context (l : list block) (n : Z) (r : list block) (fl : list Z) (m : rt_memheap).
Context (Hm : mh_struct (l ++ (n, false) :: r) fl m).
Let p := start_addr m + extent l.
Context (Hfl : match r with (_, false) :: _ => p + n ∈ fl | _ => True end).

Lemma right_spec {B} (f : unit -> N B) :
  let '(n2, r2) := join_next n r in
  exists m', (i ← get_mi p; ni ← get_mi (mi_next i);
    when (negb (RT_MEMHEAP_IS_USED ni)) (merge_right p);; f tt) m = f tt m' /\
    mh_struct (l ++ (n2, false) :: r2) (without_right p n r fl) m' /\
    gave (match r with (_, false) :: _ => 56 | _ => 0 end) m m'.
Proof using Hm Hfl.
  destruct (row_item _ _ _ _ _ _ Hm) as (i & Hi & _ & _ & Ep & _). fold p in Hi, Ep.
  destruct (row_behind _ _ _ _ _ _ Hm) as (j & Hj & _ & Ej). fold p in Hj. rewrite <- Ep in Hj.
  pose proof (used_magic_of _ _ Ej) as Eu.
  destruct r as [|[n2 []] r2]; simpl; simpl in Eu.
  1,2: exists m; rewrite (bind_mi _ _ _ _ Hi), (bind_mi _ _ _ _ Hj), Eu; split; [done|]; split; [done|by apply gave_zero].
  destruct (row_spacious _ _ _ _ _ _ Hm) as (_ & [Hn _] & _).
  assert (mh_struct ((l ++ [(n, false)]) ++ (n2, false) :: r2) fl m) as Hm2 by by rewrite <- app_assoc.
  destruct (row_spacious _ _ _ _ _ _ Hm2) as (_ & [Hn2 _] & _).
  destruct (row_links _ _ _ _ _ _ Hm) as [_ Lp]. fold p in Lp.
  destruct (row_links _ _ _ _ _ _ Hm2) as [_ Ly]. rewrite extent_app in Ly. simpl in Ly.
  replace (start_addr m + (extent l + (n + 0))) with (p + n) in Ly by (unfold p; lia).
  apply list_elem_of_split in Hfl as (f1 & f2 & Ef).
  set (m0 := given 56 m).
  destruct (cut_right_spec p (p + n) (p + n + n2) m0 (fun _ => unlink_free (p + n)) Lp Ly)
    as (m1 & E1 & B1 & F1 & [T1 R1]); [lia|lia|].
  destruct (unlink_circle (free_header m) f1 (p + n) f2 m1) as (m2 & E2 & F2 & B2 & [T2 R2]).
  { rewrite F1, <- Ef. apply Hm. }
  assert (rest m2 = rest m0) as R by congruence. assert (tags m2 = tags m) as T by by rewrite T2, T1.
  exists m2. rewrite (bind_mi _ _ _ _ Hi), (bind_mi _ _ _ _ Hj), Eu. split; [|split; [|by apply gave_rest]].
  - unfold when. simpl negb. cbv iota. assert (merge_right p m = Some (tt, m2)) as Em.
    { unfold merge_right. rewrite bind_give. change RT_MEMHEAP_SIZE with 56. fold m0.
      assert (mh_items m0 !! p = Some i) as Hi0 by done. rewrite (bind_mi _ _ _ _ Hi0), Ep. cbv zeta.
      by rewrite E1, E2. }
    by rewrite (bind_ok _ _ _ _ _ Em).
  - apply (joined_struct l n false n2 false r2 fl _ m m2 Hm).
    + by destruct (rest_inv _ _ R).
    + done.
    + fold p. cbv zeta. rewrite B2. done.
    + rewrite Ef, filter_app, filter_cons_False by auto.
      destruct (mo_free _ _ _ Hm) as [Hnd _]. rewrite Ef in Hnd. apply NoDup_cons in Hnd as [_ Hnd].
      apply NoDup_app in Hnd as (_ & Hd & Hnd). apply NoDup_cons in Hnd as [Hx _].
      rewrite !filter_ne_notin; [done|done|]. intros Hx1. apply (Hd _ Hx1). by left.
Qed.
End right.

(** ** The whole release *)

(** The free list after the block at [p] is released: it becomes the first free
    one, unless it has joined the one before it. *)
Definition freed_list (p : Z) (l : list block) (n : Z) (r : list block) (fl : list Z) : list Z :=
  if last_used true l then p :: without_right p n r fl else without_right p n r fl.

Lemma without_right_eq h n1 p n r fl : h + n1 = p + n -> without_right h n1 r fl = without_right p n r fl.
Proof. intros E. unfold without_right. by rewrite E. Qed.

Lemma without_right_sub x p n r fl : x ∈ without_right p n r fl -> x ∈ fl.
Proof. unfold without_right. destruct r as [|[? []] ?]; [done|done|]. by intros [_ ?]%list_elem_of_filter. Qed.

Lemma without_members p n r fl A :
  NoDup fl -> fl ≡ₚ A ++ free_starts (p + n) r ->
  let '(n2, r2) := join_next n r in without_right p n r fl ≡ₚ A ++ free_starts (p + n2) r2.
Proof.
  intros Hnd Hp. destruct r as [|[k []] r2]; simpl; [done|done|]. simpl in Hp.
  pose proof Hnd as Hnd'. rewrite Hp in Hnd'. apply NoDup_app in Hnd' as (_ & Hd & Hnd').
  apply NoDup_cons in Hnd' as [Hn _].
  rewrite Hp, filter_app, filter_cons_False by auto. rewrite !filter_ne_notin.
  - by rewrite Z.add_assoc.
  - done.
  - intros Hx. apply (Hd _ Hx). by left.
Qed.

Lemma freed_members s l n r fl :
  NoDup fl -> fl ≡ₚ free_starts s (l ++ (n, true) :: r) ->
  freed_list (s + extent l) l n r fl ≡ₚ free_starts s (freed l n r).
Proof.
  intros Hnd Hp. rewrite free_starts_app in Hp. simpl in Hp.
  pose proof (without_members (s + extent l) n r fl _ Hnd Hp) as Hw. unfold freed_list. rewrite freed_eq.
  destruct (join_left_cases l n) as [[-> ->]|(l0 & n0 & -> & -> & ->)].
  - destruct (join_next n r) as [n2 r2]. rewrite Hw, free_starts_app. simpl. by rewrite Permutation_middle.
  - assert (extent (l0 ++ [(n0, false)]) = extent l0 + n0) as Ee by (rewrite extent_app; simpl; lia).
    rewrite free_starts_app in Hw. rewrite Ee in *. simpl in Hw.
    destruct r as [|[k []] r2]; simpl in *; rewrite Hw, free_starts_app, <- app_assoc; simpl;
      [done| |]; apply Permutation_app_head, reflexive_eq; f_equal; f_equal; lia.
Qed.

Lemma freed_room l n r :
  free_room (freed l n r) = free_room l + free_room r + (n - 56) + (if last_used true l then 0 else 56) +
    (match r with (_, false) :: _ => 56 | _ => 0 end).
Proof.
  rewrite freed_eq. destruct (join_left_cases l n) as [[-> ->]|(l0 & n0 & -> & -> & ->)];
    destruct r as [|[k []] r2]; simpl; rewrite !free_room_app; simpl; hsize; lia.
Qed.

Section release.
Context (l : list block) (n : Z) (r : list block) (fl : list Z) (m : rt_memheap).
Context (Hm : memheap_ok (l ++ (n, true) :: r) fl m).
Let p := start_addr m + extent l.

(** The header is marked free and its bytes are given back. *)
Lemma release_mark {B} (f : unit -> N B) :
  exists m', (upd_mi p (set_mi_magic freed_magic);; size ← MEMITEM_SIZE p; give_available size;; f tt) m = f tt m' /\
    mh_struct (l ++ (n, false) :: r) fl m' /\ gave (n - 56) m m'.
Proof using Hm.
  destruct (retag_spec l n true false r fl m Hm) as (m1 & E1 & Hm1 & R1). fold p in E1.
  pose proof (row_size _ _ _ _ _ _ Hm1) as E2.
  destruct (rest_inv _ _ R1) as ((_ & _ & Es & _)%core_inv & _). rewrite Es in E2. fold p in E2.
  destruct (row_spacious _ _ _ _ _ _ Hm) as (_ & [Hn _] & _).
  exists (given (n - 56) m1). change freed_magic with (magic_of false).
  rewrite (bind_ok _ _ _ _ _ E1), (bind_ok _ _ _ _ _ E2), bind_give. split; [done|]. split; [by apply struct_given|].
  replace (n - 56) with (0 + (n - 56)) at 1 by lia. apply (gave_trans 0 (n - 56) m m1); [lia|lia|by apply gave_zero|].
  apply gave_rest; [lia|done].
Qed.

Lemma release_right : match r with (_, false) :: _ => p + n ∈ fl | _ => True end.
Proof using Hm.
  pose proof Hm as Hm2. destruct r as [|[k []] r2]; [done|done|].
  change (l ++ (n, true) :: (k, false) :: r2) with (l ++ [(n, true)] ++ (k, false) :: r2) in Hm2.
  rewrite app_assoc in Hm2. apply row_free_elem in Hm2. rewrite extent_app in Hm2. simpl in Hm2.
  replace (start_addr m + (extent l + (n + 0))) with (p + n) in Hm2 by (unfold p; lia). by apply Hm2.
Qed.

(** The block, alone in the row, goes on the free list if it is not joined to the
    one before, and loses its owner. *)
Lemma release_link l1 n1 r1 fl1 m1 (left : bool) :
  let h := start_addr m + extent l1 in
  mh_struct (l1 ++ (n1, false) :: r1) fl1 m1 -> start_addr m1 = start_addr m -> (left = false -> h ∉ fl1) ->
  exists m', (when (negb left) (insert_header h);; upd_mi h (set_mi_owner blank_name)) m1 = Some (tt, m') /\
    mh_struct (l1 ++ (n1, false) :: r1) (if left then fl1 else h :: fl1) m' /\ rest m' = rest m1.
Proof using m.
  clear Hm p l n r fl. intros h Hm1 Es Hn.
  assert (exists m2, (when (negb left) (insert_header h)) m1 = Some (tt, m2) /\
    mh_struct (l1 ++ (n1, false) :: r1) (if left then fl1 else h :: fl1) m2 /\ rest m2 = rest m1)
    as (m2 & E2 & Hm2 & R2).
  { destruct left; [by exists m1|]. simpl. destruct (row_item _ _ _ _ _ _ Hm1) as (i & Hi & _). rewrite Es in Hi. fold h in Hi.
    destruct (row_place _ _ _ _ _ _ Hm1) as (P0 & P1 & _ & P3 & P4 & P5 & P6 & P7). rewrite Es in *. fold h in P1, P3.
    destruct (row_spacious _ _ _ _ _ _ Hm1) as (_ & [Hn1 _] & _).
    destruct (mo_heads _ _ _ Hm1) as [Hh _].
    destruct (insert_header_circle (free_header m1) h fl1 m1 (mo_free _ _ _ Hm1) Hh) as (m2 & E2 & F2 & B2 & [T2 R2]).
    - by exists i.
    - apply not_elem_of_cons. split; [lia|by apply Hn].
    - exists m2. split; [done|]. split; [|done].
      apply (struct_ext _ fl1 _ m1); try done. by destruct (rest_inv _ _ R2). }
  rewrite (bind_ok _ _ _ _ _ E2).
  destruct (row_item _ _ _ _ _ _ Hm2) as (i & Hi & _).
  destruct (rest_inv _ _ R2) as ((_ & _ & Es2 & _)%core_inv & _). rewrite Es2, Es in Hi. fold h in Hi.
  rewrite (upd_mi_eq _ _ i) by done. eexists. split; [done|]. split; [|done].
  apply (struct_ext _ (if left then fl1 else h :: fl1) _ m2); try done.
  - by apply (view_same _ _ i).
  - by apply (view_same _ _ i).
  - replace (free_links (item_at h (set_mi_owner blank_name i) m2)) with (free_links m2); [apply Hm2|].
    symmetry. by apply (view_same _ _ i).
Qed.

Lemma free_block_struct :
  exists m', free_block p m = Some (tt, m') /\ mh_struct (freed l n r) (freed_list p l n r fl) m' /\
    gave (n - 56 + (if last_used true l then 0 else 56) + (match r with (_, false) :: _ => 56 | _ => 0 end)) m m'.
Proof using Hm.
  unfold free_block.
  pose (tl (left : bool) (h : Z) := when (negb left) (insert_header h);; upd_mi h (set_mi_owner blank_name)).
  pose (mid (left : bool) (h : Z) := i ← get_mi h; ni ← get_mi (mi_next i);
    when (negb (RT_MEMHEAP_IS_USED ni)) (merge_right h);; tl left h).
  destruct (release_mark (fun _ => i ← get_mi p; pi ← get_mi (mi_prev i);
    h ← (if negb (RT_MEMHEAP_IS_USED pi) then merge_left p else mret p);
    mid (negb (RT_MEMHEAP_IS_USED pi)) h)) as (m1 & E1 & Hm1 & G1).
  change (exists m', (upd_mi p (set_mi_magic freed_magic);; size ← MEMITEM_SIZE p; give_available size;;
    i ← get_mi p; pi ← get_mi (mi_prev i);
    h ← (if negb (RT_MEMHEAP_IS_USED pi) then merge_left p else mret p);
    mid (negb (RT_MEMHEAP_IS_USED pi)) h) m = Some (tt, m') /\ mh_struct (freed l n r) (freed_list p l n r fl) m' /\
    gave (n - 56 + (if last_used true l then 0 else 56) + (match r with (_, false) :: _ => 56 | _ => 0 end)) m m').
  rewrite E1. rewrite freed_eq.
  destruct (core_inv _ _ (ga_core _ _ _ G1)) as (_ & _ & Es1 & _).
  pose proof (left_spec l n r fl m1 Hm1 mid) as HL. rewrite Es1 in HL. fold p in HL.
  assert (join_left l n = join_left l n) as Ej by done. destruct (join_left l n) as [l1 n1] eqn:Ej'.
  destruct HL as (m2 & E2 & Hm2 & G2). rewrite E2.
  destruct (core_inv _ _ (ga_core _ _ _ G2)) as (_ & _ & Es2 & _). rewrite Es1 in Es2.
  set (h := start_addr m + extent l1) in *.
  assert (h + n1 = p + n) as Eh.
  { destruct (join_left_cases l n) as [[_ E]|(l0 & n0 & _ & E & E')]; rewrite Ej' in *; simplify_eq; [done|].
    unfold h, p. rewrite extent_app. simpl. lia. }
  pose proof (right_spec l1 n1 r fl m2 Hm2) as HR. rewrite Es2 in HR. fold h in HR. rewrite Eh in HR.
  specialize (HR release_right unit (fun _ => tl (negb (last_used true l)) h)).
  rewrite (without_right_eq h n1 p n r fl Eh) in HR.
  destruct (join_next n1 r) as [n2 r2]. destruct HR as (m3 & E3 & Hm3 & G3).
  change (mid (negb (last_used true l)) h m2) with ((i ← get_mi h; ni ← get_mi (mi_next i);
    when (negb (RT_MEMHEAP_IS_USED ni)) (merge_right h);; tl (negb (last_used true l)) h) m2).
  rewrite E3. destruct (core_inv _ _ (ga_core _ _ _ G3)) as (_ & _ & Es3 & _). rewrite Es2 in Es3.
  assert (last_used true l = true -> h = p) as Hh.
  { intros E. destruct (join_left_cases l n) as [[_ E2']|(l0 & n0 & E' & _)]; [|congruence].
    assert (l1 = l) as El by congruence. unfold h. by rewrite El. }
  destruct (release_link l1 n2 r2 (without_right p n r fl) m3 (negb (last_used true l)) Hm3 Es3) as (m4 & E4 & Hm4 & R4).
  { intros E%negb_false_iff Hx. fold h in Hx. rewrite (Hh E) in Hx.
    apply without_right_sub in Hx. by apply (row_free_elem l n true r fl m Hm) in Hx. }
  exists m4. split; [exact E4|]. split.
  - fold h in Hm4. unfold freed_list. destruct (last_used true l); simpl in *; [|done]. rewrite (Hh eq_refl) in Hm4. exact Hm4.
  - destruct (row_spacious _ _ _ _ _ _ Hm) as (_ & [Hn _] & _).
    eapply gave_eq; [|eapply (gave_trans _ 0); [| |eapply gave_trans; [| |eapply gave_trans; [| |exact G1|exact G2]|exact G3]|by apply gave_zero]].
    + by destruct (last_used true l), r as [|[? []] ?]; simpl; lia.
    + destruct (last_used true l), r as [|[? []] ?]; simpl; lia.
    + lia.
    + destruct (last_used true l); simpl; lia.
    + destruct r as [|[? []] ?]; simpl; lia.
    + lia.
    + destruct (last_used true l); simpl; lia.
Qed.

(** The block is released; its neighbours that are free join it. *)
Lemma free_block_spec :
  exists m', free_block p m = Some (tt, m') /\
    memheap_ok (freed l n r) (freed_list p l n r fl) m' /\ core m' = core m /\ mh_bytes m' = mh_bytes m.
Proof using Hm.
  destruct free_block_struct as (m' & E & Hs & [Gc Gb Gx Ga]). exists m'. split; [done|]. split; [|done].
  destruct (core_inv _ _ Gc) as (_ & _ & Es & Ep & _).
  pose proof (mo_available _ _ _ Hm) as Ha. rewrite free_room_app in Ha. simpl in Ha.
  destruct (row_spacious _ _ _ _ _ _ Hm) as (Hl & [Hn _] & Hr). destruct (free_room_bound _ Hl), (free_room_bound _ Hr).
  assert (0 <= (if last_used true l then 0 else 56)) by (destruct (last_used true l); lia).
  assert (0 <= match r with (_, false) :: _ => 56 | _ => 0 end) by (destruct r as [|[? []] ?]; lia).
  pose proof (freed_room l n r) as Hfr. destruct (free_room_bound _ (mo_spacious _ _ _ Hs)).
  pose proof (mo_extent _ _ _ Hs). destruct (mo_place _ _ _ Hs) as (? & _ & ? & _). hsize.
  constructor; rewrite ?Es, ?Ep.
  - done.
  - apply freed_members; [|apply Hm]. destruct (mo_free _ _ _ Hm) as [Hnd _]. by apply NoDup_cons in Hnd as [_ ?].
  - rewrite Ga by lia. lia.
  - rewrite Ga by lia. rewrite Gx. pose proof (mo_max _ _ _ Hm). lia.
  - apply freed_merged, Hm.
Qed.
End release.
