(* ===== verification/MemheapRealloc.v ===== *)
(** * Memory heaps: growing and shrinking in place

    [grow_block] and [shrink_block], the two ways in which [rt_memheap_realloc]
    leaves a block where it is. *)
From S2P Require Import Prelude Kservice Kernel Object RtList Sys Mem MemSpec MemOps.
From S2P Require Import Memheap MemheapSpec MemheapOps MemheapAlloc MemheapFree.

Lemma struct_used_up x bs fl m : mh_struct bs fl m -> mh_struct bs fl (used_up x m).
Proof. intros Hm. apply (struct_ext bs fl fl m); try done. apply Hm. Qed.

(** The free list is a list of blocks. *)
Lemma members_starts bs fl m x : fl ≡ₚ free_starts (start_addr m) bs -> x ∈ fl -> x ∈ starts (start_addr m) bs.
Proof. intros -> Hx. by apply free_starts_starts. Qed.

(** The free block behind a block is on the free list; the others stay there. *)
Lemma next_member l n k r fl m :
  memheap_ok (l ++ (n, true) :: (k, false) :: r) fl m ->
  let p := start_addr m + extent l in
  exists f1 f2, fl = f1 ++ (p + n) :: f2 /\
    f1 ++ f2 ≡ₚ free_starts (start_addr m) l ++ free_starts (p + n + k) r.
Proof.
  intros Hm p. pose proof (mo_members _ _ _ Hm) as Hp. rewrite free_starts_app in Hp. simpl in Hp. fold p in Hp.
  assert (p + n ∈ fl) as Hin by (rewrite Hp; apply elem_of_app; right; by left).
  apply list_elem_of_split in Hin as (f1 & f2 & ->). exists f1, f2. split; [done|].
  rewrite <- !Permutation_middle in Hp. by apply Permutation_cons_inv in Hp.
Qed.

Section grow.
Context (l : list block) (n k : Z) (r : list block) (f1 f2 : list Z) (m : rt_memheap) (s : Z).
Let p := start_addr m + extent l.
Context (Hm : memheap_ok (l ++ (n, true) :: (k, false) :: r) (f1 ++ (p + n) :: f2) m).
Context (Hs : n - 56 < s) (Hs4 : s mod 4 = 0) (Hfit : s + 12 < n - 56 + (k - 56)).

Lemma grow_members : f1 ++ f2 ≡ₚ free_starts (start_addr m) l ++ free_starts (p + n + k) r.
Proof using Hm.
  pose proof (mo_members _ _ _ Hm) as Hp. rewrite free_starts_app in Hp. simpl in Hp. fold p in Hp.
  rewrite <- !Permutation_middle in Hp. by apply Permutation_cons_inv in Hp.
Qed.

(** The three steps on the headers. *)
Lemma grow_steps :
  exists m1 m2 m', _remove_next_ptr (p + n) (used_up (s - (n - 56)) m) = Some (tt, m1) /\
    cut_item p (p + 56 + s) m1 = Some (tt, m2) /\ link_free (p + 56 + s) m2 = Some (tt, m') /\
    mh_struct (l ++ (s + 56, true) :: (n + k - (s + 56), false) :: r) ((p + 56 + s) :: f1 ++ f2) m' /\
    rest m' = rest (with_new (p + 56 + s) (used_up (s - (n - 56)) m)).
Proof using Hm Hs Hs4 Hfit.
  destruct (row_spacious _ _ _ _ _ _ Hm) as (_ & [Hn Hn4] & _).
  set (m0 := used_up (s - (n - 56)) m).
  assert (mh_struct (l ++ (n, true) :: (k, false) :: r) (f1 ++ (p + n) :: f2) m0) as Hm0 by apply struct_used_up, Hm.
  destruct (remove_next_struct l n true k r f1 f2 m0 Hm0) as (m1 & E1 & Hm1 & R1).
  change (start_addr m0) with (start_addr m) in E1. fold p in E1.
  destruct (core_inv _ _ (proj1 (rest_inv _ _ R1))) as (_ & _ & Es & _). change (start_addr m0) with (start_addr m) in Es.
  destruct (cut_struct l (n + k) true (s + 56) r (f1 ++ f2) m1 Hm1) as (m2 & E2 & Hm2 & Hq & [T2 R2] & Hnq);
    [lia|lia|dlia| |].
  { intros x Hx. rewrite Es. rewrite grow_members in Hx.
    apply (free_starts_starts x). rewrite free_starts_app. simpl. fold p. by replace (p + (n + k)) with (p + n + k) by lia. }
  rewrite Es in E2, Hq, Hnq, R2. fold p in E2, Hq, Hnq, R2.
  replace (p + (s + 56)) with (p + 56 + s) in * by lia.
  destruct (core_inv _ _ (proj1 (rest_inv _ _ R2))) as (_ & Ea2 & _). simpl in Ea2.
  destruct (link_struct _ (f1 ++ f2) (p + 56 + s) m2 Hm2 Hq) as (m3 & E3 & Hm3 & R3).
  { unfold free_header in *. by rewrite Ea2. }
  exists m1, m2, m3. split_and!; try done. rewrite R3, R2.
  apply with_new_rest. done.
Qed.

Lemma grow_test : k - 56 < 2 ^ 31 -> forall (f : bool -> Z -> N bool),
  (i ← get_mi p; rt_assert (p <? mi_next i);; ni ← get_mi (mi_next i); f (RT_MEMHEAP_IS_USED ni) (mi_next i)) m = f false (p + n) m /\
  MEMITEM_SIZE (p + n) m = Some (k - 56, m) /\ s32 (k - 56) = k - 56.
Proof using Hm.
  clear Hs Hs4 Hfit. intros Hk f. assert (mh_struct ((l ++ [(n, true)]) ++ (k, false) :: r) (f1 ++ (p + n) :: f2) m) as Hm2.
  { rewrite <- app_assoc. apply Hm. }
  destruct (row_spacious _ _ _ _ _ _ Hm) as (_ & [Hn _] & _). destruct (row_spacious _ _ _ _ _ _ Hm2) as (_ & [Hk2 _] & _).
  destruct (row_item _ _ _ _ _ _ Hm) as (i & Hi & _ & _ & Ei & _). fold p in Hi, Ei.
  destruct (row_behind _ _ _ _ _ _ Hm) as (j & Hj & _ & Ej). fold p in Hj. simpl in Ej.
  split; [|split; [|by apply s32_small; lia]].
  - rewrite (bind_mi _ _ _ _ Hi), Ei, bind_assert by (apply Z.ltb_lt; lia). by rewrite (bind_mi _ _ _ _ Hj), (used_magic_of j false Ej).
  - pose proof (row_size _ _ _ _ _ _ Hm2) as E. rewrite extent_app in E. simpl in E.
    by replace (start_addr m + (extent l + (n + 0))) with (p + n) in E by (unfold p; lia).
Qed.

(** The block grows into the free one behind it; what is left of that is the
    first free block. *)
Lemma grow_block_spec :
  k - 56 < 2 ^ 31 ->
  exists m', grow_block p (n - 56) s m = Some (true, m') /\
    memheap_ok (l ++ (s + 56, true) :: (n + k - (s + 56), false) :: r) ((p + 56 + s) :: f1 ++ f2) m' /\
    kept (p + n) (p + n + k) m m'.
Proof using Hm Hs Hs4 Hfit.
  intros Hk. destruct (grow_test Hk (fun used next_ptr => if negb used then
      size ← MEMITEM_SIZE next_ptr;
      if u64 (s + RT_MEMHEAP_MINIALLOC) <? u64 (s32 size + (n - 56)) then
        take_available (u64 (s - (n - 56)));; _remove_next_ptr next_ptr;;
        let next_ptr := u64 (p + RT_MEMHEAP_SIZE + s) in
        cut_item p next_ptr;; link_free next_ptr;; mret true
      else mret false else mret false)) as (E & Ek & E32).
  assert (mh_struct ((l ++ [(n, true)]) ++ (k, false) :: r) (f1 ++ (p + n) :: f2) m) as Hm2.
  { rewrite <- app_assoc. apply Hm. }
  destruct (row_spacious _ _ _ _ _ _ Hm) as (Hl & [Hn Hn4] & _). destruct (row_spacious _ _ _ _ _ _ Hm2) as (_ & [Hk2 _] & Hr).
  destruct (row_place _ _ _ _ _ _ Hm) as (P0 & P1 & P2 & P3 & P4 & P5 & P6 & P7). fold p in P1, P2, P3. simpl in P3.
  destruct (spacious_extent _ Hr) as [Hr0 _].
  destruct grow_steps as (m1 & m2 & m3 & E1 & E2 & E3 & Hm3 & R3).
  pose proof (available_bound _ _ _ Hm) as Hb. pose proof (mo_available _ _ _ Hm) as Ha. rewrite free_room_app in Ha. simpl in Ha.
  destruct (free_room_bound _ Hl), (free_room_bound _ Hr). hsize.
  destruct (used_up_counts (s - (n - 56)) m) as [C1 C2]; [lia|lia|].
  destruct (rest_inv _ _ R3) as (Rc & Ra & Rx & Rb).
  set (m0 := used_up (s - (n - 56)) m) in *.
  change (available_size m3 = available_size m0) in Ra. change (max_used_size m3 = max_used_size m0) in Rx.
  destruct (core_inv _ _ Rc) as (_ & _ & Es & Ep & _). simpl in Es, Ep.
  exists m3. split; [|split].
  - unfold grow_block. etransitivity; [exact E|]. simpl negb. cbv iota. rewrite (bind_ok _ _ _ _ _ Ek), E32.
    rewrite !u64_small by lia.
    rewrite (proj2 (Z.ltb_lt _ _)) by lia. rewrite bind_take, (bind_ok _ _ _ _ _ E1). cbv zeta.
    by rewrite (bind_ok _ _ _ _ _ E2), (bind_ok _ _ _ _ _ E3).
  - constructor; rewrite ?Es, ?Ep; [done| |rewrite Ra, C1, Ha, free_room_app; simpl; hsize; lia|rewrite Ra, Rx; lia|].
    + rewrite free_starts_app. simpl. fold p. rewrite grow_members. replace (p + (s + 56)) with (p + 56 + s) by lia.
      replace (p + 56 + s + (n + k - (s + 56))) with (p + n + k) by lia. by rewrite Permutation_middle.
    + pose proof (mo_merged _ _ _ Hm) as Hg. apply merged_app in Hg as [Hg1 Hg]. apply merged_app. split; [done|].
      simpl in *. tauto.
  - constructor; [by rewrite Rc|]. intros x Hx. rewrite Rb. rewrite with_new_bytes; [done|]. hsize. lia.
Qed.
End grow.

(** A block that cannot grow. *)
Lemma grow_refused l n r fl m s :
  memheap_ok (l ++ (n, true) :: r) fl m -> 0 < s -> s + 12 < 2 ^ 64 ->
  match r with (k, false) :: _ => k - 56 < 2 ^ 31 /\ n - 56 + (k - 56) <= s + 12 | _ => True end ->
  grow_block (start_addr m + extent l) (n - 56) s m = Some (false, m).
Proof.
  intros Hm Hs0 Hs Hr. set (p := start_addr m + extent l).
  destruct (row_spacious _ _ _ _ _ _ Hm) as (_ & [Hn _] & _).
  destruct r as [|[k []] r2].
  3: { destruct (next_member l n k r2 fl m Hm) as (f1 & f2 & -> & _). fold p in Hm.
       destruct Hr as [Hk Hr].
       destruct (grow_test l n k r2 f1 f2 m Hm Hk (fun used next_ptr => if negb used then
         size ← MEMITEM_SIZE next_ptr;
         if u64 (s + RT_MEMHEAP_MINIALLOC) <? u64 (s32 size + (n - 56)) then
           take_available (u64 (s - (n - 56)));; _remove_next_ptr next_ptr;;
           let next_ptr := u64 (p + RT_MEMHEAP_SIZE + s) in
           cut_item p next_ptr;; link_free next_ptr;; mret true
         else mret false else mret false)) as (E & Ek & E32).
       assert (mh_struct ((l ++ [(n, true)]) ++ (k, false) :: r2) (f1 ++ (p + n) :: f2) m) as Hm2.
       { rewrite <- app_assoc. apply Hm. }
       destruct (row_spacious _ _ _ _ _ _ Hm2) as (_ & [Hk2 _] & _).
       unfold grow_block. etransitivity; [exact E|]. simpl negb. cbv iota. rewrite (bind_ok _ _ _ _ _ Ek), E32.
       hsize. rewrite !u64_small by lia. by rewrite (proj2 (Z.ltb_ge _ _)) by lia. }
  all: destruct (row_item _ _ _ _ _ _ Hm) as (i & Hi & _ & _ & Ei & _); fold p in Hi, Ei;
    destruct (row_behind _ _ _ _ _ _ Hm) as (j & Hj & _ & Ej); fold p in Hj; unfold grow_block;
    rewrite (bind_mi _ _ _ _ Hi), Ei; cbv zeta; rewrite bind_assert by (apply Z.ltb_lt; lia);
    by rewrite (bind_mi _ _ _ _ Hj), (used_magic_of j true Ej).
Qed.

Section overrun.
Context (l : list block) (n k : Z) (r : list block) (f1 f2 : list Z) (m : rt_memheap) (s : Z).
Let p := start_addr m + extent l.
Let q := p + 56 + s.
Context (Hm : memheap_ok (l ++ (n, true) :: (k, false) :: r) (f1 ++ (p + n) :: f2) m).
Context (Hk : 2 ^ 31 <= k - 56) (Hsum : n - 56 + (k - 56) < 2 ^ 32).
Context (Hq : start_addr m + pool_size m <= q) (Hq2 : q < 2 ^ 63).
Context (Hqh : q + 56 <= free_header m \/ free_header m + 56 <= q).

(** No header is near [q]. *)
Lemma overrun_away x :
  x = start_addr m + extent (l ++ (n + k, true) :: r) \/ x ∈ starts (start_addr m) (l ++ (n + k, true) :: r) \/
    x = free_header m \/ x ∈ f1 ++ f2 -> x <> q /\ away q sizeof_item x.
Proof using Hm Hq Hqh.
  clear Hk Hsum Hq2. pose proof (grow_members l n k r f1 f2 m Hm) as Hmem. fold p in Hmem.
  pose proof (mo_extent _ _ _ Hm) as He. rewrite extent_app in He. simpl in He.
  assert (Forall spacious (l ++ (n + k, true) :: r)) as Hsp.
  { pose proof (mo_spacious _ _ _ Hm) as Hs. apply Forall_app in Hs as [Hl [[Hn ?] [[Hk ?] Hr]%Forall_cons]%Forall_cons].
    simpl in *. apply Forall_app. split; [done|]. apply Forall_cons. split; [|done]. split; simpl; [hsize; lia|dlia]. }
  assert (forall y, y ∈ starts (start_addr m) (l ++ (n + k, true) :: r) -> y + 68 <= q) as Hst.
  { intros y Hy. apply starts_apart in Hy; [|done]. rewrite extent_app in Hy. simpl in Hy. hsize. lia. }
  unfold away. hsize. intros [->|[Hx|[->|Hx]]]; [rewrite extent_app; simpl; lia|apply Hst in Hx; lia|lia|].
  rewrite Hmem in Hx. assert (x ∈ starts (start_addr m) (l ++ (n + k, true) :: r)) as Hx'%Hst; [|lia].
  apply free_starts_starts. rewrite free_starts_app. simpl. fold p. by replace (p + (n + k)) with (p + n + k) by lia.
Qed.

Lemma overrun_steps m0 :
  mh_struct (l ++ (n, true) :: (k, false) :: r) (f1 ++ (p + n) :: f2) m0 -> core m0 = core m ->
  exists m1 m2 m3, _remove_next_ptr (p + n) m0 = Some (tt, m1) /\ cut_item p q m1 = Some (tt, m2) /\
    link_free q m2 = Some (tt, m3) /\ core m3 = core m /\ tags m3 !! q = Some (freed_magic, mh_address m).
Proof using Hm Hq Hqh.
  intros Hm0 C0. destruct (remove_next_struct l n true k r f1 f2 m0) as (m1 & E1 & Hm1 & R1).
  { destruct (core_inv _ _ C0) as (_ & _ & -> & _). done. }
  assert (core m1 = core m) as C1 by (rewrite <- C0; by destruct (rest_inv _ _ R1)).
  destruct (core_inv _ _ C0) as (_ & _ & Es0 & _). rewrite Es0 in E1. fold p in E1.
  destruct (core_inv _ _ C1) as (_ & Ea & Es & _).
  assert (free_header m1 = free_header m) as Eh by (unfold free_header; by rewrite Ea).
  pose proof (mo_blocks _ _ _ Hm1) as Hb. rewrite starts_split, Es in Hb. fold p in Hb.
  destruct (cut_circle _ _ p _ _ (f1 ++ f2) q m1 Hb (mo_free _ _ _ Hm1)) as (m2 & E2 & B2 & F2 & H2 & [T2 R2]).
  { intros x Hx. apply overrun_away. rewrite Eh, elem_of_cons in Hx. rewrite starts_split. fold p.
    rewrite elem_of_cons in Hx. tauto. }
  assert (core m2 = core m) as C2 by (rewrite <- C1; by destruct (rest_inv _ _ R2)).
  destruct (core_inv _ _ C2) as (_ & _ & _ & _ & _ & El2 & _).
  destruct (link_free_circle (free_header m1) q (f1 ++ f2) m2) as (m3 & E3 & _ & _ & [T3 R3]); [done| |done| |].
  { rewrite El2, Eh. apply (mo_heads _ _ _ Hm). }
  { intros Hx. destruct (overrun_away q) as [Hne _]; [|done]. rewrite Eh, elem_of_cons in Hx. tauto. }
  exists m1, m2, m3. split_and!; try done.
  - rewrite <- C2. by destruct (rest_inv _ _ R3).
  - rewrite T3, T2, <- Ea. apply with_new_tag.
Qed.

(** ** The size of the neighbour as an [rt_int32_t]

    If the free block behind has 2 GB or more, its size is negative; the sum with
    the old size is taken modulo 2^64, and any new size passes the test. *)
Lemma grow_overrun :
  exists m', grow_block p (n - 56) s m = Some (true, m') /\ core m' = core m /\
    tags m' !! q = Some (freed_magic, mh_address m).
Proof using Hm Hk Hsum Hq Hq2 Hqh.
  destruct (overrun_steps (used_up (u64 (s - (n - 56))) m)) as (m1 & m2 & m3 & E1 & E2 & E3 & C3 & T3);
    [apply struct_used_up, Hm|done|].
  exists m3. split; [|done].
  assert (mh_struct ((l ++ [(n, true)]) ++ (k, false) :: r) (f1 ++ (p + n) :: f2) m) as Hm2.
  { rewrite <- app_assoc. apply Hm. }
  destruct (row_spacious _ _ _ _ _ _ Hm) as (_ & [Hn _] & _). destruct (row_spacious _ _ _ _ _ _ Hm2) as (_ & [Hk2 _] & _).
  destruct (row_place _ _ _ _ _ _ Hm) as (P0 & P1 & P2 & P3 & P4 & P5 & P6 & P7). fold p in P1, P2, P3. simpl in P3, P4.
  unfold grow_block.
  destruct (row_item _ _ _ _ _ _ Hm) as (i & Hi & _ & _ & Ei & _); fold p in Hi, Ei.
  destruct (row_behind _ _ _ _ _ _ Hm) as (j & Hj & _ & Ej); fold p in Hj.
  rewrite (bind_mi _ _ _ _ Hi), Ei; cbv zeta; rewrite bind_assert by (apply Z.ltb_lt; lia).
  rewrite (bind_mi _ _ _ _ Hj), (used_magic_of j false Ej). cbv beta iota delta [negb].
  pose proof (row_size _ _ _ _ _ _ Hm2) as Ek. rewrite extent_app in Ek. simpl in Ek.
  replace (start_addr m + (extent l + (n + 0))) with (p + n) in Ek by (unfold p; lia).
  rewrite (bind_ok _ _ _ _ _ Ek). hsize.
  assert (u64 (s + 12) <? u64 (s32 (k - 56) + (n - 56)) = true) as ->.
  { apply Z.ltb_lt. rewrite u64_small by lia. unfold s32, u64. dlia. }
  rewrite bind_take, (bind_ok _ _ _ _ _ E1). rewrite (u64_small (p + 56 + s)) by lia. fold q.
  by rewrite (bind_ok _ _ _ _ _ E2), (bind_ok _ _ _ _ _ E3).
Qed.
End overrun.

Lemma filter_mid h (f1 f2 : list Z) x :
  NoDup (h :: f1 ++ x :: f2) -> filter (fun y => y <> x) (f1 ++ x :: f2) = f1 ++ f2.
Proof.
  intros [_ Hnd]%NoDup_cons. rewrite filter_app, filter_cons_False by auto.
  apply NoDup_app in Hnd as (_ & Hd & Hnd). apply NoDup_cons in Hnd as [Hx _].
  rewrite !filter_ne_notin; [done|done|]. intros Hx1. apply (Hd _ Hx1). by left.
Qed.

Section shrink.
Context (l : list block) (n : Z) (r : list block) (fl : list Z) (m : rt_memheap) (s : Z).
Let p := start_addr m + extent l.
Let q := p + s + 56.
Context (Hm : memheap_ok (l ++ (n, true) :: r) fl m).
Context (Hs : 12 <= s) (Hs4 : s mod 4 = 0) (Hfit : s + 68 < n - 56).

Definition behind_room (r : list block) : Z := match r with (k, false) :: _ => k - 56 | _ => 0 end.

(** The part that is cut off joins the free block behind it. *)
Lemma shrink_join {B} (f : unit -> N B) m1 :
  mh_struct (l ++ (s + 56, true) :: (n - (s + 56), false) :: r) fl m1 -> start_addr m1 = start_addr m ->
  let '(n2, r2) := join_next (n - (s + 56)) r in
  exists m2, (i ← get_mi q; fi ← get_mi (mi_next i);
    when (negb (RT_MEMHEAP_IS_USED fi))
      (size ← MEMITEM_SIZE (mi_next i); give_available (- size);;
       fi ← get_mi (mi_next i); upd_mi (mi_next fi) (set_mi_prev q);;
       fi ← get_mi (mi_next i); upd_mi q (set_mi_next (mi_next fi));;
       unlink_free (mi_next i));; f tt) m1 = f tt m2 /\
    mh_struct (l ++ (s + 56, true) :: (n2, false) :: r2) (without_right p n r fl) m2 /\
    rest m2 = rest (match r with (k, false) :: _ => given (- (k - 56)) m1 | _ => m1 end).
Proof using Hm Hs Hs4 Hfit.
  intros Hm1 Es.
  assert (mh_struct ((l ++ [(s + 56, true)]) ++ (n - (s + 56), false) :: r) fl m1) as Hq by by rewrite <- app_assoc.
  destruct (row_item _ _ _ _ _ _ Hq) as (i & Hi & _ & _ & Ei & _).
  destruct (row_behind _ _ _ _ _ _ Hq) as (j & Hj & _ & Ej). rewrite extent_app in Hi, Hj, Ei. simpl in Hi, Hj, Ei.
  rewrite Es in Hi, Hj, Ei. replace (start_addr m + (extent l + (s + 56 + 0))) with q in Hi, Hj, Ei by (unfold q, p; lia).
  replace (q + (n - (s + 56))) with (p + n) in Hj, Ei by (unfold q; lia).
  rewrite (bind_mi _ _ _ _ Hi), Ei, (bind_mi _ _ _ _ Hj), (used_magic_of _ _ Ej). clear i Hi Ei j Hj Ej.
  destruct r as [|[k []] r2]; [by exists m1|by exists m1|]. unfold join_next, without_right. cbv beta iota delta [negb when].
  assert (mh_struct ((l ++ [(s + 56, true); (n - (s + 56), false)]) ++ (k, false) :: r2) fl m1) as Hk by by rewrite <- app_assoc.
  pose proof (row_size _ _ _ _ _ _ Hk) as Ek. rewrite extent_app, Es in Ek. simpl in Ek.
  replace (start_addr m + (extent l + (s + 56 + (n - (s + 56) + 0)))) with (p + n) in Ek by (unfold p; lia).
  destruct (row_links _ _ _ _ _ _ Hq) as [_ Lq]. rewrite extent_app, Es in Lq. simpl in Lq.
  replace (start_addr m + (extent l + (s + 56 + 0))) with q in Lq by (unfold q, p; lia).
  replace (q + (n - (s + 56))) with (p + n) in Lq by (unfold q; lia).
  destruct (row_links _ _ _ _ _ _ Hk) as [_ Ly]. rewrite extent_app, Es in Ly. simpl in Ly.
  replace (start_addr m + (extent l + (s + 56 + (n - (s + 56) + 0)))) with (p + n) in Ly by (unfold p; lia).
  destruct (row_spacious _ _ _ _ _ _ Hk) as (_ & [Hk0 _] & _).
  destruct (next_member l n k r2 fl m Hm) as (f1 & f2 & Ef & _). fold p in Ef.
  set (m0 := given (- (k - 56)) m1).
  destruct (cut_right_spec q (p + n) (p + n + k) m0 (fun _ => unlink_free (p + n)) Lq Ly)
    as (m2 & E2 & B2 & F2 & [T2 R2]); [unfold q; lia|lia|].
  destruct (unlink_circle (free_header m1) f1 (p + n) f2 m2) as (m3 & E3 & F3 & B3 & [T3 R3]).
  { rewrite F2, <- Ef. apply Hm1. }
  exists m3. split; [|split; [|by rewrite R3, R2]].
  - erewrite bind_ok; [done|]. cbv beta iota delta [snd]. rewrite (bind_ok _ _ _ _ _ Ek), bind_give. fold m0. by rewrite E2, E3.
  - assert (mh_struct ((l ++ [(s + 56, true)]) ++ (n - (s + 56) + k, false) :: r2) (f1 ++ f2) m3) as Hj.
    { apply (joined_struct (l ++ [(s + 56, true)]) (n - (s + 56)) false k false r2 fl _ m1 m3).
      - by rewrite <- app_assoc.
      - destruct (rest_inv _ _ R3) as (C3 & _). destruct (rest_inv _ _ R2) as (C2 & _). by rewrite C3, C2.
      - by rewrite T3, T2.
      - cbv zeta. rewrite extent_app, Es. simpl.
        replace (start_addr m + (extent l + (s + 56 + 0))) with q by (unfold q, p; lia).
        replace (q + (n - (s + 56))) with (p + n) by (unfold q; lia). by rewrite B3.
      - done. }
    rewrite <- app_assoc in Hj. rewrite Ef, (filter_mid (free_header m)); [done|]. rewrite <- Ef. apply (mo_free _ _ _ Hm).
Qed.

Lemma shrink_members :
  let '(n2, r2) := join_next (n - (s + 56)) r in
  q :: without_right p n r fl ≡ₚ free_starts (start_addr m) (l ++ (s + 56, true) :: (n2, false) :: r2).
Proof using Hm.
  pose proof (mo_members _ _ _ Hm) as Hp. rewrite free_starts_app in Hp. simpl in Hp. fold p in Hp.
  assert (NoDup fl) as Hnd.
  { destruct (mo_free _ _ _ Hm) as [Hnd _]. by apply NoDup_cons in Hnd as [_ ?]. }
  pose proof (without_members p n r fl _ Hnd Hp) as Hw.
  destruct r as [|[k []] r2]; simpl in *; rewrite Hw, free_starts_app; simpl; fold p;
    replace (p + (s + 56)) with q by (unfold q; lia); rewrite <- Permutation_middle;
    apply reflexive_eq; do 3 f_equal; unfold q; lia.
Qed.

Lemma shrink_room :
  let '(n2, r2) := join_next (n - (s + 56)) r in
  free_room (l ++ (s + 56, true) :: (n2, false) :: r2) = available_size m - behind_room r + (n2 - 56) /\
  0 <= behind_room r <= available_size m /\ 68 <= n2 /\ available_size m - behind_room r + (n2 - 56) <= pool_size m < 2 ^ 64.
Proof using Hm Hs Hfit.
  clear Hs4. destruct (row_place _ _ _ _ _ _ Hm) as (P0 & P1 & P2 & P3 & P4 & P5 & P6 & P7). fold p in P1, P2, P3.
  destruct (row_spacious _ _ _ _ _ _ Hm) as (Hl & [Hn Hn4] & Hr).
  destruct (free_room_bound _ Hl). destruct (spacious_extent _ Hl).
  pose proof (mo_available _ _ _ Hm) as Ha. rewrite free_room_app in Ha. simpl in Ha.
  destruct r as [|[k []] r2]; simpl in *; rewrite free_room_app; simpl; [hsize; unfold p in *; lia| |];
    apply Forall_cons in Hr as [[Hk _] Hr]; destruct (free_room_bound _ Hr); simpl in Hk; hsize; unfold p in *; lia.
Qed.

Lemma shrink_counts m1 m2 :
  rest m1 = rest (with_new q m) -> rest m2 = rest (match r with (k, false) :: _ => given (- (k - 56)) m1 | _ => m1 end) ->
  0 <= behind_room r <= available_size m /\ available_size m < 2 ^ 64 ->
  core m2 = core m /\ max_used_size m2 = max_used_size m /\ available_size m2 = available_size m - behind_room r /\
  mh_bytes m2 = mh_bytes (with_new q m).
Proof using Type.
  clear Hm Hs Hs4 Hfit. intros (C1 & A1 & X1 & B1)%rest_inv (C2 & A2 & X2 & B2)%rest_inv Hb.
  change (core (with_new q m)) with (core m) in C1. change (available_size m1 = available_size m) in A1.
  change (max_used_size m1 = max_used_size m) in X1.
  rewrite C2, X2, A2, B2, <- C1, <- X1, <- B1. rewrite <- A1 in *. clear A1.
  destruct r as [|[k []] ?]; cbn [behind_room] in *; split_and!; try done; [lia|lia|].
  cbn [available_size given set_available]. rewrite u64_small; lia.
Qed.

(** The end of the block becomes free, together with the free block behind. *)
Lemma shrink_block_spec :
  let '(n2, r2) := join_next (n - (s + 56)) r in
  exists m', shrink_block p s m = Some (tt, m') /\
    memheap_ok (l ++ (s + 56, true) :: (n2, false) :: r2) (q :: without_right p n r fl) m' /\
    kept q (p + n) m m'.
Proof using Hm Hs Hs4 Hfit.
  destruct (row_place _ _ _ _ _ _ Hm) as (P0 & P1 & P2 & P3 & P4 & P5 & P6 & P7). fold p in P1, P2, P3.
  destruct (row_spacious _ _ _ _ _ _ Hm) as (_ & [Hn Hn4] & _).
  destruct (cut_struct l n true (s + 56) r fl m Hm) as (m1 & E1 & Hm1 & Hq & [T1 R1] & Hnq); [lia|lia|dlia| |].
  { intros x. apply members_starts, Hm. }
  fold p in E1, Hq, R1, Hnq. replace (p + (s + 56)) with q in E1, Hq, R1, Hnq by (unfold q; lia).
  destruct (rest_inv _ _ R1) as ((_ & A1 & S1 & _)%core_inv & _). change (mh_address m1 = mh_address m) in A1.
  pose proof (shrink_join (fun _ => link_free q;; size ← MEMITEM_SIZE q; give_available size) m1 Hm1 S1) as HJ.
  pose proof shrink_members as Hmem. pose proof shrink_room as Hroom.
  destruct (join_next (n - (s + 56)) r) as [n2 r2] eqn:Ej. destruct HJ as (m2 & E2 & Hm2 & R2).
  destruct Hroom as (Hroom & Hbr & Hn2 & Hpool).
  pose proof (available_bound _ _ _ Hm) as Hab.
  destruct (shrink_counts m1 m2 R1 R2 ltac:(lia)) as (C2 & X2 & A2 & B2).
  destruct (core_inv _ _ C2) as (_ & D2 & S2 & _).
  assert (mh_struct ((l ++ [(s + 56, true)]) ++ (n2, false) :: r2) (without_right p n r fl) m2) as Hm2' by by rewrite <- app_assoc.
  assert (start_addr m + extent (l ++ [(s + 56, true)]) = q) as Eq by (rewrite extent_app; simpl; unfold q, p; lia).
  destruct (link_struct _ (without_right p n r fl) q m2 Hm2) as (m3 & E3 & Hm3 & R3).
  { destruct (row_item _ _ _ _ _ _ Hm2') as (i & Hi & _). rewrite S2, Eq in Hi. by exists i. }
  { unfold free_header. rewrite D2. intros [Hx|Hx%without_right_sub]%elem_of_cons; apply Hnq, elem_of_cons; [by left|by right]. }
  destruct (rest_inv _ _ R3) as (C3 & A3 & X3 & B3). rewrite C2 in C3. destruct (core_inv _ _ C3) as (_ & _ & S3 & L3 & _).
  assert (MEMITEM_SIZE q m3 = Some (n2 - 56, m3)) as E4.
  { assert (mh_struct ((l ++ [(s + 56, true)]) ++ (n2, false) :: r2) (q :: without_right p n r fl) m3) as Hm3' by by rewrite <- app_assoc.
    pose proof (row_size _ _ _ _ _ _ Hm3') as E. by rewrite S3, Eq in E. }
  exists (given (n2 - 56) m3). split; [|split].
  - unfold shrink_block. change RT_MEMHEAP_SIZE with 56. rewrite (u64_small (p + s + 56)) by lia. fold q. cbv zeta.
    rewrite (bind_ok _ _ _ _ _ E1), E2, (bind_ok _ _ _ _ _ E3). by rewrite (bind_ok _ _ _ _ _ E4).
  - assert (available_size (given (n2 - 56) m3) = available_size m - behind_room r + (n2 - 56)) as Ea.
    { simpl. rewrite A3, A2. apply u64_small. lia. }
    pose proof (mo_max _ _ _ Hm) as Hx.
    constructor; [by apply struct_given| |by rewrite Ea, Hroom| |].
    + change (start_addr (given (n2 - 56) m3)) with (start_addr m3). by rewrite S3.
    + rewrite Ea. simpl. rewrite L3, X3, X2. unfold behind_room in *. destruct r as [|[k []] ?]; simplify_eq/=; lia.
    + pose proof (mo_merged _ _ _ Hm) as Hg. apply merged_app in Hg as [Hg1 [Hg2 Hg]]. apply merged_app. split; [done|].
      simpl in *. split; [done|]. split; [done|]. destruct r as [|[k []] ?]; simplify_eq/=; tauto.
  - constructor; [done|]. intros x Hx. simpl. rewrite B3, B2. apply with_new_bytes. hsize. lia.
Qed.
End shrink.
