(* ===== verification/MemheapMove.v ===== *)
(** * Memory heaps: moving a block

    Writes of the user inside a block, and the copy that [rt_memheap_realloc]
    makes when a block has to move. *)
From S2P Require Import Prelude Kservice Kernel Object RtList Sys Mem MemSpec MemOps MemRealloc.
From S2P Require Import Memheap MemheapSpec MemheapOps MemheapAlloc MemheapFree.

(** Headers that are away from what is written stay. *)
Lemma written_views p data m x :
  away p (zlen data) x ->
  let m' := set_items (filter (fun x => away p (zlen data) x.1) (mh_items m)) (put_bytes p data (mh_bytes m)) m in
  block_links m' !! x = block_links m !! x /\ free_links m' !! x = free_links m !! x /\ tags m' !! x = tags m !! x.
Proof.
  intros Ha m'. assert (mh_items m' !! x = mh_items m !! x) as E.
  { simpl. rewrite map_lookup_filter. destruct (mh_items m !! x); [|done]. simpl. by rewrite option_guard_True. }
  unfold block_links, free_links, tags. by rewrite !lookup_fmap, E.
Qed.

(** A write inside a block, behind its header. *)
Lemma write_block l n u r fl m lo data :
  memheap_ok (l ++ (n, u) :: r) fl m ->
  start_addr m + extent l + 56 <= lo -> lo + zlen data <= start_addr m + extent l + n ->
  exists m', mh_write lo data m = Some (tt, m') /\ memheap_ok (l ++ (n, u) :: r) fl m' /\
    kept lo (lo + zlen data) m m' /\ mh_bytes m' = put_bytes lo data (mh_bytes m).
Proof.
  intros Hm Hlo Hhi. set (p := start_addr m + extent l) in *. eexists. split; [done|].
  set (m' := set_items _ _ m). pose proof (zlen_nonneg data) as Hz.
  destruct (row_place _ _ _ _ _ _ Hm) as (P0 & P1 & P2 & P3 & P4 & P5 & P6 & P7). fold p in P1, P2, P3.
  destruct (row_spacious _ _ _ _ _ _ Hm) as (Hl & _ & Hr).
  set (e := start_addr m + extent (l ++ (n, u) :: r)) in *.
  assert (forall x, x = e \/ x = free_header m \/ x ∈ starts (start_addr m) (l ++ (n, u) :: r) -> away lo (zlen data) x) as Hst.
  { intros x. unfold away. hsize. intros [->|[->|Hx]]; [lia|lia|].
    rewrite starts_split in Hx. apply elem_of_app in Hx as [Hx|[->|Hx]%elem_of_cons]; [|fold p; lia|];
      (apply starts_apart in Hx; [|done]); fold p in Hx; lia. }
  split; [|split; [|done]].
  - constructor; try apply Hm.
    apply (struct_views _ fl m); [apply Hm|done| |].
    + intros x Hx. split; apply written_views, Hst; tauto.
    + intros x Hx. apply written_views, Hst. apply elem_of_cons in Hx as [->|Hx]; [tauto|]. right; right.
      rewrite (mo_members _ _ _ Hm) in Hx. by apply free_starts_starts.
  - constructor; [done|]. intros x Hx. simpl. by apply put_bytes_far.
Qed.

Definition mh_byte (m : rt_memheap) (p : Z) : Z := default 0 (mh_bytes m !! p).

Lemma kept_byte lo hi m m' x : kept lo hi m m' -> ~ (lo <= x < hi) -> mh_byte m' x = mh_byte m x.
Proof. intros K Hx. unfold mh_byte. by rewrite (ke_bytes _ _ _ _ K). Qed.

(** [count] bytes are copied from [old] into a block. *)
Lemma copy_block l n u r fl m old new count :
  memheap_ok (l ++ (n, u) :: r) fl m -> 0 <= count ->
  start_addr m + extent l + 56 <= new -> new + count <= start_addr m + extent l + n ->
  exists m', (data ← mh_read old count; mh_write new data) m = Some (tt, m') /\
    memheap_ok (l ++ (n, u) :: r) fl m' /\ kept new (new + count) m m' /\
    forall i, 0 <= i < count -> mh_byte m' (new + i) = mh_byte m (old + i).
Proof.
  intros Hm Hc Hlo Hhi. unfold mh_read. rewrite bind_gets.
  set (data := map (fun i => default 0 (mh_bytes m !! (old + i))) (seqZ 0 count)).
  assert (zlen data = count) as Ez by (unfold data, zlen; rewrite length_map, length_seqZ; lia).
  destruct (write_block l n u r fl m new data Hm) as (m' & E & Hok & K & B); [lia|lia|].
  rewrite Ez in K. exists m'. split_and!; try done. intros i Hi. unfold mh_byte at 1.
  rewrite B, put_bytes_lookup by lia. unfold data. by rewrite (read_lookup (fun i => default 0 (mh_bytes m !! (old + i)))).
Qed.

(** A free block is replaced by others: a used block stays where it is. *)
Lemma other_used l1 n1 r1 t l n r :
  l1 ++ (n1, false) :: r1 = l ++ (n, true) :: r -> extent t = n1 -> Forall spacious (l ++ (n, true) :: r) ->
  exists l' r', l1 ++ t ++ r1 = l' ++ (n, true) :: r' /\ extent l' = extent l /\
    (extent l1 + n1 <= extent l \/ extent l + n <= extent l1).
Proof.
  intros E Ht Hs. destruct (other_block l1 (n1, false) r1 l (n, true) r t E) as (l' & r' & ? & ? & ?);
    [done|done|by apply spacious_sized|]. by exists l', r'.
Qed.
