(* ===== verification/MemheapInit.v ===== *)
(** * Memory heaps: initialisation

    [rt_memheap_init] makes the pool one free block. *)
From S2P Require Import Prelude Kservice Kernel Object RtList Sys Mem MemSpec MemOps.
From S2P Require Import Memheap MemheapSpec MemheapOps MemheapAlloc.

(** A header where none is near. *)
Lemma new_mi_far p magic owner m :
  (forall q i, mh_items m !! q = Some i -> away p sizeof_item q) -> mh_bytes m = ∅ ->
  new_mi p magic owner m = Some (tt, item_at p (MemheapItem magic (mh_address m) 0 0 0 0 owner) m).
Proof.
  intros Hfar Hb. unfold new_mi, modify, item_at. do 2 f_equal.
  assert (filter (fun x => away p sizeof_item x.1) (mh_items m) = mh_items m) as ->.
  { apply map_eq. intros q. rewrite map_lookup_filter. destruct (mh_items m !! q) as [i|] eqn:E; [|done].
    simpl. by rewrite option_guard_True by (by eapply Hfar). }
  rewrite Hb, map_filter_empty. done.
Qed.

Ltac mi_lookup := repeat first [ rewrite lookup_insert_eq; reflexivity | rewrite lookup_insert_ne by lia | reflexivity ].
Ltac mi_far :=
  let q := fresh in let i := fresh in let H := fresh in
  intros q i H; simpl in H;
  repeat (apply lookup_insert_Some in H as [[<- _]|[_ H]]; [unfold away; change sizeof_item with 52; lia|]);
  by rewrite lookup_empty in H.
Ltac mi_cbn := cbn [mi_magic mi_pool mi_next mi_prev mi_next_free mi_prev_free mi_owner
  set_mi_magic set_mi_next set_mi_prev set_mi_next_free set_mi_prev_free set_mi_owner].
Ltac mi_run := repeat first
  [ rewrite bind_gets
  | erewrite bind_ok by (apply upd_mi_eq; simpl; mi_lookup)
  | erewrite bind_mi by (simpl; mi_lookup) ].

(** A heap with the three first headers. *)
Lemma one_block memheap start pool x y m :
  0 < start -> start mod 4 = 0 -> start + pool < 2 ^ 64 -> 180 <= pool -> pool mod 4 = 0 ->
  memheap + 136 <= start \/ start + pool <= memheap + 80 ->
  let h := memheap + 80 in
  let e := start + (pool - 56) in
  core m = (RtObject x (Z.lor RT_Object_Class_MemHeap RT_Object_Class_Static) 0, memheap, start, pool, start, h, false) ->
  available_size m = pool - 112 -> max_used_size m = 112 ->
  mh_items m !! h = Some (MemheapItem freed_magic memheap 0 0 start start y) ->
  mh_items m !! start = Some (MemheapItem freed_magic memheap e e h h blank_name) ->
  mh_items m !! e = Some (MemheapItem used_magic memheap start start 0 0 y) ->
  memheap_ok [(pool - 56, false)] [start] m.
Proof.
  intros Hs Hs4 Hend Hsize Hp4 Haway h e Hc Ha Hx Hh Hst He. injection Hc as E1 E2 E3 E4 E5 E6 _.
  assert (free_header m = h) as Ef by (unfold free_header; by rewrite E2).
  constructor; [constructor|..]; rewrite ?E1, ?E2, ?E3, ?E4, ?E5, ?E6, ?Ef, ?Ha, ?Hx; hsize; simpl.
  - done.
  - unfold h in *. lia.
  - done.
  - lia.
  - repeat constructor; simpl; hsize; [lia|dlia].
  - replace (start + (pool - 56 + 0)) with e by (unfold e; lia). split.
    + repeat constructor; [|set_solver]. intros E%list_elem_of_singleton. unfold e in E. lia.
    + unfold block_links. simpl. unfold links, nxt, prv. rewrite !lookup_fmap, Hst, He. done.
  - unfold tags. by rewrite lookup_fmap, Hst.
  - replace (start + (pool - 56 + 0)) with e by (unfold e; lia). unfold tags. by rewrite lookup_fmap, He.
  - split.
    + repeat constructor; [|set_solver]. intros E%list_elem_of_singleton. unfold h in E. lia.
    + unfold free_links. simpl. unfold links, nxt, prv. rewrite !lookup_fmap, Hst, Hh. done.
  - done.
  - change RT_MEMHEAP_SIZE with 56; lia.
  - lia.
  - done.
Qed.

Lemma memheap_setup_spec memheap name start size :
  0 < start -> start mod 4 = 0 -> start + size < 2 ^ 64 -> 183 <= size ->
  memheap + 136 <= start \/ start + size <= memheap + 80 ->
  let pool := 4 * (size / 4) in
  exists m, memheap_setup memheap name start size = Some m /\ memheap_ok [(pool - 56, false)] [start] m /\
    mh_locked m = false /\ mh_address m = memheap /\ start_addr m = start /\ pool_size m = pool.
Proof.
  intros Hs Hs4 Hend Hsize Haway pool. assert (180 <= pool <= size /\ pool mod 4 = 0) as [Hp Hp4] by (unfold pool; dlia).
  unfold memheap_setup. change RT_ALIGN_SIZE with 4. rewrite RT_ALIGN_DOWN_4. fold pool. clearbody pool. hsize.
  rewrite (u64_small (pool - 2 * 56)), (u64_small (pool - _)), (u64_small (start + _ + _)) by lia.
  erewrite bind_ok by (apply new_mi_far; [mi_far|done]).
  mi_run. erewrite bind_ok by (apply new_mi_far; [mi_far|done]).
  mi_run. erewrite bind_ok by (unfold link_free; mi_run; apply upd_mi_eq; simpl; mi_lookup).
  mi_run. mi_cbn. erewrite bind_ok by (apply new_mi_far; [mi_far|done]).
  mi_run. erewrite upd_mi_eq by (simpl; mi_lookup). cbn [snd fmap option_fmap option_map].
  eexists. split; [reflexivity|]. split; [|done].
  replace (start + (pool - 2 * 56) + 56) with (start + (pool - 56)) by lia.
  eapply (one_block memheap); simpl; first [done|lia|mi_lookup].
Qed.
