(* ===== verification/MemheapCalls.v ===== *)
(** * Memory heaps: the calls

    The functions of [memheap.c] on the kernel and the heap together. When the
    heap's semaphore is free a call does its work and leaves the kernel as it
    was; when it is taken the caller is suspended and the heap is not touched. *)
From S2P Require Import Prelude Kservice Kernel Sched Object Timer Thread KernelInv Boot SchedSpec Ipc IpcSem Mempool.
From S2P Require Import RtList Sys Mem MemSpec MemOps MemRealloc.
From S2P Require Import Memheap MemheapSpec MemheapOps MemheapAlloc MemheapFree MemheapRealloc MemheapMove.

(** The heap's semaphore [sm] is free, and thread [c] runs. *)
Record lock_free (k : kstate) (lock : nat) (sm : rt_semaphore) (c : nat) (th : rt_thread) : Prop := LockFree {
  lf_kernel : kernel_ok k;
  lf_sem : sem_ok k lock sm;
  lf_caller : can_block k c th;
  lf_value : 0 < sem_value sm
}.

Section critical.
Context (k : kstate) (lock : nat) (sm : rt_semaphore) (c : nat) (th : rt_thread).
Context (Hk : lock_free k lock sm c th).

(** The kernel while [c] has the lock. *)
Definition entered_state : kstate := sem_st lock (set_sem_value (sem_value sm - 1) sm) k.

Lemma entered_name : self_name entered_state = Some (Some (o_name (th_object th)), entered_state).
Proof using Hk.
  destruct Hk as [_ _ [Hc Hth _ _ _] _]. unfold self_name, rt_thread_self. mrun.
  change (k_current entered_state) with (k_current k). rewrite Hc. cbv beta iota.
  by rewrite (get_thread_eq c entered_state th).
Qed.

Lemma enter_lock {A} (error : A) (body : St (sys rt_memheap) (call (sys rt_memheap) A)) m :
  mh_locked m = false -> with_lock lock error body (Sys k m) = body (Sys entered_state m).
Proof using Hk.
  intros Hl. destruct Hk as [Hok Hs Hc Hv].
  destruct (sem_take_spec k lock sm c th RT_WAITING_FOREVER Hok Hs Hc) as (r & k' & E & _ & [(_ & -> & ->)|[?|?]]); [done| |lia|lia].
  unfold with_lock. assert (lift_h (gets mh_locked) (Sys k m) = Some (false, Sys k m)) as E1 by (by rewrite <- Hl).
  rewrite (bind_ok _ _ _ _ _ E1). cbv beta iota delta [negb]. by rewrite (bind_ok _ _ _ _ _ (lift_k_ok _ _ m _ _ E)).
Qed.

Lemma leave_lock m : mh_locked m = false -> release_lock lock (Sys entered_state m) = Some (tt, Sys k m).
Proof using Hk.
  intros Hl. destruct Hk as [Hok [Hs Hh Hv Hw] Hc Hp].
  assert (sem_ok entered_state lock (set_sem_value (sem_value sm - 1) sm)) as Hs1.
  { constructor; [apply lookup_insert_eq|done|simpl; lia|]. simpl. intros _. by apply Hw. }
  destruct (sem_release_spec entered_state lock _ (sem_st_kernel_ok _ _ _ Hok) Hs1) as (r & k' & E & _ & Hr).
  { exists c. apply Hc. }
  change (k_tq entered_state) with (k_tq k) in Hr. rewrite Hw in Hr by done. simpl in Hr.
  rewrite (proj2 (Z.ltb_lt _ _)) in Hr by (unfold RT_SEM_VALUE_MAX in *; lia). destruct Hr as [-> ->].
  assert (sem_st lock (set_sem_value (sem_value sm - 1 + 1) (set_sem_value (sem_value sm - 1) sm)) entered_state = k) as E2.
  { replace (sem_value sm - 1 + 1) with (sem_value sm) by lia. unfold entered_state, sem_st; kfields.
    rewrite insert_insert_eq. replace (set_sem_value _ _) with sm by (by destruct sm). rewrite insert_id by done.
    by destruct k. }
  rewrite E2 in E. unfold release_lock.
  assert (lift_h (gets mh_locked) (Sys entered_state m) = Some (false, Sys entered_state m)) as E1 by (by rewrite <- Hl).
  rewrite (bind_ok _ _ _ _ _ E1). cbv beta iota delta [negb]. by rewrite (bind_ok _ _ _ _ _ (lift_k_ok _ _ m _ _ E)).
Qed.
End critical.

(** The lock is taken: the caller waits. *)
Lemma enter_waits {A} k lock sm c th (error : A) body m :
  kernel_ok k -> sem_ok k lock sm -> can_block k c th -> sem_value sm = 0 -> mh_locked m = false ->
  exists k', with_lock lock error body (Sys k m) = Some (Waits (resumed error body), Sys k' m) /\
    kernel_ok k' /\ sem_ok k' lock sm /\ highest_running k' /\ c ∈ qget (k_tq k') (QSem lock) /\
    k_threads k' !! c = Some (with_stat RT_THREAD_SUSPEND (set_th_error RT_EOK th)).
Proof.
  intros Hok Hs Hc Hv Hl.
  destruct (sem_take_spec k lock sm c th RT_WAITING_FOREVER Hok Hs Hc) as (r & k' & E & Hok' & [?|[?|(_ & _ & -> & B)]]);
    [done|lia|naive_solver lia|].
  exists k'. split.
  { unfold with_lock. assert (lift_h (gets mh_locked) (Sys k m) = Some (false, Sys k m)) as E1 by (by rewrite <- Hl).
    rewrite (bind_ok _ _ _ _ _ E1). cbv beta iota delta [negb]. by rewrite (bind_ok _ _ _ _ _ (lift_k_ok _ _ m _ _ E)). }
  pose proof (of_sems _ _ (bo_frame _ _ _ _ _ _ _ B)) as Es.
  split; [done|]. split; [constructor; [by rewrite Es; apply Hs|apply Hs|apply Hs|lia]|].
  split; [by apply (bo_highest _ _ _ _ _ _ _ B), (cb_unlocked _ _ _ Hc)|].
  split; [|by apply B]. destruct (bo_queue _ _ _ _ _ _ _ B) as (l1 & l2 & _ & -> & _). set_solver.
Qed.

(** ** Sizes *)

Lemma request_size_spec size :
  0 <= size <= 2 ^ 64 - 4 ->
  12 <= request_size size <= 2 ^ 64 - 4 /\ request_size size mod 4 = 0 /\ size <= request_size size /\
  request_size (request_size size) = request_size size.
Proof.
  intros Hs. assert (forall x, 0 <= x <= 2 ^ 64 - 4 ->
    request_size x = Z.max 12 (4 * ((x + 3) / 4))) as E.
  { intros x Hx. unfold request_size. change RT_ALIGN_SIZE with 4. rewrite (RT_ALIGN_4 x) by lia. hsize. zcases; lia. }
  rewrite (E size Hs). split; [dlia|]. split; [dlia|]. split; [dlia|]. rewrite E by dlia. dlia.
Qed.

Lemma request_size_le size : 0 <= size <= 2 ^ 64 - 16 -> request_size size <= 2 ^ 64 - 16.
Proof.
  intros Hs. unfold request_size. change RT_ALIGN_SIZE with 4. rewrite (RT_ALIGN_4 size) by lia. hsize. zcases; dlia.
Qed.

(** Where [rt_memheap_alloc] finds room for [s] bytes, if it looks at all. *)
Definition mh_find (m : rt_memheap) (s : Z) (fl : list Z) : option (nat * Z) :=
  if s <? available_size m then list_find (fun q => s <= room m q) fl else None.

Lemma assert_memheap_eq bs fl m : mh_struct bs fl m -> assert_memheap m = Some (tt, m).
Proof. intros Hm. unfold assert_memheap. rewrite bind_gets. unfold rt_assert. by rewrite (mo_type _ _ _ Hm), Z.eqb_refl. Qed.

Lemma kept_locked lo hi m m' : kept lo hi m m' -> mh_locked m' = mh_locked m.
Proof. intros [E _]. by apply core_inv in E as (_ & _ & _ & _ & _ & _ & ?). Qed.

(** ** The calls with the lock free *)

Section calls.
Context (k : kstate) (lock : nat) (sm : rt_semaphore) (c : nat) (th : rt_thread).
Context (Hk : lock_free k lock sm c th).

Lemma alloc_locked_spec s p m m' :
  mh_locked m = false -> mh_locked m' = false -> alloc_block (Some (o_name (th_object th))) s m = Some (p, m') ->
  with_lock lock None (alloc_locked lock s) (Sys k m) = Some (Done p, Sys k m').
Proof using Hk.
  intros Hl Hl' E. rewrite (enter_lock k lock sm c th Hk) by done. unfold alloc_locked.
  rewrite (bind_ok _ _ _ _ _ (lift_k_ok _ _ m _ _ (entered_name k lock sm c th Hk))).
  rewrite (bind_ok _ _ _ _ _ (lift_h_ok _ _ m _ _ E)).
  by rewrite (bind_ok _ _ _ _ _ (leave_lock k lock sm c th Hk m' Hl')).
Qed.

Lemma alloc_call_spec size bs fl m :
  mh_locked m = false -> memheap_ok bs fl m -> 0 <= size <= 2 ^ 64 - 4 ->
  let s := request_size size in
  match mh_find m s fl with
  | None => rt_memheap_alloc lock size (Sys k m) = Some (Done None, Sys k m)
  | Some (i, p) => exists l n r m', bs = l ++ (n, false) :: r /\ p = start_addr m + extent l /\ s <= n - 56 /\
      rt_memheap_alloc lock size (Sys k m) = Some (Done (Some (p + 56)), Sys k m') /\
      memheap_ok (l ++ mh_taken n s ++ r) (mh_rest p n s (delete i fl)) m' /\
      kept (p + 56) (p + n) m m'
  end.
Proof using Hk.
  intros Hl Hm Hs s. destruct (request_size_spec size Hs) as (Hs1 & Hs4 & _). fold s in Hs1, Hs4.
  pose proof (alloc_block_spec (Some (o_name (th_object th))) s bs fl m Hm) as A.
  assert (rt_memheap_alloc lock size (Sys k m) =
    (if s <? available_size m then with_lock lock None (alloc_locked lock s) else mret (Done None)) (Sys k m)) as ->.
  { unfold rt_memheap_alloc. by rewrite (bind_ok _ _ _ _ _ (lift_h_ok _ k m _ _ (assert_memheap_eq bs fl m Hm))). }
  unfold mh_find. destruct (Z.ltb_spec s (available_size m)); [|done].
  destruct (list_find _ fl) as [[i p]|].
  - destruct A as (l & n & r & m' & -> & -> & Hn & E & Hok & K); [lia|done|].
    exists l, n, r, m'. split_and!; try done. apply alloc_locked_spec; [done| |done]. by rewrite (kept_locked _ _ _ _ K).
  - apply alloc_locked_spec; [done|done|]. apply A; [lia|done].
Qed.

(** ** Release *)

Lemma check_block_spec l n r fl m :
  mh_struct (l ++ (n, true) :: r) fl m -> check_block (start_addr m + extent l) m = Some (tt, m).
Proof using Type.
  intros Hm. unfold check_block. destruct (row_item _ _ _ _ _ _ Hm) as (i & Hi & Ei & Ep & En & _).
  destruct (row_behind _ _ _ _ _ _ Hm) as (j & Hj & _ & Ej). rewrite <- En in Hj.
  rewrite (bind_mi _ _ _ _ Hi), Ei, bind_assert by done. rewrite (bind_mi _ _ _ _ Hj), Ej, bind_assert.
  - rewrite bind_gets, Ep, bind_assert by apply Z.eqb_refl. by eapply assert_memheap_eq.
  - by destruct r as [|[? []] ?].
Qed.

(** A block that is free already fails the assertion. *)
Lemma check_block_free l n r fl m :
  mh_struct (l ++ (n, false) :: r) fl m -> check_block (start_addr m + extent l) m = None.
Proof using Type.
  intros Hm. unfold check_block. destruct (row_item _ _ _ _ _ _ Hm) as (i & Hi & Ei & _).
  by rewrite (bind_mi _ _ _ _ Hi), Ei.
Qed.

Lemma user_block l n u r fl m :
  mh_struct (l ++ (n, u) :: r) fl m -> u64 (start_addr m + extent l + 56 - RT_MEMHEAP_SIZE) = start_addr m + extent l.
Proof using Type.
  intros Hm. set (p := start_addr m + extent l). destruct (row_place _ _ _ _ _ _ Hm) as (P0 & P1 & P2 & P3 & P4 & P5 & P6 & P7).
  destruct (row_spacious _ _ _ _ _ _ Hm) as (_ & [? _] & _). fold p in P1, P3. hsize.
  rewrite u64_small by lia. lia.
Qed.

Lemma free_call_spec l n r fl m :
  mh_locked m = false -> memheap_ok (l ++ (n, true) :: r) fl m ->
  let p := start_addr m + extent l in
  exists m', rt_memheap_free lock (Some (p + 56)) (Sys k m) = Some (Done tt, Sys k m') /\
    memheap_ok (freed l n r) (freed_list p l n r fl) m' /\ core m' = core m /\ mh_bytes m' = mh_bytes m.
Proof using Hk.
  intros Hl Hm p. destruct (free_block_spec l n r fl m Hm) as (m' & E & Hok & Hc & Hb). fold p in E, Hok.
  exists m'. split; [|done]. unfold rt_memheap_free. rewrite (user_block l n true r fl m Hm : u64 (p + 56 - _) = p). cbv zeta.
  rewrite (bind_ok _ _ _ _ _ (lift_h_ok _ k m _ _ (check_block_spec l n r fl m Hm))).
  rewrite (enter_lock k lock sm c th Hk) by done. unfold free_locked.
  rewrite (bind_ok _ _ _ _ _ (lift_h_ok _ _ m _ _ E)).
  apply core_inv in Hc as (_ & _ & _ & _ & _ & _ & El). rewrite Hl in El.
  by rewrite (bind_ok _ _ _ _ _ (leave_lock k lock sm c th Hk m' El)).
Qed.

(** ** Reallocation *)

Section realloc.
Context (l : list block) (n : Z) (r : list block) (fl : list Z) (m : rt_memheap) (newsize : Z).
Let p := start_addr m + extent l.
Let s := request_size newsize.
Context (Hl : mh_locked m = false) (Hm : memheap_ok (l ++ (n, true) :: r) fl m) (Hs : 0 < newsize <= 2 ^ 64 - 16).

(** The decisions of [rt_memheap_realloc] that need no lock. *)
Lemma realloc_decision :
  rt_memheap_realloc lock (Some (p + 56)) newsize (Sys k m) =
    (if n - 56 <? s then with_lock lock None (grow_locked lock (p + 56) (n - 56) s)
     else if n - 56 <=? s + 68 then mret (Done (Some (p + 56)))
     else with_lock lock None (shrink_locked lock (p + 56) s)) (Sys k m).
Proof using Hl Hm Hs.
  destruct (request_size_spec newsize) as (Hs1 & _); [lia|]. fold s in Hs1.
  unfold rt_memheap_realloc. rewrite (bind_ok _ _ _ _ _ (lift_h_ok _ k m _ _ (assert_memheap_eq _ _ m Hm))).
  rewrite (proj2 (Z.eqb_neq newsize 0)) by lia. fold s. cbv zeta. rewrite (user_block l n true r fl m Hm : u64 (p + 56 - _) = p).
  pose proof (row_size _ _ _ _ _ _ Hm) as E. fold p in E. rewrite (bind_ok _ _ _ _ _ (lift_h_ok _ k m _ _ E)).
  destruct (Z.ltb_spec (n - 56) s); [done|]. hsize.
  destruct (row_place _ _ _ _ _ _ Hm) as (P0 & P1 & P2 & P3 & P4 & P5 & P6 & P7). fold p in P1, P3.
  rewrite u64_small by lia. by replace (s + 56 + 12) with (s + 68) by lia.
Qed.

(** The block moves: its bytes are copied into the new one, and the old one is free. *)
Lemma move_block_spec :
  n - 56 < s ->
  match mh_find m s fl with
  | None => move_block lock (p + 56) (n - 56) s (Sys k m) = Some (Done None, Sys k m)
  | Some (i, q) => exists l1 n1 r1 l' r' m',
      l ++ (n, true) :: r = l1 ++ (n1, false) :: r1 /\ q = start_addr m + extent l1 /\ s <= n1 - 56 /\
      l1 ++ mh_taken n1 s ++ r1 = l' ++ (n, true) :: r' /\ extent l' = extent l /\
      move_block lock (p + 56) (n - 56) s (Sys k m) = Some (Done (Some (q + 56)), Sys k m') /\
      memheap_ok (freed l' n r') (freed_list p l' n r' (mh_rest q n1 s (delete i fl))) m' /\
      kept (q + 56) (q + n1) m m' /\
      forall x, 0 <= x < n - 56 -> mh_byte m' (q + 56 + x) = mh_byte m (p + 56 + x)
  end.
Proof using Hk Hl Hm Hs.
  intros Hns. destruct (request_size_spec newsize) as (Hs1 & Hs4 & _ & Hs2); [lia|]. fold s in Hs1, Hs4, Hs2.
  destruct (row_spacious _ _ _ _ _ _ Hm) as (_ & [Hn Hn4] & _). hsize.
  pose proof (alloc_call_spec s _ fl m Hl Hm ltac:(lia)) as A. rewrite Hs2 in A. cbv zeta in A.
  unfold move_block. destruct (mh_find m s fl) as [[i q]|]; [|by rewrite (calls_done _ _ _ _ _ A)].
  destruct A as (l1 & n1 & r1 & m1 & Eb & Eq & Hfit & E1 & Hm1 & K1).
  destruct (other_used l1 n1 r1 (mh_taken n1 s) l n r) as (l' & r' & Er & El & Hd);
    [done|unfold mh_taken; destruct (_ <=? _); simpl; lia|apply Hm|].
  destruct (core_inv _ _ (ke_core _ _ _ _ K1)) as (_ & _ & Es1 & _ & _ & _ & El1).
  (* the copy goes into the new block *)
  assert (exists n2 r2, mh_taken n1 s ++ r1 = (n2, true) :: r2 /\ s <= n2 - 56 <= n1 - 56) as (n2 & r2 & Et & Hn2).
  { unfold mh_taken. destruct (Z.leb_spec (s + 68) (n1 - 56)); simpl; eexists _, _; (split; [done|lia]). }
  rewrite Et in Hm1, Er.
  destruct (copy_block l1 n2 true r2 _ m1 (p + 56) (q + 56) (n - 56) Hm1) as (m2 & E2 & Hm2 & K2 & C2);
    [lia|rewrite Es1; lia|rewrite Es1; lia|].
  rewrite Er in Hm2. destruct (core_inv _ _ (ke_core _ _ _ _ K2)) as (_ & _ & Es2 & _ & _ & _ & El2).
  destruct (free_call_spec l' n r' _ m2 ltac:(congruence) Hm2) as (m3 & E3 & Hm3 & C3 & B3).
  replace (start_addr m2 + extent l') with p in E3, Hm3 by (rewrite Es2, Es1, El; done).
  exists l1, n1, r1, l', r', m3. rewrite Et. split_and!; try done.
  - rewrite (calls_done _ _ _ _ _ E1). cbv beta iota. rewrite (proj2 (Z.ltb_lt _ _)) by lia.
    rewrite (bind_ok _ _ _ _ _ (lift_h_ok _ k m1 _ _ E2)). by rewrite (calls_done _ _ _ _ _ E3).
  - apply (kept_trans _ _ _ m2); [apply (kept_trans _ _ _ m1); [done|]|].
    + eapply kept_le; [|exact K2]. intros ? ?. lia.
    + constructor; [done|]. intros x _. by rewrite B3.
  - intros x Hx. unfold mh_byte at 1. rewrite B3. fold (mh_byte m2 (q + 56 + x)). rewrite C2 by lia.
    apply (kept_byte _ _ _ _ _ K1). unfold p. destruct Hd; lia.
Qed.

(** [rt_memheap_realloc] grows a block in place if the block behind it is free
    and large enough: that block, and what follows it. *)
Definition grows (n s : Z) (r : list block) : option (Z * list block) :=
  match r with
  | (k, false) :: r => if s + 12 <? n - 56 + (k - 56) then Some (k, r) else None
  | _ => None
  end.

(** The block behind is not free, or its size fits in 31 bits. *)
Definition behind_small (r : list block) : Prop := match r with (k, false) :: _ => k - 56 < 2 ^ 31 | _ => True end.

Lemma grow_call_spec :
  n - 56 < s -> behind_small r ->
  match grows n s r with
  | Some (k', r') => exists m',
      rt_memheap_realloc lock (Some (p + 56)) newsize (Sys k m) = Some (Done (Some (p + 56)), Sys k m') /\
      memheap_ok (l ++ (s + 56, true) :: (n + k' - (s + 56), false) :: r')
        ((p + 56 + s) :: filter (fun y => y <> p + n) fl) m' /\
      kept (p + n) (p + n + k') m m'
  | None => rt_memheap_realloc lock (Some (p + 56)) newsize (Sys k m) = move_block lock (p + 56) (n - 56) s (Sys k m)
  end.
Proof using Hk Hl Hm Hs.
  intros Hns Hb. destruct (request_size_spec newsize) as (Hs1 & Hs4 & _); [lia|]. fold s in Hs1, Hs4.
  rewrite realloc_decision, (proj2 (Z.ltb_lt _ _)) by done. rewrite (enter_lock k lock sm c th Hk) by done.
  unfold grow_locked. rewrite (user_block l n true r fl m Hm : u64 (p + 56 - _) = p).
  pose proof (row_spacious _ _ _ _ _ _ Hm) as (_ & [Hn _] & _). hsize.
  destruct (grows n s r) as [[k' r']|] eqn:Eg.
  - unfold grows in Eg. destruct r as [|[k1 []] r1]; [done|done|]. destruct (Z.ltb_spec (s + 12) (n - 56 + (k1 - 56))); [|done].
    simplify_eq. destruct (next_member l n k' r' fl m Hm) as (f1 & f2 & -> & _). fold p in Hm |- *.
    destruct (grow_block_spec l n k' r' f1 f2 m s Hm) as (m' & E & Hok & K); [done|done|done|exact Hb|]. fold p in E, Hok, K.
    exists m'. rewrite (filter_mid _ _ _ _ (proj1 (mo_free _ _ _ Hm))). split; [|done].
    rewrite (bind_ok _ _ _ _ _ (lift_h_ok _ _ m _ _ E)).
    by rewrite (bind_ok _ _ _ _ _ (leave_lock k lock sm c th Hk m' (eq_trans (kept_locked _ _ _ _ K) Hl))).
  - assert (grow_block p (n - 56) s m = Some (false, m)) as E.
    { pose proof (request_size_le newsize ltac:(lia)) as Hs2. fold s in Hs2.
      apply (grow_refused l n r fl m s Hm); [lia|lia|]. unfold grows in Eg. destruct r as [|[k1 []] r1]; [done|done|].
      split; [exact Hb|]. destruct (Z.ltb_spec (s + 12) (n - 56 + (k1 - 56))); [done|lia]. }
    rewrite (bind_ok _ _ _ _ _ (lift_h_ok _ _ m _ _ E)).
    by rewrite (bind_ok _ _ _ _ _ (leave_lock k lock sm c th Hk m Hl)).
Qed.

Lemma shrink_call_spec :
  s <= n - 56 ->
  if n - 56 <=? s + 68 then
    rt_memheap_realloc lock (Some (p + 56)) newsize (Sys k m) = Some (Done (Some (p + 56)), Sys k m)
  else
    let '(n2, r2) := join_next (n - (s + 56)) r in
    exists m', rt_memheap_realloc lock (Some (p + 56)) newsize (Sys k m) = Some (Done (Some (p + 56)), Sys k m') /\
      memheap_ok (l ++ (s + 56, true) :: (n2, false) :: r2) ((p + s + 56) :: without_right p n r fl) m' /\
      kept (p + s + 56) (p + n) m m'.
Proof using Hk Hl Hm Hs.
  intros Hns. destruct (request_size_spec newsize) as (Hs1 & Hs4 & _); [lia|]. fold s in Hs1, Hs4.
  rewrite realloc_decision, (proj2 (Z.ltb_ge _ _)) by done.
  destruct (Z.leb_spec (n - 56) (s + 68)); [done|].
  pose proof (shrink_block_spec l n r fl m s Hm ltac:(lia) Hs4 ltac:(lia)) as A. fold p in A.
  destruct (join_next (n - (s + 56)) r) as [n2 r2]. destruct A as (m' & E & Hok & K).
  exists m'. split; [|done]. rewrite (enter_lock k lock sm c th Hk) by done. unfold shrink_locked.
  rewrite (user_block l n true r fl m Hm : u64 (p + 56 - _) = p).
  rewrite (bind_ok _ _ _ _ _ (lift_h_ok _ _ m _ _ E)).
  by rewrite (bind_ok _ _ _ _ _ (leave_lock k lock sm c th Hk m' (eq_trans (kept_locked _ _ _ _ K) Hl))).
Qed.
End realloc.
End calls.
