(* ===== verification/MemheapCorrect.v ===== *)
(** * Memory heaps: correctness

    What [rt_memheap_init], [rt_memheap_alloc], [rt_memheap_free] and
    [rt_memheap_realloc] do, for a heap that is in order ([memheap_ok]), whose
    blocks are [bs] and whose free list is [fl]. *)
From S2P Require Import Prelude Kservice Kernel Sched Object Timer Thread KernelInv Boot SchedSpec Ipc IpcSem Mempool.
From S2P Require Import ObjectSpec IpcInit RtList Sys Mem MemSpec MemOps MemRealloc.
From S2P Require Import Memheap MemheapSpec MemheapOps MemheapAlloc MemheapFree MemheapRealloc MemheapMove.
From S2P Require Import MemheapCalls MemheapInit.

(** [rt_memheap_init] succeeds for a pool of 183 bytes or more that begins at a
    multiple of four and does not overlap the list head in the control block: the
    whole pool, but for the two headers and what is left of a multiple of four, is
    one free block, the heap is in order, and its semaphore has one unit. *)
Theorem memheap_init_correct lock k memheap name start size :
  fresh_object k (OSem lock) RT_Object_Class_Semaphore [QSem lock] ->
  0 < start -> start mod 4 = 0 -> start + size < 2 ^ 64 -> 183 <= size ->
  memheap + 136 <= start \/ start + size <= memheap + 80 ->
  let pool := 4 * (size / 4) in
  exists k' m sm, rt_memheap_init lock memheap name start size k = Some (RT_EOK, Sys k' m) /\
    kernel_ok k' /\ sem_ok k' lock sm /\ sem_value sm = 1 /\
    memheap_ok [(pool - 56, false)] [start] m /\ mh_locked m = false /\
    mh_address m = memheap /\ start_addr m = start /\ pool_size m = pool.
Proof.
  intros Hf Hs Hs4 Hend Hsize Haway pool.
  destruct (sem_init_spec k lock name 1 RT_IPC_FLAG_PRIO Hf) as (k' & sm & E & Hok & Hsm & Hv & _);
    [unfold RT_SEM_VALUE_MAX; lia|by right|].
  destruct (memheap_setup_spec memheap name start size Hs Hs4 Hend Hsize Haway) as (m & Em & Hm & R).
  exists k', m, sm. unfold rt_memheap_init. by rewrite Em, E.
Qed.

(** [rt_memheap_alloc] from a thread. It fails at once if not even the sum of
    the free bytes is larger than the request (rounded up to the alignment, and at
    least the smallest block). Otherwise, if the heap's semaphore is free, it is
    first fit: the first block of the free list with room is taken, or the
    beginning of it if what is left is large enough for a block of its own, the
    heap stays in order, bytes outside that block keep their values, and the
    semaphore is free again; without such a block nothing changes. If
    the semaphore is taken the caller is suspended on it, the heap is not touched,
    and the rest of the call is the search. *)
Theorem memheap_alloc_correct k lock sm c th size bs fl m :
  kernel_ok k -> sem_ok k lock sm -> can_block k c th ->
  mh_locked m = false -> memheap_ok bs fl m -> 0 <= size <= 2 ^ 64 - 4 ->
  let s := request_size size in
  let alloc := rt_memheap_alloc lock size (Sys k m) in
  if negb (s <? available_size m) then alloc = Some (Done None, Sys k m)
  else if sem_value sm =? 0 then
    exists k', alloc = Some (Waits (resumed None (alloc_locked lock s)), Sys k' m) /\
      kernel_ok k' /\ sem_ok k' lock sm /\ highest_running k' /\ c ∈ qget (k_tq k') (QSem lock) /\
      k_threads k' !! c = Some (with_stat RT_THREAD_SUSPEND (set_th_error RT_EOK th))
  else
    match list_find (fun q => s <= room m q) fl with
    | None => alloc = Some (Done None, Sys k m)
    | Some (i, p) => exists l n r m',
        bs = l ++ (n, false) :: r /\ p = start_addr m + extent l /\ s <= n - 56 /\
        alloc = Some (Done (Some (p + 56)), Sys k m') /\
        memheap_ok (l ++ mh_taken n s ++ r) (mh_rest p n s (delete i fl)) m' /\
        kept (p + 56) (p + n) m m'
    end.
Proof.
  intros Hok Hsm Hc Hl Hm Hs s alloc.
  assert (alloc = (if s <? available_size m then with_lock lock None (alloc_locked lock s) else mret (Done None)) (Sys k m)) as E.
  { unfold alloc, rt_memheap_alloc. by rewrite (bind_ok _ _ _ _ _ (lift_h_ok _ k m _ _ (assert_memheap_eq bs fl m Hm))). }
  destruct (Z.ltb_spec s (available_size m)) as [Ha|Ha]; cbv beta iota delta [negb]; [|exact E].
  destruct (Z.eqb_spec (sem_value sm) 0) as [Hv|Hv].
  - rewrite E. by apply (enter_waits k lock sm c th).
  - assert (lock_free k lock sm c th) as Hk by (constructor; try done; pose proof (so_value _ _ _ Hsm); lia).
    pose proof (alloc_call_spec k lock sm c th Hk size bs fl m Hl Hm Hs) as A. cbv zeta in A. fold s in A.
    unfold mh_find in A. by rewrite (proj2 (Z.ltb_lt _ _) Ha) in A.
Qed.

(** The second half of a call that had to wait begins with the lock. *)
Lemma resumed_spec {A} (error : A) body k m c th :
  can_block k c th -> th_error th = RT_EOK -> resumed error body (Sys k m) = body (Sys k m).
Proof.
  intros Hc He.
  assert ((thread ← current_thread; rt_sem_take_return thread) k = Some (RT_EOK, k)) as E.
  { unfold current_thread, rt_thread_self, rt_sem_take_return. mrun. rewrite (cb_current _ _ _ Hc). cbv beta iota.
    rewrite (get_thread_eq c k th) by apply Hc. by rewrite He. }
  unfold resumed. by rewrite (bind_ok _ _ _ _ _ (lift_k_ok _ _ m _ _ E)).
Qed.

(** The lock goes to the first waiting thread, or is free. *)
Definition handed_over (lock : nat) (sm : rt_semaphore) (k k' : kstate) : Prop :=
  match qget (k_tq k) (QSem lock) with
  | [] => k' = sem_st lock (set_sem_value (sem_value sm + 1) sm) k
  | t :: _ => exists th, k_threads k !! t = Some th /\ woke (QSem lock) t th k k'
  end.

Lemma release_lock_spec lock k sm c th m :
  kernel_ok k -> sem_ok k lock sm -> can_block k c th -> sem_value sm = 0 -> mh_locked m = false ->
  exists k', release_lock lock (Sys k m) = Some (tt, Sys k' m) /\ kernel_ok k' /\ handed_over lock sm k k'.
Proof.
  intros Hok Hsm Hc Hv Hl.
  destruct (sem_release_spec k lock sm Hok Hsm) as (r & k' & E & Hok' & Hr); [exists c; apply Hc|].
  exists k'. split; [|split; [done|]].
  - unfold release_lock. assert (lift_h (gets mh_locked) (Sys k m) = Some (false, Sys k m)) as E1 by (by rewrite <- Hl).
    rewrite (bind_ok _ _ _ _ _ E1). cbv beta iota delta [negb]. by rewrite (bind_ok _ _ _ _ _ (lift_k_ok _ _ m _ _ E)).
  - unfold handed_over. rewrite Hv in *. destruct (qget (k_tq k) (QSem lock)); [|by destruct Hr].
    change (0 <? RT_SEM_VALUE_MAX) with true in Hr. by destruct Hr.
Qed.

(** the end of an allocation that had to wait. When the thread has been given
    the semaphore, the rest of [rt_memheap_alloc] is the same first-fit search on
    the heap as it is then, whoever changed it in the meantime, and the semaphore
    goes to the next waiting thread, or is free if there is none. *)
Theorem memheap_alloc_resume_correct k lock sm c th s bs fl m :
  kernel_ok k -> sem_ok k lock sm -> can_block k c th -> th_error th = RT_EOK -> sem_value sm = 0 ->
  mh_locked m = false -> memheap_ok bs fl m -> 12 <= s -> s mod 4 = 0 ->
  exists k', kernel_ok k' /\ handed_over lock sm k k' /\
    let rest := resumed None (alloc_locked lock s) (Sys k m) in
    match list_find (fun q => s <= room m q) fl with
    | None => rest = Some (Done None, Sys k' m)
    | Some (i, p) => exists l n r m',
        bs = l ++ (n, false) :: r /\ p = start_addr m + extent l /\ s <= n - 56 /\
        rest = Some (Done (Some (p + 56)), Sys k' m') /\
        memheap_ok (l ++ mh_taken n s ++ r) (mh_rest p n s (delete i fl)) m' /\
        kept (p + 56) (p + n) m m'
    end.
Proof.
  intros Hok Hsm Hc He Hv Hl Hm Hs Hs4.
  assert (forall m', mh_locked m' = false -> exists k', release_lock lock (Sys k m') = Some (tt, Sys k' m') /\ kernel_ok k' /\
    handed_over lock sm k k') as Hrel by (intros; by apply (release_lock_spec lock k sm c th)).
  set (self := Some (o_name (th_object th))).
  assert (self_name k = Some (self, k)) as En.
  { unfold self_name, rt_thread_self. mrun. rewrite (cb_current _ _ _ Hc). cbv beta iota.
    by rewrite (get_thread_eq c k th) by apply Hc. }
  assert (forall p m' k', alloc_block self s m = Some (p, m') -> release_lock lock (Sys k m') = Some (tt, Sys k' m') ->
    resumed None (alloc_locked lock s) (Sys k m) = Some (Done p, Sys k' m')) as Hrun.
  { intros p m' k' E1 E2. rewrite (resumed_spec _ _ _ _ c th) by done. unfold alloc_locked.
    rewrite (bind_ok _ _ _ _ _ (lift_k_ok _ _ m _ _ En)), (bind_ok _ _ _ _ _ (lift_h_ok _ _ m _ _ E1)).
    by rewrite (bind_ok _ _ _ _ _ E2). }
  pose proof (alloc_block_spec self s bs fl m Hm Hs Hs4) as A.
  destruct (list_find _ fl) as [[i p]|].
  - destruct A as (l & n & r & m' & Eb & Ep & Hn & E & Hm' & K).
    destruct (Hrel m') as (k' & E' & Hok' & Hh); [by rewrite (kept_locked _ _ _ _ K)|].
    exists k'. split; [done|]. split; [done|]. exists l, n, r, m'. split_and!; try done. by apply Hrun.
  - destruct (Hrel m Hl) as (k' & E' & Hok' & Hh). exists k'. split; [done|]. split; [done|]. by apply Hrun.
Qed.

(** [rt_memheap_free] with the semaphore free. A block in use becomes free and
    joins the free blocks on both sides; it is the first of the free list unless it
    has joined the block before it; no byte of memory outside the headers changes.
    A block that is free already fails the assertion on its magic number, and a
    null pointer is ignored. *)
Theorem memheap_free_correct k lock sm c th l n u r fl m :
  lock_free k lock sm c th -> mh_locked m = false -> memheap_ok (l ++ (n, u) :: r) fl m ->
  let p := start_addr m + extent l in
  rt_memheap_free lock None (Sys k m) = Some (Done tt, Sys k m) /\
  if u : bool then
    exists m', rt_memheap_free lock (Some (p + 56)) (Sys k m) = Some (Done tt, Sys k m') /\
      memheap_ok (freed l n r) (freed_list p l n r fl) m' /\ core m' = core m /\ mh_bytes m' = mh_bytes m
  else rt_memheap_free lock (Some (p + 56)) (Sys k m) = None.
Proof.
  intros Hk Hl Hm p. split; [done|]. destruct u; [by apply (free_call_spec k lock sm c th)|].
  unfold rt_memheap_free. rewrite (user_block l n false r fl m Hm : u64 (p + 56 - _) = p). cbv zeta. rewrite bind_unfold.
  unfold lift_h at 1. simpl sys_data. by rewrite (check_block_free l n r fl m Hm : check_block p m = None).
Qed.

(** Size zero is a release. *)
Lemma realloc_zero k lock sm c th l n r fl m :
  lock_free k lock sm c th -> mh_locked m = false -> memheap_ok (l ++ (n, true) :: r) fl m ->
  let p := start_addr m + extent l in
  exists m', rt_memheap_realloc lock (Some (p + 56)) 0 (Sys k m) = Some (Done None, Sys k m') /\
    memheap_ok (freed l n r) (freed_list p l n r fl) m' /\ core m' = core m /\ mh_bytes m' = mh_bytes m.
Proof.
  intros Hk Hl Hm p. destruct (free_call_spec k lock sm c th Hk l n r fl m Hl Hm) as (m' & E & Hm' & Hc & Hby). fold p in E.
  exists m'. split; [|done]. unfold rt_memheap_realloc.
  rewrite (bind_ok _ _ _ _ _ (lift_h_ok _ k m _ _ (assert_memheap_eq _ _ m Hm))).
  change (0 =? 0) with true. cbv iota. by rewrite (calls_done _ _ _ _ _ E).
Qed.

(** [rt_memheap_realloc] of a block in use, with the semaphore free and a free
    block behind, if there is one, below 2 GB. Size zero releases the block. A
    block that is too small grows into the free block behind it if that has more
    room than the request and a smallest block need; else a new block is found
    as by [rt_memheap_alloc], the bytes of the old one are copied and the old one
    is released, and without room nothing changes. A block that is large enough
    stays as it is, or its end is given back if that is large enough for a block
    of its own. The heap stays in order and other bytes keep their values. *)
Theorem memheap_realloc_correct k lock sm c th l n r fl m newsize :
  lock_free k lock sm c th -> mh_locked m = false -> memheap_ok (l ++ (n, true) :: r) fl m ->
  0 <= newsize <= 2 ^ 64 - 16 -> behind_small r ->
  let p := start_addr m + extent l in
  let s := request_size newsize in
  let realloc := rt_memheap_realloc lock (Some (p + 56)) newsize (Sys k m) in
  if newsize =? 0 then
    exists m', realloc = Some (Done None, Sys k m') /\ memheap_ok (freed l n r) (freed_list p l n r fl) m' /\
      core m' = core m /\ mh_bytes m' = mh_bytes m
  else if n - 56 <? s then
    match grows n s r with
    | Some (n1, r1) => exists m', realloc = Some (Done (Some (p + 56)), Sys k m') /\
        memheap_ok (l ++ (s + 56, true) :: (n + n1 - (s + 56), false) :: r1)
          ((p + 56 + s) :: filter (fun y => y <> p + n) fl) m' /\ kept (p + n) (p + n + n1) m m'
    | None =>
        match mh_find m s fl with
        | None => realloc = Some (Done None, Sys k m)
        | Some (i, q) => exists l1 n1 r1 l' r' m',
            l ++ (n, true) :: r = l1 ++ (n1, false) :: r1 /\ q = start_addr m + extent l1 /\ s <= n1 - 56 /\
            l1 ++ mh_taken n1 s ++ r1 = l' ++ (n, true) :: r' /\ extent l' = extent l /\
            realloc = Some (Done (Some (q + 56)), Sys k m') /\
            memheap_ok (freed l' n r') (freed_list p l' n r' (mh_rest q n1 s (delete i fl))) m' /\
            kept (q + 56) (q + n1) m m' /\
            forall x, 0 <= x < n - 56 -> mh_byte m' (q + 56 + x) = mh_byte m (p + 56 + x)
        end
    end
  else if n - 56 <=? s + 68 then realloc = Some (Done (Some (p + 56)), Sys k m)
  else
    let '(n2, r2) := join_next (n - (s + 56)) r in
    exists m', realloc = Some (Done (Some (p + 56)), Sys k m') /\
      memheap_ok (l ++ (s + 56, true) :: (n2, false) :: r2) ((p + s + 56) :: without_right p n r fl) m' /\
      kept (p + s + 56) (p + n) m m'.
Proof.
  intros Hk Hl Hm Hs Hb p s realloc. unfold realloc. destruct (Z.eqb_spec newsize 0) as [->|Hne].
  - by apply (realloc_zero k lock sm c th).
  - assert (0 < newsize <= 2 ^ 64 - 16) as Hs' by lia. destruct (Z.ltb_spec (n - 56) s) as [Hns|Hns].
    + pose proof (grow_call_spec k lock sm c th Hk l n r fl m newsize Hl Hm Hs' Hns Hb) as A. fold p s in A.
      destruct (grows n s r) as [[n1 r1]|]; [done|]. rewrite A. by apply (move_block_spec k lock sm c th).
    + by apply (shrink_call_spec k lock sm c th).
Qed.

(** the signed 32-bit [nextsize] of [rt_memheap_realloc]. If the free block
    behind has 2 GB or more, its size is read as a negative number, and the
    comparison with the request is one of unsigned 64-bit numbers: a request of any
    size is said to fit. The call returns the old address as if the block had
    grown, and a free header is written behind the end of the pool. *)
Theorem memheap_grow_overruns k lock sm c th l n n1 r fl m newsize :
  lock_free k lock sm c th -> mh_locked m = false -> memheap_ok (l ++ (n, true) :: (n1, false) :: r) fl m ->
  2 ^ 31 <= n1 - 56 -> n - 56 + (n1 - 56) < 2 ^ 32 -> 0 < newsize <= 2 ^ 64 - 16 ->
  let p := start_addr m + extent l in
  let q := p + 56 + request_size newsize in
  start_addr m + pool_size m <= q -> q < 2 ^ 63 -> (q + 56 <= free_header m \/ free_header m + 56 <= q) ->
  exists m', rt_memheap_realloc lock (Some (p + 56)) newsize (Sys k m) = Some (Done (Some (p + 56)), Sys k m') /\
    tags m' !! q = Some (freed_magic, mh_address m).
Proof.
  intros Hk Hl Hm Hn1 Hsum Hs p q Hq Hq2 Hqh. set (s := request_size newsize).
  destruct (row_place _ _ _ _ _ _ Hm) as (P0 & P1 & P2 & P3 & P4 & P5 & P6 & P7). fold p in P1, P2, P3. simpl in P3, P4.
  destruct (row_spacious _ _ _ _ _ _ Hm) as (_ & _ & Hr). apply Forall_cons in Hr as [_ Hr]. destruct (spacious_extent _ Hr).
  hsize. assert (n - 56 < s) as Hns by (unfold q in Hq; fold s in Hq; lia).
  destruct (next_member l n n1 r fl m Hm) as (f1 & f2 & -> & _). fold p in Hm.
  destruct (grow_overrun l n n1 r f1 f2 m s Hm Hn1 Hsum Hq Hq2 Hqh) as (m' & E & C & T). fold p in E, T.
  pose proof (realloc_decision k lock l n _ _ m newsize Hl Hm Hs) as D. fold p s in D.
  exists m'. split; [|exact T]. rewrite D.
  rewrite (proj2 (Z.ltb_lt _ _) Hns), (enter_lock k lock sm c th Hk) by done. unfold grow_locked.
  rewrite (user_block l n true _ _ m Hm : u64 (p + 56 - _) = p), (bind_ok _ _ _ _ _ (lift_h_ok _ _ m _ _ E)).
  apply core_inv in C as (_ & _ & _ & _ & _ & _ & El). rewrite Hl in El.
  by rewrite (bind_ok _ _ _ _ _ (leave_lock k lock sm c th Hk m' El)).
Qed.

(** ** Concrete heaps *)

(** A semaphore with one unit, and after it has been taken. *)
Definition mh_lock : kstate := after (rt_sem_init 0 [104] 1 RT_IPC_FLAG_PRIO) demo_state.
Definition mh_lock_taken : kstate := after (rt_sem_take 0 RT_WAITING_FOREVER) mh_lock.

Lemma mh_lock_ok : exists sm th, lock_free mh_lock 0 sm 0 th.
Proof.
  exists (sem_at 0 mh_lock), (thread_at 0 mh_lock).
  constructor; [apply kernel_check_sound; vm_compute; reflexivity| |constructor; vm_compute; reflexivity|vm_compute; reflexivity].
  constructor; [vm_compute; reflexivity|split; [vm_compute; reflexivity|right; vm_compute; reflexivity]
    |vm_compute; split; discriminate|intros _; vm_compute; reflexivity].
Qed.

Lemma mh_lock_taken_ok :
  exists sm th, kernel_ok mh_lock_taken /\ sem_ok mh_lock_taken 0 sm /\ can_block mh_lock_taken 0 th /\
    sem_value sm = 0 /\ th_error th = RT_EOK.
Proof.
  exists (sem_at 0 mh_lock_taken), (thread_at 0 mh_lock_taken).
  split; [apply kernel_check_sound; vm_compute; reflexivity|]. split; [|split; [constructor; vm_compute; reflexivity|]].
  - constructor; [vm_compute; reflexivity|split; [vm_compute; reflexivity|right; vm_compute; reflexivity]
      |vm_compute; split; discriminate|intros _; vm_compute; reflexivity].
  - vm_compute. by split_and!.
Qed.

Definition no_heap : rt_memheap := Memheap raw_object 0 0 0 0 0 0 0 false ∅ ∅.
(** [size] bytes at address 4096, and the same with 100 bytes of them in use. *)
Definition mh_demo (size : Z) : rt_memheap := default no_heap (memheap_setup 1000 [104] 4096 size).
Definition mh_demo_used (size : Z) : rt_memheap :=
  match alloc_block None 100 (mh_demo size) with Some (_, m) => m | None => no_heap end.

Lemma mh_demo_ok size :
  300 <= size <= 2 ^ 32 ->
  memheap_ok [(4 * (size / 4) - 56, false)] [4096] (mh_demo size) /\ mh_locked (mh_demo size) = false /\
  start_addr (mh_demo size) = 4096 /\ mh_address (mh_demo size) = 1000 /\ pool_size (mh_demo size) = 4 * (size / 4).
Proof.
  intros Hs. destruct (memheap_setup_spec 1000 [104] 4096 size) as (m & E & Hm & Hl & Ha & Hst & Hp); try lia; [done|].
  unfold mh_demo. rewrite E. cbn [default from_option]. split_and!; assumption.
Qed.

(** The first 100 bytes of a heap that is one free block. *)
Lemma first_alloc n a m :
  memheap_ok [(n, false)] [a] m -> start_addr m = a -> 224 <= n ->
  exists m', alloc_block None 100 m = Some (Some (a + 56), m') /\
    memheap_ok [(156, true); (n - 156, false)] [a + 156] m' /\ core m' = core m.
Proof.
  intros Hm Hst Hn. pose proof (row_room [] n false [] [a] m Hm) as Hr. simpl in Hr. rewrite Hst, Z.add_0_r in Hr.
  pose proof (alloc_block_spec None 100 _ _ _ Hm ltac:(lia) ltac:(done)) as A.
  assert (list_find (fun q => 100 <= room m q) [a] = Some (0%nat, a)) as Ef.
  { simpl. rewrite decide_True by lia. done. }
  rewrite Ef in A.
  destruct A as (l & x & r & m' & Eb & Ep & _ & E & Hm' & [C _]). exists m'.
  destruct l as [|b l]; [|by destruct l]. injection Eb as <- <-. split; [done|]. split; [|done].
  unfold mh_taken, mh_rest in Hm'. rewrite (proj2 (Z.leb_le (100 + 68) (n - 56))) in Hm' by lia.
  simpl in Hm'. replace (n - 100 - 56) with (n - 156) in Hm' by lia.
  replace (a + 100 + 56) with (a + 156) in Hm' by lia. exact Hm'.
Qed.

Lemma mh_demo_used_ok size :
  300 <= size <= 2 ^ 32 ->
  let m := mh_demo_used size in
  memheap_ok [(156, true); (4 * (size / 4) - 212, false)] [4252] m /\ mh_locked m = false /\
  start_addr m = 4096 /\ mh_address m = 1000 /\ pool_size m = 4 * (size / 4).
Proof.
  intros Hs. destruct (mh_demo_ok size Hs) as (Hm & Hl & Hst & Ha & Hp).
  destruct (first_alloc _ _ _ Hm Hst) as (m' & E & Hm' & C); [dlia|].
  unfold mh_demo_used. rewrite E. apply core_inv in C as (_ & -> & -> & -> & _ & _ & ->).
  replace (4 * (size / 4) - 212) with (4 * (size / 4) - 56 - 156) by lia. split_and!; assumption.
Qed.

Lemma memheap_init_correct_witness :
  exists k' m sm, rt_memheap_init 0 1000 [104] 4096 1024 demo_state = Some (RT_EOK, Sys k' m) /\
    kernel_ok k' /\ sem_ok k' 0 sm /\ memheap_ok [(968, false)] [4096] m.
Proof.
  destruct (memheap_init_correct 0 demo_state 1000 [104] 4096 1024) as (k' & m & sm & E & Hok & Hsm & _ & Hm & _);
    [apply demo_fresh|lia|reflexivity|lia|lia|lia|].
  exists k', m, sm. split; [exact E|]. split; [exact Hok|]. split; [exact Hsm|exact Hm].
Defined.

(** 12 bytes from a heap with a free semaphore. *)
Lemma memheap_alloc_correct_witness :
  exists m', rt_memheap_alloc 0 10 (Sys mh_lock (mh_demo 1024)) = Some (Done (Some 4152), Sys mh_lock m') /\
    memheap_ok [(68, true); (900, false)] [4164] m'.
Proof.
  destruct mh_lock_ok as (sm & th & [Hk Hsm Hc Hv]). destruct (mh_demo_ok 1024 ltac:(lia)) as (Hm & Hl & Hst & _ & _).
  set (m := mh_demo 1024) in *. clearbody m. change (4 * (1024 / 4) - 56) with 968 in *.
  pose proof (row_room [] _ false [] [4096] _ Hm) as Hr.
  pose proof (mo_available _ _ _ Hm) as Ha.
  pose proof (memheap_alloc_correct mh_lock 0 _ 0 _ 10 _ _ _ Hk Hsm Hc Hl Hm ltac:(lia)) as A. cbv zeta in A.
  rewrite Ha in A. rewrite Hst in Hr. change (4096 + extent []) with 4096 in Hr.
  change (request_size 10) with 12 in A.
  change (negb (12 <? free_room [(968, false)])) with false in A. rewrite (proj2 (Z.eqb_neq _ 0)) in A by lia.
  assert (list_find (fun q => 12 <= room m q) [4096] = Some (0%nat, 4096)) as Ef.
  { cbn [list_find]. rewrite decide_True by (rewrite Hr; lia). reflexivity. }
  rewrite Ef in A. destruct A as (l & n & r & m' & Eb & _ & _ & E & Hm' & _).
  destruct l as [|b l]; [|by destruct l]. injection Eb as <- <-. exists m'. split; [exact E|exact Hm'].
Defined.

Lemma memheap_alloc_resume_correct_witness :
  exists sm k', resumed None (alloc_locked 0 1000) (Sys mh_lock_taken (mh_demo 1024)) =
      Some (Done None, Sys k' (mh_demo 1024)) /\ kernel_ok k' /\ handed_over 0 sm mh_lock_taken k'.
Proof.
  destruct mh_lock_taken_ok as (sm & th & Hk & Hsm & Hc & Hv & He). destruct (mh_demo_ok 1024 ltac:(lia)) as (Hm & Hl & Hst & _ & _).
  set (m := mh_demo 1024) in *. clearbody m. change (4 * (1024 / 4) - 56) with 968 in *.
  pose proof (row_room [] _ false [] [4096] _ Hm) as Hr. rewrite Hst in Hr.
  change (4096 + extent []) with 4096 in Hr.
  destruct (memheap_alloc_resume_correct mh_lock_taken 0 _ 0 _ 1000 _ _ _ Hk Hsm Hc He Hv Hl Hm ltac:(lia) eq_refl)
    as (k' & Hk' & Hh & A).
  assert (list_find (fun q => 1000 <= room m q) [4096] = None) as Ef.
  { cbn [list_find]. rewrite decide_False by (rewrite Hr; lia). reflexivity. }
  cbv zeta in A. rewrite Ef in A. exists sm, k'. split; [exact A|]. split; [exact Hk'|exact Hh].
Defined.

Lemma memheap_free_correct_witness :
  exists m', rt_memheap_free 0 (Some 4152) (Sys mh_lock (mh_demo_used 1024)) = Some (Done tt, Sys mh_lock m') /\
    memheap_ok [(968, false)] [4096] m'.
Proof.
  destruct mh_lock_ok as (sm & th & Hk).
  destruct (mh_demo_used_ok 1024 ltac:(lia)) as (Hm & Hl & Hst & _ & _).
  set (m := mh_demo_used 1024) in *. clearbody m. change (4 * (1024 / 4) - 212) with 812 in *.
  destruct (memheap_free_correct mh_lock 0 _ 0 _ [] 156 true _ _ _ Hk Hl Hm) as (_ & A).
  rewrite Hst in A. destruct A as (m' & E & Hm' & _). exists m'. split; [exact E|exact Hm'].
Defined.

(** From 100 to 200 bytes, in place. *)
Lemma memheap_realloc_correct_witness :
  exists m', rt_memheap_realloc 0 (Some 4152) 200 (Sys mh_lock (mh_demo_used 1024)) =
      Some (Done (Some 4152), Sys mh_lock m') /\ memheap_ok [(256, true); (712, false)] [4352] m'.
Proof.
  destruct mh_lock_ok as (sm & th & Hk).
  destruct (mh_demo_used_ok 1024 ltac:(lia)) as (Hm & Hl & Hst & _ & _).
  set (m := mh_demo_used 1024) in *. clearbody m. change (4 * (1024 / 4) - 212) with 812 in *.
  pose proof (memheap_realloc_correct mh_lock 0 _ 0 _ [] 156 _ _ _ 200 Hk Hl Hm ltac:(lia) ltac:(reflexivity)) as A.
  cbv zeta in A. rewrite Hst in A. change (200 =? 0) with false in A. change (156 - 56 <? request_size 200) with true in A.
  change (grows 156 (request_size 200) [(812, false)]) with (Some (812, @nil block)) in A.
  destruct A as (m' & E & Hm' & _). exists m'. split; [exact E|exact Hm'].
Defined.

(** A pool of a little more than 2 GB; the block is said to grow to 3 GB. *)
Lemma memheap_grow_overruns_witness :
  exists m', rt_memheap_realloc 0 (Some 4152) (3 * 2 ^ 30) (Sys mh_lock (mh_demo_used (2 ^ 31 + 2000))) =
      Some (Done (Some 4152), Sys mh_lock m') /\
    tags m' !! (4152 + 3 * 2 ^ 30) = Some (freed_magic, 1000).
Proof.
  destruct mh_lock_ok as (sm & th & Hk).
  destruct (mh_demo_used_ok (2 ^ 31 + 2000) ltac:(lia)) as (Hm & Hl & Hst & Ha & Hp).
  set (m := mh_demo_used (2 ^ 31 + 2000)) in *. clearbody m.
  change (4 * ((2 ^ 31 + 2000) / 4)) with (2 ^ 31 + 2000) in *.
  destruct (memheap_grow_overruns mh_lock 0 _ 0 _ [] 156 _ _ _ _ (3 * 2 ^ 30) Hk Hl Hm) as (m' & E & T);
    [lia|lia|lia| | | |].
  - rewrite Hst, Hp. change (request_size (3 * 2 ^ 30)) with (3 * 2 ^ 30). simpl extent. lia.
  - rewrite Hst. change (request_size (3 * 2 ^ 30)) with (3 * 2 ^ 30). simpl extent. lia.
  - right. unfold free_header. rewrite Hst, Ha. change (request_size (3 * 2 ^ 30)) with (3 * 2 ^ 30). simpl extent. lia.
  - rewrite Hst, ?Ha in *. exists m'. split; [exact E|exact T].
Defined.
