(* ===== verification/MemheapCheck.v ===== *)
(** * Memory heaps: the check command

    [memheapcheck] accepts every heap that is in order, but some others too. *)
From S2P Require Import Prelude Kservice Kernel Object RtList Sys Mem MemSpec MemOps.
From S2P Require Import Memheap MemheapSpec MemheapOps MemheapAlloc MemheapInit MemheapCorrect.

Lemma row_in_order l n u r fl m i ni :
  mh_struct (l ++ (n, u) :: r) fl m ->
  let p := start_addr m + extent l in
  mh_items m !! p = Some i -> mh_items m !! (p + n) = Some ni -> item_in_order m p i ni = true.
Proof.
  intros Hm p Hi Hni. destruct (row_item _ _ _ _ _ _ Hm) as (i' & Hi' & Em & Ep & En & Epr). fold p in Hi', En.
  assert (i' = i) as -> by congruence. clear Hi'.
  destruct (row_place _ _ _ _ _ _ Hm) as (P0 & P1 & P2 & P3 & P4 & P5 & P6 & P7). fold p in P1, P2, P3.
  destruct (row_spacious _ _ _ _ _ _ Hm) as (Hl & [Hn Hn4] & Hr).
  destruct (mo_place _ _ _ Hm) as (_ & S4 & _).
  assert (mi_prev ni = p) as Eq.
  { destruct (row_links _ _ _ _ _ _ Hm) as [_ [_ Hp]]. apply block_prv in Hp as (j & Hj & E). fold p in Hj, E. congruence. }
  unfold item_in_order. rewrite Em, Ep, En, Eq, Epr, Z.eqb_refl, (proj2 (Z.eqb_neq (p + n) p)) by (hsize; lia).
  rewrite (proj2 (Z.leb_le (p + n) _)) by (rewrite u64_small by lia; hsize; lia).
  rewrite (proj2 (Z.leb_le (start_addr m) _)).
  - by destruct u.
  - destruct (proj1 (elem_of_cons _ _ _) (before_in (start_addr m + extent (l ++ (n, u) :: r)) (starts (start_addr m) l))) as [E|Hx].
    + unfold prev_start. rewrite E. hsize. lia.
    + unfold prev_start. apply starts_apart in Hx; [lia|done].
Qed.

Lemma memheapcheck_loop_spec fl m : forall r l b fuel,
  memheap_ok (l ++ b :: r) fl m -> (length r < pred fuel)%nat -> memheapcheck_loop fuel (start_addr m + extent l) m = Some (true, m).
Proof.
  induction r as [|b' r IH]; intros l [n u] fuel Hm Hf.
  all: destruct fuel as [|fuel]; [simpl in Hf; lia|].
  all: destruct (mo_heads _ _ _ Hm) as [_ Hb].
  all: destruct (row_item _ _ _ _ _ _ Hm) as (i & Hi & _ & _ & En & _).
  all: destruct (row_behind _ _ _ _ _ _ Hm) as (j & Hj & _); rewrite <- En in Hj.
  all: destruct (row_place _ _ _ _ _ _ Hm) as (P0 & P1 & _); destruct (row_spacious _ _ _ _ _ _ Hm) as (_ & [Hn _] & _).
  all: assert (memheapcheck_loop (S fuel) (start_addr m + extent l) m = memheapcheck_loop fuel (mi_next i) m) as ->;
    [cbn [memheapcheck_loop]; rewrite bind_gets, (bind_mi _ _ _ _ Hi), Hb, (proj2 (Z.eqb_neq _ _)) by (hsize; lia);
     rewrite (bind_mi _ _ _ _ Hj), bind_gets, (row_in_order _ _ _ _ _ _ _ _ Hm Hi) by (by rewrite <- En); done|].
  all: rewrite En; replace (start_addr m + extent l + n) with (start_addr m + extent (l ++ [(n, u)])) by (rewrite extent_app; simpl; lia).
  - destruct fuel as [|fuel]; [simpl in Hf; lia|]. cbn [memheapcheck_loop].
    destruct (mo_blocks _ _ _ Hm) as [_ Hc].
    assert (links (block_links m) (start_addr m + extent (l ++ [(n, u)])) (behind (start_addr m + extent (l ++ [(n, u)])) (starts (start_addr m) (l ++ [(n, u)])))) as [Ht _].
    { apply (circle_links _ _ []). apply Hm. }
    apply block_nxt in Ht as (t & Ht & E). rewrite bind_gets, (bind_mi _ _ _ _ Ht), Hb, E.
    replace (behind _ _) with (start_addr m) by (by destruct l as [|[]]). by rewrite Z.eqb_refl.
  - apply (IH (l ++ [(n, u)]) b' fuel); [by rewrite <- app_assoc|simpl in Hf; lia].
Qed.

(** [memheapcheck] finds nothing wrong with a heap that is in order. *)
Theorem memheapcheck_correct bs fl m : memheap_ok bs fl m -> bs <> [] -> memheapcheck m = Some (true, m).
Proof.
  intros Hm Hbs. unfold memheapcheck. rewrite !bind_gets. destruct (mo_heads _ _ _ Hm) as [_ Hb]. rewrite Hb.
  destruct bs as [|b r]; [done|]. pose proof (memheapcheck_loop_spec fl m r [] b (memheap_fuel m) Hm) as H.
  simpl extent in H. rewrite Z.add_0_r in H. apply H.
  pose proof (mo_extent _ _ _ Hm) as He. destruct (spacious_extent _ (mo_spacious _ _ _ Hm)) as [Hl _]. simpl length in Hl.
  unfold memheap_fuel. hsize. dlia.
Qed.

Lemma memheapcheck_correct_witness : memheapcheck (mh_demo_used 1024) = Some (true, mh_demo_used 1024).
Proof.
  destruct (mh_demo_used_ok 1024 ltac:(lia)) as (Hm & _). set (m := mh_demo_used 1024) in *. clearbody m.
  apply (memheapcheck_correct _ _ _ Hm). discriminate.
Defined.

(** The links back are not compared with the item, and a link outside the pool is
    only reported if it is aligned: both of these heaps pass. *)
Definition bad_prev : rt_memheap :=
  let m := mh_demo_used 1024 in
  match mh_items m !! 4252 with Some i => item_at 4252 (set_mi_prev 5000 i) m | None => m end.
Definition bad_place : rt_memheap :=
  let m := mh_demo_used 1024 in
  match mh_items m !! 4252 with Some i => item_at 4252 (set_mi_prev 3 i) m | None => m end.

Lemma memheapcheck_misses :
  (fst <$> memheapcheck bad_prev) = Some true /\ (fst <$> memheapcheck bad_place) = Some true /\
  (mi_prev <$> mh_items bad_prev !! 4252) = Some 5000 /\ (mi_prev <$> mh_items bad_place !! 4252) = Some 3.
Proof. vm_compute. split_and!; reflexivity. Qed.
