(* ===== verification/MemheapUse.v ===== *)
(** * Memory heaps: their users

    Any sequence of calls of [rt_memheap_alloc], [rt_memheap_free] and
    [rt_memheap_realloc] by users that keep to the blocks they were given. *)
From S2P Require Import Prelude Kservice Kernel Sched Object Timer Thread KernelInv Boot SchedSpec Ipc IpcSem Mempool.
From S2P Require Import ObjectSpec IpcInit RtList Sys Mem MemSpec MemOps MemRealloc.
From S2P Require Import Memheap MemheapSpec MemheapOps MemheapAlloc MemheapFree MemheapRealloc MemheapMove.
From S2P Require Import MemheapCalls MemheapInit MemheapCorrect.

(** ** The blocks in use, with their addresses *)

Fixpoint used_at (p : Z) (bs : list block) : list (Z * Z) :=
  match bs with
  | [] => []
  | b :: bs => (if b.2 : bool then [(p, b.1)] else []) ++ used_at (p + b.1) bs
  end.

Lemma used_at_app p l r : used_at p (l ++ r) = used_at p l ++ used_at (p + extent l) r.
Proof.
  revert p. induction l as [|b l IH]; intros p; simpl; [by rewrite Z.add_0_r|].
  rewrite IH, <- app_assoc. by rewrite Z.add_assoc.
Qed.

Lemma elem_of_used x n p bs :
  (x, n) ∈ used_at p bs <-> exists l r, bs = l ++ (n, true) :: r /\ x = p + extent l.
Proof.
  split.
  - revert p. induction bs as [|[k u] bs IH]; intros p; simpl; [by intros ?%elem_of_nil|].
    intros [H|(l & r & -> & ->)%IH]%elem_of_app.
    + destruct u; [|by apply elem_of_nil in H]. apply list_elem_of_singleton in H as [= -> ->]. exists [], bs. simpl. split; [done|lia].
    + exists ((k, u) :: l), r. simpl. split; [done|lia].
  - intros (l & r & -> & ->). rewrite used_at_app. simpl. apply elem_of_app. right. by left.
Qed.

(** A block in use lies before or behind any other block. *)
Lemma used_apart x k p l n u r :
  Forall spacious (l ++ (n, u) :: r) -> (x, k) ∈ used_at p (l ++ (n, u) :: r) ->
  x + k <= p + extent l \/ p + extent l + n <= x \/ (x = p + extent l /\ k = n /\ u = true).
Proof.
  intros Hs Hx. apply Forall_app in Hs as [Hl [_ Hr]%Forall_cons]. rewrite used_at_app in Hx.
  apply elem_of_app in Hx as [(l1 & l2 & -> & ->)%elem_of_used|Hx].
  - left. rewrite extent_app. simpl. apply Forall_app in Hl as [_ [_ Hl]%Forall_cons]. destruct (spacious_extent _ Hl). lia.
  - simpl in Hx. apply elem_of_app in Hx as [Hx|(r1 & r2 & -> & ->)%elem_of_used].
    + destruct u; [|by apply elem_of_nil in Hx]. apply list_elem_of_singleton in Hx as [= -> ->]. auto.
    + right; left. apply Forall_app in Hr as [Hr _]. destruct (spacious_extent _ Hr). lia.
Qed.

(** What allocation, release and reallocation make of the blocks in use. *)
Lemma used_block p l n u r :
  used_at p (l ++ (n, u) :: r) =
    used_at p l ++ (if u : bool then [(p + extent l, n)] else []) ++ used_at (p + extent l + n) r.
Proof. by rewrite used_at_app. Qed.

Lemma used_taken p l n s r : s <= n - 56 ->
  exists n2, s <= n2 - 56 /\
    used_at p (l ++ mh_taken n s ++ r) = used_at p l ++ (p + extent l, n2) :: used_at (p + extent l + n) r.
Proof.
  intros Hs. unfold mh_taken. destruct (_ <=? _); rewrite used_at_app; simpl; eexists; (split; [|do 3 f_equal]); lia.
Qed.

Lemma used_join p n r : let '(n2, r2) := join_next n r in used_at (p + n2) r2 = used_at (p + n) r.
Proof. destruct r as [|[k []] r]; [done|done|]. simpl. by rewrite Z.add_assoc. Qed.

Lemma used_freed p l n r : used_at p (freed l n r) = used_at p l ++ used_at (p + extent l + n) r.
Proof.
  unfold freed. pose proof (used_join (p + extent l) n r) as Hj. destruct (join_next n r) as [n2 r2]. rewrite <- Hj.
  unfold join_prev. destruct l as [|b l _] using rev_ind; [by simpl; rewrite Z.add_0_r|].
  rewrite last_snoc. destruct b as [k []]; [by rewrite used_block|].
  rewrite removelast_last, !used_block, extent_app. simpl. rewrite app_nil_r.
  do 2 f_equal. lia.
Qed.

Lemma used_grown p l n k s r :
  used_at p (l ++ (s + 56, true) :: (n + k - (s + 56), false) :: r) =
    used_at p l ++ (p + extent l, s + 56) :: used_at (p + extent l + n) ((k, false) :: r).
Proof. rewrite used_block. simpl. do 3 f_equal. lia. Qed.

Lemma used_shrunk p l n s r :
  let '(n2, r2) := join_next (n - (s + 56)) r in
  used_at p (l ++ (s + 56, true) :: (n2, false) :: r2) =
    used_at p l ++ (p + extent l, s + 56) :: used_at (p + extent l + n) r.
Proof.
  pose proof (used_join (p + extent l + (s + 56)) (n - (s + 56)) r) as Hj. destruct (join_next _ r) as [n2 r2].
  rewrite used_block. simpl. rewrite Hj. do 3 f_equal. lia.
Qed.

(** ** What the users hold *)

(** Every block held is one in use, and large enough; none is held twice. *)
Definition holds (held : list (Z * Z)) (used : list (Z * Z)) : Prop :=
  NoDup held.*1 /\ forall p size, (p, size) ∈ held -> exists n, (p - 56, n) ∈ used /\ 0 <= size <= n - 56.

(** Two blocks that are held do not overlap, and lie in the pool. *)
Definition separated (m : rt_memheap) (held : list (Z * Z)) : Prop :=
  (forall i j p s q t, held !! i = Some (p, s) -> held !! j = Some (q, t) -> i <> j -> p + s <= q \/ q + t <= p) /\
  (forall p s, (p, s) ∈ held -> start_addr m <= p /\ p + s <= start_addr m + pool_size m).

Lemma holds_separated held bs fl m :
  mh_struct bs fl m -> holds held (used_at (start_addr m) bs) -> separated m held.
Proof.
  intros Hm [Hnd Hh]. split.
  - intros i j p s q t Hi Hj Hij.
    destruct (Hh p s) as (n & Hn & Hs); [by eapply list_elem_of_lookup_2|].
    destruct (Hh q t) as (k & Hk & Ht); [by eapply list_elem_of_lookup_2|].
    apply elem_of_used in Hn as (l & r & -> & Ep).
    destruct (used_apart _ _ _ _ _ _ _ (mo_spacious _ _ _ Hm) Hk) as [?|[?|(E & _)]]; [lia|lia|].
    exfalso. apply Hij. eapply (NoDup_lookup held.*1); [done|by rewrite list_lookup_fmap, Hi|].
    rewrite list_lookup_fmap, Hj. simpl. f_equal. lia.
  - intros p s (n & (l & r & -> & Ep)%elem_of_used & Hs)%Hh. pose proof (mo_extent _ _ _ Hm) as He.
    pose proof (mo_spacious _ _ _ Hm) as Hsp. apply Forall_app in Hsp as [Hl [_ Hr]%Forall_cons].
    destruct (spacious_extent _ Hl), (spacious_extent _ Hr). rewrite extent_app in He. simpl in He. hsize. lia.
Qed.

(** [p] is the address of no block that is held: the block at [p - 56] is free. *)
Lemma holds_free held p0 l n r :
  Forall spacious (l ++ (n, false) :: r) -> holds held (used_at p0 (l ++ (n, false) :: r)) -> p0 + extent l + 56 ∉ held.*1.
Proof.
  intros Hsp [_ Hh] ([p s] & E & (k & Hk & _)%Hh)%list_elem_of_fmap. simpl in E. subst p.
  pose proof Hsp as [_ [[Hn _] _]%Forall_cons]%Forall_app. simpl in Hn. hsize.
  pose proof Hk as (l1 & r1 & E1 & E2)%elem_of_used.
  assert (68 <= k). { rewrite E1 in Hsp. apply Forall_app in Hsp as [_ [[Hk' _] _]%Forall_cons]. exact Hk'. }
  destruct (used_apart _ _ _ _ _ _ _ Hsp Hk) as [?|[?|(_ & _ & ?)]]; [lia|lia|done].
Qed.

Lemma holds_new held used used' p size n :
  holds held used -> (forall x, x ∈ used -> x ∈ used') -> p ∉ held.*1 -> (p - 56, n) ∈ used' -> 0 <= size <= n - 56 ->
  holds ((p, size) :: held) used'.
Proof.
  intros [Hnd Hh] Hsub Hp Hin Hs. split; [by constructor|].
  intros q t [[= -> ->]|Hq]%elem_of_cons; [by exists n|]. destruct (Hh q t Hq) as (k & Hk & Ht). eauto.
Qed.

Lemma holds_delete held used used' i p size :
  holds held used -> held !! i = Some (p, size) -> (forall x, x ∈ used -> x.1 <> p - 56 -> x ∈ used') ->
  holds (delete i held) used'.
Proof.
  intros [Hnd Hh] Hi Hsub. apply list_elem_of_split_length in Hi as (l1 & l2 & -> & ->).
  rewrite fmap_app, fmap_cons in Hnd. rewrite delete_middle. apply NoDup_app in Hnd as (N1 & N2 & [N3 N4]%NoDup_cons).
  assert (p ∉ (l1 ++ l2).*1) as Hp.
  { rewrite fmap_app. intros [Hx|Hx]%elem_of_app; [|done]. by apply (N2 p Hx); left. }
  split.
  - rewrite fmap_app. apply NoDup_app. split; [done|]. split; [|done]. intros x Hx Hx2. apply (N2 x Hx). by right.
  - intros q t Hq. destruct (Hh q t) as (k & Hk & Ht); [rewrite elem_of_app, elem_of_cons in *; tauto|].
    exists k. split; [|done]. apply Hsub; [done|]. simpl. intros E. apply Hp, list_elem_of_fmap.
    exists (q, t). split; [simpl; lia|done].
Qed.

(** ** Sequences of calls *)

Inductive mh_op := MhAlloc (size : Z) | MhFree (i : nat) | MhRealloc (i : nat) (size : Z).

(** The users ask for blocks, and give back or resize those they hold; [held] has
    their addresses and the sizes that were asked for. *)
Fixpoint mh_client (lock : nat) (ops : list mh_op) (held : list (Z * Z))
    : St (sys rt_memheap) (call (sys rt_memheap) (list (Z * Z))) :=
  match ops with
  | [] => mret (Done held)
  | MhAlloc size :: ops =>
      calls (rt_memheap_alloc lock size) (fun p =>
        mh_client lock ops (match p with Some p => (p, size) :: held | None => held end))
  | MhFree i :: ops =>
      match held !! i with
      | Some (p, _) => calls (rt_memheap_free lock (Some p)) (fun _ => mh_client lock ops (delete i held))
      | None => mh_client lock ops held
      end
  | MhRealloc i size :: ops =>
      match held !! i with
      | Some (p, _) =>
          calls (rt_memheap_realloc lock (Some p) size) (fun q =>
            mh_client lock ops
              match q with
              | Some q => (q, size) :: delete i held
              | None => if size =? 0 then delete i held else held
              end)
      | None => mh_client lock ops held
      end
  end.

Definition fits (op : mh_op) : Prop :=
  match op with MhAlloc size | MhRealloc _ size => 0 <= size <= 2 ^ 64 - 16 | MhFree _ => True end.

Section users.
Context (k : kstate) (lock : nat) (sm : rt_semaphore) (c : nat) (th : rt_thread).
Context (Hk : lock_free k lock sm c th).

(** A heap of less than 2 GB with the blocks that are held. *)
Definition in_use (held : list (Z * Z)) (m : rt_memheap) : Prop :=
  mh_locked m = false /\ pool_size m < 2 ^ 31 /\
  exists bs fl, memheap_ok bs fl m /\ holds held (used_at (start_addr m) bs).

Lemma in_use_core held bs fl m m' :
  mh_locked m = false -> pool_size m < 2 ^ 31 -> core m' = core m -> memheap_ok bs fl m' ->
  holds held (used_at (start_addr m) bs) -> in_use held m'.
Proof using Type.
  intros Hl Hp (_ & _ & Es & Ep & _ & _ & El)%core_inv Hm Hh. unfold in_use. rewrite El, Ep. split; [done|]. split; [done|].
  exists bs, fl. by rewrite Es.
Qed.

Lemma request_size_covers size : 0 <= size <= 2 ^ 64 - 16 -> 0 <= size <= request_size size.
Proof using Type. intros Hs. destruct (request_size_spec size) as (_ & _ & ? & _); lia. Qed.

Lemma use_alloc held m size :
  in_use held m -> 0 <= size <= 2 ^ 64 - 16 ->
  exists p m', rt_memheap_alloc lock size (Sys k m) = Some (Done p, Sys k m') /\
    core m' = core m /\ in_use (match p with Some p => (p, size) :: held | None => held end) m'.
Proof using Hk.
  intros (Hl & Hp & bs & fl & Hm & Hh) Hs. pose proof (alloc_call_spec k lock sm c th Hk size bs fl m Hl Hm ltac:(lia)) as A.
  cbv zeta in A. pose proof (request_size_covers size Hs) as Hc. destruct (mh_find _ _ _) as [[i q]|].
  - destruct A as (l & n & r & m' & -> & -> & Hn & E & Hm' & K). exists (Some (start_addr m + extent l + 56)), m'.
    split; [exact E|]. split; [apply K|]. apply (in_use_core _ _ _ m m' Hl Hp (ke_core _ _ _ _ K) Hm').
    destruct (used_taken (start_addr m) l n (request_size size) r Hn) as (n2 & Hn2 & Eu). rewrite Eu.
    eapply holds_new; [exact Hh| |by eapply holds_free; [apply Hm|exact Hh]| |].
    + intros x. rewrite used_block. simpl. rewrite !elem_of_app, elem_of_cons. tauto.
    + replace (start_addr m + extent l + 56 - 56) with (start_addr m + extent l) by lia.
      apply elem_of_app. right. left.
    + lia.
  - exists None, m. split; [done|]. split; [done|]. split; [done|]. split; [done|]. by exists bs, fl.
Qed.

(** The block that is held under index [i]. *)
Lemma held_block held m i p size bs :
  holds held (used_at (start_addr m) bs) -> held !! i = Some (p, size) ->
  exists l n r, bs = l ++ (n, true) :: r /\ p = start_addr m + extent l + 56 /\ 0 <= size <= n - 56.
Proof using Type.
  intros [_ Hh] Hi. destruct (Hh p size) as (n & (l & r & -> & E)%elem_of_used & Hs); [by eapply list_elem_of_lookup_2|].
  exists l, n, r. split; [done|]. split; [lia|done].
Qed.

Lemma holds_freed held p0 l n r i p size :
  holds held (used_at p0 (l ++ (n, true) :: r)) -> held !! i = Some (p, size) -> p = p0 + extent l + 56 ->
  holds (delete i held) (used_at p0 (freed l n r)).
Proof using Type.
  intros Hh Hi ->. eapply holds_delete; [exact Hh|exact Hi|]. intros x. rewrite used_freed, used_block.
  rewrite !elem_of_app. intros [?|[->%list_elem_of_singleton|?]]; [by left| |by right]. simpl. lia.
Qed.

Lemma use_free held m i p size :
  in_use held m -> held !! i = Some (p, size) ->
  exists m', rt_memheap_free lock (Some p) (Sys k m) = Some (Done tt, Sys k m') /\ core m' = core m /\ in_use (delete i held) m'.
Proof using Hk.
  intros (Hl & Hp & bs & fl & Hm & Hh) Hi. destruct (held_block _ _ _ _ _ _ Hh Hi) as (l & n & r & -> & -> & _).
  destruct (free_call_spec k lock sm c th Hk l n r fl m Hl Hm) as (m' & E & Hm' & C & _).
  exists m'. split; [exact E|]. split; [done|]. apply (in_use_core _ _ _ m m' Hl Hp C Hm'). by eapply holds_freed.
Qed.

Lemma holds_resized held p0 l n r i p size newsize n' used' :
  holds held (used_at p0 (l ++ (n, true) :: r)) -> held !! i = Some (p, size) -> p = p0 + extent l + 56 ->
  used' = used_at p0 l ++ (p0 + extent l, n') :: used_at (p0 + extent l + n) r -> 0 <= newsize <= n' - 56 ->
  holds ((p, newsize) :: delete i held) used'.
Proof using Type.
  intros Hh Hi -> -> Hs. destruct Hh as [Hnd Hh].
  eapply (holds_new (delete i held) (used_at p0 l ++ (p0 + extent l, n') :: used_at (p0 + extent l + n) r) _ _ _ n').
  - eapply (holds_delete held); [by split|exact Hi|]. intros x. rewrite used_block, !elem_of_app, elem_of_cons.
    intros [?|[[->|[]%elem_of_nil]|?]]; [by left| |by right; right]. simpl. lia.
  - done.
  - apply list_elem_of_split_length in Hi as (l1 & l2 & -> & ->). rewrite delete_middle, fmap_app.
    rewrite fmap_app, fmap_cons in Hnd. apply NoDup_app in Hnd as (_ & N2 & [N3 _]%NoDup_cons).
    intros [Hx|Hx]%elem_of_app; [|done]. apply (N2 _ Hx). by left.
  - replace (p0 + extent l + 56 - 56) with (p0 + extent l) by lia. apply elem_of_app. right. by left.
  - done.
Qed.

Lemma pool_behind_small l n r fl m : memheap_ok (l ++ (n, true) :: r) fl m -> pool_size m < 2 ^ 31 -> behind_small r.
Proof using Type.
  intros Hm Hp. unfold behind_small. destruct r as [|[k1 []] r]; [done|done|].
  destruct (row_place _ _ _ _ _ _ Hm) as (_ & _ & _ & P3 & P4 & _). destruct (row_spacious _ _ _ _ _ _ Hm) as (Hl & [Hn _] & Hr).
  apply Forall_cons in Hr as [_ Hr]. pose proof (mo_extent _ _ _ Hm) as He. rewrite extent_app in He. simpl in He, Hn.
  destruct (spacious_extent _ Hl), (spacious_extent _ Hr). hsize. lia.
Qed.

(** The block moves: it is released after the new one has been taken. *)
Lemma use_move held l n r fl m i size newsize :
  let p := start_addr m + extent l in
  let s := request_size newsize in
  mh_locked m = false -> pool_size m < 2 ^ 31 -> memheap_ok (l ++ (n, true) :: r) fl m ->
  holds held (used_at (start_addr m) (l ++ (n, true) :: r)) -> held !! i = Some (p + 56, size) ->
  0 < newsize <= 2 ^ 64 - 16 -> n - 56 < s ->
  exists q m', move_block lock (p + 56) (n - 56) s (Sys k m) = Some (Done q, Sys k m') /\ core m' = core m /\
    in_use (match q with Some q => (q, newsize) :: delete i held | None => held end) m'.
Proof using Hk.
  intros p s Hl Hp Hm Hh Hi Hs Hns.
  pose proof (move_block_spec k lock sm c th Hk l n r fl m newsize Hl Hm Hs Hns) as A. fold p s in A.
  pose proof (request_size_covers newsize ltac:(lia)) as Hc. fold s in Hc.
  destruct (mh_find m s fl) as [[j q]|].
  2: { exists None, m. split; [exact A|]. split; [done|].  split; [done|]. split; [done|]. by exists (l ++ (n, true) :: r), fl. }
  destruct A as (l1 & n1 & r1 & l' & r' & m' & Eb & -> & Hn1 & Et & El & E & Hm' & [C _] & _).
  destruct (used_taken (start_addr m) l1 n1 s r1 Hn1) as (n2 & Hn2 & Eu).
  eexists (Some _), m'. split; [exact E|]. split; [done|]. apply (in_use_core _ _ _ m m' Hl Hp C Hm').
  apply (holds_freed ((start_addr m + extent l1 + 56, newsize) :: held) (start_addr m) l' n r' (S i) (p + 56) size);
    [|exact Hi|by rewrite El].
  rewrite <- Et, Eu. pose proof (mo_spacious _ _ _ Hm) as Hsp. rewrite Eb in Hh, Hsp.
  eapply holds_new; [exact Hh| |by eapply holds_free| |].
  - intros x. rewrite used_block. simpl. rewrite !elem_of_app, elem_of_cons. tauto.
  - replace (start_addr m + extent l1 + 56 - 56) with (start_addr m + extent l1) by lia.
    apply elem_of_app. right. left.
  - lia.
Qed.

Lemma use_realloc held m i p size newsize :
  in_use held m -> held !! i = Some (p, size) -> 0 <= newsize <= 2 ^ 64 - 16 ->
  exists q m', rt_memheap_realloc lock (Some p) newsize (Sys k m) = Some (Done q, Sys k m') /\ core m' = core m /\
    in_use (match q with
            | Some q => (q, newsize) :: delete i held
            | None => if newsize =? 0 then delete i held else held
            end) m'.
Proof using Hk.
  intros U Hi Hs. destruct U as (Hl & Hp & bs & fl & Hm & Hh).
  destruct (held_block _ _ _ _ _ _ Hh Hi) as (l & n & r & -> & -> & Hsz).
  pose proof (pool_behind_small _ _ _ _ _ Hm Hp) as Hb.
  pose proof (request_size_covers newsize Hs) as Hc. set (s := request_size newsize) in *.
  destruct (Z.eqb_spec newsize 0) as [->|Hne].
  { destruct (realloc_zero k lock sm c th l n r fl m Hk Hl Hm) as (m' & E & Hm' & C & _). exists None, m'.
    split; [exact E|]. split; [done|]. apply (in_use_core _ _ _ m m' Hl Hp C Hm'). by eapply holds_freed. }
  assert (0 < newsize <= 2 ^ 64 - 16) as Hs' by lia. destruct (Z.ltb_spec (n - 56) s) as [Hns|Hns].
  - pose proof (grow_call_spec k lock sm c th Hk l n r fl m newsize Hl Hm Hs' Hns Hb) as A. fold s in A.
    destruct (grows n s r) as [[n1 r1]|] eqn:Eg.
    + destruct A as (m' & E & Hm' & [C _]). eexists (Some _), m'. split; [exact E|]. split; [done|].
      apply (in_use_core _ _ _ m m' Hl Hp C Hm'). unfold grows in Eg. destruct r as [|[k1 []] r]; [done|done|].
      destruct (_ <? _); [|done]. injection Eg as -> ->.
      eapply holds_resized; [exact Hh|exact Hi|done|apply used_grown|lia].
    + rewrite A. by apply (use_move held l n r fl m i size newsize).
  - pose proof (shrink_call_spec k lock sm c th Hk l n r fl m newsize Hl Hm Hs' Hns) as A. fold s in A.
    pose proof (used_shrunk (start_addr m) l n s r) as Eu.
    destruct (_ <=? s + 68); [|destruct (join_next (n - (s + 56)) r) as [n2 r2]; destruct A as (m' & E & Hm' & [C _])].
    + eexists (Some _), m. split; [exact A|]. split; [done|]. apply (in_use_core _ _ _ m m Hl Hp eq_refl Hm).
      eapply holds_resized; [exact Hh|exact Hi|done|exact (used_block (start_addr m) l n true r)|lia].
    + eexists (Some _), m'. split; [exact E|]. split; [done|]. apply (in_use_core _ _ _ m m' Hl Hp C Hm').
      eapply holds_resized; [exact Hh|exact Hi|done|exact Eu|lia].
Qed.
End users.

(** C20: users who free and resize only what they hold never get into each other's
    way. Whatever they ask a heap of less than 2 GB for, give back and resize, in
    any order, as long as every size is at most 2^64 - 16 (rounding up a larger one wraps around), no call fails an assertion or waits; the heap stays in order, and at
    the end the blocks that are held lie in the pool and do not overlap. *)
Theorem memheap_users_safe k lock sm c th ops held m bs fl :
  lock_free k lock sm c th -> mh_locked m = false -> pool_size m < 2 ^ 31 ->
  memheap_ok bs fl m -> holds held (used_at (start_addr m) bs) -> Forall fits ops ->
  exists held' m' bs' fl', mh_client lock ops held (Sys k m) = Some (Done held', Sys k m') /\
    core m' = core m /\ memheap_ok bs' fl' m' /\ separated m' held'.
Proof.
  intros Hk Hl Hp Hm Hh Hops. assert (in_use held m) as U by (split; [done|]; split; [done|]; by exists bs, fl).
  clear bs fl Hm Hh Hl Hp. revert held m U. induction Hops as [|op ops Hop _ IH]; intros held m U.
  { destruct U as (_ & _ & bs & fl & Hm & Hh). exists held, m, bs, fl. split; [done|]. split; [done|]. split; [done|].
    eapply holds_separated; [apply Hm|exact Hh]. }
  assert (forall m1 held1, core m1 = core m -> in_use held1 m1 ->
    mh_client lock (op :: ops) held (Sys k m) = mh_client lock ops held1 (Sys k m1) ->
    exists held' m' bs' fl', mh_client lock (op :: ops) held (Sys k m) = Some (Done held', Sys k m') /\
      core m' = core m /\ memheap_ok bs' fl' m' /\ separated m' held') as Hstep.
  { intros m1 held1 C U1 ->. rewrite <- C. by apply IH. }
  destruct op as [size|i|i size]; simpl in Hop.
  - destruct (use_alloc k lock sm c th Hk held m size U Hop) as (p & m1 & E & C & U1).
    apply (Hstep m1 _ C U1). simpl. by rewrite (calls_done _ _ _ _ _ E).
  - destruct (held !! i) as [[p size]|] eqn:Hi; [|by apply (Hstep m held eq_refl U); simpl; rewrite Hi].
    destruct (use_free k lock sm c th Hk held m i p size U Hi) as (m1 & E & C & U1).
    apply (Hstep m1 _ C U1). simpl. rewrite Hi. by rewrite (calls_done _ _ _ _ _ E).
  - destruct (held !! i) as [[p old]|] eqn:Hi; [|by apply (Hstep m held eq_refl U); simpl; rewrite Hi].
    destruct (use_realloc k lock sm c th Hk held m i p old size U Hi Hop) as (q & m1 & E & C & U1).
    apply (Hstep m1 _ C U1). simpl. rewrite Hi. by rewrite (calls_done _ _ _ _ _ E).
Qed.

(** Two blocks are taken, the first is enlarged, the second given back. *)
Lemma memheap_users_safe_witness :
  exists held' m' bs' fl',
    mh_client 0 [MhAlloc 10; MhAlloc 50; MhRealloc 1 200; MhFree 1] [] (Sys mh_lock (mh_demo 1024)) =
      Some (Done held', Sys mh_lock m') /\ memheap_ok bs' fl' m' /\ separated m' held'.
Proof.
  destruct mh_lock_ok as (sm & th & Hk). destruct (mh_demo_ok 1024 ltac:(lia)) as (Hm & Hl & _ & _ & Hp).
  set (m := mh_demo 1024) in *. clearbody m.
  destruct (memheap_users_safe mh_lock 0 sm 0 th [MhAlloc 10; MhAlloc 50; MhRealloc 1 200; MhFree 1] [] m [(968, false)] [4096] Hk Hl)
    as (held' & m' & bs' & fl' & E & _ & Hm' & Hs); [rewrite Hp; reflexivity|exact Hm| |repeat constructor; discriminate|].
  - split; [constructor|]. intros p size Hx. inversion Hx.
  - exists held', m', bs', fl'. split; [exact E|]. split; [exact Hm'|exact Hs].
Defined.
