(* ===== verification/SList.v ===== *)
(** * Singly linked lists in memory

    The singly linked lists of [include/rtservice.h] on a store of [next]
    pointers, and the lists they stand for. A loop runs on fuel, one round per
    node, and is undefined when it runs out. *)
From S2P Require Import Prelude.

Section store.
Context {N : Type} `{!EqDecision N, !Countable N}.
Implicit Types (h n x y : N) (l : list N).

(** The [next] field of each node; [None] inside is a null pointer. *)
Local Abbreviation store := (gmap N (option N)).
Implicit Types s : store.

(** [p->next = v]; undefined if there is no node at [p]. *)
Definition set_snext (p : N) (v : option N) s : option store :=
  _ ← s !! p; Some (<[p := v]> s).

Definition rt_slist_init (l : N) s : store := <[l := None]> s.

Definition rt_slist_insert (l n : N) s : option store :=
  ln ← s !! l; s ← set_snext n ln s; set_snext l (Some n) s.

Definition rt_slist_next (n : N) s : option (option N) := s !! n.
Definition rt_slist_first (l : N) s : option (option N) := s !! l.
Definition rt_slist_isempty (l : N) s : option bool :=
  ln ← s !! l; Some (match ln with None => true | Some _ => false end).

Fixpoint rt_slist_tail (fuel : nat) (l : N) s : option N :=
  match fuel with
  | O => None
  | S fuel => ln ← s !! l; match ln with Some x => rt_slist_tail fuel x s | None => Some l end
  end.

Definition rt_slist_append (fuel : nat) (l n : N) s : option store :=
  node ← rt_slist_tail fuel l s; s ← set_snext node (Some n) s; set_snext n None s.

Fixpoint slist_len_loop (fuel : nat) (node : option N) (len : Z) s : option Z :=
  match fuel with
  | O => None
  | S fuel =>
      match node with
      | None => Some len
      | Some x => nx ← s !! x; slist_len_loop fuel nx (u32 (len + 1)) s
      end
  end.
Definition rt_slist_len (fuel : nat) (l : N) s : option Z := ln ← s !! l; slist_len_loop fuel ln 0 s.

(** The walk to the node before [n], or to the last one. *)
Fixpoint slist_walk (fuel : nat) (n node : N) s : option N :=
  match fuel with
  | O => None
  | S fuel =>
      nx ← s !! node;
      match nx with
      | Some x => if decide (x = n) then Some node else slist_walk fuel n x s
      | None => Some node
      end
  end.
Definition rt_slist_remove (fuel : nat) (l n : N) s : option store :=
  node ← slist_walk fuel n l s;
  nx ← s !! node;
  match nx with
  | Some x => nn ← s !! x; set_snext node nn s
  | None => Some s
  end.

(** ** The list behind a head *)

(** From [h] one comes over the nodes of [l] to a null pointer. *)
Fixpoint slist s h l : Prop :=
  match l with [] => s !! h = Some None | x :: l => s !! h = Some (Some x) /\ slist s x l end.

(** The last node of the list, or its head. *)
Definition slast h l : N := List.last l h.
Arguments slast : simpl never.

Lemma slast_cons h x l : slast h (x :: l) = slast x l.
Proof.
  revert x. induction l as [|y l IH]; intros x; [done|]. unfold slast in *. simpl in *. by destruct l.
Qed.

Lemma slast_snoc h l x : slast h (l ++ [x]) = x.
Proof. unfold slast. by rewrite List.last_last. Qed.

Lemma slast_app h l1 x l2 : slast h (l1 ++ x :: l2) = slast x l2.
Proof. revert h. induction l1 as [|y l1 IH]; intros h; cbn [app]; rewrite slast_cons; [done|apply IH]. Qed.

Lemma slast_in h l : slast h l ∈ h :: l.
Proof.
  revert h. induction l as [|x l IH]; intros h; [by left|]. rewrite slast_cons. right. apply IH.
Qed.

Lemma slist_some s h l x : slist s h l -> x ∈ h :: l -> is_Some (s !! x).
Proof.
  revert h. induction l as [|y l IH]; intros h; simpl.
  - intros E ->%list_elem_of_singleton. by rewrite E.
  - intros [E Hl] [->|Hx]%elem_of_cons; [by rewrite E|]. by apply (IH y).
Qed.

Lemma slist_ext s s' h l : slist s h l -> (forall x, x ∈ h :: l -> s' !! x = s !! x) -> slist s' h l.
Proof.
  revert h. induction l as [|y l IH]; intros h; simpl.
  - intros E He. by rewrite He by by left.
  - intros [E Hl] He. split; [by rewrite He by by left|]. apply IH; [done|]. intros x Hx. apply He. by right.
Qed.

(** From [h] one comes over the nodes of [l]. *)
Fixpoint sseg s h l : Prop :=
  match l with [] => True | x :: l => s !! h = Some (Some x) /\ sseg s x l end.

Lemma slist_app s h l1 l2 : slist s h (l1 ++ l2) <-> sseg s h l1 /\ slist s (slast h l1) l2.
Proof.
  revert h. induction l1 as [|x l1 IH]; intros h; cbn [app slist sseg]; [tauto|].
  rewrite slast_cons, IH. tauto.
Qed.

Lemma sseg_ext s s' h l : sseg s h l -> (forall x, x ∈ h :: l -> x <> slast h l -> s' !! x = s !! x) ->
  NoDup (h :: l) -> sseg s' h l.
Proof.
  revert h. induction l as [|y l IH]; intros h; [done|]. cbn [sseg]. rewrite slast_cons.
  intros [E Hl] He [Hh Hnd]%NoDup_cons. split.
  - rewrite He; [done|by left|]. intros ->. apply Hh, slast_in.
  - apply IH; [done| |done]. intros x Hx. apply He. by right.
Qed.

Lemma set_snext_eq p v s : is_Some (s !! p) -> set_snext p v s = Some (<[p := v]> s).
Proof. intros [w Hw]. unfold set_snext. by rewrite Hw. Qed.

(** ** The operations on the list *)

Lemma slist_insert_spec s h l n :
  slist s h l -> is_Some (s !! n) -> n ∉ h :: l -> NoDup (h :: l) ->
  exists s', rt_slist_insert h n s = Some s' /\ slist s' h (n :: l) /\
    (forall x, x <> h -> x <> n -> s' !! x = s !! x) /\ (forall x, is_Some (s' !! x) <-> is_Some (s !! x)).
Proof.
  intros Hl Hn Hni [Hh Hnd]%NoDup_cons. apply not_elem_of_cons in Hni as [Hne Hni].
  assert (s !! h = Some (head l)) as Eh by (destruct l; [done|apply Hl]).
  eexists. unfold rt_slist_insert. rewrite Eh. simpl. rewrite set_snext_eq by done. simpl.
  rewrite set_snext_eq by (rewrite lookup_insert_ne by done; by rewrite Eh). split; [done|].
  split; [|split].
  - cbn [slist]. split; [apply lookup_insert_eq|].
    assert (slist (<[h:=Some n]> (<[n:=head l]> s)) n l); [|done].
    destruct l as [|x l]; simpl; rewrite lookup_insert_ne, lookup_insert_eq by done; [done|]. split; [done|].
    eapply slist_ext; [apply Hl|]. intros y Hy. rewrite !lookup_insert_ne; [done| |]; intros ->; [by apply Hni|by apply Hh].
  - intros x H1 H2. by rewrite !lookup_insert_ne by done.
  - intros x. rewrite !lookup_insert. repeat case_decide; subst; rewrite ?Eh; split; eauto.
Qed.

Lemma slist_isempty_spec s h l : slist s h l -> rt_slist_isempty h s = Some (bool_decide (l = [])).
Proof.
  intros Hl. unfold rt_slist_isempty. destruct l as [|x l]; [|destruct Hl as [Hl _]]; by rewrite Hl.
Qed.

Lemma slist_first_spec s h l : slist s h l -> rt_slist_first h s = Some (head l).
Proof. intros Hl. unfold rt_slist_first. by destruct l; [|destruct Hl]. Qed.

Lemma slist_walk_spec s h l1 n l2 fuel :
  slist s h (l1 ++ n :: l2) -> n ∉ l1 -> (length l1 < fuel)%nat -> slist_walk fuel n h s = Some (slast h l1).
Proof.
  revert h fuel. induction l1 as [|x l1 IH]; intros h fuel Hl Hn Hf; (destruct fuel as [|fuel]; [simpl in Hf; lia|]);
    cbn [slist_walk app slist] in *; destruct Hl as [Hx Hl]; rewrite Hx; simpl.
  - by rewrite decide_True.
  - apply not_elem_of_cons in Hn as [Hne Hn]. rewrite decide_False by done. rewrite slast_cons.
    apply IH; [done|done|]. simpl in Hf. lia.
Qed.

Lemma slist_walk_absent s h l n fuel :
  slist s h l -> n ∉ l -> (length l < fuel)%nat ->
  slist_walk fuel n h s = Some (slast h l) /\ s !! slast h l = Some None.
Proof.
  revert h fuel. induction l as [|x l IH]; intros h fuel Hl Hn Hf; (destruct fuel as [|fuel]; [simpl in Hf; lia|]);
    cbn [slist_walk slist] in *.
  - by rewrite Hl.
  - destruct Hl as [Hx Hl]. rewrite Hx. simpl. apply not_elem_of_cons in Hn as [Hne Hn].
    rewrite decide_False by done. rewrite slast_cons. apply IH; [done|done|]. simpl in Hf. lia.
Qed.

(** What taking [n] out from behind [l1] writes. *)
Lemma slist_unlink s h l1 n l2 :
  slist s h (l1 ++ n :: l2) -> NoDup (h :: l1 ++ n :: l2) ->
  s !! slast h l1 = Some (Some n) /\ s !! n = Some (head l2) /\
  forall s', s' !! slast h l1 = Some (head l2) -> (forall x, x <> slast h l1 -> x <> n -> s' !! x = s !! x) ->
    slist s' h (l1 ++ l2).
Proof.
  intros Hl Hnd. apply slist_app in Hl as [H1 [Hx Hl]].
  assert (slist s n l2 -> s !! n = Some (head l2)) as Hn by (intros H; destruct l2; [done|apply H]).
  split; [done|]. split; [by apply Hn|]. intros s' E He. change (h :: l1 ++ n :: l2) with ((h :: l1) ++ n :: l2) in Hnd.
  apply NoDup_app in Hnd as (Hnd1 & Hdis & [Hn2 Hnd2]%NoDup_cons).
  apply slist_app. split.
  - eapply sseg_ext; [exact H1| |done]. intros x Hx1 Hx2. apply He; [done|]. intros ->.
    apply (Hdis n Hx1). by left.
  - destruct l2 as [|y l2]; [done|]. simpl in E |- *. split; [done|]. destruct Hl as [_ Hl].
    eapply slist_ext; [exact Hl|]. intros x Hx2. apply He; [|by intros ->].
    intros ->. apply (Hdis (slast h l1)); [apply slast_in|by right].
Qed.

Lemma slist_remove_spec s h l1 n l2 fuel :
  slist s h (l1 ++ n :: l2) -> NoDup (h :: l1 ++ n :: l2) -> (length l1 < fuel)%nat ->
  exists s', rt_slist_remove fuel h n s = Some s' /\ slist s' h (l1 ++ l2) /\
    (forall x, x <> slast h l1 -> s' !! x = s !! x) /\ (forall x, is_Some (s' !! x) <-> is_Some (s !! x)).
Proof.
  intros Hl Hnd Hf. destruct (slist_unlink s h l1 n l2 Hl Hnd) as (E1 & E2 & Hs).
  assert (n ∉ l1) as Hn.
  { intros Hn. apply NoDup_cons in Hnd as [_ Hnd]. apply NoDup_app in Hnd as (_ & H & _). apply (H n Hn). by left. }
  eexists. unfold rt_slist_remove. rewrite (slist_walk_spec s h l1 n l2 fuel) by done. simpl. rewrite E1. simpl.
  rewrite E2. simpl. rewrite set_snext_eq by (by rewrite E1). split; [done|]. split; [|split].
  - apply Hs; [apply lookup_insert_eq|]. intros x H1 H2. by rewrite lookup_insert_ne.
  - intros x H1. by rewrite lookup_insert_ne.
  - intros x. rewrite lookup_insert. case_decide; subst; rewrite ?E1; split; eauto.
Qed.

Lemma slist_tail_spec s h l fuel :
  slist s h l -> (length l < fuel)%nat -> rt_slist_tail fuel h s = Some (slast h l).
Proof.
  revert h fuel. induction l as [|x l IH]; intros h fuel Hl Hf; (destruct fuel as [|fuel]; [simpl in Hf; lia|]);
    cbn [rt_slist_tail slist] in *.
  - by rewrite Hl.
  - destruct Hl as [Hx Hl]. rewrite Hx. simpl. rewrite slast_cons. apply IH; [done|]. simpl in Hf. lia.
Qed.

(** Linking [n] behind the last node. *)
Lemma slist_append_at s h l n :
  slist s h l -> is_Some (s !! n) -> n ∉ h :: l -> NoDup (h :: l) ->
  let s' := <[n := None]> (<[slast h l := Some n]> s) in
  (s1 ← set_snext (slast h l) (Some n) s; set_snext n None s1) = Some s' /\ slist s' h (l ++ [n]) /\
  (forall x, x <> slast h l -> x <> n -> s' !! x = s !! x) /\ (forall x, is_Some (s' !! x) <-> is_Some (s !! x)).
Proof.
  intros Hl Hn Hni Hnd s'. pose proof (slast_in h l) as Hin.
  assert (slast h l <> n) as Hne by (intros E; apply Hni; by rewrite <- E).
  rewrite set_snext_eq by (by apply (slist_some s h l)). simpl.
  rewrite set_snext_eq by (by rewrite lookup_insert_ne). split; [done|]. split; [|split].
  - apply slist_app. split.
    + pose proof (app_nil_r l) as El. rewrite <- El in Hl. apply slist_app in Hl as [Hl _].
      eapply sseg_ext; [exact Hl| |done]. intros x H1 H2. unfold s'.
      rewrite !lookup_insert_ne by (done || by intros <-). done.
    + simpl. unfold s'. rewrite lookup_insert_ne, lookup_insert_eq by done. split; [done|apply lookup_insert_eq].
  - intros x H1 H2. unfold s'. by rewrite !lookup_insert_ne by done.
  - intros x. unfold s'. pose proof (slist_some s h l (slast h l) Hl Hin).
    rewrite !lookup_insert. repeat case_decide; subst; split; eauto.
Qed.

Lemma slist_append_spec s h l n fuel :
  slist s h l -> is_Some (s !! n) -> n ∉ h :: l -> NoDup (h :: l) -> (length l < fuel)%nat ->
  exists s', rt_slist_append fuel h n s = Some s' /\ slist s' h (l ++ [n]) /\
    (forall x, x <> slast h l -> x <> n -> s' !! x = s !! x).
Proof.
  intros Hl Hn Hni Hnd Hf. unfold rt_slist_append. rewrite (slist_tail_spec s h l fuel) by done.
  destruct (slist_append_at s h l n Hl Hn Hni Hnd) as (E & H1 & H2 & _). by eexists.
Qed.

Lemma slist_len_spec s h l fuel :
  slist s h l -> zlen l < 2 ^ 32 -> (length l < fuel)%nat -> rt_slist_len fuel h s = Some (zlen l).
Proof.
  intros Hl Hz Hf. assert (s !! h = Some (head l)) as E by (destruct l; [done|apply Hl]).
  unfold rt_slist_len. rewrite E. simpl.
  assert (forall n : Z, 0 <= n -> n + zlen l < 2 ^ 32 -> slist_len_loop fuel (head l) n s = Some (n + zlen l)) as H.
  2: { rewrite H by lia. by rewrite Z.add_0_l. }
  clear E Hz. revert h fuel Hl Hf. induction l as [|x l IH]; intros h fuel Hl Hf n Hn Hz;
    (destruct fuel as [|fuel]; [simpl in Hf; lia|]); simpl.
  - by rewrite Z.add_0_r.
  - destruct Hl as [_ Hl]. assert (s !! x = Some (head l)) as -> by (destruct l; [done|apply Hl]). simpl.
    assert (zlen (x :: l) = zlen l + 1) as Ez by (unfold zlen; simpl length; lia). pose proof (zlen_nonneg l).
    rewrite u32_small by lia. rewrite (IH x); [f_equal; lia|done|simpl in Hf; lia|lia|lia].
Qed.
End store.
