(* ===== verification/RingBlk.v ===== *)
(** * Block ring buffer

    [drivers/ipc/ringblk_buf.c]: blocks of a buffer are handed out in the
    order of their addresses, around the end of the buffer, filled, read and
    freed. A block is its index in [blk_set]; [rb_next] has the [next]
    pointers of the two lists and of all blocks. *)
From S2P Require Import Prelude SList.

Inductive rt_rbb_status := RT_RBB_BLK_UNUSED | RT_RBB_BLK_INITED | RT_RBB_BLK_PUT | RT_RBB_BLK_GET.
#[export] Instance rt_rbb_status_eq_dec : EqDecision rt_rbb_status.
Proof. solve_decision. Defined.

(** [struct rt_rbb_blk] without its list node; [blk_buf] is an address. *)
Record rt_rbb_blk := RbbBlk { blk_status : rt_rbb_status; blk_size : Z; blk_buf : Z }.

(** The list nodes: the two heads of [struct rt_rbb] and those of the blocks. *)
Inductive rbb_node := BlkList | FreeList | Blk (i : nat).
#[export] Instance rbb_node_eq_dec : EqDecision rbb_node.
Proof. solve_decision. Defined.
#[export] Instance rbb_node_countable : Countable rbb_node.
Proof.
  refine (inj_countable' (fun n => match n with BlkList => 0 | FreeList => 1 | Blk i => S (S i) end%nat)
    (fun n => match n with 0 => BlkList | 1 => FreeList | S (S i) => Blk i end%nat) _).
  by intros [].
Defined.

Record rt_rbb := Rbb {
  rb_buf : Z;
  rb_buf_size : Z;
  rb_blks : gmap nat rt_rbb_blk;
  rb_max_num : nat;
  rb_next : gmap rbb_node (option rbb_node);
  rb_tail : rbb_node
}.

Abbreviation R := (St rt_rbb).

Definition set_rb_next (next : gmap rbb_node (option rbb_node)) (r : rt_rbb) : rt_rbb :=
  Rbb (rb_buf r) (rb_buf_size r) (rb_blks r) (rb_max_num r) next (rb_tail r).
Definition set_rb_tail (tail : rbb_node) (r : rt_rbb) : rt_rbb :=
  Rbb (rb_buf r) (rb_buf_size r) (rb_blks r) (rb_max_num r) (rb_next r) tail.
Definition set_rb_blks (blks : gmap nat rt_rbb_blk) (r : rt_rbb) : rt_rbb :=
  Rbb (rb_buf r) (rb_buf_size r) blks (rb_max_num r) (rb_next r) (rb_tail r).

(** A read of the lists, and a change of them. *)
Definition on_lists {A} (f : gmap rbb_node (option rbb_node) -> option A) : R A := fun r =>
  match f (rb_next r) with Some a => Some (a, r) | None => None end.
Definition change_lists (f : gmap rbb_node (option rbb_node) -> option (gmap rbb_node (option rbb_node))) : R unit :=
  fun r => match f (rb_next r) with Some next => Some (tt, set_rb_next next r) | None => None end.

Definition get_blk (i : nat) : R rt_rbb_blk := fun r =>
  match rb_blks r !! i with Some b => Some (b, r) | None => None end.
Definition upd_blk (i : nat) (f : rt_rbb_blk -> rt_rbb_blk) : R unit :=
  b ← get_blk i;
  modify (fun r => set_rb_blks (<[i := f b]> (rb_blks r)) r).
Definition set_blk_status (s : rt_rbb_status) (b : rt_rbb_blk) : rt_rbb_blk :=
  RbbBlk s (blk_size b) (blk_buf b).

(** [rt_slist_entry]: the block of a node; undefined for a list head. *)
Definition entry (n : rbb_node) : R nat := fun r =>
  match n with Blk i => Some (i, r) | _ => None end.

(** One round of a walk per block, and the last test. *)
Definition rbb_fuel (r : rt_rbb) : nat := S (rb_max_num r).

(** ** ringblk_buf.c *)

(** The loop of [rt_rbb_init], from block [i] on. *)
Fixpoint rbb_init_loop (n i : nat) : R unit :=
  match n with
  | O => mret tt
  | S n =>
      upd_blk i (set_blk_status RT_RBB_BLK_UNUSED);;
      change_lists (fun s => Some (rt_slist_init (Blk i) s));;
      change_lists (rt_slist_insert FreeList (Blk i));;
      rbb_init_loop n (S i)
  end.

(** [blks] is what the memory of the block set holds before. *)
Definition rt_rbb_init (buf buf_size : Z) (blks : gmap nat rt_rbb_blk) (blk_max_num : nat) : option rt_rbb :=
  let r := Rbb buf buf_size blks blk_max_num ∅ BlkList in
  snd <$> (change_lists (fun s => Some (rt_slist_init BlkList s));;
           change_lists (fun s => Some (rt_slist_init FreeList s));;
           rbb_init_loop blk_max_num 0) r.

Definition find_empty_blk_in_set : R (option nat) :=
  empty ← on_lists (rt_slist_isempty FreeList);
  if empty : bool then mret None
  else
    first ← on_lists (rt_slist_first FreeList);
    match first with
    | Some n =>
        blk ← entry n;
        fuel ← gets rbb_fuel;
        change_lists (rt_slist_remove fuel FreeList n);;
        b ← get_blk blk;
        rt_assert (bool_decide (blk_status b = RT_RBB_BLK_UNUSED));;
        mret (Some blk)
    | None => fun _ => None
    end.

Definition list_append (n : rbb_node) : R unit :=
  tail ← gets rb_tail;
  change_lists (set_snext tail (Some n));;
  change_lists (set_snext n None);;
  modify (set_rb_tail n).

Definition list_remove (n : rbb_node) : R unit :=
  fuel ← gets rbb_fuel;
  node ← on_lists (slist_walk fuel n BlkList);
  nx ← on_lists (rt_slist_next node);
  match nx with
  | Some x =>
      nn ← on_lists (rt_slist_next x);
      change_lists (set_snext node nn);;
      change_lists (set_snext n None);;
      tail ← gets rb_tail;
      if decide (tail = n) then modify (set_rb_tail node) else mret tt
  | None => mret tt
  end.

(** The new block is put at the end of the list, at [buf]. *)
Definition place_blk (new_rbb : nat) (buf size : Z) : R (option nat) :=
  list_append (Blk new_rbb);;
  upd_blk new_rbb (fun _ => RbbBlk RT_RBB_BLK_INITED size buf);;
  mret (Some new_rbb).

(** The addresses are below 2^63; their differences are [rt_size_t]. *)
Definition rt_rbb_blk_alloc (size : Z) : R (option nat) :=
  rt_assert (size <? 2 ^ 24);;
  new_rbb ← find_empty_blk_in_set;
  match new_rbb with
  | None => mret None
  | Some new_rbb =>
      buf ← gets rb_buf;
      buf_size ← gets rb_buf_size;
      empty ← on_lists (rt_slist_isempty BlkList);
      if negb empty then
        first ← on_lists (rt_slist_first BlkList);
        match first with
        | None => fun _ => None
        | Some first =>
            head ← entry first; head ← get_blk head;
            tail ← gets rb_tail; tail ← entry tail; tail ← get_blk tail;
            if blk_buf head <=? blk_buf tail then
              let empty1 := u64 (buf + buf_size - (blk_buf tail + blk_size tail)) in
              let empty2 := u64 (blk_buf head - buf) in
              if size <=? empty1 then place_blk new_rbb (blk_buf tail + blk_size tail) size
              else if size <=? empty2 then place_blk new_rbb buf size
              else mret None
            else
              let empty1 := u64 (blk_buf head - (blk_buf tail + blk_size tail)) in
              if size <=? empty1 then place_blk new_rbb (blk_buf tail + blk_size tail) size
              else mret None
        end
      else place_blk new_rbb buf size
  end.

Definition rt_rbb_blk_put (block : nat) : R unit :=
  b ← get_blk block;
  rt_assert (bool_decide (blk_status b = RT_RBB_BLK_INITED));;
  upd_blk block (set_blk_status RT_RBB_BLK_PUT).

Fixpoint blk_get_loop (fuel : nat) (node : option rbb_node) : R (option nat) :=
  match fuel with
  | O => fun _ => None
  | S fuel =>
      match node with
      | None => mret None
      | Some n =>
          block ← entry n;
          b ← get_blk block;
          if decide (blk_status b = RT_RBB_BLK_PUT) then
            upd_blk block (set_blk_status RT_RBB_BLK_GET);;
            mret (Some block)
          else nx ← on_lists (rt_slist_next n); blk_get_loop fuel nx
      end
  end.
Definition rt_rbb_blk_get : R (option nat) :=
  empty ← on_lists (rt_slist_isempty BlkList);
  if empty : bool then mret None
  else
    first ← on_lists (rt_slist_first BlkList);
    fuel ← gets rbb_fuel;
    blk_get_loop fuel first.

Definition rt_rbb_blk_size (block : nat) : R Z := b ← get_blk block; mret (blk_size b).
Definition rt_rbb_blk_buf (block : nat) : R Z := b ← get_blk block; mret (blk_buf b).

Definition rt_rbb_blk_free (block : nat) : R unit :=
  b ← get_blk block;
  rt_assert (negb (bool_decide (blk_status b = RT_RBB_BLK_UNUSED)));;
  list_remove (Blk block);;
  upd_blk block (set_blk_status RT_RBB_BLK_UNUSED);;
  change_lists (rt_slist_insert FreeList (Blk block)).

(** [struct rt_rbb_blk_queue]: its first block and their number. *)
Definition rt_rbb_blk_queue : Type := (nat * Z)%type.

(** The loop of [rt_rbb_blk_queue_get]: [node] and [tmp] are the next two
    nodes; reading [tmp->next] of a null pointer [tmp] is undefined. *)
Fixpoint queue_get_loop (fuel : nat) (node tmp : option rbb_node) (last_block : option nat)
    (data_total_size queue_data_len : Z) (q : rt_rbb_blk_queue) : R (Z * rt_rbb_blk_queue) :=
  match fuel with
  | O => fun _ => None
  | S fuel =>
      match node with
      | None => mret (data_total_size, q)
      | Some n =>
          let next (last_block : option nat) total q :=
            match tmp with
            | None => fun _ => None
            | Some t => nx ← on_lists (rt_slist_next t); queue_get_loop fuel tmp nx last_block total queue_data_len q
            end in
          let take block (b : rt_rbb_blk) q :=
            upd_blk block (set_blk_status RT_RBB_BLK_GET);;
            next (Some block) (u64 (data_total_size + blk_size b)) (q.1, u64 (q.2 + 1)) in
          block ← entry n;
          b ← get_blk block;
          match last_block with
          | None =>
              if decide (blk_status b = RT_RBB_BLK_PUT) then take block b (block, 0)
              else next None data_total_size q
          | Some last =>
              lb ← get_blk last;
              if negb (bool_decide (blk_status b = RT_RBB_BLK_PUT)) || (blk_buf b <? blk_buf lb)
                 || (queue_data_len <? u64 (data_total_size + blk_size b))
              then mret (data_total_size, q)
              else take block b q
          end
      end
  end.
Definition rt_rbb_blk_queue_get (queue_data_len : Z) (q : rt_rbb_blk_queue) : R (Z * rt_rbb_blk_queue) :=
  empty ← on_lists (rt_slist_isempty BlkList);
  if empty : bool then mret (0, q)
  else
    node ← on_lists (rt_slist_first BlkList);
    tmp ← (match node with Some n => on_lists (rt_slist_next n) | None => mret None end);
    fuel ← gets rbb_fuel;
    queue_get_loop fuel node tmp None 0 queue_data_len q.

(** [n] more blocks from [blk] on; the block behind the last one is not touched. *)
Fixpoint queue_len_loop (n : nat) (blk : nat) (total : Z) : R Z :=
  match n with
  | O => mret total
  | S n =>
      b ← get_blk blk;
      let total := u64 (total + blk_size b) in
      nx ← on_lists (rt_slist_next (Blk blk));
      match n, nx with
      | O, _ => mret total
      | _, Some nx => nx ← entry nx; queue_len_loop n nx total
      | _, None => fun _ => None
      end
  end.
Definition rt_rbb_blk_queue_len (q : rt_rbb_blk_queue) : R Z := queue_len_loop (Z.to_nat q.2) q.1 0.
Definition rt_rbb_blk_queue_buf (q : rt_rbb_blk_queue) : R Z := b ← get_blk q.1; mret (blk_buf b).

Fixpoint queue_free_loop (n : nat) (blk : nat) : R unit :=
  match n with
  | O => mret tt
  | S n =>
      nx ← on_lists (rt_slist_next (Blk blk));
      rt_rbb_blk_free blk;;
      match n, nx with
      | O, _ => mret tt
      | _, Some nx => nx ← entry nx; queue_free_loop n nx
      | _, None => fun _ => None
      end
  end.
Definition rt_rbb_blk_queue_free (q : rt_rbb_blk_queue) : R unit := queue_free_loop (Z.to_nat q.2) q.1.

Fixpoint next_queue_len_loop (fuel : nat) (node : option rbb_node) (last_block : option nat) (data_len : Z) : R Z :=
  match fuel with
  | O => fun _ => None
  | S fuel =>
      match node with
      | None => mret data_len
      | Some n =>
          block ← entry n;
          b ← get_blk block;
          nx ← on_lists (rt_slist_next n);
          let take := next_queue_len_loop fuel nx (Some block) (u64 (data_len + blk_size b)) in
          match last_block with
          | None => if decide (blk_status b = RT_RBB_BLK_PUT) then take
                    else next_queue_len_loop fuel nx None data_len
          | Some last =>
              lb ← get_blk last;
              if negb (bool_decide (blk_status b = RT_RBB_BLK_PUT)) || (blk_buf b <? blk_buf lb)
              then mret data_len else take
          end
      end
  end.
Definition rt_rbb_next_blk_queue_len : R Z :=
  empty ← on_lists (rt_slist_isempty BlkList);
  if empty : bool then mret 0
  else
    node ← on_lists (rt_slist_first BlkList);
    fuel ← gets rbb_fuel;
    next_queue_len_loop fuel node None 0.

Definition rt_rbb_get_buf_size : R Z := gets rb_buf_size.
