(* ===== verification/RingBlkSpec.v ===== *)
(** * The blocks of the ring buffer are safe

    The lists of [rbb_next] ([lists]), the places of the blocks around the
    buffer ([around]), the invariant [rbb_ok], what the operations of RingBlk.v
    do to it, and the states that can be reached from [rt_rbb_init]. *)
From S2P Require Import Prelude SList RingBlk.

(** ** The two lists *)

(** The nodes of blocks. *)
Definition nodes (l : list nat) : list rbb_node := Blk <$> l.

Lemma elem_of_nodes i l : Blk i ∈ nodes l <-> i ∈ l.
Proof. unfold nodes. split; [intros (j & [= ->] & H)%list_elem_of_fmap|intros H; apply list_elem_of_fmap]; eauto. Qed.

Lemma nodes_not_head x l : x ∈ nodes l -> x <> BlkList /\ x <> FreeList.
Proof. intros (j & -> & _)%list_elem_of_fmap. done. Qed.

Lemma nodup_nodes h l : h = BlkList \/ h = FreeList -> NoDup l -> NoDup (h :: nodes l).
Proof.
  intros Hh Hl. apply NoDup_cons. split.
  - intros H. apply nodes_not_head in H. destruct Hh; tauto.
  - apply NoDup_fmap; [by intros ?? [=]|done].
Qed.

Definition lists (bl fl : list nat) (s : gmap rbb_node (option rbb_node)) : Prop :=
  slist s BlkList (nodes bl) /\ slist s FreeList (nodes fl) /\ NoDup (bl ++ fl).

Lemma lists_nodup bl fl s :
  lists bl fl s -> NoDup bl /\ NoDup fl /\ forall i, i ∈ bl -> i ∉ fl.
Proof. intros (_ & _ & (? & ? & ?)%NoDup_app). done. Qed.

(** The lists after something has changed on one of them. *)
Lemma lists_frame_free bl fl bl' s s' :
  lists bl fl s -> NoDup (bl' ++ fl) -> slist s' BlkList (nodes bl') ->
  (forall x, x ∈ FreeList :: nodes fl -> s' !! x = s !! x) -> lists bl' fl s'.
Proof. intros (_ & Hf & _) Hnd Hb He. split; [done|]. split; [by eapply slist_ext|done]. Qed.

Lemma lists_frame_blk bl fl fl' s s' :
  lists bl fl s -> NoDup (bl ++ fl') -> slist s' FreeList (nodes fl') ->
  (forall x, x ∈ BlkList :: nodes bl -> s' !! x = s !! x) -> lists bl fl' s'.
Proof. intros (Hb & _ & _) Hnd Hf He. split; [by eapply slist_ext|]. done. Qed.

(** The first free block is taken off its list. *)
Lemma take_free_spec bl i fl s fuel :
  lists bl (i :: fl) s ->
  exists s', rt_slist_remove (S fuel) FreeList (Blk i) s = Some s' /\ lists bl fl s' /\ is_Some (s' !! Blk i).
Proof.
  intros Hl. pose proof Hl as (Hb & Hf & Hnd). destruct (lists_nodup _ _ _ Hl) as (Hbn & Hfn & Hd).
  destruct (slist_remove_spec s FreeList [] (Blk i) (nodes fl) (S fuel) Hf) as (s' & E & Hf' & He & Hs);
    [by apply (nodup_nodes FreeList (i :: fl)); [right|]|simpl; lia|].
  change (slast FreeList []) with FreeList in He. exists s'. split; [done|]. split.
  - apply (lists_frame_blk bl (i :: fl) fl s); [done| |done|].
    + rewrite <- (Permutation_middle bl fl i) in Hnd.
      by apply NoDup_cons in Hnd as [_ ?].
    + intros x Hx. apply He. intros ->. apply elem_of_cons in Hx as [?|Hx]; [done|].
      by apply nodes_not_head in Hx as [_ ?].
  - apply Hs, (slist_some s FreeList (nodes (i :: fl))); [done|]. right. by left.
Qed.

(** A block that is on no list is put at the end of the list of blocks. *)
Lemma append_blk_spec bl fl i s :
  lists bl fl s -> i ∉ bl -> i ∉ fl -> is_Some (s !! Blk i) ->
  exists s', (s1 ← set_snext (slast BlkList (nodes bl)) (Some (Blk i)) s; set_snext (Blk i) None s1) = Some s' /\
    lists (bl ++ [i]) fl s' /\ slast BlkList (nodes (bl ++ [i])) = Blk i.
Proof.
  intros Hl Hib Hif Hs. pose proof Hl as (Hb & Hf & Hnd). destruct (lists_nodup _ _ _ Hl) as (Hbn & Hfn & Hd).
  assert (Blk i ∉ BlkList :: nodes bl) as Hn.
  { intros [?|H]%elem_of_cons; [done|]. by apply elem_of_nodes in H. }
  destruct (slist_append_at s BlkList (nodes bl) (Blk i) Hb Hs Hn) as (E & H1 & H2 & _); [apply nodup_nodes; auto|].
  eexists. split; [exact E|]. assert (nodes (bl ++ [i]) = nodes bl ++ [Blk i]) as En by (by unfold nodes; rewrite fmap_app).
  split; [|by rewrite En, slast_snoc]. apply (lists_frame_free bl fl _ s); [done| |by rewrite En|].
  - rewrite <- app_assoc. simpl. rewrite <- (Permutation_middle bl fl i).
    apply NoDup_cons. split; [|done]. rewrite elem_of_app. tauto.
  - intros x Hx. apply H2.
    + intros ->. pose proof (slast_in BlkList (nodes bl)) as Hin. apply elem_of_cons in Hx as [Hx|Hx].
      * rewrite Hx in Hin. apply elem_of_cons in Hin as [?|Hin]; [done|]. by apply nodes_not_head in Hin as [_ ?].
      * apply elem_of_cons in Hin as [Hin|Hin]; [rewrite Hin in Hx; by apply nodes_not_head in Hx as [? _]|].
        pose proof Hx as (j & Ej & _)%list_elem_of_fmap. rewrite Ej in *. apply elem_of_nodes in Hx, Hin. by apply (Hd j).
    + intros ->. apply elem_of_cons in Hx as [?|Hx]; [done|]. by apply elem_of_nodes in Hx.
Qed.

(** A block is taken out of the list of blocks. *)
Lemma unlink_blk_spec l1 i l2 fl s :
  lists (l1 ++ i :: l2) fl s ->
  let node := slast BlkList (nodes l1) in
  s !! node = Some (Some (Blk i)) /\ s !! Blk i = Some (head (nodes l2)) /\
  exists s', (s1 ← set_snext node (head (nodes l2)) s; set_snext (Blk i) None s1) = Some s' /\
    lists (l1 ++ l2) fl s' /\ is_Some (s' !! Blk i).
Proof.
  intros Hl node. pose proof Hl as (Hb & Hf & Hnd). destruct (lists_nodup _ _ _ Hl) as (Hbn & Hfn & Hd).
  unfold nodes in Hb. rewrite fmap_app, fmap_cons in Hb. fold (nodes l1) (nodes l2) in Hb.
  assert (NoDup (BlkList :: nodes l1 ++ Blk i :: nodes l2)) as Hnn.
  { assert (nodes (l1 ++ i :: l2) = nodes l1 ++ Blk i :: nodes l2) as <- by (unfold nodes; by rewrite fmap_app).
    apply nodup_nodes; auto. }
  destruct (slist_unlink s BlkList (nodes l1) (Blk i) (nodes l2) Hb Hnn) as (E1 & E2 & Hs). fold node in E1, Hs.
  split; [done|]. split; [done|].
  assert (node <> Blk i) as Hne.
  { intros E. apply NoDup_cons in Hnn as [Hn1 Hn2]. apply NoDup_app in Hn2 as (_ & Hn3 & _).
    pose proof (slast_in BlkList (nodes l1)) as Hin. fold node in Hin. rewrite E in Hin.
    apply elem_of_cons in Hin as [?|Hin]; [done|]. apply (Hn3 _ Hin). by left. }
  eexists. rewrite set_snext_eq by (by rewrite E1). simpl. rewrite set_snext_eq by (by rewrite lookup_insert_ne, E2).
  split; [done|]. split; [|by rewrite lookup_insert_eq]. apply (lists_frame_free (l1 ++ i :: l2) fl _ s); [done| | |].
  - rewrite <- app_assoc in *. simpl in Hnd. rewrite <- Permutation_middle in Hnd. by apply NoDup_cons in Hnd as [_ ?].
  - unfold nodes. rewrite fmap_app. apply Hs; [by rewrite lookup_insert_ne, lookup_insert_eq|].
    intros x H1 H2. by rewrite !lookup_insert_ne by done.
  - intros x Hx. rewrite !lookup_insert_ne; [done| |]; intros <-.
    + pose proof (slast_in BlkList (nodes l1)) as Hin. fold node in Hin.
      apply elem_of_cons in Hx as [Hx|Hx]; apply elem_of_cons in Hin as [Hin|Hin]; try congruence;
        try (rewrite ?Hx, ?Hin in *; by (apply nodes_not_head in Hin as [??] || apply nodes_not_head in Hx as [??])).
      pose proof Hx as (j & Ej & _)%list_elem_of_fmap. rewrite Ej in *. apply elem_of_nodes in Hx, Hin.
      apply (Hd j); [|done]. apply elem_of_app. by left.
    + apply elem_of_cons in Hx as [?|Hx]; [done|]. apply elem_of_nodes in Hx. apply (Hd i); [|done]. set_solver.
Qed.

Lemma slast_removed l1 i l2 :
  NoDup (l1 ++ i :: l2) ->
  slast BlkList (nodes (l1 ++ l2)) =
    if decide (slast BlkList (nodes (l1 ++ i :: l2)) = Blk i) then slast BlkList (nodes l1)
    else slast BlkList (nodes (l1 ++ i :: l2)).
Proof.
  intros Hnd. unfold nodes. rewrite !fmap_app, fmap_cons, slast_app. destruct l2 as [|j l2].
  - rewrite fmap_nil, app_nil_r. by rewrite decide_True.
  - rewrite fmap_cons, slast_cons, slast_app. rewrite decide_False; [done|]. intros E.
    pose proof (slast_in (Blk j) (Blk <$> l2)) as Hin. rewrite E in Hin. change (Blk j :: (Blk <$> l2)) with (nodes (j :: l2)) in Hin.
    apply elem_of_nodes in Hin. apply NoDup_app in Hnd as (_ & _ & [Hi _]%NoDup_cons). done.
Qed.

(** ** The places of the blocks *)

(** The intervals [xs], given by start and length, lie one behind the other
    from [a] to [z]. *)
Fixpoint run (a : Z) (xs : list (Z * Z)) (z : Z) : Prop :=
  match xs with [] => a <= z | x :: xs => a <= x.1 /\ 0 < x.2 /\ run (x.1 + x.2) xs z end.

(** They go around the end of the buffer from [b] to [e] at most once. *)
Definition around (b e : Z) (xs : list (Z * Z)) : Prop :=
  exists hi lo m, xs = hi ++ lo /\ (hi = [] -> lo = []) /\ b <= m /\ run m hi e /\ run b lo m.

Lemma run_le a xs z : run a xs z -> a <= z.
Proof. revert a. induction xs as [|x xs IH]; intros a; simpl; [done|]. intros (? & ? & H). apply IH in H. lia. Qed.

Lemma run_weaken a a' xs z z' : run a xs z -> a' <= a -> z <= z' -> run a' xs z'.
Proof.
  revert a a'. induction xs as [|x xs IH]; intros a a'; simpl; [lia|]. intros (? & ? & H) ? ?.
  split; [lia|]. split; [done|]. apply (IH _ _ H); lia.
Qed.

Lemma run_app a xs ys z : run a (xs ++ ys) z <-> exists m, run a xs m /\ run m ys z.
Proof.
  revert a. induction xs as [|x xs IH]; intros a; simpl.
  - split; [intros H; exists a; split; [lia|done]|]. intros (m & ? & H). apply (run_weaken m _ _ z); [done|lia|lia].
  - rewrite IH. split; [intros (? & ? & m & ? & ?)|intros (m & (? & ? & ?) & ?)]; eauto 10.
Qed.

Lemma run_remove a l1 x l2 z : run a (l1 ++ x :: l2) z -> run a (l1 ++ l2) z.
Proof.
  intros (m & H1 & H2 & H3 & H4)%run_app. apply run_app. exists m. split; [done|].
  apply (run_weaken (x.1 + x.2) _ _ z); [done|lia|lia].
Qed.

Lemma run_place a l1 x l2 z : run a (l1 ++ x :: l2) z -> a <= x.1 /\ x.1 + x.2 <= z.
Proof. intros (m & H1 & H2 & H3 & H4)%run_app. apply run_le in H1, H4. lia. Qed.

Lemma run_pos a l1 x l2 z : run a (l1 ++ x :: l2) z -> 0 < x.2.
Proof. by intros (m & _ & _ & ? & _)%run_app. Qed.

Lemma run_disjoint a l1 x l2 y l3 z : run a (l1 ++ x :: l2 ++ y :: l3) z -> x.1 + x.2 <= y.1.
Proof.
  intros (m & _ & _ & _ & H)%run_app. by apply run_place in H as [? _].
Qed.

(** An interval behind the last one. *)
Lemma run_push a xs t n z z' :
  run a (xs ++ [t]) z -> 0 < n -> t.1 + t.2 + n <= z' -> run a ((xs ++ [t]) ++ [(t.1 + t.2, n)]) z'.
Proof.
  intros (m & H1 & H2 & H3 & H4)%run_app ? ?. rewrite <- app_assoc. apply run_app. exists m. simpl. split; [done|].
  split_and!; try lia.
Qed.

Lemma around_remove b e l1 x l2 : around b e (l1 ++ x :: l2) -> around b e (l1 ++ l2).
Proof.
  intros (hi & lo & m & E & Hne & Hm & Hhi & Hlo). pose proof (run_le _ _ _ Hhi) as Hme.
  destruct (decide (hi = [])) as [->|Hh].
  { rewrite Hne in E by done. by destruct l1. }
  apply app_eq_inv in E as [(k & -> & E)|(k & -> & E)].
  - exists hi, (k ++ l2), m. rewrite app_assoc. split_and!; try done. apply (run_remove b k x l2). by rewrite <- E.
  - destruct k as [|c k]; simpl in E.
    + rewrite app_nil_r in *. subst lo. exists l1, l2, m. split_and!; try done. by apply (run_remove b [] x l2).
    + injection E as <- ->. apply run_remove in Hhi. destruct (decide (l1 ++ k = [])) as [E|Hne'].
      * apply app_eq_nil in E as [-> ->]. exists lo, [], b. rewrite app_nil_r. split_and!; try done; [|simpl; lia].
        apply (run_weaken b _ _ m); [done|lia|lia].
      * exists (l1 ++ k), lo, m. rewrite <- app_assoc. split_and!; done.
Qed.

Lemma around_disjoint b e l1 x l2 y l3 :
  around b e (l1 ++ x :: l2 ++ y :: l3) -> x.1 + x.2 <= y.1 \/ y.1 + y.2 <= x.1.
Proof.
  intros (hi & lo & m & E & Hne & Hm & Hhi & Hlo).
  apply app_eq_inv in E as [(k & -> & ->)|(k & -> & E)].
  { left. by eapply run_disjoint. }
  destruct k as [|c k]; simpl in E.
  { rewrite <- E in Hlo. left. apply (run_disjoint b [] x l2 y l3 m). done. }
  injection E as <- E. apply app_eq_inv in E as [(j & -> & ->)|(j & -> & E)].
  - apply run_place in Hhi as [? ?], Hlo as [? ?]. lia.
  - destruct j as [|d j]; simpl in E.
    + rewrite app_nil_r in *. subst lo. apply run_place in Hhi as [? _].
      pose proof (run_place b [] y l3 m Hlo) as [_ ?]. lia.
    + injection E as <- ->. left. by eapply (run_disjoint m l1 x l2 y j e).
Qed.

Lemma around_place b e l1 x l2 : around b e (l1 ++ x :: l2) -> b <= x.1 /\ x.1 + x.2 <= e.
Proof.
  intros (hi & lo & m & E & Hne & Hm & Hhi & Hlo). pose proof (run_le _ _ _ Hhi). pose proof (run_le _ _ _ Hlo).
  apply app_eq_inv in E as [(k & -> & ->)|(k & -> & E)].
  - apply run_place in Hlo as [? ?]. lia.
  - destruct k as [|c k]; simpl in E.
    + subst lo. pose proof (run_place b [] x l2 m Hlo) as [? ?]. lia.
    + injection E as <- _. apply run_place in Hhi as [? ?]. lia.
Qed.

Lemma around_pos b e l1 x l2 : around b e (l1 ++ x :: l2) -> 0 < x.2.
Proof.
  intros (hi & lo & m & E & _ & _ & Hhi & Hlo). apply app_eq_inv in E as [(k & -> & ->)|(k & -> & E)].
  - by eapply run_pos.
  - destruct k as [|c k]; simpl in E; [subst lo; by apply (run_pos b [] x l2 m)|]. injection E as <- _. by eapply run_pos.
Qed.

(** When the last block is before the first one, there is a gap between them. *)
Lemma around_gap b e sp h t :
  around b e sp -> head sp = Some h -> last sp = Some t -> t.1 < h.1 -> t.1 + t.2 <= h.1.
Proof.
  intros Ha Hh Ht Hlt. destruct sp as [|h' sp]; [done|]. injection Hh as ->.
  destruct sp as [|t' sp _] using rev_ind; [injection Ht as ->; lia|].
  rewrite app_comm_cons, last_snoc in Ht. injection Ht as ->.
  pose proof (around_disjoint b e [] h sp t [] Ha) as Hd. pose proof (around_pos b e [] h _ Ha). lia.
Qed.

(** The places where [rt_rbb_blk_alloc] puts a new block of size [n], when the
    first one is at [h] and the last one at [t]. *)
Definition fits_at (b e : Z) (h t : Z * Z) (n x : Z) : Prop :=
  if h.1 <=? t.1 then x = t.1 + t.2 /\ x + n <= e \/ x = b /\ x + n <= h.1
  else x = t.1 + t.2 /\ x + n <= h.1.

Lemma around_push b e sp h t n x :
  around b e sp -> head sp = Some h -> last sp = Some t -> 0 < n -> fits_at b e h t n x ->
  around b e (sp ++ [(x, n)]).
Proof.
  intros (hi & lo & m & -> & Hne & Hm & Hhi & Hlo) Hh Ht Hn Hf. unfold fits_at in Hf.
  destruct hi as [|h' hi]; [by rewrite Hne in Hh|]. injection Hh as ->.
  assert (run h.1 (h :: hi) e /\ b <= h.1 /\ m <= h.1) as (Hhi' & Hbh & Hmh) by (cbn [run] in *; split_and!; try lia; apply Hhi).
  destruct lo as [|t' lo _] using rev_ind.
  - rewrite app_nil_r in Ht. assert (exists ys, h :: hi = ys ++ [t]) as [ys Ey].
    { destruct (h :: hi) as [|c l _] using rev_ind; [done|]. rewrite last_snoc in Ht. injection Ht as ->. by exists l. }
    assert (h.1 <= t.1) as Hle.
    { destruct ys as [|c ys]; [injection Ey as -> _; lia|]. injection Ey as <- ->.
      pose proof (run_disjoint m [] h ys t [] e Hhi). cbn [run] in Hhi. lia. }
    rewrite (proj2 (Z.leb_le _ _) Hle) in Hf. rewrite app_nil_r. destruct Hf as [[-> Hx]|[-> Hx]].
    + exists ((h :: hi) ++ [(t.1 + t.2, n)]), [], m. rewrite app_nil_r. split_and!; try done.
      rewrite Ey in *. by apply (run_push m ys t n e e).
    + exists (h :: hi), [(b, n)], h.1. split_and!; try done.
  - rewrite app_assoc, last_snoc in Ht. injection Ht as ->.
    pose proof (run_place b lo t [] m Hlo) as [_ Ht].
    assert (0 < t.2) as Ht0 by (apply run_app in Hlo as (? & _ & _ & ? & _); done).
    rewrite (proj2 (Z.leb_gt _ _)) in Hf by lia. destruct Hf as [-> Hx].
    exists (h :: hi), ((lo ++ [t]) ++ [(t.1 + t.2, n)]), h.1. rewrite <- app_assoc. split_and!; try done.
    by apply (run_push b lo t n m).
Qed.

(** ** The invariant *)

Definition span (r : rt_rbb) (i : nat) : Z * Z :=
  match rb_blks r !! i with Some b => (blk_buf b, blk_size b) | None => (0, 0) end.

(** [bl] are the blocks in use, in the order they were allocated, [fl] the
    unused ones. *)
Record rbb_ok (bl fl : list nat) (r : rt_rbb) : Prop := RbbOk {
  ro_lists : lists bl fl (rb_next r);
  ro_max : (length bl + length fl <= rb_max_num r)%nat;
  ro_tail : rb_tail r = slast BlkList (nodes bl);
  ro_used i : i ∈ bl -> exists b, rb_blks r !! i = Some b /\ blk_status b <> RT_RBB_BLK_UNUSED;
  ro_only i b : rb_blks r !! i = Some b -> blk_status b <> RT_RBB_BLK_UNUSED -> i ∈ bl;
  ro_unused i : i ∈ fl -> exists b, rb_blks r !! i = Some b /\ blk_status b = RT_RBB_BLK_UNUSED;
  ro_addr : 0 <= rb_buf r /\ 0 <= rb_buf_size r /\ rb_buf r + rb_buf_size r < 2 ^ 63;
  ro_around : around (rb_buf r) (rb_buf r + rb_buf_size r) (span r <$> bl)
}.

(** Two blocks in use never overlap, and all are inside the buffer. *)
Lemma rbb_disjoint l1 i l2 j l3 fl r :
  rbb_ok (l1 ++ i :: l2 ++ j :: l3) fl r ->
  (span r i).1 + (span r i).2 <= (span r j).1 \/ (span r j).1 + (span r j).2 <= (span r i).1.
Proof.
  intros H. pose proof (ro_around _ _ _ H) as Ha. rewrite fmap_app, fmap_cons, fmap_app, fmap_cons in Ha.
  by eapply around_disjoint.
Qed.

Lemma rbb_inside bl fl r i :
  rbb_ok bl fl r -> i ∈ bl ->
  rb_buf r <= (span r i).1 /\ 0 < (span r i).2 /\ (span r i).1 + (span r i).2 <= rb_buf r + rb_buf_size r.
Proof.
  intros H (l1 & l2 & ->)%list_elem_of_split. pose proof (ro_around _ _ _ H) as Ha.
  rewrite fmap_app, fmap_cons in Ha. pose proof (around_place _ _ _ _ _ Ha). pose proof (around_pos _ _ _ _ _ Ha). tauto.
Qed.

(** ** Running the operations *)

Lemma bindr_lists {A B} g (f : A -> R B) r a : g (rb_next r) = Some a -> (on_lists g ≫= f) r = f a r.
Proof. intros E. apply bind_ok. unfold on_lists. by rewrite E. Qed.
Lemma bindr_change {B} g (f : unit -> R B) r s : g (rb_next r) = Some s -> (change_lists g ≫= f) r = f tt (set_rb_next s r).
Proof. intros E. apply bind_ok. unfold change_lists. by rewrite E. Qed.
Lemma bindr_init {B} x (f : unit -> R B) r :
  (change_lists (fun s => Some (rt_slist_init x s)) ≫= f) r = f tt (set_rb_next (rt_slist_init x (rb_next r)) r).
Proof. done. Qed.
Lemma bindr_blk {B} i b (f : rt_rbb_blk -> R B) r : rb_blks r !! i = Some b -> (get_blk i ≫= f) r = f b r.
Proof. intros E. apply bind_ok. unfold get_blk. by rewrite E. Qed.
Lemma upd_blk_eq i b g r : rb_blks r !! i = Some b -> upd_blk i g r = Some (tt, set_rb_blks (<[i := g b]> (rb_blks r)) r).
Proof. intros E. unfold upd_blk. by rewrite (bindr_blk i b). Qed.

Lemma find_empty_none bl r : rbb_ok bl [] r -> find_empty_blk_in_set r = Some (None, r).
Proof.
  intros H. destruct (ro_lists _ _ _ H) as (_ & Hf & _). unfold find_empty_blk_in_set.
  by rewrite (bindr_lists _ _ _ _ (slist_isempty_spec _ _ _ Hf)).
Qed.

Lemma find_empty_some bl i fl r :
  rbb_ok bl (i :: fl) r ->
  exists s, find_empty_blk_in_set r = Some (Some i, set_rb_next s r) /\ lists bl fl s /\ is_Some (s !! Blk i).
Proof.
  intros H. pose proof (ro_lists _ _ _ H) as Hl. pose proof Hl as (_ & Hf & _).
  destruct (take_free_spec bl i fl _ (rb_max_num r) Hl) as (s & E & Hl' & Hs). exists s. split; [|done].
  destruct (ro_unused _ _ _ H i) as (b & Hb & Hu); [by left|].
  unfold find_empty_blk_in_set. rewrite (bindr_lists _ _ _ _ (slist_isempty_spec _ _ _ Hf)).
  rewrite bool_decide_eq_false_2 by done. rewrite (bindr_lists _ _ _ _ (slist_first_spec _ _ _ Hf)). cbn [head nodes fmap list_fmap].
  rewrite (bind_ok (entry (Blk i)) _ r i r) by done. rewrite bind_gets, (bindr_change _ _ _ _ E).
  rewrite (bindr_blk i b) by done. rewrite bind_assert by (by apply bool_decide_eq_true_2). done.
Qed.

(** Everything [rbb_ok] says except about the order of the lists. *)
Lemma place_blk_spec bl fl i r s x size :
  rbb_ok bl (i :: fl) r -> lists bl fl s -> is_Some (s !! Blk i) ->
  around (rb_buf r) (rb_buf r + rb_buf_size r) ((span r <$> bl) ++ [(x, size)]) ->
  exists r', place_blk i x size (set_rb_next s r) = Some (Some i, r') /\ rbb_ok (bl ++ [i]) fl r' /\
    rb_blks r' = <[i := RbbBlk RT_RBB_BLK_INITED size x]> (rb_blks r) /\ rb_buf r' = rb_buf r /\
    rb_buf_size r' = rb_buf_size r.
Proof.
  intros H Hl Hs Ha. destruct (lists_nodup _ _ _ (ro_lists _ _ _ H)) as (_ & [Hif _]%NoDup_cons & Hd).
  assert (i ∉ bl) as Hib by (intros Hi; apply (Hd i Hi); by left).
  destruct (append_blk_spec bl fl i s Hl Hib Hif Hs) as (s' & E & Hl' & Ht).
  destruct (ro_unused _ _ _ H i) as (b & Hb & _); [by left|].
  destruct (set_snext (slast BlkList (nodes bl)) (Some (Blk i)) s) as [s1|] eqn:E1; [|done]. simpl in E.
  exists (set_rb_blks (<[i := RbbBlk RT_RBB_BLK_INITED size x]> (rb_blks r)) (set_rb_tail (Blk i) (set_rb_next s' r))).
  assert (forall j, j ∈ bl -> <[i := RbbBlk RT_RBB_BLK_INITED size x]> (rb_blks r) !! j = rb_blks r !! j) as Hj.
  { intros j Hjb. apply lookup_insert_ne. by intros ->. }
  split; [|split; [|done]].
  - assert (list_append (Blk i) (set_rb_next s r) = Some (tt, set_rb_tail (Blk i) (set_rb_next s' r))) as Ea.
    { unfold list_append. rewrite bind_gets. cbn [rb_tail set_rb_next]. rewrite (ro_tail _ _ _ H).
      rewrite (bindr_change _ _ _ s1) by done. by rewrite (bindr_change _ _ _ s'). }
    unfold place_blk. rewrite (bind_ok _ _ _ _ _ Ea).
    by rewrite (bind_ok _ _ _ _ _ (upd_blk_eq i b _ (set_rb_tail (Blk i) (set_rb_next s' r)) Hb)).
  - constructor; try apply H; cbn [rb_next rb_max_num rb_tail rb_blks rb_buf rb_buf_size set_rb_blks set_rb_tail set_rb_next].
    + done.
    + pose proof (ro_max _ _ _ H). rewrite length_app. simpl in *. lia.
    + done.
    + intros j [Hj1|Hj1]%elem_of_app; [rewrite Hj by done; by apply H|].
      apply list_elem_of_singleton in Hj1 as ->.
      rewrite lookup_insert_eq. by eexists.
    + intros j b'. rewrite lookup_insert, elem_of_app, list_elem_of_singleton. case_decide; [by right|].
      left. by eapply (ro_only _ _ _ H).
    + intros j Hjf. rewrite lookup_insert_ne by (by intros ->). apply H. by right.
    + rewrite fmap_app. assert (span (set_rb_blks (<[i := RbbBlk RT_RBB_BLK_INITED size x]> (rb_blks r)) (set_rb_tail (Blk i) (set_rb_next s' r))) <$> bl = span r <$> bl) as ->.
      { apply list_fmap_ext. intros k j Hk. unfold span. simpl. rewrite Hj; [done|]. by apply list_elem_of_lookup_2 in Hk. }
      simpl. unfold span at 2. simpl. by rewrite lookup_insert_eq.
Qed.

Lemma slast_last l t : last l = Some t -> slast BlkList (nodes l) = Blk t.
Proof.
  destruct l as [|x l _] using rev_ind; [done|]. rewrite last_snoc. intros [= ->].
  assert (nodes (l ++ [t]) = nodes l ++ [Blk t]) as -> by (unfold nodes; by rewrite fmap_app). by rewrite slast_snoc.
Qed.

(** Where a new block of [size] bytes may go. *)
Definition place_for (r : rt_rbb) (bl : list nat) (size x : Z) : Prop :=
  match head bl, last bl with
  | Some h, Some t => fits_at (rb_buf r) (rb_buf r + rb_buf_size r) (span r h) (span r t) size x
  | _, _ => x = rb_buf r
  end.

Lemma place_for_around r bl fl size x :
  rbb_ok bl fl r -> 0 < size <= rb_buf_size r -> place_for r bl size x ->
  around (rb_buf r) (rb_buf r + rb_buf_size r) ((span r <$> bl) ++ [(x, size)]).
Proof.
  intros H Hs Hp. pose proof (ro_addr _ _ _ H). unfold place_for in Hp. destruct bl as [|h bl].
  - simpl in Hp. subst x. exists [(rb_buf r, size)], [], (rb_buf r). simpl. split_and!; try done; lia.
  - assert (exists t, last (h :: bl) = Some t) as [t Ht] by (destruct (last (h :: bl)) eqn:E; [eauto|by apply last_None in E]).
    rewrite Ht in Hp. simpl in Hp. apply (around_push _ _ _ (span r h) (span r t)); [apply H|done| |lia|done].
    by rewrite fmap_last, Ht.
Qed.

(** The search for a place, with [h] the first and [t] the last block. *)
Definition search_place (h t : rt_rbb_blk) (i : nat) (buf buf_size size : Z) : R (option nat) :=
  if blk_buf h <=? blk_buf t then
    if size <=? u64 (buf + buf_size - (blk_buf t + blk_size t)) then place_blk i (blk_buf t + blk_size t) size
    else if size <=? u64 (blk_buf h - buf) then place_blk i buf size
    else mret None
  else if size <=? u64 (blk_buf h - (blk_buf t + blk_size t)) then place_blk i (blk_buf t + blk_size t) size
  else mret None.

Lemma alloc_search h bl i fl r s t bh bt size :
  rbb_ok (h :: bl) (i :: fl) r -> find_empty_blk_in_set r = Some (Some i, set_rb_next s r) ->
  lists (h :: bl) fl s -> size < 2 ^ 24 -> last (h :: bl) = Some t ->
  rb_blks r !! h = Some bh -> rb_blks r !! t = Some bt ->
  rt_rbb_blk_alloc size r = search_place bh bt i (rb_buf r) (rb_buf_size r) size (set_rb_next s r).
Proof.
  intros H E Hl Hs Ht Hh Hbt. destruct Hl as (Hb & _). unfold rt_rbb_blk_alloc.
  rewrite bind_assert by (by apply Z.ltb_lt). rewrite (bind_ok _ _ _ _ _ E). cbv beta iota. rewrite !bind_gets.
  cbn [rb_buf rb_buf_size set_rb_next].
  rewrite (bindr_lists _ _ (set_rb_next s r) _ (slist_isempty_spec _ _ _ Hb)). rewrite bool_decide_eq_false_2 by done. cbn [negb].
  rewrite (bindr_lists _ _ (set_rb_next s r) _ (slist_first_spec _ _ _ Hb)). cbn [head nodes fmap list_fmap].
  rewrite (bind_ok (entry (Blk h)) _ _ h (set_rb_next s r)) by done. rewrite (bindr_blk h bh) by done.
  rewrite bind_gets. cbn [rb_tail set_rb_next]. rewrite (ro_tail _ _ _ H), (slast_last _ _ Ht).
  rewrite (bind_ok (entry (Blk t)) _ _ t (set_rb_next s r)) by done. by rewrite (bindr_blk t bt).
Qed.

(** The search finds the place, when there is one. *)
Lemma search_place_spec h bl i fl r s t bh bt size :
  rbb_ok (h :: bl) (i :: fl) r -> lists (h :: bl) fl s -> is_Some (s !! Blk i) -> 0 < size <= rb_buf_size r ->
  last (h :: bl) = Some t -> rb_blks r !! h = Some bh -> rb_blks r !! t = Some bt ->
  (exists x, place_for r (h :: bl) size x /\
     search_place bh bt i (rb_buf r) (rb_buf_size r) size (set_rb_next s r) = place_blk i x size (set_rb_next s r)) \/
  ((forall x, ~ place_for r (h :: bl) size x) /\
   search_place bh bt i (rb_buf r) (rb_buf_size r) size (set_rb_next s r) = Some (None, set_rb_next s r)).
Proof.
  intros H Hl Hs Hz Ht Hh Hbt. pose proof (ro_addr _ _ _ H) as (Hb0 & Hb1 & Hb2).
  assert (h ∈ h :: bl) as Hh' by left. assert (t ∈ h :: bl) as Ht' by (by apply last_Some_elem_of).
  pose proof (rbb_inside _ _ _ _ H Hh') as Ih. pose proof (rbb_inside _ _ _ _ H Ht') as It.
  assert (head (span r <$> h :: bl) = Some (span r h)) as H1 by done.
  assert (last (span r <$> h :: bl) = Some (span r t)) as H2 by (by rewrite fmap_last, Ht).
  pose proof (around_gap _ _ _ _ _ (ro_around _ _ _ H) H1 H2) as Hg.
  unfold place_for. rewrite Ht. cbn [head]. unfold fits_at, search_place, span in *. rewrite Hh, Hbt in *. cbn [fst snd] in *.
  destruct (Z.leb_spec (blk_buf bh) (blk_buf bt)) as [Hc|Hc].
  - rewrite !u64_small by lia. destruct (Z.leb_spec size (rb_buf r + rb_buf_size r - (blk_buf bt + blk_size bt))).
    { left. eexists. split; [|done]. left. split; [done|lia]. }
    destruct (Z.leb_spec size (blk_buf bh - rb_buf r)).
    { left. eexists. split; [|done]. right. split; [done|lia]. }
    right. split; [|done]. intros x. lia.
  - specialize (Hg ltac:(lia)). rewrite u64_small by lia.
    destruct (Z.leb_spec size (blk_buf bh - (blk_buf bt + blk_size bt))).
    { left. eexists. split; [|done]. split; [done|lia]. }
    right. split; [|done]. intros x. lia.
Qed.

(** The block of a failed allocation is on no list. *)
Lemma rbb_ok_lost bl i fl r s : rbb_ok bl (i :: fl) r -> lists bl fl s -> rbb_ok bl fl (set_rb_next s r).
Proof.
  intros H Hl. constructor; try apply H; [done| |].
  - pose proof (ro_max _ _ _ H). simpl in *. lia.
  - intros j Hj. apply H. by right.
Qed.

Lemma alloc_empty_spec i fl r s size :
  rbb_ok [] (i :: fl) r -> find_empty_blk_in_set r = Some (Some i, set_rb_next s r) -> lists [] fl s ->
  size < 2 ^ 24 -> rt_rbb_blk_alloc size r = place_blk i (rb_buf r) size (set_rb_next s r).
Proof.
  intros H E (Hb & _) Hs. unfold rt_rbb_blk_alloc.
  rewrite bind_assert by (by apply Z.ltb_lt). rewrite (bind_ok _ _ _ _ _ E). cbv beta iota. rewrite !bind_gets.
  by rewrite (bindr_lists _ _ (set_rb_next s r) _ (slist_isempty_spec _ _ _ Hb)).
Qed.

(** What an allocation leaves behind. *)
Definition allocated (bl fl : list nat) (size : Z) (r : rt_rbb) (res : option nat) (r' : rt_rbb) : Prop :=
  match fl with
  | [] => res = None /\ r' = r
  | i :: fl =>
      (res = Some i /\ rbb_ok (bl ++ [i]) fl r' /\ exists x, place_for r bl size x /\
         rb_blks r' = <[i := RbbBlk RT_RBB_BLK_INITED size x]> (rb_blks r)) \/
      (res = None /\ rbb_ok bl fl r' /\ rb_blks r' = rb_blks r /\ forall x, ~ place_for r bl size x)
  end.

Lemma alloc_spec bl fl r size :
  rbb_ok bl fl r -> 0 < size < 2 ^ 24 -> size <= rb_buf_size r ->
  exists res r', rt_rbb_blk_alloc size r = Some (res, r') /\ allocated bl fl size r res r' /\
    rb_buf r' = rb_buf r /\ rb_buf_size r' = rb_buf_size r.
Proof.
  intros H Hz Hm. destruct fl as [|i fl].
  { exists None, r. split; [|done]. unfold rt_rbb_blk_alloc. rewrite bind_assert by (apply Z.ltb_lt; lia).
    by rewrite (bind_ok _ _ _ _ _ (find_empty_none bl r H)). }
  destruct (find_empty_some bl i fl r H) as (s & E & Hl & Hs).
  assert (forall x, place_for r bl size x -> exists r', place_blk i x size (set_rb_next s r) = Some (Some i, r') /\
    allocated bl (i :: fl) size r (Some i) r' /\ rb_buf r' = rb_buf r /\ rb_buf_size r' = rb_buf_size r) as Hp.
  { intros x Hx. destruct (place_blk_spec bl fl i r s x size H Hl Hs) as (r' & E' & Hok & Eb & ? & ?).
    { apply (place_for_around r bl (i :: fl)); [done|lia|done]. }
    exists r'. split; [done|]. split; [|done]. left. split_and!; eauto. }
  destruct bl as [|h bl].
  { destruct (Hp (rb_buf r)) as (r' & E' & Hr); [done|]. exists (Some i), r'. split; [|done].
    by rewrite (alloc_empty_spec i fl r s) by (done || lia). }
  assert (exists t, last (h :: bl) = Some t) as [t Ht] by (destruct (last (h :: bl)) eqn:El; [eauto|by apply last_None in El]).
  destruct (ro_used _ _ _ H h) as (bh & Hh & _); [by left|].
  destruct (ro_used _ _ _ H t) as (bt & Hbt & _); [by apply last_Some_elem_of|].
  rewrite (alloc_search h bl i fl r s t bh bt) by (done || lia).
  destruct (search_place_spec h bl i fl r s t bh bt size) as [(x & Hx & ->)|[Hn ->]]; try done; [lia| |].
  - destruct (Hp x Hx) as (r' & E' & Hr). eauto.
  - exists None, (set_rb_next s r). split; [done|]. split; [|done]. right. split; [done|]. split; [|done].
    by apply (rbb_ok_lost (h :: bl) i).
Qed.

(** ** Putting, getting and freeing blocks *)

(** A block in use changes its status and stays in use. *)
Lemma set_status_ok bl fl r i b st :
  rbb_ok bl fl r -> i ∈ bl -> rb_blks r !! i = Some b -> st <> RT_RBB_BLK_UNUSED ->
  rbb_ok bl fl (set_rb_blks (<[i := set_blk_status st b]> (rb_blks r)) r).
Proof.
  intros H Hi Hb Hst. destruct (lists_nodup _ _ _ (ro_lists _ _ _ H)) as (_ & _ & Hd).
  constructor; try apply H; cbn [rb_blks set_rb_blks].
  - intros j Hj. destruct (decide (i = j)) as [->|Hne]; [rewrite lookup_insert_eq; eauto|].
    rewrite lookup_insert_ne by done. by apply H.
  - intros j b'. rewrite lookup_insert. case_decide; [by subst|]. by apply (ro_only _ _ _ H).
  - intros j Hj. rewrite lookup_insert_ne by (intros ->; by apply (Hd j)). by apply H.
  - replace (span _ <$> bl) with (span r <$> bl); [apply H|]. apply list_fmap_ext. intros k j _. unfold span. simpl.
    destruct (decide (i = j)) as [->|Hne]; [by rewrite lookup_insert_eq, Hb|by rewrite lookup_insert_ne].
Qed.

Lemma rbb_put_spec bl fl r i b :
  rbb_ok bl fl r -> i ∈ bl -> rb_blks r !! i = Some b -> blk_status b = RT_RBB_BLK_INITED ->
  rt_rbb_blk_put i r = Some (tt, set_rb_blks (<[i := set_blk_status RT_RBB_BLK_PUT b]> (rb_blks r)) r) /\
  rbb_ok bl fl (set_rb_blks (<[i := set_blk_status RT_RBB_BLK_PUT b]> (rb_blks r)) r).
Proof.
  intros H Hi Hb Hs. split; [|by apply set_status_ok].
  unfold rt_rbb_blk_put. rewrite (bindr_blk i b) by done. rewrite bind_assert by (by apply bool_decide_eq_true_2).
  by apply upd_blk_eq.
Qed.

(** The status of a block. *)
Definition has_status (r : rt_rbb) (st : rt_rbb_status) (i : nat) : Prop :=
  exists b, rb_blks r !! i = Some b /\ blk_status b = st.
#[export] Instance has_status_dec r st i : Decision (has_status r st i).
Proof.
  unfold has_status. destruct (rb_blks r !! i) as [b|] eqn:E.
  - destruct (decide (blk_status b = st)) as [H|H]; [left; eauto|right; intros (? & [= <-] & ?); done].
  - right. by intros (? & ? & _).
Defined.

(** The first block that has been put, and [rt_rbb_blk_get]. *)
Lemma get_loop_spec bl fl r l1 l2 fuel :
  rbb_ok bl fl r -> bl = l1 ++ l2 -> (length l2 < fuel)%nat ->
  blk_get_loop fuel (head (nodes l2)) r =
    match list_find (has_status r RT_RBB_BLK_PUT) l2 with
    | Some (_, i) => (upd_blk i (set_blk_status RT_RBB_BLK_GET);; mret (Some i)) r
    | None => Some (None, r)
    end.
Proof.
  intros H. revert l1 fuel. induction l2 as [|i l2 IH]; intros l1 fuel -> Hf; (destruct fuel as [|fuel]; [simpl in Hf; lia|]).
  { done. }
  destruct (ro_used _ _ _ H i) as (b & Hb & _); [set_solver|].
  cbn [head nodes fmap list_fmap blk_get_loop]. rewrite (bind_ok (entry (Blk i)) _ r i r) by done.
  rewrite (bindr_blk i b) by done. cbn [list_find].
  destruct (decide (blk_status b = RT_RBB_BLK_PUT)) as [E|E].
  - by rewrite decide_True by (by exists b).
  - rewrite decide_False by (intros (? & ? & ?); congruence).
    destruct (unlink_blk_spec l1 i l2 fl _ (ro_lists _ _ _ H)) as (_ & E2 & _).
    rewrite (bindr_lists (rt_slist_next (Blk i)) _ r _ E2). rewrite (IH (l1 ++ [i])); [|by rewrite <- app_assoc|simpl in Hf; lia].
    by destruct (list_find _ l2) as [[]|].
Qed.

Lemma rbb_get_spec bl fl r :
  rbb_ok bl fl r ->
  rt_rbb_blk_get r =
    match list_find (has_status r RT_RBB_BLK_PUT) bl with
    | Some (_, i) => (upd_blk i (set_blk_status RT_RBB_BLK_GET);; mret (Some i)) r
    | None => Some (None, r)
    end.
Proof.
  intros H. destruct (ro_lists _ _ _ H) as (Hb & _). unfold rt_rbb_blk_get.
  rewrite (bindr_lists _ _ r _ (slist_isempty_spec _ _ _ Hb)). destruct bl as [|i bl]; [done|].
  rewrite bool_decide_eq_false_2 by done. rewrite (bindr_lists _ _ r _ (slist_first_spec _ _ _ Hb)), bind_gets.
  apply (get_loop_spec (i :: bl) fl r []); [done|done|]. pose proof (ro_max _ _ _ H). unfold rbb_fuel. lia.
Qed.

(** [list_remove] of a block in use. *)
Lemma list_remove_spec l1 i l2 fl r :
  rbb_ok (l1 ++ i :: l2) fl r ->
  exists s, list_remove (Blk i) r = Some (tt, set_rb_tail (slast BlkList (nodes (l1 ++ l2))) (set_rb_next s r)) /\
    lists (l1 ++ l2) fl s /\ is_Some (s !! Blk i).
Proof.
  intros H. pose proof (ro_lists _ _ _ H) as Hl. destruct (lists_nodup _ _ _ Hl) as (Hnd & _).
  destruct (unlink_blk_spec l1 i l2 fl _ Hl) as (E1 & E2 & s & Es & Hl' & Hi). exists s. split; [|done].
  destruct (set_snext _ _ (rb_next r)) as [s1|] eqn:Es1; [|done]. simpl in Es.
  destruct Hl as (Hb & _). pose proof (nodup_nodes BlkList _ (or_introl eq_refl) Hnd) as Hnn.
  assert (nodes (l1 ++ i :: l2) = nodes l1 ++ Blk i :: nodes l2) as En by (unfold nodes; by rewrite fmap_app).
  rewrite En in Hb, Hnn.
  assert (slist_walk (rbb_fuel r) (Blk i) BlkList (rb_next r) = Some (slast BlkList (nodes l1))) as Ew.
  { apply (slist_walk_spec _ _ _ _ (nodes l2)); [done| |].
    { intros Hi1%elem_of_nodes. apply NoDup_app in Hnd as (_ & Hd & _). apply (Hd i Hi1). by left. }
    pose proof (ro_max _ _ _ H) as Hm. rewrite length_app in Hm. unfold rbb_fuel, nodes. rewrite length_fmap. lia. }
  unfold list_remove. rewrite bind_gets, (bindr_lists _ _ r _ Ew), (bindr_lists _ _ r _ E1), (bindr_lists _ _ r _ E2).
  rewrite (bindr_change _ _ r s1 Es1), (bindr_change _ _ (set_rb_next s1 r) s Es), bind_gets. cbn [rb_tail set_rb_next].
  rewrite (ro_tail _ _ _ H), (slast_removed l1 i l2 Hnd).
  destruct (decide (slast BlkList (nodes (l1 ++ i :: l2)) = Blk i)); [done|].
  unfold mret, St_ret, set_rb_tail, set_rb_next. simpl. by rewrite <- (ro_tail _ _ _ H).
Qed.

(** A block that is on no list is put in front of the unused ones. *)
Lemma give_free_spec bl fl i s :
  lists bl fl s -> i ∉ bl -> i ∉ fl -> is_Some (s !! Blk i) ->
  exists s', rt_slist_insert FreeList (Blk i) s = Some s' /\ lists bl (i :: fl) s' /\
    (forall x, is_Some (s' !! x) <-> is_Some (s !! x)).
Proof.
  intros Hl Hi1 Hi2 Hi. destruct (lists_nodup _ _ _ Hl) as (_ & Hnf & _). pose proof Hl as (_ & Hf & Hnd).
  destruct (slist_insert_spec s FreeList (nodes fl) (Blk i) Hf Hi) as (s' & E' & Hs' & He & Hd).
  { intros [?|?%elem_of_nodes]%elem_of_cons; done. }
  { apply nodup_nodes; auto. }
  exists s'. split; [done|]. split; [|done]. apply (lists_frame_blk bl fl _ s); [done| |done|].
  - rewrite <- Permutation_middle. apply NoDup_cons. split; [|done]. rewrite elem_of_app. tauto.
  - intros x Hx. apply He; intros ->; apply elem_of_cons in Hx as [?|Hx]; try done.
    + by apply nodes_not_head in Hx as [_ ?].
    + by apply elem_of_nodes in Hx.
Qed.

(** The state after a block has gone back to the unused ones. *)
Lemma freed_ok l1 i l2 fl r b s :
  rbb_ok (l1 ++ i :: l2) fl r -> lists (l1 ++ l2) (i :: fl) s -> blk_status b = RT_RBB_BLK_UNUSED ->
  rbb_ok (l1 ++ l2) (i :: fl) (set_rb_next s (set_rb_blks (<[i := b]> (rb_blks r))
    (set_rb_tail (slast BlkList (nodes (l1 ++ l2))) r))).
Proof.
  intros H Hl Hb. destruct (lists_nodup _ _ _ Hl) as (_ & [Hnif _]%NoDup_cons & Hd).
  assert (i ∉ l1 ++ l2) as Hni by (intros Hi; apply (Hd i Hi); by left).
  constructor; try apply H; cbn [rb_next rb_max_num rb_tail rb_blks rb_buf rb_buf_size set_rb_blks set_rb_tail set_rb_next].
  - done.
  - pose proof (ro_max _ _ _ H) as Hm. rewrite length_app in *. simpl in *. lia.
  - done.
  - intros j Hj. rewrite lookup_insert_ne by (by intros ->). apply H. set_solver.
  - intros j b'. rewrite lookup_insert. case_decide as Hij; [by intros [= <-]|]. intros Hj1 Hj2.
    pose proof (ro_only _ _ _ H j b' Hj1 Hj2) as Hj. set_solver.
  - intros j [->|Hj]%elem_of_cons; [rewrite lookup_insert_eq; eauto|].
    rewrite lookup_insert_ne by (by intros ->). by apply H.
  - pose proof (ro_around _ _ _ H) as Ha. rewrite fmap_app, fmap_cons in Ha. apply around_remove in Ha.
    rewrite <- fmap_app in Ha. erewrite list_fmap_ext; [exact Ha|]. intros k j Hk. unfold span. simpl.
    rewrite lookup_insert_ne; [done|]. intros <-. by apply list_elem_of_lookup_2 in Hk.
Qed.

(** [rt_rbb_blk_free] of a block in use: it is the first unused one. *)
Lemma free_spec l1 i l2 fl r b :
  rbb_ok (l1 ++ i :: l2) fl r -> rb_blks r !! i = Some b ->
  exists r', rt_rbb_blk_free i r = Some (tt, r') /\ rbb_ok (l1 ++ l2) (i :: fl) r' /\
    rb_blks r' = <[i := set_blk_status RT_RBB_BLK_UNUSED b]> (rb_blks r) /\
    rb_buf r' = rb_buf r /\ rb_buf_size r' = rb_buf_size r.
Proof.
  intros H Hb. destruct (lists_nodup _ _ _ (ro_lists _ _ _ H)) as (Hnd & _ & Hd).
  destruct (ro_used _ _ _ H i) as (b' & Hb' & Hu); [set_solver|]. rewrite Hb in Hb'. injection Hb' as <-.
  destruct (list_remove_spec l1 i l2 fl r H) as (s & E & Hl' & Hi).
  destruct (give_free_spec (l1 ++ l2) fl i s Hl') as (s' & E' & Hl2 & _); [|apply Hd; set_solver|done|].
  { apply NoDup_app in Hnd as (_ & Hd1 & [Hd2 _]%NoDup_cons). intros [Hx|Hx]%elem_of_app; [|done].
    apply (Hd1 i Hx). by left. }
  eexists. split; [|split; [apply (freed_ok l1 i l2 fl r (set_blk_status RT_RBB_BLK_UNUSED b) s' H Hl2 eq_refl)|done]].
  unfold rt_rbb_blk_free. rewrite (bindr_blk i b) by done.
  rewrite bind_assert by (by rewrite bool_decide_eq_false_2). rewrite (bind_ok _ _ _ _ _ E).
  set (t := slast BlkList (nodes (l1 ++ l2))).
  rewrite (bind_ok _ _ _ _ _ (upd_blk_eq i b _ (set_rb_tail t (set_rb_next s r)) Hb)).
  unfold change_lists. cbn [rb_next set_rb_blks set_rb_tail set_rb_next]. by rewrite E'.
Qed.

(** ** Initialisation *)

Lemma elem_of_rev_seq j i : j ∈ rev (seq 0 i) <-> (j < i)%nat.
Proof. rewrite list_elem_of_In, <- in_rev, in_seq. lia. Qed.

(** One round of the loop: block [i] is unused and the first of its list. *)
Lemma init_round i r :
  lists [] (rev (seq 0 i)) (rb_next r) ->
  exists s, (rt_slist_insert FreeList (Blk i) (rt_slist_init (Blk i) (rb_next r))) = Some s /\
    lists [] (rev (seq 0 (S i))) s.
Proof.
  intros Hl. assert (i ∉ rev (seq 0 i)) as Hi by (rewrite elem_of_rev_seq; lia).
  assert (lists [] (rev (seq 0 i)) (rt_slist_init (Blk i) (rb_next r))) as Hl'.
  { destruct Hl as (Hb & Hf & Hnd). unfold rt_slist_init. split; [|split; [|done]]; (eapply slist_ext; [done|]); intros x Hx;
      apply lookup_insert_ne; intros <-; apply elem_of_cons in Hx as [?|Hx]; try done.
    - by apply elem_of_nil in Hx.
    - by apply elem_of_nodes in Hx. }
  destruct (give_free_spec [] _ i _ Hl') as (s & E & Hs & _); [by apply not_elem_of_nil|done|unfold rt_slist_init; by rewrite lookup_insert_eq|].
  exists s. split; [done|]. by rewrite seq_S, rev_app_distr.
Qed.

Lemma init_loop_spec n i r :
  lists [] (rev (seq 0 i)) (rb_next r) ->
  (forall j b, (j < i)%nat -> rb_blks r !! j = Some b -> blk_status b = RT_RBB_BLK_UNUSED) ->
  (forall j, is_Some (rb_blks r !! j) <-> (j < i + n)%nat) ->
  exists s blks, rbb_init_loop n i r = Some (tt, set_rb_next s (set_rb_blks blks r)) /\
    lists [] (rev (seq 0 (i + n))) s /\ (forall j, is_Some (blks !! j) <-> (j < i + n)%nat) /\
    (forall j b, blks !! j = Some b -> blk_status b = RT_RBB_BLK_UNUSED).
Proof.
  revert i r. induction n as [|n IH]; intros i r Hl Hu Hd; cbn [rbb_init_loop].
  { exists (rb_next r), (rb_blks r). rewrite Nat.add_0_r in *. destruct r. split_and!; try done.
    intros j b Hj. apply (Hu j); [|done]. apply Hd. by rewrite Hj. }
  destruct (proj2 (Hd i)) as [b Hb]; [lia|]. destruct (init_round i r Hl) as (s & E & Hl').
  rewrite (bind_ok _ _ _ _ _ (upd_blk_eq i b _ r Hb)). cbv beta iota.
  rewrite bindr_init.
  rewrite (bindr_change (rt_slist_insert FreeList (Blk i)) _ _ s) by exact E.
  destruct (IH (S i) (set_rb_next s (set_rb_blks (<[i := set_blk_status RT_RBB_BLK_UNUSED b]> (rb_blks r)) r)))
    as (s' & blks & E' & Hs'); [done| | |].
  - intros j b'. cbn [rb_blks set_rb_next set_rb_blks]. rewrite lookup_insert.
    case_decide; [by intros _ [= <-]|]. intros ?. apply Hu. lia.
  - intros j. cbn [rb_blks set_rb_next set_rb_blks]. rewrite lookup_insert, Nat.add_succ_comm.
    case_decide as Hj; [subst|by apply Hd]. split; [lia|eauto].
  - exists s', blks. rewrite <- Nat.add_succ_comm. split; [exact E'|done].
Qed.

(** The buffer is inside the address space, and [blks] has the [n] blocks. *)
Lemma rbb_init_spec buf buf_size blks n :
  0 <= buf -> 0 <= buf_size -> buf + buf_size < 2 ^ 63 -> (forall j, is_Some (blks !! j) <-> (j < n)%nat) ->
  exists r, rt_rbb_init buf buf_size blks n = Some r /\ rbb_ok [] (rev (seq 0 n)) r /\
    rb_buf r = buf /\ rb_buf_size r = buf_size.
Proof.
  intros Hb Hs He Hd. unfold rt_rbb_init.
  rewrite !bindr_init.
  destruct (init_loop_spec n 0 (set_rb_next (rt_slist_init FreeList (rt_slist_init BlkList ∅)) (Rbb buf buf_size blks n ∅ BlkList)))
    as (s & blks' & E & Hl & Hd' & Hu); [|lia|done|].
  - unfold lists, rt_slist_init. simpl. split; [by vm_compute|split; [by vm_compute|constructor]].
  - cbn [rb_next set_rb_next] in *. eexists. split; [exact (f_equal (fmap snd) E)|]. split; [|done].
    constructor; cbn [rb_next rb_max_num rb_tail rb_blks rb_buf rb_buf_size set_rb_blks set_rb_tail set_rb_next].
    + done.
    + by rewrite length_rev, length_seq.
    + done.
    + by intros i ?%not_elem_of_nil.
    + intros i b Hi Hn. by apply Hu in Hi.
    + intros i Hi%elem_of_rev_seq. apply Hd' in Hi as [b Hi]. eauto.
    + done.
    + exists [], [], buf. simpl. split_and!; try done; lia.
Qed.

(** ** The reachable states *)

(** One call that returns. *)
Inductive rbb_step : rt_rbb -> rt_rbb -> Prop :=
  | step_alloc r size res r' :
      0 < size <= rb_buf_size r -> rt_rbb_blk_alloc size r = Some (res, r') -> rbb_step r r'
  | step_put r i r' : rt_rbb_blk_put i r = Some (tt, r') -> rbb_step r r'
  | step_get r res r' : rt_rbb_blk_get r = Some (res, r') -> rbb_step r r'
  | step_free r i r' : rt_rbb_blk_free i r = Some (tt, r') -> rbb_step r r'
  | step_queue_get r len q res r' : rt_rbb_blk_queue_get len q r = Some (res, r') -> rbb_step r r'
  | step_queue_free r q r' : rt_rbb_blk_queue_free q r = Some (tt, r') -> rbb_step r r'.

Definition some_ok (r : rt_rbb) : Prop := exists bl fl, rbb_ok bl fl r.

Lemma get_blk_inv i r b r1 : get_blk i r = Some (b, r1) -> rb_blks r !! i = Some b /\ r1 = r.
Proof. unfold get_blk. destruct (rb_blks r !! i); [by intros [= <- <-]|done]. Qed.

(** The status of a block in use becomes another one of those. *)
Lemma upd_status_some r i b st r1 u :
  some_ok r -> rb_blks r !! i = Some b -> blk_status b <> RT_RBB_BLK_UNUSED -> st <> RT_RBB_BLK_UNUSED ->
  upd_blk i (set_blk_status st) r = Some (u, r1) -> some_ok r1.
Proof.
  intros (bl & fl & H) Hb Hu Hst E. rewrite (upd_blk_eq i b) in E by done. injection E as _ <-.
  exists bl, fl. apply set_status_ok; try done. by eapply (ro_only _ _ _ H).
Qed.

Lemma put_some i r r' : some_ok r -> rt_rbb_blk_put i r = Some (tt, r') -> some_ok r'.
Proof.
  intros H E. apply bind_inv in E as (b & r1 & [Eb ->]%get_blk_inv & E).
  apply bind_inv in E as (u & r1 & [Es%bool_decide_eq_true ->]%assert_inv & E).
  eapply (upd_status_some r i b RT_RBB_BLK_PUT); try done. by rewrite Es.
Qed.

Lemma get_some r res r' : some_ok r -> rt_rbb_blk_get r = Some (res, r') -> some_ok r'.
Proof.
  intros H E. pose proof H as (bl & fl & Hok). rewrite (rbb_get_spec bl fl r Hok) in E.
  destruct (list_find _ bl) as [[k i]|] eqn:Ef; [|by injection E as _ <-].
  apply list_find_Some in Ef as (_ & (b & Hb & Hs) & _). apply bind_inv in E as (u & r1 & Eu & [= _ <-]).
  eapply (upd_status_some r i b RT_RBB_BLK_GET); try done. by rewrite Hs.
Qed.

Lemma free_some i r r' : some_ok r -> rt_rbb_blk_free i r = Some (tt, r') -> some_ok r'.
Proof.
  intros (bl & fl & H) E. pose proof E as E'. apply bind_inv in E' as (b & r1 & [Eb ->]%get_blk_inv & E').
  apply bind_inv in E' as (u & r1 & [Es%negb_true_iff%bool_decide_eq_false _]%assert_inv & _).
  destruct (list_elem_of_split bl i) as (l1 & l2 & ->); [by eapply (ro_only _ _ _ H)|].
  destruct (free_spec l1 i l2 fl r b H Eb) as (r1' & E1 & Hok & _). rewrite E in E1. injection E1 as <-.
  by exists (l1 ++ l2), (i :: fl).
Qed.

Lemma alloc_some r size res r' :
  some_ok r -> 0 < size <= rb_buf_size r -> rt_rbb_blk_alloc size r = Some (res, r') -> some_ok r'.
Proof.
  intros (bl & fl & H) Hs E. pose proof E as E'. apply bind_inv in E' as (u & r1 & [Hlt%Z.ltb_lt _]%assert_inv & _).
  destruct (alloc_spec bl fl r size H) as (res1 & r1' & E1 & Ha & _); [lia|lia|]. rewrite E in E1. injection E1 as <- <-.
  unfold allocated in Ha. destruct fl as [|i fl].
  - destruct Ha as [_ ->]. by exists bl, [].
  - destruct Ha as [(_ & Hok & _)|(_ & Hok & _)]; by eexists _, _.
Qed.

Lemma on_lists_inv {A} (g : _ -> option A) r a r1 : on_lists g r = Some (a, r1) -> g (rb_next r) = Some a /\ r1 = r.
Proof. unfold on_lists. destruct (g _); [by intros [= <- <-]|done]. Qed.

Lemma queue_free_some q r r' : some_ok r -> rt_rbb_blk_queue_free q r = Some (tt, r') -> some_ok r'.
Proof.
  unfold rt_rbb_blk_queue_free. generalize (Z.to_nat q.2) q.1. intros n i. clear q. revert i r.
  induction n as [|n IH]; intros i r H E; [by injection E as <-|].
  apply bind_inv in E as (nx & r1 & [_ ->]%on_lists_inv & E).
  apply bind_inv in E as ([] & r1 & E1%free_some & E); [|done]. destruct n as [|n]; [by injection E as <-|].
  destruct nx as [[| |j]|]; try done. by apply (IH j r1).
Qed.

Lemma queue_get_loop_some fuel node tmp last total len q r z r' :
  some_ok r -> queue_get_loop fuel node tmp last total len q r = Some (z, r') -> some_ok r'.
Proof.
  revert node tmp last total q r. induction fuel as [|fuel IH]; intros node tmp last total q r H E; [done|].
  destruct node as [n|]; [|by injection E as _ <-]. cbn [queue_get_loop] in E.
  apply bind_inv in E as (i & r1 & E1 & E). assert (r1 = r) as -> by (destruct n; [done|done|by injection E1]).
  apply bind_inv in E as (b & r1 & [Eb ->]%get_blk_inv & E).
  assert (forall l t q' r1, some_ok r1 -> match tmp with None => fun _ => None | Some t0 =>
    nx ← on_lists (rt_slist_next t0); queue_get_loop fuel tmp nx l t len q' end r1 = Some (z, r') -> some_ok r') as Hn.
  { intros l t q' r2 H2 E2. destruct tmp as [t0|]; [|done].
    apply bind_inv in E2 as (nx & r3 & [_ ->]%on_lists_inv & E2). by eapply IH. }
  assert (forall u r1, some_ok r -> blk_status b = RT_RBB_BLK_PUT -> upd_blk i (set_blk_status RT_RBB_BLK_GET) r = Some (u, r1) ->
    some_ok r1) as Ht by (intros u r2 H2 Es Eu; eapply (upd_status_some r i b RT_RBB_BLK_GET); try done; by rewrite Es).
  destruct last as [last|].
  - apply bind_inv in E as (lb & r1 & [_ ->]%get_blk_inv & E).
    destruct (bool_decide_reflect (blk_status b = RT_RBB_BLK_PUT)) as [Es|Es]; [|by injection E as _ <-].
    destruct (negb true || (blk_buf b <? blk_buf lb) || _); [by injection E as _ <-|].
    apply bind_inv in E as (u & r1 & Eu & E). eapply Hn; [|exact E]. by eapply Ht.
  - destruct (decide (blk_status b = RT_RBB_BLK_PUT)) as [Es|Es]; [|by eapply Hn].
    apply bind_inv in E as (u & r1 & Eu & E). eapply Hn; [|exact E]. by eapply Ht.
Qed.

Lemma queue_get_some len q r z r' : some_ok r -> rt_rbb_blk_queue_get len q r = Some (z, r') -> some_ok r'.
Proof.
  intros H E. apply bind_inv in E as (e & r1 & [_ ->]%on_lists_inv & E). destruct e; [by injection E as _ <-|].
  apply bind_inv in E as (node & r1 & [_ ->]%on_lists_inv & E). apply bind_inv in E as (tmp & r1 & E1 & E).
  assert (r1 = r) as -> by (destruct node; [by apply on_lists_inv in E1 as [_ ?]|by injection E1]).
  apply bind_inv in E as (fuel & r1 & [= <- <-] & E). by eapply queue_get_loop_some.
Qed.

Lemma rbb_step_some r r' : some_ok r -> rbb_step r r' -> some_ok r'.
Proof.
  intros H E. destruct E; eauto using alloc_some, put_some, get_some, free_some, queue_get_some, queue_free_some.
Qed.

(** The blocks in use are inside the buffer and do not overlap. *)
Definition rbb_safe (r : rt_rbb) : Prop :=
  forall i bi, rb_blks r !! i = Some bi -> blk_status bi <> RT_RBB_BLK_UNUSED ->
    rb_buf r <= blk_buf bi /\ 0 < blk_size bi /\ blk_buf bi + blk_size bi <= rb_buf r + rb_buf_size r /\
    forall j bj, j <> i -> rb_blks r !! j = Some bj -> blk_status bj <> RT_RBB_BLK_UNUSED ->
      blk_buf bi + blk_size bi <= blk_buf bj \/ blk_buf bj + blk_size bj <= blk_buf bi.

Lemma some_ok_safe r : some_ok r -> rbb_safe r.
Proof.
  intros (bl & fl & H) i bi Hi Hiu. pose proof (ro_only _ _ _ H i bi Hi Hiu) as Hib.
  pose proof (rbb_inside _ _ _ _ H Hib) as Hin. unfold span in Hin. rewrite Hi in Hin. cbn [fst snd] in Hin.
  split_and!; try tauto. intros j bj Hne Hj Hju. pose proof (ro_only _ _ _ H j bj Hj Hju) as Hjb.
  apply list_elem_of_split in Hib as (l1 & l2 & ->). apply elem_of_app in Hjb as [Hjb|[->|Hjb]%elem_of_cons]; [|done|].
  - apply list_elem_of_split in Hjb as (l3 & l4 & ->). rewrite <- app_assoc, <- app_comm_cons in H.
    pose proof (rbb_disjoint _ _ _ _ _ _ _ H) as Hd. unfold span in Hd. rewrite Hi, Hj in Hd. simpl in Hd. tauto.
  - apply list_elem_of_split in Hjb as (l3 & l4 & ->).
    pose proof (rbb_disjoint _ _ _ _ _ _ _ H) as Hd. unfold span in Hd. by rewrite Hi, Hj in Hd.
Qed.

(** ** The theorems *)

(** C29: Whatever calls are made on a block ring buffer after its initialisation, in any order, the
    requests being of at least one byte and at most the size of the buffer ([rbb_step]; a larger request
    overruns the buffer if no block is in use),
    the blocks in use are inside the buffer and no two of them overlap. *)
Theorem rbb_reachable_safe buf buf_size blks n :
  0 <= buf -> 0 <= buf_size -> buf + buf_size < 2 ^ 63 -> (forall j, is_Some (blks !! j) <-> (j < n)%nat) ->
  exists r0, rt_rbb_init buf buf_size blks n = Some r0 /\ forall r, rtc rbb_step r0 r -> rbb_safe r.
Proof.
  intros Hb Hs He Hd. destruct (rbb_init_spec buf buf_size blks n Hb Hs He Hd) as (r0 & E & H & _).
  exists r0. split; [done|]. intros r Hr. apply some_ok_safe. assert (some_ok r0) as H0 by (by eexists _, _).
  clear E H. induction Hr as [|? ? ? Hst _ IH]; [done|]. apply IH. by eapply rbb_step_some.
Qed.

(** [rt_rbb_blk_alloc] of at most the size of the buffer always returns: with
    no unused block it changes nothing; else the first unused block is put
    behind the last one in use, where there is room behind it, or at the start
    of the buffer; and when no place is large enough nothing is allocated (the
    unused block is then on neither list any more). *)
Theorem rbb_alloc_correct bl fl r size :
  rbb_ok bl fl r -> 0 < size < 2 ^ 24 -> size <= rb_buf_size r ->
  exists res r', rt_rbb_blk_alloc size r = Some (res, r') /\ allocated bl fl size r res r'.
Proof. intros H H1 H2. destruct (alloc_spec bl fl r size H H1 H2) as (res & r' & ? & ? & _). eauto. Qed.

(** [rt_rbb_blk_get] hands out the first block, in the order of allocation,
    that has been put and not yet got; with none it changes nothing. *)
Theorem rbb_get_correct bl fl r :
  rbb_ok bl fl r ->
  match list_find (has_status r RT_RBB_BLK_PUT) bl with
  | Some (_, i) => exists b, rb_blks r !! i = Some b /\
      let r' := set_rb_blks (<[i := set_blk_status RT_RBB_BLK_GET b]> (rb_blks r)) r in
      rt_rbb_blk_get r = Some (Some i, r') /\ rbb_ok bl fl r'
  | None => rt_rbb_blk_get r = Some (None, r)
  end.
Proof.
  intros H. rewrite (rbb_get_spec bl fl r H). destruct (list_find _ bl) as [[k i]|] eqn:Ef; [|done].
  apply list_find_Some in Ef as (Hi%list_elem_of_lookup_2 & (b & Hb & Hs) & _). exists b. split; [done|].
  split; [by rewrite (bind_ok _ _ _ _ _ (upd_blk_eq i b _ r Hb))|]. by apply set_status_ok.
Qed.

(** [rt_rbb_blk_free] of a block in use takes it out of the list, wherever it
    is, and makes it the first unused one; the others keep their places. *)
Theorem rbb_free_correct l1 i l2 fl r b :
  rbb_ok (l1 ++ i :: l2) fl r -> rb_blks r !! i = Some b ->
  exists r', rt_rbb_blk_free i r = Some (tt, r') /\ rbb_ok (l1 ++ l2) (i :: fl) r' /\
    rb_blks r' = <[i := set_blk_status RT_RBB_BLK_UNUSED b]> (rb_blks r).
Proof. intros H Hb. destruct (free_spec l1 i l2 fl r b H Hb) as (r' & ? & ? & ? & _). eauto. Qed.

(** ** Witnesses *)

Definition rbb_demo_blks : gmap nat rt_rbb_blk :=
  list_to_map ((fun i => (i, RbbBlk RT_RBB_BLK_UNUSED 0 0)) <$> seq 0 3).
(** After the initialisation; then two blocks; then the first one is freed and
    the other one put. *)
Definition rbb_demo0 : rt_rbb :=
  Eval vm_compute in default (Rbb 0 0 ∅ 0 ∅ BlkList) (rt_rbb_init 1000 100 rbb_demo_blks 3).
Definition rbb_demo1 : rt_rbb := Eval vm_compute in default rbb_demo0 (snd <$> rt_rbb_blk_alloc 40 rbb_demo0).
Definition rbb_demo2 : rt_rbb := Eval vm_compute in default rbb_demo0 (snd <$> rt_rbb_blk_alloc 50 rbb_demo1).
Definition rbb_demo3 : rt_rbb :=
  Eval vm_compute in default rbb_demo0 (snd <$> (rt_rbb_blk_free 2;; rt_rbb_blk_put 1) rbb_demo2).

Lemma rbb_demo_dom j : is_Some (rbb_demo_blks !! j) <-> (j < 3)%nat.
Proof.
  destruct j as [|[|[|j]]]; (split; [intros [? E]; try lia|]); try (vm_compute; eauto; lia).
  - unfold rbb_demo_blks in E. apply elem_of_list_to_map_2 in E. simpl in E. set_solver.
Qed.

Lemma alloc_ok bl i fl r size j r' :
  rbb_ok bl (i :: fl) r -> 0 < size < 2 ^ 24 -> size <= rb_buf_size r -> rt_rbb_blk_alloc size r = Some (Some j, r') ->
  rbb_ok (bl ++ [i]) fl r'.
Proof.
  intros H H1 H2 E. destruct (alloc_spec bl (i :: fl) r size H H1 H2) as (res & r1 & E1 & Ha & _).
  rewrite E in E1. injection E1 as <- <-. by destruct Ha as [(_ & ? & _)|[? _]].
Qed.

Lemma rbb_demo2_ok : rbb_ok [2; 1]%nat [0]%nat rbb_demo2.
Proof.
  destruct (rbb_init_spec 1000 100 rbb_demo_blks 3) as (r & E & H & _); [lia|lia|done|apply rbb_demo_dom|].
  assert (r = rbb_demo0) as -> by (vm_compute in E; by injection E as <-).
  apply (alloc_ok [] _ _ _ 40 2 rbb_demo1) in H; [|lia|done|by vm_compute].
  by apply (alloc_ok _ _ _ _ 50 1 rbb_demo2) in H; [|lia|done|by vm_compute].
Qed.

Lemma rbb_demo3_ok : rbb_ok [1]%nat [2; 0]%nat rbb_demo3.
Proof.
  destruct (free_spec [] 2 [1]%nat _ _ (RbbBlk RT_RBB_BLK_INITED 40 1000) rbb_demo2_ok) as (r & E & H & Eb & _); [by vm_compute|].
  vm_compute in E. injection E as <-.
  apply (rbb_put_spec _ _ _ 1 (RbbBlk RT_RBB_BLK_INITED 50 1040)) in H as [_ H]; [done|by left|by vm_compute|done].
Qed.

Lemma rbb_demo_steps : rtc rbb_step rbb_demo0 rbb_demo3.
Proof.
  eapply rtc_l; [apply (step_alloc _ 40 (Some 2%nat) rbb_demo1); [by vm_compute|by vm_compute]|].
  eapply rtc_l; [apply (step_alloc _ 50 (Some 1%nat) rbb_demo2); [by vm_compute|by vm_compute]|].
  eapply rtc_l; [eapply (step_free _ 2%nat); by vm_compute|].
  eapply rtc_l; [eapply (step_put _ 1%nat); by vm_compute|]. apply rtc_refl.
Qed.

Lemma rbb_reachable_safe_witness :
  rt_rbb_init 1000 100 rbb_demo_blks 3 = Some rbb_demo0 /\ rtc rbb_step rbb_demo0 rbb_demo3 /\ rbb_safe rbb_demo3.
Proof.
  assert (rt_rbb_init 1000 100 rbb_demo_blks 3 = Some rbb_demo0) as E0 by (by vm_compute).
  split; [exact E0|]. split; [exact rbb_demo_steps|].
  destruct (rbb_reachable_safe 1000 100 rbb_demo_blks 3) as (r0 & E & H); [lia|lia|done|apply rbb_demo_dom|].
  rewrite E0 in E. injection E as <-. apply H, rbb_demo_steps.
Defined.

(** After the only block has been taken, [rt_rbb_blk_queue_get] reads the
    [next] field of a null pointer. *)
Example queue_get_null : rt_rbb_blk_queue_get 100 (0%nat, 0) rbb_demo3 = None.
Proof. by vm_compute. Qed.

(** The new block does not fit behind the last one; it is put at the start. *)
Lemma rbb_alloc_correct_witness :
  exists res r', rt_rbb_blk_alloc 30 rbb_demo3 = Some (res, r') /\ allocated [1]%nat [2; 0]%nat 30 rbb_demo3 res r'.
Proof. apply (rbb_alloc_correct [1]%nat [2; 0]%nat rbb_demo3 30); [apply rbb_demo3_ok|lia|by vm_compute]. Defined.

Lemma rbb_get_correct_witness :
  exists b, rb_blks rbb_demo3 !! 1%nat = Some b /\
    let r' := set_rb_blks (<[1%nat := set_blk_status RT_RBB_BLK_GET b]> (rb_blks rbb_demo3)) rbb_demo3 in
    rt_rbb_blk_get rbb_demo3 = Some (Some 1%nat, r') /\ rbb_ok [1]%nat [2; 0]%nat r'.
Proof.
  pose proof (rbb_get_correct [1]%nat [2; 0]%nat rbb_demo3 rbb_demo3_ok) as H. cbn [list_find] in H.
  rewrite decide_True in H by (exists (RbbBlk RT_RBB_BLK_PUT 50 1040); by vm_compute). exact H.
Defined.

Lemma rbb_free_correct_witness :
  exists r', rt_rbb_blk_free 2 rbb_demo2 = Some (tt, r') /\ rbb_ok [1]%nat [2; 0]%nat r' /\
    rb_blks r' = <[2%nat := RbbBlk RT_RBB_BLK_UNUSED 40 1000]> (rb_blks rbb_demo2).
Proof.
  apply (rbb_free_correct [] 2 [1]%nat [0]%nat rbb_demo2 (RbbBlk RT_RBB_BLK_INITED 40 1000)); [apply rbb_demo2_ok|by vm_compute].
Defined.
