(* ===== verification/Completion.v ===== *)
(** * Completions

    [drivers/ipc/completion.c]: one thread waits until another one, or an
    interrupt, is done. *)
From S2P Require Import Prelude Kservice Kernel Sched Object Timer Thread KernelInv Boot Ipc.

Definition RT_COMPLETED : Z := 1.
Definition RT_UNCOMPLETED : Z := 0.

Definition get_completion (c : nat) : M rt_completion := x ← gets (fun k => k_completions k !! c); deref x.
Definition put_completion (c : nat) (x : rt_completion) : M unit :=
  modify (fun k => set_k_completions (<[c := x]> (k_completions k)) k).
Definition set_cp_flag (c : nat) (flag : Z) : M unit :=
  get_completion c;; put_completion c (RtCompletion flag).

(** How the driver queues suspend their caller: always at the end of the list. *)
Definition suspend_last (list : waitq) (thread : nat) (timeout : Z) : M unit :=
  set_error thread RT_EOK;;
  rt_thread_suspend thread;;
  modify_tq (rt_list_insert_before list thread);;
  when (0 <? timeout) (start_thread_timer thread timeout);;
  rt_schedule.

(** How they wake the first thread of a list that is not empty. *)
Definition resume_first (list : waitq) : M unit :=
  thread ← list_first list;
  rt_thread_resume thread;;
  rt_schedule.

Definition rt_completion_init (completion : nat) : M unit :=
  put_completion completion (RtCompletion RT_UNCOMPLETED);;
  modify_tq (fun m => <[QCompletion completion := []]> m).

Definition rt_completion_wait (completion : nat) (timeout : Z) : M (outcome unit) :=
  RT_DEBUG_SCHEDULER_AVAILABLE (negb (timeout =? 0));;
  x ← get_completion completion;
  if negb (cp_flag x =? RT_COMPLETED) then
    empty ← gets (fun k => rt_list_isempty (QCompletion completion) (k_tq k));
    rt_assert empty;;
    if timeout =? 0 then mret (Ret (- RT_ETIMEOUT))
    else
      thread ← current_thread;
      suspend_last (QCompletion completion) thread timeout;;
      mret (Wait tt)
  else
    set_cp_flag completion RT_UNCOMPLETED;;
    mret (Ret RT_EOK).

(** The end of the call when [thread] runs again. *)
Definition rt_completion_wait_return (thread completion : nat) : M Z :=
  th ← get_thread thread;
  set_cp_flag completion RT_UNCOMPLETED;;
  mret (th_error th).

Definition rt_completion_done (completion : nat) : M unit :=
  x ← get_completion completion;
  if cp_flag x =? RT_COMPLETED then mret tt
  else
    set_cp_flag completion RT_COMPLETED;;
    empty ← gets (fun k => rt_list_isempty (QCompletion completion) (k_tq k));
    when (negb empty) (resume_first (QCompletion completion)).

(** ** Correctness *)

Lemma block_on_last q thread timeout k :
  (set_error thread RT_EOK;; block_on q thread RT_IPC_FLAG_FIFO timeout) k = suspend_last q thread timeout k.
Proof.
  unfold suspend_last, block_on, _ipc_list_suspend. mrun. destruct (set_error thread RT_EOK k) as [[u k1]|]; [|done].
  by destruct (rt_thread_suspend thread k1) as [[r k2]|].
Qed.

Lemma wake_waiter_first q k :
  wake_waiter q k =
    if rt_list_isempty q (k_tq k) then Some (RT_EOK, k)
    else match resume_first q k with Some (_, k') => Some (RT_EOK, k') | None => None end.
Proof.
  unfold wake_waiter, resume_first, _ipc_list_resume. mrun. destruct (rt_list_isempty q (k_tq k)); [done|].
  destruct (list_first q k) as [[t k1]|]; [|done]. destruct (rt_thread_resume t k1) as [[r k2]|]; [|done].
  by destruct (rt_schedule k2) as [[]|].
Qed.

(** [resume_first], if anybody waits. *)
Lemma resume_first_spec q k :
  kernel_ok k -> is_wait q -> is_Some (k_current k) ->
  exists k', when (negb (rt_list_isempty q (k_tq k))) (resume_first q) k = Some (tt, k') /\ handed q k k'.
Proof.
  intros Hok Hq Hc. destruct (wake_waiter_spec q k Hok Hq Hc) as (k' & E & H). exists k'. split; [|done].
  rewrite wake_waiter_first in E. destruct (rt_list_isempty q (k_tq k)); [by injection E as <-|]. simpl.
  destruct (resume_first q k) as [[[] k2]|]; [by injection E as <-|done].
Qed.

(** The caller waits at the end of [q]. *)
Definition waits_last (q : waitq) (c : nat) (th : rt_thread) (k k' : kstate) : Prop :=
  highest_running k' /\
  k_threads k' !! c = Some (with_stat RT_THREAD_SUSPEND (set_th_error RT_EOK th)) /\
  qget (k_tq k') q = qget (k_tq k) q ++ [c].

Lemma suspend_last_spec q c th timeout k :
  kernel_ok k -> is_wait q -> timeout < RT_TICK_MAX / 2 -> can_block k c th ->
  exists k', suspend_last q c timeout k = Some (tt, k') /\ kernel_ok k' /\ obj_frame k k' /\
    is_Some (k_current k') /\ waits_last q c th k k' /\
    (forall q', q' <> q -> (forall p, q' <> QReady p) -> qget (k_tq k') q' = qget (k_tq k) q') /\
    (0 < timeout -> TmThread c ∈ qget (k_tmq k') TLHard /\
       exists tm, k_timers k' !! TmThread c = Some tm /\ tm_timeout_tick tm = u32 (k_tick k + timeout)) /\
    (timeout <= 0 -> forall l, is_global l -> TmThread c ∉ qget (k_tmq k') l).
Proof.
  intros Hok Hq Hto Hcb.
  destruct (block_caller q c th RT_IPC_FLAG_FIFO timeout k) as (k' & E & B); try done; [by left|].
  rewrite block_on_last in E. exists k'. split; [done|]. split; [apply B|].
  split; [transitivity (thread_st c (set_th_error RT_EOK th) k); [done|apply B]|]. split; [apply B|].
  split; [|split; [|split]].
  - split; [apply B, Hcb|]. split; [apply B|].
    destruct (bo_queue _ _ _ _ _ _ _ B) as (l1 & l2 & Hl & Hl' & Hp & _). rewrite (Hp eq_refl) in *.
    change (k_tq (thread_st _ _ k)) with (k_tq k) in Hl. by rewrite Hl', Hl, app_nil_r.
  - intros q' Hne Hr. by apply (bo_tq _ _ _ _ _ _ _ B).
  - intros Hp. apply (bo_timer _ _ _ _ _ _ _ B Hp).
  - intros Hn l. by apply (bo_no_timer _ _ _ _ _ _ _ B).
Qed.

(** A thread waits only for what is not done, and at most one does. *)
Record completion_ok (k : kstate) (c : nat) (flag : Z) : Prop := CompletionOk {
  co_lookup : k_completions k !! c = Some (RtCompletion flag);
  co_flag : flag = RT_COMPLETED \/ flag = RT_UNCOMPLETED;
  co_done : flag = RT_COMPLETED -> qget (k_tq k) (QCompletion c) = [];
  co_one : (length (qget (k_tq k) (QCompletion c)) <= 1)%nat
}.

Definition completion_st (c : nat) (flag : Z) (k : kstate) : kstate :=
  set_k_completions (<[c := RtCompletion flag]> (k_completions k)) k.

Lemma completion_st_kernel_ok c flag k : kernel_ok k -> kernel_ok (completion_st c flag k).
Proof. by apply kernel_ok_objects. Qed.

Lemma get_completion_eq c x k : k_completions k !! c = Some x -> get_completion c k = Some (x, k).
Proof. intros H. unfold get_completion. mrun. by rewrite H. Qed.

Lemma set_cp_flag_eq c x flag k :
  k_completions k !! c = Some x -> set_cp_flag c flag k = Some (tt, completion_st c flag k).
Proof. intros H. unfold set_cp_flag. by rewrite bind_unfold, (get_completion_eq c x). Qed.

(** [rt_completion_wait]: a completion that is done is used up at once. Else a
    caller that does not want to wait is refused with [-RT_ETIMEOUT] and
    nothing changes; any other caller becomes the waiting thread, with its
    timer armed for a finite timeout. Waiting where another thread waits
    already fails an assertion. *)
Theorem completion_wait_correct k cp flag c th timeout :
  kernel_ok k -> completion_ok k cp flag -> can_block k c th -> timeout < RT_TICK_MAX / 2 ->
  if decide (flag = RT_COMPLETED) then
    rt_completion_wait cp timeout k = Some (Ret RT_EOK, completion_st cp RT_UNCOMPLETED k) /\
    completion_ok (completion_st cp RT_UNCOMPLETED k) cp RT_UNCOMPLETED
  else if decide (qget (k_tq k) (QCompletion cp) = []) then
    if decide (timeout = 0) then rt_completion_wait cp timeout k = Some (Ret (- RT_ETIMEOUT), k)
    else exists k', rt_completion_wait cp timeout k = Some (Wait tt, k') /\ kernel_ok k' /\
      completion_ok k' cp RT_UNCOMPLETED /\ waits_last (QCompletion cp) c th k k' /\
      (0 < timeout -> exists tm, k_timers k' !! TmThread c = Some tm /\
         tm_timeout_tick tm = u32 (k_tick k + timeout))
  else rt_completion_wait cp timeout k = None.
Proof.
  intros Hok [Hx Hf Hd Ho] Hcb Hto. unfold rt_completion_wait.
  rewrite bind_unfold, (scheduler_available k c th) by done.
  rewrite bind_unfold, (get_completion_eq cp _ k Hx). cbn [cp_flag].
  destruct (decide (flag = RT_COMPLETED)) as [->|Hn].
  { rewrite Z.eqb_refl. cbn [negb]. rewrite bind_unfold, (set_cp_flag_eq cp _ _ k Hx). split; [done|].
    constructor; [apply lookup_insert_eq|by right|done|done]. }
  rewrite (proj2 (Z.eqb_neq flag RT_COMPLETED)) by done. cbn [negb]. destruct Hf as [|Hf]; [done|]. subst flag.
  rewrite bind_gets. unfold rt_list_isempty.
  destruct (qget (k_tq k) (QCompletion cp)) as [|t l] eqn:El; [|rewrite decide_False by done; reflexivity].
  rewrite decide_True by done. rewrite bind_unfold. cbn [rt_assert].
  destruct (decide (timeout = 0)) as [->|Ht]; [done|]. rewrite (proj2 (Z.eqb_neq timeout 0)) by done.
  rewrite bind_unfold, (current_thread_eq k c) by apply Hcb.
  destruct (suspend_last_spec (QCompletion cp) c th timeout k) as (k' & E & Hok' & F & Hc & W & _ & Ha & _); try done.
  rewrite bind_unfold, E. exists k'. split; [done|]. split; [done|]. split; [|split; [done|]].
  - destruct W as (_ & _ & Hq). rewrite El in Hq. constructor; [by rewrite (of_completions _ _ F)|by right|done|].
    by rewrite Hq.
  - intros Hp. apply Ha. done.
Qed.

(** [rt_completion_done]: with nobody waiting it is noted; a second [done]
    changes nothing. A waiting thread is made runnable, its timer no longer
    runs and the scheduler has been called; its call then returns the code it
    was suspended with, [RT_EOK], and uses the completion up. *)
Theorem completion_done_correct k cp flag :
  kernel_ok k -> completion_ok k cp flag -> is_Some (k_current k) -> k_lock_nest k = 0 ->
  exists k', rt_completion_done cp k = Some (tt, k') /\ kernel_ok k' /\ completion_ok k' cp RT_COMPLETED /\
    match qget (k_tq k) (QCompletion cp) with
    | [] => k' = completion_st cp RT_COMPLETED k
    | t :: _ => highest_running k' /\ exists th, k_threads k !! t = Some th /\ runnable k' t th /\
        rt_completion_wait_return t cp k' = Some (th_error th, completion_st cp RT_UNCOMPLETED k')
    end.
Proof.
  intros Hok [Hx Hf Hd Ho] Hc Hl. unfold rt_completion_done. rewrite bind_unfold, (get_completion_eq cp _ k Hx). cbn [cp_flag].
  destruct (Z.eqb_spec flag RT_COMPLETED) as [->|Hn].
  { rewrite (Hd eq_refl). assert (completion_st cp RT_COMPLETED k = k) as Ek.
    { unfold completion_st. rewrite insert_id by done. by destruct k. }
    exists k. split; [done|]. split; [done|]. split; [|by rewrite Ek]. constructor; [done|by left|done|done]. }
  set (k1 := completion_st cp RT_COMPLETED k).
  rewrite bind_unfold, (set_cp_flag_eq cp _ _ k Hx). fold k1. rewrite bind_gets.
  destruct (resume_first_spec (QCompletion cp) k1) as (k' & E & H); [by apply completion_st_kernel_ok|done|done|].
  exists k'. split; [exact E|]. split; [apply H|].
  assert (k_completions k' !! cp = Some (RtCompletion RT_COMPLETED)) as Hx'.
  { rewrite (of_completions _ _ (ha_frame _ _ _ H)). apply lookup_insert_eq. }
  pose proof (ha_queue _ _ _ H) as Hq. change (k_tq k1) with (k_tq k) in Hq.
  split.
  { assert (qget (k_tq k') (QCompletion cp) = []) as Hq'.
    { rewrite Hq. revert Ho. destruct (qget (k_tq k) (QCompletion cp)) as [|? [|? ?]]; simpl; intros; (done || lia). }
    constructor; [done|by left|done|]. rewrite Hq'. simpl. lia. }
  pose proof (ha_first _ _ _ H) as Hw. pose proof (ha_idle _ _ _ H) as Hi. change (k_tq k1) with (k_tq k) in Hw, Hi.
  destruct (qget (k_tq k) (QCompletion cp)) as [|t l]; [by apply Hi|].
  destruct (Hw t eq_refl) as (th & Hth & Hr & Hh). split; [by apply Hh|]. exists th. split; [done|]. split; [done|].
  destruct Hr as (s & Hs & _). unfold rt_completion_wait_return. rewrite bind_unfold, (get_thread_eq t k' _ Hs).
  by rewrite bind_unfold, (set_cp_flag_eq cp _ _ k' Hx').
Qed.

(** ** A concrete completion *)

(** Completion 0; the main thread waits for it for five ticks. *)
Definition completion_demo : kstate := after (rt_completion_init 0) demo_state.
Definition completion_demo_waiting : kstate := after (rt_completion_wait 0 5) completion_demo.

Ltac concrete_completion :=
  constructor; [vm_compute; reflexivity|vm_compute; auto
    |first [intros; vm_compute; reflexivity | let H := fresh in intros H; vm_compute in H; discriminate H]
    |apply Nat.leb_le; vm_compute; reflexivity].

Lemma completion_wait_correct_witness :
  exists k', rt_completion_wait 0 5 completion_demo = Some (Wait tt, k') /\ kernel_ok k' /\
    completion_ok k' 0 RT_UNCOMPLETED.
Proof.
  pose proof (completion_wait_correct completion_demo 0 RT_UNCOMPLETED 0 (thread_at 0 completion_demo) 5) as H.
  rewrite decide_False in H by discriminate.
  replace (qget (k_tq completion_demo) (QCompletion 0)) with (@nil nat) in H by (vm_compute; reflexivity).
  rewrite decide_True, decide_False in H by (reflexivity || discriminate). destruct H as (k' & E & Hok & Hco & _).
  - apply kernel_check_sound. vm_compute. reflexivity.
  - concrete_completion.
  - constructor; vm_compute; reflexivity.
  - vm_compute. reflexivity.
  - exists k'. split; [exact E|]. split; assumption.
Defined.

Lemma completion_done_correct_witness :
  exists k', rt_completion_done 0 completion_demo_waiting = Some (tt, k') /\
    rt_completion_wait_return 0 0 k' = Some (RT_EOK, completion_st 0 RT_UNCOMPLETED k').
Proof.
  destruct (completion_done_correct completion_demo_waiting 0 RT_UNCOMPLETED) as (k' & E & _ & _ & H).
  - apply kernel_check_sound. vm_compute. reflexivity.
  - concrete_completion.
  - vm_compute. eauto.
  - vm_compute. reflexivity.
  - exists k'. split; [exact E|]. revert H.
    replace (qget (k_tq completion_demo_waiting) (QCompletion 0)) with [0%nat] by (vm_compute; reflexivity).
    intros (_ & th & Hth & _ & Hr). rewrite Hr.
    assert (th_error <$> (k_threads completion_demo_waiting !! 0%nat) = Some RT_EOK) as He by (vm_compute; reflexivity).
    rewrite Hth in He. injection He as ->. reflexivity.
Defined.
