(* ===== verification/DataQueue.v ===== *)
(** * Data queues

    [drivers/ipc/dataqueue.c]: a bounded queue of (pointer, size) items on
    which both ends can wait. *)
From S2P Require Import Prelude Kservice Kernel Sched Object Timer Thread KernelInv Boot Ipc IpcQueue Completion.

Definition DATAQUEUE_MAGIC : Z := 0xbead0e0e.
Definition RT_DATAQUEUE_EVENT_POP : Z := 1.
Definition RT_DATAQUEUE_EVENT_PUSH : Z := 2.
Definition RT_DATAQUEUE_EVENT_LWM : Z := 3.
Definition RT_EEMPTY : Z := 4.

Definition get_dq (q : nat) : M rt_data_queue := d ← gets (fun k => k_dqs k !! q); deref d.
Definition put_dq (q : nat) (d : rt_data_queue) : M unit :=
  modify (fun k => set_k_dqs (<[q := d]> (k_dqs k)) k).
Definition assert_magic (q : nat) : M unit := d ← get_dq q; rt_assert (dq_magic d =? DATAQUEUE_MAGIC).

(** The indices and the two flags. *)
Definition set_dq_index (get : Z) (empty : bool) (put : Z) (full : bool) (d : rt_data_queue) : rt_data_queue :=
  RtDataQueue (dq_magic d) (dq_size d) (dq_lwm d) get empty put full (dq_queue d) (dq_notify d).
Definition set_dq_queue (queue : option (list rt_data_item)) (d : rt_data_queue) : rt_data_queue :=
  RtDataQueue (dq_magic d) (dq_size d) (dq_lwm d) (dq_get_index d) (dq_is_empty d) (dq_put_index d) (dq_is_full d)
    queue (dq_notify d).
Definition set_dq_magic (magic : Z) (d : rt_data_queue) : rt_data_queue :=
  RtDataQueue magic (dq_size d) (dq_lwm d) (dq_get_index d) (dq_is_empty d) (dq_put_index d) (dq_is_full d)
    (dq_queue d) (dq_notify d).

(** How a call ends: it has suspended its caller, or it returns a code, the
    item that [rt_data_queue_pop] stores through its pointers, and the event
    with which it calls [evt_notify] as the last thing it does. *)
Inductive dq_result := DqWait | DqDone (r : Z) (item : option rt_data_item) (event : option Z).

Definition notified (event : Z) (d : rt_data_queue) : option Z := if dq_notify d then Some event else None.

(** [queue] is what [rt_malloc] returns. *)
Definition rt_data_queue_init (q : nat) (size lwm : Z) (evt_notify : bool) (queue : option (list rt_data_item)) : M Z :=
  rt_assert (0 <? size);;
  put_dq q (RtDataQueue DATAQUEUE_MAGIC size lwm 0 true 0 false queue evt_notify);;
  modify_tq (fun m => <[QDqPush q := []]> m);;
  modify_tq (fun m => <[QDqPop q := []]> m);;
  mret (match queue with None => - RT_ENOMEM | Some _ => RT_EOK end).

(** One round of the loop of [rt_data_queue_push] and, if there is room, the
    rest of the call. *)
Definition dq_store (q : nat) (item : rt_data_item) : M unit :=
  d ← get_dq q;
  items ← deref (dq_queue d);
  rt_assert (dq_put_index d <? Z.of_nat (length items));;
  let put := u15 (dq_put_index d + 1) in
  let put := if put =? dq_size d then 0 else put in
  put_dq q (set_dq_queue (Some (<[Z.to_nat (dq_put_index d) := item]> items))
    (set_dq_index (dq_get_index d) false put (if put =? dq_get_index d then true else dq_is_full d) d)).

Definition dq_push_loop (q : nat) (item : rt_data_item) (timeout : Z) : M dq_result :=
  d ← get_dq q;
  if dq_is_full d then
    if timeout =? 0 then mret (DqDone (- RT_ETIMEOUT) None None)
    else
      thread ← current_thread;
      suspend_last (QDqPush q) thread timeout;;
      mret DqWait
  else
    dq_store q item;;
    empty ← gets (fun k => rt_list_isempty (QDqPop q) (k_tq k));
    if negb empty then
      resume_first (QDqPop q);;
      mret (DqDone RT_EOK None None)
    else
      d ← get_dq q;
      mret (DqDone RT_EOK None (notified RT_DATAQUEUE_EVENT_PUSH d)).

Definition rt_data_queue_push (q : nat) (item : rt_data_item) (timeout : Z) : M dq_result :=
  assert_magic q;;
  RT_DEBUG_SCHEDULER_AVAILABLE (negb (timeout =? 0));;
  dq_push_loop q item timeout.

(** When the waiting [thread] runs again; the next wait gets the whole
    [timeout] again. *)
Definition rt_data_queue_push_resume (thread q : nat) (item : rt_data_item) (timeout : Z) : M dq_result :=
  th ← get_thread thread;
  if negb (th_error th =? RT_EOK) then mret (DqDone (th_error th) None None)
  else dq_push_loop q item timeout.

Definition rt_data_queue_len (q : nat) : M Z :=
  assert_magic q;;
  d ← get_dq q;
  if dq_is_empty d then mret 0
  else mret (u16 (s16 (if dq_get_index d <? dq_put_index d then dq_put_index d - dq_get_index d
                       else dq_size d + dq_put_index d - dq_get_index d))).

Definition dq_fetch (q : nat) : M rt_data_item :=
  d ← get_dq q;
  items ← deref (dq_queue d);
  item ← deref (items !! Z.to_nat (dq_get_index d));
  let get := u15 (dq_get_index d + 1) in
  let get := if get =? dq_size d then 0 else get in
  put_dq q (set_dq_index get (if dq_put_index d =? get then true else dq_is_empty d) (dq_put_index d) false d);;
  mret item.

Definition dq_pop_loop (q : nat) (timeout : Z) : M dq_result :=
  d ← get_dq q;
  if dq_is_empty d then
    if timeout =? 0 then mret (DqDone (- RT_ETIMEOUT) None None)
    else
      thread ← current_thread;
      suspend_last (QDqPop q) thread timeout;;
      mret DqWait
  else
    item ← dq_fetch q;
    len ← rt_data_queue_len q;
    d ← get_dq q;
    if len <=? dq_lwm d then
      empty ← gets (fun k => rt_list_isempty (QDqPush q) (k_tq k));
      when (negb empty) (resume_first (QDqPush q));;
      d ← get_dq q;
      mret (DqDone RT_EOK (Some item) (notified RT_DATAQUEUE_EVENT_LWM d))
    else mret (DqDone RT_EOK (Some item) (notified RT_DATAQUEUE_EVENT_POP d)).

Definition rt_data_queue_pop (q : nat) (timeout : Z) : M dq_result :=
  assert_magic q;;
  RT_DEBUG_SCHEDULER_AVAILABLE (negb (timeout =? 0));;
  dq_pop_loop q timeout.
Definition rt_data_queue_pop_resume (thread q : nat) (timeout : Z) : M dq_result :=
  th ← get_thread thread;
  if negb (th_error th =? RT_EOK) then mret (DqDone (th_error th) None None)
  else dq_pop_loop q timeout.

Definition rt_data_queue_peek (q : nat) : M (Z * option rt_data_item) :=
  assert_magic q;;
  d ← get_dq q;
  if dq_is_empty d then mret (- RT_EEMPTY, None)
  else
    items ← deref (dq_queue d);
    item ← deref (items !! Z.to_nat (dq_get_index d));
    mret (RT_EOK, Some item).

Definition rt_data_queue_reset (q : nat) : M unit :=
  assert_magic q;;
  d ← get_dq q;
  put_dq q (set_dq_index 0 true 0 false d);;
  rt_enter_critical;;
  _ipc_list_resume_all (QDqPop q);;
  _ipc_list_resume_all (QDqPush q);;
  rt_exit_critical;;
  rt_schedule.

(** [rt_free] leaves nothing at [queue]. *)
Definition rt_data_queue_deinit (q : nat) : M Z :=
  assert_magic q;;
  rt_data_queue_reset q;;
  d ← get_dq q;
  put_dq q (set_dq_queue None (set_dq_magic 0 d));;
  mret RT_EOK.

(** ** The circular array of items *)

(** From index [get] on, [items] has [ms]. *)
Definition held (items : list rt_data_item) (size get : Z) (ms : list rt_data_item) : Prop :=
  forall i m, ms !! i = Some m -> items !! Z.to_nat (slot size (get + Z.of_nat i)) = Some m.

Lemma held_push items size get ms m :
  0 <= get < size -> Z.of_nat (length items) = size -> Z.of_nat (length ms) < size -> held items size get ms ->
  held (<[Z.to_nat (slot size (get + Z.of_nat (length ms))) := m]> items) size get (ms ++ [m]).
Proof.
  intros Hg Hi Hn H i m' Hm. pose proof (lookup_lt_Some _ _ _ Hm) as Hlt. rewrite length_app in Hlt. simpl in Hlt.
  pose proof (slot_bound size (get + Z.of_nat (length ms)) ltac:(lia)).
  destruct (decide (i = length ms)) as [->|Hne].
  - rewrite list_lookup_insert_eq by lia. rewrite lookup_app_r, Nat.sub_diag in Hm by lia. done.
  - rewrite lookup_app_l in Hm by lia. rewrite list_lookup_insert_ne; [by apply H|].
    unfold slot. zcases; lia.
Qed.

Lemma held_pop items size get m ms :
  0 <= get < size -> Z.of_nat (length (m :: ms)) <= size -> held items size get (m :: ms) ->
  items !! Z.to_nat get = Some m /\ held items size (slot size (get + 1)) ms.
Proof.
  intros Hg Hn H. split.
  - specialize (H 0%nat m eq_refl). replace (slot size (get + Z.of_nat 0)) with get in H; [done|].
    unfold slot. destruct (Z.ltb_spec (get + Z.of_nat 0) size); lia.
  - intros i m' Hm. specialize (H (S i) m' Hm). apply lookup_lt_Some in Hm. simpl in Hn.
    replace (slot size (slot size (get + 1) + Z.of_nat i)) with (slot size (get + Z.of_nat (S i))); [done|].
    unfold slot. zcases; lia.
Qed.

Lemma next_index size i : 0 <= i < size -> size <= 32767 ->
  (if u15 (i + 1) =? size then 0 else u15 (i + 1)) = slot size (i + 1).
Proof.
  intros. rewrite u15_small by lia. unfold slot. destruct (Z.eqb_spec (i + 1) size), (Z.ltb_spec (i + 1) size); lia.
Qed.

(** ** Correctness *)

Record dq_ok (k : kstate) (q : nat) (d : rt_data_queue) (ms : list rt_data_item) : Prop := DqOk {
  qo_lookup : k_dqs k !! q = Some d;
  qo_magic : dq_magic d = DATAQUEUE_MAGIC;
  qo_size : 0 < dq_size d <= 32767;
  qo_items : exists items, dq_queue d = Some items /\ Z.of_nat (length items) = dq_size d /\
    held items (dq_size d) (dq_get_index d) ms;
  qo_get : 0 <= dq_get_index d < dq_size d;
  qo_len : Z.of_nat (length ms) <= dq_size d;
  qo_put : dq_put_index d = slot (dq_size d) (dq_get_index d + Z.of_nat (length ms));
  qo_empty : dq_is_empty d = bool_decide (ms = []);
  qo_full : dq_is_full d = bool_decide (Z.of_nat (length ms) = dq_size d)
}.

Definition dq_st (q : nat) (d : rt_data_queue) (k : kstate) : kstate :=
  set_k_dqs (<[q := d]> (k_dqs k)) k.

(** What no push and no pop changes of a queue. *)
Definition same_dq (d d' : rt_data_queue) : Prop :=
  dq_size d' = dq_size d /\ dq_lwm d' = dq_lwm d /\ dq_notify d' = dq_notify d.

Lemma get_dq_eq q d k : k_dqs k !! q = Some d -> get_dq q k = Some (d, k).
Proof. intros H. unfold get_dq. mrun. by rewrite H. Qed.

Lemma dq_st_kernel_ok q d k : kernel_ok k -> kernel_ok (dq_st q d k).
Proof. by apply kernel_ok_objects. Qed.

Lemma dq_ok_frame k k' q d ms : dq_ok k q d ms -> k_dqs k' = k_dqs k -> dq_ok k' q d ms.
Proof. intros [] E. constructor; try done. by rewrite E. Qed.

Lemma assert_magic_eq k q d ms : dq_ok k q d ms -> assert_magic q k = Some (tt, k).
Proof.
  intros H. unfold assert_magic. rewrite bind_unfold, (get_dq_eq q d) by apply H. by rewrite (qo_magic _ _ _ _ H).
Qed.

Lemma dq_store_spec k q d ms m :
  dq_ok k q d ms -> Z.of_nat (length ms) < dq_size d ->
  exists d', dq_store q m k = Some (tt, dq_st q d' k) /\ dq_ok (dq_st q d' k) q d' (ms ++ [m]) /\ same_dq d d'.
Proof.
  intros [Hq Hm Hs (items & Ei & Hi & Hh) Hg Hl Hp He Hf] Hlt. unfold dq_store.
  rewrite bind_unfold, (get_dq_eq q d k Hq), bind_unfold, Ei. cbn [deref].
  pose proof (slot_bound (dq_size d) (dq_get_index d + Z.of_nat (length ms)) ltac:(lia)) as Hb. rewrite <- Hp in Hb.
  rewrite bind_unfold. unfold rt_assert. rewrite (proj2 (Z.ltb_lt _ _)) by lia. cbv zeta. rewrite next_index by lia.
  eexists. split; [done|]. split; [|done]. constructor; cbn [dq_magic dq_size dq_lwm dq_get_index dq_is_empty dq_put_index
    dq_is_full dq_queue dq_notify set_dq_queue set_dq_index]; try done.
  - apply lookup_insert_eq.
  - eexists. split; [done|]. split; [by rewrite length_insert|]. rewrite Hp. by apply held_push.
  - rewrite length_app. simpl. lia.
  - rewrite Hp, length_app. simpl. unfold slot. zcases; lia.
  - symmetry. apply bool_decide_eq_false_2. by destruct ms.
  - rewrite Hf, Hp, length_app. simpl. rewrite (bool_decide_eq_false_2 (Z.of_nat (length ms) = dq_size d)) by lia.
    unfold slot. symmetry. zcases; first [apply bool_decide_eq_true_2; lia|apply bool_decide_eq_false_2; lia|exfalso; lia].
Qed.

Lemma dq_fetch_spec k q d m ms :
  dq_ok k q d (m :: ms) ->
  exists d', dq_fetch q k = Some (m, dq_st q d' k) /\ dq_ok (dq_st q d' k) q d' ms /\ same_dq d d'.
Proof.
  intros [Hq Hm Hs (items & Ei & Hi & Hh) Hg Hl Hp He Hf]. unfold dq_fetch.
  rewrite bind_unfold, (get_dq_eq q d k Hq), bind_unfold, Ei. cbn [deref].
  destruct (held_pop _ _ _ _ _ Hg Hl Hh) as [E Hh']. rewrite bind_unfold, E. cbn [deref]. cbv zeta.
  rewrite next_index by lia. simpl in Hl, Hp. eexists. split; [done|]. split; [|done].
  constructor; cbn [dq_magic dq_size dq_lwm dq_get_index dq_is_empty dq_put_index
    dq_is_full dq_queue dq_notify set_dq_queue set_dq_index]; try done.
  - apply lookup_insert_eq.
  - by exists items.
  - apply slot_bound. lia.
  - lia.
  - rewrite Hp. unfold slot. zcases; lia.
  - rewrite He, Hp, (bool_decide_eq_false_2 (m :: ms = [])) by done.
    assert (bool_decide (ms = []) = (Z.of_nat (length ms) =? 0)) as -> by (by destruct ms).
    unfold slot. zcases; first [done|exfalso; lia].
  - symmetry. apply bool_decide_eq_false_2. lia.
Qed.

(** [rt_data_queue_len] is the number of items in the queue. *)
Lemma dq_len_spec k q d ms : dq_ok k q d ms -> rt_data_queue_len q k = Some (Z.of_nat (length ms), k).
Proof.
  intros H. pose proof H as [Hq Hm Hs _ Hg Hl Hp He Hf]. unfold rt_data_queue_len.
  rewrite bind_unfold, (assert_magic_eq k q d ms H), bind_unfold, (get_dq_eq q d k Hq), He.
  clear He Hf; case_bool_decide as Hn; [by subst ms|]. unfold mret, St_ret. do 2 f_equal.
  assert (0 < Z.of_nat (length ms)) by (destruct ms; [done|simpl; lia]).
  replace (if _ <? _ then _ else _) with (Z.of_nat (length ms)).
  - unfold s16. rewrite u16_small; [dlia|]. dlia.
  - rewrite Hp. unfold slot. zcases; lia.
Qed.

(** The end of both calls, when a thread of [list] may be woken. *)
Lemma dq_wake_spec k q d ms list :
  kernel_ok (dq_st q d k) -> dq_ok (dq_st q d k) q d ms -> is_wait list -> is_Some (k_current k) -> k_lock_nest k = 0 ->
  exists k', when (negb (rt_list_isempty list (k_tq k))) (resume_first list) (dq_st q d k) = Some (tt, k') /\
    kernel_ok k' /\ dq_ok k' q d ms /\ served list k k'.
Proof.
  intros Hok Hq Hl Hc Hn. destruct (resume_first_spec list (dq_st q d k) Hok Hl Hc) as (k' & E & H).
  exists k'. split; [exact E|]. split; [apply H|]. split; [apply (dq_ok_frame _ _ _ _ _ Hq), H|].
  by apply (handed_served _ _ (dq_st q d k)).
Qed.

(** The caller has to wait, or is refused. *)
Lemma dq_wait_spec k q d ms c th list timeout :
  kernel_ok k -> dq_ok k q d ms -> can_block k c th -> is_wait list -> timeout < RT_TICK_MAX / 2 -> timeout <> 0 ->
  exists k', (thread ← current_thread; suspend_last list thread timeout;; mret DqWait) k = Some (DqWait, k') /\
    kernel_ok k' /\ dq_ok k' q d ms /\ waits_last list c th k k'.
Proof.
  intros Hok Hq Hcb Hl Hto Ht. rewrite bind_unfold, (current_thread_eq k c) by apply Hcb.
  destruct (suspend_last_spec list c th timeout k) as (k' & E & Hok' & F & _ & W & _); try done.
  rewrite bind_unfold, E. exists k'. split; [done|]. split; [done|]. split; [|done].
  by apply (dq_ok_frame _ _ _ _ _ Hq), F.
Qed.

(** What a push, and a pop, have done. *)
Definition dq_pushed (q : nat) (d : rt_data_queue) (ms : list rt_data_item) (item : rt_data_item) (timeout : Z)
    (c : nat) (th : rt_thread) (k : kstate) (r : dq_result) (k' : kstate) : Prop :=
  if decide (Z.of_nat (length ms) < dq_size d) then
    exists d', dq_ok k' q d' (ms ++ [item]) /\ same_dq d d' /\ served (QDqPop q) k k' /\
      r = DqDone RT_EOK None (match qget (k_tq k) (QDqPop q) with
                              | [] => notified RT_DATAQUEUE_EVENT_PUSH d | _ => None end)
  else if decide (timeout = 0) then r = DqDone (- RT_ETIMEOUT) None None /\ k' = k
  else r = DqWait /\ dq_ok k' q d ms /\ waits_last (QDqPush q) c th k k'.

Definition dq_popped (q : nat) (d : rt_data_queue) (ms : list rt_data_item) (timeout : Z)
    (c : nat) (th : rt_thread) (k : kstate) (r : dq_result) (k' : kstate) : Prop :=
  match ms with
  | item :: ms =>
      exists d', dq_ok k' q d' ms /\ same_dq d d' /\
        if Z.of_nat (length ms) <=? dq_lwm d then
          served (QDqPush q) k k' /\ r = DqDone RT_EOK (Some item) (notified RT_DATAQUEUE_EVENT_LWM d)
        else k' = dq_st q d' k /\ r = DqDone RT_EOK (Some item) (notified RT_DATAQUEUE_EVENT_POP d)
  | [] =>
      if decide (timeout = 0) then r = DqDone (- RT_ETIMEOUT) None None /\ k' = k
      else r = DqWait /\ dq_ok k' q d [] /\ waits_last (QDqPop q) c th k k'
  end.

Lemma dq_push_loop_spec k q d ms item c th timeout :
  kernel_ok k -> dq_ok k q d ms -> can_block k c th -> timeout < RT_TICK_MAX / 2 ->
  exists r k', dq_push_loop q item timeout k = Some (r, k') /\ kernel_ok k' /\ dq_pushed q d ms item timeout c th k r k'.
Proof.
  intros Hok Hq Hcb Hto. unfold dq_push_loop, dq_pushed. rewrite bind_unfold, (get_dq_eq q d) by apply Hq.
  rewrite (qo_full _ _ _ _ Hq). pose proof (qo_len _ _ _ _ Hq).
  destruct (decide (Z.of_nat (length ms) < dq_size d)) as [Hlt|Hge].
  - rewrite bool_decide_eq_false_2 by lia. destruct (dq_store_spec k q d ms item Hq Hlt) as (d' & E & Hq' & Hs).
    rewrite bind_unfold, E, bind_gets. change (k_tq (dq_st q d' k)) with (k_tq k).
    destruct (dq_wake_spec k q d' (ms ++ [item]) (QDqPop q)) as (k' & Ew & Hok' & Hqk & Hserv);
      [by apply dq_st_kernel_ok|done|done|rewrite (cb_current _ _ _ Hcb); eauto|apply Hcb|].
    unfold rt_list_isempty in *. destruct (qget (k_tq k) (QDqPop q)); cbn [negb when] in *.
    + injection Ew as <-. rewrite bind_unfold, (get_dq_eq q d') by apply Hq'. eexists _, _. split; [done|].
      split; [done|]. exists d'. split; [done|]. split; [done|]. split; [done|].
      unfold notified. destruct Hs as (_ & _ & ->). done.
    + rewrite bind_unfold, Ew. eexists _, k'. split; [done|]. split; [done|]. by exists d'.
  - rewrite bool_decide_eq_true_2 by lia. destruct (decide (timeout = 0)) as [->|Ht]; [by eexists _, k|].
    rewrite (proj2 (Z.eqb_neq timeout 0)) by done.
    destruct (dq_wait_spec k q d ms c th (QDqPush q) timeout) as (k' & E & ? & ? & ?); try done. by exists DqWait, k'.
Qed.

Lemma dq_pop_loop_spec k q d ms c th timeout :
  kernel_ok k -> dq_ok k q d ms -> can_block k c th -> timeout < RT_TICK_MAX / 2 ->
  exists r k', dq_pop_loop q timeout k = Some (r, k') /\ kernel_ok k' /\ dq_popped q d ms timeout c th k r k'.
Proof.
  intros Hok Hq Hcb Hto. unfold dq_pop_loop, dq_popped. rewrite bind_unfold, (get_dq_eq q d) by apply Hq.
  rewrite (qo_empty _ _ _ _ Hq). destruct ms as [|item ms].
  - rewrite bool_decide_eq_true_2 by done. destruct (decide (timeout = 0)) as [->|Ht]; [by eexists _, k|].
    rewrite (proj2 (Z.eqb_neq timeout 0)) by done.
    destruct (dq_wait_spec k q d [] c th (QDqPop q) timeout) as (k' & E & ? & ? & ?); try done. by exists DqWait, k'.
  - rewrite bool_decide_eq_false_2 by done. destruct (dq_fetch_spec k q d item ms Hq) as (d' & E & Hq' & Hs).
    rewrite bind_unfold, E, bind_unfold, (dq_len_spec _ q d' ms Hq'), bind_unfold, (get_dq_eq q d') by apply Hq'.
    pose proof Hs as (_ & -> & En).
    assert (forall e, notified e d' = notified e d) as Hn by (intros e; unfold notified; by rewrite En).
    destruct (Z.of_nat (length ms) <=? dq_lwm d).
    + rewrite bind_gets. change (k_tq (dq_st q d' k)) with (k_tq k).
      destruct (dq_wake_spec k q d' ms (QDqPush q)) as (k' & Ew & Hok' & Hqk & Hserv);
        [by apply dq_st_kernel_ok|done|done|rewrite (cb_current _ _ _ Hcb); eauto|apply Hcb|].
      rewrite bind_unfold, Ew, bind_unfold, (get_dq_eq q d') by apply Hqk. rewrite Hn.
      eexists _, k'. split; [done|]. split; [done|]. by exists d'.
    + rewrite Hn. eexists _, _. split; [done|]. split; [by apply dq_st_kernel_ok|]. by exists d'.
Qed.

(** [rt_data_queue_push]: with room the item goes behind those that are there
    and the first thread waiting for an item, if any, is woken; without one
    the owner is notified. On a full queue a caller that does not want to wait
    is refused with [-RT_ETIMEOUT] and nothing changes; any other caller waits
    at the end of the list of pushers. A pusher that runs again does the same,
    unless it was woken with an error, which it returns. *)
Theorem dq_push_correct k q d ms item c th timeout :
  kernel_ok k -> dq_ok k q d ms -> can_block k c th -> timeout < RT_TICK_MAX / 2 ->
  (exists r k', rt_data_queue_push q item timeout k = Some (r, k') /\ kernel_ok k' /\
     dq_pushed q d ms item timeout c th k r k') /\
  (exists r k', rt_data_queue_push_resume c q item timeout k = Some (r, k') /\ kernel_ok k' /\
     if decide (th_error th = RT_EOK) then dq_pushed q d ms item timeout c th k r k'
     else r = DqDone (th_error th) None None /\ k' = k).
Proof.
  intros Hok Hq Hcb Hto. destruct (dq_push_loop_spec k q d ms item c th timeout Hok Hq Hcb Hto) as (r & k' & E & H).
  split.
  - exists r, k'. split; [|done]. unfold rt_data_queue_push.
    by rewrite bind_unfold, (assert_magic_eq k q d ms Hq), bind_unfold, (scheduler_available k c th).
  - unfold rt_data_queue_push_resume. rewrite bind_unfold, (get_thread_eq c k th) by apply Hcb.
    destruct (decide (th_error th = RT_EOK)) as [->|Hne]; [by exists r, k'|].
    rewrite (proj2 (Z.eqb_neq (th_error th) RT_EOK)) by done. by exists (DqDone (th_error th) None None), k.
Qed.

(** C34: [rt_data_queue_pop]: the caller gets the oldest item. When no more than
    [lwm] items are left the first thread waiting for room, if any, is woken
    and the owner notified of the low water mark, otherwise only of the pop.
    From an empty queue a caller that does not want to wait is told
    [-RT_ETIMEOUT] and nothing changes; any other caller waits at the end of
    the list of poppers. A popper that runs again does the same, unless it
    was woken with an error, which it returns. *)
Theorem dq_pop_correct k q d ms c th timeout :
  kernel_ok k -> dq_ok k q d ms -> can_block k c th -> timeout < RT_TICK_MAX / 2 ->
  (exists r k', rt_data_queue_pop q timeout k = Some (r, k') /\ kernel_ok k' /\
     dq_popped q d ms timeout c th k r k') /\
  (exists r k', rt_data_queue_pop_resume c q timeout k = Some (r, k') /\ kernel_ok k' /\
     if decide (th_error th = RT_EOK) then dq_popped q d ms timeout c th k r k'
     else r = DqDone (th_error th) None None /\ k' = k).
Proof.
  intros Hok Hq Hcb Hto. destruct (dq_pop_loop_spec k q d ms c th timeout Hok Hq Hcb Hto) as (r & k' & E & H).
  split.
  - exists r, k'. split; [|done]. unfold rt_data_queue_pop.
    by rewrite bind_unfold, (assert_magic_eq k q d ms Hq), bind_unfold, (scheduler_available k c th).
  - unfold rt_data_queue_pop_resume. rewrite bind_unfold, (get_thread_eq c k th) by apply Hcb.
    destruct (decide (th_error th = RT_EOK)) as [->|Hne]; [by exists r, k'|].
    rewrite (proj2 (Z.eqb_neq (th_error th) RT_EOK)) by done. by exists (DqDone (th_error th) None None), k.
Qed.

(** The scheduler once more after a reset. *)
Lemma reset_again q1 q2 k k1 :
  is_wait q1 -> is_wait q2 -> reset q1 q2 k k1 -> kernel_ok k1 -> is_Some (k_current k1) -> k_lock_nest k1 = 0 ->
  exists k', rt_schedule k1 = Some (tt, k') /\ kernel_ok k' /\ obj_frame k1 k' /\ reset q1 q2 k k'.
Proof.
  intros H1 H2 (E1 & E2 & _ & Hw) Hok Hc Hl.
  assert (forall q p, is_wait q -> q <> QReady p) as Hr by (by intros [] ? ?).
  destruct (schedule_kernel k1 Hok Hc) as (k' & E & Hok' & F & _ & Hh). exists k'. split; [done|]. split; [done|].
  split; [by apply sched_obj_frame|]. unfold reset. rewrite !(sf_wait _ _ F) by auto.
  split; [done|]. split; [done|]. split; [by apply Hh|].
  intros t th Ht Hth. destruct (Hw t th Ht Hth) as (s & Hs & Hb). by apply (runnable_sched t _ k1 k' s).
Qed.

Definition dq_cleared (d : rt_data_queue) : rt_data_queue := set_dq_index 0 true 0 false d.

Lemma dq_cleared_ok k q d ms : dq_ok k q d ms -> dq_ok (dq_st q (dq_cleared d) k) q (dq_cleared d) [].
Proof.
  intros [Hq Hm Hs (items & Ei & Hi & Hh) Hg Hl Hp He Hf]. constructor; cbn [dq_magic dq_size dq_lwm dq_get_index
    dq_is_empty dq_put_index dq_is_full dq_queue dq_notify set_dq_index dq_cleared length]; try done; try lia.
  - apply lookup_insert_eq.
  - exists items. split; [done|]. split; [done|]. intros i m Hm'. done.
  - unfold slot. zcases; lia.
  - symmetry. apply bool_decide_eq_false_2. lia.
Qed.

(** The two lists are woken with the scheduler locked; then it is called. *)
Lemma dq_reset_wake q k :
  kernel_ok k -> is_Some (k_current k) -> k_lock_nest k = 0 ->
  exists k', (rt_enter_critical;; _ipc_list_resume_all (QDqPop q);; _ipc_list_resume_all (QDqPush q);;
              rt_exit_critical;; rt_schedule) k = Some (tt, k') /\ kernel_ok k' /\ k_dqs k' = k_dqs k /\
    reset (QDqPop q) (QDqPush q) k k'.
Proof.
  intros Hok Hc Hl. set (k0 := set_k_lock_nest 1 k).
  assert (kernel_ok k0) as Hok0 by (by apply (kernel_ok_objects k)).
  destruct (resume_both_spec (QDqPop q) (QDqPush q) k0 Hok0) as (k1 & k2 & E1 & E2 & W); [done|done|done|].
  set (k3 := set_k_lock_nest 0 k2). assert (kernel_ok k3) as Hok3 by (apply (kernel_ok_objects k2); try done; apply W).
  destruct (reset_schedule (QDqPop q) (QDqPush q) k0 k2 k3) as (k4 & E4 & Hok4 & F4 & R4); try done.
  destruct (schedule_kernel k3 Hok3) as (k4' & E4' & _ & _ & Hc4 & _).
  { change (is_Some (k_current k2)). by rewrite (wb_current _ _ _ _ W). }
  rewrite E4 in E4'. injection E4' as <-.
  destruct (reset_again (QDqPop q) (QDqPush q) k0 k4) as (k5 & E5 & Hok5 & F5 & R5); try done.
  { by rewrite (of_lock _ _ F4). }
  exists k5. split; [|split; [done|split; [|exact R5]]].
  - unfold rt_enter_critical at 1. unfold modify at 1. rewrite bind_unfold. cbv beta iota. rewrite Hl.
    change (set_k_lock_nest (s16 (0 + 1)) k) with k0. rewrite bind_unfold, E1, bind_unfold, E2, bind_unfold.
    unfold rt_exit_critical, rt_thread_self, modify. rewrite bind_unfold. cbv beta iota. rewrite bind_gets.
    rewrite (of_lock _ _ (wb_frame _ _ _ _ W)). change (k_lock_nest (set_k_lock_nest _ k2)) with (s16 (1 - 1)).
    change (s16 (1 - 1) <=? 0) with true. cbv iota. rewrite bind_unfold. cbv beta iota. rewrite bind_gets.
    change (set_k_lock_nest 0 (set_k_lock_nest _ k2)) with k3. change (k_current k3) with (k_current k2).
    rewrite (wb_current _ _ _ _ W), bool_decide_eq_true_2 by done. cbn [when]. by rewrite E4.
  - rewrite (of_dqs _ _ F5), (of_dqs _ _ F4). change (k_dqs k3) with (k_dqs k2).
    by rewrite (of_dqs _ _ (wb_frame _ _ _ _ W)).
Qed.

(** [rt_data_queue_reset]: the queue is empty, both lists of waiting threads
    are, all threads that waited can run and will return [-RT_ERROR], and the
    best thread has the processor. *)
Lemma dq_reset_spec k q d ms :
  kernel_ok k -> dq_ok k q d ms -> is_Some (k_current k) -> k_lock_nest k = 0 ->
  exists k', rt_data_queue_reset q k = Some (tt, k') /\ kernel_ok k' /\ dq_ok k' q (dq_cleared d) [] /\
    reset (QDqPop q) (QDqPush q) k k'.
Proof.
  intros Hok Hq Hc Hl. pose proof (dq_cleared_ok k q d ms Hq) as Hq'.
  destruct (dq_reset_wake q (dq_st q (dq_cleared d) k)) as (k' & E & Hok' & Ed & R);
    [by apply dq_st_kernel_ok|done|done|].
  exists k'. split; [|split; [done|split; [by apply (dq_ok_frame _ _ _ _ _ Hq')|exact R]]].
  unfold rt_data_queue_reset. rewrite bind_unfold, (assert_magic_eq k q d ms Hq), bind_unfold, (get_dq_eq q d) by apply Hq.
  exact E.
Qed.

(** ** A concrete data queue *)

(** Data queue 0 has two places and holds an item; [lwm] is 1. *)
Definition dq_item (n : Z) : rt_data_item := RtDataItem n 1.
Definition dq_demo : kstate :=
  after (rt_data_queue_init 0 2 1 true (Some [dq_item 0; dq_item 0]);; rt_data_queue_push 0 (dq_item 7) 0) demo_state.
Definition dq_at (q : nat) (k : kstate) : rt_data_queue := default (RtDataQueue 0 0 0 0 true 0 false None false) (k_dqs k !! q).

Lemma dq_demo_ok : dq_ok dq_demo 0 (dq_at 0 dq_demo) [dq_item 7].
Proof.
  constructor; try (vm_compute; reflexivity); try (vm_compute; split; congruence); [|vm_compute; congruence].
  exists [dq_item 7; dq_item 0]. split; [vm_compute; reflexivity|]. split; [vm_compute; reflexivity|].
  intros [|i] m Hm; [|done]. injection Hm as <-. vm_compute. reflexivity.
Qed.

Lemma dq_demo_fields :
  dq_size (dq_at 0 dq_demo) = 2 /\ dq_lwm (dq_at 0 dq_demo) = 1 /\ (forall e, notified e (dq_at 0 dq_demo) = Some e) /\
  qget (k_tq dq_demo) (QDqPop 0) = [].
Proof.
  split_and!; vm_compute; reflexivity.
Qed.
Lemma dq_demo_caller : can_block dq_demo 0 (thread_at 0 dq_demo).
Proof. constructor; vm_compute; reflexivity. Qed.
Lemma dq_demo_kernel : kernel_ok dq_demo.
Proof. apply kernel_check_sound. vm_compute. reflexivity. Qed.

Lemma dq_pushed_room q d ms item timeout c th k r k' :
  dq_pushed q d ms item timeout c th k r k' -> Z.of_nat (length ms) < dq_size d -> qget (k_tq k) (QDqPop q) = [] ->
  r = DqDone RT_EOK None (notified RT_DATAQUEUE_EVENT_PUSH d) /\ exists d', dq_ok k' q d' (ms ++ [item]).
Proof.
  unfold dq_pushed. intros H Hlt El. rewrite decide_True, El in H by done.
  destruct H as (d' & ? & _ & _ & ?). eauto.
Qed.

Lemma dq_popped_low q d item timeout c th k r k' :
  dq_popped q d [item] timeout c th k r k' -> 0 <= dq_lwm d ->
  r = DqDone RT_EOK (Some item) (notified RT_DATAQUEUE_EVENT_LWM d) /\ exists d', dq_ok k' q d' [].
Proof.
  intros (d' & Hq & _ & H) Hl. rewrite (proj2 (Z.leb_le _ _)) in H by (simpl; lia).
  destruct H as [_ ->]. eauto.
Qed.

Lemma dq_push_correct_witness :
  exists k', rt_data_queue_push 0 (dq_item 8) 5 dq_demo = Some (DqDone RT_EOK None (Some RT_DATAQUEUE_EVENT_PUSH), k') /\
    exists d', dq_ok k' 0 d' ([dq_item 7] ++ [dq_item 8]).
Proof.
  destruct (dq_push_correct dq_demo 0 (dq_at 0 dq_demo) [dq_item 7] (dq_item 8) 0 (thread_at 0 dq_demo) 5
    dq_demo_kernel dq_demo_ok dq_demo_caller) as ((r & k' & E & _ & H) & _); [vm_compute; reflexivity|].
  destruct dq_demo_fields as (Es & _ & En & El).
  destruct (dq_pushed_room _ _ _ _ _ _ _ _ _ _ H) as (-> & Hq); [rewrite Es; simpl; lia|exact El|].
  rewrite En in E. exists k'. split; [exact E|exact Hq].
Defined.

Lemma dq_pop_correct_witness :
  exists k', rt_data_queue_pop 0 0 dq_demo = Some (DqDone RT_EOK (Some (dq_item 7)) (Some RT_DATAQUEUE_EVENT_LWM), k') /\
    exists d', dq_ok k' 0 d' [].
Proof.
  destruct (dq_pop_correct dq_demo 0 (dq_at 0 dq_demo) [dq_item 7] 0 (thread_at 0 dq_demo) 0
    dq_demo_kernel dq_demo_ok dq_demo_caller) as ((r & k' & E & _ & H) & _); [vm_compute; reflexivity|].
  destruct dq_demo_fields as (_ & Ew & En & _).
  destruct (dq_popped_low _ _ _ _ _ _ _ _ _ H) as (-> & Hq); [rewrite Ew; lia|].
  rewrite En in E. exists k'. split; [exact E|exact Hq].
Defined.
