(* ===== verification/Pipe.v ===== *)
(** * Pipes

    [drivers/ipc/pipe.c] without its POSIX half, which the configuration leaves
    out: a pipe is a device with a ring buffer behind a mutex. The state is the
    kernel with the pipes, each under the number of its device; a call that finds
    the mutex taken waits, and the rest of it runs when its thread does. What the
    allocator returns is an argument. The results of [rt_mutex_take] are ignored,
    as they are in the code.

    [device_open], [device_close], [device_read] and [device_write] are the calls
    of [device.c] for a device whose operations are [pipe_ops].

    The theorems: transfers are those of a bounded queue of bytes, whatever
    lengths are asked for ([pipe_refines_queue]); a call that had to wait does the
    same when it has the mutex ([pipe_write_resumes]); closing the device never
    empties the pipe ([pipe_close_keeps_data]). *)
From S2P Require Import Prelude Kservice Cmem Ringbuffer Kernel Sched Object Timer Thread KernelInv Boot Ipc IpcMutex.
From S2P Require Import ObjectSpec Device DeviceSpec Suspend WaitQueue Sys.

(** ** Data *)

Definition RT_Device_Class_Pipe : Z := 16.
Definition RT_DEVICE_FLAG_RDWR : Z := 0x003.
Definition RT_DEVICE_FLAG_REMOVABLE : Z := 0x004.
(** Of the C library. *)
Definition EINVAL : Z := 22.

Record rt_pipe := RtPipe {
  pipe_is_named : bool;
  pipe_fifo : option ringbuffer;
  pipe_bufsz : Z;            (* rt_uint16_t *)
  pipe_readers : Z;
  pipe_writers : Z;
  pipe_reader_queue : nat;   (* the wait queues and the mutex in the block *)
  pipe_writer_queue : nat;
  pipe_lock : nat
}.

Definition set_is_named (b : bool) (x : rt_pipe) : rt_pipe :=
  RtPipe b (pipe_fifo x) (pipe_bufsz x) (pipe_readers x) (pipe_writers x) (pipe_reader_queue x) (pipe_writer_queue x) (pipe_lock x).
Definition set_fifo (f : option ringbuffer) (x : rt_pipe) : rt_pipe :=
  RtPipe (pipe_is_named x) f (pipe_bufsz x) (pipe_readers x) (pipe_writers x) (pipe_reader_queue x) (pipe_writer_queue x) (pipe_lock x).
Definition set_bufsz (n : Z) (x : rt_pipe) : rt_pipe :=
  RtPipe (pipe_is_named x) (pipe_fifo x) n (pipe_readers x) (pipe_writers x) (pipe_reader_queue x) (pipe_writer_queue x) (pipe_lock x).

Abbreviation pipes := (gmap nat rt_pipe).
Abbreviation P := (St (sys (gmap nat rt_pipe))).
Abbreviation called := (call (sys (gmap nat rt_pipe))).

Definition get_pipe (pipe : nat) : P rt_pipe := lift_h (x ← gets (fun m : pipes => m !! pipe); deref x).
Definition put_pipe (pipe : nat) (x : rt_pipe) : P unit := lift_h (modify (fun m : pipes => <[pipe := x]> m)).
Definition upd_pipe (pipe : nat) (f : rt_pipe -> rt_pipe) : P unit := x ← get_pipe pipe; put_pipe pipe (f x).

(** The ring buffer of a pipe; the functions of [ringbuffer.c] assert that there is one. *)
Definition get_fifo (pipe : nat) : P ringbuffer := x ← get_pipe pipe; deref (pipe_fifo x).
Definition rt_ringbuffer_destroy (rb : option ringbuffer) : P unit := rt_assert (bool_decide (is_Some rb)).

(** ** The mutex of a pipe *)

(** What a call does from the mutex to its release. *)
Definition pipe_locked {A} (pipe : nat) (body : P A) : P A :=
  a ← body;
  x ← get_pipe pipe;
  lift_k (rt_mutex_release (pipe_lock x));;
  mret a.

Definition pipe_resumed {A} (pipe : nat) (body : P A) : P (called A) :=
  lift_k (thread ← current_thread; rt_mutex_take_return thread);;
  a ← pipe_locked pipe body;
  mret (Done a).

Definition with_pipe {A} (pipe : nat) (body : P A) : P (called A) :=
  x ← get_pipe pipe;
  o ← lift_k (rt_mutex_take (pipe_lock x) RT_WAITING_FOREVER);
  match o with
  | Ret _ => a ← pipe_locked pipe body; mret (Done a)
  | Wait _ => mret (Waits (pipe_resumed pipe body))
  end.

(** ** The operations of the device *)

Section open.
(** Whether the allocator has room for the ring buffer's structure, and the pool it returns. *)
Context (mem : bool) (pool : Z -> option (list Z)).

Definition open_locked (pipe : nat) : P Z :=
  x ← get_pipe pipe;
  match pipe_fifo x with
  | None =>
      fifo ← deref (rt_ringbuffer_create (pipe_bufsz x) mem pool);
      upd_pipe pipe (set_fifo fifo);;
      mret (match fifo with None => - RT_ENOMEM | Some _ => RT_EOK end)
  | Some _ => mret RT_EOK
  end.

Definition rt_pipe_open (device : option nat) (oflag : Z) : P (called Z) :=
  match device with
  | None => mret (Done (- RT_EINVAL))
  | Some pipe => with_pipe pipe (open_locked pipe)
  end.
End open.

Definition close_locked (pipe : nat) : P Z :=
  d ← lift_k (get_dev pipe);
  when (dev_ref_count d =? 1)
    (x ← get_pipe pipe;
     rt_ringbuffer_destroy (pipe_fifo x);;
     upd_pipe pipe (set_fifo None));;
  mret RT_EOK.

Definition rt_pipe_close (device : option nat) : P (called Z) :=
  match device with
  | None => mret (Done (- RT_EINVAL))
  | Some pipe => with_pipe pipe (close_locked pipe)
  end.

(** A round of the loop of [rt_pipe_read]: the bytes that are in the buffer so
    far, and how many; [None] when the loop ends. *)
Definition read_round (pipe : nat) (count : Z) (s : list Z * Z) : P (list Z * Z + list Z * Z) :=
  let '(pbuf, read_bytes) := s in
  if read_bytes <? count then
    fifo ← get_fifo pipe;
    let '(fifo, bytes, len) := rt_ringbuffer_get fifo (u16 (count - read_bytes)) in
    upd_pipe pipe (set_fifo (Some fifo));;
    if len <=? 0 then mret (inr s)
    else mret (inl (pbuf ++ bytes, u64 (read_bytes + len)))
  else mret (inr s).

(** The bytes read, and how many; [fuel] bounds the loop. *)
Definition rt_pipe_read (fuel : nat) (device : option nat) (count : Z) : P (called (list Z * Z)) :=
  match device with
  | None => lift_k (rt_set_errno EINVAL);; mret (Done ([], 0))
  | Some pipe =>
      if count =? 0 then mret (Done ([], 0))
      else with_pipe pipe (loop fuel (read_round pipe count) ([], 0))
  end.

Definition write_round (pipe : nat) (buffer : list Z) (count write_bytes : Z) : P (Z + Z) :=
  if write_bytes <? count then
    fifo ← get_fifo pipe;
    let '(fifo, len) := rt_ringbuffer_put fifo (zdrop write_bytes buffer) (u16 (count - write_bytes)) in
    upd_pipe pipe (set_fifo (Some fifo));;
    if len <=? 0 then mret (inr write_bytes)
    else mret (inl (u64 (write_bytes + len)))
  else mret (inr write_bytes).

Definition rt_pipe_write (fuel : nat) (device : option nat) (buffer : list Z) (count : Z) : P (called Z) :=
  match device with
  | None => lift_k (rt_set_errno EINVAL);; mret (Done 0)
  | Some pipe =>
      if count =? 0 then mret (Done 0)
      else with_pipe pipe (loop fuel (write_round pipe buffer count) 0)
  end.

Definition rt_pipe_control (dev : nat) (cmd : Z) : Z := RT_EOK.

(** ** Creation and deletion *)

(** [rt_free] of the block, with all that is in it. *)
Definition free_pipe (pipe : nat) (x : rt_pipe) : P unit :=
  lift_k (modify (free_block (ODevice pipe)));;
  lift_k (modify (free_block (OMutex (pipe_lock x))));;
  lift_k (modify (fun k => set_k_wqueues (delete (pipe_writer_queue x) (delete (pipe_reader_queue x) (k_wqueues k))) k));;
  lift_h (modify (fun m : pipes => delete pipe m)).

(** The number of the block that [rt_malloc] returns, and those of the wait queues
    and the mutex in it; the block is cleared. *)
Definition rt_pipe_create (mem : option (nat * (nat * nat * nat))) (name : list Z) (bufsz : Z) : P (option nat) :=
  match mem with
  | None => mret None
  | Some (pipe, (reader_queue, writer_queue, lock)) =>
      lift_k (modify (raw_block (ODevice pipe)));;
      lift_k (modify (raw_block (OMutex lock)));;
      put_pipe pipe (RtPipe false None 0 0 0 reader_queue writer_queue lock);;
      upd_pipe pipe (set_is_named true);;
      lift_k (rt_mutex_init lock name RT_IPC_FLAG_PRIO);;
      lift_k (rt_wqueue_init reader_queue);;
      lift_k (rt_wqueue_init writer_queue);;
      rt_assert (bufsz <? 0xFFFF);;
      upd_pipe pipe (set_bufsz (u16 bufsz));;
      lift_k (upd_dev pipe (fun d => RtDevice (dev_parent d) RT_Device_Class_Pipe (dev_flag d) (dev_open_flag d)
                                       (dev_ref_count d) None None));;
      r ← lift_k (rt_device_register (Some pipe) name (Z.lor RT_DEVICE_FLAG_RDWR RT_DEVICE_FLAG_REMOVABLE));
      if negb (r =? 0) then
        x ← get_pipe pipe;
        free_pipe pipe x;;
        mret None
      else mret (Some pipe)
  end.

Definition rt_pipe_delete (name : list Z) : P Z :=
  device ← lift_k (rt_device_find name);
  match device with
  | Some (ODevice device) =>
      d ← lift_k (get_dev device);
      if dev_type d =? RT_Device_Class_Pipe then
        if negb (dev_ref_count d =? 0) then mret (- RT_EBUSY)
        else
          x ← get_pipe device;
          lift_k (rt_mutex_detach (pipe_lock x));;
          lift_k (rt_device_unregister device);;
          match pipe_fifo x with
          | Some _ => rt_ringbuffer_destroy (pipe_fifo x);; upd_pipe device (set_fifo None)
          | None => mret tt
          end;;
          free_pipe device x;;
          mret 0
      else mret (- RT_EINVAL)
  | _ => mret (- RT_EINVAL)
  end.

(** ** The device calls, of a device with these operations *)

Definition add_user (dev : nat) : M unit :=
  upd_dev dev (fun d => set_dev_open_flag (Z.lor (dev_open_flag d) RT_DEVICE_OFLAG_OPEN) d);;
  upd_dev dev (fun d => set_dev_ref_count (u8 (dev_ref_count d + 1)) d);;
  d ← get_dev dev;
  rt_assert (negb (dev_ref_count d =? 0)).

Definition device_open (mem : bool) (pool : Z -> option (list Z)) (dev : nat) (oflag : Z) : P (called Z) :=
  lift_k (assert_type (ODevice dev) RT_Object_Class_Device);;
  d ← lift_k (get_dev dev);
  lift_k (when (Z.land (dev_flag d) RT_DEVICE_FLAG_ACTIVATED =? 0) (activate dev));;
  d ← lift_k (get_dev dev);
  if standalone d && opened d then mret (Done (- RT_EBUSY))
  else calls (rt_pipe_open mem pool (Some dev) oflag) (fun result =>
    (if accepted result then lift_k (add_user dev) else mret tt);;
    mret (Done result)).

Definition device_close (dev : nat) : P (called Z) :=
  lift_k (assert_type (ODevice dev) RT_Object_Class_Device);;
  d ← lift_k (get_dev dev);
  if dev_ref_count d =? 0 then mret (Done (- RT_ERROR))
  else
    lift_k (upd_dev dev (fun d => set_dev_ref_count (u8 (dev_ref_count d - 1)) d));;
    d ← lift_k (get_dev dev);
    if negb (dev_ref_count d =? 0) then mret (Done RT_EOK)
    else calls (rt_pipe_close (Some dev)) (fun result =>
      lift_k (when (accepted result) (upd_dev dev (set_dev_open_flag RT_DEVICE_OFLAG_CLOSE)));;
      mret (Done result)).

Definition device_read (fuel dev : nat) (size : Z) : P (called (list Z * Z)) :=
  lift_k (assert_type (ODevice dev) RT_Object_Class_Device);;
  d ← lift_k (get_dev dev);
  if dev_ref_count d =? 0 then lift_k (rt_set_errno (- RT_ERROR));; mret (Done ([], 0))
  else rt_pipe_read fuel (Some dev) size.

Definition device_write (fuel dev : nat) (buffer : list Z) (size : Z) : P (called Z) :=
  lift_k (assert_type (ODevice dev) RT_Object_Class_Device);;
  d ← lift_k (get_dev dev);
  if dev_ref_count d =? 0 then lift_k (rt_set_errno (- RT_ERROR));; mret (Done 0)
  else rt_pipe_write fuel (Some dev) buffer size.

(** ** Transfers *)

Lemma get_pipe_ok k (m : pipes) p x : m !! p = Some x -> get_pipe p (Sys k m) = Some (x, Sys k m).
Proof. intros H. unfold get_pipe. apply lift_h_ok. by rewrite bind_gets, H. Qed.

Lemma upd_pipe_ok k (m : pipes) p x f :
  m !! p = Some x -> upd_pipe p f (Sys k m) = Some (tt, Sys k (<[p := f x]> m)).
Proof. intros H. unfold upd_pipe. by rewrite (bind_ok _ _ _ _ _ (get_pipe_ok k m p x H)). Qed.

Lemma get_fifo_ok k (m : pipes) p x rb :
  m !! p = Some x -> pipe_fifo x = Some rb -> get_fifo p (Sys k m) = Some (rb, Sys k m).
Proof. intros H E. unfold get_fifo. rewrite (bind_ok _ _ _ _ _ (get_pipe_ok k m p x H)). by rewrite E. Qed.

Section transfer.
Context (m : pipes) (p : nat) (x : rt_pipe) (rb : ringbuffer).
Context (Hx : m !! p = Some x) (Hf : pipe_fifo x = Some rb) (Hrb : rb_wf rb).

Lemma write_round_ok buffer count n0 :
  0 <= n0 < count -> count < 2 ^ 64 -> count <= zlen buffer ->
  let n := Z.min (u16 (count - n0)) (buffer_size rb - occupied rb) in
  exists rb', rb_wf rb' /\ contents rb' = contents rb ++ ztake n (zdrop n0 buffer) /\ buffer_size rb' = buffer_size rb /\
    forall k, write_round p buffer count n0 (Sys k m) =
      Some (if n =? 0 then inr n0 else inl (n0 + n), Sys k (<[p := set_fifo (Some rb') x]> m)).
Proof using Hx Hf Hrb.
  intros H0 Hc Hb n. set (l := u16 (count - n0)). pose proof (occupied_bounds rb Hrb).
  assert (0 <= l < 65536 /\ l <= count - n0) as [Hl Hl'] by (unfold l, u16; dlia).
  destruct (put_spec rb (zdrop n0 buffer) l Hrb Hl) as (Hwf & En & Ec & Es); [rewrite zlen_zdrop by lia; lia|].
  fold n in En, Ec. destruct (rt_ringbuffer_put rb (zdrop n0 buffer) l) as [rb' n'] eqn:E. cbn [fst snd] in *. subst n'.
  exists rb'. split_and!; try done. intros k. unfold write_round. rewrite (proj2 (Z.ltb_lt _ _)) by lia.
  rewrite (bind_ok _ _ _ _ _ (get_fifo_ok k m p x rb Hx Hf)). fold l. rewrite E.
  rewrite (bind_ok _ _ _ _ _ (upd_pipe_ok k m p x _ Hx)).
  destruct (Z.eqb_spec n 0) as [Z0|Z0].
  - by rewrite (proj2 (Z.leb_le _ _)) by lia.
  - rewrite (proj2 (Z.leb_gt _ _)) by lia. by rewrite u64_small by lia.
Qed.

Lemma read_round_ok count pbuf n0 :
  0 <= n0 < count -> count < 2 ^ 64 ->
  let n := Z.min (u16 (count - n0)) (occupied rb) in
  exists rb', rb_wf rb' /\ contents rb' = zdrop n (contents rb) /\ buffer_size rb' = buffer_size rb /\
    forall k, read_round p count (pbuf, n0) (Sys k m) =
      Some (if n =? 0 then inr (pbuf, n0) else inl (pbuf ++ ztake n (contents rb), n0 + n),
            Sys k (<[p := set_fifo (Some rb') x]> m)).
Proof using Hx Hf Hrb.
  intros H0 Hc n. set (l := u16 (count - n0)). pose proof (occupied_bounds rb Hrb).
  assert (0 <= l < 65536 /\ l <= count - n0) as [Hl Hl'] by (unfold l, u16; dlia).
  destruct (get_spec rb l Hrb Hl) as (Hwf & Eb & En & Ec & Es).
  fold n in Eb, En, Ec. destruct (rt_ringbuffer_get rb l) as [[rb' b] n'] eqn:E. cbn [fst snd] in *. subst n' b.
  exists rb'. split_and!; try done. intros k. unfold read_round. rewrite (proj2 (Z.ltb_lt _ _)) by lia.
  rewrite (bind_ok _ _ _ _ _ (get_fifo_ok k m p x rb Hx Hf)). fold l. rewrite E.
  rewrite (bind_ok _ _ _ _ _ (upd_pipe_ok k m p x _ Hx)).
  destruct (Z.eqb_spec n 0) as [Z0|Z0].
  - by rewrite (proj2 (Z.leb_le _ _)) by lia.
  - rewrite (proj2 (Z.leb_gt _ _)) by lia. by rewrite u64_small by lia.
Qed.
End transfer.

(** A count is truncated to 16 bits for the ring buffer: what is left after the first
    round is a multiple of 2^16, of which the second round transfers nothing. *)
Lemma u16_rest count : u16 (count - u16 count) = 0.
Proof. unfold u16. dlia. Qed.

(** The loops: their second round is the last. *)
Lemma write_loop_ok m p x rb buffer count fuel :
  m !! p = Some x -> pipe_fifo x = Some rb -> rb_wf rb -> (2 <= fuel)%nat ->
  0 < count < 2 ^ 64 -> count <= zlen buffer ->
  let n := Z.min (u16 count) (buffer_size rb - occupied rb) in
  exists rb', rb_wf rb' /\ contents rb' = contents rb ++ ztake n buffer /\ buffer_size rb' = buffer_size rb /\
    forall k, loop fuel (write_round p buffer count) 0 (Sys k m) = Some (n, Sys k (<[p := set_fifo (Some rb') x]> m)).
Proof.
  intros Hx Hf Hrb Hfuel Hc Hb n. destruct fuel as [|[|fuel]]; try lia.
  destruct (write_round_ok m p x rb Hx Hf Hrb buffer count 0) as (rb1 & Hwf1 & Ec1 & Es1 & E1); [lia|lia|done|].
  rewrite Z.sub_0_r in *. fold n in Ec1, E1. change (zdrop 0 buffer) with buffer in Ec1.
  destruct (Z.eqb_spec n 0) as [Z0|Z0].
  { exists rb1. split_and!; try done. intros k. cbn [loop]. rewrite (bind_ok _ _ _ _ _ (E1 k)). by rewrite Z0. }
  pose proof (occupied_bounds rb Hrb). pose proof (zlen_contents rb Hrb). pose proof (zlen_contents rb1 Hwf1) as Hz.
  assert (0 <= n <= u16 count /\ u16 count <= count) as [Hn Hu] by (unfold n, u16 in *; dlia).
  rewrite Ec1, zlen_app, zlen_ztake in Hz by lia.
  destruct (Z.eqb_spec n count) as [Ecount|Hne].
  { exists rb1. split_and!; try done. intros k. cbn [loop]. rewrite (bind_ok _ _ _ _ _ (E1 k)). rewrite Z.add_0_l.
    unfold write_round. rewrite (proj2 (Z.ltb_ge _ _)) by lia. done. }
  destruct (write_round_ok (<[p := set_fifo (Some rb1) x]> m) p (set_fifo (Some rb1) x) rb1) with (buffer := buffer)
    (count := count) (n0 := n) as (rb2 & Hwf2 & Ec2 & Es2 & E2); [apply lookup_insert_eq|done|done|lia|lia|done|].
  assert (Z.min (u16 (count - n)) (buffer_size rb1 - occupied rb1) = 0) as E0.
  { destruct (Z.le_gt_cases (u16 count) (buffer_size rb - occupied rb)) as [Hle|Hgt].
    - replace n with (u16 count) by lia. rewrite u16_rest. lia.
    - assert (0 <= u16 (count - n)) by (unfold u16; dlia). lia. }
  rewrite E0 in Ec2, E2. exists rb2. split; [done|]. split; [by rewrite Ec2, app_nil_r|]. split; [congruence|].
  intros k. cbn [loop]. rewrite (bind_ok _ _ _ _ _ (E1 k)). rewrite Z.add_0_l, (bind_ok _ _ _ _ _ (E2 k)).
  by rewrite insert_insert_eq.
Qed.

Lemma read_loop_ok m p x rb count fuel :
  m !! p = Some x -> pipe_fifo x = Some rb -> rb_wf rb -> (2 <= fuel)%nat -> 0 < count < 2 ^ 64 ->
  let n := Z.min (u16 count) (occupied rb) in
  exists rb', rb_wf rb' /\ contents rb' = zdrop n (contents rb) /\ buffer_size rb' = buffer_size rb /\
    forall k, loop fuel (read_round p count) ([], 0) (Sys k m) =
      Some ((ztake n (contents rb), n), Sys k (<[p := set_fifo (Some rb') x]> m)).
Proof.
  intros Hx Hf Hrb Hfuel Hc n. destruct fuel as [|[|fuel]]; try lia.
  destruct (read_round_ok m p x rb Hx Hf Hrb count [] 0) as (rb1 & Hwf1 & Ec1 & Es1 & E1); [lia|lia|].
  rewrite Z.sub_0_r in *. fold n in Ec1, E1.
  destruct (Z.eqb_spec n 0) as [Z0|Z0].
  { exists rb1. split_and!; try done. intros k. cbn [loop]. rewrite (bind_ok _ _ _ _ _ (E1 k)). by rewrite Z0. }
  pose proof (occupied_bounds rb Hrb). pose proof (zlen_contents rb Hrb). pose proof (zlen_contents rb1 Hwf1) as Hz.
  assert (0 <= n <= u16 count /\ u16 count <= count) as [Hn Hu] by (unfold n, u16 in *; dlia).
  rewrite Ec1, zlen_zdrop in Hz by lia.
  destruct (Z.eqb_spec n count) as [Ecount|Hne].
  { exists rb1. split_and!; try done. intros k. cbn [loop]. rewrite (bind_ok _ _ _ _ _ (E1 k)). rewrite Z.add_0_l.
    unfold read_round. rewrite (proj2 (Z.ltb_ge _ _)) by lia. done. }
  destruct (read_round_ok (<[p := set_fifo (Some rb1) x]> m) p (set_fifo (Some rb1) x) rb1) with (count := count)
    (pbuf := [] ++ ztake n (contents rb)) (n0 := n) as (rb2 & Hwf2 & Ec2 & Es2 & E2); [apply lookup_insert_eq|done|done|lia|lia|].
  assert (Z.min (u16 (count - n)) (occupied rb1) = 0) as E0.
  { destruct (Z.le_gt_cases (u16 count) (occupied rb)) as [Hle|Hgt].
    - replace n with (u16 count) by lia. rewrite u16_rest. lia.
    - assert (0 <= u16 (count - n)) by (unfold u16; dlia). lia. }
  rewrite E0 in Ec2, E2. exists rb2. split; [done|]. split; [by rewrite Ec2|]. split; [congruence|].
  intros k. cbn [loop]. rewrite (bind_ok _ _ _ _ _ (E1 k)). rewrite Z.add_0_l, (bind_ok _ _ _ _ _ (E2 k)).
  by rewrite insert_insert_eq.
Qed.

(** ** The mutex *)

Section mutex.
Context (k : kstate) (lock : nat) (mx : rt_mutex) (c : nat) (th : rt_thread).
Context (Hok : kernel_ok k) (Hmx : mutex_ok k lock mx) (Hcb : can_block k c th).

(** Taking a free mutex and releasing it leave the devices alone. *)
Lemma take_devices t :
  mx_owner mx = None ->
  exists k' mx', rt_mutex_take lock t k = Some (Ret RT_EOK, k') /\ kernel_ok k' /\ mutex_ok k' lock mx' /\
    mx_owner mx' = Some c /\ mx_hold mx' = 1 /\ can_block k' c (set_th_error RT_EOK th) /\
    qget (k_tq k') (QMutex lock) = [] /\ k_devices k' = k_devices k.
Proof using Hok Hmx Hcb.
  intros Ho. destruct (take_free_runs k lock mx c th t Hok Hmx Hcb Ho) as (k' & mx' & E & ? & ? & ? & ? & _ & ? & ?).
  exists k', mx'. split_and!; try done.
  destruct (mutex_take_enter k lock mx c th t Hok Hmx Hcb) as (_ & _ & Hc0 & E').
  pose proof (mo_state _ _ _ Hmx) as Hst. rewrite Ho in Hst. destruct Hst as (Hv & Hh & _).
  rewrite E', decide_False, Hv in E by congruence. change (0 <? 1) with true in E. cbv beta iota in E.
  revert E. mrun. rewrite (get_thread_eq c _ _ Hc0). unfold put_mutex at 1. mrun.
  cbn [set_mx_owner set_mx_value set_mx_hold mx_hold]. rewrite Hh. by intros [= <-].
Qed.

Lemma release_devices :
  mx_owner mx = Some c -> mx_hold mx = 1 -> qget (k_tq k) (QMutex lock) = [] ->
  exists k' mx' th', rt_mutex_release lock k = Some (RT_EOK, k') /\ kernel_ok k' /\ mutex_ok k' lock mx' /\
    mx_owner mx' = None /\ can_block k' c th' /\ k_devices k' = k_devices k.
Proof using Hok Hmx Hcb.
  intros Ho Hh Hq. destruct (release_free k lock mx c th Hok Hmx Hcb Ho Hh Hq) as (k' & mx' & th' & E & ? & ? & _ & _ & ? & ?).
  exists k', mx', th'. split_and!; try done.
  destruct (release_last k lock mx c th Hok Hmx Hcb Ho Hh) as (k2 & th2 & R & E'). rewrite E' in E.
  pose proof (mo_state _ _ _ Hmx) as Hst. rewrite Ho in Hst. destruct Hst as (Hv & _).
  revert E. unfold rt_list_isempty. mrun. rewrite (rs_queue _ _ _ _ _ _ _ R), Hq. cbv beta iota.
  change (mx_value (set_mx_hold _ mx)) with (mx_value mx). rewrite Hv. intros [= <-].
  exact (of_devices _ _ (rs_frame _ _ _ _ _ _ _ R)).
Qed.
End mutex.

(** ** A pipe that nobody is using at the moment: its mutex is free, and [c] runs. *)

Record idle (c p : nat) (x : rt_pipe) (d : rt_device) (k : kstate) (m : pipes) : Prop := Idle {
  id_device : device_ok k p d;
  id_caller : exists th, can_block k c th;
  id_mutex : exists mx, mutex_ok k (pipe_lock x) mx /\ mx_owner mx = None;
  id_pipe : m !! p = Some x
}.

(** A call whose part under the mutex changes nothing but the pipe. *)
Lemma with_lock_idle {A} c p x d k m (body : P A) a x' :
  idle c p x d k m -> pipe_lock x' = pipe_lock x ->
  (forall k1, k_devices k1 = k_devices k -> body (Sys k1 m) = Some (a, Sys k1 (<[p := x']> m))) ->
  exists k', with_pipe p body (Sys k m) = Some (Done a, Sys k' (<[p := x']> m)) /\ idle c p x' d k' (<[p := x']> m).
Proof.
  intros [Hd [th Hc] (mx & Hmx & Ho) Hx] Hl Hbody. destruct Hd as [Hok Hd Ht].
  destruct (take_devices k (pipe_lock x) mx c th Hok Hmx Hc RT_WAITING_FOREVER Ho)
    as (k1 & mx1 & E1 & Hok1 & Hmx1 & Ho1 & Hh1 & Hc1 & Hq1 & Ed1).
  destruct (release_devices k1 (pipe_lock x) mx1 c _ Hok1 Hmx1 Hc1 Ho1 Hh1 Hq1) as (k2 & mx2 & th2 & E2 & Hok2 & Hmx2 & Ho2 & Hc2 & Ed2).
  exists k2. split.
  - unfold with_pipe. rewrite (bind_ok _ _ _ _ _ (get_pipe_ok k m p x Hx)), (bind_ok _ _ _ _ _ (lift_k_ok _ _ m _ _ E1)).
    assert (pipe_locked p body (Sys k1 m) = Some (a, Sys k2 (<[p := x']> m))) as E; [|by rewrite (bind_ok _ _ _ _ _ E)].
    unfold pipe_locked. rewrite (bind_ok _ _ _ _ _ (Hbody k1 Ed1)).
    rewrite (bind_ok _ _ _ _ _ (get_pipe_ok k1 _ p x' (lookup_insert_eq _ _ _))), Hl.
    by rewrite (bind_ok _ _ _ _ _ (lift_k_ok _ _ _ _ _ E2)).
  - constructor; [|by exists th2|exists mx2; by rewrite Hl|apply lookup_insert_eq].
    constructor; [done|by rewrite Ed2, Ed1|done].
Qed.

Definition dev_st (p : nat) (d : rt_device) (k : kstate) : kstate := set_k_devices (<[p := d]> (k_devices k)) k.

Lemma upd_dev_eq k p d f : k_devices k !! p = Some d -> upd_dev p f k = Some (tt, dev_st p (f d) k).
Proof. intros H. unfold upd_dev. by rewrite (bind_ok _ _ _ _ _ (get_dev_eq k p d H)). Qed.

Lemma idle_dev c p x d d' k m : idle c p x d k m -> dev_parent d' = dev_parent d -> idle c p x d' (dev_st p d' k) m.
Proof.
  intros [[Hok Hd Ht] [th [? ? ? ? ?]] (mx & [? ? ? ?] & ?) Hx] E. constructor; [|by exists th|by exists mx|done].
  constructor; [by apply (kernel_ok_objects k)|apply lookup_insert_eq|by rewrite E].
Qed.

Lemma idle_errno c p x d k m e :
  idle c p x d k m -> exists k', rt_set_errno e k = Some (tt, k') /\ idle c p x d k' m.
Proof.
  intros [[Hok Hd Ht] [th Hc] (mx & [Hm Hmt Hmf Hms] & Ho) Hx]. rewrite Ho in Hms.
  destruct (set_error_ok c th e k Hok (cb_thread _ _ _ Hc)) as [E Hok1].
  exists (thread_st c (set_th_error e th) k). split.
  - unfold rt_set_errno, rt_interrupt_get_nest, rt_thread_self. mrun. rewrite (cb_no_isr _ _ _ Hc). cbn [negb Z.eqb].
    mrun. by rewrite (cb_current _ _ _ Hc).
  - destruct Hc as [? ? ? ? ?]. constructor; [done| | |done].
    + exists (set_th_error e th). constructor; try done. apply thread_st_lookup.
    + exists mx. split; [|done]. constructor; try done. by rewrite Ho.
Qed.

(** ** What a pipe promises: a bounded queue of bytes, and a count of its users *)

Record pipe_abs := PipeAbs { pa_queue : option (list Z); pa_users : Z }.

Inductive pipe_op :=
  | PipeOpen (mem : bool) (pool : Z -> option (list Z)) (oflag : Z)
  | PipeClose
  | PipeWrite (buffer : list Z) (count : Z)
  | PipeRead (count : Z).

(** The size of the ring buffer. *)
Definition pipe_capacity (bufsz : Z) : Z := 4 * (bufsz / 4).

(** A call the C prototypes allow, with a buffer as large as is said; the allocator
    returns as much as was asked for. *)
Definition pipe_op_ok (cap : Z) (op : pipe_op) : Prop :=
  match op with
  | PipeOpen _ pool _ => forall l, pool cap = Some l -> cap <= zlen l
  | PipeClose => True
  | PipeWrite buffer count => 0 <= count < 2 ^ 64 /\ count <= zlen buffer
  | PipeRead count => 0 <= count < 2 ^ 64
  end.

(** The bytes read, and the result; undefined where the code fails an assertion. The
    queue appears at the first opening, and stays when the last user closes the device. *)
Definition pipe_spec (cap : Z) (v : pipe_abs) (op : pipe_op) : option (list Z * Z * pipe_abs) :=
  let '(PipeAbs queue users) := v in
  match op with
  | PipeOpen mem pool _ =>
      match (match queue with
             | Some q => Some q
             | None => if mem && bool_decide (is_Some (pool cap)) then Some [] else None
             end) with
      | None => Some ([], - RT_ENOMEM, v)
      | Some q => if users <? 255 then Some ([], RT_EOK, PipeAbs (Some q) (users + 1)) else None
      end
  | PipeClose =>
      if users =? 0 then Some ([], - RT_ERROR, v) else Some ([], RT_EOK, PipeAbs queue (users - 1))
  | PipeWrite buffer count =>
      if users =? 0 then Some ([], 0, v)
      else match queue with
           | None => None
           | Some q => let n := Z.min (count mod 2 ^ 16) (cap - zlen q) in
                       Some ([], n, PipeAbs (Some (q ++ ztake n buffer)) users)
           end
  | PipeRead count =>
      if users =? 0 then Some ([], 0, v)
      else match queue with
           | None => None
           | Some q => let n := Z.min (count mod 2 ^ 16) (zlen q) in
                       Some (ztake n q, n, PipeAbs (Some (zdrop n q)) users)
           end
  end.

Fixpoint pipe_spec_run (cap : Z) (v : pipe_abs) (ops : list pipe_op) : option (list (list Z * Z) * pipe_abs) :=
  match ops with
  | [] => Some ([], v)
  | op :: ops =>
      match pipe_spec cap v op with
      | None => None
      | Some (r, v) => match pipe_spec_run cap v ops with Some (rs, v) => Some (r :: rs, v) | None => None end
      end
  end.

(** The same calls on the device. *)
Definition pipe_call (fuel p : nat) (op : pipe_op) : P (called (list Z * Z)) :=
  match op with
  | PipeOpen mem pool oflag => calls (device_open mem pool p oflag) (fun r => mret (Done ([], r)))
  | PipeClose => calls (device_close p) (fun r => mret (Done ([], r)))
  | PipeWrite buffer count => calls (device_write fuel p buffer count) (fun r => mret (Done ([], r)))
  | PipeRead count => device_read fuel p count
  end.

Fixpoint pipe_run (fuel p : nat) (ops : list pipe_op) : P (called (list (list Z * Z))) :=
  match ops with
  | [] => mret (Done [])
  | op :: ops =>
      calls (pipe_call fuel p op) (fun r => calls (pipe_run fuel p ops) (fun rs => mret (Done (r :: rs))))
  end.

(** The queue of a ring buffer of [cap] bytes. *)
Definition fifo_queue (cap : Z) (fifo : option ringbuffer) (queue : option (list Z)) : Prop :=
  match fifo, queue with
  | None, None => True
  | Some rb, Some q => rb_wf rb /\ contents rb = q /\ buffer_size rb = cap
  | _, _ => False
  end.

Record pipe_rel (c p : nat) (bufsz : Z) (v : pipe_abs) (k : kstate) (m : pipes) : Prop := PipeRel {
  pr_idle : exists x d, idle c p x d k m /\ pipe_bufsz x = bufsz /\ fifo_queue (pipe_capacity bufsz) (pipe_fifo x) (pa_queue v) /\
    dev_ref_count d = pa_users v /\ standalone d = false;
  pr_bufsz : 4 <= bufsz <= 32767;
  pr_users : 0 <= pa_users v <= 255;
  pr_open : 0 < pa_users v -> pa_queue v <> None
}.

(** ** Every call does what the queue does *)

Lemma calls_is {S A B} (x : St S (call S A)) (f : A -> St S (call S B)) s a s1 r :
  x s = Some (Done a, s1) -> f a s1 = r -> calls x f s = r.
Proof. intros E <-. by apply calls_done. Qed.

Lemma calls_none {S A B} (x : St S (call S A)) (f : A -> St S (call S B)) s : x s = None -> calls x f s = None.
Proof. intros E. unfold calls. by rewrite bind_unfold, E. Qed.

Lemma bind_assert_dev {B} c p x d k m (f : unit -> P B) :
  idle c p x d k m -> (lift_k (assert_type (ODevice p) RT_Object_Class_Device) ≫= f) (Sys k m) = f tt (Sys k m).
Proof. intros [Hd _ _ _]. by rewrite (bind_ok _ _ _ _ _ (lift_k_ok _ _ m _ _ (assert_device k p d Hd))). Qed.

Lemma bind_get_dev {B} c p x d k m (f : rt_device -> P B) :
  idle c p x d k m -> (lift_k (get_dev p) ≫= f) (Sys k m) = f d (Sys k m).
Proof. intros [[_ Hd _] _ _ _]. by rewrite (bind_ok _ _ _ _ _ (lift_k_ok _ _ m _ _ (get_dev_eq k p d Hd))). Qed.

Lemma bind_upd_dev {B} c p x d k m g (f : unit -> P B) :
  idle c p x d k m -> (lift_k (upd_dev p g) ≫= f) (Sys k m) = f tt (Sys (dev_st p (g d) k) m).
Proof. intros [[_ Hd _] _ _ _]. by rewrite (bind_ok _ _ _ _ _ (lift_k_ok _ _ m _ _ (upd_dev_eq k p d g Hd))). Qed.

Lemma create_fifo_spec bufsz mem pool :
  4 <= bufsz <= 32767 -> (forall l, pool (pipe_capacity bufsz) = Some l -> pipe_capacity bufsz <= zlen l) ->
  exists fifo, rt_ringbuffer_create bufsz mem pool = Some fifo /\
    fifo_queue (pipe_capacity bufsz) fifo (if mem && bool_decide (is_Some (pool (pipe_capacity bufsz))) then Some [] else None).
Proof.
  intros Hb Hpool. unfold rt_ringbuffer_create, pipe_capacity in *. rewrite (proj2 (Z.gtb_lt _ _)) by lia.
  unfold RT_ALIGN_SIZE. rewrite RT_ALIGN_DOWN_4. set (cap := 4 * (bufsz / 4)) in *.
  assert (4 <= cap <= 32767 /\ cap mod 4 = 0) as [Hc Hc4] by (unfold cap; dlia).
  rewrite u16_small by lia. destruct mem; [|by exists None]. cbn [negb andb].
  destruct (pool cap) as [l|] eqn:El; [|by exists None]. rewrite bool_decide_true by by eexists.
  destruct (init_spec l cap) as (rb & E & Hwf & Hq & Hs); [lia|by apply Hpool|].
  assert (s16 cap = cap) as -> by (unfold s16; dlia). rewrite E. exists (Some rb). split; [done|]. split_and!; [done|done|].
  rewrite Hs. dlia.
Qed.

Lemma open_locked_ok (m : pipes) p x mem pool queue :
  m !! p = Some x -> 4 <= pipe_bufsz x <= 32767 ->
  (forall l, pool (pipe_capacity (pipe_bufsz x)) = Some l -> pipe_capacity (pipe_bufsz x) <= zlen l) ->
  fifo_queue (pipe_capacity (pipe_bufsz x)) (pipe_fifo x) queue ->
  exists fifo queue', fifo_queue (pipe_capacity (pipe_bufsz x)) fifo queue' /\
    queue' = (match queue with
              | Some q => Some q
              | None => if mem && bool_decide (is_Some (pool (pipe_capacity (pipe_bufsz x)))) then Some [] else None
              end) /\
    forall k, open_locked mem pool p (Sys k m) =
      Some (match queue' with Some _ => RT_EOK | None => - RT_ENOMEM end, Sys k (<[p := set_fifo fifo x]> m)).
Proof.
  intros Hx Hb Hp Hq. destruct (pipe_fifo x) as [rb|] eqn:Ef.
  - destruct queue as [q|]; [|done]. exists (Some rb), (Some q). split; [done|]. split; [done|]. intros k1.
    unfold open_locked. rewrite (bind_ok _ _ _ _ _ (get_pipe_ok k1 m p x Hx)), Ef.
    replace (set_fifo (Some rb) x) with x by (rewrite <- Ef; by destruct x). by rewrite insert_id.
  - destruct queue as [q|]; [done|]. destruct (create_fifo_spec (pipe_bufsz x) mem pool Hb Hp) as (fifo & Ec & Hf).
    eexists fifo, _. split; [exact Hf|]. split; [done|]. intros k1.
    unfold open_locked. rewrite (bind_ok _ _ _ _ _ (get_pipe_ok k1 m p x Hx)), Ef, Ec.
    rewrite (bind_ok _ _ _ fifo (Sys k1 m) eq_refl), (bind_ok _ _ _ _ _ (upd_pipe_ok k1 m p x _ Hx)).
    destruct fifo, (mem && _); done.
Qed.

Lemma activate_idle c p x d k m :
  idle c p x d k m ->
  exists k' d', lift_k (when (Z.land (dev_flag d) RT_DEVICE_FLAG_ACTIVATED =? 0) (activate p)) (Sys k m) = Some (tt, Sys k' m) /\
    idle c p x d' k' m /\ dev_ref_count d' = dev_ref_count d /\ standalone d' = standalone d.
Proof.
  intros Hi. destruct (Z.land _ _ =? 0).
  2: { by exists k, d. }
  set (f := fun d => set_dev_flag (Z.lor (dev_flag d) RT_DEVICE_FLAG_ACTIVATED) d).
  exists (dev_st p (f d) k), (f d). split; [|split; [by apply (idle_dev c p x d)|split; [done|]]].
  - apply lift_k_ok. apply (upd_dev_eq k p d f). apply Hi.
  - unfold standalone. simpl. rewrite Z.land_lor_distr_l.
    change (Z.land RT_DEVICE_FLAG_ACTIVATED RT_DEVICE_FLAG_STANDALONE) with 0. by rewrite Z.lor_0_r.
Qed.

(** One more user; there is no room in the count for a 256th. *)
Lemma count_user c p x d k m :
  idle c p x d k m -> 0 <= dev_ref_count d <= 255 ->
  if dev_ref_count d <? 255 then
    exists k' d', lift_k (add_user p) (Sys k m) = Some (tt, Sys k' m) /\ idle c p x d' k' m /\
      dev_ref_count d' = dev_ref_count d + 1 /\ standalone d' = standalone d
  else lift_k (add_user p) (Sys k m) = None.
Proof.
  intros Hi Hn.
  set (d1 := set_dev_open_flag (Z.lor (dev_open_flag d) RT_DEVICE_OFLAG_OPEN) d). set (k1 := dev_st p d1 k).
  set (d2 := set_dev_ref_count (u8 (dev_ref_count d1 + 1)) d1). set (k2 := dev_st p d2 k1).
  assert (lift_k (add_user p) (Sys k m) = lift_k (rt_assert (negb (dev_ref_count d2 =? 0))) (Sys k2 m)) as E.
  { unfold add_user, lift_k. cbn [sys_kernel sys_data].
    rewrite (bind_ok _ _ _ _ _ (upd_dev_eq k p d _ (de_lookup _ _ _ (id_device _ _ _ _ _ _ Hi)))).
    rewrite (bind_ok _ _ _ _ _ (upd_dev_eq k1 p d1 _ (lookup_insert_eq _ _ _))).
    by rewrite (bind_ok _ _ _ _ _ (get_dev_eq k2 p d2 (lookup_insert_eq _ _ _))). }
  rewrite E. change (dev_ref_count d2) with (u8 (dev_ref_count d + 1)).
  destruct (Z.ltb_spec (dev_ref_count d) 255) as [H|H].
  - exists k2, d2. rewrite u8_small by lia. rewrite (proj2 (Z.eqb_neq _ _)) by lia. split; [done|].
    split; [apply (idle_dev c p x d1); [by apply (idle_dev c p x d)|done]|]. split; [|done]. change (dev_ref_count d2) with (u8 (dev_ref_count d + 1)). by rewrite u8_small by lia.
  - by replace (dev_ref_count d) with 255 by lia.
Qed.

Section calls.
Context (fuel c p : nat) (bufsz : Z) (v : pipe_abs) (k : kstate) (m : pipes).
Context (Hfuel : (2 <= fuel)%nat) (Hrel : pipe_rel c p bufsz v k m).

Definition does (call : P (called (list Z * Z))) (r : option (list Z * Z * pipe_abs)) : Prop :=
  match r with
  | Some (r, v') => exists k' m', call (Sys k m) = Some (Done r, Sys k' m') /\ pipe_rel c p bufsz v' k' m'
  | None => call (Sys k m) = None
  end.

Lemma open_does mem pool oflag :
  pipe_op_ok (pipe_capacity bufsz) (PipeOpen mem pool oflag) ->
  does (pipe_call fuel p (PipeOpen mem pool oflag)) (pipe_spec (pipe_capacity bufsz) v (PipeOpen mem pool oflag)).
Proof using Hfuel Hrel.
  unfold does. intros Hpool. destruct Hrel as [(x & d & Hi & <- & Hq & Hn & Hs) Hb Hu Ho]. destruct v as [queue users]. cbn [pa_queue pa_users] in *.
  destruct (activate_idle c p x d k m Hi) as (k1 & d1 & E1 & Hi1 & Hn1 & Hs1).
  destruct (open_locked_ok m p x mem pool queue (id_pipe _ _ _ _ _ _ Hi1) Hb Hpool Hq) as (fifo & queue' & Hq' & Eq & E2).
  destruct (with_lock_idle c p x d1 k1 m (open_locked mem pool p) _ (set_fifo fifo x) Hi1 eq_refl (fun k2 _ => E2 k2)) as (k2 & E3 & Hi2).
  assert (forall f, device_open mem pool p oflag (Sys k m) = calls (rt_pipe_open mem pool (Some p) oflag) f (Sys k1 m) ->
    device_open mem pool p oflag (Sys k m) = f (match queue' with Some _ => RT_EOK | None => - RT_ENOMEM end) (Sys k2 (<[p:=set_fifo fifo x]> m))) as E.
  { intros f ->. apply calls_done. exact E3. }
  eassert (device_open mem pool p oflag (Sys k m) = calls (rt_pipe_open mem pool (Some p) oflag) _ (Sys k1 m)) as Ecalls.
  { unfold device_open. rewrite (bind_assert_dev c p x d k m _ Hi), (bind_get_dev c p x d k m _ Hi).
    rewrite (bind_ok _ _ _ _ _ E1), (bind_get_dev c p x d1 k1 m _ Hi1). rewrite Hs1, Hs. reflexivity. }
  apply E in Ecalls. clear E. unfold pipe_spec, pipe_call. rewrite <- Eq.
  destruct queue' as [q|].
  - change (accepted RT_EOK) with true in Ecalls. cbv beta iota in Ecalls.
    pose proof (count_user c p _ d1 k2 _ Hi2) as Hc. rewrite Hn1, Hn in Hc. specialize (Hc Hu).
    destruct (Z.ltb_spec users 255).
    + destruct Hc as (k3 & d3 & E3' & Hi3 & Hn3 & Hs3). exists k3, (<[p := set_fifo fifo x]> m). split.
      { apply (calls_is _ _ _ RT_EOK (Sys k3 (<[p := set_fifo fifo x]> m))); [|done]. rewrite Ecalls. by rewrite (bind_ok _ _ _ _ _ E3'). }
      constructor; [|done|simpl; lia|done]. exists (set_fifo fifo x), d3. split; [done|]. split; [done|].
      split; [done|]. split; [done|]. congruence.
    + apply calls_none. rewrite Ecalls. by rewrite bind_unfold, Hc.
  - exists k2, (<[p := set_fifo fifo x]> m). split.
    { by apply (calls_is _ _ _ (- RT_ENOMEM) (Sys k2 (<[p := set_fifo fifo x]> m))). }
    destruct queue as [q|]; [done|]. constructor; [|done..]. exists (set_fifo fifo x), d1. split; [done|]. split; [done|].
    split; [done|]. cbn [pa_users]. split; congruence.
Qed.

(** The driver's [close] finds the count at 0, and does nothing. *)
Lemma close_locked_ok k0 x d k1 :
  idle c p x d k0 m -> dev_ref_count d = 0 -> k_devices k1 = k_devices k0 ->
  close_locked p (Sys k1 m) = Some (RT_EOK, Sys k1 (<[p := x]> m)).
Proof using Type.
  intros [[_ Hd _] _ _ Hx] Hn E. unfold close_locked. rewrite <- E in Hd.
  rewrite (bind_ok _ _ _ _ _ (lift_k_ok _ _ m _ _ (get_dev_eq k1 p d Hd))), Hn. by rewrite insert_id.
Qed.

Lemma close_does : does (pipe_call fuel p PipeClose) (pipe_spec (pipe_capacity bufsz) v PipeClose).
Proof using Hfuel Hrel.
  unfold does. destruct Hrel as [(x & d & Hi & Eb & Hq & Hn & Hs) Hb Hu Ho]. destruct v as [queue users]. cbn [pa_queue pa_users] in *.
  set (d1 := set_dev_ref_count (u8 (dev_ref_count d - 1)) d).
  assert (idle c p x d1 (dev_st p d1 k) m) as Hi1 by (by apply (idle_dev c p x d)).
  unfold pipe_call, pipe_spec. destruct (Z.eqb_spec users 0) as [H0|H0].
  { exists k, m. split; [|constructor; [by exists x, d|done..]]. apply (calls_is _ _ _ (- RT_ERROR) (Sys k m)); [|done].
    unfold device_close. rewrite (bind_assert_dev c p x d k m _ Hi), (bind_get_dev c p x d k m _ Hi). by rewrite Hn, H0. }
  assert (dev_ref_count d1 = users - 1) as Hn1 by (unfold d1; cbn; rewrite Hn, u8_small; lia).
  assert (forall k' m' d', idle c p x d' k' m' -> dev_ref_count d' = users - 1 -> standalone d' = false ->
    pipe_rel c p bufsz (PipeAbs queue (users - 1)) k' m') as Hrel'.
  { intros k' m' d' ? ? ?. constructor; [by exists x, d'|done|simpl; lia|]. cbn [pa_users pa_queue]. intros _. apply Ho. lia. }
  eassert (device_close p (Sys k m) =
    ((if negb (users - 1 =? 0) then mret (Done RT_EOK) else _) : P (called Z)) (Sys (dev_st p d1 k) m)) as E.
  { unfold device_close. rewrite (bind_assert_dev c p x d k m _ Hi), (bind_get_dev c p x d k m _ Hi), Hn.
    rewrite (proj2 (Z.eqb_neq _ _) H0), (bind_upd_dev c p x d k m _ _ Hi). fold d1.
    rewrite (bind_get_dev c p x d1 _ m _ Hi1), Hn1. reflexivity. }
  destruct (Z.eqb_spec (users - 1) 0) as [Hlast|Hlast]; cbn [negb] in E.
  - destruct (with_lock_idle c p x d1 (dev_st p d1 k) m (close_locked p) RT_EOK x Hi1 eq_refl) as (k2 & E2 & Hi2).
    { intros k1 E1. apply (close_locked_ok (dev_st p d1 k) x d1); [done|lia|done]. }
    set (d2 := set_dev_open_flag RT_DEVICE_OFLAG_CLOSE d1). exists (dev_st p d2 k2), (<[p := x]> m).
    split; [|apply (Hrel' _ _ d2); [by apply (idle_dev c p x d1)|done|done]].
    apply (calls_is _ _ _ RT_EOK (Sys (dev_st p d2 k2) (<[p := x]> m))); [|done]. rewrite E.
    apply (calls_is _ _ _ RT_EOK (Sys k2 (<[p := x]> m)) _ E2). exact (bind_upd_dev c p x d1 k2 _ _ _ Hi2).
  - exists (dev_st p d1 k), m. split; [|by apply (Hrel' _ _ d1)]. by apply (calls_is _ _ _ RT_EOK (Sys (dev_st p d1 k) m)).
Qed.

(** A transfer on a device without users: nothing but an error number. *)
Lemma no_users {A} x d (a : A) (f : P (called A)) :
  idle c p x d k m -> dev_ref_count d = 0 ->
  exists k', (lift_k (assert_type (ODevice p) RT_Object_Class_Device);;
    d ← lift_k (get_dev p);
    if dev_ref_count d =? 0 then lift_k (rt_set_errno (- RT_ERROR));; mret (Done a) else f) (Sys k m) = Some (Done a, Sys k' m) /\
    idle c p x d k' m.
Proof using Type.
  intros Hi Hn. destruct (idle_errno c p x d k m (- RT_ERROR) Hi) as (k' & E & Hi'). exists k'. split; [|done].
  rewrite (bind_assert_dev c p x d k m _ Hi), (bind_get_dev c p x d k m _ Hi), Hn. cbn [Z.eqb].
  by rewrite (bind_ok _ _ _ _ _ (lift_k_ok _ _ m _ _ E)).
Qed.

(** A transfer on an open device, whose loop leaves the ring buffer [fifo]. *)
Lemma transfer_idle {A} x d (body : P A) a fifo :
  idle c p x d k m -> (forall k, body (Sys k m) = Some (a, Sys k (<[p := set_fifo fifo x]> m))) ->
  exists k' m', with_pipe p body (Sys k m) = Some (Done a, Sys k' m') /\ idle c p (set_fifo fifo x) d k' m'.
Proof using Type.
  intros Hi E. destruct (with_lock_idle c p x d k m body a (set_fifo fifo x) Hi eq_refl (fun k _ => E k)) as (k' & ? & ?).
  by exists k', (<[p := set_fifo fifo x]> m).
Qed.

Lemma write_does buffer count :
  pipe_op_ok (pipe_capacity bufsz) (PipeWrite buffer count) ->
  does (pipe_call fuel p (PipeWrite buffer count)) (pipe_spec (pipe_capacity bufsz) v (PipeWrite buffer count)).
Proof using Hfuel Hrel.
  intros [Hc Hbuf]. unfold does. destruct Hrel as [(x & d & Hi & Eb & Hq & Hn & Hs) Hb Hu Ho]. destruct v as [queue users].
  cbn [pa_queue pa_users] in *. unfold pipe_call, pipe_spec. change (2 ^ 16) with 65536. fold (u16 count).
  destruct (Z.eqb_spec users 0) as [H0|H0].
  { destruct (no_users x d 0 (rt_pipe_write fuel (Some p) buffer count) Hi) as (k' & E & Hi'); [lia|].
    exists k', m. split; [by apply (calls_is _ _ _ 0 (Sys k' m))|]. constructor; [by exists x, d|done..]. }
  destruct queue as [q|]; [|by destruct Ho; [lia|]]. destruct (pipe_fifo x) as [rb|] eqn:Ef; [|done].
  destruct Hq as (Hwf & Hq & Hsize). pose proof (zlen_contents rb Hwf) as Hz. rewrite Hq in Hz.
  pose proof (occupied_bounds rb Hwf). set (n := Z.min (u16 count) (pipe_capacity bufsz - zlen q)).
  assert (exists k' m' rb', rt_pipe_write fuel (Some p) buffer count (Sys k m) = Some (Done n, Sys k' m') /\
    idle c p (set_fifo (Some rb') x) d k' m' /\ rb_wf rb' /\ contents rb' = q ++ ztake n buffer /\ buffer_size rb' = pipe_capacity bufsz)
    as (k' & m' & rb' & E & Hi' & Hwf' & Hq' & Hs').
  { unfold rt_pipe_write. destruct (Z.eqb_spec count 0) as [Hc0|Hc0].
    - exists k, m, rb. assert (n = 0) as -> by (unfold n; rewrite Hc0; change (u16 0) with 0; lia).
      split; [done|]. rewrite app_nil_r. replace (set_fifo (Some rb) x) with x by (rewrite <- Ef; by destruct x). done.
    - destruct (write_loop_ok m p x rb buffer count fuel (id_pipe _ _ _ _ _ _ Hi) Ef Hwf Hfuel) as (rb' & Hwf' & Hq' & Hs' & E); [lia|done|].
      rewrite Hsize, <- Hz in Hq', E. fold n in Hq', E.
      destruct (transfer_idle x d _ n (Some rb') Hi E) as (k' & m' & E' & Hi'). exists k', m', rb'.
      split; [done|]. split; [done|]. split; [done|]. rewrite Hq', Hq. split; [done|]. by rewrite Hs'. }
  exists k', m'. split.
  - apply (calls_is _ _ _ n (Sys k' m')); [|done]. unfold device_write.
    by rewrite (bind_assert_dev c p x d k m _ Hi), (bind_get_dev c p x d k m _ Hi), Hn, (proj2 (Z.eqb_neq _ _) H0).
  - constructor; [|done|done|done]. exists (set_fifo (Some rb') x), d. split; [done|]. split; [done|]. by split.
Qed.

Lemma read_does count :
  pipe_op_ok (pipe_capacity bufsz) (PipeRead count) ->
  does (pipe_call fuel p (PipeRead count)) (pipe_spec (pipe_capacity bufsz) v (PipeRead count)).
Proof using Hfuel Hrel.
  intros Hc. cbn in Hc. unfold does. destruct Hrel as [(x & d & Hi & Eb & Hq & Hn & Hs) Hb Hu Ho]. destruct v as [queue users].
  cbn [pa_queue pa_users] in *. unfold pipe_call, pipe_spec. change (2 ^ 16) with 65536. fold (u16 count).
  destruct (Z.eqb_spec users 0) as [H0|H0].
  { destruct (no_users x d ([], 0) (rt_pipe_read fuel (Some p) count) Hi) as (k' & E & Hi'); [lia|].
    exists k', m. split; [done|]. constructor; [by exists x, d|done..]. }
  destruct queue as [q|]; [|by destruct Ho; [lia|]]. destruct (pipe_fifo x) as [rb|] eqn:Ef; [|done].
  destruct Hq as (Hwf & Hq & Hsize). pose proof (zlen_contents rb Hwf) as Hz. rewrite Hq in Hz.
  pose proof (occupied_bounds rb Hwf). set (n := Z.min (u16 count) (zlen q)).
  assert (exists k' m' rb', rt_pipe_read fuel (Some p) count (Sys k m) = Some (Done (ztake n q, n), Sys k' m') /\
    idle c p (set_fifo (Some rb') x) d k' m' /\ rb_wf rb' /\ contents rb' = zdrop n q /\ buffer_size rb' = pipe_capacity bufsz)
    as (k' & m' & rb' & E & Hi' & Hwf' & Hq' & Hs').
  { unfold rt_pipe_read. destruct (Z.eqb_spec count 0) as [Hc0|Hc0].
    - exists k, m, rb. assert (n = 0) as -> by (unfold n; rewrite Hc0; change (u16 0) with 0; lia).
      split; [done|]. replace (set_fifo (Some rb) x) with x by (rewrite <- Ef; by destruct x). done.
    - destruct (read_loop_ok m p x rb count fuel (id_pipe _ _ _ _ _ _ Hi) Ef Hwf Hfuel) as (rb' & Hwf' & Hq' & Hs' & E); [lia|].
      rewrite Hq, <- Hz in *. fold n in Hq', E.
      destruct (transfer_idle x d _ (ztake n q, n) (Some rb') Hi E) as (k' & m' & E' & Hi'). exists k', m', rb'.
      split; [done|]. split; [done|]. split; [done|]. split; [done|]. by rewrite Hs'. }
  exists k', m'. split.
  - unfold device_read.
    by rewrite (bind_assert_dev c p x d k m _ Hi), (bind_get_dev c p x d k m _ Hi), Hn, (proj2 (Z.eqb_neq _ _) H0).
  - constructor; [|done|done|done]. exists (set_fifo (Some rb') x), d. split; [done|]. split; [done|]. by split.
Qed.

Lemma call_does op :
  pipe_op_ok (pipe_capacity bufsz) op -> does (pipe_call fuel p op) (pipe_spec (pipe_capacity bufsz) v op).
Proof using Hfuel Hrel.
  destruct op; [apply open_does|intros _; apply close_does|apply write_does|apply read_does].
Qed.
End calls.

(** C28: a pipe is a bounded queue of bytes, by its device calls. Whatever is
    opened, closed, written and read while no other thread has the pipe's mutex, the
    results and the bytes are those of a queue of [bufsz] rounded down to a multiple
    of 4, and the assertions fail exactly where the specification says, at a 256th user.
    The first opening makes the queue, or gives [-RT_ENOMEM]; closing never empties
    it; a transfer is of the count modulo 2^16, or as much of it as there are bytes or is room,
    and its loop ends in two rounds. The mutex is free afterwards and the kernel invariant holds. *)
Theorem pipe_refines_queue fuel c p bufsz v k m ops :
  (2 <= fuel)%nat -> pipe_rel c p bufsz v k m -> Forall (pipe_op_ok (pipe_capacity bufsz)) ops ->
  match pipe_spec_run (pipe_capacity bufsz) v ops with
  | Some (rs, v') => exists k' m', pipe_run fuel p ops (Sys k m) = Some (Done rs, Sys k' m') /\ pipe_rel c p bufsz v' k' m'
  | None => pipe_run fuel p ops (Sys k m) = None
  end.
Proof.
  intros Hfuel. revert v k m. induction ops as [|op ops IH]; intros v k m Hrel Hops; [by exists k, m|].
  apply Forall_cons_1 in Hops as [Hop Hops]. pose proof (call_does fuel c p bufsz v k m Hfuel Hrel op Hop) as Hcall.
  simpl pipe_spec_run. destruct (pipe_spec (pipe_capacity bufsz) v op) as [[r v1]|] eqn:Es; cbn [does] in Hcall.
  2: by apply calls_none.
  destruct Hcall as (k1 & m1 & E1 & Hrel1). specialize (IH v1 k1 m1 Hrel1 Hops).
  destruct (pipe_spec_run (pipe_capacity bufsz) v1 ops) as [[rs v2]|].
  - destruct IH as (k2 & m2 & E2 & Hrel2). exists k2, m2. split; [|done].
    apply (calls_is _ _ _ _ _ _ E1). by apply (calls_is _ _ _ rs (Sys k2 m2)).
  - apply (calls_is _ _ _ _ _ _ E1). by apply calls_none.
Qed.

(** [rt_pipe_create] only asserts that the size is below 65535. A pipe whose size has no
    multiple of 4 below it, or is not a positive [rt_int16_t], cannot be opened: the
    assertions of the ring buffer fail. *)
Theorem pipe_open_asserts c p x d k m pool l oflag :
  idle c p x d k m -> pipe_fifo x = None -> 0 <= pipe_bufsz x < 4 \/ 32768 <= pipe_bufsz x < 65535 ->
  pool (pipe_capacity (pipe_bufsz x)) = Some l ->
  rt_pipe_open true pool (Some p) oflag (Sys k m) = None.
Proof.
  intros [[Hok _ _] [th Hc] (mx & Hmx & Ho) Hx] Hf Hb Hp.
  destruct (take_devices k (pipe_lock x) mx c th Hok Hmx Hc RT_WAITING_FOREVER Ho) as (k1 & _ & E1 & _).
  assert (rt_ringbuffer_create (pipe_bufsz x) true pool = None) as Ec.
  { unfold rt_ringbuffer_create, pipe_capacity in *. destruct (Z.gtb_spec (pipe_bufsz x) 0); [|done].
    unfold RT_ALIGN_SIZE. rewrite RT_ALIGN_DOWN_4. set (cap := 4 * (pipe_bufsz x / 4)) in *.
    assert (cap = 0 \/ 32768 <= cap < 65536) as Hcap by (unfold cap; dlia).
    rewrite u16_small by lia. cbn [negb]. rewrite Hp. unfold rt_ringbuffer_init.
    destruct (Z.gtb_spec (s16 cap) 0) as [Hs|]; [|done]. unfold s16 in Hs. dlia. }
  unfold rt_pipe_open, with_pipe. rewrite (bind_ok _ _ _ _ _ (get_pipe_ok k m p x Hx)), (bind_ok _ _ _ _ _ (lift_k_ok _ _ m _ _ E1)).
  rewrite bind_unfold. unfold pipe_locked. rewrite bind_unfold. unfold open_locked.
  by rewrite (bind_ok _ _ _ _ _ (get_pipe_ok k1 m p x Hx)), Hf, Ec.
Qed.

(** ** Waiting for the mutex *)

Section wait.
Context {A : Type} (p : nat) (body : P A) (c : nat) (x : rt_pipe) (mx : rt_mutex) (th : rt_thread) (k : kstate) (m : pipes).
Context (Hok : kernel_ok k) (Hmx : mutex_ok k (pipe_lock x) mx) (Hc : can_block k c th) (Hx : m !! p = Some x).

(** The caller is suspended among those who wait for the mutex; nothing happens to any pipe. *)
Lemma with_lock_waits o :
  mx_owner mx = Some o -> o <> c ->
  exists k', with_pipe p body (Sys k m) = Some (Waits (pipe_resumed p body), Sys k' m) /\ kernel_ok k' /\
    mutex_ok k' (pipe_lock x) mx /\ highest_running k' /\
    k_threads k' !! c = Some (with_stat RT_THREAD_SUSPEND (set_th_error RT_EOK th)) /\
    c ∈ qget (k_tq k') (QMutex (pipe_lock x)).
Proof using Hok Hmx Hc Hx.
  intros Ho Hne.
  destruct (take_wait k (pipe_lock x) mx c th RT_WAITING_FOREVER Hok Hmx Hc o Ho Hne) as (k' & E & Hok' & Hmx' & Hh & Hth & Hq & _);
    [done|done|].
  exists k'. split_and!; try done.
  - unfold with_pipe. by rewrite (bind_ok _ _ _ _ _ (get_pipe_ok k m p x Hx)), (bind_ok _ _ _ _ _ (lift_k_ok _ _ m _ _ E)).
  - destruct Hq as (l1 & l2 & _ & -> & _). set_solver.
Qed.

(** The thread runs again, and has the mutex: it does the rest, and hands the mutex on. *)
Lemma resumed_owner a x' :
  mx_owner mx = Some c -> mx_hold mx = 1 -> pipe_lock x' = pipe_lock x ->
  body (Sys k m) = Some (a, Sys k (<[p := x']> m)) ->
  exists k' mx', pipe_resumed p body (Sys k m) = Some (Done a, Sys k' (<[p := x']> m)) /\ kernel_ok k' /\ mutex_ok k' (pipe_lock x) mx' /\
    match qget (k_tq k) (QMutex (pipe_lock x)) with
    | [] => mx_owner mx' = None /\ k_current k' = Some c
    | t :: l => mx_owner mx' = Some t /\ mx_hold mx' = 1 /\ qget (k_tq k') (QMutex (pipe_lock x)) = l /\ highest_running k'
    end.
Proof using Hok Hmx Hc Hx.
  intros Ho Hh Hl Eb.
  assert (exists r k' mx', rt_mutex_release (pipe_lock x) k = Some (r, k') /\ kernel_ok k' /\ mutex_ok k' (pipe_lock x) mx' /\
    match qget (k_tq k) (QMutex (pipe_lock x)) with
    | [] => mx_owner mx' = None /\ k_current k' = Some c
    | t :: l => mx_owner mx' = Some t /\ mx_hold mx' = 1 /\ qget (k_tq k') (QMutex (pipe_lock x)) = l /\ highest_running k'
    end) as (r & k' & mx' & E & Hok' & Hmx' & Hq).
  { destruct (qget (k_tq k) (QMutex (pipe_lock x))) as [|t l] eqn:El.
    - destruct (release_free k (pipe_lock x) mx c th Hok Hmx Hc Ho Hh El) as (k' & mx' & th' & ? & ? & ? & _ & _ & ? & []).
      by exists RT_EOK, k', mx'.
    - destruct (release_handover k (pipe_lock x) mx c th Hok Hmx Hc t l Ho Hh El)
        as (k' & mx' & _ & _ & ? & ? & ? & _ & _ & ? & ? & ? & ? & _). by exists RT_EOK, k', mx'. }
  exists k', mx'. split; [|done]. unfold pipe_resumed.
  assert (exists e, (thread ← current_thread; rt_mutex_take_return thread) k = Some (e, k)) as [e E1].
  { unfold current_thread, rt_thread_self, rt_mutex_take_return. mrun. rewrite (cb_current _ _ _ Hc). cbv beta iota.
    rewrite (get_thread_eq c k th) by apply Hc. destruct (th_error th =? RT_EOK); by eexists. }
  rewrite (bind_ok _ _ _ _ _ (lift_k_ok _ _ m _ _ E1)). unfold pipe_locked.
  assert ((a ← body; x ← get_pipe p; lift_k (rt_mutex_release (pipe_lock x));; mret a) (Sys k m) = Some (a, Sys k' (<[p := x']> m))) as E2;
    [|by rewrite (bind_ok _ _ _ _ _ E2)].
  rewrite (bind_ok _ _ _ _ _ Eb), (bind_ok _ _ _ _ _ (get_pipe_ok k _ p x' (lookup_insert_eq _ _ _))), Hl.
  by rewrite (bind_ok _ _ _ _ _ (lift_k_ok _ _ _ _ _ E)).
Qed.
End wait.

(** a write that finds the pipe in use waits, and leaves the pipe as it is. When its thread
    has been given the mutex, which may be much later and find other bytes in the
    pipe, the rest of the call appends the bytes there is room for then, and the
    mutex goes to the next thread that waits. *)
Theorem pipe_write_waits fuel c p x mx th o k m buffer count :
  (2 <= fuel)%nat -> 0 < count < 2 ^ 64 -> count <= zlen buffer ->
  kernel_ok k -> mutex_ok k (pipe_lock x) mx -> can_block k c th -> m !! p = Some x -> mx_owner mx = Some o -> o <> c ->
  exists k' rest, rt_pipe_write fuel (Some p) buffer count (Sys k m) = Some (Waits rest, Sys k' m) /\ kernel_ok k' /\
    mutex_ok k' (pipe_lock x) mx /\ highest_running k' /\ c ∈ qget (k_tq k') (QMutex (pipe_lock x)) /\
    forall x1 mx1 th1 rb k1 m1,
      kernel_ok k1 -> mutex_ok k1 (pipe_lock x1) mx1 -> can_block k1 c th1 -> m1 !! p = Some x1 ->
      mx_owner mx1 = Some c -> mx_hold mx1 = 1 -> pipe_fifo x1 = Some rb -> rb_wf rb ->
      let n := Z.min (count mod 2 ^ 16) (buffer_size rb - zlen (contents rb)) in
      exists k2 mx2 rb', rest (Sys k1 m1) = Some (Done n, Sys k2 (<[p := set_fifo (Some rb') x1]> m1)) /\
        rb_wf rb' /\ contents rb' = contents rb ++ ztake n buffer /\ kernel_ok k2 /\ mutex_ok k2 (pipe_lock x1) mx2 /\
        mx_owner mx2 = head (qget (k_tq k1) (QMutex (pipe_lock x1))).
Proof.
  intros Hfuel Hcount Hbuf Hok Hmx Hc Hx Ho Hne. set (body := loop fuel (write_round p buffer count) 0).
  destruct (with_lock_waits p body c x mx th k m Hok Hmx Hc Hx o Ho Hne) as (k' & E & ? & ? & ? & _ & ?).
  exists k', (pipe_resumed p body). split; [unfold rt_pipe_write; by rewrite (proj2 (Z.eqb_neq _ _)) by lia|].
  do 4 (split; [done|]). intros x1 mx1 th1 rb k1 m1 Hok1 Hmx1 Hc1 Hx1 Ho1 Hh1 Hf1 Hwf n.
  destruct (write_loop_ok m1 p x1 rb buffer count fuel Hx1 Hf1 Hwf Hfuel Hcount Hbuf) as (rb' & Hwf' & Eq & _ & Eb).
  rewrite <- (zlen_contents rb Hwf) in Eq, Eb. fold body in Eb.
  destruct (resumed_owner p body c x1 mx1 th1 k1 m1 Hok1 Hmx1 Hc1 Hx1 n (set_fifo (Some rb') x1) Ho1 Hh1 eq_refl (Eb k1)) as (k2 & mx2 & E2 & ? & ? & Hq).
  exists k2, mx2, rb'. do 5 (split; [done|]).
  destruct (qget (k_tq k1) (QMutex (pipe_lock x1))); by destruct Hq.
Qed.

(** ** A concrete pipe: 64 bytes, of the main thread *)

Definition create_demo : P (option nat) := rt_pipe_create (Some (1%nat, (0%nat, 1%nat, 0%nat))) [112] 64.
Definition pipe_demo : option (option nat * sys pipes) := create_demo (Sys demo_state ∅).
Definition pipe_demo_kernel : kstate := match pipe_demo with Some (_, s) => sys_kernel s | None => demo_state end.
Definition pipe_demo_pipe : rt_pipe := RtPipe true None 64 0 0 0 1 0.
Definition pipe_demo_pipes : pipes := {[ 1%nat := pipe_demo_pipe ]}.

(** What [rt_pipe_create] leaves. *)
Lemma pipe_demo_created : pipe_demo = Some (Some 1%nat, Sys pipe_demo_kernel pipe_demo_pipes).
Proof. vm_compute. reflexivity. Qed.

Lemma pipe_demo_rel : pipe_rel 0 1 64 (PipeAbs None 0) pipe_demo_kernel pipe_demo_pipes.
Proof.
  constructor; [|split; discriminate|split; discriminate|intros H; discriminate H].
  exists pipe_demo_pipe, (default raw_device (k_devices pipe_demo_kernel !! 1%nat)).
  split; [|vm_compute; by split_and!]. constructor.
  - constructor; [apply kernel_check_sound; vm_compute; reflexivity|vm_compute; reflexivity|vm_compute; reflexivity].
  - exists (thread_at 0 pipe_demo_kernel). constructor; vm_compute; reflexivity.
  - exists (mutex_at 0 pipe_demo_kernel). split; [|vm_compute; reflexivity].
    constructor; [vm_compute; reflexivity|vm_compute; reflexivity|vm_compute; reflexivity|]. vm_compute. by split_and!.
  - reflexivity.
Qed.

(** 70 bytes are written into the 64, and the pipe is closed and opened again:
    what was not read is still there. *)
Definition demo_bytes : list Z := map Z.of_nat (seq 0 70).
Definition demo_ops : list pipe_op :=
  [PipeOpen true (fun n => Some (replicate (Z.to_nat n) 0)) 2; PipeWrite demo_bytes 70; PipeRead 60; PipeClose;
   PipeOpen true (fun _ => None) 2; PipeRead 70].

Lemma pipe_refines_queue_witness :
  exists k' m', pipe_run 2 1 demo_ops (Sys pipe_demo_kernel pipe_demo_pipes) =
      Some (Done [([], 0); ([], 64); (take 60 demo_bytes, 60); ([], 0); ([], 0); ([60; 61; 62; 63], 4)], Sys k' m') /\
    pipe_rel 0 1 64 (PipeAbs (Some []) 1) k' m'.
Proof.
  pose proof (pipe_refines_queue 2 0 1 64 _ _ _ demo_ops (le_n 2) pipe_demo_rel) as H.
  assert (Forall (pipe_op_ok (pipe_capacity 64)) demo_ops) as Hok.
  { repeat constructor; try discriminate. intros l Hl. injection Hl as <-. discriminate. }
  specialize (H Hok). exact H.
Defined.

(** The same pipe, held by another thread. *)
Lemma pipe_write_waits_witness :
  exists k' rest, rt_pipe_write 2 (Some 1%nat) [7; 8; 9] 3 (Sys mutex_demo_wait {[ 1%nat := pipe_demo_pipe ]}) =
      Some (Waits rest, Sys k' {[ 1%nat := pipe_demo_pipe ]}) /\ kernel_ok k' /\ 0%nat ∈ qget (k_tq k') (QMutex 0).
Proof.
  destruct (pipe_write_waits 2 0 1 pipe_demo_pipe (mutex_at 0 mutex_demo_wait) (thread_at 0 mutex_demo_wait) 4 mutex_demo_wait
    {[ 1%nat := pipe_demo_pipe ]} [7; 8; 9] 3 (le_n 2)) as (k' & rest & E & Hok & _ & _ & Hc & _).
  - by split.
  - discriminate.
  - apply kernel_check_sound. vm_compute. reflexivity.
  - constructor; [vm_compute; reflexivity|vm_compute; reflexivity|vm_compute; reflexivity|].
    vm_compute. split_and!; try congruence. eexists. split; [reflexivity|discriminate].
  - constructor; vm_compute; reflexivity.
  - reflexivity.
  - vm_compute. reflexivity.
  - discriminate.
  - exists k', rest. split; [exact E|]. split; [exact Hok|exact Hc].
Defined.

(** A second pipe of the same name is refused, and its block freed, but not before its
    mutex has become an object of the kernel: the list of mutexes keeps a node in freed memory. *)
Example pipe_create_leaves_mutex :
  match rt_pipe_create (Some (2%nat, (2%nat, 3%nat, 9%nat))) [112] 64 (Sys pipe_demo_kernel pipe_demo_pipes) with
  | Some (pipe, s) => pipe = None /\ OMutex 9 ∈ qget (k_objlist (sys_kernel s)) RT_Object_Class_Mutex /\
      k_mutexes (sys_kernel s) !! 9%nat = None
  | None => False
  end.
Proof. vm_compute. split; [reflexivity|]. split; [apply list_elem_of_here|reflexivity]. Qed.
