(* ===== verification/Line.v ===== *)
(** * Lines in memory

    A text in a buffer with zeros behind it, writing into it, and changes of the
    memory that are confined to a place. *)
From S2P Require Import Prelude Cmem Kmemory Kstring.

(** ** Only one place of the memory changes *)

Record changed (a n : Z) (m m' : cmem) : Prop := Changed {
  chg_other : forall b, ~ (a <= b < a + n) -> m' !! b = m !! b;
  chg_mapped : forall b, is_Some (m !! b) -> is_Some (m' !! b);
  chg_ok : cmem_ok m -> cmem_ok m'
}.

Lemma changed_refl a n m : changed a n m m.
Proof. done. Qed.

Lemma changed_trans a n m1 m2 m3 : changed a n m1 m2 -> changed a n m2 m3 -> changed a n m1 m3.
Proof.
  intros [H1 H2 H3] [H4 H5 H6]. constructor; [|auto..]. intros b Hb. by rewrite H4, H1.
Qed.

Lemma changed_mono a n a' n' m m' : a' <= a -> a + n <= a' + n' -> changed a n m m' -> changed a' n' m m'.
Proof. intros Ha Hn [H1 H2 H3]. constructor; [|done|done]. intros b Hb. apply H1. lia. Qed.

Lemma changed_write a l m : Forall (fun v => 0 <= v < 256) l -> changed a (zlen l) m (write_bytes a l m).
Proof.
  intros Hl. constructor.
  - intros b Hb. by apply write_bytes_out.
  - intros b Hb. apply (write_bytes_mapped a l m b 1); [|lia]. intros c Hc. by replace c with b by lia.
  - intros Hm. by apply cmem_ok_write.
Qed.

Lemma changed_store a v m : 0 <= v < 256 -> changed a 1 m (<[a := v]> m).
Proof. intros Hv. apply (changed_write a [v]). by constructor. Qed.

Lemma changed_filled a v n m : 0 <= n -> 0 <= v < 256 -> changed a n m (filled a v n m).
Proof.
  intros Hn Hv. unfold filled. rewrite <- (zlen_replicate n v Hn) at 1. apply changed_write.
  by apply Forall_replicate.
Qed.

Lemma changed_bytes a n m m' b l :
  changed a n m m' -> apart a n b (zlen l) -> bytes_at m b l -> bytes_at m' b l.
Proof.
  intros [H _ _] Ha Hl i v E. pose proof (lookup_lt_Some _ _ _ E). rewrite H; [by apply Hl|].
  unfold apart, zlen in Ha. lia.
Qed.

Lemma changed_cstring a n m m' b s :
  changed a n m m' -> apart a n b (zlen s + 1) -> cstring m b s -> cstring m' b s.
Proof.
  intros H Ha [Hn Hb]. split; [done|]. apply (changed_bytes _ _ _ _ _ _ H); [|done].
  rewrite zlen_app. exact Ha.
Qed.

(** Of a string that is split in two at a place that becomes zero. *)
Lemma cstring_split m a l c r :
  c <> 0 -> cstring m a (l ++ c :: r) ->
  cstring (<[a + zlen l := 0]> m) a l /\ cstring (<[a + zlen l := 0]> m) (a + zlen l + 1) r.
Proof.
  intros Hc [Hn Hb]. apply Forall_app in Hn as [Hl Hr]. apply Forall_cons in Hr as [_ Hr].
  rewrite <- app_assoc in Hb. apply bytes_at_app in Hb as [H1 H2]. cbn in H2. apply bytes_at_cons in H2 as [_ H2].
  pose proof (zlen_nonneg l). split; split; try done.
  - apply bytes_at_app. split.
    + apply (write_bytes_apart (a + zlen l) [0]); [|done]. change (zlen [0]) with 1. unfold apart. lia.
    + apply bytes_at_cons. split; [apply lookup_insert_eq|apply bytes_at_nil].
  - apply (write_bytes_apart (a + zlen l) [0]); [|done]. change (zlen [0]) with 1. unfold apart. lia.
Qed.

Lemma cstring_suffix m a l r : cstring m a (l ++ r) -> cstring m (a + zlen l) r.
Proof.
  intros [Hn Hb]. apply Forall_app in Hn as [_ Hn]. rewrite <- app_assoc in Hb. by apply bytes_at_app in Hb as [_ Hb].
Qed.

(** ** A line *)

(** The buffer of [n] bytes at [a] holds [text], and zeros behind it. *)
Record line_holds (m : cmem) (a n : Z) (text : list Z) : Prop := LineHolds {
  lh_bytes : bytes_at m a (text ++ replicate (Z.to_nat (n - zlen text)) 0);
  lh_text : Forall (fun c => c <> 0) text;
  lh_length : zlen text < n
}.

Lemma line_string m a n text : line_holds m a n text -> cstring m a text.
Proof.
  intros [Hb Ht Hl]. split; [done|]. apply bytes_at_app in Hb as [H1 H2]. apply bytes_at_app. split; [done|].
  replace (Z.to_nat (n - zlen text)) with (S (Z.to_nat (n - zlen text - 1))) in H2 by lia.
  cbn [replicate] in H2. apply bytes_at_cons in H2 as [H2 _]. apply bytes_at_cons. split; [done|apply bytes_at_nil].
Qed.

Lemma line_mapped m a n text : line_holds m a n text -> mapped m a n.
Proof.
  intros [Hb _ Hl]. apply bytes_at_mapped in Hb. rewrite zlen_app, zlen_replicate in Hb by lia.
  by replace (zlen text + (n - zlen text)) with n in Hb by lia.
Qed.

(** A longer text written over the one that is there. *)
Lemma line_write m a n text new :
  line_holds m a n text -> Forall (fun c => c <> 0) new -> zlen text <= zlen new < n ->
  line_holds (write_bytes a new m) a n new.
Proof.
  intros [Hb _ _] Hn Hl. split; [|done|lia]. apply bytes_at_app. split; [apply write_bytes_at|].
  apply write_bytes_apart; [unfold apart; rewrite zlen_replicate by lia; lia|].
  replace (Z.to_nat (n - zlen text)) with (Z.to_nat (zlen new - zlen text) + Z.to_nat (n - zlen new))%nat in Hb by lia.
  rewrite replicate_add, app_assoc in Hb. apply bytes_at_app in Hb as [_ Hb].
  rewrite zlen_app, zlen_replicate in Hb by lia. by replace (zlen text + (zlen new - zlen text)) with (zlen new) in Hb by lia.
Qed.

(** ** Writing into a line *)

(** The text [l], and at least as many zeros as are needed to end the line,
    written from the [k]th character on. *)
Lemma line_splice m a n text k l z :
  line_holds m a n text -> 0 <= k <= zlen text -> Forall (fun c => c <> 0) l ->
  zlen text <= k + zlen l + Z.of_nat z -> k + zlen l < n -> k + zlen l + Z.of_nat z <= n ->
  line_holds (write_bytes (a + k) (l ++ replicate z 0) m) a n (ztake k text ++ l).
Proof.
  intros [Hb Ht Hn] Hk Hl H1 H2 H3. pose proof (zlen_nonneg l). pose proof (zlen_ztake k text ltac:(lia)) as Hz.
  constructor; [|apply Forall_app; split; [by apply Forall_take|done]|rewrite zlen_app; lia].
  assert (zlen (l ++ replicate z 0) = zlen l + Z.of_nat z) as Ew by (rewrite zlen_app; unfold zlen; rewrite length_replicate; lia).
  rewrite zlen_app, Hz, <- app_assoc.
  replace (Z.to_nat (n - (k + zlen l))) with (z + Z.to_nat (n - (k + zlen l + Z.of_nat z)))%nat by lia.
  rewrite replicate_add, (app_assoc l). apply bytes_at_app. rewrite Hz. split; [|apply bytes_at_app; split].
  - apply write_bytes_apart; [unfold apart; lia|]. apply bytes_at_app in Hb as [Hb _].
    unfold ztake. rewrite <- (take_drop (Z.to_nat k) text) in Hb. by apply bytes_at_app in Hb as [Hb _].
  - apply write_bytes_at.
  - apply write_bytes_apart; [unfold apart; lia|]. rewrite Ew.
    replace (Z.to_nat (n - zlen text)) with
      (Z.to_nat (k + zlen l + Z.of_nat z - zlen text) + Z.to_nat (n - (k + zlen l + Z.of_nat z)))%nat in Hb by lia.
    rewrite replicate_add, app_assoc in Hb. apply bytes_at_app in Hb as [_ Hb].
    rewrite zlen_app, zlen_replicate in Hb by lia. by replace (a + k + (zlen l + Z.of_nat z)) with
      (a + (zlen text + (k + zlen l + Z.of_nat z - zlen text))) by lia.
Qed.

Lemma line_changed m m' b k a n text : changed b k m m' -> apart b k a n -> line_holds m a n text -> line_holds m' a n text.
Proof.
  intros Hc Ha [Hb Ht Hn]. constructor; [|done|done]. apply (changed_bytes _ _ _ _ _ _ Hc); [|done].
  rewrite zlen_app, zlen_replicate by lia. by replace (zlen text + (n - zlen text)) with n by lia.
Qed.

Lemma mapped_changed m m' b k a n : changed b k m m' -> mapped m a n -> mapped m' a n.
Proof. intros Hc Hm c Hcn. by apply Hc, Hm. Qed.

(** A buffer of zeros. *)
Lemma line_empty a n m : 0 < n -> line_holds (filled a 0 n m) a n [].
Proof.
  intros Hn. constructor; [|done|done]. change (zlen []) with 0. rewrite Z.sub_0_r. apply write_bytes_at.
Qed.

(** Two buffers with the same bytes hold the same text. *)
Lemma padded_eq s t n :
  Forall (fun c => c <> 0) s -> Forall (fun c => c <> 0) t -> zlen s < n -> zlen t < n ->
  s ++ replicate (Z.to_nat (n - zlen s)) 0 = t ++ replicate (Z.to_nat (n - zlen t)) 0 <-> s = t.
Proof.
  intros Hs Ht H1 H2. split; [|by intros ->]. intros H.
  assert (exists i j, s ++ replicate (S i) 0 = t ++ replicate (S j) 0) as (i & j & E).
  { exists (Z.to_nat (n - zlen s - 1)), (Z.to_nat (n - zlen t - 1)).
    replace (S (Z.to_nat (n - zlen s - 1))) with (Z.to_nat (n - zlen s)) by lia.
    by replace (S (Z.to_nat (n - zlen t - 1))) with (Z.to_nat (n - zlen t)) by lia. }
  clear H H1 H2. revert t Ht E. induction Hs as [|c s Hc Hs IH]; intros t Ht E; destruct Ht as [|d t Hd Ht]; cbn in E.
  - done.
  - by injection E as <- _.
  - by injection E as -> _.
  - injection E as -> E. f_equal. by apply IH.
Qed.
