(* ===== verification/Msh.v ===== *)
(** * The command interpreter

    [components/finsh/msh.c]: splitting a line into arguments, finding and
    running a command, and completing its name. The commands are those of a
    table whose entries [MSH_CMD_EXPORT] puts in the symbol section; what they
    do is an argument. The strings lie in the memory of Cmem.v, and what is
    printed is kept as the text that [rt_kprintf] gives to the console's
    driver, by [console_text] of Console.v. [strncmp] and [strlen] are those of
    the C library. *)
From Stdlib Require Import String Ascii.
From S2P Require Import Prelude Cmem Kmemory Kstring Printf PrintfNumber Console.
Open Scope Z_scope.

Definition FINSH_ARG_MAX : Z := 10.

(** The memory, what has been printed, and what the commands work on. *)
Record shell_state (W : Type) := ShellState {
  sh_memory : cmem;
  sh_out : list Z;
  sh_world : W
}.
Arguments ShellState {W}.
Arguments sh_memory {W}.
Arguments sh_out {W}.
Arguments sh_world {W}.

(** A command is called with [argc] and [argv]. *)
Record finsh_syscall (W : Type) := Syscall {
  sc_name : Z;
  sc_desc : Z;
  sc_func : option (Z -> list Z -> St (shell_state W) Z)
}.
Arguments Syscall {W}.
Arguments sc_name {W}.
Arguments sc_desc {W}.
Arguments sc_func {W}.

(** ** Walks over strings *)

Definition blank (c : Z) : bool := (c =? char " ") || (c =? 9).

(** [strncmp] of the C library. *)
Definition libc_strncmp_round (x : Z * Z * Z) : St cmem (Z * Z * Z + Z) :=
  let '(s1, s2, n) := x in
  if n =? 0 then stop 0
  else
    c1 ← load s1; c2 ← load s2;
    if negb (c1 =? c2) then stop (c1 - c2)
    else if c1 =? 0 then stop 0
    else again (s1 + 1, s2 + 1, n - 1).
Definition strncmp (s1 s2 n : Z) : St cmem Z := loop (S (Z.to_nat n)) libc_strncmp_round (s1, s2, n).
(** [strlen] of the C library. *)
Definition strlen (s : Z) : St cmem Z := rt_strlen s.

(** The string at [a]. *)
Definition get_string (a : Z) : St cmem (list Z) := n ← rt_strlen a; load_bytes (Z.to_nat n) a.

(** The loop over blanks, which are overwritten. *)
Definition skip_round (length : Z) (x : Z * Z) : St cmem (Z * Z + Z * Z) :=
  let '(ptr, position) := x in
  c ← load ptr;
  if blank c && (position <? length) then store ptr 0;; again (ptr + 1, position + 1)
  else stop (ptr, position).

(** The loop to the closing double quote, character 34. *)
Definition quoted_round (length : Z) (x : Z * Z) : St cmem (Z * Z + Z * Z) :=
  let '(ptr, position) := x in
  c ← load ptr;
  if negb (c =? 34) && (position <? length) then
    d ← (if c =? char "\" then load (ptr + 1) else mret 0);
    let '(ptr, position) := if d =? 34 then (ptr + 1, position + 1) else (ptr, position) in
    again (ptr + 1, position + 1)
  else stop (ptr, position).

(** The loop to the next blank. *)
Definition plain_round (length : Z) (x : Z * Z) : St cmem (Z * Z + Z * Z) :=
  let '(ptr, position) := x in
  c ← load ptr;
  if negb (blank c) && (position <? length) then again (ptr + 1, position + 1) else stop (ptr, position).

(** The loop over the leading blanks. *)
Definition lead_round (x : Z * Z) : St cmem (Z * Z + Z * Z) :=
  let '(cmd, length) := x in
  if 0 <? length then
    c ← load cmd;
    if blank c then again (cmd + 1, length - 1) else stop (cmd, length)
  else stop (cmd, length).

(** The loop to the next space. *)
Definition tcmd_round (tcmd : Z) : St cmem (Z + Z) :=
  c ← load tcmd;
  if negb (c =? char " ") && negb (c =? 0) then again (tcmd + 1) else stop tcmd.

Definition common_round (x : Z * Z) : St cmem (Z * Z + Z) :=
  let '(str, str2) := x in
  c1 ← load str; c2 ← load str2;
  if negb (c1 =? 0) && negb (c2 =? 0) && (c1 =? c2) then again (str + 1, str2 + 1) else stop str.
Definition str_common (str1 str2 : Z) : St cmem Z :=
  fuel ← cmem_fuel;
  str ← loop fuel common_round (str1, str2);
  mret (s32 (str - str1)).

Section msh.
Context {W : Type}.
(** [_syscall_table_begin] to [_syscall_table_end]. *)
Context (table : list (finsh_syscall W)).

Definition on_bytes {A} (x : St cmem A) : St (shell_state W) A := fun s =>
  match x (sh_memory s) with
  | Some (a, m) => Some (a, ShellState m (sh_out s) (sh_world s))
  | None => None
  end.

(** [rt_kprintf] of this text. *)
Definition say (text : list Z) : St (shell_state W) unit :=
  modify (fun s => ShellState (sh_memory s) (sh_out s ++ console_text text) (sh_world s)).

(** ** [msh_help] *)

(** [rt_kprintf("%-16s - %s\n", index->name, index->desc)]. *)
Fixpoint help_loop (t : list (finsh_syscall W)) : St (shell_state W) unit :=
  match t with
  | [] => mret tt
  | index :: t =>
      name ← on_bytes (get_string (sc_name index));
      desc ← on_bytes (get_string (sc_desc index));
      say (name ++ spaces (16 - zlen name) ++ chars " - " ++ desc ++ [10]);;
      help_loop t
  end.
Definition msh_help (argc : Z) (argv : list Z) : St (shell_state W) Z :=
  say (chars "RT-Thread shell commands:" ++ [10]);;
  help_loop table;;
  say [10];;
  mret 0.

(** ** [msh_split] *)

Fixpoint say_args (l : list Z) : St (shell_state W) unit :=
  match l with
  | [] => mret tt
  | a :: l => s ← on_bytes (get_string a); say (s ++ chars " ");; say_args l
  end.
Definition too_many_args (argc : Z) (argv : list Z) : St (shell_state W) unit :=
  say (chars "Too many args ! We only Use:" ++ [10]);;
  say_args (ztake argc argv);;
  say [10].

(** [ptr], [position], [argc] and [argv]; the result is [argc] and [argv]. The
    second half of a round, once the blanks are overwritten. *)
Definition split_argument (length : Z) (x : Z * Z * Z * list Z) :
    St (shell_state W) (Z * Z * Z * list Z + Z * list Z) :=
  let '(ptr, position, argc, argv) := x in
  let fuel := S (Z.to_nat length) in
  c ← on_bytes (load ptr);
  if c =? 34 then
    let ptr := ptr + 1 in
    let position := position + 1 in
    let argv := zset argv argc ptr in
    let argc := argc + 1 in
    '(ptr, position) ← on_bytes (loop fuel (quoted_round length) (ptr, position));
    if length <=? position then stop (argc, argv)
    else
      on_bytes (store ptr 0);;
      again (ptr + 1, position + 1, argc, argv)
  else
    let argv := zset argv argc ptr in
    let argc := argc + 1 in
    '(ptr, position) ← on_bytes (loop fuel (plain_round length) (ptr, position));
    if length <=? position then stop (argc, argv) else again (ptr, position, argc, argv).
Definition split_round (length : Z) (x : Z * Z * Z * list Z) :
    St (shell_state W) (Z * Z * Z * list Z + Z * list Z) :=
  let '(ptr, position, argc, argv) := x in
  if position <? length then
    '(ptr, position) ← on_bytes (loop (S (Z.to_nat length)) (skip_round length) (ptr, position));
    if FINSH_ARG_MAX <=? argc then too_many_args argc argv;; stop (argc, argv)
    else if length <=? position then stop (argc, argv)
    else split_argument length (ptr, position, argc, argv)
  else stop (argc, argv).

Definition msh_split (cmd length : Z) (argv : list Z) : St (shell_state W) (Z * list Z) :=
  loop (S (Z.to_nat length)) (split_round length) (cmd, 0, 0, argv).

(** ** [msh_get_cmd] and [msh_exec] *)

Fixpoint get_cmd_loop (cmd size : Z) (t : list (finsh_syscall W)) :
    St (shell_state W) (option (Z -> list Z -> St (shell_state W) Z)) :=
  match t with
  | [] => mret None
  | index :: t =>
      r ← on_bytes (strncmp (sc_name index) cmd (u64 size));
      if r =? 0 then
        c ← on_bytes (load (sc_name index + size));
        if c =? 0 then mret (sc_func index) else get_cmd_loop cmd size t
      else get_cmd_loop cmd size t
  end.
Definition msh_get_cmd (cmd size : Z) : St (shell_state W) (option (Z -> list Z -> St (shell_state W) Z)) :=
  get_cmd_loop cmd size table.

(** The first result is the returned value, the second [*retp] where it is
    assigned. *)
Definition _msh_exec_cmd (cmd length : Z) : St (shell_state W) (Z * option Z) :=
  rt_assert (negb (cmd =? 0));;
  '(_, cmd0_size) ← on_bytes (loop (S (Z.to_nat length)) (plain_round length) (cmd, 0));
  if cmd0_size =? 0 then mret (-1, None)
  else
    cmd_func ← msh_get_cmd cmd (s32 cmd0_size);
    match cmd_func with
    | None => mret (-1, None)
    | Some func =>
        '(argc, argv) ← msh_split cmd length (replicate (Z.to_nat FINSH_ARG_MAX) 0);
        if argc =? 0 then mret (-1, None)
        else r ← func argc argv; mret (0, Some r)
    end.

(** Of a line without its leading blanks. *)
Definition msh_run (cmd length : Z) : St (shell_state W) Z :=
  '(r, cmd_ret) ← _msh_exec_cmd cmd length;
  if r =? 0 then deref cmd_ret
  else
    fuel ← on_bytes cmem_fuel;
    tcmd ← on_bytes (loop fuel tcmd_round cmd);
    on_bytes (store tcmd 0);;
    name ← on_bytes (get_string cmd);
    say (name ++ chars ": command not found." ++ [10]);;
    mret (-1).
Definition msh_exec (cmd length : Z) : St (shell_state W) Z :=
  '(cmd, length) ← on_bytes (loop (S (Z.to_nat length)) lead_round (cmd, length));
  if length =? 0 then mret 0 else msh_run cmd length.

(** ** [msh_auto_complete] *)

(** [min_length] and [name_ptr]. *)
Fixpoint complete_loop (prefix : Z) (t : list (finsh_syscall W)) (min_length name_ptr : Z) :
    St (shell_state W) (Z * Z) :=
  match t with
  | [] => mret (min_length, name_ptr)
  | index :: t =>
      let cmd_name := sc_name index in
      n ← on_bytes (strlen prefix);
      r ← on_bytes (strncmp prefix cmd_name n);
      if r =? 0 then
        '(min_length, name_ptr) ← (if min_length =? 0 then n ← on_bytes (strlen cmd_name); mret (s32 n, cmd_name)
                                   else mret (min_length, name_ptr));
        length ← on_bytes (str_common name_ptr cmd_name);
        let min_length := if length <? min_length then length else min_length in
        name ← on_bytes (get_string cmd_name);
        say (name ++ [10]);;
        complete_loop prefix t min_length name_ptr
      else complete_loop prefix t min_length name_ptr
  end.
Definition msh_auto_complete (prefix : Z) : St (shell_state W) unit :=
  c ← on_bytes (load prefix);
  if c =? 0 then msh_help 0 [];; mret tt
  else
    '(min_length, name_ptr) ← complete_loop prefix table 0 0;
    when (negb (name_ptr =? 0)) (on_bytes (rt_strncpy prefix name_ptr (u64 min_length));; mret tt).
End msh.
