(* ===== verification/MshSpec.v ===== *)
(** * What a command line means

    The words of a line as a function of its text, and that the loops of
    [msh_split] find them. *)
From Stdlib Require Import String Ascii.
From S2P Require Import Prelude Kservice Cmem Kmemory Kstring Line Printf PrintfNumber Console Msh.
Open Scope Z_scope.

(** ** Words *)

Fixpoint drop_blanks (l : list Z) : list Z :=
  match l with
  | [] => []
  | c :: l' => if blank c then drop_blanks l' else l
  end.

(** A word up to the next blank, and what follows it. *)
Fixpoint plain (l : list Z) : list Z * list Z :=
  match l with
  | [] => ([], [])
  | c :: l' => if blank c then ([], l) else let '(w, r) := plain l' in (c :: w, r)
  end.

(** The text up to the closing double quote, and what follows the quote. An
    escaped quote does not close; it stays in the text with its backslash. *)
Fixpoint quoted (l : list Z) : list Z * list Z :=
  match l with
  | [] => ([], [])
  | c :: l' =>
      if c =? 34 then ([], l')
      else
        match l' with
        | [] => ([c], [])
        | d :: l'' =>
            if (c =? char "\") && (d =? 34) then let '(w, r) := quoted l'' in (c :: d :: w, r)
            else let '(w, r) := quoted l' in (c :: w, r)
        end
  end.

(** The first [n] words, and what follows them. *)
Fixpoint words (n : nat) (l : list Z) : list (list Z) * list Z :=
  match n with
  | O => ([], l)
  | S n =>
      match drop_blanks l with
      | [] => ([], [])
      | c :: l' =>
          let '(w, r) := if c =? 34 then quoted l' else plain (c :: l') in
          let '(ws, r) := words n r in
          (w :: ws, r)
      end
  end.

Definition leading (l : list Z) : Z := zlen l - zlen (drop_blanks l).

Lemma drop_blanks_le l : 0 <= leading l.
Proof.
  unfold leading. induction l as [|c l IH]; cbn [drop_blanks]; [lia|].
  destruct (blank c); [|lia]. rewrite zlen_cons. lia.
Qed.

Lemma drop_blanks_suffix l : exists b, l = b ++ drop_blanks l /\ leading l = zlen b.
Proof.
  assert (exists b, l = b ++ drop_blanks l) as [b Eb].
  { induction l as [|d l [b IH]]; [by exists []|]. cbn. destruct (blank d); [|by exists []].
    exists (d :: b). cbn. by rewrite <- IH. }
  exists b. split; [done|]. unfold leading. rewrite Eb at 1. rewrite zlen_app. lia.
Qed.

Lemma drop_blanks_head c l l' : drop_blanks l = c :: l' -> blank c = false.
Proof. induction l as [|d l IH]; [done|]. cbn. destruct (blank d) eqn:E; [done|]. by intros [= <- _]. Qed.

Lemma plain_app l w r : plain l = (w, r) -> l = w ++ r.
Proof.
  revert w r. induction l as [|c l IH]; intros w r; cbn; [by intros [= <- <-]|].
  destruct (blank c); [by intros [= <- <-]|]. destruct (plain l) as [w1 r1]. intros [= <- <-].
  cbn. f_equal. by apply IH.
Qed.

Lemma plain_rest l w r : plain l = (w, r) -> match r with [] => True | c :: _ => blank c = true end.
Proof.
  revert w r. induction l as [|c l IH]; intros w r; cbn; [by intros [= <- <-]|].
  destruct (blank c) eqn:E; [by intros [= <- <-]|]. destruct (plain l) as [w1 r1]. intros [= <- <-]. by eapply IH.
Qed.

(** The text in quotes is closed, or is all there is. *)
Lemma quoted_app l w r : quoted l = (w, r) -> l = w ++ 34 :: r \/ l = w /\ r = [].
Proof.
  assert (forall n l w r, (length l <= n)%nat -> quoted l = (w, r) -> l = w ++ 34 :: r \/ l = w /\ r = []) as H;
    [|by apply (H (length l))].
  clear l w r. induction n as [|n IH]; intros [|c l] w r Hn; cbn [length] in Hn; try lia;
    try (by intros [= <- <-]; right).
  cbn [quoted]. destruct (Z.eqb_spec c 34) as [->|]; [by intros [= <- <-]; left|].
  destruct l as [|d l]; [by intros [= <- <-]; right|]. cbn [length] in Hn.
  destruct (_ && _) eqn:E.
  - destruct (quoted l) as [w1 r1] eqn:Eq. intros [= <- <-].
    destruct (IH l w1 r1 ltac:(lia) Eq) as [H|[H1 H2]]; [left; by rewrite H at 1|right; by subst].
  - destruct (quoted (d :: l)) as [w1 r1] eqn:Eq. intros [= <- <-].
    destruct (IH (d :: l) w1 r1 ltac:(cbn; lia) Eq) as [H|[H1 H2]]; [left; by rewrite H at 1|right; by subst].
Qed.

Lemma drop_blanks_string m cmd l : cstring m cmd l -> cstring m (cmd + leading l) (drop_blanks l).
Proof.
  destruct (drop_blanks_suffix l) as (b & Eb & ->). intros Hs. apply cstring_suffix. by rewrite <- Eb.
Qed.

(** ** The loops over characters *)

Lemma skip_spec length l : forall m ptr position fuel,
  cstring m ptr l -> position + zlen l = length -> (List.length l < fuel)%nat ->
  loop fuel (skip_round length) (ptr, position) m =
  Some ((ptr + leading l, position + leading l), filled ptr 0 (leading l) m).
Proof.
  induction l as [|c l IH]; intros m ptr position [|fuel] Hs Hp Hf; cbn [List.length] in Hf; try lia.
  - apply cstring_nil in Hs. rewrite (loop_step _ _ _ _ (inr (ptr, position)) m).
    + unfold leading, filled. cbn. by rewrite !Z.add_0_r.
    + unfold skip_round. by rewrite (load_bind _ _ _ _ Hs).
  - apply cstring_cons in Hs as (Hc & E & Hs). rewrite zlen_cons in Hp. pose proof (zlen_nonneg l).
    unfold leading. cbn [drop_blanks]. rewrite zlen_cons. destruct (blank c) eqn:Eb.
    + rewrite (loop_step _ _ _ _ (inl (ptr + 1, position + 1)) (<[ptr := 0]> m)).
      * rewrite IH; [| |lia|lia].
        -- pose proof (drop_blanks_le l). fold (leading l).
           replace (zlen l + 1 - zlen (drop_blanks l)) with (leading l + 1) by (unfold leading; lia).
           f_equal. f_equal; [pairs|]. unfold filled. rewrite Z2Nat.inj_add by lia.
           change (Z.to_nat 1) with 1%nat. rewrite Nat.add_comm. done.
        -- apply cstring_store; [unfold apart; lia|done].
      * unfold skip_round. rewrite (load_bind _ _ _ _ E), Eb. rewrite (proj2 (Z.ltb_lt position length)) by lia.
        cbn [andb]. rewrite (bind_ok _ _ _ _ _ (store_ok _ _ 0 (ltac:(by eexists)))). done.
    + rewrite (loop_step _ _ _ _ (inr (ptr, position)) m).
      * rewrite zlen_cons. unfold filled. replace (zlen l + 1 - (zlen l + 1)) with 0 by lia. cbn. by rewrite !Z.add_0_r.
      * unfold skip_round. by rewrite (load_bind _ _ _ _ E), Eb.
Qed.

Lemma plain_spec length l : forall m ptr position fuel,
  cstring m ptr l -> position + zlen l = length -> (List.length l < fuel)%nat ->
  loop fuel (plain_round length) (ptr, position) m =
  Some ((ptr + zlen (plain l).1, position + zlen (plain l).1), m).
Proof.
  induction l as [|c l IH]; intros m ptr position [|fuel] Hs Hp Hf; cbn [List.length] in Hf; try lia.
  - apply cstring_nil in Hs. rewrite (loop_step _ _ _ _ (inr (ptr, position)) m); [cbn; by rewrite !Z.add_0_r|].
    unfold plain_round. rewrite (load_bind _ _ _ _ Hs). change (zlen []) with 0 in Hp.
    by rewrite (proj2 (Z.ltb_ge position length)) by lia.
  - apply cstring_cons in Hs as (Hc & E & Hs). rewrite zlen_cons in Hp. pose proof (zlen_nonneg l).
    cbn [plain]. destruct (blank c) eqn:Eb.
    + rewrite (loop_step _ _ _ _ (inr (ptr, position)) m); [cbn; by rewrite !Z.add_0_r|].
      unfold plain_round. by rewrite (load_bind _ _ _ _ E), Eb.
    + rewrite (loop_step _ _ _ _ (inl (ptr + 1, position + 1)) m).
      * rewrite IH by (done || lia). destruct (plain l) as [w r]. cbn [fst]. rewrite zlen_cons. f_equal. f_equal. pairs.
      * unfold plain_round. rewrite (load_bind _ _ _ _ E), Eb. by rewrite (proj2 (Z.ltb_lt position length)) by lia.
Qed.

Lemma quoted_step length m ptr position c l :
  cstring m ptr (c :: l) -> position < length ->
  quoted_round length (ptr, position) m =
  Some (if c =? 34 then inr (ptr, position)
        else if (c =? char "\") && (chr l =? 34) then inl (ptr + 1 + 1, position + 1 + 1)
        else inl (ptr + 1, position + 1), m).
Proof.
  intros (Hc & E & Hs)%cstring_cons Hp. unfold quoted_round. rewrite (load_bind _ _ _ _ E).
  destruct (Z.eqb_spec c 34) as [H34|H34]; cbn [negb andb]; [done|]. rewrite (proj2 (Z.ltb_lt position length)) by lia.
  destruct (Z.eqb_spec c (char "\")) as [Hb|Hb]; cbn [andb].
  - rewrite (load_bind _ _ _ _ (cstring_chr _ _ _ Hs)). by destruct (_ =? 34).
  - done.
Qed.

Lemma quoted_spec length n : forall m ptr position fuel l,
  (List.length l <= n)%nat -> cstring m ptr l -> position + zlen l = length -> (List.length l < fuel)%nat ->
  loop fuel (quoted_round length) (ptr, position) m =
  Some ((ptr + zlen (quoted l).1, position + zlen (quoted l).1), m).
Proof.
  induction n as [|n IH]; intros m ptr position [|fuel] [|c l] Hn Hs Hp Hf; cbn [List.length] in Hn, Hf; try lia.
  1-2: apply cstring_nil in Hs; rewrite (loop_step _ _ _ _ (inr (ptr, position)) m); [cbn; by rewrite !Z.add_0_r|];
    unfold quoted_round; rewrite (load_bind _ _ _ _ Hs); change (zlen []) with 0 in Hp;
    by rewrite (proj2 (Z.ltb_ge position length)) by lia.
  rewrite zlen_cons in Hp. pose proof (zlen_nonneg l).
  rewrite (loop_step _ _ _ _ _ _ (quoted_step length m ptr position c l Hs ltac:(lia))). cbn [quoted].
  apply cstring_cons in Hs as (Hc & E & Hs). destruct (Z.eqb_spec c 34) as [H34|H34]; [cbn; by rewrite !Z.add_0_r|].
  destruct l as [|d l].
  { rewrite andb_comm. cbn [chr Z.eqb andb]. rewrite (IH _ _ _ fuel []) by (done || cbn in *; lia).
    cbn [quoted fst]. change (zlen []) with 0. change (zlen [c]) with 1. by rewrite !Z.add_0_r. }
  cbn [chr List.length] in *. rewrite zlen_cons in *. destruct (_ && _) eqn:Eb.
  - apply cstring_cons in Hs as (Hd & Ed & Hs). rewrite (IH _ _ _ fuel l) by (done || lia).
    destruct (quoted l) as [w r]. cbn [fst]. rewrite !zlen_cons. f_equal. f_equal. pairs.
  - rewrite (IH _ _ _ fuel (d :: l)) by (done || (rewrite ?zlen_cons; cbn; lia)). destruct (quoted (d :: l)) as [w r]. cbn [fst].
    rewrite zlen_cons. f_equal. f_equal. pairs.
Qed.

Lemma get_string_spec m a s : cstring m a s -> get_string a m = Some (s, m).
Proof.
  intros Hs. unfold get_string. rewrite (bind_ok _ _ _ _ _ (strlen_spec _ _ _ Hs)). destruct Hs as [_ Hb].
  apply bytes_at_app in Hb as [Hb _]. unfold zlen. rewrite Nat2Z.id. by apply load_bytes_ok.
Qed.

Section split.
Context {W : Type}.
Implicit Types (w : W).

Lemma on_bytes_ok {A} (x : St cmem A) m o w a m' :
  x m = Some (a, m') -> on_bytes x (ShellState m o w) = Some (a, ShellState m' o w).
Proof. intros E. unfold on_bytes. cbn. by rewrite E. Qed.

Lemma on_bytes_bind {A B} (x : St cmem A) (f : A -> St (shell_state W) B) m o w a m' :
  x m = Some (a, m') -> (on_bytes x ≫= f) (ShellState m o w) = f a (ShellState m' o w).
Proof. intros E. apply bind_ok. by apply on_bytes_ok. Qed.

Lemma say_ok t m o w : say t (ShellState m o w) = Some (tt, ShellState m (o ++ console_text t) w).
Proof. done. Qed.

(** ** The message about too many arguments *)

Definition many_text (ws : list (list Z)) : list Z :=
  console_text (chars "Too many args ! We only Use:" ++ [10]) ++
  concat (map (fun s => console_text (s ++ chars " ")) ws) ++ console_text [10].

Lemma say_args_spec ps ws m : Forall2 (cstring m) ps ws -> forall o w,
  say_args ps (ShellState m o w) =
  Some (tt, ShellState m (o ++ concat (map (fun s => console_text (s ++ chars " ")) ws)) w).
Proof.
  intros H. induction H as [|p s ps ws Hp H IH]; intros o w; [cbn; by rewrite app_nil_r|].
  cbn [say_args map concat]. rewrite (on_bytes_bind _ _ _ _ _ _ _ (get_string_spec _ _ _ Hp)).
  rewrite (bind_ok _ _ _ _ _ (say_ok _ _ _ _)), IH. by rewrite app_assoc.
Qed.

Lemma too_many_args_spec ps ws m rest o w :
  Forall2 (cstring m) ps ws ->
  too_many_args (zlen ps) (ps ++ rest) (ShellState m o w) = Some (tt, ShellState m (o ++ many_text ws) w).
Proof.
  intros H. unfold too_many_args. rewrite (bind_ok _ _ _ _ _ (say_ok _ _ _ _)).
  assert (ztake (zlen ps) (ps ++ rest) = ps) as -> by (unfold ztake, zlen; by rewrite Nat2Z.id, take_app_length).
  rewrite (bind_ok _ _ _ _ _ (say_args_spec _ _ _ H _ _)), say_ok. unfold many_text. by rewrite !app_assoc.
Qed.

(** ** A round of [msh_split] *)

(** The argument [s] at [p] ends before [hi]. *)
Definition argument (m : cmem) (hi p : Z) (s : list Z) : Prop := cstring m p s /\ p + zlen s + 1 <= hi.
(** The arguments found so far, once the blanks at [ptr] are overwritten. *)
Definition found_args (m : cmem) (ptr : Z) (l : list Z) (ps : list Z) (ws : list (list Z)) : Prop :=
  match l with
  | [] => Forall2 (cstring m) ps ws
  | _ => Forall2 (argument (filled ptr 0 (leading l) m) (ptr + leading l)) ps ws
  end.

Lemma argument_changed m m' hi n hi' p s : changed hi n m m' -> hi <= hi' -> argument m hi p s -> argument m' hi' p s.
Proof.
  intros Hc Hle [Hs Hb]. split; [|lia]. apply (changed_cstring _ _ _ _ _ _ Hc); [|done]. unfold apart. lia.
Qed.

Lemma arguments_changed m m' hi n hi' ps ws :
  changed hi n m m' -> hi <= hi' -> Forall2 (argument m hi) ps ws -> Forall2 (argument m' hi') ps ws.
Proof. intros Hc Hle H. eapply Forall2_impl; [exact H|]. intros p s. by apply argument_changed with n. Qed.

Lemma arguments_strings m hi ps ws : Forall2 (argument m hi) ps ws -> Forall2 (cstring m) ps ws.
Proof. intros H. eapply Forall2_impl; [exact H|]. by intros p s [Hs _]. Qed.

Lemma add_argument m ptr l ps ws p s :
  Forall2 (argument m ptr) ps ws -> argument m ptr p s -> found_args m ptr l (ps ++ [p]) (ws ++ [s]).
Proof.
  intros H Hp. assert (Forall2 (argument m ptr) (ps ++ [p]) (ws ++ [s])) as Ha by (apply Forall2_app; [done|by constructor]).
  destruct l as [|c l]; [by eapply arguments_strings|]. cbn [found_args]. pose proof (drop_blanks_le (c :: l)).
  apply (arguments_changed m _ ptr (leading (c :: l))); [apply changed_filled; lia|lia|done].
Qed.

Lemma zset_argv ps n p : zset (ps ++ replicate (S n) 0) (zlen ps) p = (ps ++ [p]) ++ replicate n 0.
Proof.
  unfold zset, zlen. rewrite Nat2Z.id, insert_app_r_alt, Nat.sub_diag by lia. cbn. by rewrite <- app_assoc.
Qed.

(** The outcome of a round that finds the word [s] of the line [l] at [ptr] and
    leaves [r]. *)
Definition word_found (length : Z) (round : St (shell_state W) (Z * Z * Z * list Z + Z * list Z)) (m : cmem) (ptr : Z) (l ps : list Z)
    (ws : list (list Z)) (n : nat) (o : list Z) (w : W) (s r : list Z) : Prop := exists m' p ptr' y,
  round (ShellState m o w) = Some (y, ShellState m' o w) /\
  (y = inl (ptr', length - zlen r, zlen ps + 1, (ps ++ [p]) ++ replicate n 0) \/
   r = [] /\ y = inr (zlen ps + 1, (ps ++ [p]) ++ replicate n 0)) /\
  cstring m' ptr' r /\ ptr' + zlen r = ptr + zlen l /\ zlen r < zlen l /\
  found_args m' ptr' r (ps ++ [p]) (ws ++ [s]) /\ changed ptr (zlen l) m m'.

Section word.
Context (length : Z) (m : cmem) (ptr position : Z) (c : Z) (l ps : list Z) (ws : list (list Z)) (n : nat) (o : list Z) (w : W).
Context (Hs : cstring m ptr (c :: l)) (Hps : Forall2 (argument m ptr) ps ws).
Context (Hpos : 0 <= position) (Hlen : position + zlen (c :: l) = length).

Local Abbreviation found_word :=
  (word_found length (split_argument length (ptr, position, zlen ps, ps ++ replicate (S n) 0)) m ptr (c :: l) ps ws n o w).

Lemma quoted_word s r : c = 34 -> quoted l = (s, r) -> found_word s r.
Proof.
  intros Hc E. pose proof Hs as (_ & Ec & Hl)%cstring_cons. pose proof (zlen_nonneg l). pose proof (zlen_nonneg r).
  rewrite zlen_cons in Hlen.
  assert (H34 : (c =? 34) = true) by lia.
  pose proof (quoted_spec length (List.length l) m (ptr + 1) (position + 1) (S (Z.to_nat length)) l
    ltac:(lia) Hl ltac:(lia) ltac:(unfold zlen in *; lia)) as Eq. rewrite E in Eq. cbn [fst] in Eq.
  destruct (quoted_app _ _ _ E) as [Hq|[Hq ->]].
  - assert (zlen l = zlen s + 1 + zlen r) as Hz by (rewrite Hq, zlen_app, zlen_cons; lia).
    rewrite Hq in Hl. apply cstring_split in Hl as [H1 H2]; [|lia]. pose proof (zlen_nonneg s).
    set (m' := <[ptr + 1 + zlen s := 0]> m) in *.
    exists m', (ptr + 1), (ptr + 1 + zlen s + 1), (inl (ptr + 1 + zlen s + 1, length - zlen r, zlen ps + 1, (ps ++ [ptr + 1]) ++ replicate n 0)).
    assert (changed (ptr + 1 + zlen s) 1 m m') as Hch by (apply changed_store; lia).
    split_and!; [|by left|done|rewrite zlen_cons; lia|rewrite zlen_cons; lia| |].
    + unfold split_argument. rewrite (on_bytes_bind _ _ _ _ _ _ _ (load_ok _ _ _ Ec)), H34. cbv zeta.
      rewrite (on_bytes_bind _ _ _ _ _ _ _ Eq), zset_argv. cbv beta iota.
      rewrite (proj2 (Z.leb_gt length _)) by lia.
      rewrite (on_bytes_bind _ _ m o w tt m'); [by replace (position + 1 + zlen s + 1) with (length - zlen r) by lia|].
      apply store_ok. replace (ptr + 1 + zlen s) with (ptr + (1 + zlen s)) by lia.
      destruct Hs as [_ Hb]. rewrite (bytes_at_lookup _ _ _ _ Hb); [by eexists|]. rewrite zlen_app, zlen_cons. change (zlen [0]) with 1. lia.
    + apply add_argument; [|by split; [|lia]].
      apply (arguments_changed m _ ptr (zlen l + 1)); [|lia|done]. apply (changed_mono (ptr + 1 + zlen s) 1); [lia|lia|done].
    + rewrite zlen_cons. apply (changed_mono (ptr + 1 + zlen s) 1); [lia|lia|done].
  - subst s. exists m, (ptr + 1), (ptr + 1 + zlen l), (inr (zlen ps + 1, (ps ++ [ptr + 1]) ++ replicate n 0)).
    change (zlen []) with 0. rewrite zlen_cons. split_and!; [|by right| |lia|lia| |done].
    + unfold split_argument. rewrite (on_bytes_bind _ _ _ _ _ _ _ (load_ok _ _ _ Ec)), H34. cbv zeta.
      rewrite (on_bytes_bind _ _ _ _ _ _ _ Eq), zset_argv. cbv beta iota. by rewrite (proj2 (Z.leb_le length _)) by lia.
    + apply cstring_suffix. by rewrite app_nil_r.
    + cbn [found_args]. apply Forall2_app; [by eapply arguments_strings|]. by constructor.
Qed.

Lemma plain_word s r : c <> 34 -> plain (c :: l) = (s, r) -> blank c = false -> found_word s r.
Proof.
  intros Hc E Hb. pose proof Hs as (_ & Ec & _)%cstring_cons. pose proof (plain_app _ _ _ E) as Happ.
  assert (H34 : (c =? 34) = false) by lia.
  assert (zlen (c :: l) = zlen s + zlen r) as Hz by (rewrite Happ, zlen_app; lia).
  assert (1 <= zlen s) as H1.
  { cbn [plain] in E. rewrite Hb in E. destruct (plain l). injection E as <- _. rewrite zlen_cons. pose proof (zlen_nonneg l0). lia. }
  pose proof (zlen_nonneg r). pose proof Hs as Hr. rewrite Happ in Hr. pose proof (cstring_suffix _ _ _ _ Hr) as Hr'.
  pose proof (plain_spec length (c :: l) m ptr position (S (Z.to_nat length)) Hs Hlen ltac:(unfold zlen in *; lia)) as Ep.
  rewrite E in Ep. cbn [fst] in Ep.
  exists m, ptr, (ptr + zlen s),
    (if length <=? position + zlen s then inr (zlen ps + 1, (ps ++ [ptr]) ++ replicate n 0)
     else inl (ptr + zlen s, length - zlen r, zlen ps + 1, (ps ++ [ptr]) ++ replicate n 0)).
  split_and!; [| |done|lia|lia| |done].
  - unfold split_argument. rewrite (on_bytes_bind _ _ _ _ _ _ _ (load_ok _ _ _ Ec)), H34. cbv zeta.
    rewrite (on_bytes_bind _ _ _ _ _ _ _ Ep), zset_argv. cbv beta iota.
    replace (length - zlen r) with (position + zlen s) by lia. by destruct (_ <=? _).
  - destruct (Z.leb_spec length (position + zlen s)); [right|by left]. split; [|done]. destruct r as [|d r]; [done|].
    pose proof (zlen_cons d r). pose proof (zlen_nonneg r). lia.
  - (* the next character is a blank, which is going to be overwritten *)
    destruct r as [|d r].
    + cbn [found_args]. rewrite app_nil_r in Hr. apply Forall2_app; [by eapply arguments_strings|]. by constructor.
    + pose proof (plain_rest _ _ _ E) as Hd. cbn [found_args] in *. unfold leading. cbn [drop_blanks]. rewrite Hd, zlen_cons.
      pose proof (drop_blanks_le r) as Hk. unfold leading in Hk.
      apply Forall2_app; [|constructor; [|done]].
      * apply (arguments_changed m _ ptr (zlen s + (zlen r + 1 - zlen (drop_blanks r)))); [|lia|done].
        apply (changed_mono (ptr + zlen s) (zlen r + 1 - zlen (drop_blanks r))); [lia|lia|]. apply changed_filled; lia.
      * split; [|lia]. replace (zlen r + 1 - zlen (drop_blanks r)) with (zlen r - zlen (drop_blanks r) + 1) by lia.
        unfold filled. rewrite Z2Nat.inj_add, Nat.add_comm by lia. cbn [Z.to_nat Pos.to_nat]. 
        apply cstring_split in Hr as [Hr _]; [|by destruct Hr as [Hn _]; apply Forall_app in Hn as [_ Hn]; inversion Hn].
        change (Pos.to_nat 1) with 1%nat. cbn [Nat.add replicate write_bytes].
        apply (changed_cstring (ptr + zlen s + 1) (zlen r - zlen (drop_blanks r)) (<[ptr + zlen s := 0]> m));
          [apply changed_filled; lia|unfold apart; lia|done].
Qed.

(** Every word. *)
Lemma any_word s r : blank c = false -> (if c =? 34 then quoted l else plain (c :: l)) = (s, r) -> found_word s r.
Proof.
  intros Hb. destruct (Z.eqb_spec c 34); [by apply quoted_word|]. intros E. by apply plain_word.
Qed.
End word.

(** ** [msh_split] *)

(** [argv] with these arguments. *)
Definition argv_of (ps : list Z) : list Z := ps ++ replicate (10 - length ps) 0.
(** What is printed if something follows the tenth word. *)
Definition split_text (ws : list (list Z)) (rest : list Z) : list Z :=
  match rest with [] => [] | _ => many_text ws end.

Lemma argv_full ps n : zlen ps + Z.of_nat n = FINSH_ARG_MAX -> ps ++ replicate n 0 = argv_of ps.
Proof. unfold FINSH_ARG_MAX, argv_of, zlen. intros. do 2 f_equal. lia. Qed.

Lemma words_nil n : words n [] = ([], []).
Proof. by destruct n. Qed.

(** The line has come to its end. *)
Lemma split_end length fuel ptr position argc argv (s : shell_state W) :
  length <= position -> loop (S fuel) (split_round length) (ptr, position, argc, argv) s = Some ((argc, argv), s).
Proof.
  intros H. rewrite (loop_step _ _ _ _ (inr (argc, argv)) s); [done|].
  unfold split_round. by rewrite (proj2 (Z.ltb_ge position length)) by lia.
Qed.

(** The blanks at the start of a round. *)
Lemma split_blanks length c l m ptr ps ws argv o w :
  cstring m ptr (c :: l) -> found_args m ptr (c :: l) ps ws -> zlen (c :: l) <= length ->
  let k := leading (c :: l) in let m1 := filled ptr 0 k m in let l1 := drop_blanks (c :: l) in
  split_round length (ptr, length - zlen (c :: l), zlen ps, argv) (ShellState m o w) =
    (if FINSH_ARG_MAX <=? zlen ps then too_many_args (zlen ps) argv;; stop (zlen ps, argv)
     else if length <=? length - zlen l1 then stop (zlen ps, argv)
     else split_argument length (ptr + k, length - zlen l1, zlen ps, argv)) (ShellState m1 o w) /\
  cstring m1 (ptr + k) l1 /\ Forall2 (argument m1 (ptr + k)) ps ws /\ changed ptr k m m1.
Proof.
  intros Hs Hf Hl. cbv zeta. pose proof (drop_blanks_le (c :: l)) as Hk. pose proof (zlen_nonneg l).
  pose proof (zlen_nonneg (drop_blanks (c :: l))).
  assert (changed ptr (leading (c :: l)) m (filled ptr 0 (leading (c :: l)) m)) as Hch by (apply changed_filled; lia).
  split_and!; [| |done|done].
  - unfold split_round. rewrite (proj2 (Z.ltb_lt _ length)) by (rewrite zlen_cons; lia).
    pose proof (skip_spec length (c :: l) m ptr (length - zlen (c :: l)) (S (Z.to_nat length)) Hs ltac:(lia)
      ltac:(unfold zlen in *; lia)) as E.
    rewrite (on_bytes_bind _ _ _ _ _ _ _ E). cbv beta iota.
    by replace (length - zlen (c :: l) + leading (c :: l)) with (length - zlen (drop_blanks (c :: l)))
      by (unfold leading; lia).
  - eapply changed_cstring; [exact Hch|unfold apart; lia|by apply drop_blanks_string].
Qed.

(** A round that finds a word. *)
Lemma split_word length c l d l1 m ptr ps ws n o w s r :
  cstring m ptr (c :: l) -> found_args m ptr (c :: l) ps ws -> zlen (c :: l) <= length -> zlen ps < FINSH_ARG_MAX ->
  drop_blanks (c :: l) = d :: l1 -> (if d =? 34 then quoted l1 else plain (d :: l1)) = (s, r) ->
  word_found length (split_round length (ptr, length - zlen (c :: l), zlen ps, ps ++ replicate (S n) 0))
    m ptr (c :: l) ps ws n o w s r.
Proof.
  intros Hs Hf Hl Hn El Ew.
  destruct (split_blanks length c l m ptr ps ws (ps ++ replicate (S n) 0) o w Hs Hf Hl) as (E & Hs1 & Ha & Hch).
  pose proof (drop_blanks_le (c :: l)) as Hk. rewrite (proj2 (Z.leb_gt _ _)), El in E by lia. rewrite El in Hs1.
  set (k := leading (c :: l)) in *. assert (k = zlen (c :: l) - zlen (d :: l1)) as Ek by (unfold k, leading; by rewrite El).
  pose proof (zlen_cons d l1) as Hc1. pose proof (zlen_nonneg l1).
  rewrite (proj2 (Z.leb_gt length _)) in E by lia.
  destruct (any_word length _ _ (length - zlen (d :: l1)) _ _ _ _ n o w Hs1 Ha ltac:(lia) ltac:(lia) s r
    (drop_blanks_head _ _ _ El) Ew) as (m2 & p & ptr2 & y & E2 & Hy & Hs2 & Hp2 & Hr & Hf2 & Hch2).
  exists m2, p, ptr2, y. split_and!; [by rewrite E|done|done|lia|lia|done|].
  apply changed_trans with (filled ptr 0 k m).
  - apply (changed_mono ptr k); [lia|lia|done].
  - apply (changed_mono (ptr + k) (zlen (d :: l1))); [lia|lia|done].
Qed.

Lemma split_loop_spec length n : forall fuel l m ptr ps ws o w,
  cstring m ptr l -> found_args m ptr l ps ws -> zlen l <= length -> zlen ps + Z.of_nat n = FINSH_ARG_MAX ->
  (List.length l < fuel)%nat ->
  exists m' ps',
    loop fuel (split_round length) (ptr, length - zlen l, zlen ps, ps ++ replicate n 0) (ShellState m o w) =
      Some ((zlen ps', argv_of ps'), ShellState m' (o ++ split_text (ws ++ (words n l).1) (words n l).2) w) /\
    Forall2 (cstring m') ps' (ws ++ (words n l).1) /\ changed ptr (zlen l) m m'.
Proof.
  induction n as [|n IH]; intros [|fuel] [|c l] m ptr ps ws o w Hs Hf Hl Hn Hfu;
    cbn [List.length] in Hfu; try lia.
  1, 3: exists m, ps; rewrite split_end, words_nil by (change (zlen []) with 0; lia); rewrite (argv_full _ _ Hn);
    cbn [fst snd split_text]; by rewrite !app_nil_r.
  - destruct (split_blanks length c l m ptr ps ws (ps ++ replicate 0 0) o w Hs Hf Hl) as (E & _ & Ha & Hch).
    exists (filled ptr 0 (leading (c :: l)) m), ps. cbn [words fst snd split_text].
    rewrite (argv_full _ _ Hn) in *. rewrite app_nil_r. split_and!; [|by eapply arguments_strings|].
    + rewrite (loop_step _ _ _ _ (inr (zlen ps, argv_of ps)) (ShellState (filled ptr 0 (leading (c :: l)) m) (o ++ many_text ws) w));
        [done|]. rewrite E, (proj2 (Z.leb_le _ _)) by lia. unfold argv_of.
      rewrite (bind_ok _ _ _ _ _ (too_many_args_spec _ _ _ _ _ _ (arguments_strings _ _ _ _ Ha))).
      done.
    + apply (changed_mono ptr (leading (c :: l))); [lia| |done]. unfold leading. pose proof (zlen_nonneg (drop_blanks (c :: l))). lia.
  - pose proof (zlen_nonneg (drop_blanks (c :: l))) as Hd. cbn [words].
    destruct (drop_blanks (c :: l)) as [|d l1] eqn:El.
    { destruct (split_blanks length c l m ptr ps ws (ps ++ replicate (S n) 0) o w Hs Hf Hl) as (E & _ & Ha & Hch).
      rewrite El in *. change (zlen []) with 0 in *. rewrite (proj2 (Z.leb_gt _ _)), (proj2 (Z.leb_le length _)) in E by lia.
      exists (filled ptr 0 (leading (c :: l)) m), ps. cbn [fst snd split_text]. rewrite !app_nil_r.
      split_and!; [|by eapply arguments_strings|].
      - by rewrite (loop_step _ _ _ _ _ _ E), (argv_full _ _ Hn).
      - assert (leading (c :: l) = zlen (c :: l)) as Ek by (unfold leading; rewrite El; apply Z.sub_0_r). by rewrite <- Ek. }
    destruct (if d =? 34 then quoted l1 else plain (d :: l1)) as [s r] eqn:Ew.
    destruct (split_word length c l d l1 m ptr ps ws n o w s r Hs Hf Hl ltac:(lia) El Ew)
      as (m2 & p & ptr2 & y & E & Hy & Hs2 & Hp2 & Hr & Hf2 & Hch).
    rewrite (loop_step _ _ _ _ _ _ E). assert (zlen (ps ++ [p]) = zlen ps + 1) as Hp by by rewrite zlen_app.
    destruct Hy as [->|[-> ->]].
    + destruct (IH fuel r m2 ptr2 (ps ++ [p]) (ws ++ [s]) o w Hs2 Hf2 ltac:(lia) ltac:(lia) ltac:(unfold zlen in *; cbn in *; lia))
        as (m3 & ps3 & E3 & H3 & Hch3).
      destruct (words n r) as [ws' rest]. cbn [fst snd] in *. rewrite <- !(app_assoc ws) in *.
      exists m3, ps3. split_and!; [by rewrite <- Hp|done|].
      apply (changed_trans _ _ _ _ _ Hch), (changed_mono ptr2 (zlen r)); [lia|lia|done].
    + rewrite words_nil. exists m2, (ps ++ [p]). cbn [fst snd split_text]. rewrite app_nil_r.
      split_and!; [|done|done]. rewrite <- (argv_full _ n) by lia. by rewrite Hp.
Qed.

(** [msh_split] finds the words of the line. *)
Lemma msh_split_spec cmd l m o w :
  cstring m cmd l ->
  exists m' ps,
    msh_split cmd (zlen l) (replicate 10 0) (ShellState m o w) =
      Some ((zlen ps, argv_of ps), ShellState m' (o ++ split_text (words 10 l).1 (words 10 l).2) w) /\
    Forall2 (cstring m') ps (words 10 l).1 /\ changed cmd (zlen l) m m'.
Proof.
  intros Hs. destruct (split_loop_spec (zlen l) 10 (S (Z.to_nat (zlen l))) l m cmd [] [] o w Hs) as (m' & ps & E & H).
  - by destruct l; constructor.
  - lia.
  - done.
  - unfold zlen. lia.
  - exists m', ps. split; [|done]. rewrite Z.sub_diag in E. exact E.
Qed.
End split.
