(* ===== verification/MshCorrect.v ===== *)
(** * Running and completing commands

    What [msh_exec] and [msh_auto_complete] do with a line, in terms of its
    words and of the names in the command table. *)
From Stdlib Require Import String Ascii.
From S2P Require Import Prelude Kservice Cmem Kmemory Kstring Line Printf PrintfNumber Console Msh MshSpec.
Open Scope Z_scope.

(** ** The functions of the C library *)

Lemma strncmp_zero m n : forall a b s t fuel,
  cstring m a s -> cstring m b t -> (n < fuel)%nat ->
  exists r, loop fuel libc_strncmp_round (a, b, Z.of_nat n) m = Some (r, m) /\ (r = 0 <-> take n s = take n t).
Proof.
  induction n as [|n IH]; intros a b s t [|fuel] Ha Hb Hf; try lia; [by exists 0|].
  pose proof (cstring_chr _ _ _ Ha) as Ea. pose proof (cstring_chr _ _ _ Hb) as Eb.
  assert (libc_strncmp_round (a, b, Z.of_nat (S n)) m =
    Some (if negb (chr s =? chr t) then inr (chr s - chr t) else if chr s =? 0 then inr 0
          else inl (a + 1, b + 1, Z.of_nat (S n) - 1), m)) as E.
  { unfold libc_strncmp_round. rewrite (proj2 (Z.eqb_neq (Z.of_nat (S n)) 0)) by lia.
    rewrite (load_bind _ _ _ _ Ea), (load_bind _ _ _ _ Eb). by destruct (negb (chr s =? chr t)), (chr s =? 0). }
  rewrite (loop_step _ _ _ _ _ _ E). destruct (Z.eqb_spec (chr s) (chr t)) as [Heq|Hne]; cbn [negb].
  - destruct (Z.eqb_spec (chr s) 0) as [H0|H0].
    + exists 0. split; [done|]. destruct s as [|c s]; [|by destruct Ha as [Hn _]; inversion Hn].
      destruct t as [|d t]; [done|]. destruct Hb as [Hn _]. inversion Hn. cbn in Heq. lia.
    + replace (Z.of_nat (S n) - 1) with (Z.of_nat n) by lia.
      destruct (IH (a + 1) (b + 1) (next s) (next t) fuel) as (r & Er & Hr); [by apply cstring_next|apply cstring_next; [done|lia]|lia|].
      exists r. split; [done|]. destruct s as [|c s], t as [|d t]; cbn in *; try lia. subst d. rewrite Hr.
      split; [by intros ->|by intros [= ->]].
  - exists (chr s - chr t). split; [done|]. split; [lia|]. intros Heq. exfalso. apply Hne.
    destruct s as [|c s], t as [|d t]; cbn in *; try done. by injection Heq.
Qed.

Lemma strncmp_prefix m a b s t n :
  cstring m a s -> cstring m b t -> 0 <= n ->
  exists r, strncmp a b n m = Some (r, m) /\ (r = 0 <-> ztake n s = ztake n t).
Proof.
  intros Ha Hb Hn. unfold strncmp, ztake. replace (a, b, n) with (a, b, Z.of_nat (Z.to_nat n)) by pairs. apply strncmp_zero; [done|done|lia].
Qed.

(** The longest common beginning of two strings. *)
Fixpoint lcp (s t : list Z) : list Z :=
  match s, t with
  | c :: s, d :: t => if c =? d then c :: lcp s t else []
  | _, _ => []
  end.

Lemma lcp_prefix p s t : p `prefix_of` s /\ p `prefix_of` t <-> p `prefix_of` lcp s t.
Proof.
  revert p t. induction s as [|c s IH]; intros p t; cbn [lcp].
  { split; [tauto|]. intros ->%prefix_nil_inv. split; apply prefix_nil. }
  destruct t as [|d t].
  { split; [tauto|]. intros ->%prefix_nil_inv. split; apply prefix_nil. }
  destruct (Z.eqb_spec c d) as [<-|Hne].
  - destruct p as [|x p]; [split; intros; [|split]; apply prefix_nil|]. split.
    + intros [H1 H2]. pose proof (prefix_cons_inv_1 _ _ _ _ H1) as ->.
      apply prefix_cons, (proj1 (IH p t)). split; [exact (prefix_cons_inv_2 _ _ _ _ H1)|exact (prefix_cons_inv_2 _ _ _ _ H2)].
    + intros H. pose proof (prefix_cons_inv_1 _ _ _ _ H) as ->. pose proof (prefix_cons_inv_2 _ _ _ _ H) as H'.
      apply (IH p t) in H' as [H1 H2]. split; by apply prefix_cons.
  - split; [|intros ->%prefix_nil_inv; split; apply prefix_nil]. intros [H1 H2]. destruct p as [|x p]; [done|].
    pose proof (prefix_cons_inv_1 _ _ _ _ H1). pose proof (prefix_cons_inv_1 _ _ _ _ H2). congruence.
Qed.

Lemma common_loop s : forall m a b t fuel,
  cstring m a s -> cstring m b t -> (length s < fuel)%nat ->
  loop fuel common_round (a, b) m = Some (a + zlen (lcp s t), m).
Proof.
  induction s as [|c s IH]; intros m a b t [|fuel] Ha Hb Hf; cbn [length] in Hf; try lia.
  - apply cstring_nil in Ha. pose proof (cstring_chr _ _ _ Hb) as Eb. rewrite (loop_step _ _ _ _ (inr a) m).
    + cbn. by rewrite Z.add_0_r.
    + unfold common_round. by rewrite (load_bind _ _ _ _ Ha), (load_bind _ _ _ _ Eb).
  - apply cstring_cons in Ha as (Hc & Ea & Ha). pose proof (cstring_chr _ _ _ Hb) as Eb.
    assert (common_round (a, b) m = Some (if negb (chr t =? 0) && (c =? chr t) then inl (a + 1, b + 1) else inr a, m)) as E.
    { unfold common_round. rewrite (load_bind _ _ _ _ Ea), (load_bind _ _ _ _ Eb), (proj2 (Z.eqb_neq c 0) Hc).
      cbn [negb andb]. by destruct (_ && _). }
    rewrite (loop_step _ _ _ _ _ _ E). destruct t as [|d t]; cbn [chr lcp].
    { cbn. by rewrite Z.add_0_r. }
    apply cstring_cons in Hb as (Hd & _ & Hb). rewrite (proj2 (Z.eqb_neq d 0) Hd). cbn [negb andb].
    destruct (Z.eqb_spec c d); [|cbn; by rewrite Z.add_0_r].
    rewrite (IH m (a + 1) (b + 1) t fuel Ha Hb) by lia. rewrite zlen_cons. f_equal. f_equal. lia.
Qed.

Lemma lcp_length s t : zlen (lcp s t) <= zlen s.
Proof.
  destruct (proj2 (lcp_prefix (lcp s t) s t) ltac:(done)) as [H _]. apply prefix_length in H. unfold zlen. lia.
Qed.

Lemma str_common_spec m a b s t :
  cstring m a s -> cstring m b t -> zlen s < 2 ^ 31 -> str_common a b m = Some (zlen (lcp s t), m).
Proof.
  intros Ha Hb Hl. unfold str_common, cmem_fuel. rewrite bind_gets.
  pose proof (cstring_fuel _ _ _ Ha) as Hf. rewrite (bind_ok _ _ _ _ _ (common_loop s m a b t (S (S (size m))) Ha Hb ltac:(unfold zlen in *; lia))).
  apply mret_ok. pose proof (lcp_length s t). pose proof (zlen_nonneg (lcp s t)). rewrite s32_small; lia.
Qed.

(** ** Finding a command *)

Section correct.
Context {W : Type} (table : list (finsh_syscall W)).
Implicit Types (m : cmem) (o : list Z) (w : W).

(** The name of a command lies in memory. *)
Record named (m : cmem) (e : finsh_syscall W) (s : list Z) : Prop := Named {
  nm_string : cstring m (sc_name e) s;
  nm_pointer : sc_name e <> 0;
  nm_length : zlen s < 2 ^ 31
}.

(** The first command of that name. *)
Fixpoint find_command (tok : list Z) (t : list (finsh_syscall W)) (names : list (list Z)) :=
  match t, names with
  | e :: t, s :: names => if decide (s = tok) then sc_func e else find_command tok t names
  | _, _ => None
  end.

Lemma find_command_name tok t names f : find_command tok t names = Some f -> tok ∈ names.
Proof.
  revert names. induction t as [|e t IH]; intros [|s names] H; try done. cbn in H.
  destruct (decide (s = tok)) as [->|]; [by left|]. right. by apply IH.
Qed.

Lemma get_cmd_spec t names m cmd l size o w :
  Forall2 (named m) t names -> cstring m cmd l -> 0 <= size <= zlen l -> size < 2 ^ 31 ->
  get_cmd_loop cmd size t (ShellState m o w) = Some (find_command (ztake size l) t names, ShellState m o w).
Proof.
  intros Ht Hl Hs H31. induction Ht as [|e s t names [He _ _] Ht IH]; [done|]. cbn [get_cmd_loop find_command].
  destruct (strncmp_prefix m (sc_name e) cmd s l size He Hl ltac:(lia)) as (r & Er & Hr).
  rewrite u64_small by lia. rewrite (on_bytes_bind _ _ _ _ _ _ _ Er).
  destruct (Z.eqb_spec r 0) as [H0|H0].
  - apply Hr in H0. assert (size <= zlen s) as Hsize.
    { pose proof (zlen_ztake size l ltac:(lia)) as Hz. rewrite <- H0 in Hz. unfold zlen, ztake in *. rewrite length_take in Hz. lia. }
    rewrite (on_bytes_bind _ _ _ _ _ _ _ (cstring_load _ _ _ He size ltac:(lia))).
    destruct (Z.eqb_spec (zget s size) 0) as [Hz|Hz].
    + rewrite decide_True; [done|]. rewrite <- H0. unfold ztake. rewrite take_ge; [done|].
      destruct (decide (size = zlen s)); [unfold zlen in *; lia|]. exfalso. by apply (cstring_nonzero _ _ _ He size ltac:(lia)).
    + rewrite decide_False; [done|]. intros Heq. apply Hz. rewrite Heq.
      rewrite <- (zlen_ztake size l) at 2 by lia. apply zget_end.
  - rewrite decide_False; [done|]. intros ->. apply H0, Hr. unfold ztake. by rewrite take_take, Nat.min_id.
Qed.

(** ** [msh_exec] *)

Fixpoint to_space (l : list Z) : list Z :=
  match l with
  | [] => []
  | c :: l => if c =? char " " then [] else c :: to_space l
  end.

Lemma lead_spec l : forall m cmd fuel,
  cstring m cmd l -> (length l < fuel)%nat ->
  loop fuel lead_round (cmd, zlen l) m = Some ((cmd + leading l, zlen (drop_blanks l)), m).
Proof.
  induction l as [|c l IH]; intros m cmd [|fuel] Hs Hf; cbn [length] in Hf; try lia.
  - rewrite (loop_step _ _ _ _ (inr (cmd, 0)) m); [|done]. by rewrite Z.add_0_r.
  - apply cstring_cons in Hs as (Hc & E & Hs). pose proof (zlen_nonneg l).
    assert (lead_round (cmd, zlen (c :: l)) m =
      Some (if blank c then inl (cmd + 1, zlen (c :: l) - 1) else inr (cmd, zlen (c :: l)), m)) as Er.
    { unfold lead_round. rewrite (proj2 (Z.ltb_lt 0 _)) by (rewrite zlen_cons; lia). rewrite (load_bind _ _ _ _ E). by destruct (blank c). }
    rewrite (loop_step _ _ _ _ _ _ Er). unfold leading. cbn [drop_blanks]. destruct (blank c).
    + replace (zlen (c :: l) - 1) with (zlen l) by (rewrite zlen_cons; lia). rewrite (IH _ _ _ Hs) by lia.
      do 2 f_equal. unfold leading. rewrite zlen_cons. pairs.
    + by rewrite Z.sub_diag, Z.add_0_r.
Qed.

Lemma tcmd_spec l : forall m cmd fuel,
  cstring m cmd l -> (length l < fuel)%nat -> loop fuel tcmd_round cmd m = Some (cmd + zlen (to_space l), m).
Proof.
  induction l as [|c l IH]; intros m cmd [|fuel] Hs Hf; cbn [length] in Hf; try lia.
  - apply cstring_nil in Hs. rewrite (loop_step _ _ _ _ (inr cmd) m); [cbn; by rewrite Z.add_0_r|].
    unfold tcmd_round. by rewrite (load_bind _ _ _ _ Hs).
  - apply cstring_cons in Hs as (Hc & E & Hs).
    assert (tcmd_round cmd m = Some (if c =? char " " then inr cmd else inl (cmd + 1), m)) as Er.
    { unfold tcmd_round. rewrite (load_bind _ _ _ _ E), (proj2 (Z.eqb_neq c 0) Hc), andb_true_r. by destruct (_ =? _). }
    rewrite (loop_step _ _ _ _ _ _ Er). cbn [to_space]. destruct (_ =? _); [cbn; by rewrite Z.add_0_r|].
    rewrite (IH _ _ _ Hs) by lia. rewrite zlen_cons. do 2 f_equal. lia.
Qed.

Lemma to_space_app l : l = to_space l \/ exists r, l = to_space l ++ char " " :: r.
Proof.
  induction l as [|c l [IH|[r IH]]]; [by left|..]; cbn [to_space]; destruct (Z.eqb_spec c (char " ")) as [->|].
  - right. by exists l.
  - left. by f_equal.
  - right. by exists l.
  - right. exists r. cbn [app]. by f_equal.
Qed.

Lemma drop_blanks_twice l : drop_blanks (drop_blanks l) = drop_blanks l.
Proof. induction l as [|c l IH]; [done|]. cbn. destruct (blank c) eqn:E; [done|]. cbn. by rewrite E. Qed.

Lemma words_drop_blanks n l : words (S n) (drop_blanks l) = words (S n) l.
Proof. cbn [words]. by rewrite drop_blanks_twice. Qed.

(** The first word of a line that does not begin with a quote. *)
Lemma words_head n c l :
  blank c = false -> c <> 34 -> exists args rest, words (S n) (c :: l) = ((plain (c :: l)).1 :: args, rest).
Proof.
  intros Hb Hc. cbn [words drop_blanks]. rewrite Hb, (proj2 (Z.eqb_neq c 34) Hc).
  destruct (plain (c :: l)) as [s r]. destruct (words n r) as [ws rest]. by exists ws, rest.
Qed.

Lemma words_nonempty n c l : blank c = false -> (words (S n) (c :: l)).1 <> [].
Proof.
  intros Hb. cbn [words drop_blanks]. rewrite Hb. destruct (if c =? 34 then _ else _) as [s r]. by destruct (words n r).
Qed.

(** A line that begins with a word. *)
Section line.
Context (names : list (list Z)) (m : cmem) (o : list Z) (w : W) (cmd c : Z) (l : list Z).
Context (Ht : Forall2 (named m) table names) (Hs : cstring m cmd (c :: l)) (Hc : blank c = false).
Context (Hcmd : cmd <> 0) (Hlen : zlen (c :: l) < 2 ^ 31).

Local Abbreviation name := (plain (c :: l)).1.

Lemma name_length : 0 < zlen name <= zlen (c :: l).
Proof.
  destruct (plain (c :: l)) as [s r] eqn:E. pose proof (plain_app _ _ _ E) as H. cbn [fst]. split.
  - cbn [plain] in E. rewrite Hc in E. destruct (plain l) as [s' r']. injection E as <- _. rewrite zlen_cons.
    pose proof (zlen_nonneg s'). lia.
  - rewrite H, zlen_app. pose proof (zlen_nonneg r). lia.
Qed.

Lemma name_take : ztake (zlen name) (c :: l) = name.
Proof.
  destruct (plain (c :: l)) as [s r] eqn:E. pose proof (plain_app _ _ _ E) as H. cbn [fst]. rewrite H.
  unfold ztake, zlen. by rewrite Nat2Z.id, take_app_length.
Qed.

Lemma exec_cmd_spec :
  match find_command name table names with
  | None => _msh_exec_cmd table cmd (zlen (c :: l)) (ShellState m o w) = Some ((-1, None), ShellState m o w)
  | Some func => exists m' ps,
      Forall2 (cstring m') ps (words 10 (c :: l)).1 /\ changed cmd (zlen (c :: l)) m m' /\
      _msh_exec_cmd table cmd (zlen (c :: l)) (ShellState m o w) =
        match func (zlen ps) (argv_of ps)
            (ShellState m' (o ++ split_text (words 10 (c :: l)).1 (words 10 (c :: l)).2) w) with
        | Some (r, s) => Some ((0, Some r), s)
        | None => None
        end
  end.
Proof.
  pose proof name_length as Hn. unfold _msh_exec_cmd.
  pose proof (plain_spec (zlen (c :: l)) (c :: l) m cmd 0 (S (Z.to_nat (zlen (c :: l)))) Hs ltac:(lia) ltac:(unfold zlen; lia)) as Ep.
  rewrite bind_assert by (by rewrite (proj2 (Z.eqb_neq cmd 0) Hcmd)).
  rewrite (on_bytes_bind _ _ _ _ _ _ _ Ep). cbv beta iota. rewrite Z.add_0_l, (proj2 (Z.eqb_neq (zlen name) 0)) by lia.
  rewrite s32_small by lia. unfold msh_get_cmd.
  rewrite (bind_ok _ _ _ _ _ (get_cmd_spec _ _ _ _ _ (zlen name) o w Ht Hs ltac:(lia) ltac:(lia))), name_take.
  destruct (find_command name table names) as [func|]; [|done].
  destruct (msh_split_spec cmd (c :: l) m o w Hs) as (m' & ps & E & Hps & Hch). exists m', ps. split_and!; [done|done|].
  rewrite (bind_ok _ _ _ _ _ E). cbv beta iota. rewrite (proj2 (Z.eqb_neq (zlen ps) 0)).
  - rewrite bind_unfold. by destruct (func _ _ _) as [[r s]|].
  - pose proof (words_nonempty 9 c l Hc) as Hw. intros H0. apply Hw. apply Forall2_length in Hps. unfold zlen in H0.
    apply length_zero_iff_nil. unfold words in *. lia.
Qed.

(** What [msh_exec] does with it. *)
Lemma msh_run_spec :
  match find_command name table names with
  | None => msh_run table cmd (zlen (c :: l)) (ShellState m o w) =
      Some (-1, ShellState (<[cmd + zlen (to_space (c :: l)) := 0]> m)
        (o ++ console_text (to_space (c :: l) ++ chars ": command not found." ++ [10])) w)
  | Some func => exists m' ps,
      Forall2 (cstring m') ps (words 10 (c :: l)).1 /\ changed cmd (zlen (c :: l)) m m' /\
      msh_run table cmd (zlen (c :: l)) (ShellState m o w) =
        func (zlen ps) (argv_of ps)
          (ShellState m' (o ++ split_text (words 10 (c :: l)).1 (words 10 (c :: l)).2) w)
  end.
Proof.
  pose proof exec_cmd_spec as H. unfold msh_run. destruct (find_command name table names) as [func|].
  - destruct H as (m' & ps & Hps & Hch & E). exists m', ps. split_and!; [done|done|].
    rewrite bind_unfold, E. by destruct (func _ _ _) as [[r s]|].
  - rewrite (bind_ok _ _ _ _ _ H). cbv beta iota. change (-1 =? 0) with false. cbv iota.
    rewrite (on_bytes_bind cmem_fuel _ m o w (S (S (size m))) m) by done.
    pose proof (cstring_fuel _ _ _ Hs) as Hf.
    rewrite (on_bytes_bind _ _ _ _ _ _ _ (tcmd_spec _ m cmd (S (S (size m))) Hs ltac:(unfold zlen in Hf; lia))).
    assert (cstring (<[cmd + zlen (to_space (c :: l)) := 0]> m) cmd (to_space (c :: l)) /\
      is_Some (m !! (cmd + zlen (to_space (c :: l))))) as [Hstr Hm].
    { destruct (to_space_app (c :: l)) as [E|[r E]].
      - rewrite <- E. pose proof (cstring_load _ _ _ Hs (zlen (c :: l)) ltac:(pose proof (zlen_nonneg (c :: l)); lia)) as El.
        rewrite zget_end in El. apply bind_Some in El as (x & m1 & Eg & Ed). unfold gets in Eg. injection Eg as <- <-.
        destruct (m !! (cmd + zlen (c :: l))) as [v|] eqn:Ev; [|done]. injection Ed as ->. rewrite insert_id by done. done.
      - pose proof Hs as Hs'. rewrite E in Hs'. split; [by apply cstring_split in Hs' as [? _]|].
        destruct Hs' as [_ Hb]. rewrite <- app_assoc in Hb. apply bytes_at_app in Hb as [_ Hb].
        cbn [app] in Hb. apply bytes_at_cons in Hb as [Hb _]. by eexists. }
    rewrite (on_bytes_bind _ _ _ _ _ _ _ (store_ok _ _ 0 Hm)), (on_bytes_bind _ _ _ _ _ _ _ (get_string_spec _ _ _ Hstr)).
    done.
Qed.
End line.

(** Of any line. *)
Lemma msh_exec_spec names m o w cmd l :
  Forall2 (named m) table names -> cstring m cmd l -> 0 < cmd -> zlen l < 2 ^ 31 ->
  let body := drop_blanks l in
  let start := cmd + leading l in
  let s := ShellState m o w in
  match body with
  | [] => msh_exec table cmd (zlen l) s = Some (0, s)
  | _ =>
      match find_command (plain body).1 table names with
      | Some func => exists m' ps,
          Forall2 (cstring m') ps (words 10 l).1 /\ changed start (zlen body) m m' /\
          msh_exec table cmd (zlen l) s =
            func (zlen ps) (argv_of ps) (ShellState m' (o ++ split_text (words 10 l).1 (words 10 l).2) w)
      | None =>
          msh_exec table cmd (zlen l) s =
            Some (-1, ShellState (<[start + zlen (to_space body) := 0]> m)
              (o ++ console_text (to_space body ++ chars ": command not found." ++ [10])) w)
      end
  end.
Proof.
  intros Ht Hs Hcmd Hlen. cbv zeta. unfold msh_exec.
  rewrite (on_bytes_bind _ _ _ _ _ _ _ (lead_spec l m cmd (S (Z.to_nat (zlen l))) Hs ltac:(unfold zlen; lia))).
  rewrite <- (words_drop_blanks 9 l). pose proof (drop_blanks_string _ _ _ Hs) as Hb. pose proof (drop_blanks_le l).
  assert (zlen (drop_blanks l) <= zlen l) as Hle by (unfold leading in *; lia).
  destruct (drop_blanks l) as [|c l'] eqn:El; [done|]. pose proof (zlen_nonneg l').
  rewrite (proj2 (Z.eqb_neq (zlen (c :: l')) 0)) by (rewrite zlen_cons; lia).
  pose proof (drop_blanks_head _ _ _ El) as Hc.
  exact (msh_run_spec names m o w (cmd + leading l) c l' Ht Hb Hc ltac:(lia) ltac:(lia)).
Qed.

(** C26: [msh_exec] runs the command that the first word of the line names, if
    there is one, with the line's words, at most ten, as its arguments: each of
    them is a string of its own inside the line, [argv] has null after them, and
    of the memory nothing but the line changes. The words are those of [words]:
    separated by spaces and tabs, or enclosed in double quotes, where a backslash
    keeps a quote from closing. A line without a word does nothing and gives 0;
    if no command has that name, a message is printed and the result is -1. (No
    name of a command begins with a double quote.) *)
Theorem msh_exec_correct names m o w cmd l :
  Forall2 (named m) table names -> Forall (fun s => chr s <> 34) names ->
  cstring m cmd l -> 0 < cmd -> zlen l < 2 ^ 31 ->
  let body := drop_blanks l in
  let start := cmd + leading l in
  let s := ShellState m o w in
  match body with
  | [] => msh_exec table cmd (zlen l) s = Some (0, s)
  | _ =>
      match find_command (plain body).1 table names with
      | Some func => exists m' ps args,
          (words 10 l).1 = (plain body).1 :: args /\
          Forall2 (cstring m') ps (words 10 l).1 /\ changed start (zlen body) m m' /\
          msh_exec table cmd (zlen l) s =
            func (zlen ps) (argv_of ps) (ShellState m' (o ++ split_text (words 10 l).1 (words 10 l).2) w)
      | None =>
          msh_exec table cmd (zlen l) s =
            Some (-1, ShellState (<[start + zlen (to_space body) := 0]> m)
              (o ++ console_text (to_space body ++ chars ": command not found." ++ [10])) w)
      end
  end.
Proof.
  intros Ht Hn Hs Hcmd Hlen. pose proof (msh_exec_spec names m o w cmd l Ht Hs Hcmd Hlen) as H. cbv zeta in *.
  destruct (drop_blanks l) as [|c l'] eqn:El; [exact H|]. pose proof (drop_blanks_head _ _ _ El) as Hc.
  destruct (find_command _ table names) as [func|] eqn:Ef; [|exact H]. destruct H as (m' & ps & Hps & Hch & E).
  assert (c <> 34) as H34.
  { intros ->. apply find_command_name in Ef. apply (proj1 (Forall_forall _ _) Hn) in Ef. cbn [plain] in Ef.
    rewrite Hc in Ef. by destruct (plain l'). }
  destruct (words_head 9 c l' Hc H34) as (args & rest & Ew). rewrite <- El, words_drop_blanks, El in Ew.
  exists m', ps, args. split_and!; [by rewrite Ew|done|done|exact E].
Qed.

(** ** [msh_auto_complete] *)

Lemma lcp_merge acc s t : acc `prefix_of` s -> zlen (lcp acc t) = Z.min (zlen acc) (zlen (lcp s t)).
Proof.
  intros [k ->]. revert t. induction acc as [|c acc IH]; intros t.
  - cbn. pose proof (zlen_nonneg (lcp k t)). change (zlen []) with 0. lia.
  - destruct t as [|d t]; cbn [lcp app]; [rewrite zlen_cons; pose proof (zlen_nonneg acc); change (zlen []) with 0; lia|].
    destruct (c =? d); rewrite ?zlen_cons; [rewrite IH; lia|]. change (zlen []) with 0. pose proof (zlen_nonneg acc). lia.
Qed.

Lemma lcp_idem s : lcp s s = s.
Proof. induction s as [|c s IH]; [done|]. cbn. by rewrite Z.eqb_refl, IH. Qed.

Lemma foldl_lcp p acc l : p `prefix_of` foldl lcp acc l <-> p `prefix_of` acc /\ Forall (prefix p) l.
Proof.
  revert acc. induction l as [|s l IH]; intros acc; cbn [foldl].
  - rewrite Forall_nil. tauto.
  - rewrite IH, <- lcp_prefix, Forall_cons. tauto.
Qed.

Lemma strncpy_take s n : Forall (fun c => c <> 0) s -> (n <= length s)%nat -> Kservice.rt_strncpy s n = take n s.
Proof.
  intros Hs. revert n. induction Hs as [|c s Hc Hs IH]; intros [|n] Hn; cbn in *; try done; try lia.
  rewrite (proj2 (Z.eqb_neq c 0) Hc). f_equal. apply IH. lia.
Qed.

(** The names a text can be completed to. *)
Definition matches (text : list Z) (names : list (list Z)) : list (list Z) := filter (prefix text) names.
Definition matches_text (names : list (list Z)) : list Z := concat (map (fun s => console_text (s ++ [10])) names).

Lemma matches_cons text s names :
  matches text (s :: names) = if decide (text `prefix_of` s) then s :: matches text names else matches text names.
Proof. apply filter_cons. Qed.

Section complete.
Context (m : cmem) (w : W) (prefix_ : Z) (text : list Z) (Hp : cstring m prefix_ text) (Htext : text <> []).

Lemma compare_prefix e s :
  named m e s -> exists r, strncmp prefix_ (sc_name e) (zlen text) m = Some (r, m) /\ (r = 0 <-> text `prefix_of` s).
Proof.
  intros [He _ _]. destruct (strncmp_prefix m prefix_ (sc_name e) text s (zlen text) Hp He (zlen_nonneg _)) as (r & E & Hr).
  exists r. split; [done|]. rewrite Hr. unfold ztake, zlen. rewrite Nat2Z.id, take_ge by lia. split.
  - intros H. rewrite H. apply prefix_take.
  - intros [k ->]. by rewrite take_app_length.
Qed.

(** Once a first name [s0] has been found. *)
Lemma complete_more t names : Forall2 (named m) t names -> forall acc a s0 o,
  cstring m a s0 -> zlen s0 < 2 ^ 31 -> acc `prefix_of` s0 -> text `prefix_of` acc ->
  complete_loop prefix_ t (zlen acc) a (ShellState m o w) =
  Some ((zlen (foldl lcp acc (matches text names)), a), ShellState m (o ++ matches_text (matches text names)) w).
Proof.
  intros Ht. induction Ht as [|e s t names He Ht IH]; intros acc a s0 o Ha Hl Hacc Htx.
  { cbn. by rewrite app_nil_r. }
  cbn [complete_loop]. rewrite (on_bytes_bind _ _ _ _ _ _ _ (strlen_spec _ _ _ Hp)).
  destruct (compare_prefix e s He) as (r & Er & Hr). rewrite (on_bytes_bind _ _ _ _ _ _ _ Er), matches_cons.
  destruct (Z.eqb_spec r 0) as [H0|H0]; destruct (decide (text `prefix_of` s)) as [Hs|Hs]; try tauto; [|by apply (IH acc a s0)].
  assert (0 < zlen acc) as Hpos.
  { apply prefix_length in Htx. destruct text; [done|]. unfold zlen. cbn in Htx. lia. }
  rewrite (proj2 (Z.eqb_neq (zlen acc) 0)) by lia. destruct He as [He _ _].
  rewrite (bind_ok _ _ _ (zlen acc, a) (ShellState m o w)) by done. cbv beta iota.
  rewrite (on_bytes_bind _ _ _ _ _ _ _ (str_common_spec m a (sc_name e) s0 s Ha He Hl)).
  rewrite (on_bytes_bind _ _ _ _ _ _ _ (get_string_spec _ _ _ He)), (bind_ok _ _ _ _ _ (say_ok _ _ _ _)).
  assert ((if zlen (lcp s0 s) <? zlen acc then zlen (lcp s0 s) else zlen acc) = zlen (lcp acc s)) as ->
    by (rewrite (lcp_merge acc s0 s Hacc); destruct (Z.ltb_spec (zlen (lcp s0 s)) (zlen acc)); lia).
  rewrite (IH (lcp acc s) a s0 _ Ha Hl).
  - unfold matches_text. cbn [map concat foldl]. by rewrite app_assoc.
  - destruct (proj2 (lcp_prefix (lcp acc s) acc s) ltac:(done)) as [H _]. by transitivity acc.
  - by apply lcp_prefix.
Qed.

Definition completion (l : list (list Z)) : list Z :=
  match l with [] => [] | s :: l => foldl lcp s l end.

Lemma complete_loop_spec t names : Forall2 (named m) t names -> forall o,
  exists a, complete_loop prefix_ t 0 0 (ShellState m o w) =
    Some ((zlen (completion (matches text names)), a), ShellState m (o ++ matches_text (matches text names)) w) /\
  match matches text names with
  | [] => a = 0
  | s :: _ => exists e, (forall P, Forall2 P t names -> P e s) /\ a = sc_name e
  end.
Proof.
  intros Ht. induction Ht as [|e s t names He Ht IH]; intros o.
  { exists 0. cbn. by rewrite app_nil_r. }
  cbn [complete_loop]. rewrite (on_bytes_bind _ _ _ _ _ _ _ (strlen_spec _ _ _ Hp)).
  destruct (compare_prefix e s He) as (r & Er & Hr). rewrite (on_bytes_bind _ _ _ _ _ _ _ Er), matches_cons.
  destruct (Z.eqb_spec r 0) as [H0|H0]; destruct (decide (text `prefix_of` s)) as [Hs|Hs]; try tauto; [|].
  2: { destruct (IH o) as (a & E & Ha). exists a. split; [done|]. destruct (matches text names); [done|].
       destruct Ha as (e1 & He1 & ->). exists e1. split; [|done]. intros P HP. apply He1. by inversion HP. }
  exists (sc_name e). split; [|exists e; split; [intros P HP; by inversion HP|done]]. pose proof He as [Hst _ Hl]. pose proof (zlen_nonneg s).
  rewrite (bind_ok _ _ _ (zlen s, sc_name e) (ShellState m o w)).
  - cbv beta iota. rewrite (on_bytes_bind _ _ _ _ _ _ _ (str_common_spec m (sc_name e) (sc_name e) s s Hst Hst Hl)), lcp_idem.
    rewrite (on_bytes_bind _ _ _ _ _ _ _ (get_string_spec _ _ _ Hst)), (bind_ok _ _ _ _ _ (say_ok _ _ _ _)), Z.ltb_irrefl.
    rewrite (complete_more t names Ht s (sc_name e) s _ Hst Hl ltac:(done) Hs).
    unfold matches_text. cbn [completion map concat]. by rewrite app_assoc.
  - change (0 =? 0) with true. cbv iota. rewrite (on_bytes_bind _ _ _ _ _ _ _ (strlen_spec _ _ _ Hst)).
    by rewrite s32_small by lia.
Qed.
End complete.

(** What the command [help] prints. *)
Fixpoint help_lines (names descs : list (list Z)) : list Z :=
  match names, descs with
  | s :: names, d :: descs =>
      console_text (s ++ spaces (16 - zlen s) ++ chars " - " ++ d ++ [10]) ++ help_lines names descs
  | _, _ => []
  end.
Definition help_text (names descs : list (list Z)) : list Z :=
  console_text (chars "RT-Thread shell commands:" ++ [10]) ++ help_lines names descs ++ console_text [10].

Definition described (m : cmem) (e : finsh_syscall W) (d : list Z) : Prop := cstring m (sc_desc e) d.

Lemma help_loop_spec m w t names descs :
  Forall2 (named m) t names -> Forall2 (described m) t descs -> forall o,
  help_loop t (ShellState m o w) = Some (tt, ShellState m (o ++ help_lines names descs) w).
Proof.
  intros Hn. revert descs. induction Hn as [|e s t names [He _ _] Hn IH]; intros descs Hd o; inversion Hd as [|? d ? descs' Hed Hd']; subst.
  { cbn. by rewrite app_nil_r. }
  cbn [help_loop help_lines]. rewrite (on_bytes_bind _ _ _ _ _ _ _ (get_string_spec _ _ _ He)).
  rewrite (on_bytes_bind _ _ _ _ _ _ _ (get_string_spec _ _ _ Hed)), (bind_ok _ _ _ _ _ (say_ok _ _ _ _)).
  rewrite (IH _ Hd'). by rewrite <- app_assoc.
Qed.

Lemma msh_help_spec m o w names descs argc argv :
  Forall2 (named m) table names -> Forall2 (described m) table descs ->
  msh_help table argc argv (ShellState m o w) = Some (0, ShellState m (o ++ help_text names descs) w).
Proof.
  intros Hn Hd. unfold msh_help. rewrite (bind_ok _ _ _ _ _ (say_ok _ _ _ _)), (bind_ok _ _ _ _ _ (help_loop_spec _ _ _ _ _ Hn Hd _)).
  rewrite (bind_ok _ _ _ _ _ (say_ok _ _ _ _)). unfold help_text. by rewrite <- !app_assoc.
Qed.

Lemma completion_prefix l p : l <> [] -> p `prefix_of` completion l <-> Forall (prefix p) l.
Proof. intros Hl. destruct l as [|s l]; [done|]. cbn [completion]. rewrite foldl_lcp, Forall_cons. tauto. Qed.

(** A name that does not touch the line's buffer and fits into it. *)
Definition fits (a n : Z) (e : finsh_syscall W) (s : list Z) : Prop :=
  apart a n (sc_name e) (zlen s + 1) /\ zlen s < n.

Lemma complete_spec names m o w line n text :
  cmem_ok m -> Forall2 (named m) table names -> Forall2 (fits line n) table names ->
  line_holds m line n text -> text <> [] ->
  exists m', msh_auto_complete table line (ShellState m o w) =
    Some (tt, ShellState m' (o ++ matches_text (matches text names)) w) /\
  match matches text names with
  | [] => m' = m
  | ms => line_holds m' line n (completion ms) /\ changed line n m m'
  end.
Proof.
  intros Hok Hn Hf Hl Ht. pose proof (line_string _ _ _ _ Hl) as Hs. unfold msh_auto_complete.
  rewrite (on_bytes_bind _ _ _ _ _ _ _ (load_ok _ _ _ (cstring_chr _ _ _ Hs))).
  rewrite (proj2 (Z.eqb_neq (chr text) 0)) by (destruct text; [done|]; destruct Hs as [H _]; by inversion H).
  destruct (complete_loop_spec m w line text Hs Ht table names Hn o) as (a & E & Ha).
  rewrite (bind_ok _ _ _ _ _ E). cbv beta iota. destruct (matches text names) as [|s ms] eqn:Em.
  { subst a. exists m. done. }
  destruct Ha as (e & HP & ->). pose proof (HP _ Hn) as [Hst Hnull Hs31]. pose proof (HP _ Hf) as [Hapart Hfit]. rewrite (proj2 (Z.eqb_neq _ 0) Hnull).
  set (c := completion (s :: ms)).
  assert (text `prefix_of` c) as Htc.
  { apply completion_prefix; [done|]. rewrite <- Em. apply Forall_forall. intros x Hx. by apply list_elem_of_filter in Hx as [Hx _]. }
  assert (c `prefix_of` s) as Hc.
  { assert (Forall (prefix c) (s :: ms)) as H by (by apply completion_prefix). by inversion H. }
  pose proof (prefix_length _ _ Htc) as Hl1. pose proof (prefix_length _ _ Hc) as Hl2.
  pose proof Hst as [Hsn _]. assert (Forall (fun x => x <> 0) c) as Hcn by (destruct Hc as [k Hk]; rewrite Hk in Hsn; by apply Forall_app in Hsn as [? _]).
  assert (Kservice.rt_strncpy s (Z.to_nat (zlen c)) = c) as Ecpy.
  { rewrite strncpy_take; [|done|unfold zlen; lia]. destruct Hc as [k Hk]. rewrite Hk. unfold zlen. by rewrite Nat2Z.id, take_app_length. }
  exists (write_bytes line c m). split.
  - cbn [negb when]. rewrite u64_small by (unfold zlen in *; lia).
    rewrite (on_bytes_bind _ _ _ _ _ line (write_bytes line c m)); [done|].
    rewrite (strncpy_spec m line (sc_name e) s (zlen c) Hok Hst (zlen_nonneg _)); [by rewrite Ecpy|].
    split; [|unfold apart, zlen in *; lia]. intros b Hb. apply (line_mapped _ _ _ _ Hl). unfold zlen in *. lia.
  - split; [apply (line_write _ _ _ text); [done|done|unfold zlen in *; lia]|].
    apply (changed_mono line (zlen c)); [lia|unfold zlen in *; lia|]. apply changed_write.
    destruct Hc as [k Hk]. pose proof (cstring_is_string _ _ _ Hst Hok) as Hr. rewrite Hk in Hr. apply Forall_app in Hr as [Hr _].
    eapply Forall_impl; [exact Hr|]. cbn. lia.
Qed.

(** [msh_auto_complete] prints the names of the commands that begin with the
    text of the line, one a line and in the order of the table, and replaces the
    text by the longest beginning that all of them have, with zeros after it to
    the end of the line's buffer; with an empty line it prints the help. If no
    name matches, nothing happens. Nothing but the buffer changes. *)
Theorem auto_complete_correct names descs m o w line n text :
  cmem_ok m -> Forall2 (named m) table names -> Forall2 (described m) table descs ->
  Forall2 (fits line n) table names -> line_holds m line n text ->
  exists m' text', msh_auto_complete table line (ShellState m o w) =
    Some (tt, ShellState m' (o ++ if decide (text = []) then help_text names descs
                                  else matches_text (matches text names)) w) /\
    line_holds m' line n text' /\ changed line n m m' /\
    (if decide (text = [] \/ matches text names = []) then text' = text
     else forall p, p `prefix_of` text' <-> Forall (prefix p) (matches text names)).
Proof.
  intros Hok Hn Hd Hf Hl. destruct (decide (text = [])) as [->|Ht].
  - exists m, []. split_and!; [|done|done|by rewrite decide_True by auto]. unfold msh_auto_complete.
    pose proof (line_string _ _ _ _ Hl) as Hs. apply cstring_nil in Hs.
    rewrite (on_bytes_bind _ _ _ _ _ _ _ (load_ok _ _ _ Hs)). change (0 =? 0) with true. cbv iota.
    by rewrite (bind_ok _ _ _ _ _ (msh_help_spec _ _ _ _ _ _ _ Hn Hd)).
  - destruct (complete_spec names m o w line n text Hok Hn Hf Hl Ht) as (m' & E & H). exists m'.
    destruct (matches text names) as [|s ms] eqn:Em.
    + subst m'. exists text. split_and!; [done|done|done|by rewrite decide_True by auto].
    + destruct H as [H1 H2]. exists (completion (s :: ms)). split_and!; [done|done|done|].
      rewrite decide_False by (by intros [?|?]). intros p. by apply completion_prefix.
Qed.
End correct.

(** ** A small system *)

(** A command that notes the number of its arguments. *)
Definition note_command (argc : Z) (argv : list Z) : St (shell_state Z) Z :=
  modify (fun s => ShellState (sh_memory s) (sh_out s) argc);; mret argc.
Definition demo_names : list (list Z) := [chars "list_thread"; chars "echo"; chars "list_timer"].
Definition demo_descs : list (list Z) := [chars "threads"; chars "print"; chars "timers"].
Definition demo_table : list (finsh_syscall Z) :=
  [Syscall 1000 2000 (Some note_command); Syscall 1100 2100 (Some note_command); Syscall 1200 2200 None].
(** The names, their descriptions, and a line in a buffer of 81 bytes. *)
Definition demo_memory (line : list Z) : cmem :=
  foldr (fun '(a, l) m => write_bytes a (l ++ [0]) m) (write_bytes 100 (line ++ replicate (81 - length line) 0) ∅)
    [(1000, chars "list_thread"); (1100, chars "echo"); (1200, chars "list_timer");
     (2000, chars "threads"); (2100, chars "print"); (2200, chars "timers")].

Definition entry_named (m : cmem) (e : finsh_syscall Z) (s : list Z) : bool :=
  cstringb m (sc_name e) s && negb (sc_name e =? 0) && (zlen s <? 2 ^ 31).
Fixpoint forallb2 {A B} (f : A -> B -> bool) (l : list A) (k : list B) : bool :=
  match l, k with
  | [], [] => true
  | x :: l, y :: k => f x y && forallb2 f l k
  | _, _ => false
  end.
Lemma forallb2_sound {A B} (f : A -> B -> bool) (P : A -> B -> Prop) l k :
  (forall x y, f x y = true -> P x y) -> forallb2 f l k = true -> Forall2 P l k.
Proof.
  intros HP. revert k. induction l as [|x l IH]; intros [|y k] H; try done. cbn in H. apply andb_true_iff in H as [H1 H2].
  constructor; auto.
Qed.

Lemma entry_named_sound m e s : entry_named m e s = true -> named m e s.
Proof.
  unfold entry_named. rewrite !andb_true_iff, negb_true_iff. intros [[H1 H2] H3].
  constructor; [by apply cstringb_sound|lia|lia].
Qed.

(** A command, a quoted argument with an escaped quote in it, and another. *)
Definition demo_line : list Z :=
  chars "  echo " ++ [34] ++ chars "a \" ++ [34] ++ chars "b" ++ [34] ++ chars "c ".
Definition demo_args : list (list Z) := [chars "echo"; chars "a \" ++ [34] ++ chars "b"; chars "c"].

Lemma msh_exec_correct_witness : exists m' ps,
  Forall2 (cstring m') ps demo_args /\ length ps = 3%nat /\
  msh_exec demo_table 100 (zlen demo_line) (ShellState (demo_memory demo_line) [] 0) = Some (3, ShellState m' [] 3).
Proof.
  assert (Forall2 (named (demo_memory demo_line)) demo_table demo_names) as Hn.
  { apply (forallb2_sound _ _ _ _ (entry_named_sound _)). vm_compute. reflexivity. }
  assert (cstring (demo_memory demo_line) 100 demo_line) as Hs by (apply cstringb_sound; vm_compute; reflexivity).
  pose proof (msh_exec_correct demo_table demo_names (demo_memory demo_line) [] 0 100 demo_line Hn
    ltac:(repeat constructor; vm_compute; discriminate) Hs ltac:(lia) ltac:(vm_compute; reflexivity)) as H.
  assert ((words 10 demo_line).1 = demo_args) as Ew by (vm_compute; reflexivity).
  assert ((words 10 demo_line).2 = []) as Er by (vm_compute; reflexivity).
  cbv zeta in H. rewrite Ew, Er in H.
  assert (find_command (plain (drop_blanks demo_line)).1 demo_table demo_names = Some note_command) as Ef
    by (vm_compute; reflexivity).
  rewrite Ef in H. revert H. change (drop_blanks demo_line) with (char "e" :: tail (drop_blanks demo_line)). cbv iota.
  intros (m' & ps & args & _ & Hps & _ & E). exists m', ps. pose proof (Forall2_length _ _ _ Hps) as Hl.
  split; [done|]. split; [done|]. rewrite E. unfold zlen. by rewrite Hl.
Defined.

Lemma auto_complete_correct_witness : exists m' text',
  msh_auto_complete demo_table 100 (ShellState (demo_memory (chars "li")) [] 0) =
    Some (tt, ShellState m' (chars "list_thread" ++ [10] ++ chars "list_timer" ++ [10]) 0) /\
  line_holds m' 100 81 text' /\ forall p, p `prefix_of` text' <-> Forall (prefix p) [chars "list_thread"; chars "list_timer"].
Proof.
  assert (Forall2 (named (demo_memory (chars "li"))) demo_table demo_names) as Hn.
  { apply (forallb2_sound _ _ _ _ (entry_named_sound _)). vm_compute. reflexivity. }
  assert (Forall2 (described (demo_memory (chars "li"))) demo_table demo_descs) as Hd.
  { apply (forallb2_sound _ _ _ _ (fun e s => cstringb_sound _ (sc_desc e) s)). vm_compute. reflexivity. }
  assert (line_holds (demo_memory (chars "li")) 100 81 (chars "li")) as Hl.
  { constructor; [apply bytes_atb_sound; vm_compute; reflexivity| |vm_compute; reflexivity].
    repeat constructor; vm_compute; discriminate. }
  destruct (auto_complete_correct demo_table demo_names demo_descs (demo_memory (chars "li")) [] 0 100 81 (chars "li"))
    as (m' & text' & E & H1 & _ & H2).
  - apply cmem_okb_sound. vm_compute. reflexivity.
  - exact Hn.
  - exact Hd.
  - unfold demo_table, demo_names.
    repeat (apply Forall2_cons_2; [split; [left; vm_compute; discriminate|vm_compute; reflexivity]|]). constructor.
  - exact Hl.
  - exists m', text'. split; [|split; [exact H1|]].
    + rewrite E. reflexivity.
    + rewrite decide_False in H2; [|by intros [?|?]]. exact H2.
Defined.
