(* ===== verification/Finsh.v ===== *)
(** * The shell

    The line editor of [components/finsh/shell.c]: what [finsh_thread_entry]
    does with each character it gets, the history of lines, and the prompt. The
    text buffers of [struct finsh_shell] lie in the memory of Cmem.v at [line]
    and [cmd_history], its other fields are the record [finsh_shell]. A command
    works on all of it and on a world [V] of the application. *)
From Stdlib Require Import String Ascii.
From S2P Require Import Prelude Cmem Kmemory Kstring Printf PrintfNumber Console Msh.
Open Scope Z_scope.

Definition FINSH_CMD_SIZE : Z := 80.
Definition FINSH_HISTORY_LINES : Z := 5.

Inductive input_stat := WAIT_NORMAL | WAIT_SPEC_KEY | WAIT_FUNC_KEY.

(** The fields that are numbers, and the static [finsh_prompt_custom]. *)
Record finsh_shell := FinshShell {
  fs_stat : input_stat;
  fs_echo_mode : Z;
  fs_prompt_mode : Z;
  fs_current_history : Z;
  fs_history_count : Z;
  fs_line_position : Z;
  fs_line_curpos : Z;
  fs_prompt_custom : Z
}.

Definition with_input_stat (x : input_stat) (f : finsh_shell) : finsh_shell :=
  FinshShell x (fs_echo_mode f) (fs_prompt_mode f) (fs_current_history f) (fs_history_count f) (fs_line_position f)
    (fs_line_curpos f) (fs_prompt_custom f).
Definition with_modes (echo prompt : Z) (f : finsh_shell) : finsh_shell :=
  FinshShell (fs_stat f) echo prompt (fs_current_history f) (fs_history_count f) (fs_line_position f)
    (fs_line_curpos f) (fs_prompt_custom f).
Definition with_history (current count : Z) (f : finsh_shell) : finsh_shell :=
  FinshShell (fs_stat f) (fs_echo_mode f) (fs_prompt_mode f) current count (fs_line_position f) (fs_line_curpos f)
    (fs_prompt_custom f).
Definition with_line (position curpos : Z) (f : finsh_shell) : finsh_shell :=
  FinshShell (fs_stat f) (fs_echo_mode f) (fs_prompt_mode f) (fs_current_history f) (fs_history_count f) position curpos
    (fs_prompt_custom f).
Definition with_custom (prompt : Z) (f : finsh_shell) : finsh_shell :=
  FinshShell (fs_stat f) (fs_echo_mode f) (fs_prompt_mode f) (fs_current_history f) (fs_history_count f)
    (fs_line_position f) (fs_line_curpos f) prompt.

(** [strncpy], [memcmp] and [strcpy] of the C library. *)
Definition strncpy (dst src n : Z) : St cmem Z := rt_strncpy dst src n.
Definition memcmp (a b n : Z) : St cmem Z := rt_memcmp a b n.
Definition strcpy (dst src : Z) : St cmem Z := rt_strcpy dst src.
(** [strcpy] and [strcat] of a string literal. *)
Definition strcpy_literal (dst : Z) (s : list Z) : St cmem unit := store_bytes dst (s ++ [0]).
Definition strcat_literal (dst : Z) (s : list Z) : St cmem unit := n ← strlen dst; store_bytes (dst + n) (s ++ [0]).

(** A format string without arguments: what it prints. A directive would take an
    argument that is not there. *)
Fixpoint without_arguments (l : list Z) : option (list Z) :=
  match l with
  | [] => Some []
  | c :: l' =>
      if c =? char "%" then
        match l' with
        | d :: l'' => if d =? char "%" then cons d <$> without_arguments l'' else None
        | [] => None
        end
      else cons c <$> without_arguments l'
  end.

Section finsh.
Context {V : Type}.
Context (table : list (finsh_syscall (finsh_shell * V))).
(** [shell->line], [shell->cmd_history] and the static [finsh_prompt]. *)
Context (line cmd_history finsh_prompt : Z).

Local Abbreviation F := (St (shell_state (finsh_shell * V))).

Definition field {A} (f : finsh_shell -> A) : F A := gets (fun s => f (sh_world s).1).
Definition update (f : finsh_shell -> finsh_shell) : F unit :=
  modify (fun s => ShellState (sh_memory s) (sh_out s) (f (sh_world s).1, (sh_world s).2)).

(** ** Settings and the prompt *)

Definition finsh_get_prompt_mode : F Z := field fs_prompt_mode.
Definition finsh_set_prompt_mode (prompt_mode : Z) : F unit :=
  update (fun f => with_modes (fs_echo_mode f) (u1 prompt_mode) f).
Definition finsh_get_echo : F Z := field fs_echo_mode.
Definition finsh_set_echo (echo : Z) : F unit := update (fun f => with_modes (u1 (u8 echo)) (fs_prompt_mode f) f).

Definition finsh_set_prompt (malloc : Z -> St cmem Z) (free : Z -> St cmem unit) (prompt : Z) : F Z :=
  custom ← field fs_prompt_custom;
  when (negb (custom =? 0)) (on_bytes (free custom);; update (with_custom 0));;
  when (negb (prompt =? 0))
    (n ← on_bytes (strlen prompt);
     p ← on_bytes (malloc (u64 (n + 1)));
     update (with_custom p);;
     when (negb (p =? 0)) (on_bytes (strcpy p prompt);; mret tt));;
  mret 0.

Definition finsh_get_prompt : F Z :=
  mode ← field fs_prompt_mode;
  if mode =? 0 then on_bytes (store finsh_prompt 0);; mret finsh_prompt
  else
    custom ← field fs_prompt_custom;
    (if negb (custom =? 0) then on_bytes (strncpy finsh_prompt custom RT_CONSOLEBUF_SIZE);; mret tt
     else on_bytes (strcpy_literal finsh_prompt (chars "msh ")));;
    on_bytes (strcat_literal finsh_prompt (chars ">"));;
    mret finsh_prompt.

(** [rt_kprintf(FINSH_PROMPT)]: the prompt is the format string. *)
Definition print_prompt : F unit :=
  p ← finsh_get_prompt;
  fmt ← on_bytes (get_string p);
  text ← deref (without_arguments fmt);
  say text.

(** [rt_kprintf("%s%s", FINSH_PROMPT, s)]. *)
Definition print_prompt_and (s : Z) : F unit :=
  p ← finsh_get_prompt;
  prompt ← on_bytes (get_string p);
  text ← on_bytes (get_string s);
  say (prompt ++ text).

Fixpoint say_times (n : nat) (text : list Z) : F unit :=
  match n with
  | O => mret tt
  | S n => say text;; say_times n text
  end.

(** ** History *)

Definition row (index : Z) : Z := cmd_history + index * FINSH_CMD_SIZE.

Definition shell_handle_history : F unit :=
  say ([27] ++ chars "[2K" ++ [13]);;
  print_prompt_and line.

Fixpoint shift_rows (n : nat) (index : Z) : F unit :=
  match n with
  | O => mret tt
  | S n => on_bytes (rt_memcpy (row index) (row (index + 1)) FINSH_CMD_SIZE);; shift_rows n (index + 1)
  end.

Definition store_row (index : Z) : F unit :=
  on_bytes (rt_memset (row index) 0 FINSH_CMD_SIZE);;
  position ← field fs_line_position;
  on_bytes (rt_memcpy (row index) line position);;
  mret tt.

Definition shell_push_history : F unit :=
  position ← field fs_line_position;
  count ← field fs_history_count;
  when (negb (position =? 0))
    (if FINSH_HISTORY_LINES <=? count then
       d ← on_bytes (memcmp (row (FINSH_HISTORY_LINES - 1)) line FINSH_CMD_SIZE);
       when (negb (d =? 0))
         (shift_rows 4 0;;
          store_row (FINSH_HISTORY_LINES - 1);;
          update (fun f => with_history (fs_current_history f) FINSH_HISTORY_LINES f))
     else
       differs ← (if count =? 0 then mret true
                  else d ← on_bytes (memcmp (row (count - 1)) line FINSH_CMD_SIZE); mret (negb (d =? 0)));
       when differs
         (update (fun f => with_history count (fs_history_count f) f);;
          store_row count;;
          update (fun f => with_history (fs_current_history f) (u16 (count + 1)) f)));;
  count ← field fs_history_count;
  update (with_history count count).

(** ** Keys *)

Definition set_line (position curpos : Z) : F unit := update (with_line (u16 position) (u16 curpos)).
Definition set_current (current : Z) : F unit := update (fun f => with_history current (fs_history_count f) f).

(** The line becomes the one in the history. *)
Definition recall (index : Z) : F unit :=
  on_bytes (rt_memcpy line (row index) FINSH_CMD_SIZE);;
  n ← on_bytes (strlen line);
  set_line n n;;
  shell_handle_history.

Definition up_key : F unit :=
  current ← field fs_current_history;
  if 0 <? current then set_current (current - 1);; recall (current - 1) else set_current 0.

Definition down_key : F unit :=
  current ← field fs_current_history;
  count ← field fs_history_count;
  if current <? count - 1 then set_current (current + 1);; recall (current + 1)
  else if negb (count =? 0) then set_current (count - 1);; recall (count - 1)
  else mret tt.

Definition left_key : F unit :=
  position ← field fs_line_position;
  curpos ← field fs_line_curpos;
  when (negb (curpos =? 0)) (say [8];; set_line position (curpos - 1)).

Definition right_key : F unit :=
  position ← field fs_line_position;
  curpos ← field fs_line_curpos;
  when (curpos <? position)
    (c ← on_bytes (load (line + curpos));
     say [c];;
     set_line position (curpos + 1)).

Definition shell_auto_complete (prefix : Z) : F unit :=
  say [10];;
  msh_auto_complete table prefix;;
  print_prompt_and prefix.

Definition tab_key : F unit :=
  curpos ← field fs_line_curpos;
  say_times (Z.to_nat curpos) [8];;
  shell_auto_complete line;;
  n ← on_bytes (strlen line);
  set_line n n.

Definition backspace_key : F unit :=
  position ← field fs_line_position;
  curpos ← field fs_line_curpos;
  if curpos =? 0 then mret tt
  else
    let position := u16 (position - 1) in
    let curpos := u16 (curpos - 1) in
    set_line position curpos;;
    if curpos <? position then
      on_bytes (rt_memmove (line + curpos) (line + curpos + 1) (position - curpos));;
      on_bytes (store (line + position) 0);;
      rest ← on_bytes (get_string (line + curpos));
      say ([8] ++ rest ++ chars "  " ++ [8]);;
      say_times (Z.to_nat (position - curpos + 1)) [8]
    else
      say ([8] ++ chars " " ++ [8]);;
      on_bytes (store (line + position) 0).

Definition enter_key : F unit :=
  shell_push_history;;
  echo ← field fs_echo_mode;
  when (negb (echo =? 0)) (say [10]);;
  position ← field fs_line_position;
  msh_exec table line position;;
  print_prompt;;
  on_bytes (rt_memset line 0 (FINSH_CMD_SIZE + 1));;
  set_line 0 0.

Definition insert_key (ch : Z) : F unit :=
  position ← field fs_line_position;
  curpos ← field fs_line_curpos;
  echo ← field fs_echo_mode;
  let position := if FINSH_CMD_SIZE <=? position then 0 else position in
  (if curpos <? position then
     on_bytes (rt_memmove (line + curpos + 1) (line + curpos) (position - curpos));;
     on_bytes (store (line + curpos) ch);;
     when (negb (echo =? 0)) (rest ← on_bytes (get_string (line + curpos)); say rest);;
     say_times (Z.to_nat (position - curpos)) [8]
   else
     on_bytes (store (line + position) ch);;
     when (negb (echo =? 0)) (say [ch]));;
  let position := u16 (position + 1) in
  let curpos := u16 (curpos + 1) in
  if FINSH_CMD_SIZE <=? position then set_line 0 0 else set_line position curpos.

(** A character that is not part of a function key. *)
Definition plain_key (ch : Z) : F unit :=
  if (ch =? 0) || (ch =? 0xff) then mret tt
  else if ch =? 9 then tab_key
  else if (ch =? 0x7f) || (ch =? 0x08) then backspace_key
  else if (ch =? 13) || (ch =? 10) then enter_key
  else insert_key ch.

(** A round of the loop in [finsh_thread_entry], with the character that
    [finsh_getchar] gives. *)
Definition finsh_key (ch : Z) : F unit :=
  stat ← field fs_stat;
  if ch =? 0x1b then update (with_input_stat WAIT_SPEC_KEY)
  else
    match stat with
    | WAIT_SPEC_KEY =>
        if ch =? 0x5b then update (with_input_stat WAIT_FUNC_KEY)
        else update (with_input_stat WAIT_NORMAL);; plain_key ch
    | WAIT_FUNC_KEY =>
        update (with_input_stat WAIT_NORMAL);;
        if ch =? 0x41 then up_key
        else if ch =? 0x42 then down_key
        else if ch =? 0x44 then left_key
        else if ch =? 0x43 then right_key
        else plain_key ch
    | WAIT_NORMAL => plain_key ch
    end.

Fixpoint finsh_keys (chs : list Z) : F unit :=
  match chs with
  | [] => mret tt
  | ch :: chs => finsh_key ch;; finsh_keys chs
  end.

(** [finsh_thread_entry] up to the loop, and the loop on these characters. *)
Definition finsh_thread_entry (chs : list Z) : F unit :=
  update (fun f => with_modes 1 (fs_prompt_mode f) f);;
  print_prompt;;
  finsh_keys chs.
End finsh.
