(* ===== verification/FinshSpec.v ===== *)
(** * The line editor

    What the shell promises: a line with a cursor, a history of at most five
    lines, and a screen. Text and cursor position are those of an editor without
    buffers; [editor_key] gives what a key does, and is undefined where a
    command is, and where the line would reach 80 characters. *)
From Stdlib Require Import String Ascii.
From S2P Require Import Prelude Kservice Cmem Kmemory Kstring Line Printf PrintfNumber Console Msh MshSpec MshCorrect Finsh.
Open Scope Z_scope.

(** What a command does: from its words, what it prints and the new world. *)
Definition action (V : Type) := list (list Z) -> V -> option (list Z * V).

Record editor (V : Type) := Editor {
  ed_key : input_stat;
  ed_text : list Z;
  ed_cursor : Z;
  ed_history : list (list Z);
  ed_current : Z;
  ed_screen : list Z;
  ed_world : V
}.
Arguments Editor {V}.
Arguments ed_key {V}.
Arguments ed_text {V}.
Arguments ed_cursor {V}.
Arguments ed_history {V}.
Arguments ed_current {V}.
Arguments ed_screen {V}.
Arguments ed_world {V}.

Section editor.
Context {V : Type}.
Context (names descs : list (list Z)) (actions : list (option (action V))).
(** The prompt, and whether characters are echoed. *)
Context (prompt : list Z) (echo : bool).
Implicit Types (e : editor V).

Definition edit (text : list Z) (cursor : Z) (shown : list Z) (e : editor V) : editor V :=
  Editor (ed_key e) text cursor (ed_history e) (ed_current e) (ed_screen e ++ shown) (ed_world e).
Definition with_key (k : input_stat) (e : editor V) : editor V :=
  Editor k (ed_text e) (ed_cursor e) (ed_history e) (ed_current e) (ed_screen e) (ed_world e).
Definition with_past (h : list (list Z)) (i : Z) (e : editor V) : editor V :=
  Editor (ed_key e) (ed_text e) (ed_cursor e) h i (ed_screen e) (ed_world e).

(** [n] times the cursor one to the left. *)
Definition backs (n : Z) : list Z := replicate (Z.to_nat n) 8.
(** The prompt and the line. *)
Definition refresh (text : list Z) : list Z := console_text (prompt ++ text).

(** ** Typing *)

Definition insert_char (c : Z) (e : editor V) : option (editor V) :=
  let rest := zdrop (ed_cursor e) (ed_text e) in
  let text := ztake (ed_cursor e) (ed_text e) ++ c :: rest in
  if FINSH_CMD_SIZE <=? zlen text then None
  else Some (edit text (ed_cursor e + 1) ((if echo then console_text (c :: rest) else []) ++ backs (zlen rest)) e).

Definition delete_char (e : editor V) : editor V :=
  if ed_cursor e =? 0 then e
  else
    let rest := zdrop (ed_cursor e) (ed_text e) in
    edit (ztake (ed_cursor e - 1) (ed_text e) ++ rest) (ed_cursor e - 1)
      (match rest with
       | [] => [8] ++ chars " " ++ [8]
       | _ => console_text ([8] ++ rest ++ chars "  " ++ [8]) ++ backs (zlen rest + 1)
       end) e.

Definition cursor_left (e : editor V) : editor V :=
  if ed_cursor e =? 0 then e else edit (ed_text e) (ed_cursor e - 1) [8] e.
Definition cursor_right (e : editor V) : editor V :=
  if ed_cursor e <? zlen (ed_text e)
  then edit (ed_text e) (ed_cursor e + 1) [zget (ed_text e) (ed_cursor e)] e else e.

(** ** History *)

(** A line joins the history unless it is empty or the last one there. *)
Definition remember (text : list Z) (h : list (list Z)) : list (list Z) :=
  if decide (text = [] \/ last h = Some text) then h
  else (if FINSH_HISTORY_LINES <=? zlen h then tail h else h) ++ [text].

Definition go_to (i : Z) (e : editor V) : editor V :=
  let text := nth (Z.to_nat i) (ed_history e) [] in
  with_past (ed_history e) i
    (edit text (zlen text) (console_text ([27] ++ chars "[2K" ++ [13]) ++ refresh text) e).
Definition older (e : editor V) : editor V := if 0 <? ed_current e then go_to (ed_current e - 1) e else e.
Definition newer (e : editor V) : editor V :=
  if ed_current e <? zlen (ed_history e) - 1 then go_to (ed_current e + 1) e
  else if zlen (ed_history e) =? 0 then e else go_to (zlen (ed_history e) - 1) e.

(** ** Commands *)

Definition complete (e : editor V) : editor V :=
  let text := ed_text e in
  let found := matches text names in
  let text' := if decide (text = [] \/ found = []) then text else completion found in
  edit text' (zlen text')
    (backs (ed_cursor e) ++ console_text [10] ++
     (if decide (text = []) then help_text names descs else matches_text found) ++ refresh text') e.

Fixpoint find_action (tok : list Z) (a : list (option (action V))) (n : list (list Z)) : option (action V) :=
  match a, n with
  | f :: a, s :: n => if decide (s = tok) then f else find_action tok a n
  | _, _ => None
  end.

(** What running the line prints, and the new world. *)
Definition run_line (text : list Z) (v : V) : option (list Z * V) :=
  let body := drop_blanks text in
  match body with
  | [] => Some ([], v)
  | _ =>
      match find_action (plain body).1 actions names with
      | Some act =>
          '(t, v) ← act (words 10 text).1 v;
          Some (split_text (words 10 text).1 (words 10 text).2 ++ t, v)
      | None => Some (console_text (to_space body ++ chars ": command not found." ++ [10]), v)
      end
  end.

Definition enter (e : editor V) : option (editor V) :=
  let h := remember (ed_text e) (ed_history e) in
  '(t, v) ← run_line (ed_text e) (ed_world e);
  Some (Editor (ed_key e) [] 0 h (zlen h)
    (ed_screen e ++ (if echo then [10] else []) ++ t ++ console_text prompt) v).

(** ** Keys *)

Definition editor_char (ch : Z) (e : editor V) : option (editor V) :=
  if (ch =? 0) || (ch =? 0xff) then Some e
  else if ch =? 9 then Some (complete e)
  else if (ch =? 0x7f) || (ch =? 0x08) then Some (delete_char e)
  else if (ch =? 13) || (ch =? 10) then enter e
  else insert_char ch e.

(** The arrow keys are sent as escape, bracket and a letter. *)
Definition editor_key (ch : Z) (e : editor V) : option (editor V) :=
  if ch =? 0x1b then Some (with_key WAIT_SPEC_KEY e)
  else
    match ed_key e with
    | WAIT_SPEC_KEY =>
        if ch =? 0x5b then Some (with_key WAIT_FUNC_KEY e) else editor_char ch (with_key WAIT_NORMAL e)
    | WAIT_FUNC_KEY =>
        let e := with_key WAIT_NORMAL e in
        if ch =? 0x41 then Some (older e)
        else if ch =? 0x42 then Some (newer e)
        else if ch =? 0x44 then Some (cursor_left e)
        else if ch =? 0x43 then Some (cursor_right e)
        else editor_char ch e
    | WAIT_NORMAL => editor_char ch e
    end.

Fixpoint editor_keys (chs : list Z) (e : editor V) : option (editor V) :=
  match chs with
  | [] => Some e
  | ch :: chs => e ← editor_key ch e; editor_keys chs e
  end.
End editor.
