(* ===== verification/FinshCorrect.v ===== *)
(** * The shell keeps its promise

    [finsh_key] does to the buffers what [editor_key] of FinshSpec.v does to the
    text, so that the shell refines the editor. *)
From Stdlib Require Import String Ascii.
From S2P Require Import Prelude Kservice Cmem Kmemory Kstring Line Printf PrintfNumber Console Msh MshSpec MshCorrect Finsh FinshSpec.
Open Scope Z_scope.

Lemma Forall2_both {A B} (P Q R : A -> B -> Prop) l k :
  Forall2 P l k -> Forall2 Q l k -> (forall x y, P x y -> Q x y -> R x y) -> Forall2 R l k.
Proof. intros HP HQ H. revert HQ. induction HP; inversion 1; subst; constructor; auto. Qed.

(** ** The places the shell writes to *)

Section shell.
Context {V : Type}.
Context (table : list (finsh_syscall (finsh_shell * V))).
Context (names descs : list (list Z)) (actions : list (option (action V))).
Context (line cmd_history finsh_prompt : Z).
(** The fields that keys do not change. *)
Context (prompt : list Z) (echo : bool) (prompt_mode prompt_custom : Z).

(** Nothing of these [n] bytes belongs to the shell's buffers. *)
Definition foreign (a n : Z) : Prop :=
  apart line 81 a n /\ apart cmd_history 400 a n /\ apart finsh_prompt 129 a n.
(** These [n] bytes belong to one of the buffers. *)
Definition own (a n : Z) : Prop :=
  line <= a /\ a + n <= line + 81 \/ cmd_history <= a /\ a + n <= cmd_history + 400 \/
  finsh_prompt <= a /\ a + n <= finsh_prompt + 129.

Lemma foreign_string m m' a n b s :
  changed a n m m' -> own a n -> foreign b (zlen s + 1) -> cstring m b s -> cstring m' b s.
Proof.
  intros Hc Ho Hf. apply (changed_cstring _ _ _ _ _ _ Hc). unfold foreign, own, apart in *. pose proof (zlen_nonneg s). lia.
Qed.

(** Where [finsh_get_prompt] gets the prompt from. *)
Definition prompt_source (m : cmem) : Prop :=
  if prompt_mode =? 0 then prompt = []
  else if prompt_custom =? 0 then prompt = chars "msh >"
  else exists p, cstring m prompt_custom p /\ prompt = p ++ chars ">" /\ zlen p < RT_CONSOLEBUF_SIZE /\
    foreign prompt_custom (zlen p + 1).

(** What the shell needs beside its buffers. *)
Record environment (m : cmem) : Prop := Environment {
  env_ok : cmem_ok m;
  env_named : Forall2 (named m) table names;
  env_described : Forall2 (described m) table descs;
  env_prompt : prompt_source m;
  env_buffer : mapped m finsh_prompt 129
}.

(** A command keeps to its contract: it prints and changes the world as its
    action says, and writes only to its arguments. *)
Definition performs (f : Z -> list Z -> St (shell_state (finsh_shell * V)) Z) (act : action V) : Prop :=
  forall m ps ws o fs v t v', Forall2 (cstring m) ps ws -> act ws v = Some (t, v') ->
  exists r m', f (zlen ps) (argv_of ps) (ShellState m o (fs, v)) = Some (r, ShellState m' (o ++ t) (fs, v')) /\
    changed line 81 m m'.
Definition acts (e : finsh_syscall (finsh_shell * V)) (act : option (action V)) : Prop :=
  match sc_func e, act with
  | Some f, Some act => performs f act
  | None, None => True
  | _, _ => False
  end.

(** What does not change at all. *)
Record layout : Prop := Layout {
  lay_history : apart line 81 cmd_history 400;
  lay_prompt : apart line 81 finsh_prompt 129;
  lay_both : apart cmd_history 400 finsh_prompt 129;
  lay_line : 0 < line;
  lay_names : Forall2 (fun e s => foreign (sc_name e) (zlen s + 1) /\ zlen s < FINSH_CMD_SIZE) table names;
  lay_descs : Forall2 (fun e d => foreign (sc_desc e) (zlen d + 1)) table descs;
  lay_actions : Forall2 acts table actions;
  lay_format : without_arguments prompt = Some prompt
}.

Context (Hlay : layout).

Lemma environment_changed m m' a n : changed a n m m' -> own a n -> environment m -> environment m'.
Proof using Hlay.
  intros Hc Ho [H1 H2 H3 H4 H5]. constructor.
  - by apply Hc.
  - apply (Forall2_both _ _ _ _ _ H2 (lay_names Hlay)). intros e s [He1 He2 He3] [Hf _].
    constructor; [by eapply foreign_string|done|done].
  - apply (Forall2_both _ _ _ _ _ H3 (lay_descs Hlay)). intros e d Hd Hf. unfold described in *. by eapply foreign_string.
  - unfold prompt_source in *. destruct (_ =? 0); [done|]. destruct (_ =? 0); [done|].
    destruct H4 as (p & Hp & E & Hl & Hf). exists p. split_and!; [by eapply foreign_string|done|done|done].
  - by eapply mapped_changed.
Qed.

(** ** Steps *)

Local Abbreviation F := (St (shell_state (finsh_shell * V))).

Lemma field_bind {A B} (g : finsh_shell -> A) (k : A -> F B) m o f v :
  (field g ≫= k) (ShellState m o (f, v)) = k (g f) (ShellState m o (f, v)).
Proof using Type. done. Qed.

Lemma update_bind {B} g (k : unit -> F B) m o f v :
  (update g ≫= k) (ShellState m o (f, v)) = k tt (ShellState m o (g f, v)).
Proof using Type. done. Qed.

Lemma say_bind {B} t (k : unit -> F B) m o (w : finsh_shell * V) :
  (say t ≫= k) (ShellState m o w) = k tt (ShellState m (o ++ console_text t) w).
Proof using Type. done. Qed.

Lemma say_times_spec n t m o (w : finsh_shell * V) :
  say_times n t (ShellState m o w) = Some (tt, ShellState m (o ++ concat (replicate n (console_text t))) w).
Proof using Type.
  revert o. induction n as [|n IH]; intros o; cbn [say_times replicate concat]; [by rewrite app_nil_r|].
  by rewrite say_bind, IH, app_assoc.
Qed.

Lemma backs_spec n m o (w : finsh_shell * V) :
  say_times (Z.to_nat n) [8] (ShellState m o w) = Some (tt, ShellState m (o ++ backs n) w).
Proof using Type.
  assert (forall k, concat (replicate k [8]) = replicate k 8) as H by (induction k as [|k IH]; [done|cbn; by rewrite IH]).
  rewrite say_times_spec. change (console_text [8]) with [8]. by rewrite H.
Qed.

(** ** The prompt *)

Lemma strcat_spec m p s n :
  cstring m finsh_prompt p -> Forall (fun c => 0 < c < 256) s -> zlen p + zlen s + 1 <= n -> mapped m finsh_prompt n ->
  exists m', strcat_literal finsh_prompt s m = Some (tt, m') /\ cstring m' finsh_prompt (p ++ s) /\
    changed finsh_prompt n m m'.
Proof using Type.
  intros Hp Hs Hl Hm. pose proof (zlen_nonneg p). pose proof (zlen_nonneg s).
  exists (write_bytes (finsh_prompt + zlen p) (s ++ [0]) m). unfold strcat_literal.
  assert (Forall (fun v => 0 <= v < 256) (s ++ [0])) as Hb.
  { apply Forall_app. split; [|by constructor]. eapply Forall_impl; [exact Hs|]. cbn. lia. }
  assert (zlen (s ++ [0]) = zlen s + 1) as E by by rewrite zlen_app.
  split_and!.
  - rewrite (bind_ok _ _ _ _ _ (strlen_spec _ _ _ Hp)). apply store_bytes_ok; [|done]. intros b Hb'. apply Hm. lia.
  - destruct Hp as [Hn Hp]. split.
    + apply Forall_app. split; [done|]. eapply Forall_impl; [exact Hs|]. cbn. lia.
    + rewrite <- app_assoc. apply bytes_at_app in Hp as [Hp _]. apply bytes_at_app. split; [|apply write_bytes_at].
      apply write_bytes_apart; [unfold apart; lia|done].
  - apply (changed_mono (finsh_prompt + zlen p) (zlen (s ++ [0]))); [lia|lia|by apply changed_write].
Qed.

Lemma strncpy_pad s n :
  Forall (fun c => c <> 0) s -> (length s <= n)%nat -> Kservice.rt_strncpy s n = s ++ replicate (n - length s) 0.
Proof using Type.
  intros Hs. revert n. induction Hs as [|c s Hc Hs IH]; intros [|n] Hn; cbn in Hn; try lia; try done.
  cbn [Kservice.rt_strncpy chr next length Nat.sub app]. rewrite (proj2 (Z.eqb_neq c 0) Hc). f_equal. apply IH. lia.
Qed.

(** The first half of [finsh_get_prompt] leaves a string, to which the rest is
    appended. *)
Lemma prompt_start m p :
  environment m -> prompt_custom <> 0 ->
  cstring m prompt_custom p -> zlen p < RT_CONSOLEBUF_SIZE -> foreign prompt_custom (zlen p + 1) ->
  exists m', strncpy finsh_prompt prompt_custom RT_CONSOLEBUF_SIZE m = Some (finsh_prompt, m') /\
    cstring m' finsh_prompt p /\ changed finsh_prompt 129 m m'.
Proof using Type.
  intros He Hc Hp Hl Hf. unfold RT_CONSOLEBUF_SIZE in *. pose proof (zlen_nonneg p). pose proof Hp as [Hpn _].
  unfold strncpy. rewrite (Kstring.strncpy_spec m finsh_prompt prompt_custom p 128 (env_ok _ He) Hp ltac:(lia)).
  - rewrite strncpy_pad by (done || unfold zlen in *; lia). eexists. split; [done|].
    assert (Z.to_nat 128 - length p = S (127 - length p))%nat as -> by (unfold zlen in *; lia). cbn [replicate]. split.
    + split; [done|]. pose proof (write_bytes_at finsh_prompt (p ++ 0 :: replicate (127 - length p) 0) m) as Hb.
      set (m1 := write_bytes _ _ _) in *. change (0 :: replicate (127 - length p) 0) with ([0] ++ replicate (127 - length p) 0) in Hb.
      rewrite app_assoc in Hb. by apply bytes_at_app in Hb as [Hb _].
    + apply (changed_mono finsh_prompt (zlen (p ++ 0 :: replicate (127 - length p) 0))); [lia| |].
      * rewrite zlen_app, zlen_cons. unfold zlen in *. rewrite length_replicate. lia.
      * apply changed_write. apply Forall_app. split; [|constructor; [lia|by apply Forall_replicate]].
        pose proof (cstring_is_string _ _ _ Hp (env_ok _ He)) as Hr. eapply Forall_impl; [exact Hr|]. cbn. lia.
  - split; [|unfold foreign, apart in *; lia]. intros b Hb. apply (env_buffer _ He). lia.
Qed.

Lemma get_prompt_spec m o f (v : V) :
  environment m -> fs_prompt_mode f = prompt_mode -> fs_prompt_custom f = prompt_custom ->
  exists m', finsh_get_prompt finsh_prompt (ShellState m o (f, v)) = Some (finsh_prompt, ShellState m' o (f, v)) /\
    cstring m' finsh_prompt prompt /\ changed finsh_prompt 129 m m'.
Proof using Type.
  intros He Em Ec. pose proof (env_prompt _ He) as Hp. unfold prompt_source in Hp. unfold finsh_get_prompt.
  rewrite field_bind, Em. destruct (Z.eqb_spec prompt_mode 0) as [H0|H0].
  { rewrite Hp. exists (<[finsh_prompt := 0]> m). split_and!.
    - rewrite (on_bytes_bind _ _ _ _ _ _ _ (store_ok _ _ 0 (env_buffer _ He finsh_prompt ltac:(lia)))). done.
    - apply cstring_nil, lookup_insert_eq.
    - apply (changed_mono finsh_prompt 1); [lia|lia|]. apply changed_store. lia. }
  rewrite field_bind, Ec. destruct (Z.eqb_spec prompt_custom 0) as [Hc|Hc]; cbn [negb].
  - assert (Forall (fun v => 0 <= v < 256) (chars "msh " ++ [0])) as Hb.
    { change (chars "msh " ++ [0]) with [109; 115; 104; 32; 0]. repeat (constructor; [lia|]). constructor. }
    assert (changed finsh_prompt 129 m (write_bytes finsh_prompt (chars "msh " ++ [0]) m)) as Hch.
    { apply (changed_mono finsh_prompt 5); [lia|lia|].
      by apply (changed_write finsh_prompt (chars "msh " ++ [0])). }
    destruct (strcat_spec (write_bytes finsh_prompt (chars "msh " ++ [0]) m) (chars "msh ") (chars ">") 129)
      as (m' & E & Hs & Hch2).
    + split; [|apply write_bytes_at]. change (chars "msh ") with [109; 115; 104; 32]. repeat (constructor; [lia|]). constructor.
    + constructor; [|constructor]. vm_compute. done.
    + vm_compute. discriminate.
    + apply write_bytes_mapped, (env_buffer _ He).
    + exists m'. split_and!; [|by rewrite Hp|by apply (changed_trans _ _ _ _ _ Hch)].
      rewrite (on_bytes_bind _ _ _ _ _ tt (write_bytes finsh_prompt (chars "msh " ++ [0]) m)).
      * by rewrite (on_bytes_bind _ _ _ _ _ _ _ E).
      * apply store_bytes_ok; [|done]. intros b Hb'. apply (env_buffer _ He).
        change (zlen (chars "msh " ++ [0])) with 5 in Hb'. lia.
  - destruct Hp as (p & Hp & -> & Hl & Hf). destruct (prompt_start m p He Hc Hp Hl Hf) as (m1 & E1 & Hs1 & Hch1).
    destruct (strcat_spec m1 p (chars ">") 129 Hs1) as (m' & E & Hs & Hch2).
    + constructor; [|constructor]. vm_compute. done.
    + change (zlen (chars ">")) with 1. unfold RT_CONSOLEBUF_SIZE in Hl. lia.
    + by apply (mapped_changed _ _ _ _ _ _ Hch1), (env_buffer _ He).
    + exists m'. split_and!; [|done|by apply (changed_trans _ _ _ _ _ Hch1)].
      rewrite bind_unfold. rewrite (on_bytes_bind _ _ _ _ _ _ _ E1).
      cbn [mret St_ret]. by rewrite (on_bytes_bind _ _ _ _ _ _ _ E).
Qed.

(** What is shown of the prompt and a line. *)
Lemma print_prompt_and_spec m o f (v : V) text :
  environment m -> fs_prompt_mode f = prompt_mode -> fs_prompt_custom f = prompt_custom -> line_holds m line 81 text ->
  exists m', print_prompt_and finsh_prompt line (ShellState m o (f, v)) =
      Some (tt, ShellState m' (o ++ refresh prompt text) (f, v)) /\ changed finsh_prompt 129 m m'.
Proof using Hlay.
  intros He Em Ec Hl. destruct (get_prompt_spec m o f v He Em Ec) as (m' & E & Hs & Hch). exists m'. split; [|done].
  unfold print_prompt_and. rewrite (bind_ok _ _ _ _ _ E), (on_bytes_bind _ _ _ _ _ _ _ (get_string_spec _ _ _ Hs)).
  pose proof (line_changed m m' finsh_prompt 129 line 81 text Hch ltac:(pose proof (lay_prompt Hlay); unfold apart in *; lia) Hl) as Hl'.
  by rewrite (on_bytes_bind _ _ _ _ _ _ _ (get_string_spec _ _ _ (line_string _ _ _ _ Hl'))).
Qed.

Lemma print_prompt_spec m o f (v : V) :
  environment m -> fs_prompt_mode f = prompt_mode -> fs_prompt_custom f = prompt_custom ->
  exists m', print_prompt finsh_prompt (ShellState m o (f, v)) =
      Some (tt, ShellState m' (o ++ console_text prompt) (f, v)) /\ changed finsh_prompt 129 m m'.
Proof using Hlay.
  intros He Em Ec. destruct (get_prompt_spec m o f v He Em Ec) as (m' & E & Hs & Hch). exists m'. split; [|done].
  unfold print_prompt. rewrite (bind_ok _ _ _ _ _ E), (on_bytes_bind _ _ _ _ _ _ _ (get_string_spec _ _ _ Hs)).
  by rewrite (bind_deref _ _ _ _ (lay_format Hlay)).
Qed.

(** ** The shell's state as the editor sees it *)

Definition fields (e : editor V) : finsh_shell :=
  FinshShell (ed_key e) (Z.b2z echo) prompt_mode (ed_current e) (zlen (ed_history e)) (zlen (ed_text e)) (ed_cursor e)
    prompt_custom.
Definition shell_of (e : editor V) (m : cmem) : shell_state (finsh_shell * V) :=
  ShellState m (ed_screen e) (fields e, ed_world e).

(** The rows of the history from the [i]th on. *)
Definition rows (m : cmem) (i : Z) (h : list (list Z)) : Prop :=
  forall j t, h !! j = Some t -> line_holds m (row cmd_history (i + Z.of_nat j)) FINSH_CMD_SIZE t.

Record holds (m : cmem) (e : editor V) : Prop := Holds {
  hd_env : environment m;
  hd_line : line_holds m line 81 (ed_text e);
  hd_short : zlen (ed_text e) < FINSH_CMD_SIZE;
  hd_cursor : 0 <= ed_cursor e <= zlen (ed_text e);
  hd_rows : rows m 0 (ed_history e);
  hd_mapped : mapped m cmd_history 400;
  hd_count : zlen (ed_history e) <= FINSH_HISTORY_LINES;
  hd_current : 0 <= ed_current e <= zlen (ed_history e)
}.

Lemma rows_changed m m' a n h :
  changed a n m m' -> apart a n cmd_history 400 -> zlen h <= FINSH_HISTORY_LINES -> rows m 0 h -> rows m' 0 h.
Proof using Type.
  unfold FINSH_HISTORY_LINES. intros Hc Ha Hh H j t E. apply (line_changed _ _ _ _ _ _ _ Hc); [|by apply H].
  apply lookup_lt_Some in E. unfold apart, row, FINSH_CMD_SIZE, zlen in *. lia.
Qed.

(** The line changes. *)
Lemma holds_edit m m' e text cursor shown :
  holds m e -> changed line 81 m m' -> line_holds m' line 81 text -> zlen text < FINSH_CMD_SIZE ->
  0 <= cursor <= zlen text -> holds m' (edit text cursor shown e).
Proof using Hlay.
  intros [H1 H2 H3 H4 H5 H6 H7 H8] Hc Hl Ht Hcur. constructor; try done.
  - apply (environment_changed m m' line 81); [done|left; lia|done].
  - cbn. apply (rows_changed m m' line 81); [done|apply (lay_history Hlay)|done|done].
  - cbn. by eapply mapped_changed.
Qed.

(** Only the prompt's buffer changes. *)
Lemma holds_prompt m m' e : holds m e -> changed finsh_prompt 129 m m' -> holds m' e.
Proof using Hlay.
  intros [H1 H2 H3 H4 H5 H6 H7 H8] Hc. pose proof (lay_prompt Hlay). pose proof (lay_both Hlay). constructor; try done.
  - apply (environment_changed m m' finsh_prompt 129); [done|right; right; lia|done].
  - apply (line_changed m m' finsh_prompt 129); [done|unfold apart in *; lia|done].
  - apply (rows_changed m m' finsh_prompt 129); [done|unfold apart in *; lia|done|done].
  - by eapply mapped_changed.
Qed.

Lemma holds_screen m e text cursor shown shown' : holds m (edit text cursor shown e) -> holds m (edit text cursor shown' e).
Proof using Type. intros []. by constructor. Qed.

(** A step of the shell that is one of the editor. *)
Definition step_ok (x : F unit) (e e' : editor V) (m : cmem) : Prop :=
  exists m', x (shell_of e m) = Some (tt, shell_of e' m') /\ holds m' e'.

(** ** Typing *)

Lemma write_bytes_insert a l m b v :
  ~ (a <= b < a + zlen l) -> <[b := v]> (write_bytes a l m) = write_bytes a l (<[b := v]> m).
Proof using Type.
  intros Hb. apply map_eq. intros c. rewrite (write_bytes_lookup a l (<[b := v]> m)). destruct (decide (c = b)) as [->|Hne].
  - rewrite !lookup_insert_eq. destruct (_ && _) eqn:E; [|done]. rewrite andb_true_iff in E. lia.
  - rewrite !lookup_insert_ne by done. by rewrite write_bytes_lookup.
Qed.

Lemma line_bytes m text : environment m -> line_holds m line 81 text -> Forall (fun c => 0 <= c < 256) text.
Proof using Type.
  intros He [Hb _ _]. apply bytes_at_app in Hb as [Hb _]. apply (bytes_at_bytes m line); [apply He|done].
Qed.

Section typing.
Context (m : cmem) (e : editor V) (H : holds m e).
Local Abbreviation text := (ed_text e).
Local Abbreviation cur := (ed_cursor e).
Local Abbreviation rest := (zdrop cur text).

Lemma rest_length : zlen rest = zlen text - cur.
Proof using H. pose proof (hd_cursor _ _ H). by apply zlen_zdrop. Qed.

Lemma rest_at : bytes_at m (line + cur) rest /\ Forall (fun c => c <> 0) rest.
Proof using H.
  destruct (hd_line _ _ H) as [Hb Ht _]. split; [|by apply Forall_drop]. apply bytes_at_app in Hb as [Hb _].
  pose proof (hd_cursor _ _ H). rewrite <- (take_drop (Z.to_nat cur) text) in Hb. apply bytes_at_app in Hb as [_ Hb].
  fold (ztake cur text) (zdrop cur text) in Hb. by rewrite zlen_ztake in Hb.
Qed.

(** Where a character is inserted, the rest of the line is moved first. *)
Lemma insert_line c :
  0 < c < 256 -> zlen text + 1 < FINSH_CMD_SIZE ->
  let m' := write_bytes (line + cur) (c :: rest) m in
  line_holds m' line 81 (ztake cur text ++ c :: rest) /\ changed line 81 m m' /\ cstring m' (line + cur) (c :: rest).
Proof using H.
  intros Hc Hlen. cbv zeta. pose proof (hd_cursor _ _ H) as Hcur. destruct rest_at as [Hr Hrn]. pose proof rest_length as Hrl.
  unfold FINSH_CMD_SIZE in *.
  assert (line_holds (write_bytes (line + cur) (c :: rest) m) line 81 (ztake cur text ++ c :: rest)) as Hl.
  { pose proof (line_splice m line 81 text cur (c :: rest) 0 (hd_line _ _ H) Hcur) as Hl. rewrite app_nil_r in Hl.
    apply Hl; [constructor; [lia|done]|rewrite zlen_cons; lia..]. }
  split; [done|]. split.
  - apply (changed_mono (line + cur) (zlen (c :: rest))); [lia|rewrite zlen_cons; lia|]. apply changed_write.
    constructor; [lia|]. apply Forall_drop, (line_bytes m); [apply H|apply H].
  - pose proof (line_string _ _ _ _ Hl) as Hs. apply cstring_suffix in Hs. by rewrite zlen_ztake in Hs by lia.
Qed.

Lemma insert_moves c :
  0 < c < 256 -> zlen text + 1 < FINSH_CMD_SIZE -> cur < zlen text ->
  rt_memmove (line + cur + 1) (line + cur) (zlen text - cur) m =
    Some (line + cur + 1, write_bytes (line + cur + 1) rest m) /\
  store (line + cur) c (write_bytes (line + cur + 1) rest m) = Some (tt, write_bytes (line + cur) (c :: rest) m).
Proof using H.
  intros Hc Hlen Hcur. unfold FINSH_CMD_SIZE in *. destruct rest_at as [Hr _]. pose proof rest_length as Hrl.
  pose proof (hd_cursor _ _ H). pose proof (line_mapped _ _ _ _ (hd_line _ _ H)) as Hmap. split.
  - rewrite <- Hrl. apply memmove_spec; [apply H|done|]. intros b Hb. apply Hmap. lia.
  - rewrite store_ok, u8_small by (lia || (apply (write_bytes_mapped _ _ _ line 81); [done|lia])).
    rewrite write_bytes_insert by lia. done.
Qed.

Lemma insert_key_ok c e' :
  0 < c < 256 -> insert_char echo c e = Some e' -> step_ok (insert_key line c) e e' m.
Proof using H Hlay.
  unfold insert_char. intros Hc E. destruct (Z.leb_spec FINSH_CMD_SIZE (zlen (ztake cur text ++ c :: rest))) as [|Hlen]; [done|].
  injection E as <-. pose proof rest_length as Hrl. pose proof (hd_cursor _ _ H) as Hcur.
  rewrite zlen_app, zlen_ztake, zlen_cons in Hlen by lia.
  destruct (insert_line c Hc ltac:(lia)) as (Hl & Hch & Hs). set (m' := write_bytes (line + cur) (c :: rest) m) in *.
  exists m'. split; [|apply (holds_edit m m'); [done|done|done|rewrite zlen_app, zlen_ztake, zlen_cons by lia; lia..]].
  unfold insert_key, shell_of. rewrite !field_bind. cbn [fields fs_line_position fs_line_curpos fs_echo_mode].
  rewrite (proj2 (Z.leb_gt FINSH_CMD_SIZE (zlen text))) by lia. cbv zeta.
  assert (forall o, (let position := u16 (zlen text + 1) in let curpos := u16 (cur + 1) in
    if FINSH_CMD_SIZE <=? position then set_line 0 0 else set_line position curpos) (ShellState m' o (fields e, ed_world e)) =
    Some (tt, ShellState m' o (fields (edit (ztake cur text ++ c :: rest) (cur + 1) [] e), ed_world e))) as Hend.
  { intros o. unfold FINSH_CMD_SIZE in *. cbv zeta. rewrite !u16_small by lia. rewrite (proj2 (Z.leb_gt 80 _)) by lia.
    unfold set_line, update, modify, fields. rewrite !u16_small by lia. cbn.
    rewrite zlen_app, zlen_ztake, zlen_cons by lia. do 5 f_equal. unfold with_line. cbn. f_equal. lia. }
  destruct (Z.ltb_spec cur (zlen text)) as [Hlt|Hge].
  - destruct (insert_moves c Hc ltac:(lia) Hlt) as [E1 E2]. fold m' in E2.
    rewrite bind_unfold, (on_bytes_bind _ _ _ _ _ _ _ E1), (on_bytes_bind _ _ _ _ _ _ _ E2).
    assert (forall o, (when (negb (Z.b2z echo =? 0)) (rest ← on_bytes (get_string (line + cur)); say rest))
      (ShellState m' o (fields e, ed_world e)) =
      Some (tt, ShellState m' (o ++ if echo then console_text (c :: rest) else []) (fields e, ed_world e))) as Eecho.
    { intros o. destruct echo; cbn [Z.b2z Z.eqb negb when]; [|by rewrite app_nil_r].
      by rewrite (on_bytes_bind _ _ _ _ _ _ _ (get_string_spec _ _ _ Hs)). }
    rewrite (bind_ok _ _ _ _ _ (Eecho _)), backs_spec, Hend. unfold shell_of, edit. cbn. by rewrite Hrl, app_assoc.
  - assert (rest = []) as Er by (destruct rest; [done|]; rewrite zlen_cons in Hrl; pose proof (zlen_nonneg l); lia).
    assert (zlen text = cur) as Ecur by lia.
    rewrite bind_unfold. rewrite Ecur at 1.
    assert (store (line + cur) c m = Some (tt, m')) as E2.
    { unfold m'. rewrite Er. rewrite store_ok, u8_small by (lia || (apply (line_mapped _ _ _ _ (hd_line _ _ H)); unfold FINSH_CMD_SIZE in *; lia)). done. }
    rewrite (on_bytes_bind _ _ _ _ _ _ _ E2).
    assert (forall o, (when (negb (Z.b2z echo =? 0)) (say [c])) (ShellState m' o (fields e, ed_world e)) =
      Some (tt, ShellState m' (o ++ if echo then console_text (c :: rest) else []) (fields e, ed_world e))) as Eecho.
    { intros o. rewrite Er. destruct echo; cbn [Z.b2z Z.eqb negb when]; [done|by rewrite app_nil_r]. }
    rewrite Eecho, Hend. unfold shell_of, edit. cbn. rewrite Er. change (backs (zlen [])) with (@nil Z).
    by rewrite !app_nil_r.
Qed.
End typing.

Section deleting.
Context (m : cmem) (e : editor V) (H : holds m e) (Hpos : 0 < ed_cursor e).
Local Abbreviation text := (ed_text e).
Local Abbreviation cur := (ed_cursor e).
Local Abbreviation rest := (zdrop cur text).

(** The rest of the line moves one to the left, with a zero behind it. *)
Lemma delete_line :
  let m' := write_bytes (line + (cur - 1)) (rest ++ [0]) m in
  line_holds m' line 81 (ztake (cur - 1) text ++ rest) /\ changed line 81 m m' /\ cstring m' (line + (cur - 1)) rest.
Proof using H Hpos.
  cbv zeta. pose proof (hd_cursor _ _ H) as Hcur. destruct (rest_at m e H) as [Hr Hrn]. pose proof (rest_length m e H) as Hrl.
  pose proof (hd_short _ _ H) as Hlen. unfold FINSH_CMD_SIZE in *.
  assert (line_holds (write_bytes (line + (cur - 1)) (rest ++ [0]) m) line 81 (ztake (cur - 1) text ++ rest)) as Hl.
  { apply (line_splice m line 81 text (cur - 1) rest 1 (hd_line _ _ H)); [lia|done|lia..]. }
  split; [done|]. split.
  - apply (changed_mono (line + (cur - 1)) (zlen (rest ++ [0]))); [lia|rewrite zlen_app; change (zlen [0]) with 1; lia|].
    apply changed_write. apply Forall_app. split; [|by constructor]. apply Forall_drop, (line_bytes m); [apply H|apply H].
  - pose proof (line_string _ _ _ _ Hl) as Hs. apply cstring_suffix in Hs. by rewrite zlen_ztake in Hs by lia.
Qed.

Lemma delete_moves :
  cur < zlen text ->
  rt_memmove (line + (cur - 1)) (line + (cur - 1) + 1) (zlen text - cur) m =
    Some (line + (cur - 1), write_bytes (line + (cur - 1)) rest m) /\
  store (line + (zlen text - 1)) 0 (write_bytes (line + (cur - 1)) rest m) =
    Some (tt, write_bytes (line + (cur - 1)) (rest ++ [0]) m).
Proof using H Hpos.
  intros Hcur. pose proof (hd_short _ _ H) as Hlen. unfold FINSH_CMD_SIZE in *. destruct (rest_at m e H) as [Hr _].
  pose proof (rest_length m e H) as Hrl. pose proof (line_mapped _ _ _ _ (hd_line _ _ H)) as Hmap. split.
  - rewrite <- Hrl. replace (line + (cur - 1) + 1) with (line + cur) by lia.
    apply memmove_spec; [apply H|done|]. intros b Hb. apply Hmap. lia.
  - rewrite store_ok by (apply (write_bytes_mapped _ _ _ line 81); [done|lia]).
    rewrite write_bytes_snoc. by replace (line + (cur - 1) + zlen rest) with (line + (zlen text - 1)) by lia.
Qed.
End deleting.

Lemma backspace_key_ok m e : holds m e -> step_ok (backspace_key line) e (delete_char e) m.
Proof using Hlay.
  intros H. pose proof (hd_cursor _ _ H) as Hcur. pose proof (hd_short _ _ H) as Hlen. pose proof (rest_length m e H) as Hrl.
  unfold FINSH_CMD_SIZE in *. unfold step_ok, backspace_key, delete_char, shell_of. rewrite !field_bind.
  cbn [fields fs_line_position fs_line_curpos]. destruct (Z.eqb_spec (ed_cursor e) 0) as [H0|H0]; [by exists m|].
  destruct (delete_line m e H ltac:(lia)) as (Hl & Hch & Hs).
  set (m' := write_bytes (line + (ed_cursor e - 1)) (zdrop (ed_cursor e) (ed_text e) ++ [0]) m) in *.
  exists m'. split.
  2: { apply (holds_edit m m'); [done|done|done|..]; rewrite zlen_app, zlen_ztake by lia; unfold FINSH_CMD_SIZE; lia. }
  rewrite !u16_small by lia. unfold set_line. rewrite update_bind, !u16_small by lia.
  assert (forall shown o, ShellState m' o (with_line (zlen (ed_text e) - 1) (ed_cursor e - 1) (fields e), ed_world e) =
    ShellState m' o (fields (edit (ztake (ed_cursor e - 1) (ed_text e) ++ zdrop (ed_cursor e) (ed_text e)) (ed_cursor e - 1) shown e),
      ed_world (edit (ztake (ed_cursor e - 1) (ed_text e) ++ zdrop (ed_cursor e) (ed_text e)) (ed_cursor e - 1) shown e))) as Hend.
  { intros shown o. unfold fields, with_line. cbn. rewrite zlen_app, zlen_ztake by lia. do 3 f_equal. lia. }
  destruct (Z.ltb_spec (ed_cursor e - 1) (zlen (ed_text e) - 1)) as [Hlt|Hge].
  - destruct (delete_moves m e H ltac:(lia) ltac:(lia)) as [E1 E2]. fold m' in E2.
    replace (zlen (ed_text e) - 1 - (ed_cursor e - 1)) with (zlen (ed_text e) - ed_cursor e) by lia.
    rewrite (on_bytes_bind _ _ _ _ _ _ _ E1), (on_bytes_bind _ _ _ _ _ _ _ E2).
    rewrite (on_bytes_bind _ _ _ _ _ _ _ (get_string_spec _ _ _ Hs)), say_bind, backs_spec, <- app_assoc.
    destruct (zdrop (ed_cursor e) (ed_text e)) as [|c r] eqn:Er; [change (zlen []) with 0 in Hrl; lia|].
    rewrite <- Hrl. rewrite (Hend (console_text ([8] ++ (c :: r) ++ chars "  " ++ [8]) ++ backs (zlen (c :: r) + 1))). done.
  - assert (zlen (ed_text e) = ed_cursor e) as Eq by lia.
    destruct (zdrop (ed_cursor e) (ed_text e)) as [|c r] eqn:Er; [|rewrite zlen_cons in Hrl; pose proof (zlen_nonneg r); lia].
    rewrite say_bind. rewrite (on_bytes_ok _ _ _ _ tt m').
    + rewrite (Hend ([8] ++ chars " " ++ [8])). done.
    + rewrite Eq. apply store_ok. apply (line_mapped _ _ _ _ (hd_line _ _ H)). lia.
Qed.

Lemma cursor_keys_ok m e :
  holds m e -> step_ok left_key e (cursor_left e) m /\ step_ok (right_key line) e (cursor_right e) m.
Proof using Hlay.
  intros H. pose proof (hd_cursor _ _ H) as Hcur. pose proof (hd_short _ _ H) as Hlen. unfold FINSH_CMD_SIZE in *.
  unfold step_ok, left_key, right_key, cursor_left, cursor_right, shell_of. rewrite !field_bind.
  cbn [fields fs_line_position fs_line_curpos]. split; exists m.
  - destruct (Z.eqb_spec (ed_cursor e) 0) as [H0|H0]; cbn [negb when]; [done|]. rewrite say_bind. split.
    + unfold set_line, update, modify. by rewrite !u16_small by lia.
    + apply (holds_edit m m); [done|done|apply H|apply H|lia].
  - destruct (Z.ltb_spec (ed_cursor e) (zlen (ed_text e))) as [Hlt|Hge]; cbn [when]; [|done].
    pose proof (cstring_load _ _ _ (line_string _ _ _ _ (hd_line _ _ H)) (ed_cursor e) ltac:(lia)) as El.
    rewrite (on_bytes_bind _ _ _ _ _ _ _ El), say_bind. split.
    + unfold set_line, update, modify. by rewrite !u16_small by lia.
    + apply (holds_edit m m); [done|done|apply H|apply H|lia].
Qed.

Lemma set_line_ok m o e (v : V) text cursor shown :
  zlen text < FINSH_CMD_SIZE -> 0 <= cursor <= zlen text ->
  set_line (zlen text) cursor (ShellState m o (fields e, v)) = Some (tt, ShellState m o (fields (edit text cursor shown e), v)).
Proof using Type.
  unfold FINSH_CMD_SIZE. intros Ht Hc. unfold set_line, update, modify. by rewrite !u16_small by lia.
Qed.

(** ** Completion *)

Lemma completion_short (found : list (list Z)) :
  found <> [] -> Forall (fun s => zlen s < FINSH_CMD_SIZE) found -> zlen (completion found) < FINSH_CMD_SIZE.
Proof using Type.
  intros Hf Hs. assert (Forall (prefix (completion found)) found) as Hp by by apply completion_prefix.
  destruct found as [|s l]; [done|]. inversion Hp; inversion Hs; subst. 
  match goal with Hx : completion _ `prefix_of` s |- _ => apply prefix_length in Hx end. unfold zlen in *. lia.
Qed.

Lemma auto_complete_spec m o e (v : V) :
  holds m e ->
  let text := ed_text e in
  let found := matches text names in
  let text' := if decide (text = [] \/ found = []) then text else completion found in
  exists m', msh_auto_complete table line (ShellState m o (fields e, v)) =
      Some (tt, ShellState m' (o ++ if decide (text = []) then help_text names descs else matches_text found) (fields e, v)) /\
    line_holds m' line 81 text' /\ changed line 81 m m' /\ zlen text' < FINSH_CMD_SIZE.
Proof using Hlay.
  intros H. cbv zeta. pose proof (hd_env _ _ H) as [Hok Hn Hd _ _]. pose proof (hd_short _ _ H) as Hlen.
  destruct (decide (ed_text e = [])) as [Ht|Ht].
  - exists m. rewrite decide_True by auto. split_and!; [|apply H|done|done]. unfold msh_auto_complete.
    pose proof (line_string _ _ _ _ (hd_line _ _ H)) as Hs. rewrite Ht in Hs. apply cstring_nil in Hs.
    rewrite (on_bytes_bind _ _ _ _ _ _ _ (load_ok _ _ _ Hs)). change (0 =? 0) with true. cbv iota.
    by rewrite (bind_ok _ _ _ _ _ (msh_help_spec _ _ _ _ _ _ _ _ Hn Hd)).
  - assert (Forall2 (fits line 81) table names) as Hf.
    { eapply Forall2_impl; [apply (lay_names Hlay)|]. intros x s [(Hx & _) Hs]. split; [done|]. unfold FINSH_CMD_SIZE in Hs. lia. }
    destruct (complete_spec table names m o (fields e, v) line 81 _ Hok Hn Hf (hd_line _ _ H) Ht) as (m' & E & Hm).
    exists m'. destruct (matches (ed_text e) names) as [|s l] eqn:Em.
    + subst m'. rewrite decide_True by auto. split_and!; [done|apply H|done|done].
    + rewrite decide_False by (by intros [?|?]). destruct Hm as [H1 H2]. split_and!; [done|done|done|].
      apply completion_short; [done|]. rewrite <- Em. apply Forall_forall. intros x Hx.
      apply list_elem_of_filter in Hx as [_ Hx]. apply list_elem_of_lookup in Hx as [i Hi].
      by destruct (Forall2_lookup_r _ _ _ _ _ (lay_names Hlay) Hi) as (x' & _ & _ & Hx').
Qed.

Lemma tab_key_ok m e : holds m e -> step_ok (tab_key table line finsh_prompt) e (complete names descs prompt e) m.
Proof using Hlay.
  intros H. unfold tab_key, shell_of. 
  destruct (auto_complete_spec m (ed_screen e ++ backs (ed_cursor e) ++ console_text [10]) e (ed_world e) H)
    as (m1 & E1 & Hl1 & Hch1 & Hlen1).
  unfold step_ok, complete, tab_key, shell_of. cbv zeta.
  set (text' := if decide (ed_text e = [] \/ matches (ed_text e) names = []) then ed_text e else completion (matches (ed_text e) names)) in *.
  set (shown := if decide (ed_text e = []) then help_text names descs else matches_text (matches (ed_text e) names)) in *.
  pose proof (zlen_nonneg text') as Hn.
  pose proof (holds_edit m m1 e text' (zlen text') [] H Hch1 Hl1 Hlen1 ltac:(lia)) as H1.
  destruct (print_prompt_and_spec m1 ((ed_screen e ++ backs (ed_cursor e) ++ console_text [10]) ++ shown) (fields e) (ed_world e) text'
    (hd_env _ _ H1) eq_refl eq_refl Hl1) as (m2 & E2 & Hch2).
  pose proof (holds_prompt m1 m2 _ H1 Hch2) as H2. exists m2. split; [|by apply (holds_screen _ _ _ _ [])].
  rewrite field_bind. cbn [fields fs_line_curpos]. rewrite (bind_ok _ _ _ _ _ (backs_spec _ _ _ _)).
  unfold shell_auto_complete. rewrite bind_unfold, say_bind, <- app_assoc, (bind_ok _ _ _ _ _ E1), E2.
  pose proof (strlen_spec _ _ _ (line_string _ _ _ _ (hd_line _ _ H2))) as E3. cbn [edit ed_text] in E3.
  rewrite (on_bytes_bind _ _ _ _ _ _ _ E3).
  rewrite (set_line_ok _ _ _ _ text' (zlen text') [] Hlen1) by lia. by rewrite <- !app_assoc.
Qed.

(** ** History *)

Lemma row_own i n : 0 <= i -> 0 <= n -> i + n <= 5 -> own (row cmd_history i) (80 * n).
Proof using Type. intros. right. left. unfold row, FINSH_CMD_SIZE. lia. Qed.

(** A line of the history replaces the line. *)
Lemma recall_ok m e i :
  holds m e -> 0 <= i < zlen (ed_history e) ->
  step_ok (set_current i;; recall line cmd_history finsh_prompt i) e (go_to prompt i e) m.
Proof using Hlay.
  intros H Hi. pose proof (hd_env _ _ H) as He. pose proof (hd_short _ _ H) as Hlen. pose proof (zlen_nonneg (ed_text e)).
  destruct (lookup_lt_is_Some_2 (ed_history e) (Z.to_nat i)) as [t Et]; [unfold zlen in Hi; lia|].
  pose proof (hd_rows _ _ H _ _ Et) as Hrow. replace (0 + Z.of_nat (Z.to_nat i)) with i in Hrow by lia.
  pose proof (lh_length _ _ _ _ Hrow) as Ht. pose proof (zlen_nonneg t). unfold FINSH_CMD_SIZE in *.
  set (l := t ++ replicate (Z.to_nat (80 - zlen t)) 0).
  assert (zlen l = 80) as Hl by (unfold l; rewrite zlen_app, zlen_replicate by lia; lia).
  assert (line_holds (write_bytes line l m) line 81 t) as Hnew.
  { pose proof (line_splice m line 81 (ed_text e) 0 t (Z.to_nat (80 - zlen t)) (hd_line _ _ H)) as Hs.
    rewrite Z.add_0_r in Hs. apply Hs; [lia|apply Hrow|lia..]. }
  assert (changed line 81 m (write_bytes line l m)) as Hch.
  { apply (changed_mono line (zlen l)); [lia|lia|]. apply changed_write.
    apply (bytes_at_bytes m (row cmd_history i)); [apply He|apply Hrow]. }
  set (e1 := with_past (ed_history e) i e).
  assert (holds m e1) as He1 by (destruct H; constructor; (done || cbn; lia)).
  pose proof (holds_edit m _ e1 t (zlen t) (console_text ([27] ++ chars "[2K" ++ [13])) He1 Hch Hnew ltac:(unfold FINSH_CMD_SIZE; lia) ltac:(lia)) as Hed.
  destruct (print_prompt_and_spec _ (ed_screen e ++ console_text ([27] ++ chars "[2K" ++ [13])) (with_line (zlen t) (zlen t) (fields e1))
    (ed_world e) t (hd_env _ _ Hed) eq_refl eq_refl Hnew) as (m2 & E2 & Hch2).
  exists m2. split.
  2: { unfold go_to. rewrite nth_lookup, Et. cbn [default from_option id]. pose proof (holds_prompt _ _ _ Hed Hch2) as H3.
       destruct H3. by constructor. }
  unfold set_current, recall, shell_of. rewrite update_bind.
  assert (rt_memcpy line (row cmd_history i) FINSH_CMD_SIZE m = Some (line, write_bytes line l m)) as E1.
  { unfold FINSH_CMD_SIZE. rewrite <- Hl at 1. apply memcpy_spec.
    - apply He.
    - apply Hrow.
    - intros b Hb. apply (line_mapped _ _ _ _ (hd_line _ _ H)). lia.
    - pose proof (lay_history Hlay) as Ha. unfold apart, row, FINSH_CMD_SIZE in *. pose proof (hd_count _ _ H). unfold FINSH_HISTORY_LINES in *. lia. }
  rewrite (on_bytes_bind _ _ _ _ _ _ _ E1), (on_bytes_bind _ _ _ _ _ _ _ (strlen_spec _ _ _ (line_string _ _ _ _ Hnew))).
  unfold set_line at 1. rewrite update_bind, !u16_small by lia. unfold shell_handle_history. rewrite say_bind.
  unfold go_to. rewrite nth_lookup, Et. cbn [default from_option id]. refine (eq_trans E2 _). by rewrite <- app_assoc.
Qed.

Lemma current_same m e : holds m e -> fields (with_past (ed_history e) (ed_current e) e) = fields e.
Proof using Type. done. Qed.

Lemma history_keys_ok m e :
  holds m e ->
  step_ok (up_key line cmd_history finsh_prompt) e (older prompt e) m /\
  step_ok (down_key line cmd_history finsh_prompt) e (newer prompt e) m.
Proof using Hlay.
  intros H. pose proof (hd_current _ _ H) as Hc. pose proof (hd_count _ _ H) as Hn. unfold up_key, down_key, older, newer. split.
  - unfold step_ok, shell_of. rewrite field_bind. cbn [fields fs_current_history]. destruct (Z.ltb_spec 0 (ed_current e)).
    + apply (recall_ok m e (ed_current e - 1) H). lia.
    + exists m. split; [|done]. unfold set_current, update, modify, with_history. assert (ed_current e = 0) as E by lia.
      unfold fields. cbn. by rewrite E.
  - unfold step_ok, shell_of. rewrite !field_bind. cbn [fields fs_current_history fs_history_count].
    destruct (Z.ltb_spec (ed_current e) (zlen (ed_history e) - 1)); [apply (recall_ok m e (ed_current e + 1) H); lia|].
    destruct (Z.eqb_spec (zlen (ed_history e)) 0); cbn [negb]; [by exists m|]. apply (recall_ok m e _ H). lia.
Qed.

(** The rows move one up. *)
Lemma shift_rows_spec n : forall m i h o (w : finsh_shell * V),
  cmem_ok m -> length h = n -> 0 <= i -> i + Z.of_nat n < 5 -> mapped m cmd_history 400 -> rows m (i + 1) h ->
  exists m', shift_rows cmd_history n i (ShellState m o w) = Some (tt, ShellState m' o w) /\ rows m' i h /\
    changed (row cmd_history i) (80 * Z.of_nat n) m m'.
Proof using Type.
  induction n as [|n IH]; intros m i [|t h] o w Hok Hl Hi Hn Hm Hr; try done.
  - exists m. split_and!; [done| |done]. intros j x Ex. done.
  - injection Hl as Hl. pose proof (Hr 0%nat t eq_refl) as Ht. replace (i + 1 + Z.of_nat 0) with (i + 1) in Ht by lia.
    pose proof (lh_length _ _ _ _ Ht) as Hlt. pose proof (zlen_nonneg t). unfold FINSH_CMD_SIZE in *.
    set (l := t ++ replicate (Z.to_nat (80 - zlen t)) 0).
    assert (zlen l = 80) as Hl80 by (unfold l; rewrite zlen_app, zlen_replicate by lia; lia).
    assert (rt_memcpy (row cmd_history i) (row cmd_history (i + 1)) 80 m =
      Some (row cmd_history i, write_bytes (row cmd_history i) l m)) as E.
    { rewrite <- Hl80 at 1. apply memcpy_spec; [done|apply Ht| |].
      - intros b Hb. apply Hm. unfold row, FINSH_CMD_SIZE in *. lia.
      - left. unfold row, FINSH_CMD_SIZE. lia. }
    assert (changed (row cmd_history i) 80 m (write_bytes (row cmd_history i) l m)) as Hch.
    { rewrite <- Hl80. apply changed_write. apply (bytes_at_bytes m (row cmd_history (i + 1))); [done|apply Ht]. }
    destruct (IH (write_bytes (row cmd_history i) l m) (i + 1) h o w) as (m' & E2 & Hr2 & Hch2); try done.
    + by apply Hch.
    + lia.
    + lia.
    + by eapply mapped_changed.
    + intros j x Ex. pose proof (Hr (S j) x Ex) as Hx. replace (i + 1 + Z.of_nat (S j)) with (i + 1 + 1 + Z.of_nat j) in Hx by lia.
      apply (line_changed _ _ _ _ _ _ _ Hch); [|done]. unfold apart, row, FINSH_CMD_SIZE. lia.
    + exists m'. split_and!.
      * cbn [shift_rows]. unfold FINSH_CMD_SIZE. by rewrite (on_bytes_bind _ _ _ _ _ _ _ E).
      * intros [|j] x Ex; [injection Ex as <-|].
        -- rewrite Z.add_0_r. apply (line_changed _ _ _ _ _ _ _ Hch2); [unfold apart, row, FINSH_CMD_SIZE; lia|].
           constructor; [apply write_bytes_at|apply Ht|done].
        -- pose proof (Hr2 j x Ex) as Hx. by replace (i + Z.of_nat (S j)) with (i + 1 + Z.of_nat j) by lia.
      * apply (changed_trans _ _ _ (write_bytes (row cmd_history i) l m)).
        -- apply (changed_mono (row cmd_history i) 80); [lia|lia|done].
        -- apply (changed_mono (row cmd_history (i + 1)) (80 * Z.of_nat n)); [unfold row, FINSH_CMD_SIZE; lia..|done].
Qed.

Lemma store_row_spec m o f (v : V) i text :
  cmem_ok m -> mapped m cmd_history 400 -> 0 <= i < 5 -> line_holds m line 81 text -> zlen text < FINSH_CMD_SIZE ->
  fs_line_position f = zlen text ->
  exists m', store_row line cmd_history i (ShellState m o (f, v)) = Some (tt, ShellState m' o (f, v)) /\
    line_holds m' (row cmd_history i) FINSH_CMD_SIZE text /\ changed (row cmd_history i) 80 m m'.
Proof using Hlay.
  intros Hok Hm Hi Hl Hlen Ef. pose proof (zlen_nonneg text). unfold FINSH_CMD_SIZE in *.
  set (m1 := filled (row cmd_history i) 0 80 m).
  assert (changed (row cmd_history i) 80 m m1) as Hch1 by (apply changed_filled; lia).
  assert (bytes_at m line text) as Hb by (destruct Hl as [Hb _ _]; by apply bytes_at_app in Hb as [Hb _]).
  assert (bytes_at m1 line text) as Hb1.
  { apply (changed_bytes _ _ _ _ _ _ Hch1); [|done]. pose proof (lay_history Hlay). unfold apart, row, FINSH_CMD_SIZE in *. lia. }
  exists (write_bytes (row cmd_history i) text m1). split_and!.
  - unfold store_row. rewrite (on_bytes_bind _ _ _ _ _ (row cmd_history i) m1).
    + rewrite field_bind, Ef. rewrite (on_bytes_bind _ _ _ _ _ (row cmd_history i) (write_bytes (row cmd_history i) text m1)); [done|].
      apply memcpy_spec; [by apply Hch1|done| |].
      * intros b Hb'. apply Hch1, Hm. unfold row, FINSH_CMD_SIZE in *. lia.
      * pose proof (lay_history Hlay). unfold apart, row, FINSH_CMD_SIZE in *. lia.
    + unfold FINSH_CMD_SIZE. apply memset_spec; [lia|]. intros b Hb'. apply Hm. unfold row, FINSH_CMD_SIZE in *. lia.
  - apply (line_write m1 _ 80 []); [apply line_empty; lia|apply Hl|change (zlen []) with 0; lia].
  - apply (changed_trans _ _ _ _ _ Hch1), (changed_mono (row cmd_history i) (zlen text)); [lia|lia|].
    apply changed_write. by apply (bytes_at_bytes m line).
Qed.

Lemma compare_row m i t text :
  line_holds m (row cmd_history i) FINSH_CMD_SIZE t -> line_holds m line 81 text -> zlen text < FINSH_CMD_SIZE ->
  exists d, memcmp (row cmd_history i) line FINSH_CMD_SIZE m = Some (d, m) /\ (d = 0 <-> t = text).
Proof using Type.
  intros [Hb Ht Hn] [Hb2 Ht2 _] Hl. pose proof (zlen_nonneg t). pose proof (zlen_nonneg text). unfold FINSH_CMD_SIZE in *.
  set (l := t ++ replicate (Z.to_nat (80 - zlen t)) 0) in *.
  assert (bytes_at m line (text ++ replicate (Z.to_nat (80 - zlen text)) 0)) as Hb3.
  { replace (Z.to_nat (81 - zlen text)) with (Z.to_nat (80 - zlen text) + 1)%nat in Hb2 by lia.
    rewrite replicate_add, app_assoc in Hb2. by apply bytes_at_app in Hb2 as [Hb2 _]. }
  assert (zlen l = 80) as Hl80 by (unfold l; rewrite zlen_app, zlen_replicate by lia; lia).
  assert (length l = length (text ++ replicate (Z.to_nat (80 - zlen text)) 0)) as El.
  { unfold l. rewrite !length_app, !length_replicate. unfold zlen in *. lia. }
  eexists. split.
  - unfold memcmp. rewrite <- Hl80 at 1. by apply memcmp_spec.
  - rewrite first_difference_zero by done. by apply padded_eq.
Qed.

(** A row of its own for one more line. *)
Lemma append_row m o f (v : V) h text :
  cmem_ok m -> mapped m cmd_history 400 -> zlen h < 5 -> rows m 0 h -> line_holds m line 81 text ->
  zlen text < FINSH_CMD_SIZE -> fs_line_position f = zlen text ->
  exists m', store_row line cmd_history (zlen h) (ShellState m o (f, v)) = Some (tt, ShellState m' o (f, v)) /\
    rows m' 0 (h ++ [text]) /\ changed cmd_history 400 m m'.
Proof using Hlay.
  intros Hok Hm Hh Hr Hl Hlen Ef. pose proof (zlen_nonneg h).
  destruct (store_row_spec m o f v (zlen h) text Hok Hm ltac:(lia) Hl Hlen Ef) as (m' & E & Hrow & Hch).
  exists m'. split_and!; [done| |].
  - intros j t Et. apply lookup_app_Some in Et as [Et|[Hj Et]].
    + apply (line_changed _ _ _ _ _ _ _ Hch); [|by apply Hr]. apply lookup_lt_Some in Et.
      unfold apart, row, FINSH_CMD_SIZE, zlen in *. lia.
    + destruct (j - length h)%nat as [|k] eqn:Ek; [|done]. injection Et as <-.
      replace (0 + Z.of_nat j) with (zlen h) by (unfold zlen; lia). done.
  - apply (changed_mono (row cmd_history (zlen h)) 80); [unfold row, FINSH_CMD_SIZE in *; lia..|done].
Qed.

Lemma history_last m e t :
  holds m e -> last (ed_history e) = Some t -> line_holds m (row cmd_history (zlen (ed_history e) - 1)) FINSH_CMD_SIZE t.
Proof using Type.
  intros H Et. rewrite last_lookup in Et. pose proof (hd_rows _ _ H _ _ Et) as Hr. apply lookup_lt_Some in Et.
  replace (0 + Z.of_nat (pred (length (ed_history e)))) with (zlen (ed_history e) - 1) in Hr by (unfold zlen; lia). done.
Qed.

(** The line joins the history. *)
Definition remembered (m m' : cmem) (e : editor V) : Prop :=
  let h := remember (ed_text e) (ed_history e) in
  rows m' 0 h /\ changed cmd_history 400 m m' /\ zlen h <= FINSH_HISTORY_LINES.

Lemma push_full m e o (v : V) :
  holds m e -> ed_text e <> [] -> zlen (ed_history e) = 5 -> last (ed_history e) <> Some (ed_text e) ->
  exists m', (shift_rows cmd_history 4 0;; store_row line cmd_history 4) (ShellState m o (fields e, v)) =
      Some (tt, ShellState m' o (fields e, v)) /\ remembered m m' e /\ zlen (remember (ed_text e) (ed_history e)) = 5.
Proof using Hlay.
  intros H Ht Hc Hlast. unfold remembered, remember. rewrite decide_False by (by intros [?|?]). rewrite Hc.
  change (FINSH_HISTORY_LINES <=? 5) with true. cbv iota.
  destruct (ed_history e) as [|t h] eqn:Eh; [done|]. cbn [tail]. rewrite zlen_cons in Hc.
  destruct (shift_rows_spec 4 m 0 h o (fields e, v)) as (m1 & E1 & Hr1 & Hch1).
  - apply H.
  - unfold zlen in Hc. lia.
  - lia.
  - lia.
  - apply H.
  - intros j x Ex. pose proof (hd_rows _ _ H (S j) x) as Hx. rewrite Eh in Hx.
    replace (0 + Z.of_nat (S j)) with (0 + 1 + Z.of_nat j) in Hx by lia. by apply Hx.
  - assert (changed cmd_history 400 m m1) as Hch by (apply (changed_mono (row cmd_history 0) 320); [unfold row; lia..|done]).
    pose proof (lay_history Hlay) as Ha.
    destruct (append_row m1 o (fields e) v h (ed_text e)) as (m2 & E2 & Hr2 & Hch2); try done.
    + apply Hch, H.
    + eapply mapped_changed; [exact Hch|apply H].
    + lia.
    + apply (line_changed _ _ _ _ _ _ _ Hch); [unfold apart in *; lia|apply H].
    + apply H.
    + replace (zlen h) with 4 in E2 by lia. exists m2. rewrite zlen_app. change (zlen [ed_text e]) with 1.
      unfold FINSH_HISTORY_LINES.
      split_and!; [by rewrite (bind_ok _ _ _ _ _ E1)|done|by apply (changed_trans _ _ _ _ _ Hch)|lia|lia].
Qed.

Lemma last_differs m e o (w : finsh_shell * V) :
  holds m e ->
  exists b, (if zlen (ed_history e) =? 0 then mret true
             else d ← on_bytes (memcmp (row cmd_history (zlen (ed_history e) - 1)) line FINSH_CMD_SIZE); mret (negb (d =? 0)))
      (ShellState m o w) = Some (b, ShellState m o w) /\ (b = true <-> last (ed_history e) <> Some (ed_text e)).
Proof using Type.
  intros H. destruct (Z.eqb_spec (zlen (ed_history e)) 0) as [H0|H0].
  - exists true. split; [done|]. destruct (ed_history e); [done|]. rewrite zlen_cons in H0. pose proof (zlen_nonneg l0). lia.
  - destruct (last (ed_history e)) as [t|] eqn:El.
    + destruct (compare_row m _ t (ed_text e) (history_last m e t H El) (hd_line _ _ H) (hd_short _ _ H)) as (d & E & Hd).
      exists (negb (d =? 0)). rewrite (on_bytes_bind _ _ _ _ _ _ _ E). split; [done|].
      destruct (Z.eqb_spec d 0) as [Hz|Hz]; cbn [negb]; split; try done.
      * intros Hne. exfalso. apply Hne. f_equal. by apply Hd.
      * intros _ [= Heq]. by apply Hz, Hd.
    + apply last_None in El. by rewrite El in H0.
Qed.

Lemma push_new m e o (v : V) :
  holds m e -> ed_text e <> [] -> zlen (ed_history e) < 5 -> last (ed_history e) <> Some (ed_text e) ->
  let n := zlen (ed_history e) in
  exists m', (update (fun f => with_history n (fs_history_count f) f);;
              store_row line cmd_history n;;
              update (fun f => with_history (fs_current_history f) (u16 (n + 1)) f)) (ShellState m o (fields e, v)) =
      Some (tt, ShellState m' o (with_history n (n + 1) (fields e), v)) /\ remembered m m' e /\
    zlen (remember (ed_text e) (ed_history e)) = n + 1.
Proof using Hlay.
  intros H Ht Hc Hlast. cbv zeta. unfold remembered, remember. rewrite decide_False by (by intros [?|?]).
  pose proof (zlen_nonneg (ed_history e)). unfold FINSH_HISTORY_LINES. rewrite (proj2 (Z.leb_gt 5 _)) by lia.
  destruct (append_row m o (with_history (zlen (ed_history e)) (zlen (ed_history e)) (fields e)) v (ed_history e) (ed_text e))
    as (m' & E & Hr & Hch); try (apply H); try done.
  exists m'. rewrite update_bind, (bind_ok _ _ _ _ _ E). rewrite zlen_app. change (zlen [ed_text e]) with 1.
  split_and!; [|done|done|lia|done]. unfold update, modify. by rewrite u16_small by lia.
Qed.

Lemma push_history_spec m e o (v : V) :
  holds m e ->
  let n := zlen (remember (ed_text e) (ed_history e)) in
  exists m', shell_push_history line cmd_history (ShellState m o (fields e, v)) =
      Some (tt, ShellState m' o (with_history n n (fields e), v)) /\ remembered m m' e.
Proof using Hlay.
  intros H. cbv zeta. pose proof (hd_count _ _ H) as Hn. unfold FINSH_HISTORY_LINES in Hn.
  unfold shell_push_history. rewrite !field_bind. cbn [fields fs_line_position fs_history_count].
  (* if nothing is pushed *)
  assert (ed_text e = [] \/ last (ed_history e) = Some (ed_text e) ->
    remember (ed_text e) (ed_history e) = ed_history e /\ remembered m m e) as Hsame.
  { intros Hd. unfold remembered, remember. rewrite decide_True by done. split_and!; [done|apply H|done|done]. }
  destruct (Z.eqb_spec (zlen (ed_text e)) 0) as [H0|H0]; cbn [negb when].
  { assert (ed_text e = []) as Ht by (destruct (ed_text e); [done|]; rewrite zlen_cons in H0; pose proof (zlen_nonneg l); lia).
    exists m. destruct (Hsame ltac:(auto)) as [-> Hr]. by split. }
  assert (ed_text e <> []) as Ht by (by intros E; rewrite E in H0).
  destruct (last_differs m e o (fields e, v) H) as (b & Eb & Hb).
  destruct (Z.leb_spec FINSH_HISTORY_LINES (zlen (ed_history e))) as [Hle|Hlt]; unfold FINSH_HISTORY_LINES in *.
  - assert (zlen (ed_history e) = 5) as H5 by lia. rewrite H5 in Eb. change (5 =? 0) with false in Eb. cbv iota in Eb.
    apply bind_Some in Eb as (d & s1 & Ed & Er). injection Er as <- ->. change (5 - 1) with 4 in *.
    rewrite bind_unfold, (bind_ok _ _ _ _ _ Ed). destruct (negb (d =? 0)); cbn [when].
    + destruct (push_full m e o v H Ht H5) as (m' & E & Hr & Hl); [by apply Hb|]. exists m'. rewrite Hl. split; [|done].
      apply bind_Some in E as (u1 & s2 & E1 & E2). rewrite (bind_ok _ _ _ _ _ E1), (bind_ok _ _ _ _ _ E2). done.
    + exists m. destruct Hsame as [-> Hr]; [|by split]. right. destruct (decide (last (ed_history e) = Some (ed_text e))); [done|].
      by apply Hb in n.
  - rewrite bind_unfold, (bind_ok _ _ _ _ _ Eb). destruct b; cbn [when].
    + destruct (push_new m e o v H Ht Hlt) as (m' & E & Hr & Hl); [by apply Hb|]. exists m'. rewrite Hl, E. by split.
    + exists m. destruct Hsame as [-> Hr]; [|by split]. right. destruct (decide (last (ed_history e) = Some (ed_text e))); [done|].
      by apply Hb in n.
Qed.

(** ** Commands *)

Lemma find_acts tok t a n :
  Forall2 acts t a ->
  match find_command tok t n, find_action tok a n with
  | Some f, Some act => performs f act
  | None, None => True
  | _, _ => False
  end.
Proof using Type.
  intros H. revert n. induction H as [|e act t a He H IH]; intros [|s n]; cbn [find_command find_action]; try done.
  destruct (decide (s = tok)); [|apply IH]. unfold acts in He. by destruct (sc_func e), act.
Qed.

Lemma to_space_length l : zlen (to_space l) <= zlen l.
Proof using Type.
  destruct (to_space_app l) as [E|[r E]]; [by rewrite <- E|]. rewrite E at 2. rewrite zlen_app.
  pose proof (zlen_nonneg (char " " :: r)). lia.
Qed.

Lemma run_line_spec m e o (v : V) t v' :
  holds m e -> run_line names actions (ed_text e) v = Some (t, v') ->
  exists r m', msh_exec table line (zlen (ed_text e)) (ShellState m o (fields e, v)) =
      Some (r, ShellState m' (o ++ t) (fields e, v')) /\ changed line 81 m m'.
Proof using Hlay.
  intros H. pose proof (hd_env _ _ H) as [_ Hn _ _ _]. pose proof (hd_short _ _ H) as Hlen. unfold FINSH_CMD_SIZE in Hlen.
  pose proof (msh_exec_spec table names m o (fields e, v) line (ed_text e) Hn (line_string _ _ _ _ (hd_line _ _ H))
    (lay_line Hlay) ltac:(lia)) as Hx.
  unfold run_line. cbv zeta in *. pose proof (drop_blanks_le (ed_text e)) as Hk. unfold leading in *.
  destruct (drop_blanks (ed_text e)) as [|c l] eqn:El.
  { intros [= <- <-]. exists 0, m. by rewrite app_nil_r. }
  pose proof (find_acts (plain (c :: l)).1 table actions names (lay_actions Hlay)) as Ha.
  destruct (find_command _ table names) as [f|], (find_action _ actions names) as [act|]; try done.
  - destruct Hx as (m1 & ps & Hps & Hch & E). intros Er. destruct (act (words 10 (ed_text e)).1 v) as [[t1 v1]|] eqn:Eact; [|done].
    cbn in Er. injection Er as <- <-.
    destruct (Ha m1 ps _ (o ++ split_text (words 10 (ed_text e)).1 (words 10 (ed_text e)).2) (fields e) v t1 v1 Hps Eact) as (r & m2 & E2 & Hch2).
    exists r, m2. rewrite E, E2, app_assoc. split; [done|]. apply (changed_trans _ _ _ m1); [|done].
    apply (changed_mono (line + (zlen (ed_text e) - zlen (c :: l))) (zlen (c :: l))); [lia|lia|done].
  - intros [= <- <-]. rewrite Hx. do 2 eexists. split; [done|]. pose proof (to_space_length (c :: l)). pose proof (zlen_nonneg (to_space (c :: l))).
    apply (changed_mono (line + (zlen (ed_text e) - zlen (c :: l)) + zlen (to_space (c :: l))) 1); [lia|lia|]. apply changed_store. lia.
Qed.

(** The history has changed. *)
Lemma holds_remembered m m' e :
  holds m e -> remembered m m' e ->
  let h := remember (ed_text e) (ed_history e) in holds m' (with_past h (zlen h) e).
Proof using Hlay.
  intros [H1 H2 H3 H4 H5 H6 H7 H8] (Hr & Hc & Hn). pose proof (lay_history Hlay). pose proof (lay_both Hlay).
  constructor; try done.
  - apply (environment_changed m m' cmd_history 400); [done|right; left; lia|done].
  - apply (line_changed m m' cmd_history 400); [done|unfold apart in *; lia|done].
  - cbn. by eapply mapped_changed.
  - cbn. pose proof (zlen_nonneg (remember (ed_text e) (ed_history e))). lia.
Qed.

Lemma enter_key_ok m e e' :
  holds m e -> enter names actions prompt echo e = Some e' ->
  step_ok (enter_key table line cmd_history finsh_prompt) e e' m.
Proof using Hlay.
  intros H. unfold enter. destruct (run_line names actions (ed_text e) (ed_world e)) as [[t v]|] eqn:Er; [|done].
  intros E. cbn in E. injection E as <-. unfold step_ok, shell_of.
  destruct (push_history_spec m e (ed_screen e) (ed_world e) H) as (m1 & E1 & Hr).
  pose proof (holds_remembered m m1 e H Hr) as H1. cbv zeta in H1. set (h := remember (ed_text e) (ed_history e)) in *.
  set (e1 := with_past h (zlen h) e) in *. set (o1 := ed_screen e ++ if echo then [10] else []).
  destruct (run_line_spec m1 e1 o1 (ed_world e) t v H1 Er) as (r & m2 & E2 & Hch2).
  assert (environment m2) as He2 by (apply (environment_changed m1 m2 line 81); [done|left; lia|apply H1]).
  destruct (print_prompt_spec m2 (o1 ++ t) (fields e1) v He2 eq_refl eq_refl) as (m3 & E3 & Hch3).
  assert (mapped m3 line 81) as Hm3.
  { eapply mapped_changed; [exact Hch3|]. eapply mapped_changed; [exact Hch2|]. eapply line_mapped. apply H1. }
  exists (filled line 0 81 m3). split.
  - unfold enter_key. rewrite (bind_ok _ _ _ _ _ E1), field_bind.
    rewrite (bind_ok _ _ _ tt (ShellState m1 o1 (fields e1, ed_world e))).
    + rewrite field_bind. change (fs_line_position (fields e1)) with (zlen (ed_text e1)).
      rewrite (bind_ok _ _ _ _ _ E2), (bind_ok _ _ _ _ _ E3).
      rewrite (on_bytes_bind _ _ _ _ _ _ _ (memset_spec line 0 (FINSH_CMD_SIZE + 1) m3 ltac:(unfold FINSH_CMD_SIZE; lia) Hm3)).
      unfold o1. by rewrite <- !app_assoc.
    + unfold o1. cbn [with_history fields fs_echo_mode]. destruct echo; cbn [Z.b2z Z.eqb negb when]; [done|by rewrite app_nil_r].
  - assert (changed line 81 m3 (filled line 0 81 m3)) as Hch4 by (apply changed_filled; lia).
    pose proof (lay_history Hlay). pose proof (lay_both Hlay). destruct H1 as [_ _ _ _ H5 H6 H7 H8].
    assert (forall a n x x', changed a n x x' -> apart a n cmd_history 400 -> rows x 0 h -> rows x' 0 h) as Hrows.
    { intros. eapply rows_changed; done. }
    constructor; try done.
    + apply (environment_changed m3 _ line 81); [done|left; lia|].
      apply (environment_changed m2 _ finsh_prompt 129); [done|right; right; lia|done].
    + apply line_empty. lia.
    + cbn. eapply Hrows; [exact Hch4|done|]. eapply Hrows; [exact Hch3|unfold apart in *; lia|]. eapply Hrows; [exact Hch2|done|done].
    + cbn. eapply mapped_changed; [exact Hch4|]. eapply mapped_changed; [exact Hch3|]. by eapply mapped_changed.
Qed.

(** ** Keys *)

Lemma plain_key_ok m e ch e' :
  holds m e -> 0 <= ch < 256 -> editor_char names descs actions prompt echo ch e = Some e' ->
  step_ok (plain_key table line cmd_history finsh_prompt ch) e e' m.
Proof using Hlay.
  intros H Hch. unfold editor_char, plain_key. destruct ((ch =? 0) || (ch =? 255)) eqn:E0.
  { intros [= <-]. by exists m. }
  destruct (ch =? 9); [intros [= <-]; by apply tab_key_ok|].
  destruct ((ch =? 127) || (ch =? 8)); [intros [= <-]; by apply backspace_key_ok|].
  destruct ((ch =? 13) || (ch =? 10)); [by apply enter_key_ok|].
  apply insert_key_ok; [done|]. rewrite orb_false_iff in E0. lia.
Qed.

Lemma holds_key m e k : holds m e -> holds m (with_key k e).
Proof using Type. intros []. by constructor. Qed.

Lemma finsh_key_ok m e ch e' :
  holds m e -> 0 <= ch < 256 -> editor_key names descs actions prompt echo ch e = Some e' ->
  step_ok (finsh_key table line cmd_history finsh_prompt ch) e e' m.
Proof using Hlay.
  intros H Hch. unfold editor_key, finsh_key, step_ok, shell_of. rewrite field_bind. cbn [fields fs_stat].
  destruct (ch =? 27). { intros [= <-]. exists m. split; [done|by apply holds_key]. }
  pose proof (holds_key m e WAIT_NORMAL H) as Hn. pose proof (history_keys_ok m _ Hn) as [Hup Hdown].
  pose proof (cursor_keys_ok m _ Hn) as [Hleft Hright]. destruct (ed_key e).
  - by apply plain_key_ok.
  - destruct (ch =? 91); [intros [= <-]; exists m; split; [done|by apply holds_key]|].
    intros E. rewrite update_bind. by apply (plain_key_ok m (with_key WAIT_NORMAL e)).
  - cbv zeta. rewrite update_bind. destruct (ch =? 65); [intros [= <-]; apply Hup|].
    destruct (ch =? 66); [intros [= <-]; apply Hdown|]. destruct (ch =? 68); [intros [= <-]; apply Hleft|].
    destruct (ch =? 67); [intros [= <-]; apply Hright|]. by apply (plain_key_ok m (with_key WAIT_NORMAL e)).
Qed.

(** C25: The shell is a line editor: for every sequence of characters, of which
    some belong to function keys, what [finsh_thread_entry] does to its buffers is
    what the editor does to its line, cursor and history, with the same text on
    the screen, the same commands run with the same words, in the same worlds.
    The line is at all times the text with zeros behind it; typing inserts at the
    cursor, the arrow keys move in the line and in the history, a line joins the
    history unless it is empty or the last one there, and the oldest of five makes
    room; Tab completes. This holds as long as no line reaches 80 characters and
    the commands keep to their contract. No access is out of bounds. *)
Theorem finsh_refines_editor m e chs e' :
  holds m e -> Forall (fun c => 0 <= c < 256) chs ->
  editor_keys names descs actions prompt echo chs e = Some e' ->
  exists m', finsh_keys table line cmd_history finsh_prompt chs (shell_of e m) = Some (tt, shell_of e' m') /\ holds m' e'.
Proof using Hlay.
  intros H Hchs. revert m e H. induction Hchs as [|c chs Hc Hchs IH]; intros m e H; cbn [editor_keys].
  { intros [= <-]. by exists m. }
  destruct (editor_key _ _ _ _ _ c e) as [e1|] eqn:E1; [|done]. intros E. cbn in E.
  destruct (finsh_key_ok m e c e1 H Hc E1) as (m1 & Ek & H1). destruct (IH m1 e1 H1 E) as (m2 & E2 & H2).
  exists m2. split; [|done]. cbn [finsh_keys]. by rewrite (bind_ok _ _ _ _ _ Ek).
Qed.
End shell.

(** ** A small system *)

Definition zeros (n : Z) : list Z := replicate (Z.to_nat n) 0.
Definition finsh_memory : cmem :=
  foldr (fun '(a, l) m => write_bytes a l m) ∅
    [(100, zeros 81); (300, zeros 400); (800, zeros 129);
     (1000, chars "list_thread" ++ [0]); (1100, chars "echo" ++ [0]);
     (2000, chars "threads" ++ [0]); (2100, chars "print" ++ [0])].

(** A command that notes the number of its arguments. *)
Definition count_command (argc : Z) (argv : list Z) : St (shell_state (finsh_shell * Z)) Z :=
  modify (fun s => ShellState (sh_memory s) (sh_out s) ((sh_world s).1, argc));; mret 0.
Definition count_action : action Z := fun ws v => Some ([], zlen ws).
Definition finsh_table : list (finsh_syscall (finsh_shell * Z)) :=
  [Syscall 1000 2000 (Some count_command); Syscall 1100 2100 (Some count_command)].
Definition finsh_names : list (list Z) := [chars "list_thread"; chars "echo"].
Definition finsh_descs : list (list Z) := [chars "threads"; chars "print"].
Definition finsh_actions : list (option (action Z)) := [Some count_action; Some count_action].
Definition finsh_start : editor Z := Editor WAIT_NORMAL [] 0 [] 0 [] 0.

Local Abbreviation demo_layout := (layout finsh_table finsh_names finsh_descs finsh_actions 100 300 800 (chars "msh >")).
Local Abbreviation demo_holds := (holds finsh_table finsh_names finsh_descs 100 300 800 (chars "msh >") 1 0).

Lemma count_performs line : performs line count_command count_action.
Proof.
  intros m ps ws o fs v t v' Hps [= <- <-]. exists 0, m. split; [|done]. apply Forall2_length in Hps.
  unfold zlen. rewrite Hps. by rewrite app_nil_r.
Qed.

Lemma finsh_layout : demo_layout.
Proof.
  constructor; try (unfold apart; lia); try done.
  - repeat (apply Forall2_cons_2; [split; [unfold foreign, apart; vm_compute; split_and!; left; discriminate|vm_compute; reflexivity]|]).
    constructor.
  - repeat (apply Forall2_cons_2; [unfold foreign, apart; vm_compute; split_and!; left; discriminate|]). constructor.
  - repeat (apply Forall2_cons_2; [apply count_performs|]). constructor.
Qed.

Lemma mapped_check m a n : bytes_atb m a (zeros n) = true -> 0 <= n -> mapped m a n.
Proof.
  intros H Hn. apply bytes_atb_sound, bytes_at_mapped in H. unfold zeros in H. by rewrite zlen_replicate in H.
Qed.

Lemma entry_check m (e : finsh_syscall (finsh_shell * Z)) s :
  cstringb m (sc_name e) s && negb (sc_name e =? 0) && (zlen s <? 2 ^ 31) = true -> named m e s.
Proof.
  rewrite !andb_true_iff, negb_true_iff. intros [[H1 H2] H3]. constructor; [by apply cstringb_sound|lia|lia].
Qed.

Lemma finsh_start_holds : demo_holds finsh_memory finsh_start.
Proof.
  constructor; [| |done|cbn; unfold zlen; cbn; lia|intros j t E; done| |done|cbn; unfold zlen; cbn; lia].
  - constructor.
    + apply cmem_okb_sound. vm_compute. reflexivity.
    + apply (forallb2_sound _ _ _ _ (entry_check finsh_memory)). vm_compute. reflexivity.
    + apply (forallb2_sound _ _ _ _ (fun e s => cstringb_sound _ (sc_desc e) s)). vm_compute. reflexivity.
    + done.
    + apply mapped_check; [vm_compute; reflexivity|done].
  - constructor; [apply bytes_atb_sound; vm_compute; reflexivity|constructor|done].
  - apply mapped_check; [vm_compute; reflexivity|done].
Qed.

(** "eo", to the left, "ch" in between, "a" at the end, then Enter, an unknown
    command, and back in the history. *)
Definition demo_keys : list Z :=
  chars "eo" ++ [27; 0x5b; 0x44] ++ chars "ch" ++ [27; 0x5b; 0x43] ++ chars " a" ++ [13] ++ chars "x" ++ [13] ++
  [27; 0x5b; 0x41; 27; 0x5b; 0x41; 8].

Lemma finsh_refines_editor_witness : exists e m',
  finsh_keys finsh_table 100 300 800 demo_keys (shell_of true 1 0 finsh_start finsh_memory) =
    Some (tt, shell_of true 1 0 e m') /\
  demo_holds m' e /\ ed_text e = chars "echo " /\ ed_history e = [chars "echo a"; chars "x"] /\ ed_world e = 2.
Proof.
  assert (exists e, editor_keys finsh_names finsh_descs finsh_actions (chars "msh >") true demo_keys finsh_start = Some e /\
    ed_text e = chars "echo " /\ ed_history e = [chars "echo a"; chars "x"] /\ ed_world e = 2) as (e & E & Ht & Hh & Hw).
  { eexists. split; [vm_compute; reflexivity|]. split_and!; reflexivity. }
  destruct (finsh_refines_editor finsh_table finsh_names finsh_descs finsh_actions 100 300 800 (chars "msh >") true 1 0
    finsh_layout finsh_memory finsh_start demo_keys e finsh_start_holds) as (m' & Er & Hm).
  - apply Forall_forall. intros c Hc. assert (forallb (fun c => (0 <=? c) && (c <? 256)) demo_keys = true) as Hb by (vm_compute; reflexivity).
    rewrite forallb_forall in Hb. apply list_elem_of_In in Hc. specialize (Hb c Hc). lia.
  - exact E.
  - exists e, m'. split_and!; done.
Defined.

(** ** Where the line is full *)

(** With 80 characters the line is not empty, but its length is taken to be 0
    (Enter would not run it). Tab sets length and cursor to 80; the next character
    sets the length to 1 and leaves the cursor at 81. The second backspace then
    makes the length 65535 and moves that many bytes, from behind the buffer. *)
Definition full_keys : list Z := repeat (char "a") 80 ++ [9] ++ chars "b" ++ [8].
Definition positions (o : option (unit * shell_state (finsh_shell * Z))) : option (Z * Z) :=
  match o with Some (_, s) => Some (fs_line_position (sh_world s).1, fs_line_curpos (sh_world s).1) | None => None end.

Example full_line_overruns :
  let run keys := finsh_keys finsh_table 100 300 800 keys (shell_of true 1 0 finsh_start finsh_memory) in
  positions (run (repeat (char "a") 80)) = Some (0, 0) /\
  positions (run (repeat (char "a") 80 ++ [9] ++ chars "b")) = Some (1, 81) /\
  positions (run full_keys) = Some (0, 80) /\ positions (run (full_keys ++ [8])) = None.
Proof. vm_compute. repeat split. Qed.

(** A prompt of 128 characters does not leave room for the bracket and its
    zero. *)
Definition with_long_prompt (n : nat) : shell_state (finsh_shell * Z) :=
  ShellState (write_bytes 3000 (repeat (char "p") n ++ [0]) finsh_memory) []
    (FinshShell WAIT_NORMAL 1 1 0 0 0 0 3000, 0).
Example long_prompt_overruns :
  finsh_get_prompt 800 (with_long_prompt 128) = None /\
  match finsh_get_prompt 800 (with_long_prompt 127) with Some (p, _) => p = 800 | None => False end.
Proof. vm_compute. split; reflexivity. Qed.
