(* ===== verification/FinshScreen.v ===== *)
(** * What the user sees

    A terminal that prints characters, goes back by a backspace, and knows
    carriage return, line feed and the sequence that erases a line. What the shell
    sends to it makes it show the prompt and the line, with the cursor in its
    place. *)
From Stdlib Require Import String Ascii.
From S2P Require Import Prelude Kservice Cmem Kmemory Kstring Line Printf PrintfNumber Console Msh MshSpec MshCorrect Finsh FinshSpec FinshCorrect.
Open Scope Z_scope.

(** ** The terminal *)

(** The line the cursor is in, before and behind the cursor, and the part of an
    escape sequence that has been received. The line is as long as it needs. *)
Record terminal := Terminal { tm_left : list Z; tm_right : list Z; tm_escape : list Z }.

Definition erase : list Z := [27] ++ chars "[2K".

Definition put (t : terminal) (c : Z) : terminal :=
  let '(Terminal l r esc) := t in
  match esc with
  | _ :: _ =>
      let esc := esc ++ [c] in
      if decide (esc = erase) then Terminal (replicate (length l) (char " ")) [] []
      else if decide (esc `prefix_of` erase) then Terminal l r esc else Terminal l r []
  | [] =>
      if c =? 27 then Terminal l r [27]
      else if c =? 10 then Terminal [] [] []
      else if c =? 13 then Terminal [] (l ++ r) []
      else if c =? 8 then
        match last l with
        | Some x => Terminal (removelast l) (x :: r) []
        | None => t
        end
      else if (32 <=? c) && (c <? 127) then Terminal (l ++ [c]) (tail r) []
      else t
  end.
Definition display (t : terminal) (s : list Z) : terminal := foldl put t s.

Definition printable_char (c : Z) : Prop := 32 <= c < 127.
Local Abbreviation printables := (Forall printable_char).
Definition fresh : terminal := Terminal [] [] [].

Lemma display_app t a b : display t (a ++ b) = display (display t a) b.
Proof. apply foldl_app. Qed.

Lemma display_chars s : printables s -> forall l r, display (Terminal l r []) s = Terminal (l ++ s) (drop (length s) r) [].
Proof.
  intros H. unfold display. induction H as [|c s Hc H IH]; intros l r; [by rewrite app_nil_r|].
  cbn [foldl put]. unfold printable_char in Hc.
  rewrite (proj2 (Z.eqb_neq c 27)), (proj2 (Z.eqb_neq c 10)), (proj2 (Z.eqb_neq c 13)), (proj2 (Z.eqb_neq c 8)) by lia.
  rewrite (proj2 (Z.leb_le 32 c)), (proj2 (Z.ltb_lt c 127)) by lia. cbn [andb].
  rewrite IH, <- app_assoc. cbn [length app]. destruct r; cbn [tail drop]; by rewrite ?drop_nil.
Qed.

Lemma display_backs b : forall n a r, zlen b = n -> display (Terminal (a ++ b) r []) (backs n) = Terminal a (b ++ r) [].
Proof.
  induction b as [|x b IH] using rev_ind; intros n a r <-.
  { by rewrite app_nil_r. }
  rewrite zlen_app. change (zlen [x]) with 1. pose proof (zlen_nonneg b). unfold backs.
  rewrite Z2Nat.inj_add, Nat.add_comm by lia. change (Z.to_nat 1) with 1%nat. cbn [Nat.add replicate].
  unfold display. cbn [foldl put]. change (8 =? 27) with false. change (8 =? 10) with false. change (8 =? 13) with false.
  change (8 =? 8) with true. cbv iota. rewrite app_assoc, last_snoc, removelast_last.
  rewrite <- (app_assoc b). cbn [app]. by apply IH.
Qed.

(** Output that ends at the start of a line, or is empty. *)
Definition harmless (s : list Z) : Prop := Forall (fun c => c <> 27) s.
Definition whole_lines (s : list Z) : Prop := s = [] \/ exists z, s = z ++ [10] /\ harmless z.

Lemma display_harmless s : harmless s -> forall l r, exists l' r', display (Terminal l r []) s = Terminal l' r' [].
Proof.
  intros H. unfold display. induction H as [|c s Hc H IH]; intros l r; [by do 2 eexists|]. cbn [foldl put].
  rewrite (proj2 (Z.eqb_neq c 27) Hc). destruct (c =? 10), (c =? 13), (c =? 8), (last l), ((32 <=? c) && (c <? 127)); apply IH.
Qed.

Lemma display_line z l r : harmless z -> display (Terminal l r []) (z ++ [10]) = fresh.
Proof. intros H. rewrite display_app. by destruct (display_harmless z H l r) as (l' & r' & ->). Qed.

Lemma display_lines s : whole_lines s -> display fresh s = fresh.
Proof. intros [->|(z & -> & H)]; [done|]. by apply display_line. Qed.

Lemma harmless_app a b : harmless (a ++ b) <-> harmless a /\ harmless b.
Proof. apply Forall_app. Qed.

Lemma printable_harmless s : printables s -> harmless s.
Proof. intros H. eapply Forall_impl; [exact H|]. unfold printable_char. cbn. lia. Qed.

Lemma backs_harmless n : harmless (backs n).
Proof. by apply Forall_replicate. Qed.

Lemma lines_harmless s : whole_lines s -> harmless s.
Proof. intros [->|(z & -> & H)]; [constructor|]. apply harmless_app. split; [done|]. by repeat constructor. Qed.

Lemma lines_app a b : harmless a -> whole_lines b -> b <> [] -> whole_lines (a ++ b).
Proof.
  intros Ha [->|(z & -> & Hz)] Hb; [done|]. right. exists (a ++ z). rewrite app_assoc. split; [done|]. by apply harmless_app.
Qed.

Lemma lines_cat a b : whole_lines a -> whole_lines b -> whole_lines (a ++ b).
Proof.
  intros Ha Hb. destruct (decide (b = [])) as [->|]; [by rewrite app_nil_r|]. apply lines_app; [by apply lines_harmless|done|done].
Qed.

Lemma console_text_small s : zlen s <= 126 -> console_text s = s.
Proof. intros H. unfold console_text. by rewrite (proj2 (Z.leb_le _ _) H). Qed.

Lemma console_line s : harmless s -> zlen s < 126 -> whole_lines (console_text (s ++ [10])).
Proof.
  intros Hs Hl. rewrite console_text_small; [|rewrite zlen_app; change (zlen [10]) with 1; lia]. right. by exists s.
Qed.

Lemma console_harmless s : harmless s -> harmless (console_text s).
Proof.
  intros H. unfold console_text. destruct (_ <=? _); [done|]. apply harmless_app. split; [by apply Forall_take|]. by repeat constructor.
Qed.

(** ** The editor's screen *)

Section screen.
Context {V : Type}.
Context (names descs : list (list Z)) (actions : list (option (action V))) (prompt : list Z).
Implicit Types (e : editor V).

(** The names, descriptions and the prompt are plain text that fits into the
    console's buffer with what is printed beside it, and so is the output of the
    commands, in whole lines. *)
Record presentable : Prop := Presentable {
  pr_names : Forall (fun s => printables s /\ zlen s < 40) names;
  pr_descs : Forall (fun s => printables s /\ zlen s < 60) descs;
  pr_prompt : printables prompt /\ zlen prompt <= 40;
  pr_actions : forall act, Some act ∈ actions -> forall ws v t v', act ws v = Some (t, v') -> whole_lines t
}.
Context (Hpr : presentable).

Definition spaced (k : nat) : list Z := replicate k (char " ").

(** The terminal that has received all output shows the prompt and the line, and
    has its cursor where the editor has it. *)
Definition shows (e : editor V) : Prop :=
  exists k, display fresh (ed_screen e) =
    Terminal (prompt ++ ztake (ed_cursor e) (ed_text e)) (zdrop (ed_cursor e) (ed_text e) ++ spaced k) [].

Record plain_editor (e : editor V) : Prop := PlainEditor {
  pe_shows : shows e;
  pe_text : printables (ed_text e);
  pe_length : zlen (ed_text e) < FINSH_CMD_SIZE;
  pe_cursor : 0 <= ed_cursor e <= zlen (ed_text e);
  pe_history : Forall (fun t => printables t /\ zlen t < FINSH_CMD_SIZE) (ed_history e)
}.

Lemma drop_spaced n k : drop n (spaced k) = spaced (k - n).
Proof. apply drop_replicate. Qed.

Lemma drop_past a n k : length a = n -> drop n (a ++ spaced k) = spaced k.
Proof. intros <-. by rewrite drop_app_length. Qed.

(** What is written over spaces. *)
Lemma display_over s l a k :
  printables s -> exists k', display (Terminal l (a ++ spaced k) []) s = Terminal (l ++ s) (drop (length s) a ++ spaced k') [].
Proof.
  intros H. rewrite display_chars by done. rewrite drop_app, drop_spaced. by eexists.
Qed.

(** Prompt and line after something that ends a line. *)
Lemma display_refresh t text : printables text -> zlen text < FINSH_CMD_SIZE -> display t (refresh prompt text) = display t (prompt ++ text).
Proof using Hpr.
  intros H Hl. unfold refresh. pose proof (pr_prompt Hpr) as [_ Hp]. unfold FINSH_CMD_SIZE in Hl.
  by rewrite console_text_small by (rewrite zlen_app; lia).
Qed.

Lemma printable_prompt text : printables text -> printables (prompt ++ text).
Proof using Hpr. intros H. apply Forall_app. split; [apply (pr_prompt Hpr)|done]. Qed.

Lemma zdrop_end {A} (l : list A) : zdrop (zlen l) l = [].
Proof. apply drop_ge. unfold zlen. lia. Qed.
Lemma ztake_end {A} (l : list A) : ztake (zlen l) l = l.
Proof. apply take_ge. unfold zlen. lia. Qed.

(** A line that is shown in full. *)
Lemma shows_line e e' shown text :
  plain_editor e -> ed_screen e' = ed_screen e ++ shown ++ refresh prompt text -> ed_text e' = text -> ed_cursor e' = zlen text ->
  ed_history e' = ed_history e -> printables text -> zlen text < FINSH_CMD_SIZE ->
  (forall l r, exists k, display (Terminal l r []) shown = Terminal [] (spaced k) []) -> plain_editor e'.
Proof using Hpr.
  intros [[k Hs] H2 H3 H4 H5] Es Et Ec Eh Ht Hl Hshown. pose proof (zlen_nonneg text).
  constructor; rewrite ?Et, ?Ec, ?Eh; try done.
  destruct (Hshown (prompt ++ ztake (ed_cursor e) (ed_text e)) (zdrop (ed_cursor e) (ed_text e) ++ spaced k)) as [k' E].
  unfold shows. rewrite Es, Et, Ec, !display_app, Hs, E, display_refresh, ztake_end, zdrop_end by done.
  rewrite display_chars by by apply printable_prompt. rewrite drop_spaced. by eexists.
Qed.

(** ** Typing *)

Lemma zdrop_printable n s : printables s -> printables (zdrop n s).
Proof. by apply Forall_drop. Qed.
Lemma ztake_printable n s : printables s -> printables (ztake n s).
Proof. by apply Forall_take. Qed.
Lemma text_split e : ed_text e = ztake (ed_cursor e) (ed_text e) ++ zdrop (ed_cursor e) (ed_text e).
Proof. symmetry. apply take_drop. Qed.

(** The text around the cursor. *)
Lemma at_cursor (a b : list Z) : ztake (zlen a) (a ++ b) = a /\ zdrop (zlen a) (a ++ b) = b.
Proof. unfold ztake, zdrop, zlen. rewrite Nat2Z.id. split; [apply take_app_length|apply drop_app_length]. Qed.

Lemma insert_shows e c e' :
  plain_editor e -> printable_char c -> insert_char true c e = Some e' -> plain_editor e'.
Proof.
  intros [[k Hs] H2 H3 H4 H5] Hc. unfold insert_char.
  destruct (Z.leb_spec FINSH_CMD_SIZE (zlen (ztake (ed_cursor e) (ed_text e) ++ c :: zdrop (ed_cursor e) (ed_text e)))) as [|Hlen];
    [done|]. intros [= <-].
  set (a := ztake (ed_cursor e) (ed_text e)) in *. set (b := zdrop (ed_cursor e) (ed_text e)) in *.
  assert (printables b) as Hb by by apply zdrop_printable. assert (printables a) as Ha by by apply ztake_printable.
  assert (zlen a = ed_cursor e) as Ea by by apply zlen_ztake.
  assert (printables (c :: b)) as Hcb by by constructor.
  constructor; try done; cbn.
  - unfold shows. cbn. replace (ed_cursor e + 1) with (zlen (a ++ [c])) by (rewrite zlen_app; change (zlen [c]) with 1; lia).
    replace (a ++ c :: b) with ((a ++ [c]) ++ b) by by rewrite <- app_assoc. destruct (at_cursor (a ++ [c]) b) as [-> ->].
    rewrite zlen_app, zlen_cons in Hlen. pose proof (zlen_nonneg a). unfold FINSH_CMD_SIZE in Hlen.
    rewrite console_text_small by (rewrite zlen_cons; lia). rewrite !display_app, Hs.
    destruct (display_over (c :: b) (prompt ++ a) b k Hcb) as [k' ->]. exists k'.
    rewrite (drop_ge b) by (cbn; lia). change (c :: b) with ([c] ++ b). rewrite (app_assoc _ [c]), display_backs by done.
    by rewrite <- app_assoc.
  - apply Forall_app. by split.
  - rewrite zlen_app, zlen_cons. pose proof (zlen_nonneg b). lia.
Qed.

Lemma delete_shows e : plain_editor e -> plain_editor (delete_char e).
Proof.
  intros Hp. pose proof Hp as [[k Hs] H2 H3 H4 H5]. unfold delete_char. destruct (Z.eqb_spec (ed_cursor e) 0) as [|H0]; [done|].
  set (b := zdrop (ed_cursor e) (ed_text e)) in *. assert (printables b) as Hb by by apply zdrop_printable.
  assert (exists a x, ztake (ed_cursor e) (ed_text e) = a ++ [x] /\ ztake (ed_cursor e - 1) (ed_text e) = a /\ zlen a = ed_cursor e - 1)
    as (a & x & Ea & Ea' & Hla).
  { exists (ztake (ed_cursor e - 1) (ed_text e)), (zget (ed_text e) (ed_cursor e - 1)). split_and!; [|done|apply zlen_ztake; lia].
    replace (ed_cursor e) with (ed_cursor e - 1 + 1) at 1 by lia. rewrite ztake_add by lia. f_equal.
    rewrite zdrop_cons by lia. done. }
  rewrite Ea in Hs. rewrite Ea'.
  assert (zlen b = zlen (ed_text e) - ed_cursor e) as Hlb by (apply zlen_zdrop; lia).
  constructor; try done; cbn [edit ed_screen ed_text ed_cursor ed_history].
  - unfold shows. cbn [edit ed_screen ed_text ed_cursor ed_history]. rewrite <- Hla. destruct (at_cursor a b) as [-> ->].
    assert (forall r, display (Terminal (prompt ++ a ++ [x]) r []) [8] = Terminal (prompt ++ a) (x :: r) []) as Hback.
    { intros r. rewrite app_assoc. apply (display_backs [x] 1). done. }
    destruct b as [|c b'] eqn:Eb.
    + rewrite !display_app, Hs, Hback. exists (S k).
      assert (display (Terminal (prompt ++ a) (x :: [] ++ spaced k) []) (chars " ") = Terminal ((prompt ++ a) ++ [char " "]) (spaced k) [])
        as -> by (rewrite display_chars by (by repeat constructor); done).
      by rewrite (display_backs [char " "] 1).
    + rewrite <- Eb in *. rewrite console_text_small.
      2: { rewrite !zlen_app. change (zlen [8]) with 1. change (zlen (chars "  ")) with 2. unfold FINSH_CMD_SIZE in *. lia. }
      rewrite !display_app, Hs, Hback.
      assert (printables (b ++ chars "  ")) as Hb2 by (apply Forall_app; split; [done|by repeat constructor]).
      rewrite <- (display_app _ b). destruct (display_over (b ++ chars "  ") (prompt ++ a) (x :: b) k Hb2) as [k' E'].
      cbn [app] in E'. rewrite E'. rewrite (drop_ge (x :: b)) by (rewrite length_app; cbn; lia).
      change (chars "  ") with ([char " "] ++ [char " "]). rewrite !app_assoc.
      rewrite (display_backs [char " "] 1), <- !app_assoc, (app_assoc _ a), (display_backs (b ++ [char " "])).
      * exists (S (S k')). by rewrite <- !app_assoc.
      * rewrite zlen_app. done.
      * done.
  - apply Forall_app. split; [|done]. rewrite <- Ea'. by apply ztake_printable.
  - rewrite zlen_app. unfold FINSH_CMD_SIZE in *. lia.
  - rewrite zlen_app. lia.
Qed.

Lemma left_shows e : plain_editor e -> plain_editor (cursor_left e).
Proof.
  intros Hp. pose proof Hp as [[k Hs] H2 H3 H4 H5]. unfold cursor_left. destruct (Z.eqb_spec (ed_cursor e) 0) as [|H0]; [done|].
  constructor; try done; cbn [edit ed_screen ed_text ed_cursor ed_history]; [|lia].
  exists k. cbn [edit ed_screen ed_text ed_cursor ed_history]. rewrite display_app, Hs.
  replace (ed_cursor e) with (ed_cursor e - 1 + 1) at 1 2 by lia. rewrite ztake_add, app_assoc by lia.
  rewrite (zdrop_cons (ed_text e) (ed_cursor e - 1)) by lia.
  by rewrite (display_backs (ztake 1 (zget (ed_text e) (ed_cursor e - 1) :: zdrop (ed_cursor e - 1 + 1) (ed_text e))) 1).
Qed.

Lemma right_shows e : plain_editor e -> plain_editor (cursor_right e).
Proof.
  intros Hp. pose proof Hp as [[k Hs] H2 H3 H4 H5]. unfold cursor_right.
  destruct (Z.ltb_spec (ed_cursor e) (zlen (ed_text e))) as [Hlt|]; [|done].
  constructor; try done; cbn [edit ed_screen ed_text ed_cursor ed_history]; [|lia].
  exists k. cbn [edit ed_screen ed_text ed_cursor ed_history]. rewrite display_app, Hs, ztake_add by lia.
  pose proof (zdrop_printable (ed_cursor e) _ H2) as Hd. rewrite (zdrop_cons (ed_text e) (ed_cursor e)) in * by lia.
  inversion Hd as [|? ? Hc Hd']; subst. rewrite display_chars by (constructor; [exact Hc|constructor]). by rewrite <- app_assoc.
Qed.

(** ** History *)

Lemma erase_display l r : display (Terminal l r []) (erase ++ [13]) = Terminal [] (spaced (length l)) [].
Proof.
  rewrite display_app. change (display (Terminal l r []) erase) with (Terminal (spaced (length l)) [] []).
  transitivity (Terminal [] (spaced (length l) ++ []) []); [reflexivity|by rewrite app_nil_r].
Qed.

Lemma go_to_shows e i : plain_editor e -> 0 <= i < zlen (ed_history e) -> plain_editor (go_to prompt i e).
Proof using Hpr.
  intros Hp Hi. destruct (lookup_lt_is_Some_2 (ed_history e) (Z.to_nat i)) as [t Et]; [unfold zlen in Hi; lia|].
  pose proof (Forall_lookup_1 _ _ _ _ (pe_history _ Hp) Et) as [Ht Hl].
  apply (shows_line e _ (erase ++ [13]) t Hp); unfold go_to; rewrite ?nth_lookup, ?Et; try done.
  intros l r. exists (length l). apply erase_display.
Qed.

Lemma history_shows e :
  plain_editor e -> 0 <= ed_current e <= zlen (ed_history e) -> plain_editor (older prompt e) /\ plain_editor (newer prompt e).
Proof using Hpr.
  intros Hp Hc. unfold older, newer. split.
  - destruct (Z.ltb_spec 0 (ed_current e)); [|done]. apply go_to_shows; [done|lia].
  - destruct (Z.ltb_spec (ed_current e) (zlen (ed_history e) - 1)); [apply go_to_shows; [done|lia]|].
    destruct (Z.eqb_spec (zlen (ed_history e)) 0); [done|]. apply go_to_shows; [done|lia].
Qed.

(** ** Completion and commands *)

Lemma matches_lines found : Forall (fun s => printables s /\ zlen s < 40) found -> whole_lines (matches_text found).
Proof.
  unfold matches_text. intros H. induction H as [|s found [Hs Hl] H IH]; [by left|]. cbn [map concat].
  apply lines_cat; [|done]. apply console_line; [by apply printable_harmless|lia].
Qed.

Lemma help_lines_whole n d :
  Forall (fun s => printables s /\ zlen s < 40) n -> Forall (fun s => printables s /\ zlen s < 60) d ->
  whole_lines (help_lines n d).
Proof.
  intros H. revert d. induction H as [|s n [Hs Hl] H IH]; intros d Hd; [by left|]. destruct Hd as [|x d [Hx Hlx] Hd]; [by left|].
  cbn [help_lines]. apply lines_cat; [|by apply IH].
  replace (s ++ spaces (16 - zlen s) ++ chars " - " ++ x ++ [10]) with ((s ++ spaces (16 - zlen s) ++ chars " - " ++ x) ++ [10])
    by by rewrite <- !app_assoc.
  apply console_line.
  - repeat (apply harmless_app; split); try (by apply printable_harmless); [by apply Forall_replicate|by repeat constructor].
  - rewrite !zlen_app. change (zlen (chars " - ")) with 3. unfold spaces. pose proof (zlen_nonneg s).
    destruct (Z.leb_spec 0 (16 - zlen s)); [rewrite zlen_replicate by lia; lia|].
    replace (Z.to_nat (16 - zlen s)) with O by lia. change (zlen (replicate 0 (char " "))) with 0. lia.
Qed.

Lemma help_whole : whole_lines (help_text names descs).
Proof using Hpr.
  destruct Hpr as [Hn Hd _ _]. unfold help_text. change [10] with ([] ++ [10]) at 2.
  apply lines_cat; [apply console_line; [by repeat constructor|vm_compute; reflexivity]|].
  apply lines_cat; [by apply help_lines_whole|]. apply console_line; [constructor|vm_compute; reflexivity].
Qed.

Lemma completion_printable found : Forall (fun s => printables s) found -> printables (completion found).
Proof.
  intros H. destruct found as [|s l]; [constructor|]. inversion H as [|? ? Hs Hl]; subst.
  assert (completion (s :: l) `prefix_of` s) as [k Hk].
  { assert (Forall (prefix (completion (s :: l))) (s :: l)) as Hp by by apply completion_prefix. by inversion Hp. }
  rewrite Hk in Hs. by apply Forall_app in Hs as [Hs _].
Qed.

Lemma complete_shows e :
  plain_editor e -> zlen (ed_text (complete names descs prompt e)) < FINSH_CMD_SIZE -> plain_editor (complete names descs prompt e).
Proof using Hpr.
  intros Hp Hl. pose proof (pr_names Hpr) as Hn.
  assert (Forall (fun s => printables s /\ zlen s < 40) (matches (ed_text e) names)) as Hm.
  { apply Forall_forall. intros s Hs. apply list_elem_of_filter in Hs as [_ Hs]. by apply (proj1 (Forall_forall _ _) Hn). }
  unfold complete in *. cbv zeta in *. cbn [edit ed_text] in Hl.
  set (text' := if decide (ed_text e = [] \/ matches (ed_text e) names = []) then ed_text e else completion (matches (ed_text e) names)) in *.
  set (out := if decide (ed_text e = []) then help_text names descs else matches_text (matches (ed_text e) names)) in *.
  assert (whole_lines out) as Ho by (unfold out; destruct (decide (ed_text e = [])); [apply help_whole|by apply matches_lines]).
  apply (shows_line e _ (backs (ed_cursor e) ++ console_text [10] ++ out) text' Hp); try done.
  - cbn [edit ed_screen]. by rewrite <- !app_assoc.
  - unfold text'. destruct (decide _); [apply Hp|]. apply completion_printable. eapply Forall_impl; [exact Hm|]. by intros s [Hs _].
  - intros l r. exists O. rewrite app_assoc, display_app. change (console_text [10]) with [10].
    rewrite (display_line _ _ _ (backs_harmless _)). by apply display_lines.
Qed.

Lemma words_harmless n l : harmless l -> Forall harmless (words n l).1.
Proof.
  assert (forall l, harmless l -> harmless (drop_blanks l)) as Hd.
  { intros x Hx. destruct (drop_blanks_suffix x) as (b & E & _). rewrite E in Hx. by apply harmless_app in Hx as [_ Hx]. }
  revert l. induction n as [|n IH]; intros l Hl; cbn [words]; [constructor|]. pose proof (Hd l Hl) as H1.
  destruct (drop_blanks l) as [|c l']; [constructor|]. destruct (if c =? 34 then quoted l' else plain (c :: l')) as [s r] eqn:E.
  assert (harmless s /\ harmless r) as [Hs Hr].
  { destruct (c =? 34).
    - inversion H1 as [|? ? _ H2]; subst. destruct (quoted_app _ _ _ E) as [->|[-> ->]]; [|by split; [|constructor]].
      apply harmless_app in H2 as [Hs Hr]. split; [done|]. by inversion Hr.
    - apply plain_app in E. rewrite E in H1. by apply harmless_app in H1. }
  specialize (IH r Hr). destruct (words n r). by constructor.
Qed.

Lemma many_lines ws : Forall harmless ws -> whole_lines (many_text ws).
Proof.
  intros H. unfold many_text. apply lines_cat; [apply console_line; [by repeat constructor|vm_compute; reflexivity]|].
  apply lines_app; [|right; exists []; split; [done|constructor]|done]. induction H as [|s ws Hs H IH]; [constructor|]. cbn [map concat].
  apply harmless_app. split; [|done]. apply console_harmless, harmless_app. split; [done|]. by repeat constructor.
Qed.

Lemma find_action_in tok (a : list (option (action V))) n act : find_action tok a n = Some act -> Some act ∈ a.
Proof.
  revert n. induction a as [|f a IH]; intros [|s n]; cbn; try done. destruct (decide _); [intros ->; by left|]. intros H. right. by eapply IH.
Qed.

Lemma run_line_lines text v t v' :
  printables text -> zlen text < FINSH_CMD_SIZE -> run_line names actions text v = Some (t, v') -> whole_lines t.
Proof using Hpr.
  intros Ht Hl. unfold run_line. pose proof (printable_harmless _ Ht) as Hh. pose proof (drop_blanks_le text) as Hk. unfold leading in Hk.
  destruct (drop_blanks_suffix text) as (b & Eb & _). destruct (drop_blanks text) as [|c l] eqn:El; [intros [= <- <-]; by left|].
  destruct (find_action _ actions names) as [act|] eqn:Ef.
  - pose proof (words_harmless 10 text Hh) as Hw. destruct (words 10 text) as [ws rest]. cbn [fst snd] in *.
    destruct (act ws v) as [[t1 v1]|] eqn:Ea; [|done]. cbn [mbind option_bind]. intros [= <- <-].
    apply find_action_in in Ef. pose proof (pr_actions Hpr _ Ef _ _ _ _ Ea). apply lines_cat; [|done].
    unfold split_text. destruct rest; [by left|]. by apply many_lines.
  - intros E. assert (t = console_text ((to_space (c :: l) ++ chars ": command not found.") ++ [10])) as ->
      by (rewrite <- app_assoc; congruence). clear E. rewrite Eb in Hh. apply harmless_app in Hh as [_ Hh].
    assert (harmless (to_space (c :: l))) as Hs.
    { destruct (to_space_app (c :: l)) as [E|[r E]]; [by rewrite <- E|]. rewrite E in Hh. by apply harmless_app in Hh as [Hh _]. }
    apply console_line; [apply harmless_app; split; [done|by repeat constructor]|].
    rewrite zlen_app. change (zlen (chars ": command not found.")) with 20. pose proof (to_space_length (c :: l)). unfold FINSH_CMD_SIZE in *. lia.
Qed.

Lemma remember_plain text h :
  printables text -> zlen text < FINSH_CMD_SIZE -> Forall (fun t => printables t /\ zlen t < FINSH_CMD_SIZE) h ->
  Forall (fun t => printables t /\ zlen t < FINSH_CMD_SIZE) (remember text h).
Proof.
  intros Ht Hl Hh. unfold remember. destruct (decide _); [done|]. apply Forall_app. split; [|by repeat constructor].
  destruct (_ <=? _); [|done]. by destruct Hh.
Qed.

Lemma enter_shows e e' : plain_editor e -> enter names actions prompt true e = Some e' -> plain_editor e'.
Proof using Hpr.
  intros [[k Hs] H2 H3 H4 H5]. unfold enter. destruct (run_line names actions (ed_text e) (ed_world e)) as [[t v]|] eqn:Er; [|done].
  intros E. cbn in E. injection E as <-. constructor; cbn [ed_text ed_cursor ed_history]; try done.
  - exists O. cbn [ed_screen ed_text ed_cursor]. rewrite display_app, Hs.
    change (10 :: t ++ console_text prompt) with (([] ++ [10]) ++ t ++ console_text prompt). rewrite (display_app _ ([] ++ [10])).
    rewrite display_line, display_app by constructor. rewrite (display_lines t) by by eapply run_line_lines.
    pose proof (pr_prompt Hpr) as [Hp Hl]. rewrite console_text_small by lia. unfold fresh. rewrite display_chars by done.
    rewrite drop_nil. change (ztake 0 (@nil Z)) with (@nil Z). by rewrite app_nil_r.
  - by apply remember_plain.
Qed.

(** ** Keys *)

(** What a keyboard sends: printable characters, and the characters that the
    shell takes to mean something else. *)
Definition key_char (c : Z) : Prop := printable_char c \/ In c [0; 8; 9; 10; 13; 27; 127; 255].

Lemma char_shows e ch e' :
  plain_editor e -> key_char ch -> ch <> 27 -> zlen (ed_text e') < FINSH_CMD_SIZE ->
  editor_char names descs actions prompt true ch e = Some e' -> plain_editor e'.
Proof using Hpr.
  intros Hp Hc H27 Hl. unfold editor_char. destruct ((ch =? 0) || (ch =? 255)) eqn:E1; [by intros [= <-]|].
  destruct (ch =? 9) eqn:E2; [intros [= <-]; by apply complete_shows|].
  destruct ((ch =? 127) || (ch =? 8)) eqn:E3; [intros [= <-]; by apply delete_shows|].
  destruct ((ch =? 13) || (ch =? 10)) eqn:E4; [by apply enter_shows|]. apply insert_shows; [done|].
  destruct Hc as [Hc|Hc]; [done|]. rewrite orb_false_iff in E1, E3, E4. cbn in Hc. lia.
Qed.

Lemma plain_with_key e k : plain_editor e -> plain_editor (with_key k e).
Proof. intros []. by constructor. Qed.

Lemma key_shows e ch e' :
  plain_editor e -> 0 <= ed_current e <= zlen (ed_history e) -> key_char ch -> zlen (ed_text e') < FINSH_CMD_SIZE ->
  editor_key names descs actions prompt true ch e = Some e' -> plain_editor e'.
Proof using Hpr.
  intros Hp Hcur Hc Hl. pose proof (plain_with_key e WAIT_NORMAL Hp) as Hn.
  destruct (history_shows _ Hn Hcur) as [Hup Hdown]. unfold editor_key.
  destruct (Z.eqb_spec ch 27); [intros [= <-]; by apply plain_with_key|]. destruct (ed_key e).
  - by apply char_shows.
  - destruct (ch =? 91); [intros [= <-]; by apply plain_with_key|]. by apply char_shows.
  - cbv zeta. destruct (ch =? 65); [intros [= <-]; apply Hup|]. destruct (ch =? 66); [intros [= <-]; apply Hdown|].
    destruct (ch =? 68); [intros [= <-]; by apply left_shows|]. destruct (ch =? 67); [intros [= <-]; by apply right_shows|].
    by apply char_shows.
Qed.
End screen.

(** ** The shell's screen *)

Section shown.
Context {V : Type}.
Context (table : list (finsh_syscall (finsh_shell * V))).
Context (names descs : list (list Z)) (actions : list (option (action V))).
Context (line cmd_history finsh_prompt : Z) (prompt : list Z) (prompt_mode prompt_custom : Z).
Context (Hlay : layout table names descs actions line cmd_history finsh_prompt prompt).
Context (Hpr : presentable names descs actions prompt).

Local Abbreviation hold := (holds table names descs line cmd_history finsh_prompt prompt prompt_mode prompt_custom).
Local Abbreviation state := (shell_of true prompt_mode prompt_custom).

Lemma keys_shown chs : Forall key_char chs -> forall m (e e' : editor V),
  hold m e -> plain_editor prompt e -> editor_keys names descs actions prompt true chs e = Some e' ->
  exists m', finsh_keys table line cmd_history finsh_prompt chs (state e m) = Some (tt, state e' m') /\
    hold m' e' /\ plain_editor prompt e'.
Proof using Hlay Hpr.
  intros H. induction H as [|c chs Hc H IH]; intros m e e' Hm Hp; cbn [editor_keys].
  { intros [= <-]. by exists m. }
  destruct (editor_key _ _ _ _ _ c e) as [e1|] eqn:E1; [|done]. intros E. cbn in E.
  assert (0 <= c < 256) as Hr.
  { unfold key_char, printable_char in Hc. cbn in Hc. lia. }
  destruct (finsh_key_ok _ _ _ _ _ _ _ _ _ _ _ Hlay m e c e1 Hm Hr E1) as (m1 & Ek & H1).
  pose proof (key_shows _ _ _ _ Hpr e c e1 Hp (hd_current _ _ _ _ _ _ _ _ _ _ _ Hm) Hc (hd_short _ _ _ _ _ _ _ _ _ _ _ H1) E1) as Hp1.
  destruct (IH m1 e1 e' H1 Hp1 E) as (m2 & E2 & H2). exists m2. split; [|done].
  cbn [finsh_keys]. by rewrite (bind_ok _ _ _ _ _ Ek).
Qed.

(** The shell when its thread starts. *)
Definition cleared (f : finsh_shell) : Prop :=
  fs_stat f = WAIT_NORMAL /\ fs_prompt_mode f = prompt_mode /\ fs_prompt_custom f = prompt_custom /\
  fs_current_history f = 0 /\ fs_history_count f = 0 /\ fs_line_position f = 0 /\ fs_line_curpos f = 0.
Definition blank_editor (v : V) : editor V := Editor WAIT_NORMAL [] 0 [] 0 [] v.
Definition started (v : V) : editor V := Editor WAIT_NORMAL [] 0 [] 0 prompt v.

Lemma entry_spec m f v chs :
  cleared f -> hold m (blank_editor v) ->
  exists m', finsh_thread_entry table line cmd_history finsh_prompt chs (ShellState m [] (f, v)) =
      finsh_keys table line cmd_history finsh_prompt chs (state (started v) m') /\ hold m' (started v).
Proof using Hlay Hpr.
  intros (H1 & H2 & H3 & H4 & H5 & H6 & H7) Hm. unfold finsh_thread_entry. rewrite update_bind.
  assert (with_modes 1 (fs_prompt_mode f) f = fields true prompt_mode prompt_custom (started v)) as ->.
  { destruct f. cbn in *. by subst. }
  destruct (print_prompt_spec _ _ _ _ _ _ _ _ _ _ Hlay m [] (fields true prompt_mode prompt_custom (started v)) v
    (hd_env _ _ _ _ _ _ _ _ _ _ _ Hm) eq_refl eq_refl) as (m' & E & Hch).
  exists m'. rewrite (bind_ok _ _ _ _ _ E). pose proof (pr_prompt _ _ _ _ Hpr) as [_ Hl].
  cbn [app]. rewrite console_text_small by lia. split; [done|].
  pose proof (holds_prompt _ _ _ _ _ _ _ _ _ _ Hlay _ _ _ Hm Hch) as Hm'. destruct Hm'. by constructor.
Qed.

(** C27: The user sees what is in the line. From the start of the shell's thread,
    whatever keys are typed, of the printable characters and the control characters that the shell
    acts on ([key_char]: 0, backspace, tab, line feed, carriage return, escape, delete and 255; any other byte
    would go into the line without being shown), the terminal that receives all the shell has printed
    shows in the line of its cursor the prompt and the text that is in the line's
    buffer, with nothing behind it, and its cursor stands where the shell will
    insert the next character: all the backspaces, blanks and repeated characters
    that the shell sends are right. This holds if prompt, names and descriptions
    are short and printable and the commands print whole lines, for a terminal
    whose lines are wide enough, as long as no line reaches 80 characters. *)
Theorem finsh_shows_line m f v chs e' :
  cleared f -> hold m (blank_editor v) -> Forall key_char chs ->
  editor_keys names descs actions prompt true chs (started v) = Some e' ->
  exists s k,
    finsh_thread_entry table line cmd_history finsh_prompt chs (ShellState m [] (f, v)) = Some (tt, s) /\
    line_holds (sh_memory s) line 81 (ed_text e') /\
    fs_line_position (sh_world s).1 = zlen (ed_text e') /\ fs_line_curpos (sh_world s).1 = ed_cursor e' /\
    display fresh (sh_out s) =
      Terminal (prompt ++ ztake (ed_cursor e') (ed_text e')) (zdrop (ed_cursor e') (ed_text e') ++ spaced k) [].
Proof using Hlay Hpr.
  intros Hf Hm Hchs E. destruct (entry_spec m f v chs Hf Hm) as (m1 & E1 & H1).
  assert (plain_editor prompt (started v)) as Hp.
  { constructor; try done. exists O. cbn [started ed_screen ed_text ed_cursor]. pose proof (pr_prompt _ _ _ _ Hpr) as [Hp _].
    unfold fresh. rewrite display_chars by done. by rewrite app_nil_r, drop_nil. }
  destruct (keys_shown chs Hchs m1 _ e' H1 Hp E) as (m2 & E2 & H2 & [[k Hs] _ _ Hc _]).
  exists (state e' m2), k. rewrite E1, E2. split_and!; [done|apply H2|done|done|exact Hs].
Qed.
End shown.

(** The system of FinshCorrect.v: "ec", back, "h" to the left of it, a line of the
    history, and the completion of a name. *)
Definition screen_keys : list Z :=
  chars "eo x" ++ [27; 0x5b; 0x44; 8; 8] ++ chars "ch" ++ [13; 27; 0x5b; 0x41; 8; 8; 13] ++ chars "li" ++ [9; 27; 0x5b; 0x44].

Lemma finsh_presentable : presentable finsh_names finsh_descs finsh_actions (chars "msh >").
Proof.
  assert (forall l, forallb (fun c => (32 <=? c) && (c <? 127)) l = true -> Forall printable_char l) as Hl.
  { intros l H. apply Forall_forall. intros c Hc. rewrite forallb_forall in H. apply list_elem_of_In in Hc.
    specialize (H c Hc). unfold printable_char. lia. }
  constructor.
  - repeat (constructor; [split; [by apply Hl|done]|]). constructor.
  - repeat (constructor; [split; [by apply Hl|done]|]). constructor.
  - split; [by apply Hl|done].
  - intros act Ha ws v t v'. unfold finsh_actions in Ha. 
    apply list_elem_of_In in Ha. cbn in Ha. assert (act = count_action) as -> by (destruct Ha as [[= <-]|[[= <-]|[]]]; done).
    intros [= <- _]. by left.
Qed.

Lemma finsh_shows_line_witness : exists s k,
  finsh_thread_entry finsh_table 100 300 800 screen_keys (ShellState finsh_memory [] (FinshShell WAIT_NORMAL 0 1 0 0 0 0 0, 0)) =
    Some (tt, s) /\
  display fresh (sh_out s) = Terminal (chars "msh >list_threa") (chars "d" ++ spaced k) [].
Proof.
  assert (exists e, editor_keys finsh_names finsh_descs finsh_actions (chars "msh >") true screen_keys (started (chars "msh >") 0) = Some e /\
    ed_text e = chars "list_thread" /\ ed_cursor e = 10) as (e & E & Ht & Hc).
  { eexists. split; [vm_compute; reflexivity|]. split; reflexivity. }
  destruct (finsh_shows_line finsh_table finsh_names finsh_descs finsh_actions 100 300 800 (chars "msh >") 1 0
    finsh_layout finsh_presentable finsh_memory (FinshShell WAIT_NORMAL 0 1 0 0 0 0 0) 0 screen_keys e)
    as (s & k & Er & _ & _ & _ & Hd).
  - by repeat split.
  - exact finsh_start_holds.
  - apply Forall_forall. intros c Hk. assert (forallb (fun c => ((32 <=? c) && (c <? 127)) || existsb (Z.eqb c) [0; 8; 9; 10; 13; 27; 127; 255])
      screen_keys = true) as Hb by (vm_compute; reflexivity).
    rewrite forallb_forall in Hb. apply list_elem_of_In in Hk. specialize (Hb c Hk). unfold key_char, printable_char.
    cbn [existsb In] in *. lia.
  - exact E.
  - exists s, k. split; [exact Er|]. rewrite Hd, Ht, Hc. reflexivity.
Defined.
